(* ===== verification/_CoqProject ===== *)
-Q . S2P
Prelude.v
ExchangeSpec.v
CombineSchedule.v
CombineRing.v
CombinePair.v
CombineProps.v
CombineGroup.v
CombineWire.v
CombineProtocol.v
CombineProtocolInv.v
CombineProtocolProps.v
PlanTypes.v
PlanSort.v
PlanAlgorithm.v
PlanOutput.v
PlanMove.v
PlanBalance.v
PlanFinal.v
PlanSegments.v
PlanBounds.v
PlanLayout.v
PlanDst.v
PlanAgree.v
PlanTargets.v
PlanProps.v
PlanDownstream.v
PlanDuplicates.v
DispatchSchedule.v
DispatchPeers.v
DispatchRanges.v
DispatchCredit.v
WqeRing.v
WqeProps.v
Layouts.v
PlanWorkspace.v
PlanRounds.v
RefPlan.v
RefOutput.v
RefMove.v
RefBalance.v
RefLayout.v
RefDst.v
RefValid.v
RefProps.v
RefCheck.v
RefAccept.v
UdmaTypes.v
UdmaQueue.v
UdmaOps.v
UdmaRing.v
UdmaPost.v
UdmaProps.v
UdmaPut.v
GradLayout.v
StageCombine.v
StageDispatch.v
StageCombineV2.v
StageWindow.v
StagePrefetch.v
PrefetchKernel.v
PrefetchFrame.v
PrefetchReads.v
PrefetchProps.v
GradKernel.v
GradWave.v
GradTile.v
GradShare.v
GradLane.v
GradLaneInv.v
GradBound.v
GradProps.v
GradClear.v
UdmaGrad.v
PlanKernel.v
PlanKernelInv.v
PlanKernelProps.v
PlanHost.v
PlanHostProps.v
PlanCompat.v
