(* ===== verification/Prelude.v ===== *)
(** * TileXR: a verification library for the MoonEP exchange stages

    TileXR is a communication library for mixture-of-experts models on a job of [R] ranks. Its
    MoonEP part runs, for every layer, a _plan_ (which rank computes which expert for which
    tokens, and in which slot of its receive window every route lands), a _dispatch_ (tokens are
    sent to those slots) and a _combine_ (results come back). This library translates the parts
    of that program that carry its logic, from src/src/moonep and src/src/include, and proves
    what makes them correct.

    ** The parts and the files

    Shared.
    - [Prelude]: fixed-width arithmetic ([u32], [u64] and so on write out the wrap-around),
      lists of integers, sums, tactics and hints. [ExchangeSpec]: the class [Exchange], what
      an all-to-all schedule promises (every pair of ranks meets at exactly one step, on one
      core), and the consequences that clients use.

    Combine (common/moonep_combine_schedule.h and combine_v2/kernels/
    tilexr_moonep_combine_v2_kernel.h).
    - [CombineSchedule]: every schedule function of the header, with the sentinels of invalid
      coordinates. [CombineRing] and [CombinePair] show that the single-ring, bidirectional-ring
      and server-pair schedules are instances of [Exchange], seen from the sender and from the
      receiver; [CombineProps] states what follows for the functions the kernel calls, whatever
      the job size and the mode; [CombineGroup] does the same for the 128-rank group schedule.
    - [CombineWire]: launch magics, completion tokens, credit signals with their guards, and the
      slots of the completion, credit, status and failure windows.
    - [CombineProtocol]: the step loop of [MoonEpCombineV2::Process] on all cores of all ranks as
      a step relation: wait for the credit of the step, send, wait for the inbound completion,
      publish the credit of the next step, with time-outs and transport failures.
      [CombineProtocolInv] holds the invariants, [CombineProtocolProps] the theorems: a core past
      a wait finds its partner where the schedule says, a rank whose cores are all through has
      everything sent to it, no deadlock, and every failure-free run can be completed.

    Planner (planner_v2).
    - [PlanTypes], [PlanSort], [PlanAlgorithm], [PlanOutput]: common/ep_plan_algorithm_impl.h,
      from validation through [RunIntra], [RunInter] and [AppendRemainders] to [BuildLayouts],
      [BuildDst], the status words and [RunPlanAlgorithm]. The [int32_t] tables of the workspace
      are functions from the index; that their values stay in 32 bits is a theorem.
    - [PlanMove] (the balancing invariant and its preservation by one expert move),
      [PlanBalance] (the rounds keep it and stop), [PlanFinal] (from the input to the end of the
      balancing), [PlanSegments], [PlanBounds], [PlanLayout], [PlanDst], [PlanAgree],
      [PlanTargets] (lemmas on the segment log, the layouts, the destinations, the agreement of
      ranks that plan separately, the migration bitmaps), [PlanProps] (the theorems about a
      planner call), [PlanRounds] (the two round counters stay below [R * cap]).
    - [RefPlan], [RefOutput], [RefCheck]: reference/ep_plan_reference.cpp, a second planner that
      plans for all the ranks at once with standard containers, and the checker of its plans.
      [RefMove], [RefBalance], [RefLayout], [RefDst] and [RefValid] run the two planners side by
      side (one expert move, the stages, the layouts, the destinations, the validation);
      [RefProps] concludes that the plan of every rank is its slice of the reference plan,
      [RefAccept] that the checker accepts the plans of the reference planner. Both compute their
      table indices with [int32_t]; where that overflows their models return [None], and the
      theorems ask for sizes where it does not.
    - [PlanDownstream], [PlanDuplicates]: common/ep_plan_downstream.cpp, the decoding of the plan
      by the later stages.
    - [Layouts], [PlanWorkspace]: the checked layout arithmetic of common/moonep_stage_layout.h
      with the theory of packed regions, the descriptors of include/tilexr_moonep.h, the planner
      workspace as the host builds it (common/ep_plan_layout.cpp) and as the kernel recomputes it
      with wrapping arithmetic, and the mailbox rows (common/ep_plan_peer_mailbox.h).
    - [PlanKernel]: kernels/tilexr_moonep_planner_kernel.cpp on all the ranks of a job as a step
      relation; [PlanKernelInv] its invariants; [PlanKernelProps] the theorems: a committed epoch
      means all ranks planned the same job with [PLAN_OK], the slots of different ranks do not
      collide, no deadlock, bounded runs.
    - [PlanHost]: the host side (host/ep_plan_host.cpp, planner_launch.cpp,
      tilexr_moonep_planner.cpp, with the communicator functions they call): the checks of a
      call, its header, the arguments of the launch, and the call on one workspace of the caller.
      [PlanHostProps] shows which assumptions of the kernel theorems calls that succeed meet, and
      which remain, [PlanCompat] what the call on one workspace does from the size query on.

    Dispatch (dispatch/urma/common) and the work queues.
    - [DispatchSchedule]: dispatch_common.h and dispatch_schedule.h; [DispatchPeers],
      [DispatchRanges]: every peer is served exactly once, the credits match the waits, ranges
      tile. [DispatchCredit]: dispatch_credit.h, order of the credits and their slots.
    - [WqeRing], [WqeProps]: dispatch_wqe_batch.h and combine_v2_wqe_batch.h, the 32-bit counters
      of the send and completion rings against the unbounded counters they stand for, and the
      split of routes over two queues.

    Stage layouts (the host layouts of the exchange stages).
    - [StageCombine] (combine/host/combine_layout.cpp), [StageDispatch]
      (dispatch/urma/host/dispatch_layout.cpp), [StageCombineV2]
      (combine_v2/host/combine_v2_layout.cpp) and [StageWindow] (dispatch/host/dispatch_layout.cpp):
      the windows and workspaces with every refusal. The regions do not overlap and are aligned,
      chunks of a row are as wide as the window allows and cover the row, the slots that
      kernels compute lie in their regions.

    UDMA queues (include/tilexr_udma.h, tilexr_udma_types.h, tilexr_udma_reg.h): the device-side
    wrapper of the send and completion queues.
    - [UdmaTypes], [UdmaQueue], [UdmaOps]: the registries with their checks, the work entries,
      posts, polls, door bells, waits, and the puts, gets and signals built from them. [UdmaRing]
      relates the 32-bit words and the rings to an unbounded log of entries, and states what is asked
      of a device ([device_ok]: completion entries appear in the order of the posts, as time
      goes on); [UdmaPost] the effect of a post. [UdmaProps], [UdmaPut] and [UdmaGrad] hold the
      theorems: a poll reaps a prefix of the log, a post appends one entry and keeps the others,
      puts and gets stay inside registered memory.

    Weight prefetch (prefetch_weight): a rank copies the weights of the experts it borrows.
    - [StagePrefetch]: host/prefetch_weight_layout.cpp and prefetch_weight_host.cpp, the rows, the
      number of workers, the map of queue pairs and the preparation of a launch.
      [PrefetchKernel]: kernels/tilexr_moonep_prefetch_weight_kernel.cpp. [PrefetchFrame] has
      what posts and polls of one queue leave alone in the others, [PrefetchReads] the invariant
      of the reads that were posted, [PrefetchProps] the theorems on a worker and on the status
      word.

    Gradient reduction (reduce_grad): the rank that owns an expert adds up the gradients of its
    copies on the other ranks.
    - [GradLayout]: common/reduce_grad_common.h and host/reduce_grad_layout.cpp, the split of the
      queue pairs over the three projections and the workspace of a launch.
    - [GradKernel], [GradWave], [GradLane], [GradClear]: kernels/
      tilexr_moonep_reduce_grad_kernel.cpp. [GradKernel] has the checks, tokens, words and the
      helpers of a lane, [GradWave] the waves of contributors, the items and the tiles,
      [GradLane] the leaders and helpers as a step relation (two banks of the workspace filled
      and emptied in turn), [GradClear] the phases around it up to [Process].
    - [GradTile] and [GradShare] hold the lemmas on one tile and on the sharing of the work,
      [GradLaneInv] the invariant, [GradBound] the measure that every step lowers, [GradProps]
      the theorems on words, blocks and runs; [grad_process] in [GradClear] is the whole: a
      launch that ends with status zero leaves the sums, in the order of the plan, and clears the
      copies; one that fails leaves the copies.

    ** How the parts interact

    The planner's plan is what dispatch and combine follow: [plan_dst_slots] and
    [plan_commit_slots] give every route of every rank a slot of its own, so that the
    one-sided writes of the dispatch never collide; [plan_routes_described] carries that to the
    descriptors dispatch uses. The kernels of the ranks of a job meet only in shared windows:
    the planner in mailbox rows and barrier words, dispatch in credit words, combine in credit
    and completion words; the theorems on tokens, guards and slots say that a word of one
    exchange is never taken for a word of another, and the protocol theorems use them. The
    combine protocol is proved against the class [Exchange]; the schedules discharge it.
    A planner call of the host that succeeds gives the kernel sizes, epochs and configurations that the kernel
    theorems ask for; the state of the memory, the affinity rows it caches and the bound on the loads
    remain assumptions ([plan_host_launch]). The gradient lanes ask their queues for one thing, an oracle in their
    model; the wait of the UDMA wrapper discharges it ([udma_quiet_discharges]). The prefetch goes
    from an accepted layout through the launch to posts and polls of the same wrapper, on
    several queue pairs side by side in one memory, some of them shared by owners.

    ** Bounds, fuel and granularity

    - The balancing rounds run on fuel [round_fuel = R * cap + 1]. A round that continues lowers
      the total overload, which starts at most at [R * cap], so the fuel is never exhausted;
      [plan_returns] is stated without a condition on it. The reference planner runs on the same
      fuel and, by the simulation, never exhausts it either.
    - Loops over ranks, experts, routes and slots are recursions on the list of indices.
    - One transition of a protocol model is one write of a remote row or word, one successful
      poll or read of one row, or a computation of one rank. A row is written at once; the code
      lets a reader look at a row only after a flag that is written later, and the waits of the
      model read those flags. Every wait may also end in a time-out at any moment.
    - Device pointers are addresses in the layout, queue and host files, where the theorems are
      about offsets, sizes and words; a table of the planner algorithm is a function.
    - In the gradient reduction a step is one poll (of a word and of the abort word at once), one
      store, one tile, or the arrival of the data of one get. What the queues answer is an oracle;
      the one thing asked of it is that a queue is reported quiet up to a frontier only when the
      gets before it have arrived. The runs are bounded by [lane_steps], a sum over the lanes of
      what a turn of the leader and an item of a helper cost with every poll failing. The theorems
      assume ([grad_run_ok]) a layout the host accepted, gradients that are addressable in 64 bits,
      fewer than [2^32 - 2] waves per lane, and words in the workspace that are no tokens of this
      launch (the launch magic is new). Numbers and their addition are parameters.
    - A wait on a completion queue looks [TILEXR_UDMA_MAX_RETRY_TIMES] times per entry and at most
      as many entries as separate the counters from the target, which is the fuel of the polls. The
      queues are indexed by a time that every look advances. The fuel of the posts of a
      prefetch worker is its number of slots, that of the halving of its workers is 32.
      Each worker runs on its own queue pairs; the status word is reached in any order.
    - What the vendor runtime answers to the host is an argument, what it is asked to do (copies and
      a launch) is a list of effects.
    - [PlanKernelProps] assumes [R * cap] below the debug tag 0x5A17C0DE, because the kernel keeps
      the tag in the word that also counts rounds.

    ** Not modelled

    Copies through the unified buffer, cache maintenance and the other device intrinsics; the
    payload copies, the profiling and the final reduction of the dispatch and combine kernels, the
    credit protocol of the dispatch kernel and the whole of the 128-rank combine kernel (their
    schedules, credits, slots and layouts are modelled); the event flags that order the pipelines of
    one core in the gradient reduction, and the words of its barrier (its outcome is an argument);
    the host code of the dispatch, combine and gradient stages beside the layouts, the first
    generation of the planner and its layout; registration and launch in the vendor runtime;
    sockets, driver queues and memory registration of the communicator; the collectives and the older operators under
    src/src/ep; tools, scripts and Python bindings. They are vendor calls, input and output, or
    are left for later extensions: next would be the credit protocol of the dispatch kernel on top of
    [DispatchCredit] and [UdmaOps], and the trace checker under src/tools/checker. *)
From Stdlib Require Export ZArith Lia Bool Permutation.
From stdpp Require Export base numbers list list_numbers sorting.

#[global] Open Scope Z_scope.

(** ** Fixed-width unsigned arithmetic *)

Definition UINT32_MAX : Z := 4294967295.
Definition UINT64_MAX : Z := 18446744073709551615.
Definition INT32_MAX : Z := 2147483647.
Definition INT32_MIN : Z := -2147483648.
Definition INT64_MAX : Z := 9223372036854775807.

(** Reduction to the width of a [uint32_t] or [uint64_t]. *)
Definition u32 (x : Z) : Z := x mod 4294967296.
Definition u64 (x : Z) : Z := x mod 18446744073709551616.

(** The values a [uint32_t], [uint64_t], [int32_t] or [int64_t] object can hold. *)
Definition is_u32 (x : Z) : Prop := 0 <= x <= UINT32_MAX.
Definition is_u64 (x : Z) : Prop := 0 <= x <= UINT64_MAX.
Definition is_i32 (x : Z) : Prop := INT32_MIN <= x <= INT32_MAX.
Definition is_i64 (x : Z) : Prop := - INT64_MAX - 1 <= x <= INT64_MAX.

Declare Scope u32_scope.
Declare Scope u64_scope.
Delimit Scope u32_scope with u32.
Delimit Scope u64_scope with u64.

(** Inside [%u32] the operators [+], [-], [*] and [≪] wrap at 32 bits, as those of
    [uint32_t] do; quotient, remainder, masks and right shifts cannot leave the range and
    are the integer operations. [%u64] is the same at 64 bits. *)
Notation "x + y" := (u32 (x%u32 + y%u32)%Z) : u32_scope.
Notation "x - y" := (u32 (x%u32 - y%u32)%Z) : u32_scope.
Notation "x * y" := (u32 (x%u32 * y%u32)%Z) : u32_scope.
Notation "x / y" := (x%u32 / y%u32)%Z (only parsing) : u32_scope.
Notation "x `mod` y" := (x%u32 mod y%u32)%Z (only parsing) : u32_scope.
Notation "x ≪ n" := (u32 (Z.shiftl x%u32 n%u32)) : u32_scope.
Notation "x ≫ n" := (Z.shiftr x%u32 n%u32) (only parsing) : u32_scope.
Notation "x .& y" := (Z.land x%u32 y%u32) (at level 45, left associativity, only parsing) : u32_scope.
Notation "x .^ y" := (Z.lxor x%u32 y%u32) (at level 52, left associativity, only parsing) : u32_scope.
Notation "x .| y" := (Z.lor x%u32 y%u32) (at level 53, left associativity, only parsing) : u32_scope.
Notation "x <? y" := (x%u32 <? y%u32)%Z (only parsing) : u32_scope.
Notation "x <=? y" := (x%u32 <=? y%u32)%Z (only parsing) : u32_scope.
Notation "x =? y" := (x%u32 =? y%u32)%Z (only parsing) : u32_scope.
Notation "x + y" := (u64 (x%u64 + y%u64)%Z) : u64_scope.
Notation "x - y" := (u64 (x%u64 - y%u64)%Z) : u64_scope.
Notation "x * y" := (u64 (x%u64 * y%u64)%Z) : u64_scope.
Notation "x / y" := (x%u64 / y%u64)%Z (only parsing) : u64_scope.
Notation "x `mod` y" := (x%u64 mod y%u64)%Z (only parsing) : u64_scope.
Notation "x ≪ n" := (u64 (Z.shiftl x%u64 n%u64)) : u64_scope.
Notation "x ≫ n" := (Z.shiftr x%u64 n%u64) (only parsing) : u64_scope.
Notation "x .& y" := (Z.land x%u64 y%u64) (only parsing) : u64_scope.
Notation "x .^ y" := (Z.lxor x%u64 y%u64) (only parsing) : u64_scope.
Notation "x .| y" := (Z.lor x%u64 y%u64) (only parsing) : u64_scope.
Notation "x <? y" := (x%u64 <? y%u64)%Z (only parsing) : u64_scope.
Notation "x <=? y" := (x%u64 <=? y%u64)%Z (only parsing) : u64_scope.
Notation "x =? y" := (x%u64 =? y%u64)%Z (only parsing) : u64_scope.

Lemma u32_small x : 0 <= x < 4294967296 -> u32 x = x.
Proof. intros. unfold u32. apply Z.mod_small. lia. Qed.

Lemma u64_small x : 0 <= x < 18446744073709551616 -> u64 x = x.
Proof. intros. unfold u64. apply Z.mod_small. lia. Qed.

Lemma u32_range x : 0 <= u32 x < 4294967296.
Proof. unfold u32. apply Z.mod_pos_bound. lia. Qed.

Lemma u64_range x : 0 <= u64 x < 18446744073709551616.
Proof. unfold u64. apply Z.mod_pos_bound. lia. Qed.

(** ** Arrays as functions *)

Definition upd1 {A : Type} (f : Z -> A) (i : Z) (v : A) : Z -> A :=
  fun x => if x =? i then v else f x.

Lemma upd1_eq {A} (f : Z -> A) i v : upd1 f i v i = v.
Proof. unfold upd1. by rewrite Z.eqb_refl. Qed.

Lemma upd1_ne {A} (f : Z -> A) i v x : x <> i -> upd1 f i v x = f x.
Proof. intros H. unfold upd1. by apply Z.eqb_neq in H as ->. Qed.

(** ** Automation *)

Create HintDb tilexr.

(** Turns the boolean tests of the code in hypotheses and goal into the propositions they decide. *)
Ltac b2p :=
  repeat match goal with
  | H : (_ && _) = true |- _ => apply andb_prop in H as [? ?]
  | H : (_ || _) = false |- _ => apply orb_false_elim in H as [? ?]
  | H : (_ || _) = true |- _ => apply orb_true_iff in H
  | H : (_ && _) = false |- _ => apply andb_false_iff in H
  | H : negb _ = true |- _ => apply negb_true_iff in H
  | H : negb _ = false |- _ => apply negb_false_iff in H
  | H : (_ <? _) = true |- _ => apply Z.ltb_lt in H
  | H : (_ <? _) = false |- _ => apply Z.ltb_ge in H
  | H : (_ <=? _) = true |- _ => apply Z.leb_le in H
  | H : (_ <=? _) = false |- _ => apply Z.leb_gt in H
  | H : (_ =? _) = true |- _ => apply Z.eqb_eq in H
  | H : (_ =? _) = false |- _ => apply Z.eqb_neq in H
  end.

(** Case analysis on the innermost boolean or [option] scrutinee of a conditional. *)
Ltac case_if :=
  match goal with
  | |- context [if ?b then _ else _] =>
      lazymatch b with
      | context [if _ then _ else _] => fail
      | _ => let E := fresh "E" in destruct b eqn:E
      end
  end.

Ltac case_if_in H :=
  match type of H with
  | context [if ?b then _ else _] =>
      lazymatch b with
      | context [if _ then _ else _] => fail
      | _ => let E := fresh "E" in destruct b eqn:E
      end
  end.

(** Linear arithmetic with quotients and remainders. *)
Ltac div_lia := Z.to_euclidean_division_equations; lia.

(** Removes a width reduction whose argument is provably in range. *)
Ltac unwrap32 :=
  repeat match goal with
  | |- context [u32 ?x] =>
      lazymatch x with context [u32 _] => fail | _ => rewrite (u32_small x) by solve [lia | div_lia] end
  end.

Ltac unwrap64 :=
  repeat match goal with
  | |- context [u64 ?x] =>
      lazymatch x with context [u64 _] => fail | _ => rewrite (u64_small x) by solve [lia | div_lia] end
  end.

(** ** Loops

    [loop_ret body l s] runs [body] over the iteration values [l]; [inl] continues with a new
    state and [inr] leaves the enclosing function with a result. [seqZ 0 n] is the range of
    [for (i = 0; i < n; ++i)]. *)
Fixpoint loop_ret {A S R : Type} (body : A -> S -> S + R) (l : list A) (s : S) : S + R :=
  match l with
  | [] => inl s
  | x :: l' => match body x s with inl s' => loop_ret body l' s' | inr r => inr r end
  end.

(** A loop keeps what its body keeps; an early return satisfies what the body ensures there. *)
Lemma loop_ret_inv {A S R : Type} (I : S -> Prop) (Q : R -> Prop) (body : A -> S -> S + R) l s :
  (forall x s, x ∈ l -> I s -> match body x s with inl s' => I s' | inr r => Q r end) -> I s ->
  match loop_ret body l s with inl s' => I s' | inr r => Q r end.
Proof.
  revert s. induction l as [|x l IH]; intros s H Hs; [done|]. cbn.
  pose proof (H x s ltac:(by left) Hs) as Hx. destruct (body x s) as [s'|r]; [|done].
  apply IH; [|done]. intros. apply H; [by right|done].
Qed.

(** A loop whose iterations each establish a fact that later ones keep establishes them all. *)
Lemma loop_ret_all {A S R : Type} (I : S -> Prop) (D : A -> S -> Prop) (Q : R -> Prop)
    (body : A -> S -> S + R) l s :
  (forall x s, x ∈ l -> I s ->
     match body x s with
     | inl s' => I s' /\ D x s' /\ forall y, D y s -> D y s'
     | inr r => Q r
     end) ->
  I s ->
  match loop_ret body l s with
  | inl s' => I s' /\ (forall x, x ∈ l -> D x s') /\ forall y, D y s -> D y s'
  | inr r => Q r
  end.
Proof.
  revert s. induction l as [|x l IH]; intros s H Hs; cbn.
  { split; [done|]. split; [|done]. intros x Hx. by inversion Hx. }
  pose proof (H x s ltac:(by left) Hs) as Hx. destruct (body x s) as [s'|r]; [|done].
  destruct Hx as (Hs' & Hd & Hkeep).
  pose proof (IH s' ltac:(intros; apply H; [by right|done]) Hs') as Hl.
  destruct (loop_ret body l s') as [s2|r]; [|done]. destruct Hl as (H2 & Hall & Hkeep2).
  split; [done|]. split; [|auto]. intros y Hy. apply elem_of_cons in Hy as [->|Hy]; auto.
Qed.

Lemma loop_ret_app {A S R : Type} (body : A -> S -> S + R) l1 l2 s :
  loop_ret body (l1 ++ l2) s =
  match loop_ret body l1 s with inl s' => loop_ret body l2 s' | inr r => inr r end.
Proof. revert s. induction l1 as [|x l1 IH]; intros s; cbn; [done|]. by destruct (body x s). Qed.

(** A loop of checks that runs to its end passed every check. *)
Lemma loop_ret_checks {A R : Type} (body : A -> unit -> unit + R) l u :
  loop_ret body l tt = inl u -> forall x, x ∈ l -> body x tt = inl tt.
Proof.
  induction l as [|y l IH]; intros H x Hx; [by inversion Hx|]. cbn in H.
  destruct (body y tt) as [[]|r] eqn:Ey; [|done]. apply elem_of_cons in Hx as [->|Hx]; auto.
Qed.

(** The value of a search loop: the early result, or a default. *)
Definition found {S R : Type} (d : R) (x : S + R) : R :=
  match x with inl _ => d | inr r => r end.

(** ** Masks and constant folding *)

Lemma land_1 x : Z.land x 1 = x mod 2.
Proof. apply (Z.land_ones x 1). lia. Qed.

Lemma land_3 x : Z.land x 3 = x mod 4.
Proof. apply (Z.land_ones x 2). lia. Qed.

Lemma land_7 x : Z.land x 7 = x mod 8.
Proof. apply (Z.land_ones x 3). lia. Qed.

(** A field placed above the bits of another one: the disjunction is a sum. *)
Lemma lor_shiftl_add x y k : 0 <= k -> 0 <= x < 2 ^ k -> Z.lor x (Z.shiftl y k) = x + y * 2 ^ k.
Proof.
  intros Hk Hx. rewrite <- Z.shiftl_mul_pow2 by done. symmetry. apply Z.add_nocarry_lor.
  apply Z.bits_inj'. intros i Hi. rewrite Z.land_spec, Z.bits_0, Z.shiftl_spec by done.
  destruct (Z.lt_ge_cases i k).
  - rewrite (Z.testbit_neg_r y) by lia. apply andb_false_r.
  - rewrite <- (Z.mod_small x (2 ^ k)), Z.mod_pow2_bits_high by lia. done.
Qed.

Ltac is_Zcst x :=
  lazymatch x with Z0 => idtac | Zpos _ => idtac | Zneg _ => idtac | _ => fail end.

(** Evaluates the arithmetic of the goal whose operands are literals. *)
Ltac eval_consts :=
  repeat match goal with
  | |- context [?op ?a ?b] =>
      is_Zcst a; is_Zcst b;
      lazymatch op with
      | Z.add => idtac | Z.sub => idtac | Z.mul => idtac | Z.div => idtac
      | Z.modulo => idtac | Z.eqb => idtac | Z.leb => idtac | Z.ltb => idtac
      end;
      let r := eval vm_compute in (op a b) in change (op a b) with r
  | |- context [u32 ?a] =>
      is_Zcst a; let r := eval vm_compute in (u32 a) in change (u32 a) with r
  end;
  cbv beta iota zeta; cbn [negb andb orb].

(** Decides a goal over quotients and remainders, case by case on its conditionals. *)
Ltac cases_lia := repeat case_if; intros; b2p; try discriminate; unfold u32 in *; div_lia.

(** Resolves the conditionals of the goal whose guard linear arithmetic decides. *)
Ltac decide_ifs :=
  repeat match goal with
  | |- context [if ?b then _ else _] =>
      lazymatch b with context [if _ then _ else _] => fail | _ => idtac end;
      let H := fresh in
      first [ assert (b = true) as H by lia | assert (b = false) as H by lia ];
      rewrite H; clear H; cbv beta iota zeta
  end.

(** ** Ranges of integers *)

Lemma length_seqZ0 n : 0 <= n -> Z.of_nat (length (seqZ 0 n)) = n.
Proof. intros. rewrite length_seqZ. lia. Qed.

Lemma elem_of_seqZ0 n x : x ∈ seqZ 0 n <-> 0 <= x < n.
Proof. rewrite elem_of_seqZ. lia. Qed.

Lemma seqZ0_snoc n : 0 <= n -> seqZ 0 (n + 1) = seqZ 0 n ++ [n].
Proof.
  intros Hn. rewrite <- (Z2Nat.id n) by done.
  replace (Z.of_nat (Z.to_nat n) + 1) with (Z.of_nat (S (Z.to_nat n))) by lia.
  by rewrite seqZ_S, Z.add_0_l.
Qed.

(** ** Euclidean division *)

Lemma mod_add_sub a b r : r <> 0 -> (a + r - b) mod r = (a - b) mod r.
Proof. intros. replace (a + r - b) with (a - b + 1 * r) by ring. by apply Z.mod_add. Qed.

Lemma div_mul_add q j r : 0 <= j < r -> (q * r + j) / r = q.
Proof. intros. rewrite Z.add_comm, Z.div_add, Z.div_small by lia. lia. Qed.

Lemma mod_mul_add q j r : 0 <= j < r -> (q * r + j) mod r = j.
Proof. intros. rewrite Z.add_comm, Z.mod_add, Z.mod_small by lia. lia. Qed.

Lemma mul_add_inj q1 q2 j1 j2 r : 0 <= j1 < r -> 0 <= j2 < r ->
  q1 * r + j1 = q2 * r + j2 -> q1 = q2 /\ j1 = j2.
Proof.
  intros H1 H2 E. split.
  - rewrite <- (div_mul_add q1 j1 r H1), E. by apply div_mul_add.
  - rewrite <- (mod_mul_add q1 j1 r H1), E. by apply mod_mul_add.
Qed.

Lemma opp_mod_idemp x r : (- (x mod r)) mod r = (- x) mod r.
Proof. rewrite <- !Z.sub_0_l. apply Zminus_mod_idemp_r. Qed.

(** A loop over a whole range: the invariant may name the index. *)
Lemma loop_ret_range {S R : Type} (I : Z -> S -> Prop) (Q : R -> Prop) (body : Z -> S -> S + R) n s :
  (forall i s, 0 <= i < n -> I i s -> match body i s with inl s' => I (i + 1) s' | inr r => Q r end) ->
  0 <= n -> I 0 s ->
  match loop_ret body (seqZ 0 n) s with inl s' => I n s' | inr r => Q r end.
Proof.
  intros H Hn HI. assert (n = Z.of_nat (Z.to_nat n)) as E by lia. revert E H.
  generalize (Z.to_nat n) as k. intros k ->. clear Hn. induction k as [|k IH]; intros H; [done|].
  replace (Z.of_nat (Datatypes.S k)) with (Z.of_nat k + 1) in * by lia.
  rewrite seqZ0_snoc, loop_ret_app by lia.
  specialize (IH (fun i s Hi => H i s ltac:(lia))).
  destruct (loop_ret body (seqZ 0 (Z.of_nat k)) s) as [s'|r]; [|done].
  pose proof (H (Z.of_nat k) s' ltac:(lia) IH) as Hb. cbn [loop_ret].
  by destruct (body (Z.of_nat k) s').
Qed.

(** ** Search loops *)

(** The loop that returns the [k]-th value passing a test. *)
Lemma loop_nth_match {A : Type} (p : A -> bool) (l : list A) (k m : Z) (dflt : A) :
  0 <= m <= k -> k < 4294967295 ->
  found dflt
    (loop_ret (fun x cnt => if negb (p x) then inl cnt
                            else if cnt =? k then inr x else inl (u32 (cnt + 1))) l m)
  = default dflt (List.filter p l !! Z.to_nat (k - m)).
Proof.
  intros Hm Hk. revert m Hm. induction l as [|x l IH]; intros m Hm; [done|].
  cbn [loop_ret List.filter]. destruct (p x) eqn:Hp; cbn [negb]; [|by apply IH].
  destruct (Z.eqb_spec m k) as [->|Hne].
  - by rewrite Z.sub_diag.
  - rewrite u32_small, IH by lia.
    replace (Z.to_nat (k - m)) with (S (Z.to_nat (k - (m + 1)))) by lia. done.
Qed.

(** The loop that counts the values passing a test before a given one. *)
Lemma loop_index_match (p : Z -> bool) (l : list Z) (y k m d : Z) :
  List.filter p l !! Z.to_nat k = Some y -> NoDup l -> 0 <= k -> 0 <= m -> m + k < 4294967295 ->
  found d
    (loop_ret (fun x cnt => if negb (p x) then inl cnt
                            else if x =? y then inr cnt else inl (u32 (cnt + 1))) l m)
  = m + k.
Proof.
  intros Hk Hnd. revert k m Hk. induction Hnd as [|x l Hx Hnd IH]; intros k m Hk ? ? ?.
  { by destruct (Z.to_nat k). }
  cbn [loop_ret List.filter] in *. destruct (p x) eqn:Hp; cbn [negb]; [|by apply IH].
  destruct (Z.eqb_spec x y) as [->|Hne].
  - destruct (decide (k = 0)) as [->|]; [cbn; lia|]. exfalso. apply Hx.
    replace (Z.to_nat k) with (S (Z.to_nat (k - 1))) in Hk by lia. cbn in Hk.
    apply list_elem_of_lookup_2, list_elem_of_In, List.filter_In in Hk as [Hk _].
    by apply list_elem_of_In.
  - destruct (decide (k = 0)) as [->|]; [change (Some x = Some y) in Hk; congruence|].
    rewrite u32_small by lia.
    replace (Z.to_nat k) with (S (Z.to_nat (k - 1))) in Hk by lia. cbn in Hk.
    rewrite (IH (k - 1)) by (try done; lia). lia.
Qed.

(** The loop that looks for the only value passing a test, and rejects two of them. *)
Lemma loop_unique_match (p : Z -> bool) (l : list Z) (d c : Z) :
  c ∈ l -> NoDup l -> d ∉ l -> (forall x, x ∈ l -> p x = true <-> x = c) ->
  loop_ret (fun x acc => if negb (p x) then inl acc
                         else if negb (acc =? d) then inr d else inl x) l d = inl c.
Proof.
  intros Hc Hnd Hd Hp.
  assert (forall l' acc, (forall x, x ∈ l' -> p x = false) ->
    loop_ret (fun x acc => if negb (p x) then inl acc
                           else if negb (acc =? d) then @inr Z Z d else inl x) l' acc = inl acc)
    as Hskip.
  { induction l' as [|x l' IH]; intros acc H; [done|]. cbn.
    rewrite (H x) by (by left). apply IH. intros. apply H. by right. }
  induction Hnd as [|x l Hx Hnd IH]; [by inversion Hc|]. cbn.
  destruct (decide (x = c)) as [->|Hne].
  - rewrite (proj2 (Hp c ltac:(by left))) by done. cbn. rewrite Z.eqb_refl. cbn.
    apply Hskip. intros x Hxl. destruct (p x) eqn:E; [|done].
    apply Hp in E; [by subst|by right].
  - destruct (p x) eqn:E; [apply Hp in E; [done|by left]|]. cbn.
    apply elem_of_cons in Hc as [?|Hc]; [congruence|].
    apply IH; [done|by intros ?; apply Hd; right|]. intros. apply Hp. by right.
Qed.

(** The loop that returns at the first value passing a test. *)
Lemma loop_find {A R : Type} (p : A -> bool) (f : A -> R) (l : list A) :
  loop_ret (fun x (_ : unit) => if p x then inr (f x) else inl tt) l tt =
  match List.find p l with Some x => inr (f x) | None => inl tt end.
Proof. induction l as [|x l IH]; [done|]. cbn. by destruct (p x). Qed.

(** No match: the search keeps its default. *)
Lemma loop_no_match {A R : Type} (p : A -> bool) (f : A -> R) (l : list A) :
  (forall x, x ∈ l -> p x = false) ->
  loop_ret (fun x (_ : unit) => if p x then inr (f x) else inl tt) l tt = inl tt.
Proof.
  induction l as [|x l IH]; intros H; [done|]. cbn. rewrite (H x) by (by left).
  apply IH. intros. apply H. by right.
Qed.

(** ** Sums *)

Definition zsum {A : Type} (f : A -> Z) (l : list A) : Z := foldr (fun x acc => f x + acc) 0 l.

Lemma zsum_app {A} (f : A -> Z) l1 l2 : zsum f (l1 ++ l2) = zsum f l1 + zsum f l2.
Proof. induction l1 as [|x l1 IH]; cbn; [done|]. fold (zsum f (l1 ++ l2)). rewrite IH. unfold zsum. lia. Qed.

Lemma zsum_cons {A} (f : A -> Z) x l : zsum f (x :: l) = f x + zsum f l.
Proof. done. Qed.

Lemma zsum_ext {A} (f g : A -> Z) l : (forall x, x ∈ l -> f x = g x) -> zsum f l = zsum g l.
Proof.
  induction l as [|x l IH]; intros H; [done|]. rewrite !zsum_cons, (H x), IH; [done| |by left].
  intros. apply H. by right.
Qed.

Lemma zsum_le {A} (f g : A -> Z) l : (forall x, x ∈ l -> f x <= g x) -> zsum f l <= zsum g l.
Proof.
  induction l as [|x l IH]; intros H; [done|]. rewrite !zsum_cons.
  assert (f x <= g x) by (apply H; by left). assert (zsum f l <= zsum g l); [|lia].
  apply IH. intros. apply H. by right.
Qed.

Lemma zsum_const {A} (k : Z) (l : list A) : zsum (fun _ => k) l = k * Z.of_nat (length l).
Proof. induction l as [|x l IH]; [cbn; lia|]. rewrite zsum_cons, IH. cbn [length]. lia. Qed.

Lemma zsum_plus {A} (f g : A -> Z) l : zsum (fun x => f x + g x) l = zsum f l + zsum g l.
Proof. induction l as [|x l IH]; [done|]. rewrite !zsum_cons, IH. lia. Qed.

Lemma zsum_nonneg {A} (f : A -> Z) l : (forall x, x ∈ l -> 0 <= f x) -> 0 <= zsum f l.
Proof. intros H. rewrite <- (Z.mul_0_l (Z.of_nat (length l))), <- zsum_const. by apply zsum_le. Qed.

Lemma foldl_zsum {A} (f : A -> Z) l c : foldl (fun c x => c + f x) c l = c + zsum f l.
Proof.
  revert c. induction l as [|x l IH]; intros c; cbn [foldl]; [cbn; lia|].
  rewrite IH, zsum_cons. lia.
Qed.

Lemma zsum_swap {A B} (f : A -> B -> Z) l l' :
  zsum (fun x => zsum (f x) l') l = zsum (fun y => zsum (fun x => f x y) l) l'.
Proof.
  induction l as [|x l IH]; [cbn; by rewrite zsum_const|].
  rewrite zsum_cons, IH, <- zsum_plus. apply zsum_ext. intros y _. by rewrite zsum_cons.
Qed.

(** A sum with one non-zero term. *)
Lemma zsum_single {A} (f : A -> Z) l a : NoDup l -> a ∈ l -> (forall x, x ∈ l -> x <> a -> f x = 0) ->
  zsum f l = f a.
Proof.
  intros Hnd Ha H. induction Hnd as [|x l Hx Hnd IH]; [by inversion Ha|].
  rewrite zsum_cons. apply elem_of_cons in Ha as [<-|Ha].
  - rewrite (zsum_ext f (fun _ => 0)), zsum_const; [lia|]. intros y Hy. apply H; [by right|]. by intros ->.
  - rewrite IH; [|done|intros; apply H; [by right|done]]. rewrite (H x); [lia|by left|]. by intros ->.
Qed.

(** A sum whose terms agree except at one place. *)
Lemma zsum_change {A} (f g : A -> Z) (l : list A) (a : A) : NoDup l -> a ∈ l ->
  (forall x, x ∈ l -> x <> a -> f x = g x) -> zsum f l = zsum g l + (f a - g a).
Proof.
  intros Hnd Ha H. induction Hnd as [|x l Hx Hnd IH]; [by inversion Ha|].
  rewrite !zsum_cons. apply elem_of_cons in Ha as [<-|Ha].
  - rewrite (zsum_ext f g l); [lia|]. intros y Hy. apply H; [by right|]. by intros ->.
  - rewrite (IH Ha); [|intros; apply H; [by right|done]].
    rewrite (H x); [lia|by left|]. by intros ->.
Qed.

Lemma NoDup_list_prod {A B} (l : list A) (l' : list B) :
  NoDup l -> NoDup l' -> NoDup (list_prod l l').
Proof.
  intros Hl Hl'. induction Hl as [|x l Hx Hl IH]; [constructor|]. cbn.
  apply NoDup_app. split; [|split; [|done]].
  - by apply (NoDup_fmap_2 (pair x)).
  - intros [a b] H1 H2. rewrite list_elem_of_In, in_map_iff in H1. destruct H1 as (y & [= <- <-] & _).
    rewrite list_elem_of_In, in_prod_iff in H2. destruct H2 as [H2 _]. by apply Hx, list_elem_of_In.
Qed.

(** A non-empty list has an element of least value. *)
Lemma argmin {A} (f : A -> Z) (l : list A) : l <> [] ->
  exists x, x ∈ l /\ forall y, y ∈ l -> f x <= f y.
Proof.
  induction l as [|x l IH]; [done|]. intros _. destruct l as [|y l].
  { exists x. split; [by left|]. intros y Hy. apply elem_of_cons in Hy as [->|Hy]; [lia|by inversion Hy]. }
  destruct IH as (z & Hz & Hmin); [done|].
  destruct (Z.le_ge_cases (f x) (f z)).
  - exists x. split; [by left|]. intros w Hw. apply elem_of_cons in Hw as [->|Hw]; [lia|].
    specialize (Hmin w Hw). lia.
  - exists z. split; [by right|]. intros w Hw. apply elem_of_cons in Hw as [->|Hw]; [lia|auto].
Qed.

(** ** Updating a two-index table at one place *)

Definition upd2 {A : Type} (f : Z -> Z -> A) (a b : Z) (v : A) : Z -> Z -> A :=
  fun x y => if (x =? a) && (y =? b) then v else f x y.

Lemma upd2_eq {A} (f : Z -> Z -> A) a b v : upd2 f a b v a b = v.
Proof. unfold upd2. by rewrite !Z.eqb_refl. Qed.

Lemma upd2_ne {A} (f : Z -> Z -> A) a b v x y : ~ (x = a /\ y = b) -> upd2 f a b v x y = f x y.
Proof. intros H. unfold upd2. destruct (Z.eqb_spec x a), (Z.eqb_spec y b); cbn; tauto. Qed.
