(* ===== verification/ExchangeSpec.v ===== *)
(** What an all-to-all exchange schedule promises, and what follows from it. A schedule of
    [n] ranks over [T] steps of [C] cores tells, for a source, a step and a core, which rank is
    served ([dest]) and, for a destination and a source, at which step they meet ([meet]). *)
From S2P Require Import Prelude.

Class Exchange (n T C : Z) (dest : Z -> Z -> Z -> Z) (meet : Z -> Z -> Z) : Prop := {
  ex_pos : 0 <= T /\ 0 <= C;
  ex_size : n = T * C;
  ex_range : forall s t c, 0 <= s < n -> 0 <= t < T -> 0 <= c < C -> 0 <= dest s t c < n;
  ex_meet : forall s t c, 0 <= s < n -> 0 <= t < T -> 0 <= c < C -> meet (dest s t c) s = t;
  ex_core : forall s t c1 c2, 0 <= s < n -> 0 <= t < T -> 0 <= c1 < C -> 0 <= c2 < C ->
    dest s t c1 = dest s t c2 -> c1 = c2
}.

(** The ranks served in one step, and over the whole exchange. *)
Definition served_at (dest : Z -> Z -> Z -> Z) (C s t : Z) : list Z := dest s t <$> seqZ 0 C.
Definition served (dest : Z -> Z -> Z -> Z) (T C s : Z) : list Z :=
  mjoin (served_at dest C s <$> seqZ 0 T).

Section exchange.
Context {n T C : Z} {dest : Z -> Z -> Z -> Z} {meet : Z -> Z -> Z} `{!Exchange n T C dest meet}.

Lemma elem_of_served_at s t x :
  x ∈ served_at dest C s t <-> exists c, 0 <= c < C /\ x = dest s t c.
Proof.
  unfold served_at. rewrite list_elem_of_fmap. setoid_rewrite elem_of_seqZ0. split; intros (c & ? & ?); eauto.
Qed.

Lemma elem_of_served s x :
  x ∈ served dest T C s <-> exists t c, 0 <= t < T /\ 0 <= c < C /\ x = dest s t c.
Proof.
  unfold served. rewrite list_elem_of_join. setoid_rewrite list_elem_of_fmap.
  setoid_rewrite elem_of_seqZ0. split.
  - intros (l & Hx & t & -> & Ht). apply elem_of_served_at in Hx as (c & ? & ->). eauto 10.
  - intros (t & c & ? & ? & ->). exists (served_at dest C s t). split; [|eauto].
    apply elem_of_served_at. eauto.
Qed.

Lemma NoDup_served_at s t : 0 <= s < n -> 0 <= t < T -> NoDup (served_at dest C s t).
Proof.
  intros Hs Ht. unfold served_at. apply NoDup_fmap_2_strong; [|apply NoDup_seqZ].
  intros c1 c2 H1 H2 E. rewrite elem_of_seqZ0 in H1, H2. eapply ex_core; eauto.
Qed.

Lemma NoDup_served_upto s k : 0 <= s < n -> (Z.of_nat k <= T) ->
  NoDup (mjoin (served_at dest C s <$> seqZ 0 (Z.of_nat k))).
Proof.
  intros Hs. induction k as [|k IH]; intros Hk; [constructor|].
  rewrite seqZ_S, fmap_app, join_app.
  apply NoDup_app. split; [apply IH; lia|]. split.
  - intros x Hx Hx'. apply list_elem_of_join in Hx as (l & Hx & Hl).
    apply list_elem_of_fmap in Hl as (t & -> & Ht). rewrite elem_of_seqZ0 in Ht.
    apply elem_of_served_at in Hx as (c & Hc & ->).
    cbn in Hx'. rewrite app_nil_r in Hx'. apply elem_of_served_at in Hx' as (c' & Hc' & E).
    assert (meet (dest s t c) s = t) as M by (apply ex_meet; lia).
    rewrite E, ex_meet in M by lia. lia.
  - cbn. rewrite app_nil_r. apply NoDup_served_at; lia.
Qed.

Lemma length_served s : length (served dest T C s) = Z.to_nat n.
Proof.
  destruct ex_pos as [? ?]. rewrite (ex_size (n := n)).
  unfold served. rewrite <- (Z2Nat.id T) at 1 by lia.
  assert (forall k, length (mjoin (served_at dest C s <$> seqZ 0 (Z.of_nat k)))
                    = (k * Z.to_nat C)%nat) as L.
  { induction k as [|k IH]; [done|].
    rewrite seqZ_S, fmap_app, join_app, length_app, IH.
    cbn. rewrite app_nil_r. unfold served_at. rewrite length_fmap, length_seqZ. lia. }
  rewrite L. lia.
Qed.

(** Every rank is served exactly once. *)
Lemma served_all s : 0 <= s < n -> served dest T C s ≡ₚ seqZ 0 n.
Proof.
  intros Hs. destruct ex_pos as [? ?]. apply NoDup_Permutation_bis.
  - apply NoDup_ListNoDup. unfold served. rewrite <- (Z2Nat.id T) by lia.
    apply NoDup_served_upto; lia.
  - rewrite length_served, length_seqZ. done.
  - intros x Hx%list_elem_of_In. apply list_elem_of_In.
    apply elem_of_served in Hx as (t & c & ? & ? & ->). apply elem_of_seqZ0.
    by apply ex_range.
Qed.

(** A destination has its meeting step and a unique core there. *)
Lemma served_inv s d : 0 <= s < n -> 0 <= d < n ->
  0 <= meet d s < T /\ exists c, 0 <= c < C /\ dest s (meet d s) c = d.
Proof.
  intros Hs Hd.
  assert (d ∈ served dest T C s) as Hin by (rewrite (served_all s Hs), elem_of_seqZ0; done).
  apply elem_of_served in Hin as (t & c & ? & ? & ->).
  rewrite (ex_meet s t c) by done. eauto.
Qed.

(** The partners met at step [t] are the [C] ranks served at step [t]. *)
Lemma met_at s t : 0 <= s < n -> 0 <= t < T ->
  List.filter (fun d => meet d s =? t) (seqZ 0 n) ≡ₚ served_at dest C s t.
Proof.
  intros Hs Ht. apply NoDup_Permutation.
  - apply NoDup_ListNoDup, List.NoDup_filter, NoDup_ListNoDup, NoDup_seqZ.
  - by apply NoDup_served_at.
  - intros d. rewrite list_elem_of_In, List.filter_In, <- list_elem_of_In, elem_of_seqZ0.
    rewrite elem_of_served_at. split.
    + intros [Hd E]. b2p. destruct (served_inv s d Hs Hd) as (_ & c & ? & Ec).
      exists c. rewrite E in Ec. done.
    + intros (c & Hc & ->). split; [by apply ex_range|]. rewrite ex_meet by done. lia.
Qed.

Lemma met_at_count s t : 0 <= s < n -> 0 <= t < T ->
  Z.of_nat (length (List.filter (fun d => meet d s =? t) (seqZ 0 n))) = C.
Proof.
  intros Hs Ht. rewrite (met_at s t Hs Ht). unfold served_at.
  destruct ex_pos. rewrite length_fmap, length_seqZ. lia.
Qed.
End exchange.

(** What the two ends of an exchange promise each other: the receiver's view ([source] of a
    receiving core, [rcore] of a source) and the sender's ([dest], and [tcore], the sending
    core of a pair) are inverse to each other at every step. *)
Class Rendezvous (n T C : Z) (dest : Z -> Z -> Z -> Z) (meet : Z -> Z -> Z)
    (source rcore tcore : Z -> Z -> Z -> Z) : Prop := {
  rv_exchange :: Exchange n T C dest meet;
  rv_forward : forall s t c, 0 <= s < n -> 0 <= t < T -> 0 <= c < C ->
    0 <= rcore (dest s t c) s t < C /\ source (dest s t c) t (rcore (dest s t c) s t) = s /\
    tcore s (dest s t c) t = c;
  rv_backward : forall d t c, 0 <= d < n -> 0 <= t < T -> 0 <= c < C ->
    0 <= source d t c < n /\ 0 <= tcore (source d t c) d t < C /\
    dest (source d t c) t (tcore (source d t c) d t) = d /\ rcore d (source d t c) t = c
}.

(** The sending coordinates of any ordered pair of ranks. *)
Lemma rv_pair {n T C dest meet source rcore tcore}
    `{!Rendezvous n T C dest meet source rcore tcore} s d : 0 <= s < n -> 0 <= d < n ->
  0 <= meet d s < T /\ 0 <= tcore s d (meet d s) < C /\
  dest s (meet d s) (tcore s d (meet d s)) = d.
Proof.
  intros Hs Hd. destruct (served_inv s d Hs Hd) as (Ht & c & Hc & E).
  destruct (rv_forward s (meet d s) c Hs Ht Hc) as (_ & _ & Etc). rewrite E in Etc.
  rewrite Etc. done.
Qed.
