(* ===== verification/CombineSchedule.v ===== *)
(** The combine exchange schedule, from src/src/moonep/common/moonep_combine_schedule.h:
    which rank a (rank, step, core) sends to, at which step a destination expects a source,
    and the helper indices of the completion protocol. *)
From S2P Require Import Prelude.

(** ** Constants (moonep_combine_schedule.h:18-62, 77) *)

Definition kMoonEpCombineV2RankCount : Z := 128.
Definition kMoonEpCombineV2GroupSize : Z := 8.
Definition kMoonEpCombineV2GroupCount : Z := 16.
Definition kMoonEpCombineV2GroupsPerHalf : Z := 8.
Definition kMoonEpCombineV2StepCount : Z := 8.
Definition kMoonEpCombineV2CoreCount : Z := 16.
Definition kMoonEpCombineV2LaneCount : Z := 2.
Definition kMoonEpCombineV2QpCount : Z := 32.
Definition kMoonEpCombineV2FullmeshSlotCount : Z := 8.
Definition kMoonEpCombineV2FullmeshLogicalQpBase : Z := kMoonEpCombineV2QpCount.
Definition kMoonEpCombineV2EpochCount : Z := 2.
Definition kMoonEpCombineV2MteBlockBytes : Z := 32.
Definition kMoonEpCombineV2InvalidPeer : Z := UINT32_MAX.

(** [enum MoonEpCombineV2Lane]; the code passes lanes as [uint32_t]. *)
Definition MOONEP_COMBINE_V2_SIX_PORT : Z := 0.
Definition MOONEP_COMBINE_V2_TWO_PORT : Z := 1.
Definition MOONEP_COMBINE_V2_FULLMESH : Z := 2.

Inductive MoonEpCombineV2ScheduleMode : Set :=
| MOONEP_COMBINE_V2_SINGLE_RING
| MOONEP_COMBINE_V2_BIDIRECTIONAL_RING
| MOONEP_COMBINE_V2_SERVER_PAIR_SAME_CROSS
| MOONEP_COMBINE_V2_SERVER_PAIR_PARITY.

Definition mode_eqb (a b : MoonEpCombineV2ScheduleMode) : bool :=
  match a, b with
  | MOONEP_COMBINE_V2_SINGLE_RING, MOONEP_COMBINE_V2_SINGLE_RING
  | MOONEP_COMBINE_V2_BIDIRECTIONAL_RING, MOONEP_COMBINE_V2_BIDIRECTIONAL_RING
  | MOONEP_COMBINE_V2_SERVER_PAIR_SAME_CROSS, MOONEP_COMBINE_V2_SERVER_PAIR_SAME_CROSS
  | MOONEP_COMBINE_V2_SERVER_PAIR_PARITY, MOONEP_COMBINE_V2_SERVER_PAIR_PARITY => true
  | _, _ => false
  end.

#[global] Instance mode_eq_dec : EqDecision MoonEpCombineV2ScheduleMode.
Proof. solve_decision. Defined.

Record MoonEpCombineV2LaneCounts := { lc_sixPort : Z; lc_twoPort : Z }.
Record MoonEpCombineV2RingSegments := { rs_first : Z; rs_second : Z }.
Record MoonEpCombineV2ScheduleCoordinate :=
  { sc_phase : Z; sc_phaseStep : Z; sc_round : Z; sc_core : Z }.

(** ** Shape of the job *)

Definition MoonEpCombineV2RankSizeSupported (rankSize : Z) : bool :=
  ((2 <=? rankSize) && (rankSize <=? kMoonEpCombineV2GroupSize)) ||
  (rankSize =? 16) || (rankSize =? 32) || (rankSize =? 64) ||
  (rankSize =? kMoonEpCombineV2RankCount).

Definition MoonEpCombineV2RankValid (rank rankSize : Z) : bool :=
  MoonEpCombineV2RankSizeSupported rankSize && (rank <? rankSize).

Definition MoonEpCombineV2ActiveCoreCount (rankSize : Z) : Z :=
  if rankSize <=? kMoonEpCombineV2GroupSize then rankSize else kMoonEpCombineV2CoreCount.

Definition MoonEpCombineV2StepCount (rankSize : Z) : Z :=
  if rankSize <=? kMoonEpCombineV2GroupSize then 1
  else (rankSize / kMoonEpCombineV2CoreCount)%u32.

Definition MoonEpCombineV2CreditTransitionCount (rankSize : Z) : Z :=
  let stepCount := MoonEpCombineV2StepCount rankSize in
  if MoonEpCombineV2RankSizeSupported rankSize && negb (stepCount =? 0)
  then (stepCount - 1)%u32 else 0.

Definition MoonEpCombineV2CreditRequiredBeforeStep (step rankSize : Z) : bool :=
  MoonEpCombineV2RankSizeSupported rankSize && negb (step =? 0) &&
  (step <? MoonEpCombineV2StepCount rankSize).

Definition MoonEpCombineV2CreditPublishedAfterStep (step rankSize : Z) : bool :=
  MoonEpCombineV2RankSizeSupported rankSize &&
  ((step + 1)%u32 <? MoonEpCombineV2StepCount rankSize).

Definition MoonEpCombineV2EffectivePeer (peer sourceRank : Z) : Z :=
  if peer =? kMoonEpCombineV2InvalidPeer then sourceRank else peer.

Definition MoonEpCombineV2GroupsPerHalf (rankSize : Z) : Z :=
  (rankSize / kMoonEpCombineV2CoreCount)%u32.

Definition MoonEpCombineV2LocalRankSize (rankSize : Z) : Z :=
  if rankSize <=? kMoonEpCombineV2GroupSize then rankSize else kMoonEpCombineV2GroupSize.

Definition MoonEpCombineV2CoreValid (core rankSize : Z) : bool :=
  MoonEpCombineV2RankSizeSupported rankSize &&
  (core <? MoonEpCombineV2ActiveCoreCount rankSize).

Definition MoonEpCombineV2StepValid (step rankSize : Z) : bool :=
  MoonEpCombineV2RankSizeSupported rankSize && (step <? MoonEpCombineV2StepCount rankSize).

(** ** The 128-rank group schedule *)

Definition MoonEpCombineV2GroupMakeRank
    (cabinet serverParity cardHalf groupInnerIndex : Z) : Z :=
  if (2 <=? cabinet) || (2 <=? serverParity) || (2 <=? cardHalf) ||
     (kMoonEpCombineV2CoreCount <=? groupInnerIndex)
  then kMoonEpCombineV2InvalidPeer
  else
    let server := (((groupInnerIndex ≫ 2) ≪ 1) .| serverParity)%u32 in
    let card := ((cardHalf ≪ 2) .| (groupInnerIndex .& 3))%u32 in
    ((cabinet ≪ 6) .| (server ≪ 3) .| card)%u32.

Definition MoonEpCombineV2GroupId (rank : Z) : Z :=
  if rank <? kMoonEpCombineV2RankCount
  then (((rank ≫ 6) ≪ 2) .| (((rank ≫ 2) .& 1) ≪ 1) .| ((rank ≫ 3) .& 1))%u32
  else kMoonEpCombineV2InvalidPeer.

Definition MoonEpCombineV2GroupInnerIndex (rank : Z) : Z :=
  if kMoonEpCombineV2RankCount <=? rank then kMoonEpCombineV2InvalidPeer
  else
    let server := ((rank ≫ 3) .& 7)%u32 in
    (((server ≫ 1) ≪ 2) .| (rank .& 3))%u32.

Definition MoonEpCombineV2GroupSendDstRank (rank step destinationInnerIndex : Z) : Z :=
  if (kMoonEpCombineV2RankCount <=? rank) || (kMoonEpCombineV2StepCount <=? step) ||
     (kMoonEpCombineV2CoreCount <=? destinationInnerIndex)
  then kMoonEpCombineV2InvalidPeer
  else
    let sourceCabinet := (rank ≫ 6)%u32 in
    let sourceParity := ((rank ≫ 3) .& 1)%u32 in
    let sourceHalf := ((rank ≫ 2) .& 1)%u32 in
    let t0 := (step .& 1)%u32 in
    let t1 := ((step ≫ 1) .& 1)%u32 in
    let t2 := ((step ≫ 2) .& 1)%u32 in
    let interCabinet := (sourceHalf .^ t2)%u32 in
    MoonEpCombineV2GroupMakeRank
      (sourceCabinet .^ interCabinet)%u32 (sourceParity .^ t1 .^ 1)%u32
      (interCabinet .^ t0)%u32 destinationInnerIndex.

Definition MoonEpCombineV2GroupRecvSrcRank (rank step sourceInnerIndex : Z) : Z :=
  if (kMoonEpCombineV2RankCount <=? rank) || (kMoonEpCombineV2StepCount <=? step) ||
     (kMoonEpCombineV2CoreCount <=? sourceInnerIndex)
  then kMoonEpCombineV2InvalidPeer
  else
    let destinationCabinet := (rank ≫ 6)%u32 in
    let destinationParity := ((rank ≫ 3) .& 1)%u32 in
    let destinationHalf := ((rank ≫ 2) .& 1)%u32 in
    let t0 := (step .& 1)%u32 in
    let t1 := ((step ≫ 1) .& 1)%u32 in
    let t2 := ((step ≫ 2) .& 1)%u32 in
    let interCabinet := (destinationHalf .^ t0)%u32 in
    MoonEpCombineV2GroupMakeRank
      (destinationCabinet .^ interCabinet)%u32 (destinationParity .^ t1 .^ 1)%u32
      (interCabinet .^ t2)%u32 sourceInnerIndex.

(** ** The server-pair schedule *)

Definition MoonEpCombineV2ServerPairRankSize (rankSize : Z) : bool :=
  (rankSize =? 32) || (rankSize =? 64) || (rankSize =? kMoonEpCombineV2RankCount).

Definition MoonEpCombineV2ServerPairPhaseStepCount (rankSize : Z) : Z :=
  if MoonEpCombineV2ServerPairRankSize rankSize then (rankSize / 32)%u32 else 0.

Definition MoonEpCombineV2ServerPairRoundCount (rankSize : Z) : Z :=
  if MoonEpCombineV2ServerPairRankSize rankSize
  then (rankSize / kMoonEpCombineV2CoreCount)%u32 else 0.

Definition MoonEpCombineV2ServerPairPhase (round rankSize : Z) : Z :=
  let phaseStepCount := MoonEpCombineV2ServerPairPhaseStepCount rankSize in
  if negb (phaseStepCount =? 0) && (round <? MoonEpCombineV2ServerPairRoundCount rankSize)
  then (round / phaseStepCount)%u32 else kMoonEpCombineV2InvalidPeer.

Definition MoonEpCombineV2ServerPairPhaseStep (round rankSize : Z) : Z :=
  let phaseStepCount := MoonEpCombineV2ServerPairPhaseStepCount rankSize in
  if negb (phaseStepCount =? 0) && (round <? MoonEpCombineV2ServerPairRoundCount rankSize)
  then (round `mod` phaseStepCount)%u32 else kMoonEpCombineV2InvalidPeer.

Definition MoonEpCombineV2ServerPairTargetHalf
    (sourceRank phase rankSize : Z) (mode : MoonEpCombineV2ScheduleMode) : Z :=
  if negb (MoonEpCombineV2ServerPairRankSize rankSize) ||
     negb (MoonEpCombineV2RankValid sourceRank rankSize) || (2 <=? phase)
  then kMoonEpCombineV2InvalidPeer
  else if mode_eqb mode MOONEP_COMBINE_V2_SERVER_PAIR_PARITY then
    let sourceParity := (sourceRank .& 1)%u32 in
    if phase =? 0 then (1 - sourceParity)%u32 else sourceParity
  else if negb (mode_eqb mode MOONEP_COMBINE_V2_SERVER_PAIR_SAME_CROSS) then
    kMoonEpCombineV2InvalidPeer
  else
    let sourceHalf := (sourceRank / (rankSize / 2))%u32 in
    if phase =? 0 then sourceHalf else (1 - sourceHalf)%u32.

Definition MoonEpCombineV2ServerPairIndex (sourceRank phaseStep rankSize : Z) : Z :=
  let phaseStepCount := MoonEpCombineV2ServerPairPhaseStepCount rankSize in
  if negb (MoonEpCombineV2RankValid sourceRank rankSize) || (phaseStepCount =? 0) ||
     (phaseStepCount <=? phaseStep)
  then kMoonEpCombineV2InvalidPeer
  else
    let sourceServer := (sourceRank / kMoonEpCombineV2GroupSize)%u32 in
    ((sourceServer `mod` phaseStepCount + phaseStep) `mod` phaseStepCount)%u32.

Definition MoonEpCombineV2ServerPairPeer
    (sourceRank round core rankSize : Z) (mode : MoonEpCombineV2ScheduleMode) : Z :=
  if negb (MoonEpCombineV2RankValid sourceRank rankSize) ||
     negb (MoonEpCombineV2ServerPairRankSize rankSize) ||
     (kMoonEpCombineV2CoreCount <=? core)
  then kMoonEpCombineV2InvalidPeer
  else
    let phase := MoonEpCombineV2ServerPairPhase round rankSize in
    let phaseStep := MoonEpCombineV2ServerPairPhaseStep round rankSize in
    let targetHalf := MoonEpCombineV2ServerPairTargetHalf sourceRank phase rankSize mode in
    let pairIndex := MoonEpCombineV2ServerPairIndex sourceRank phaseStep rankSize in
    if (targetHalf =? kMoonEpCombineV2InvalidPeer) ||
       (pairIndex =? kMoonEpCombineV2InvalidPeer)
    then kMoonEpCombineV2InvalidPeer
    else
      let phaseStepCount := MoonEpCombineV2ServerPairPhaseStepCount rankSize in
      let serversPerHalf := (2 * phaseStepCount)%u32 in
      let halfBase := (targetHalf * serversPerHalf)%u32 in
      let firstServer := (halfBase + (2 * pairIndex + 1) `mod` serversPerHalf)%u32 in
      let secondServer := (halfBase + (2 * pairIndex + 2) `mod` serversPerHalf)%u32 in
      let targetServer :=
        if core <? kMoonEpCombineV2GroupSize then firstServer else secondServer in
      (targetServer * kMoonEpCombineV2GroupSize + core `mod` kMoonEpCombineV2GroupSize)%u32.

Definition invalidCoordinate : MoonEpCombineV2ScheduleCoordinate :=
  {| sc_phase := kMoonEpCombineV2InvalidPeer; sc_phaseStep := kMoonEpCombineV2InvalidPeer;
     sc_round := kMoonEpCombineV2InvalidPeer; sc_core := kMoonEpCombineV2InvalidPeer |}.

Definition MoonEpCombineV2ServerPairReceive
    (destinationRank sourceRank rankSize : Z) (mode : MoonEpCombineV2ScheduleMode)
    : MoonEpCombineV2ScheduleCoordinate :=
  if negb (MoonEpCombineV2ServerPairRankSize rankSize) ||
     negb (MoonEpCombineV2RankValid destinationRank rankSize) ||
     negb (MoonEpCombineV2RankValid sourceRank rankSize)
  then invalidCoordinate
  else
    let phaseStepCount := MoonEpCombineV2ServerPairPhaseStepCount rankSize in
    let serversPerHalf := (2 * phaseStepCount)%u32 in
    let sourceServer := (sourceRank / kMoonEpCombineV2GroupSize)%u32 in
    let destinationServer := (destinationRank / kMoonEpCombineV2GroupSize)%u32 in
    let destinationLocal := (destinationRank `mod` kMoonEpCombineV2GroupSize)%u32 in
    let targetHalf := (destinationServer / serversPerHalf)%u32 in
    let relativeServer := (destinationServer - targetHalf * serversPerHalf)%u32 in
    let pairIndex :=
      (((relativeServer + serversPerHalf - 1) `mod` serversPerHalf) / 2)%u32 in
    let phaseStep :=
      ((pairIndex + phaseStepCount - sourceServer `mod` phaseStepCount) `mod`
       phaseStepCount)%u32 in
    let firstServer :=
      (targetHalf * serversPerHalf + (2 * pairIndex + 1) `mod` serversPerHalf)%u32 in
    let core := if destinationServer =? firstServer then destinationLocal
                else (kMoonEpCombineV2GroupSize + destinationLocal)%u32 in
    let coordinate phase :=
      {| sc_phase := phase; sc_phaseStep := phaseStep;
         sc_round := (phase * phaseStepCount + phaseStep)%u32; sc_core := core |} in
    if mode_eqb mode MOONEP_COMBINE_V2_SERVER_PAIR_PARITY then
      coordinate (if targetHalf =? (sourceRank .& 1)%u32 then 1 else 0)
    else if mode_eqb mode MOONEP_COMBINE_V2_SERVER_PAIR_SAME_CROSS then
      let sourceHalf := (sourceRank / (rankSize / 2))%u32 in
      coordinate (if targetHalf =? sourceHalf then 0 else 1)
    else invalidCoordinate.

Definition MoonEpCombineV2ServerPairSenderCore
    (sourceRank destinationRank rankSize : Z) (mode : MoonEpCombineV2ScheduleMode) : Z :=
  sc_core (MoonEpCombineV2ServerPairReceive destinationRank sourceRank rankSize mode).

(** ** Queue pairs, servers and completion lanes *)

Definition MoonEpCombineV2Qp (core lane : Z) : Z :=
  if lane =? MOONEP_COMBINE_V2_SIX_PORT then core else (kMoonEpCombineV2CoreCount + core)%u32.

Definition MoonEpCombineV2SameServer (lhs rhs localRankSize : Z) : bool :=
  (0 <? localRankSize) && (localRankSize <=? kMoonEpCombineV2FullmeshSlotCount) &&
  ((lhs / localRankSize)%u32 =? (rhs / localRankSize)%u32).

Definition MoonEpCombineV2LocalSlot (rank localRankSize : Z) : Z :=
  if (localRankSize =? 0) || (kMoonEpCombineV2FullmeshSlotCount <? localRankSize)
  then kMoonEpCombineV2InvalidPeer else (rank `mod` localRankSize)%u32.

Definition MoonEpCombineV2FullmeshLogicalQp (peer localRankSize : Z) : Z :=
  let slot := MoonEpCombineV2LocalSlot peer localRankSize in
  if slot =? kMoonEpCombineV2InvalidPeer then slot
  else (kMoonEpCombineV2FullmeshLogicalQpBase + slot)%u32.

Definition MoonEpCombineV2ExpectedDoneCount (source destination localRankSize : Z) : Z :=
  if source =? destination then 0
  else if MoonEpCombineV2SameServer source destination localRankSize then 1
  else kMoonEpCombineV2LaneCount.

Definition MoonEpCombineV2DoneLaneRequired
    (source destination lane localRankSize : Z) : bool :=
  let doneCount := MoonEpCombineV2ExpectedDoneCount source destination localRankSize in
  lane <? doneCount.

Definition MoonEpCombineV2LaneForPosition (position : Z) : Z :=
  if (position .& 3)%u32 =? 3 then MOONEP_COMBINE_V2_TWO_PORT else MOONEP_COMBINE_V2_SIX_PORT.

Definition MoonEpCombineV2ControlWqesPerLane (step stepCount : Z) (finalBatch : bool) : Z :=
  if finalBatch then 2 else 0.

Definition MoonEpCombineV2NextStep (step stepCount : Z) : Z :=
  if (step + 1)%u32 =? stepCount then 0 else (step + 1)%u32.

Definition MoonEpCombineV2BatchLaneCounts
    (logicalRows sequencePhase step stepCount : Z) (finalBatch : bool)
    : MoonEpCombineV2LaneCounts :=
  let firstTwoPort := ((3 - (sequencePhase .& 3)) .& 3)%u32 in
  let twoPort := if logicalRows <=? firstTwoPort then 0
                 else (1 + (logicalRows - 1 - firstTwoPort) / 4)%u32 in
  let control := MoonEpCombineV2ControlWqesPerLane step stepCount finalBatch in
  {| lc_sixPort := (logicalRows - twoPort + control)%u32;
     lc_twoPort := (twoPort + control)%u32 |}.

Definition MoonEpCombineV2SplitRingCopy (absoluteHead count ringEntries : Z)
    : MoonEpCombineV2RingSegments :=
  let ringIndex := if ringEntries =? 0 then 0 else (absoluteHead `mod` ringEntries)%u32 in
  let untilEnd := (ringEntries - ringIndex)%u32 in
  let first := if count <? untilEnd then count else untilEnd in
  if ringEntries =? 0 then {| rs_first := 0; rs_second := 0 |}
  else {| rs_first := first; rs_second := (count - first)%u32 |}.

Definition MoonEpCombineV2NextCqTarget (cqTail : Z) (finalBatch : bool) : Z :=
  if finalBatch then (cqTail + 1)%u32 else cqTail.

Definition MoonEpCombineV2CompletionCount (finalBatch : bool) : Z :=
  if finalBatch then 1 else 0.

Definition MoonEpCombineV2CqTargetReached (cqTail cqTarget : Z) : bool := cqTail =? cqTarget.

(** [int64_t] arguments; the quotient truncates. *)
Definition MoonEpCombineV2ShapeValid (bs h topK nvS : Z) : bool :=
  (0 <? bs) && (0 <? h) && (0 <? topK) && (topK <=? 32) && (0 <? nvS) &&
  (bs <=? Z.quot nvS topK) && (nvS <=? INT32_MAX).

(** [tileElements * sizeof(uint16_t)] is computed in [size_t] and stored in a [uint32_t];
    the final division by [sizeof] is in [size_t] again. *)
Definition MoonEpCombineV2ReduceInputStrideElements (tileElements : Z) : Z :=
  let bytes := u32 (tileElements * 2)%u64 in
  u32 (((bytes + kMoonEpCombineV2MteBlockBytes - 1) / kMoonEpCombineV2MteBlockBytes *
        kMoonEpCombineV2MteBlockBytes)%u32 / 2).

Definition MoonEpCombineV2DestinationValid (encodedDestination slots rankSize : Z) : bool :=
  MoonEpCombineV2RankSizeSupported rankSize && negb (slots =? 0) &&
  ((encodedDestination =? -1) ||
   ((0 <=? encodedDestination) && (encodedDestination <? (rankSize * slots)%u64))).

(** ** The ring schedules *)

Definition MoonEpCombineV2SingleRingPeer (sourceRank step core rankSize : Z) : Z :=
  if rankSize <=? kMoonEpCombineV2GroupSize then core
  else
    let groupsPerHalf := MoonEpCombineV2GroupsPerHalf rankSize in
    let sourceGroup := ((sourceRank / kMoonEpCombineV2GroupSize) `mod` groupsPerHalf)%u32 in
    let targetHalf := (core / kMoonEpCombineV2GroupSize)%u32 in
    let targetOffset := (core `mod` kMoonEpCombineV2GroupSize)%u32 in
    let distance := ((step + 1) `mod` groupsPerHalf)%u32 in
    let targetIndex :=
      if core <? kMoonEpCombineV2GroupSize
      then ((sourceGroup + distance) `mod` groupsPerHalf)%u32
      else ((sourceGroup + groupsPerHalf - distance) `mod` groupsPerHalf)%u32 in
    ((targetIndex + targetHalf * groupsPerHalf) * kMoonEpCombineV2GroupSize
     + targetOffset)%u32.

(** [offset] is an [int32_t]; the casts to [uint32_t] are of non-negative values. *)
Definition MoonEpCombineV2RingOffset (position offset ringSize : Z) : Z :=
  if 0 <=? offset then ((position + u32 offset) `mod` ringSize)%u32
  else ((position + ringSize - u32 (- offset)) `mod` ringSize)%u32.

Definition MoonEpCombineV2BidirectionalOffset
    (step lane ringSize : Z) (sameHalf : bool) : Z :=
  let ordinal := (step * kMoonEpCombineV2GroupSize + lane)%u32 in
  if sameHalf then
    if (ordinal + 1)%u32 =? ringSize then 0
    else
      let distance := (ordinal / 2 + 1)%u32 in
      if (ordinal .& 1)%u32 =? 0 then distance else - distance
  else if ordinal =? 0 then 0
  else if ordinal =? 1 then (ringSize / 2)%u32
  else
    let pairOrdinal := (ordinal - 2)%u32 in
    let distance := (pairOrdinal / 2 + 1)%u32 in
    if (pairOrdinal .& 1)%u32 =? 0 then distance else - distance.

Definition MoonEpCombineV2BidirectionalScheduleEnabled
    (rankSize : Z) (mode : MoonEpCombineV2ScheduleMode) : bool :=
  let bidirectionalMode :=
    mode_eqb mode MOONEP_COMBINE_V2_BIDIRECTIONAL_RING ||
    mode_eqb mode MOONEP_COMBINE_V2_SERVER_PAIR_SAME_CROSS ||
    mode_eqb mode MOONEP_COMBINE_V2_SERVER_PAIR_PARITY in
  bidirectionalMode && ((rankSize =? kMoonEpCombineV2GroupSize) || (16 <=? rankSize)).

Definition MoonEpCombineV2ServerPairScheduleEnabled
    (rankSize : Z) (mode : MoonEpCombineV2ScheduleMode) : bool :=
  (mode_eqb mode MOONEP_COMBINE_V2_SERVER_PAIR_SAME_CROSS ||
   mode_eqb mode MOONEP_COMBINE_V2_SERVER_PAIR_PARITY) &&
  MoonEpCombineV2ServerPairRankSize rankSize.

Definition MoonEpCombineV2BidirectionalPeer (sourceRank step core rankSize : Z) : Z :=
  if rankSize =? kMoonEpCombineV2GroupSize then
    if (core + 1)%u32 =? rankSize then kMoonEpCombineV2InvalidPeer
    else MoonEpCombineV2RingOffset sourceRank
           (MoonEpCombineV2BidirectionalOffset step core rankSize true) rankSize
  else
    let halfRankCount := (rankSize / 2)%u32 in
    let sourceHalf := (sourceRank / halfRankCount)%u32 in
    let targetHalf := (core / kMoonEpCombineV2GroupSize)%u32 in
    let lane := (core `mod` kMoonEpCombineV2GroupSize)%u32 in
    let ordinal := (step * kMoonEpCombineV2GroupSize + lane)%u32 in
    let sameHalf := sourceHalf =? targetHalf in
    if sameHalf && ((ordinal + 1)%u32 =? halfRankCount) then kMoonEpCombineV2InvalidPeer
    else
      let targetLocal :=
        MoonEpCombineV2RingOffset (sourceRank `mod` halfRankCount)%u32
          (MoonEpCombineV2BidirectionalOffset step lane halfRankCount sameHalf)
          halfRankCount in
      (targetHalf * halfRankCount + targetLocal)%u32.

Definition MoonEpCombineV2Peer
    (sourceRank step core rankSize : Z) (mode : MoonEpCombineV2ScheduleMode) : Z :=
  if MoonEpCombineV2ServerPairScheduleEnabled rankSize mode then
    MoonEpCombineV2ServerPairPeer sourceRank step core rankSize mode
  else if MoonEpCombineV2BidirectionalScheduleEnabled rankSize mode then
    MoonEpCombineV2BidirectionalPeer sourceRank step core rankSize
  else MoonEpCombineV2SingleRingPeer sourceRank step core rankSize.

Definition MoonEpCombineV2SingleRingSuccessor (sourceRank core rankSize : Z) : Z :=
  if rankSize <=? kMoonEpCombineV2GroupSize then sourceRank
  else
    let halfRankCount := (rankSize / 2)%u32 in
    let groupsPerHalf := MoonEpCombineV2GroupsPerHalf rankSize in
    let halfBase := (sourceRank / halfRankCount * halfRankCount)%u32 in
    let groupInHalf :=
      ((sourceRank `mod` halfRankCount) / kMoonEpCombineV2GroupSize)%u32 in
    let successorGroup :=
      if core <? kMoonEpCombineV2GroupSize
      then ((groupInHalf + groupsPerHalf - 1) `mod` groupsPerHalf)%u32
      else ((groupInHalf + 1) `mod` groupsPerHalf)%u32 in
    (halfBase + successorGroup * kMoonEpCombineV2GroupSize
     + sourceRank `mod` kMoonEpCombineV2GroupSize)%u32.

Definition MoonEpCombineV2Successor
    (sourceRank step core rankSize : Z) (mode : MoonEpCombineV2ScheduleMode) : Z :=
  if negb (MoonEpCombineV2BidirectionalScheduleEnabled rankSize mode) ||
     (rankSize <=? kMoonEpCombineV2GroupSize)
  then MoonEpCombineV2SingleRingSuccessor sourceRank core rankSize
  else
    let halfRankCount := (rankSize / 2)%u32 in
    let sourceHalf := (sourceRank / halfRankCount)%u32 in
    let targetHalf := (core / kMoonEpCombineV2GroupSize)%u32 in
    let lane := (core `mod` kMoonEpCombineV2GroupSize)%u32 in
    let sameHalf := sourceHalf =? targetHalf in
    let nextStep := MoonEpCombineV2NextStep step (MoonEpCombineV2StepCount rankSize) in
    let currentOffset :=
      MoonEpCombineV2BidirectionalOffset step lane halfRankCount sameHalf in
    let nextOffset :=
      MoonEpCombineV2BidirectionalOffset nextStep lane halfRankCount sameHalf in
    let targetLocal :=
      MoonEpCombineV2RingOffset (sourceRank `mod` halfRankCount)%u32 currentOffset
        halfRankCount in
    let successorLocal :=
      MoonEpCombineV2RingOffset targetLocal (- nextOffset) halfRankCount in
    (sourceHalf * halfRankCount + successorLocal)%u32.

Definition MoonEpCombineV2SingleRingReceiveStep
    (destinationRank sourceRank rankSize : Z) : Z :=
  if rankSize <=? kMoonEpCombineV2GroupSize then 0
  else
    let groupsPerHalf := MoonEpCombineV2GroupsPerHalf rankSize in
    let halfRankCount := (rankSize / 2)%u32 in
    let destinationIndex :=
      ((destinationRank / kMoonEpCombineV2GroupSize) `mod` groupsPerHalf)%u32 in
    let sourceIndex :=
      ((sourceRank / kMoonEpCombineV2GroupSize) `mod` groupsPerHalf)%u32 in
    let delta :=
      if destinationRank <? halfRankCount
      then ((destinationIndex + groupsPerHalf - sourceIndex) `mod` groupsPerHalf)%u32
      else ((sourceIndex + groupsPerHalf - destinationIndex) `mod` groupsPerHalf)%u32 in
    let distance := if delta =? 0 then groupsPerHalf else delta in
    (distance - 1)%u32.

Definition MoonEpCombineV2ReceiveStep
    (destinationRank sourceRank rankSize : Z) (mode : MoonEpCombineV2ScheduleMode) : Z :=
  if MoonEpCombineV2ServerPairScheduleEnabled rankSize mode then
    sc_round (MoonEpCombineV2ServerPairReceive destinationRank sourceRank rankSize mode)
  else if negb (MoonEpCombineV2BidirectionalScheduleEnabled rankSize mode) ||
          (rankSize <=? kMoonEpCombineV2GroupSize)
  then MoonEpCombineV2SingleRingReceiveStep destinationRank sourceRank rankSize
  else
    let halfRankCount := (rankSize / 2)%u32 in
    let sourceLocal := (sourceRank `mod` halfRankCount)%u32 in
    let destinationLocal := (destinationRank `mod` halfRankCount)%u32 in
    let clockwise :=
      ((destinationLocal + halfRankCount - sourceLocal) `mod` halfRankCount)%u32 in
    let counterClockwise := if clockwise =? 0 then 0 else (halfRankCount - clockwise)%u32 in
    let distance := if clockwise <? counterClockwise then clockwise else counterClockwise in
    let sameHalf :=
      (destinationRank / halfRankCount)%u32 =? (sourceRank / halfRankCount)%u32 in
    if sameHalf then
      if distance =? 0 then (MoonEpCombineV2StepCount rankSize - 1)%u32
      else ((distance - 1) / 4)%u32
    else if distance =? (halfRankCount / 2)%u32 then 0 else (distance / 4)%u32.

Definition MoonEpCombineV2SourceForCore (core sourceIndex rankSize : Z) : Z :=
  (core + sourceIndex * MoonEpCombineV2ActiveCoreCount rankSize)%u32.

(** ** Searches over the schedule *)

Definition MoonEpCombineV2SenderCore
    (sourceRank destinationRank rankSize : Z) (mode : MoonEpCombineV2ScheduleMode) : Z :=
  if negb (MoonEpCombineV2RankValid sourceRank rankSize) ||
     negb (MoonEpCombineV2RankValid destinationRank rankSize) ||
     (sourceRank =? destinationRank)
  then kMoonEpCombineV2InvalidPeer
  else if MoonEpCombineV2ServerPairScheduleEnabled rankSize mode then
    MoonEpCombineV2ServerPairSenderCore sourceRank destinationRank rankSize mode
  else
    let activeCoreCount := MoonEpCombineV2ActiveCoreCount rankSize in
    let stepCount := MoonEpCombineV2StepCount rankSize in
    found kMoonEpCombineV2InvalidPeer
      (loop_ret
         (fun core _ =>
            loop_ret
              (fun step _ =>
                 if MoonEpCombineV2Peer sourceRank step core rankSize mode =? destinationRank
                 then inr core else inl tt)
              (seqZ 0 stepCount) tt)
         (seqZ 0 activeCoreCount) tt).

Definition MoonEpCombineV2ReceiveSource
    (destinationRank step receiverCore rankSize : Z) (mode : MoonEpCombineV2ScheduleMode) : Z :=
  if negb (MoonEpCombineV2RankValid destinationRank rankSize) ||
     negb (MoonEpCombineV2StepValid step rankSize) ||
     negb (MoonEpCombineV2CoreValid receiverCore rankSize)
  then kMoonEpCombineV2InvalidPeer
  else
    found kMoonEpCombineV2InvalidPeer
      (loop_ret
         (fun sourceRank matchedCount =>
            if negb (MoonEpCombineV2ReceiveStep destinationRank sourceRank rankSize mode =? step)
            then inl matchedCount
            else if matchedCount =? receiverCore then inr sourceRank
            else inl (matchedCount + 1)%u32)
         (seqZ 0 rankSize) 0).

Definition MoonEpCombineV2ReceiveCore
    (destinationRank sourceRank step rankSize : Z) (mode : MoonEpCombineV2ScheduleMode) : Z :=
  if negb (MoonEpCombineV2RankValid destinationRank rankSize) ||
     negb (MoonEpCombineV2RankValid sourceRank rankSize) ||
     negb (MoonEpCombineV2StepValid step rankSize) ||
     negb (MoonEpCombineV2ReceiveStep destinationRank sourceRank rankSize mode =? step)
  then kMoonEpCombineV2InvalidPeer
  else
    found kMoonEpCombineV2InvalidPeer
      (loop_ret
         (fun candidate receiverCore =>
            if negb (MoonEpCombineV2ReceiveStep destinationRank candidate rankSize mode =? step)
            then inl receiverCore
            else if candidate =? sourceRank then inr receiverCore
            else inl (receiverCore + 1)%u32)
         (seqZ 0 rankSize) 0).

Definition MoonEpCombineV2TransferCore
    (sourceRank destinationRank step rankSize : Z) (mode : MoonEpCombineV2ScheduleMode) : Z :=
  if negb (MoonEpCombineV2RankValid sourceRank rankSize) ||
     negb (MoonEpCombineV2RankValid destinationRank rankSize) ||
     negb (MoonEpCombineV2StepValid step rankSize)
  then kMoonEpCombineV2InvalidPeer
  else
    let activeCoreCount := MoonEpCombineV2ActiveCoreCount rankSize in
    match
      loop_ret
        (fun core matchedCore =>
           let peer :=
             MoonEpCombineV2EffectivePeer
               (MoonEpCombineV2Peer sourceRank step core rankSize mode) sourceRank in
           if negb (peer =? destinationRank) then inl matchedCore
           else if negb (matchedCore =? kMoonEpCombineV2InvalidPeer)
           then inr kMoonEpCombineV2InvalidPeer
           else inl core)
        (seqZ 0 activeCoreCount) kMoonEpCombineV2InvalidPeer
    with
    | inl matchedCore => matchedCore
    | inr r => r
    end.
