(* ===== verification/CombineRing.v ===== *)
(** The single-ring and bidirectional-ring combine schedules of 16 ranks and more are complete
    exchanges, seen from the source ([*_exchange]) and from the destination ([*_dual]). *)
From S2P Require Import Prelude ExchangeSpec CombineSchedule.

#[local] Ltac sched :=
  cbv beta zeta delta
    [MoonEpCombineV2SingleRingPeer MoonEpCombineV2SingleRingReceiveStep
     MoonEpCombineV2SingleRingSuccessor MoonEpCombineV2GroupsPerHalf MoonEpCombineV2StepCount
     MoonEpCombineV2EffectivePeer MoonEpCombineV2BidirectionalPeer
     MoonEpCombineV2BidirectionalOffset MoonEpCombineV2RingOffset MoonEpCombineV2NextStep
     kMoonEpCombineV2RankCount kMoonEpCombineV2GroupSize kMoonEpCombineV2CoreCount
     kMoonEpCombineV2InvalidPeer UINT32_MAX];
  rewrite ?land_1; eval_consts.

(** ** Single ring, 16 ranks and more *)

Definition ring_size (n : Z) : Prop := n = 16 \/ n = 32 \/ n = 64 \/ n = 128.

(** The source that reaches [d] at step [t], indexed by half and card. *)
Definition single_ring_source (n d t c : Z) : Z :=
  let G := n / 16 in
  let k := (d / 8) mod G in
  let g := if d <? n / 2 then (k + 2 * G - (t + 1)) mod G else (k + (t + 1)) mod G in
  (g + c / 8 * G) * 8 + c mod 8.

Lemma single_ring_exchange n : ring_size n ->
  Exchange n (n / 16) 16 (fun s t c => MoonEpCombineV2SingleRingPeer s t c n)
    (fun d s => MoonEpCombineV2SingleRingReceiveStep d s n).
Proof.
  intros [-> | [-> | [-> | ->]]]; constructor; eval_consts; try lia; intros *; sched.
  all: cases_lia.
Qed.

Lemma single_ring_dual n : ring_size n ->
  Exchange n (n / 16) 16 (fun d t c => single_ring_source n d t c)
    (fun s d => MoonEpCombineV2SingleRingReceiveStep d s n).
Proof.
  intros [-> | [-> | [-> | ->]]]; constructor; eval_consts; try lia; intros *;
    unfold single_ring_source; sched.
  all: cases_lia.
Qed.


(** ** Bidirectional ring *)

Definition bidirectional_dest (n s t c : Z) : Z :=
  MoonEpCombineV2EffectivePeer (MoonEpCombineV2BidirectionalPeer s t c n) s.

Definition bidirectional_meet (n d s : Z) : Z :=
  MoonEpCombineV2ReceiveStep d s n MOONEP_COMBINE_V2_BIDIRECTIONAL_RING.

Definition bidirectional_source (n d t c : Z) : Z :=
  let half := n / 2 in
  c / 8 * half +
  MoonEpCombineV2RingOffset (d mod half)
    (- MoonEpCombineV2BidirectionalOffset t (c mod 8) half (d / half =? c / 8)) half.

(** The arithmetic of the ring, without the machine words. *)
Definition ring_off (r o : Z) (sameHalf : bool) : Z :=
  if sameHalf then
    if o + 1 =? r then 0 else if o mod 2 =? 0 then o / 2 + 1 else - (o / 2 + 1)
  else if o =? 0 then 0 else if o =? 1 then r / 2
  else if o mod 2 =? 0 then o / 2 else - (o / 2).

Definition ring_step (r delta : Z) (sameHalf : bool) : Z :=
  let distance := Z.min delta ((r - delta) mod r) in
  if sameHalf then if distance =? 0 then r / 8 - 1 else (distance - 1) / 4
  else if distance =? r / 2 then 0 else distance / 4.

Definition half_size (r : Z) : Prop := r = 8 \/ r = 16 \/ r = 32 \/ r = 64.

#[local] Ltac half_cases H := destruct H as [-> | [-> | [-> | ->]]].

Lemma half_ring n : ring_size n -> half_size (n / 2).
Proof. intros [-> | [-> | [-> | ->]]]; unfold half_size; eval_consts; lia. Qed.

Lemma ring_offset_mod p off r : half_size r -> 0 <= p < r -> - r <= off <= r ->
  MoonEpCombineV2RingOffset p off r = (p + off) mod r.
Proof.
  intros Hr ? ?. unfold MoonEpCombineV2RingOffset.
  half_cases Hr; case_if; b2p; unwrap32; div_lia.
Qed.

Lemma bidirectional_offset_eq r t l same : half_size r -> 0 <= l < 8 -> 0 <= t -> t * 8 + l < r ->
  MoonEpCombineV2BidirectionalOffset t l r same = ring_off r (t * 8 + l) same.
Proof.
  intros Hr ? ? ?. unfold MoonEpCombineV2BidirectionalOffset, ring_off, kMoonEpCombineV2GroupSize.
  rewrite !land_1. half_cases Hr; destruct same; unwrap32; repeat (case_if; b2p; unwrap32); try lia; div_lia.
Qed.

Lemma ring_off_bound r o same : half_size r -> 0 <= o < r ->
  - (r / 2) <= ring_off r o same <= r / 2.
Proof. intros Hr ?. unfold ring_off. half_cases Hr; cases_lia. Qed.

(** A partner at ring offset [ring_off r o] is met at step [o / 8], and only one ordinal
    has a given offset. *)
Lemma ring_step_off r o same : half_size r -> 0 <= o < r ->
  ring_step r (ring_off r o same mod r) same = o / 8.
Proof. intros Hr ?. unfold ring_step, ring_off. half_cases Hr; cases_lia. Qed.

Lemma ring_step_off_neg r o same : half_size r -> 0 <= o < r ->
  ring_step r ((- ring_off r o same) mod r) same = o / 8.
Proof. intros Hr ?. unfold ring_step, ring_off. half_cases Hr; cases_lia. Qed.

Lemma ring_off_inj r o1 o2 same : half_size r -> 0 <= o1 < r -> 0 <= o2 < r ->
  ring_off r o1 same mod r = ring_off r o2 same mod r -> o1 = o2.
Proof. intros Hr ? ?. unfold ring_off. half_cases Hr; cases_lia. Qed.

(** The peer and the receive step in ring coordinates. *)
Lemma bidirectional_dest_eq n s t c : ring_size n -> 0 <= s < n -> 0 <= t < n / 16 -> 0 <= c < 16 ->
  bidirectional_dest n s t c =
  c / 8 * (n / 2) + (s mod (n / 2) + ring_off (n / 2) (t * 8 + c mod 8) (s / (n / 2) =? c / 8)) mod (n / 2).
Proof.
  intros Hn Hs Ht Hc. pose proof (half_ring n Hn) as Hr.
  assert (n = 2 * (n / 2)) as En by (destruct Hn as [-> | [-> | [-> | ->]]]; reflexivity).
  assert (n / 16 * 8 = n / 2) as E16 by (destruct Hn as [-> | [-> | [-> | ->]]]; reflexivity).
  assert (0 <= c mod 8 < 8) by (apply Z.mod_pos_bound; lia).
  assert (0 <= t * 8 + c mod 8 < n / 2) by lia.
  unfold bidirectional_dest, MoonEpCombineV2EffectivePeer, MoonEpCombineV2BidirectionalPeer.
  unfold kMoonEpCombineV2GroupSize, kMoonEpCombineV2InvalidPeer, UINT32_MAX.
  replace (n =? 8) with false by (destruct Hn as [-> | [-> | [-> | ->]]]; done).
  rewrite bidirectional_offset_eq by (try done; lia).
  pose proof (ring_off_bound (n / 2) (t * 8 + c mod 8) (s / (n / 2) =? c / 8) Hr ltac:(lia)).
  set (r := n / 2) in *. clearbody r.
  assert (0 <= s mod r < r) by (apply Z.mod_pos_bound; destruct Hr as [-> | [-> | [-> | ->]]]; lia).
  assert (r / 2 <= r) by (destruct Hr as [-> | [-> | [-> | ->]]]; div_lia).
  rewrite ring_offset_mod by (try done; lia).
  set (off := ring_off _ _ _) in *.
  destruct (s / r =? c / 8) eqn:Es; cbn [andb].
  - assert (off = 0 <-> t * 8 + c mod 8 + 1 = r) as Hoff.
    { subst off. unfold ring_off. split; [|intros ->; by rewrite Z.eqb_refl].
      destruct Hr as [-> | [-> | [-> | ->]]]; cases_lia. }
    destruct Hr as [-> | [-> | [-> | ->]]]; unwrap32.
    all: case_if; b2p; [cbn; subst off; unfold ring_off; rewrite (proj2 (Z.eqb_eq _ _)) by lia; div_lia|].
    all: case_if; b2p; div_lia.
  - destruct Hr as [-> | [-> | [-> | ->]]]; unwrap32; case_if; b2p; div_lia.
Qed.

Lemma bidirectional_meet_eq n d s : ring_size n -> 0 <= s < n -> 0 <= d < n ->
  bidirectional_meet n d s =
  ring_step (n / 2) ((d mod (n / 2) - s mod (n / 2)) mod (n / 2)) (d / (n / 2) =? s / (n / 2)).
Proof.
  intros Hn Hs Hd. unfold bidirectional_meet, MoonEpCombineV2ReceiveStep,
    MoonEpCombineV2ServerPairScheduleEnabled, MoonEpCombineV2BidirectionalScheduleEnabled,
    MoonEpCombineV2StepCount, ring_step, kMoonEpCombineV2GroupSize, kMoonEpCombineV2CoreCount.
  cbn [mode_eqb orb andb]. rewrite <- Z.min_comm.
  destruct Hn as [-> | [-> | [-> | ->]]]; eval_consts.
  all: unwrap32; rewrite mod_add_sub by lia; set (delta := (_ - _) mod _).
  all: match goal with d := ?a mod ?r |- _ => assert (0 <= d < r) by (apply Z.mod_pos_bound; lia) end; clearbody delta.
  all: destruct (d / _ =? s / _); cases_lia.
Qed.

(** A schedule over two half rings, by the offsets it uses. *)
Section half_rings.
Context (n : Z) (off : Z -> bool -> Z) (step : Z -> bool -> Z)
  (dest : Z -> Z -> Z -> Z) (meet : Z -> Z -> Z).
Let r := n / 2.
Hypothesis Hn : ring_size n.
Hypothesis dest_eq : forall s t c, 0 <= s < n -> 0 <= t < n / 16 -> 0 <= c < 16 ->
  dest s t c = c / 8 * r + (s mod r + off (t * 8 + c mod 8) (s / r =? c / 8)) mod r.
Hypothesis meet_eq : forall d s, 0 <= s < n -> 0 <= d < n ->
  meet d s = step ((d mod r - s mod r) mod r) (s / r =? d / r).
Hypothesis step_off : forall o same, 0 <= o < r -> step (off o same mod r) same = o / 8.
Hypothesis off_inj : forall o1 o2 same, 0 <= o1 < r -> 0 <= o2 < r ->
  off o1 same mod r = off o2 same mod r -> o1 = o2.

Lemma half_rings_exchange : Exchange n (n / 16) 16 dest meet.
Proof.
  assert (n = 2 * r /\ n / 16 * 8 = r /\ 0 < r) as (En & E16 & Hpos)
    by (subst r; destruct Hn as [-> | [-> | [-> | ->]]]; by vm_compute).
  assert (forall s x, 0 <= (s mod r + x) mod r < r) as Hj by (intros; by apply Z.mod_pos_bound).
  assert (forall s x, ((s mod r + x) mod r - s mod r) mod r = x mod r) as Hsub
    by (intros; rewrite Zminus_mod_idemp_l; f_equal; lia).
  clearbody r. constructor; [lia|lia| | |].
  - intros s t c Hs Ht Hc. rewrite dest_eq by done.
    assert (0 <= c / 8 < 2) by div_lia. specialize (Hj s (off (t * 8 + c mod 8) (s / r =? c / 8))). nia.
  - intros s t c Hs Ht Hc. rewrite dest_eq by done.
    assert (0 <= c / 8 < 2) by div_lia.
    set (o := off _ _). pose proof (Hj s o).
    rewrite meet_eq, mod_mul_add, div_mul_add, Hsub by (try done; nia).
    subst o. rewrite step_off by div_lia. div_lia.
  - intros s t c1 c2 Hs Ht Hc1 Hc2. rewrite !dest_eq by done. intros E.
    apply mul_add_inj in E as [Ec E]; try done.
    rewrite Ec in E. apply (f_equal (fun x => (x - s mod r) mod r)) in E. rewrite !Hsub in E.
    apply off_inj in E; div_lia.
Qed.
End half_rings.

Lemma bidirectional_exchange n : ring_size n ->
  Exchange n (n / 16) 16 (bidirectional_dest n) (bidirectional_meet n).
Proof.
  intros Hn. pose proof (half_ring n Hn) as Hr.
  apply half_rings_exchange with (off := ring_off (n / 2)) (step := ring_step (n / 2));
    [done|..].
  - intros. by apply bidirectional_dest_eq.
  - intros. rewrite (Z.eqb_sym (s / _)). by apply bidirectional_meet_eq.
  - intros. by apply ring_step_off.
  - intros. by apply (ring_off_inj (n / 2) _ _ same).
Qed.

Lemma bidirectional_dual n : ring_size n ->
  Exchange n (n / 16) 16 (bidirectional_source n) (fun s d => bidirectional_meet n d s).
Proof.
  intros Hn. pose proof (half_ring n Hn) as Hr.
  assert (n / 16 * 8 = n / 2 /\ 0 < n / 2) as [E16 Hpos]
    by (destruct Hn as [-> | [-> | [-> | ->]]]; by vm_compute).
  apply half_rings_exchange with (off := fun o same => - ring_off (n / 2) o same)
    (step := fun delta => ring_step (n / 2) ((- delta) mod (n / 2))); [done|..].
  - intros s t c Hs Ht Hc. unfold bidirectional_source.
    pose proof (Z.mod_pos_bound c 8 eq_refl).
    rewrite bidirectional_offset_eq by (try done; lia).
    pose proof (ring_off_bound (n / 2) (t * 8 + c mod 8) (s / (n / 2) =? c / 8) Hr ltac:(lia)).
    assert (n / 2 / 2 <= n / 2) by (apply Z.div_le_upper_bound; lia).
    rewrite ring_offset_mod; [done|done|by apply Z.mod_pos_bound|lia].
  - intros d s Hs Hd. rewrite bidirectional_meet_eq by done.
    rewrite opp_mod_idemp. do 2 f_equal. lia.
  - intros. rewrite opp_mod_idemp, Z.opp_involutive. by apply ring_step_off.
  - intros o1 o2 same H1 H2 E. apply (ring_off_inj (n / 2) _ _ same); try done.
    apply (f_equal (fun x => (- x) mod (n / 2))) in E.
    by rewrite !opp_mod_idemp, !Z.opp_involutive in E.
Qed.

(** ** Successors: who serves the same target at the next step *)

Lemma single_ring_successor n s t c : ring_size n -> 0 <= s < n -> 0 <= t -> t + 1 < n / 16 ->
  0 <= c < 16 ->
  0 <= MoonEpCombineV2SingleRingSuccessor s c n < n /\
  MoonEpCombineV2SingleRingPeer (MoonEpCombineV2SingleRingSuccessor s c n) (t + 1) c n =
  MoonEpCombineV2SingleRingPeer s t c n.
Proof.
  intros Hn. destruct Hn as [-> | [-> | [-> | ->]]]; eval_consts; intros Hs Ht Ht' Hc; try lia.
  all: sched.
  all: destruct (c <? 8) eqn:Ec; b2p; unwrap32.
  all: split; div_lia.
Qed.

Lemma bidirectional_successor n m s t c :
  ring_size n -> MoonEpCombineV2BidirectionalScheduleEnabled n m = true ->
  0 <= s < n -> 0 <= t -> t + 1 < n / 16 -> 0 <= c < 16 ->
  0 <= MoonEpCombineV2Successor s t c n m < n /\
  bidirectional_dest n (MoonEpCombineV2Successor s t c n m) (t + 1) c = bidirectional_dest n s t c.
Proof.
  intros Hn Hm Hs Ht Ht' Hc. pose proof (half_ring n Hn) as Hr.
  assert (n = 2 * (n / 2) /\ n / 16 * 8 = n / 2 /\ 0 < n / 2 <= 64 /\ n / 2 / 2 <= n / 2)
    as (En & E16 & Hpos & Hle)
    by (destruct Hn as [-> | [-> | [-> | ->]]]; vm_compute; intuition congruence).
  assert (steps_eq : MoonEpCombineV2StepCount n = n / 16)
    by (destruct Hn as [-> | [-> | [-> | ->]]]; done).
  unfold MoonEpCombineV2Successor. rewrite Hm, steps_eq. cbn [negb orb].
  unfold MoonEpCombineV2NextStep, kMoonEpCombineV2GroupSize.
  rewrite (u32_small (t + 1)) by lia. decide_ifs.
  pose proof (Z.mod_pos_bound c 8 eq_refl).
  set (r := n / 2) in *. set (same := s / r =? c / 8).
  rewrite !bidirectional_offset_eq by (try done; lia).
  pose proof (ring_off_bound r (t * 8 + c mod 8) same Hr ltac:(lia)).
  pose proof (ring_off_bound r ((t + 1) * 8 + c mod 8) same Hr ltac:(lia)).
  pose proof (Z.mod_pos_bound s r ltac:(lia)).
  rewrite (ring_offset_mod (s mod r)) by (try done; lia).
  rewrite ring_offset_mod; [|done|apply Z.mod_pos_bound; lia|lia].
  set (o1 := ring_off r (t * 8 + c mod 8) same) in *.
  set (o2 := ring_off r ((t + 1) * 8 + c mod 8) same) in *.
  set (j := ((s mod r + o1) mod r + - o2) mod r).
  assert (0 <= j < r) by (apply Z.mod_pos_bound; lia).
  assert (0 <= s / r < 2) as Hh.
  { split; [apply Z.div_pos; lia|]. apply Z.div_lt_upper_bound; lia. }
  assert (0 <= s / r * r + j < n) by nia.
  rewrite (u32_small (s / r * r)), u32_small by nia. split; [done|].
  rewrite !bidirectional_dest_eq by (try done; lia). fold r.
  rewrite div_mul_add, mod_mul_add by done. fold same o1 o2. f_equal.
  subst j. rewrite (Zplus_mod_idemp_l _ o2).
  replace ((s mod r + o1) mod r + - o2 + o2) with ((s mod r + o1) mod r) by lia.
  by rewrite Z.mod_mod by lia.
Qed.
