(* ===== verification/CombinePair.v ===== *)
(** The server-pair combine schedule (32, 64 and 128 ranks) is a complete exchange, seen from the
    source and from the destination, and the coordinate a destination computes is the sender's. *)
From S2P Require Import Prelude ExchangeSpec CombineSchedule.

(** ** Server pairs *)

Definition pair_size (n : Z) : Prop := n = 32 \/ n = 64 \/ n = 128.

Definition pair_mode (m : MoonEpCombineV2ScheduleMode) : Prop :=
  m = MOONEP_COMBINE_V2_SERVER_PAIR_SAME_CROSS \/ m = MOONEP_COMBINE_V2_SERVER_PAIR_PARITY.

(** The half a source is matched against and the phase in which it targets half [h]. *)
Definition pair_key (n : Z) (m : MoonEpCombineV2ScheduleMode) (s : Z) : Z :=
  if mode_eqb m MOONEP_COMBINE_V2_SERVER_PAIR_PARITY then 1 - s mod 2 else s / (n / 2).

#[local] Ltac pair :=
  cbv beta zeta delta
    [MoonEpCombineV2ServerPairPeer MoonEpCombineV2ServerPairReceive
     MoonEpCombineV2ServerPairIndex MoonEpCombineV2ServerPairTargetHalf
     MoonEpCombineV2ServerPairPhase MoonEpCombineV2ServerPairPhaseStep
     MoonEpCombineV2ServerPairRoundCount MoonEpCombineV2ServerPairPhaseStepCount
     MoonEpCombineV2ServerPairRankSize MoonEpCombineV2RankValid
     MoonEpCombineV2RankSizeSupported
     kMoonEpCombineV2RankCount kMoonEpCombineV2GroupSize kMoonEpCombineV2CoreCount
     kMoonEpCombineV2InvalidPeer UINT32_MAX];
  cbn [mode_eqb]; rewrite ?land_1; eval_consts.

#[local] Ltac sched_cases :=
  repeat (decide_ifs; unwrap32; case_if; b2p); decide_ifs; unwrap32; div_lia.

Lemma server_pair_peer_eq n m s t c : pair_size n -> pair_mode m ->
  0 <= s < n -> 0 <= t < n / 16 -> 0 <= c < 16 ->
  MoonEpCombineV2ServerPairPeer s t c n m =
  ((let h := pair_key n m s in if t <? n / 32 then h else 1 - h) * (n / 16)
   + (2 * ((s / 8 + t) mod (n / 32)) + 1 + c / 8) mod (n / 16)) * 8 + c mod 8.
Proof.
  intros Hn Hm. unfold pair_key.
  destruct Hn as [-> | [-> | ->]], Hm as [-> | ->]; intros; pair.
  all: decide_ifs.
  all: sched_cases.
Qed.

(** The coordinate a destination computes, for a destination on card [l] of server [x] of
    half [h]. *)
Definition pair_coordinate (n : Z) (m : MoonEpCombineV2ScheduleMode) (h x l s : Z) :=
  let P := n / 32 in
  let pairIndex := ((x - 1) mod (2 * P)) / 2 in
  let ps := (pairIndex - s / 8) mod P in
  let phase := if h =? pair_key n m s then 0 else 1 in
  {| sc_phase := phase; sc_phaseStep := ps; sc_round := phase * P + ps;
     sc_core := if x =? (2 * pairIndex + 1) mod (2 * P) then l else 8 + l |}.

Lemma server_pair_receive_eq n m h x l s : pair_size n -> pair_mode m ->
  0 <= s < n -> 0 <= h < 2 -> 0 <= x < n / 16 -> 0 <= l < 8 ->
  MoonEpCombineV2ServerPairReceive ((h * (n / 16) + x) * 8 + l) s n m =
  pair_coordinate n m h x l s.
Proof.
  intros Hn Hm Hs Hh Hx Hl.
  assert (0 <= h * (n / 16) + x < n / 8) as Hd by (destruct Hn as [-> | [-> | ->]]; revert Hx; eval_consts; lia).
  assert (n / 8 * 8 = n) as H8 by (destruct Hn as [-> | [-> | ->]]; reflexivity).
  unfold MoonEpCombineV2ServerPairReceive, pair_coordinate, pair_key, kMoonEpCombineV2GroupSize.
  rewrite div_mul_add, mod_mul_add by done.
  unfold MoonEpCombineV2RankValid, MoonEpCombineV2ServerPairPhaseStepCount.
  replace (MoonEpCombineV2ServerPairRankSize n) with true by (destruct Hn as [-> | [-> | ->]]; done).
  replace (MoonEpCombineV2RankSizeSupported n) with true by (destruct Hn as [-> | [-> | ->]]; done).
  cbn [negb andb orb]. decide_ifs.
  assert (u32 (2 * (n / 32)) = n / 16) as -> by (destruct Hn as [-> | [-> | ->]]; done).
  assert (2 * (n / 32) = n / 16) as -> by (destruct Hn as [-> | [-> | ->]]; done).
  rewrite div_mul_add by done.
  assert (h = 0 \/ h = 1) as Hh' by lia.
  rewrite land_1. destruct Hm as [-> | ->]; cbn [mode_eqb];
    destruct Hn as [-> | [-> | ->]], Hh' as [-> | ->]; revert Hx; eval_consts; intros Hx; f_equal.
  all: sched_cases.
Qed.

Lemma pair_key_bound n m s : pair_size n -> 0 <= s < n -> 0 <= pair_key n m s < 2.
Proof.
  intros Hn Hs. unfold pair_key. destruct (mode_eqb _ _); [div_lia|].
  destruct Hn as [-> | [-> | ->]]; div_lia.
Qed.

(** The pair reached with ordinal [a] is found back from its server. *)
Lemma pair_index_inv P a k : 0 < P -> 0 <= a < P -> 0 <= k < 2 ->
  ((((2 * a + 1 + k) mod (2 * P)) - 1) mod (2 * P)) / 2 = a.
Proof.
  intros. rewrite Zminus_mod_idemp_l. replace (2 * a + 1 + k - 1) with (2 * a + k) by lia.
  rewrite Z.mod_small by lia. rewrite (Z.mul_comm 2), div_mul_add; lia.
Qed.

Definition server_pair_meet (n : Z) (m : MoonEpCombineV2ScheduleMode) (d s : Z) : Z :=
  sc_round (MoonEpCombineV2ServerPairReceive d s n m).

(** A sender's coordinates are what the destination computes: phase, phase step, round and core. *)
Lemma server_pair_coordinate n m s t c : pair_size n -> pair_mode m ->
  0 <= s < n -> 0 <= t < n / 16 -> 0 <= c < 16 ->
  MoonEpCombineV2ServerPairReceive (MoonEpCombineV2ServerPairPeer s t c n m) s n m =
  {| sc_phase := t / (n / 32); sc_phaseStep := t mod (n / 32); sc_round := t; sc_core := c |}.
Proof.
  intros Hn Hm Hs Ht Hc. pose proof (pair_key_bound n m s Hn Hs) as Hk.
  rewrite server_pair_peer_eq by done.
  assert (0 < n / 32 /\ n / 16 = 2 * (n / 32)) as [HP E]
    by (destruct Hn as [-> | [-> | ->]]; by vm_compute).
  set (P := n / 32) in *.
  set (a := (s / 8 + t) mod P).
  assert (0 <= a < P) by (apply Z.mod_pos_bound; lia).
  assert (0 <= c mod 8 < 8 /\ 0 <= c / 8 < 2) as [? ?] by (split; div_lia).
  rewrite server_pair_receive_eq; try done; cycle 1.
  { cbv zeta. case_if; lia. }
  { apply Z.mod_pos_bound. lia. }
  unfold pair_coordinate. fold P. rewrite E, pair_index_inv by done.
  replace ((a - s / 8) mod P) with (t mod P)
    by (subst a; rewrite Zminus_mod_idemp_l; f_equal; lia).
  cbv zeta.
  assert ((if (if t <? P then pair_key n m s else 1 - pair_key n m s) =? pair_key n m s
           then 0 else 1) = t / P) as ->.
  { destruct (Z.ltb_spec t P).
    - rewrite Z.eqb_refl. rewrite Z.div_small; lia.
    - rewrite (proj2 (Z.eqb_neq _ _)) by lia.
      apply (Z.div_unique_pos t P 1 (t - P)); lia. }
  f_equal.
  - rewrite Z.mul_comm. symmetry. apply Z.div_mod. lia.
  - assert (c / 8 = 0 \/ c / 8 = 1) as [E8 | E8] by lia; rewrite E8.
    + rewrite Z.add_0_r, Z.eqb_refl. div_lia.
    + replace (_ =? _) with false.
      * div_lia.
      * symmetry. apply Z.eqb_neq. intros Ex.
        rewrite (Z.mod_small (2 * a + 1)) in Ex by lia.
        apply (f_equal (fun x => (x - 1) mod (2 * P))) in Ex.
        rewrite Zminus_mod_idemp_l, !Z.mod_small in Ex; lia.
Qed.

Lemma server_pair_exchange n m : pair_size n -> pair_mode m ->
  Exchange n (n / 16) 16 (fun s t c => MoonEpCombineV2ServerPairPeer s t c n m)
    (server_pair_meet n m).
Proof.
  intros Hn Hm. constructor.
  - split; [|lia]. destruct Hn as [-> | [-> | ->]]; by vm_compute.
  - destruct Hn as [-> | [-> | ->]]; by vm_compute.
  - intros s t c Hs Ht Hc. pose proof (pair_key_bound n m s Hn Hs).
    rewrite server_pair_peer_eq by done. cbv zeta.
    assert (0 <= c mod 8 < 8) by div_lia.
    set (y := (2 * _ + 1 + _) mod (n / 16)).
    assert (0 <= y < n / 16) by (apply Z.mod_pos_bound; lia).
    assert (n = n / 16 * 2 * 8) by (destruct Hn as [-> | [-> | ->]]; reflexivity).
    clearbody y. case_if; nia.
  - intros. unfold server_pair_meet. by rewrite server_pair_coordinate.
  - intros s t c1 c2 Hs Ht Hc1 Hc2 E.
    apply (f_equal (fun d => sc_core (MoonEpCombineV2ServerPairReceive d s n m))) in E.
    by rewrite !server_pair_coordinate in E.
Qed.

(** The sources that reach [d] in round [t]. *)
Definition server_pair_source (n : Z) (m : MoonEpCombineV2ScheduleMode) (d t c : Z) : Z :=
  let P := n / 32 in
  let h := d / (n / 2) in
  let x := d / 8 mod (2 * P) in
  let rho := (((x - 1) mod (2 * P)) / 2 - t) mod P in
  let key := if t <? P then h else 1 - h in
  if mode_eqb m MOONEP_COMBINE_V2_SERVER_PAIR_PARITY
  then (rho + c / 4 * P) * 8 + c mod 4 * 2 + (1 - key)
  else (key * (2 * P) + rho + c / 8 * P) * 8 + c mod 8.

#[local] Ltac core_digits c :=
  assert (0 <= c / 4 < 4 /\ 0 <= c mod 4 < 4 /\ 0 <= c / 8 < 2 /\ 0 <= c mod 8 < 8)
    as (? & ? & ? & ?) by (repeat split; div_lia).

(** The source's server residue and key, as the destination reads them. *)
Lemma server_pair_source_facts n m d t c : pair_size n -> 0 <= d < n -> 0 <= t < n / 16 ->
  0 <= c < 16 ->
  let P := n / 32 in
  let src := server_pair_source n m d t c in
  let key := if t <? P then d / (n / 2) else 1 - d / (n / 2) in
  0 <= src < n /\ pair_key n m src = key /\
  (src / 8) mod P = (((d / 8 mod (2 * P) - 1) mod (2 * P)) / 2 - t) mod P.
Proof.
  intros Hn Hd Ht Hc P src key.
  assert (0 < P /\ n / 2 = 16 * P /\ n = 32 * P) as (HP & E2 & En)
    by (subst P; destruct Hn as [-> | [-> | ->]]; by vm_compute).
  assert (0 <= key < 2) as Hkey.
  { assert (0 <= d / (n / 2) < 2) by (destruct Hn as [-> | [-> | ->]]; div_lia).
    subst key. case_if; lia. }
  subst src. unfold server_pair_source, pair_key. fold P. cbv zeta. fold key.
  set (rho := (_ - t) mod P). assert (0 <= rho < P) by (apply Z.mod_pos_bound; lia).
  rewrite E2. clearbody rho key. clear Hd Ht. core_digits c. destruct (mode_eqb _ _).
  - split; [nia|]. split; [div_lia|].
    replace ((rho + c / 4 * P) * 8 + c mod 4 * 2 + (1 - key))
      with ((rho + c / 4 * P) * 8 + (c mod 4 * 2 + (1 - key))) by lia.
    rewrite div_mul_add, Z.mod_add, Z.mod_small; lia.
  - split; [nia|]. split.
    + replace ((key * (2 * P) + rho + c / 8 * P) * 8 + c mod 8)
        with (key * (16 * P) + (rho * 8 + c / 8 * P * 8 + c mod 8)) by ring.
      apply div_mul_add. nia.
    + rewrite div_mul_add by lia.
      replace (key * (2 * P) + rho + c / 8 * P) with (rho + (2 * key + c / 8) * P) by ring.
      rewrite Z.mod_add, Z.mod_small; lia.
Qed.

Lemma server_pair_source_inj n m d t c1 c2 : pair_size n -> 0 <= c1 < 16 -> 0 <= c2 < 16 ->
  server_pair_source n m d t c1 = server_pair_source n m d t c2 -> c1 = c2.
Proof.
  intros Hn H1 H2. unfold server_pair_source.
  set (rho := (_ - t) mod _). set (key := if t <? _ then _ else _). clearbody rho key.
  assert (0 < n / 32) by (destruct Hn as [-> | [-> | ->]]; by vm_compute).
  core_digits c1. core_digits c2. cbv zeta. destruct (mode_eqb _ _); intros E.
  - assert ((rho + c1 / 4 * (n / 32)) * 8 + c1 mod 4 * 2
            = (rho + c2 / 4 * (n / 32)) * 8 + c2 mod 4 * 2) as E' by lia.
    apply mul_add_inj in E' as [Eq Er]; [|lia..].
    assert (c1 / 4 = c2 / 4) by nia. div_lia.
  - apply mul_add_inj in E as [Eq Er]; [|lia..].
    assert (c1 / 8 = c2 / 8) by nia. div_lia.
Qed.

Lemma rank_digits n d : pair_size n -> 0 <= d < n ->
  0 <= d / (n / 2) < 2 /\ 0 <= d / 8 mod (n / 16) < n / 16 /\
  d = (d / (n / 2) * (n / 16) + d / 8 mod (n / 16)) * 8 + d mod 8.
Proof. intros Hn Hd. destruct Hn as [-> | [-> | ->]]; eval_consts; div_lia. Qed.

Lemma server_pair_dual n m : pair_size n -> pair_mode m ->
  Exchange n (n / 16) 16 (server_pair_source n m) (fun s d => server_pair_meet n m d s).
Proof.
  intros Hn Hm.
  assert (0 < n / 32 /\ n / 16 = 2 * (n / 32)) as (HP & E16)
    by (destruct Hn as [-> | [-> | ->]]; by vm_compute).
  constructor; [lia| | | |].
  - destruct Hn as [-> | [-> | ->]]; by vm_compute.
  - intros d t c Hd Ht Hc. by apply server_pair_source_facts.
  - intros d t c Hd Ht Hc.
    destruct (server_pair_source_facts n m d t c Hn Hd Ht Hc) as (Hr & Ek & Erho).
    destruct (rank_digits n d Hn Hd) as (Hh & Hx & Ed).
    unfold server_pair_meet. rewrite Ed at 1.
    rewrite server_pair_receive_eq by (try done; div_lia).
    unfold pair_coordinate, sc_round. rewrite Ek, <- Zminus_mod_idemp_r, Erho, Zminus_mod_idemp_r, E16.
    set (P := n / 32) in *. set (pi := (_ - 1) mod (2 * P) / 2).
    replace (pi - (pi - t)) with t by lia.
    assert (t = t / P * P + t mod P) as Et by (rewrite Z.mul_comm; apply Z.div_mod; lia).
    transitivity (t / P * P + t mod P); [|by symmetry]. f_equal. f_equal. destruct (Z.ltb_spec t P).
    + rewrite Z.eqb_refl. rewrite Z.div_small; lia.
    + rewrite (proj2 (Z.eqb_neq _ _)) by lia.
      apply (Z.div_unique_pos t P 1 (t - P)); lia.
  - intros d t c1 c2 Hd Ht. by apply server_pair_source_inj.
Qed.
