(* ===== verification/CombineProps.v ===== *)
(** The theorems about the combine schedule as the kernel uses it: whatever the supported job
    size and the schedule mode, the sender's and the receiver's views of the exchange agree. *)
From S2P Require Import Prelude ExchangeSpec CombineSchedule CombineRing CombinePair.

(** The rank a (source, step, core) serves; a core with no peer serves the source itself. *)
Definition combine_dest (n : Z) (m : MoonEpCombineV2ScheduleMode) (s t c : Z) : Z :=
  MoonEpCombineV2EffectivePeer (MoonEpCombineV2Peer s t c n m) s.

Definition combine_meet (n : Z) (m : MoonEpCombineV2ScheduleMode) (d s : Z) : Z :=
  MoonEpCombineV2ReceiveStep d s n m.

Abbreviation steps := MoonEpCombineV2StepCount.
Abbreviation cores := MoonEpCombineV2ActiveCoreCount.
Abbreviation supported n := (MoonEpCombineV2RankSizeSupported n = true).

Lemma supported_cases n : supported n -> 2 <= n <= 8 \/ ring_size n.
Proof.
  unfold MoonEpCombineV2RankSizeSupported, ring_size, kMoonEpCombineV2GroupSize,
    kMoonEpCombineV2RankCount. lia.
Qed.

Lemma ring_shape n : ring_size n ->
  steps n = n / 16 /\ cores n = 16 /\ MoonEpCombineV2RankSizeSupported n = true.
Proof. intros [-> | [-> | [-> | ->]]]; done. Qed.

Lemma Exchange_ext n T C dest dest' meet meet' :
  (forall s t c, 0 <= s < n -> 0 <= t < T -> 0 <= c < C -> dest s t c = dest' s t c) ->
  (forall d s, 0 <= d < n -> 0 <= s < n -> meet d s = meet' d s) ->
  Exchange n T C dest meet -> Exchange n T C dest' meet'.
Proof.
  intros Hd Hm [Hpos Hsz Hr Hme Hc]. constructor; try done.
  - intros. rewrite <- Hd by done. by apply Hr.
  - intros. rewrite <- Hd, <- Hm by (try done; by apply Hr). by apply Hme.
  - intros s t c1 c2 ? ? ? ?. rewrite <- !Hd by done. by apply Hc.
Qed.

(** ** Every supported job *)

Lemma valid_peer_effective p s : 0 <= p < 128 -> MoonEpCombineV2EffectivePeer p s = p.
Proof.
  intros. unfold MoonEpCombineV2EffectivePeer, kMoonEpCombineV2InvalidPeer, UINT32_MAX.
  decide_ifs. done.
Qed.

Lemma ring_size_bound n : ring_size n -> 16 <= n <= 128.
Proof. intros [-> | [-> | [-> | ->]]]; lia. Qed.

Lemma combine_dest_cases n m : ring_size n ->
  (exists m', pair_size n /\ pair_mode m' /\ m = m' /\
     combine_dest n m = (fun s t c => MoonEpCombineV2EffectivePeer (MoonEpCombineV2ServerPairPeer s t c n m) s) /\
     combine_meet n m = server_pair_meet n m) \/
  (combine_dest n m = bidirectional_dest n /\ combine_meet n m = bidirectional_meet n) \/
  (combine_dest n m = (fun s t c => MoonEpCombineV2EffectivePeer (MoonEpCombineV2SingleRingPeer s t c n) s) /\
   combine_meet n m = (fun d s => MoonEpCombineV2SingleRingReceiveStep d s n)).
Proof.
  intros [-> | [-> | [-> | ->]]]; destruct m;
    first [ right; right; split; reflexivity | right; left; split; reflexivity
          | left; eexists; unfold pair_size, pair_mode; repeat split; eauto ].
Qed.

Lemma combine_exchange_ring n m : ring_size n ->
  Exchange n (n / 16) 16 (combine_dest n m) (combine_meet n m).
Proof.
  intros Hn. pose proof (ring_size_bound n Hn).
  destruct (combine_dest_cases n m Hn) as [(m' & Hp & Hm & -> & -> & ->) | [[-> ->] | [-> ->]]].
  - pose proof (server_pair_exchange n m' Hp Hm) as HE. eapply Exchange_ext, HE; [|done].
    intros. symmetry. apply valid_peer_effective.
    pose proof (ex_range s t c H0 H1 H2). lia.
  - by apply bidirectional_exchange.
  - pose proof (single_ring_exchange n Hn) as HE. eapply Exchange_ext, HE; [|done].
    intros. symmetry. apply valid_peer_effective.
    pose proof (ex_range s t c H0 H1 H2). lia.
Qed.

Lemma combine_dual_ring n m : ring_size n ->
  exists source, Exchange n (n / 16) 16 source (fun s d => combine_meet n m d s).
Proof.
  intros Hn.
  destruct (combine_dest_cases n m Hn) as [(m' & Hp & Hm & -> & _ & ->) | [[_ ->] | [_ ->]]].
  - eexists. by apply server_pair_dual.
  - eexists. by apply bidirectional_dual.
  - eexists. by apply single_ring_dual.
Qed.

(** Jobs of one server: a single step in which core [c] serves a rank of its own. *)
Lemma combine_small n m : 2 <= n <= 8 ->
  Exchange n 1 n (combine_dest n m) (combine_meet n m).
Proof.
  intros Hn.
  assert (forall d s, combine_meet n m d s = 0) as Hmeet.
  { intros. unfold combine_meet, MoonEpCombineV2ReceiveStep, MoonEpCombineV2ServerPairScheduleEnabled,
      MoonEpCombineV2ServerPairRankSize, MoonEpCombineV2SingleRingReceiveStep,
      kMoonEpCombineV2GroupSize, kMoonEpCombineV2RankCount.
    replace ((n =? 32) || (n =? 64) || (n =? 128)) with false by lia. rewrite andb_false_r.
    replace (n <=? 8) with true by lia. by rewrite orb_true_r. }
  destruct (decide (n = 8 /\ m <> MOONEP_COMBINE_V2_SINGLE_RING)) as [[-> Hm]|Hn'].
  - assert (forall s t c, combine_dest 8 m s t c =
      MoonEpCombineV2EffectivePeer (MoonEpCombineV2BidirectionalPeer s t c 8) s) as E
      by (intros; destruct m; try done).
    assert (forall s c, 0 <= s < 8 -> 0 <= c < 8 -> combine_dest 8 m s 0 c = (s + ring_off 8 c true) mod 8) as Ed.
    { intros. rewrite E. unfold MoonEpCombineV2BidirectionalPeer.
      unfold kMoonEpCombineV2GroupSize. change (8 =? 8) with true. cbv iota.
      rewrite bidirectional_offset_eq by (unfold half_size; lia).
      pose proof (ring_off_bound 8 (0 * 8 + c) true ltac:(unfold half_size; lia) ltac:(lia)) as Hb.
      rewrite ring_offset_mod by (unfold half_size in *; revert Hb; eval_consts; lia).
      unwrap32. case_if; b2p.
      - assert (c = 7) as -> by lia. cbn. rewrite Z.add_0_r, Z.mod_small; lia.
      - rewrite valid_peer_effective; [done|]. div_lia. }
    constructor; [lia|lia| | |].
    + intros s t c Hs Ht Hc. assert (t = 0) as -> by lia. rewrite Ed by done. div_lia.
    + intros s t c Hs Ht Hc. rewrite Hmeet. lia.
    + intros s t c1 c2 Hs Ht H1 H2. assert (t = 0) as -> by lia. rewrite !Ed by done. intros Eq.
      apply (f_equal (fun x => (x - s) mod 8)) in Eq. rewrite !Zminus_mod_idemp_l in Eq.
      rewrite !(Z.add_comm s), !Z.add_simpl_r in Eq.
      apply (ring_off_inj 8 c1 c2 true); unfold half_size; auto.
  - assert (forall s t c, 0 <= c < n -> combine_dest n m s t c = c) as Ed.
    { intros s t c Hc. unfold combine_dest, MoonEpCombineV2Peer.
      replace (MoonEpCombineV2ServerPairScheduleEnabled n m) with false
        by (unfold MoonEpCombineV2ServerPairScheduleEnabled, MoonEpCombineV2ServerPairRankSize,
              kMoonEpCombineV2RankCount; destruct m; cbn [mode_eqb]; lia).
      replace (MoonEpCombineV2BidirectionalScheduleEnabled n m) with false
        by (unfold MoonEpCombineV2BidirectionalScheduleEnabled, kMoonEpCombineV2GroupSize;
            destruct (Z.eqb_spec n 8), m; cbn [mode_eqb orb andb]; try lia;
            exfalso; apply Hn'; done).
      unfold MoonEpCombineV2SingleRingPeer, kMoonEpCombineV2GroupSize. decide_ifs.
      apply valid_peer_effective. lia. }
    constructor; [lia|lia| | |].
    + intros. rewrite Ed; lia.
    + intros. rewrite Hmeet. lia.
    + intros *. intros ? ? ? ?. rewrite !Ed by done. done.
Qed.

(** What sender and receiver rely on, for every supported job. *)
Lemma combine_exchange n m : supported n ->
  Exchange n (steps n) (cores n) (combine_dest n m) (combine_meet n m).
Proof.
  intros [Hn|Hn]%supported_cases.
  - unfold steps, cores, kMoonEpCombineV2GroupSize. decide_ifs. by apply combine_small.
  - destruct (ring_shape n Hn) as (-> & -> & _). by apply combine_exchange_ring.
Qed.

Lemma combine_dual n m : supported n ->
  exists source, Exchange n (steps n) (cores n) source (fun s d => combine_meet n m d s).
Proof.
  intros [Hn|Hn]%supported_cases.
  - exists (fun d t c => c). pose proof (combine_small n m Hn) as HE.
    unfold steps, cores, kMoonEpCombineV2GroupSize. decide_ifs.
    constructor; [lia|lia|lia| |lia].
    intros d t c Hd Ht Hc. destruct (served_inv (Exchange0 := HE) c d) as [? _]; lia.
  - destruct (ring_shape n Hn) as (-> & -> & _). by apply combine_dual_ring.
Qed.

Lemma supported_bounds n : supported n -> 2 <= n <= 128 /\ 0 < cores n <= 16 /\ 0 < steps n <= 8.
Proof.
  intros [Hn|Hn]%supported_cases.
  - unfold steps, cores, kMoonEpCombineV2GroupSize. decide_ifs. lia.
  - destruct Hn as [-> | [-> | [-> | ->]]]; vm_compute; intuition congruence.
Qed.

Lemma RankValid_iff n r : supported n -> 0 <= r < n -> MoonEpCombineV2RankValid r n = true.
Proof. intros Hs Hr. unfold MoonEpCombineV2RankValid. rewrite Hs. lia. Qed.

Lemma StepValid_iff n t : supported n -> 0 <= t < steps n -> MoonEpCombineV2StepValid t n = true.
Proof. intros Hs Hr. unfold MoonEpCombineV2StepValid. rewrite Hs. lia. Qed.

Lemma CoreValid_iff n c : supported n -> 0 <= c < cores n -> MoonEpCombineV2CoreValid c n = true.
Proof. intros Hs Hr. unfold MoonEpCombineV2CoreValid. rewrite Hs. lia. Qed.

#[export] Hint Resolve RankValid_iff StepValid_iff CoreValid_iff : tilexr.

(** ** Properties *)

(** C6: for every supported job size, every schedule mode and every source rank, the peers over
    all steps and active cores are a permutation of all the ranks: each ordered pair of
    ranks meets exactly once, and the destination's [ReceiveStep] is the sender's step. *)
Theorem combine_every_pair_once n m s :
  MoonEpCombineV2RankSizeSupported n = true -> 0 <= s < n ->
  served (combine_dest n m) (MoonEpCombineV2StepCount n) (MoonEpCombineV2ActiveCoreCount n) s
    ≡ₚ seqZ 0 n /\
  (forall t c, 0 <= t < MoonEpCombineV2StepCount n ->
     0 <= c < MoonEpCombineV2ActiveCoreCount n ->
     MoonEpCombineV2ReceiveStep (combine_dest n m s t c) s n m = t).
Proof.
  intros Hn Hs. pose proof (combine_exchange n m Hn). split; [by apply served_all|].
  intros. by apply (ex_meet (meet := combine_meet n m)).
Qed.

Lemma combine_every_pair_once_witness :
  served (combine_dest 32 MOONEP_COMBINE_V2_SERVER_PAIR_PARITY) 2 16 5 ≡ₚ seqZ 0 32.
Proof.
  apply (combine_every_pair_once 32 MOONEP_COMBINE_V2_SERVER_PAIR_PARITY 5); [reflexivity|lia].
Defined.

(** Incast is balanced: at every step every destination is the target of exactly
    [ActiveCoreCount] sources. *)
Theorem combine_incast_balanced n m d t :
  MoonEpCombineV2RankSizeSupported n = true -> 0 <= d < n ->
  0 <= t < MoonEpCombineV2StepCount n ->
  Z.of_nat (length (List.filter (fun s => MoonEpCombineV2ReceiveStep d s n m =? t) (seqZ 0 n)))
  = MoonEpCombineV2ActiveCoreCount n.
Proof.
  intros Hn Hd Ht. destruct (combine_dual n m Hn) as [src HE].
  by apply (met_at_count (meet := fun s d => combine_meet n m d s)).
Qed.

Lemma combine_incast_balanced_witness :
  Z.of_nat (length (List.filter
    (fun s => MoonEpCombineV2ReceiveStep 9 s 64 MOONEP_COMBINE_V2_BIDIRECTIONAL_RING =? 2)
    (seqZ 0 64))) = 16.
Proof.
  apply (combine_incast_balanced 64 MOONEP_COMBINE_V2_BIDIRECTIONAL_RING 9 2);
    [reflexivity|lia|]. change (0 <= 2 < 4). lia.
Defined.

(** The sender core of a meeting pair. *)
Lemma transfer_core_spec n m s d t :
  MoonEpCombineV2RankSizeSupported n = true -> 0 <= s < n -> 0 <= d < n ->
  0 <= t < MoonEpCombineV2StepCount n ->
  let c := MoonEpCombineV2TransferCore s d t n m in
  if MoonEpCombineV2ReceiveStep d s n m =? t
  then 0 <= c < MoonEpCombineV2ActiveCoreCount n /\ combine_dest n m s t c = d
  else c = kMoonEpCombineV2InvalidPeer.
Proof.
  intros Hn Hs Hd Ht. pose proof (combine_exchange n m Hn) as HE.
  pose proof (supported_bounds n Hn) as (_ & Hc & _). cbv zeta.
  unfold MoonEpCombineV2TransferCore. rewrite !RankValid_iff, StepValid_iff by done. cbn [negb orb].
  destruct (Z.eqb_spec (MoonEpCombineV2ReceiveStep d s n m) t) as [E|E].
  - destruct (served_inv s d Hs Hd) as (_ & c & Hcc & Ec). unfold combine_meet in Ec. rewrite E in Ec.
    rewrite (loop_unique_match (fun c => combine_dest n m s t c =? d) _ _ c); [done|..].
    + by apply elem_of_seqZ0.
    + apply NoDup_seqZ.
    + rewrite elem_of_seqZ0. unfold kMoonEpCombineV2InvalidPeer, UINT32_MAX. lia.
    + intros x Hx%elem_of_seqZ0. rewrite Z.eqb_eq. split; [|by intros ->].
      intros Ex. apply (ex_core s t x c Hs Ht Hx Hcc). congruence.
  - assert (forall x, x ∈ seqZ 0 (cores n) -> (combine_dest n m s t x =? d) = false) as Hno.
    { intros x Hx%elem_of_seqZ0. apply Z.eqb_neq. intros Ex. apply E.
      rewrite <- Ex. by apply (ex_meet (meet := combine_meet n m)). }
    induction (seqZ 0 (cores n)) as [|x l IH]; [done|]. cbn [loop_ret].
    fold (combine_dest n m s t x). rewrite (Hno x) by (by left). cbn [negb].
    apply IH. intros y Hy. apply (Hno y). by right.
Qed.

(** [TransferCore] inverts the schedule: for the step at which a pair meets it returns the
    one active core that serves the pair, and at every other step it reports no core. *)
Theorem combine_transfer_core n m s d t :
  MoonEpCombineV2RankSizeSupported n = true -> 0 <= s < n -> 0 <= d < n ->
  0 <= t < MoonEpCombineV2StepCount n ->
  let c := MoonEpCombineV2TransferCore s d t n m in
  if MoonEpCombineV2ReceiveStep d s n m =? t
  then 0 <= c < MoonEpCombineV2ActiveCoreCount n /\ combine_dest n m s t c = d
  else c = kMoonEpCombineV2InvalidPeer.
Proof. apply transfer_core_spec. Qed.

Lemma combine_transfer_core_witness :
  let c := MoonEpCombineV2TransferCore 3 12 0 16 MOONEP_COMBINE_V2_SINGLE_RING in
  0 <= c < 16 /\ combine_dest 16 MOONEP_COMBINE_V2_SINGLE_RING 3 0 c = 12.
Proof.
  pose proof (combine_transfer_core 16 MOONEP_COMBINE_V2_SINGLE_RING 3 12 0
    eq_refl ltac:(lia) ltac:(lia) ltac:(change (0 <= 0 < 1); lia)) as H. exact H.
Defined.

(** Sources and receiver cores of one step. *)
Lemma receive_inverse_spec n m d t :
  MoonEpCombineV2RankSizeSupported n = true -> 0 <= d < n ->
  0 <= t < MoonEpCombineV2StepCount n ->
  (forall c, 0 <= c < MoonEpCombineV2ActiveCoreCount n ->
     let s := MoonEpCombineV2ReceiveSource d t c n m in
     0 <= s < n /\ MoonEpCombineV2ReceiveStep d s n m = t /\
     MoonEpCombineV2ReceiveCore d s t n m = c) /\
  (forall s, 0 <= s < n -> MoonEpCombineV2ReceiveStep d s n m = t ->
     let c := MoonEpCombineV2ReceiveCore d s t n m in
     0 <= c < MoonEpCombineV2ActiveCoreCount n /\ MoonEpCombineV2ReceiveSource d t c n m = s).
Proof.
  intros Hn Hd Ht. pose proof (supported_bounds n Hn) as (Hb & Hc & _).
  destruct (combine_dual n m Hn) as [src HE].
  pose proof (met_at_count (meet := fun s d => combine_meet n m d s) d t Hd Ht) as Hlen.
  cbv beta in Hlen. unfold combine_meet in Hlen.
  set (p := fun s => MoonEpCombineV2ReceiveStep d s n m =? t) in *.
  set (L := List.filter p (seqZ 0 n)) in *.
  assert (forall c s, 0 <= c < cores n -> L !! Z.to_nat c = Some s ->
    0 <= s < n /\ p s = true /\ MoonEpCombineV2ReceiveSource d t c n m = s /\
    MoonEpCombineV2ReceiveCore d s t n m = c) as Hlk.
  { intros c s Hcc Hl. pose proof (list_elem_of_lookup_2 _ _ _ Hl) as Hin.
    apply list_elem_of_In, List.filter_In in Hin as [Hin Hps].
    apply list_elem_of_In, elem_of_seqZ0 in Hin. split; [done|]. split; [done|]. split.
    - unfold MoonEpCombineV2ReceiveSource. rewrite RankValid_iff, StepValid_iff, CoreValid_iff by done.
      cbn [negb orb]. rewrite (loop_nth_match p) by lia. fold L. by rewrite Z.sub_0_r, Hl.
    - unfold MoonEpCombineV2ReceiveCore. rewrite !RankValid_iff, StepValid_iff by done.
      cbn [negb orb]. fold (p s). rewrite Hps. cbn [negb].
      rewrite (loop_index_match p _ s c 0); [lia|done|apply NoDup_seqZ|lia..]. }
  split.
  - intros c Hcc. cbv zeta.
    destruct (lookup_lt_is_Some_2 L (Z.to_nat c) ltac:(lia)) as [s Hl].
    destruct (Hlk c s Hcc Hl) as (? & Hp & -> & ?). unfold p in Hp. b2p. done.
  - intros s Hs E. cbv zeta.
    assert (s ∈ L) as Hin.
    { apply list_elem_of_In, List.filter_In. split; [by apply list_elem_of_In, elem_of_seqZ0|].
      by apply Z.eqb_eq. }
    apply list_elem_of_lookup in Hin as [i Hl]. pose proof (lookup_lt_Some _ _ _ Hl).
    rewrite <- (Nat2Z.id i) in Hl.
    destruct (Hlk (Z.of_nat i) s ltac:(lia) Hl) as (_ & _ & ? & ->). split; [lia|done].
Qed.

(** C27: [ReceiveSource] and [ReceiveCore] are mutually inverse: receiver core [c] of step [t]
    waits for a valid source whose receive step is [t] and whose receiver core is [c], and
    every source is found back from its receiver core. *)
Theorem combine_receive_inverse n m d t :
  MoonEpCombineV2RankSizeSupported n = true -> 0 <= d < n ->
  0 <= t < MoonEpCombineV2StepCount n ->
  (forall c, 0 <= c < MoonEpCombineV2ActiveCoreCount n ->
     let s := MoonEpCombineV2ReceiveSource d t c n m in
     0 <= s < n /\ MoonEpCombineV2ReceiveStep d s n m = t /\
     MoonEpCombineV2ReceiveCore d s t n m = c) /\
  (forall s, 0 <= s < n -> MoonEpCombineV2ReceiveStep d s n m = t ->
     let c := MoonEpCombineV2ReceiveCore d s t n m in
     0 <= c < MoonEpCombineV2ActiveCoreCount n /\ MoonEpCombineV2ReceiveSource d t c n m = s).
Proof. apply receive_inverse_spec. Qed.

Lemma combine_receive_inverse_witness :
  let s := MoonEpCombineV2ReceiveSource 7 1 4 32 MOONEP_COMBINE_V2_SERVER_PAIR_SAME_CROSS in
  0 <= s < 32 /\ MoonEpCombineV2ReceiveStep 7 s 32 MOONEP_COMBINE_V2_SERVER_PAIR_SAME_CROSS = 1.
Proof.
  destruct (combine_receive_inverse 32 MOONEP_COMBINE_V2_SERVER_PAIR_SAME_CROSS 7 1
    eq_refl ltac:(lia) ltac:(change (0 <= 1 < 2); lia)) as [H _].
  destruct (H 4 ltac:(change (0 <= 4 < 16); lia)) as (? & ? & _). done.
Defined.

(** Hand-over between steps: whenever the ring schedules are in force, the rank that
    [Successor] names serves, at the next step and on the same core, the very target the
    rank serves now. *)
Theorem combine_successor_hands_over n m s t c :
  MoonEpCombineV2RankSizeSupported n = true ->
  MoonEpCombineV2ServerPairScheduleEnabled n m = false ->
  0 <= s < n -> 0 <= t -> t + 1 < MoonEpCombineV2StepCount n ->
  0 <= c < MoonEpCombineV2ActiveCoreCount n ->
  let s' := MoonEpCombineV2Successor s t c n m in
  0 <= s' < n /\ combine_dest n m s' (t + 1) c = combine_dest n m s t c.
Proof.
  intros Hn Hsp Hs Ht Ht' Hc. destruct (supported_cases n Hn) as [Hsm|Hr].
  { exfalso. revert Ht'. unfold steps, kMoonEpCombineV2GroupSize. decide_ifs. lia. }
  destruct (ring_shape n Hr) as (Es & Ec & _). rewrite Es in Ht'. rewrite Ec in Hc.
  cbv zeta. destruct (MoonEpCombineV2BidirectionalScheduleEnabled n m) eqn:Hb.
  - assert (combine_dest n m = bidirectional_dest n) as ->.
    { unfold combine_dest, bidirectional_dest, MoonEpCombineV2Peer. by rewrite Hsp, Hb. }
    by apply bidirectional_successor.
  - destruct (single_ring_successor n s t c Hr Hs Ht Ht' Hc) as [H1 H2].
    unfold MoonEpCombineV2Successor. rewrite Hb. cbn [negb orb]. split; [done|].
    unfold combine_dest, MoonEpCombineV2Peer. rewrite Hsp, Hb, H2.
    pose proof (single_ring_exchange n Hr) as HE. pose proof (ring_size_bound n Hr).
    assert (0 <= t < n / 16) as Htt by lia. pose proof (ex_range s t c Hs Htt Hc).
    rewrite !valid_peer_effective; [done|lia..].
Qed.

Lemma combine_successor_hands_over_witness :
  let s' := MoonEpCombineV2Successor 5 0 3 64 MOONEP_COMBINE_V2_BIDIRECTIONAL_RING in
  0 <= s' < 64 /\
  combine_dest 64 MOONEP_COMBINE_V2_BIDIRECTIONAL_RING s' 1 3 =
  combine_dest 64 MOONEP_COMBINE_V2_BIDIRECTIONAL_RING 5 0 3.
Proof.
  apply (combine_successor_hands_over 64 MOONEP_COMBINE_V2_BIDIRECTIONAL_RING 5 0 3);
    try reflexivity; try lia; try (change (0 + 1 < 4); lia); change (0 <= 3 < 16); lia.
Defined.

(** the server-pair receive coordinates invert the server-pair peer: phase, phase step,
    round and core computed by the destination are those the sender used. *)
Theorem combine_server_pair_coordinates n m s t c :
  MoonEpCombineV2ServerPairScheduleEnabled n m = true ->
  0 <= s < n -> 0 <= t < MoonEpCombineV2ServerPairRoundCount n ->
  0 <= c < kMoonEpCombineV2CoreCount ->
  MoonEpCombineV2ServerPairReceive (MoonEpCombineV2ServerPairPeer s t c n m) s n m =
  {| sc_phase := MoonEpCombineV2ServerPairPhase t n;
     sc_phaseStep := MoonEpCombineV2ServerPairPhaseStep t n; sc_round := t; sc_core := c |}.
Proof.
  unfold MoonEpCombineV2ServerPairScheduleEnabled, MoonEpCombineV2ServerPairRankSize,
    kMoonEpCombineV2RankCount, kMoonEpCombineV2CoreCount.
  intros [Hm Hn]%andb_prop Hs Ht Hc.
  assert (pair_size n) as Hp by (unfold pair_size; lia).
  assert (pair_mode m) as Hpm by (unfold pair_mode; destruct m; cbn in Hm; try done; auto).
  assert (MoonEpCombineV2ServerPairRoundCount n = n / 16 /\
          MoonEpCombineV2ServerPairPhaseStepCount n = n / 32 /\ n / 32 <> 0) as (E1 & E2 & E3)
    by (destruct Hp as [-> | [-> | ->]]; done).
  rewrite E1 in Ht. rewrite server_pair_coordinate by done.
  unfold MoonEpCombineV2ServerPairPhase, MoonEpCombineV2ServerPairPhaseStep. rewrite E1, E2.
  rewrite (proj2 (Z.eqb_neq _ _)) by done. cbn [negb andb]. by decide_ifs.
Qed.

Lemma combine_server_pair_coordinates_witness :
  sc_core (MoonEpCombineV2ServerPairReceive
    (MoonEpCombineV2ServerPairPeer 77 6 13 128 MOONEP_COMBINE_V2_SERVER_PAIR_PARITY) 77 128
    MOONEP_COMBINE_V2_SERVER_PAIR_PARITY) = 13.
Proof.
  rewrite (combine_server_pair_coordinates 128 MOONEP_COMBINE_V2_SERVER_PAIR_PARITY 77 6 13);
    [reflexivity|reflexivity|lia|change (0 <= 6 < 8); lia|change (0 <= 13 < 16); lia].
Defined.

(** The combine schedule is a rendezvous, whatever the mode. *)
Lemma combine_rendezvous n m : supported n ->
  Rendezvous n (steps n) (cores n) (combine_dest n m) (combine_meet n m)
    (fun d t c => MoonEpCombineV2ReceiveSource d t c n m)
    (fun d s t => MoonEpCombineV2ReceiveCore d s t n m)
    (fun s d t => MoonEpCombineV2TransferCore s d t n m).
Proof.
  intros Hn. pose proof (combine_exchange n m Hn) as HE. constructor; [done|..].
  - intros s t c Hs Ht Hc. set (d := combine_dest n m s t c).
    assert (0 <= d < n) as Hd by (by apply ex_range).
    assert (MoonEpCombineV2ReceiveStep d s n m = t) as Em by (by apply (ex_meet (Exchange := HE) s t c)).
    destruct (receive_inverse_spec n m d t Hn Hd Ht) as [_ H].
    destruct (H s Hs Em) as [H1 H2]. split_and!; [lia|lia|done|].
    pose proof (transfer_core_spec n m s d t Hn Hs Hd Ht) as H3. cbv zeta in H3.
    rewrite Em, Z.eqb_refl in H3. destruct H3 as [H3 E]. by apply (ex_core s t).
  - intros d t c Hd Ht Hc. destruct (receive_inverse_spec n m d t Hn Hd Ht) as [H _].
    destruct (H c Hc) as (Hs & Em & Er). split; [done|].
    pose proof (transfer_core_spec n m _ d t Hn Hs Hd Ht) as H3. cbv zeta in H3.
    rewrite Em, Z.eqb_refl in H3. destruct H3. done.
Qed.
