(* ===== verification/CombineGroup.v ===== *)
(** The 128-rank group schedule of moonep_combine_schedule.h:241-315: ranks are addressed by
    cabinet, server parity, card half and index inside the group, and every step sends a
    whole group to another. *)
From S2P Require Import Prelude ExchangeSpec CombineSchedule.

Lemma lxor_bits a b : 0 <= a < 2 -> 0 <= b < 2 -> Z.lxor a b = (a + b) mod 2.
Proof.
  intros. assert (a = 0 \/ a = 1) as [-> | ->] by lia; assert (b = 0 \/ b = 1) as [-> | ->] by lia;
    reflexivity.
Qed.

(** A decidable fact about a bounded range, from its enumeration. *)
Lemma forall_range (p : Z -> bool) n : forallb p (seqZ 0 n) = true ->
  forall x, 0 <= x < n -> p x = true.
Proof.
  intros H x Hx. rewrite List.forallb_forall in H. apply H, list_elem_of_In, elem_of_seqZ0. done.
Qed.

(** Bit composition of a rank from its four coordinates. *)
Lemma make_rank_eq cab par half inner :
  0 <= cab < 2 -> 0 <= par < 2 -> 0 <= half < 2 -> 0 <= inner < 16 ->
  MoonEpCombineV2GroupMakeRank cab par half inner =
  cab * 64 + (inner / 4 * 2 + par) * 8 + half * 4 + inner mod 4.
Proof.
  intros Hc Hp Hh Hi.
  assert (forall cab par half, 0 <= cab < 2 -> 0 <= par < 2 -> 0 <= half < 2 ->
    forallb (fun i => MoonEpCombineV2GroupMakeRank cab par half i =?
      cab * 64 + (i / 4 * 2 + par) * 8 + half * 4 + i mod 4) (seqZ 0 16) = true) as H.
  { intros a b c ? ? ?.
    assert (a = 0 \/ a = 1) as [-> | ->] by lia; assert (b = 0 \/ b = 1) as [-> | ->] by lia;
      assert (c = 0 \/ c = 1) as [-> | ->] by lia; reflexivity. }
  apply Z.eqb_eq. apply (forall_range _ 16 (H cab par half Hc Hp Hh) inner Hi).
Qed.

Definition rank_cabinet (r : Z) : Z := r / 64.
Definition rank_parity (r : Z) : Z := (r / 8) mod 2.
Definition rank_half (r : Z) : Z := (r / 4) mod 2.
Definition rank_inner (r : Z) : Z := (r / 16) mod 4 * 4 + r mod 4.

Lemma inner_index_eq r : 0 <= r < 128 -> MoonEpCombineV2GroupInnerIndex r = rank_inner r.
Proof.
  intros Hr. apply Z.eqb_eq.
  apply (forall_range (fun r => MoonEpCombineV2GroupInnerIndex r =? rank_inner r) 128);
    [reflexivity|done].
Qed.

Lemma rank_fields r : 0 <= r < 128 ->
  0 <= rank_cabinet r < 2 /\ 0 <= rank_parity r < 2 /\ 0 <= rank_half r < 2 /\
  0 <= rank_inner r < 16 /\
  r = rank_cabinet r * 64 + (rank_inner r / 4 * 2 + rank_parity r) * 8 + rank_half r * 4
      + rank_inner r mod 4.
Proof. unfold rank_cabinet, rank_parity, rank_half, rank_inner. intros. div_lia. Qed.

(** Coordinates of a composed rank. *)
Lemma made_rank_fields cab par half inner :
  0 <= cab < 2 -> 0 <= par < 2 -> 0 <= half < 2 -> 0 <= inner < 16 ->
  let r := cab * 64 + (inner / 4 * 2 + par) * 8 + half * 4 + inner mod 4 in
  0 <= r < 128 /\ rank_cabinet r = cab /\ rank_parity r = par /\ rank_half r = half /\
  rank_inner r = inner.
Proof.
  unfold rank_cabinet, rank_parity, rank_half, rank_inner. intros. cbv zeta. div_lia.
Qed.

(** Destination and source of a step, coordinate by coordinate. *)
Definition step_bit (t i : Z) : Z := (t / 2 ^ i) mod 2.
Definition inter_cabinet (half bit : Z) : Z := (half + bit) mod 2.

Lemma send_dst_eq r t j : 0 <= r < 128 -> 0 <= t < 8 -> 0 <= j < 16 ->
  MoonEpCombineV2GroupSendDstRank r t j =
  let ic := inter_cabinet (rank_half r) (step_bit t 2) in
  ((rank_cabinet r + ic) mod 2) * 64
  + (j / 4 * 2 + (rank_parity r + step_bit t 1 + 1) mod 2) * 8
  + ((ic + step_bit t 0) mod 2) * 4 + j mod 4.
Proof.
  intros Hr Ht Hj. destruct (rank_fields r Hr) as (? & ? & ? & _ & _).
  unfold MoonEpCombineV2GroupSendDstRank, kMoonEpCombineV2RankCount, kMoonEpCombineV2StepCount,
    kMoonEpCombineV2CoreCount. decide_ifs.
  rewrite !Z.shiftr_div_pow2, !land_1 by lia.
  change ((r / 2 ^ 3) mod 2) with (rank_parity r). change ((r / 2 ^ 2) mod 2) with (rank_half r).
  change (r / 2 ^ 6) with (rank_cabinet r).
  change ((t / 2 ^ 1) mod 2) with (step_bit t 1). change ((t / 2 ^ 2) mod 2) with (step_bit t 2).
  replace (t mod 2) with (step_bit t 0) by (unfold step_bit; by rewrite Z.div_1_r).
  assert (forall i, 0 <= step_bit t i < 2) as Hb by (intros; apply Z.mod_pos_bound; lia).
  assert (forall x, 0 <= x mod 2 < 2) as H2 by (intros; apply Z.mod_pos_bound; lia).
  unfold inter_cabinet. rewrite (lxor_bits (rank_half r)) by auto.
  rewrite (lxor_bits (rank_parity r)), (lxor_bits (rank_cabinet r)), !lxor_bits by (auto; lia).
  rewrite make_rank_eq by auto. rewrite Zplus_mod_idemp_l. done.
Qed.

Lemma recv_src_eq r t j : 0 <= r < 128 -> 0 <= t < 8 -> 0 <= j < 16 ->
  MoonEpCombineV2GroupRecvSrcRank r t j =
  let ic := inter_cabinet (rank_half r) (step_bit t 0) in
  ((rank_cabinet r + ic) mod 2) * 64
  + (j / 4 * 2 + (rank_parity r + step_bit t 1 + 1) mod 2) * 8
  + ((ic + step_bit t 2) mod 2) * 4 + j mod 4.
Proof.
  intros Hr Ht Hj. destruct (rank_fields r Hr) as (? & ? & ? & _ & _).
  unfold MoonEpCombineV2GroupRecvSrcRank, kMoonEpCombineV2RankCount, kMoonEpCombineV2StepCount,
    kMoonEpCombineV2CoreCount. decide_ifs.
  rewrite !Z.shiftr_div_pow2, !land_1 by lia.
  change ((r / 2 ^ 3) mod 2) with (rank_parity r). change ((r / 2 ^ 2) mod 2) with (rank_half r).
  change (r / 2 ^ 6) with (rank_cabinet r).
  change ((t / 2 ^ 1) mod 2) with (step_bit t 1). change ((t / 2 ^ 2) mod 2) with (step_bit t 2).
  replace (t mod 2) with (step_bit t 0) by (unfold step_bit; by rewrite Z.div_1_r).
  assert (forall i, 0 <= step_bit t i < 2) as Hb by (intros; apply Z.mod_pos_bound; lia).
  assert (forall x, 0 <= x mod 2 < 2) as H2 by (intros; apply Z.mod_pos_bound; lia).
  unfold inter_cabinet. rewrite (lxor_bits (rank_half r)) by auto.
  rewrite (lxor_bits (rank_parity r)), (lxor_bits (rank_cabinet r)), !lxor_bits by (auto; lia).
  rewrite make_rank_eq by auto. rewrite Zplus_mod_idemp_l. done.
Qed.

(** The step at which two ranks meet, read off their coordinates. *)
Definition group_meet (d s : Z) : Z :=
  let ic := (rank_cabinet s + rank_cabinet d) mod 2 in
  (rank_half d + ic) mod 2 + 2 * ((rank_parity s + rank_parity d + 1) mod 2)
  + 4 * ((rank_half s + ic) mod 2).

Lemma step_bits t : 0 <= t < 8 ->
  t = step_bit t 0 + 2 * step_bit t 1 + 4 * step_bit t 2 /\ forall i, 0 <= step_bit t i < 2.
Proof.
  intros. split; [|intros; apply Z.mod_pos_bound; lia].
  unfold step_bit. change (2 ^ 0) with 1. change (2 ^ 1) with 2. change (2 ^ 2) with 4. div_lia.
Qed.

(** All the coordinates of a destination, for one case analysis on bits. *)
Lemma send_dst_fields r t j : 0 <= r < 128 -> 0 <= t < 8 -> 0 <= j < 16 ->
  let d := MoonEpCombineV2GroupSendDstRank r t j in
  let ic := (rank_half r + step_bit t 2) mod 2 in
  0 <= d < 128 /\ rank_cabinet d = (rank_cabinet r + ic) mod 2 /\
  rank_parity d = (rank_parity r + step_bit t 1 + 1) mod 2 /\
  rank_half d = (ic + step_bit t 0) mod 2 /\ rank_inner d = j.
Proof.
  intros Hr Ht Hj. rewrite send_dst_eq by done. cbv zeta. unfold inter_cabinet.
  apply made_rank_fields; try done; apply Z.mod_pos_bound; lia.
Qed.

Lemma recv_src_fields r t j : 0 <= r < 128 -> 0 <= t < 8 -> 0 <= j < 16 ->
  let s := MoonEpCombineV2GroupRecvSrcRank r t j in
  let ic := (rank_half r + step_bit t 0) mod 2 in
  0 <= s < 128 /\ rank_cabinet s = (rank_cabinet r + ic) mod 2 /\
  rank_parity s = (rank_parity r + step_bit t 1 + 1) mod 2 /\
  rank_half s = (ic + step_bit t 2) mod 2 /\ rank_inner s = j.
Proof.
  intros Hr Ht Hj. rewrite recv_src_eq by done. cbv zeta. unfold inter_cabinet.
  apply made_rank_fields; try done; apply Z.mod_pos_bound; lia.
Qed.

(** A rank is determined by its coordinates. *)
Lemma rank_fields_inj r r' : 0 <= r < 128 -> 0 <= r' < 128 ->
  rank_cabinet r = rank_cabinet r' -> rank_parity r = rank_parity r' ->
  rank_half r = rank_half r' -> rank_inner r = rank_inner r' -> r = r'.
Proof.
  intros H H' E1 E2 E3 E4. destruct (rank_fields r H) as (_ & _ & _ & _ & ->).
  destruct (rank_fields r' H') as (_ & _ & _ & _ & ->). congruence.
Qed.

Lemma group_exchange :
  Exchange 128 8 16 MoonEpCombineV2GroupSendDstRank group_meet.
Proof.
  constructor; [lia|lia| | |].
  - intros s t c Hs Ht Hc. by apply send_dst_fields.
  - intros s t c Hs Ht Hc. unfold group_meet.
    destruct (send_dst_fields s t c Hs Ht Hc) as (_ & -> & -> & -> & _).
    destruct (rank_fields s Hs) as (? & ? & ? & _ & _). destruct (step_bits t Ht) as [Et Hb].
    pose proof (Hb 0). pose proof (Hb 1). pose proof (Hb 2). 
    transitivity (step_bit t 0 + 2 * step_bit t 1 + 4 * step_bit t 2); [div_lia|by symmetry].
  - intros s t c1 c2 Hs Ht H1 H2 E.
    destruct (send_dst_fields s t c1 Hs Ht H1) as (_ & _ & _ & _ & E1).
    destruct (send_dst_fields s t c2 Hs Ht H2) as (_ & _ & _ & _ & E2). congruence.
Qed.

(** The group schedule is a complete exchange of the 128 ranks, and send and receive sides
    are inverse: the source that the receiver computes for a step and an inner index is the
    one whose send reaches it, and conversely. *)
Theorem combine_group_inverse r t j :
  0 <= r < kMoonEpCombineV2RankCount -> 0 <= t < kMoonEpCombineV2StepCount ->
  0 <= j < kMoonEpCombineV2CoreCount ->
  MoonEpCombineV2GroupRecvSrcRank (MoonEpCombineV2GroupSendDstRank r t j) t
    (MoonEpCombineV2GroupInnerIndex r) = r /\
  MoonEpCombineV2GroupSendDstRank (MoonEpCombineV2GroupRecvSrcRank r t j) t
    (MoonEpCombineV2GroupInnerIndex r) = r /\
  served MoonEpCombineV2GroupSendDstRank kMoonEpCombineV2StepCount kMoonEpCombineV2CoreCount r
    ≡ₚ seqZ 0 kMoonEpCombineV2RankCount.
Proof.
  unfold kMoonEpCombineV2RankCount, kMoonEpCombineV2StepCount, kMoonEpCombineV2CoreCount.
  intros Hr Ht Hj. destruct (rank_fields r Hr) as (? & ? & ? & Hi & _).
  destruct (step_bits t Ht) as [_ Hb]. pose proof (Hb 0). pose proof (Hb 1). pose proof (Hb 2).
  rewrite inner_index_eq by done. repeat split.
  - destruct (send_dst_fields r t j Hr Ht Hj) as (Hd & E1 & E2 & E3 & _).
    destruct (recv_src_fields _ t (rank_inner r) Hd Ht Hi) as (Hs & F1 & F2 & F3 & F4).
    apply rank_fields_inj; try done; rewrite ?F1, ?F2, ?F3, ?F4, ?E1, ?E2, ?E3; div_lia.
  - destruct (recv_src_fields r t j Hr Ht Hj) as (Hd & E1 & E2 & E3 & _).
    destruct (send_dst_fields _ t (rank_inner r) Hd Ht Hi) as (Hs & F1 & F2 & F3 & F4).
    apply rank_fields_inj; try done; rewrite ?F1, ?F2, ?F3, ?F4, ?E1, ?E2, ?E3; div_lia.
  - pose proof group_exchange. by apply (served_all (meet := group_meet)).
Qed.

Lemma combine_group_inverse_witness :
  MoonEpCombineV2GroupRecvSrcRank (MoonEpCombineV2GroupSendDstRank 77 5 9) 5
    (MoonEpCombineV2GroupInnerIndex 77) = 77.
Proof.
  apply (combine_group_inverse 77 5 9);
    unfold kMoonEpCombineV2RankCount, kMoonEpCombineV2StepCount, kMoonEpCombineV2CoreCount; lia.
Defined.
