(* ===== verification/CombineWire.v ===== *)
(** The words and addresses of the combine protocol, from
    src/src/moonep/common/moonep_combine_schedule.h:29-130, 494-503 and 1004-1111: launch
    magics and epochs, completion tokens and their slots, credit signals with their guard, and
    the slots of the credit window (src/src/include/comm_args.h:37-58). *)
From S2P Require Import Prelude CombineSchedule.

(** ** Constants *)

Definition TILEXR_MAX_RANK_SIZE : Z := 128.
Definition IPC_BUFF_MAX_SIZE : Z := 512 * 1024 * 1024.
Definition CREDIT_IPC_STRIDE : Z := 512.
Definition CREDIT_IPC_SLOT_BYTES : Z := TILEXR_MAX_RANK_SIZE * CREDIT_IPC_STRIDE.
Definition DISPATCH_CREDIT_IPC_BYTES : Z := 2 * CREDIT_IPC_SLOT_BYTES.
Definition COMBINE_CREDIT_IPC_SIGNAL_BYTES : Z := 64.
Definition COMBINE_CREDIT_IPC_TRANSITION_COUNT : Z := 7.
Definition COMBINE_CREDIT_IPC_CORE_COUNT : Z := 16.
Definition COMBINE_CREDIT_IPC_PLANE_BYTES : Z :=
  COMBINE_CREDIT_IPC_TRANSITION_COUNT * COMBINE_CREDIT_IPC_CORE_COUNT *
  COMBINE_CREDIT_IPC_SIGNAL_BYTES.
Definition COMBINE_CREDIT_IPC_EPOCH_COUNT : Z := 2.
Definition COMBINE_CREDIT_IPC_BYTES : Z :=
  COMBINE_CREDIT_IPC_EPOCH_COUNT * COMBINE_CREDIT_IPC_PLANE_BYTES.
Definition COMBINE_CREDIT_IPC_BASE : Z := DISPATCH_CREDIT_IPC_BYTES.
Definition CREDIT_IPC_BYTES : Z := COMBINE_CREDIT_IPC_BASE + COMBINE_CREDIT_IPC_BYTES.

Definition kMoonEpCombineV2MaxSourcesPerCore : Z :=
  kMoonEpCombineV2RankCount / kMoonEpCombineV2CoreCount.
Definition kMoonEpCombineV2CreditTransitionCount : Z := kMoonEpCombineV2StepCount - 1.
Definition kMoonEpCombineV2CreditSignalBytes : Z := COMBINE_CREDIT_IPC_SIGNAL_BYTES.
Definition kMoonEpCombineV2CreditPlaneBytes : Z := COMBINE_CREDIT_IPC_PLANE_BYTES.
Definition kMoonEpCombineV2CreditBytes : Z := COMBINE_CREDIT_IPC_BYTES.
Definition kMoonEpCombineV2CreditBaseBytes : Z := COMBINE_CREDIT_IPC_BASE.
Definition kMoonEpCombineV2CollectiveStatusSlotCount : Z := 16.
Definition kMoonEpCombineV2CollectiveStatusSlotBytes : Z := 64.
Definition kMoonEpCombineV2TokenStrideBytes : Z := 64.
Definition kMoonEpCombineV2FailureMarker : Z := 0x47505632.
Definition kMoonEpCombineV2CreditMarker : Z := 0x43524454.
Definition kMoonEpCombineV2CollectiveStatusMarker : Z := 0x43535453.
Definition kMoonEpCombineV2MaxMagic : Z := Z.shiftr UINT64_MAX 3.

Inductive MoonEpCombineV2FailureStatus : Set :=
| MOONEP_COMBINE_V2_SUCCESS
| MOONEP_COMBINE_V2_INVALID_CONFIG
| MOONEP_COMBINE_V2_POISONED
| MOONEP_COMBINE_V2_OUTSTANDING_LIMIT
| MOONEP_COMBINE_V2_CQ_TIMEOUT
| MOONEP_COMBINE_V2_CQ_ERROR
| MOONEP_COMBINE_V2_DONE_TIMEOUT
| MOONEP_COMBINE_V2_BAD_DESTINATION
| MOONEP_COMBINE_V2_COLLECTIVE_STATUS_ERROR
| MOONEP_COMBINE_V2_CREDIT_TIMEOUT
| MOONEP_COMBINE_V2_WEIGHT_MEMORY_INVALID_CONFIG
| MOONEP_COMBINE_V2_WEIGHT_DONE_TIMEOUT.

(** The reserved words of the cache lines are not read by the code and are left out. *)
Record MoonEpCombineV2CreditSignal := {
  cr_magic : Z; cr_guard : Z; cr_marker : Z; cr_transitionStep : Z;
  cr_sourceRank : Z; cr_sourceCore : Z; cr_targetRank : Z; cr_targetCore : Z
}.

(** ** Magics, guards and tokens *)

Definition MoonEpCombineV2MagicValid (magic : Z) : bool :=
  negb (magic =? 0) && (magic <=? kMoonEpCombineV2MaxMagic).

Definition MoonEpCombineV2Epoch (magic : Z) : Z := (magic .& 1)%u64.

Definition MoonEpCombineV2CollectiveStatusGuard (magic stageId : Z) : Z :=
  (magic .^ (kMoonEpCombineV2CollectiveStatusMarker ≪ 32) .^ stageId)%u64.

Definition MoonEpCombineV2CreditGuard
    (magic transitionStep sourceRank sourceCore targetRank targetCore : Z) : Z :=
  let route := (sourceRank .| (sourceCore ≪ 7) .| (targetRank ≪ 11) .|
                (targetCore ≪ 18) .| (transitionStep ≪ 22))%u64 in
  (magic .^ (kMoonEpCombineV2CreditMarker ≪ 32) .^ route)%u64.

Definition MoonEpCombineV2CreditMatches (signal : MoonEpCombineV2CreditSignal)
    (magic transitionStep sourceRank sourceCore targetRank targetCore : Z) : bool :=
  MoonEpCombineV2MagicValid magic &&
  (0 <? transitionStep) && (transitionStep <? kMoonEpCombineV2StepCount) &&
  (sourceRank <? kMoonEpCombineV2RankCount) &&
  (sourceCore <? kMoonEpCombineV2CoreCount) &&
  (targetRank <? kMoonEpCombineV2RankCount) &&
  (targetCore <? kMoonEpCombineV2CoreCount) &&
  (cr_magic signal =? magic) &&
  (cr_marker signal =? kMoonEpCombineV2CreditMarker) &&
  (cr_transitionStep signal =? transitionStep) &&
  (cr_sourceRank signal =? sourceRank) && (cr_sourceCore signal =? sourceCore) &&
  (cr_targetRank signal =? targetRank) && (cr_targetCore signal =? targetCore) &&
  (cr_guard signal =? MoonEpCombineV2CreditGuard magic transitionStep
                        sourceRank sourceCore targetRank targetCore).

Definition MoonEpCombineV2CollectiveStatusIndex (epoch stageId : Z) : Z :=
  (epoch * kMoonEpCombineV2CollectiveStatusSlotCount +
   stageId `mod` kMoonEpCombineV2CollectiveStatusSlotCount)%u64.

Definition MoonEpCombineV2Token (magic step : Z) : Z := ((magic ≪ 3) .| step)%u64.

Definition MoonEpCombineV2TokenMatches (token magic step rankSize : Z) : bool :=
  MoonEpCombineV2MagicValid magic && MoonEpCombineV2StepValid step rankSize &&
  (token =? MoonEpCombineV2Token magic step).

(** ** Slots *)

Definition MoonEpCombineV2DoneIndex (epoch sourceRank lane : Z) : Z :=
  ((epoch * kMoonEpCombineV2RankCount + sourceRank) * kMoonEpCombineV2LaneCount + lane)%u64.

Definition MoonEpCombineV2CreditSignalIndex (epoch transitionStep targetCore : Z) : Z :=
  if (kMoonEpCombineV2EpochCount <=? epoch) || (transitionStep =? 0) ||
     (kMoonEpCombineV2CreditTransitionCount <? transitionStep) ||
     (kMoonEpCombineV2CoreCount <=? targetCore)
  then UINT64_MAX
  else ((epoch * kMoonEpCombineV2CreditTransitionCount + transitionStep - 1) *
        kMoonEpCombineV2CoreCount + targetCore)%u64.

Definition MoonEpCombineV2CreditReceiveOffset (epoch transitionStep targetCore : Z) : Z :=
  let index := MoonEpCombineV2CreditSignalIndex epoch transitionStep targetCore in
  if index =? UINT64_MAX then UINT64_MAX
  else (kMoonEpCombineV2CreditBaseBytes + index * kMoonEpCombineV2CreditSignalBytes)%u64.

Definition MoonEpCombineV2FailureIndex (epoch core : Z) : Z :=
  (epoch * kMoonEpCombineV2CoreCount + core)%u64.

Ltac wire_consts :=
  unfold CREDIT_IPC_BYTES, kMoonEpCombineV2CreditBaseBytes, kMoonEpCombineV2CreditSignalBytes,
    COMBINE_CREDIT_IPC_BASE, DISPATCH_CREDIT_IPC_BYTES, CREDIT_IPC_SLOT_BYTES,
    TILEXR_MAX_RANK_SIZE, CREDIT_IPC_STRIDE,
    COMBINE_CREDIT_IPC_BYTES, COMBINE_CREDIT_IPC_EPOCH_COUNT,
    COMBINE_CREDIT_IPC_PLANE_BYTES, COMBINE_CREDIT_IPC_TRANSITION_COUNT,
    COMBINE_CREDIT_IPC_CORE_COUNT, kMoonEpCombineV2CreditTransitionCount,
    kMoonEpCombineV2EpochCount, kMoonEpCombineV2CoreCount, kMoonEpCombineV2RankCount,
    kMoonEpCombineV2LaneCount, kMoonEpCombineV2StepCount, COMBINE_CREDIT_IPC_SIGNAL_BYTES,
    UINT64_MAX in *.

Lemma step_valid_bound step n : MoonEpCombineV2StepValid step n = true -> step < 8.
Proof.
  unfold MoonEpCombineV2StepValid, MoonEpCombineV2RankSizeSupported, MoonEpCombineV2StepCount,
    kMoonEpCombineV2RankCount, kMoonEpCombineV2GroupSize, kMoonEpCombineV2CoreCount.
  intros [Hn Hs]%andb_prop. destruct (Z.leb_spec n 8); b2p; [lia|].
  assert (n <= 128) by lia. div_lia.
Qed.

(** ** Tokens *)

Lemma magic_bounds magic : 0 <= magic -> MoonEpCombineV2MagicValid magic = true ->
  0 < magic < 2305843009213693952.
Proof.
  unfold MoonEpCombineV2MagicValid. change kMoonEpCombineV2MaxMagic with 2305843009213693951.
  intros ? ?. b2p. lia.
Qed.

Lemma token_eq magic step : 0 < magic < 2305843009213693952 -> 0 <= step < 8 ->
  MoonEpCombineV2Token magic step = magic * 8 + step.
Proof.
  intros Hm Hs. unfold MoonEpCombineV2Token. rewrite Z.shiftl_mul_pow2, u64_small by lia.
  rewrite Z.lor_comm. replace (magic * 2 ^ 3) with (Z.shiftl magic 3)
    by (rewrite Z.shiftl_mul_pow2; lia).
  rewrite lor_shiftl_add by lia. lia.
Qed.

(** Completion tokens: for a valid magic and a step below the step bound the 64-bit token
    loses nothing, the magic and the step are read back by a shift and a mask, and a token
    matches exactly the magic and the step it was built for. *)
Theorem combine_token_roundtrip magic step rankSize :
  0 <= magic -> MoonEpCombineV2MagicValid magic = true ->
  0 <= step -> MoonEpCombineV2StepValid step rankSize = true ->
  let token := MoonEpCombineV2Token magic step in
  Z.shiftr token 3 = magic /\ Z.land token 7 = step /\ is_u64 token /\
  (forall magic' step', 0 <= magic' -> 0 <= step' ->
     MoonEpCombineV2TokenMatches token magic' step' rankSize = true <->
     magic' = magic /\ step' = step).
Proof.
  intros Hm0 Hm Hs0 Hs. pose proof (magic_bounds _ Hm0 Hm) as Hb.
  pose proof (step_valid_bound _ _ Hs) as Hs8. cbv zeta.
  rewrite token_eq by lia. repeat split.
  - rewrite Z.shiftr_div_pow2 by lia. change (2 ^ 3) with 8. div_lia.
  - rewrite land_7. div_lia.
  - lia.
  - unfold UINT64_MAX. lia.
  - unfold MoonEpCombineV2TokenMatches in H1. b2p. pose proof (magic_bounds magic' H H1).
    pose proof (step_valid_bound _ _ H3). rewrite token_eq in H2 by lia. lia.
  - unfold MoonEpCombineV2TokenMatches in H1. b2p. pose proof (magic_bounds magic' H H1).
    pose proof (step_valid_bound _ _ H3). rewrite token_eq in H2 by lia. lia.
  - intros [-> ->]. unfold MoonEpCombineV2TokenMatches. rewrite Hm, Hs, token_eq by lia.
    cbn. lia.
Qed.

Lemma combine_token_roundtrip_witness :
  Z.shiftr (MoonEpCombineV2Token 2305843009213693951 7) 3 = 2305843009213693951.
Proof.
  apply (combine_token_roundtrip 2305843009213693951 7 128);
    first [lia|reflexivity].
Defined.

(** ** Slots *)

Lemma done_index_eq e s l : 0 <= e < 2 -> 0 <= s < 128 -> 0 <= l < 2 ->
  MoonEpCombineV2DoneIndex e s l = e * 256 + s * 2 + l.
Proof. intros. unfold MoonEpCombineV2DoneIndex. wire_consts. unwrap64. lia. Qed.

Lemma done_index_inj e s l s' l' : 0 <= e < 2 -> 0 <= s < 128 -> 0 <= l < 2 ->
  0 <= s' < 128 -> 0 <= l' < 2 ->
  MoonEpCombineV2DoneIndex e s l = MoonEpCombineV2DoneIndex e s' l' -> s = s' /\ l = l'.
Proof. intros He Hs Hl Hs' Hl'. rewrite !done_index_eq by done. lia. Qed.

Lemma credit_offset_eq e k c : 0 <= e < 2 -> 1 <= k < 8 -> 0 <= c < 16 ->
  MoonEpCombineV2CreditReceiveOffset e k c = 131072 + ((e * 7 + k - 1) * 16 + c) * 64.
Proof.
  intros He Hk Hc. unfold MoonEpCombineV2CreditReceiveOffset, MoonEpCombineV2CreditSignalIndex.
  wire_consts. cbv zeta.
  assert ((2 <=? e) || (k =? 0) || (8 - 1 <? k) || (16 <=? c) = false) as -> by lia.
  unwrap64. decide_ifs. unwrap64. lia.
Qed.

(** the credit window: every valid (epoch, transition step, core) has its own 64-byte
    aligned cache line inside the combine part of the credit window, behind the dispatch
    credits; two different triples never share a byte; any other triple has no slot. *)
Theorem combine_credit_slots e k c e' k' c' :
  is_u32 e -> is_u32 k -> is_u32 c -> is_u32 e' -> is_u32 k' -> is_u32 c' ->
  let off := MoonEpCombineV2CreditReceiveOffset e k c in
  let off' := MoonEpCombineV2CreditReceiveOffset e' k' c' in
  (off <> UINT64_MAX ->
    off mod kMoonEpCombineV2CreditSignalBytes = 0 /\
    DISPATCH_CREDIT_IPC_BYTES <= off /\
    off + kMoonEpCombineV2CreditSignalBytes <= CREDIT_IPC_BYTES /\
    (off' <> UINT64_MAX -> (e, k, c) <> (e', k', c') ->
     off + kMoonEpCombineV2CreditSignalBytes <= off' \/
     off' + kMoonEpCombineV2CreditSignalBytes <= off)) /\
  (off = UINT64_MAX <->
     ~ (e < kMoonEpCombineV2EpochCount /\ 1 <= k < kMoonEpCombineV2StepCount /\
        c < kMoonEpCombineV2CoreCount)).
Proof.
  intros He Hk Hc He' Hk' Hc'. unfold is_u32 in *. cbv zeta.
  assert (forall e k c, 0 <= e -> 0 <= k -> 0 <= c ->
    MoonEpCombineV2CreditReceiveOffset e k c =
    if decide (e < 2 /\ 1 <= k < 8 /\ c < 16) then 131072 + ((e * 7 + k - 1) * 16 + c) * 64
    else UINT64_MAX) as E.
  { clear. intros e k c ? ? ?. case_decide; [by apply credit_offset_eq; lia|].
    unfold MoonEpCombineV2CreditReceiveOffset, MoonEpCombineV2CreditSignalIndex. wire_consts.
    assert ((2 <=? e) || (k =? 0) || (8 - 1 <? k) || (16 <=? c) = true) as -> by lia. done. }
  rewrite !E by lia. wire_consts.
  assert (forall i, (131072 + i * 64) mod 64 = 0) as Hal.
  { intros i. replace (131072 + i * 64) with (0 + (2048 + i) * 64) by lia.
    by rewrite Z.mod_add. }
  split.
  - case_decide as D; [|done]. intros _. split_and!; [apply Hal|lia|lia|].
    case_decide as D'; [|done]. intros _ Hne.
    assert (~ (e = e' /\ k = k' /\ c = c')) by (intros (-> & -> & ->); done).
    set (i := (e * 7 + k - 1) * 16 + c). set (i' := (e' * 7 + k' - 1) * 16 + c').
    assert (i <> i') by (unfold i, i'; lia). lia.
  - case_decide as D; lia.
Qed.

Lemma combine_credit_slots_witness :
  MoonEpCombineV2CreditReceiveOffset 1 7 15 + 64 <= CREDIT_IPC_BYTES.
Proof.
  destruct (combine_credit_slots 1 7 15 0 1 0) as [H _]; try (split; vm_compute; congruence).
  destruct H as (_ & _ & H & _); [vm_compute; congruence|]. exact H.
Defined.

(** ** Credit guard *)

Lemma route_eq k s cs t ct :
  0 <= k < 8 -> 0 <= s < 128 -> 0 <= cs < 16 -> 0 <= t < 128 -> 0 <= ct < 16 ->
  (s .| (cs ≪ 7) .| (t ≪ 11) .| (ct ≪ 18) .| (k ≪ 22))%u64 =
  s + cs * 2 ^ 7 + t * 2 ^ 11 + ct * 2 ^ 18 + k * 2 ^ 22.
Proof.
  intros. rewrite !Z.shiftl_mul_pow2 by lia. unwrap64. rewrite <- !Z.shiftl_mul_pow2 by lia.
  rewrite (lor_shiftl_add s cs), (lor_shiftl_add _ t), (lor_shiftl_add _ ct),
    (lor_shiftl_add _ k) by lia. by rewrite !Z.shiftl_mul_pow2 by lia.
Qed.

Lemma lxor_cancel_l a b c : Z.lxor a b = Z.lxor a c -> b = c.
Proof.
  intros E. rewrite <- (Z.lxor_0_l b), <- (Z.lxor_0_l c), <- (Z.lxor_nilpotent a),
    !Z.lxor_assoc, E. done.
Qed.

(** The credit guard binds the whole route: under one magic, two credits carry the same
    guard exactly when step, source rank and core, target rank and core all agree. *)
Theorem combine_credit_guard_binds magic k s cs t ct k' s' cs' t' ct' :
  0 <= k < kMoonEpCombineV2StepCount -> 0 <= k' < kMoonEpCombineV2StepCount ->
  0 <= s < kMoonEpCombineV2RankCount -> 0 <= s' < kMoonEpCombineV2RankCount ->
  0 <= t < kMoonEpCombineV2RankCount -> 0 <= t' < kMoonEpCombineV2RankCount ->
  0 <= cs < kMoonEpCombineV2CoreCount -> 0 <= cs' < kMoonEpCombineV2CoreCount ->
  0 <= ct < kMoonEpCombineV2CoreCount -> 0 <= ct' < kMoonEpCombineV2CoreCount ->
  MoonEpCombineV2CreditGuard magic k s cs t ct = MoonEpCombineV2CreditGuard magic k' s' cs' t' ct'
  <-> (k, s, cs, t, ct) = (k', s', cs', t', ct').
Proof.
  wire_consts. intros. split; [|congruence].
  unfold MoonEpCombineV2CreditGuard. cbv zeta. intros E%lxor_cancel_l.
  rewrite !route_eq in E by lia. repeat f_equal; lia.
Qed.

Lemma combine_credit_guard_binds_witness :
  ~ (MoonEpCombineV2CreditGuard 77 3 1 2 4 5 = MoonEpCombineV2CreditGuard 77 3 1 2 5 4).
Proof.
  intros E. apply (combine_credit_guard_binds 77 3 1 2 4 5 3 1 2 5 4) in E;
    [discriminate|..]; wire_consts; lia.
Defined.
