(* ===== verification/CombineProtocol.v ===== *)
(** The combine exchange as it runs on all the cores of all the ranks: the step loop of
    [MoonEpCombineV2::Process] (src/src/moonep/combine_v2/kernels/
    tilexr_moonep_combine_v2_kernel.h:2820-2894) with the credit handshake
    ([WaitStepCredit], [PublishNextCredit]) and the completion tokens ([WaitInboundDone],
    [WaitInboundWeightDone]). A core is a program counter; the cores interleave arbitrarily and
    meet only through the credit, completion and weight-completion windows. *)
From S2P Require Import Prelude ExchangeSpec CombineSchedule CombineWire CombineProps.

(** ** State *)

(** What a launch fixes: [magic_], [epoch_], [rankSize_], [args_->localRankSize],
    [kCombineV2ScheduleMode], [hasRouteWeight_], and which of the [creditMems] and of the
    weight windows' [peerMems] are mapped. *)
Record Job := {
  magic_ : Z; epoch_ : Z; rankSize_ : Z; localRankSize : Z;
  kCombineV2ScheduleMode : MoonEpCombineV2ScheduleMode;
  hasRouteWeight_ : bool;
  creditMems : Z -> bool; weightPeerMems : Z -> bool
}.

Definition stepCount_ (j : Job) : Z := MoonEpCombineV2StepCount (rankSize_ j).
Definition activeCoreCount_ (j : Job) : Z := MoonEpCombineV2ActiveCoreCount (rankSize_ j).

(** The windows of every rank: the eight words of the credit line at a byte offset, the token
    at a completion index, and the weight-completion token of a source (current epoch). *)
Record Memory := {
  credit : Z -> Z -> list Z;
  done_ : Z -> Z -> Z;
  weightDone : Z -> Z -> Z
}.

(** Where a core stands inside an iteration of the step loop. *)
Inductive Phase : Set := PhaseCredit | PhaseSend | PhaseDone | PhasePublish.

Record Core := { co_step : Z; co_phase : Phase; co_failure : option MoonEpCombineV2FailureStatus }.
Record State := { st_core : Z -> Z -> Core; st_mem : Memory }.

(** One look of a polling loop. *)
Inductive Poll : Set :=
| Ready
| Pending (onTimeout : MoonEpCombineV2FailureStatus)
| Failed (status : MoonEpCombineV2FailureStatus).

Definition word (w : list Z) (i : nat) : Z := nth i w 0.

(** ** Operations of one core *)

Definition WaitStepCredit (j : Job) (mem : Memory) (rank core step : Z) : Poll :=
  if negb (MoonEpCombineV2CreditRequiredBeforeStep step (rankSize_ j)) then Ready
  else
    let sourceRank := MoonEpCombineV2EffectivePeer
      (MoonEpCombineV2Peer rank step core (rankSize_ j) (kCombineV2ScheduleMode j)) rank in
    let sourceCore := MoonEpCombineV2ReceiveCore sourceRank rank step (rankSize_ j)
      (kCombineV2ScheduleMode j) in
    let receiveOffset := MoonEpCombineV2CreditReceiveOffset (epoch_ j) step core in
    if (rankSize_ j <=? sourceRank) || (activeCoreCount_ j <=? sourceCore) ||
       (receiveOffset =? UINT64_MAX) || negb (creditMems j rank)
    then Failed MOONEP_COMBINE_V2_INVALID_CONFIG
    else
      let expectedGuard := MoonEpCombineV2CreditGuard (magic_ j) step sourceRank sourceCore
        rank core in
      let creditLocal := credit mem rank receiveOffset in
      if (word creditLocal 0 =? magic_ j) && (word creditLocal 1 =? expectedGuard) &&
         (word creditLocal 2 =? ((step ≪ 32) .| kMoonEpCombineV2CreditMarker)%u64) &&
         (word creditLocal 3 =? ((sourceCore ≪ 32) .| sourceRank)%u64) &&
         (word creditLocal 4 =? ((core ≪ 32) .| rank)%u64)
      then Ready else Pending MOONEP_COMBINE_V2_CREDIT_TIMEOUT.

(** The line [PublishNextCredit] stores. *)
Definition credit_words (j : Job) (transitionStep rank core targetRank targetCore : Z) : list Z :=
  [ magic_ j;
    MoonEpCombineV2CreditGuard (magic_ j) transitionStep rank core targetRank targetCore;
    ((transitionStep ≪ 32) .| kMoonEpCombineV2CreditMarker)%u64;
    ((core ≪ 32) .| rank)%u64;
    ((targetCore ≪ 32) .| targetRank)%u64; 0; 0; 0 ].

Definition PublishNextCredit (j : Job) (mem : Memory) (rank core step : Z)
    : Memory + MoonEpCombineV2FailureStatus :=
  if negb (MoonEpCombineV2CreditPublishedAfterStep step (rankSize_ j)) then inl mem
  else
    let transitionStep := (step + 1)%u32 in
    let targetRank := MoonEpCombineV2ReceiveSource rank transitionStep core (rankSize_ j)
      (kCombineV2ScheduleMode j) in
    let targetCore := MoonEpCombineV2TransferCore targetRank rank transitionStep (rankSize_ j)
      (kCombineV2ScheduleMode j) in
    let receiveOffset :=
      MoonEpCombineV2CreditReceiveOffset (epoch_ j) transitionStep targetCore in
    if (rankSize_ j <=? targetRank) || (activeCoreCount_ j <=? targetCore) ||
       (receiveOffset =? UINT64_MAX) || negb (creditMems j targetRank)
    then inr MOONEP_COMBINE_V2_INVALID_CONFIG
    else inl {| credit := upd2 (credit mem) targetRank receiveOffset
                  (credit_words j transitionStep rank core targetRank targetCore);
                done_ := done_ mem; weightDone := weightDone mem |}.

(** The completion tokens a step leaves at its peer once its last batch is through: none for
    the rank itself, the first lane inside a server, both lanes between servers. *)
Definition send_lanes (j : Job) (rank peer : Z) : list Z :=
  if peer =? rank then []
  else if MoonEpCombineV2SameServer rank peer (localRankSize j)
  then [MOONEP_COMBINE_V2_SIX_PORT] else [MOONEP_COMBINE_V2_SIX_PORT; MOONEP_COMBINE_V2_TWO_PORT].

Definition SendDone (j : Job) (mem : Memory) (rank peer step : Z) (lanes : list Z) : Memory :=
  {| credit := credit mem;
     done_ := foldr (fun lane d =>
         upd2 d peer (MoonEpCombineV2DoneIndex (epoch_ j) rank lane)
           (MoonEpCombineV2Token (magic_ j) step)) (done_ mem) lanes;
     weightDone := weightDone mem |}.

Definition SendWeightMemoryStep (j : Job) (mem : Memory) (rank peer step : Z)
    : Memory + MoonEpCombineV2FailureStatus :=
  if negb (hasRouteWeight_ j) then inl mem
  else if (rankSize_ j <=? peer) || negb (weightPeerMems j peer)
  then inr MOONEP_COMBINE_V2_WEIGHT_MEMORY_INVALID_CONFIG
  else inl {| credit := credit mem; done_ := done_ mem;
              weightDone := upd2 (weightDone mem) peer rank
                (MoonEpCombineV2Token (magic_ j) step) |}.

Definition WaitInboundWeightDone (j : Job) (mem : Memory) (rank step source : Z) : Poll :=
  if negb (hasRouteWeight_ j) then Ready
  else
    let expected := MoonEpCombineV2Token (magic_ j) step in
    if weightDone mem rank source =? expected then Ready
    else Pending MOONEP_COMBINE_V2_WEIGHT_DONE_TIMEOUT.

Definition WaitInboundDone (j : Job) (mem : Memory) (rank core step : Z) : Poll :=
  let source := MoonEpCombineV2ReceiveSource rank step core (rankSize_ j)
    (kCombineV2ScheduleMode j) in
  if rankSize_ j <=? source then Failed MOONEP_COMBINE_V2_INVALID_CONFIG
  else
    let expected := MoonEpCombineV2Token (magic_ j) step in
    let ready lane :=
      negb (MoonEpCombineV2DoneLaneRequired source rank lane (localRankSize j)) ||
      (done_ mem rank (MoonEpCombineV2DoneIndex (epoch_ j) source lane) =? expected) in
    if forallb ready (seqZ 0 kMoonEpCombineV2LaneCount)
    then WaitInboundWeightDone j mem rank step source
    else Pending MOONEP_COMBINE_V2_DONE_TIMEOUT.

(** ** The step loop *)

Definition set_core (st : State) (rank core : Z) (co : Core) (mem : Memory) : State :=
  {| st_core := upd2 (st_core st) rank core co; st_mem := mem |}.

Definition fail_core (st : State) (rank core : Z) (e : MoonEpCombineV2FailureStatus)
    (mem : Memory) : State :=
  set_core st rank core
    {| co_step := co_step (st_core st rank core); co_phase := co_phase (st_core st rank core);
       co_failure := Some e |} mem.

Definition peer_of (j : Job) (rank core step : Z) : Z :=
  MoonEpCombineV2EffectivePeer
    (MoonEpCombineV2Peer rank step core (rankSize_ j) (kCombineV2ScheduleMode j)) rank.

Definition move_core (st : State) (rank core step : Z) (ph : Phase) (mem : Memory) : State :=
  set_core st rank core {| co_step := step; co_phase := ph; co_failure := None |} mem.

Definition running (j : Job) (st : State) (rank core : Z) : bool :=
  match co_failure (st_core st rank core) with
  | None => co_step (st_core st rank core) <? stepCount_ j
  | Some _ => false
  end.

(** What a core does next; [None] while it polls, after its last step and after a failure. *)
Definition core_step (j : Job) (st : State) (rank core : Z) : option State :=
  let step := co_step (st_core st rank core) in
  let mem := st_mem st in
  if negb (running j st rank core) then None
  else match co_phase (st_core st rank core) with
  | PhaseCredit =>
      match WaitStepCredit j mem rank core step with
      | Ready => Some (move_core st rank core step PhaseSend mem)
      | Pending _ => None
      | Failed e => Some (fail_core st rank core e mem)
      end
  | PhaseSend =>
      let peer := peer_of j rank core step in
      let sent := SendDone j mem rank peer step (send_lanes j rank peer) in
      match SendWeightMemoryStep j sent rank peer step with
      | inl mem' => Some (move_core st rank core step PhaseDone mem')
      | inr e => Some (fail_core st rank core e sent)
      end
  | PhaseDone =>
      match WaitInboundDone j mem rank core step with
      | Ready => Some (move_core st rank core step PhasePublish mem)
      | Pending _ => None
      | Failed e => Some (fail_core st rank core e mem)
      end
  | PhasePublish =>
      match PublishNextCredit j mem rank core step with
      | inl mem' => Some (move_core st rank core (step + 1) PhaseCredit mem')
      | inr e => Some (fail_core st rank core e mem)
      end
  end.

(** A core that gives up: a polling loop past its deadline, a completion queue that reports an
    error or a timeout after the send, or a send that fails with only some of its completion
    tokens delivered. *)
Definition may_give_up (j : Job) (st : State) (rank core : Z)
    (e : MoonEpCombineV2FailureStatus) (mem' : Memory) : Prop :=
  let step := co_step (st_core st rank core) in
  let mem := st_mem st in
  let peer := peer_of j rank core step in
  running j st rank core = true /\
  match co_phase (st_core st rank core) with
  | PhaseCredit => mem' = mem /\ WaitStepCredit j mem rank core step = Pending e
  | PhaseSend => exists lanes, lanes ⊆ send_lanes j rank peer /\
                   mem' = SendDone j mem rank peer step lanes
  | PhaseDone => mem' = mem /\ (WaitInboundDone j mem rank core step = Pending e \/
                   e = MOONEP_COMBINE_V2_CQ_TIMEOUT \/ e = MOONEP_COMBINE_V2_CQ_ERROR)
  | PhasePublish => False
  end.

(** Ranks and cores taking part. *)
Definition active (j : Job) (rank core : Z) : Prop :=
  0 <= rank < rankSize_ j /\ 0 <= core < activeCoreCount_ j.

Inductive step (j : Job) (st : State) : State -> Prop :=
| step_core rank core st' :
    active j rank core -> core_step j st rank core = Some st' -> step j st st'
| step_fail rank core e mem' :
    active j rank core -> may_give_up j st rank core e mem' ->
    step j st (fail_core st rank core e mem').

Inductive reachable (j : Job) (st0 : State) : nat -> State -> Prop :=
| reachable_refl : reachable j st0 0 st0
| reachable_step k st st' : reachable j st0 k st -> step j st st' -> reachable j st0 (S k) st'.

(** All cores enter the loop at step 0. *)
Definition start (mem : Memory) : State :=
  {| st_core := fun _ _ => {| co_step := 0; co_phase := PhaseCredit; co_failure := None |};
     st_mem := mem |}.
