(* ===== verification/CombineProtocolInv.v ===== *)
(** Safety and liveness of the combine exchange of CombineProtocol: the credit handshake admits
    a sender only after its receiver is ready, the completion tokens are never taken for those
    of another step or launch, no reachable state is stuck, and every run is finite. *)
From S2P Require Import Prelude ExchangeSpec CombineSchedule CombineWire CombineProps CombineProtocol.

(** ** Progress of a core *)

Definition phase_index (ph : Phase) : Z :=
  match ph with PhaseCredit => 0 | PhaseSend => 1 | PhaseDone => 2 | PhasePublish => 3 end.

Definition progress (co : Core) : Z := 4 * co_step co + phase_index (co_phase co).

Lemma phase_index_range ph : 0 <= phase_index ph <= 3.
Proof. destruct ph; cbn; lia. Qed.

Lemma progress_step co k : 4 * k <= progress co -> k <= co_step co.
Proof. unfold progress. pose proof (phase_index_range (co_phase co)). lia. Qed.

(** The send of step [k] has left its core, perhaps in part if the core then failed. *)
Definition sent (co : Core) (k : Z) : Prop :=
  4 * k + 2 <= progress co \/ (progress co = 4 * k + 1 /\ co_failure co <> None).

(** A launch whose configuration the host accepted. *)
Definition job_ok (j : Job) : Prop :=
  MoonEpCombineV2RankSizeSupported (rankSize_ j) = true /\
  0 <= magic_ j /\ MoonEpCombineV2MagicValid (magic_ j) = true /\
  epoch_ j = MoonEpCombineV2Epoch (magic_ j) /\
  (forall r, 0 <= r < rankSize_ j -> creditMems j r = true /\ weightPeerMems j r = true).

(** Windows that hold nothing of this launch yet. *)
Definition fresh (j : Job) (mem : Memory) : Prop :=
  (forall r off, word (credit mem r off) 0 <> magic_ j) /\
  (forall r i k, 0 <= k < stepCount_ j -> done_ mem r i <> MoonEpCombineV2Token (magic_ j) k) /\
  (forall r s k, 0 <= k < stepCount_ j -> weightDone mem r s <> MoonEpCombineV2Token (magic_ j) k).

Section protocol.
Context (j : Job) (mem0 : Memory) (Hok : job_ok j) (Hfresh : fresh j mem0).

#[local] Abbreviation n := (rankSize_ j).
#[local] Abbreviation T := (stepCount_ j).
#[local] Abbreviation C := (activeCoreCount_ j).
#[local] Abbreviation md := (kCombineV2ScheduleMode j).
#[local] Abbreviation dest := (combine_dest n md).
#[local] Abbreviation meet := (combine_meet n md).
#[local] Abbreviation source d t c := (MoonEpCombineV2ReceiveSource d t c n md).
#[local] Abbreviation rcore d s t := (MoonEpCombineV2ReceiveCore d s t n md).
#[local] Abbreviation tcore s d t := (MoonEpCombineV2TransferCore s d t n md).
#[local] Abbreviation offset := (MoonEpCombineV2CreditReceiveOffset (epoch_ j)).
#[local] Abbreviation token := (MoonEpCombineV2Token (magic_ j)).
#[local] Abbreviation lane_required s d lane :=
  (MoonEpCombineV2DoneLaneRequired s d lane (localRankSize j)).

#[local] Instance job_rendezvous : Rendezvous n T C dest meet
  (fun d t c => source d t c) (fun d s t => rcore d s t) (fun s d t => tcore s d t).
Proof. apply combine_rendezvous. apply Hok. Qed.

(** The rendezvous, spelled for this launch. *)
Lemma forward s t c : 0 <= s < n -> 0 <= t < T -> 0 <= c < C ->
  0 <= dest s t c < n /\ meet (dest s t c) s = t /\ 0 <= rcore (dest s t c) s t < C /\
  source (dest s t c) t (rcore (dest s t c) s t) = s /\ tcore s (dest s t c) t = c.
Proof.
  intros Hs Ht Hc. pose proof (rv_forward s t c Hs Ht Hc) as (H1 & H2 & H3).
  split; [by apply (ex_range (meet := meet) (T := T) (C := C))|]. split; [by apply ex_meet|]. done.
Qed.

Lemma backward d t c : 0 <= d < n -> 0 <= t < T -> 0 <= c < C ->
  0 <= source d t c < n /\ 0 <= tcore (source d t c) d t < C /\
  dest (source d t c) t (tcore (source d t c) d t) = d /\ rcore d (source d t c) t = c.
Proof. intros Hd Ht Hc. exact (rv_backward d t c Hd Ht Hc). Qed.

Lemma pair_coords s d : 0 <= s < n -> 0 <= d < n ->
  0 <= meet d s < T /\ 0 <= tcore s d (meet d s) < C /\ dest s (meet d s) (tcore s d (meet d s)) = d.
Proof. intros Hs Hd. exact (rv_pair s d Hs Hd). Qed.

Lemma job_bounds : 2 <= n <= 128 /\ 0 < C <= 16 /\ 0 < T <= 8 /\ 0 <= epoch_ j < 2.
Proof.
  destruct Hok as (Hn & _ & _ & -> & _). destruct (supported_bounds n Hn) as (? & ? & ?).
  split; [done|]. split; [done|]. split; [done|]. unfold MoonEpCombineV2Epoch. rewrite land_1. div_lia.
Qed.

Lemma token_inj k k' : 0 <= k < T -> 0 <= k' < T -> token k = token k' -> k = k'.
Proof.
  pose proof job_bounds. destruct Hok as (_ & Hm & Hv & _). pose proof (magic_bounds _ Hm Hv).
  intros ? ?. rewrite !token_eq by lia. lia.
Qed.

Lemma offset_inj k k' c c' : 1 <= k < T -> 1 <= k' < T -> 0 <= c < C -> 0 <= c' < C ->
  offset k c = offset k' c' -> k = k' /\ c = c'.
Proof. pose proof job_bounds. intros ? ? ? ?. rewrite !credit_offset_eq by lia. lia. Qed.

(** ** The invariant *)

(** The windows hold exactly what the cores' progress says they hold. *)
Record mem_inv (cores : Z -> Z -> Core) (mem : Memory) : Prop := {
  mi_credit r c k : active j r c -> 1 <= k < T ->
    credit mem r (offset k c) =
    if k <=? co_step (cores (dest r k c) (rcore (dest r k c) r k))
    then credit_words j k (dest r k c) (rcore (dest r k c) r k) r c
    else credit mem0 r (offset k c);
  mi_done s d lane : 0 <= s < n -> 0 <= d < n -> 0 <= lane < 2 ->
    let k := meet d s in
    let co := cores s (tcore s d k) in
    let v := done_ mem d (MoonEpCombineV2DoneIndex (epoch_ j) s lane) in
    (v = token k /\ lane_required s d lane = true /\ sent co k) \/
    (v = done_ mem0 d (MoonEpCombineV2DoneIndex (epoch_ j) s lane) /\
     (lane_required s d lane = true -> progress co < 4 * k + 2));
  mi_weight s d : 0 <= s < n -> 0 <= d < n ->
    let k := meet d s in
    weightDone mem d s =
    if hasRouteWeight_ j && (4 * k + 2 <=? progress (cores s (tcore s d k)))
    then token k else weightDone mem0 d s
}.

(** What the handshakes guarantee about the other end. *)
Record ctl_inv (cores : Z -> Z -> Core) : Prop := {
  ci_range r c : active j r c ->
    0 <= co_step (cores r c) <= T /\ (co_step (cores r c) = T -> co_phase (cores r c) = PhaseCredit);
  ci_wait r c k : active j r c -> 1 <= k < T -> 4 * k < progress (cores r c) ->
    k <= co_step (cores (dest r k c) (rcore (dest r k c) r k));
  ci_recv d c k : active j d c -> 0 <= k < T -> 4 * k + 2 < progress (cores d c) ->
    source d k c <> d \/ hasRouteWeight_ j = true ->
    sent (cores (source d k c) (tcore (source d k c) d k)) k
}.

Definition inv (st : State) : Prop := ctl_inv (st_core st) /\ mem_inv (st_core st) (st_mem st).


Lemma inv_start : inv (start mem0).
Proof.
  pose proof job_bounds. split; constructor; cbn; unfold progress, sent; cbn.
  - intros. split; [lia|done].
  - lia.
  - lia.
  - intros. by rewrite (proj2 (Z.leb_gt _ _)) by lia.
  - intros s d lane Hs Hd Hl. right. destruct (pair_coords s d Hs Hd). split; [done|lia].
  - intros s d Hs Hd. destruct (pair_coords s d Hs Hd).
    rewrite (proj2 (Z.leb_gt _ _)) by lia. by rewrite andb_false_r.
Qed.

(** ** Preservation *)

(** One core moves on and the others stay. *)
Record moves (cores : Z -> Z -> Core) (r0 c0 : Z) (co : Core) : Prop := {
  mv_active : active j r0 c0;
  mv_live : co_failure (cores r0 c0) = None;
  mv_step : co_step (cores r0 c0) <= co_step co;
  mv_progress : progress (cores r0 c0) <= progress co <= progress (cores r0 c0) + 1
}.

Lemma sent_live co k : co_failure co = None -> sent co k <-> 4 * k + 2 <= progress co.
Proof. intros H. unfold sent. rewrite H. split; [intros [?|[_ ?]]; done|by left]. Qed.

Lemma moves_step cores r0 c0 co r c : moves cores r0 c0 co ->
  co_step (cores r c) <= co_step (upd2 cores r0 c0 co r c).
Proof.
  intros [_ _ H _]. unfold upd2. destruct (Z.eqb_spec r r0), (Z.eqb_spec c c0); cbn; subst; lia.
Qed.

Lemma moves_sent cores r0 c0 co r c k : moves cores r0 c0 co ->
  sent (cores r c) k -> sent (upd2 cores r0 c0 co r c) k.
Proof.
  intros [_ Hl _ H]. unfold upd2. destruct (Z.eqb_spec r r0), (Z.eqb_spec c c0); cbn; subst; try done.
  rewrite sent_live by done. intros. left. lia.
Qed.

(** The control part only needs the two handshakes at the core that moved. *)
Lemma ctl_move cores r0 c0 co : ctl_inv cores -> moves cores r0 c0 co ->
  (0 <= co_step co <= T /\ (co_step co = T -> co_phase co = PhaseCredit)) ->
  (forall k, 1 <= k < T -> progress (cores r0 c0) = 4 * k -> progress co = 4 * k + 1 ->
     k <= co_step (cores (dest r0 k c0) (rcore (dest r0 k c0) r0 k))) ->
  (forall k, 0 <= k < T -> progress (cores r0 c0) = 4 * k + 2 -> progress co = 4 * k + 3 ->
     source r0 k c0 <> r0 \/ hasRouteWeight_ j = true ->
     sent (cores (source r0 k c0) (tcore (source r0 k c0) r0 k)) k) ->
  ctl_inv (upd2 cores r0 c0 co).
Proof.
  intros [Ir Iw Iv] M Hr Hw Hv. constructor.
  - intros r c Ha. unfold upd2.
    destruct (Z.eqb_spec r r0), (Z.eqb_spec c c0); cbn; subst; auto.
  - intros r c k Ha Hk Hp. etransitivity; [|apply (moves_step _ _ _ _ _ _ M)].
    destruct (decide (r = r0 /\ c = c0)) as [[-> ->]|Hne].
    + rewrite upd2_eq in Hp. destruct (mv_progress _ _ _ _ M).
      destruct (Z.lt_ge_cases (4 * k) (progress (cores r0 c0))); [by apply Iw|apply Hw; lia].
    + rewrite upd2_ne in Hp by done. by apply Iw.
  - intros d c k Ha Hk Hp Hs. apply (moves_sent _ _ _ _ _ _ _ M).
    destruct (decide (d = r0 /\ c = c0)) as [[-> ->]|Hne].
    + rewrite upd2_eq in Hp. destruct (mv_progress _ _ _ _ M).
      destruct (Z.lt_ge_cases (4 * k + 2) (progress (cores r0 c0))); [by apply Iv|apply Hv; try lia; done].
    + rewrite upd2_ne in Hp by done. by apply Iv.
Qed.

(** *** Moves that leave the windows alone *)
Lemma mem_same cores mem r0 c0 co : mem_inv cores mem -> moves cores r0 c0 co ->
  co_step co = co_step (cores r0 c0) ->
  (forall k, 4 * k + 2 <= progress co -> 4 * k + 2 <= progress (cores r0 c0)) ->
  mem_inv (upd2 cores r0 c0 co) mem.
Proof.
  intros [Ic Id Iw] M Es Hp.
  assert (forall r c, co_step (upd2 cores r0 c0 co r c) = co_step (cores r c)) as Hs.
  { intros. unfold upd2. destruct (Z.eqb_spec r r0), (Z.eqb_spec c c0); cbn; congruence. }
  assert (forall r c k, 4 * k + 2 <= progress (upd2 cores r0 c0 co r c) <->
                        4 * k + 2 <= progress (cores r c)) as Hq.
  { intros. unfold upd2. destruct (Z.eqb_spec r r0), (Z.eqb_spec c c0); cbn; subst; try done.
    split; [apply Hp|]. destruct (mv_progress _ _ _ _ M). lia. }
  constructor.
  - intros. rewrite Hs. by apply Ic.
  - intros s d lane Hsr Hd Hl k. destruct (Id s d lane Hsr Hd Hl) as [(E1 & E2 & E3)|[E1 E2]].
    + left. split_and!; try done. by apply (moves_sent _ _ _ _ _ _ _ M).
    + right. split; [done|]. intros Hr. apply E2 in Hr. fold k in Hr. cbv zeta.
      specialize (Hq s (tcore s d k) k). cbv beta in *. lia.
  - intros s d Hsr Hd k. rewrite (Iw s d Hsr Hd). fold k. specialize (Hq s (tcore s d k) k).
    destruct (hasRouteWeight_ j); cbn; [|done]. cbv beta in *; repeat case_if; b2p; try done; lia.
Qed.

(** *** Sending *)

Lemma send_lanes_required r d lane : 0 <= lane < 2 ->
  lane ∈ send_lanes j r d <-> lane_required r d lane = true.
Proof.
  intros Hl. unfold send_lanes, MoonEpCombineV2DoneLaneRequired, MoonEpCombineV2ExpectedDoneCount,
    MOONEP_COMBINE_V2_SIX_PORT, MOONEP_COMBINE_V2_TWO_PORT, kMoonEpCombineV2LaneCount.
  rewrite (Z.eqb_sym r d). destruct (Z.eqb_spec d r).
  - rewrite elem_of_nil. split; [done|]. intros. b2p. lia.
  - destruct (MoonEpCombineV2SameServer r d (localRankSize j));
      rewrite ?elem_of_cons, elem_of_nil, Z.ltb_lt; lia.
Qed.

Lemma send_lanes_range r d lane : lane ∈ send_lanes j r d -> 0 <= lane < 2.
Proof.
  unfold send_lanes, MOONEP_COMBINE_V2_SIX_PORT, MOONEP_COMBINE_V2_TWO_PORT.
  repeat case_if; rewrite ?elem_of_cons, elem_of_nil; lia.
Qed.

(** The completion windows after a send: the addressed slots hold the token, the others are
    untouched. *)
Lemma done_after_send mem r d k lanes x s lane :
  0 <= r < n -> 0 <= s < n -> 0 <= lane < 2 -> (forall l, l ∈ lanes -> 0 <= l < 2) ->
  done_ (SendDone j mem r d k lanes) x (MoonEpCombineV2DoneIndex (epoch_ j) s lane) =
  if decide (x = d /\ s = r /\ lane ∈ lanes) then token k
  else done_ mem x (MoonEpCombineV2DoneIndex (epoch_ j) s lane).
Proof.
  pose proof job_bounds. intros Hr Hs Hl. cbn. induction lanes as [|l lanes IH]; intros Hls; cbn.
  { case_decide as D; [|done]. destruct D as (_ & _ & D). by inversion D. }
  destruct (decide (x = d /\ s = r /\ lane = l)) as [(-> & -> & ->)|Hne].
  - rewrite upd2_eq, decide_True; [done|]. split_and!; [done|done|by left].
  - rewrite upd2_ne.
    + rewrite IH by (intros; apply Hls; by right).
      apply decide_ext. rewrite elem_of_cons. tauto.
    + intros [-> E]. assert (0 <= l < 2) by (apply Hls; by left).
      apply (done_index_inj (epoch_ j) s lane r l) in E; [tauto|lia..].
Qed.

Lemma mem_send cores mem mem' r0 c0 k co lanes (w : bool) :
  mem_inv cores mem -> moves cores r0 c0 co -> 0 <= k < T ->
  progress (cores r0 c0) = 4 * k + 1 -> co_step co = co_step (cores r0 c0) ->
  (progress co = 4 * k + 2 /\ lanes = send_lanes j r0 (dest r0 k c0) /\ w = hasRouteWeight_ j) \/
  (progress co = 4 * k + 1 /\ co_failure co <> None /\
   lanes ⊆ send_lanes j r0 (dest r0 k c0) /\ w = false) ->
  credit mem' = credit mem ->
  done_ mem' = done_ (SendDone j mem r0 (dest r0 k c0) k lanes) ->
  weightDone mem' =
    (if w then upd2 (weightDone mem) (dest r0 k c0) r0 (token k) else weightDone mem) ->
  mem_inv (upd2 cores r0 c0 co) mem'.
Proof.
  intros [Ic Id Iw] M Hk Hp Es Hcase E1 E2 E3. set (d0 := dest r0 k c0) in *.
  destruct (mv_active _ _ _ _ M) as [Hr0 Hc0].
  assert (forall l, l ∈ lanes -> l ∈ send_lanes j r0 d0) as Hsub.
  { destruct Hcase as [(_ & -> & _)|(_ & _ & H & _)]; [done|]. intros l Hl. by apply H. }
  assert (meet d0 r0 = k /\ tcore r0 d0 k = c0) as [Em Et].
  { by destruct (forward r0 k c0 Hr0 Hk Hc0) as (_ & ? & _ & _ & ?). }
  assert (sent co k) as Hsent.
  { destruct Hcase as [(? & _)|(? & ? & _)]; [left; lia|by right]. }
  (* no other pair crosses its threshold *)
  assert (forall s d, 0 <= s < n -> 0 <= d < n -> ~ (s = r0 /\ d = d0) ->
    let k' := meet d s in
    4 * k' + 2 <= progress (upd2 cores r0 c0 co s (tcore s d k')) <->
    4 * k' + 2 <= progress (cores s (tcore s d k'))) as Hother.
  { intros s d Hs Hd Hne k'.
    destruct (decide (s = r0 /\ tcore s d k' = c0)) as [[-> Ec]|Hn]; [|by rewrite upd2_ne].
    rewrite Ec, upd2_eq. destruct (pair_coords r0 d Hr0 Hd) as (Hk' & _ & Ed).
    fold k' in Hk', Ed. rewrite Ec in Ed. assert (k' <> k).
    { intros E. apply Hne. split; [done|]. by rewrite <- Ed, E. }
    destruct (mv_progress _ _ _ _ M). lia. }
  constructor.
  - intros r c k' Ha Hk'. rewrite E1, (Ic r c k' Ha Hk').
    unfold upd2. destruct (Z.eqb_spec (dest r k' c) r0) as [Er|], (Z.eqb_spec (rcore (dest r k' c) r k') c0) as [Ec|]; cbn; try done.
    by rewrite Es, Er, <- Ec, Er.
  - intros s d lane Hs Hd Hl k'. cbv zeta. rewrite E2, done_after_send; try done.
    2: { intros l Hlane. by apply (send_lanes_range r0 d0), Hsub. }
    destruct (Id s d lane Hs Hd Hl) as [(F1 & F2 & F3)|[F1 F2]]; fold k' in F1, F2; try fold k' in F3.
    + left. split_and!; [|done|by apply (moves_sent _ _ _ _ _ _ _ M)].
      case_decide as D; [|done]. destruct D as (-> & -> & _). unfold k'. by rewrite Em.
    + case_decide as D.
      * left. destruct D as (-> & -> & D). unfold k'. rewrite Em. split_and!; [done| |].
        -- apply send_lanes_required; [done|]. by apply Hsub.
        -- rewrite Et, upd2_eq. done.
      * right. split; [done|]. intros Hreq. pose proof (F2 Hreq).
        destruct (decide (s = r0 /\ d = d0)) as [[-> ->]|Hne].
        -- unfold k'. rewrite Em, Et, upd2_eq.
           destruct Hcase as [(_ & -> & _)|(-> & _)]; [|lia].
           exfalso. apply D. split_and!; try done. by apply send_lanes_required.
        -- pose proof (Hother s d Hs Hd Hne). fold k' in H0. cbv zeta in H0. lia.
  - intros s d Hs Hd k'. rewrite E3. destruct (decide (s = r0 /\ d = d0)) as [[-> ->]|Hne].
    + unfold k'. rewrite Em, Et, upd2_eq. pose proof (Iw r0 d0 Hs Hd) as W. cbv zeta in W.
      rewrite Em, Et, Hp, (proj2 (Z.leb_gt _ _)), andb_false_r in W by lia.
      destruct Hcase as [(-> & _ & ->)|(-> & _ & _ & ->)].
      * rewrite Z.leb_refl. destruct (hasRouteWeight_ j); cbn; [apply upd2_eq|done].
      * rewrite (proj2 (Z.leb_gt _ _)), andb_false_r by lia. done.
    + pose proof (Hother s d Hs Hd Hne) as Ho. cbv zeta in Ho. fold k' in Ho.
      transitivity (weightDone mem d s).
      { destruct w; [|done]. apply upd2_ne. intros [-> ->]. by apply Hne. }
      rewrite (Iw s d Hs Hd). fold k'. destruct (hasRouteWeight_ j); cbn; [|done].
      cbv beta in *; repeat case_if; b2p; try done; lia.
Qed.

(** *** Publishing a credit *)

Lemma mem_publish cores mem mem' r0 c0 co : mem_inv cores mem -> moves cores r0 c0 co ->
  let k := co_step (cores r0 c0) in
  let r := source r0 (k + 1) c0 in
  let c := tcore r r0 (k + 1) in
  0 <= k < T -> progress (cores r0 c0) = 4 * k + 3 ->
  co_step co = k + 1 -> progress co = 4 * k + 4 ->
  credit mem' = (if k + 1 <? T
                 then upd2 (credit mem) r (offset (k + 1) c) (credit_words j (k + 1) r0 c0 r c)
                 else credit mem) ->
  done_ mem' = done_ mem -> weightDone mem' = weightDone mem ->
  mem_inv (upd2 cores r0 c0 co) mem'.
Proof.
  intros [Ic Id Iw] M k r c Hk Hp Es Hp' E1 E2 E3.
  destruct (mv_active _ _ _ _ M) as [Hr0 Hc0].
  assert (forall s x t, 4 * t + 2 <= progress (upd2 cores r0 c0 co s x) <->
                        4 * t + 2 <= progress (cores s x)) as Hq.
  { intros s x t. destruct (decide (s = r0 /\ x = c0)) as [[-> ->]|]; [|by rewrite upd2_ne].
    rewrite upd2_eq. lia. }
  constructor.
  - intros r' c' k' Ha Hk'. pose proof (Ic r' c' k' Ha Hk') as E.
    destruct Ha as [Hr' Hc']. destruct (forward r' k' c' Hr' ltac:(lia) Hc') as (_ & _ & _ & Fs & Ft).
    remember (dest r' k' c') as d eqn:Dd. remember (rcore d r' k') as x eqn:Dx.
    destruct (decide (d = r0 /\ x = c0 /\ k' = k + 1)) as [(-> & -> & ->)|Hne].
    + rewrite E1, upd2_eq, Es, (proj2 (Z.ltb_lt _ _)) by lia.
      assert (r = r') as Hr by done. unfold c. rewrite Hr, Ft, upd2_eq, Z.leb_refl. done.
    + transitivity (credit mem r' (offset k' c')).
      * rewrite E1. destruct (Z.ltb_spec (k + 1) T); [|done]. apply upd2_ne. intros [Hr Ho].
        destruct (backward r0 (k + 1) c0 Hr0 ltac:(lia) Hc0) as (_ & B1 & B2 & B3). fold r in B1, B2, B3.
        fold c in B1, B2. apply offset_inj in Ho as [-> ->]; [|lia..].
        apply Hne. by rewrite Dx, Dd, Hr, B2.
      * rewrite E. destruct (decide (d = r0 /\ x = c0)) as [[-> ->]|]; [|by rewrite upd2_ne].
        rewrite upd2_eq, Es. fold k. assert (k' <> k + 1) by tauto.
        repeat case_if; b2p; try done; lia.
  - intros s d lane Hs Hd Hl t. rewrite E2. destruct (Id s d lane Hs Hd Hl) as [(F1 & F2 & F3)|[F1 F2]].
    + left. split_and!; [done|done|]. by apply (moves_sent _ _ _ _ _ _ _ M).
    + right. split; [done|]. intros Hreq. specialize (F2 Hreq). cbv zeta. fold t in F2.
      specialize (Hq s (tcore s d t) t). lia.
  - intros s d Hs Hd t. rewrite E3, (Iw s d Hs Hd). fold t. specialize (Hq s (tcore s d t) t).
    destruct (hasRouteWeight_ j); cbn; [|done]. repeat case_if; b2p; try done; lia.
Qed.

(** *** The handshakes *)

(** A credit is accepted only if the receiving core has published it. *)
Lemma credit_ready cores mem r c k : mem_inv cores mem -> active j r c -> 1 <= k < T ->
  WaitStepCredit j mem r c k = Ready ->
  k <= co_step (cores (dest r k c) (rcore (dest r k c) r k)).
Proof.
  intros [Ic _ _] Ha Hk. unfold WaitStepCredit.
  assert (MoonEpCombineV2CreditRequiredBeforeStep k n = true) as ->.
  { unfold MoonEpCombineV2CreditRequiredBeforeStep. destruct Hok as [-> _].
    unfold stepCount_ in Hk. lia. }
  cbn [negb]. cbv zeta. fold (combine_dest n md r k c). case_if; [done|]. case_if; [|done]. intros _.
  rewrite (Ic r c k Ha Hk) in E0. destruct (Z.leb_spec k (co_step (cores (dest r k c) (rcore (dest r k c) r k)))); [done|].
  b2p. by destruct Hfresh as [Hf _], (Hf r (offset k c)).
Qed.

(** Conversely the credit of a core that has published is accepted. *)
Lemma credit_ready_intro cores mem r c k : mem_inv cores mem -> active j r c -> 0 <= k < T ->
  (1 <= k -> k <= co_step (cores (dest r k c) (rcore (dest r k c) r k))) ->
  WaitStepCredit j mem r c k = Ready.
Proof.
  intros [Ic _ _] Ha Hk Hs. unfold WaitStepCredit. pose proof job_bounds.
  destruct (Z.eq_dec k 0) as [->|Hk0].
  { unfold MoonEpCombineV2CreditRequiredBeforeStep. by rewrite andb_false_r. }
  assert (MoonEpCombineV2CreditRequiredBeforeStep k n = true) as ->.
  { unfold MoonEpCombineV2CreditRequiredBeforeStep. destruct Hok as [-> _].
    unfold stepCount_ in Hk. lia. }
  cbn [negb]. cbv zeta. fold (combine_dest n md r k c).
  rewrite (Ic r c k Ha ltac:(lia)), (proj2 (Z.leb_le k _)) by (apply Hs; lia).
  destruct Ha as [Hr Hc]. destruct (forward r k c Hr Hk Hc) as (Hd & _ & Hrc & _).
  rewrite credit_offset_eq by lia. destruct Hok as (_ & _ & _ & _ & Hm). destruct (Hm r Hr) as [-> _].
  unfold UINT64_MAX.
  assert ((n <=? dest r k c) || (C <=? rcore (dest r k c) r k) ||
    (131072 + ((epoch_ j * 7 + k - 1) * 16 + c) * 64 =? 18446744073709551615) || negb true = false)
    as -> by (cbn [negb]; lia).
  unfold credit_words, word. cbn [nth]. by rewrite !Z.eqb_refl.
Qed.

(** A step counts as received only if its sender has sent. *)
Lemma done_ready cores mem d c k : mem_inv cores mem -> active j d c -> 0 <= k < T ->
  WaitInboundDone j mem d c k = Ready ->
  source d k c <> d \/ hasRouteWeight_ j = true ->
  sent (cores (source d k c) (tcore (source d k c) d k)) k.
Proof.
  intros [_ Id Iw] [Hd Hc] Hk. destruct (backward d k c Hd Hk Hc) as (Hs & Ht & Ed & _).
  destruct (forward _ k _ Hs Hk Ht) as (_ & Em & _). rewrite Ed in Em.
  destruct Hfresh as (_ & Hfd & Hfw). unfold WaitInboundDone. cbv zeta.
  set (s := source d k c) in *. rewrite (proj2 (Z.leb_gt n s)) by lia.
  case_if; [|done]. intros Hw Hside. unfold WaitInboundWeightDone in Hw.
  destruct (hasRouteWeight_ j) eqn:Ew.
  - cbn in Hw. case_if_in Hw; [|done]. b2p. rewrite (Iw s d Hs Hd), Em in E0.
    case_if_in E0; [|by apply Hfw in E0]. b2p. left. done.
  - assert (s <> d) as Hne by (destruct Hside; done).
    change (seqZ 0 kMoonEpCombineV2LaneCount) with [0; 1] in E. cbn [forallb] in E.
    apply andb_prop in E as [E _]. pose proof (Id s d 0 Hs Hd ltac:(lia)) as F. cbv zeta in F. rewrite Em in F.
    assert (lane_required s d 0 = true) as Hreq.
    { unfold MoonEpCombineV2DoneLaneRequired, MoonEpCombineV2ExpectedDoneCount.
      destruct (Z.eqb_spec s d); [done|]. by destruct (MoonEpCombineV2SameServer _ _ _). }
    rewrite Hreq in E. cbn [negb orb] in E. b2p. destruct F as [(_ & _ & F)|[F _]]; [done|].
    rewrite F in E. by apply Hfd in E.
Qed.

Lemma done_ready_intro cores mem d c k : mem_inv cores mem -> active j d c -> 0 <= k < T ->
  4 * k + 2 <= progress (cores (source d k c) (tcore (source d k c) d k)) ->
  WaitInboundDone j mem d c k = Ready.
Proof.
  intros [_ Id Iw] [Hd Hc] Hk. destruct (backward d k c Hd Hk Hc) as (Hs & Ht & Ed & _).
  destruct (forward _ k _ Hs Hk Ht) as (_ & Em & _). rewrite Ed in Em.
  unfold WaitInboundDone. cbv zeta.
  set (s := source d k c) in *. rewrite (proj2 (Z.leb_gt n s)) by lia. intros Hp.
  assert (forall lane, 0 <= lane < 2 ->
    negb (lane_required s d lane) ||
    (done_ mem d (MoonEpCombineV2DoneIndex (epoch_ j) s lane) =? token k) = true) as Hl.
  { intros lane Hl. destruct (lane_required s d lane) eqn:Er; [|done]. cbn.
    pose proof (Id s d lane Hs Hd Hl) as F. cbv zeta in F. rewrite Em in F.
    destruct F as [(-> & _)|[_ F]]; [apply Z.eqb_refl|]. specialize (F Er). lia. }
  change (seqZ 0 kMoonEpCombineV2LaneCount) with [0; 1]. cbn [forallb].
  rewrite !Hl by lia. cbn [andb]. unfold WaitInboundWeightDone.
  rewrite (Iw s d Hs Hd), Em. destruct (hasRouteWeight_ j); [|done]. cbn [negb andb].
  rewrite (proj2 (Z.leb_le _ _)), Z.eqb_refl by lia. done.
Qed.

(** *** One step of the system *)

Lemma publish_spec mem r c k : active j r c -> 0 <= k < T ->
  let r' := source r (k + 1) c in
  let c' := tcore r' r (k + 1) in
  PublishNextCredit j mem r c k =
  inl {| credit := if k + 1 <? T
                   then upd2 (credit mem) r' (offset (k + 1) c') (credit_words j (k + 1) r c r' c')
                   else credit mem;
         done_ := done_ mem; weightDone := weightDone mem |}.
Proof.
  intros [Hr Hc] Hk r' c'. pose proof job_bounds. unfold PublishNextCredit, MoonEpCombineV2CreditPublishedAfterStep.
  rewrite (u32_small (k + 1)) by lia. cbv zeta. fold r' c'. fold (stepCount_ j).
  destruct Hok as (-> & _ & _ & _ & Hm). cbn [andb].
  destruct (Z.ltb_spec (k + 1) T); cbn [negb]; [|by destruct mem].
  destruct (backward r (k + 1) c Hr ltac:(lia) Hc) as (B0 & B1 & _). fold r' in B0, B1. fold c' in B1.
  destruct (Hm r' B0) as [-> _]. rewrite credit_offset_eq by lia. unfold UINT64_MAX.
  assert ((n <=? r') || (C <=? c') ||
    (131072 + ((epoch_ j * 7 + (k + 1) - 1) * 16 + c') * 64 =? 18446744073709551615) || negb true = false)
    as -> by (cbn [negb]; lia). done.
Qed.

Lemma send_spec mem r c k : active j r c -> 0 <= k < T ->
  let d := dest r k c in
  exists mem', SendWeightMemoryStep j (SendDone j mem r d k (send_lanes j r d)) r d k = inl mem' /\
  credit mem' = credit mem /\ done_ mem' = done_ (SendDone j mem r d k (send_lanes j r d)) /\
  weightDone mem' = if hasRouteWeight_ j then upd2 (weightDone mem) d r (token k) else weightDone mem.
Proof.
  intros [Hr Hc] Hk d. unfold SendWeightMemoryStep.
  destruct (hasRouteWeight_ j); [|by eexists]. cbn [negb].
  destruct (forward r k c Hr Hk Hc) as (Hd & _). fold d in Hd.
  destruct Hok as (_ & _ & _ & _ & Hm). destruct (Hm d Hd) as [_ ->].
  rewrite (proj2 (Z.leb_gt n d)) by lia. by eexists.
Qed.

(** The facts about a core that is about to run. *)
Lemma running_facts st r c : inv st -> active j r c -> running j st r c = true ->
  co_failure (st_core st r c) = None /\ 0 <= co_step (st_core st r c) < T.
Proof.
  intros [[Ir _ _] _] Ha. unfold running. destruct (Ir r c Ha) as [? _].
  destruct (co_failure _); [done|]. intros. b2p. split; [done|lia].
Qed.

(** A sound configuration is never rejected by the polls. *)
Lemma credit_poll mem r c k : active j r c -> 0 <= k < T ->
  WaitStepCredit j mem r c k = Ready \/
  WaitStepCredit j mem r c k = Pending MOONEP_COMBINE_V2_CREDIT_TIMEOUT.
Proof.
  intros [Hr Hc] Hk. pose proof job_bounds. unfold WaitStepCredit. cbv zeta.
  case_if; [by left|]. fold (combine_dest n md r k c).
  destruct (forward r k c Hr Hk Hc) as (Hd & _ & Hrc & _).
  assert (k <> 0).
  { intros ->. revert E. unfold MoonEpCombineV2CreditRequiredBeforeStep. by rewrite andb_false_r. }
  rewrite credit_offset_eq by lia. destruct Hok as (_ & _ & _ & _ & Hm). destruct (Hm r Hr) as [-> _].
  unfold UINT64_MAX.
  assert ((n <=? dest r k c) || (C <=? rcore (dest r k c) r k) ||
    (131072 + ((epoch_ j * 7 + k - 1) * 16 + c) * 64 =? 18446744073709551615) || negb true = false)
    as -> by (cbn [negb]; lia).
  case_if; auto.
Qed.

Lemma done_poll mem d c k : active j d c -> 0 <= k < T ->
  WaitInboundDone j mem d c k = Ready \/ exists e, WaitInboundDone j mem d c k = Pending e.
Proof.
  intros [Hd Hc] Hk. destruct (backward d k c Hd Hk Hc) as (Hs & _).
  unfold WaitInboundDone, WaitInboundWeightDone. cbv zeta.
  rewrite (proj2 (Z.leb_gt n _)) by lia. repeat case_if; eauto.
Qed.

Section one_core.
Context (st : State) (r c : Z) (Hinv : inv st) (Ha : active j r c)
  (Hrun : running j st r c = true).
#[local] Abbreviation k := (co_step (st_core st r c)).

Lemma core_moves co : k <= co_step co ->
  progress (st_core st r c) <= progress co <= progress (st_core st r c) + 1 ->
  moves (st_core st) r c co.
Proof. intros. destruct (running_facts st r c Hinv Ha Hrun). by constructor. Qed.

Lemma step_credit_inv : co_phase (st_core st r c) = PhaseCredit ->
  WaitStepCredit j (st_mem st) r c k = Ready ->
  inv (move_core st r c k PhaseSend (st_mem st)).
Proof.
  intros Hph Hw. destruct (running_facts st r c Hinv Ha Hrun) as [Hf Hk].
  set (co := {| co_step := k; co_phase := PhaseSend; co_failure := None |}).
  assert (progress (st_core st r c) = 4 * k) as Hp by (unfold progress; rewrite Hph; cbn; lia).
  assert (progress co = 4 * k + 1) as Hp' by (unfold progress; cbn; lia).
  assert (moves (st_core st) r c co) as M by (apply core_moves; cbn; lia).
  destruct Hinv as [HC HM]. split; cbn [st_core st_mem move_core set_core]; fold co.
  - apply ctl_move; try done; [cbn; split; [|intros; exfalso]; lia| |intros; exfalso; lia].
    intros k' Hk' E _. assert (k' = k) as -> by lia. by apply (credit_ready _ (st_mem st)).
  - apply mem_same; try done. intros. lia.
Qed.

Lemma step_done_inv : co_phase (st_core st r c) = PhaseDone ->
  WaitInboundDone j (st_mem st) r c k = Ready ->
  inv (move_core st r c k PhasePublish (st_mem st)).
Proof.
  intros Hph Hw. destruct (running_facts st r c Hinv Ha Hrun) as [Hf Hk].
  set (co := {| co_step := k; co_phase := PhasePublish; co_failure := None |}).
  assert (progress (st_core st r c) = 4 * k + 2) as Hp by (unfold progress; rewrite Hph; cbn; lia).
  assert (progress co = 4 * k + 3) as Hp' by (unfold progress; cbn; lia).
  assert (moves (st_core st) r c co) as M by (apply core_moves; cbn; lia).
  destruct Hinv as [HC HM]. split; cbn [st_core st_mem move_core set_core]; fold co.
  - apply ctl_move; try done; [cbn; split; [|intros; exfalso]; lia|intros; exfalso; lia|].
    intros k' Hk' E _ Hs. assert (k' = k) as -> by lia. by apply (done_ready _ (st_mem st)).
  - apply mem_same; try done. intros. lia.
Qed.

Lemma step_send_inv mem' : co_phase (st_core st r c) = PhaseSend ->
  let d := dest r k c in
  SendWeightMemoryStep j (SendDone j (st_mem st) r d k (send_lanes j r d)) r d k = inl mem' ->
  inv (move_core st r c k PhaseDone mem').
Proof.
  intros Hph d Hw. destruct (running_facts st r c Hinv Ha Hrun) as [Hf Hk].
  set (co := {| co_step := k; co_phase := PhaseDone; co_failure := None |}).
  assert (progress (st_core st r c) = 4 * k + 1) as Hp by (unfold progress; rewrite Hph; cbn; lia).
  assert (progress co = 4 * k + 2) as Hp' by (unfold progress; cbn; lia).
  assert (moves (st_core st) r c co) as M by (apply core_moves; cbn; lia).
  destruct (send_spec (st_mem st) r c k Ha Hk) as (mem'' & E0 & E1 & E2 & E3). fold d in E0, E2, E3.
  rewrite E0 in Hw. injection Hw as ->.
  destruct Hinv as [HC HM]. split; cbn [st_core st_mem move_core set_core]; fold co.
  - apply ctl_move; try done; [cbn; split; [|intros; exfalso]; lia|intros; exfalso; lia..].
  - eapply (mem_send _ (st_mem st) mem' r c k co (send_lanes j r d)); eauto.
Qed.

Lemma step_publish_inv mem' : co_phase (st_core st r c) = PhasePublish ->
  PublishNextCredit j (st_mem st) r c k = inl mem' ->
  inv (move_core st r c (k + 1) PhaseCredit mem').
Proof.
  intros Hph Hw. destruct (running_facts st r c Hinv Ha Hrun) as [Hf Hk].
  set (co := {| co_step := k + 1; co_phase := PhaseCredit; co_failure := None |}).
  assert (progress (st_core st r c) = 4 * k + 3) as Hp by (unfold progress; rewrite Hph; cbn; lia).
  assert (progress co = 4 * k + 4) as Hp' by (unfold progress; cbn; lia).
  assert (moves (st_core st) r c co) as M by (apply core_moves; cbn; lia).
  rewrite (publish_spec _ r c k Ha Hk) in Hw. injection Hw as <-.
  destruct Hinv as [HC HM]. split; cbn [st_core st_mem move_core set_core]; fold co.
  - apply ctl_move; try done; [cbn; split; [lia|done]|intros; exfalso; lia..].
  - eapply (mem_publish _ (st_mem st)); cbn; try done; lia.
Qed.

Lemma step_fail_inv e mem' : may_give_up j st r c e mem' -> inv (fail_core st r c e mem').
Proof.
  intros [_ H]. destruct (running_facts st r c Hinv Ha Hrun) as [Hf Hk].
  set (co := {| co_step := k; co_phase := co_phase (st_core st r c); co_failure := Some e |}).
  assert (progress co = progress (st_core st r c)) as Hp by done.
  assert (moves (st_core st) r c co) as M by (apply core_moves; cbn; lia).
  destruct Hinv as [HC HM]. split; cbn [st_core st_mem fail_core set_core]; fold co.
  - apply ctl_move; try done; [|intros; exfalso; lia..]. cbn. by apply (ci_range _ HC).
  - destruct (co_phase (st_core st r c)) eqn:Hph.
    + destruct H as [-> _]. apply mem_same; try done; intros; lia.
    + destruct H as (lanes & Hl & ->).
      assert (progress (st_core st r c) = 4 * k + 1) by (unfold progress; rewrite Hph; cbn; lia).
      eapply (mem_send _ (st_mem st) _ r c k co lanes false); try done. right. split_and!; [lia|done|done|done].
    + destruct H as [-> _]. apply mem_same; try done; intros; lia.
    + done.
Qed.
End one_core.

(** A core of a sound state never fails by itself: it polls, or its progress grows by one. *)
Lemma core_step_inv st r c st' : inv st -> active j r c -> core_step j st r c = Some st' ->
  inv st' /\ exists co, st_core st' = upd2 (st_core st) r c co /\ co_failure co = None /\
    progress co = progress (st_core st r c) + 1.
Proof.
  intros HI Ha. unfold core_step. cbv zeta.
  destruct (running j st r c) eqn:Hrun; [|done]. cbn [negb].
  destruct (running_facts st r c HI Ha Hrun) as [Hf Hk].
  unfold progress at 2. destruct (co_phase (st_core st r c)) eqn:Hph.
  - destruct (credit_poll (st_mem st) r c _ Ha Hk) as [E|E]; rewrite E; [|done]. intros [= <-].
    split; [by apply step_credit_inv|]. eexists. split_and!; [done|done|]. unfold progress. cbn. lia.
  - destruct (send_spec (st_mem st) r c _ Ha Hk) as (mem' & E & _). unfold peer_of.
    fold (combine_dest n md r (co_step (st_core st r c)) c). rewrite E. intros [= <-].
    split; [by apply step_send_inv|]. eexists. split_and!; [done|done|]. unfold progress. cbn. lia.
  - destruct (done_poll (st_mem st) r c _ Ha Hk) as [E|[e E]]; rewrite E; [|done]. intros [= <-].
    split; [by apply step_done_inv|]. eexists. split_and!; [done|done|]. unfold progress. cbn. lia.
  - rewrite (publish_spec _ r c _ Ha Hk). intros [= <-].
    split; [apply step_publish_inv; try done; by apply publish_spec|].
    eexists. split_and!; [done|done|]. unfold progress. cbn. lia.
Qed.

Lemma inv_step st st' : inv st -> step j st st' -> inv st'.
Proof.
  intros HI [r c st'' Ha E | r c e mem' Ha E].
  - by apply (core_step_inv st r c st'').
  - apply step_fail_inv; try done. apply E.
Qed.

Lemma reachable_inv m st : reachable j (start mem0) m st -> inv st.
Proof. induction 1; [apply inv_start|by eapply inv_step]. Qed.
End protocol.
