(* ===== verification/CombineProtocolProps.v ===== *)
(** The guarantees of the combine protocol: admission by credit, receipt by token, absence of
    deadlock, and completion. *)
From S2P Require Import Prelude ExchangeSpec CombineSchedule CombineWire CombineProps CombineProtocol CombineProtocolInv.

(** The cores of a launch. *)
Definition all_cores (j : Job) : list (Z * Z) :=
  list_prod (seqZ 0 (rankSize_ j)) (seqZ 0 (activeCoreCount_ j)).

Lemma elem_of_all_cores j r c : (r, c) ∈ all_cores j <-> active j r c.
Proof.
  unfold all_cores, active. rewrite list_elem_of_In, in_prod_iff, <- !list_elem_of_In, !elem_of_seqZ0.
  done.
Qed.

Lemma NoDup_all_cores j : NoDup (all_cores j).
Proof. apply NoDup_list_prod; apply NoDup_seqZ. Qed.

Definition failure_free (j : Job) (st : State) : Prop :=
  forall r c, active j r c -> co_failure (st_core st r c) = None.

Definition finished (j : Job) (st : State) : Prop :=
  forall r c, active j r c -> co_step (st_core st r c) = stepCount_ j.

(** ** No deadlock *)

(** The least advanced core can always move: what it waits for comes from a core that is at
    least as far. *)
Lemma least_core_moves j mem0 st r c : job_ok j -> fresh j mem0 -> inv j mem0 st ->
  failure_free j st -> active j r c -> co_step (st_core st r c) < stepCount_ j ->
  (forall r' c', active j r' c' -> progress (st_core st r c) <= progress (st_core st r' c')) ->
  exists st', core_step j st r c = Some st'.
Proof.
  intros Hok Hf HI Hff Ha Hlt Hmin. pose proof HI as [HC HM].
  destruct (ci_range _ _ HC r c Ha) as [Hk _]. set (k := co_step (st_core st r c)) in *.
  assert (0 <= k < stepCount_ j) as Hk' by lia. pose proof Ha as [Hr Hc].
  unfold core_step. cbv zeta. unfold running. rewrite (Hff r c Ha). fold k.
  rewrite (proj2 (Z.ltb_lt _ _) Hlt). cbn [negb]. unfold progress at 1 in Hmin. fold k in Hmin.
  destruct (co_phase (st_core st r c)) eqn:Hph; cbn [phase_index] in Hmin.
  - rewrite (credit_ready_intro j mem0 Hok (st_core st)); [by eexists|done|done|done|].
    intros Hk1. destruct (forward j Hok r k c Hr Hk' Hc) as (Hd & _ & Hrc & _).
    apply progress_step. specialize (Hmin _ _ (conj Hd Hrc)). lia.
  - unfold peer_of. fold (combine_dest (rankSize_ j) (kCombineV2ScheduleMode j) r k c).
    destruct (send_spec j Hok (st_mem st) r c k Ha Hk') as (mem' & -> & _). by eexists.
  - rewrite (done_ready_intro j mem0 Hok (st_core st)); [by eexists|done|done|done|].
    destruct (backward j Hok r k c Hr Hk' Hc) as (Hs & Ht & _).
    specialize (Hmin _ _ (conj Hs Ht)). lia.
  - rewrite (publish_spec j Hok _ r c k Ha Hk'). by eexists.
Qed.

Lemma not_stuck j mem0 st : job_ok j -> fresh j mem0 -> inv j mem0 st -> failure_free j st ->
  finished j st \/ exists r c st', active j r c /\ core_step j st r c = Some st'.
Proof.
  intros Hok Hf HI Hff. destruct (job_bounds j Hok) as (Hn & Hc & HT & _).
  destruct (argmin (fun x => progress (st_core st (fst x) (snd x))) (all_cores j))
    as ([r c] & Hx & Hmin).
  { intros E. assert ((0, 0) ∈ all_cores j) as H0 by (apply elem_of_all_cores; split; lia).
    rewrite E in H0. by inversion H0. }
  apply elem_of_all_cores in Hx.
  assert (forall r' c', active j r' c' -> progress (st_core st r c) <= progress (st_core st r' c')) as Hm.
  { intros r' c' Ha. apply (Hmin (r', c')). by apply elem_of_all_cores. }
  pose proof HI as [HC _]. destruct (ci_range _ _ HC r c Hx) as [Hk Hend].
  destruct (decide (co_step (st_core st r c) = stepCount_ j)) as [E|E].
  - left. intros r' c' Ha. destruct (ci_range _ _ HC r' c' Ha) as [Hk' Hend'].
    specialize (Hm r' c' Ha). unfold progress in Hm. rewrite E, (Hend E) in Hm. cbn in Hm.
    pose proof (phase_index_range (co_phase (st_core st r' c'))).
    destruct (decide (co_step (st_core st r' c') = stepCount_ j)); [done|lia].
  - right. destruct (least_core_moves j mem0 st r c) as [st' ?]; eauto; lia.
Qed.

(** ** A measure *)

Definition core_weight (co : Core) : Z :=
  progress co + match co_failure co with None => 0 | Some _ => 1 end.

Definition total (j : Job) (st : State) : Z :=
  zsum (fun x => core_weight (st_core st (fst x) (snd x))) (all_cores j).

Lemma total_upd j st st' r c co : active j r c -> st_core st' = upd2 (st_core st) r c co ->
  total j st' = total j st + (core_weight co - core_weight (st_core st r c)).
Proof.
  intros Ha E. unfold total.
  rewrite (zsum_change _ (fun x => core_weight (st_core st (fst x) (snd x))) (all_cores j) (r, c)).
  - cbn [fst snd]. by rewrite E, upd2_eq.
  - apply NoDup_all_cores.
  - by apply elem_of_all_cores.
  - intros [r' c'] _ Hne. cbn [fst snd]. rewrite E, upd2_ne; [done|]. intros [-> ->]. done.
Qed.

Lemma total_step j mem0 st st' : job_ok j -> fresh j mem0 -> inv j mem0 st -> step j st st' ->
  total j st' = total j st + 1.
Proof.
  intros Hok Hf HI [r c st'' Ha E | r c e mem' Ha [Hrun _]].
  - destruct (core_step_inv j mem0 Hok Hf st r c st'' HI Ha E) as (_ & co & Eco & Hn & Hp).
    rewrite (total_upd j st st'' r c co Ha Eco). unfold core_weight. rewrite Hn, Hp.
    unfold core_step in E. cbv zeta in E. destruct (running j st r c) eqn:Hrun; [|done].
    destruct (running_facts j mem0 st r c HI Ha Hrun) as [-> _]. lia.
  - destruct (running_facts j mem0 st r c HI Ha Hrun) as [Hn _].
    erewrite total_upd; [|done|reflexivity]. unfold core_weight, progress. cbn. rewrite Hn. lia.
Qed.

Lemma total_reachable j mem0 m st : job_ok j -> fresh j mem0 -> reachable j (start mem0) m st ->
  total j st = Z.of_nat m.
Proof.
  intros Hok Hf H. induction H as [|m st st' H IH Hs].
  - unfold total, start, core_weight, progress. cbn. rewrite zsum_const. lia.
  - erewrite total_step by (try done; by eapply reachable_inv). lia.
Qed.

Lemma total_bound j mem0 st : job_ok j -> inv j mem0 st ->
  total j st <= rankSize_ j * activeCoreCount_ j * (4 * stepCount_ j + 1).
Proof.
  intros Hok [HC _]. destruct (job_bounds j Hok) as (Hn & Hc & HT & _).
  transitivity (zsum (fun _ => 4 * stepCount_ j + 1) (all_cores j)).
  - apply zsum_le. intros [r c] Ha%elem_of_all_cores. cbn [fst snd].
    destruct (ci_range _ _ HC r c Ha) as [? Hend]. unfold core_weight, progress.
    pose proof (phase_index_range (co_phase (st_core st r c))).
    destruct (decide (co_step (st_core st r c) = stepCount_ j)) as [E|].
    + rewrite (Hend E), E. cbn. destruct (co_failure _); lia.
    + destruct (co_failure _); lia.
  - rewrite zsum_const. unfold all_cores. rewrite length_prod, Nat2Z.inj_mul, !length_seqZ0 by lia. lia.
Qed.

(** ** Properties *)

(** When all the cores of a rank have left the step loop without failing, everything for it has
    been sent: by the other ranks, whose tokens were waited for, and by the rank itself, whose
    core for its own rows is one of those cores. *)
Lemma rank_received j mem st d s : job_ok j -> fresh j mem -> inv j mem st ->
  0 <= d < rankSize_ j -> (forall c, active j d c -> co_step (st_core st d c) = stepCount_ j) ->
  0 <= s < rankSize_ j ->
  let k := MoonEpCombineV2ReceiveStep d s (rankSize_ j) (kCombineV2ScheduleMode j) in
  sent (st_core st s (MoonEpCombineV2TransferCore s d k (rankSize_ j) (kCombineV2ScheduleMode j))) k.
Proof.
  intros Hok Hf [HC _] Hd Hdone Hs k. destruct (pair_coords j Hok s d Hs Hd) as (Hk & Ht & Ed).
  change (combine_meet _ _ d s) with k in Hk, Ht, Ed.
  destruct (decide (s = d)) as [->|Hne].
  - left. rewrite <- (Hdone _ (conj Hd Ht)) in Hk. unfold progress.
    pose proof (phase_index_range (co_phase (st_core st d (MoonEpCombineV2TransferCore d d k (rankSize_ j) (kCombineV2ScheduleMode j))))). lia.
  - destruct (forward j Hok s k _ Hs Hk Ht) as (_ & _ & Hc & Es & _). rewrite Ed in Hc, Es.
    pose proof (ci_recv _ _ HC d _ k (conj Hd Hc) Hk) as H. rewrite Es in H. apply H; [|by left].
    specialize (Hdone _ (conj Hd Hc)). unfold progress. rewrite Hdone.
    pose proof (phase_index_range (co_phase (st_core st d (MoonEpCombineV2ReceiveCore d s k (rankSize_ j) (kCombineV2ScheduleMode j))))). lia.
Qed.

(** C4: credits and completion tokens do what they are for, in every interleaving of the cores
    and with any failures. A core that is past the credit wait of step [k] addresses a
    receiver core that has finished step [k - 1], so no destination is written by two steps at
    once. A core that is past the completion wait of step [k] has a source whose send of
    step [k] has left, when the source is another rank or there are route weights; the wait
    passes at once for the rank's own rows without weights. What the reduction needs holds for
    every source: once all the cores of a rank have left the step loop without failing, which the collective
    stage after the loop waits for, every rank, itself included, has sent its rows for it. *)
Theorem combine_protocol_safe j mem m st :
  job_ok j -> fresh j mem -> reachable j (start mem) m st ->
  (forall r c k, active j r c -> 1 <= k < stepCount_ j -> 4 * k < progress (st_core st r c) ->
     let d := peer_of j r c k in
     k <= co_step (st_core st d
            (MoonEpCombineV2ReceiveCore d r k (rankSize_ j) (kCombineV2ScheduleMode j)))) /\
  (forall d c k, active j d c -> 0 <= k < stepCount_ j -> 4 * k + 2 < progress (st_core st d c) ->
     let s := MoonEpCombineV2ReceiveSource d k c (rankSize_ j) (kCombineV2ScheduleMode j) in
     s <> d \/ hasRouteWeight_ j = true ->
     sent (st_core st s
       (MoonEpCombineV2TransferCore s d k (rankSize_ j) (kCombineV2ScheduleMode j))) k) /\
  (forall d s, 0 <= d < rankSize_ j -> 0 <= s < rankSize_ j ->
     (forall c, active j d c -> co_step (st_core st d c) = stepCount_ j) ->
     let k := MoonEpCombineV2ReceiveStep d s (rankSize_ j) (kCombineV2ScheduleMode j) in
     sent (st_core st s
       (MoonEpCombineV2TransferCore s d k (rankSize_ j) (kCombineV2ScheduleMode j))) k).
Proof.
  intros Hok Hf H. pose proof (reachable_inv j mem Hok Hf m st H) as HI. pose proof HI as [[_ Iw Iv] _]. split; [|split].
  - intros r c k Ha Hk Hp. by apply Iw.
  - intros d c k Ha Hk Hp s Hs. by apply Iv.
  - intros d s Hd Hs Hdone. by apply (rank_received j mem).
Qed.

(** C9: no deadlock. While no core has failed, either every core has left the step loop or some
    core can move on, and it does so without failing. *)
Theorem combine_protocol_deadlock_free j mem m st :
  job_ok j -> fresh j mem -> reachable j (start mem) m st -> failure_free j st ->
  finished j st \/
  exists r c st', active j r c /\ core_step j st r c = Some st' /\ failure_free j st'.
Proof.
  intros Hok Hf H Hff. pose proof (reachable_inv j mem Hok Hf m st H) as HI.
  destruct (not_stuck j mem st Hok Hf HI Hff) as [?|(r & c & st' & Ha & E)]; [by left|right].
  exists r, c, st'. split_and!; [done..|].
  destruct (core_step_inv j mem Hok Hf st r c st' HI Ha E) as (_ & co & Eco & Hn & _).
  intros r' c' Ha'. rewrite Eco. unfold upd2. destruct (_ && _); auto.
Qed.

Lemma completes j mem : job_ok j -> fresh j mem -> forall (fuel : nat) m st,
  reachable j (start mem) m st -> failure_free j st ->
  rankSize_ j * activeCoreCount_ j * (4 * stepCount_ j + 1) - Z.of_nat m <= Z.of_nat fuel ->
  exists m' st', reachable j (start mem) m' st' /\ failure_free j st' /\ finished j st'.
Proof.
  intros Hok Hf fuel. induction fuel as [|fuel IH]; intros m st H Hff Hm;
    pose proof (reachable_inv j mem Hok Hf m st H) as HI;
    (destruct (not_stuck j mem st Hok Hf HI Hff) as [?|(r & c & st' & Ha & E)]; [by eauto|]);
    assert (reachable j (start mem) (S m) st') as H' by (econstructor; [done|by econstructor]).
  - pose proof (total_bound j mem st' Hok (reachable_inv j mem Hok Hf _ _ H')).
    rewrite (total_reachable j mem _ _ Hok Hf H') in H0. lia.
  - apply (IH (S m) st'); [done| |lia].
    destruct (core_step_inv j mem Hok Hf st r c st' HI Ha E) as (_ & co & Eco & Hn & _).
    intros r' c' Ha'. rewrite Eco. unfold upd2. destruct (_ && _); auto.
Qed.

(** C26: completion: from every reachable state without failures the exchange can be carried to
    the end, with every core having finished all its steps and none having failed. *)
Theorem combine_protocol_completes j mem m st :
  job_ok j -> fresh j mem -> reachable j (start mem) m st -> failure_free j st ->
  exists m' st', reachable j (start mem) m' st' /\ failure_free j st' /\ finished j st'.
Proof.
  intros Hok Hf H Hff. eapply (completes j mem Hok Hf (Z.to_nat (rankSize_ j * activeCoreCount_ j * (4 * stepCount_ j + 1)))); eauto.
  lia.
Qed.

(** A concrete launch: 32 ranks in pairs of servers, weights on, clean windows. *)
Definition job32 : Job :=
  {| magic_ := 9; epoch_ := 1; rankSize_ := 32; localRankSize := 8;
     kCombineV2ScheduleMode := MOONEP_COMBINE_V2_SERVER_PAIR_PARITY; hasRouteWeight_ := true;
     creditMems := fun _ => true; weightPeerMems := fun _ => true |}.

Definition clean : Memory :=
  {| credit := fun _ _ => []; done_ := fun _ _ => 0; weightDone := fun _ _ => 0 |}.

Lemma job32_ok : job_ok job32.
Proof. repeat split; cbn; lia || reflexivity. Qed.

Lemma job32_fresh : fresh job32 clean.
Proof.
  assert (forall k, 0 <= k < 8 -> MoonEpCombineV2Token 9 k <> 0).
  { intros. rewrite token_eq; lia. }
  split; [cbn; lia|]. assert (stepCount_ job32 = 2) as -> by reflexivity.
  split; intros; cbn; intros E; apply (H k); lia || by symmetry.
Qed.

Definition job32_first : State :=
  default (start clean) (core_step job32 (start clean) 3 5).

Lemma job32_reach : reachable job32 (start clean) 1 job32_first.
Proof.
  econstructor; [constructor|]. apply (step_core _ _ 3 5); [split; vm_compute; intuition congruence|].
  reflexivity.
Qed.

Lemma combine_protocol_safe_witness :
  progress (st_core job32_first 3 5) = 1 /\
  forall c k, active job32 3 c -> 1 <= k < 2 -> 4 * k < progress (st_core job32_first 3 c) ->
  k <= co_step (st_core job32_first (peer_of job32 3 c k)
         (MoonEpCombineV2ReceiveCore (peer_of job32 3 c k) 3 k 32
            MOONEP_COMBINE_V2_SERVER_PAIR_PARITY)).
Proof.
  split; [reflexivity|]. intros c k.
  apply (proj1 (combine_protocol_safe job32 clean 1 job32_first job32_ok job32_fresh job32_reach) 3 c k).
Defined.

Lemma combine_protocol_deadlock_free_witness :
  finished job32 (start clean) \/
  exists r c st', active job32 r c /\ core_step job32 (start clean) r c = Some st' /\
    failure_free job32 st'.
Proof.
  apply (combine_protocol_deadlock_free job32 clean 0 (start clean) job32_ok job32_fresh);
    [constructor|intros ? ? _; reflexivity].
Defined.

Lemma combine_protocol_completes_witness :
  exists m st, reachable job32 (start clean) m st /\ failure_free job32 st /\ finished job32 st.
Proof.
  apply (combine_protocol_completes job32 clean 0 (start clean) job32_ok job32_fresh);
    [constructor|intros ? ? _; reflexivity].
Defined.
