(* ===== verification/PlanTypes.v ===== *)
(** Data of the MoonEP planner: configuration and status codes
    (src/src/include/tilexr_ep_plan.h), algorithm input and workspace
    (src/src/moonep/planner_v2/common/ep_plan_algorithm.h), segment records and constants
    (ep_plan_types.h), and the index helpers of ep_plan_algorithm_impl.h. An [int32_t] array is
    a function from the element index; values are unbounded integers here and the bounds that
    keep them in 32 bits are theorems. *)
From S2P Require Import Prelude.

Record TileXRMoonEPPlanConfig := {
  prefetchSlots : Z; rankTokenCapacity : Z; nvS : Z; tokenPadding : Z;
  tokenRouteLimitPerPair : Z; cardsPerServer : Z; cardsPerCabinet : Z; crossCandidateCount : Z
}.

Inductive TileXRMoonEPPlanStatus : Set :=
| PLAN_OK
| PLAN_PARTIAL_NO_FEASIBLE_PAIR
| PLAN_PARTIAL_PREFETCH_SLOT_EXHAUSTED
| PLAN_PARTIAL_TOKEN_SUPPLY
| PLAN_ERROR_CONFIG_MISMATCH
| PLAN_ERROR_TPE_MISMATCH
| PLAN_ERROR_LAYOUT_EXCEEDS_NVS
| PLAN_ERROR_MOVE_RECORD_OVERFLOW
| PLAN_ERROR_INTERNAL_INVARIANT.

#[global] Instance plan_status_eq_dec : EqDecision TileXRMoonEPPlanStatus.
Proof. solve_decision. Defined.

(** The numeric value of a status, as written to the status words. *)
Definition status_code (s : TileXRMoonEPPlanStatus) : Z :=
  match s with
  | PLAN_OK => 0 | PLAN_PARTIAL_NO_FEASIBLE_PAIR => 1 | PLAN_PARTIAL_PREFETCH_SLOT_EXHAUSTED => 2
  | PLAN_PARTIAL_TOKEN_SUPPLY => 3 | PLAN_ERROR_CONFIG_MISMATCH => 4 | PLAN_ERROR_TPE_MISMATCH => 5
  | PLAN_ERROR_LAYOUT_EXCEEDS_NVS => 6 | PLAN_ERROR_MOVE_RECORD_OVERFLOW => 7
  | PLAN_ERROR_INTERNAL_INVARIANT => 8
  end.

Definition kPlanStatusWords : Z := 8.
Definition kPlanCardsPerServer : Z := 8.
Definition kPlanCardsPerCabinet : Z := 64.
Definition kPlanCrossCandidateCount : Z := 3.

Record TokenSegmentMove := {
  expertId : Z; srcRank : Z; dstRank : Z; srcExpertBegin : Z; dstExpertBegin : Z; tokenCount : Z
}.

Record PlanAlgorithmInput := {
  in_rank : Z; in_rankSize : Z; in_s : Z; in_topK : Z; in_expertNum : Z;
  in_config : TileXRMoonEPPlanConfig;
  topkExperts : Z -> Z; tokensPerExpert : Z -> Z; globalRankIds : Z -> Z
}.

(** What of the pointers and sizes of [PlanAlgorithmOutput] and [PlanAlgorithmWorkspace] the
    algorithm depends on: whether the mandatory pointers are set, whether the optional
    metadata outputs and the optional tables are, the two capacities, and the cached affinity
    rows when [affinityOrderValid]. *)
Record PlanAlgorithmWorkspace := {
  mandatoryPointers : bool; hasRemoteExperts : bool; hasExpertTargets : bool;
  hasRemoteExpertSet : bool; hasRoutedPairTokens : bool;
  tokenSegmentCapacity : Z; scratchCount : Z;
  affinityCache : option (Z -> list Z)
}.

Definition MinI32 (a b : Z) : Z := if a <? b then a else b.
Definition MaxI32 (a b : Z) : Z := if b <? a then a else b.
Definition ReIndex (r e expertNum : Z) : Z := r * expertNum + e.
Definition PairIndex (s d rankSize : Z) : Z := s * rankSize + d.
Definition HomeRank (e expertsPerRank : Z) : Z := e / expertsPerRank.

Lemma MinI32_min a b : MinI32 a b = Z.min a b.
Proof. unfold MinI32. destruct (Z.ltb_spec a b); lia. Qed.

Lemma MaxI32_max a b : MaxI32 a b = Z.max a b.
Proof. unfold MaxI32. destruct (Z.ltb_spec b a); lia. Qed.

(** Distinct cells of a table have distinct indices. *)
Lemma ReIndex_inj r e r' e' E : 0 <= e < E -> 0 <= e' < E ->
  ReIndex r e E = ReIndex r' e' E <-> r = r' /\ e = e'.
Proof.
  intros He He'. unfold ReIndex. split; [by apply mul_add_inj|]. by intros [-> ->].
Qed.

Lemma PairIndex_inj s d s' d' R : 0 <= d < R -> 0 <= d' < R ->
  PairIndex s d R = PairIndex s' d' R <-> s = s' /\ d = d'.
Proof. apply (ReIndex_inj s d s' d' R). Qed.

Lemma upd_cell f r e v r' e' E : 0 <= e < E -> 0 <= e' < E ->
  upd1 f (ReIndex r e E) v (ReIndex r' e' E) =
  if decide (r' = r /\ e' = e) then v else f (ReIndex r' e' E) :> Z.
Proof.
  intros He He'. case_decide as D.
  - destruct D as [-> ->]. apply upd1_eq.
  - apply upd1_ne. by rewrite ReIndex_inj.
Qed.
