(* ===== verification/PlanSort.v ===== *)
(** The in-place insertion sorts of the planner (src/src/moonep/planner_v2/common/
    ep_plan_algorithm_impl.h): [SortRanks], the rows of [BuildAffinity], the expert order of
    [ApplyExpertMove] and the remote rows of [BuildLayouts] all shift the greater entries of a
    sorted prefix to the right, from its end, and drop the new value into the gap. *)
From S2P Require Import Prelude PlanTypes.

(** The inner loop on the reversed prefix: entries that [value] beats move over. *)
Fixpoint shift_insert (better : Z -> Z -> bool) (value : Z) (rprefix : list Z) : list Z :=
  match rprefix with
  | [] => [value]
  | prior :: rest => if better value prior then prior :: shift_insert better value rest
                     else value :: prior :: rest
  end.

(** [row] with [value] inserted from the right end. *)
Definition insert_entry (better : Z -> Z -> bool) (row : list Z) (value : Z) : list Z :=
  rev (shift_insert better value (rev row)).

Definition insertion_sort (better : Z -> Z -> bool) (l : list Z) : list Z :=
  foldl (insert_entry better) [] l.

(** ** The orders *)

Definition rank_better (rankLoad globalRankIds : Z -> Z) (ascending : bool) (value rhs : Z) : bool :=
  let valueLoad := rankLoad value in
  let rhsLoad := rankLoad rhs in
  if negb (valueLoad =? rhsLoad)
  then (if ascending then valueLoad <? rhsLoad else rhsLoad <? valueLoad)
  else
    let valueGlobal := globalRankIds value in
    let rhsGlobal := globalRankIds rhs in
    if negb (valueGlobal =? rhsGlobal) then valueGlobal <? rhsGlobal else value <? rhs.

(** [None] is the [false] of the code: a bad count or an entry that is no rank. *)
Definition SortRanks (ranks : list Z) (rankLoad globalRankIds : Z -> Z) (rankSize : Z)
    (ascending : bool) : option (list Z) :=
  if rankSize <? Z.of_nat (length ranks) then None
  else if forallb (fun r => negb ((r <? 0) || (rankSize <=? r))) ranks
  then Some (insertion_sort (rank_better rankLoad globalRankIds ascending) ranks)
  else None.

Definition BetterAffinity (lhs rhs dst : Z) (globalRankIds : Z -> Z) : bool :=
  let did := u32 (globalRankIds dst) in
  let lid := u32 (globalRankIds lhs) in
  let rid := u32 (globalRankIds rhs) in
  let ld := Z.lxor lid did in
  let rd := Z.lxor rid did in
  if negb (ld =? rd) then ld <? rd
  else if negb (lid =? rid) then lid <? rid
  else lhs <? rhs.

(** One row of [affinityOrder] per destination. *)
Definition BuildAffinity (rankSize : Z) (globalRankIds : Z -> Z) (dst : Z) : list Z :=
  insertion_sort (fun value prior => BetterAffinity value prior dst globalRankIds)
    (seqZ 0 rankSize).

(** ** Correctness of the sort *)

(** A comparison that decides every pair of different values and is transitive. *)
Class TotalBetter (better : Z -> Z -> bool) : Prop := {
  better_flip x y : x <> y -> better x y = negb (better y x);
  better_trans x y z : x <> y -> y <> z -> better x y = true -> better y z = true ->
    better x z = true
}.

Definition sorted_by (better : Z -> Z -> bool) : list Z -> Prop :=
  StronglySorted (fun x y => better x y = true).

Lemma StronglySorted_rev {A} (R : A -> A -> Prop) l :
  StronglySorted R l -> StronglySorted (fun x y => R y x) (rev l).
Proof.
  induction 1 as [|x l Hl IH Hx]; [constructor|]. cbn. apply StronglySorted_app_2; [|done|repeat constructor].
  - intros y z Hy Hz. apply elem_of_cons in Hz as [->|Hz]; [|by inversion Hz].
    rewrite List.Forall_forall in Hx. apply Hx, in_rev, list_elem_of_In, Hy.
Qed.

Section sort.
Context (better : Z -> Z -> bool).

Lemma shift_insert_perm v l : shift_insert better v l ≡ₚ v :: l.
Proof.
  induction l as [|x l IH]; [done|]. cbn. destruct (better v x); [|done].
  rewrite IH. apply perm_swap.
Qed.

Lemma insert_entry_perm l v : insert_entry better l v ≡ₚ v :: l.
Proof.
  unfold insert_entry. rewrite <- Permutation_rev, shift_insert_perm, <- Permutation_rev. done.
Qed.

Lemma insertion_sort_perm l : insertion_sort better l ≡ₚ l.
Proof.
  unfold insertion_sort. assert (forall acc, foldl (insert_entry better) acc l ≡ₚ acc ++ l) as H.
  { induction l as [|x l IH]; intros acc; cbn; [by rewrite app_nil_r|].
    rewrite IH, insert_entry_perm. apply Permutation_middle. }
  apply H.
Qed.

Context `{!TotalBetter better}.

Lemma shift_insert_sorted v l : v ∉ l ->
  StronglySorted (fun x y => better y x = true) l ->
  StronglySorted (fun x y => better y x = true) (shift_insert better v l).
Proof.
  intros Hv Hl. induction Hl as [|x l Hl IH Hx]; [repeat constructor|].
  apply not_elem_of_cons in Hv as [Hvx Hv]. cbn. destruct (better v x) eqn:E.
  - constructor; [by apply IH|]. rewrite shift_insert_perm. by constructor.
  - constructor; [by constructor|]. rewrite better_flip in E by done. b2p.
    constructor; [done|]. apply List.Forall_forall. intros y Hy.
    rewrite List.Forall_forall in Hx. specialize (Hx y Hy).
    destruct (decide (y = x)) as [->|]; [done|]. by apply (better_trans y x v).
Qed.

Lemma insert_entry_sorted l v : v ∉ l -> sorted_by better l -> sorted_by better (insert_entry better l v).
Proof.
  intros Hv Hl. apply StronglySorted_rev in Hl. apply shift_insert_sorted with (v := v) in Hl.
  - by apply StronglySorted_rev in Hl.
  - by rewrite <- Permutation_rev.
Qed.

Lemma insertion_sort_sorted l : NoDup l -> sorted_by better (insertion_sort better l).
Proof.
  unfold insertion_sort.
  assert (forall acc, NoDup (acc ++ l) -> sorted_by better acc ->
    sorted_by better (foldl (insert_entry better) acc l)) as H; [|intros; apply H; [done|constructor]].
  induction l as [|x l IH]; intros acc Hnd Hs; cbn; [done|].
  rewrite <- Permutation_middle in Hnd. apply IH.
  - by rewrite insert_entry_perm.
  - apply insert_entry_sorted; [|done]. apply NoDup_cons in Hnd as [Hx _].
    intros Hin. apply Hx, elem_of_app. by left.
Qed.
End sort.

#[global] Instance rank_better_total load ids asc : TotalBetter (rank_better load ids asc).
Proof.
  split; intros *; unfold rank_better; cbv zeta.
  - rewrite (Z.eqb_sym (load y)), (Z.eqb_sym (ids y)). intros Hne.
    destruct (Z.eqb_spec (load x) (load y)); cbn; [|destruct asc; lia].
    destruct (Z.eqb_spec (ids x) (ids y)); cbn; lia.
  - intros ? ?. destruct (Z.eqb_spec (load x) (load y)), (Z.eqb_spec (load y) (load z)),
      (Z.eqb_spec (load x) (load z)); cbn; try lia;
      destruct (Z.eqb_spec (ids x) (ids y)), (Z.eqb_spec (ids y) (ids z)),
      (Z.eqb_spec (ids x) (ids z)); cbn; destruct asc; lia.
Qed.

#[global] Instance BetterAffinity_total ids dst :
  TotalBetter (fun x y => BetterAffinity x y dst ids).
Proof.
  split; intros *; unfold BetterAffinity; cbv zeta;
    set (lx := Z.lxor (u32 (ids x)) _); set (ly := Z.lxor (u32 (ids y)) _).
  - rewrite (Z.eqb_sym ly), (Z.eqb_sym (u32 (ids y))). intros Hne.
    destruct (Z.eqb_spec lx ly); cbn; [|lia].
    destruct (Z.eqb_spec (u32 (ids x)) (u32 (ids y))); cbn; lia.
  - set (lz := Z.lxor (u32 (ids z)) _).
    intros ? ?. destruct (Z.eqb_spec lx ly), (Z.eqb_spec ly lz), (Z.eqb_spec lx lz); cbn; try lia;
      destruct (Z.eqb_spec (u32 (ids x)) (u32 (ids y))), (Z.eqb_spec (u32 (ids y)) (u32 (ids z))),
      (Z.eqb_spec (u32 (ids x)) (u32 (ids z))); cbn; lia.
Qed.

Lemma sort_ranks_some ranks load ids R asc :
  Z.of_nat (length ranks) <= R -> (forall r, r ∈ ranks -> 0 <= r < R) ->
  SortRanks ranks load ids R asc = Some (insertion_sort (rank_better load ids asc) ranks).
Proof.
  intros Hlen Hr. unfold SortRanks. rewrite (proj2 (Z.ltb_ge _ _)) by lia.
  replace (forallb _ ranks) with true; [done|]. symmetry. apply List.forallb_forall.
  intros r Hin. apply list_elem_of_In, Hr in Hin. lia.
Qed.

Lemma sort_ranks_inv ranks load ids R asc out : SortRanks ranks load ids R asc = Some out ->
  out = insertion_sort (rank_better load ids asc) ranks.
Proof. unfold SortRanks. intros E. repeat (case_if_in E; try done). congruence. Qed.

(** [SortRanks] accepts exactly the lists of at most [rankSize] valid ranks, and turns a
    list of distinct ranks into a permutation of it that is strictly ordered by load, then by
    global rank id, then by rank. *)
Theorem plan_sort_ranks ranks load ids R asc :
  NoDup ranks ->
  (is_Some (SortRanks ranks load ids R asc) <->
     Z.of_nat (length ranks) <= R /\ forall r, r ∈ ranks -> 0 <= r < R) /\
  (forall out, SortRanks ranks load ids R asc = Some out ->
     out ≡ₚ ranks /\ sorted_by (rank_better load ids asc) out).
Proof.
  intros Hnd. split; [split|].
  - intros [out E]. unfold SortRanks in E. case_if_in E; [done|]. case_if_in E; [|done]. b2p.
    split; [lia|]. intros r Hr%list_elem_of_In. rewrite List.forallb_forall in E1.
    specialize (E1 r Hr). b2p. lia.
  - intros [H1 H2]. rewrite sort_ranks_some by done. by eexists.
  - intros out ->%sort_ranks_inv.
    split; [apply insertion_sort_perm|by apply insertion_sort_sorted; [apply _|]].
Qed.

Lemma plan_sort_ranks_witness :
  SortRanks [2; 0; 1] (fun r => 10 - r mod 2) (fun r => r) 3 false = Some [0; 2; 1] /\
  sorted_by (rank_better (fun r => 10 - r mod 2) (fun r => r) false) [0; 2; 1].
Proof.
  split; [reflexivity|].
  apply (plan_sort_ranks [2; 0; 1] (fun r => 10 - r mod 2) (fun r => r) 3 false); [|reflexivity].
  apply (bool_decide_unpack _). reflexivity.
Defined.

Lemma affinity_perm R ids dst : BuildAffinity R ids dst ≡ₚ seqZ 0 R.
Proof. apply insertion_sort_perm. Qed.

(** Every affinity row is a permutation of all the ranks in which the distance
    [globalRankId xor own globalRankId] never decreases, ties being broken by global rank id
    and rank; with distinct ids each row starts with its own rank. *)
Theorem plan_affinity_rows R ids dst :
  0 <= dst < R -> (forall r, 0 <= r < R -> 0 <= ids r <= INT32_MAX) ->
  (forall r r', 0 <= r < R -> 0 <= r' < R -> ids r = ids r' -> r = r') ->
  let row := BuildAffinity R ids dst in
  row ≡ₚ seqZ 0 R /\ hd_error row = Some dst /\
  StronglySorted (fun x y => Z.lxor (ids x) (ids dst) <= Z.lxor (ids y) (ids dst)) row.
Proof.
  intros Hd Hids Hinj row. pose proof (affinity_perm R ids dst) as Hp. fold row in Hp.
  assert (forall r, r ∈ row -> 0 <= r < R) as Hr by (intros r; by rewrite Hp, elem_of_seqZ0).
  assert (forall r, r ∈ row -> u32 (ids r) = ids r) as Hu.
  { intros r H. apply u32_small. specialize (Hids r (Hr r H)). unfold INT32_MAX in Hids. lia. }
  assert (sorted_by (fun v p => BetterAffinity v p dst ids) row) as Hs
    by (apply insertion_sort_sorted; [apply _|apply NoDup_seqZ]).
  assert (dst ∈ row) as Hdst by (by rewrite Hp, elem_of_seqZ0).
  assert (forall x y, x ∈ row -> y ∈ row -> BetterAffinity x y dst ids = true ->
    Z.lxor (ids x) (ids dst) <= Z.lxor (ids y) (ids dst)) as Hle.
  { intros x y Hx Hy. unfold BetterAffinity. cbv zeta. rewrite (Hu x), (Hu y), (Hu dst) by done.
    destruct (Z.eqb_spec (Z.lxor (ids x) (ids dst)) (Z.lxor (ids y) (ids dst))); cbn; lia. }
  split; [done|]. split.
  - destruct row as [|x row']; [by inversion Hdst|]. cbn. f_equal.
    apply elem_of_cons in Hdst as [->|Hin]; [done|]. exfalso.
    inversion Hs as [|? ? _ Hf]; subst. rewrite List.Forall_forall in Hf.
    specialize (Hf dst (proj1 (list_elem_of_In _ _) Hin)). apply Hle in Hf; [|by left|by right].
    rewrite Z.lxor_nilpotent in Hf. assert (0 <= ids x <= INT32_MAX) by (apply Hids, Hr; by left).
    assert (0 <= Z.lxor (ids x) (ids dst)) by (apply Z.lxor_nonneg; specialize (Hids dst Hd); lia).
    assert (Z.lxor (ids x) (ids dst) = 0) as E%Z.lxor_eq by lia.
    apply Hinj in E; [|apply Hr; by left|done]. subst x.
    assert (NoDup (dst :: row')) as Hnd by (rewrite Hp; apply NoDup_seqZ).
    apply NoDup_cons in Hnd as [Hnd _]. done.
  - clear Hdst. clearbody row. clear Hp. induction Hs as [|x l Hs IH Hf]; [constructor|].
    constructor; [apply IH; intros; first [apply Hr|apply Hu|apply Hle]; try done; by right|].
    rewrite List.Forall_forall in Hf |- *. intros y Hy. apply Hle; [by left|right; by apply list_elem_of_In|].
    by apply Hf.
Qed.

Lemma plan_affinity_rows_witness :
  hd_error (BuildAffinity 4 (fun r => 8 * r + 3) 2) = Some 2.
Proof.
  apply (plan_affinity_rows 4 (fun r => 8 * r + 3) 2); unfold INT32_MAX; lia.
Defined.
