(* ===== verification/PlanAlgorithm.v ===== *)
(** The MoonEP planner, from src/src/moonep/planner_v2/common/ep_plan_algorithm_impl.h, the one
    algorithm that the host library and the device kernel share: validation of the input,
    balancing of the rank loads by moving expert tokens inside a server ([RunIntra]) and
    between servers ([RunInter]), the segment records, the receive layouts and the
    destination of every route. *)
From S2P Require Import Prelude PlanTypes PlanSort.

(** ** Validation *)

Definition expertsPerRank (inp : PlanAlgorithmInput) : Z := in_expertNum inp / in_rankSize inp.
Definition cap_ (inp : PlanAlgorithmInput) : Z := rankTokenCapacity (in_config inp).
Definition b_ (inp : PlanAlgorithmInput) : Z := prefetchSlots (in_config inp).
Definition routeLimit (inp : PlanAlgorithmInput) : Z := tokenRouteLimitPerPair (in_config inp).

(** [expertCount] after the counting loop, or the rejection of a bad expert id. *)
Definition count_experts (inp : PlanAlgorithmInput) (cap : Z)
    : (Z -> Z) + TileXRMoonEPPlanStatus :=
  loop_ret (fun route count =>
      let e := topkExperts inp route in
      if (e <? 0) || (in_expertNum inp <=? e) then inr PLAN_ERROR_CONFIG_MISMATCH
      else inl (upd1 count e (count e + 1)))
    (seqZ 0 cap) (fun _ => 0).

Definition duplicate_rank_ids (inp : PlanAlgorithmInput) : bool :=
  existsb (fun lhs => (globalRankIds inp lhs <? 0) ||
      existsb (fun rhs => globalRankIds inp lhs =? globalRankIds inp rhs) (seqZ 0 lhs))
    (seqZ 0 (in_rankSize inp)).

Definition check_tokens_per_expert (inp : PlanAlgorithmInput) (cap : Z) (count : Z -> Z)
    : unit + TileXRMoonEPPlanStatus :=
  loop_ret (fun src (_ : unit) =>
      match loop_ret (fun e sum =>
          let value := tokensPerExpert inp (ReIndex src e (in_expertNum inp)) in
          if value <? 0 then inr PLAN_ERROR_CONFIG_MISMATCH
          else if (src =? in_rank inp) && negb (value =? count e) then inr PLAN_ERROR_TPE_MISMATCH
          else inl (sum + value))
        (seqZ 0 (in_expertNum inp)) 0 with
      | inl sum => if sum =? cap then inl tt else inr PLAN_ERROR_TPE_MISMATCH
      | inr status => inr status
      end)
    (seqZ 0 (in_rankSize inp)) tt.

Definition Validate (inp : PlanAlgorithmInput) (ws : PlanAlgorithmWorkspace)
    : TileXRMoonEPPlanStatus :=
  let c := in_config inp in
  if (in_rankSize inp <=? 0) || (128 <? in_rankSize inp) || (in_rank inp <? 0) ||
     (in_rankSize inp <=? in_rank inp) || (in_s inp <=? 0) || (in_topK inp <=? 0) ||
     (32 <? in_topK inp) || (in_expertNum inp <=? 0) || (INT32_MAX <? in_expertNum inp) ||
     negb (in_expertNum inp mod in_rankSize inp =? 0) || negb (mandatoryPointers ws) ||
     negb (Bool.eqb (hasRemoteExperts ws) (hasExpertTargets ws)) ||
     (scratchCount ws <? in_rankSize inp * 16) || (INT32_MAX / in_topK inp <? in_s inp)
  then PLAN_ERROR_CONFIG_MISMATCH
  else
    let cap := in_s inp * in_topK inp in
    if negb (rankTokenCapacity c =? cap) || (prefetchSlots c <=? 0) ||
       (INT32_MAX <? prefetchSlots c) || (nvS c <? cap) || (INT32_MAX <? nvS c) ||
       (tokenPadding c <=? 0) || (tokenRouteLimitPerPair c <? 0) ||
       (cap <? tokenRouteLimitPerPair c) || negb (cardsPerServer c =? kPlanCardsPerServer) ||
       negb (cardsPerCabinet c =? kPlanCardsPerCabinet) ||
       negb (crossCandidateCount c =? kPlanCrossCandidateCount) ||
       (INT32_MAX <? in_rankSize inp * nvS c) || (tokenSegmentCapacity ws <? 0) ||
       ((0 <? prefetchSlots c) && negb (hasRemoteExpertSet ws)) ||
       (negb (tokenRouteLimitPerPair c =? 0) && negb (hasRoutedPairTokens ws))
    then PLAN_ERROR_CONFIG_MISMATCH
    else if duplicate_rank_ids inp then PLAN_ERROR_CONFIG_MISMATCH
    else match count_experts inp cap with
    | inr status => status
    | inl count =>
        match check_tokens_per_expert inp cap count with
        | inr status => status
        | inl _ => PLAN_OK
        end
    end.

(** ** State *)

(** The tables and counters of [State] and of the workspace that the balancing uses.
    [slotCount] is [scratch[0 .. rankSize)]. [segLog] is not in the code: it lists the segments
    of all the sources, of which [globalSegments] is the number and [tokenSegments] the part
    whose source is this rank. *)
Record PState := {
  rankLoad : Z -> Z; slotCount : Z -> Z; remainingTpe : Z -> Z; alloc : Z -> Z;
  srcExpertCursor : Z -> Z; dstExpertCursor : Z -> Z; remoteExpertSet : Z -> Z;
  routedPairTokens : Z -> Z;
  tokenSegments : list TokenSegmentMove; segLog : list TokenSegmentMove;
  expertMoves : Z; intraRounds : Z; interRounds : Z;
  slotBlock : bool; supplyBlock : bool; pairBlock : bool;
  fatal : TileXRMoonEPPlanStatus
}.

Definition localSegments (s : PState) : Z := Z.of_nat (length (tokenSegments s)).
Definition globalSegments (s : PState) : Z := Z.of_nat (length (segLog s)).

Definition with_segments (s : PState) (segs log : list TokenSegmentMove)
    (f : TileXRMoonEPPlanStatus) : PState :=
  {| rankLoad := rankLoad s; slotCount := slotCount s; remainingTpe := remainingTpe s;
     alloc := alloc s; srcExpertCursor := srcExpertCursor s; dstExpertCursor := dstExpertCursor s;
     remoteExpertSet := remoteExpertSet s; routedPairTokens := routedPairTokens s;
     tokenSegments := segs; segLog := log; expertMoves := expertMoves s;
     intraRounds := intraRounds s; interRounds := interRounds s; slotBlock := slotBlock s;
     supplyBlock := supplyBlock s; pairBlock := pairBlock s; fatal := f |}.

Definition with_tokens (s : PState) (remaining srcCur dstCur routed : Z -> Z) : PState :=
  {| rankLoad := rankLoad s; slotCount := slotCount s; remainingTpe := remaining;
     alloc := alloc s; srcExpertCursor := srcCur; dstExpertCursor := dstCur;
     remoteExpertSet := remoteExpertSet s; routedPairTokens := routed;
     tokenSegments := tokenSegments s; segLog := segLog s; expertMoves := expertMoves s;
     intraRounds := intraRounds s; interRounds := interRounds s; slotBlock := slotBlock s;
     supplyBlock := supplyBlock s; pairBlock := pairBlock s; fatal := fatal s |}.

Definition with_move (s : PState) (load slots al remote : Z -> Z) : PState :=
  {| rankLoad := load; slotCount := slots; remainingTpe := remainingTpe s;
     alloc := al; srcExpertCursor := srcExpertCursor s; dstExpertCursor := dstExpertCursor s;
     remoteExpertSet := remote; routedPairTokens := routedPairTokens s;
     tokenSegments := tokenSegments s; segLog := segLog s; expertMoves := expertMoves s + 1;
     intraRounds := intraRounds s; interRounds := interRounds s; slotBlock := slotBlock s;
     supplyBlock := supplyBlock s; pairBlock := pairBlock s; fatal := fatal s |}.

Definition with_flags (s : PState) (slotB supplyB pairB : bool) (intra inter : Z)
    (f : TileXRMoonEPPlanStatus) : PState :=
  {| rankLoad := rankLoad s; slotCount := slotCount s; remainingTpe := remainingTpe s;
     alloc := alloc s; srcExpertCursor := srcExpertCursor s; dstExpertCursor := dstExpertCursor s;
     remoteExpertSet := remoteExpertSet s; routedPairTokens := routedPairTokens s;
     tokenSegments := tokenSegments s; segLog := segLog s; expertMoves := expertMoves s;
     intraRounds := intra; interRounds := inter; slotBlock := slotB;
     supplyBlock := supplyB; pairBlock := pairB; fatal := f |}.

Definition set_slotBlock (s : PState) : PState :=
  with_flags s true (supplyBlock s) (pairBlock s) (intraRounds s) (interRounds s) (fatal s).
Definition set_supplyBlock (s : PState) : PState :=
  with_flags s (slotBlock s) true (pairBlock s) (intraRounds s) (interRounds s) (fatal s).
Definition set_pairBlock (s : PState) : PState :=
  with_flags s (slotBlock s) (supplyBlock s) true (intraRounds s) (interRounds s) (fatal s).
Definition count_intraRound (s : PState) : PState :=
  with_flags s (slotBlock s) (supplyBlock s) (pairBlock s) (intraRounds s + 1) (interRounds s)
    (fatal s).
Definition count_interRound (s : PState) : PState :=
  with_flags s (slotBlock s) (supplyBlock s) (pairBlock s) (intraRounds s) (interRounds s + 1)
    (fatal s).
Definition set_fatal (s : PState) (f : TileXRMoonEPPlanStatus) : PState :=
  with_flags s (slotBlock s) (supplyBlock s) (pairBlock s) (intraRounds s) (interRounds s) f.

(** ** Moving tokens of an expert *)

Section algorithm.
Context (inp : PlanAlgorithmInput) (ws : PlanAlgorithmWorkspace) (affinityOrder : Z -> list Z).

Definition AppendSegment (s : PState) (expert src dst srcBegin dstBegin count : Z)
    : PState * bool :=
  let m := {| expertId := expert; srcRank := src; dstRank := dst; srcExpertBegin := srcBegin;
              dstExpertBegin := dstBegin; tokenCount := count |} in
  if negb (src =? in_rank inp) then
    (with_segments s (tokenSegments s) (segLog s ++ [m]) (fatal s), true)
  else if tokenSegmentCapacity ws <=? localSegments s then
    (with_segments s (tokenSegments s) (segLog s ++ [m]) PLAN_ERROR_MOVE_RECORD_OVERFLOW, false)
  else (with_segments s (tokenSegments s ++ [m]) (segLog s ++ [m]) (fatal s), true).

Definition FindRemote (s : PState) (dst expert : Z) : Z :=
  found (-1) (loop_ret (fun slot (_ : unit) =>
      if remoteExpertSet s (dst * b_ inp + slot) =? expert then inr slot else inl tt)
    (seqZ 0 (slotCount s dst)) tt).

(** One source rank of the affinity loop: [(state, expertDemand, actual)]. *)
Definition take_source (expert dst src : Z) (acc : PState * Z * Z) : (PState * Z * Z) + PState :=
  let '(s, expertDemand, actual) := acc in
  if expertDemand <=? 0 then inl acc
  else
    let re := ReIndex src expert (in_expertNum inp) in
    let pi := PairIndex src dst (in_rankSize inp) in
    let pairRemain :=
      if negb (routeLimit inp =? 0)
      then let r := routeLimit inp - routedPairTokens s pi in if r <? 0 then 0 else r
      else expertDemand in
    let take := MinI32 (MinI32 (remainingTpe s re) expertDemand) pairRemain in
    if take <=? 0 then inl acc
    else
      let dstRe := ReIndex dst expert (in_expertNum inp) in
      match AppendSegment s expert src dst (srcExpertCursor s re) (dstExpertCursor s dstRe) take with
      | (s1, false) => inr s1
      | (s1, true) =>
          inl (with_tokens s1 (upd1 (remainingTpe s1) re (remainingTpe s1 re - take))
                 (upd1 (srcExpertCursor s1) re (srcExpertCursor s1 re + take))
                 (upd1 (dstExpertCursor s1) dstRe (dstExpertCursor s1 dstRe + take))
                 (if negb (routeLimit inp =? 0)
                  then upd1 (routedPairTokens s1) pi (routedPairTokens s1 pi + take)
                  else routedPairTokens s1),
               expertDemand - take, actual + take)
      end.

(** The commit of what the affinity loop moved, at the end of an expert's iteration. *)
Definition commit_move (s : PState) (home dst expert actual : Z) (alreadyRemote : bool) : PState :=
  if 0 <? actual then
    let homeIndex := ReIndex home expert (in_expertNum inp) in
    let dstIndex := ReIndex dst expert (in_expertNum inp) in
    let al := upd1 (alloc s) homeIndex (alloc s homeIndex - actual) in
    let load := upd1 (rankLoad s) home (rankLoad s home - actual) in
    with_move s (upd1 load dst (load dst + actual))
      (if alreadyRemote then slotCount s else upd1 (slotCount s) dst (slotCount s dst + 1))
      (upd1 al dstIndex (al dstIndex + actual))
      (if alreadyRemote then remoteExpertSet s
       else upd1 (remoteExpertSet s) (dst * b_ inp + slotCount s dst) expert)
  else s.

(** The reason recorded when an expert's demand was not met. *)
Definition note_block (s : PState) (dst expert : Z) : PState :=
  let '(supply, routeBlocked) :=
    foldl (fun acc src =>
        let re := ReIndex src expert (in_expertNum inp) in
        (fst acc + remainingTpe s re,
         snd acc || (negb (routeLimit inp =? 0) && (0 <? remainingTpe s re) &&
           (routeLimit inp <=? routedPairTokens s (PairIndex src dst (in_rankSize inp))))))
      (0, false) (seqZ 0 (in_rankSize inp)) in
  if routeBlocked then set_pairBlock s else if supply =? 0 then set_supplyBlock s else s.

Definition move_expert (home dst expert : Z) (acc : PState * Z * bool)
    : (PState * Z * bool) + PState :=
  let '(s, demand, fnd) := acc in
  if demand <=? 0 then inl acc
  else
    let availableAlloc := alloc s (ReIndex home expert (in_expertNum inp)) in
    if availableAlloc <=? 0 then inl acc
    else
      let alreadyRemote := 0 <=? FindRemote s dst expert in
      if negb alreadyRemote && (b_ inp <=? slotCount s dst) then inl (set_slotBlock s, demand, fnd)
      else
        let expertRequest := MinI32 availableAlloc demand in
        match loop_ret (take_source expert dst) (affinityOrder dst) (s, expertRequest, 0) with
        | inr s1 => inr s1
        | inl (s1, expertDemand, actual) =>
            let s2 := commit_move s1 home dst expert actual alreadyRemote in
            let s3 := if 0 <? expertDemand then note_block s2 dst expert else s2 in
            inl (s3, (if 0 <? actual then demand - actual else demand), true)
        end.

(** The experts of [home] that still hold tokens there, most loaded first. *)
Definition expert_better (s : PState) (home value prior : Z) : bool :=
  let valueAlloc := alloc s (ReIndex home value (in_expertNum inp)) in
  let priorAlloc := alloc s (ReIndex home prior (in_expertNum inp)) in
  negb ((valueAlloc <? priorAlloc) || ((valueAlloc =? priorAlloc) && (prior <? value))).

Definition expert_order (s : PState) (home : Z) : list Z :=
  insertion_sort (expert_better s home)
    (List.filter (fun e => 0 <? alloc s (ReIndex home e (in_expertNum inp)))
       (seqZ (home * expertsPerRank inp) (expertsPerRank inp))).

Definition ApplyExpertMove (s : PState) (home dst requested : Z) : PState * Z :=
  if (requested <=? 0) || (home =? dst) || negb (bool_decide (fatal s = PLAN_OK)) then (s, 0)
  else
    match loop_ret (move_expert home dst) (expert_order s home) (s, requested, false) with
    | inr s1 => (s1, 0)
    | inl (s1, demand, fnd) =>
        (if (0 <? demand) && negb fnd then set_pairBlock s1 else s1, requested - demand)
    end.

(** ** Balancing inside a server *)

Definition rank_at (l : list Z) (i : Z) : Z := nth (Z.to_nat i) l 0.

Fixpoint find_middle (s : PState) (active : list Z) (middle : nat) : nat :=
  match middle with
  | O => O
  | S m => if rankLoad s (nth m active 0) + rankLoad s (nth (S m) active 0) <=? cap_ inp
           then find_middle s active m else S m
  end.

(** The paired moves of a round: [(state, actualRound)], or the return on a fatal status. *)
Definition intra_pairs (s : PState) (pairs : list (Z * Z)) : (PState * Z) + PState :=
  loop_ret (fun p acc =>
      let '(s, actualRound) := acc in
      let requested := MinI32 (rankLoad s (fst p) - cap_ inp) (cap_ inp - rankLoad s (snd p)) in
      let '(s1, moved) :=
        if 0 <? requested then ApplyExpertMove s (fst p) (snd p) requested else (s, 0) in
      if bool_decide (fatal s1 = PLAN_OK) then inl (s1, actualRound + moved) else inr s1)
    pairs (s, 0).

(** What a round of a balancing loop says: go on, or leave the loop. *)
Inductive round_result : Type :=
| Continue (s : PState)
| Break (s : PState).

Definition server_key (r : Z) : Z := globalRankIds inp r / kPlanCardsPerServer.

Definition intra_round (s : PState) (serverKey : Z) : round_result :=
  let candidates := List.filter
    (fun r => (server_key r =? serverKey) && negb (rankLoad s r =? cap_ inp))
    (seqZ 0 (in_rankSize inp)) in
  match SortRanks candidates (rankLoad s) (globalRankIds inp) (in_rankSize inp) false with
  | None => Break (set_fatal s PLAN_ERROR_INTERNAL_INVARIANT)
  | Some active =>
      let activeCount := length active in
      if (activeCount <? 2)%nat ||
         (rankLoad s (nth 0 active 0) + rankLoad s (nth 1 active 0) <? cap_ inp) ||
         (cap_ inp <? rankLoad s (nth (activeCount - 1) active 0))
      then Break s
      else
        let middle := find_middle s active (activeCount / 2)%nat in
        if (middle =? 0)%nat then Break s
        else
          let senders := List.filter (fun r => cap_ inp <? rankLoad s r) (rev (take middle active)) in
          let receivers := List.filter (fun r => rankLoad s r <? cap_ inp) (drop middle active) in
          match intra_pairs s (zip senders receivers) with
          | inr s1 => Break s1
          | inl (s1, actualRound) =>
              if actualRound =? 0 then Break (set_pairBlock s1) else Continue (count_intraRound s1)
          end
  end.

(** [while (true)] with fuel; [None] when the fuel runs out. *)
Fixpoint iterate_rounds (round : PState -> round_result) (fuel : nat) (s : PState) : option PState :=
  match fuel with
  | O => None
  | S fuel' => match round s with
               | Break s' => Some s'
               | Continue s' => iterate_rounds round fuel' s'
               end
  end.

(** The next server key above [previousKey]; [INT_MAX] when there is none. *)
Definition next_server_key (previousKey : Z) : Z :=
  foldl (fun serverKey r =>
      let key := server_key r in
      if (previousKey <? key) && (key <? serverKey) then key else serverKey)
    INT32_MAX (seqZ 0 (in_rankSize inp)).

Fixpoint intra_servers (roundFuel fuel : nat) (previousKey : Z) (s : PState) : option PState :=
  match fuel with
  | O => None
  | S fuel' =>
      let serverKey := next_server_key previousKey in
      if serverKey =? INT32_MAX then Some s
      else
        match iterate_rounds (fun s => intra_round s serverKey) roundFuel s with
        | None => None
        | Some s1 => if bool_decide (fatal s1 = PLAN_OK)
                     then intra_servers roundFuel fuel' serverKey s1 else Some s1
        end
  end.

Definition RunIntra (roundFuel : nat) (s : PState) : option PState :=
  intra_servers roundFuel (S (Z.to_nat (in_rankSize inp))) INT32_MIN s.

(** ** Balancing between servers *)

Definition RankInList (rank : Z) (l : list Z) : bool := existsb (fun x => x =? rank) l.

(** The candidate loop of one receiver: [(state, occupied, actual)]. *)
Fixpoint inter_candidates (s : PState) (dst : Z) (senders : list Z) (occupied : Z -> bool)
    (l : list Z) (staticCandidates : Z) : PState * (Z -> bool) * Z :=
  match l with
  | [] => (s, occupied, 0)
  | src :: l' =>
      if negb (staticCandidates <? kPlanCrossCandidateCount) then (s, occupied, 0)
      else if negb (RankInList src senders)
      then inter_candidates s dst senders occupied l' staticCandidates
      else if occupied src then inter_candidates s dst senders occupied l' (staticCandidates + 1)
      else
        let requested := MinI32 (rankLoad s src - cap_ inp) (cap_ inp - rankLoad s dst) in
        if requested <=? 0 then inter_candidates s dst senders occupied l' (staticCandidates + 1)
        else
          let '(s1, actual) := ApplyExpertMove s src dst requested in
          if negb (bool_decide (fatal s1 = PLAN_OK)) then (s1, occupied, 0)
          else if 0 <? actual then (s1, upd1 occupied src true, actual)
          else inter_candidates s1 dst senders occupied l' (staticCandidates + 1)
  end.

Definition inter_receivers (s : PState) (senders receivers : list Z)
    : (PState * (Z -> bool) * Z) + PState :=
  loop_ret (fun dst acc =>
      let '(s, occupied, actualRound) := acc in
      let '(s1, occupied1, actual) :=
        inter_candidates s dst senders occupied (affinityOrder dst) 0 in
      if bool_decide (fatal s1 = PLAN_OK) then inl (s1, occupied1, actualRound + actual)
      else inr s1)
    receivers (s, fun _ => false, 0).

Definition inter_round (s : PState) : round_result :=
  let candidates := List.filter (fun r => negb (rankLoad s r =? cap_ inp))
    (seqZ 0 (in_rankSize inp)) in
  let activeCount := Z.of_nat (length candidates) in
  let underloaded := Z.of_nat (length
    (List.filter (fun r => rankLoad s r <? cap_ inp) candidates)) in
  if (activeCount <? 2) || (underloaded =? 0) || (underloaded =? activeCount) then Break s
  else match SortRanks candidates (rankLoad s) (globalRankIds inp) (in_rankSize inp) false with
  | None => Break (set_fatal s PLAN_ERROR_INTERNAL_INVARIANT)
  | Some active =>
      let receiverCount := MinI32 underloaded (activeCount / 2) in
      if receiverCount <=? 0 then Break s
      else
        let senderCount := activeCount - receiverCount in
        let senders := take (Z.to_nat senderCount) active in
        match SortRanks (drop (Z.to_nat senderCount) active) (rankLoad s) (globalRankIds inp)
                (in_rankSize inp) true with
        | None => Break (set_fatal s PLAN_ERROR_INTERNAL_INVARIANT)
        | Some receivers =>
            match inter_receivers s senders receivers with
            | inr s1 => Break s1
            | inl (s1, _, actualRound) =>
                if actualRound =? 0 then Break (set_pairBlock s1)
                else Continue (count_interRound s1)
            end
        end
  end.

Definition RunInter (roundFuel : nat) (s : PState) : option PState :=
  iterate_rounds inter_round roundFuel s.

(** ** What stays at home *)

Definition append_remainder (expert src : Z) (s : PState) : PState + PState :=
  let dst := HomeRank expert (expertsPerRank inp) in
  let re := ReIndex src expert (in_expertNum inp) in
  let count := remainingTpe s re in
  if count <=? 0 then inl s
  else
    let dstRe := ReIndex dst expert (in_expertNum inp) in
    match AppendSegment s expert src dst (srcExpertCursor s re) (dstExpertCursor s dstRe) count with
    | (s1, false) => inr s1
    | (s1, true) =>
        inl (with_tokens s1 (upd1 (remainingTpe s1) re 0)
               (upd1 (srcExpertCursor s1) re (srcExpertCursor s1 re + count))
               (upd1 (dstExpertCursor s1) dstRe (dstExpertCursor s1 dstRe + count))
               (routedPairTokens s1))
    end.

Definition AppendRemainders (s : PState) : PState :=
  match loop_ret (fun expert s => loop_ret (append_remainder expert) (seqZ 0 (in_rankSize inp)) s)
          (seqZ 0 (in_expertNum inp)) s with
  | inl s' => s' | inr s' => s'
  end.
End algorithm.
