(* ===== verification/PlanOutput.v ===== *)
(** The second half of the planner (src/src/moonep/planner_v2/common/ep_plan_algorithm_impl.h):
    the receive layouts of all the ranks ([BuildLayouts]), the destination of every local route
    ([BuildDst]), the status words and the whole run ([RunPlanAlgorithm]). *)
From S2P Require Import Prelude PlanTypes PlanSort PlanAlgorithm.

Record Outputs := {
  out_dst : Z -> Z; cuSeqlens : Z -> Z; expertsToCopy : Z -> Z;
  remoteExperts : Z -> Z; expertTargets : Z -> Z;
  remoteStats0 : Z; remoteStats1 : Z
}.

(** The layout under construction: the rows of [remoteExpertSet], the outputs, the physical
    base of every (rank, expert) and the two results returned by reference. *)
Record Layout := {
  rows : Z -> list Z; outs : Outputs; expertPhysicalBase : Z -> Z;
  maxRemote : Z; localEnd : Z
}.

Definition empty_outputs : Outputs :=
  {| out_dst := fun _ => 0; cuSeqlens := fun _ => 0; expertsToCopy := fun _ => -1;
     remoteExperts := fun _ => -1; expertTargets := fun _ => 0;
     remoteStats0 := 0; remoteStats1 := 0 |}.

Definition empty_layout : Layout :=
  {| rows := fun _ => []; outs := empty_outputs; expertPhysicalBase := fun _ => 0;
     maxRemote := 0; localEnd := 0 |}.

(** Slot [slot] of a row; the slots behind its entries hold [-1]. *)
Definition row_at (row : list Z) (slot : Z) : Z := nth (Z.to_nat slot) row (-1).

(** [expertTargets[localExpert * targetWords + dst / 64] |= 1ULL << (dst % 64)]. *)
Definition mark_target (words : Z) (targets : Z -> Z) (localExpert dst : Z) : Z -> Z :=
  let w := localExpert * words + dst / 64 in
  upd1 targets w (Z.lor (targets w) (Z.shiftl 1 (dst mod 64))).

Section output.
Context (inp : PlanAlgorithmInput) (ws : PlanAlgorithmWorkspace).

Definition BetterRemote (s : PState) (dst lhs rhs : Z) : bool :=
  let la := alloc s (ReIndex dst lhs (in_expertNum inp)) in
  let ra := alloc s (ReIndex dst rhs (in_expertNum inp)) in
  if negb (la =? ra) then ra <? la else lhs <? rhs.

(** [None] is [ok = false]. *)
Definition AlignCount (value alignment : Z) : option Z :=
  if (0 <? value) && (INT32_MAX <? alignment) then None
  else
    let aligned := ((value + alignment - 1) / alignment) * alignment in
    if INT32_MAX <? aligned then None else Some aligned.

(** The remote experts of one destination, most tokens first. *)
Definition remote_row (s : PState) (dst : Z) : list Z + TileXRMoonEPPlanStatus :=
  loop_ret (fun expert row =>
      if (HomeRank expert (expertsPerRank inp) =? dst) ||
         (alloc s (ReIndex dst expert (in_expertNum inp)) <=? 0) then inl row
      else if b_ inp <=? Z.of_nat (length row) then inr PLAN_PARTIAL_PREFETCH_SLOT_EXHAUSTED
      else inl (insert_entry (BetterRemote s dst) row expert))
    (seqZ 0 (in_expertNum inp)) [].

Definition targetWords : Z := (in_rankSize inp + 63) / 64.

(** The metadata outputs of one destination row, slot by slot. *)
Definition publish_row (dst : Z) (row : list Z) (o : Outputs) : Outputs :=
  foldl (fun o slot =>
      let expert := row_at row slot in
      let targets :=
        if (0 <=? expert) && (HomeRank expert (expertsPerRank inp) =? in_rank inp) then
          mark_target targetWords (expertTargets o)
            (expert - in_rank inp * expertsPerRank inp) dst
        else expertTargets o in
      {| out_dst := out_dst o; cuSeqlens := cuSeqlens o; expertsToCopy := expertsToCopy o;
         remoteExperts := upd1 (remoteExperts o) (dst * b_ inp + slot) expert;
         expertTargets := targets;
         remoteStats0 := remoteStats0 o; remoteStats1 := remoteStats1 o |})
    o (seqZ 0 (b_ inp)).

Definition place_remote (s : PState) (dst : Z) (l : Layout) : Layout + (TileXRMoonEPPlanStatus * Layout) :=
  match remote_row s dst with
  | inr status => inr (status, l)
  | inl row =>
      let o := outs l in
      let mine := dst =? in_rank inp in
      let homed := Z.of_nat (length
        (List.filter (fun e => HomeRank e (expertsPerRank inp) =? in_rank inp) row)) in
      let o1 := {| out_dst := out_dst o; cuSeqlens := cuSeqlens o;
        expertsToCopy := if mine
          then (fun slot => if (0 <=? slot) && (slot <? b_ inp) then row_at row slot
                            else expertsToCopy o slot)
          else expertsToCopy o;
        remoteExperts := remoteExperts o; expertTargets := expertTargets o;
        remoteStats0 := if mine then Z.of_nat (length row) else remoteStats0 o;
        remoteStats1 := remoteStats1 o + homed |} in
      inl {| rows := upd1 (rows l) dst row;
             outs := if hasRemoteExperts ws then publish_row dst row o1 else o1;
             expertPhysicalBase := expertPhysicalBase l;
             maxRemote := MaxI32 (maxRemote l) (Z.of_nat (length row)); localEnd := localEnd l |}
  end.

(** The expert stored in a group of a destination and its token count; [(-1, 0)] for none. *)
Definition group_expert (s : PState) (dst : Z) (row : list Z) (group : Z) : Z * Z :=
  if group <? in_expertNum inp then
    if existsb (fun x => x =? group) row then (-1, 0)
    else (group, alloc s (ReIndex dst group (in_expertNum inp)))
  else
    let slot := group - in_expertNum inp in
    if (slot <? b_ inp) && (0 <=? row_at row slot)
    then (row_at row slot, alloc s (ReIndex dst (row_at row slot) (in_expertNum inp)))
    else (-1, 0).

Definition set_cuSeqlens (o : Outputs) (group v : Z) : Outputs :=
  {| out_dst := out_dst o; cuSeqlens := upd1 (cuSeqlens o) group v;
     expertsToCopy := expertsToCopy o; remoteExperts := remoteExperts o;
     expertTargets := expertTargets o; remoteStats0 := remoteStats0 o;
     remoteStats1 := remoteStats1 o |}.

(** One group of one destination: [(layout, previousEnd)]. *)
Definition place_group (s : PState) (dst : Z) (row : list Z) (group : Z) (acc : Layout * Z)
    : (Layout * Z) + (TileXRMoonEPPlanStatus * Layout) :=
  let '(l, previousEnd) := acc in
  let '(physicalExpert, count) := group_expert s dst row group in
  let base := if 0 <=? physicalExpert
    then upd1 (expertPhysicalBase l) (ReIndex dst physicalExpert (in_expertNum inp)) previousEnd
    else expertPhysicalBase l in
  let with_base o := {| rows := rows l; outs := o; expertPhysicalBase := base;
                        maxRemote := maxRemote l; localEnd := localEnd l |} in
  match (if count =? 0 then Some 0 else AlignCount count (tokenPadding (in_config inp))) with
  | None => inr (PLAN_ERROR_LAYOUT_EXCEEDS_NVS, with_base (outs l))
  | Some padded =>
      if nvS (in_config inp) - previousEnd <? padded
      then inr (PLAN_ERROR_LAYOUT_EXCEEDS_NVS, with_base (outs l))
      else inl (with_base (if dst =? in_rank inp
                           then set_cuSeqlens (outs l) group (previousEnd + padded) else outs l),
                previousEnd + padded)
  end.

Definition place_groups (s : PState) (dst : Z) (l : Layout)
    : Layout + (TileXRMoonEPPlanStatus * Layout) :=
  match loop_ret (place_group s dst (rows l dst)) (seqZ 0 (in_expertNum inp + b_ inp)) (l, 0) with
  | inr r => inr r
  | inl (l', previousEnd) =>
      inl {| rows := rows l'; outs := outs l'; expertPhysicalBase := expertPhysicalBase l';
             maxRemote := maxRemote l';
             localEnd := if dst =? in_rank inp then previousEnd else localEnd l' |}
  end.

Definition BuildLayouts (s : PState) : TileXRMoonEPPlanStatus * Layout :=
  match loop_ret (place_remote s) (seqZ 0 (in_rankSize inp)) empty_layout with
  | inr r => r
  | inl l =>
      match loop_ret (place_groups s) (seqZ 0 (in_rankSize inp)) l with
      | inr r => r
      | inl l' => (PLAN_OK, l')
      end
  end.

(** ** Destinations *)

(** [localExpertOrdinal] and the running [expertCount]. *)
Definition expert_ordinals : (Z -> Z) * (Z -> Z) :=
  foldl (fun acc route =>
      let '(ordinal, count) := acc in
      let expert := topkExperts inp route in
      (upd1 ordinal route (count expert), upd1 count expert (count expert + 1)))
    (fun _ => 0, fun _ => 0) (seqZ 0 (cap_ inp)).

Definition segment_matches (expert ordinal : Z) (m : TokenSegmentMove) : bool :=
  (expertId m =? expert) && (srcExpertBegin m <=? ordinal) &&
  (ordinal <? srcExpertBegin m + tokenCount m).

Definition find_segment (s : PState) (expert ordinal : Z) : option TokenSegmentMove :=
  found None (loop_ret (fun m (_ : unit) =>
      if segment_matches expert ordinal m then inr (Some m) else inl tt) (tokenSegments s) tt).

(** Whether an earlier route of the token goes to the same rank. *)
Definition rank_seen (dst : Z -> Z) (token k rank : Z) : bool :=
  existsb (fun prior =>
      let encoded := dst (token * in_topK inp + prior) in
      let decoded := if 0 <=? encoded then encoded else Z.lnot encoded in
      decoded / nvS (in_config inp) =? rank)
    (seqZ 0 k).

Definition build_route (s : PState) (base ordinals : Z -> Z) (token k : Z) (dst : Z -> Z)
    : (Z -> Z) + (TileXRMoonEPPlanStatus * (Z -> Z)) :=
  let route := token * in_topK inp + k in
  let expert := topkExperts inp route in
  let ordinal := ordinals route in
  match find_segment s expert ordinal with
  | None => inr (PLAN_ERROR_INTERNAL_INVARIANT, dst)
  | Some m =>
      let localOffset := base (ReIndex (dstRank m) expert (in_expertNum inp)) +
        dstExpertBegin m + (ordinal - srcExpertBegin m) in
      let raw := dstRank m * nvS (in_config inp) + localOffset in
      if (localOffset <? 0) || (nvS (in_config inp) <=? localOffset) || (raw <? 0) ||
         (INT32_MAX <? raw)
      then inr (PLAN_ERROR_INTERNAL_INVARIANT, dst)
      else inl (upd1 dst route (if rank_seen dst token k (dstRank m) then Z.lnot raw else raw))
  end.

Definition BuildDst (s : PState) (base : Z -> Z) : TileXRMoonEPPlanStatus * (Z -> Z) :=
  let ordinals := fst expert_ordinals in
  match loop_ret (fun token dst =>
            loop_ret (fun k dst => build_route s base ordinals token k dst)
              (seqZ 0 (in_topK inp)) dst)
          (seqZ 0 (in_s inp)) (fun _ => 0) with
  | inr r => r
  | inl dst => (PLAN_OK, dst)
  end.

(** ** The whole run *)

Definition FillStatus (s : PState) (status : TileXRMoonEPPlanStatus) (maxRemote localEnd : Z)
    : list Z :=
  let deficit := foldl (fun d r => if rankLoad s r <? cap_ inp then d + (cap_ inp - rankLoad s r)
                                   else d) 0 (seqZ 0 (in_rankSize inp)) in
  [ status_code status; intraRounds s; interRounds s; deficit; maxRemote; localEnd;
    expertMoves s; localSegments s ].

Definition initial_state : PState :=
  let E := in_expertNum inp in
  let '(al, load) :=
    foldl (fun acc expert =>
        let '(al, load) := acc in
        let count := foldl (fun c src => c + tokensPerExpert inp (ReIndex src expert E)) 0
          (seqZ 0 (in_rankSize inp)) in
        let home := HomeRank expert (expertsPerRank inp) in
        (upd1 al (ReIndex home expert E) count, upd1 load home (load home + count)))
      (fun _ => 0, fun _ => 0) (seqZ 0 E) in
  {| rankLoad := load; slotCount := fun _ => 0; remainingTpe := tokensPerExpert inp;
     alloc := al; srcExpertCursor := fun _ => 0; dstExpertCursor := fun _ => 0;
     remoteExpertSet := fun _ => -1; routedPairTokens := fun _ => 0;
     tokenSegments := []; segLog := []; expertMoves := 0; intraRounds := 0; interRounds := 0;
     slotBlock := false; supplyBlock := false; pairBlock := false; fatal := PLAN_OK |}.

Definition affinity_rows : Z -> list Z :=
  default (BuildAffinity (in_rankSize inp) (globalRankIds inp)) (affinityCache ws).

(** The balancing phase: server by server, then between servers, then what stays at home. *)
Definition Balance (roundFuel : nat) : option PState :=
  match RunIntra inp ws affinity_rows roundFuel initial_state with
  | None => None
  | Some s1 =>
      if bool_decide (fatal s1 = PLAN_OK) then
        match RunInter inp ws affinity_rows roundFuel s1 with
        | None => None
        | Some s2 => if bool_decide (fatal s2 = PLAN_OK) then Some (AppendRemainders inp ws s2)
                     else Some s2
        end
      else Some s1
  end.

Definition balanced (s : PState) : bool :=
  forallb (fun r => rankLoad s r =? cap_ inp) (seqZ 0 (in_rankSize inp)).

Definition balance_status (s : PState) : TileXRMoonEPPlanStatus :=
  if balanced s then PLAN_OK
  else if slotBlock s then PLAN_PARTIAL_PREFETCH_SLOT_EXHAUSTED
  else if supplyBlock s then PLAN_PARTIAL_TOKEN_SUPPLY
  else PLAN_PARTIAL_NO_FEASIBLE_PAIR.

Definition set_dst (o : Outputs) (dst : Z -> Z) : Outputs :=
  {| out_dst := dst; cuSeqlens := cuSeqlens o; expertsToCopy := expertsToCopy o;
     remoteExperts := remoteExperts o; expertTargets := expertTargets o;
     remoteStats0 := remoteStats0 o; remoteStats1 := remoteStats1 o |}.

Definition finish (s : PState) : TileXRMoonEPPlanStatus * Outputs * list Z :=
  if negb (bool_decide (fatal s = PLAN_OK))
  then (fatal s, empty_outputs, FillStatus s (fatal s) 0 0)
  else
    let '(layoutStatus, l) := BuildLayouts s in
    let '(dstStatus, o) :=
      if bool_decide (layoutStatus = PLAN_OK) then
        let '(st, dst) := BuildDst s (expertPhysicalBase l) in (st, set_dst (outs l) dst)
      else (layoutStatus, outs l) in
    let status := if balanced s then dstStatus else balance_status s in
    (status, o, FillStatus s status (maxRemote l) (localEnd l)).

(** More rounds than tokens never happen: [rankSize * cap + 1] is enough fuel. *)
Definition round_fuel : nat := S (Z.to_nat (in_rankSize inp * cap_ inp)).

Definition RunPlanAlgorithm : option (TileXRMoonEPPlanStatus * Outputs * list Z) :=
  let validation := Validate inp ws in
  if negb (bool_decide (validation = PLAN_OK))
  then Some (validation, empty_outputs, [status_code validation; 0; 0; 0; 0; 0; 0; 0])
  else finish <$> Balance round_fuel.
End output.
