(* ===== verification/PlanMove.v ===== *)
(** The invariant of the planner's balancing and its preservation by [ApplyExpertMove]: the
    segments tile the source and the destination ranges of every expert, tokens are neither
    lost nor duplicated, loads are the sums of the allocations, and the prefetch slots and
    the pair limits are respected. *)
From S2P Require Import Prelude PlanTypes PlanSort PlanAlgorithm.

(** ** Segment logs *)

Definition src_total (log : list TokenSegmentMove) (src e : Z) : Z :=
  zsum (fun m => if (srcRank m =? src) && (expertId m =? e) then tokenCount m else 0) log.

Definition dst_total (log : list TokenSegmentMove) (dst e : Z) : Z :=
  zsum (fun m => if (dstRank m =? dst) && (expertId m =? e) then tokenCount m else 0) log.


(** A log in which every segment starts where the previous ones of its source and of its
    destination end. *)
Inductive log_ok (R E : Z) : list TokenSegmentMove -> Prop :=
| log_nil : log_ok R E []
| log_snoc l m :
    log_ok R E l -> 0 <= srcRank m < R -> 0 <= dstRank m < R -> 0 <= expertId m < E ->
    0 < tokenCount m ->
    srcExpertBegin m = src_total l (srcRank m) (expertId m) ->
    dstExpertBegin m = dst_total l (dstRank m) (expertId m) ->
    log_ok R E (l ++ [m]).

Lemma src_total_snoc l m src e : src_total (l ++ [m]) src e =
  src_total l src e + (if (srcRank m =? src) && (expertId m =? e) then tokenCount m else 0).
Proof. unfold src_total. rewrite zsum_app. cbn. lia. Qed.

Lemma dst_total_snoc l m dst e : dst_total (l ++ [m]) dst e =
  dst_total l dst e + (if (dstRank m =? dst) && (expertId m =? e) then tokenCount m else 0).
Proof. unfold dst_total. rewrite zsum_app. cbn. lia. Qed.

(** ** Sums over a row or a column of a table *)

Lemma column_sum_upd f R E r0 e0 v e : 0 <= r0 < R -> 0 <= e0 < E -> 0 <= e < E ->
  zsum (fun r => upd1 f (ReIndex r0 e0 E) v (ReIndex r e E)) (seqZ 0 R) =
  zsum (fun r => f (ReIndex r e E)) (seqZ 0 R) + (if e =? e0 then v - f (ReIndex r0 e0 E) else 0).
Proof.
  intros Hr He0 He. destruct (Z.eqb_spec e e0) as [->|Hne].
  - rewrite (zsum_change _ (fun r => f (ReIndex r e0 E)) _ r0).
    + by rewrite upd1_eq.
    + apply NoDup_seqZ.
    + by apply elem_of_seqZ0.
    + intros r _ Hrr. apply upd1_ne. rewrite ReIndex_inj by done. tauto.
  - rewrite Z.add_0_r. apply zsum_ext. intros r _. apply upd1_ne. rewrite ReIndex_inj by done. tauto.
Qed.

Lemma row_sum_upd f E r0 e0 v r : 0 <= e0 < E ->
  zsum (fun e => upd1 f (ReIndex r0 e0 E) v (ReIndex r e E)) (seqZ 0 E) =
  zsum (fun e => f (ReIndex r e E)) (seqZ 0 E) + (if r =? r0 then v - f (ReIndex r0 e0 E) else 0).
Proof.
  intros He0. destruct (Z.eqb_spec r r0) as [->|Hne].
  - rewrite (zsum_change _ (fun e => f (ReIndex r0 e E)) _ e0).
    + by rewrite upd1_eq.
    + apply NoDup_seqZ.
    + by apply elem_of_seqZ0.
    + intros e He Hee. rewrite elem_of_seqZ0 in He. apply upd1_ne. rewrite ReIndex_inj by done. tauto.
  - rewrite Z.add_0_r. apply zsum_ext. intros e He. rewrite elem_of_seqZ0 in He.
    apply upd1_ne. rewrite ReIndex_inj by done. tauto.
Qed.

(** ** The invariant *)

(** What [Validate] establishes about the sizes and the token counts. *)
Record plan_ok (inp : PlanAlgorithmInput) (ws : PlanAlgorithmWorkspace) : Prop := {
  ok_R : 0 < in_rankSize inp <= 128;
  ok_rank : 0 <= in_rank inp < in_rankSize inp;
  ok_E : in_expertNum inp = in_rankSize inp * expertsPerRank inp;
  ok_P : 0 < expertsPerRank inp;
  ok_s : 0 < in_s inp;
  ok_topK : 0 < in_topK inp <= 32;
  ok_cap : cap_ inp = in_s inp * in_topK inp;
  ok_b : 0 < b_ inp;
  ok_limit : 0 <= routeLimit inp;
  ok_nvS : cap_ inp <= nvS (in_config inp) <= INT32_MAX;
  ok_padding : 0 < tokenPadding (in_config inp);
  ok_slots : in_rankSize inp * nvS (in_config inp) <= INT32_MAX;
  ok_ids r : 0 <= r < in_rankSize inp -> 0 <= globalRankIds inp r;
  ok_topk route : 0 <= route < cap_ inp -> 0 <= topkExperts inp route < in_expertNum inp;
  ok_tpe src e : 0 <= src < in_rankSize inp -> 0 <= e < in_expertNum inp ->
    0 <= tokensPerExpert inp (ReIndex src e (in_expertNum inp));
  ok_sum src : 0 <= src < in_rankSize inp ->
    zsum (fun e => tokensPerExpert inp (ReIndex src e (in_expertNum inp)))
      (seqZ 0 (in_expertNum inp)) = cap_ inp;
  ok_mine e : 0 <= e < in_expertNum inp ->
    tokensPerExpert inp (ReIndex (in_rank inp) e (in_expertNum inp)) =
    Z.of_nat (length (List.filter (fun route => topkExperts inp route =? e) (seqZ 0 (cap_ inp))))
}.

Section move.
Context (inp : PlanAlgorithmInput) (ws : PlanAlgorithmWorkspace) (affinityOrder : Z -> list Z).
Context (Hok : plan_ok inp ws).
Context (Haff : forall dst r, 0 <= dst < in_rankSize inp -> r ∈ affinityOrder dst ->
  0 <= r < in_rankSize inp).

#[local] Abbreviation R := (in_rankSize inp).
#[local] Abbreviation E := (in_expertNum inp).
#[local] Abbreviation cell t r e := (t (ReIndex r e (in_expertNum inp))).
#[local] Abbreviation home e := (HomeRank e (expertsPerRank inp)).
#[local] Abbreviation ranks := (seqZ 0 R).

(** The tokens a source sends to a rank that is not their home: what the pair limit is about. *)
Definition away_total (log : list TokenSegmentMove) (src dst : Z) : Z :=
  zsum (fun m => if (srcRank m =? src) && (dstRank m =? dst) && negb (dstRank m =? home (expertId m))
                 then tokenCount m else 0) log.

Lemma away_total_snoc l m src dst : away_total (l ++ [m]) src dst = away_total l src dst +
  (if (srcRank m =? src) && (dstRank m =? dst) && negb (dstRank m =? home (expertId m))
   then tokenCount m else 0).
Proof. unfold away_total. rewrite zsum_app. cbn. lia. Qed.

(** The tokens: what the segments say and what is left. *)
Record tok_inv (s : PState) : Prop := {
  t_log : log_ok R E (segLog s);
  t_segs : tokenSegments s = List.filter (fun m => srcRank m =? in_rank inp) (segLog s);
  t_cap : localSegments s <= Z.max 0 (tokenSegmentCapacity ws);
  t_src src e : 0 <= src < R -> 0 <= e < E -> cell (srcExpertCursor s) src e = src_total (segLog s) src e;
  t_dst d e : 0 <= d < R -> 0 <= e < E -> cell (dstExpertCursor s) d e = dst_total (segLog s) d e;
  t_rem src e : 0 <= src < R -> 0 <= e < E ->
    0 <= cell (remainingTpe s) src e /\
    cell (remainingTpe s) src e + cell (srcExpertCursor s) src e = cell (tokensPerExpert inp) src e;
  t_route src d : 0 <= src < R -> 0 <= d < R -> routeLimit inp <> 0 ->
    routedPairTokens s (PairIndex src d R) = away_total (segLog s) src d /\
    away_total (segLog s) src d <= routeLimit inp
}.

(** The remote experts of a rank. *)
Definition remote_experts (s : PState) (d : Z) : list Z :=
  (fun slot => remoteExpertSet s (d * b_ inp + slot)) <$> seqZ 0 (slotCount s d).

(** The allocation, while [actual] tokens of [x] are on their way to [dst]. *)
Record alloc_inv (x dst actual : Z) (s : PState) : Prop := {
  a_home e : 0 <= e < E -> cell (alloc s) (home e) e =
    zsum (fun src => cell (remainingTpe s) src e) ranks + (if e =? x then actual else 0);
  a_dst d e : 0 <= d < R -> 0 <= e < E -> d <> home e ->
    cell (dstExpertCursor s) d e = cell (alloc s) d e + (if (d =? dst) && (e =? x) then actual else 0);
  a_pos d e : 0 <= d < R -> 0 <= e < E -> 0 <= cell (alloc s) d e;
  a_load d : 0 <= d < R -> rankLoad s d = zsum (fun e => cell (alloc s) d e) (seqZ 0 E);
  a_slots d : 0 <= d < R -> 0 <= slotCount s d <= b_ inp;
  a_row d : 0 <= d < R -> NoDup (remote_experts s d);
  a_remote d e : 0 <= d < R -> 0 <= e < E -> d <> home e -> 0 < cell (alloc s) d e ->
    e ∈ remote_experts s d
}.

(** No segment stays at home before the remainders are appended. *)
Definition all_away (s : PState) : Prop := forall m, m ∈ segLog s -> dstRank m <> home (expertId m).

Definition inv (s : PState) : Prop :=
  tok_inv s /\ alloc_inv (-1) (-1) 0 s /\ all_away s /\ fatal s = PLAN_OK.

Lemma home_range e : 0 <= e < E -> 0 <= home e < R.
Proof.
  destruct Hok as [_ _ HE HP]. unfold HomeRank. intros. rewrite HE in *.
  split; [by apply Z.div_pos; lia|]. apply Z.div_lt_upper_bound; lia.
Qed.

Lemma home_block h e : 0 <= h < R -> h * expertsPerRank inp <= e < h * expertsPerRank inp + expertsPerRank inp ->
  0 <= e < E /\ home e = h.
Proof.
  destruct Hok as [_ _ HE HP]. intros Hh He. split.
  - rewrite HE. nia.
  - unfold HomeRank. replace e with (h * expertsPerRank inp + (e - h * expertsPerRank inp)) by lia.
    apply div_mul_add. lia.
Qed.

(** The one fatal status of the balancing, and when it can arise. *)
Definition overflowed (s : PState) : Prop :=
  fatal s = PLAN_ERROR_MOVE_RECORD_OVERFLOW /\ tokenSegmentCapacity ws < cap_ inp.

(** *** Appending a segment *)

(** Every record of this rank carries at least one of its tokens. *)
Lemma local_records_bound log : log_ok R E log ->
  Z.of_nat (length (List.filter (fun m => srcRank m =? in_rank inp) log)) <=
  zsum (src_total log (in_rank inp)) (seqZ 0 E).
Proof.
  induction 1 as [|l m Hl IH Hs Hd He Hc _ _].
  { unfold src_total. cbn. by rewrite zsum_const. }
  rewrite List.filter_app, length_app.
  rewrite (zsum_ext _ (fun e => src_total l (in_rank inp) e +
    (if (srcRank m =? in_rank inp) && (expertId m =? e) then tokenCount m else 0)))
    by (intros; apply src_total_snoc).
  rewrite zsum_plus. cbn [List.filter]. destruct (Z.eqb_spec (srcRank m) (in_rank inp)); cbn [andb].
  - rewrite (zsum_change (fun e => if expertId m =? e then tokenCount m else 0) (fun _ => 0) _ (expertId m)).
    + rewrite zsum_const, Z.eqb_refl. cbn [length]. lia.
    + apply NoDup_seqZ.
    + by apply elem_of_seqZ0.
    + intros y _ Hy. by rewrite (proj2 (Z.eqb_neq _ _)).
  - rewrite zsum_const. cbn [length]. lia.
Qed.

(** While tokens of this rank are left there is room for their record. *)
Lemma room_for_record s expert : tok_inv s -> 0 <= expert < E ->
  0 < cell (remainingTpe s) (in_rank inp) expert -> localSegments s < cap_ inp.
Proof.
  intros HT He Hp. pose proof (ok_rank _ _ Hok) as Hr. unfold localSegments. rewrite (t_segs _ HT).
  pose proof (local_records_bound _ (t_log _ HT)) as Hb.
  assert (zsum (src_total (segLog s) (in_rank inp)) (seqZ 0 E) <
    zsum (fun e => cell (tokensPerExpert inp) (in_rank inp) e) (seqZ 0 E)) as Hlt;
    [|rewrite (ok_sum _ _ Hok) in Hlt by done; lia].
  rewrite (zsum_ext (fun e => cell (tokensPerExpert inp) (in_rank inp) e)
    (fun e => src_total (segLog s) (in_rank inp) e + cell (remainingTpe s) (in_rank inp) e)).
  2: { intros e Hin%elem_of_seqZ0. destruct (t_rem _ HT (in_rank inp) e Hr Hin) as [_ <-].
       rewrite (t_src _ HT) by done. lia. }
  rewrite zsum_plus.
  rewrite (zsum_change (fun e => cell (remainingTpe s) (in_rank inp) e)
    (fun e => if e =? expert then 0 else cell (remainingTpe s) (in_rank inp) e) _ expert).
  - rewrite Z.eqb_refl.
    assert (0 <= zsum (fun e => if e =? expert then 0 else cell (remainingTpe s) (in_rank inp) e) (seqZ 0 E)); [|lia].
    apply zsum_nonneg. intros e Hin%elem_of_seqZ0. case_if; [lia|]. by apply (t_rem _ HT).
  - apply NoDup_seqZ.
  - by apply elem_of_seqZ0.
  - intros e _ Hne. by rewrite (proj2 (Z.eqb_neq _ _)).
Qed.

Lemma append_inv s expert src dst take s1 ok :
  tok_inv s -> 0 <= expert < E -> 0 <= src < R -> 0 <= dst < R ->
  0 < take <= cell (remainingTpe s) src expert ->
  AppendSegment inp ws s expert src dst (cell (srcExpertCursor s) src expert)
    (cell (dstExpertCursor s) dst expert) take = (s1, ok) ->
  if ok then
    exists m, m = {| expertId := expert; srcRank := src; dstRank := dst;
                     srcExpertBegin := src_total (segLog s) src expert;
                     dstExpertBegin := dst_total (segLog s) dst expert; tokenCount := take |} /\
    s1 = with_segments s (List.filter (fun m => srcRank m =? in_rank inp) (segLog s ++ [m]))
           (segLog s ++ [m]) (fatal s) /\
    log_ok R E (segLog s ++ [m]) /\
    Z.of_nat (length (tokenSegments s1)) <= Z.max 0 (tokenSegmentCapacity ws)
  else overflowed s1.
Proof.
  intros HT He Hsr Hd Ht. pose proof (room_for_record s expert HT He) as Hroom.
  destruct HT as [Hl Hs Hc Hsrc Hdst _ _]. unfold AppendSegment. cbv zeta.
  rewrite Hsrc, Hdst by done.
  set (m := {| expertId := _ |}).
  assert (log_ok R E (segLog s ++ [m])) as Hok' by (constructor; try done; apply Ht).
  unfold localSegments in *. intros Eap.
  repeat case_if_in Eap; injection Eap as <- <-; try (split; [done|]; b2p; subst src; lia);
    (exists m; split; [done|]; split; [|split; [done|]]); cbn [tokenSegments with_segments].
  - rewrite List.filter_app. cbn [List.filter srcRank m]. unfold m at 2. cbn [srcRank]. b2p.
    rewrite (proj2 (Z.eqb_neq _ _)) by done. by rewrite app_nil_r, <- Hs.
  - done.
  - rewrite List.filter_app. cbn [List.filter srcRank m]. unfold m at 2. cbn [srcRank]. b2p.
    rewrite (proj2 (Z.eqb_eq _ _)) by done. by rewrite <- Hs.
  - rewrite length_app. cbn. b2p. lia.
Qed.

(** *** One source rank *)

(** Destructs the index comparisons of a goal about updated cells. *)
Ltac cell_cases :=
  repeat match goal with
  | |- context [?a =? ?b] => destruct (Z.eqb_spec a b)
  end; cbn [andb orb negb] in *.

(** The state between two sources: [req] tokens of [x] were asked for, [actual] are taken. *)
Definition taking (s0 : PState) (x dst req : Z) (acc : PState * Z * Z) : Prop :=
  let '(s, demand, actual) := acc in
  (tok_inv s /\ alloc_inv x dst actual s /\ all_away s /\ fatal s = PLAN_OK) /\
  (alloc s = alloc s0 /\ rankLoad s = rankLoad s0 /\ slotCount s = slotCount s0 /\
   remoteExpertSet s = remoteExpertSet s0) /\
  0 <= actual /\ 0 <= demand /\ demand + actual = req.

(** The tokens after one more segment of [take] tokens. *)
Lemma tok_take s x src dst take m pi' :
  tok_inv s -> 0 <= x < E -> 0 <= src < R -> 0 <= dst < R ->
  0 < take <= cell (remainingTpe s) src x ->
  m = {| expertId := x; srcRank := src; dstRank := dst;
         srcExpertBegin := src_total (segLog s) src x;
         dstExpertBegin := dst_total (segLog s) dst x; tokenCount := take |} ->
  log_ok R E (segLog s ++ [m]) ->
  Z.of_nat (length (List.filter (fun m => srcRank m =? in_rank inp) (segLog s ++ [m])))
    <= Z.max 0 (tokenSegmentCapacity ws) ->
  (forall i d, 0 <= i < R -> 0 <= d < R -> routeLimit inp <> 0 ->
     pi' (PairIndex i d R) = away_total (segLog s ++ [m]) i d /\
     away_total (segLog s ++ [m]) i d <= routeLimit inp) ->
  tok_inv (with_tokens
    (with_segments s (List.filter (fun m => srcRank m =? in_rank inp) (segLog s ++ [m]))
       (segLog s ++ [m]) (fatal s))
    (upd1 (remainingTpe s) (ReIndex src x E) (cell (remainingTpe s) src x - take))
    (upd1 (srcExpertCursor s) (ReIndex src x E) (cell (srcExpertCursor s) src x + take))
    (upd1 (dstExpertCursor s) (ReIndex dst x E) (cell (dstExpertCursor s) dst x + take)) pi').
Proof.
  intros [_ _ _ Hsrc Hdst Hrem _] Hx Hsr Hd Ht Em Hlog Hcap Hpi.
  constructor; cbn [segLog tokenSegments srcExpertCursor dstExpertCursor remainingTpe
    routedPairTokens with_tokens with_segments]; try done.
  - intros i e Hi He. rewrite upd_cell, src_total_snoc, <- Hsrc by done. subst m.
    cbn [srcRank expertId tokenCount]. case_decide as D; cell_cases; subst; try tauto; lia.
  - intros d e Hd' He. rewrite upd_cell, dst_total_snoc, <- Hdst by done. subst m.
    cbn [dstRank expertId tokenCount]. case_decide as D; cell_cases; subst; try tauto; lia.
  - intros i e Hi He. rewrite !upd_cell by done. destruct (Hrem i e Hi He).
    case_decide as D; [destruct D as [-> ->]; lia|done].
Qed.

Lemma alloc_take s x dst actual take src segs log pi' :
  alloc_inv x dst actual s -> 0 <= x < E -> 0 <= src < R -> 0 <= dst < R ->
  dst <> home x ->
  alloc_inv x dst (actual + take) (with_tokens (with_segments s segs log (fatal s))
    (upd1 (remainingTpe s) (ReIndex src x E) (cell (remainingTpe s) src x - take))
    (upd1 (srcExpertCursor s) (ReIndex src x E) (cell (srcExpertCursor s) src x + take))
    (upd1 (dstExpertCursor s) (ReIndex dst x E) (cell (dstExpertCursor s) dst x + take)) pi').
Proof.
  intros [Ih Id Ip Il Is Ir Im] Hx Hsr Hd Hdh.
  constructor; cbn [alloc remainingTpe dstExpertCursor rankLoad slotCount with_tokens with_segments];
    try done.
  - intros e He. rewrite column_sum_upd, Ih by done. destruct (Z.eqb_spec e x); lia.
  - intros d e Hd' He Hne. rewrite upd_cell by done. specialize (Id d e Hd' He Hne).
    case_decide as D; cell_cases; subst; try tauto; lia.
Qed.

Lemma take_source_inv s0 x dst req src acc :
  0 <= x < E -> 0 <= dst < R -> dst <> home x -> 0 <= src < R -> taking s0 x dst req acc ->
  match take_source inp ws x dst src acc with
  | inl acc' => taking s0 x dst req acc'
  | inr s' => overflowed s'
  end.
Proof.
  intros Hx Hd Hdh Hsr. destruct acc as [[s demand] actual].
  intros Htk. pose proof Htk as ((HT & HA & Haw & Hf) & (E1 & E2 & E3 & E4) & Ha & Hdm & Hreq).
  unfold take_source. destruct (Z.leb_spec demand 0); [done|].
  cbv zeta. rewrite !MinI32_min. set (pairRemain := if negb _ then _ else _).
  destruct (Z.leb_spec (Z.min (Z.min (cell (remainingTpe s) src x) demand) pairRemain) 0);
    [done|].
  set (take := Z.min _ pairRemain) in *.
  destruct (AppendSegment _ _ _ _ _ _ _ _ _) as [s1 ok] eqn:Eap.
  pose proof (append_inv s x src dst take s1 ok HT Hx Hsr Hd ltac:(lia) Eap) as Hap.
  destruct ok; [|done]. destruct Hap as (m & Em & -> & Hlog & Hcap).
  split; [|cbn [fst snd]; split; [done|lia]].
  cbn [remainingTpe srcExpertCursor dstExpertCursor routedPairTokens with_segments segLog] in *.
  split; [|split; [|split]].
  - apply tok_take; try done; [lia|]. intros i d Hi Hd' Hlim.
    pose proof (t_route _ HT i d Hi Hd' Hlim) as [Hr1 Hr2].
    rewrite (proj2 (Z.eqb_neq (routeLimit inp) 0) Hlim) in *. cbn [negb] in *.
    rewrite away_total_snoc. unfold upd1.
    destruct (Z.eqb_spec (PairIndex i d R) (PairIndex src dst R)) as [Ep|Ep].
    + apply PairIndex_inj in Ep as [-> ->]; try done. subst m. cbn [srcRank dstRank expertId tokenCount].
      rewrite !Z.eqb_refl, (proj2 (Z.eqb_neq dst (home x))) by done. cbn [andb negb].
      unfold take, pairRemain. rewrite (proj2 (Z.eqb_neq (routeLimit inp) 0) Hlim). cbn [negb].
      destruct (Z.ltb_spec (routeLimit inp - routedPairTokens s (PairIndex src dst R)) 0); lia.
    + subst m. cbn [srcRank dstRank expertId tokenCount].
      replace ((src =? i) && (dst =? d)) with false; [cbn; lia|].
      symmetry. apply andb_false_iff. destruct (Z.eqb_spec src i); [right|by left].
      apply Z.eqb_neq. intros ->. by subst.
  - by apply alloc_take.
  - intros m' Hm'. cbn in Hm'. apply elem_of_app in Hm' as [Hm'|Hm']; [by apply Haw|].
    apply list_elem_of_singleton in Hm' as ->. by subst m.
  - done.
Qed.

(** *** Committing an expert's move *)

Lemma alloc_zero x dst s : alloc_inv x dst 0 s <-> alloc_inv (-1) (-1) 0 s.
Proof.
  split; intros [Ih Id ? ? ? ? ?]; constructor; try done.
  1, 3: intros e He; rewrite (Ih e He); by repeat case_if.
  all: intros d e Hd He Hne; rewrite (Id d e Hd He Hne); by repeat case_if.
Qed.

Lemma remote_experts_add s d0 slots x :
  (forall d, 0 <= d < R -> 0 <= slotCount s d <= b_ inp) -> 0 <= d0 < R -> slotCount s d0 < b_ inp ->
  slots = upd1 (slotCount s) d0 (slotCount s d0 + 1) ->
  forall d, 0 <= d < R ->
  (fun slot => upd1 (remoteExpertSet s) (d0 * b_ inp + slotCount s d0) x (d * b_ inp + slot))
    <$> seqZ 0 (slots d) =
  if decide (d = d0) then remote_experts s d0 ++ [x] else remote_experts s d.
Proof.
  intros Hs Hd0 Hlt -> d Hd. pose proof (Hs d Hd). pose proof (Hs d0 Hd0). unfold remote_experts.
  case_decide as D.
  - subst d. rewrite upd1_eq.
    rewrite seqZ0_snoc, fmap_app by lia. cbn. rewrite upd1_eq. f_equal. apply list_fmap_ext.
    intros i slot Hin%list_elem_of_lookup_2. apply elem_of_seqZ0 in Hin. apply upd1_ne. lia.
  - rewrite upd1_ne by done. apply list_fmap_ext.
    intros i slot Hin%list_elem_of_lookup_2. apply elem_of_seqZ0 in Hin. apply upd1_ne.
    intros E0. apply (mul_add_inj d d0 slot (slotCount s d0) (b_ inp)) in E0; lia.
Qed.

Lemma find_remote s d x : (0 <=? FindRemote inp s d x) = true <-> x ∈ remote_experts s d.
Proof.
  unfold FindRemote, remote_experts.
  rewrite (loop_find (fun slot => remoteExpertSet s (d * b_ inp + slot) =? x) (fun slot => slot)).
  rewrite list_elem_of_fmap. setoid_rewrite elem_of_seqZ0.
  destruct (List.find _ _) as [slot|] eqn:Ef; cbn.
  - apply List.find_some in Ef as [Hin Hx]. apply list_elem_of_In, elem_of_seqZ0 in Hin. b2p.
    split; [|lia]. intros _. exists slot. split; [done|lia].
  - split; [done|]. intros (slot & -> & Hs). exfalso.
    pose proof (List.find_none _ _ Ef slot) as Hn. cbn in Hn. rewrite Z.eqb_refl in Hn.
    by apply diff_true_false, Hn, list_elem_of_In, elem_of_seqZ0.
Qed.

(** The tables after a commit of [actual > 0] tokens. *)
Lemma commit_cell s x dst actual r e : 0 <= x < E -> 0 <= e < E -> dst <> home x ->
  let al := upd1 (alloc s) (ReIndex (home x) x E) (cell (alloc s) (home x) x - actual) in
  cell (upd1 al (ReIndex dst x E) (cell al dst x + actual)) r e =
  cell (alloc s) r e - (if (r =? home x) && (e =? x) then actual else 0)
                     + (if (r =? dst) && (e =? x) then actual else 0).
Proof.
  intros Hx He Hne. cbv zeta. rewrite !upd_cell by done.
  repeat case_decide; cell_cases; subst; try tauto; lia.
Qed.

Lemma commit_row_sum s x dst actual r : 0 <= x < E -> dst <> home x ->
  let al := upd1 (alloc s) (ReIndex (home x) x E) (cell (alloc s) (home x) x - actual) in
  zsum (fun e => cell (upd1 al (ReIndex dst x E) (cell al dst x + actual)) r e) (seqZ 0 E) =
  zsum (fun e => cell (alloc s) r e) (seqZ 0 E)
    - (if r =? home x then actual else 0) + (if r =? dst then actual else 0).
Proof.
  intros Hx Hne. cbv zeta. rewrite !row_sum_upd by done. cell_cases; subst; try tauto; lia.
Qed.

Lemma commit_load (load : Z -> Z) h dst actual r : dst <> h ->
  let load' := upd1 load h (load h - actual) in
  upd1 load' dst (load' dst + actual) r =
  load r - (if r =? h then actual else 0) + (if r =? dst then actual else 0).
Proof. intros Hne. cbv zeta. unfold upd1. cell_cases; subst; try tauto; lia. Qed.

Lemma commit_rows s x dst actual already d : 0 < actual -> 0 <= dst < R -> 0 <= d < R ->
  (forall d, 0 <= d < R -> 0 <= slotCount s d <= b_ inp) ->
  (already = false -> slotCount s dst < b_ inp) ->
  remote_experts (commit_move inp s (home x) dst x actual already) d =
  if already then remote_experts s d
  else if decide (d = dst) then remote_experts s dst ++ [x] else remote_experts s d.
Proof.
  intros Hpos Hd Hd' Hs Hlt. unfold commit_move. rewrite (proj2 (Z.ltb_lt 0 actual)) by done.
  unfold remote_experts at 1. cbn [slotCount remoteExpertSet with_move].
  destruct already; [done|]. apply remote_experts_add; auto.
Qed.

Lemma commit_inv s0 s x dst req demand actual already :
  0 <= x < E -> 0 <= dst < R -> dst <> home x ->
  taking s0 x dst req (s, demand, actual) ->
  (already = true <-> x ∈ remote_experts s0 dst) ->
  (already = false -> slotCount s0 dst < b_ inp) ->
  let s' := commit_move inp s (home x) dst x actual already in
  inv s' /\ forall r, rankLoad s' r =
    rankLoad s0 r - (if r =? home x then actual else 0) + (if r =? dst then actual else 0).
Proof.
  intros Hx Hd Hdh ((HT & HA & Haw & Hf) & (E1 & E2 & E3 & E4) & Ha & _) Hal Hslot s'.
  pose proof (home_range x Hx) as Hh.
  assert (remote_experts s dst = remote_experts s0 dst) as Erow
    by (unfold remote_experts; by rewrite E3, E4).
  rewrite <- Erow in Hal. rewrite <- E3 in Hslot. rewrite <- E2.
  destruct (Z.ltb_spec 0 actual) as [Hpos|Hz].
  2: { unfold s', commit_move. rewrite (proj2 (Z.ltb_ge 0 actual)) by done.
       assert (actual = 0) as -> by lia. apply alloc_zero in HA. split; [done|].
       intros r. repeat case_if; lia. }
  pose proof (fun d Hd' => commit_rows s x dst actual already d Hpos Hd Hd' (a_slots _ _ _ _ HA) Hslot) as Hrow.
  destruct HA as [Ih Id Ip Il Is Ir Im]. fold s' in Hrow.
  assert (s' = commit_move inp s (home x) dst x actual already) as Es by done.
  unfold commit_move in Es. rewrite (proj2 (Z.ltb_lt 0 actual)) in Es by done. cbv zeta in Es.
  assert (forall r, rankLoad s' r =
    rankLoad s r - (if r =? home x then actual else 0) + (if r =? dst then actual else 0)) as HL.
  { intros r. rewrite Es. cbn [rankLoad with_move]. by apply commit_load. }
  split; [|done].
  assert (forall r e, 0 <= e < E -> cell (alloc s') r e =
    cell (alloc s) r e - (if (r =? home x) && (e =? x) then actual else 0)
                       + (if (r =? dst) && (e =? x) then actual else 0)) as HC.
  { intros r e He. rewrite Es. cbn [alloc with_move]. by apply commit_cell. }
  assert (0 <= zsum (fun src => cell (remainingTpe s) src x) ranks) as Hrem.
  { apply zsum_nonneg. intros src Hsr%elem_of_seqZ0. by apply (t_rem _ HT). }
  split; [|split; [|split]].
  - rewrite Es. destruct HT. by constructor.
  - constructor.
    + intros e He. rewrite HC, (Ih e He) by done.
      replace (remainingTpe s') with (remainingTpe s) by (by rewrite Es).
      cell_cases; subst; try tauto; lia.
    + intros d e Hd' He Hne. rewrite HC by done.
      replace (dstExpertCursor s') with (dstExpertCursor s) by (by rewrite Es).
      rewrite (Id d e Hd' He Hne). cell_cases; subst; try tauto; lia.
    + intros d e Hd' He. rewrite HC by done. specialize (Ip d e Hd' He).
      destruct ((d =? home x) && (e =? x)) eqn:Ec.
      * b2p. subst. rewrite (Ih x Hx), Z.eqb_refl. case_if; lia.
      * case_if; lia.
    + intros d Hd'. rewrite HL, (Il d Hd'). rewrite Es. cbn [alloc with_move]. symmetry. by apply commit_row_sum.
    + intros d Hd'. specialize (Is d Hd'). rewrite Es. cbn [slotCount with_move].
      destruct already; [done|]. unfold upd1. destruct (Z.eqb_spec d dst) as [->|]; [|done].
      specialize (Hslot eq_refl). lia.
    + intros d Hd'. rewrite (Hrow d Hd'). destruct already; [by apply Ir|].
      case_decide as D; [|by apply Ir]. subst d. apply NoDup_app. split; [by apply Ir|].
      split; [|apply NoDup_singleton]. intros y Hy ->%list_elem_of_singleton.
      by apply Hal in Hy.
    + intros d e Hd' He Hne. rewrite HC, (Hrow d Hd') by done. intros Hp.
      destruct (decide (d = dst /\ e = x)) as [[-> ->]|Hother].
      * destruct already; [by apply Hal|]. rewrite decide_True by done.
        apply elem_of_app. right. by apply list_elem_of_singleton.
      * assert (e ∈ remote_experts s d) as Hin.
        { apply Im; try done. revert Hp. cell_cases; subst; try tauto; lia. }
        destruct already; [done|]. case_decide; [|done]. subst. apply elem_of_app. by left.
  - intros m. rewrite Es. apply Haw.
  - rewrite Es. done.
Qed.

(** *** Flags and counters *)

(** States that differ in flags and counters only. *)
Definition flagged (s s' : PState) : Prop :=
  s' = s \/ exists a b c d e, s' = with_flags s a b c d e (fatal s).

Lemma flagged_inv s s' : flagged s s' -> inv s -> inv s'.
Proof.
  intros [->|(a & b & c & d & e & ->)]; [done|]. intros ([] & [] & Haw & Hf).
  split; [by constructor|]. split; [by constructor|]. done.
Qed.

Lemma flagged_load s s' : flagged s s' -> rankLoad s' = rankLoad s.
Proof. by intros [->|(a & b & c & d & e & ->)]. Qed.

Lemma flagged_fatal s s' : flagged s s' -> fatal s' = fatal s.
Proof. by intros [->|(a & b & c & d & e & ->)]. Qed.

Lemma note_block_flagged s dst x : flagged s (note_block inp s dst x).
Proof.
  unfold note_block, flagged. destruct (foldl _ _ _) as [supply blocked].
  repeat case_if; [right|right|by left]; unfold set_pairBlock, set_supplyBlock; eauto 10.
Qed.

(** *** One expert *)

(** [requested - demand] tokens have gone from [h] to [dst]. *)
Definition moving (s0 : PState) (h dst requested : Z) (acc : PState * Z * bool) : Prop :=
  let '(s, demand, _) := acc in
  inv s /\ 0 <= demand <= requested /\
  forall r, rankLoad s r = rankLoad s0 r - (if r =? h then requested - demand else 0)
                           + (if r =? dst then requested - demand else 0).

Lemma affinity_loop s x dst req : inv s -> 0 <= x < E -> 0 <= dst < R -> dst <> home x -> 0 <= req ->
  match loop_ret (take_source inp ws x dst) (affinityOrder dst) (s, req, 0) with
  | inl acc => taking s x dst req acc
  | inr s' => overflowed s'
  end.
Proof.
  intros (HT & HA & Haw & Hf) Hx Hd Hdh Hreq. apply loop_ret_inv.
  - intros src acc Hin Hacc. apply take_source_inv; try done. by apply (Haff dst).
  - split; [by rewrite alloc_zero|]. split; [done|lia].
Qed.

Lemma expert_done s0 s h dst requested x demand req s1 demand1 actual already fnd :
  0 <= x < E -> home x = h -> 0 <= dst < R -> dst <> h ->
  moving s0 h dst requested (s, demand, fnd) -> 0 < req <= demand ->
  taking s x dst req (s1, demand1, actual) ->
  (already = true <-> x ∈ remote_experts s dst) ->
  (already = false -> slotCount s dst < b_ inp) ->
  let s2 := commit_move inp s1 h dst x actual already in
  moving s0 h dst requested
    (if 0 <? demand1 then note_block inp s2 dst x else s2,
     if 0 <? actual then demand - actual else demand, true).
Proof.
  intros Hx Hh Hd Hdh (HI & Hdm & HL) Hreq Htk Hal Hslot s2. subst h.
  destruct (commit_inv s s1 x dst req demand1 actual already Hx Hd Hdh Htk Hal Hslot) as [HI2 HL2].
  fold s2 in HI2, HL2. destruct Htk as (_ & _ & Ha & Hd1 & Hsum).
  assert (flagged s2 (if 0 <? demand1 then note_block inp s2 dst x else s2)) as Hfl.
  { case_if; [apply note_block_flagged|by left]. }
  split; [by apply (flagged_inv s2)|].
  assert ((if 0 <? actual then demand - actual else demand) = demand - actual) as ->
    by (case_if; b2p; lia).
  split; [lia|]. intros r. rewrite (flagged_load _ _ Hfl), HL2, HL. repeat case_if; lia.
Qed.

Lemma move_expert_inv s0 h dst requested x acc :
  0 <= x < E -> home x = h -> 0 <= dst < R -> dst <> h -> moving s0 h dst requested acc ->
  match move_expert inp ws affinityOrder h dst x acc with
  | inl acc' => moving s0 h dst requested acc'
  | inr s' => overflowed s'
  end.
Proof.
  intros Hx Hh Hd Hdh. destruct acc as [[s demand] fnd]. intros Hm.
  pose proof Hm as (HI & Hdm & _). unfold move_expert.
  destruct (Z.leb_spec demand 0); [done|]. cbv zeta.
  destruct (Z.leb_spec (cell (alloc s) h x) 0); [done|].
  destruct (negb _ && _) eqn:Eb.
  { destruct Hm as (_ & _ & HL). split; [|done]. apply (flagged_inv s); [|done]. right. unfold set_slotBlock. eauto 10. }
  rewrite MinI32_min. set (req := Z.min (cell (alloc s) h x) demand).
  pose proof (affinity_loop s x dst req HI Hx Hd ltac:(by rewrite Hh) ltac:(lia)) as Hloop.
  destruct (loop_ret _ _ _) as [[[s1 demand1] actual]|s1]; [|done].
  apply (expert_done s0 s h dst requested x demand req s1 demand1 actual _ fnd); try done; try lia.
  apply find_remote.
Qed.

(** ** The move *)

Lemma expert_order_home s h x : 0 <= h < R -> x ∈ expert_order inp s h -> 0 <= x < E /\ home x = h.
Proof.
  intros Hh. unfold expert_order. rewrite insertion_sort_perm.
  rewrite list_elem_of_In, List.filter_In, <- list_elem_of_In. intros [Hin _].
  apply elem_of_seqZ in Hin. by apply home_block.
Qed.

(** What a move does: it keeps the invariant, never exceeds the request, and shifts exactly the
    reported number of tokens from one load to the other. *)
Lemma apply_move_spec s h dst requested : inv s -> 0 <= h < R -> 0 <= dst < R ->
  let '(s', moved) := ApplyExpertMove inp ws affinityOrder s h dst requested in
  (fatal s' = PLAN_OK /\ inv s' /\ 0 <= moved <= Z.max 0 requested /\
   forall r, rankLoad s' r = rankLoad s r - (if r =? h then moved else 0) + (if r =? dst then moved else 0)) \/
  (overflowed s' /\ moved = 0).
Proof.
  intros HI Hh Hd. unfold ApplyExpertMove.
  assert (fatal s = PLAN_OK) as Hf by apply HI. rewrite bool_decide_true by done.
  destruct (Z.leb_spec requested 0); cbn [orb].
  { left. split_and!; try done; try lia; intros; repeat case_if; lia. }
  destruct (Z.eqb_spec h dst) as [->|Hne]; cbn [orb negb].
  { left. split_and!; try done; try lia; intros; repeat case_if; lia. }
  pose proof (loop_ret_inv (moving s h dst requested)
    (fun s' => overflowed s')
    (move_expert inp ws affinityOrder h dst) (expert_order inp s h) (s, requested, false)) as HL.
  destruct (loop_ret _ _ _) as [[[s1 demand] fnd]|s1].
  - left. destruct HL as (HI1 & Hdm & HLd).
    + intros x acc [Hx Hhx]%expert_order_home Hacc; [|done]. by apply move_expert_inv.
    + split; [done|]. split; [lia|]. intros. repeat case_if; lia.
    + assert (flagged s1 (if (0 <? demand) && negb fnd then set_pairBlock s1 else s1)) as Hfl.
      { case_if; [right; unfold set_pairBlock; eauto 10|by left]. }
      split_and!; [|by apply (flagged_inv s1)|lia|lia|].
      * rewrite (flagged_fatal _ _ Hfl). apply HI1.
      * intros r. rewrite (flagged_load _ _ Hfl). apply HLd.
  - right. split; [|done]. apply HL.
    + intros x acc [Hx Hhx]%expert_order_home Hacc; [|done]. by apply move_expert_inv.
    + split; [done|]. split; [lia|]. intros. repeat case_if; lia.
Qed.
End move.
