(* ===== verification/PlanBalance.v ===== *)
(** The balancing loops of the planner: [RunIntra] and [RunInter] keep the invariant of
    PlanMove and stop, because every round that goes on lowers the total overload. *)
From S2P Require Import Prelude PlanTypes PlanSort PlanAlgorithm PlanMove.

Section balance.
Context (inp : PlanAlgorithmInput) (ws : PlanAlgorithmWorkspace) (affinityOrder : Z -> list Z).
Context (Hok : plan_ok inp ws).
Context (Haff : forall dst r, 0 <= dst < in_rankSize inp -> r ∈ affinityOrder dst ->
  0 <= r < in_rankSize inp).

#[local] Abbreviation R := (in_rankSize inp).
#[local] Abbreviation cap := (cap_ inp).
#[local] Abbreviation inv := (inv inp ws).
#[local] Abbreviation overflowed := (overflowed inp ws).

(** The tokens above the capacity. *)
Definition overload (s : PState) : Z := zsum (fun r => Z.max 0 (rankLoad s r - cap)) (seqZ 0 R).

Lemma overload_nonneg s : 0 <= overload s.
Proof. apply zsum_nonneg. intros. lia. Qed.

Lemma flagged_overload s s' : flagged s s' -> overload s' = overload s.
Proof. intros H. unfold overload. by rewrite (flagged_load s s' H). Qed.

(** A move between an overloaded and an underloaded rank lowers the overload by what it moves. *)
Lemma overload_move s s' h d moved : 0 <= h < R -> 0 <= d < R ->
  0 <= moved <= Z.min (rankLoad s h - cap) (cap - rankLoad s d) ->
  0 < Z.min (rankLoad s h - cap) (cap - rankLoad s d) ->
  (forall r, rankLoad s' r = rankLoad s r - (if r =? h then moved else 0) + (if r =? d then moved else 0)) ->
  overload s' + moved = overload s.
Proof.
  intros Hh Hd Hm Hpos HL. unfold overload. assert (h <> d) as Hne by (intros ->; lia).
  rewrite (zsum_change (fun r => Z.max 0 (rankLoad s' r - cap)) (fun r => Z.max 0 (rankLoad s r - cap)) _ h).
  - rewrite HL, Z.eqb_refl, (proj2 (Z.eqb_neq h d)) by done. lia.
  - apply NoDup_seqZ.
  - by apply elem_of_seqZ0.
  - intros r _ Hr. rewrite HL, (proj2 (Z.eqb_neq r h)) by done.
    destruct (Z.eqb_spec r d) as [->|]; lia.
Qed.

(** ** A round inside a server *)

(** [moved] tokens of overload have been removed since [s0]. *)
Definition relieved (s0 s : PState) (moved : Z) : Prop :=
  inv s /\ 0 <= moved /\ overload s + moved = overload s0.

Lemma requested_move s0 s h d moved : 0 <= h < R -> 0 <= d < R -> relieved s0 s moved ->
  let requested := MinI32 (rankLoad s h - cap) (cap - rankLoad s d) in
  let '(s1, m) := if 0 <? requested then ApplyExpertMove inp ws affinityOrder s h d requested else (s, 0) in
  (fatal s1 = PLAN_OK /\ 0 <= m /\ relieved s0 s1 (moved + m)) \/ overflowed s1.
Proof.
  intros Hh Hd (HI & Hm & Ho) requested. unfold requested. rewrite MinI32_min.
  destruct (Z.ltb_spec 0 (Z.min (rankLoad s h - cap) (cap - rankLoad s d))) as [Hpos|].
  - pose proof (apply_move_spec inp ws affinityOrder Hok Haff s h d
      (Z.min (rankLoad s h - cap) (cap - rankLoad s d)) HI Hh Hd) as Hs.
    destruct (ApplyExpertMove _ _ _ _ _ _ _) as [s1 m].
    destruct Hs as [(Hf & HI1 & Hm1 & HL)|[? _]]; [|by right]. left.
    split; [done|]. split; [lia|]. split; [done|]. split; [lia|].
    rewrite <- Ho, <- (overload_move s s1 h d m) by (try done; lia). lia.
  - left. split; [apply HI|]. split; [lia|]. split; [done|]. lia.
Qed.

Lemma intra_pairs_spec s pairs : inv s ->
  (forall h d, (h, d) ∈ pairs -> 0 <= h < R /\ 0 <= d < R) ->
  match intra_pairs inp ws affinityOrder s pairs with
  | inl (s1, moved) => relieved s s1 moved
  | inr s1 => overflowed s1
  end.
Proof.
  intros HI Hp. unfold intra_pairs.
  pose proof (loop_ret_inv (fun acc => relieved s (fst acc) (snd acc)) overflowed
    (fun p acc =>
      let '(s, actualRound) := acc in
      let requested := MinI32 (rankLoad s (fst p) - cap_ inp) (cap_ inp - rankLoad s (snd p)) in
      let '(s1, moved) :=
        if 0 <? requested then ApplyExpertMove inp ws affinityOrder s (fst p) (snd p) requested else (s, 0) in
      if bool_decide (fatal s1 = PLAN_OK) then inl (s1, actualRound + moved) else inr s1)
    pairs (s, 0)) as H.
  cbv beta in H. destruct (loop_ret _ _ _) as [[s1 moved]|s1]; apply H.
  1, 3: intros [h d] [s2 m2] Hin Hr; cbn [fst snd] in *; destruct (Hp h d Hin) as [Hh Hd];
    pose proof (requested_move s s2 h d m2 Hh Hd Hr) as Hm; cbv zeta in Hm |- *;
    destruct (if 0 <? _ then _ else _) as [s3 m3];
    destruct Hm as [(Hf & _ & ?)|Hov]; [by rewrite bool_decide_true|];
    rewrite bool_decide_false; [done|]; destruct Hov as [-> _]; done.
  all: split; [done|]; cbn; lia.
Qed.

(** What a round promises: going on lowers the overload, leaving keeps the invariant. *)
Definition round_ok (s : PState) (res : round_result) : Prop :=
  match res with
  | Continue s' => inv s' /\ overload s' < overload s
  | Break s' => (inv s' /\ overload s' <= overload s) \/ overflowed s'
  end.

Lemma sorted_candidates (p : Z -> bool) load asc :
  let candidates := List.filter p (seqZ 0 R) in
  SortRanks candidates load (globalRankIds inp) R asc =
    Some (insertion_sort (rank_better load (globalRankIds inp) asc) candidates) /\
  forall r, r ∈ insertion_sort (rank_better load (globalRankIds inp) asc) candidates -> 0 <= r < R.
Proof.
  intros candidates. pose proof (ok_R _ _ Hok).
  assert (forall r, r ∈ candidates -> 0 <= r < R) as Hr.
  { intros r. unfold candidates. rewrite list_elem_of_In, List.filter_In, <- list_elem_of_In, elem_of_seqZ0.
    tauto. }
  split; [|intros r; rewrite insertion_sort_perm; apply Hr].
  apply sort_ranks_some; [|done]. unfold candidates.
  pose proof (List.filter_length_le p (seqZ 0 R)). rewrite length_seqZ in H0. lia.
Qed.

Lemma elem_of_filter_list (p : Z -> bool) l x : x ∈ List.filter p l -> x ∈ l.
Proof. rewrite !list_elem_of_In, List.filter_In. tauto. Qed.

Lemma elem_of_take_list (l : list Z) k x : x ∈ take k l -> x ∈ l.
Proof. intros H. rewrite <- (take_drop k l), elem_of_app. by left. Qed.

Lemma elem_of_drop_list (l : list Z) k x : x ∈ drop k l -> x ∈ l.
Proof. intros H. rewrite <- (take_drop k l), elem_of_app. by right. Qed.

(** Senders and receivers of a round come from its active ranks. *)
Lemma paired_ranks (p q : Z -> bool) active k h d :
  (h, d) ∈ zip (List.filter p (rev (take k active))) (List.filter q (drop k active)) ->
  h ∈ active /\ d ∈ active.
Proof.
  intros Hin. split.
  - apply elem_of_zip_l, elem_of_filter_list in Hin. rewrite <- Permutation_rev in Hin.
    by apply elem_of_take_list in Hin.
  - apply elem_of_zip_r, elem_of_filter_list in Hin. by apply elem_of_drop_list in Hin.
Qed.

Lemma intra_round_ok s key : inv s -> round_ok s (intra_round inp ws affinityOrder s key).
Proof.
  intros HI. unfold intra_round. cbv zeta.
  destruct (sorted_candidates (fun r => (server_key inp r =? key) && negb (rankLoad s r =? cap))
    (rankLoad s) false) as [-> Hr].
  set (active := insertion_sort _ _) in *.
  case_if; [left; split; [done|lia]|].
  case_if; [left; split; [done|lia]|].
  set (middle := find_middle _ _ _ _).
  set (senders := List.filter _ (rev _)). set (receivers := List.filter _ (drop _ _)).
  assert (forall h d, (h, d) ∈ zip senders receivers -> 0 <= h < R /\ 0 <= d < R) as Hin.
  { intros h d [Hh Hd]%paired_ranks. auto. }
  pose proof (intra_pairs_spec s (zip senders receivers) HI Hin) as Hp.
  destruct (intra_pairs _ _ _ _ _) as [[s1 moved]|s1]; [|by right].
  destruct Hp as (HI1 & Hm & Ho).
  destruct (Z.eqb_spec moved 0).
  - left. assert (flagged s1 (set_pairBlock s1)) as Hfl by (right; unfold set_pairBlock; eauto 10).
    split; [by apply (flagged_inv _ _ s1)|]. rewrite (flagged_overload _ _ Hfl). lia.
  - assert (flagged s1 (count_intraRound s1)) as Hfl by (right; unfold count_intraRound; eauto 10).
    split; [by apply (flagged_inv _ _ s1)|]. rewrite (flagged_overload _ _ Hfl). lia.
Qed.

(** ** A round between servers *)

Lemma inter_candidates_spec s0 dst senders l : 0 <= dst < R ->
  (forall r, r ∈ l -> 0 <= r < R) -> forall s occupied cands moved, relieved s0 s moved ->
  let '(s1, _, actual) := inter_candidates inp ws affinityOrder s dst senders occupied l cands in
  (fatal s1 = PLAN_OK /\ 0 <= actual /\ relieved s0 s1 (moved + actual)) \/ overflowed s1.
Proof.
  intros Hd. induction l as [|src l IH]; intros Hl s occupied cands moved Hr; cbn [inter_candidates].
  { left. split; [apply Hr|]. split; [lia|]. by rewrite Z.add_0_r. }
  assert (0 <= src < R) as Hsrc by (apply Hl; by left).
  assert (forall r, r ∈ l -> 0 <= r < R) as Hl' by (intros; apply Hl; by right).
  case_if. { left. split; [apply Hr|]. split; [lia|]. by rewrite Z.add_0_r. }
  case_if; [by apply IH|]. case_if; [by apply IH|].
  destruct (Z.leb_spec (MinI32 (rankLoad s src - cap) (cap - rankLoad s dst)) 0); [by apply IH|].
  pose proof (requested_move s0 s src dst moved Hsrc Hd Hr) as Hm. cbv zeta in Hm.
  rewrite (proj2 (Z.ltb_lt 0 _)) in Hm by done.
  destruct (ApplyExpertMove _ _ _ _ _ _ _) as [s1 m].
  destruct Hm as [(Hf & Hm & Hr1)|Hov].
  - rewrite bool_decide_true by done. cbn [negb]. case_if; [by left|].
    assert (m = 0) as -> by (b2p; lia). rewrite Z.add_0_r in Hr1. by apply IH.
  - rewrite bool_decide_false; [|by destruct Hov as [-> _]]. cbn [negb]. by right.
Qed.

Lemma inter_receivers_spec s senders receivers : inv s ->
  (forall r, r ∈ receivers -> 0 <= r < R) ->
  match inter_receivers inp ws affinityOrder s senders receivers with
  | inl (s1, _, moved) => relieved s s1 moved
  | inr s1 => overflowed s1
  end.
Proof.
  intros HI Hr. unfold inter_receivers.
  pose proof (loop_ret_inv (fun acc => relieved s (fst (fst acc)) (snd acc)) overflowed
    (fun dst acc =>
      let '(s, occupied, actualRound) := acc in
      let '(s1, occupied1, actual) :=
        inter_candidates inp ws affinityOrder s dst senders occupied (affinityOrder dst) 0 in
      if bool_decide (fatal s1 = PLAN_OK) then inl (s1, occupied1, actualRound + actual)
      else inr s1) receivers (s, fun _ => false, 0)) as H.
  cbv beta in H. destruct (loop_ret _ _ _) as [[[s1 occ1] moved]|s1]; apply H.
  1, 3: intros dst [[s2 occ2] m2] Hin Hrel; cbn [fst snd] in *;
    pose proof (inter_candidates_spec s dst senders (affinityOrder dst) (Hr dst Hin)
      (fun r => Haff dst r (Hr dst Hin)) s2 occ2 0 m2 Hrel) as Hc;
    destruct (inter_candidates _ _ _ _ _ _ _ _ _) as [[s3 occ3] m3];
    destruct Hc as [(Hf & _ & ?)|Hov]; [by rewrite bool_decide_true|];
    rewrite bool_decide_false; [done|]; destruct Hov as [-> _]; done.
  all: split; [done|]; cbn; lia.
Qed.

Lemma inter_round_ok s : inv s -> round_ok s (inter_round inp ws affinityOrder s).
Proof.
  intros HI. unfold inter_round. cbv zeta.
  case_if; [left; split; [done|lia]|].
  destruct (sorted_candidates (fun r => negb (rankLoad s r =? cap)) (rankLoad s) false) as [-> Hr].
  set (active := insertion_sort _ _) in *.
  case_if; [left; split; [done|lia]|].
  set (senderCount := Z.to_nat _).
  assert (forall r, r ∈ drop senderCount active -> 0 <= r < R) as Hdr.
  { intros r Hin%elem_of_drop_list. auto. }
  rewrite sort_ranks_some; [|..|done].
  2: { pose proof (ok_R _ _ Hok). rewrite length_drop. unfold active.
       rewrite (Permutation_length (insertion_sort_perm _ _)).
       pose proof (List.filter_length_le (fun r => negb (rankLoad s r =? cap)) (seqZ 0 R)) as Hle.
       rewrite length_seqZ in Hle. lia. }
  set (receivers := insertion_sort _ (drop _ _)).
  pose proof (inter_receivers_spec s (take senderCount active) receivers HI) as Hp.
  destruct (inter_receivers _ _ _ _ _ _) as [[[s1 occ] moved]|s1].
  2: { right. apply Hp. intros r. unfold receivers. rewrite insertion_sort_perm. apply Hdr. }
  destruct Hp as (HI1 & Hm & Ho). { intros r. unfold receivers. rewrite insertion_sort_perm. apply Hdr. }
  destruct (Z.eqb_spec moved 0).
  - left. assert (flagged s1 (set_pairBlock s1)) as Hfl by (right; unfold set_pairBlock; eauto 10).
    split; [by apply (flagged_inv _ _ s1)|]. rewrite (flagged_overload _ _ Hfl). lia.
  - assert (flagged s1 (count_interRound s1)) as Hfl by (right; unfold count_interRound; eauto 10).
    split; [by apply (flagged_inv _ _ s1)|]. rewrite (flagged_overload _ _ Hfl). lia.
Qed.

(** ** Termination *)

(** A loop whose rounds lower the overload stops within [overload + 1] rounds. *)
Lemma rounds_stop round fuel : (forall s, inv s -> round_ok s (round s)) ->
  forall s, inv s -> overload s < Z.of_nat fuel ->
  exists s', iterate_rounds round fuel s = Some s' /\
    ((inv s' /\ overload s' <= overload s) \/ overflowed s').
Proof.
  intros Hround. induction fuel as [|fuel IH]; intros s HI Ho; [pose proof (overload_nonneg s); lia|].
  cbn. pose proof (Hround s HI) as Hr. destruct (round s) as [s1|s1].
  - destruct Hr as [HI1 Hlt]. destruct (IH s1 HI1 ltac:(lia)) as (s' & E1 & [[? ?]|?]);
      exists s'; (split; [done|]); [left; split; [done|lia]|by right].
  - exists s1. split; [done|]. done.
Qed.

(** The keys still to be visited. *)
Definition keys_above (key : Z) : list Z := List.filter (fun r => key <? server_key inp r) (seqZ 0 R).

Lemma next_server_key_spec key : next_server_key inp key <> INT32_MAX ->
  key < next_server_key inp key /\ exists r, 0 <= r < R /\ server_key inp r = next_server_key inp key.
Proof.
  unfold next_server_key.
  assert (forall l acc, (forall r, r ∈ l -> 0 <= r < R) ->
    acc = INT32_MAX \/ (key < acc /\ exists r, 0 <= r < R /\ server_key inp r = acc) ->
    let k := foldl (fun serverKey r => let key' := server_key inp r in
               if (key <? key') && (key' <? serverKey) then key' else serverKey) acc l in
    k = INT32_MAX \/ (key < k /\ exists r, 0 <= r < R /\ server_key inp r = k)) as H.
  { induction l as [|r l IH]; intros acc Hl Hacc; [done|]. cbn [foldl]. apply IH.
    - intros; apply Hl; by right.
    - cbv zeta. case_if; [|done]. b2p. right. split; [done|]. exists r. split; [apply Hl; by left|done]. }
  intros Hne. destruct (H (seqZ 0 R) INT32_MAX) as [?|?]; try done; [|by left].
  intros r. by rewrite elem_of_seqZ0.
Qed.

Lemma keys_above_decrease key : next_server_key inp key <> INT32_MAX ->
  (length (keys_above (next_server_key inp key)) < length (keys_above key))%nat.
Proof.
  intros Hne. destruct (next_server_key_spec key Hne) as (Hlt & r & Hr & Ek). set (k := next_server_key inp key) in *.
  unfold keys_above. apply elem_of_seqZ0 in Hr. clear Hne.
  assert (forall l, (length (List.filter (fun r => k <? server_key inp r)%Z l) <=
                     length (List.filter (fun r => key <? server_key inp r)%Z l))%nat) as Hle.
  { induction l as [|x l IH]; [done|]. cbn.
    destruct (Z.ltb_spec k (server_key inp x)), (Z.ltb_spec key (server_key inp x)); cbn; lia. }
  induction (seqZ 0 R) as [|x l IH]; [by inversion Hr|].
  apply elem_of_cons in Hr as [<-|Hr]; cbn.
  - rewrite Ek, Z.ltb_irrefl, (proj2 (Z.ltb_lt key k)) by done. cbn. specialize (Hle l). lia.
  - specialize (IH Hr). destruct (Z.ltb_spec k (server_key inp x)), (Z.ltb_spec key (server_key inp x)); cbn; lia.
Qed.

Lemma intra_servers_stop roundFuel fuel : forall key s, inv s -> overload s < Z.of_nat roundFuel ->
  (length (keys_above key) < fuel)%nat ->
  exists s', intra_servers inp ws affinityOrder roundFuel fuel key s = Some s' /\
    ((inv s' /\ overload s' <= overload s) \/ overflowed s').
Proof.
  induction fuel as [|fuel IH]; intros key s HI Ho Hk; [lia|]. cbn [intra_servers]. cbv zeta.
  destruct (Z.eqb_spec (next_server_key inp key) INT32_MAX) as [|Hne].
  { exists s. split; [done|]. left. split; [done|lia]. }
  destruct (rounds_stop (fun s => intra_round inp ws affinityOrder s (next_server_key inp key)) roundFuel
    (fun s Hs => intra_round_ok s _ Hs) s HI Ho) as (s1 & -> & [[HI1 Ho1]|Hov]).
  - rewrite bool_decide_true by apply HI1. pose proof (keys_above_decrease key Hne).
    destruct (IH (next_server_key inp key) s1 HI1 ltac:(lia) ltac:(lia)) as (s' & E1 & [[? ?]|?]);
      exists s'; (split; [done|]); [left; split; [done|lia]|by right].
  - rewrite bool_decide_false; [|by destruct Hov as [-> _]]. exists s1. split; [done|by right].
Qed.

Lemma run_intra_stop fuel s : inv s -> overload s < Z.of_nat fuel ->
  exists s', RunIntra inp ws affinityOrder fuel s = Some s' /\
    ((inv s' /\ overload s' <= overload s) \/ overflowed s').
Proof.
  intros HI Ho. apply intra_servers_stop; try done. unfold keys_above. pose proof (ok_R _ _ Hok).
  pose proof (List.filter_length_le (fun r => INT32_MIN <? server_key inp r) (seqZ 0 R)) as Hle.
  rewrite length_seqZ in Hle. lia.
Qed.

Lemma run_inter_stop fuel s : inv s -> overload s < Z.of_nat fuel ->
  exists s', RunInter inp ws affinityOrder fuel s = Some s' /\
    ((inv s' /\ overload s' <= overload s) \/ overflowed s').
Proof. intros HI Ho. apply rounds_stop; try done. intros. by apply inter_round_ok. Qed.
End balance.
