(* ===== verification/PlanFinal.v ===== *)
(** From the input to the end of the balancing: what [Validate] guarantees, the initial
    state, the segments of the tokens that stay at home, and the state the layouts are built
    from. *)
From S2P Require Import Prelude PlanTypes PlanSort PlanAlgorithm PlanOutput PlanMove PlanBalance.

(** ** Validation *)

Lemma count_experts_ok inp cap count : count_experts inp cap = inl count ->
  (forall route, 0 <= route < cap -> 0 <= topkExperts inp route < in_expertNum inp) /\
  forall e, count e =
    Z.of_nat (length (List.filter (fun route => topkExperts inp route =? e) (seqZ 0 cap))).
Proof.
  unfold count_experts. intros H.
  assert (forall l c0 c, loop_ret (fun route count =>
      let e := topkExperts inp route in
      if (e <? 0) || (in_expertNum inp <=? e) then inr PLAN_ERROR_CONFIG_MISMATCH
      else inl (upd1 count e (count e + 1))) l c0 = inl c ->
    (forall route, route ∈ l -> 0 <= topkExperts inp route < in_expertNum inp) /\
    forall e, c e = c0 e + Z.of_nat (length (List.filter (fun route => topkExperts inp route =? e) l)))
    as HL.
  { induction l as [|x l IH]; intros c0 c; cbn [loop_ret List.filter].
    - intros [= ->]. split; [intros ? Hx; by inversion Hx|]. intros. cbn. lia.
    - cbv zeta. case_if; [done|]. intros Hl. apply IH in Hl as [Hr Hc]. split.
      + intros route [->|Hin]%elem_of_cons; [b2p; lia|auto].
      + intros e. rewrite Hc. unfold upd1. rewrite (Z.eqb_sym e). destruct (Z.eqb_spec (topkExperts inp x) e);
          cbn [length]; subst; lia. }
  apply HL in H as [H1 H2]. split; [intros; apply H1; by apply elem_of_seqZ0|]. intros e. rewrite H2. lia.
Qed.

Lemma check_tokens_ok inp cap count u : check_tokens_per_expert inp cap count = inl u ->
  forall src, 0 <= src < in_rankSize inp ->
  zsum (fun e => tokensPerExpert inp (ReIndex src e (in_expertNum inp))) (seqZ 0 (in_expertNum inp)) = cap /\
  forall e, 0 <= e < in_expertNum inp ->
    0 <= tokensPerExpert inp (ReIndex src e (in_expertNum inp)) /\
    (src = in_rank inp -> tokensPerExpert inp (ReIndex src e (in_expertNum inp)) = count e).
Proof.
  unfold check_tokens_per_expert. intros H src Hsrc. apply elem_of_seqZ0 in Hsrc.
  pose proof (loop_ret_checks _ _ _ H src Hsrc) as Hb. clear H. cbv beta in Hb.
  assert (forall l s0 s1, loop_ret (fun e sum =>
      let value := tokensPerExpert inp (ReIndex src e (in_expertNum inp)) in
      if value <? 0 then inr PLAN_ERROR_CONFIG_MISMATCH
      else if (src =? in_rank inp) && negb (value =? count e) then inr PLAN_ERROR_TPE_MISMATCH
      else inl (sum + value)) l s0 = inl s1 ->
    s1 = s0 + zsum (fun e => tokensPerExpert inp (ReIndex src e (in_expertNum inp))) l /\
    forall e, e ∈ l -> 0 <= tokensPerExpert inp (ReIndex src e (in_expertNum inp)) /\
      (src = in_rank inp -> tokensPerExpert inp (ReIndex src e (in_expertNum inp)) = count e)) as HL.
  { induction l as [|x l IH]; intros s0 s1; cbn [loop_ret].
    - intros [= ->]. split; [cbn; lia|]. intros ? Hx. by inversion Hx.
    - cbv zeta. case_if; [done|]. case_if; [done|]. intros Hl. apply IH in Hl as [-> Hr].
      rewrite zsum_cons. split; [lia|]. intros e [->|Hin]%elem_of_cons; [|auto]. b2p. split; [lia|].
      intros Hs. destruct E0 as [E0|E0]; b2p; [done|]. lia. }
  destruct (loop_ret _ _ 0) as [sum|st] eqn:Es; [|done]. case_if_in Hb; [|done].
  apply HL in Es as [-> Hr]. b2p. split; [lia|].
  intros e He. apply Hr. by apply elem_of_seqZ0.
Qed.

Lemma rank_ids_ok inp r : duplicate_rank_ids inp = false -> 0 <= r < in_rankSize inp ->
  0 <= globalRankIds inp r.
Proof.
  unfold duplicate_rank_ids. intros H Hr. destruct (Z.ltb_spec (globalRankIds inp r) 0); [|lia].
  exfalso. revert H. apply eq_true_false_abs, List.existsb_exists. exists r.
  split; [by apply list_elem_of_In, elem_of_seqZ0|]. by rewrite (proj2 (Z.ltb_lt _ _)).
Qed.

(** A rejection is never reported as success. *)
Lemma count_experts_rejects inp cap st : count_experts inp cap = inr st -> st <> PLAN_OK.
Proof.
  unfold count_experts. intros H.
  match type of H with ?l = _ => assert (match l with inl _ => True | inr r => r <> PLAN_OK end) as HL end.
  { apply (loop_ret_inv (fun _ => True) (fun r => r <> PLAN_OK)); [|done].
    intros. cbv zeta. by case_if. }
  rewrite H in HL. done.
Qed.

Lemma check_tokens_rejects inp cap count st :
  check_tokens_per_expert inp cap count = inr st -> st <> PLAN_OK.
Proof.
  unfold check_tokens_per_expert. intros H.
  match type of H with ?l = _ => assert (match l with inl _ => True | inr r => r <> PLAN_OK end) as HL end.
  { apply (loop_ret_inv (fun _ => True) (fun r => r <> PLAN_OK)); [|done].
    intros src [] _ _. match goal with |- context [loop_ret ?b ?l 0] =>
      assert (match loop_ret b l 0 with inl _ => True | inr r => r <> PLAN_OK end) as Hi end.
    { apply (loop_ret_inv (fun _ => True) (fun r => r <> PLAN_OK)); [|done].
      intros. cbv zeta. by repeat case_if. }
    destruct (loop_ret _ _ 0); [by case_if|done]. }
  rewrite H in HL. done.
Qed.

(** Accepted input is sound input. *)
Lemma validate_ok inp ws : Validate inp ws = PLAN_OK -> plan_ok inp ws.
Proof.
  unfold Validate. cbv zeta. case_if; [done|]. case_if; [done|]. case_if; [done|].
  destruct (count_experts inp _) as [count|] eqn:Ec; [|by apply count_experts_rejects in Ec].
  destruct (check_tokens_per_expert inp _ count) as [u|] eqn:Et; [|by apply check_tokens_rejects in Et]. intros _.
  pose proof (check_tokens_ok _ _ _ _ Et) as HT. destruct (count_experts_ok _ _ _ Ec) as [HK HC].
  b2p. repeat match goal with H : Bool.eqb _ _ = _ |- _ => clear H | H : _ \/ _ |- _ => clear H end.
  assert (in_expertNum inp = in_rankSize inp * expertsPerRank inp) as HE.
  { unfold expertsPerRank. pose proof (Z.div_mod (in_expertNum inp) (in_rankSize inp)). lia. }
  constructor; unfold cap_, b_, routeLimit; try lia.
  - intros. by apply rank_ids_ok.
  - intros. apply HK. lia.
  - intros src e Hs He. by apply (HT src Hs).
  - intros src Hs. destruct (HT src Hs) as [-> _]. lia.
  - intros e He. replace (rankTokenCapacity (in_config inp)) with (in_s inp * in_topK inp) by lia.
    rewrite <- HC. apply (HT (in_rank inp)); [lia|done|done].
Qed.

(** ** From the initial state to the end of the balancing *)

Section final.
Context (inp : PlanAlgorithmInput) (ws : PlanAlgorithmWorkspace) (Hok : plan_ok inp ws).

#[local] Abbreviation R := (in_rankSize inp).
#[local] Abbreviation E := (in_expertNum inp).
#[local] Abbreviation cap := (cap_ inp).
#[local] Abbreviation cell t r e := (t (ReIndex r e (in_expertNum inp))).
#[local] Abbreviation home e := (HomeRank e (expertsPerRank inp)).
#[local] Abbreviation tok_inv := (tok_inv inp ws).
#[local] Abbreviation inv := (inv inp ws).
#[local] Abbreviation overflowed := (overflowed inp ws).

(** The tokens routed to an expert by all the ranks. *)
Definition expert_tokens (e : Z) : Z := zsum (fun src => cell (tokensPerExpert inp) src e) (seqZ 0 R).

Lemma expert_tokens_nonneg e : 0 <= e < E -> 0 <= expert_tokens e.
Proof. intros He. apply zsum_nonneg. intros src Hs%elem_of_seqZ0. by apply (ok_tpe _ _ Hok). Qed.

Lemma initial_tables :
  (forall r e, 0 <= e < E ->
     cell (alloc (initial_state inp)) r e = if r =? home e then expert_tokens e else 0) /\
  (forall r, rankLoad (initial_state inp) r =
     zsum (fun e => if home e =? r then expert_tokens e else 0) (seqZ 0 E)).
Proof.
  assert (forall l al0 load0, NoDup l -> (forall e, e ∈ l -> 0 <= e < E) ->
    let '(al, load) := foldl (fun acc expert =>
        let '(al, load) := acc in
        let count := foldl (fun c src => c + cell (tokensPerExpert inp) src expert) 0 (seqZ 0 R) in
        let h := home expert in
        (upd1 al (ReIndex h expert E) count, upd1 load h (load h + count))) (al0, load0) l in
    (forall r e, 0 <= e < E -> cell al r e =
       if decide (e ∈ l /\ r = home e) then expert_tokens e else cell al0 r e) /\
    (forall r, load r = load0 r + zsum (fun e => if home e =? r then expert_tokens e else 0) l)) as H.
  { induction l as [|x l IH]; intros al0 load0 Hnd Hl; cbn [foldl].
    - split; [intros r e He; rewrite decide_False; [done|]; intros [Hin _]; by inversion Hin|].
      intros r. cbn. lia.
    - apply NoDup_cons in Hnd as [Hx Hnd]. cbv zeta. rewrite foldl_zsum, Z.add_0_l.
      fold (expert_tokens x). assert (0 <= x < E) as HxE by (apply Hl; by left).
      specialize (IH (upd1 al0 (ReIndex (home x) x E) (expert_tokens x))
        (upd1 load0 (home x) (load0 (home x) + expert_tokens x)) Hnd
        ltac:(intros; apply Hl; by right)).
      destruct (foldl _ _ l) as [al load]. destruct IH as [Hal Hload]. split.
      + intros r e He. rewrite Hal by done. rewrite upd_cell by done.
        repeat case_decide; rewrite ?elem_of_cons in *; try tauto.
        * destruct H0 as [-> ->]. done.
        * destruct H0 as [-> ->]. tauto.
        * destruct H1 as [[->|?] ->]; tauto.
      + intros r. rewrite Hload, zsum_cons. unfold upd1. rewrite (Z.eqb_sym r).
        destruct (Z.eqb_spec (home x) r); subst; lia. }
  specialize (H (seqZ 0 E) (fun _ => 0) (fun _ => 0) (NoDup_seqZ 0 E)
    (fun e => proj1 (elem_of_seqZ0 E e))).
  unfold initial_state. cbv zeta. destruct (foldl _ _ _) as [al load]. destruct H as [Hal Hload].
  cbn [alloc rankLoad]. split.
  - intros r e He. rewrite Hal by done. destruct (Z.eqb_spec r (home e)).
    + rewrite decide_True; [done|]. by rewrite elem_of_seqZ0.
    + rewrite decide_False; [done|]. tauto.
  - intros r. rewrite Hload. lia.
Qed.

Lemma initial_fields :
  remainingTpe (initial_state inp) = tokensPerExpert inp /\ segLog (initial_state inp) = [] /\
  tokenSegments (initial_state inp) = [] /\ slotCount (initial_state inp) = (fun _ => 0) /\
  srcExpertCursor (initial_state inp) = (fun _ => 0) /\ dstExpertCursor (initial_state inp) = (fun _ => 0) /\
  routedPairTokens (initial_state inp) = (fun _ => 0) /\ fatal (initial_state inp) = PLAN_OK.
Proof. unfold initial_state. cbv zeta. by destruct (foldl _ _ _). Qed.

Lemma initial_inv : inv (initial_state inp).
Proof.
  destruct initial_tables as [Hal Hload].
  destruct initial_fields as (Er & El & Es & Ec & Esc & Edc & Ep & Ef).
  pose proof (ok_b _ _ Hok). pose proof (ok_limit _ _ Hok).
  split; [|split; [|split; [|done]]].
  - constructor; rewrite ?Er, ?El, ?Es, ?Esc, ?Edc, ?Ep; try done.
    + constructor.
    + unfold localSegments. rewrite Es. cbn. lia.
    + intros src e Hs He. split; [by apply (ok_tpe _ _ Hok)|lia].
  - constructor; rewrite ?Er, ?Edc, ?Ec; try done.
    + intros e He. rewrite Hal, Z.eqb_refl by done. fold (expert_tokens e). destruct (e =? -1); lia.
    + intros d e Hd He Hne. rewrite Hal, (proj2 (Z.eqb_neq d (home e))) by done.
      destruct (_ && _); lia.
    + intros d e Hd He. rewrite Hal by done. pose proof (expert_tokens_nonneg e He). case_if; lia.
    + intros d Hd. rewrite Hload. apply zsum_ext. intros e He%elem_of_seqZ0. rewrite Hal by done.
      by rewrite Z.eqb_sym.
    + intros d Hd. cbn. lia.
    + intros d Hd. unfold remote_experts. rewrite Ec. constructor.
    + intros d e Hd He Hne. rewrite Hal, (proj2 (Z.eqb_neq d (home e))) by done. lia.
  - intros m. rewrite El. intros Hm. by inversion Hm.
Qed.

(** All the loads together are all the routes of all the ranks. *)
Lemma total_tokens : zsum expert_tokens (seqZ 0 E) = R * cap.
Proof.
  unfold expert_tokens. pose proof (ok_R _ _ Hok).
  rewrite (zsum_swap (fun e src => cell (tokensPerExpert inp) src e)).
  rewrite (zsum_ext _ (fun _ => cap)) by (intros src Hs%elem_of_seqZ0; by apply (ok_sum _ _ Hok)).
  rewrite zsum_const, length_seqZ0; lia.
Qed.

Lemma initial_overload : overload inp (initial_state inp) <= R * cap.
Proof.
  destruct initial_tables as [_ Hload]. unfold overload. rewrite <- total_tokens.
  assert (0 <= cap). { rewrite (ok_cap _ _ Hok). pose proof (ok_s _ _ Hok). pose proof (ok_topK _ _ Hok). nia. }
  transitivity (zsum (fun r => zsum (fun e => if home e =? r then expert_tokens e else 0) (seqZ 0 E)) (seqZ 0 R)).
  - apply zsum_le. intros r Hr%elem_of_seqZ0. rewrite Hload.
    assert (0 <= zsum (fun e => if home e =? r then expert_tokens e else 0) (seqZ 0 E)); [|lia].
    apply zsum_nonneg. intros e He%elem_of_seqZ0. pose proof (expert_tokens_nonneg e He). case_if; lia.
  - rewrite zsum_swap. apply Z.eq_le_incl, zsum_ext. intros e He%elem_of_seqZ0.
    rewrite (zsum_single _ (seqZ 0 R) (home e)).
    + by rewrite Z.eqb_refl.
    + apply NoDup_seqZ.
    + apply elem_of_seqZ0. by apply (home_range inp ws Hok).
    + intros r _ Hne. by rewrite (proj2 (Z.eqb_neq _ _)).
Qed.

(** *** What stays at home *)

(** While the remainders are appended: the tables of [s0], and the home allocation split into
    what is recorded and what is left. *)
Record settling (s0 s : PState) : Prop := {
  se_tok : tok_inv s;
  se_fatal : fatal s = PLAN_OK;
  se_tables : alloc s = alloc s0 /\ rankLoad s = rankLoad s0 /\ slotCount s = slotCount s0 /\
    remoteExpertSet s = remoteExpertSet s0 /\
    (slotBlock s = slotBlock s0 /\ supplyBlock s = supplyBlock s0);
  se_home e : 0 <= e < E -> cell (alloc s) (home e) e =
    zsum (fun src => cell (remainingTpe s) src e) (seqZ 0 R) + cell (dstExpertCursor s) (home e) e;
  se_dst d e : 0 <= d < R -> 0 <= e < E -> d <> home e ->
    cell (alloc s) d e = cell (dstExpertCursor s) d e
}.

Lemma home_total log e : 0 <= e < E -> (forall m, m ∈ log -> dstRank m <> home (expertId m)) ->
  dst_total log (home e) e = 0.
Proof.
  intros He Haw. unfold dst_total. rewrite (zsum_ext _ (fun _ => 0)), zsum_const; [lia|].
  intros m Hm. specialize (Haw m Hm). destruct (Z.eqb_spec (dstRank m) (home e)), (Z.eqb_spec (expertId m) e);
    cbn; try done. congruence.
Qed.

Lemma settling_start s : inv s -> settling s s.
Proof.
  intros (HT & HA & Haw & Hf). split; try done.
  - intros e He. rewrite (a_home _ _ _ _ _ HA e He), (t_dst _ _ _ HT) by (try done; by apply (home_range inp ws Hok)).
    rewrite home_total by done. destruct (_ =? _); lia.
  - intros d e Hd He Hne. rewrite (a_dst _ _ _ _ _ HA d e Hd He Hne). destruct (_ && _); lia.
Qed.

Lemma append_remainder_ok s0 x src s : 0 <= x < E -> 0 <= src < R -> settling s0 s ->
  match append_remainder inp ws x src s with
  | inl s' => settling s0 s' /\ cell (remainingTpe s') src x = 0 /\
      forall i e, 0 <= i < R -> 0 <= e < E -> cell (remainingTpe s) i e = 0 -> cell (remainingTpe s') i e = 0
  | inr s' => overflowed s'
  end.
Proof.
  intros Hx Hs [HT Hf Htab Hh Hd]. unfold append_remainder. cbv zeta.
  destruct (t_rem _ _ _ HT src x Hs Hx) as [Hpos _].
  destruct (Z.leb_spec (cell (remainingTpe s) src x) 0).
  { split; [by split|]. split; [lia|done]. }
  pose proof (home_range inp ws Hok x Hx) as Hhr.
  set (count := cell (remainingTpe s) src x) in *.
  destruct (AppendSegment _ _ _ _ _ _ _ _ _) as [s1 ok] eqn:Eap.
  pose proof (append_inv inp ws Hok s x src (home x) count s1 ok HT Hx Hs Hhr ltac:(unfold count in *; lia) Eap) as Hap.
  destruct ok; [|done]. destruct Hap as (m & Em & -> & Hlog & Hcap).
  cbn [remainingTpe srcExpertCursor dstExpertCursor routedPairTokens with_segments] in *.
  rewrite (f_equal (upd1 (remainingTpe s) (ReIndex src x E)) (eq_sym (Z.sub_diag count))).
  split; [|split].
  - split; cbn [fatal alloc rankLoad slotCount remoteExpertSet slotBlock supplyBlock with_tokens with_segments
      remainingTpe dstExpertCursor]; try done.
    + apply tok_take; try done; try (unfold count; lia). intros i d Hi Hd' Hlim.
      rewrite away_total_snoc. subst m. cbn [srcRank dstRank expertId].
      rewrite Z.eqb_refl. cbn [negb]. rewrite andb_false_r, Z.add_0_r. by apply (t_route _ _ _ HT).
    + intros e He. rewrite column_sum_upd, upd_cell, (Hh e He) by done.
      fold count. destruct (Z.eqb_spec e x) as [->|]; [rewrite decide_True by done|rewrite decide_False by tauto]; lia.
    + intros d e Hd' He Hne. rewrite upd_cell, (Hd d e Hd' He Hne) by done.
      rewrite decide_False; [done|]. intros [-> ->]. done.
  - cbn. rewrite upd1_eq. fold count. lia.
  - intros i e Hi He Hz. cbn. rewrite upd_cell by done. case_decide; [fold count; lia|done].
Qed.

(** The state the layouts are built from. *)
Record settled (s : PState) : Prop := {
  fin_tok : tok_inv s;
  fin_fatal : fatal s = PLAN_OK;
  fin_src src e : 0 <= src < R -> 0 <= e < E -> src_total (segLog s) src e = cell (tokensPerExpert inp) src e;
  fin_dst d e : 0 <= d < R -> 0 <= e < E -> dst_total (segLog s) d e = cell (alloc s) d e;
  fin_pos d e : 0 <= d < R -> 0 <= e < E -> 0 <= cell (alloc s) d e;
  fin_load d : 0 <= d < R -> rankLoad s d = zsum (fun e => cell (alloc s) d e) (seqZ 0 E);
  fin_slots d : 0 <= d < R -> 0 <= slotCount s d <= b_ inp;
  fin_row d : 0 <= d < R -> NoDup (remote_experts inp s d);
  fin_remote d e : 0 <= d < R -> 0 <= e < E -> d <> home e -> 0 < cell (alloc s) d e ->
    e ∈ remote_experts inp s d
}.

Lemma append_remainders_ok s : inv s ->
  let s' := AppendRemainders inp ws s in
  (settled s' /\ rankLoad s' = rankLoad s) \/ overflowed s'.
Proof.
  intros HI. unfold AppendRemainders.
  pose proof (loop_ret_all (settling s)
    (fun x s' => 0 <= x < E -> forall src, 0 <= src < R -> cell (remainingTpe s') src x = 0) overflowed
    (fun expert s => loop_ret (append_remainder inp ws expert) (seqZ 0 R) s) (seqZ 0 E) s) as HL.
  assert (forall x s1, x ∈ seqZ 0 E -> settling s s1 ->
    match loop_ret (append_remainder inp ws x) (seqZ 0 R) s1 with
    | inl s' => settling s s' /\
        (0 <= x < E -> forall src, 0 <= src < R -> cell (remainingTpe s') src x = 0) /\
        forall y, (0 <= y < E -> forall src, 0 <= src < R -> cell (remainingTpe s1) src y = 0) ->
          0 <= y < E -> forall src, 0 <= src < R -> cell (remainingTpe s') src y = 0
    | inr r => overflowed r
    end) as Hin.
  { intros x s1 Hx%elem_of_seqZ0 Hs1.
    pose proof (loop_ret_all (settling s)
      (fun src s' => 0 <= src < R -> cell (remainingTpe s') src x = 0) overflowed
      (append_remainder inp ws x) (seqZ 0 R) s1) as H1.
    pose proof (loop_ret_inv (fun s' => settling s s' /\ forall i e, 0 <= i < R -> 0 <= e < E ->
        cell (remainingTpe s1) i e = 0 -> cell (remainingTpe s') i e = 0) overflowed
      (append_remainder inp ws x) (seqZ 0 R) s1) as H2.
    destruct (loop_ret (append_remainder inp ws x) (seqZ 0 R) s1) as [s2|s2].
    - destruct H1 as (Hse & Hall & _); [|done|].
      { intros src s3 Hsrc%elem_of_seqZ0 Hs3. pose proof (append_remainder_ok s x src s3 Hx Hsrc Hs3) as Ha.
        destruct (append_remainder _ _ _ _ _); [|done]. destruct Ha as (? & ? & Hk). split; [done|].
        split; [done|]. intros y Hy Hyr. apply Hk; auto. }
      destruct H2 as [_ Hk].
      { intros src s3 Hsrc%elem_of_seqZ0 [Hs3 Hk3]. pose proof (append_remainder_ok s x src s3 Hx Hsrc Hs3) as Ha.
        destruct (append_remainder _ _ _ _ _); [|done]. destruct Ha as (? & ? & Hk). auto. }
      { done. }
      split; [done|]. split; [|auto]. intros _ src Hsrc. apply Hall; [by apply elem_of_seqZ0|done].
    - apply H1; [|done].
      intros src s3 Hsrc%elem_of_seqZ0 Hs3. pose proof (append_remainder_ok s x src s3 Hx Hsrc Hs3) as Ha.
      destruct (append_remainder _ _ _ _ _); [|done]. destruct Ha as (? & ? & Hk). split; [done|].
      split; [done|]. intros y Hy Hyr. apply Hk; auto. }
  specialize (HL Hin (settling_start s HI)).
  destruct (loop_ret _ (seqZ 0 E) s) as [s'|s']; [|by right]. left.
  destruct HL as (Hse & Hall & _). destruct Hse as [HT Hf (Ea & El & Ec & Er & _) Hh Hd].
  assert (forall src e, 0 <= src < R -> 0 <= e < E -> cell (remainingTpe s') src e = 0) as Hz.
  { intros src e Hs He. apply Hall; try done. by apply elem_of_seqZ0. }
  destruct HI as (_ & HA & _ & _). split; [|done].
  assert (forall d, remote_experts inp s' d = remote_experts inp s d) as Erow
    by (intros; unfold remote_experts; by rewrite Ec, Er).
  split; try done; rewrite ?Ea, ?El, ?Ec.
  - intros src e Hs He. destruct (t_rem _ _ _ HT src e Hs He) as [_ <-].
    rewrite (Hz src e Hs He), (t_src _ _ _ HT) by done. lia.
  - intros d e Hd' He. rewrite <- (t_dst _ _ _ HT) by done. destruct (decide (d = home e)) as [->|Hne].
    + rewrite <- Ea, (Hh e He), (zsum_ext _ (fun _ => 0)), zsum_const; [lia|].
      intros src Hsrc%elem_of_seqZ0. by apply Hz.
    + rewrite <- Ea. by rewrite (Hd d e).
  - apply HA.
  - apply HA.
  - apply HA.
  - intros d Hd'. rewrite Erow. by apply HA.
  - intros d e. rewrite Erow. apply HA.
Qed.

(** *** The balancing as a whole *)

Definition affinity_ok : Prop :=
  forall cached dst r, affinityCache ws = Some cached -> 0 <= dst < R -> r ∈ cached dst -> 0 <= r < R.

Lemma affinity_rows_ranks : affinity_ok ->
  forall dst r, 0 <= dst < R -> r ∈ affinity_rows inp ws dst -> 0 <= r < R.
Proof.
  intros Hc dst r Hd. unfold affinity_rows. destruct (affinityCache ws) as [c|] eqn:Ec; cbn.
  - by apply (Hc c).
  - by rewrite affinity_perm, elem_of_seqZ0.
Qed.

Lemma balance_total fuel : affinity_ok -> R * cap < Z.of_nat fuel ->
  exists s, Balance inp ws fuel = Some s /\ (settled s \/ overflowed s).
Proof.
  intros Hc Hfuel. pose proof (affinity_rows_ranks Hc) as Haff. pose proof initial_overload as Ho.
  unfold Balance.
  destruct (run_intra_stop inp ws _ Hok Haff fuel _ initial_inv ltac:(lia)) as (s1 & -> & [[HI1 Ho1]|Hov]).
  2: { rewrite bool_decide_false; [|by destruct Hov as [-> _]]. eexists. split; [done|by right]. }
  rewrite bool_decide_true by apply HI1.
  destruct (run_inter_stop inp ws _ Hok Haff fuel s1 HI1 ltac:(lia)) as (s2 & -> & [[HI2 Ho2]|Hov]).
  2: { rewrite bool_decide_false; [|by destruct Hov as [-> _]]. eexists. split; [done|by right]. }
  rewrite bool_decide_true by apply HI2. eexists. split; [done|].
  destruct (append_remainders_ok s2 HI2) as [[? _]|?]; auto.
Qed.
End final.
