(* ===== verification/PlanSegments.v ===== *)
(** Segment logs as maps: the segments of a source tile its token ordinals, the segments of a
    destination tile its receive positions, so a log sends the (source, ordinal) pairs of an
    expert one-to-one to (destination, position) pairs. *)
From S2P Require Import Prelude PlanTypes PlanMove.

Section segments.
Context {R E : Z}.

#[local] Abbreviation covers m o := (srcExpertBegin m <= o < srcExpertBegin m + tokenCount m).

(** The receive position of an ordinal, relative to the expert's base. *)
Definition seg_pos (m : TokenSegmentMove) (o : Z) : Z := dstExpertBegin m + (o - srcExpertBegin m).

Lemma log_ok_counts log : log_ok R E log -> forall m, m ∈ log -> 0 < tokenCount m /\
  0 <= srcRank m < R /\ 0 <= dstRank m < R /\ 0 <= expertId m < E.
Proof.
  induction 1 as [|l x Hl IH Hs Hd He Hc _ _]; intros m Hm; [by inversion Hm|].
  apply elem_of_app in Hm as [Hm|Hm%list_elem_of_singleton]; [auto|by subst].
Qed.

Lemma src_total_nonneg log src e : log_ok R E log -> 0 <= src_total log src e.
Proof.
  intros Hl. apply zsum_nonneg. intros m Hm. destruct (log_ok_counts _ Hl m Hm). case_if; lia.
Qed.

Lemma dst_total_nonneg log dst e : log_ok R E log -> 0 <= dst_total log dst e.
Proof.
  intros Hl. apply zsum_nonneg. intros m Hm. destruct (log_ok_counts _ Hl m Hm). case_if; lia.
Qed.

Lemma seg_bounds log m : log_ok R E log -> m ∈ log ->
  0 <= srcExpertBegin m /\ srcExpertBegin m + tokenCount m <= src_total log (srcRank m) (expertId m) /\
  0 <= dstExpertBegin m /\ dstExpertBegin m + tokenCount m <= dst_total log (dstRank m) (expertId m).
Proof.
  induction 1 as [|l x Hl IH Hs Hd He Hc Es Ed]; intros Hm; [by inversion Hm|].
  rewrite src_total_snoc, dst_total_snoc.
  apply elem_of_app in Hm as [Hm|Hm%list_elem_of_singleton].
  - specialize (IH Hm). repeat case_if; lia.
  - subst m. rewrite !Z.eqb_refl. cbn [andb].
    pose proof (src_total_nonneg l (srcRank x) (expertId x) Hl).
    pose proof (dst_total_nonneg l (dstRank x) (expertId x) Hl). lia.
Qed.

(** Two segments of a source and an expert that share an ordinal are the same segment. *)
Lemma seg_src_unique log m m' o : log_ok R E log -> m ∈ log -> m' ∈ log ->
  srcRank m = srcRank m' -> expertId m = expertId m' -> covers m o -> covers m' o -> m = m'.
Proof.
  induction 1 as [|l x Hl IH Hs Hd He Hc Es Ed]; intros Hm Hm' Er Ee Ho Ho'; [by inversion Hm|].
  apply elem_of_app in Hm as [Hm|Hm%list_elem_of_singleton],
    Hm' as [Hm'|Hm'%list_elem_of_singleton]; [by apply IH|subst m'|subst m|by subst].
  - pose proof (seg_bounds l m Hl Hm). rewrite Er, Ee in *. lia.
  - pose proof (seg_bounds l m' Hl Hm'). rewrite <- Er, <- Ee in *. lia.
Qed.

(** Two segments of a destination and an expert that share a position are the same segment. *)
Lemma seg_dst_unique log m m' o o' : log_ok R E log -> m ∈ log -> m' ∈ log ->
  dstRank m = dstRank m' -> expertId m = expertId m' -> covers m o -> covers m' o' ->
  seg_pos m o = seg_pos m' o' -> m = m'.
Proof.
  unfold seg_pos.
  induction 1 as [|l x Hl IH Hs Hd He Hc Es Ed]; intros Hm Hm' Er Ee Ho Ho' Ep; [by inversion Hm|].
  apply elem_of_app in Hm as [Hm|Hm%list_elem_of_singleton],
    Hm' as [Hm'|Hm'%list_elem_of_singleton]; [by apply IH|subst m'|subst m|by subst].
  - pose proof (seg_bounds l m Hl Hm). rewrite Er, Ee in *. lia.
  - pose proof (seg_bounds l m' Hl Hm'). rewrite <- Er, <- Ee in *. lia.
Qed.

(** Every ordinal below the total of a source is covered. *)
Lemma seg_src_covered log src e o : log_ok R E log -> 0 <= o < src_total log src e ->
  exists m, m ∈ log /\ srcRank m = src /\ expertId m = e /\ covers m o.
Proof.
  induction 1 as [|l x Hl IH Hs Hd He Hc Es Ed]; intros Ho; [unfold src_total in Ho; cbn in Ho; lia|].
  rewrite src_total_snoc in Ho. destruct (Z.lt_ge_cases o (src_total l src e)).
  - destruct IH as (m & Hm & ? & ? & ?); [lia|]. exists m. split; [|done]. apply elem_of_app. by left.
  - destruct ((srcRank x =? src) && (expertId x =? e)) eqn:Ex; [|lia]. b2p. subst.
    exists x. split; [apply elem_of_app; right; by apply list_elem_of_singleton|]. split_and!; try done; lia.
Qed.

(** Every position below the total of a destination is used. *)
Lemma seg_dst_covered log dst e p : log_ok R E log -> 0 <= p < dst_total log dst e ->
  exists m, m ∈ log /\ dstRank m = dst /\ expertId m = e /\
    dstExpertBegin m <= p < dstExpertBegin m + tokenCount m.
Proof.
  induction 1 as [|l x Hl IH Hs Hd He Hc Es Ed]; intros Ho; [unfold dst_total in Ho; cbn in Ho; lia|].
  rewrite dst_total_snoc in Ho. destruct (Z.lt_ge_cases p (dst_total l dst e)).
  - destruct IH as (m & Hm & ? & ? & ?); [lia|]. exists m. split; [|done]. apply elem_of_app. by left.
  - destruct ((dstRank x =? dst) && (expertId x =? e)) eqn:Ex; [|lia]. b2p. subst.
    exists x. split; [apply elem_of_app; right; by apply list_elem_of_singleton|]. split_and!; try done; lia.
Qed.

(** The map is one-to-one. *)
Lemma seg_map_inj log m m' o o' : log_ok R E log -> m ∈ log -> m' ∈ log ->
  dstRank m = dstRank m' -> expertId m = expertId m' -> covers m o -> covers m' o' ->
  seg_pos m o = seg_pos m' o' -> srcRank m = srcRank m' /\ o = o'.
Proof.
  intros Hl Hm Hm' Er Ee Ho Ho' Ep.
  assert (m = m') as -> by (by apply (seg_dst_unique log m m' o o')).
  split; [done|]. unfold seg_pos in Ep. lia.
Qed.
End segments.
