(* ===== verification/PlanBounds.v ===== *)
(** The tables of the balancing are bounded by the number of tokens of the call. *)
From S2P Require Import Prelude PlanTypes PlanSort PlanAlgorithm PlanOutput PlanMove PlanBalance PlanFinal PlanSegments.

Lemma zsum_elem_le {A} (f : A -> Z) l x : (forall y, y ∈ l -> 0 <= f y) -> x ∈ l -> f x <= zsum f l.
Proof.
  intros Hf (l1 & l2 & ->)%list_elem_of_split. rewrite zsum_app, zsum_cons.
  pose proof (zsum_nonneg f l1 ltac:(intros; apply Hf, elem_of_app; by left)).
  pose proof (zsum_nonneg f l2 ltac:(intros; apply Hf, elem_of_app; right; by right)). lia.
Qed.

(** Summing a log by one of its rank fields counts every segment once. *)
Lemma log_by_rank (field : TokenSegmentMove -> Z) R e log : (forall m, m ∈ log -> 0 <= field m < R) ->
  zsum (fun r => zsum (fun m => if (field m =? r) && (expertId m =? e) then tokenCount m else 0) log) (seqZ 0 R) =
  zsum (fun m => if expertId m =? e then tokenCount m else 0) log.
Proof.
  intros H. rewrite zsum_swap. apply zsum_ext. intros m Hm.
  rewrite (zsum_single _ _ (field m)).
  - by rewrite Z.eqb_refl.
  - apply NoDup_seqZ.
  - by apply elem_of_seqZ0, H.
  - intros r _ Hne. by rewrite (proj2 (Z.eqb_neq (field m) r)) by congruence.
Qed.

Section bounds.
Context (inp : PlanAlgorithmInput) (ws : PlanAlgorithmWorkspace) (Hok : plan_ok inp ws).
Context (s : PState) (HI : inv inp ws s).

#[local] Abbreviation R := (in_rankSize inp).
#[local] Abbreviation E := (in_expertNum inp).
#[local] Abbreviation cell t r e := (t (ReIndex r e (in_expertNum inp))).
#[local] Abbreviation home e := (HomeRank e (expertsPerRank inp)).

Lemma log_columns e : zsum (fun d => dst_total (segLog s) d e) (seqZ 0 R) =
  zsum (fun src => src_total (segLog s) src e) (seqZ 0 R).
Proof.
  destruct HI as (HT & _). pose proof (log_ok_counts _ (t_log _ _ _ HT)) as Hl.
  unfold dst_total, src_total. rewrite (log_by_rank dstRank), (log_by_rank srcRank); [done| |]; intros m Hm; by apply Hl.
Qed.

(** The allocations of an expert add up to its tokens. *)
Lemma alloc_column e : 0 <= e < E -> zsum (fun d => cell (alloc s) d e) (seqZ 0 R) = expert_tokens inp e.
Proof.
  intros He. pose proof HI as (HT & HA & Haw & _). pose proof (home_range inp ws Hok e He) as Hh.
  set (rest := zsum (fun src => cell (remainingTpe s) src e) (seqZ 0 R)).
  rewrite (zsum_ext _ (fun d => dst_total (segLog s) d e + (if d =? home e then rest else 0))).
  - rewrite zsum_plus, log_columns, (zsum_single (fun d => if d =? home e then rest else 0) _ (home e)), Z.eqb_refl;
      [|apply NoDup_seqZ|by apply elem_of_seqZ0|intros d _ Hne; by rewrite (proj2 (Z.eqb_neq _ _))].
    unfold rest, expert_tokens. rewrite <- zsum_plus. apply zsum_ext. intros src Hs%elem_of_seqZ0.
    destruct (t_rem _ _ _ HT src e Hs He) as [_ <-]. rewrite (t_src _ _ _ HT) by done. lia.
  - intros d Hd%elem_of_seqZ0. destruct (Z.eqb_spec d (home e)) as [->|Hne].
    + rewrite (a_home _ _ _ _ _ HA e He), (home_total inp _ e He Haw). fold rest. case_if; b2p; lia.
    + rewrite <- (t_dst _ _ _ HT) by done. pose proof (a_dst _ _ _ _ _ HA d e Hd He Hne) as Ed.
      rewrite Ed. case_if; b2p; lia.
Qed.

Lemma column_bound e : 0 <= e < E -> 0 <= expert_tokens inp e <= R * cap_ inp.
Proof.
  intros He. rewrite <- (total_tokens inp ws Hok). split; [by apply (expert_tokens_nonneg inp ws Hok)|].
  apply zsum_elem_le; [|by apply elem_of_seqZ0]. intros x Hx%elem_of_seqZ0. by apply (expert_tokens_nonneg inp ws Hok).
Qed.

Lemma load_bounds :
  (forall d, 0 <= d < R -> 0 <= rankLoad s d <= R * cap_ inp) /\
  zsum (rankLoad s) (seqZ 0 R) = R * cap_ inp /\
  (forall d e, 0 <= d < R -> 0 <= e < E ->
     0 <= cell (alloc s) d e <= R * cap_ inp /\ 0 <= cell (remainingTpe s) d e <= R * cap_ inp /\
     0 <= cell (srcExpertCursor s) d e <= R * cap_ inp /\ 0 <= cell (dstExpertCursor s) d e <= R * cap_ inp).
Proof.
  pose proof HI as (HT & HA & Haw & _). pose proof (t_log _ _ _ HT) as Hlog.
  assert (forall d, 0 <= d < R -> 0 <= rankLoad s d) as Hpos.
  { intros d Hd. rewrite (a_load _ _ _ _ _ HA d Hd). apply zsum_nonneg. intros e He%elem_of_seqZ0. by apply (a_pos _ _ _ _ _ HA). }
  assert (zsum (rankLoad s) (seqZ 0 R) = R * cap_ inp) as Hsum.
  { rewrite <- (total_tokens inp ws Hok).
    rewrite (zsum_ext _ (fun d => zsum (fun e => cell (alloc s) d e) (seqZ 0 E)))
      by (intros d Hd%elem_of_seqZ0; by apply (a_load _ _ _ _ _ HA)).
    rewrite zsum_swap. apply zsum_ext. intros e He%elem_of_seqZ0. by apply alloc_column. }
  split; [|split; [done|]].
  - intros d Hd. split; [by apply Hpos|]. rewrite <- Hsum. apply zsum_elem_le; [|by apply elem_of_seqZ0].
    intros x Hx%elem_of_seqZ0. by apply Hpos.
  - intros d e Hd He. pose proof (column_bound e He) as Hcol.
    assert (cell (tokensPerExpert inp) d e <= expert_tokens inp e) as Htpe.
    { apply (zsum_elem_le (fun src => cell (tokensPerExpert inp) src e)); [|by apply elem_of_seqZ0].
      intros x Hx%elem_of_seqZ0. by apply (ok_tpe _ _ Hok). }
    destruct (t_rem _ _ _ HT d e Hd He) as [Hrem Hcell]. pose proof (t_src _ _ _ HT d e Hd He) as Hsrc.
    pose proof (src_total_nonneg (segLog s) d e Hlog).
    assert (cell (alloc s) d e <= expert_tokens inp e).
    { rewrite <- (alloc_column e He). apply (zsum_elem_le (fun x => cell (alloc s) x e)); [|by apply elem_of_seqZ0].
      intros x Hx%elem_of_seqZ0. by apply (a_pos _ _ _ _ _ HA). }
    pose proof (a_pos _ _ _ _ _ HA d e Hd He). split; [lia|]. split; [lia|]. split; [lia|].
    destruct (decide (d = home e)) as [->|Hne].
    + rewrite (t_dst _ _ _ HT), (home_total inp _ e He Haw) by done. lia.
    + rewrite (a_dst _ _ _ _ _ HA d e Hd He Hne). case_if; b2p; lia.
Qed.
End bounds.
