(* ===== verification/PlanLayout.v ===== *)
(** [BuildLayouts]: the remote rows never exceed the prefetch slots, and the groups of every
    rank are laid out one behind the other, padded, inside the receive window. *)
From S2P Require Import Prelude PlanTypes PlanSort PlanAlgorithm PlanOutput PlanMove PlanBalance PlanFinal.

#[global] Instance BetterRemote_total inp s dst : TotalBetter (BetterRemote inp s dst).
Proof.
  split; intros *; unfold BetterRemote; cbv zeta;
    set (ax := alloc s (ReIndex dst x _)); set (ay := alloc s (ReIndex dst y _)).
  - rewrite (Z.eqb_sym ay). intros Hne. destruct (Z.eqb_spec ax ay); cbn; lia.
  - set (az := alloc s (ReIndex dst z _)). intros ? ?.
    destruct (Z.eqb_spec ax ay), (Z.eqb_spec ay az), (Z.eqb_spec ax az); cbn; lia.
Qed.

(** A padded count: a multiple of the padding, not below the count, and less than one padding
    above it. *)
Lemma align_count_spec value alignment padded : 0 <= value -> 0 < alignment ->
  AlignCount value alignment = Some padded ->
  padded mod alignment = 0 /\ value <= padded < value + alignment /\ padded <= INT32_MAX.
Proof.
  intros Hv Ha. unfold AlignCount. case_if; [done|]. cbv zeta. case_if; [done|]. intros [= <-]. b2p.
  split; [apply Z.mod_mul; lia|]. split; [|lia].
  pose proof (Z.div_mod (value + alignment - 1) alignment ltac:(lia)).
  pose proof (Z.mod_pos_bound (value + alignment - 1) alignment ltac:(lia)). lia.
Qed.

Section layout.
Context (inp : PlanAlgorithmInput) (ws : PlanAlgorithmWorkspace) (Hok : plan_ok inp ws).
Context (s : PState) (Hs : settled inp ws s).

#[local] Abbreviation R := (in_rankSize inp).
#[local] Abbreviation E := (in_expertNum inp).
#[local] Abbreviation cell t r e := (t (ReIndex r e (in_expertNum inp))).
#[local] Abbreviation home e := (HomeRank e (expertsPerRank inp)).
#[local] Abbreviation window := (nvS (in_config inp)).

(** ** Remote rows *)

Definition is_remote (d e : Z) : bool := negb (home e =? d) && (0 <? cell (alloc s) d e).

Lemma remote_count d : 0 <= d < R ->
  Z.of_nat (length (List.filter (is_remote d) (seqZ 0 E))) <= b_ inp.
Proof.
  intros Hd. destruct (fin_slots _ _ _ Hs d Hd) as [Hs0 Hsb].
  assert (length (List.filter (is_remote d) (seqZ 0 E)) <= length (remote_experts inp s d))%nat as Hle.
  { apply List.NoDup_incl_length.
    - apply List.NoDup_filter, NoDup_ListNoDup, NoDup_seqZ.
    - intros e [Hin Hp]%List.filter_In. apply list_elem_of_In, elem_of_seqZ0 in Hin. unfold is_remote in Hp. b2p.
      apply list_elem_of_In. apply (fin_remote _ _ _ Hs); done. }
  unfold remote_experts in Hle. rewrite length_fmap, length_seqZ in Hle. lia.
Qed.

Lemma remote_row_spec d : 0 <= d < R -> exists row, remote_row inp s d = inl row /\
  row ≡ₚ List.filter (is_remote d) (seqZ 0 E) /\ sorted_by (BetterRemote inp s d) row.
Proof.
  intros Hd. unfold remote_row. pose proof (remote_count d Hd) as Hc.
  assert (forall l row, Z.of_nat (length row) + Z.of_nat (length (List.filter (is_remote d) l)) <= b_ inp ->
    NoDup (row ++ l) -> sorted_by (BetterRemote inp s d) row ->
    exists row', loop_ret (fun expert row =>
      if (home expert =? d) || (cell (alloc s) d expert <=? 0) then inl row
      else if b_ inp <=? Z.of_nat (length row) then inr PLAN_PARTIAL_PREFETCH_SLOT_EXHAUSTED
      else inl (insert_entry (BetterRemote inp s d) row expert)) l row = inl row' /\
    row' ≡ₚ row ++ List.filter (is_remote d) l /\ sorted_by (BetterRemote inp s d) row') as H.
  { induction l as [|x l IH]; intros row Hlen Hnd Hsort; cbn [loop_ret List.filter].
    - exists row. by rewrite app_nil_r.
    - assert ((home x =? d) || (cell (alloc s) d x <=? 0) = negb (is_remote d x)) as Ex
        by (unfold is_remote; destruct (home x =? d); cbn; lia).
      rewrite Ex. cbn [List.filter] in Hlen.
      destruct (is_remote d x); cbn [negb length] in *.
      + rewrite (proj2 (Z.leb_gt _ _)) by lia.
        rewrite <- Permutation_middle in Hnd.
        destruct (IH (insert_entry (BetterRemote inp s d) row x)) as (row' & E1 & E2 & E3).
        * rewrite (Permutation_length (insert_entry_perm _ row x)). cbn. lia.
        * by rewrite insert_entry_perm.
        * apply insert_entry_sorted; [apply _| |done]. apply NoDup_cons in Hnd as [Hx _].
          intros Hin. apply Hx, elem_of_app. by left.
        * exists row'. split; [done|]. split; [|done].
          rewrite E2, insert_entry_perm. apply Permutation_middle.
      + apply IH; try done. rewrite <- Permutation_middle in Hnd. by apply NoDup_cons in Hnd as [_ Hnd]. }
  destruct (H (seqZ 0 E) []) as (row & E1 & E2 & E3); [cbn; lia|apply NoDup_seqZ|constructor|].
  exists row. done.
Qed.

(** The row of a rank, as [remoteExpertSet] holds it after the first phase. *)
Definition row_of (d : Z) (row : list Z) : Prop :=
  row ≡ₚ List.filter (is_remote d) (seqZ 0 E) /\ sorted_by (BetterRemote inp s d) row.

Lemma row_of_elem d row e : row_of d row -> e ∈ row <-> 0 <= e < E /\ is_remote d e = true.
Proof.
  intros [Hp _]. rewrite Hp, list_elem_of_In, List.filter_In, <- list_elem_of_In, elem_of_seqZ0. done.
Qed.

Lemma row_of_nodup d row : row_of d row -> NoDup row.
Proof.
  intros [Hp _]. rewrite Hp. apply NoDup_ListNoDup, List.NoDup_filter, NoDup_ListNoDup, NoDup_seqZ.
Qed.

Lemma row_of_length d row : 0 <= d < R -> row_of d row -> Z.of_nat (length row) <= b_ inp.
Proof. intros Hd [Hp _]. rewrite Hp. by apply remote_count. Qed.

Lemma row_at_inside row slot e : 0 <= slot -> row_at row slot = e -> (forall x, x ∈ row -> 0 <= x) -> 0 <= e ->
  row !! Z.to_nat slot = Some e.
Proof.
  intros Hslot He Hp Hpos. unfold row_at in He.
  destruct (row !! Z.to_nat slot) as [x|] eqn:Ex.
  - f_equal. rewrite <- He. symmetry. by apply nth_lookup_Some.
  - apply lookup_ge_None in Ex. rewrite nth_overflow in He by done. lia.
Qed.

Lemma publish_row_frame d row o :
  expertsToCopy (publish_row inp d row o) = expertsToCopy o /\
  remoteStats0 (publish_row inp d row o) = remoteStats0 o /\
  cuSeqlens (publish_row inp d row o) = cuSeqlens o.
Proof.
  unfold publish_row. revert o. induction (seqZ 0 (b_ inp)) as [|x l IH]; intros o; [done|]. cbn [foldl].
  match goal with |- context [foldl _ ?o' l] => destruct (IH o') as (-> & -> & ->) end. done.
Qed.

(** What holds after the rows of the first [n] ranks. *)
Definition rows_upto (n : Z) (l : Layout) : Prop :=
  (forall d, 0 <= d < n -> row_of d (rows l d)) /\
  (in_rank inp < n ->
    (forall slot, 0 <= slot < b_ inp -> expertsToCopy (outs l) slot = row_at (rows l (in_rank inp)) slot) /\
    remoteStats0 (outs l) = Z.of_nat (length (rows l (in_rank inp)))) /\
  0 <= maxRemote l <= b_ inp /\
  (forall d, 0 <= d < n -> Z.of_nat (length (rows l d)) <= maxRemote l).

Lemma place_remote_step d l : 0 <= d < R -> rows_upto d l ->
  match place_remote inp ws s d l with inl l' => rows_upto (d + 1) l' | inr _ => False end.
Proof.
  intros Hd (H1 & H2 & H3 & H4). unfold place_remote.
  destruct (remote_row_spec d Hd) as (row & -> & Hrow). pose proof (row_of_length d row Hd Hrow) as Hlen.
  cbv zeta. set (o1 := {| out_dst := _ |}).
  assert (expertsToCopy (if hasRemoteExperts ws then publish_row inp d row o1 else o1) = expertsToCopy o1 /\
          remoteStats0 (if hasRemoteExperts ws then publish_row inp d row o1 else o1) = remoteStats0 o1) as [Ee Es].
  { destruct (hasRemoteExperts ws); [|done]. by destruct (publish_row_frame d row o1) as (? & ? & _). }
  unfold rows_upto. cbn [rows outs maxRemote]. rewrite MaxI32_max, Ee, Es. split_and!.
  - intros d' Hd'. unfold upd1. destruct (Z.eqb_spec d' d) as [->|]; [done|]. apply H1. lia.
  - intros Hr. unfold o1. cbn [expertsToCopy remoteStats0]. unfold upd1. rewrite (Z.eqb_sym d).
    destruct (Z.eqb_spec (in_rank inp) d).
    + split; [|done]. intros slot Hslot. by rewrite (proj2 (Z.leb_le _ _)), (proj2 (Z.ltb_lt _ _)) by lia.
    + apply H2. lia.
  - lia.
  - lia.
  - intros d' Hd'. unfold upd1. destruct (Z.eqb_spec d' d) as [->|]; [lia|]. specialize (H4 d'). lia.
Qed.

Lemma place_remote_ok : exists l, loop_ret (place_remote inp ws s) (seqZ 0 R) empty_layout = inl l /\
  rows_upto R l.
Proof.
  pose proof (ok_R _ _ Hok). pose proof (ok_rank _ _ Hok). pose proof (ok_b _ _ Hok).
  pose proof (loop_ret_range rows_upto (fun _ => False) (place_remote inp ws s) R empty_layout
    (fun d l => place_remote_step d l) ltac:(lia)) as HL.
  destruct (loop_ret _ _ _) as [l|]; [|exfalso; apply HL].
  - exists l. split; [done|]. apply HL. unfold rows_upto. cbn. split_and!; lia.
  - unfold rows_upto. cbn. split_and!; lia.
Qed.

(** ** Groups *)

Definition group_of (d : Z) (row : list Z) (e g : Z) : Prop :=
  0 <= e < E /\ group_expert inp s d row g = (e, cell (alloc s) d e).

Lemma group_cases d row g : 0 <= d < R -> row_of d row -> 0 <= g < E + b_ inp ->
  group_expert inp s d row g = (-1, 0) \/
  exists e, group_of d row e g /\ (g < E /\ e = g /\ e ∉ row \/ E <= g /\ row !! Z.to_nat (g - E) = Some e).
Proof.
  intros Hd Hrow Hg. unfold group_of, group_expert. destruct (Z.ltb_spec g E).
  - destruct (existsb (fun x => x =? g) row) eqn:Ex; [by left|]. right. exists g.
    split; [split; [lia|done]|]. left. split; [done|]. split; [done|]. intros Hin.
    revert Ex. apply eq_true_false_abs, List.existsb_exists. exists g. split; [by apply list_elem_of_In|apply Z.eqb_refl].
  - cbv zeta. rewrite (proj2 (Z.ltb_lt (g - E) (b_ inp))) by lia. cbn [andb].
    destruct (Z.leb_spec 0 (row_at row (g - E))); [|by left]. right.
    exists (row_at row (g - E)).
    assert (forall x, x ∈ row -> 0 <= x) as Hp by (intros x Hx; apply (row_of_elem d row x Hrow) in Hx; lia).
    pose proof (row_at_inside row (g - E) _ ltac:(lia) eq_refl Hp H0) as Hl.
    assert (row_at row (g - E) ∈ row) as Hin by (by eapply list_elem_of_lookup_2).
    apply (row_of_elem d row _ Hrow) in Hin. split; [by split; [lia|]|]. right. split; [lia|done].
Qed.

(** Every expert has exactly one group. *)
Lemma group_unique d row e g g' : 0 <= d < R -> row_of d row ->
  0 <= g < E + b_ inp -> 0 <= g' < E + b_ inp ->
  group_of d row e g -> group_of d row e g' -> g = g'.
Proof.
  intros Hd Hrow Hg Hg' [He Hge] [_ Hge'].
  destruct (group_cases d row g Hd Hrow Hg) as [Hz|(x & [_ Hx] & Hc)]; [rewrite Hz in Hge; injection Hge; lia|].
  destruct (group_cases d row g' Hd Hrow Hg') as [Hz|(x' & [_ Hx'] & Hc')]; [rewrite Hz in Hge'; injection Hge'; lia|].
  assert (x = e) as -> by congruence. assert (x' = e) as -> by congruence.
  destruct Hc as [(? & ? & Hn)|(? & Hl)], Hc' as [(? & ? & Hn')|(? & Hl')]; try lia.
  - exfalso. apply Hn. by eapply list_elem_of_lookup_2.
  - exfalso. apply Hn'. by eapply list_elem_of_lookup_2.
  - pose proof (NoDup_lookup _ _ _ _ (row_of_nodup d row Hrow) Hl Hl'). lia.
Qed.

Lemma group_exists d row e : 0 <= d < R -> row_of d row -> 0 <= e < E ->
  exists g, 0 <= g < E + b_ inp /\ group_of d row e g.
Proof.
  intros Hd Hrow He. pose proof (ok_b _ _ Hok). pose proof (row_of_length d row Hd Hrow) as Hlen.
  destruct (decide (e ∈ row)) as [Hin|Hin].
  - apply list_elem_of_lookup_1 in Hin as (i & Hi). pose proof (lookup_lt_Some _ _ _ Hi).
    exists (E + Z.of_nat i). split; [lia|]. split; [done|]. unfold group_expert.
    rewrite (proj2 (Z.ltb_ge _ _)) by lia. cbv zeta.
    replace (E + Z.of_nat i - E) with (Z.of_nat i) by lia.
    assert (row_at row (Z.of_nat i) = e) as ->.
    { unfold row_at. rewrite Nat2Z.id. by apply nth_lookup_Some. }
    rewrite (proj2 (Z.ltb_lt _ _)), (proj2 (Z.leb_le _ _)) by lia. done.
  - exists e. split; [lia|]. split; [done|]. unfold group_expert. rewrite (proj2 (Z.ltb_lt e E)) by lia.
    replace (existsb (fun x => x =? e) row) with false; [done|]. symmetry.
    apply not_true_iff_false. intros (x & Hx & Hxe)%List.existsb_exists. b2p. subst.
    by apply Hin, list_elem_of_In.
Qed.

(** The end of the group before [g]. *)
Definition group_start (cu : Z -> Z) (g : Z) : Z := if g =? 0 then 0 else cu (g - 1).

(** The cumulative lengths of the first [n] groups of this rank: padded, and in step with the
    bases of their experts. *)
Definition cu_upto (row : list Z) (base cu : Z -> Z) (n : Z) : Prop :=
  forall g, 0 <= g < n ->
    group_start cu g + snd (group_expert inp s (in_rank inp) row g) <= cu g /\
    (cu g - group_start cu g) mod tokenPadding (in_config inp) = 0 /\
    forall e, group_of (in_rank inp) row e g -> cell base (in_rank inp) e = group_start cu g.

(** What holds after the first [n] groups of rank [d]. *)
Record groups_upto (d : Z) (row : list Z) (l0 : Layout) (n : Z) (acc : Layout * Z) : Prop := {
  gu_end : 0 <= snd acc <= window;
  gu_in g e : 0 <= g < n -> group_of d row e g ->
    0 <= cell (expertPhysicalBase (fst acc)) d e /\
    cell (expertPhysicalBase (fst acc)) d e + cell (alloc s) d e <= snd acc;
  gu_apart g g' e e' : 0 <= g -> g < g' < n -> group_of d row e g -> group_of d row e' g' ->
    cell (expertPhysicalBase (fst acc)) d e + cell (alloc s) d e <=
    cell (expertPhysicalBase (fst acc)) d e';
  gu_other d' e : d' <> d -> 0 <= e < E ->
    cell (expertPhysicalBase (fst acc)) d' e = cell (expertPhysicalBase l0) d' e;
  gu_rows : rows (fst acc) = rows l0 /\ maxRemote (fst acc) = maxRemote l0 /\
    localEnd (fst acc) = localEnd l0 /\ expertsToCopy (outs (fst acc)) = expertsToCopy (outs l0) /\
    remoteStats0 (outs (fst acc)) = remoteStats0 (outs l0);
  gu_cu : if d =? in_rank inp
          then cu_upto row (expertPhysicalBase (fst acc)) (cuSeqlens (outs (fst acc))) n /\
               snd acc = group_start (cuSeqlens (outs (fst acc))) n
          else cuSeqlens (outs (fst acc)) = cuSeqlens (outs l0)
}.

(** The group of an expert decides where its base is written. *)
Lemma place_group_base d row (base : Z -> Z) g x count prev : 0 <= d < R -> row_of d row -> 0 <= g < E + b_ inp ->
  group_expert inp s d row g = (x, count) ->
  let base' := if 0 <=? x then upd1 base (ReIndex d x E) prev else base in
  0 <= count /\
  (forall d' e, d' <> d -> 0 <= e < E -> cell base' d' e = cell base d' e) /\
  (forall e, group_of d row e g -> cell base' d e = prev /\ count = cell (alloc s) d e) /\
  (forall g' e, 0 <= g' < E + b_ inp -> g' <> g -> group_of d row e g' -> cell base' d e = cell base d e).
Proof.
  intros Hd Hrow Hg Hge base'. unfold base'.
  destruct (group_cases d row g Hd Hrow Hg) as [Hz|(e0 & [He0 Hx0] & _)].
  - rewrite Hz in Hge. injection Hge as <- <-. cbn. split_and!; try done.
    intros e [He Hc]. rewrite Hz in Hc. injection Hc. lia.
  - rewrite Hx0 in Hge. injection Hge as <- <-. rewrite (proj2 (Z.leb_le _ _)) by lia. split_and!.
    + by apply (fin_pos _ _ _ Hs).
    + intros d' e Hne He. apply upd1_ne. rewrite ReIndex_inj by done. tauto.
    + intros e [He Hc]. rewrite Hx0 in Hc. injection Hc as -> _. by rewrite upd1_eq.
    + intros g' e Hg' Hne Hge'. pose proof Hge' as [He _]. apply upd1_ne. rewrite ReIndex_inj by done.
      intros [_ ->]. apply Hne. by apply (group_unique d row e0 g' g).
Qed.

Lemma place_group_step d row l0 g acc : 0 <= d < R -> row_of d row -> 0 <= g < E + b_ inp ->
  groups_upto d row l0 g acc ->
  match place_group inp s d row g acc with
  | inl acc' => groups_upto d row l0 (g + 1) acc'
  | inr r => fst r = PLAN_ERROR_LAYOUT_EXCEEDS_NVS
  end.
Proof.
  intros Hd Hrow Hg [Hend Hin Hap Hot Hrw Hcu]. destruct acc as [l prev]. cbn [fst snd] in *.
  unfold place_group. destruct (group_expert inp s d row g) as [x count] eqn:Ege.
  pose proof (place_group_base d row (expertPhysicalBase l) g x count prev Hd Hrow Hg Ege) as Hb. cbv zeta in Hb.
  set (base' := if 0 <=? x then _ else _) in *. destruct Hb as (Hcnt & Hb1 & Hb2 & Hb3).
  destruct (if count =? 0 then Some 0 else AlignCount count (tokenPadding (in_config inp))) as [padded|] eqn:Ep; [|done].
  assert (padded mod tokenPadding (in_config inp) = 0 /\ count <= padded) as [Hmod Hge].
  { pose proof (ok_padding _ _ Hok) as Hpad. destruct (Z.eqb_spec count 0) as [->|].
    - injection Ep as <-. split; [apply Z.mod_0_l; lia|lia].
    - apply align_count_spec in Ep; [|lia|lia]. split; [apply Ep|lia]. }
  destruct (Z.ltb_spec (window - prev) padded); [done|].
  assert (forall g' e, 0 <= g' < g -> group_of d row e g' -> cell base' d e = cell (expertPhysicalBase l) d e) as Hold.
  { intros g' e Hg' He. apply (Hb3 g'); try done; lia. }
  constructor; cbn [fst snd expertPhysicalBase rows maxRemote localEnd outs].
  - lia.
  - intros g' e Hg' He. destruct (decide (g' = g)) as [->|].
    + destruct (Hb2 e He) as [-> <-]. lia.
    + rewrite (Hold g' e ltac:(lia) He). specialize (Hin g' e ltac:(lia) He). lia.
  - intros g1 g2 e1 e2 H1 H2 He1 He2. destruct (decide (g2 = g)) as [->|].
    + rewrite (Hold g1 e1 ltac:(lia) He1). destruct (Hb2 e2 He2) as [-> _]. apply (Hin g1 e1 ltac:(lia) He1).
    + rewrite (Hold g1 e1 ltac:(lia) He1), (Hold g2 e2 ltac:(lia) He2). apply (Hap g1 g2); try done; lia.
  - intros d' e Hne He. rewrite Hb1 by done. by apply Hot.
  - destruct Hrw as (? & ? & ? & ? & ?). destruct (d =? in_rank inp); cbn; done.
  - destruct (Z.eqb_spec d (in_rank inp)) as [->|]; [|done]. destruct Hcu as [Hcu Hprev].
    assert (forall g', g' <= g -> group_start (cuSeqlens (set_cuSeqlens (outs l) g (prev + padded))) g' =
      group_start (cuSeqlens (outs l)) g') as Hst.
    { intros g' Hg'. unfold group_start. destruct (Z.eqb_spec g' 0); [done|]. cbn. apply upd1_ne. lia. }
    split.
    + intros g' Hg'. rewrite Hst by lia. cbn [cuSeqlens set_cuSeqlens].
      destruct (decide (g' = g)) as [->|].
      * rewrite upd1_eq, <- Hprev, Ege. cbn [snd]. split; [lia|]. split; [by replace (prev + padded - prev) with padded by lia|].
        intros e He. by destruct (Hb2 e He) as [-> _].
      * rewrite upd1_ne by done. destruct (Hcu g' ltac:(lia)) as (C1 & C2 & C3). split; [done|]. split; [done|].
        intros e He. rewrite (Hold g' e ltac:(lia) He). by apply C3.
    + unfold group_start. destruct (Z.eqb_spec (g + 1) 0); [lia|]. replace (g + 1 - 1) with g by lia.
      cbn. by rewrite upd1_eq.
Qed.

(** The window of one rank: every expert inside, no two experts overlapping. *)
Definition window_ok (base : Z -> Z) (d : Z) : Prop :=
  (forall e, 0 <= e < E -> 0 <= cell base d e /\ cell base d e + cell (alloc s) d e <= window) /\
  (forall e e', 0 <= e < E -> 0 <= e' < E -> e <> e' ->
     cell base d e + cell (alloc s) d e <= cell base d e' \/
     cell base d e' + cell (alloc s) d e' <= cell base d e).

(** The cumulative lengths published for this rank. *)
Definition cu_ok (l : Layout) : Prop :=
  cu_upto (rows l (in_rank inp)) (expertPhysicalBase l) (cuSeqlens (outs l)) (E + b_ inp) /\
  localEnd l = group_start (cuSeqlens (outs l)) (E + b_ inp) /\ 0 <= localEnd l <= window.

Definition places_upto (n : Z) (l : Layout) : Prop :=
  rows_upto R l /\ (forall d, 0 <= d < n -> window_ok (expertPhysicalBase l) d) /\
  (in_rank inp < n -> cu_ok l).

Lemma groups_window d row l0 acc : 0 <= d < R -> row_of d row ->
  groups_upto d row l0 (E + b_ inp) acc -> window_ok (expertPhysicalBase (fst acc)) d.
Proof.
  intros Hd Hrow [Hend Hin Hap _ _ _]. split.
  - intros e He. destruct (group_exists d row e Hd Hrow He) as (g & Hg & Hge).
    specialize (Hin g e Hg Hge). lia.
  - intros e e' He He' Hne. destruct (group_exists d row e Hd Hrow He) as (g & Hg & Hge).
    destruct (group_exists d row e' Hd Hrow He') as (g' & Hg' & Hge').
    destruct (Z.lt_trichotomy g g') as [?|[->|?]].
    + left. by apply (Hap g g'); try lia.
    + exfalso. destruct Hge as [_ E1], Hge' as [_ E2]. rewrite E1 in E2. injection E2. done.
    + right. by apply (Hap g' g); try lia.
Qed.

Lemma place_groups_step d l : 0 <= d < R -> places_upto d l ->
  match place_groups inp s d l with
  | inl l' => places_upto (d + 1) l'
  | inr r => fst r = PLAN_ERROR_LAYOUT_EXCEEDS_NVS
  end.
Proof.
  intros Hd (Hr & Hw & Hc). pose proof (ok_R _ _ Hok). pose proof (ok_b _ _ Hok). pose proof (ok_P _ _ Hok).
  pose proof (ok_E _ _ Hok) as HE. pose proof (ok_nvS _ _ Hok) as Hnv.
  assert (0 <= window) as Hwin.
  { assert (cap_ inp = in_s inp * in_topK inp) by apply Hok. pose proof (ok_s _ _ Hok). pose proof (ok_topK _ _ Hok). nia. }
  assert (0 <= E) by nia. assert (row_of d (rows l d)) as Hrow by (by apply Hr).
  unfold place_groups.
  pose proof (loop_ret_range (groups_upto d (rows l d) l) (fun r => fst r = PLAN_ERROR_LAYOUT_EXCEEDS_NVS)
    (place_group inp s d (rows l d)) (E + b_ inp) (l, 0)
    (fun g acc Hg => place_group_step d (rows l d) l g acc Hd Hrow Hg) ltac:(lia)) as HL.
  assert (groups_upto d (rows l d) l 0 (l, 0)) as Hzero.
  { constructor; cbn; try done; try lia. destruct (d =? in_rank inp); [|done]. split; [|done]. intros g Hg. lia. }
  specialize (HL Hzero).
  destruct (loop_ret _ _ _) as [[l' prev]|r]; [|done].
  pose proof (groups_window d (rows l d) l (l', prev) Hd Hrow HL) as Hwd.
  destruct HL as [Hend Hin Hap Hot (E1 & E2 & E3 & E4 & E5) Hcu]. cbn [fst snd] in *.
  unfold places_upto, rows_upto. cbn [rows outs expertPhysicalBase maxRemote localEnd].
  rewrite E1, E2, E4, E5. split; [apply Hr|]. split.
  - intros d' Hd'. destruct (decide (d' = d)) as [->|Hne]; [done|].
    destruct (Hw d' ltac:(lia)) as [W1 W2]. split.
    + intros e He. rewrite Hot by done. by apply W1.
    + intros e e' He He' Hee. rewrite !Hot by done. by apply W2.
  - intros Hrk. unfold cu_ok. cbn [rows outs expertPhysicalBase localEnd].
    destruct (Z.eqb_spec d (in_rank inp)) as [->|Hne].
    + destruct Hcu as [Hcu ->]. split; [done|]. split; [done|lia].
    + destruct (Hc ltac:(lia)) as (C1 & C2 & C3). rewrite Hcu, E3. split; [|done].
      intros g Hg. destruct (C1 g Hg) as (D1 & D2 & D3). split; [done|]. split; [done|].
      intros e He. rewrite Hot; [by apply D3|done|apply He].
Qed.

(** The layouts succeed or do not fit the window; on success every rank's window is sound. *)
Lemma build_layouts_spec : let '(status, l) := BuildLayouts inp ws s in
  (status = PLAN_OK /\ places_upto R l) \/ status = PLAN_ERROR_LAYOUT_EXCEEDS_NVS.
Proof.
  unfold BuildLayouts. pose proof (ok_R _ _ Hok). pose proof (ok_rank _ _ Hok).
  destruct place_remote_ok as (l & -> & Hl).
  pose proof (loop_ret_range places_upto (fun r => fst r = PLAN_ERROR_LAYOUT_EXCEEDS_NVS)
    (place_groups inp s) R l (fun d l => place_groups_step d l) ltac:(lia)) as HL.
  destruct (loop_ret _ _ _) as [l'|[st l']].
  - left. split; [done|]. apply HL. split; [done|]. split; lia.
  - right. apply HL. split; [done|]. split; lia.
Qed.
End layout.
