(* ===== verification/PlanDst.v ===== *)
(** [BuildDst]: every local route gets a slot of its own, inside the window of the rank that
    its segment names, and the sign tells whether the token reaches that rank for the first
    time. *)
From S2P Require Import Prelude PlanTypes PlanSort PlanAlgorithm PlanOutput PlanMove PlanBalance PlanFinal PlanSegments PlanLayout.

Lemma existsb_ext_in {A} (f g : A -> bool) l : (forall x, x ∈ l -> f x = g x) -> existsb f l = existsb g l.
Proof.
  induction l as [|x l IH]; [done|]. intros H. cbn. rewrite H by apply list_elem_of_here. f_equal. apply IH.
  intros y Hy. apply H. by apply list_elem_of_further.
Qed.

(** ** Ordinals *)

(** The routes before [n] that go to expert [e]. *)
Definition routes_before (inp : PlanAlgorithmInput) (n e : Z) : Z :=
  Z.of_nat (length (List.filter (fun route => topkExperts inp route =? e) (seqZ 0 n))).

Lemma routes_before_step inp n e : 0 <= n ->
  routes_before inp (n + 1) e = routes_before inp n e + (if topkExperts inp n =? e then 1 else 0).
Proof.
  intros Hn. unfold routes_before. rewrite seqZ0_snoc, List.filter_app, length_app by done. cbn.
  destruct (topkExperts inp n =? e); cbn; lia.
Qed.

Lemma routes_before_mono inp n n' e : 0 <= n <= n' -> routes_before inp n e <= routes_before inp n' e.
Proof.
  intros Hn. assert (n' = n + Z.of_nat (Z.to_nat (n' - n))) as -> by lia.
  generalize (Z.to_nat (n' - n)) as k. induction k as [|k IH]; [rewrite Z.add_0_r; lia|].
  replace (n + Z.of_nat (S k)) with (n + Z.of_nat k + 1) by lia.
  rewrite routes_before_step by lia. case_if; lia.
Qed.

(** Routes to one expert have increasing ordinals. *)
Lemma routes_before_lt inp n n' e : 0 <= n < n' -> topkExperts inp n = e ->
  routes_before inp n e < routes_before inp n' e.
Proof.
  intros Hn He. pose proof (routes_before_mono inp (n + 1) n' e ltac:(lia)) as Hm.
  rewrite routes_before_step, (proj2 (Z.eqb_eq _ _) He) in Hm by lia. lia.
Qed.

Lemma expert_ordinals_spec inp route : 0 <= route < cap_ inp ->
  fst (expert_ordinals inp) route = routes_before inp route (topkExperts inp route).
Proof.
  assert (forall n : nat, let acc := foldl (fun acc route =>
        let '(ordinal, count) := acc in
        let expert := topkExperts inp route in
        (upd1 ordinal route (count expert), upd1 count expert (count expert + 1)))
      (fun _ => 0, fun _ => 0) (seqZ 0 (Z.of_nat n)) in
    (forall r, 0 <= r < Z.of_nat n -> fst acc r = routes_before inp r (topkExperts inp r)) /\
    (forall e, snd acc e = routes_before inp (Z.of_nat n) e)) as H.
  { induction n as [|n IH]; cbn [foldl].
    - split; [lia|]. intros. done.
    - replace (Z.of_nat (S n)) with (Z.of_nat n + 1) by lia. rewrite seqZ0_snoc, foldl_app by lia.
      cbn [foldl]. cbv zeta in *. destruct (foldl _ _ (seqZ 0 (Z.of_nat n))) as [ord cnt]. cbn [fst snd] in *.
      destruct IH as [IH1 IH2]. split.
      + intros r Hr. unfold upd1. destruct (Z.eqb_spec r (Z.of_nat n)) as [->|]; [apply IH2|apply IH1; lia].
      + intros e. rewrite routes_before_step by lia. unfold upd1. rewrite (Z.eqb_sym e).
        destruct (Z.eqb_spec (topkExperts inp (Z.of_nat n)) e) as [<-|]; rewrite IH2; lia. }
  intros Hr. specialize (H (Z.to_nat (cap_ inp))). rewrite Z2Nat.id in H by lia. by apply H.
Qed.

Section dst.
Context (inp : PlanAlgorithmInput) (ws : PlanAlgorithmWorkspace) (Hok : plan_ok inp ws).
Context (s : PState) (Hs : settled inp ws s).
Context (base : Z -> Z) (Hbase : forall d, 0 <= d < in_rankSize inp -> window_ok inp s base d).

#[local] Abbreviation R := (in_rankSize inp).
#[local] Abbreviation E := (in_expertNum inp).
#[local] Abbreviation cell t r e := (t (ReIndex r e (in_expertNum inp))).
#[local] Abbreviation window := (nvS (in_config inp)).
#[local] Abbreviation expert_of route := (topkExperts inp route).
#[local] Abbreviation ordinal route := (routes_before inp route (topkExperts inp route)).

(** The slot of a route, counted over the windows of all the ranks. *)
Definition slot_of (m : TokenSegmentMove) (o : Z) : Z :=
  dstRank m * window + (cell base (dstRank m) (expertId m) + seg_pos m o).

Lemma ordinal_range route : 0 <= route < cap_ inp ->
  0 <= expert_of route < E /\
  0 <= ordinal route < cell (tokensPerExpert inp) (in_rank inp) (expert_of route).
Proof.
  intros Hr. pose proof (ok_topk _ _ Hok route Hr) as He. split; [done|].
  rewrite (ok_mine _ _ Hok) by done. fold (routes_before inp (cap_ inp) (expert_of route)).
  split; [unfold routes_before; lia|]. by apply routes_before_lt.
Qed.

(** The segment found for a route. *)
Lemma find_segment_spec route : 0 <= route < cap_ inp ->
  exists m, find_segment s (expert_of route) (ordinal route) = Some m /\
    m ∈ segLog s /\ srcRank m = in_rank inp /\ expertId m = expert_of route /\
    srcExpertBegin m <= ordinal route < srcExpertBegin m + tokenCount m.
Proof.
  intros Hr. destruct (ordinal_range route Hr) as [He Ho]. pose proof (fin_tok _ _ _ Hs) as HT.
  pose proof (t_log _ _ _ HT) as Hlog. pose proof (ok_rank _ _ Hok) as Hrk.
  rewrite <- (fin_src _ _ _ Hs) in Ho by done.
  destruct (seg_src_covered _ _ _ _ Hlog Ho) as (m0 & Hm0 & E1 & E2 & E3).
  unfold find_segment. rewrite (loop_find (segment_matches (expert_of route) (ordinal route)) Some), (t_segs _ _ _ HT).
  destruct (List.find _ _) as [m|] eqn:Ef; cbn [found].
  - apply List.find_some in Ef as [Hin Hmat]. apply List.filter_In in Hin as [Hin Hsrc].
    unfold segment_matches in Hmat. b2p. exists m. apply list_elem_of_In in Hin. done.
  - exfalso. pose proof (List.find_none _ _ Ef m0) as Hn. rewrite List.filter_In in Hn.
    unfold segment_matches in Hn. rewrite E2, Z.eqb_refl in Hn. cbn [andb] in Hn.
    apply list_elem_of_In in Hm0. rewrite E1, Z.eqb_refl in Hn. specialize (Hn (conj Hm0 eq_refl)). lia.
Qed.

(** Where a segment may put a token. *)
Lemma slot_range m o : m ∈ segLog s -> srcExpertBegin m <= o < srcExpertBegin m + tokenCount m ->
  let off := cell base (dstRank m) (expertId m) + seg_pos m o in
  0 <= off < window /\ 0 <= slot_of m o <= INT32_MAX /\ slot_of m o / window = dstRank m.
Proof.
  intros Hm Ho. pose proof (t_log _ _ _ (fin_tok _ _ _ Hs)) as Hlog.
  destruct (log_ok_counts _ Hlog m Hm) as (Hc & _ & Hd & He).
  destruct (seg_bounds _ m Hlog Hm) as (_ & _ & B1 & B2). rewrite (fin_dst _ _ _ Hs) in B2 by done.
  destruct (Hbase (dstRank m) Hd) as [Hw _]. specialize (Hw _ He).
  assert (0 <= cell base (dstRank m) (expertId m) + seg_pos m o < window) as Hoff by (unfold seg_pos; lia).
  cbv zeta. split; [done|]. pose proof (ok_slots _ _ Hok). unfold slot_of. split; [nia|].
  by apply div_mul_add.
Qed.

(** Two tokens of the log in one slot are the same token of the same source. *)
Lemma slot_inj m m' o o' : m ∈ segLog s -> m' ∈ segLog s ->
  srcExpertBegin m <= o < srcExpertBegin m + tokenCount m ->
  srcExpertBegin m' <= o' < srcExpertBegin m' + tokenCount m' ->
  slot_of m o = slot_of m' o' -> srcRank m = srcRank m' /\ expertId m = expertId m' /\ o = o'.
Proof.
  intros Hm Hm' Eo Eo' Heq. pose proof (t_log _ _ _ (fin_tok _ _ _ Hs)) as Hlog.
  destruct (slot_range m _ Hm Eo) as (W1 & _ & D1). destruct (slot_range m' _ Hm' Eo') as (W2 & _ & D2).
  assert (dstRank m = dstRank m') as Ed by congruence.
  destruct (log_ok_counts _ Hlog m Hm) as (_ & _ & Hd & He).
  destruct (log_ok_counts _ Hlog m' Hm') as (_ & _ & _ & He').
  destruct (seg_bounds _ m Hlog Hm) as (_ & _ & B1 & B2). rewrite (fin_dst _ _ _ Hs) in B2 by done.
  destruct (seg_bounds _ m' Hlog Hm') as (_ & _ & B1' & B2').
  rewrite (fin_dst _ _ _ Hs) in B2' by (rewrite <- ?Ed; done).
  unfold slot_of in Heq. rewrite <- Ed in Heq, B2'.
  assert (cell base (dstRank m) (expertId m) + seg_pos m o = cell base (dstRank m) (expertId m') + seg_pos m' o')
    as Hoff by lia.
  assert (expertId m = expertId m') as Eex.
  { destruct (decide (expertId m = expertId m')) as [|Hne]; [done|]. exfalso.
    destruct (Hbase (dstRank m) Hd) as [_ Hap]. unfold seg_pos in Hoff.
    destruct (Hap _ _ He He' Hne); lia. }
  rewrite Eex in Hoff.
  destruct (seg_map_inj (segLog s) m m' o o' Hlog Hm Hm' Ed Eex Eo Eo' ltac:(lia)). done.
Qed.

(** The slot of a route. *)
Definition raw_of (route : Z) : Z :=
  match find_segment s (expert_of route) (ordinal route) with
  | Some m => slot_of m (ordinal route)
  | None => 0
  end.

(** Routes of this rank never share a slot. *)
Lemma raw_inj route route' : 0 <= route < cap_ inp -> 0 <= route' < cap_ inp ->
  raw_of route = raw_of route' -> route = route'.
Proof.
  intros Hr Hr'. unfold raw_of.
  destruct (find_segment_spec route Hr) as (m & -> & Hm & Em & Ee & Eo).
  destruct (find_segment_spec route' Hr') as (m' & -> & Hm' & Em' & Ee' & Eo'). intros Heq.
  destruct (slot_inj m m' _ _ Hm Hm' Eo Eo' Heq) as (_ & Eex & Eord). rewrite Ee, Ee' in Eex.
  destruct (Z.lt_trichotomy route route') as [Hlt|[?|Hlt]]; [|done|]; exfalso.
  - pose proof (routes_before_lt inp route route' (expert_of route) ltac:(lia) eq_refl). rewrite Eex in *. lia.
  - pose proof (routes_before_lt inp route' route (expert_of route') ltac:(lia) eq_refl). rewrite <- Eex in *. lia.
Qed.

(** The code of route [k] of a token: complemented when an earlier route of the token goes to
    the same rank. *)
Definition encoded (token k : Z) : Z :=
  let raw p := raw_of (token * in_topK inp + p) in
  if existsb (fun p => raw p / window =? raw k / window) (seqZ 0 k) then Z.lnot (raw k) else raw k.

Definition decode (v : Z) : Z := if 0 <=? v then v else Z.lnot v.

Lemma raw_range route : 0 <= route < cap_ inp ->
  0 <= raw_of route <= INT32_MAX /\ 0 <= raw_of route / window < R.
Proof.
  intros Hr. unfold raw_of. destruct (find_segment_spec route Hr) as (m & -> & Hm & _ & _ & Eo).
  destruct (slot_range m _ Hm Eo) as (_ & ? & ->). split; [done|].
  by destruct (log_ok_counts _ (t_log _ _ _ (fin_tok _ _ _ Hs)) m Hm) as (_ & _ & ? & _).
Qed.

(** Complemented exactly when a prior route shares the rank. *)
Lemma encoded_sign t k : 0 <= t < in_s inp -> 0 <= k < in_topK inp ->
  encoded t k < 0 <-> exists p, 0 <= p < k /\
    raw_of (t * in_topK inp + p) / window = raw_of (t * in_topK inp + k) / window.
Proof.
  intros Ht Hk. assert (0 <= t * in_topK inp + k < cap_ inp) as Hr by (rewrite (ok_cap _ _ Hok); nia).
  destruct (raw_range _ Hr) as [Hraw _]. unfold encoded. cbv zeta.
  destruct (existsb _ _) eqn:Ex.
  - split; [intros _|intros _; unfold Z.lnot; lia]. apply List.existsb_exists in Ex as (p & Hp & Ep).
    apply list_elem_of_In, elem_of_seqZ0 in Hp. exists p. split; [done|by apply Z.eqb_eq].
  - split; [lia|]. intros (p & Hp & Ep). exfalso. revert Ex. apply eq_true_false_abs, List.existsb_exists.
    exists p. split; [by apply list_elem_of_In, elem_of_seqZ0|by apply Z.eqb_eq].
Qed.

Lemma decode_encoded token k : 0 <= token * in_topK inp + k < cap_ inp ->
  decode (encoded token k) = raw_of (token * in_topK inp + k).
Proof.
  intros Hr. destruct (raw_range _ Hr) as [? _]. unfold encoded, decode. cbv zeta.
  case_if; [|rewrite (proj2 (Z.leb_le _ _)); [done|lia]].
  rewrite (proj2 (Z.leb_gt 0 _)) by (unfold Z.lnot; lia). apply Z.lnot_involutive.
Qed.

(** The destinations of the routes before [n]. *)
Definition encoded_upto (n : Z) (dst : Z -> Z) : Prop :=
  forall t k, 0 <= t -> 0 <= k < in_topK inp -> t * in_topK inp + k < n ->
    dst (t * in_topK inp + k) = encoded t k.

Lemma build_route_spec ordinals token k dst :
  (forall r, 0 <= r < cap_ inp -> ordinals r = ordinal r) ->
  0 <= token < in_s inp -> 0 <= k < in_topK inp -> encoded_upto (token * in_topK inp + k) dst ->
  match build_route inp s base ordinals token k dst with
  | inl dst' => encoded_upto (token * in_topK inp + k + 1) dst'
  | inr _ => False
  end.
Proof.
  intros Hord Ht Hk Hdst. set (route := token * in_topK inp + k) in *.
  assert (0 <= route < cap_ inp) as Hr by (unfold route; rewrite (ok_cap _ _ Hok); nia).
  unfold build_route. fold route. cbv zeta. rewrite Hord by done.
  destruct (find_segment_spec route Hr) as (m & Ef & Hm & Em & Ee & Eo). rewrite Ef.
  destruct (slot_range m _ Hm Eo) as (W1 & W2 & W3). cbv zeta in W1.
  rewrite Ee in W1. unfold slot_of in W2, W3. rewrite Ee in W2, W3. unfold seg_pos in *.
  replace (cell base (dstRank m) (expert_of route) + dstExpertBegin m + (ordinal route - srcExpertBegin m))
    with (cell base (dstRank m) (expert_of route) + (dstExpertBegin m + (ordinal route - srcExpertBegin m))) by lia.
  set (raw := dstRank m * window + _) in *.
  rewrite (proj2 (Z.ltb_ge _ 0)), (proj2 (Z.leb_gt _ _)), (proj2 (Z.ltb_ge raw 0)), (proj2 (Z.ltb_ge INT32_MAX raw)) by lia.
  cbn [orb].
  assert (raw_of route = raw) as Eraw by (unfold raw_of; rewrite Ef; unfold slot_of, seg_pos; by rewrite Ee).
  assert (rank_seen inp dst token k (dstRank m) =
    existsb (fun p => raw_of (token * in_topK inp + p) / window =? raw_of route / window) (seqZ 0 k)) as Eseen.
  { unfold rank_seen. apply existsb_ext_in. intros p Hp%elem_of_seqZ0. cbv beta zeta.
    rewrite Eraw, W3, (Hdst token p) by (unfold route in *; lia). fold (decode (encoded token p)).
    rewrite decode_encoded by (unfold route in *; nia). done. }
  intros t k' Ht' Hk' Hlt. unfold upd1.
  destruct (Z.eqb_spec (t * in_topK inp + k') route) as [Eq|Hne].
  - assert (t = token /\ k' = k) as [-> ->] by (by apply (mul_add_inj t token k' k (in_topK inp))).
    rewrite Eseen. unfold encoded. fold route. cbv zeta. by rewrite Eraw.
  - apply Hdst; try done. lia.
Qed.

Lemma build_dst_spec : exists dst, BuildDst inp s base = (PLAN_OK, dst) /\
  forall t k, 0 <= t < in_s inp -> 0 <= k < in_topK inp -> dst (t * in_topK inp + k) = encoded t k.
Proof.
  pose proof (ok_topK _ _ Hok). pose proof (ok_s _ _ Hok). unfold BuildDst. cbv zeta.
  set (body := fun token dst => loop_ret _ (seqZ 0 (in_topK inp)) dst).
  assert (forall token dst, 0 <= token < in_s inp -> encoded_upto (token * in_topK inp) dst ->
    match body token dst with inl dst' => encoded_upto ((token + 1) * in_topK inp) dst' | inr _ => False end) as Hb.
  { intros token dst Ht Hd. unfold body.
    pose proof (loop_ret_range (fun k => encoded_upto (token * in_topK inp + k)) (fun _ => False)
      (fun k dst => build_route inp s base (fst (expert_ordinals inp)) token k dst) (in_topK inp) dst) as HL.
    destruct (loop_ret _ _ _) as [dst'|]; [|apply HL; [|lia|by rewrite Z.add_0_r]].
    - replace ((token + 1) * in_topK inp) with (token * in_topK inp + in_topK inp) by lia.
      apply HL; [|lia|by rewrite Z.add_0_r]. intros k dst1 Hk Hd1. rewrite Z.add_assoc.
      apply build_route_spec; try done. intros. by apply expert_ordinals_spec.
    - intros k dst1 Hk Hd1. rewrite Z.add_assoc.
      apply build_route_spec; try done. intros. by apply expert_ordinals_spec. }
  pose proof (loop_ret_range (fun t => encoded_upto (t * in_topK inp)) (fun _ => False) body (in_s inp)
    (fun _ => 0) Hb ltac:(lia)) as HL.
  assert (encoded_upto (0 * in_topK inp) (fun _ => 0)) as Hinit by (intros t k; nia).
  specialize (HL Hinit). destruct (loop_ret _ _ _) as [dst|]; [|done].
  exists dst. split; [done|]. intros t k Ht Hk. apply HL; try done; [lia|nia].
Qed.
End dst.

(** Routes of different ranks, with the same log and the same bases. *)
Lemma raw_apart inp ws (Hok : plan_ok inp ws) s (Hs : settled inp ws s) base
    (Hbase : forall d, 0 <= d < in_rankSize inp -> window_ok inp s base d)
    inp' ws' (Hok' : plan_ok inp' ws') s' (Hs' : settled inp' ws' s') base' route route' :
  base = base' -> in_config inp = in_config inp' -> in_expertNum inp = in_expertNum inp' ->
  segLog s = segLog s' -> in_rank inp <> in_rank inp' ->
  0 <= route < cap_ inp -> 0 <= route' < cap_ inp' ->
  raw_of inp s base route <> raw_of inp' s' base' route'.
Proof.
  intros <- Hcfg HE Hlog Hne Hr Hr' Heq. unfold raw_of in Heq.
  destruct (find_segment_spec inp ws Hok s Hs route Hr) as (m & Ef & Hm & Em & _ & Eo).
  destruct (find_segment_spec inp' ws' Hok' s' Hs' route' Hr') as (m' & Ef' & Hm' & Em' & _ & Eo').
  rewrite Ef, Ef' in Heq. rewrite <- Hlog in Hm'.
  assert (slot_of inp base m' (routes_before inp' route' (topkExperts inp' route')) =
    slot_of inp' base m' (routes_before inp' route' (topkExperts inp' route'))) as Esl.
  { unfold slot_of. by rewrite Hcfg, HE. }
  rewrite <- Esl in Heq. destruct (slot_inj inp ws Hok s Hs base Hbase m m' _ _ Hm Hm' Eo Eo' Heq). congruence.
Qed.
