(* ===== verification/PlanAgree.v ===== *)
(** The ranks of a call plan separately, each from its own routes and the gathered counts. What
    they compute about each other agrees: the balancing and the layouts depend only on the part
    of the input that all the ranks share. *)
From S2P Require Import Prelude PlanTypes PlanSort PlanAlgorithm PlanOutput PlanMove.

(** The input without what belongs to one rank; [-1] is no rank, so no segment is local. *)
Definition shared_input (inp : PlanAlgorithmInput) : PlanAlgorithmInput :=
  {| in_rank := -1; in_rankSize := in_rankSize inp; in_s := in_s inp; in_topK := in_topK inp;
     in_expertNum := in_expertNum inp; in_config := in_config inp; topkExperts := fun _ => 0;
     tokensPerExpert := tokensPerExpert inp; globalRankIds := globalRankIds inp |}.

(** The state without the local records. *)
Definition forget (s : PState) : PState := with_segments s [] (segLog s) (fatal s).

(** Both sides read the same tables and the same sizes. *)
Ltac forget_tables := repeat match goal with
  | |- context [remainingTpe (forget ?s)] => change (remainingTpe (forget s)) with (remainingTpe s)
  | |- context [routedPairTokens (forget ?s)] => change (routedPairTokens (forget s)) with (routedPairTokens s)
  | |- context [srcExpertCursor (forget ?s)] => change (srcExpertCursor (forget s)) with (srcExpertCursor s)
  | |- context [dstExpertCursor (forget ?s)] => change (dstExpertCursor (forget s)) with (dstExpertCursor s)
  | |- context [alloc (forget ?s)] => change (alloc (forget s)) with (alloc s)
  | |- context [slotCount (forget ?s)] => change (slotCount (forget s)) with (slotCount s)
  | |- context [rankLoad (forget ?s)] => change (rankLoad (forget s)) with (rankLoad s)
  | |- context [fatal (forget ?s)] => change (fatal (forget s)) with (fatal s)
  | |- context [in_rankSize (shared_input ?i)] => change (in_rankSize (shared_input i)) with (in_rankSize i)
  | |- context [in_expertNum (shared_input ?i)] => change (in_expertNum (shared_input i)) with (in_expertNum i)
  | |- context [globalRankIds (shared_input ?i)] => change (globalRankIds (shared_input i)) with (globalRankIds i)
  | |- context [routeLimit (shared_input ?i)] => change (routeLimit (shared_input i)) with (routeLimit i)
  | |- context [cap_ (shared_input ?i)] => change (cap_ (shared_input i)) with (cap_ i)
  | |- context [b_ (shared_input ?i)] => change (b_ (shared_input i)) with (b_ i)
  | |- context [expertsPerRank (shared_input ?i)] => change (expertsPerRank (shared_input i)) with (expertsPerRank i)
  end.

Lemma loop_ret_sim {A B B' C C' : Type} (rho : B -> B') (bad : C -> Prop)
    (f : A -> B -> B + C) (g : A -> B' -> B' + C') l :
  (forall x a, x ∈ l -> match f x a with inl a' => g x (rho a) = inl (rho a') | inr r => bad r end) ->
  forall a, match loop_ret f l a with inl a' => loop_ret g l (rho a) = inl (rho a') | inr r => bad r end.
Proof.
  intros H. induction l as [|x l IH]; intros a; [done|]. cbn [loop_ret].
  pose proof (H x a ltac:(by left)) as Hx. destruct (f x a) as [a'|r]; [|done]. rewrite Hx.
  apply IH. intros y b Hy. apply H. by right.
Qed.

Section agree.
Context (inp : PlanAlgorithmInput) (ws ws' : PlanAlgorithmWorkspace) (affinityOrder : Z -> list Z).
Context (Haff : forall dst r, 0 <= dst < in_rankSize inp -> r ∈ affinityOrder dst ->
  0 <= r < in_rankSize inp).

#[local] Abbreviation sh := (shared_input inp).
#[local] Abbreviation failed s := (fatal s <> PLAN_OK).

Lemma append_segment_sim s expert src dst sb db count : 0 <= src ->
  match AppendSegment inp ws s expert src dst sb db count with
  | (s1, true) => AppendSegment sh ws' (forget s) expert src dst sb db count = (forget s1, true) /\
      fatal s1 = fatal s
  | (s1, false) => failed s1
  end.
Proof.
  intros Hs. unfold AppendSegment. cbv zeta. cbn [in_rank shared_input].
  rewrite (proj2 (Z.eqb_neq src (-1))) by lia. cbn [negb].
  destruct (src =? in_rank inp); cbn [negb]; [|done]. case_if; [done|]. done.
Qed.

Lemma take_source_sim expert dst src acc : 0 <= src ->
  match take_source inp ws expert dst src acc with
  | inl acc' => take_source sh ws' expert dst src (forget (fst (fst acc)), snd (fst acc), snd acc) =
      inl (forget (fst (fst acc')), snd (fst acc'), snd acc') /\
      (fatal (fst (fst acc)) = PLAN_OK -> fatal (fst (fst acc')) = PLAN_OK)
  | inr s1 => failed s1
  end.
Proof.
  intros Hs. destruct acc as [[s demand] actual]. unfold take_source. cbn [fst snd].
  destruct (demand <=? 0); [done|]. cbv zeta. forget_tables.
  set (take := MinI32 _ _). destruct (take <=? 0); [done|].
  pose proof (append_segment_sim s expert src dst
    (srcExpertCursor s (ReIndex src expert (in_expertNum inp)))
    (dstExpertCursor s (ReIndex dst expert (in_expertNum inp))) take Hs) as Hap.
  destruct (AppendSegment inp ws s _ _ _ _ _ _) as [s1 []]; [|done].
  destruct Hap as [-> Hf]. cbn [fst snd]. split; [done|]. cbn. by rewrite Hf.
Qed.

Lemma take_sources_sim expert dst s demand : 0 <= dst < in_rankSize inp ->
  match loop_ret (take_source inp ws expert dst) (affinityOrder dst) (s, demand, 0) with
  | inl (s1, demand1, actual) =>
      loop_ret (take_source sh ws' expert dst) (affinityOrder dst) (forget s, demand, 0) =
        inl (forget s1, demand1, actual)
  | inr s1 => failed s1
  end.
Proof.
  intros Hd.
  pose proof (loop_ret_sim (fun acc : PState * Z * Z => (forget (fst (fst acc)), snd (fst acc), snd acc))
    (fun s => failed s) (take_source inp ws expert dst) (take_source sh ws' expert dst) (affinityOrder dst)) as HL.
  match type of HL with ?P -> _ => assert P as HP end.
  { intros src acc Hin. apply Haff in Hin; [|done].
    pose proof (take_source_sim expert dst src acc ltac:(lia)) as Ht.
    destruct (take_source inp ws _ _ _ _); [by destruct Ht|done]. }
  specialize (HL HP (s, demand, 0)). by destruct (loop_ret (take_source inp ws _ _) _ _) as [[[s1 d1] a1]|s1].
Qed.

Lemma note_block_forget s dst expert : note_block sh (forget s) dst expert = forget (note_block inp s dst expert).
Proof.
  unfold note_block. forget_tables.
  destruct (foldl _ _ _) as [supply blocked]. destruct blocked; [done|]. by destruct (supply =? 0).
Qed.

Lemma move_expert_sim home dst expert acc : 0 <= dst < in_rankSize inp ->
  match move_expert inp ws affinityOrder home dst expert acc with
  | inl acc' => move_expert sh ws' affinityOrder home dst expert (forget (fst (fst acc)), snd (fst acc), snd acc) =
      inl (forget (fst (fst acc')), snd (fst acc'), snd acc')
  | inr s1 => failed s1
  end.
Proof.
  intros Hd. destruct acc as [[s demand] fnd]. unfold move_expert. cbn [fst snd].
  destruct (demand <=? 0); [done|]. cbv zeta. forget_tables.
  destruct (alloc s _ <=? 0); [done|].
  change (FindRemote sh (forget s) dst expert) with (FindRemote inp s dst expert).
  case_if; [done|].
  pose proof (take_sources_sim expert dst s (MinI32 (alloc s (ReIndex home expert (in_expertNum inp))) demand) Hd) as Ht.
  destruct (loop_ret (take_source inp ws _ _) _ _) as [[[s1 d1] a1]|s1]; [|done]. rewrite Ht. cbn [fst snd].
  assert (commit_move sh (forget s1) home dst expert a1 (0 <=? FindRemote inp s dst expert) =
    forget (commit_move inp s1 home dst expert a1 (0 <=? FindRemote inp s dst expert))) as ->.
  { unfold commit_move. by destruct (0 <? a1). }
  rewrite note_block_forget. by destruct (0 <? d1).
Qed.

Lemma apply_move_sim s home dst requested : 0 <= dst < in_rankSize inp ->
  let '(s1, moved) := ApplyExpertMove inp ws affinityOrder s home dst requested in
  failed s1 \/ ApplyExpertMove sh ws' affinityOrder (forget s) home dst requested = (forget s1, moved).
Proof.
  intros Hd. unfold ApplyExpertMove. forget_tables. case_if; [by right|].
  change (expert_order sh (forget s) home) with (expert_order inp s home).
  pose proof (loop_ret_sim (fun acc : PState * Z * bool => (forget (fst (fst acc)), snd (fst acc), snd acc))
    (fun s => failed s) (move_expert inp ws affinityOrder home dst) (move_expert sh ws' affinityOrder home dst)
    (expert_order inp s home) (fun x acc _ => move_expert_sim home dst x acc Hd) (s, requested, false)) as HL.
  destruct (loop_ret (move_expert inp ws _ _ _) _ _) as [[[s1 d1] f1]|s1]; [|by left]. cbn [fst snd] in HL.
  right. rewrite HL. by destruct ((0 <? d1) && negb f1).
Qed.

Lemma intra_pairs_sim s pairs : (forall p, p ∈ pairs -> 0 <= p.2 < in_rankSize inp) ->
  match intra_pairs inp ws affinityOrder s pairs with
  | inl (s1, moved) => intra_pairs sh ws' affinityOrder (forget s) pairs = inl (forget s1, moved)
  | inr s1 => failed s1
  end.
Proof.
  intros Hp. unfold intra_pairs.
  pose proof (@loop_ret_sim (Z * Z) _ _ _ PState (fun acc : PState * Z => (forget (fst acc), snd acc)) (fun s => failed s)) as HL.
  match goal with |- match loop_ret ?f _ _ with _ => _ end =>
    match goal with |- context [loop_ret ?g pairs (forget s, 0) = _] => specialize (HL f g pairs) end end.
  match type of HL with ?P -> _ => assert P as HP end; [|specialize (HL HP (s, 0)); by destruct (loop_ret _ _ (s, 0)) as [[]|]].
  intros p [s0 moved] Hin. cbn [fst snd]. cbv zeta. forget_tables.
  destruct (0 <? _); [|forget_tables; case_bool_decide; done].
  pose proof (apply_move_sim s0 p.1 p.2 (MinI32 (rankLoad s0 p.1 - cap_ inp) (cap_ inp - rankLoad s0 p.2)) (Hp p Hin)) as Hm.
  destruct (ApplyExpertMove inp ws _ _ _ _ _) as [s1 m]. case_bool_decide as Hf; [|done].
  destruct Hm as [| ->]; [done|]. forget_tables. by rewrite bool_decide_true.
Qed.

(** A round that does not fail is the shared round. *)
Definition same_round (r r0 : round_result) : Prop :=
  match r with
  | Continue s1 => r0 = Continue (forget s1)
  | Break s1 => failed s1 \/ r0 = Break (forget s1)
  end.

Lemma sorted_members l load ids n asc active x : SortRanks l load ids n asc = Some active ->
  x ∈ active -> x ∈ l.
Proof. intros ->%sort_ranks_inv. by rewrite insertion_sort_perm. Qed.

Lemma filtered_range (p : Z -> bool) x : x ∈ List.filter p (seqZ 0 (in_rankSize inp)) -> 0 <= x < in_rankSize inp.
Proof. rewrite list_elem_of_In, List.filter_In, <- list_elem_of_In, elem_of_seqZ0. tauto. Qed.

Lemma find_middle_forget s active m : find_middle sh (forget s) active m = find_middle inp s active m.
Proof. induction m as [|m IH]; [done|]. cbn [find_middle]. forget_tables. by rewrite IH. Qed.

Lemma intra_round_sim s key : same_round (intra_round inp ws affinityOrder s key)
  (intra_round sh ws' affinityOrder (forget s) key).
Proof.
  unfold intra_round. change (server_key sh) with (server_key inp). cbv zeta. forget_tables.
  destruct (SortRanks _ _ _ _ _) as [active|] eqn:Es; [|by left].
  case_if; [by right|].
  rewrite find_middle_forget. case_if; [by right|].
  set (pairs := zip _ _).
  assert (forall p, p ∈ pairs -> 0 <= p.2 < in_rankSize inp) as Hp.
  { intros [h d] Hin. unfold pairs in Hin. apply elem_of_zip_r, list_elem_of_In, List.filter_In in Hin as [Hin _].
    apply list_elem_of_In in Hin. eapply filtered_range, (sorted_members _ _ _ _ _ _ d Es).
    rewrite <- (take_drop (find_middle inp s active (length active / 2)) active), elem_of_app. by right. }
  pose proof (intra_pairs_sim s pairs Hp) as Hs.
  destruct (intra_pairs inp ws _ _ _) as [[s1 moved]|s1]; [rewrite Hs|by left].
  case_if; [by right|done].
Qed.

Lemma inter_candidates_sim dst senders l : 0 <= dst < in_rankSize inp -> forall s occ n,
  let '(s1, occ1, actual) := inter_candidates inp ws affinityOrder s dst senders occ l n in
  failed s1 \/
  inter_candidates sh ws' affinityOrder (forget s) dst senders occ l n = (forget s1, occ1, actual).
Proof.
  intros Hd. induction l as [|src l IH]; intros s occ n; cbn [inter_candidates]; [by right|].
  case_if; [by right|]. case_if; [apply IH|]. case_if; [apply IH|]. cbv zeta. forget_tables.
  case_if; [apply IH|].
  pose proof (apply_move_sim s src dst (MinI32 (rankLoad s src - cap_ inp) (cap_ inp - rankLoad s dst)) Hd) as Hm.
  destruct (ApplyExpertMove inp ws _ _ _ _ _) as [s1 actual].
  case_bool_decide as Hf; cbn [negb]; [|by left]. destruct Hm as [| ->]; [done|]. forget_tables.
  rewrite bool_decide_true by done. cbn [negb]. destruct (0 <? actual); [by right|apply IH].
Qed.

Lemma inter_receivers_sim s senders receivers : (forall d, d ∈ receivers -> 0 <= d < in_rankSize inp) ->
  match inter_receivers inp ws affinityOrder s senders receivers with
  | inl (s1, occ, moved) =>
      inter_receivers sh ws' affinityOrder (forget s) senders receivers = inl (forget s1, occ, moved)
  | inr s1 => failed s1
  end.
Proof.
  intros Hr. unfold inter_receivers.
  pose proof (@loop_ret_sim Z _ _ _ PState
    (fun acc : PState * (Z -> bool) * Z => (forget (fst (fst acc)), snd (fst acc), snd acc)) (fun s => failed s)) as HL.
  match goal with |- match loop_ret ?f _ _ with _ => _ end =>
    match goal with |- context [loop_ret ?g receivers (forget s, _, 0) = _] => specialize (HL f g receivers) end end.
  match type of HL with ?P -> _ => assert P as HP end;
    [|specialize (HL HP (s, fun _ => false, 0)); by destruct (loop_ret _ _ (s, _, 0)) as [[[]]|]].
  intros d [[s0 occ] moved] Hin. cbn [fst snd].
  pose proof (inter_candidates_sim d senders (affinityOrder d) (Hr d Hin) s0 occ 0) as Hc.
  destruct (inter_candidates inp ws _ _ _ _ _ _ _) as [[s1 occ1] actual]. case_bool_decide; [|done].
  destruct Hc as [| ->]; [done|]. forget_tables. by rewrite bool_decide_true.
Qed.

Lemma inter_round_sim s : same_round (inter_round inp ws affinityOrder s)
  (inter_round sh ws' affinityOrder (forget s)).
Proof.
  unfold inter_round. cbv zeta. forget_tables. case_if; [by right|].
  destruct (SortRanks _ _ _ _ false) as [active|] eqn:Es; [|by left]. case_if; [by right|].
  destruct (SortRanks _ _ _ _ true) as [receivers|] eqn:Er; [|by left].
  match goal with |- context [inter_receivers inp ws _ _ ?snd _] => set (senders := snd) end.
  assert (forall d, d ∈ receivers -> 0 <= d < in_rankSize inp) as Hr.
  { intros d Hd. apply (sorted_members _ _ _ _ _ _ d Er) in Hd.
    eapply filtered_range, (sorted_members _ _ _ _ _ _ d Es).
    match type of Hd with _ ∈ drop ?k _ => rewrite <- (take_drop k active), elem_of_app end. by right. }
  pose proof (inter_receivers_sim s senders receivers Hr) as Hs.
  destruct (inter_receivers inp ws _ _ _ _) as [[[s1 occ] moved]|s1]; [rewrite Hs|by left].
  case_if; [by right|done].
Qed.

Lemma rounds_sim (round round0 : PState -> round_result) :
  (forall s, same_round (round s) (round0 (forget s))) ->
  forall fuel s s1, iterate_rounds round fuel s = Some s1 ->
  failed s1 \/ iterate_rounds round0 fuel (forget s) = Some (forget s1).
Proof.
  intros Hr. induction fuel as [|fuel IH]; intros s s1; [done|]. cbn.
  specialize (Hr s). destruct (round s) as [s'|s']; cbn in Hr.
  - rewrite Hr. apply IH.
  - intros [= <-]. destruct Hr as [| ->]; [by left|by right].
Qed.

Lemma intra_servers_sim roundFuel fuel : forall key s s1,
  intra_servers inp ws affinityOrder roundFuel fuel key s = Some s1 ->
  failed s1 \/ intra_servers sh ws' affinityOrder roundFuel fuel key (forget s) = Some (forget s1).
Proof.
  induction fuel as [|fuel IH]; intros key s s1; [done|]. cbn [intra_servers]. cbv zeta.
  change (next_server_key sh) with (next_server_key inp). case_if; [intros [= <-]; by right|].
  destruct (iterate_rounds _ roundFuel s) as [s2|] eqn:E2; [|done].
  destruct (rounds_sim _ (fun s => intra_round sh ws' affinityOrder s (next_server_key inp key))
    (fun s => intra_round_sim s _) _ _ _ E2) as [Hf| ->].
  - rewrite bool_decide_false by done. intros [= <-]. by left.
  - forget_tables. case_bool_decide; [apply IH|]. intros [= <-]. by left.
Qed.

Lemma append_remainder_sim expert src s : 0 <= src ->
  match append_remainder inp ws expert src s with
  | inl s1 => append_remainder sh ws' expert src (forget s) = inl (forget s1)
  | inr s1 => failed s1
  end.
Proof.
  intros Hs. unfold append_remainder. cbv zeta. forget_tables.
  set (count := remainingTpe s _). destruct (count <=? 0); [done|].
  match goal with |- context [AppendSegment inp ws s ?e ?a ?b ?c ?d count] =>
    pose proof (append_segment_sim s e a b c d count Hs) as Hap end.
  destruct (AppendSegment inp ws s _ _ _ _ _ _) as [s1 []]; [|done]. by destruct Hap as [-> _].
Qed.

Lemma append_remainders_sim s : fatal (AppendRemainders inp ws s) = PLAN_OK ->
  AppendRemainders sh ws' (forget s) = forget (AppendRemainders inp ws s).
Proof.
  unfold AppendRemainders. forget_tables.
  set (f := fun expert s => loop_ret (append_remainder inp ws expert) _ s).
  set (g := fun expert s => loop_ret (append_remainder sh ws' expert) _ s).
  pose proof (loop_ret_sim forget (fun s => failed s) f g (seqZ 0 (in_expertNum inp))) as HL.
  match type of HL with ?P -> _ => assert P as HP end.
  { intros expert s0 _. apply loop_ret_sim. intros src s2 Hsrc%elem_of_seqZ0. apply append_remainder_sim. lia. }
  specialize (HL HP s). destruct (loop_ret f _ s) as [s1|s1]; [by rewrite HL|done].
Qed.
End agree.

Lemma initial_forget inp : initial_state (shared_input inp) = forget (initial_state inp).
Proof.
  unfold initial_state. cbv zeta. change (expertsPerRank (shared_input inp)) with (expertsPerRank inp).
  change (in_expertNum (shared_input inp)) with (in_expertNum inp).
  change (in_rankSize (shared_input inp)) with (in_rankSize inp).
  change (tokensPerExpert (shared_input inp)) with (tokensPerExpert inp).
  by destruct (foldl _ _ _).
Qed.

(** The balancing of one rank that does not fail is the balancing of the shared input. *)
Lemma balance_sim inp ws ws' fuel s :
  (forall dst r, 0 <= dst < in_rankSize inp -> r ∈ affinity_rows inp ws dst -> 0 <= r < in_rankSize inp) ->
  affinity_rows inp ws' = affinity_rows inp ws ->
  Balance inp ws fuel = Some s -> fatal s = PLAN_OK ->
  Balance (shared_input inp) ws' fuel = Some (forget s).
Proof.
  intros Haff Hc. unfold Balance. rewrite initial_forget.
  replace (affinity_rows (shared_input inp) ws') with (affinity_rows inp ws) by (by rewrite <- Hc).
  destruct (RunIntra inp ws _ _ _) as [s1|] eqn:E1; [|done]. intros H Hs.
  assert (fatal s1 = PLAN_OK) as Hf1.
  { destruct (decide (fatal s1 = PLAN_OK)) as [|Hn]; [done|]. rewrite bool_decide_false in H by done. congruence. }
  rewrite bool_decide_true in H by done.
  apply (intra_servers_sim _ _ ws' _ Haff) in E1 as [|E1]; [done|]. unfold RunIntra. forget_tables. rewrite E1. forget_tables.
  rewrite bool_decide_true by done. destruct (RunInter inp ws _ _ _) as [s2|] eqn:E2; [|done].
  assert (fatal s2 = PLAN_OK) as Hf2.
  { destruct (decide (fatal s2 = PLAN_OK)) as [|Hn]; [done|]. rewrite bool_decide_false in H by done. congruence. }
  rewrite bool_decide_true in H by done. injection H as <-.
  apply (rounds_sim _ _ (fun s => inter_round_sim inp ws ws' _ Haff s)) in E2 as [|E2]; [done|].
  unfold RunInter. rewrite E2. forget_tables. rewrite bool_decide_true by done. f_equal.
  by apply append_remainders_sim.
Qed.

(** ** Layouts *)

(** What of a layout is the same on every rank. *)
Definition same_layout (l l0 : Layout) : Prop :=
  rows l = rows l0 /\ expertPhysicalBase l = expertPhysicalBase l0 /\ maxRemote l = maxRemote l0.

Lemma loop_ret_rel {A B B' C C' : Type} (S : B -> B' -> Prop) (T : C -> C' -> Prop)
    (f : A -> B -> B + C) (g : A -> B' -> B' + C') l :
  let rel r r0 := match r, r0 with inl a, inl a0 => S a a0 | inr c, inr c0 => T c c0 | _, _ => False end in
  (forall x a a0, x ∈ l -> S a a0 -> rel (f x a) (g x a0)) ->
  forall a a0, S a a0 -> rel (loop_ret f l a) (loop_ret g l a0).
Proof.
  cbv zeta. intros H. induction l as [|x l IH]; intros a a0 Ha; [done|]. cbn [loop_ret].
  pose proof (H x a a0 ltac:(by left) Ha) as Hx. destruct (f x a), (g x a0); try done.
  apply IH; [|done]. intros. apply H; [by right|done].
Qed.

Section layouts.
Context (inp : PlanAlgorithmInput) (ws ws' : PlanAlgorithmWorkspace) (s : PState).

#[local] Abbreviation sh := (shared_input inp).

(** Two results of a layout loop. *)
Definition same_result (r r0 : Layout + (TileXRMoonEPPlanStatus * Layout)) : Prop :=
  match r, r0 with
  | inl l, inl l0 => same_layout l l0
  | inr (st, l), inr (st0, l0) => st = st0 /\ same_layout l l0
  | _, _ => False
  end.

Lemma place_remote_sim d l l0 : same_layout l l0 ->
  same_result (place_remote inp ws s d l) (place_remote sh ws' (forget s) d l0).
Proof.
  intros (H1 & H2 & H3). unfold place_remote. change (remote_row sh (forget s) d) with (remote_row inp s d).
  destruct (remote_row inp s d) as [row|st]; [|done]. cbv zeta. unfold same_layout, same_result. cbn.
  by rewrite H1, H2, H3.
Qed.

Lemma place_groups_sim d l l0 : same_layout l l0 ->
  same_result (place_groups inp s d l) (place_groups sh (forget s) d l0).
Proof.
  intros Hl. unfold place_groups. destruct Hl as (H1 & H2 & H3). rewrite H1. set (row := rows l0 d).
  pose proof (loop_ret_rel (fun a a0 : Layout * Z => same_layout a.1 a0.1 /\ a.2 = a0.2)
    (fun c c0 : TileXRMoonEPPlanStatus * Layout => c.1 = c0.1 /\ same_layout c.2 c0.2)
    (place_group inp s d row) (place_group sh (forget s) d row) (seqZ 0 (in_expertNum inp + b_ inp))) as HL.
  cbv zeta in HL. match type of HL with ?P -> _ => assert P as HP end.
  { intros g [a p] [a0 p0] _ [(G1 & G2 & G3) Ep]. cbn in G1, G2, G3, Ep. subst p0. unfold place_group.
    change (group_expert sh (forget s) d row g) with (group_expert inp s d row g).
    destruct (group_expert inp s d row g) as [x count]. cbv zeta. change (in_config sh) with (in_config inp).
    change (in_expertNum sh) with (in_expertNum inp).
    destruct (if count =? 0 then Some 0 else _) as [padded|]; [|unfold same_layout; cbn; by rewrite G1, G2, G3].
    case_if; unfold same_layout; cbn; by rewrite G1, G2, G3. }
  specialize (HL HP (l, 0) (l0, 0) (conj (conj H1 (conj H2 H3)) eq_refl)).
  change (in_expertNum sh + b_ sh) with (in_expertNum inp + b_ inp).
  destruct (loop_ret (place_group inp s d row) _ _) as [[l1 p1]|[st1 l1]],
    (loop_ret (place_group sh (forget s) d row) _ _) as [[l2 p2]|[st2 l2]]; try done.
  by destruct HL as [(G1 & G2 & G3) _].
Qed.

Lemma build_layouts_sim : let r := BuildLayouts inp ws s in let r0 := BuildLayouts sh ws' (forget s) in
  r.1 = r0.1 /\ same_layout r.2 r0.2.
Proof.
  unfold BuildLayouts. forget_tables. cbv zeta.
  pose proof (@loop_ret_rel Z _ _ _ _ same_layout
    (fun c c0 : TileXRMoonEPPlanStatus * Layout => c.1 = c0.1 /\ same_layout c.2 c0.2)) as HL. cbv zeta in HL.
  pose proof (HL (place_remote inp ws s) (place_remote sh ws' (forget s)) (seqZ 0 (in_rankSize inp))) as H1.
  pose proof (HL (place_groups inp s) (place_groups sh (forget s)) (seqZ 0 (in_rankSize inp))) as H2. clear HL.
  match type of H1 with ?P -> _ => assert P as HP end.
  { intros d a a0 _ Ha. pose proof (place_remote_sim d a a0 Ha) as Hs. unfold same_result in Hs.
    destruct (place_remote inp ws s d a) as [|[]], (place_remote sh ws' (forget s) d a0) as [|[]]; done. }
  specialize (H1 HP empty_layout empty_layout ltac:(done)).
  destruct (loop_ret (place_remote inp ws s) _ _) as [l1|[]], (loop_ret (place_remote sh ws' (forget s)) _ _) as [l2|[]]; try done.
  match type of H2 with ?P -> _ => assert P as HP2 end.
  { intros d a a0 _ Ha. pose proof (place_groups_sim d a a0 Ha) as Hs. unfold same_result in Hs.
    destruct (place_groups inp s d a) as [|[]], (place_groups sh (forget s) d a0) as [|[]]; done. }
  specialize (H2 HP2 l1 l2 H1).
  by destruct (loop_ret (place_groups inp s) _ _) as [|[]], (loop_ret (place_groups sh (forget s)) _ _) as [|[]].
Qed.
End layouts.
