(* ===== verification/PlanTargets.v ===== *)
(** The expert migration metadata of the planner: the table of remote experts of every rank and
    the bitmap of the ranks that need each expert of this rank. *)
From S2P Require Import Prelude PlanTypes PlanSort PlanAlgorithm PlanOutput PlanMove PlanFinal PlanLayout.

(** Bit [dst] of the bitmap of a local expert. *)
Definition target_bit (words : Z) (targets : Z -> Z) (localExpert dst : Z) : bool :=
  Z.testbit (targets (localExpert * words + dst / 64)) (dst mod 64).

Lemma target_word_range d R : 0 <= d < R -> 0 <= d / 64 < (R + 63) / 64.
Proof. intros Hd. div_lia. Qed.

(** Marking sets one bit and keeps the others. *)
Lemma mark_target_bit R T x d le d' : 0 <= d < R -> 0 <= d' < R ->
  target_bit ((R + 63) / 64) (mark_target ((R + 63) / 64) T x d) le d' =
  target_bit ((R + 63) / 64) T le d' || ((le =? x) && (d' =? d)).
Proof.
  intros Hd Hd'. pose proof (target_word_range d R Hd) as Hw. pose proof (target_word_range d' R Hd') as Hw'.
  unfold target_bit, mark_target, upd1. set (W := (R + 63) / 64) in *.
  destruct (Z.eqb_spec (le * W + d' / 64) (x * W + d / 64)) as [E|Hne].
  - apply mul_add_inj in E as [-> E]; [|done|done]. rewrite E, Z.eqb_refl, Z.lor_spec. f_equal. cbn [andb].
    pose proof (Z.mod_pos_bound d 64). pose proof (Z.mod_pos_bound d' 64).
    rewrite Z.shiftl_1_l, Z.pow2_bits_eqb by lia.
    destruct (Z.eqb_spec (d mod 64) (d' mod 64)), (Z.eqb_spec d' d); try done; div_lia.
  - destruct (Z.eqb_spec le x) as [->|]; [|by rewrite orb_false_r].
    destruct (Z.eqb_spec d' d) as [->|]; [done|by rewrite orb_false_r].
Qed.

Lemma row_at_below row slot n : 0 <= n -> (forall x, x ∈ row -> x < n) -> row_at row slot < n.
Proof.
  intros Hn Hrow. unfold row_at. destruct (nth_in_or_default (Z.to_nat slot) row (-1)) as [Hin|He].
  - by apply Hrow, list_elem_of_In.
  - lia.
Qed.

Section targets.
Context (inp : PlanAlgorithmInput) (ws : PlanAlgorithmWorkspace) (Hok : plan_ok inp ws).
Context (s : PState) (Hs : settled inp ws s) (Hmeta : hasRemoteExperts ws = true).

#[local] Abbreviation R := (in_rankSize inp).
#[local] Abbreviation E := (in_expertNum inp).
#[local] Abbreviation P := (expertsPerRank inp).
#[local] Abbreviation W := (targetWords inp).
#[local] Abbreviation home e := (HomeRank e (expertsPerRank inp)).
#[local] Abbreviation first := (in_rank inp * expertsPerRank inp).

Lemma home_local x le : 0 <= le < P -> x = first + le -> home x = in_rank inp.
Proof. intros Hle ->. unfold HomeRank. by apply div_mul_add. Qed.

Lemma local_home x : home x = in_rank inp -> 0 <= x - first < P.
Proof. unfold HomeRank. intros <-. pose proof (ok_P _ _ Hok). div_lia. Qed.

(** What publishing the first [n] slots of a row has written. *)
Record published (d : Z) (row : list Z) (o0 : Outputs) (n : Z) (o : Outputs) : Prop := {
  pub_row slot : 0 <= slot < n -> remoteExperts o (d * b_ inp + slot) = row_at row slot;
  pub_other d' slot : d' <> d -> 0 <= slot < b_ inp ->
    remoteExperts o (d' * b_ inp + slot) = remoteExperts o0 (d' * b_ inp + slot);
  pub_bit le d' : 0 <= le < P -> 0 <= d' < R ->
    target_bit W (expertTargets o) le d' = target_bit W (expertTargets o0) le d' ||
      ((d' =? d) && existsb (fun slot => row_at row slot =? first + le) (seqZ 0 n))
}.

Lemma publish_row_spec d row o0 : 0 <= d < R -> published d row o0 (b_ inp) (publish_row inp d row o0).
Proof.
  intros Hd. pose proof (ok_b _ _ Hok). pose proof (ok_P _ _ Hok). pose proof (ok_rank _ _ Hok).
  unfold publish_row. match goal with |- published _ _ _ _ (foldl ?f _ _) => set (step := f) end.
  assert (forall n : nat, Z.of_nat n <= b_ inp ->
    published d row o0 (Z.of_nat n) (foldl step o0 (seqZ 0 (Z.of_nat n)))) as Hall;
    [|specialize (Hall (Z.to_nat (b_ inp))); rewrite Z2Nat.id in Hall by lia; apply Hall; lia].
  induction n as [|n IH]; intros Hn.
  { constructor; [lia|done|]. intros. cbn. by rewrite andb_false_r, orb_false_r. }
  replace (Z.of_nat (S n)) with (Z.of_nat n + 1) by lia. rewrite seqZ0_snoc, foldl_app by lia. cbn [foldl].
  destruct (IH ltac:(lia)) as [I1 I2 I3]. set (o := foldl _ o0 (seqZ 0 (Z.of_nat n))) in *.
  set (slot := Z.of_nat n) in *. unfold step. cbv zeta. constructor; cbn [remoteExperts expertTargets].
  - intros k Hk. destruct (decide (k = slot)) as [->|]; [apply upd1_eq|]. rewrite upd1_ne by lia. apply I1. lia.
  - intros d' k Hne Hk. rewrite upd1_ne; [by apply I2|].
    intros Ek. apply mul_add_inj in Ek; [by destruct Ek|done|unfold slot; lia].
  - intros le d' Hle Hd'. rewrite seqZ0_snoc, existsb_app by lia. cbn [existsb]. rewrite orb_false_r, andb_orb_distrib_r, orb_assoc.
    rewrite <- (I3 le d' Hle Hd'). set (x := row_at row slot).
    destruct (Z.eqb_spec (home x) (in_rank inp)) as [Ex|Hne].
    + pose proof (local_home x Ex). assert (0 <= x) by nia. rewrite (proj2 (Z.leb_le _ _)) by done. cbn [andb].
      unfold targetWords. rewrite mark_target_bit by done. f_equal. rewrite andb_comm. f_equal. lia.
    + rewrite andb_false_r. rewrite (proj2 (Z.eqb_neq x (first + le))); [by rewrite andb_false_r, orb_false_r|].
      intros E1. apply Hne. by apply (home_local x le).
Qed.

(** Whether a destination needs an expert is whether its row lists it. *)
Lemma row_listed d row x : 0 <= d < R -> row_of inp s d row -> 0 <= x ->
  existsb (fun slot => row_at row slot =? x) (seqZ 0 (b_ inp)) = bool_decide (x ∈ row).
Proof.
  intros Hd Hrow Hx. apply eq_true_iff_eq. rewrite bool_decide_eq_true, List.existsb_exists. split.
  - intros (slot & Hslot%list_elem_of_In%elem_of_seqZ0 & Ex%Z.eqb_eq).
    apply row_at_inside in Ex; [|lia| |done]; [by apply list_elem_of_lookup_2 in Ex|].
    intros y Hy. apply (row_of_elem inp s d row y Hrow) in Hy. lia.
  - intros (i & Hi)%list_elem_of_lookup_1. pose proof (row_of_length inp ws s Hs d row Hd Hrow) as Hlen.
    pose proof (lookup_lt_Some _ _ _ Hi). exists (Z.of_nat i).
    split; [apply list_elem_of_In, elem_of_seqZ0; lia|]. apply Z.eqb_eq. unfold row_at. rewrite Nat2Z.id.
    by apply nth_lookup_Some.
Qed.

(** The metadata of the destinations before [n]. *)
Definition meta_upto (n : Z) (l : Layout) : Prop :=
  (forall d slot, 0 <= d < n -> 0 <= slot < b_ inp ->
     remoteExperts (outs l) (d * b_ inp + slot) = row_at (rows l d) slot) /\
  (forall le d, 0 <= le < P -> 0 <= d < R ->
     target_bit W (expertTargets (outs l)) le d = (d <? n) && is_remote inp s d (first + le)).

Lemma local_expert_range le : 0 <= le < P -> 0 <= first + le < E.
Proof. intros Hle. pose proof (ok_E _ _ Hok) as HE. pose proof (ok_rank _ _ Hok). nia. Qed.

Lemma place_remote_meta d l : 0 <= d < R -> meta_upto d l ->
  match place_remote inp ws s d l with inl l' => meta_upto (d + 1) l' | inr _ => False end.
Proof.
  intros Hd [H1 H2]. unfold place_remote. destruct (remote_row_spec inp ws s Hs d Hd) as (row & -> & Hrow).
  cbv zeta. rewrite Hmeta. set (o1 := {| out_dst := _ |}).
  destruct (publish_row_spec d row o1 Hd) as [P1 P2 P3]. split; cbn [rows outs].
  - intros d' slot Hd' Hslot. destruct (decide (d' = d)) as [->|Hne].
    + rewrite upd1_eq. by apply P1.
    + rewrite upd1_ne, P2 by done. apply H1; lia.
  - intros le d' Hle Hd'. rewrite P3 by done. cbn [o1 expertTargets]. rewrite H2 by done.
    pose proof (local_expert_range le Hle) as Hx. rewrite (row_listed d row) by (done || lia).
    destruct (Z.eqb_spec d' d) as [->|Hne]; cbn [andb].
    + rewrite Z.ltb_irrefl, (proj2 (Z.ltb_lt _ _)) by lia. cbn [andb orb]. apply eq_true_iff_eq.
      rewrite bool_decide_eq_true, (row_of_elem inp s d row _ Hrow). tauto.
    + rewrite orb_false_r. f_equal. lia.
Qed.

(** The groups do not touch the metadata. *)
Lemma place_groups_meta d l : 0 <= d < R -> meta_upto R l ->
  match place_groups inp s d l with inl l' => meta_upto R l' | inr _ => True end.
Proof.
  intros Hd Hl. unfold place_groups.
  pose proof (loop_ret_inv (fun acc : Layout * Z => meta_upto R acc.1) (fun _ => True)
    (place_group inp s d (rows l d)) (seqZ 0 (E + b_ inp)) (l, 0)) as HL.
  destruct (loop_ret _ _ _) as [[l' p]|]; [|done]. apply HL; [|done].
  intros g [l1 p1] _ HI. unfold place_group. destruct (group_expert _ _ _ _ _) as [x count]. cbv zeta.
  destruct (if count =? 0 then _ else _) as [padded|]; [|done]. case_if; [done|].
  cbn [fst]. unfold meta_upto in *. cbn [rows outs fst] in *. by case_if.
Qed.

Lemma build_layouts_meta : let '(status, l) := BuildLayouts inp ws s in
  status = PLAN_OK -> meta_upto R l.
Proof.
  unfold BuildLayouts. pose proof (ok_R _ _ Hok).
  pose proof (loop_ret_range meta_upto (fun _ => False) (place_remote inp ws s) R empty_layout
    place_remote_meta ltac:(lia)) as H1.
  assert (meta_upto 0 empty_layout) as H0'.
  { split; [lia|]. intros le d Hle Hd. unfold target_bit. cbn. rewrite Z.bits_0. symmetry.
    rewrite (proj2 (Z.ltb_ge _ _)) by lia. done. }
  specialize (H1 H0'). destruct (loop_ret _ _ _) as [l|]; [|done].
  pose proof (loop_ret_inv (meta_upto R) (fun _ => True) (place_groups inp s) (seqZ 0 R) l) as H2.
  destruct (loop_ret (place_groups inp s) _ _) as [l'|[st l']] eqn:E2.
  - intros _. apply H2; [|done]. intros d l1 Hd%elem_of_seqZ0 Hl1. by apply place_groups_meta.
  - intros ->. pose proof (loop_ret_inv (fun _ : Layout => True)
      (fun r : TileXRMoonEPPlanStatus * Layout => r.1 <> PLAN_OK) (place_groups inp s) (seqZ 0 R) l) as H3.
    rewrite E2 in H3. cbn in H3. exfalso. apply H3; [|done|done]. intros d l1 _ _. unfold place_groups.
    pose proof (loop_ret_inv (fun _ : Layout * Z => True)
      (fun r : TileXRMoonEPPlanStatus * Layout => r.1 <> PLAN_OK)
      (place_group inp s d (rows l1 d)) (seqZ 0 (E + b_ inp)) (l1, 0)) as H4.
    destruct (loop_ret (place_group inp s d (rows l1 d)) _ _) as [[? ?]|]; [done|]. apply H4; [|done]. intros g [l2 p2] _ _.
    unfold place_group. destruct (group_expert _ _ _ _ _) as [x count]. cbv zeta.
    destruct (if count =? 0 then _ else _) as [padded|]; [|done]. by case_if.
Qed.
End targets.
