(* ===== verification/PlanProps.v ===== *)
(** What a planner call guarantees: it returns, conserves the tokens, respects its limits, lays
    the receive windows out without overlap and gives every route of every rank a slot of its
    own. *)
From S2P Require Import Prelude PlanTypes PlanSort PlanAlgorithm PlanOutput PlanMove PlanBalance PlanFinal PlanSegments PlanBounds PlanLayout PlanDst PlanAgree PlanTargets.

(** ** A small call *)

(** Two ranks with two experts each, four tokens per rank and two routes per token. *)
Definition small_config : TileXRMoonEPPlanConfig :=
  {| prefetchSlots := 2; rankTokenCapacity := 8; nvS := 16; tokenPadding := 2;
     tokenRouteLimitPerPair := 6; cardsPerServer := 8; cardsPerCabinet := 64;
     crossCandidateCount := 3 |}.

Definition array_of (l : list Z) : Z -> Z := fun i => nth (Z.to_nat i) l 0.

Definition small_input (rank : Z) : PlanAlgorithmInput :=
  {| in_rank := rank; in_rankSize := 2; in_s := 4; in_topK := 2; in_expertNum := 4;
     in_config := small_config;
     topkExperts := array_of (if rank =? 0 then [0; 1; 0; 1; 0; 2; 0; 1] else [0; 1; 1; 0; 3; 2; 1; 0]);
     tokensPerExpert := array_of [4; 3; 1; 0; 3; 3; 1; 1]; globalRankIds := fun r => r |}.

Definition small_workspace : PlanAlgorithmWorkspace :=
  {| mandatoryPointers := true; hasRemoteExperts := true; hasExpertTargets := true;
     hasRemoteExpertSet := true; hasRoutedPairTokens := true; tokenSegmentCapacity := 8;
     scratchCount := 32; affinityCache := None |}.

Lemma small_affinity rank : affinity_ok (small_input rank) small_workspace.
Proof. done. Qed.

(** ** Shared steps *)

Section run.
Context (inp : PlanAlgorithmInput) (ws : PlanAlgorithmWorkspace).
Context (Hval : Validate inp ws = PLAN_OK) (Hc : affinity_ok inp ws).

Lemma run_balance : exists s, Balance inp ws (round_fuel inp) = Some s /\
  (settled inp ws s \/ overflowed inp ws s).
Proof.
  apply balance_total; [by apply validate_ok|done|]. unfold round_fuel. lia.
Qed.

Lemma balance_settled s : Balance inp ws (round_fuel inp) = Some s -> fatal s = PLAN_OK -> settled inp ws s.
Proof.
  intros E Hf. destruct run_balance as (s' & E' & H). assert (s' = s) as -> by congruence.
  destruct H as [|[Ho _]]; [done|congruence].
Qed.

Lemma run_unfold : RunPlanAlgorithm inp ws = finish inp ws <$> Balance inp ws (round_fuel inp).
Proof. unfold RunPlanAlgorithm. by rewrite Hval. Qed.

Lemma balanced_loads s : balanced inp s = true <-> forall d, 0 <= d < in_rankSize inp -> rankLoad s d = cap_ inp.
Proof.
  unfold balanced. rewrite List.forallb_forall. split.
  - intros H d Hd. apply Z.eqb_eq, H, list_elem_of_In, elem_of_seqZ0. done.
  - intros H d Hd%list_elem_of_In%elem_of_seqZ0. by apply Z.eqb_eq, H.
Qed.

Lemma balance_status_partial s : balanced inp s = false ->
  balance_status inp s ∈ [PLAN_PARTIAL_NO_FEASIBLE_PAIR; PLAN_PARTIAL_PREFETCH_SLOT_EXHAUSTED;
                          PLAN_PARTIAL_TOKEN_SUPPLY].
Proof. intros H. unfold balance_status. rewrite H. repeat case_if; eauto using list_elem_of_here, list_elem_of_further. Qed.

(** The result of a run whose balancing did not fail. *)
Lemma finish_settled s : settled inp ws s ->
  let '(layoutStatus, l) := BuildLayouts inp ws s in
  (layoutStatus = PLAN_OK \/ layoutStatus = PLAN_ERROR_LAYOUT_EXCEEDS_NVS) /\
  let '(st, o, words) := finish inp ws s in
  st = (if balanced inp s then layoutStatus else balance_status inp s) /\
  words = FillStatus inp s st (maxRemote l) (localEnd l) /\
  cuSeqlens o = cuSeqlens (outs l) /\ remoteExperts o = remoteExperts (outs l) /\
  expertTargets o = expertTargets (outs l) /\ expertsToCopy o = expertsToCopy (outs l) /\
  (layoutStatus = PLAN_OK ->
   places_upto inp s (in_rankSize inp) l /\
   forall t k, 0 <= t < in_s inp -> 0 <= k < in_topK inp ->
     out_dst o (t * in_topK inp + k) = encoded inp s (expertPhysicalBase l) t k).
Proof.
  intros Hs. pose proof (validate_ok _ _ Hval) as Hok. unfold finish.
  rewrite (fin_fatal _ _ _ Hs), bool_decide_true by done. cbn [negb].
  pose proof (build_layouts_spec inp ws Hok s Hs) as Hl.
  destruct (BuildLayouts inp ws s) as [st l]. destruct Hl as [[-> Hp]| ->].
  - split; [by left|]. rewrite bool_decide_true by done.
    pose proof Hp as (_ & Hw & _).
    destruct (build_dst_spec inp ws Hok s Hs (expertPhysicalBase l) Hw) as (dst & -> & Hd).
    cbv zeta. destruct (balanced inp s); cbn; split_and!; done.
  - split; [by right|]. rewrite bool_decide_false by done. cbv zeta. by destruct (balanced inp s).
Qed.
End run.

Lemma validate_status inp ws : Validate inp ws <> PLAN_OK ->
  Validate inp ws = PLAN_ERROR_CONFIG_MISMATCH \/ Validate inp ws = PLAN_ERROR_TPE_MISMATCH.
Proof.
  unfold Validate. cbv zeta. repeat (case_if; [by left|]).
  destruct (count_experts inp _) as [count|st] eqn:Ec.
  - destruct (check_tokens_per_expert inp _ count) as [|st] eqn:Et; [done|]. intros _.
    unfold check_tokens_per_expert in Et.
    match type of Et with loop_ret ?f ?l ?a = _ =>
      pose proof (loop_ret_inv (fun _ => True)
        (fun r => r = PLAN_ERROR_CONFIG_MISMATCH \/ r = PLAN_ERROR_TPE_MISMATCH) f l a) as HL end.
    rewrite Et in HL. apply HL; [|done]. intros src [] _ _.
    match goal with |- context [loop_ret ?f ?l 0] =>
      pose proof (loop_ret_inv (fun _ => True)
        (fun r => r = PLAN_ERROR_CONFIG_MISMATCH \/ r = PLAN_ERROR_TPE_MISMATCH) f l 0) as HL2 end.
    destruct (loop_ret _ _ 0); [case_if; auto|]. apply HL2; [|done].
    intros e sum _ _. cbv zeta. repeat case_if; auto.
  - intros _. left. unfold count_experts in Ec.
    match type of Ec with loop_ret ?f ?l ?a = _ =>
      pose proof (loop_ret_inv (fun _ => True) (fun r => r = PLAN_ERROR_CONFIG_MISMATCH) f l a) as HL end.
    rewrite Ec in HL. apply HL; [|done]. intros route c _ _. cbv zeta. by case_if.
Qed.

(** ** Every call returns *)

(** C8: a planner call always returns, on every input whose cached affinity rows list ranks:
    the balancing rounds stop. It never reports an internal invariant violation, and a call that
    passes validation with room for one record per local route ends in [PLAN_OK], in one of the
    partial statuses, or in a layout that does not fit the window. *)
Theorem plan_returns inp ws : affinity_ok inp ws ->
  exists st o words, RunPlanAlgorithm inp ws = Some (st, o, words) /\
    st <> PLAN_ERROR_INTERNAL_INVARIANT /\
    (Validate inp ws = PLAN_OK -> cap_ inp <= tokenSegmentCapacity ws ->
     st ∈ [PLAN_OK; PLAN_ERROR_LAYOUT_EXCEEDS_NVS; PLAN_PARTIAL_NO_FEASIBLE_PAIR;
           PLAN_PARTIAL_PREFETCH_SLOT_EXHAUSTED; PLAN_PARTIAL_TOKEN_SUPPLY]).
Proof.
  intros Hc. destruct (decide (Validate inp ws = PLAN_OK)) as [Hval|Hval].
  2: { unfold RunPlanAlgorithm. rewrite bool_decide_false by done. do 3 eexists. split; [done|].
       split; [|done]. by destruct (validate_status inp ws Hval) as [-> | ->]. }
  rewrite run_unfold by done. destruct (run_balance inp ws Hval Hc) as (s & -> & [Hs|[Hf Hcap]]); cbn.
  - pose proof (finish_settled inp ws Hval s Hs) as Hfin.
    destruct (BuildLayouts inp ws s) as [ls l], (finish inp ws s) as [[st o] words].
    destruct Hfin as (Hl & -> & _). do 3 eexists. split; [done|].
    destruct (balanced inp s) eqn:Eb.
    + destruct Hl as [-> | ->]; (split; [done|]); eauto using list_elem_of_here, list_elem_of_further.
    + pose proof (balance_status_partial inp s Eb) as Hb. split; [|eauto using list_elem_of_further].
      intros E. rewrite E in Hb. by repeat (inversion Hb as [|? ? ? Hb']; subst; clear Hb; rename Hb' into Hb).
  - unfold finish. rewrite bool_decide_false by (by rewrite Hf). cbn. rewrite Hf. do 3 eexists.
    split; [done|]. split; [done|]. lia.
Qed.

Lemma plan_returns_witness : exists st o words,
  RunPlanAlgorithm (small_input 0) small_workspace = Some (st, o, words) /\
  st <> PLAN_ERROR_INTERNAL_INVARIANT /\
  (Validate (small_input 0) small_workspace = PLAN_OK ->
   cap_ (small_input 0) <= tokenSegmentCapacity small_workspace ->
   st ∈ [PLAN_OK; PLAN_ERROR_LAYOUT_EXCEEDS_NVS; PLAN_PARTIAL_NO_FEASIBLE_PAIR;
         PLAN_PARTIAL_PREFETCH_SLOT_EXHAUSTED; PLAN_PARTIAL_TOKEN_SUPPLY]).
Proof. apply (plan_returns (small_input 0) small_workspace). apply small_affinity. Defined.

(** ** Tokens *)

(** C3: the balancing neither loses nor duplicates tokens. With room for the records it ends in
    a log of segments in which, for every source rank and expert, the segments tile exactly the
    tokens the source routed to that expert, and for every destination the segments of an
    expert tile a range from 0, whose sizes add up to the load of the rank; the records of this
    rank are the segments whose source it is. *)
Theorem plan_conserves_tokens inp ws : affinity_ok inp ws -> Validate inp ws = PLAN_OK ->
  cap_ inp <= tokenSegmentCapacity ws ->
  exists s, Balance inp ws (round_fuel inp) = Some s /\ fatal s = PLAN_OK /\
    log_ok (in_rankSize inp) (in_expertNum inp) (segLog s) /\
    (forall src e, 0 <= src < in_rankSize inp -> 0 <= e < in_expertNum inp ->
       src_total (segLog s) src e = tokensPerExpert inp (ReIndex src e (in_expertNum inp))) /\
    (forall d, 0 <= d < in_rankSize inp ->
       rankLoad s d = zsum (dst_total (segLog s) d) (seqZ 0 (in_expertNum inp))) /\
    tokenSegments s = List.filter (fun m => srcRank m =? in_rank inp) (segLog s).
Proof.
  intros Hc Hval Hcap. destruct (run_balance inp ws Hval Hc) as (s & E & [Hs|[_ Ho]]); [|lia].
  exists s. split; [done|]. split; [apply (fin_fatal _ _ _ Hs)|]. pose proof (fin_tok _ _ _ Hs) as HT.
  split; [apply (t_log _ _ _ HT)|]. split; [apply (fin_src _ _ _ Hs)|]. split; [|apply (t_segs _ _ _ HT)].
  intros d Hd. rewrite (fin_load _ _ _ Hs d Hd). apply zsum_ext. intros e He%elem_of_seqZ0.
  symmetry. by apply (fin_dst _ _ _ Hs).
Qed.

Lemma plan_conserves_tokens_witness :
  exists s, Balance (small_input 0) small_workspace (round_fuel (small_input 0)) = Some s /\
    fatal s = PLAN_OK /\ src_total (segLog s) 1 0 = 3.
Proof.
  destruct (plan_conserves_tokens (small_input 0) small_workspace (small_affinity 0)
    ltac:(vm_compute; reflexivity) ltac:(vm_compute; discriminate)) as (s & E & Hf & _ & Hsrc & _).
  exists s. split; [done|]. split; [done|]. apply (Hsrc 1 0); cbn; lia.
Defined.

(** The limits of the configuration hold of every plan: a rank needs at most
    [prefetchSlots] experts that are not its own, and when a pair limit is set, a source sends
    at most [tokenRouteLimitPerPair] tokens to a rank other than the home of their experts. *)
Theorem plan_respects_limits inp ws s : affinity_ok inp ws -> Validate inp ws = PLAN_OK ->
  Balance inp ws (round_fuel inp) = Some s -> fatal s = PLAN_OK ->
  (forall d, 0 <= d < in_rankSize inp ->
     Z.of_nat (length (List.filter (is_remote inp s d) (seqZ 0 (in_expertNum inp)))) <= b_ inp) /\
  (forall src d, 0 <= src < in_rankSize inp -> 0 <= d < in_rankSize inp -> routeLimit inp <> 0 ->
     away_total inp (segLog s) src d <= routeLimit inp).
Proof.
  intros Hc Hval E Hf. pose proof (balance_settled inp ws Hval Hc s E Hf) as Hs. split.
  - intros d Hd. by apply (remote_count inp ws s Hs).
  - intros src d Hsrc Hd Hlim. by apply (t_route _ _ _ (fin_tok _ _ _ Hs)).
Qed.

Lemma plan_respects_limits_witness : exists s,
  Balance (small_input 0) small_workspace (round_fuel (small_input 0)) = Some s /\
  away_total (small_input 0) (segLog s) 0 1 <= 6.
Proof.
  eexists. split; [vm_compute; reflexivity|].
  apply (plan_respects_limits (small_input 0) small_workspace _ (small_affinity 0)
    ltac:(vm_compute; reflexivity) ltac:(vm_compute; reflexivity) ltac:(vm_compute; reflexivity));
    cbn; lia.
Defined.

(** ** Status *)

(** The results of a call that passed validation and did not run out of records. *)
Lemma run_result inp ws s : affinity_ok inp ws -> Validate inp ws = PLAN_OK ->
  Balance inp ws (round_fuel inp) = Some s -> fatal s = PLAN_OK ->
  settled inp ws s /\ RunPlanAlgorithm inp ws = Some (finish inp ws s).
Proof.
  intros Hc Hval E Hf. split; [by apply balance_settled|]. by rewrite run_unfold, E.
Qed.

(** A call that reports [PLAN_OK]. *)
Lemma run_ok inp ws o words : affinity_ok inp ws ->
  RunPlanAlgorithm inp ws = Some (PLAN_OK, o, words) ->
  Validate inp ws = PLAN_OK /\ exists s l,
    Balance inp ws (round_fuel inp) = Some s /\ settled inp ws s /\ balanced inp s = true /\
    BuildLayouts inp ws s = (PLAN_OK, l) /\ places_upto inp s (in_rankSize inp) l /\
    words = FillStatus inp s PLAN_OK (maxRemote l) (localEnd l) /\
    cuSeqlens o = cuSeqlens (outs l) /\ remoteExperts o = remoteExperts (outs l) /\
    expertTargets o = expertTargets (outs l) /\ expertsToCopy o = expertsToCopy (outs l) /\
    forall t k, 0 <= t < in_s inp -> 0 <= k < in_topK inp ->
      out_dst o (t * in_topK inp + k) = encoded inp s (expertPhysicalBase l) t k.
Proof.
  intros Hc Hrun. assert (Validate inp ws = PLAN_OK) as Hval.
  { unfold RunPlanAlgorithm in Hrun. destruct (decide (Validate inp ws = PLAN_OK)) as [|Hn]; [done|].
    rewrite bool_decide_false in Hrun by done. injection Hrun. congruence. }
  split; [done|]. rewrite run_unfold in Hrun by done.
  destruct (run_balance inp ws Hval Hc) as (s & Es & [Hs|[Hf _]]); rewrite Es in Hrun; cbn in Hrun.
  - injection Hrun as Hrun. pose proof (finish_settled inp ws Hval s Hs) as Hfin. rewrite Hrun in Hfin.
    destruct (BuildLayouts inp ws s) as [ls l] eqn:El. destruct Hfin as (Hl & Hst & -> & H1 & H2 & H3 & H4 & H5).
    destruct (balanced inp s) eqn:Eb.
    + subst ls. destruct (H5 eq_refl). exists s, l. done.
    + pose proof (balance_status_partial inp s Eb) as Hb. rewrite <- Hst in Hb.
      exfalso. by repeat (inversion Hb as [|? ? ? Hb']; subst; clear Hb; rename Hb' into Hb).
  - unfold finish in Hrun. rewrite bool_decide_false in Hrun by (by rewrite Hf). cbn in Hrun.
    injection Hrun as Hrun _ _. congruence.
Qed.

Lemma deficit_zero inp s : balanced inp s = true ->
  foldl (fun d r => if rankLoad s r <? cap_ inp then d + (cap_ inp - rankLoad s r) else d) 0
    (seqZ 0 (in_rankSize inp)) = 0.
Proof.
  unfold balanced. rewrite List.forallb_forall. intros H.
  induction (seqZ 0 (in_rankSize inp)) as [|r l IH]; [done|]. cbn [foldl].
  rewrite (proj1 (Z.eqb_eq _ _) (H r ltac:(by left))), Z.ltb_irrefl. apply IH. intros x Hx. apply H. by right.
Qed.

(** Ranks of one call that both build their affinity rows, or share a cached table, use the same. *)
Lemma same_rows inp inp' ws ws' : shared_input inp = shared_input inp' -> affinityCache ws = affinityCache ws' ->
  affinity_rows inp ws = affinity_rows inp' ws'.
Proof.
  intros Hsh Hca. unfold affinity_rows. rewrite Hca. injection Hsh as -> _ _ _ _ _ ->. done.
Qed.

(** What two ranks of one call have in common. *)
Lemma run_agree inp inp' ws ws' s s' :
  affinity_ok inp ws -> affinity_ok inp' ws' -> Validate inp ws = PLAN_OK -> Validate inp' ws' = PLAN_OK ->
  shared_input inp = shared_input inp' -> affinity_rows inp ws = affinity_rows inp' ws' ->
  Balance inp ws (round_fuel inp) = Some s -> fatal s = PLAN_OK ->
  Balance inp' ws' (round_fuel inp') = Some s' -> fatal s' = PLAN_OK ->
  forget s = forget s' /\
  let '(st, l) := BuildLayouts inp ws s in let '(st', l') := BuildLayouts inp' ws' s' in
  st = st' /\ same_layout l l'.
Proof.
  intros Hc Hc' Hval Hval' Hsh Hca E Hf E' Hf'.
  pose proof (affinity_rows_ranks inp ws Hc) as Ha. pose proof (affinity_rows_ranks inp' ws' Hc') as Ha'.
  apply (balance_sim inp ws ws _ _ Ha eq_refl) in E; [|done].
  apply (balance_sim inp' ws' ws _ _ Ha') in E'; [|rewrite <- Hca; unfold affinity_rows; by injection Hsh as -> _ _ _ _ _ ->|done]. rewrite <- Hsh in E'.
  assert (round_fuel inp' = round_fuel inp) as Efuel.
  { change (round_fuel inp') with (round_fuel (shared_input inp')). by rewrite <- Hsh. }
  rewrite Efuel in E'. assert (forget s = forget s') as Hfg by congruence. split; [done|].
  pose proof (build_layouts_sim inp ws ws s) as H1. pose proof (build_layouts_sim inp' ws' ws s') as H2.
  rewrite <- Hsh, <- Hfg in H2. cbv zeta in H1, H2.
  destruct (BuildLayouts (shared_input inp) ws (forget s)), (BuildLayouts inp ws s), (BuildLayouts inp' ws' s').
  destruct H1 as (E1 & A1 & A2 & A3), H2 as (E2 & B1 & B2 & B3). cbn [fst snd] in *.
  split; [congruence|]. unfold same_layout. split_and!; congruence.
Qed.

(** C25: [PLAN_OK] means balanced: every rank receives exactly [S * K] tokens, the reported
    deficit is 0, the largest number of remote experts is at most the prefetch slots and the
    end of the local layout lies in the window. *)
Theorem plan_ok_balanced inp ws o words : affinity_ok inp ws ->
  RunPlanAlgorithm inp ws = Some (PLAN_OK, o, words) ->
  exists s, Balance inp ws (round_fuel inp) = Some s /\
    (forall d, 0 <= d < in_rankSize inp ->
       zsum (dst_total (segLog s) d) (seqZ 0 (in_expertNum inp)) = in_s inp * in_topK inp) /\
    words !! 3%nat = Some 0 /\
    (exists maxRemote localEnd, words !! 4%nat = Some maxRemote /\ words !! 5%nat = Some localEnd /\
       0 <= maxRemote <= b_ inp /\ 0 <= localEnd <= nvS (in_config inp)).
Proof.
  intros Hc Hrun. destruct (run_ok inp ws o words Hc Hrun) as (Hval & s & l & E & Hs & Hb & _ & Hp & -> & _).
  pose proof (validate_ok _ _ Hval) as Hok. exists s. split; [done|]. split; [|split].
  - intros d Hd. rewrite <- (ok_cap _ _ Hok). rewrite <- (proj1 (balanced_loads inp s) Hb d Hd).
    rewrite (fin_load _ _ _ Hs d Hd). apply zsum_ext. intros e He%elem_of_seqZ0. by apply (fin_dst _ _ _ Hs).
  - unfold FillStatus. cbn [lookup list_lookup]. f_equal. by apply deficit_zero.
  - destruct Hp as (Hr & _ & Hcu). specialize (Hcu (proj2 (ok_rank _ _ Hok))).
    exists (maxRemote l), (localEnd l). split; [done|]. split; [done|].
    split; [apply Hr|apply Hcu].
Qed.

Lemma small_balance rank : rank = 0 \/ rank = 1 -> exists s,
  Balance (small_input rank) small_workspace (round_fuel (small_input rank)) = Some s /\ fatal s = PLAN_OK.
Proof. intros [-> | ->]; eexists; (split; [vm_compute; reflexivity|reflexivity]). Qed.

Lemma small_runs rank : rank = 0 \/ rank = 1 ->
  exists o words, RunPlanAlgorithm (small_input rank) small_workspace = Some (PLAN_OK, o, words).
Proof. intros [-> | ->]; do 2 eexists; vm_compute; reflexivity. Qed.

Lemma plan_ok_balanced_witness : exists o words s,
  RunPlanAlgorithm (small_input 0) small_workspace = Some (PLAN_OK, o, words) /\
  Balance (small_input 0) small_workspace (round_fuel (small_input 0)) = Some s /\
  words !! 3%nat = Some 0.
Proof.
  destruct (small_runs 0 ltac:(by left)) as (o & words & E).
  destruct (plan_ok_balanced (small_input 0) small_workspace o words (small_affinity 0) E) as (s & Hb & _ & Hw & _).
  exists o, words, s. split; [exact E|]. split; [exact Hb|exact Hw].
Defined.

(** C29: the status of a call whose balancing did not fail says why the loads differ before it
    says anything about the layout: [PLAN_OK] exactly when every rank is at capacity and the
    layouts fit, the layout error exactly when every rank is at capacity and they do not, and
    otherwise slot exhaustion, missing supply or no feasible pair, in this order. *)
Theorem plan_status_meaning inp ws s st o words : affinity_ok inp ws -> Validate inp ws = PLAN_OK ->
  Balance inp ws (round_fuel inp) = Some s -> fatal s = PLAN_OK ->
  RunPlanAlgorithm inp ws = Some (st, o, words) ->
  let full := forall d, 0 <= d < in_rankSize inp -> rankLoad s d = cap_ inp in
  (st = PLAN_OK <-> full /\ fst (BuildLayouts inp ws s) = PLAN_OK) /\
  (st = PLAN_ERROR_LAYOUT_EXCEEDS_NVS <-> full /\ fst (BuildLayouts inp ws s) <> PLAN_OK) /\
  (~ full -> st = if slotBlock s then PLAN_PARTIAL_PREFETCH_SLOT_EXHAUSTED
                  else if supplyBlock s then PLAN_PARTIAL_TOKEN_SUPPLY
                  else PLAN_PARTIAL_NO_FEASIBLE_PAIR).
Proof.
  intros Hc Hval E Hf Hrun full. destruct (run_result inp ws s Hc Hval E Hf) as [Hs Hrun'].
  pose proof (finish_settled inp ws Hval s Hs) as Hfin. rewrite Hrun' in Hrun. injection Hrun as Hrun. rewrite Hrun in Hfin.
  destruct (BuildLayouts inp ws s) as [ls l]. destruct Hfin as (Hl & -> & _). cbn [fst].
  pose proof (balanced_loads inp s) as Hbl. fold full in Hbl. unfold balance_status.
  destruct (balanced inp s).
  - assert full as HF by (by apply Hbl). clear Hbl. split_and!; [| |done]; destruct Hl as [-> | ->]; intuition congruence.
  - assert (~ full) as HF by (by rewrite <- Hbl). split_and!; [| |done]; split; try tauto; by repeat case_if.
Qed.

Lemma plan_status_meaning_witness : exists s,
  Balance (small_input 0) small_workspace (round_fuel (small_input 0)) = Some s /\
  fst (BuildLayouts (small_input 0) small_workspace s) = PLAN_OK.
Proof.
  destruct (small_runs 0 ltac:(by left)) as (o & words & E).
  destruct (small_balance 0 ltac:(by left)) as (s & Hb & Hf). exists s. split; [exact Hb|].
  destruct (plan_status_meaning (small_input 0) small_workspace s PLAN_OK o words (small_affinity 0)
    ltac:(vm_compute; reflexivity) Hb Hf E) as [[H _] _]. apply (H eq_refl).
Defined.

(** ** Layout *)

(** C28: on every rank the experts of a plan that reports [PLAN_OK] get disjoint ranges of the
    receive window, each starting at its base and as long as its allocation; the cumulative
    lengths published for this rank grow group by group in multiples of the padding, leave room
    for the tokens of the group, and start each group at the base of its expert. *)
Theorem plan_layout_windows inp ws o words : affinity_ok inp ws ->
  RunPlanAlgorithm inp ws = Some (PLAN_OK, o, words) ->
  exists s l, Balance inp ws (round_fuel inp) = Some s /\ BuildLayouts inp ws s = (PLAN_OK, l) /\
    cuSeqlens o = cuSeqlens (outs l) /\
    (forall d e, 0 <= d < in_rankSize inp -> 0 <= e < in_expertNum inp ->
       let base r x := expertPhysicalBase l (ReIndex r x (in_expertNum inp)) in
       let count r x := dst_total (segLog s) r x in
       0 <= base d e /\ base d e + count d e <= nvS (in_config inp) /\
       forall e', 0 <= e' < in_expertNum inp -> e' <> e ->
         base d e + count d e <= base d e' \/ base d e' + count d e' <= base d e) /\
    (forall g, 0 <= g < in_expertNum inp + b_ inp ->
       let start := if g =? 0 then 0 else cuSeqlens o (g - 1) in
       let '(e, count) := group_expert inp s (in_rank inp) (rows l (in_rank inp)) g in
       start + count <= cuSeqlens o g /\
       (cuSeqlens o g - start) mod tokenPadding (in_config inp) = 0 /\
       (0 <= e < in_expertNum inp ->
        expertPhysicalBase l (ReIndex (in_rank inp) e (in_expertNum inp)) = start)).
Proof.
  intros Hc Hrun.
  destruct (run_ok inp ws o words Hc Hrun) as (Hval & s & l & E & Hs & _ & El & (Hrows & Hw & Hcu) & _ & Ecu & _).
  pose proof (validate_ok _ _ Hval) as Hok. exists s, l. split_and!; try done.
  - intros d e Hd He. cbv zeta. destruct (Hw d Hd) as [H1 H2]. destruct (H1 e He).
    rewrite (fin_dst _ _ _ Hs) by done. split; [done|]. split; [done|].
    intros e' He' Hne. rewrite (fin_dst _ _ _ Hs) by done. apply H2; congruence.
  - intros g Hg. cbv zeta. rewrite Ecu. destruct (Hcu (proj2 (ok_rank _ _ Hok))) as (Hg' & _).
    destruct (Hg' g Hg) as (A1 & A2 & A3). fold (group_start (cuSeqlens (outs l)) g).
    destruct (group_cases inp s (in_rank inp) (rows l (in_rank inp)) g (ok_rank _ _ Hok)
      (proj1 Hrows _ (ok_rank _ _ Hok)) Hg) as [Eg|(e & [He Eg] & Hcase)];
      rewrite Eg in A1 |- *; cbn [snd] in A1; split_and!; try done.
    + lia.
    + intros _. apply A3. by split.
Qed.

Lemma plan_layout_windows_witness : exists o words s l,
  RunPlanAlgorithm (small_input 0) small_workspace = Some (PLAN_OK, o, words) /\
  Balance (small_input 0) small_workspace (round_fuel (small_input 0)) = Some s /\
  BuildLayouts (small_input 0) small_workspace s = (PLAN_OK, l).
Proof.
  destruct (small_runs 0 ltac:(by left)) as (o & words & E).
  destruct (plan_layout_windows (small_input 0) small_workspace o words (small_affinity 0) E)
    as (s & l & Hb & Hl & _).
  exists o, words, s, l. split; [exact E|]. split; [exact Hb|exact Hl].
Defined.

(** The slots of the local routes. *)
Lemma dst_slots_spec inp ws o words : affinity_ok inp ws ->
  RunPlanAlgorithm inp ws = Some (PLAN_OK, o, words) ->
  let slot t k := decode (out_dst o (t * in_topK inp + k)) in
  let rank t k := slot t k / nvS (in_config inp) in
  (forall t k, 0 <= t < in_s inp -> 0 <= k < in_topK inp ->
     0 <= slot t k <= INT32_MAX /\ 0 <= rank t k < in_rankSize inp /\
     (out_dst o (t * in_topK inp + k) < 0 <-> exists p, 0 <= p < k /\ rank t p = rank t k)) /\
  (forall t k t' k', 0 <= t < in_s inp -> 0 <= k < in_topK inp -> 0 <= t' < in_s inp ->
     0 <= k' < in_topK inp -> slot t k = slot t' k' -> t = t' /\ k = k').
Proof.
  intros Hc Hrun slot rank.
  destruct (run_ok inp ws o words Hc Hrun) as (Hval & s & l & E & Hs & _ & El & (Hrows & Hw & Hcu) & _ & _ & _ & _ & _ & Hd).
  pose proof (validate_ok _ _ Hval) as Hok. set (base := expertPhysicalBase l) in *.
  assert (forall t k, 0 <= t < in_s inp -> 0 <= k < in_topK inp ->
    0 <= t * in_topK inp + k < cap_ inp /\ slot t k = raw_of inp s base (t * in_topK inp + k)) as Hslot.
  { intros t k Ht Hk. assert (0 <= t * in_topK inp + k < cap_ inp) by (rewrite (ok_cap _ _ Hok); nia).
    split; [done|]. unfold slot. rewrite Hd by done. by apply (decode_encoded inp ws Hok s Hs base Hw). }
  split.
  - intros t k Ht Hk. destruct (Hslot t k Ht Hk) as [Hr Es].
    destruct (raw_range inp ws Hok s Hs base Hw _ Hr) as [R1 R2]. unfold rank. rewrite Es.
    split; [done|]. split; [done|]. rewrite Hd by done.
    rewrite (encoded_sign inp ws Hok s Hs base Hw t k) by done.
    split; intros (p & Hp & Ep); exists p; (split; [done|]);
      destruct (Hslot t p Ht ltac:(lia)) as [_ Esp]; congruence.
  - intros t k t' k' Ht Hk Ht' Hk' Heq. destruct (Hslot t k Ht Hk) as [Hr Es], (Hslot t' k' Ht' Hk') as [Hr' Es'].
    rewrite Es, Es' in Heq. apply (raw_inj inp ws Hok s Hs base Hw) in Heq; [|done|done].
    by apply mul_add_inj in Heq.
Qed.


(** C7: under [PLAN_OK] every route of this rank has its own slot: the code decodes to a slot of
    the window of an existing rank, two routes never share one, and the code is negative exactly
    when an earlier route of the same token goes to the same rank. *)
Theorem plan_dst_slots inp ws o words : affinity_ok inp ws ->
  RunPlanAlgorithm inp ws = Some (PLAN_OK, o, words) ->
  let slot t k := decode (out_dst o (t * in_topK inp + k)) in
  let rank t k := slot t k / nvS (in_config inp) in
  (forall t k, 0 <= t < in_s inp -> 0 <= k < in_topK inp ->
     0 <= slot t k <= INT32_MAX /\ 0 <= rank t k < in_rankSize inp /\
     (out_dst o (t * in_topK inp + k) < 0 <-> exists p, 0 <= p < k /\ rank t p = rank t k)) /\
  (forall t k t' k', 0 <= t < in_s inp -> 0 <= k < in_topK inp -> 0 <= t' < in_s inp ->
     0 <= k' < in_topK inp -> slot t k = slot t' k' -> t = t' /\ k = k').
Proof. apply dst_slots_spec. Qed.

Lemma plan_dst_slots_witness : exists o words,
  RunPlanAlgorithm (small_input 0) small_workspace = Some (PLAN_OK, o, words) /\
  decode (out_dst o 0) <> decode (out_dst o 1).
Proof.
  destruct (small_runs 0 ltac:(by left)) as (o & words & E). exists o, words. split; [exact E|].
  destruct (plan_dst_slots (small_input 0) small_workspace o words (small_affinity 0) E) as [_ H].
  intros Heq. destruct (H 0 0 0 1 ltac:(cbn; lia) ltac:(cbn; lia) ltac:(cbn; lia) ltac:(cbn; lia) Heq). discriminate.
Defined.

(** ** Migration metadata *)

(** The migration metadata of a plan that reports [PLAN_OK]: row [d] of [remoteExperts] lists
    the experts not homed at [d] that have tokens there, without repetition, most tokens first;
    bit [d] of the bitmap of a local expert is set exactly when rank [d] receives tokens of it
    and is not its home. *)
Theorem plan_migration_metadata inp ws o words : affinity_ok inp ws -> hasRemoteExperts ws = true ->
  RunPlanAlgorithm inp ws = Some (PLAN_OK, o, words) ->
  exists s, Balance inp ws (round_fuel inp) = Some s /\
    let needs d e := negb (HomeRank e (expertsPerRank inp) =? d) && (0 <? dst_total (segLog s) d e) in
    (forall d, 0 <= d < in_rankSize inp -> exists row,
       row ≡ₚ List.filter (needs d) (seqZ 0 (in_expertNum inp)) /\
       sorted_by (BetterRemote inp s d) row /\
       forall slot, 0 <= slot < b_ inp -> remoteExperts o (d * b_ inp + slot) = row_at row slot) /\
    (forall localExpert d, 0 <= localExpert < expertsPerRank inp -> 0 <= d < in_rankSize inp ->
       target_bit (targetWords inp) (expertTargets o) localExpert d =
       needs d (in_rank inp * expertsPerRank inp + localExpert)).
Proof.
  intros Hc Hmeta Hrun.
  destruct (run_ok inp ws o words Hc Hrun)
    as (Hval & s & l & E & Hs & _ & El & (Hrows & _ & _) & _ & _ & Er & Et & _).
  pose proof (validate_ok _ _ Hval) as Hok. pose proof (build_layouts_meta inp ws Hok s Hs Hmeta) as Hm.
  rewrite El in Hm. destruct (Hm eq_refl) as [M1 M2].
  assert (forall d e, 0 <= d < in_rankSize inp -> 0 <= e < in_expertNum inp ->
    negb (HomeRank e (expertsPerRank inp) =? d) && (0 <? dst_total (segLog s) d e) = is_remote inp s d e) as Hn.
  { intros d e Hd He. unfold is_remote. by rewrite (fin_dst _ _ _ Hs). }
  exists s. split; [done|]. cbv zeta. split.
  - intros d Hd. exists (rows l d). destruct (proj1 Hrows d Hd) as [Hp Hsort]. split; [|split; [done|]].
    + rewrite Hp. erewrite List.filter_ext_in; [done|].
      intros e He%list_elem_of_In%elem_of_seqZ0. cbv beta. symmetry. by apply Hn.
    + intros slot Hslot. rewrite Er. by apply M1.
  - intros le d Hle Hd. rewrite Et, M2 by done. rewrite (proj2 (Z.ltb_lt _ _)) by lia. cbn [andb].
    rewrite Hn; [done|done|]. by apply (local_expert_range inp ws Hok).
Qed.

Lemma plan_migration_metadata_witness : exists o words s,
  RunPlanAlgorithm (small_input 0) small_workspace = Some (PLAN_OK, o, words) /\
  Balance (small_input 0) small_workspace (round_fuel (small_input 0)) = Some s.
Proof.
  destruct (small_runs 0 ltac:(by left)) as (o & words & E).
  destruct (plan_migration_metadata (small_input 0) small_workspace o words (small_affinity 0) eq_refl E)
    as (s & Hb & _).
  exists o, words, s. split; [exact E|exact Hb].
Defined.

(** ** The ranks of a call *)

(** The ranks agree. Two ranks of one call, with the same sizes, configuration, gathered
    counts and rank ids, whose balancing did not run out of records, compute the same segment
    log, the same loads, the same layouts of all the ranks and the same status. *)
Theorem plan_ranks_agree inp inp' ws ws' s s' :
  affinity_ok inp ws -> affinity_ok inp' ws' -> Validate inp ws = PLAN_OK -> Validate inp' ws' = PLAN_OK ->
  shared_input inp = shared_input inp' -> affinityCache ws = affinityCache ws' ->
  Balance inp ws (round_fuel inp) = Some s -> fatal s = PLAN_OK ->
  Balance inp' ws' (round_fuel inp') = Some s' -> fatal s' = PLAN_OK ->
  segLog s = segLog s' /\ rankLoad s = rankLoad s' /\ alloc s = alloc s' /\
  (let l := snd (BuildLayouts inp ws s) in let l' := snd (BuildLayouts inp' ws' s') in
   rows l = rows l' /\ expertPhysicalBase l = expertPhysicalBase l') /\
  (fun r => fst (fst r)) <$> RunPlanAlgorithm inp ws = (fun r => fst (fst r)) <$> RunPlanAlgorithm inp' ws'.
Proof.
  intros Hc Hc' Hval Hval' Hsh Hca E Hf E' Hf'.
  destruct (run_agree inp inp' ws ws' s s' Hc Hc' Hval Hval' Hsh (same_rows _ _ _ _ Hsh Hca) E Hf E' Hf')
    as (Hfg & Hlay).
  destruct (run_result inp ws s Hc Hval E Hf) as [Hs ->].
  destruct (run_result inp' ws' s' Hc' Hval' E' Hf') as [Hs' ->].
  assert (segLog s = segLog s') by (by injection Hfg). assert (rankLoad s = rankLoad s') as El by (by injection Hfg).
  assert (alloc s = alloc s') by (by injection Hfg).
  pose proof (finish_settled inp ws Hval s Hs) as F. pose proof (finish_settled inp' ws' Hval' s' Hs') as F'.
  destruct (BuildLayouts inp ws s) as [ls l], (BuildLayouts inp' ws' s') as [ls' l'].
  destruct Hlay as (Est & L1 & L2 & _). split_and!; try done. cbn [fmap option_fmap option_map]. f_equal.
  destruct (finish inp ws s) as [[st o] w], (finish inp' ws' s') as [[st' o'] w']. cbn [fst snd] in *.
  destruct F as (_ & -> & _), F' as (_ & -> & _). subst ls'.
  assert (cap_ inp = cap_ inp' /\ in_rankSize inp = in_rankSize inp') as [Ecap ER].
  { assert (in_config inp = in_config inp') as Ec by (by injection Hsh). unfold cap_. rewrite Ec.
    split; [done|by injection Hsh]. }
  assert (slotBlock s = slotBlock s') as Eb1 by (by injection Hfg).
  assert (supplyBlock s = supplyBlock s') as Eb2 by (by injection Hfg).
  unfold balance_status, balanced. by rewrite Ecap, ER, El, Eb1, Eb2.
Qed.

Lemma plan_ranks_agree_witness : exists s s',
  Balance (small_input 0) small_workspace (round_fuel (small_input 0)) = Some s /\
  Balance (small_input 1) small_workspace (round_fuel (small_input 1)) = Some s' /\
  segLog s = segLog s'.
Proof.
  destruct (small_balance 0 ltac:(by left)) as (s & Hb & Hf).
  destruct (small_balance 1 ltac:(by right)) as (s' & Hb' & Hf').
  exists s, s'. split; [exact Hb|]. split; [exact Hb'|].
  apply (plan_ranks_agree (small_input 0) (small_input 1) small_workspace small_workspace s s'
    (small_affinity 0) (small_affinity 1) ltac:(vm_compute; reflexivity) ltac:(vm_compute; reflexivity)
    eq_refl eq_refl Hb Hf Hb' Hf').
Defined.

(** The slots of two ranks of one call. *)
Lemma ranks_apart inp inp' ws ws' o o' words words' :
  affinity_ok inp ws -> affinity_ok inp' ws' ->
  shared_input inp = shared_input inp' -> affinity_rows inp ws = affinity_rows inp' ws' ->
  in_rank inp <> in_rank inp' ->
  RunPlanAlgorithm inp ws = Some (PLAN_OK, o, words) ->
  RunPlanAlgorithm inp' ws' = Some (PLAN_OK, o', words') ->
  forall t k t' k', 0 <= t < in_s inp -> 0 <= k < in_topK inp -> 0 <= t' < in_s inp -> 0 <= k' < in_topK inp ->
  decode (out_dst o (t * in_topK inp + k)) <> decode (out_dst o' (t' * in_topK inp + k')).
Proof.
  intros Hc Hc' Hsh Hca Hne Hrun Hrun' t k t' k' Ht Hk Ht' Hk'.
  destruct (run_ok inp ws o words Hc Hrun)
    as (Hval & s & l & E & Hs & _ & El & (_ & Hw & _) & _ & _ & _ & _ & _ & Hd).
  destruct (run_ok inp' ws' o' words' Hc' Hrun')
    as (Hval' & s' & l' & E' & Hs' & _ & El' & (_ & Hw' & _) & _ & _ & _ & _ & _ & Hd').
  destruct (run_agree inp inp' ws ws' s s' Hc Hc' Hval Hval' Hsh Hca E (fin_fatal _ _ _ Hs) E' (fin_fatal _ _ _ Hs'))
    as (Hfg & Hlay). rewrite El, El' in Hlay. destruct Hlay as (_ & _ & Hbase & _).
  pose proof (validate_ok _ _ Hval) as Hok. pose proof (validate_ok _ _ Hval') as Hok'.
  assert (in_s inp' = in_s inp) as Es by (by injection Hsh).
  assert (in_topK inp' = in_topK inp) as EK by (by injection Hsh).
  assert (0 <= t * in_topK inp + k < cap_ inp) as Hr by (rewrite (ok_cap _ _ Hok); nia).
  assert (0 <= t' * in_topK inp' + k' < cap_ inp') as Hr' by (rewrite (ok_cap _ _ Hok'), Es, EK; nia).
  rewrite <- EK at 2. rewrite Hd by done. rewrite Hd' by (rewrite ?Es, ?EK; done).
  rewrite (decode_encoded inp ws Hok s Hs _ Hw), (decode_encoded inp' ws' Hok' s' Hs' _ Hw') by done.
  apply (raw_apart inp ws Hok s Hs _ Hw inp' ws' Hok' s' Hs'); try done; [by injection Hsh..|by injection Hfg].
Qed.

(** No slot is written twice: when two different ranks of one call both report [PLAN_OK], no
    route of the one decodes to the slot of a route of the other. *)
Theorem plan_slots_disjoint inp inp' ws ws' o o' words words' :
  affinity_ok inp ws -> affinity_ok inp' ws' ->
  shared_input inp = shared_input inp' -> affinityCache ws = affinityCache ws' ->
  in_rank inp <> in_rank inp' ->
  RunPlanAlgorithm inp ws = Some (PLAN_OK, o, words) ->
  RunPlanAlgorithm inp' ws' = Some (PLAN_OK, o', words') ->
  forall t k t' k', 0 <= t < in_s inp -> 0 <= k < in_topK inp -> 0 <= t' < in_s inp -> 0 <= k' < in_topK inp ->
  decode (out_dst o (t * in_topK inp + k)) <> decode (out_dst o' (t' * in_topK inp + k')).
Proof. intros Hc Hc' Hsh Hca Hne Hrun Hrun'. eapply ranks_apart; eauto using same_rows. Qed.

Lemma plan_slots_disjoint_witness : exists o o' words words',
  RunPlanAlgorithm (small_input 0) small_workspace = Some (PLAN_OK, o, words) /\
  RunPlanAlgorithm (small_input 1) small_workspace = Some (PLAN_OK, o', words') /\
  decode (out_dst o 0) <> decode (out_dst o' 3).
Proof.
  destruct (small_runs 0 ltac:(by left)) as (o & words & E). destruct (small_runs 1 ltac:(by right)) as (o' & words' & E').
  exists o, o', words, words'. split; [exact E|]. split; [exact E'|].
  apply (plan_slots_disjoint (small_input 0) (small_input 1) small_workspace small_workspace o o' words words'
    (small_affinity 0) (small_affinity 1) eq_refl eq_refl ltac:(cbn; lia) E E' 0 0 1 1); cbn; lia.
Defined.

(** ** The balancing steps *)

(** one expert move between two ranks keeps the balancing invariant (segments tile the
    tokens, loads are the sums of the allocations, slots and pair limits are respected), never
    moves more than requested, shifts exactly the returned number of tokens from the load of the
    home rank to the load of the destination, and can fail only by running out of records with
    a capacity below one record per local route. *)
Theorem plan_move_step inp ws affinityOrder s home dst requested :
  plan_ok inp ws ->
  (forall d r, 0 <= d < in_rankSize inp -> r ∈ affinityOrder d -> 0 <= r < in_rankSize inp) ->
  inv inp ws s -> 0 <= home < in_rankSize inp -> 0 <= dst < in_rankSize inp ->
  let '(s', moved) := ApplyExpertMove inp ws affinityOrder s home dst requested in
  (fatal s' = PLAN_OK /\ inv inp ws s' /\ 0 <= moved <= Z.max 0 requested /\
   forall r, rankLoad s' r = rankLoad s r - (if r =? home then moved else 0) + (if r =? dst then moved else 0)) \/
  (fatal s' = PLAN_ERROR_MOVE_RECORD_OVERFLOW /\ tokenSegmentCapacity ws < cap_ inp /\ moved = 0).
Proof.
  intros Hok Haff HI Hh Hd. pose proof (apply_move_spec inp ws affinityOrder Hok Haff s home dst requested HI Hh Hd) as H.
  destruct (ApplyExpertMove _ _ _ _ _ _ _) as [s' moved]. destruct H as [H|[[? ?] ?]]; [by left|by right].
Qed.

Lemma plan_move_step_witness :
  let rows := affinity_rows (small_input 0) small_workspace in
  let '(s', moved) := ApplyExpertMove (small_input 0) small_workspace rows (initial_state (small_input 0)) 0 1 5 in
  inv (small_input 0) small_workspace s' \/ tokenSegmentCapacity small_workspace < cap_ (small_input 0).
Proof.
  assert (plan_ok (small_input 0) small_workspace) as Hok by (apply validate_ok; vm_compute; reflexivity).
  cbv zeta. pose proof (plan_move_step (small_input 0) small_workspace
    (affinity_rows (small_input 0) small_workspace) (initial_state (small_input 0)) 0 1 5 Hok
    (affinity_rows_ranks _ _ (small_affinity 0)) (initial_inv _ _ Hok) ltac:(cbn; lia) ltac:(cbn; lia)) as H.
  destruct (ApplyExpertMove _ _ _ _ _ _ _) as [s' moved]. destruct H as [H|H]; [left|right]; apply H.
Defined.

(** every round of the two balancing loops makes progress: from a state that satisfies the
    invariant, a round that is followed by another one strictly lowers the total overload, the
    last one does not raise it, and the invariant is kept; so the loops end. *)
Theorem plan_round_progress inp ws affinityOrder s key : plan_ok inp ws ->
  (forall d r, 0 <= d < in_rankSize inp -> r ∈ affinityOrder d -> 0 <= r < in_rankSize inp) ->
  inv inp ws s -> cap_ inp <= tokenSegmentCapacity ws ->
  forall round, round = intra_round inp ws affinityOrder s key \/ round = inter_round inp ws affinityOrder s ->
  match round with
  | Continue s' => inv inp ws s' /\ overload inp s' < overload inp s
  | Break s' => inv inp ws s' /\ overload inp s' <= overload inp s
  end.
Proof.
  intros Hok Haff HI Hcap round Hr. assert (round_ok inp ws s round) as H.
  { destruct Hr as [-> | ->]; [by apply intra_round_ok|by apply inter_round_ok]. }
  destruct round; [done|]. destruct H as [H|[_ H]]; [done|lia].
Qed.

Lemma plan_round_progress_witness :
  match inter_round (small_input 0) small_workspace (affinity_rows (small_input 0) small_workspace)
    (initial_state (small_input 0)) with
  | Continue s' => overload (small_input 0) s' < overload (small_input 0) (initial_state (small_input 0))
  | Break s' => overload (small_input 0) s' <= overload (small_input 0) (initial_state (small_input 0))
  end.
Proof.
  assert (plan_ok (small_input 0) small_workspace) as Hok by (apply validate_ok; vm_compute; reflexivity).
  pose proof (plan_round_progress (small_input 0) small_workspace
    (affinity_rows (small_input 0) small_workspace) (initial_state (small_input 0)) 0 Hok
    (affinity_rows_ranks _ _ (small_affinity 0)) (initial_inv _ _ Hok) ltac:(vm_compute; discriminate)
    (inter_round (small_input 0) small_workspace (affinity_rows (small_input 0) small_workspace)
      (initial_state (small_input 0))) ltac:(by right)) as H.
  destruct (inter_round _ _ _ _); apply H.
Defined.

(** The 32-bit tables of the planner never overflow: in every state that the balancing
    reaches, loads, allocations, cursors and remaining counts lie between 0 and [R * S * K],
    which fits an [int32_t]. *)
Theorem plan_int32 inp ws s d e : plan_ok inp ws -> inv inp ws s ->
  0 <= d < in_rankSize inp -> 0 <= e < in_expertNum inp ->
  let total := in_rankSize inp * cap_ inp in
  let cell f := f (ReIndex d e (in_expertNum inp)) in
  total <= INT32_MAX /\ 0 <= rankLoad s d <= total /\ 0 <= cell (alloc s) <= total /\
  0 <= cell (remainingTpe s) <= total /\ 0 <= cell (srcExpertCursor s) <= total /\
  0 <= cell (dstExpertCursor s) <= total.
Proof.
  intros Hok HI Hd He total cell. pose proof (load_bounds inp ws Hok s HI) as (HL & HR & HA).
  pose proof (ok_nvS _ _ Hok). pose proof (ok_slots _ _ Hok). pose proof (ok_R _ _ Hok).
  destruct (HA d e Hd He) as (A1 & A2 & A3 & A4). specialize (HL d Hd).
  split; [unfold total; nia|]. unfold total, cell. split_and!; lia.
Qed.

Lemma plan_int32_witness :
  0 <= rankLoad (initial_state (small_input 0)) 1 <= 16.
Proof.
  assert (plan_ok (small_input 0) small_workspace) as Hok by (apply validate_ok; vm_compute; reflexivity).
  apply (plan_int32 (small_input 0) small_workspace (initial_state (small_input 0)) 1 0 Hok
    (initial_inv _ _ Hok)); cbn; lia.
Defined.
