(* ===== verification/PlanDownstream.v ===== *)
(** Helpers that Dispatch, Combine and the expert migration share with the planner, from
    src/src/moonep/planner_v2/common/ep_plan_downstream.cpp: global token ids, the decoding of
    planner destinations, route descriptors, expert target bitmaps and the duplicate metadata
    of the received routes. An output that a failed call leaves alone is [None]. *)
From S2P Require Import Prelude PlanTypes PlanSort PlanAlgorithm PlanOutput PlanMove PlanFinal PlanLayout PlanDst PlanTargets PlanProps.

Definition TILEXR_MOONEP_INVALID_GLOBAL_TOKEN_ID : Z := UINT64_MAX.

(** ** Global token ids *)

(** The status and the value written through [globalTokenId]. *)
Definition EncodeMoonEPGlobalTokenId (srcRank tokenId topKId rankSize s topK : Z)
    : TileXRMoonEPPlanStatus * option Z :=
  if (rankSize <=? 0) || (s <=? 0) || (topK <=? 0) || (srcRank <? 0) || (rankSize <=? srcRank) ||
     (tokenId <? 0) || (s <=? tokenId) || (topKId <? 0) || (topK <=? topKId)
  then (PLAN_ERROR_CONFIG_MISMATCH, None)
  else if (UINT64_MAX / s <? srcRank) || (UINT64_MAX - tokenId <? u64 (srcRank * s))
  then (PLAN_ERROR_CONFIG_MISMATCH, None)
  else
    let tokenBase := u64 (u64 (srcRank * s) + tokenId) in
    if (UINT64_MAX / topK <? tokenBase) || (UINT64_MAX - topKId <? u64 (tokenBase * topK))
    then (PLAN_ERROR_CONFIG_MISMATCH, None)
    else
      let globalTokenId := u64 (u64 (tokenBase * topK) + topKId) in
      if globalTokenId =? TILEXR_MOONEP_INVALID_GLOBAL_TOKEN_ID
      then (PLAN_ERROR_CONFIG_MISMATCH, Some globalTokenId)
      else (PLAN_OK, Some globalTokenId).

(** [(srcRank, tokenId, topKId)]. *)
Definition DecodeMoonEPGlobalTokenId (globalTokenId rankSize s topK : Z)
    : TileXRMoonEPPlanStatus * option (Z * Z * Z) :=
  if (rankSize <=? 0) || (s <=? 0) || (topK <=? 0) ||
     (globalTokenId =? TILEXR_MOONEP_INVALID_GLOBAL_TOKEN_ID)
  then (PLAN_ERROR_CONFIG_MISMATCH, None)
  else
    let tokenBase := globalTokenId / topK in
    let rank := tokenBase / s in
    let token := tokenBase mod s in
    let topKIndex := globalTokenId mod topK in
    if (rankSize <=? rank) || (INT32_MAX <? rank) || (INT32_MAX <? token) || (INT32_MAX <? topKIndex)
    then (PLAN_ERROR_CONFIG_MISMATCH, None)
    else (PLAN_OK, Some (rank, token, topKIndex)).

(** ** Destinations *)

Record MoonEPRouteTarget := {
  rt_rawDst : Z; rt_dstRank : Z; rt_recvSlot : Z; rt_sendHidden : Z; rt_writeRouteWeight : Z
}.

Definition DecodeMoonEPDst (encoded nvS rankSize : Z)
    : TileXRMoonEPPlanStatus * option MoonEPRouteTarget :=
  if (nvS <=? 0) || (INT32_MAX <? nvS) || (rankSize <=? 0) || (128 <? rankSize) ||
     (INT32_MAX + 1 <? rankSize * nvS)
  then (PLAN_ERROR_CONFIG_MISMATCH, None)
  else
    let rawDst := if 0 <=? encoded then encoded else Z.lnot encoded in
    let dstRank := rawDst / nvS in
    let recvSlot := rawDst mod nvS in
    if (dstRank <? 0) || (rankSize <=? dstRank) || (recvSlot <? 0) || (nvS <=? recvSlot)
    then (PLAN_ERROR_CONFIG_MISMATCH, None)
    else (PLAN_OK, Some {| rt_rawDst := rawDst; rt_dstRank := dstRank; rt_recvSlot := recvSlot;
                           rt_sendHidden := if 0 <=? encoded then 1 else 0;
                           rt_writeRouteWeight := 1 |}).

Record MoonEPRouteDescriptor := {
  rd_srcRank : Z; rd_tokenId : Z; rd_topKId : Z; rd_globalTokenId : Z; rd_rawDst : Z;
  rd_dstRank : Z; rd_recvSlot : Z; rd_sendHidden : Z; rd_writeRouteWeight : Z
}.

Definition BuildMoonEPRouteDescriptor (srcRank tokenId topKId encodedDst rankSize s topK nvS : Z)
    : TileXRMoonEPPlanStatus * option MoonEPRouteDescriptor :=
  match EncodeMoonEPGlobalTokenId srcRank tokenId topKId rankSize s topK with
  | (PLAN_OK, Some globalTokenId) =>
      match DecodeMoonEPDst encodedDst nvS rankSize with
      | (PLAN_OK, Some target) =>
          (PLAN_OK, Some {| rd_srcRank := srcRank; rd_tokenId := tokenId; rd_topKId := topKId;
             rd_globalTokenId := globalTokenId; rd_rawDst := rt_rawDst target;
             rd_dstRank := rt_dstRank target; rd_recvSlot := rt_recvSlot target;
             rd_sendHidden := rt_sendHidden target;
             rd_writeRouteWeight := rt_writeRouteWeight target |})
      | (status, _) => (status, None)
      end
  | (status, _) => (status, None)
  end.

(** ** Expert targets *)

Definition BuildMoonEPExpertTargets (remoteExperts : Z -> Z)
    (rankSize expertNum prefetchSlots ownerRank : Z) (expertTargets : Z -> Z)
    (expertTargetsCount : Z) : TileXRMoonEPPlanStatus * (Z -> Z) :=
  if (rankSize <=? 0) || (128 <? rankSize) || (expertNum <=? 0) ||
     negb (expertNum mod rankSize =? 0) || (prefetchSlots <? 0) || (ownerRank <? 0) ||
     (rankSize <=? ownerRank)
  then (PLAN_ERROR_CONFIG_MISMATCH, expertTargets)
  else
    let expertsPerRank := expertNum / rankSize in
    let words := (rankSize + 63) / 64 in
    if negb (expertTargetsCount =? expertsPerRank * words)
    then (PLAN_ERROR_CONFIG_MISMATCH, expertTargets)
    else
      let cleared := fun i => if (0 <=? i) && (i <? expertTargetsCount) then 0 else expertTargets i in
      match loop_ret (fun dst targets =>
          loop_ret (fun slot targets =>
              let expert := remoteExperts (dst * prefetchSlots + slot) in
              if expert <? 0 then inl targets
              else if expertNum <=? expert then inr targets
              else inl (if expert / expertsPerRank =? ownerRank
                        then mark_target words targets (expert - ownerRank * expertsPerRank) dst
                        else targets))
            (seqZ 0 prefetchSlots) targets)
        (seqZ 0 rankSize) cleared with
      | inl targets => (PLAN_OK, targets)
      | inr targets => (PLAN_ERROR_INTERNAL_INVARIANT, targets)
      end.

(** ** Theorems *)

(** The overflow test [r > M / s] of a product. *)
Lemma div_ltb M s r : 0 < s -> (M / s <? r) = (M <? r * s).
Proof.
  intros Hs. pose proof (Z.div_mod M s ltac:(lia)). pose proof (Z.mod_pos_bound M s Hs).
  apply eq_true_iff_eq. rewrite !Z.ltb_lt. nia.
Qed.

Lemma encode_value srcRank tokenId topKId rankSize s topK :
  0 < s -> 0 < topK -> 0 <= srcRank < rankSize -> 0 <= tokenId < s -> 0 <= topKId < topK ->
  EncodeMoonEPGlobalTokenId srcRank tokenId topKId rankSize s topK =
  (let g := (srcRank * s + tokenId) * topK + topKId in
   if g <? UINT64_MAX then (PLAN_OK, Some g)
   else if g =? UINT64_MAX then (PLAN_ERROR_CONFIG_MISMATCH, Some g)
   else (PLAN_ERROR_CONFIG_MISMATCH, None)).
Proof.
  intros Hs HK Hr Ht Hk. unfold EncodeMoonEPGlobalTokenId. case_if; [exfalso; b2p; lia|].
  unfold TILEXR_MOONEP_INVALID_GLOBAL_TOKEN_ID. cbv zeta.
  set (g := (srcRank * s + tokenId) * topK + topKId). rewrite !div_ltb by done.
  assert (0 <= srcRank * s) by nia. assert (srcRank * s + tokenId <= (srcRank * s + tokenId) * topK) by nia.
  destruct (Z.ltb_spec UINT64_MAX (srcRank * s)); cbn [orb].
  { rewrite (proj2 (Z.ltb_ge g _)), (proj2 (Z.eqb_neq g _)) by (unfold g; lia). done. }
  rewrite (u64_small (srcRank * s)) by (unfold UINT64_MAX in *; lia).
  destruct (Z.ltb_spec (UINT64_MAX - tokenId) (srcRank * s)).
  { rewrite (proj2 (Z.ltb_ge g _)), (proj2 (Z.eqb_neq g _)) by (unfold g; lia). done. }
  rewrite (u64_small (srcRank * s + tokenId)) by (unfold UINT64_MAX in *; lia).
  destruct (Z.ltb_spec UINT64_MAX ((srcRank * s + tokenId) * topK)); cbn [orb].
  { rewrite (proj2 (Z.ltb_ge g _)), (proj2 (Z.eqb_neq g _)) by (unfold g; lia). done. }
  rewrite (u64_small ((srcRank * s + tokenId) * topK)) by (unfold UINT64_MAX in *; lia).
  destruct (Z.ltb_spec (UINT64_MAX - topKId) ((srcRank * s + tokenId) * topK)).
  { rewrite (proj2 (Z.ltb_ge g _)), (proj2 (Z.eqb_neq g _)) by (unfold g; lia). done. }
  rewrite u64_small by (unfold UINT64_MAX in *; lia). fold g.
  destruct (Z.ltb_spec g UINT64_MAX); [by rewrite (proj2 (Z.eqb_neq g _)) by lia|].
  by rewrite (proj2 (Z.eqb_eq g _)) by (unfold g in *; lia).
Qed.

(** Global token ids round-trip: an id that [EncodeMoonEPGlobalTokenId] produced from
    [int32_t] coordinates with [PLAN_OK] fits a [uint64_t], is not the invalid id and decodes
    to the same coordinates; and every id that decodes is the encoding of its coordinates. *)
Theorem global_token_id_roundtrip rankSize s topK :
  (forall srcRank tokenId topKId g, is_i32 srcRank -> is_i32 tokenId -> is_i32 topKId ->
     EncodeMoonEPGlobalTokenId srcRank tokenId topKId rankSize s topK = (PLAN_OK, Some g) ->
     0 <= g < UINT64_MAX /\
     DecodeMoonEPGlobalTokenId g rankSize s topK = (PLAN_OK, Some (srcRank, tokenId, topKId))) /\
  (forall g srcRank tokenId topKId, is_u64 g ->
     DecodeMoonEPGlobalTokenId g rankSize s topK = (PLAN_OK, Some (srcRank, tokenId, topKId)) ->
     EncodeMoonEPGlobalTokenId srcRank tokenId topKId rankSize s topK = (PLAN_OK, Some g)).
Proof.
  split.
  - intros r t k g Hr Ht Hk E.
    assert (0 < rankSize /\ 0 < s /\ 0 < topK /\ 0 <= r < rankSize /\ 0 <= t < s /\ 0 <= k < topK) as (HR & Hs & HK & Hr' & Ht' & Hk').
    { unfold EncodeMoonEPGlobalTokenId in E. case_if_in E; [done|]. b2p. lia. }
    rewrite encode_value in E by done. cbv zeta in E. case_if_in E; [|case_if_in E; done]. injection E as <-. b2p.
    split; [nia|]. unfold DecodeMoonEPGlobalTokenId, TILEXR_MOONEP_INVALID_GLOBAL_TOKEN_ID.
    case_if; [exfalso; b2p; lia|]. cbv zeta.
    rewrite (div_mul_add _ k topK), (mod_mul_add _ k topK), (div_mul_add r t s), (mod_mul_add r t s) by done.
    unfold is_i32 in *. case_if; [exfalso; b2p; lia|done].
  - intros g r t k Hg E. unfold DecodeMoonEPGlobalTokenId in E. case_if_in E; [done|]. cbv zeta in E.
    case_if_in E; [done|]. injection E as <- <- <-. b2p. unfold is_u64, TILEXR_MOONEP_INVALID_GLOBAL_TOKEN_ID in *.
    pose proof (Z.mod_pos_bound (g / topK) s). pose proof (Z.mod_pos_bound g topK).
    assert (0 <= g / topK / s) by (apply Z.div_pos; [apply Z.div_pos|]; lia).
    rewrite encode_value by lia. cbv zeta.
    replace ((g / topK / s * s + (g / topK) mod s) * topK + g mod topK) with g.
    + by rewrite (proj2 (Z.ltb_lt _ _)) by lia.
    + rewrite (Z.mul_comm _ s), <- (Z.div_mod (g / topK) s), (Z.mul_comm _ topK), <- (Z.div_mod g topK) by lia. done.
Qed.

Lemma decode_dst_spec encoded nvS rankSize : 0 < nvS <= INT32_MAX -> 0 < rankSize <= 128 ->
  rankSize * nvS <= INT32_MAX + 1 -> 0 <= decode encoded < rankSize * nvS ->
  DecodeMoonEPDst encoded nvS rankSize =
  (PLAN_OK, Some {| rt_rawDst := decode encoded; rt_dstRank := decode encoded / nvS;
                    rt_recvSlot := decode encoded mod nvS;
                    rt_sendHidden := if 0 <=? encoded then 1 else 0; rt_writeRouteWeight := 1 |}).
Proof.
  intros Hn HR Hp Hd. unfold DecodeMoonEPDst. case_if; [exfalso; b2p; lia|]. fold (decode encoded). cbv zeta.
  pose proof (Z.mod_pos_bound (decode encoded) nvS).
  assert (0 <= decode encoded / nvS < rankSize) by (split; [apply Z.div_pos; lia|apply Z.div_lt_upper_bound; lia]).
  case_if; [exfalso; b2p; lia|done].
Qed.

(** C30: every destination of a plan that reports [PLAN_OK] is accepted by the consumers: the
    route descriptor of any route of the rank is built, with the global token id of the route,
    the rank and the receive slot of its window, and [sendHidden] set exactly for the first
    route of the token to that rank. *)
Theorem plan_routes_described inp ws o words : affinity_ok inp ws ->
  RunPlanAlgorithm inp ws = Some (PLAN_OK, o, words) ->
  forall t k, 0 <= t < in_s inp -> 0 <= k < in_topK inp ->
  let slot p := decode (out_dst o (t * in_topK inp + p)) in
  exists d, BuildMoonEPRouteDescriptor (in_rank inp) t k (out_dst o (t * in_topK inp + k))
      (in_rankSize inp) (in_s inp) (in_topK inp) (nvS (in_config inp)) = (PLAN_OK, Some d) /\
    rd_globalTokenId d = (in_rank inp * in_s inp + t) * in_topK inp + k /\
    rd_rawDst d = slot k /\ slot k = rd_dstRank d * nvS (in_config inp) + rd_recvSlot d /\
    0 <= rd_dstRank d < in_rankSize inp /\ 0 <= rd_recvSlot d < nvS (in_config inp) /\
    (rd_sendHidden d = 1 <-> forall p, 0 <= p < k -> slot p / nvS (in_config inp) <> rd_dstRank d) /\
    rd_writeRouteWeight d = 1.
Proof.
  intros Hc Hrun t k Ht Hk slot. destruct (dst_slots_spec inp ws o words Hc Hrun) as [Hslots _].
  destruct (run_ok inp ws o words Hc Hrun) as (Hval & _). pose proof (validate_ok _ _ Hval) as Hok.
  destruct (Hslots t k Ht Hk) as (H1 & H2 & H3). fold (slot k) in H1, H2, H3.
  pose proof (ok_R _ _ Hok) as HR. pose proof (ok_rank _ _ Hok) as Hrk. pose proof (ok_nvS _ _ Hok) as Hnv.
  pose proof (ok_slots _ _ Hok) as Hsl. pose proof (ok_cap _ _ Hok) as Hcap. set (v := nvS (in_config inp)) in *.
  assert (0 < v) as Hv by nia. pose proof (Z.div_mod (slot k) v ltac:(lia)) as Hdm.
  pose proof (Z.mod_pos_bound (slot k) v Hv) as Hmod.
  assert (0 <= (in_rank inp * in_s inp + t) * in_topK inp + k < UINT64_MAX) as Hg.
  { assert (in_rank inp * in_s inp + t < in_rankSize inp * in_s inp) by nia.
    assert ((in_rank inp * in_s inp + t) * in_topK inp + k < in_rankSize inp * (in_s inp * in_topK inp)) by nia.
    assert (in_rankSize inp * (in_s inp * in_topK inp) <= in_rankSize inp * v) by (apply Z.mul_le_mono_nonneg_l; lia).
    pose proof (Z.mul_nonneg_nonneg (in_rank inp) (in_s inp)).
    pose proof (Z.mul_nonneg_nonneg (in_rank inp * in_s inp + t) (in_topK inp)).
    unfold UINT64_MAX, INT32_MAX in *. lia. }
  unfold BuildMoonEPRouteDescriptor. rewrite encode_value by lia. cbv zeta.
  rewrite (proj2 (Z.ltb_lt _ _)) by lia. rewrite decode_dst_spec by (fold (slot k); lia || nia). fold (slot k).
  eexists. split; [reflexivity|].
  cbn [rd_globalTokenId rd_rawDst rd_dstRank rd_recvSlot rd_sendHidden rd_writeRouteWeight rt_rawDst rt_dstRank rt_recvSlot rt_sendHidden rt_writeRouteWeight].
  split; [reflexivity|]. split; [reflexivity|]. split; [lia|]. split; [exact H2|]. split; [exact Hmod|].
  split; [|reflexivity].
  destruct (Z.leb_spec 0 (out_dst o (t * in_topK inp + k))) as [Hpos|Hneg].
  - split; [|intros _; reflexivity]. intros _ p Hp Heq. assert (out_dst o (t * in_topK inp + k) < 0); [|lia].
    apply H3. exists p. split; [exact Hp|exact Heq].
  - split; [discriminate|]. intros Hall. apply H3 in Hneg as (p & Hp & Ep). destruct (Hall p Hp Ep).
Qed.

Lemma plan_routes_described_witness : exists o words d,
  RunPlanAlgorithm (small_input 0) small_workspace = Some (PLAN_OK, o, words) /\
  BuildMoonEPRouteDescriptor 0 1 1 (out_dst o 3) 2 4 2 16 = (PLAN_OK, Some d).
Proof.
  destruct (small_runs 0 ltac:(by left)) as (o & words & E).
  destruct (plan_routes_described (small_input 0) small_workspace o words (small_affinity 0) E 1 1
    ltac:(cbn; lia) ltac:(cbn; lia)) as (d & Hd & _).
  exists o, words, d. split; [exact E|exact Hd].
Defined.

Lemma global_token_id_roundtrip_witness :
  DecodeMoonEPGlobalTokenId 45 4 6 2 = (PLAN_OK, Some (3, 4, 1)) /\
  EncodeMoonEPGlobalTokenId 3 4 1 4 6 2 = (PLAN_OK, Some 45).
Proof.
  split; [|vm_compute; reflexivity].
  apply (proj1 (global_token_id_roundtrip 4 6 2) 3 4 1 45); vm_compute; intuition discriminate.
Defined.

(** *** Expert targets *)

Section expert_targets.
Context (table : Z -> Z) (R E B owner : Z).
Context (HR : 0 < R <= 128) (HE : 0 < E) (Hdiv : E mod R = 0) (HB : 0 <= B) (Howner : 0 <= owner < R).
Context (Hentries : forall d slot, 0 <= d < R -> 0 <= slot < B -> table (d * B + slot) < E).

#[local] Abbreviation P := (E / R).
#[local] Abbreviation W := ((R + 63) / 64).

Lemma experts_per_rank_pos : 0 < P.
Proof. div_lia. Qed.

(** Whether the first [n] slots of row [d] name a local expert of the owner. *)
Definition named (d n le : Z) : bool :=
  existsb (fun slot => table (d * B + slot) =? owner * P + le) (seqZ 0 n).

Lemma named_snoc d n le : 0 <= n ->
  named d (n + 1) le = named d n le || (table (d * B + n) =? owner * P + le).
Proof. intros Hn. unfold named. rewrite seqZ0_snoc, existsb_app by done. cbn. by rewrite orb_false_r. Qed.

Definition row_bits (d n : Z) (T0 T : Z -> Z) : Prop :=
  forall le d', 0 <= le < P -> 0 <= d' < R ->
  target_bit W T le d' = target_bit W T0 le d' || ((d' =? d) && named d n le).

#[local] Abbreviation mark_slot dst := (fun slot targets =>
  let expert := table (dst * B + slot) in
  if expert <? 0 then inl targets
  else if E <=? expert then inr targets
  else inl (if expert / P =? owner then mark_target W targets (expert - owner * P) dst else targets)).

Lemma mark_row d T0 : 0 <= d < R ->
  exists T, loop_ret (S := Z -> Z) (R := Z -> Z) (mark_slot d) (seqZ 0 B) T0 = inl T /\ row_bits d B T0 T.
Proof.
  intros Hd. pose proof experts_per_rank_pos as HP.
  pose proof (loop_ret_range (fun n => row_bits d n T0) (fun _ => False) (mark_slot d) B T0) as HL.
  destruct (loop_ret _ _ _) as [T|]; [|exfalso; apply HL; try done]; [exists T; split; [done|]; apply HL; try done|..].
  2,4: intros le d' _ _; cbn; by rewrite andb_false_r, orb_false_r.
  all: intros n T1 Hn Hrow; cbv zeta; set (x := table (d * B + n)).
  all: destruct (Z.ltb_spec x 0) as [Hneg|Hpos]; [|rewrite (proj2 (Z.leb_gt _ _)) by (by apply Hentries)].
  all: intros le d' Hle Hd'; rewrite named_snoc by lia; fold x.
  all: rewrite andb_orb_distrib_r, orb_assoc, <- (Hrow le d' Hle Hd').
  1,3: rewrite (proj2 (Z.eqb_neq x _)) by nia; by rewrite andb_false_r, orb_false_r.
  all: destruct (Z.eqb_spec (x / P) owner) as [Eo|Hno].
  1,3: rewrite mark_target_bit by done; f_equal; rewrite andb_comm; f_equal; lia.
  all: rewrite (proj2 (Z.eqb_neq x _)); [by rewrite andb_false_r, orb_false_r|].
  all: intros Ex; apply Hno; rewrite Ex; by apply div_mul_add.
Qed.

Lemma mark_rows T0 : exists T,
  loop_ret (fun dst targets => loop_ret (S := Z -> Z) (R := Z -> Z) (mark_slot dst) (seqZ 0 B) targets)
    (seqZ 0 R) T0 = inl T /\
  forall le d, 0 <= le < P -> 0 <= d < R -> target_bit W T le d = target_bit W T0 le d || named d B le.
Proof.
  pose proof (loop_ret_range (fun n T => forall le d, 0 <= le < P -> 0 <= d < R ->
      target_bit W T le d = target_bit W T0 le d || ((d <? n) && named d B le)) (fun _ => False)
    (fun dst targets => loop_ret (S := Z -> Z) (R := Z -> Z) (mark_slot dst) (seqZ 0 B) targets) R T0) as HL.
  match type of HL with ?P -> _ => assert P as HP end.
  { intros n T Hn HT. destruct (mark_row n T Hn) as (T1 & -> & H1). intros le d Hle Hd.
    rewrite H1, HT by done. destruct (Z.eqb_spec d n) as [->|Hne].
    - rewrite Z.ltb_irrefl, (proj2 (Z.ltb_lt n (n + 1))) by lia. cbn. by rewrite orb_false_r.
    - cbn [andb]. rewrite orb_false_r. do 2 f_equal. lia. }
  specialize (HL HP ltac:(lia)).
  match type of HL with ?P -> _ => assert P as H0' end.
  { intros le d _ Hd. rewrite (proj2 (Z.ltb_ge _ _)) by lia. cbn. by rewrite orb_false_r. }
  specialize (HL H0'). destruct (loop_ret _ _ _) as [T|]; [|done]. exists T. split; [done|].
  intros le d Hle Hd. by rewrite HL, (proj2 (Z.ltb_lt d R)) by (done || lia).
Qed.

Lemma build_targets_spec T0 : exists T,
  BuildMoonEPExpertTargets table R E B owner T0 (P * W) = (PLAN_OK, T) /\
  forall le d, 0 <= le < P -> 0 <= d < R -> target_bit W T le d = named d B le.
Proof.
  unfold BuildMoonEPExpertTargets. case_if; [exfalso; b2p; lia|]. cbv zeta. rewrite Z.eqb_refl. cbn [negb].
  match goal with |- context [loop_ret _ _ ?c] => set (cleared := c) end.
  pose proof (mark_rows cleared) as Hrows. cbv zeta in Hrows. destruct Hrows as (T & -> & HT). exists T. split; [done|].
  intros le d Hle Hd. rewrite HT by done. pose proof (target_word_range d R Hd).
  assert (target_bit W cleared le d = false) as ->; [|done].
  unfold target_bit, cleared. rewrite (proj2 (andb_true_iff _ _)); [apply Z.bits_0|].
  rewrite Z.leb_le, Z.ltb_lt. nia.
Qed.
End expert_targets.

(** The consumers rebuild the same bitmap: applied to the [remoteExperts] table that a plan
    with [PLAN_OK] published, [BuildMoonEPExpertTargets] succeeds for this rank and sets exactly
    the bits of the [expertTargets] that the planner wrote. *)
Theorem expert_targets_rebuilt inp ws o words T0 : affinity_ok inp ws -> hasRemoteExperts ws = true ->
  RunPlanAlgorithm inp ws = Some (PLAN_OK, o, words) ->
  exists T, BuildMoonEPExpertTargets (remoteExperts o) (in_rankSize inp) (in_expertNum inp) (b_ inp)
      (in_rank inp) T0 (expertsPerRank inp * targetWords inp) = (PLAN_OK, T) /\
    forall localExpert d, 0 <= localExpert < expertsPerRank inp -> 0 <= d < in_rankSize inp ->
      target_bit (targetWords inp) T localExpert d = target_bit (targetWords inp) (expertTargets o) localExpert d.
Proof.
  intros Hc Hmeta Hrun.
  destruct (run_ok inp ws o words Hc Hrun)
    as (Hval & s & l & E & Hs & _ & El & (Hrows & _ & _) & _ & _ & Er & Et & _).
  pose proof (validate_ok _ _ Hval) as Hok. pose proof (build_layouts_meta inp ws Hok s Hs Hmeta) as Hm.
  rewrite El in Hm. destruct (Hm eq_refl) as [M1 M2]. pose proof (ok_E _ _ Hok) as HE.
  pose proof (ok_R _ _ Hok) as HR. pose proof (ok_P _ _ Hok) as HP. pose proof (ok_b _ _ Hok) as HB.
  pose proof (ok_rank _ _ Hok) as Hrk.
  assert (forall d slot, 0 <= d < in_rankSize inp -> 0 <= slot < b_ inp ->
    remoteExperts o (d * b_ inp + slot) = row_at (rows l d) slot) as Htab by (intros; rewrite Er; by apply M1).
  destruct (build_targets_spec (remoteExperts o) (in_rankSize inp) (in_expertNum inp) (b_ inp) (in_rank inp)
    HR ltac:(nia) ltac:(rewrite HE, Z.mul_comm; by apply Z.mod_mul; lia) ltac:(lia) Hrk) with (T0 := T0) as (T & ET & HT).
  { intros d slot Hd Hslot. rewrite Htab by done. apply row_at_below; [nia|].
    intros x Hx. apply (row_of_elem inp s d _ x (proj1 Hrows d Hd)) in Hx. lia. }
  exists T. split; [exact ET|]. intros le d Hle Hd. unfold targetWords. rewrite HT by done.
  fold (targetWords inp). rewrite Et, M2, (proj2 (Z.ltb_lt _ _)) by (done || lia). cbn [andb].
  pose proof (local_expert_range inp ws Hok le Hle) as Hx.
  unfold named. erewrite existsb_ext_in; [rewrite (row_listed inp ws s Hs d (rows l d) _ Hd (proj1 Hrows d Hd) (proj1 Hx))|].
  - apply eq_true_iff_eq. rewrite bool_decide_eq_true, (row_of_elem inp s d _ _ (proj1 Hrows d Hd)). tauto.
  - intros slot Hslot%elem_of_seqZ0. cbv beta. by rewrite Htab.
Qed.

Lemma expert_targets_rebuilt_witness : exists o words T,
  RunPlanAlgorithm (small_input 0) small_workspace = Some (PLAN_OK, o, words) /\
  BuildMoonEPExpertTargets (remoteExperts o) 2 4 2 0 (fun _ => 7) 2 = (PLAN_OK, T) /\
  target_bit 1 T 0 1 = target_bit 1 (expertTargets o) 0 1.
Proof.
  destruct (small_runs 0 ltac:(by left)) as (o & words & E).
  destruct (expert_targets_rebuilt (small_input 0) small_workspace o words (fun _ => 7) (small_affinity 0) eq_refl E)
    as (T & HT & Hbits).
  exists o, words, T. split; [exact E|]. split; [exact HT|].
  apply (Hbits 0 1); vm_compute; intuition discriminate.
Defined.
