(* ===== verification/PlanDuplicates.v ===== *)
(** [BuildMoonEPDuplicateMetadata] of src/src/moonep/planner_v2/common/ep_plan_downstream.cpp: the
    routes a rank received, grouped by source token: for every token that arrived more than once
    the slot of its hidden state and the slots that need a copy of it. *)
From S2P Require Import Prelude PlanTypes.

Record MoonEPReceivedRoute := {
  rr_srcRank : Z; rr_tokenId : Z; rr_topKId : Z; rr_recvSlot : Z; rr_isPrimary : Z
}.

(** The outputs and counters: [dupCounts] is [(groupCount, duplicateCount)] on success. *)
Record DupState := { dupGroups : Z -> Z; dupLoffs : Z -> Z; groupCount : Z; duplicateCount : Z }.

Definition empty_dups : DupState :=
  {| dupGroups := fun _ => -1; dupLoffs := fun _ => -1; groupCount := 0; duplicateCount := 0 |}.

Definition RecordMatches (record : MoonEPReceivedRoute) (srcRank tokenId : Z) : bool :=
  (rr_srcRank record =? srcRank) && (rr_tokenId record =? tokenId).

Section duplicates.
Context (rankSize s topK nvS : Z).

Definition record_in_range (r : MoonEPReceivedRoute) : bool :=
  negb ((rr_srcRank r <? 0) || (rankSize <=? rr_srcRank r) || (rr_tokenId r <? 0) ||
        (s <=? rr_tokenId r) || (rr_topKId r <? 0) || (topK <=? rr_topKId r) ||
        (rr_recvSlot r <? 0) || (nvS <=? rr_recvSlot r) ||
        (negb (rr_isPrimary r =? 0) && negb (rr_isPrimary r =? 1))).

Definition same_route (a b : MoonEPReceivedRoute) : bool :=
  (rr_srcRank a =? rr_srcRank b) && (rr_tokenId a =? rr_tokenId b) && (rr_topKId a =? rr_topKId b).

(** The checking loop; [prior] are the records before the current one. *)
Fixpoint check_records (prior rest : list MoonEPReceivedRoute) : option TileXRMoonEPPlanStatus :=
  match rest with
  | [] => None
  | record :: rest' =>
      if negb (record_in_range record) then Some PLAN_ERROR_CONFIG_MISMATCH
      else if existsb (fun p => same_route p record) prior then Some PLAN_ERROR_INTERNAL_INVARIANT
      else check_records (prior ++ [record]) rest'
  end.

(** [(routeCount, primaryCount, primarySlot)] of a token. *)
Definition scan_token (records : list MoonEPReceivedRoute) (srcRank tokenId : Z) : Z * Z * Z :=
  foldl (fun acc r =>
      let '(routeCount, primaryCount, primarySlot) := acc in
      if negb (RecordMatches r srcRank tokenId) then acc
      else if negb (rr_isPrimary r =? 0) then (routeCount + 1, primaryCount + 1, rr_recvSlot r)
      else (routeCount + 1, primaryCount, primarySlot))
    (0, 0, -1) records.

(** The copies of a token, in the order of its routes: [(dupLoffs, duplicateCount)]. *)
Definition copy_token (records : list MoonEPReceivedRoute) (srcRank tokenId : Z)
    (loffs : Z -> Z) (count : Z) : (Z -> Z) * Z :=
  foldl (fun acc topKId =>
      foldl (fun acc r =>
          if RecordMatches r srcRank tokenId && (rr_topKId r =? topKId) && (rr_isPrimary r =? 0)
          then (upd1 (fst acc) (snd acc) (rr_recvSlot r), snd acc + 1) else acc)
        acc records)
    (loffs, count) (seqZ 0 topK).

Definition group_token (records : list MoonEPReceivedRoute) (srcRank tokenId : Z) (st : DupState)
    : DupState + TileXRMoonEPPlanStatus :=
  let '(routeCount, primaryCount, primarySlot) := scan_token records srcRank tokenId in
  if routeCount =? 0 then inl st
  else if negb (primaryCount =? 1) then inr PLAN_ERROR_INTERNAL_INVARIANT
  else if routeCount =? 1 then inl st
  else
    let localDuplicateCount := routeCount - 1 in
    if (nvS <=? groupCount st) || (nvS - localDuplicateCount <? duplicateCount st)
    then inr PLAN_ERROR_MOVE_RECORD_OVERFLOW
    else
      let groupBase := groupCount st * 3 in
      let groups := upd1 (upd1 (upd1 (dupGroups st) groupBase primarySlot)
                       (groupBase + 1) (duplicateCount st)) (groupBase + 2) localDuplicateCount in
      let '(loffs, count) := copy_token records srcRank tokenId (dupLoffs st) (duplicateCount st) in
      inl {| dupGroups := groups; dupLoffs := loffs; groupCount := groupCount st + 1;
             duplicateCount := count |}.

(** [inl] is [PLAN_OK] with the outputs; what an error leaves in them is not used. *)
Definition BuildMoonEPDuplicateMetadata (records : list MoonEPReceivedRoute)
    : DupState + TileXRMoonEPPlanStatus :=
  if (rankSize <=? 0) || (128 <? rankSize) || (s <=? 0) || (topK <=? 0) || (32 <? topK) ||
     (nvS <=? 0) || (INT32_MAX <? nvS) || (INT64_MAX / topK <? s) ||
     (INT64_MAX / (s * topK) <? rankSize) || (rankSize * s * topK <? Z.of_nat (length records))
  then inr PLAN_ERROR_CONFIG_MISMATCH
  else match check_records [] records with
  | Some status => inr status
  | None =>
      loop_ret (fun srcRank st => loop_ret (fun tokenId st => group_token records srcRank tokenId st)
                  (seqZ 0 s) st)
        (seqZ 0 rankSize) empty_dups
  end.

(** ** Reference *)

Definition routes_of (records : list MoonEPReceivedRoute) (t : Z * Z) : list MoonEPReceivedRoute :=
  List.filter (fun r => RecordMatches r t.1 t.2) records.

(** The slots that need a copy, in the order of the routes. *)
Definition copies_of (records : list MoonEPReceivedRoute) (t : Z * Z) : list Z :=
  flat_map (fun k => map rr_recvSlot (List.filter (fun r => (rr_topKId r =? k) && (rr_isPrimary r =? 0))
    (routes_of records t))) (seqZ 0 topK).

(** The tokens that arrived more than once, in the order of the loops. *)
Definition repeated_tokens (records : list MoonEPReceivedRoute) : list (Z * Z) :=
  List.filter (fun t => 2 <=? Z.of_nat (length (routes_of records t)))
    (list_prod (seqZ 0 rankSize) (seqZ 0 s)).

Definition primaries_of (records : list MoonEPReceivedRoute) (t : Z * Z) : list MoonEPReceivedRoute :=
  List.filter (fun r => negb (rr_isPrimary r =? 0)) (routes_of records t).
End duplicates.

(** ** Loops *)

Lemma loop_ret_prod {A B S R : Type} (f : A -> B -> S -> S + R) l1 l2 s :
  loop_ret (fun x s => loop_ret (f x) l2 s) l1 s = loop_ret (fun p s => f p.1 p.2 s) (list_prod l1 l2) s.
Proof.
  revert s. induction l1 as [|x l1 IH]; intros s; [done|]. cbn [loop_ret list_prod]. rewrite loop_ret_app.
  assert (forall s, loop_ret (fun p s => f p.1 p.2 s) (map (fun y => (x, y)) l2) s = loop_ret (f x) l2 s) as Hm.
  { clear IH. induction l2 as [|y l2 IH2]; intros s0; [done|]. cbn. destruct (f x y s0); [|done].
    apply IH2. }
  rewrite Hm. destruct (loop_ret (f x) l2 s); [apply IH|done].
Qed.

(** A loop with an invariant on the part of the list behind it. *)
Lemma loop_ret_prefix {A S R : Type} (I : list A -> S -> Prop) (Q : R -> Prop) (body : A -> S -> S + R) l s :
  (forall pre x post s, l = pre ++ x :: post -> I pre s ->
     match body x s with inl s' => I (pre ++ [x]) s' | inr r => Q r end) -> I [] s ->
  match loop_ret body l s with inl s' => I l s' | inr r => Q r end.
Proof.
  intros H. assert (forall post pre s, l = pre ++ post -> I pre s ->
    match loop_ret body post s with inl s' => I l s' | inr r => Q r end) as G.
  { induction post as [|x post IH]; intros pre s0 E HI; cbn [loop_ret].
    - by rewrite E, app_nil_r.
    - pose proof (H pre x post s0 E HI) as Hx. destruct (body x s0) as [s1|]; [|done].
      apply (IH (pre ++ [x])); [by rewrite <- app_assoc|done]. }
  intros H0. by apply (G l []).
Qed.

(** Consecutive writes. *)
Definition write_list (f : Z -> Z) (n : Z) (vs : list Z) : (Z -> Z) * Z :=
  foldl (fun acc v => (upd1 (fst acc) (snd acc) v, snd acc + 1)) (f, n) vs.

Lemma write_list_spec vs : forall f n,
  snd (write_list f n vs) = n + Z.of_nat (length vs) /\
  forall i, fst (write_list f n vs) i =
    if (n <=? i) && (i <? n + Z.of_nat (length vs)) then nth (Z.to_nat (i - n)) vs 0 else f i.
Proof.
  unfold write_list. induction vs as [|v vs IH]; intros f n; cbn [foldl fst snd length].
  - split; [lia|]. intros i. case_if; [b2p; lia|done].
  - destruct (IH (upd1 f n v) (n + 1)) as [-> H2]. split; [lia|]. intros i. rewrite H2.
    destruct (decide (i = n)) as [->|Hne].
    + rewrite (proj2 (Z.leb_gt (n + 1) n)) by lia. cbn [andb].
      rewrite (proj2 (Z.leb_le n n)), (proj2 (Z.ltb_lt n _)) by lia. cbn [andb].
      rewrite Z.sub_diag, upd1_eq. done.
    + rewrite upd1_ne by done.
      assert ((n <=? i) && (i <? n + Z.of_nat (S (length vs))) =
              (n + 1 <=? i) && (i <? n + 1 + Z.of_nat (length vs))) as ->
        by (apply eq_true_iff_eq; rewrite !andb_true_iff, !Z.leb_le, !Z.ltb_lt; lia).
      case_if; [|done]. b2p. replace (Z.to_nat (i - n)) with (S (Z.to_nat (i - (n + 1)))) by lia. done.
Qed.

Lemma foldl_filter {A B} (p : A -> bool) (f : B -> A -> B) l b :
  foldl (fun b x => if p x then f b x else b) b l = foldl f b (List.filter p l).
Proof. revert b. induction l as [|x l IH]; intros b; [done|]. cbn. destruct (p x); apply IH. Qed.

Lemma foldl_map {A B C} (g : A -> B) (f : C -> B -> C) l c :
  foldl f c (map g l) = foldl (fun c x => f c (g x)) c l.
Proof. revert c. induction l as [|x l IH]; intros c; [done|]. apply IH. Qed.

Lemma foldl_flat_map {A B C} (g : A -> list B) (f : C -> B -> C) l c :
  foldl f c (flat_map g l) = foldl (fun c x => foldl f c (g x)) c l.
Proof. revert c. induction l as [|x l IH]; intros c; [done|]. cbn. by rewrite foldl_app, IH. Qed.

Lemma filter_filter {A} (p q : A -> bool) l :
  List.filter p (List.filter q l) = List.filter (fun x => q x && p x) l.
Proof. induction l as [|x l IH]; [done|]. cbn. destruct (q x); cbn; [destruct (p x); by rewrite IH|done]. Qed.

(** Sorting into classes keeps the number of elements. *)
Lemma length_classes {A} (key : A -> Z) (l : list A) n : (forall x, x ∈ l -> 0 <= key x < n) ->
  length (flat_map (fun k => List.filter (fun x => key x =? k) l) (seqZ 0 n)) = length l.
Proof.
  intros H. apply Nat2Z.inj.
  assert (forall L, Z.of_nat (length (flat_map (fun k => List.filter (fun x => key x =? k) l) L)) =
    zsum (fun k => zsum (fun x => if key x =? k then 1 else 0) l) L) as ->.
  { induction L as [|k L IH]; [done|]. cbn [flat_map]. rewrite length_app, Nat2Z.inj_add, IH, zsum_cons. f_equal.
    clear. induction l as [|x l IHl]; [done|]. cbn [List.filter]. rewrite zsum_cons. destruct (key x =? k); cbn [length]; lia. }
  rewrite zsum_swap, (zsum_ext _ (fun _ => 1)), zsum_const; [lia|]. intros x Hx.
  rewrite (zsum_single _ _ (key x)), Z.eqb_refl; [done|apply NoDup_seqZ|by apply elem_of_seqZ0, H|].
  intros k _ Hk. by rewrite (proj2 (Z.eqb_neq _ _)) by congruence.
Qed.

Section spec.
Context (rankSize s topK nvS : Z) (records : list MoonEPReceivedRoute).
Context (Hrange : forall r, r ∈ records -> record_in_range rankSize s topK nvS r = true).

#[local] Abbreviation routes := (routes_of records).
#[local] Abbreviation copies := (copies_of topK records).

(** The accumulators of the scan, whatever the number of primaries. *)
Lemma scan_token_spec t : scan_token records t.1 t.2 =
  (Z.of_nat (length (routes t)), Z.of_nat (length (primaries_of records t)),
   match last (primaries_of records t) with Some p => rr_recvSlot p | None => -1 end).
Proof.
  clear Hrange. unfold scan_token, primaries_of, routes_of.
  induction records as [|r l IH] using rev_ind; [done|].
  rewrite foldl_app. cbn [foldl]. rewrite IH, !List.filter_app, !length_app. cbn [List.filter].
  destruct (RecordMatches r t.1 t.2); cbn [negb List.filter length].
  - destruct (rr_isPrimary r =? 0); cbn [negb List.filter length].
    + rewrite app_nil_r. f_equal; f_equal; lia.
    + rewrite last_snoc. f_equal; f_equal; lia.
  - rewrite app_nil_r. f_equal; f_equal; lia.
Qed.

Lemma copy_token_spec t loffs n : copy_token topK records t.1 t.2 loffs n = write_list loffs n (copies t).
Proof.
  unfold copy_token, copies_of, routes_of, write_list. rewrite foldl_flat_map.
  generalize (loffs, n) as acc. induction (seqZ 0 topK) as [|k l IH]; intros acc; [done|]. cbn [foldl].
  rewrite IH. f_equal. rewrite foldl_map, filter_filter, <- foldl_filter.
  rewrite (foldl_filter (fun r => RecordMatches r t.1 t.2 && (rr_topKId r =? k) && (rr_isPrimary r =? 0))).
  rewrite foldl_filter. f_equal. apply List.filter_ext. intros r. by rewrite andb_assoc.
Qed.

Lemma routes_elem t r : r ∈ routes t <-> r ∈ records /\ rr_srcRank r = t.1 /\ rr_tokenId r = t.2.
Proof.
  unfold routes_of. rewrite !list_elem_of_In, List.filter_In. unfold RecordMatches. rewrite andb_true_iff, !Z.eqb_eq. done.
Qed.

(** One route of a token is its primary, the others are copies. *)
Lemma copies_length t : Z.of_nat (length (copies t)) =
  Z.of_nat (length (routes t)) - Z.of_nat (length (primaries_of records t)).
Proof.
  unfold copies_of, primaries_of. set (l := routes t).
  assert (forall L, length (flat_map (fun k => map rr_recvSlot
      (List.filter (fun r => (rr_topKId r =? k) && (rr_isPrimary r =? 0)) l)) L) =
    length (flat_map (fun k => List.filter (fun r => rr_topKId r =? k)
      (List.filter (fun r => rr_isPrimary r =? 0) l)) L)) as ->.
  { induction L as [|k L IH]; [done|]. cbn [flat_map]. rewrite !length_app, IH, length_map, filter_filter. do 2 f_equal.
    apply List.filter_ext. intros r. apply andb_comm. }
  rewrite length_classes.
  - clear. induction l as [|r l IH]; [done|]. cbn [List.filter]. destruct (rr_isPrimary r =? 0); cbn [negb length]; lia.
  - intros r Hr%list_elem_of_In%List.filter_In. destruct Hr as [Hr _].
    apply list_elem_of_In, routes_elem in Hr as [Hr _]. apply Hrange in Hr. unfold record_in_range in Hr. b2p. lia.
Qed.

(** Distinct tokens share no record. *)
Lemma routes_total ts : NoDup ts -> zsum (fun t => Z.of_nat (length (routes t))) ts <= Z.of_nat (length records).
Proof.
  intros Hnd.
  rewrite (zsum_ext _ (fun t => zsum (fun r => if RecordMatches r t.1 t.2 then 1 else 0) records)).
  - rewrite zsum_swap, <- (Z.mul_1_l (Z.of_nat (length records))), <- zsum_const. apply zsum_le. intros r _.
    induction Hnd as [|t ts Ht Hnd IH]; [done|]. rewrite zsum_cons.
    destruct (RecordMatches r t.1 t.2) eqn:Em; [|lia]. rewrite (zsum_ext _ (fun _ => 0)), zsum_const; [lia|].
    intros t' Ht'. destruct (RecordMatches r t'.1 t'.2) eqn:Em'; [|done]. unfold RecordMatches in *. b2p.
    exfalso. apply Ht. destruct t as [a b], t' as [a' b']. cbn in *. by replace (a, b) with (a', b') by congruence.
  - intros t _. unfold routes_of. clear. induction records as [|r l IH]; [done|]. cbn [List.filter]. rewrite zsum_cons.
    destruct (RecordMatches r t.1 t.2); cbn [length]; lia.
Qed.

Context (Hprim : forall t, routes t <> [] -> length (primaries_of records t) = 1%nat).
Context (Hcount : Z.of_nat (length records) <= nvS).

#[local] Abbreviation multi := (fun t => 2 <=? Z.of_nat (length (routes_of records t))).

Definition primary_slot (t : Z * Z) : Z :=
  match primaries_of records t with r :: _ => rr_recvSlot r | [] => -1 end.

(** The outputs describe the repeated tokens [ts], in order. *)
Record describes (ts : list (Z * Z)) (st : DupState) : Prop := {
  ds_groups : groupCount st = Z.of_nat (length ts);
  ds_dups : duplicateCount st = Z.of_nat (length (flat_map copies ts));
  ds_loffs i : 0 <= i < duplicateCount st -> dupLoffs st i = nth (Z.to_nat i) (flat_map copies ts) 0;
  ds_group g t : ts !! g = Some t ->
    dupGroups st (Z.of_nat g * 3) = primary_slot t /\
    dupGroups st (Z.of_nat g * 3 + 1) = Z.of_nat (length (flat_map copies (take g ts))) /\
    dupGroups st (Z.of_nat g * 3 + 2) = Z.of_nat (length (copies t))
}.

Lemma multi_copies t : multi t = true -> Z.of_nat (length (copies t)) = Z.of_nat (length (routes t)) - 1.
Proof.
  intros Hm%Z.leb_le. rewrite copies_length, (Hprim t); [lia|]. intros Hn. rewrite Hn in Hm. cbn in Hm. lia.
Qed.

Lemma copies_total ts : (forall t, t ∈ ts -> multi t = true) ->
  Z.of_nat (length (flat_map copies ts)) + Z.of_nat (length ts) =
  zsum (fun t => Z.of_nat (length (routes t))) ts /\
  2 * Z.of_nat (length ts) <= zsum (fun t => Z.of_nat (length (routes t))) ts.
Proof.
  induction ts as [|t ts IH]; intros H; [done|]. cbn [flat_map length]. rewrite length_app, zsum_cons.
  destruct IH as [IH1 IH2]; [intros; apply H; by right|].
  pose proof (multi_copies t (H t ltac:(by left))). pose proof (proj1 (Z.leb_le _ _) (H t ltac:(by left))). lia.
Qed.

Lemma describes_snoc ts t st loffs n : describes ts st -> multi t = true ->
  write_list (dupLoffs st) (duplicateCount st) (copies t) = (loffs, n) ->
  describes (ts ++ [t])
    {| dupGroups := upd1 (upd1 (upd1 (dupGroups st) (groupCount st * 3) (primary_slot t))
         (groupCount st * 3 + 1) (duplicateCount st)) (groupCount st * 3 + 2)
         (Z.of_nat (length (routes t)) - 1);
       dupLoffs := loffs; groupCount := groupCount st + 1; duplicateCount := n |}.
Proof.
  intros [H1 H2 H3 H4] Hm Ew. destruct (write_list_spec (copies t) (dupLoffs st) (duplicateCount st)) as [W1 W2].
  rewrite Ew in W1, W2. cbn [fst snd] in W1, W2.
  assert (flat_map copies (ts ++ [t]) = flat_map copies ts ++ copies t) as Ef
    by (rewrite flat_map_app; cbn; by rewrite app_nil_r).
  constructor; cbn [groupCount duplicateCount dupLoffs dupGroups].
  - rewrite length_app. cbn [length]. lia.
  - rewrite Ef, length_app. lia.
  - intros i Hi. rewrite W2, Ef. case_if.
    + b2p. rewrite app_nth2 by lia. f_equal. lia.
    + rewrite app_nth1 by (apply not_true_iff_false in E; rewrite andb_true_iff, Z.leb_le, Z.ltb_lt in E; lia).
      apply H3. apply not_true_iff_false in E. rewrite andb_true_iff, Z.leb_le, Z.ltb_lt in E. lia.
  - intros g t' Hg. destruct (decide (g = length ts)) as [->|Hne].
    + rewrite list_lookup_middle in Hg by done. injection Hg as <-.
      rewrite take_app_length, <- H1, <- H2, multi_copies by done.
      split; [rewrite !upd1_ne by lia; apply upd1_eq|]. split; [|apply upd1_eq].
      rewrite upd1_ne by lia. apply upd1_eq.
    + assert (g < length ts)%nat. { apply lookup_lt_Some in Hg. rewrite length_app in Hg. cbn in Hg. lia. }
      rewrite lookup_app_l in Hg by done. rewrite take_app_le by lia.
      rewrite !upd1_ne by lia. by apply H4.
Qed.

Lemma group_token_step pre t post st : list_prod (seqZ 0 rankSize) (seqZ 0 s) = pre ++ t :: post ->
  describes (List.filter multi pre) st ->
  match group_token topK nvS records t.1 t.2 st with
  | inl st' => describes (List.filter multi (pre ++ [t])) st'
  | inr _ => False
  end.
Proof.
  intros Hl Hd. unfold group_token. rewrite scan_token_spec, List.filter_app. cbn [List.filter].
  destruct (Z.eqb_spec (Z.of_nat (length (routes t))) 0) as [Hz|Hnz].
  { rewrite (proj2 (Z.leb_gt 2 _)) by lia. by rewrite app_nil_r. }
  assert (length (primaries_of records t) = 1%nat) as Hp by (apply Hprim; intros Hn; rewrite Hn in Hnz; done).
  rewrite Hp, Z.eqb_refl. cbn [negb].
  destruct (Z.eqb_spec (Z.of_nat (length (routes t))) 1) as [Ho|Hno].
  { rewrite (proj2 (Z.leb_gt 2 _)) by lia. by rewrite app_nil_r. }
  assert (multi t = true) as Hm by (apply Z.leb_le; lia). cbv zeta. rewrite Hm.
  assert (NoDup (List.filter multi pre ++ [t])) as Hnd.
  { replace (List.filter multi pre ++ [t]) with (List.filter multi (pre ++ [t])) by (rewrite List.filter_app; cbn; by rewrite Hm).
    apply NoDup_ListNoDup, List.NoDup_filter, NoDup_ListNoDup.
    assert (NoDup (list_prod (seqZ 0 rankSize) (seqZ 0 s))) as Hall by (apply NoDup_list_prod; apply NoDup_seqZ).
    rewrite Hl in Hall. replace (pre ++ t :: post) with ((pre ++ [t]) ++ post) in Hall by (by rewrite <- app_assoc).
    by apply NoDup_app in Hall as [? _]. }
  pose proof (routes_total _ Hnd) as Htot.
  destruct (copies_total (List.filter multi pre ++ [t])) as [C1 C2].
  { intros x [Hx|Hx%list_elem_of_singleton]%elem_of_app; [|by subst].
    by apply list_elem_of_In, List.filter_In in Hx as [_ Hx]. }
  pose proof Hd as [D1 D2 _ _]. pose proof (multi_copies t Hm) as Hc.
  rewrite flat_map_app, !length_app in *. cbn [flat_map length] in *. rewrite app_nil_r in *.
  rewrite (proj2 (Z.leb_gt nvS _)), (proj2 (Z.ltb_ge _ (duplicateCount st))) by lia. cbn [orb].
  rewrite copy_token_spec. destruct (write_list _ _ _) as [loffs n] eqn:Ew.
  pose proof (describes_snoc _ t st loffs n Hd Hm Ew) as Hs.
  unfold primary_slot in Hs. destruct (primaries_of records t) as [|p [|]]; done.
Qed.
End spec.

Lemma check_records_none rankSize s topK nvS rest : forall prior,
  (forall r, r ∈ rest -> record_in_range rankSize s topK nvS r = true) ->
  NoDup (map (fun r => (rr_srcRank r, rr_tokenId r, rr_topKId r)) (prior ++ rest)) ->
  check_records rankSize s topK nvS prior rest = None.
Proof.
  induction rest as [|r rest IH]; intros prior Hr Hnd; [done|]. cbn [check_records].
  rewrite (Hr r ltac:(by left)). cbn [negb].
  replace (prior ++ r :: rest) with ((prior ++ [r]) ++ rest) in Hnd by (by rewrite <- app_assoc).
  destruct (existsb _ prior) eqn:Ex; [|apply IH; [intros; apply Hr; by right|done]]. exfalso.
  apply List.existsb_exists in Ex as (p & Hp & Es). unfold same_route in Es. b2p.
  rewrite <- app_assoc, map_app in Hnd. apply NoDup_app in Hnd as (_ & Hnd & _).
  apply (Hnd (rr_srcRank r, rr_tokenId r, rr_topKId r)).
  - apply list_elem_of_In, List.in_map_iff. exists p. split; [congruence|done].
  - by left.
Qed.

Lemma slots_fit rankSize s topK nvS records :
  (forall r, r ∈ records -> record_in_range rankSize s topK nvS r = true) ->
  NoDup (map rr_recvSlot records) -> 0 <= nvS -> Z.of_nat (length records) <= nvS.
Proof.
  intros Hr Hnd Hn. rewrite <- (length_map rr_recvSlot), <- (length_seqZ0 nvS Hn). apply inj_le.
  apply List.NoDup_incl_length; [by apply NoDup_ListNoDup|].
  intros x Hx. apply List.in_map_iff in Hx as (r & <- & Hin). apply list_elem_of_In in Hin. apply Hr in Hin.
  apply list_elem_of_In, elem_of_seqZ0. unfold record_in_range in Hin. b2p. lia.
Qed.

(** C31: the duplicate metadata of a consistent set of received routes: records in range with
    distinct routes and distinct slots, and exactly one primary per received token. The call
    succeeds; there is one group per token that arrived more than once, in the order of source
    rank and token, holding the slot of the primary, the offset of its copies and their number;
    and the copies are the slots of the other routes of the token, in the order of the routes. *)
Theorem duplicate_metadata_groups rankSize s topK nvS records :
  0 < rankSize <= 128 -> 0 < s <= INT32_MAX -> 0 < topK <= 32 -> 0 < nvS -> 3 * nvS <= INT32_MAX ->
  Z.of_nat (length records) <= rankSize * s * topK ->
  (forall r, r ∈ records -> record_in_range rankSize s topK nvS r = true) ->
  NoDup (map (fun r => (rr_srcRank r, rr_tokenId r, rr_topKId r)) records) ->
  NoDup (map rr_recvSlot records) ->
  (forall t, routes_of records t <> [] -> length (primaries_of records t) = 1%nat) ->
  exists st, BuildMoonEPDuplicateMetadata rankSize s topK nvS records = inl st /\
    let tokens := repeated_tokens rankSize s records in
    let copies := copies_of topK records in
    groupCount st = Z.of_nat (length tokens) /\
    duplicateCount st = Z.of_nat (length (flat_map copies tokens)) /\
    duplicateCount st + groupCount st <= nvS /\
    (forall i, 0 <= i < duplicateCount st -> dupLoffs st i = nth (Z.to_nat i) (flat_map copies tokens) 0) /\
    (forall g t, tokens !! g = Some t ->
       exists p, primaries_of records t = [p] /\
       dupGroups st (Z.of_nat g * 3) = rr_recvSlot p /\
       dupGroups st (Z.of_nat g * 3 + 1) = Z.of_nat (length (flat_map copies (take g tokens))) /\
       dupGroups st (Z.of_nat g * 3 + 2) = Z.of_nat (length (routes_of records t)) - 1).
Proof.
  intros HR Hs HK Hn Hn3 Hcnt Hrange Hkeys Hslots Hprim.
  pose proof (slots_fit _ _ _ _ _ Hrange Hslots ltac:(lia)) as Hfit.
  unfold BuildMoonEPDuplicateMetadata.
  assert (0 < s * topK <= INT32_MAX * 32) as HsK by nia.
  assert (rankSize * (s * topK) <= 128 * (INT32_MAX * 32)) as HRsK by nia.
  destruct (Z.ltb_spec (INT64_MAX / topK) s) as [Hov|_].
  { exfalso. assert (s <= INT64_MAX / topK); [|lia]. apply Z.div_le_lower_bound; unfold INT32_MAX, INT64_MAX in *; lia. }
  destruct (Z.ltb_spec (INT64_MAX / (s * topK)) rankSize) as [Hov|_].
  { exfalso. assert (rankSize <= INT64_MAX / (s * topK)); [|lia].
    apply Z.div_le_lower_bound; unfold INT32_MAX, INT64_MAX in *; lia. }
  case_if; [exfalso; b2p; unfold INT32_MAX in *; lia|].
  rewrite (check_records_none _ _ _ _ records []) by done.
  rewrite (loop_ret_prod (fun a b st => group_token topK nvS records a b st)).
  pose proof (loop_ret_prefix (fun pre => describes topK records
      (List.filter (fun t => 2 <=? Z.of_nat (length (routes_of records t))) pre)) (fun _ => False)
    (fun p st => group_token topK nvS records p.1 p.2 st) (list_prod (seqZ 0 rankSize) (seqZ 0 s)) empty_dups) as HL.
  match type of HL with ?P -> _ => assert P as HP end.
  { intros pre x post st Hl Hd. by apply (group_token_step rankSize s topK nvS records Hrange Hprim Hfit pre x post). }
  specialize (HL HP). match type of HL with ?P -> _ => assert P as Hinit by (by constructor; cbn; try lia) end.
  specialize (HL Hinit). destruct (loop_ret _ _ _) as [st|]; [|done].
  fold (repeated_tokens rankSize s records) in HL. exists st. split; [done|]. cbv zeta.
  assert (forall t, t ∈ repeated_tokens rankSize s records -> (2 <=? Z.of_nat (length (routes_of records t))) = true) as Hmul.
  { intros t Ht. unfold repeated_tokens in Ht. by apply list_elem_of_In, List.filter_In in Ht as [_ ?]. }
  destruct HL as [D1 D2 D3 D4]. split_and!; try done.
  - destruct (copies_total rankSize s topK nvS records Hrange Hprim _ Hmul) as [C1 _].
    pose proof (routes_total records (repeated_tokens rankSize s records)) as Ht.
    match type of Ht with ?P -> _ => assert P as Hnd end.
    { apply NoDup_ListNoDup, List.NoDup_filter, NoDup_ListNoDup. apply NoDup_list_prod; apply NoDup_seqZ. }
    specialize (Ht Hnd). lia.
  - intros g t Hg. destruct (D4 g t Hg) as (G1 & G2 & G3).
    assert (t ∈ repeated_tokens rankSize s records) as Ht by (by apply list_elem_of_lookup_2 in Hg).
    rewrite (multi_copies rankSize s topK nvS records Hrange Hprim t) in G3 by (by apply Hmul).
    assert (length (primaries_of records t) = 1%nat) as Hp.
    { apply Hprim. intros Hnil. specialize (Hmul t Ht). rewrite Hnil in Hmul. done. }
    unfold primary_slot in G1. destruct (primaries_of records t) as [|p [|]]; try done. exists p. done.
Qed.

Lemma duplicate_metadata_groups_witness :
  let route src tok k slot primary :=
    {| rr_srcRank := src; rr_tokenId := tok; rr_topKId := k; rr_recvSlot := slot; rr_isPrimary := primary |} in
  let records := [route 0 1 0 4 1; route 1 2 1 3 1; route 0 1 2 0 0; route 0 1 1 5 0] in
  exists st, BuildMoonEPDuplicateMetadata 2 4 3 8 records = inl st /\
    groupCount st = 1 /\ duplicateCount st = 2 /\ dupLoffs st 0 = 5 /\ dupLoffs st 1 = 0.
Proof.
  cbv zeta. set (records := [_; _; _; _]).
  destruct (duplicate_metadata_groups 2 4 3 8 records) as (st & E & H1 & H2 & _ & H3 & _).
  1-5: vm_compute; intuition discriminate.
  - vm_compute; discriminate.
  - intros r Hr%list_elem_of_In. cbn in Hr. destruct Hr as [<-|[<-|[<-|[<-|[]]]]]; reflexivity.
  - apply (bool_decide_unpack _). vm_compute. exact I.
  - apply (bool_decide_unpack _). vm_compute. exact I.
  - intros [a b]. unfold primaries_of, routes_of, records, RecordMatches. cbn.
    repeat match goal with |- context [if ?b then _ else _] => destruct b eqn:?; cbn end; try done; try congruence; b2p; by destruct a.
  - exists st. split; [exact E|]. rewrite H1, H2. split; [reflexivity|]. split; [reflexivity|].
    rewrite !H3 by (rewrite H2; vm_compute; intuition discriminate). split; reflexivity.
Defined.
