(* ===== verification/DispatchSchedule.v ===== *)
(** The exchange schedules of the MoonEP dispatch, from
    src/src/moonep/dispatch/urma/common/dispatch_common.h and dispatch_schedule.h: the legacy
    phases over rank groups, the grouped schedule that walks outwards on both sides of the ring
    (with its variant for 128 ranks in two halves), the assignment of peers to cores, and the
    split of a range of items into parts. *)
From S2P Require Import Prelude.

(** ** dispatch_common.h *)

Inductive DispatchPayloadMode : Set := Hidden | RouteWeight.
Inductive DispatchPeerMode : Set := Legacy | Group | GroupCredit.

(** The values of the two enumerations. *)
Definition payload_mode_value (m : DispatchPayloadMode) : Z :=
  match m with Hidden => 0 | RouteWeight => 1 end.
Definition peer_mode_value (m : DispatchPeerMode) : Z :=
  match m with Legacy => 0 | Group => 1 | GroupCredit => 2 end.

Definition kDispatchAivCoreCount : Z := 64.
Definition kDispatchRankGroupSize : Z := 64.
Definition kDispatchValidationGroupWidth : Z := 8.
Definition kDispatchDefaultGroupWidth : Z := 16.

(** [(targetRank, targetSlot)], or [None] for [false]. *)
Definition DispatchDecodeDestination (encoded capacity world : Z) : option (Z * Z) :=
  if (capacity <=? 0) || (world <=? 0) then None
  else if encoded <? 0 then None
  else if world <=? encoded / capacity then None
  else Some (encoded / capacity, encoded mod capacity).

Definition DispatchPayloadModeValid (mode : Z) : bool :=
  (mode =? payload_mode_value Hidden) || (mode =? payload_mode_value RouteWeight).

Definition DispatchPeerModeValid (mode : Z) : bool :=
  (mode =? peer_mode_value Legacy) || (mode =? peer_mode_value Group) ||
  (mode =? peer_mode_value GroupCredit).

Definition DispatchPeerModeUsesGroups (mode : Z) : bool :=
  (mode =? peer_mode_value Group) || (mode =? peer_mode_value GroupCredit).

Definition DispatchPeerModeUsesCredit (mode : Z) : bool := mode =? peer_mode_value GroupCredit.

Definition DispatchGroupWidthValid (groupWidth : Z) : bool :=
  (groupWidth =? kDispatchValidationGroupWidth) || (groupWidth =? kDispatchDefaultGroupWidth).

(** ** dispatch_schedule.h *)

Definition kDispatchSplitRankSize : Z := 128.
Definition kDispatchSplitHalfRankSize : Z := 64.

(** [(start, end)]. *)
Definition DispatchContiguousRange (itemCount partCount part : Z) : Z * Z :=
  if (partCount =? 0) || (partCount <=? part) then (0, 0)
  else
    let itemsPerPart := itemCount / partCount in
    let extraItems := itemCount mod partCount in
    let prefixExtra := if part <? extraItems then part else extraItems in
    let start := (part * itemsPerPart + prefixExtra)%u64 in
    (start, (start + itemsPerPart + (if (part <? extraItems)%Z then 1 else 0))%u64).

Definition DispatchGroupCount (rankSize : Z) : Z :=
  if rankSize <=? 0 then 0
  else rankSize / kDispatchRankGroupSize + (if rankSize mod kDispatchRankGroupSize =? 0 then 0 else 1).

Definition DispatchTargetGroup (rank rankSize phase : Z) : Z :=
  let groupCount := DispatchGroupCount rankSize in
  if (rank <? 0) || (rankSize <=? rank) || (phase <? 0) || (groupCount <=? phase) then -1
  else (rank / kDispatchRankGroupSize + phase) mod groupCount.

Definition DispatchPeerForCore (rank rankSize phase core coreCount workIndex : Z) : Z :=
  if (coreCount =? 0) || (kDispatchAivCoreCount <? coreCount) || (coreCount <=? core) then -1
  else
    let peerOffset := (core + workIndex * coreCount)%u64 in
    if kDispatchRankGroupSize <=? peerOffset then -1
    else
      let targetGroup := DispatchTargetGroup rank rankSize phase in
      if targetGroup <? 0 then -1
      else
        let peer := targetGroup * kDispatchRankGroupSize + peerOffset in
        if peer <? rankSize then peer else -1.

Definition DispatchGroupedGroupCount (rankSize groupWidth : Z) : Z :=
  if (rankSize <=? 1) || negb (DispatchGroupWidthValid groupWidth) then 0
  else
    let remotePeerCount := u64 (rankSize - 1) in
    u32 (remotePeerCount / groupWidth + (if remotePeerCount mod groupWidth =? 0 then 0 else 1)).

Definition DispatchSplit128RingPeer (halfBase center offset : Z) : Z :=
  halfBase + (center + offset + kDispatchSplitHalfRankSize) mod kDispatchSplitHalfRankSize.

Definition DispatchGroupedPeerSplit128 (rank group lane : Z) : Z :=
  let splitGroupWidth := 16 in
  let halfGroupWidth := splitGroupWidth / 2 in
  let splitGroupCount := 8 in
  if (rank <? 0) || (kDispatchSplitRankSize <=? rank) || (splitGroupCount <=? group) ||
     (splitGroupWidth <=? lane) then -1
  else
    let localHalfBase := if rank <? kDispatchSplitHalfRankSize then 0 else kDispatchSplitHalfRankSize in
    let remoteHalfBase := kDispatchSplitHalfRankSize - localHalfBase in
    let center := rank - localHalfBase in
    if lane <? halfGroupWidth then
      let ordinal := (group * halfGroupWidth + lane)%u32 in
      if kDispatchSplitHalfRankSize - 1 <=? ordinal then -1
      else
        let distance := (ordinal / 2 + 1)%u32 in
        let offset := if ordinal mod 2 =? 0 then distance else - distance in
        DispatchSplit128RingPeer localHalfBase center offset
    else
      let remoteLane := (lane - halfGroupWidth)%u32 in
      let offset :=
        if group =? 0 then
          if remoteLane =? 1 then kDispatchSplitHalfRankSize / 2
          else if 2 <=? remoteLane then
            let ordinal := (remoteLane - 2)%u32 in
            let distance := (ordinal / 2 + 1)%u32 in
            if ordinal mod 2 =? 0 then distance else - distance
          else 0
        else
          let distance := (group * (halfGroupWidth / 2) + remoteLane / 2)%u32 in
          if remoteLane mod 2 =? 0 then distance else - distance in
      DispatchSplit128RingPeer remoteHalfBase center offset.

Definition DispatchGroupedPeer (rank rankSize group lane groupWidth : Z) : Z :=
  let groupCount := DispatchGroupedGroupCount rankSize groupWidth in
  if (rank <? 0) || (rankSize <=? rank) || (groupCount <=? group) || (groupWidth <=? lane) then -1
  else if (rankSize =? kDispatchSplitRankSize) && (groupWidth =? 16)
  then DispatchGroupedPeerSplit128 rank group lane
  else
    let halfWidth := groupWidth / 2 in
    let index := if lane <? halfWidth then lane else (lane - halfWidth)%u32 in
    let distance := (group * halfWidth + index + 1)%u64 in
    let diameter := rankSize / 2 in
    if (diameter <? distance) ||
       ((halfWidth <=? lane) && (distance =? diameter) && (rankSize mod 2 =? 0)) then -1
    else if lane <? halfWidth then (rank + distance) mod rankSize
    else (rank - distance + rankSize) mod rankSize.

Definition DispatchGroupedAssignmentCount (rankSize groupWidth : Z) : Z :=
  (DispatchGroupedGroupCount rankSize groupWidth * groupWidth)%u64.

Definition DispatchSameServer (rank peer localRankSize : Z) : bool :=
  (0 <=? rank) && (0 <=? peer) && (0 <? localRankSize) &&
  (rank / localRankSize =? peer / localRankSize).

Definition DispatchFullmeshSlot (peer localRankSize : Z) : Z :=
  if (peer <? 0) || (localRankSize <=? 0) then UINT32_MAX else u32 (peer mod localRankSize).

Definition DispatchCompletionLaneCount (rank peer localRankSize : Z) : Z :=
  if DispatchSameServer rank peer localRankSize then 1 else 2.

Definition DispatchGroupedPeerWorkCount (rankSize groupWidth coreCount : Z) : Z :=
  if (coreCount =? 0) || (kDispatchAivCoreCount <? coreCount) then 0
  else
    let assignments := DispatchGroupedAssignmentCount rankSize groupWidth in
    if assignments =? 0 then 0
    else u32 (assignments / coreCount + (if assignments mod coreCount =? 0 then 0 else 1)).

(** [(peer, group, lane)]. *)
Definition DispatchGroupedPeerForCore (rank rankSize groupWidth core coreCount workIndex : Z)
    : Z * Z * Z :=
  if (coreCount =? 0) || (kDispatchAivCoreCount <? coreCount) || (coreCount <=? core)
  then (-1, UINT32_MAX, UINT32_MAX)
  else
    let assignment := (core + workIndex * coreCount)%u64 in
    if DispatchGroupedAssignmentCount rankSize groupWidth <=? assignment
    then (-1, UINT32_MAX, UINT32_MAX)
    else
      let group := u32 (assignment / groupWidth) in
      let lane := u32 (assignment mod groupWidth) in
      (DispatchGroupedPeer rank rankSize group lane groupWidth, group, lane).

Definition DispatchGroupedNextCreditPeer (rank rankSize completedGroup lane groupWidth : Z) : Z :=
  if completedGroup =? UINT32_MAX then -1
  else DispatchGroupedPeer rank rankSize (completedGroup + 1)%u32 lane groupWidth.

Definition DispatchPeerWorkCount (coreCount : Z) : Z :=
  if (coreCount =? 0) || (kDispatchAivCoreCount <? coreCount) then 0
  else kDispatchRankGroupSize / coreCount + (if kDispatchRankGroupSize mod coreCount =? 0 then 0 else 1).

(** ** Examples *)

Example grouped_peer_ring : DispatchGroupedPeer 3 10 0 0 8 = 4 /\ DispatchGroupedPeer 3 10 0 4 8 = 2 /\
  DispatchGroupedPeer 3 10 1 0 8 = 8 /\ DispatchGroupedPeer 3 10 1 4 8 = -1.
Proof. done. Qed.
