(* ===== verification/DispatchPeers.v ===== *)
(** The grouped schedule of the dispatch pairs every two ranks in exactly one group, and both of
    them in the same group: what the credits of the dispatch rely on. *)
From S2P Require Import Prelude DispatchSchedule.

(** ** Coordinates of a peer *)

(** The group and the lane in which [rank] serves [p], on the ring. *)
Definition ring_coords (R w rank p : Z) : Z * Z :=
  let h := w / 2 in
  let delta := (p - rank) mod R in
  if delta <=? R / 2 then ((delta - 1) / h, (delta - 1) mod h)
  else ((R - delta - 1) / h, h + (R - delta - 1) mod h).

(** The same in the two halves of 128 ranks. *)
Definition split_coords (rank p : Z) : Z * Z :=
  let delta := (p - rank) mod 64 in
  let d := Z.min delta (64 - delta) in
  let sign := if delta <=? 32 then 0 else 1 in
  if rank / 64 =? p / 64 then ((2 * (d - 1) + sign) / 8, (2 * (d - 1) + sign) mod 8)
  else if d =? 0 then (0, 8)
  else if d =? 32 then (0, 9)
  else if d <=? 3 then (0, 10 + 2 * (d - 1) + sign)
  else (d / 4, 8 + 2 * (d mod 4) + sign).

Definition peer_coords (R w rank p : Z) : Z * Z :=
  if (R =? 128) && (w =? 16) then split_coords rank p else ring_coords R w rank p.

Definition valid_width (w : Z) : Prop := w = 8 \/ w = 16.

(** ** The ring *)

Lemma grouped_count R w : 2 <= R <= INT32_MAX -> valid_width w ->
  DispatchGroupedGroupCount R w = (R - 1 + w - 1) / w.
Proof.
  intros HR Hw. unfold DispatchGroupedGroupCount. rewrite (proj2 (Z.leb_gt _ _)) by lia.
  assert (DispatchGroupWidthValid w = true) as -> by (by destruct Hw as [-> | ->]).
  unfold INT32_MAX in HR. cbn [negb orb]. cbv zeta. destruct Hw as [-> | ->];
    rewrite (u64_small (R - 1)) by lia; case_if; b2p; (rewrite u32_small; [div_lia|div_lia]).
Qed.

Lemma ring_peer_eq R w rank g l : 2 <= R <= INT32_MAX -> valid_width w -> ~ (R = 128 /\ w = 16) ->
  0 <= rank < R -> 0 <= g -> 0 <= l ->
  DispatchGroupedPeer rank R g l w =
  (let h := w / 2 in
   let d := g * h + l mod h + 1 in
   if (w <=? l) || (R / 2 <? d) || ((h <=? l) && (d =? R / 2) && (R mod 2 =? 0)) then -1
   else if l <? h then (rank + d) mod R else (rank - d) mod R).
Proof.
  intros HR Hw Hns Hr Hg Hl. unfold DispatchGroupedPeer. rewrite grouped_count by done.
  rewrite (proj2 (Z.ltb_ge rank 0)), (proj2 (Z.leb_gt R rank)) by lia. cbn [orb]. unfold INT32_MAX in HR.
  assert (((R =? kDispatchSplitRankSize) && (w =? 16)) = false) as ->.
  { apply not_true_iff_false. unfold kDispatchSplitRankSize. rewrite andb_true_iff, !Z.eqb_eq. tauto. }
  cbv zeta. destruct (Z.leb_spec w l) as [|Hlw]; [by rewrite orb_true_r|].
  assert ((if l <? w / 2 then l else (l - w / 2)%u32) = l mod (w / 2)) as ->.
  { destruct Hw as [-> | ->]; [change (8 / 2) with 4|change (16 / 2) with 8]; case_if; b2p.
    1,3: symmetry; apply Z.mod_small; lia.
    all: rewrite u32_small by lia; div_lia. }
  rewrite orb_false_r. cbn [orb].
  destruct (Z.leb_spec ((R - 1 + w - 1) / w) g) as [Hout|Hin].
  { rewrite (proj2 (Z.ltb_lt (R / 2) _)); [done|]. destruct Hw as [-> | ->]; [change (8 / 2) with 4 in *|change (16 / 2) with 8 in *]; div_lia. }
  assert (0 <= l mod (w / 2) < w / 2) as Hm by (apply Z.mod_pos_bound; destruct Hw as [-> | ->]; [change (8 / 2) with 4|change (16 / 2) with 8]; lia).
  assert (0 <= g * (w / 2) + l mod (w / 2) + 1 < 18446744073709551616) as Hd.
  { destruct Hw as [-> | ->]; [change (8 / 2) with 4 in *|change (16 / 2) with 8 in *]; div_lia. }
  set (d := g * (w / 2) + l mod (w / 2) + 1) in *.
  assert (u64 (u64 (u64 (g * (w / 2)) + l mod (w / 2)) + 1) = d) as ->.
  { assert (0 <= g * (w / 2)) by (destruct Hw as [-> | ->]; [change (8 / 2) with 4|change (16 / 2) with 8]; lia).
    rewrite (u64_small (g * (w / 2))), (u64_small (g * (w / 2) + l mod (w / 2))), u64_small; unfold d in *; lia. }
  case_if; [done|]. case_if; [done|]. replace (rank - d + R) with (rank - d + 1 * R) by ring.
  rewrite Z.mod_add by lia. done.
Qed.

Lemma width_half w : valid_width w -> 0 < w / 2 /\ w = 2 * (w / 2).
Proof. by intros [-> | ->]. Qed.

(** The ring schedule is the inverse of [ring_coords]. *)
Lemma ring_peer_iff R w rank g l p : 2 <= R <= INT32_MAX -> valid_width w -> ~ (R = 128 /\ w = 16) ->
  0 <= rank < R -> 0 <= g -> 0 <= l ->
  DispatchGroupedPeer rank R g l w = p /\ 0 <= p <->
  0 <= p < R /\ p <> rank /\ (g, l) = ring_coords R w rank p.
Proof.
  intros HR Hw Hns Hr Hg Hl. rewrite ring_peer_eq by done. cbv zeta.
  destruct (width_half w Hw) as [Hh Ew]. unfold ring_coords. set (h := w / 2) in *. clearbody h. cbv zeta.
  pose proof (Z.mod_pos_bound l h Hh) as Hm. set (d := g * h + l mod h + 1).
  assert (d - 1 = g * h + l mod h) as Ed by (unfold d; lia).
  assert (1 <= d) as Hd by (unfold d; nia). split.
  - intros [E Hp]. case_if_in E; [lia|]. apply orb_false_elim in E0 as [E1 E2]. apply orb_false_elim in E1 as [E1 E3]. b2p.
    assert (0 <= p < R) as Hpr by (case_if_in E; rewrite <- E; apply Z.mod_pos_bound; lia). split; [done|].
    destruct (Z.ltb_spec l h) as [Hlh|Hlh].
    + assert ((p - rank) mod R = d) as ->.
      { rewrite <- E, Zminus_mod_idemp_l. replace (rank + d - rank) with d by ring. apply Z.mod_small. div_lia. }
      rewrite (Z.mod_small l h) in Ed by lia. rewrite (proj2 (Z.leb_le d _)) by lia.
      rewrite Ed, div_mul_add, mod_mul_add by lia. split; [|done].
      intros ->. rewrite <- (Z.mod_small rank R) in E at 2 by lia.
      assert ((rank + d - rank) mod R = 0) as Hz by (rewrite <- (Zminus_mod_idemp_l (rank + d)), E, Zminus_mod_idemp_l, Z.sub_diag; done).
      replace (rank + d - rank) with d in Hz by ring. rewrite Z.mod_small in Hz by div_lia. lia.
    + assert (d < R - R / 2) as Hd2.
      { destruct E2 as [[E2|E2]%andb_false_iff|E2]; b2p; div_lia. }
      assert ((p - rank) mod R = R - d) as ->.
      { rewrite <- E, Zminus_mod_idemp_l. replace (rank - d - rank) with (R - d + -1 * R) by ring.
        rewrite Z.mod_add by lia. apply Z.mod_small. div_lia. }
      rewrite (proj2 (Z.leb_gt (R - d) _)) by lia. replace (R - (R - d) - 1) with (d - 1) by ring.
      rewrite Ed, div_mul_add, mod_mul_add by lia. split.
      * intros ->. rewrite <- (Z.mod_small rank R) in E at 2 by lia.
        assert ((rank - d - rank) mod R = 0) as Hz by (rewrite <- (Zminus_mod_idemp_l (rank - d)), E, Zminus_mod_idemp_l, Z.sub_diag; done).
        replace (rank - d - rank) with (R - d + -1 * R) in Hz by ring. rewrite Z.mod_add, Z.mod_small in Hz by div_lia. lia.
      * f_equal. assert (l = h + (l - h)) as El by ring. clear El.
        pose proof (Z.div_mod l h ltac:(lia)). assert (l / h = 1) by (symmetry; apply (Z.div_unique_pos l h 1 (l - h)); lia). lia.
  - intros (Hp & Hne & Ec). assert (1 <= (p - rank) mod R < R) as Hdel.
    { pose proof (Z.mod_pos_bound (p - rank) R ltac:(lia)). assert ((p - rank) mod R <> 0); [|lia].
      destruct (Z.lt_ge_cases p rank).
      - replace (p - rank) with (p - rank + R + -1 * R) by ring. rewrite Z.mod_add, Z.mod_small; lia.
      - rewrite Z.mod_small; lia. }
    set (delta := (p - rank) mod R) in *. destruct (Z.leb_spec delta (R / 2)) as [Hs|Hs]; injection Ec as Eg El.
    + pose proof (Z.mod_pos_bound (delta - 1) h Hh). assert (l mod h = l) as Elm by (apply Z.mod_small; lia).
      assert (d = delta) as Edd. { unfold d. rewrite Elm, Eg, El, Z.mul_comm, <- Z.div_mod by lia. ring. }
      rewrite Edd, (proj2 (Z.leb_gt w l)), (proj2 (Z.ltb_ge (R / 2) _)), (proj2 (Z.leb_gt h l)), (proj2 (Z.ltb_lt l h)) by lia.
      cbn [orb andb]. split; [|lia]. unfold delta. rewrite Zplus_mod_idemp_r. replace (rank + (p - rank)) with p by ring. by apply Z.mod_small.
    + pose proof (Z.mod_pos_bound (R - delta - 1) h Hh).
      assert (l mod h = (R - delta - 1) mod h) as Elm.
      { rewrite El. replace (h + (R - delta - 1) mod h) with ((R - delta - 1) mod h + 1 * h) by ring. rewrite Z.mod_add by lia. by apply Z.mod_small. }
      assert (d = R - delta) as Edd. { unfold d. rewrite Elm, Eg, Z.mul_comm, <- Z.div_mod by lia. ring. }
      rewrite Edd, (proj2 (Z.leb_gt w l)), (proj2 (Z.ltb_ge (R / 2) _)), (proj2 (Z.ltb_ge l h)) by div_lia.
      cbn [orb]. case_if; [exfalso; b2p; div_lia|]. split; [|lia].
      replace (rank - (R - delta)) with (rank + delta + -1 * R) by ring. rewrite Z.mod_add by lia.
      unfold delta. rewrite Zplus_mod_idemp_r. replace (rank + (p - rank)) with p by ring. by apply Z.mod_small.
Qed.

(** ** The split schedule, by evaluation *)

Definition split_row_ok (rank : Z) : bool :=
  forallb (fun g => forallb (fun l =>
      let p := DispatchGroupedPeer rank 128 g l 16 in
      (p =? -1) || ((0 <=? p) && (p <? 128) && negb (p =? rank) && bool_decide ((g, l) = split_coords rank p)))
    (seqZ 0 16)) (seqZ 0 8) &&
  forallb (fun p => (p =? rank) ||
      (let '(g, l) := split_coords rank p in
       (0 <=? g) && (0 <=? l) && (DispatchGroupedPeer rank 128 g l 16 =? p) &&
       (fst (split_coords p rank) =? g))) (seqZ 0 128).

Lemma split_rows_ok rank : 0 <= rank < 128 -> split_row_ok rank = true.
Proof.
  intros Hr. assert (forallb split_row_ok (seqZ 0 128) = true) as H by (vm_compute; reflexivity).
  rewrite List.forallb_forall in H. apply H, list_elem_of_In, elem_of_seqZ0. done.
Qed.

Lemma grouped_peer_outside rank R g l w : 2 <= R <= INT32_MAX -> valid_width w ->
  (R - 1 + w - 1) / w <= g \/ w <= l -> DispatchGroupedPeer rank R g l w = -1.
Proof.
  intros HR Hw H. unfold DispatchGroupedPeer. rewrite grouped_count by done. cbv zeta.
  assert (((R - 1 + w - 1) / w <=? g) || (w <=? l) = true) as Ho by (destruct H; lia).
  by rewrite <- orb_assoc, Ho, orb_true_r.
Qed.

Lemma split_peer_iff rank g l p : 0 <= rank < 128 -> 0 <= g -> 0 <= l ->
  DispatchGroupedPeer rank 128 g l 16 = p /\ 0 <= p <->
  0 <= p < 128 /\ p <> rank /\ (g, l) = split_coords rank p.
Proof.
  intros Hr Hg Hl. pose proof (split_rows_ok rank Hr) as H. unfold split_row_ok in H.
  apply andb_prop in H as [H1 H2]. rewrite List.forallb_forall in H1, H2. split.
  - intros [E Hp]. destruct (Z.lt_ge_cases g 8); [|rewrite grouped_peer_outside in E; [lia|unfold INT32_MAX; lia|by right|left; div_lia]].
    destruct (Z.lt_ge_cases l 16); [|rewrite grouped_peer_outside in E; [lia|unfold INT32_MAX; lia|by right|by right]].
    specialize (H1 g ltac:(apply list_elem_of_In, elem_of_seqZ0; lia)). rewrite List.forallb_forall in H1.
    specialize (H1 l ltac:(apply list_elem_of_In, elem_of_seqZ0; lia)). cbv zeta in H1. rewrite E in H1.
    rewrite (proj2 (Z.eqb_neq p (-1))) in H1 by lia. cbn [orb] in H1. b2p. split; [lia|]. split; [done|].
    match goal with H : bool_decide _ = true |- _ => by apply bool_decide_eq_true in H end.
  - intros (Hp & Hne & Ec). specialize (H2 p ltac:(apply list_elem_of_In, elem_of_seqZ0; lia)).
    rewrite (proj2 (Z.eqb_neq p rank)), <- Ec in H2 by done. cbn [orb] in H2. b2p. lia.
Qed.

(** ** Both schedules *)

Section schedule.
Context (R w : Z) (HR : 2 <= R <= INT32_MAX) (Hw : valid_width w).

Lemma grouped_peer_iff rank g l p : 0 <= rank < R -> 0 <= g -> 0 <= l ->
  DispatchGroupedPeer rank R g l w = p /\ 0 <= p <->
  0 <= p < R /\ p <> rank /\ (g, l) = peer_coords R w rank p.
Proof.
  intros Hr Hg Hl. unfold peer_coords. destruct ((R =? 128) && (w =? 16)) eqn:E.
  - b2p. subst. by apply split_peer_iff.
  - apply ring_peer_iff; try done. intros [-> ->]. done.
Qed.

(** The coordinates lie in the groups and the lanes of the schedule. *)
Lemma peer_coords_range rank p : 0 <= rank < R -> 0 <= p < R -> p <> rank ->
  let '(g, l) := peer_coords R w rank p in
  0 <= g < DispatchGroupedGroupCount R w /\ 0 <= l < w.
Proof.
  intros Hr Hp Hne. destruct (peer_coords R w rank p) as [g l] eqn:Ec.
  assert (0 <= g /\ 0 <= l) as [Hg Hl].
  { unfold peer_coords in Ec. destruct ((R =? 128) && (w =? 16)) eqn:E.
    - b2p. subst. pose proof (split_rows_ok rank Hr) as H. unfold split_row_ok in H. apply andb_prop in H as [_ H].
      rewrite List.forallb_forall in H. specialize (H p ltac:(by apply list_elem_of_In, elem_of_seqZ0)).
      rewrite (proj2 (Z.eqb_neq p rank)), Ec in H by done. cbn [orb] in H. b2p. lia.
    - unfold ring_coords in Ec. destruct (width_half w Hw) as [Hh _]. cbv zeta in Ec.
      pose proof (Z.mod_pos_bound (p - rank) R ltac:(lia)).
      assert ((p - rank) mod R <> 0).
      { destruct (Z.lt_ge_cases p rank).
        - replace (p - rank) with (p - rank + R + -1 * R) by ring. rewrite Z.mod_add, Z.mod_small; lia.
        - rewrite Z.mod_small; lia. }
      case_if_in Ec; injection Ec as <- <-;
        (split; [apply Z.div_pos; lia|]); [apply Z.mod_pos_bound; lia|].
      pose proof (Z.mod_pos_bound (R - (p - rank) mod R - 1) (w / 2) Hh). lia. }
  destruct (proj2 (grouped_peer_iff rank g l p Hr Hg Hl)) as [Epeer _]; [by rewrite Ec|].
  rewrite grouped_count by done.
  destruct (Z.lt_ge_cases g ((R - 1 + w - 1) / w)); [|rewrite grouped_peer_outside in Epeer by (try done; by left); lia].
  destruct (Z.lt_ge_cases l w); [lia|rewrite grouped_peer_outside in Epeer by (try done; by right); lia].
Qed.

(** Both partners meet in the same group. *)
Lemma peer_coords_group rank p : 0 <= rank < R -> 0 <= p < R -> p <> rank ->
  fst (peer_coords R w p rank) = fst (peer_coords R w rank p).
Proof.
  intros Hr Hp Hne. unfold peer_coords. destruct ((R =? 128) && (w =? 16)) eqn:E.
  - b2p. subst. pose proof (split_rows_ok rank Hr) as H. unfold split_row_ok in H. apply andb_prop in H as [_ H].
    rewrite List.forallb_forall in H. specialize (H p ltac:(by apply list_elem_of_In, elem_of_seqZ0)).
    rewrite (proj2 (Z.eqb_neq p rank)) in H by done. cbn [orb] in H. destruct (split_coords rank p) as [g l]. b2p. done.
  - unfold ring_coords. cbv zeta. assert ((rank - p) mod R = R - (p - rank) mod R) as ->.
    { destruct (Z.lt_ge_cases p rank).
      - rewrite (Z.mod_small (rank - p)) by lia. replace (p - rank) with (p - rank + R + -1 * R) by ring.
        rewrite Z.mod_add, Z.mod_small by lia. lia.
      - rewrite (Z.mod_small (p - rank)) by lia. replace (rank - p) with (rank - p + R + -1 * R) by ring.
        rewrite Z.mod_add, Z.mod_small by lia. lia. }
    set (delta := (p - rank) mod R). replace (R - (R - delta)) with delta by ring.
    destruct (Z.leb_spec (R - delta) (R / 2)), (Z.leb_spec delta (R / 2)); cbn [fst]; try done; f_equal; div_lia.
Qed.
End schedule.

(** ** Work of the cores *)

Section cores.
Context (R w coreCount : Z) (HR : 2 <= R <= INT32_MAX) (Hw : valid_width w).
Context (Hc : 0 < coreCount <= kDispatchAivCoreCount).

#[local] Abbreviation assignments := (DispatchGroupedGroupCount R w * w).

Lemma assignments_bound : 0 <= assignments < 4294967296.
Proof.
  rewrite grouped_count by done. unfold INT32_MAX in HR. destruct Hw as [-> | ->]; div_lia.
Qed.

Lemma assignment_count : DispatchGroupedAssignmentCount R w = assignments.
Proof. unfold DispatchGroupedAssignmentCount. apply u64_small. pose proof assignments_bound. lia. Qed.

Lemma work_count : DispatchGroupedPeerWorkCount R w coreCount = (assignments + coreCount - 1) / coreCount.
Proof.
  unfold DispatchGroupedPeerWorkCount, kDispatchAivCoreCount in *. rewrite assignment_count.
  rewrite (proj2 (Z.eqb_neq coreCount 0)), (proj2 (Z.ltb_ge _ coreCount)) by lia. cbn [orb]. cbv zeta.
  pose proof assignments_bound as Hb. set (A := DispatchGroupedGroupCount R w * w) in *. clearbody A.
  destruct (Z.eqb_spec A 0) as [->|]; [symmetry; apply Z.div_small; lia|].
  pose proof (Z.div_mod A coreCount ltac:(lia)) as Hdm. pose proof (Z.mod_pos_bound A coreCount ltac:(lia)) as Hm.
  assert (0 <= A / coreCount <= A) by (split; [apply Z.div_pos|apply Z.div_le_upper_bound]; nia).
  destruct (Z.eqb_spec (A mod coreCount) 0) as [Ez|Hz].
  - rewrite u32_small by lia. rewrite Z.add_0_r. apply (Z.div_unique_pos _ _ _ (coreCount - 1)); lia.
  - rewrite u32_small by nia. apply (Z.div_unique_pos _ _ _ (A mod coreCount - 1)); lia.
Qed.

Lemma for_core_eq rank core work : 0 <= core < coreCount ->
  0 <= work < DispatchGroupedPeerWorkCount R w coreCount ->
  DispatchGroupedPeerForCore rank R w core coreCount work =
  (let a := core + work * coreCount in
   if assignments <=? a then (-1, UINT32_MAX, UINT32_MAX)
   else (DispatchGroupedPeer rank R (a / w) (a mod w) w, a / w, a mod w)).
Proof.
  intros Hcore. rewrite work_count. intros Hwork. unfold DispatchGroupedPeerForCore, kDispatchAivCoreCount in *.
  rewrite (proj2 (Z.eqb_neq coreCount 0)), (proj2 (Z.ltb_ge _ coreCount)), (proj2 (Z.leb_gt coreCount core)) by lia.
  cbn [orb]. rewrite assignment_count. pose proof assignments_bound as Hb. cbv zeta.
  set (A := DispatchGroupedGroupCount R w * w) in *.
  assert (0 <= work * coreCount < A + coreCount) as Hprod.
  { pose proof (Z.div_mod (A + coreCount - 1) coreCount ltac:(lia)).
    pose proof (Z.mod_pos_bound (A + coreCount - 1) coreCount ltac:(lia)). nia. }
  rewrite (u64_small (work * coreCount)), u64_small by lia.
  destruct (Z.leb_spec A (core + work * coreCount)); [done|].
  assert (0 < w) by (destruct Hw; lia). set (a := core + work * coreCount) in *.
  pose proof (Z.mod_pos_bound a w ltac:(lia)). assert (w <= 16) by (destruct Hw; lia).
  rewrite (u32_small (a mod w)) by lia. rewrite u32_small; [done|].
  split; [apply Z.div_pos; lia|]. apply Z.div_lt_upper_bound; nia.
Qed.

Lemma for_core_served rank p core work : 0 <= rank < R -> 0 <= p < R -> p <> rank ->
  0 <= core < coreCount -> 0 <= work < DispatchGroupedPeerWorkCount R w coreCount ->
  fst (fst (DispatchGroupedPeerForCore rank R w core coreCount work)) = p <->
  core + work * coreCount = fst (peer_coords R w rank p) * w + snd (peer_coords R w rank p).
Proof.
  intros Hr Hp Hne Hcore Hwork. rewrite for_core_eq by done. cbv zeta.
  pose proof (peer_coords_range R w HR Hw rank p Hr Hp Hne) as Hrange.
  destruct (peer_coords R w rank p) as [g l] eqn:Ec. cbn [fst snd]. destruct Hrange as [Hg Hl].
  assert (0 <= core + work * coreCount) by nia. assert (0 < w) by (destruct Hw; lia).
  set (a := core + work * coreCount) in *.
  assert (0 <= a / w /\ 0 <= a mod w) as [Ha1 Ha2] by (split; [apply Z.div_pos|apply Z.mod_pos_bound]; lia).
  destruct (Z.leb_spec (DispatchGroupedGroupCount R w * w) a) as [Hout|Hin]; cbn [fst].
  - split; [lia|]. intros ->. nia.
  - pose proof (grouped_peer_iff R w HR Hw rank (a / w) (a mod w) p Hr Ha1 Ha2) as Hiff. rewrite Ec in Hiff. split.
    + intros E. assert ((a / w, a mod w) = (g, l)) as [= <- <-] by (apply Hiff; split; [done|lia]).
      rewrite Z.mul_comm. apply Z.div_mod. lia.
    + intros E. apply Hiff. split; [done|]. split; [done|].
      rewrite E, div_mul_add, mod_mul_add by done. done.
Qed.
End cores.

(** C32: the grouped dispatch schedule serves every other rank exactly once. For every communicator
    size, group width 8 or 16 and number of cores, every peer of a rank is handed to exactly one
    core at exactly one work index. *)
Theorem dispatch_every_peer_once R w rank coreCount p : 2 <= R <= INT32_MAX -> valid_width w ->
  0 <= rank < R -> 0 < coreCount <= kDispatchAivCoreCount -> 0 <= p < R -> p <> rank ->
  exists core workIndex, 0 <= core < coreCount /\
    0 <= workIndex < DispatchGroupedPeerWorkCount R w coreCount /\
    fst (fst (DispatchGroupedPeerForCore rank R w core coreCount workIndex)) = p /\
    forall core' workIndex', 0 <= core' < coreCount ->
      0 <= workIndex' < DispatchGroupedPeerWorkCount R w coreCount ->
      fst (fst (DispatchGroupedPeerForCore rank R w core' coreCount workIndex')) = p ->
      core' = core /\ workIndex' = workIndex.
Proof.
  intros HR Hw Hr Hc Hp Hne. pose proof (peer_coords_range R w HR Hw rank p Hr Hp Hne) as Hrange.
  pose proof (for_core_served R w coreCount HR Hw Hc rank p) as Hserved.
  destruct (peer_coords R w rank p) as [g l]. cbn [fst snd] in Hserved. destruct Hrange as [Hg Hl].
  set (a := g * w + l) in *. assert (0 <= a < DispatchGroupedGroupCount R w * w) as Ha by (unfold a; nia).
  pose proof (Z.div_mod a coreCount ltac:(lia)) as Hdm. pose proof (Z.mod_pos_bound a coreCount ltac:(lia)) as Hm.
  assert (0 <= a / coreCount < DispatchGroupedPeerWorkCount R w coreCount) as Hwork.
  { rewrite (work_count R w coreCount HR Hw Hc). split; [apply Z.div_pos; lia|].
    pose proof (Z.div_mod (DispatchGroupedGroupCount R w * w + coreCount - 1) coreCount ltac:(lia)).
    pose proof (Z.mod_pos_bound (DispatchGroupedGroupCount R w * w + coreCount - 1) coreCount ltac:(lia)). nia. }
  exists (a mod coreCount), (a / coreCount). split; [done|]. split; [done|]. split.
  - apply Hserved; try done. rewrite Hdm at 3. ring.
  - intros core' work' Hc' Hw' E. apply Hserved in E; try done.
    assert (work' * coreCount + core' = a / coreCount * coreCount + a mod coreCount) as Eq by lia.
    apply mul_add_inj in Eq; [|done|done]. tauto.
Qed.

Lemma dispatch_every_peer_once_witness :
  exists core workIndex, 0 <= core < 16 /\ 0 <= workIndex < DispatchGroupedPeerWorkCount 128 16 16 /\
    fst (fst (DispatchGroupedPeerForCore 5 128 16 core 16 workIndex)) = 100.
Proof.
  destruct (dispatch_every_peer_once 128 16 5 16 100) as (core & work & H1 & H2 & H3 & _);
    [unfold INT32_MAX; lia|by right|lia|unfold kDispatchAivCoreCount; lia|lia|lia|].
  exists core, work. split; [exact H1|]. split; [exact H2|exact H3].
Defined.

(** The credits of the grouped dispatch match its waits. When a rank is about to send to a
    peer in a group after the first, that peer has, among the peers of the next group that it
    gives credit to when it leaves the group before, this rank; and in general two ranks serve
    each other in the same group. *)
Theorem dispatch_credit_matches R w rank group lane p : 2 <= R <= INT32_MAX -> valid_width w ->
  0 <= rank < R -> 0 <= group -> 0 <= lane -> DispatchGroupedPeer rank R group lane w = p -> 0 <= p ->
  exists lane', 0 <= lane' < w /\ DispatchGroupedPeer p R group lane' w = rank /\
    (0 < group -> DispatchGroupedNextCreditPeer p R (group - 1) lane' w = rank).
Proof.
  intros HR Hw Hr Hg Hl E Hp. destruct (proj1 (grouped_peer_iff R w HR Hw rank group lane p Hr Hg Hl)) as (Hpr & Hne & Ec); [done|].
  assert (rank <> p) as Hne' by congruence.
  pose proof (peer_coords_range R w HR Hw p rank Hpr Hr Hne') as Hrange.
  pose proof (peer_coords_group R w HR Hw rank p Hr Hpr Hne) as Hsame. rewrite <- Ec in Hsame. cbn [fst] in Hsame.
  destruct (peer_coords R w p rank) as [g' l'] eqn:Ec'. cbn [fst] in Hsame. subst g'. destruct Hrange as [Hg' Hl'].
  exists l'. split; [done|].
  assert (DispatchGroupedPeer p R group l' w = rank) as Epeer.
  { apply (grouped_peer_iff R w HR Hw p group l' rank Hpr Hg ltac:(lia)). by rewrite Ec'. }
  split; [done|]. intros Hpos. unfold DispatchGroupedNextCreditPeer.
  rewrite grouped_count in Hg' by done. unfold INT32_MAX in HR.
  assert (group < 4294967295) by (destruct Hw as [-> | ->]; div_lia).
  rewrite (proj2 (Z.eqb_neq (group - 1) UINT32_MAX)) by (unfold UINT32_MAX; lia).
  rewrite u32_small by lia. by replace (group - 1 + 1) with group by ring.
Qed.

Lemma dispatch_credit_matches_witness : exists lane', 0 <= lane' < 16 /\
  DispatchGroupedPeer 34 128 3 lane' 16 = 47 /\ DispatchGroupedNextCreditPeer 34 128 2 lane' 16 = 47.
Proof.
  destruct (dispatch_credit_matches 128 16 47 3 1 34) as (l & H1 & H2 & H3);
    [unfold INT32_MAX; lia|by right|lia|lia|lia|reflexivity|lia|].
  exists l. split; [exact H1|]. split; [exact H2|apply H3; lia].
Defined.
