(* ===== verification/DispatchRanges.v ===== *)
(** Partitions of the dispatch: the contiguous parts of a range of items, and the legacy phases
    over groups of 64 ranks. *)
From S2P Require Import Prelude DispatchSchedule.

(** [DispatchContiguousRange] tiles the items. For every number of items and of parts, the
    parts follow each other without gap or overlap from 0 to the number of items, and their sizes
    differ by at most one. *)
Theorem dispatch_range_tiles n P : is_u64 n -> 0 < P <= UINT32_MAX ->
  fst (DispatchContiguousRange n P 0) = 0 /\ snd (DispatchContiguousRange n P (P - 1)) = n /\
  (forall part, 0 <= part < P ->
     let '(start, stop) := DispatchContiguousRange n P part in
     0 <= start <= stop /\ stop <= n /\ (stop - start = n / P \/ stop - start = n / P + 1)) /\
  (forall part, 0 <= part -> part + 1 < P ->
     snd (DispatchContiguousRange n P part) = fst (DispatchContiguousRange n P (part + 1))).
Proof.
  intros Hn HP. unfold is_u64, UINT64_MAX, UINT32_MAX in *.
  pose proof (Z.div_mod n P ltac:(lia)) as Hdm. pose proof (Z.mod_pos_bound n P ltac:(lia)) as Hm.
  assert (0 <= n / P) as Hq by (apply Z.div_pos; lia).
  assert (forall part, 0 <= part < P -> DispatchContiguousRange n P part =
    (part * (n / P) + Z.min part (n mod P), part * (n / P) + Z.min part (n mod P) + n / P +
      (if part <? n mod P then 1 else 0)) /\
    part * (n / P) + Z.min part (n mod P) + n / P + (if part <? n mod P then 1 else 0) <= n) as Heq.
  { intros part Hpart. unfold DispatchContiguousRange.
    rewrite (proj2 (Z.eqb_neq P 0)), (proj2 (Z.leb_gt P part)) by lia. cbn [orb]. cbv zeta.
    assert ((part + 1) * (n / P) <= P * (n / P)) by (apply Z.mul_le_mono_nonneg_r; lia).
    assert (0 <= part * (n / P)) by (apply Z.mul_nonneg_nonneg; lia).
    destruct (Z.ltb_spec part (n mod P)); rewrite ?Z.min_l, ?Z.min_r by lia;
      (split; [|lia]); unwrap64; done. }
  split; [destruct (Heq 0 ltac:(lia)) as [-> _]; cbn [fst]; lia|]. split.
  { destruct (Heq (P - 1) ltac:(lia)) as [-> _]. cbn [snd]. rewrite Z.min_r, (proj2 (Z.ltb_ge _ _)) by lia. lia. }
  split.
  - intros part Hpart. destruct (Heq part Hpart) as [-> Hle].
    assert (0 <= part * (n / P)) by (apply Z.mul_nonneg_nonneg; lia). case_if; lia.
  - intros part Hp1 Hp2. destruct (Heq part ltac:(lia)) as [-> _], (Heq (part + 1) ltac:(lia)) as [-> _]. cbn [fst snd].
    case_if; b2p; lia.
Qed.

Lemma dispatch_range_tiles_witness :
  snd (DispatchContiguousRange 10 3 0) = fst (DispatchContiguousRange 10 3 1).
Proof. apply (dispatch_range_tiles 10 3); unfold is_u64, UINT64_MAX, UINT32_MAX; lia. Defined.

(** ** Legacy phases *)

Lemma group_count R : 0 < R -> DispatchGroupCount R = (R + 63) / 64.
Proof.
  intros HR. unfold DispatchGroupCount, kDispatchRankGroupSize. rewrite (proj2 (Z.leb_gt _ _)) by lia.
  case_if; b2p; div_lia.
Qed.

Lemma peer_work_count cc : 0 < cc <= kDispatchAivCoreCount -> DispatchPeerWorkCount cc = (64 + cc - 1) / cc.
Proof.
  unfold DispatchPeerWorkCount, kDispatchAivCoreCount, kDispatchRankGroupSize. intros Hc.
  rewrite (proj2 (Z.eqb_neq cc 0)), (proj2 (Z.ltb_ge _ cc)) by lia. cbn [orb].
  pose proof (Z.div_mod 64 cc ltac:(lia)). pose proof (Z.mod_pos_bound 64 cc ltac:(lia)).
  destruct (Z.eqb_spec (64 mod cc) 0).
  - apply (Z.div_unique_pos _ _ _ (cc - 1)); lia.
  - apply (Z.div_unique_pos _ _ _ (64 mod cc - 1)); lia.
Qed.

(** The peer of a core at a phase. *)
Lemma legacy_peer_iff R rank phase core cc work p : 0 <= rank < R -> 0 < cc <= kDispatchAivCoreCount ->
  0 <= phase < DispatchGroupCount R -> 0 <= core < cc -> 0 <= work < DispatchPeerWorkCount cc -> 0 <= p < R ->
  DispatchPeerForCore rank R phase core cc work = p <->
  (rank / 64 + phase) mod DispatchGroupCount R = p / 64 /\ core + work * cc = p mod 64.
Proof.
  intros Hr Hc Hph Hcore Hwork Hp. unfold DispatchPeerForCore, DispatchTargetGroup.
  rewrite peer_work_count in Hwork by done. rewrite group_count in * by lia.
  unfold kDispatchAivCoreCount, kDispatchRankGroupSize in *.
  rewrite (proj2 (Z.eqb_neq cc 0)), (proj2 (Z.ltb_ge _ cc)), (proj2 (Z.leb_gt cc core)) by lia. cbn [orb]. cbv zeta.
  assert (0 <= work * cc < 64 + cc) as Hprod.
  { pose proof (Z.div_mod (64 + cc - 1) cc ltac:(lia)). pose proof (Z.mod_pos_bound (64 + cc - 1) cc ltac:(lia)). nia. }
  rewrite (u64_small (work * cc)), u64_small by lia. set (a := core + work * cc) in *.
  rewrite (proj2 (Z.ltb_ge rank 0)), (proj2 (Z.leb_gt R rank)), (proj2 (Z.ltb_ge phase 0)), (proj2 (Z.leb_gt _ phase)) by lia.
  cbn [orb]. set (G := (R + 63) / 64) in *. assert (0 < G) as HG by lia.
  pose proof (Z.mod_pos_bound (rank / 64 + phase) G HG) as Ht. set (t := (rank / 64 + phase) mod G) in *.
  rewrite (proj2 (Z.ltb_ge t 0)) by lia.
  assert (0 <= a) by nia. destruct (Z.leb_spec 64 a).
  { split; [lia|]. intros [_ E]. pose proof (Z.mod_pos_bound p 64). lia. }
  split.
  - intros E. case_if_in E; [|lia]. subst p. by rewrite div_mul_add, mod_mul_add by lia.
  - intros [-> ->]. replace (p / 64 * 64 + p mod 64) with p by (rewrite Z.mul_comm; apply Z.div_mod; lia).
    by rewrite (proj2 (Z.ltb_lt p R)) by lia.
Qed.

(** over its phases the legacy dispatch visits every rank, itself included, exactly once: for
    every number of cores, each rank is the peer of exactly one phase, core and work index. *)
Theorem dispatch_legacy_every_rank_once R rank cc p : 0 <= rank < R -> 0 < cc <= kDispatchAivCoreCount -> 0 <= p < R ->
  exists phase core work,
    (0 <= phase < DispatchGroupCount R /\ 0 <= core < cc /\ 0 <= work < DispatchPeerWorkCount cc /\
     DispatchPeerForCore rank R phase core cc work = p) /\
    forall phase' core' work', 0 <= phase' < DispatchGroupCount R -> 0 <= core' < cc ->
      0 <= work' < DispatchPeerWorkCount cc -> DispatchPeerForCore rank R phase' core' cc work' = p ->
      phase' = phase /\ core' = core /\ work' = work.
Proof.
  intros Hr Hc Hp. pose proof (group_count R ltac:(lia)) as EG. pose proof (peer_work_count cc Hc) as EW.
  assert (0 < DispatchGroupCount R) as HG by (rewrite EG; div_lia). set (G := DispatchGroupCount R) in *.
  assert (0 <= p / 64 < G /\ 0 <= rank / 64 < G) as [Hpg Hrg] by (rewrite EG; div_lia).
  pose proof (Z.mod_pos_bound p 64 ltac:(lia)) as Hoff.
  pose proof (Z.div_mod (p mod 64) cc ltac:(lia)) as Hdm. pose proof (Z.mod_pos_bound (p mod 64) cc ltac:(lia)) as Hm.
  assert (0 <= p mod 64 / cc < DispatchPeerWorkCount cc) as Hw.
  { rewrite EW. split; [apply Z.div_pos; lia|].
    pose proof (Z.div_mod (64 + cc - 1) cc ltac:(lia)). pose proof (Z.mod_pos_bound (64 + cc - 1) cc ltac:(lia)). nia. }
  pose proof (Z.mod_pos_bound (p / 64 - rank / 64) G HG) as Hph.
  exists ((p / 64 - rank / 64) mod G), (p mod 64 mod cc), (p mod 64 / cc). split; [split; [exact Hph|split; [exact Hm|split; [exact Hw|]]]|].
  - apply legacy_peer_iff; try done. fold G. split; [|rewrite Hdm at 3; ring].
    rewrite Zplus_mod_idemp_r. replace (rank / 64 + (p / 64 - rank / 64)) with (p / 64) by ring. by apply Z.mod_small.
  - intros phase' core' work' H1 H2 H3 E. apply legacy_peer_iff in E as [E1 E2]; try done. fold G in E1, H1. split.
    + rewrite <- E1, Zminus_mod_idemp_l. replace (rank / 64 + phase' - rank / 64) with phase' by ring.
      symmetry. by apply Z.mod_small.
    + assert (work' * cc + core' = p mod 64 / cc * cc + p mod 64 mod cc) as Eq by lia.
      apply mul_add_inj in Eq; [|done|done]. tauto.
Qed.

Lemma dispatch_legacy_every_rank_once_witness : exists phase core work,
  0 <= phase < DispatchGroupCount 200 /\ 0 <= core < 24 /\ 0 <= work < DispatchPeerWorkCount 24 /\
  DispatchPeerForCore 70 200 phase core 24 work = 3.
Proof.
  destruct (dispatch_legacy_every_rank_once 200 70 24 3) as (ph & c & k & H & _);
    [lia|unfold kDispatchAivCoreCount; lia|lia|].
  exists ph, c, k. exact H.
Defined.
