(* ===== verification/DispatchCredit.v ===== *)
(** The credit words of the dispatch and where they live, from
    src/src/moonep/dispatch/urma/common/dispatch_credit.h: a credit is a token that grows with
    the launch magic and the group, in a slot per destination rank of one of two planes. *)
From S2P Require Import Prelude CombineSchedule CombineWire DispatchSchedule.

Definition kDispatchCreditStrideBytes : Z := 512.
Definition kDispatchCreditPingPongSlots : Z := 2.
Definition kDispatchCreditGroupBits : Z := 16.
Definition kDispatchCreditGroupMask : Z := Z.shiftl 1 kDispatchCreditGroupBits - 1.
Definition kDispatchCreditMaxMagic : Z := Z.shiftr UINT64_MAX kDispatchCreditGroupBits.
Definition kDispatchCreditPlaneBytes : Z := CREDIT_IPC_SLOT_BYTES.
Definition kDispatchCreditBytes : Z := DISPATCH_CREDIT_IPC_BYTES.
Definition kDispatchCreditMaxGroupCount : Z := 16.
Definition kDispatchCreditSourceStrideBytes : Z := 64.
Definition kDispatchCreditSourceBytes : Z :=
  kDispatchAivCoreCount * kDispatchCreditMaxGroupCount * kDispatchCreditSourceStrideBytes.

(** The token, or [None] for [false] (with [token = 0]). *)
Definition DispatchCreditToken (magic group : Z) : option Z :=
  if (magic <=? 0) || (kDispatchCreditMaxMagic <? magic) || (kDispatchCreditGroupMask <=? group) then None
  else Some ((magic ≪ kDispatchCreditGroupBits) .| (group + 1))%u64.

Definition DispatchCreditPlaneOffset (magic : Z) : Z :=
  if magic <=? 0 then UINT64_MAX else Z.land magic 1 * kDispatchCreditPlaneBytes.

Definition DispatchCreditEntryOffset (destinationRank : Z) : Z :=
  if TILEXR_MAX_RANK_SIZE <=? destinationRank then UINT64_MAX
  else destinationRank * kDispatchCreditStrideBytes.

Definition DispatchCreditSourceOffset (core group : Z) : Z :=
  if (kDispatchAivCoreCount <=? core) || (kDispatchCreditMaxGroupCount <=? group) then UINT64_MAX
  else (core * kDispatchCreditMaxGroupCount + group) * kDispatchCreditSourceStrideBytes.

Definition DispatchCreditRequired (group : Z) : bool := negb (group =? 0).

Definition DispatchCreditReady (observed expected : Z) : bool :=
  negb (expected =? 0) && (expected <=? observed).

(** The numeric value of a token. *)
Lemma credit_token_value magic group token : 0 <= group -> DispatchCreditToken magic group = Some token ->
  0 < magic /\ group < 65535 /\ token = magic * 65536 + group + 1 /\ 0 < token <= UINT64_MAX.
Proof.
  unfold DispatchCreditToken. intros Hg H. case_if_in H; [done|]. injection H as <-.
  apply orb_false_elim in E as [E E3]. apply orb_false_elim in E as [E1 E2]. b2p.
  change kDispatchCreditMaxMagic with 281474976710655 in *. change kDispatchCreditGroupMask with 65535 in *.
  change kDispatchCreditGroupBits with 16. rewrite Z.shiftl_mul_pow2 by lia. change (2 ^ 16) with 65536.
  rewrite (u64_small (magic * 65536)), (u64_small (group + 1)) by lia.
  assert (Z.lor (magic * 65536) (group + 1) = magic * 65536 + group + 1) as ->.
  { rewrite Z.lor_comm. change 65536 with (2 ^ 16). rewrite <- Z.shiftl_mul_pow2 by lia.
    rewrite lor_shiftl_add by lia. rewrite Z.shiftl_mul_pow2; lia. }
  unfold UINT64_MAX. lia.
Qed.

(** Dispatch credits are ordered by launch and group. A slot that holds the credit of some
    launch and group satisfies the wait for another one exactly when its launch is later, or the
    launch is the same and its group not earlier; and the initial value 0 satisfies no wait. *)
Theorem dispatch_credit_order m g m' g' observed expected : 0 <= g -> 0 <= g' ->
  DispatchCreditToken m g = Some observed -> DispatchCreditToken m' g' = Some expected ->
  (DispatchCreditReady observed expected = true <-> m' < m \/ (m' = m /\ g' <= g)) /\
  DispatchCreditReady 0 expected = false.
Proof.
  intros Hg Hg' E E'. destruct (credit_token_value m g observed Hg E) as (H1 & H2 & -> & H3).
  destruct (credit_token_value m' g' expected Hg' E') as (H1' & H2' & -> & H3').
  unfold DispatchCreditReady. rewrite (proj2 (Z.eqb_neq _ 0)) by lia. cbn [negb andb]. rewrite Z.leb_le.
  split; [lia|]. apply Z.leb_gt. lia.
Qed.

Lemma dispatch_credit_order_witness : exists observed expected,
  DispatchCreditToken 7 4 = Some observed /\ DispatchCreditToken 7 3 = Some expected /\
  DispatchCreditReady observed expected = true.
Proof.
  do 2 eexists. split; [reflexivity|]. split; [reflexivity|].
  apply (dispatch_credit_order 7 4 7 3 _ _ ltac:(lia) ltac:(lia) eq_refl eq_refl). lia.
Defined.

(** The slot of a credit in the credit window of the receiver. *)
Definition credit_slot (magic destinationRank : Z) : Z :=
  DispatchCreditPlaneOffset magic + DispatchCreditEntryOffset destinationRank.

(** The credit slots of the dispatch are 512-byte aligned, lie below the slots of the combine
    in the credit window, do not overlap for different ranks or for the two parities of the
    magic, so that consecutive launches never share a slot. *)
Theorem dispatch_credit_slots m d m' d' : 0 < m -> 0 < m' ->
  0 <= d < TILEXR_MAX_RANK_SIZE -> 0 <= d' < TILEXR_MAX_RANK_SIZE ->
  credit_slot m d mod kDispatchCreditStrideBytes = 0 /\
  0 <= credit_slot m d /\ credit_slot m d + kDispatchCreditStrideBytes <= COMBINE_CREDIT_IPC_BASE /\
  (d <> d' \/ m mod 2 <> m' mod 2 ->
   credit_slot m d + kDispatchCreditStrideBytes <= credit_slot m' d' \/
   credit_slot m' d' + kDispatchCreditStrideBytes <= credit_slot m d) /\
  credit_slot m d <> credit_slot (m + 1) d'.
Proof.
  intros Hm Hm' Hd Hd'.
  assert (forall x y, 0 < x -> 0 <= y < 128 -> credit_slot x y = (x mod 2) * 65536 + y * 512) as Hs.
  { intros x y Hx Hy. unfold credit_slot, DispatchCreditPlaneOffset, DispatchCreditEntryOffset, TILEXR_MAX_RANK_SIZE.
    rewrite (proj2 (Z.leb_gt x 0)), (proj2 (Z.leb_gt 128 y)), land_1 by lia. done. }
  change TILEXR_MAX_RANK_SIZE with 128 in *. rewrite !Hs by lia.
  change kDispatchCreditStrideBytes with 512. change COMBINE_CREDIT_IPC_BASE with 131072.
  pose proof (Z.mod_pos_bound m 2). pose proof (Z.mod_pos_bound m' 2). split_and!; try lia.
  - replace (m mod 2 * 65536 + d * 512) with ((m mod 2 * 128 + d) * 512) by ring. apply Z.mod_mul. lia.
  - assert ((m + 1) mod 2 <> m mod 2) by div_lia. pose proof (Z.mod_pos_bound (m + 1) 2). lia.
Qed.

Lemma dispatch_credit_slots_witness : credit_slot 5 3 <> credit_slot 6 3.
Proof. apply (dispatch_credit_slots 5 3 9 3); unfold TILEXR_MAX_RANK_SIZE; lia. Defined.
