(* ===== verification/WqeRing.v ===== *)
(** Work queues of the UDMA transport as dispatch and combine drive them, from
    src/src/moonep/dispatch/urma/common/dispatch_wqe_batch.h and
    src/src/moonep/combine_v2/common/combine_v2_wqe_batch.h: how many entries to post or to poll
    at once, how a completion entry advances the tail of the send queue, and how routes are
    split over two queues. Ring counters are [uint32_t] and wrap. *)
From S2P Require Import Prelude DispatchSchedule.

(** ** dispatch_wqe_batch.h *)

Definition kDispatchWqeBatchCapacity : Z := 128.
Definition kDispatchLogicalWqeBatchCapacity : Z := 2 * kDispatchWqeBatchCapacity.
Definition kDispatchQpCount : Z := 2.
Definition kDispatchQpSplitPeriod : Z := 4.
Definition kDispatchSqPollReserve : Z := 10.
Definition kDispatchSharedQpCoreCount : Z := 16.
Definition kDispatchSharedPayloadQpCount : Z := kDispatchQpCount * kDispatchSharedQpCoreCount.
Definition kDispatchSharedCreditQpBase : Z := kDispatchSharedPayloadQpCount.
Definition kDispatchSharedCreditQpCount : Z := kDispatchSharedQpCoreCount.
Definition kDispatchSharedQpCount : Z := kDispatchSharedPayloadQpCount + kDispatchSharedCreditQpCount.

Definition DispatchPayloadWqesPerRoute (hasWeight : bool) : Z := if hasWeight then 2 else 1.

Definition DispatchDataWqeCount (routeCount : Z) (hasWeight : bool) : option Z :=
  let perRoute := DispatchPayloadWqesPerRoute hasWeight in
  if UINT64_MAX / perRoute <? routeCount then None else Some (routeCount * perRoute)%u64.

Definition DispatchDataTaskRouteIndex (dataTask : Z) (hasWeight : bool) : Z :=
  if hasWeight then dataTask / 2 else dataTask.

Definition DispatchDataTaskIsWeight (dataTask : Z) (hasWeight : bool) : bool :=
  hasWeight && negb (Z.land dataTask 1 =? 0).

Definition DispatchSignalFitsAfterData (remainingRoutes : Z) (hasWeight : bool) (availableWqes : Z) : bool :=
  match DispatchDataWqeCount remainingRoutes hasWeight with
  | None => false
  | Some remainingDataWqes => (remainingDataWqes + 1)%u64 <=? availableWqes
  end.

Definition DispatchQpCountSupported (availableQpCount : Z) (sharedQp : bool) : bool :=
  if sharedQp then availableQpCount =? kDispatchSharedQpCount else kDispatchQpCount <=? availableQpCount.

Definition DispatchPeerCoreCount (launchedCoreCount : Z) (sharedQp : bool) : Z :=
  if (launchedCoreCount =? 0) || (kDispatchAivCoreCount <? launchedCoreCount) then 0
  else if sharedQp && (kDispatchSharedQpCoreCount <? launchedCoreCount)
  then kDispatchSharedQpCoreCount else launchedCoreCount.

Definition DispatchPhysicalQpIndex (logicalQpIdx coreIdx : Z) (sharedQp : bool) : Z :=
  if kDispatchQpCount <=? logicalQpIdx then UINT32_MAX
  else if negb sharedQp then logicalQpIdx
  else if kDispatchSharedQpCoreCount <=? coreIdx then UINT32_MAX
  else (logicalQpIdx * kDispatchSharedQpCoreCount + coreIdx)%u32.

Definition DispatchCreditPhysicalQpIndex (coreIdx : Z) (sharedQp : bool) : Z :=
  if negb sharedQp then 0
  else if coreIdx <? kDispatchSharedQpCoreCount then (kDispatchSharedCreditQpBase + coreIdx)%u32
  else UINT32_MAX.

Definition DispatchWqeBatchCount (remainingWqes sqHead sqEntryCount : Z) : Z :=
  if (remainingWqes =? 0) || (sqEntryCount =? 0) then 0
  else
    let ringRemaining := (sqEntryCount - sqHead `mod` sqEntryCount)%u32 in
    let count := if remainingWqes <? kDispatchWqeBatchCapacity then remainingWqes
                 else kDispatchWqeBatchCapacity in
    u32 (if ringRemaining <? count then ringRemaining else count).

Definition DispatchCqePollBatchCount (cqTail cqEntryCount batchCapacity : Z) : Z :=
  if (cqEntryCount =? 0) || (batchCapacity =? 0) then 0
  else
    let ringRemaining := (cqEntryCount - cqTail `mod` cqEntryCount)%u32 in
    if ringRemaining <? batchCapacity then ringRemaining else batchCapacity.

Definition DispatchCqeOwnerReady (cqTail cqEntryCount owner : Z) : bool :=
  if cqEntryCount =? 0 then false
  else
    let producerOwner := Z.land (cqTail / cqEntryCount) 1 in
    negb (Z.land owner 1 =? producerOwner).

(** The new tail, or [None] for [false]. *)
Definition DispatchCompletedSqTail (sqTail outstanding cqeEntryIdx sqEntryCount : Z) : option Z :=
  if (sqEntryCount =? 0) || (outstanding =? 0) || (sqEntryCount <=? outstanding) then None
  else
    let completedRingTail := (cqeEntryIdx `mod` sqEntryCount + 1)%u32 mod sqEntryCount in
    let currentRingTail := sqTail mod sqEntryCount in
    let advance := (completedRingTail + sqEntryCount - currentRingTail)%u32 mod sqEntryCount in
    if (advance =? 0) || (outstanding <? advance) then None else Some (sqTail + advance)%u32.

Definition DispatchSqTailIsFurther (sqTail candidateSqTail completedSqTail : Z) : bool :=
  ((completedSqTail - sqTail) <? (candidateSqTail - sqTail))%u32.

Definition DispatchQp1RouteCount (routeCount sequencePhase : Z) : Z :=
  let firstQp1 := Z.land (3 - Z.land sequencePhase 3)%u32 3 in
  if routeCount <=? firstQp1 then 0
  else (1 + (routeCount - 1 - firstQp1) / kDispatchQpSplitPeriod)%u32.

Definition DispatchQpRouteCount (routeCount sequencePhase qpIdx : Z) : Z :=
  let qp1Count := DispatchQp1RouteCount routeCount sequencePhase in
  if qpIdx =? 0 then (routeCount - qp1Count)%u32 else if qpIdx =? 1 then qp1Count else 0.

Definition DispatchQpSelectedIndex (qpRouteIndex sequencePhase qpIdx : Z) : Z :=
  let firstQp1 := Z.land (3 - Z.land sequencePhase 3)%u32 3 in
  if qpIdx =? 1 then (firstQp1 + qpRouteIndex * kDispatchQpSplitPeriod)%u32
  else if negb (qpIdx =? 0) then UINT32_MAX
  else if qpRouteIndex <? firstQp1 then qpRouteIndex
  else
    let afterPrefix := (qpRouteIndex - firstQp1)%u32 in
    (firstQp1 + 1 + afterPrefix / 3 * kDispatchQpSplitPeriod + afterPrefix `mod` 3)%u32.

Definition DispatchPeerWqesStreamable (routeCount sqEntryCount reserve : Z) (hasWeight : bool) : bool :=
  if (UINT32_MAX <? routeCount) || negb (bool_decide (is_Some (DispatchDataWqeCount routeCount hasWeight))) ||
     (sqEntryCount <=? reserve) then false
  else kDispatchWqeBatchCapacity <=? (sqEntryCount - reserve)%u32.

Definition DispatchGroupedBatchNeedsCompletion (batchCount : Z) : bool := negb (batchCount =? 0).

Definition DispatchRouteTileCount (routeCount tileStart tileCapacity : Z) : Z :=
  if (routeCount <=? tileStart) || (tileCapacity =? 0) then 0
  else
    let remaining := (routeCount - tileStart)%u32 in
    if remaining <? tileCapacity then remaining else tileCapacity.

(** ** combine_v2_wqe_batch.h *)

Definition kMoonEpCombineV2PayloadBatchRows : Z := 128.
Definition kMoonEpCombineV2WqeBatchCapacity : Z := kMoonEpCombineV2PayloadBatchRows.
Definition kMoonEpCombineV2QpSplitPeriod : Z := 4.
Definition kMoonEpCombineV2SelfRelayHalfBytes : Z := 64 * 1024.
Definition kMoonEpCombineV2SelfMaxBatchRows : Z := 8.
Definition kMoonEpCombineV2SelfUbAlignment : Z := 32.

Definition MoonEpCombineV2SelfAlignedRowBytes (rowBytes : Z) : Z :=
  if (rowBytes =? 0) || (UINT64_MAX - (kMoonEpCombineV2SelfUbAlignment - 1) <? rowBytes) then 0
  else ((rowBytes + kMoonEpCombineV2SelfUbAlignment - 1) / kMoonEpCombineV2SelfUbAlignment *
        kMoonEpCombineV2SelfUbAlignment)%u64.

Definition MoonEpCombineV2SelfRowsPerBatch (rowBytes : Z) : Z :=
  let alignedRowBytes := MoonEpCombineV2SelfAlignedRowBytes rowBytes in
  if (alignedRowBytes =? 0) || (kMoonEpCombineV2SelfRelayHalfBytes <? alignedRowBytes) then 0
  else
    let rows := u32 (kMoonEpCombineV2SelfRelayHalfBytes / alignedRowBytes) in
    if rows <? kMoonEpCombineV2SelfMaxBatchRows then rows else kMoonEpCombineV2SelfMaxBatchRows.

Definition MoonEpCombineV2SelfTileCount (rowBytes : Z) : Z :=
  if rowBytes =? 0 then 0
  else (rowBytes / kMoonEpCombineV2SelfRelayHalfBytes +
        (if (rowBytes mod kMoonEpCombineV2SelfRelayHalfBytes =? 0)%Z then 0 else 1))%u64.

Definition MoonEpCombineV2SelfTileBytes (rowBytes tileIndex : Z) : Z :=
  if MoonEpCombineV2SelfTileCount rowBytes <=? tileIndex then 0
  else
    let tileOffset := (tileIndex * kMoonEpCombineV2SelfRelayHalfBytes)%u64 in
    let remaining := (rowBytes - tileOffset)%u64 in
    u32 (if remaining <? kMoonEpCombineV2SelfRelayHalfBytes then remaining
         else kMoonEpCombineV2SelfRelayHalfBytes).

Inductive MoonEpCombineV2SingleCqeResult : Set :=
| SINGLE_CQE_NO_COMPLETION
| SINGLE_CQE_PROGRESS
| SINGLE_CQE_TARGET_REACHED
| SINGLE_CQE_ERROR
| SINGLE_CQE_INVALID_STATE.

Definition MoonEpCombineV2WqeBatchCount (remainingWqes sqHead sqEntryCount : Z) : Z :=
  if (remainingWqes =? 0) || (sqEntryCount =? 0) then 0
  else
    let ringRemaining := (sqEntryCount - sqHead `mod` sqEntryCount)%u32 in
    let batchCount := if remainingWqes <? kMoonEpCombineV2WqeBatchCapacity then remainingWqes
                      else kMoonEpCombineV2WqeBatchCapacity in
    u32 (if ringRemaining <? batchCount then ringRemaining else batchCount).

Definition MoonEpCombineV2CqePollBatchCount (cqTail cqEntryCount batchCapacity : Z) : Z :=
  if (cqEntryCount =? 0) || (batchCapacity =? 0) then 0
  else
    let ringRemaining := (cqEntryCount - cqTail `mod` cqEntryCount)%u32 in
    if ringRemaining <? batchCapacity then ringRemaining else batchCapacity.

Definition MoonEpCombineV2CqeOwnerReady (cqTail cqEntryCount owner : Z) : bool :=
  if cqEntryCount =? 0 then false
  else
    let producerOwner := Z.land (cqTail / cqEntryCount) 1 in
    negb (Z.land owner 1 =? producerOwner).

Definition MoonEpCombineV2CompletedSqTail (sqTail outstanding cqeEntryIdx sqEntryCount : Z) : option Z :=
  if (sqEntryCount =? 0) || (outstanding =? 0) || (sqEntryCount <=? outstanding) then None
  else
    let completedRingTail := (cqeEntryIdx `mod` sqEntryCount + 1)%u32 mod sqEntryCount in
    let currentRingTail := sqTail mod sqEntryCount in
    let advance := (completedRingTail + sqEntryCount - currentRingTail)%u32 mod sqEntryCount in
    if (advance =? 0) || (outstanding <? advance) then None else Some (sqTail + advance)%u32.

(** [(result, completedSqTail, detail)]. *)
Definition MoonEpCombineV2AdvanceSingleCqe (cqTail cqEntryCount owner status subStatus sqTail
    submittedSqTail cqeEntryIdx sqEntryCount : Z) : MoonEpCombineV2SingleCqeResult * Z * Z :=
  if (cqEntryCount =? 0) || (sqEntryCount =? 0) then (SINGLE_CQE_INVALID_STATE, sqTail, 0)
  else if negb (MoonEpCombineV2CqeOwnerReady cqTail cqEntryCount owner)
  then (SINGLE_CQE_NO_COMPLETION, sqTail, 0)
  else if negb (status =? 0) || negb (subStatus =? 0)
  then (SINGLE_CQE_ERROR, sqTail, ((status .& 0xFF) ≪ 8 .| (subStatus .& 0xFF))%u32)
  else
    let outstanding := (submittedSqTail - sqTail)%u32 in
    match MoonEpCombineV2CompletedSqTail sqTail outstanding cqeEntryIdx sqEntryCount with
    | None => (SINGLE_CQE_INVALID_STATE, sqTail, 0)
    | Some completedSqTail =>
        (if completedSqTail =? submittedSqTail then SINGLE_CQE_TARGET_REACHED else SINGLE_CQE_PROGRESS,
         completedSqTail, 0)
    end.

Definition MoonEpCombineV2Qp1TokenCount (tokenCount sequencePhase : Z) : Z :=
  let firstQp1 := Z.land (3 - Z.land sequencePhase 3)%u32 3 in
  if tokenCount <=? firstQp1 then 0
  else (1 + (tokenCount - 1 - firstQp1) / kMoonEpCombineV2QpSplitPeriod)%u32.

Definition MoonEpCombineV2QpTokenCount (tokenCount sequencePhase qpIdx : Z) : Z :=
  let qp1Count := MoonEpCombineV2Qp1TokenCount tokenCount sequencePhase in
  if qpIdx =? 0 then (tokenCount - qp1Count)%u32 else if qpIdx =? 1 then qp1Count else 0.

Definition MoonEpCombineV2QpSelectedIndex (qpTokenIndex sequencePhase qpIdx : Z) : Z :=
  let firstQp1 := Z.land (3 - Z.land sequencePhase 3)%u32 3 in
  if qpIdx =? 1 then (firstQp1 + qpTokenIndex * kMoonEpCombineV2QpSplitPeriod)%u32
  else if negb (qpIdx =? 0) then UINT32_MAX
  else if qpTokenIndex <? firstQp1 then qpTokenIndex
  else
    let afterPrefix := (qpTokenIndex - firstQp1)%u32 in
    (firstQp1 + 1 + afterPrefix / 3 * kMoonEpCombineV2QpSplitPeriod + afterPrefix `mod` 3)%u32.

Example qp_split_example :
  (fun j => DispatchQpSelectedIndex j 2 0) <$> seqZ 0 (DispatchQpRouteCount 9 2 0) = [0; 2; 3; 4; 6; 7; 8] /\
  (fun j => DispatchQpSelectedIndex j 2 1) <$> seqZ 0 (DispatchQpRouteCount 9 2 1) = [1; 5].
Proof. done. Qed.
