(* ===== verification/WqeProps.v ===== *)
(** Properties of the work queue arithmetic of dispatch and combine. *)
From S2P Require Import Prelude DispatchSchedule WqeRing.

(** The combine helpers are those of the dispatch under other names. *)
Lemma combine_completed_tail : MoonEpCombineV2CompletedSqTail = DispatchCompletedSqTail.
Proof. reflexivity. Qed.

Lemma combine_selected_index : MoonEpCombineV2QpSelectedIndex = DispatchQpSelectedIndex.
Proof. reflexivity. Qed.

Lemma combine_route_count : MoonEpCombineV2QpTokenCount = DispatchQpRouteCount.
Proof. reflexivity. Qed.

Lemma combine_batch_count : MoonEpCombineV2WqeBatchCount = DispatchWqeBatchCount.
Proof. reflexivity. Qed.

(** ** Two queues *)

Definition first_qp1 (phase : Z) : Z := (3 - phase mod 4) mod 4.

Lemma first_qp1_eq phase : Z.land (3 - Z.land phase 3)%u32 3 = first_qp1 phase.
Proof.
  rewrite !land_3. unfold first_qp1. pose proof (Z.mod_pos_bound phase 4). by rewrite u32_small by lia.
Qed.

Lemma first_qp1_spec phase : 0 <= first_qp1 phase < 4 /\ (phase + first_qp1 phase) mod 4 = 3.
Proof. unfold first_qp1. div_lia. Qed.

Lemma qp1_count n phase : 0 <= n <= UINT32_MAX ->
  DispatchQp1RouteCount n phase = if n <=? first_qp1 phase then 0 else 1 + (n - 1 - first_qp1 phase) / 4.
Proof.
  intros Hn. unfold DispatchQp1RouteCount. rewrite first_qp1_eq. cbv zeta. unfold UINT32_MAX in Hn.
  pose proof (first_qp1_spec phase) as [Hf _]. destruct (Z.leb_spec n (first_qp1 phase)); [done|].
  change kDispatchQpSplitPeriod with 4. rewrite (u32_small (n - 1)), (u32_small (n - 1 - first_qp1 phase)) by lia.
  apply u32_small. div_lia.
Qed.

Lemma qp_count n phase qp : 0 <= n <= UINT32_MAX -> qp = 0 \/ qp = 1 ->
  DispatchQpRouteCount n phase qp =
  (let c := if n <=? first_qp1 phase then 0 else 1 + (n - 1 - first_qp1 phase) / 4 in
   if qp =? 0 then n - c else c).
Proof.
  intros Hn Hq. unfold DispatchQpRouteCount. rewrite qp1_count by done. cbv zeta. unfold UINT32_MAX in Hn.
  pose proof (first_qp1_spec phase) as [Hf _]. destruct Hq as [-> | ->]; [|done]. change (0 =? 0) with true. cbv iota.
  apply u32_small. case_if; b2p; div_lia.
Qed.

(** Where a queue finds its entries. *)
Lemma qp_selected n phase qp j : 0 <= n <= UINT32_MAX -> qp = 0 \/ qp = 1 ->
  0 <= j < DispatchQpRouteCount n phase qp ->
  let f := first_qp1 phase in
  DispatchQpSelectedIndex j phase qp =
    (if qp =? 1 then f + 4 * j else if j <? f then j else f + 1 + (j - f) / 3 * 4 + (j - f) mod 3) /\
  0 <= DispatchQpSelectedIndex j phase qp < n.
Proof.
  intros Hn Hq Hj f. rewrite qp_count in Hj by done. cbv zeta in Hj. fold f in Hj. unfold UINT32_MAX in Hn.
  unfold DispatchQpSelectedIndex. rewrite first_qp1_eq. fold f. cbv zeta. change kDispatchQpSplitPeriod with 4.
  pose proof (first_qp1_spec phase) as [Hf _]. fold f in Hf. destruct Hq as [-> | ->]; cbn [Z.eqb Pos.eqb negb] in *.
  - destruct (Z.ltb_spec j f); [split; [done|]; case_if_in Hj; b2p; div_lia|].
    assert (f + 1 + (j - f) / 3 * 4 + (j - f) mod 3 < n) as Hlt by (case_if_in Hj; b2p; div_lia).
    pose proof (Z.mod_pos_bound (j - f) 3). assert (0 <= (j - f) / 3) by (apply Z.div_pos; lia).
    assert (u32 (u32 (u32 (f + 1) + u32 (u32 (j - f) / 3 * 4)) + u32 (j - f) mod 3) =
      f + 1 + (j - f) / 3 * 4 + (j - f) mod 3) as ->; [|lia].
    rewrite (u32_small (j - f)) by div_lia. unwrap32. done.
  - case_if_in Hj; [lia|]. b2p. assert (f + 4 * j < n) by div_lia.
    assert (u32 (f + u32 (j * 4)) = f + 4 * j) as ->; [|lia]. unwrap32. lia.
Qed.

(** Dispatch and combine split a batch of routes over two queues without loss or repetition:
    queue 1 takes the routes whose sequence number is 3 modulo 4 and queue 0 the others, each
    queue enumerates its routes in increasing order with [QpSelectedIndex], and every route of
    the batch is found at exactly one position of one queue. *)
Theorem qp_split_partitions n phase : 0 <= n <= UINT32_MAX ->
  (forall qp j, qp = 0 \/ qp = 1 -> 0 <= j < DispatchQpRouteCount n phase qp ->
     let i := DispatchQpSelectedIndex j phase qp in
     0 <= i < n /\ (qp = 1 <-> (phase + i) mod 4 = 3) /\
     (j + 1 < DispatchQpRouteCount n phase qp -> i < DispatchQpSelectedIndex (j + 1) phase qp)) /\
  (forall i, 0 <= i < n -> exists qp j, (qp = 0 \/ qp = 1) /\ 0 <= j < DispatchQpRouteCount n phase qp /\
     DispatchQpSelectedIndex j phase qp = i) /\
  MoonEpCombineV2QpSelectedIndex = DispatchQpSelectedIndex /\
  MoonEpCombineV2QpTokenCount = DispatchQpRouteCount.
Proof.
  intros Hn. destruct (first_qp1_spec phase) as [Hf Hf3]. set (f := first_qp1 phase) in *.
  split; [|split; [|split; [apply combine_selected_index|apply combine_route_count]]].
  - intros qp j Hq Hj i. destruct (qp_selected n phase qp j Hn Hq Hj) as [Ei Hi]. fold f i in Ei, Hi.
    split; [done|]. split.
    + rewrite Ei. clear -Hq Hj Hf Hf3 Hn. destruct Hq as [-> | ->]; cbn [Z.eqb Pos.eqb]; [|div_lia].
      case_if; b2p; div_lia.
    + intros Hj1. destruct (qp_selected n phase qp (j + 1) Hn Hq ltac:(lia)) as [-> _]. rewrite Ei. fold f.
      clear -Hq Hf Hj. destruct Hq as [-> | ->]; cbn [Z.eqb Pos.eqb]; [|lia]. repeat case_if; b2p; div_lia.
  - intros i Hi. destruct (Z.eq_dec ((phase + i) mod 4) 3) as [E3|E3].
    + exists 1, ((i - f) / 4). assert ((i - f) mod 4 = 0 /\ f <= i) as [Hm Hge] by div_lia.
      assert (0 <= (i - f) / 4 < DispatchQpRouteCount n phase 1) as Hj.
      { rewrite qp_count by (done || by right). fold f. cbv zeta. cbn [Z.eqb Pos.eqb]. case_if; b2p; div_lia. }
      split; [by right|]. split; [done|].
      destruct (qp_selected n phase 1 _ Hn ltac:(by right) Hj) as [-> _]. fold f. cbn [Z.eqb Pos.eqb]. div_lia.
    + exists 0, (if i <? f then i else f + (i - f - 1) / 4 * 3 + (i - f - 1) mod 4).
      assert (0 <= (if i <? f then i else f + (i - f - 1) / 4 * 3 + (i - f - 1) mod 4) < DispatchQpRouteCount n phase 0) as Hj.
      { rewrite qp_count by (done || by left). fold f. cbv zeta. cbn [Z.eqb Pos.eqb]. repeat case_if; b2p; div_lia. }
      split; [by left|]. split; [done|].
      destruct (qp_selected n phase 0 _ Hn ltac:(by left) Hj) as [-> _]. fold f. cbn [Z.eqb Pos.eqb].
      destruct (Z.ltb_spec i f); [by rewrite (proj2 (Z.ltb_lt i f)) by lia|]. case_if; b2p; div_lia.
Qed.

Lemma qp_split_partitions_witness : exists qp j, (qp = 0 \/ qp = 1) /\
  0 <= j < DispatchQpRouteCount 9 2 qp /\ DispatchQpSelectedIndex j 2 qp = 5.
Proof. apply (qp_split_partitions 9 2); unfold UINT32_MAX; lia. Defined.

(** ** Completions *)

(** A ring size that divides the range of the counters: reduction commutes with wrap-around. *)
Definition ring_size (n : Z) : Prop := 0 < n /\ 2 * n <= 4294967296 /\ (n | 4294967296).

Lemma ring_u32 n x : ring_size n -> u32 x mod n = x mod n.
Proof.
  intros (Hn & _ & Hdiv). unfold u32. destruct Hdiv as [k Hk]. rewrite Hk, (Z.mul_comm k n).
  rewrite Z.rem_mul_r by nia. rewrite (Z.mul_comm n ((x / n) mod k)), Z.mod_add by lia. apply Z.mod_mod. lia.
Qed.

(** What a completion entry says about the send queue. *)
Lemma completed_tail_iff sqTail outstanding idx n t : ring_size n -> is_u32 sqTail -> is_u32 idx ->
  0 < outstanding < n ->
  DispatchCompletedSqTail sqTail outstanding idx n = Some t <->
  exists k, 0 <= k < outstanding /\ idx mod n = (sqTail + k) mod n /\ t = u32 (sqTail + k + 1).
Proof.
  intros (Hn & Hn2 & _) Hs Hi Ho. unfold DispatchCompletedSqTail, is_u32, UINT32_MAX in *.
  rewrite (proj2 (Z.eqb_neq n 0)), (proj2 (Z.eqb_neq outstanding 0)), (proj2 (Z.leb_gt n outstanding)) by lia.
  cbn [orb]. cbv zeta. pose proof (Z.mod_pos_bound idx n Hn) as Hi'. pose proof (Z.mod_pos_bound sqTail n Hn) as Hs'.
  rewrite (u32_small (idx mod n + 1)) by lia.
  pose proof (Z.mod_pos_bound (idx mod n + 1) n Hn) as Hc.
  rewrite (u32_small ((idx mod n + 1) mod n + n)), u32_small by lia.
  set (adv := ((idx mod n + 1) mod n + n - sqTail mod n) mod n).
  assert (adv = (idx + 1 - sqTail) mod n) as Eadv.
  { unfold adv. rewrite Zminus_mod_idemp_r, (Zplus_mod_idemp_l idx 1 n).
    replace ((idx + 1) mod n + n - sqTail) with ((idx + 1) mod n - sqTail + 1 * n) by ring.
    rewrite Z.mod_add by lia. apply Zminus_mod_idemp_l. }
  assert (0 <= adv < n) as Hadv by (unfold adv; by apply Z.mod_pos_bound). split.
  - intros E. case_if_in E; [done|]. injection E as <-. b2p. exists (adv - 1). split; [lia|]. split.
    + rewrite Eadv. replace (sqTail + ((idx + 1 - sqTail) mod n - 1)) with ((idx + 1 - sqTail) mod n + (sqTail - 1)) by ring.
      rewrite Zplus_mod_idemp_l. f_equal. ring.
    + f_equal. ring.
  - intros (k & Hk & Ek & ->). assert (adv = k + 1) as ->.
    { rewrite Eadv. replace (idx + 1 - sqTail) with (idx + (1 - sqTail)) by ring.
      rewrite <- Zplus_mod_idemp_l, Ek, Zplus_mod_idemp_l. replace (sqTail + k + (1 - sqTail)) with (k + 1) by ring.
      apply Z.mod_small. lia. }
    case_if; [exfalso; b2p; lia|]. by rewrite Z.add_assoc.
Qed.

Lemma owner_ready T N owner : ring_size N -> ring_size (2 * N) -> 0 <= T ->
  MoonEpCombineV2CqeOwnerReady (u32 T) N owner = negb (owner mod 2 =? (T / N) mod 2).
Proof.
  intros (HN & _ & _) H2 HT. unfold MoonEpCombineV2CqeOwnerReady. rewrite (proj2 (Z.eqb_neq N 0)) by lia.
  rewrite !land_1. do 2 f_equal. pose proof (ring_u32 (2 * N) T H2) as Hr.
  pose proof (u32_range T) as Hu. clear H2. generalize dependent (u32 T). intros x Hr Hx.
  assert (forall y, 0 <= y -> (y / N) mod 2 = (y mod (2 * N)) / N) as Hq.
  { intros y Hy. rewrite (Z.mul_comm 2 N), Z.rem_mul_r by lia. rewrite (Z.mul_comm N ((y / N) mod 2)), Z.div_add by lia.
    rewrite (Z.div_small (y mod N)) by (apply Z.mod_pos_bound; lia). lia. }
  rewrite !Hq by lia. by rewrite Hr.
Qed.

(** The send queue and the completion queue of a core, with unbounded counters: [sq_done] entries
    are known to be complete, [sq_posted] are posted, [cq_seen] completion entries are consumed. *)
Record Queue := { sq_done : Z; sq_posted : Z; cq_seen : Z }.

Definition queue_ok (n : Z) (q : Queue) : Prop :=
  0 <= sq_done q /\ sq_done q < sq_posted q /\ sq_posted q - sq_done q < n /\ 0 <= cq_seen q.

(** The driver's words of a queue. *)
Definition advance_words (n N : Z) (q : Queue) (owner status subStatus idx : Z) :=
  MoonEpCombineV2AdvanceSingleCqe (u32 (cq_seen q)) N owner status subStatus (u32 (sq_done q))
    (u32 (sq_posted q)) idx n.

(** C24: a completion entry advances the 32-bit tails of the driver exactly as the unbounded
    counters they stand for. With a send ring of [n] and a completion ring of [N] entries, both
    powers of two, fewer than [n] entries outstanding, an entry that carries the owner bit of the
    current pass, no error, and the ring index of a posted entry [done], moves the tail to
    [done + 1] and reports that the target is reached exactly when it is the last posted entry;
    an entry of the previous pass reports no completion and changes nothing; an entry with an
    error reports its status bytes and changes nothing. *)
Theorem cqe_advance_refines n N q done status subStatus : ring_size n -> ring_size N -> ring_size (2 * N) ->
  queue_ok n q -> sq_done q <= done < sq_posted q -> is_u32 status -> is_u32 subStatus ->
  let pass := (cq_seen q / N) mod 2 in
  advance_words n N q (1 - pass) 0 0 (done mod n) =
    (if done + 1 =? sq_posted q then SINGLE_CQE_TARGET_REACHED else SINGLE_CQE_PROGRESS, u32 (done + 1), 0) /\
  advance_words n N q pass status subStatus (done mod n) = (SINGLE_CQE_NO_COMPLETION, u32 (sq_done q), 0) /\
  (status <> 0 \/ subStatus <> 0 ->
   advance_words n N q (1 - pass) status subStatus (done mod n) =
   (SINGLE_CQE_ERROR, u32 (sq_done q), status mod 256 * 256 + subStatus mod 256)).
Proof.
  intros Hn HN HN2 (Hq1 & Hq2 & Hq3 & Hq4) Hd Hst Hsub pass. unfold advance_words, MoonEpCombineV2AdvanceSingleCqe.
  pose proof Hn as (Hn0 & Hn2 & _). pose proof HN as (HN0 & _).
  assert (0 <= pass < 2) as Hp by (unfold pass; apply Z.mod_pos_bound; lia).
  rewrite (proj2 (Z.eqb_neq N 0)), (proj2 (Z.eqb_neq n 0)) by lia. cbn [orb].
  rewrite !owner_ready by done. fold pass.
  assert (((1 - pass) mod 2 =? pass) = false) as -> by (apply Z.eqb_neq; div_lia).
  assert ((pass mod 2 =? pass) = true) as -> by (apply Z.eqb_eq; div_lia). cbn [negb].
  assert ((sq_posted q - sq_done q) = u32 (u32 (sq_posted q) - u32 (sq_done q))) as Eout.
  { unfold u32. rewrite <- Zminus_mod. symmetry. apply Z.mod_small. lia. }
  assert (forall x y, 0 <= x - y < n -> u32 x = u32 y <-> x = y) as Hinj.
  { intros x y Hxy. split; [|by intros ->]. unfold u32. intros E.
    assert ((x - y) mod 4294967296 = 0) as Hz by (rewrite Zminus_mod, E, Z.sub_diag; done).
    rewrite Z.mod_small in Hz by lia. lia. }
  split; [|split; [done|]].
  - cbn [Z.eqb orb negb]. rewrite <- Eout.
    pose proof (completed_tail_iff (u32 (sq_done q)) (sq_posted q - sq_done q) (done mod n) n (u32 (done + 1)) Hn) as Hiff.
    rewrite combine_completed_tail.
    assert (DispatchCompletedSqTail (u32 (sq_done q)) (sq_posted q - sq_done q) (done mod n) n = Some (u32 (done + 1))) as ->.
    { pose proof (u32_range (sq_done q)). pose proof (Z.mod_pos_bound done n Hn0).
      apply Hiff; [unfold is_u32, UINT32_MAX; lia|unfold is_u32, UINT32_MAX; lia|lia|].
      exists (done - sq_done q). split; [lia|]. split.
      - rewrite Z.mod_mod by lia. rewrite <- Zplus_mod_idemp_l, (ring_u32 n _ Hn), Zplus_mod_idemp_l. f_equal. ring.
      - unfold u32. rewrite <- Z.add_assoc, Zplus_mod_idemp_l. f_equal. ring. }
    assert ((u32 (done + 1) =? u32 (sq_posted q)) = (done + 1 =? sq_posted q)) as ->; [|done].
    apply eq_true_iff_eq. rewrite !Z.eqb_eq. split; intros E; [|by rewrite E].
    symmetry. apply (Hinj (sq_posted q) (done + 1)); [lia|by rewrite E].
  - intros He. assert (negb (status =? 0) || negb (subStatus =? 0) = true) as -> by (destruct He; lia).
    f_equal. change 0xFF with (Z.ones 8). rewrite !Z.land_ones by lia. change (2 ^ 8) with 256.
    pose proof (Z.mod_pos_bound status 256). pose proof (Z.mod_pos_bound subStatus 256).
    rewrite Z.lor_comm, u32_small by (rewrite Z.shiftl_mul_pow2; lia).
    rewrite lor_shiftl_add by lia. lia.
Qed.

Lemma cqe_advance_refines_witness :
  advance_words 64 32 {| sq_done := 4294967290; sq_posted := 4294967300; cq_seen := 40 |} 0 0 0
    (4294967299 mod 64) = (SINGLE_CQE_TARGET_REACHED, 4, 0).
Proof.
  assert (ring_size 64 /\ ring_size 32) as [H64 H32].
  { split; (split; [lia|]; split; [lia|]); [exists 67108864|exists 134217728]; reflexivity. }
  apply (cqe_advance_refines 64 32 {| sq_done := 4294967290; sq_posted := 4294967300; cq_seen := 40 |} 4294967299 0 0
    H64 H32 H64); unfold queue_ok, is_u32, UINT32_MAX; cbn; lia.
Defined.

(** a batch of work entries never wraps in the ring: [WqeBatchCount] posts at least one entry
    when there is something to post, never more than remain or than the batch capacity, and the
    entries of the batch lie in consecutive slots of the ring. *)
Theorem wqe_batch_contiguous remaining sqHead n : is_u64 remaining -> is_u32 sqHead -> 0 < n <= UINT32_MAX ->
  let count := DispatchWqeBatchCount remaining sqHead n in
  0 <= count <= kDispatchWqeBatchCapacity /\ count <= remaining /\ (0 < remaining -> 0 < count) /\
  sqHead mod n + count <= n /\ MoonEpCombineV2WqeBatchCount = DispatchWqeBatchCount.
Proof.
  intros Hr Hs Hn count. unfold count, DispatchWqeBatchCount, is_u64, is_u32, UINT32_MAX, UINT64_MAX in *.
  change kDispatchWqeBatchCapacity with 128. pose proof (Z.mod_pos_bound sqHead n ltac:(lia)).
  destruct (Z.eqb_spec remaining 0); cbn [orb]; [split_and!; try lia; apply combine_batch_count|].
  rewrite (proj2 (Z.eqb_neq n 0)) by lia. cbv zeta. rewrite (u32_small (n - sqHead mod n)) by lia.
  rewrite u32_small by (repeat case_if; b2p; lia).
  split_and!; try apply combine_batch_count; repeat case_if; b2p; lia.
Qed.

Lemma wqe_batch_contiguous_witness : 100 mod 64 + DispatchWqeBatchCount 300 100 64 <= 64.
Proof. apply (wqe_batch_contiguous 300 100 64); unfold is_u64, is_u32, UINT32_MAX, UINT64_MAX; lia. Defined.
