(* ===== verification/Layouts.v ===== *)
(** Checked 64-bit arithmetic and region placement shared by the host layouts
    (src/src/moonep/common/moonep_stage_layout.h, and the helpers of the same text in
    ep_plan_layout.cpp, dispatch/urma/host/dispatch_layout.cpp, combine_v2_layout.cpp,
    reduce_grad_layout.cpp and planner_layout.cpp), the validation of tensor and plan descriptors
    (src/src/include/tilexr_moonep.h), and the theory of packed regions used by every layout
    theorem. A [bool] function with an out parameter becomes an option; a pointer argument that
    may be null is an option too. *)
From S2P Require Import Prelude.

(** ** Checked arithmetic *)

Definition CheckedAdd (lhs rhs : Z) : option Z :=
  if (UINT64_MAX - lhs)%u64 <? rhs then None else Some (lhs + rhs)%u64.

Definition CheckedMul (lhs rhs : Z) : option Z :=
  if negb (lhs =? 0) && (UINT64_MAX / lhs <? rhs) then None else Some (lhs * rhs)%u64.

(** The saturating variant: [UINT64_MAX] reports an overflow. *)
Definition AlignUp (value alignment : Z) : Z :=
  if (alignment =? 0) || ((UINT64_MAX - (alignment - 1)%u64)%u64 <? value) then UINT64_MAX
  else ((((value + alignment)%u64 - 1)%u64 / alignment) * alignment)%u64.

(** Offset of the new region and the cursor after it. *)
Definition AppendRegion (bytes alignment cursor : Z) : option (Z * Z) :=
  let aligned := AlignUp cursor alignment in
  if aligned =? UINT64_MAX then None
  else match CheckedAdd aligned bytes with
       | None => None
       | Some endp => Some (aligned, endp)
       end.

(** ** Descriptors *)

Definition TILEXR_MOONEP_ABI_VERSION_V1 : Z := 1.
Definition TILEXR_MOONEP_MAX_TENSOR_RANK : Z := 4.
Definition TILEXR_MOONEP_FLAG_NONE : Z := 0.
Definition TILEXR_MOONEP_FLAG_BUILD_DEDUP : Z := 1.
Definition TILEXR_MOONEP_FLAG_SKIP_INTER_RANK_SYNC : Z := 2.
Definition TILEXR_MOONEP_DTYPE_FLOAT16 : Z := 3.
Definition TILEXR_MOONEP_DTYPE_FLOAT32 : Z := 4.
Definition TILEXR_MOONEP_DTYPE_BFLOAT16 : Z := 11.
Definition kMoonEpStageAlignment : Z := 32.
Definition kMoonEpStageAivBlockCount : Z := 1.
Definition kMoonEpDispatchWindowDrainedStep : Z := 103.

(** [data] is the address, 0 for a null pointer; [shape] has four entries. *)
Record TileXRMoonEpTensorV1 := {
  t_structSize : Z; t_abiVersion : Z; t_data : Z; elementCount : Z; dtype : Z; t_rank : Z;
  shape : Z -> Z
}.

Definition sizeof_tensor : Z := 64.

(** One iteration of the loop over the dimensions. *)
Definition tensor_dim (t : TileXRMoonEpTensorV1) (dim : Z) (elements : Z) : Z + bool :=
  if dim <? t_rank t then
    if shape t dim <=? 0 then inr false
    else match CheckedMul elements (shape t dim) with None => inr false | Some e => inl e end
  else if negb (shape t dim =? 0) then inr false else inl elements.

Definition TensorHeaderValid (tensor : option TileXRMoonEpTensorV1) : bool :=
  match tensor with
  | None => false
  | Some t =>
      if (t_structSize t <? sizeof_tensor) || negb (t_abiVersion t =? TILEXR_MOONEP_ABI_VERSION_V1) ||
         (t_data t =? 0) || (t_rank t =? 0) || (TILEXR_MOONEP_MAX_TENSOR_RANK <? t_rank t) ||
         (elementCount t =? 0)
      then false
      else match loop_ret (tensor_dim t) (seqZ 0 TILEXR_MOONEP_MAX_TENSOR_RANK) 1 with
           | inr b => b
           | inl elements => elements =? elementCount t
           end
  end.

(** [planPointers]: all of [dst], [expertsToCopy], [zeroFillRanges], [remoteStats],
    [dupGroups], [dupLoffs], [dupCounts] and [status] are set. *)
Record TileXRMoonEpPlanV1 := {
  p_structSize : Z; p_abiVersion : Z; p_n : Z; p_r : Z; p_e : Z; p_b : Z; p_nvS : Z; p_k : Z;
  planPointers : bool
}.

Definition sizeof_plan : Z := 120.

(** The number of tokens [s] of a valid plan. *)
Definition PlanValid (commRank commWorld : Z) (plan : option TileXRMoonEpPlanV1) : option Z :=
  match plan with
  | None => None
  | Some p =>
      if (p_structSize p <? sizeof_plan) || negb (p_abiVersion p =? TILEXR_MOONEP_ABI_VERSION_V1) ||
         (commWorld <=? 0) || (128 <? commWorld) || (commRank <? 0) || (commWorld <=? commRank) ||
         (p_n p <=? 0) || negb (p_r p =? commWorld) || (p_e p <=? 0) || (p_b p <=? 0) ||
         (p_nvS p <? p_n p) || (p_k p <=? 0) || (32 <? p_k p) || negb (p_n p mod p_k p =? 0) ||
         negb (p_e p mod p_r p =? 0) || (p_e p / p_r p <? p_b p) || (INT64_MAX - p_b p <? p_e p) ||
         negb (planPointers p)
      then None
      else match CheckedMul (p_r p) (p_nvS p) with
           | None => None
           | Some encodedCapacity =>
               if INT32_MAX + 1 <? encodedCapacity then None
               else let s := p_n p / p_k p in if 0 <? s then Some s else None
           end
  end.

(** ** What the checked operations guarantee *)

Lemma CheckedAdd_spec a b : is_u64 a -> is_u64 b ->
  CheckedAdd a b = if a + b <=? UINT64_MAX then Some (a + b) else None.
Proof.
  unfold CheckedAdd, is_u64, UINT64_MAX. intros Ha Hb.
  rewrite (u64_small (_ - _)) by lia.
  destruct (Z.ltb_spec (18446744073709551615 - a) b), (Z.leb_spec (a + b) 18446744073709551615);
    try lia; [done|]. by rewrite u64_small by lia.
Qed.

Lemma CheckedMul_spec a b : is_u64 a -> is_u64 b ->
  CheckedMul a b = if a * b <=? UINT64_MAX then Some (a * b) else None.
Proof.
  unfold CheckedMul, is_u64, UINT64_MAX. intros Ha Hb.
  destruct (Z.eqb_spec a 0) as [->|Hn]; cbn [negb andb]; [by rewrite u64_small by lia|].
  destruct (Z.ltb_spec (18446744073709551615 / a) b) as [L|L],
    (Z.leb_spec (a * b) 18446744073709551615) as [M|M]; try done.
  - exfalso. pose proof (Z.div_le_lower_bound 18446744073709551615 a b). lia.
  - by rewrite u64_small by nia.
  - exfalso. pose proof (Z.mul_div_le 18446744073709551615 a). nia.
Qed.

Lemma CheckedAdd_Some a b c : is_u64 a -> is_u64 b -> CheckedAdd a b = Some c ->
  c = a + b /\ is_u64 c.
Proof.
  intros Ha Hb. rewrite CheckedAdd_spec by done. case_if; [|done]. intros [= <-].
  unfold is_u64 in *. lia.
Qed.

Lemma CheckedMul_Some a b c : is_u64 a -> is_u64 b -> CheckedMul a b = Some c ->
  c = a * b /\ is_u64 c.
Proof.
  intros Ha Hb. rewrite CheckedMul_spec by done. case_if; [|done]. intros [= <-].
  unfold is_u64 in *. nia.
Qed.

(** [align_to a v] is the least multiple of [a] from [v] on. *)
Definition align_to (a v : Z) : Z := (v + a - 1) / a * a.

Lemma align_to_spec a v : 0 < a ->
  v <= align_to a v < v + a /\ align_to a v mod a = 0.
Proof.
  intros Ha. unfold align_to. rewrite Z.mod_mul by lia.
  pose proof (Z.mul_div_le (v + a - 1) a). pose proof (Z.mul_succ_div_gt (v + a - 1) a). lia.
Qed.

Lemma align_to_le a v w : 0 < a -> v <= w -> w mod a = 0 -> align_to a v <= w.
Proof.
  intros Ha Hv Hw. unfold align_to.
  apply Z.mod_divide in Hw as [q ->]; [|lia]. apply Z.mul_le_mono_nonneg_r; [lia|].
  apply Z.lt_succ_r, Z.div_lt_upper_bound; nia.
Qed.

Lemma align_to_mono a v w : 0 < a -> v <= w -> align_to a v <= align_to a w.
Proof.
  intros Ha Hv. pose proof (align_to_spec a w Ha). apply align_to_le; lia.
Qed.

Lemma align_to_fix a v : 0 < a -> v mod a = 0 -> align_to a v = v.
Proof.
  intros Ha Hv. pose proof (align_to_spec a v Ha). pose proof (align_to_le a v v Ha). lia.
Qed.

(** Any multiple of [a] in the right place is the aligned value. *)
Lemma align_to_unique a v w : 0 < a -> w mod a = 0 -> v <= w < v + a -> align_to a v = w.
Proof.
  intros Ha Hw Hv. pose proof (align_to_spec a v Ha) as [H1 H2].
  pose proof (align_to_le a v w Ha ltac:(lia) Hw). apply Z.mod_divide in Hw as [q Hq]; [|lia].
  apply Z.mod_divide in H2 as [p Hp]; [|lia]. assert (q = p) by nia. congruence.
Qed.

Lemma AlignUp_spec v a : is_u64 v -> 0 < a <= UINT64_MAX ->
  AlignUp v a = if v + (a - 1) <=? UINT64_MAX then align_to a v else UINT64_MAX.
Proof.
  unfold AlignUp, is_u64, UINT64_MAX. intros Hv Ha.
  destruct (Z.eqb_spec a 0); [lia|]. cbn [orb].
  rewrite (u64_small (a - 1)), (u64_small (_ - (a - 1))) by lia.
  destruct (Z.ltb_spec (18446744073709551615 - (a - 1)) v),
    (Z.leb_spec (v + (a - 1)) 18446744073709551615); try lia.
  assert (u64 (u64 (v + a) - 1) = v + a - 1) as ->.
  { destruct (Z.eq_dec (v + a) 18446744073709551616) as [->|]; [reflexivity|].
    rewrite (u64_small (v + a)) by lia. rewrite u64_small; lia. }
  pose proof (Z.mul_div_le (v + a - 1) a). pose proof (Z.div_pos (v + a - 1) a).
  rewrite u64_small by nia. done.
Qed.

Lemma AppendRegion_Some bytes a cur off nxt :
  is_u64 bytes -> is_u64 cur -> 0 < a <= UINT64_MAX ->
  AppendRegion bytes a cur = Some (off, nxt) ->
  off = align_to a cur /\ nxt = off + bytes /\ is_u64 off /\ is_u64 nxt.
Proof.
  intros Hb Hc Ha. unfold AppendRegion. rewrite AlignUp_spec by done.
  case_if; cbn [Z.eqb]; [|by rewrite Z.eqb_refl].
  pose proof (align_to_spec a cur (proj1 Ha)).
  case_if; [done|]. b2p. assert (is_u64 (align_to a cur)) by (unfold is_u64, UINT64_MAX in *; lia).
  destruct (CheckedAdd _ _) as [e|] eqn:EA; [|done]. intros [= <- <-].
  apply CheckedAdd_Some in EA as [-> ?]; done.
Qed.

(** It succeeds whenever the end of the region is far from the top of the address range. *)
Lemma AppendRegion_ok bytes a cur : 0 <= bytes -> 0 <= cur -> 0 < a ->
  cur + a + bytes <= UINT64_MAX ->
  AppendRegion bytes a cur = Some (align_to a cur, align_to a cur + bytes).
Proof.
  intros Hb Hc Ha Hs. unfold AppendRegion.
  pose proof (align_to_spec a cur Ha). unfold UINT64_MAX in *.
  rewrite AlignUp_spec by (unfold is_u64, UINT64_MAX; lia). unfold UINT64_MAX.
  destruct (Z.leb_spec (cur + (a - 1)) 18446744073709551615); [|lia].
  destruct (Z.eqb_spec (align_to a cur) 18446744073709551615); [lia|].
  rewrite CheckedAdd_spec by (unfold is_u64, UINT64_MAX; lia). unfold UINT64_MAX.
  destruct (Z.leb_spec (align_to a cur + bytes) 18446744073709551615); [done|lia].
Qed.

(** One step of an option computation, by rewriting. *)
Lemma bind_Some {A B : Type} (x : A) (f : A -> option B) : Some x ≫= f = f x.
Proof. done. Qed.

(** ** Packed regions *)

(** Regions [(offset, bytes)] placed one after the other from [lo], each at a multiple of its
    alignment, ending at or before [hi]. *)
Fixpoint packed (a lo : Z) (l : list (Z * Z)) (hi : Z) : Prop :=
  match l with
  | [] => lo <= hi
  | (off, bytes) :: t => lo <= off /\ off mod a = 0 /\ 0 <= bytes /\ packed a (off + bytes) t hi
  end.

(** Every region is aligned and inside [[lo, hi)], and no two overlap. *)
Definition disjoint_regions (a lo : Z) (l : list (Z * Z)) (hi : Z) : Prop :=
  (forall i r, l !! i = Some r -> r.1 mod a = 0 /\ lo <= r.1 /\ 0 <= r.2 /\ r.1 + r.2 <= hi) /\
  (forall i j r r', (i < j)%nat -> l !! i = Some r -> l !! j = Some r' -> r.1 + r.2 <= r'.1).

Lemma packed_le a l : forall lo hi, packed a lo l hi -> lo <= hi.
Proof.
  induction l as [|[o b] l IH]; intros lo hi; cbn; [done|]. intros (? & _ & ? & H). apply IH in H. lia.
Qed.

Lemma packed_disjoint a l lo hi : packed a lo l hi -> disjoint_regions a lo l hi.
Proof.
  revert lo. induction l as [|[o b] l IH]; intros lo; cbn.
  - intros _. split; intros *; [|intros ?]; rewrite lookup_nil; done.
  - intros (H1 & H2 & H3 & H). pose proof (packed_le _ _ _ _ H) as Hle.
    destruct (IH _ H) as [HA HB]. split.
    + intros [|i] r Hr; cbn in Hr; [by injection Hr as <-|].
      apply HA in Hr. destruct Hr as (? & ? & ? & ?). lia.
    + intros [|i] [|j] r r' Hij Hr Hr'; cbn in Hr, Hr'; [lia| |lia|].
      * injection Hr as <-. apply HA in Hr' as (_ & ? & _ & _). done.
      * by apply (HB i j); [lia|..].
Qed.

(** Shifting all regions by a multiple of the alignment keeps them packed. *)
Lemma packed_shift a d l : forall lo hi, 0 < a -> d mod a = 0 -> packed a lo l hi ->
  packed a (lo + d) ((fun r => (r.1 + d, r.2)) <$> l) (hi + d).
Proof.
  induction l as [|[o b] l IH]; intros lo hi Ha Hd; cbn; [lia|].
  intros (H1 & H2 & H3 & H). split_and!; [lia| |done|].
  - rewrite Z.add_mod, H2, Hd by lia. apply Z.mod_0_l. lia.
  - replace (o + d + b) with (o + b + d) by lia. by apply IH.
Qed.

Lemma packed_app a l1 l2 m : forall lo hi, packed a lo l1 m -> packed a m l2 hi ->
  packed a lo (l1 ++ l2) hi.
Proof.
  induction l1 as [|[o b] l1 IH]; intros lo hi; cbn.
  - intros ? H. destruct l2 as [|[o b] l2]; cbn in *; [lia|]. destruct H as (? & ? & ? & ?).
    split_and!; try done; lia.
  - intros (? & ? & ? & ?) ?. split_and!; try done. by apply IH.
Qed.

Lemma packed_weaken a l : forall lo lo' hi hi', lo' <= lo -> hi <= hi' ->
  packed a lo l hi -> packed a lo' l hi'.
Proof.
  induction l as [|[o b] l IH]; intros lo lo' hi hi' ? ?; cbn; [lia|].
  intros (? & ? & ? & ?). split_and!; try done; [lia|]. by apply (IH (o + b) (o + b) hi hi'); [lia|..].
Qed.

(** A region appended at the cursor. *)
Lemma packed_cons a cur bytes l hi : 0 < a -> 0 <= bytes ->
  packed a (align_to a cur + bytes) l hi -> packed a cur ((align_to a cur, bytes) :: l) hi.
Proof. intros Ha Hb H. cbn. pose proof (align_to_spec a cur Ha). split_and!; try done; lia. Qed.

(** Reading off a valid tensor. *)
Lemma TensorHeaderValid_shape t d : TensorHeaderValid (Some t) = true -> 0 <= d < t_rank t -> 0 < shape t d.
Proof.
  cbn [TensorHeaderValid]. intros H Hd. case_if_in H; [done|]. b2p.
  unfold TILEXR_MOONEP_MAX_TENSOR_RANK in *.
  destruct (Z.ltb_spec 0 (shape t d)) as [|L]; [done|]. exfalso.
  change (seqZ 0 4) with [0; 1; 2; 3] in H. cbn [loop_ret] in H.
  assert (d = 0 \/ d = 1 \/ d = 2 \/ d = 3) as Hc by lia. unfold tensor_dim in H.
  assert ((shape t d <=? 0) = true) as L' by lia.
  destruct Hc as [-> | [-> | [-> | ->]]];
    repeat (first [ rewrite L' in H | case_if_in H | destruct (CheckedMul _ _) in H ]; b2p; try done; try lia).
Qed.

(** ** Reference placement *)

(** Regions of the given sizes placed from [cur] on, each at the next multiple of [a]. *)
Fixpoint place (a cur : Z) (sizes : list Z) : list (Z * Z) :=
  match sizes with
  | [] => []
  | b :: t => (align_to a cur, b) :: place a (align_to a cur + b) t
  end.

Fixpoint place_end (a cur : Z) (sizes : list Z) : Z :=
  match sizes with [] => cur | b :: t => place_end a (align_to a cur + b) t end.

Lemma place_cons a cur b t : place a cur (b :: t) = (align_to a cur, b) :: place a (align_to a cur + b) t.
Proof. done. Qed.

Lemma place_end_cons a cur b t : place_end a cur (b :: t) = place_end a (align_to a cur + b) t.
Proof. done. Qed.

Lemma place_nil a cur : place a cur [] = [].
Proof. done. Qed.

Lemma place_end_nil a cur : place_end a cur [] = cur.
Proof. done. Qed.

(** Unfold a placement along recorded cursors. *)
Ltac place_eq :=
  repeat first
    [ rewrite place_cons
    | rewrite place_end_cons
    | rewrite place_nil
    | rewrite place_end_nil
    | match goal with E : ?c = align_to ?a ?d + ?n |- context [align_to ?a ?d + ?n] => rewrite <- E end ].

Lemma place_packed a sizes hi : 0 < a -> Forall (Z.le 0) sizes -> forall cur,
  place_end a cur sizes <= hi -> packed a cur (place a cur sizes) hi.
Proof.
  intros Ha H. induction H as [|b t Hb _ IH]; intros cur; cbn [place place_end]; [done|].
  intros Hh. apply packed_cons; [done..|]. by apply IH.
Qed.

Lemma place_end_le a sizes : 0 < a -> Forall (Z.le 0) sizes -> forall cur,
  cur <= place_end a cur sizes.
Proof.
  intros Ha H. induction H as [|b t Hb _ IH]; intros cur; cbn [place_end]; [lia|].
  pose proof (IH (align_to a cur + b)). pose proof (align_to_spec a cur Ha). lia.
Qed.

Lemma place_end_mono a : 0 < a -> forall sizes sizes', Forall2 Z.le sizes sizes' -> forall cur cur',
  cur <= cur' -> place_end a cur sizes <= place_end a cur' sizes'.
Proof.
  intros Ha sizes sizes' H. induction H as [|b b' t t' Hb _ IH]; intros cur cur' Hc; cbn [place_end]; [done|].
  apply IH. pose proof (align_to_mono a cur cur' Ha Hc). lia.
Qed.

(** Rounding up with a mask, as device code does. *)
Lemma mask_align v k : 0 <= k < 64 -> 0 <= v -> v + 2 ^ k <= 18446744073709551616 ->
  Z.land (v + 2 ^ k - 1) (Z.lxor UINT64_MAX (2 ^ k - 1)) = align_to (2 ^ k) v.
Proof.
  intros Hk Hv Hb. pose proof (Z.pow_pos_nonneg 2 k ltac:(lia) ltac:(lia)) as Hp.
  assert (Z.land (v + 2 ^ k - 1) (Z.lxor UINT64_MAX (2 ^ k - 1)) = Z.ldiff (v + 2 ^ k - 1) (Z.ones k)) as ->.
  { change UINT64_MAX with (Z.ones 64).
    replace (2 ^ k - 1) with (Z.ones k) by (rewrite Z.ones_equiv; lia).
    replace (v + Z.ones k) with (v + 2 ^ k - 1) by (rewrite Z.ones_equiv; lia).
    set (x := v + 2 ^ k - 1) in *.
    apply Z.bits_inj'. intros n Hn.
    rewrite Z.land_spec, Z.lxor_spec, Z.ldiff_spec.
    destruct (Z.lt_ge_cases n 64).
    - rewrite (Z.ones_spec_low 64) by lia. cbn [xorb]. by destruct (Z.testbit (Z.ones k) n).
    - rewrite (Z.ones_spec_high 64), (Z.ones_spec_high k) by lia. cbn [xorb negb].
      assert (0 <= x < 2 ^ 64) by (subst x; change (2 ^ 64) with 18446744073709551616; lia).
      replace (Z.testbit x n) with false; [done|]. symmetry.
      apply Z.testbit_false; [lia|]. rewrite Z.div_small; [done|].
      split; [lia|]. apply Z.lt_le_trans with (2 ^ 64); [lia|]. apply Z.pow_le_mono_r; lia. }
  rewrite Z.ldiff_ones_r, Z.shiftl_mul_pow2, Z.shiftr_div_pow2 by lia. done.
Qed.

#[global] Opaque place place_end align_to.
