(* ===== verification/PlanWorkspace.v ===== *)
(** Workspace of the balancing planner: src/src/moonep/planner_v2/common/ep_plan_layout.cpp (local
    tables and registered metadata) and ep_plan_peer_mailbox.h (the mailbox rows peers write
    into). A layout function that returns [TILEXR_ERROR_PARA_CHECK_FAIL] is [None]. *)
From S2P Require Import Prelude Layouts PlanTypes PlanAlgorithm CombineWire.

(** ** ep_plan_layout.cpp *)

Definition kPlanMaxLogicalRankSize : Z := 512.
Definition kPlanWorkspaceAlignment : Z := 64.
Definition kPlanHeaderStrideBytes : Z := 128.
Definition kPlanStatusStrideBytes : Z := 64.
Definition kPlanBarrierSlotBytes : Z := 64.
Definition kPlanMaxUdmaTransferBytes : Z := 4294967295.
Definition sizeof_int32 : Z := 4.
Definition sizeof_TokenSegmentMove : Z := 24.
Definition sizeof_PlanEpochState : Z := 32.

Record PlanRegion := { offset : Z; bytes : Z }.

Record PlanLocalWorkspaceLayout := {
  l_expertCount : PlanRegion; l_rankLoad : PlanRegion; l_remainingTpe : PlanRegion;
  l_alloc : PlanRegion; l_remoteExpertSet : PlanRegion; l_srcExpertCursor : PlanRegion;
  l_dstExpertCursor : PlanRegion; l_expertPhysicalBase : PlanRegion;
  l_localExpertOrdinal : PlanRegion; l_tokenSegments : PlanRegion;
  l_routedPairTokens : PlanRegion; l_scratchStatus : PlanRegion; l_totalBytes : Z
}.

Record PlanRegisteredMetaLayout := {
  m_planCallHeaders : PlanRegion; m_tpe : PlanRegion; m_globalRankIds : PlanRegion;
  m_epochState : PlanRegion; m_affinityOrder : PlanRegion; m_localStatusByRank : PlanRegion;
  m_barrierFlags : PlanRegion; m_totalBytes : Z
}.

Record PlanWorkspaceLayout := { local : PlanLocalWorkspaceLayout; registeredMeta : PlanRegisteredMetaLayout }.

(** [AlignUp] of this file rounds up by the remainder. *)
Definition PlanAlignUp (value alignment : Z) : option Z :=
  if alignment =? 0 then None
  else let remainder := value mod alignment in
       if remainder =? 0 then Some value else CheckedAdd value (alignment - remainder).

Definition AddRegion (bytes cursor : Z) : option (PlanRegion * Z) :=
  offset ← PlanAlignUp cursor kPlanWorkspaceAlignment;
  endp ← CheckedAdd offset bytes;
  Some ({| offset := offset; bytes := bytes |}, endp).

Definition CountBytes (count elementBytes : Z) : option Z := CheckedMul count elementBytes.

Definition ToUnsigned (value : Z) : option Z := if value <=? 0 then None else Some value.

Definition FinishLayout (cursor : Z) : option Z := PlanAlignUp cursor kPlanWorkspaceAlignment.

(** [TILEXR_PLAN_ADD_LOCAL] and [TILEXR_PLAN_ADD_META]. *)
Definition add_region (count elementBytes cursor : Z) : option (PlanRegion * Z) :=
  bytes ← CountBytes count elementBytes; AddRegion bytes cursor.

Definition build_local (r e re rb rr statusCount tokenCount limit : Z) : option PlanLocalWorkspaceLayout :=
  '(expertCount, cursor) ← add_region e sizeof_int32 0;
  '(rankLoad, cursor) ← add_region r sizeof_int32 cursor;
  '(remainingTpe, cursor) ← add_region re sizeof_int32 cursor;
  '(alloc, cursor) ← add_region re sizeof_int32 cursor;
  '(remoteExpertSet, cursor) ← add_region rb sizeof_int32 cursor;
  '(srcExpertCursor, cursor) ← add_region re sizeof_int32 cursor;
  '(dstExpertCursor, cursor) ← add_region re sizeof_int32 cursor;
  '(expertPhysicalBase, cursor) ← add_region re sizeof_int32 cursor;
  '(localExpertOrdinal, cursor) ← add_region tokenCount sizeof_int32 cursor;
  '(tokenSegments, cursor) ← add_region tokenCount sizeof_TokenSegmentMove cursor;
  '(routedPairTokens, cursor) ←
    (if negb (limit =? 0) then add_region rr sizeof_int32 cursor
     else Some ({| offset := 0; bytes := 0 |}, cursor));
  '(scratchStatus, cursor) ← add_region (statusCount + (r * 8))%u64 sizeof_int32 cursor;
  totalBytes ← FinishLayout cursor;
  Some {| l_expertCount := expertCount; l_rankLoad := rankLoad; l_remainingTpe := remainingTpe;
          l_alloc := alloc; l_remoteExpertSet := remoteExpertSet;
          l_srcExpertCursor := srcExpertCursor; l_dstExpertCursor := dstExpertCursor;
          l_expertPhysicalBase := expertPhysicalBase; l_localExpertOrdinal := localExpertOrdinal;
          l_tokenSegments := tokenSegments; l_routedPairTokens := routedPairTokens;
          l_scratchStatus := scratchStatus; l_totalBytes := totalBytes |}.

Definition build_meta (r re rr : Z) : option PlanRegisteredMetaLayout :=
  '(planCallHeaders, cursor) ← add_region (r * kPlanHeaderStrideBytes)%u64 1 0;
  '(tpe, cursor) ← add_region re sizeof_int32 cursor;
  '(globalRankIds, cursor) ← add_region r sizeof_int32 cursor;
  '(epochState, cursor) ← add_region 1 sizeof_PlanEpochState cursor;
  '(affinityOrder, cursor) ← add_region rr sizeof_int32 cursor;
  '(localStatusByRank, cursor) ← add_region (r * kPlanStatusStrideBytes)%u64 1 cursor;
  '(barrierFlags, cursor) ← add_region ((r * 3) * kPlanBarrierSlotBytes)%u64 1 cursor;
  totalBytes ← FinishLayout cursor;
  Some {| m_planCallHeaders := planCallHeaders; m_tpe := tpe; m_globalRankIds := globalRankIds;
          m_epochState := epochState; m_affinityOrder := affinityOrder;
          m_localStatusByRank := localStatusByRank; m_barrierFlags := barrierFlags;
          m_totalBytes := totalBytes |}.

Definition BuildPlanWorkspaceLayout (rankSize s topK expertNum : Z) (config : TileXRMoonEPPlanConfig)
    : option PlanWorkspaceLayout :=
  if (rankSize <=? 0) || (kPlanMaxLogicalRankSize <? rankSize) || (s <=? 0) || (topK <=? 0) ||
     (32 <? topK) || (expertNum <=? 0) || negb (expertNum mod rankSize =? 0) ||
     (kPlanMaxUdmaTransferBytes <? (expertNum * sizeof_int32)%u64) ||
     (prefetchSlots config <=? 0) || (INT32_MAX <? prefetchSlots config) ||
     (tokenPadding config <=? 0) || negb (cardsPerServer config =? kPlanCardsPerServer) ||
     negb (cardsPerCabinet config =? kPlanCardsPerCabinet) ||
     negb (crossCandidateCount config =? kPlanCrossCandidateCount) ||
     (rankTokenCapacity config <=? 0) || (nvS config <=? 0) || (tokenRouteLimitPerPair config <? 0)
  then None
  else
    r ← ToUnsigned rankSize; e ← ToUnsigned expertNum; b ← ToUnsigned (prefetchSlots config);
    nvSU ← ToUnsigned (nvS config); sk ← CheckedMul s topK;
    if (INT64_MAX <? sk) || negb (rankTokenCapacity config =? sk) ||
       (nvS config <? rankTokenCapacity config) ||
       (rankTokenCapacity config <? tokenRouteLimitPerPair config)
    then None
    else
      rankSlots ← CheckedMul r nvSU;
      if INT32_MAX <? rankSlots then None
      else
        re ← CheckedMul r e; rb ← CheckedMul r b; rr ← CheckedMul r r;
        statusCount ← CheckedMul r kPlanStatusWords;
        l ← build_local r e re rb rr statusCount sk (tokenRouteLimitPerPair config);
        m ← build_meta r re rr;
        Some {| local := l; registeredMeta := m |}.

Definition ValidatePlanWorkspaceBytes (layout : PlanWorkspaceLayout)
    (localWorkspaceBytes registeredMetaBytes : Z) : bool :=
  negb ((localWorkspaceBytes <? l_totalBytes (local layout)) ||
        (registeredMetaBytes <? m_totalBytes (registeredMeta layout))).

(** Past the null and alignment checks of the pointers, the two sizes are returned together. *)
Definition TileXRMoeEpPlanV2GetWorkspaceSize (rankSize s topK expertNum : Z)
    (config : TileXRMoonEPPlanConfig) : option (Z * Z) :=
  layout ← BuildPlanWorkspaceLayout rankSize s topK expertNum config;
  Some (l_totalBytes (local layout), m_totalBytes (registeredMeta layout)).

(** ** ep_plan_peer_mailbox.h *)

Definition kPlanPeerMailboxTransferBytes : Z := 512.
Definition kPlanPeerMailboxRowBytes : Z := IPC_BUFF_MAX_SIZE / TILEXR_MAX_RANK_SIZE.

Record PlanPeerMailboxLayout := {
  mb_header : Z; mb_globalRankId : Z; mb_status : Z; mb_tpe : Z; mb_inputBytes : Z;
  mb_rowBytes : Z; mb_totalBytes : Z
}.

Definition AlignPlanPeerMailbox (value alignment : Z) : Z :=
  Z.land ((value + alignment)%u64 - 1)%u64 (Z.lxor UINT64_MAX (alignment - 1)%u64).

Definition BuildPlanPeerMailboxLayout (rankSize expertNum : Z) : PlanPeerMailboxLayout :=
  let header := AlignPlanPeerMailbox 0 kPlanWorkspaceAlignment in
  let globalRankId := AlignPlanPeerMailbox (header + kPlanHeaderStrideBytes)%u64 kPlanWorkspaceAlignment in
  let status := AlignPlanPeerMailbox (globalRankId + sizeof_int32)%u64 kPlanWorkspaceAlignment in
  let tpe := AlignPlanPeerMailbox (status + kPlanStatusStrideBytes)%u64 kPlanWorkspaceAlignment in
  let rowBytes := kPlanPeerMailboxRowBytes in
  let expertCapacity := (rowBytes - tpe)%u64 / sizeof_int32 in
  {| mb_header := header; mb_globalRankId := globalRankId; mb_status := status; mb_tpe := tpe;
     mb_inputBytes :=
       (if (0 <? expertNum) && (expertNum <=? expertCapacity)
        then AlignPlanPeerMailbox (tpe + expertNum * sizeof_int32)%u64 kPlanPeerMailboxTransferBytes
        else UINT64_MAX);
     mb_rowBytes := rowBytes;
     mb_totalBytes := (if 0 <? rankSize then (rankSize * rowBytes)%u64 else UINT64_MAX) |}.

Definition PlanPeerMailboxRowOffset (layout : PlanPeerMailboxLayout) (sourceRank : Z) : Z :=
  (sourceRank * mb_rowBytes layout)%u64.

(** ** The offsets the planner kernel computes for itself
    (src/src/moonep/planner_v2/kernels/tilexr_moonep_planner_kernel.cpp) *)

Definition kAlign : Z := kPlanWorkspaceAlignment.

(** [AlignUp] of the kernel. *)
Definition KernelAlignUp (value : Z) : Z :=
  Z.land ((value + kAlign)%u64 - 1)%u64 (Z.lxor UINT64_MAX (kAlign - 1)%u64).

(** [AddRegion] of the kernel: the offset and the cursor after the region. *)
Definition KernelAddRegion (cursor bytes : Z) : Z * Z :=
  let offset := KernelAlignUp cursor in (offset, (offset + bytes)%u64).

Record MetaOffsets := {
  mo_headers : Z; mo_tpe : Z; mo_globalRankIds : Z; mo_epochState : Z; mo_affinityOrder : Z;
  mo_localStatus : Z; mo_barrierFlags : Z
}.

Record LocalOffsets := {
  lo_expertCount : Z; lo_rankLoad : Z; lo_remainingTpe : Z; lo_alloc : Z; lo_remoteExpertSet : Z;
  lo_srcExpertCursor : Z; lo_dstExpertCursor : Z; lo_expertPhysicalBase : Z;
  lo_localExpertOrdinal : Z; lo_tokenSegments : Z; lo_routedPairTokens : Z; lo_scratch : Z
}.

Definition BuildMetaOffsets (rankSize expertNum : Z) : MetaOffsets :=
  let '(headers, cursor) := KernelAddRegion 0 (rankSize * kPlanHeaderStrideBytes)%u64 in
  let '(tpe, cursor) := KernelAddRegion cursor ((rankSize * expertNum) * sizeof_int32)%u64 in
  let '(globalRankIds, cursor) := KernelAddRegion cursor (rankSize * sizeof_int32)%u64 in
  let '(epochState, cursor) := KernelAddRegion cursor sizeof_PlanEpochState in
  let '(affinityOrder, cursor) := KernelAddRegion cursor ((rankSize * rankSize) * sizeof_int32)%u64 in
  let '(localStatus, cursor) := KernelAddRegion cursor (rankSize * kPlanStatusStrideBytes)%u64 in
  let '(barrierFlags, cursor) := KernelAddRegion cursor ((rankSize * 3) * kPlanBarrierSlotBytes)%u64 in
  {| mo_headers := headers; mo_tpe := tpe; mo_globalRankIds := globalRankIds;
     mo_epochState := epochState; mo_affinityOrder := affinityOrder;
     mo_localStatus := localStatus; mo_barrierFlags := barrierFlags |}.

Definition BuildLocalOffsets (rankSize s topK expertNum prefetchSlots tokenRouteLimitPerPair : Z)
    : LocalOffsets :=
  let r := rankSize in let e := expertNum in let cap := (s * topK)%u64 in
  let '(expertCount, cursor) := KernelAddRegion 0 (e * sizeof_int32)%u64 in
  let '(rankLoad, cursor) := KernelAddRegion cursor (r * sizeof_int32)%u64 in
  let '(remainingTpe, cursor) := KernelAddRegion cursor ((r * e) * sizeof_int32)%u64 in
  let '(alloc, cursor) := KernelAddRegion cursor ((r * e) * sizeof_int32)%u64 in
  let '(remoteExpertSet, cursor) := KernelAddRegion cursor ((r * prefetchSlots) * sizeof_int32)%u64 in
  let '(srcExpertCursor, cursor) := KernelAddRegion cursor ((r * e) * sizeof_int32)%u64 in
  let '(dstExpertCursor, cursor) := KernelAddRegion cursor ((r * e) * sizeof_int32)%u64 in
  let '(expertPhysicalBase, cursor) := KernelAddRegion cursor ((r * e) * sizeof_int32)%u64 in
  let '(localExpertOrdinal, cursor) := KernelAddRegion cursor (cap * sizeof_int32)%u64 in
  let '(tokenSegments, cursor) := KernelAddRegion cursor (cap * sizeof_TokenSegmentMove)%u64 in
  let '(routedPairTokens, cursor) :=
    (if tokenRouteLimitPerPair =? 0 then (0, cursor)
     else KernelAddRegion cursor ((r * r) * sizeof_int32)%u64) in
  let '(scratch, cursor) := KernelAddRegion cursor ((r * 16) * sizeof_int32)%u64 in
  {| lo_expertCount := expertCount; lo_rankLoad := rankLoad; lo_remainingTpe := remainingTpe;
     lo_alloc := alloc; lo_remoteExpertSet := remoteExpertSet;
     lo_srcExpertCursor := srcExpertCursor; lo_dstExpertCursor := dstExpertCursor;
     lo_expertPhysicalBase := expertPhysicalBase; lo_localExpertOrdinal := localExpertOrdinal;
     lo_tokenSegments := tokenSegments; lo_routedPairTokens := routedPairTokens;
     lo_scratch := scratch |}.

(** The workspace handed to the algorithm; the tables themselves are at the offsets above.
    [remoteExperts] and [expertTargets] come from the launch arguments. *)
Definition BindAlgorithmWorkspace (rankSize s topK tokenRouteLimitPerPair : Z)
    (hasRemote hasTargets : bool) (affinity : option (Z -> list Z)) : PlanAlgorithmWorkspace :=
  {| mandatoryPointers := true; hasRemoteExperts := hasRemote; hasExpertTargets := hasTargets;
     hasRemoteExpertSet := true; hasRoutedPairTokens := negb (tokenRouteLimitPerPair =? 0);
     tokenSegmentCapacity := s * topK; scratchCount := rankSize * 16; affinityCache := affinity |}.

(** ** Specification *)

(** The requests the layout is meant for. *)
Definition admissible (rankSize s topK expertNum : Z) (c : TileXRMoonEPPlanConfig) : Prop :=
  0 < rankSize <= 512 /\ 0 < s /\ 0 < topK <= 32 /\ 0 < expertNum /\ expertNum mod rankSize = 0 /\
  expertNum * 4 <= 4294967295 /\ 0 < prefetchSlots c <= INT32_MAX /\ 0 < tokenPadding c /\
  cardsPerServer c = 8 /\ cardsPerCabinet c = 64 /\ crossCandidateCount c = 3 /\
  rankTokenCapacity c = s * topK /\ s * topK <= nvS c /\ 0 <= tokenRouteLimitPerPair c <= s * topK /\
  rankSize * nvS c <= INT32_MAX.

Definition region_pair (r : PlanRegion) : Z * Z := (offset r, bytes r).

(** The pair table exists only when a pair limit is set. *)
Definition local_regions (limit : Z) (l : PlanLocalWorkspaceLayout) : list (Z * Z) :=
  region_pair <$> ([l_expertCount l; l_rankLoad l; l_remainingTpe l; l_alloc l; l_remoteExpertSet l;
    l_srcExpertCursor l; l_dstExpertCursor l; l_expertPhysicalBase l; l_localExpertOrdinal l;
    l_tokenSegments l] ++ (if limit =? 0 then [] else [l_routedPairTokens l]) ++ [l_scratchStatus l]).

Definition meta_regions (m : PlanRegisteredMetaLayout) : list (Z * Z) :=
  region_pair <$> [m_planCallHeaders m; m_tpe m; m_globalRankIds m; m_epochState m;
    m_affinityOrder m; m_localStatusByRank m; m_barrierFlags m].

(** The bytes each table needs: [int32_t] tables, the segment records, and the strided rows. *)
Definition local_sizes (r s k e b limit : Z) : list Z :=
  [e * 4; r * 4; r * e * 4; r * e * 4; r * b * 4; r * e * 4; r * e * 4; r * e * 4;
   s * k * 4; s * k * 24] ++ (if limit =? 0 then [] else [r * r * 4]) ++ [r * 16 * 4].

Definition meta_sizes (r e : Z) : list Z :=
  [r * 128; r * e * 4; r * 4; 32; r * r * 4; r * 64; r * 3 * 64].

(** The offsets of the kernel in the same order. *)
Definition kernel_local (limit : Z) (o : LocalOffsets) : list Z :=
  [lo_expertCount o; lo_rankLoad o; lo_remainingTpe o; lo_alloc o; lo_remoteExpertSet o;
   lo_srcExpertCursor o; lo_dstExpertCursor o; lo_expertPhysicalBase o; lo_localExpertOrdinal o;
   lo_tokenSegments o] ++ (if limit =? 0 then [] else [lo_routedPairTokens o]) ++ [lo_scratch o].

Definition kernel_meta (o : MetaOffsets) : list Z :=
  [mo_headers o; mo_tpe o; mo_globalRankIds o; mo_epochState o; mo_affinityOrder o;
   mo_localStatus o; mo_barrierFlags o].

(** ** Both placements follow the reference one *)

Lemma PlanAlignUp_spec v : 0 <= v -> v + 64 <= UINT64_MAX -> PlanAlignUp v 64 = Some (align_to 64 v).
Proof.
  intros Hv Hb. unfold PlanAlignUp. cbn [Z.eqb]. pose proof (align_to_spec 64 v ltac:(lia)).
  pose proof (Z.mod_pos_bound v 64 ltac:(lia)). unfold UINT64_MAX in *.
  case_if; b2p; [by rewrite align_to_fix by lia|].
  rewrite CheckedAdd_spec by (unfold is_u64, UINT64_MAX; lia).
  unfold UINT64_MAX. case_if; b2p; [|lia]. f_equal. symmetry.
  apply align_to_unique; div_lia.
Qed.

Lemma add_region_ok n sz cur B : 0 <= n -> 0 <= sz -> is_u64 n -> is_u64 sz -> 0 <= cur ->
  n * sz <= B -> cur + 64 + B <= UINT64_MAX ->
  add_region n sz cur = Some ({| offset := align_to 64 cur; bytes := n * sz |}, align_to 64 cur + n * sz).
Proof.
  intros Hn Hs Hn' Hs' Hc HB Hsum. pose proof (align_to_spec 64 cur ltac:(lia)).
  unfold add_region, CountBytes, AddRegion, is_u64 in *.
  assert (0 <= n * sz) by (apply Z.mul_nonneg_nonneg; done).
  rewrite CheckedMul_spec by done. unfold UINT64_MAX in *. case_if; b2p; [|lia]. cbn [mbind option_bind].
  unfold kPlanWorkspaceAlignment. rewrite PlanAlignUp_spec by (unfold UINT64_MAX; lia). cbn [mbind option_bind].
  rewrite CheckedAdd_spec by (unfold is_u64, UINT64_MAX; lia). unfold UINT64_MAX. case_if; b2p; [done|lia].
Qed.

Lemma KernelAddRegion_ok cur n : 0 <= cur -> 0 <= n -> cur + 64 + n <= UINT64_MAX ->
  KernelAddRegion cur n = (align_to 64 cur, align_to 64 cur + n).
Proof.
  intros Hc Hn Hb. pose proof (align_to_spec 64 cur ltac:(lia)). unfold UINT64_MAX in *.
  unfold KernelAddRegion, KernelAlignUp, kAlign, kPlanWorkspaceAlignment.
  rewrite (u64_small (cur + 64)), (u64_small (cur + 64 - 1)) by lia. change (u64 (64 - 1)) with (2 ^ 6 - 1).
  pose proof (mask_align cur 6 ltac:(lia) Hc) as M. change (2 ^ 6) with 64 in M.
  change (2 ^ 6 - 1) with (64 - 1). rewrite M by lia. rewrite u64_small by lia. done.
Qed.

Section Bounds.
Context (r s k e b : Z).
Context (Hr : 0 < r <= 512) (He : 0 < e <= 1073741824) (Hb : 0 < b <= 2147483647)
        (Hsk : 0 < s * k <= 2147483647).

Let Hre : 0 <= r * e <= 549755813888. Proof. nia. Qed.
Let Hrb : 0 <= r * b <= 1099511627776. Proof. nia. Qed.
Let Hrr : 0 <= r * r <= 262144. Proof. nia. Qed.

(** A cursor below a bound and a small region: where the next cursor is. *)
Lemma next_cursor c n i : 0 <= c <= i * 8796093022208 -> 0 <= n <= 8796093022000 ->
  0 <= align_to 64 c + n <= (i + 1) * 8796093022208.
Proof. intros. pose proof (align_to_spec 64 c ltac:(lia)). lia. Qed.

Lemma add_region_at c n sz i : 0 <= n -> 0 <= sz -> n * sz <= 8796093022000 -> is_u64 n -> is_u64 sz ->
  0 <= c <= i * 8796093022208 -> i <= 64 ->
  add_region n sz c = Some ({| offset := align_to 64 c; bytes := n * sz |}, align_to 64 c + n * sz) /\
  0 <= align_to 64 c + n * sz <= (i + 1) * 8796093022208.
Proof.
  intros ? ? ? ? ? ? ?. split; [|apply next_cursor; [done|nia]].
  apply (add_region_ok _ _ _ 8796093022000); try done; unfold UINT64_MAX; lia.
Qed.

Ltac at_cursor i :=
  let A := fresh "A" in let B := fresh "B" in
  match goal with
  | |- context [add_region ?n ?sz ?c] =>
      destruct (add_region_at c n sz i) as [A B];
      [ try rewrite u64_small by lia; unfold is_u64, UINT64_MAX, sizeof_int32, sizeof_TokenSegmentMove, sizeof_PlanEpochState in *; lia..
      | rewrite A; clear A;
        let c' := fresh "c" in let E := fresh "E" in
        remember (align_to 64 c + n * sz) as c' eqn:E; rewrite bind_Some; cbv beta iota ]
  end.

#[local] Opaque add_region PlanAlignUp FinishLayout.

Lemma FinishLayout_ok v : 0 <= v -> v + 64 <= UINT64_MAX -> FinishLayout v = Some (align_to 64 v).
Proof. apply PlanAlignUp_spec. Qed.

Lemma build_local_ok limit : exists L,
  build_local r e (r * e) (r * b) (r * r) (r * 8) (s * k) limit = Some L /\
  local_regions limit L = place 64 0 (local_sizes r s k e b limit) /\
  l_totalBytes L = align_to 64 (place_end 64 0 (local_sizes r s k e b limit)) /\
  place_end 64 0 (local_sizes r s k e b limit) <= 16 * 8796093022208.
Proof.
  unfold build_local, sizeof_int32, sizeof_TokenSegmentMove.
  at_cursor 0. at_cursor 1. at_cursor 2. at_cursor 3. at_cursor 4. at_cursor 5. at_cursor 6.
  at_cursor 7. at_cursor 8. at_cursor 9.
  rewrite (u64_small (r * 8)), (u64_small (r * 8 + _)) by lia.
  replace (r * 8 + r * 8) with (r * 16) by lia.
  unfold local_sizes, local_regions.
  destruct (limit =? 0); cbn [negb app]; [rewrite bind_Some; cbv beta iota|at_cursor 10];
    [at_cursor 10|at_cursor 11]; (rewrite FinishLayout_ok by (unfold UINT64_MAX; lia));
    rewrite bind_Some; (eexists; split; [reflexivity|]);
    cbn [l_totalBytes]; place_eq; (split_and!; [reflexivity|reflexivity|]); lia.
Qed.

Lemma build_meta_ok : exists M,
  build_meta r (r * e) (r * r) = Some M /\
  meta_regions M = place 64 0 (meta_sizes r e) /\
  m_totalBytes M = align_to 64 (place_end 64 0 (meta_sizes r e)) /\
  place_end 64 0 (meta_sizes r e) <= 16 * 8796093022208.
Proof.
  unfold build_meta, sizeof_int32, sizeof_PlanEpochState, kPlanHeaderStrideBytes, kPlanStatusStrideBytes, kPlanBarrierSlotBytes.
  rewrite (u64_small (r * 128)), (u64_small (r * 64)), (u64_small (r * 3)), (u64_small (r * 3 * 64)) by lia.
  at_cursor 0. at_cursor 1. at_cursor 2. at_cursor 3. at_cursor 4. at_cursor 5. at_cursor 6.
  rewrite FinishLayout_ok by (unfold UINT64_MAX; lia). rewrite bind_Some.
  eexists. split; [reflexivity|]. unfold meta_regions, meta_sizes. cbn [m_totalBytes].
  change (1 * 32) with 32 in *. rewrite !Z.mul_1_r in *. place_eq.
  split_and!; [reflexivity|reflexivity|]. lia.
Qed.

Lemma kernel_add_at c n i : 0 <= n <= 8796093022000 -> 0 <= c <= i * 8796093022208 -> i <= 64 ->
  KernelAddRegion c n = (align_to 64 c, align_to 64 c + n) /\
  0 <= align_to 64 c + n <= (i + 1) * 8796093022208.
Proof.
  intros. split; [|by apply next_cursor]. apply KernelAddRegion_ok; unfold UINT64_MAX; lia.
Qed.

Ltac kernel_at i :=
  let A := fresh "A" in let B := fresh "B" in
  match goal with
  | |- context [KernelAddRegion ?c ?n] =>
      destruct (kernel_add_at c n i) as [A B]; [lia..|];
      rewrite A; clear A; cbv beta iota;
      let c' := fresh "c" in let E := fresh "E" in
      remember (align_to 64 c + n) as c' eqn:E
  end.

#[local] Opaque KernelAddRegion.

Lemma BuildLocalOffsets_ok limit :
  kernel_local limit (BuildLocalOffsets r s k e b limit) = (place 64 0 (local_sizes r s k e b limit)).*1.
Proof.
  unfold BuildLocalOffsets, sizeof_int32, sizeof_TokenSegmentMove. cbv zeta.
  rewrite (u64_small (s * k)), (u64_small (e * 4)), (u64_small (r * 4)), (u64_small (r * e)),
    (u64_small (r * b)), (u64_small (r * r)), (u64_small (r * 16)), (u64_small (r * e * 4)),
    (u64_small (r * b * 4)), (u64_small (r * r * 4)), (u64_small (r * 16 * 4)),
    (u64_small (s * k * 4)), (u64_small (s * k * 24)) by lia.
  kernel_at 0. kernel_at 1. kernel_at 2. kernel_at 3. kernel_at 4. kernel_at 5. kernel_at 6.
  kernel_at 7. kernel_at 8. kernel_at 9. unfold local_sizes, kernel_local.
  destruct (limit =? 0); cbn [app]; cbv beta iota; [|kernel_at 10]; [kernel_at 10|kernel_at 11];
    place_eq; reflexivity.
Qed.

Lemma BuildMetaOffsets_ok : kernel_meta (BuildMetaOffsets r e) = (place 64 0 (meta_sizes r e)).*1.
Proof.
  unfold BuildMetaOffsets, sizeof_int32, sizeof_PlanEpochState, kPlanHeaderStrideBytes,
    kPlanStatusStrideBytes, kPlanBarrierSlotBytes.
  rewrite (u64_small (r * 128)), (u64_small (r * e)), (u64_small (r * 4)), (u64_small (r * r)),
    (u64_small (r * 64)), (u64_small (r * 3)), (u64_small (r * e * 4)), (u64_small (r * r * 4)),
    (u64_small (r * 3 * 64)) by lia.
  kernel_at 0. kernel_at 1. kernel_at 2. kernel_at 3. kernel_at 4. kernel_at 5. kernel_at 6.
  unfold meta_sizes, kernel_meta. place_eq. reflexivity.
Qed.

Lemma sizes_nonneg limit : Forall (Z.le 0) (local_sizes r s k e b limit) /\ Forall (Z.le 0) (meta_sizes r e).
Proof.
  unfold local_sizes, meta_sizes. destruct (limit =? 0); cbn [app];
    split; repeat (apply Forall_cons; split; [lia|]); apply Forall_nil; done.
Qed.

Lemma place_sizes a sizes : forall cur, (place a cur sizes).*2 = sizes.
Proof.
  induction sizes as [|x l IH]; intros cur; [by rewrite place_nil|].
  rewrite place_cons. cbn [fmap list_fmap snd]. f_equal. apply IH.
Qed.
End Bounds.

Lemma ToUnsigned_pos x : 0 < x -> ToUnsigned x = Some x.
Proof. intros H. unfold ToUnsigned. case_if; [|done]. b2p. lia. Qed.

Lemma mul_ok a b : 0 <= a -> 0 <= b -> a * b <= UINT64_MAX -> is_u64 a -> is_u64 b ->
  CheckedMul a b = Some (a * b).
Proof. intros. rewrite CheckedMul_spec by done. case_if; [done|]. b2p. lia. Qed.

Lemma Build_admissible rankSize s topK expertNum c L :
  is_i64 rankSize -> is_i64 s -> is_i64 topK -> is_i64 expertNum -> is_i64 (prefetchSlots c) ->
  is_i64 (nvS c) -> BuildPlanWorkspaceLayout rankSize s topK expertNum c = Some L ->
  admissible rankSize s topK expertNum c.
Proof.
  unfold is_i64, INT64_MAX. intros Hr Hs Hk He Hb Hn H. unfold BuildPlanWorkspaceLayout in H.
  case_if_in H; [done|]. b2p. rewrite !ToUnsigned_pos, !bind_Some in H by lia.
  destruct (CheckedMul s topK) as [sk|] eqn:Esk; [|done]. rewrite bind_Some in H.
  apply CheckedMul_Some in Esk as [-> Hsk]; [|unfold is_u64, UINT64_MAX; lia..].
  case_if_in H; [done|]. b2p.
  destruct (CheckedMul rankSize (nvS c)) as [rs|] eqn:Ers; [|done]. rewrite bind_Some in H.
  apply CheckedMul_Some in Ers as [-> Hrs]; [|unfold is_u64, UINT64_MAX; lia..].
  case_if_in H; [done|]. b2p.
  destruct (CheckedMul rankSize expertNum), (CheckedMul rankSize (prefetchSlots c)),
    (CheckedMul rankSize rankSize), (CheckedMul rankSize kPlanStatusWords); try done.
  rewrite !bind_Some in H. destruct (build_local _ _ _ _ _ _ _ _) as [l|] eqn:El; [|done].
  unfold build_local, add_region, CountBytes, sizeof_int32 in El.
  destruct (CheckedMul expertNum 4) as [x|] eqn:E4; [|done]. clear El.
  apply CheckedMul_Some in E4 as [-> Hx4]; [|unfold is_u64, UINT64_MAX; lia..].
  unfold is_u64, UINT64_MAX, sizeof_int32, kPlanMaxUdmaTransferBytes, kPlanMaxLogicalRankSize,
    kPlanCardsPerServer, kPlanCardsPerCabinet, kPlanCrossCandidateCount in *.
  rewrite u64_small in * by lia. unfold admissible. split_and!; lia.
Qed.

Lemma Build_eq rankSize s topK expertNum c : admissible rankSize s topK expertNum c ->
  exists L, BuildPlanWorkspaceLayout rankSize s topK expertNum c = Some L /\
  let limit := tokenRouteLimitPerPair c in
  let sizes := local_sizes rankSize s topK expertNum (prefetchSlots c) limit in
  local_regions limit (local L) = place 64 0 sizes /\
  l_totalBytes (local L) = align_to 64 (place_end 64 0 sizes) /\
  meta_regions (registeredMeta L) = place 64 0 (meta_sizes rankSize expertNum) /\
  m_totalBytes (registeredMeta L) = align_to 64 (place_end 64 0 (meta_sizes rankSize expertNum)).
Proof.
  intros (Hr & Hs & Hk & He & Hm & He4 & Hb & Hp & H1 & H2 & H3 & Hcap & Hnv & Hlim & Hrn).
  unfold INT32_MAX in *. assert (0 < s * topK) by nia. assert (0 < nvS c <= 2147483647) by nia.
  unfold BuildPlanWorkspaceLayout, kPlanMaxLogicalRankSize, kPlanMaxUdmaTransferBytes, sizeof_int32,
    kPlanCardsPerServer, kPlanCardsPerCabinet, kPlanCrossCandidateCount, INT32_MAX, INT64_MAX.
  rewrite u64_small by lia. case_if; [exfalso; lia|].
  rewrite !ToUnsigned_pos, !bind_Some by lia.
  rewrite (mul_ok s topK) by (unfold is_u64, UINT64_MAX; nia). rewrite bind_Some.
  case_if; [exfalso; lia|].
  rewrite (mul_ok rankSize (nvS c)) by (unfold is_u64, UINT64_MAX; nia). rewrite bind_Some.
  case_if; [exfalso; lia|].
  rewrite (mul_ok rankSize expertNum) by (unfold is_u64, UINT64_MAX; nia).
  rewrite (mul_ok rankSize (prefetchSlots c)) by (unfold is_u64, UINT64_MAX; nia).
  rewrite (mul_ok rankSize rankSize) by (unfold is_u64, UINT64_MAX; nia).
  rewrite (mul_ok rankSize kPlanStatusWords) by (unfold is_u64, UINT64_MAX, kPlanStatusWords; nia).
  rewrite !bind_Some. change kPlanStatusWords with 8.
  destruct (build_local_ok rankSize s topK expertNum (prefetchSlots c) ltac:(lia) ltac:(lia)
    ltac:(lia) ltac:(nia) (tokenRouteLimitPerPair c)) as (l & -> & Hl & Ht & _).
  destruct (build_meta_ok rankSize s topK expertNum (prefetchSlots c) ltac:(lia) ltac:(lia)
    ltac:(lia) ltac:(nia)) as (m & -> & Hm' & Hmt & _).
  rewrite !bind_Some. eexists. split; [reflexivity|]. cbn [local registeredMeta]. done.
Qed.

Lemma place_disjoint sizes : Forall (Z.le 0) sizes ->
  disjoint_regions 64 0 (place 64 0 sizes) (align_to 64 (place_end 64 0 sizes)).
Proof.
  intros H. apply packed_disjoint, place_packed; [lia|done|].
  pose proof (align_to_spec 64 (place_end 64 0 sizes) ltac:(lia)). lia.
Qed.

(** The planner workspace is laid out for exactly the admissible requests, the checks that
    could wrap included ([expertNum * 4] is tested in 64 bits, where 2^62 experts would pass):
    the request is accepted if and only if it is admissible. In an accepted layout every table
    starts at a multiple of 64 bytes, lies inside the reported size, has exactly the bytes its
    elements need, and no two tables overlap, in the local workspace and in the registered
    metadata. *)
Theorem plan_workspace_layout rankSize s topK expertNum c :
  is_i64 rankSize -> is_i64 s -> is_i64 topK -> is_i64 expertNum -> is_i64 (prefetchSlots c) ->
  is_i64 (nvS c) ->
  (is_Some (BuildPlanWorkspaceLayout rankSize s topK expertNum c) <-> admissible rankSize s topK expertNum c) /\
  forall L, BuildPlanWorkspaceLayout rankSize s topK expertNum c = Some L ->
    let limit := tokenRouteLimitPerPair c in
    let l := local_regions limit (local L) in let m := meta_regions (registeredMeta L) in
    disjoint_regions 64 0 l (l_totalBytes (local L)) /\
    disjoint_regions 64 0 m (m_totalBytes (registeredMeta L)) /\
    l.*2 = local_sizes rankSize s topK expertNum (prefetchSlots c) limit /\
    m.*2 = meta_sizes rankSize expertNum.
Proof.
  intros H1 H2 H3 H4 H5 H6. split; [split|].
  - intros [L HL]. by eapply Build_admissible.
  - intros (L & HL & _)%Build_eq. by eexists.
  - intros L HL limit l m. pose proof (Build_admissible _ _ _ _ _ _ H1 H2 H3 H4 H5 H6 HL) as Ha.
    destruct (Build_eq _ _ _ _ _ Ha) as (L' & HL' & E1 & E2 & E3 & E4). simplify_eq.
    destruct Ha as (Hr & Hs & Hk & He & _ & He4 & Hb & _ & _ & _ & _ & Hcap & Hnv & _ & Hrn).
    unfold INT32_MAX in *. assert (0 < s * topK <= 2147483647) by nia.
    destruct (sizes_nonneg rankSize s topK expertNum (prefetchSlots c) ltac:(lia) ltac:(lia) ltac:(lia)
      ltac:(lia) limit) as [N1 N2].
    subst l m limit. rewrite E1, E2, E3, E4, !place_sizes.
    split_and!; [by apply place_disjoint..|done|done].
Qed.

Definition sample_config : TileXRMoonEPPlanConfig :=
  {| prefetchSlots := 2; rankTokenCapacity := 16; nvS := 64; tokenPadding := 4;
     tokenRouteLimitPerPair := 0; cardsPerServer := 8; cardsPerCabinet := 64; crossCandidateCount := 3 |}.

Lemma plan_workspace_layout_witness : is_Some (BuildPlanWorkspaceLayout 4 8 2 16 sample_config) /\
  admissible 4 8 2 16 sample_config.
Proof.
  destruct (plan_workspace_layout 4 8 2 16 sample_config) as [[H _] _];
    [unfold is_i64, INT64_MAX; cbn; lia..|].
  assert (is_Some (BuildPlanWorkspaceLayout 4 8 2 16 sample_config)) as S by (vm_compute; eexists; reflexivity).
  split; [exact S|exact (H S)].
Defined.

(** C22: The kernel and the host compute the same layout: whenever the host accepts a request,
    the offsets the kernel derives from the same numbers with unchecked wrapping arithmetic are
    the offsets of the host's regions, and the workspace it binds has room for the [S * K]
    segment records and the [16 * R] scratch words it declares to the algorithm. *)
Theorem plan_workspace_device rankSize s topK expertNum c L hasRemote hasTargets affinity :
  is_i64 rankSize -> is_i64 s -> is_i64 topK -> is_i64 expertNum -> is_i64 (prefetchSlots c) ->
  is_i64 (nvS c) -> BuildPlanWorkspaceLayout rankSize s topK expertNum c = Some L ->
  let limit := tokenRouteLimitPerPair c in
  let ws := BindAlgorithmWorkspace rankSize s topK limit hasRemote hasTargets affinity in
  kernel_local limit (BuildLocalOffsets rankSize s topK expertNum (prefetchSlots c) limit) =
    (local_regions limit (local L)).*1 /\
  kernel_meta (BuildMetaOffsets rankSize expertNum) = (meta_regions (registeredMeta L)).*1 /\
  bytes (l_tokenSegments (local L)) = tokenSegmentCapacity ws * sizeof_TokenSegmentMove /\
  bytes (l_scratchStatus (local L)) = scratchCount ws * sizeof_int32 /\
  is_i32 (tokenSegmentCapacity ws) /\ is_i32 (scratchCount ws).
Proof.
  intros H1 H2 H3 H4 H5 H6 HL limit ws.
  pose proof (Build_admissible _ _ _ _ _ _ H1 H2 H3 H4 H5 H6 HL) as Ha.
  destruct (Build_eq _ _ _ _ _ Ha) as (L' & HL' & E1 & E2 & E3 & E4). simplify_eq.
  destruct Ha as (Hr & Hs & Hk & He & _ & He4 & Hb & _ & _ & _ & _ & Hcap & Hnv & _ & Hrn).
  unfold INT32_MAX in *. assert (0 < s * topK <= 2147483647) by nia.
  rewrite (BuildLocalOffsets_ok rankSize s topK expertNum (prefetchSlots c)) by lia.
  rewrite (BuildMetaOffsets_ok rankSize s topK expertNum (prefetchSlots c)) by lia.
  fold limit in E1. rewrite E1, E3.
  assert ((local_regions limit (local L)).*2 = local_sizes rankSize s topK expertNum (prefetchSlots c) limit) as Es
    by (rewrite E1; apply place_sizes).
  unfold local_regions, local_sizes in Es. unfold BindAlgorithmWorkspace in ws. subst ws. cbn [tokenSegmentCapacity scratchCount].
  unfold is_i32, INT32_MIN, INT32_MAX.
  destruct (limit =? 0); cbn [app fmap list_fmap region_pair snd fst] in Es; injection Es; intros;
    split_and!; try done; lia.
Qed.

Lemma plan_workspace_device_witness : exists L,
  BuildPlanWorkspaceLayout 4 8 2 16 sample_config = Some L /\
  kernel_local 0 (BuildLocalOffsets 4 8 2 16 2 0) = (local_regions 0 (local L)).*1.
Proof.
  eexists. split; [vm_compute; reflexivity|].
  apply (plan_workspace_device 4 8 2 16 sample_config _ true true None);
    [unfold is_i64, INT64_MAX; cbn; lia..|vm_compute; reflexivity].
Defined.

(** ** Peer mailbox *)

Lemma AlignPlanPeerMailbox_pow v k : 0 <= k < 64 -> 0 <= v -> v + 2 ^ k <= UINT64_MAX ->
  AlignPlanPeerMailbox v (2 ^ k) = align_to (2 ^ k) v.
Proof.
  intros Hk Hv Hb. pose proof (Z.pow_pos_nonneg 2 k ltac:(lia) ltac:(lia)).
  unfold AlignPlanPeerMailbox, UINT64_MAX in *.
  rewrite (u64_small (v + 2 ^ k)), (u64_small (v + 2 ^ k - 1)), (u64_small (2 ^ k - 1)) by lia.
  apply mask_align; lia.
Qed.

(** The fields of a row, for an expert count that fits it. *)
Lemma mailbox_fields rankSize expertNum : 0 < expertNum <= 1048512 ->
  let l := BuildPlanPeerMailboxLayout rankSize expertNum in
  mb_header l = 0 /\ mb_globalRankId l = 128 /\ mb_status l = 192 /\ mb_tpe l = 256 /\
  mb_rowBytes l = 4194304 /\ mb_inputBytes l = align_to 512 (256 + expertNum * 4).
Proof.
  intros He. assert (kPlanPeerMailboxRowBytes = 4194304) as Hrow by reflexivity.
  unfold BuildPlanPeerMailboxLayout.
  cbn [mb_header mb_globalRankId mb_status mb_tpe mb_inputBytes mb_rowBytes mb_totalBytes].
  change (AlignPlanPeerMailbox 0 kPlanWorkspaceAlignment) with 0.
  change (AlignPlanPeerMailbox (0 + kPlanHeaderStrideBytes)%u64 kPlanWorkspaceAlignment) with 128.
  change (AlignPlanPeerMailbox (128 + sizeof_int32)%u64 kPlanWorkspaceAlignment) with 192.
  change (AlignPlanPeerMailbox (192 + kPlanStatusStrideBytes)%u64 kPlanWorkspaceAlignment) with 256.
  rewrite !Hrow. change ((4194304 - 256)%u64 / sizeof_int32) with 1048512.
  split_and!; try reflexivity. case_if; [|exfalso; lia]. unfold sizeof_int32, kPlanPeerMailboxTransferBytes.
  rewrite (u64_small (expertNum * 4)), (u64_small (256 + expertNum * 4)) by lia.
  change 512 with (2 ^ 9). apply AlignPlanPeerMailbox_pow; [lia..|].
  change UINT64_MAX with 18446744073709551615. lia.
Qed.

(** The mailbox window: the row of every source rank is a 512-byte aligned range of the
    4 MiB slot of that rank, rows of different ranks never overlap and all of them fit in the
    IPC window; inside a row, header, global rank id, status words and the token counts of the
    experts are disjoint 64-byte aligned fields, the published prefix [inputBytes] is a whole
    number of transfer units that covers all of them and stays in the row, and the 512 bytes
    pushed with a status cover the status words. *)
Theorem plan_mailbox_rows rankSize expertNum src src' : 0 < rankSize <= 128 ->
  0 <= src < rankSize -> 0 <= src' < rankSize -> 0 < expertNum <= (4194304 - 256) / 4 ->
  let l := BuildPlanPeerMailboxLayout rankSize expertNum in
  let row := PlanPeerMailboxRowOffset l in
  disjoint_regions 64 0 [(mb_header l, 128); (mb_globalRankId l, 4); (mb_status l, 8 * 4);
    (mb_tpe l, expertNum * 4)] (mb_inputBytes l) /\
  mb_inputBytes l mod kPlanPeerMailboxTransferBytes = 0 /\ mb_inputBytes l <= mb_rowBytes l /\
  mb_status l + 8 * 4 <= kPlanPeerMailboxTransferBytes /\
  row src mod kPlanPeerMailboxTransferBytes = 0 /\
  row src + mb_rowBytes l <= mb_totalBytes l <= IPC_BUFF_MAX_SIZE /\
  (src < src' -> row src + mb_rowBytes l <= row src').
Proof.
  intros Hr Hs Hs' He l row. change ((4194304 - 256) / 4) with 1048512 in He.
  destruct (mailbox_fields rankSize expertNum He) as (E1 & E2 & E3 & E4 & E5 & E6). fold l in E1, E2, E3, E4, E5, E6.
  assert (mb_totalBytes l = rankSize * 4194304) as E7.
  { subst l. unfold BuildPlanPeerMailboxLayout. cbn [mb_totalBytes]. case_if; [|exfalso; lia].
    change kPlanPeerMailboxRowBytes with 4194304. apply u64_small. lia. }
  subst row. unfold PlanPeerMailboxRowOffset, kPlanPeerMailboxTransferBytes. rewrite E1, E2, E3, E4, E5, E6, E7.
  pose proof (align_to_spec 512 (256 + expertNum * 4) ltac:(lia)) as [A1 A2].
  pose proof (align_to_le 512 (256 + expertNum * 4) 4194304 ltac:(lia) ltac:(lia) ltac:(done)) as A3.
  rewrite !u64_small by lia.
  split; [apply packed_disjoint; cbn [packed]; split_and!; try reflexivity; lia|].
  unfold IPC_BUFF_MAX_SIZE. split_and!; try lia; try done.
  change 4194304 with (8192 * 512). rewrite Z.mul_assoc. apply Z.mod_mul. lia.
Qed.

Lemma plan_mailbox_rows_witness :
  let l := BuildPlanPeerMailboxLayout 8 64 in
  disjoint_regions 64 0 [(mb_header l, 128); (mb_globalRankId l, 4); (mb_status l, 32); (mb_tpe l, 256)]
    (mb_inputBytes l) /\ (0 < 1 -> PlanPeerMailboxRowOffset l 0 + mb_rowBytes l <= PlanPeerMailboxRowOffset l 1).
Proof.
  pose proof (plan_mailbox_rows 8 64 0 1 ltac:(lia) ltac:(lia) ltac:(lia)
    ltac:(split; [lia|apply Z.leb_le; reflexivity])) as (A & _ & _ & _ & _ & _ & B).
  split; [exact A|exact B].
Defined.
