(* ===== verification/PlanRounds.v ===== *)
(** The round counters of the planner: only a completed round counts, so the two counters stay
    within the initial overload, at most [rankSize * cap]. *)
From S2P Require Import Prelude PlanTypes PlanSort PlanAlgorithm PlanOutput PlanMove PlanBalance PlanFinal.

(** The counters are those of [s0]. *)
Definition same_rounds (s0 s : PState) : Prop :=
  intraRounds s = intraRounds s0 /\ interRounds s = interRounds s0.

Definition rounds (s : PState) : Z := intraRounds s + interRounds s.

Section rounds.
Context (inp : PlanAlgorithmInput) (ws : PlanAlgorithmWorkspace) (affinityOrder : Z -> list Z).

Lemma append_rounds s0 s e src dst b1 b2 n : same_rounds s0 s ->
  same_rounds s0 (fst (AppendSegment inp ws s e src dst b1 b2 n)).
Proof. intros H. unfold AppendSegment. repeat case_if; exact H. Qed.

Lemma take_rounds s0 e dst src acc : same_rounds s0 (fst (fst acc)) ->
  match take_source inp ws e dst src acc with
  | inl acc' => same_rounds s0 (fst (fst acc')) | inr s' => same_rounds s0 s' end.
Proof.
  destruct acc as [[s d] a]. cbn [fst]. intros H. unfold take_source. case_if; [exact H|].
  match goal with |- context [if ?t <=? 0 then _ else _] => destruct (t <=? 0); [exact H|] end.
  match goal with |- context [AppendSegment ?i ?w ?s ?e ?a ?b ?c ?d ?n] =>
    pose proof (append_rounds s0 s e a b c d n H) as H1; destruct (AppendSegment i w s e a b c d n) as [s1 []] end;
  exact H1.
Qed.

Lemma commit_rounds s0 s home dst e n r : same_rounds s0 s -> same_rounds s0 (commit_move inp s home dst e n r).
Proof. intros H. unfold commit_move. case_if; exact H. Qed.

Lemma note_rounds s0 s dst e : same_rounds s0 s -> same_rounds s0 (note_block inp s dst e).
Proof. intros H. unfold note_block. destruct (foldl _ _ _). repeat case_if; exact H. Qed.

Lemma move_expert_rounds s0 home dst e acc : same_rounds s0 (fst (fst acc)) ->
  match move_expert inp ws affinityOrder home dst e acc with
  | inl acc' => same_rounds s0 (fst (fst acc')) | inr s' => same_rounds s0 s' end.
Proof.
  destruct acc as [[s d] f]. cbn [fst]. intros H. unfold move_expert. do 3 (case_if; [exact H|]).
  match goal with |- context [loop_ret ?b ?l ?x] =>
    pose proof (loop_ret_inv (fun acc => same_rounds s0 (fst (fst acc))) (same_rounds s0) b l x
      (fun src acc _ => take_rounds s0 e dst src acc) H) as H1;
    destruct (loop_ret b l x) as [[[s1 d1] a1]|s1] end; [|exact H1].
  cbn [fst] in *. apply (commit_rounds _ _ home dst e a1 (0 <=? FindRemote inp s dst e)) in H1.
  destruct (0 <? d1); [by apply note_rounds|exact H1].
Qed.

Lemma apply_rounds s0 s home dst n : same_rounds s0 s ->
  same_rounds s0 (fst (ApplyExpertMove inp ws affinityOrder s home dst n)).
Proof.
  intros H. unfold ApplyExpertMove. case_if; [exact H|].
  match goal with |- context [loop_ret ?b ?l ?x] =>
    pose proof (loop_ret_inv (fun acc => same_rounds s0 (fst (fst acc))) (same_rounds s0) b l x
      (fun e acc _ => move_expert_rounds s0 home dst e acc) H) as H1;
    destruct (loop_ret b l x) as [[[s1 d1] a1]|s1] end; [|exact H1].
  cbn [fst] in *. case_if; exact H1.
Qed.

Lemma intra_pairs_rounds s0 s pairs : same_rounds s0 s ->
  match intra_pairs inp ws affinityOrder s pairs with
  | inl acc => same_rounds s0 (fst acc) | inr s' => same_rounds s0 s' end.
Proof.
  intros H. unfold intra_pairs. apply loop_ret_inv; [|exact H]. intros [h d] [s1 a] _ H1. cbn [fst snd] in *.
  case_if.
  - match goal with |- context [ApplyExpertMove ?i ?w ?f ?s ?a ?b ?n] =>
      pose proof (apply_rounds s0 s a b n H1) as H2; destruct (ApplyExpertMove i w f s a b n) end.
    case_if; exact H2.
  - case_if; exact H1.
Qed.

Lemma inter_candidates_rounds s0 dst senders l : forall s occ k, same_rounds s0 s ->
  same_rounds s0 (fst (fst (inter_candidates inp ws affinityOrder s dst senders occ l k))).
Proof.
  induction l as [|src l IH]; intros s occ k H; cbn [inter_candidates]; [exact H|].
  case_if; [exact H|]. case_if; [by apply IH|]. case_if; [by apply IH|].
  match goal with |- context [if ?t <=? 0 then _ else _] => destruct (t <=? 0); [by apply IH|] end.
  match goal with |- context [ApplyExpertMove ?i ?w ?f ?s ?a ?b ?n] =>
    pose proof (apply_rounds s0 s a b n H) as H2; destruct (ApplyExpertMove i w f s a b n) end.
  case_if; [exact H2|]. case_if; [exact H2|by apply IH].
Qed.

Lemma inter_receivers_rounds s0 s senders l : same_rounds s0 s ->
  match inter_receivers inp ws affinityOrder s senders l with
  | inl acc => same_rounds s0 (fst (fst acc)) | inr s' => same_rounds s0 s' end.
Proof.
  intros H. unfold inter_receivers.
  apply (loop_ret_inv (fun acc => same_rounds s0 (fst (fst acc))) (same_rounds s0)); [|exact H].
  intros d [[s1 occ] a] _ H1. cbn [fst] in H1.
  pose proof (inter_candidates_rounds s0 d senders (affinityOrder d) s1 occ 0 H1) as H2.
  destruct (inter_candidates _ _ _ _ _ _ _ _ _) as [[s2 o2] a2]. case_if; exact H2.
Qed.

(** A round that goes on adds one to one of the counters, a round that ends adds nothing. *)
Definition counts (s : PState) (res : round_result) : Prop :=
  match res with Continue s' => rounds s' = rounds s + 1 | Break s' => rounds s' = rounds s end /\
  match res with Continue s' | Break s' => intraRounds s <= intraRounds s' /\ interRounds s <= interRounds s' end.

Lemma counts_break s s' : same_rounds s s' -> counts s (Break s').
Proof. intros [H1 H2]. unfold counts, rounds. lia. Qed.

Lemma intra_round_counts s key : counts s (intra_round inp ws affinityOrder s key).
Proof.
  unfold intra_round. destruct (SortRanks _ _ _ _ _) as [active|]; [|by apply counts_break].
  case_if; [by apply counts_break|]. case_if; [by apply counts_break|].
  match goal with |- context [intra_pairs ?i ?w ?f ?s ?p] =>
    pose proof (intra_pairs_rounds s s p (conj eq_refl eq_refl)) as H;
    destruct (intra_pairs i w f s p) as [[s1 a]|s1] end; [|by apply counts_break].
  case_if; [by apply counts_break|]. destruct H as [H1 H2]. unfold counts, rounds. cbn in *. lia.
Qed.

Lemma inter_round_counts s : counts s (inter_round inp ws affinityOrder s).
Proof.
  unfold inter_round. case_if; [by apply counts_break|].
  destruct (SortRanks _ _ _ _ _) as [active|]; [|by apply counts_break]. case_if; [by apply counts_break|].
  destruct (SortRanks _ _ _ _ _) as [recv|]; [|by apply counts_break].
  match goal with |- context [inter_receivers ?i ?w ?f ?s ?a ?b] =>
    pose proof (inter_receivers_rounds s s a b (conj eq_refl eq_refl)) as H;
    destruct (inter_receivers i w f s a b) as [[[s1 o] a1]|s1] end; [|by apply counts_break].
  case_if; [by apply counts_break|]. destruct H as [H1 H2]. unfold counts, rounds. cbn in *. lia.
Qed.

Context (Hok : plan_ok inp ws).
Context (Haff : forall dst r, 0 <= dst < in_rankSize inp -> r ∈ affinityOrder dst ->
  0 <= r < in_rankSize inp).

(** The counters have been paid for with overload since [s]. *)
Definition paid (s s' : PState) : Prop :=
  intraRounds s <= intraRounds s' /\ interRounds s <= interRounds s' /\
  rounds s' <= rounds s + overload inp s /\
  (inv inp ws s' -> rounds s' + overload inp s' <= rounds s + overload inp s).

Lemma iterate_paid round fuel :
  (forall s, inv inp ws s -> round_ok inp ws s (round s)) -> (forall s, counts s (round s)) ->
  forall s s', inv inp ws s -> iterate_rounds round fuel s = Some s' -> paid s s'.
Proof.
  intros Hround Hc. induction fuel as [|fuel IH]; intros s s' HI; [done|]. cbn [iterate_rounds].
  pose proof (Hround s HI) as Hr. pose proof (Hc s) as Hs. unfold paid. pose proof (overload_nonneg inp s).
  unfold counts, round_ok in *.
  destruct (round s) as [s1|s1]; destruct Hs as [Hs1 [Hs2 Hs3]].
  - intros E. destruct Hr as [HI1 Hlt]. destruct (IH s1 s' HI1 E) as (P1 & P2 & P3 & P4).
    split_and!; try lia. intros HI'. specialize (P4 HI'). lia.
  - intros [= <-]. split_and!; try lia. intros HI'. destruct Hr as [[_ Hle]|[Hf _]]; [lia|].
    destruct HI' as (_ & _ & _ & HI'). congruence.
Qed.

Lemma servers_paid roundFuel fuel : forall key s s', inv inp ws s -> overload inp s < Z.of_nat roundFuel ->
  intra_servers inp ws affinityOrder roundFuel fuel key s = Some s' -> paid s s'.
Proof.
  induction fuel as [|fuel IH]; intros key s s' HI Ho; [done|]. cbn [intra_servers]. cbv zeta.
  pose proof (overload_nonneg inp s).
  destruct (next_server_key inp key =? INT32_MAX); [intros [= <-]; unfold paid; lia|].
  destruct (rounds_stop inp ws (fun s => intra_round inp ws affinityOrder s (next_server_key inp key)) roundFuel
    (fun s Hs => intra_round_ok inp ws affinityOrder Hok Haff s _ Hs) s HI Ho) as (s1 & E1 & Hs1).
  pose proof (iterate_paid _ roundFuel (fun s Hs => intra_round_ok inp ws affinityOrder Hok Haff s _ Hs)
    (fun s => intra_round_counts s _) s s1 HI E1) as P1.
  rewrite E1. case_bool_decide as Hf; [|by intros [= <-]]. intros E2.
  destruct Hs1 as [[HI1 Ho1]|[Hbad _]]; [|congruence].
  destruct (IH _ _ _ HI1 ltac:(lia) E2) as (Q1 & Q2 & Q3 & Q4). destruct P1 as (P1 & P2 & P3 & P4).
  specialize (P4 HI1). unfold paid. split_and!; try lia. intros HI'. specialize (Q4 HI'). lia.
Qed.
End rounds.

Lemma remainder_rounds inp ws s0 e src s : same_rounds s0 s ->
  match append_remainder inp ws e src s with inl s' | inr s' => same_rounds s0 s' end.
Proof.
  intros H. unfold append_remainder. case_if; [exact H|].
  match goal with |- context [AppendSegment ?i ?w ?s ?e ?a ?b ?c ?d ?n] =>
    pose proof (append_rounds i w s0 s e a b c d n H) as H1; destruct (AppendSegment i w s e a b c d n) as [s1 []] end;
  exact H1.
Qed.

Lemma remainders_rounds inp ws s0 s : same_rounds s0 s -> same_rounds s0 (AppendRemainders inp ws s).
Proof.
  intros H. unfold AppendRemainders.
  match goal with |- context [loop_ret ?b ?l ?x] =>
    pose proof (loop_ret_inv (same_rounds s0) (same_rounds s0) b l x
      (fun e s' _ Hs' => loop_ret_inv (same_rounds s0) (same_rounds s0) _ _ s'
        (fun src s2 _ => remainder_rounds inp ws s0 e src s2) Hs') H) as H1;
    destruct (loop_ret b l x) end; exact H1.
Qed.

(** The rounds of a run. *)
Lemma balance_rounds inp ws s : affinity_ok inp ws -> Validate inp ws = PLAN_OK ->
  Balance inp ws (round_fuel inp) = Some s ->
  0 <= intraRounds s /\ 0 <= interRounds s /\ rounds s <= in_rankSize inp * cap_ inp.
Proof.
  intros Hc Hval. pose proof (validate_ok _ _ Hval) as Hok. pose proof (affinity_rows_ranks inp ws Hc) as Haff.
  pose proof (initial_overload inp ws Hok) as Ho. pose proof (initial_inv inp ws Hok) as HI.
  pose proof (overload_nonneg inp (initial_state inp)) as Hn.
  assert (rounds (initial_state inp) = 0 /\ intraRounds (initial_state inp) = 0 /\ interRounds (initial_state inp) = 0) as (R0 & R1 & R2)
    by (unfold rounds, initial_state; destruct (foldl _ _ _); cbn; lia).
  assert (overload inp (initial_state inp) < Z.of_nat (round_fuel inp)) as Hfuel by (unfold round_fuel; lia).
  unfold Balance. destruct (RunIntra _ _ _ _ _) as [s1|] eqn:E1; [|done].
  destruct (run_intra_stop inp ws _ Hok Haff _ _ HI Hfuel) as (s1' & E1' & Hs1).
  rewrite E1 in E1'. injection E1' as <-.
  pose proof (servers_paid inp ws _ Hok Haff _ _ _ _ _ HI Hfuel E1) as (P1 & P2 & P3 & P4).
  case_bool_decide as F1; [|intros [= <-]; lia].
  destruct Hs1 as [[HI1 Ho1]|[Hbad _]]; [|congruence]. specialize (P4 HI1).
  destruct (RunInter _ _ _ _ _) as [s2|] eqn:E2; [|done]. pose proof (overload_nonneg inp s1) as Hn1.
  assert (paid inp ws s1 s2) as (Q1 & Q2 & Q3 & Q4).
  { apply (iterate_paid inp ws _ (round_fuel inp) (fun s Hs => inter_round_ok inp ws _ Hok Haff s Hs)
      (fun s => inter_round_counts inp ws _ s) s1 s2 HI1 E2). }
  assert (same_rounds s2 s -> 0 <= intraRounds s /\ 0 <= interRounds s /\ rounds s <= in_rankSize inp * cap_ inp) as Hend
    by (intros [A B]; unfold rounds in *; lia).
  case_bool_decide; intros [= <-]; apply Hend; [by apply remainders_rounds|done].
Qed.

(** The second status word counts the rounds inside servers. *)
Lemma run_word1 inp ws st o words : affinity_ok inp ws -> RunPlanAlgorithm inp ws = Some (st, o, words) ->
  0 <= nth 1 words 0 <= Z.max 0 (in_rankSize inp * cap_ inp).
Proof.
  intros Hc. unfold RunPlanAlgorithm. case_if; [intros [= <- <- <-]; cbn; lia|].
  apply negb_false_iff, bool_decide_eq_true in E.
  destruct (Balance inp ws (round_fuel inp)) as [s|] eqn:EB; [|done]. cbn [fmap option_fmap option_map].
  pose proof (balance_rounds inp ws s Hc E EB) as (H1 & H2 & H3). unfold rounds in H3.
  unfold finish. case_if; [intros [= <- <- <-]; cbn [nth FillStatus]; lia|].
  destruct (BuildLayouts inp ws s) as [ls l].
  destruct (bool_decide (ls = PLAN_OK)); [destruct (BuildDst _ _ _) as [s2 d]|]; intros [= <- <- <-];
    unfold FillStatus; cbn [nth]; lia.
Qed.
