(* ===== verification/RefPlan.v ===== *)
(** The reference planner of src/src/moonep/planner_v2/reference/ep_plan_reference.cpp: one
    function that plans for all the ranks at once, written with standard containers, against
    which the planner of PlanAlgorithm is compared. A [std::vector] is its size with its
    contents, a [std::set] is a finite set, [std::sort] sorts by its comparison. Loads and
    cursors are unbounded integers here; with [rankSize * nvS] in 32 bits they stay in range.
    The table indices are products of [int32_t]: [BuildReferencePlan] of RefOutput is undefined
    when [rankSize * expertNum] does not fit, and below that bound [ReIndex], [PairIndex] and the
    loop counters of this file are in range. [ValidateInput] counts the experts with an
    [int32_t] too; beyond that width it is read with an unbounded counter, and every result
    about a plan asks for a product that fits. *)
From stdpp Require Import gmap.
From S2P Require Import Prelude PlanTypes PlanSort PlanAlgorithm PlanOutput.

(** ** Containers *)

Record vector := Vector { vec_size : Z; vec_at : Z -> Z }.

Definition no_elements : vector := Vector 0 (fun _ => 0).

Definition std_sort {A : Type} (less : A -> A -> bool) (l : list A) : list A :=
  @merge_sort A (fun x y => less y x = false) (fun x y => decide (less y x = false)) l.

(** ** Data (ep_plan_reference.h) *)

Record ReferenceInput := {
  ri_rankSize : Z; ri_s : Z; ri_topK : Z; ri_expertNum : Z; ri_config : TileXRMoonEPPlanConfig;
  ri_globalRankIds : vector; ri_topkExperts : vector; ri_tokensPerExpert : vector
}.

Record ReferenceRankPair := { rp_srcRank : Z; rp_dstRank : Z; requestedUnits : Z }.

Record ReferenceExpertMove := {
  em_expertId : Z; em_srcHomeRank : Z; em_dstRank : Z; em_requestedUnits : Z;
  em_actualAssigned : Z; em_round : Z
}.

Record TokenSourceAssignment := {
  actualAssigned : Z; unmetDemand : Z; supplyExhausted : bool; routeLimited : bool;
  as_segments : list TokenSegmentMove
}.

Record ReferenceOutput := {
  finalStatus : TileXRMoonEPPlanStatus; ro_dst : vector; ro_cuSeqlens : vector;
  ro_expertsToCopy : vector; ro_expertTargets : vector; ro_remoteStats : vector;
  statusByRank : vector; ro_rankLoad : vector; ro_alloc : vector;
  ro_segments : list TokenSegmentMove; ro_expertMoves : list ReferenceExpertMove
}.

Record RankedLoad := { rl_rank : Z; rl_load : Z; rl_globalRankId : Z }.

(** The tables of [PlannerState] and of the output that the balancing changes. *)
Record PlannerState := {
  ref_rankLoad : Z -> Z; ref_alloc : Z -> Z; ref_segments : list TokenSegmentMove;
  ref_expertMoves : list ReferenceExpertMove; ref_remainingTpe : Z -> Z;
  ref_srcExpertCursor : Z -> Z; ref_dstExpertCursor : Z -> Z; ref_routedPairTokens : Z -> Z;
  remoteExpertSets : Z -> gset Z;
  sawSlotBlock : bool; sawSupplyBlock : bool; sawRouteOrPairBlock : bool
}.

Definition saw (s : PlannerState) (slot supply pair : bool) : PlannerState :=
  {| ref_rankLoad := ref_rankLoad s; ref_alloc := ref_alloc s; ref_segments := ref_segments s;
     ref_expertMoves := ref_expertMoves s; ref_remainingTpe := ref_remainingTpe s;
     ref_srcExpertCursor := ref_srcExpertCursor s; ref_dstExpertCursor := ref_dstExpertCursor s;
     ref_routedPairTokens := ref_routedPairTokens s; remoteExpertSets := remoteExpertSets s;
     sawSlotBlock := slot; sawSupplyBlock := supply; sawRouteOrPairBlock := pair |}.

Definition saw_slot (s : PlannerState) := saw s true (sawSupplyBlock s) (sawRouteOrPairBlock s).
Definition saw_supply (s : PlannerState) := saw s (sawSlotBlock s) true (sawRouteOrPairBlock s).
Definition saw_pair (s : PlannerState) := saw s (sawSlotBlock s) (sawSupplyBlock s) true.

(** ** Validation *)

(** [None] is [false]. *)
Definition CheckedProduct (a b : Z) : option Z :=
  if (a <? 0) || (b <? 0) then None
  else if negb (a =? 0) && (INT64_MAX / a <? b) then None
  else Some (a * b).

(** [None] is [ok = false]. *)
Definition RefAlignUp (value alignment : Z) : option Z :=
  if (value <? 0) || (alignment <=? 0) then None
  else if (0 <? value) && (INT32_MAX <? alignment) then None
  else
    let aligned := ((value + alignment - 1) / alignment) * alignment in
    if INT32_MAX <? aligned then None else Some aligned.

Definition check_global_ids (inp : ReferenceInput) : gset Z + TileXRMoonEPPlanStatus :=
  loop_ret (fun rank (globalIds : gset Z) =>
      let globalId := vec_at (ri_globalRankIds inp) rank in
      if (globalId <? 0) || bool_decide (globalId ∈ globalIds) then inr PLAN_ERROR_CONFIG_MISMATCH
      else inl ({[globalId]} ∪ globalIds))
    (seqZ 0 (ri_rankSize inp)) ∅.

Definition rank_histogram (inp : ReferenceInput) (cap rank : Z) : (Z -> Z) + TileXRMoonEPPlanStatus :=
  loop_ret (fun route histogram =>
      let expert := vec_at (ri_topkExperts inp) (rank * cap + route) in
      if (expert <? 0) || (ri_expertNum inp <=? expert) then inr PLAN_ERROR_CONFIG_MISMATCH
      else inl (upd1 histogram expert (histogram expert + 1)))
    (seqZ 0 cap) (fun _ => 0).

Definition check_rank (inp : ReferenceInput) (cap rank : Z) : unit + TileXRMoonEPPlanStatus :=
  match rank_histogram inp cap rank with
  | inr status => inr status
  | inl histogram =>
      match loop_ret (fun expert tpeSum =>
          let value := vec_at (ri_tokensPerExpert inp) (rank * ri_expertNum inp + expert) in
          if value <? 0 then inr PLAN_ERROR_CONFIG_MISMATCH
          else if negb (value =? histogram expert) then inr PLAN_ERROR_TPE_MISMATCH
          else inl (tpeSum + value))
        (seqZ 0 (ri_expertNum inp)) 0 with
      | inr status => inr status
      | inl tpeSum => if tpeSum =? cap then inl tt else inr PLAN_ERROR_TPE_MISMATCH
      end
  end.

Definition ValidateInput (inp : ReferenceInput) : TileXRMoonEPPlanStatus :=
  let config := ri_config inp in
  if (ri_rankSize inp <=? 0) || (512 <? ri_rankSize inp) || (ri_s inp <=? 0) ||
     (ri_topK inp <=? 0) || (32 <? ri_topK inp) || (ri_expertNum inp <=? 0) ||
     negb (ri_expertNum inp mod ri_rankSize inp =? 0)
  then PLAN_ERROR_CONFIG_MISMATCH
  else match CheckedProduct (ri_s inp) (ri_topK inp) with
  | None => PLAN_ERROR_CONFIG_MISMATCH
  | Some cap =>
      if (cap <=? 0) || (INT32_MAX <? cap) then PLAN_ERROR_CONFIG_MISMATCH
      else if negb (rankTokenCapacity config =? cap) || (prefetchSlots config <=? 0) ||
         (INT32_MAX <? prefetchSlots config) || (nvS config <? cap) || (INT32_MAX <? nvS config) ||
         (tokenPadding config <=? 0) || (tokenRouteLimitPerPair config <? 0) ||
         (cap <? tokenRouteLimitPerPair config) ||
         negb (cardsPerServer config =? kPlanCardsPerServer) ||
         negb (cardsPerCabinet config =? kPlanCardsPerCabinet) ||
         negb (crossCandidateCount config =? kPlanCrossCandidateCount)
      then PLAN_ERROR_CONFIG_MISMATCH
      else match CheckedProduct (ri_rankSize inp) cap,
                 CheckedProduct (ri_rankSize inp) (ri_expertNum inp),
                 CheckedProduct (ri_rankSize inp) (nvS config) with
      | Some routeCount, Some tpeCount, Some addressRange =>
          if (INT32_MAX <? addressRange) ||
             negb (vec_size (ri_globalRankIds inp) =? ri_rankSize inp) ||
             negb (vec_size (ri_topkExperts inp) =? routeCount) ||
             negb (vec_size (ri_tokensPerExpert inp) =? tpeCount)
          then PLAN_ERROR_CONFIG_MISMATCH
          else match check_global_ids inp with
          | inr status => status
          | inl _ =>
              match loop_ret (fun rank (_ : unit) => check_rank inp cap rank)
                      (seqZ 0 (ri_rankSize inp)) tt with
              | inr status => status
              | inl _ => PLAN_OK
              end
          end
      | _, _, _ => PLAN_ERROR_CONFIG_MISMATCH
      end
  end.

(** ** Sources of the tokens of a move *)

(** The variables of the loop of [AssignTokenSources]. *)
Record Assigning := {
  asg_remaining : Z -> Z; asg_routed : Z -> Z; asg_cursor : Z -> Z; asg_dstCursor : Z;
  asg_demand : Z; asg_actual : Z; asg_segments : list TokenSegmentMove
}.

Definition assign_source (size expertId dstRank routeLimit src : Z) (a : Assigning)
    : Assigning + unit :=
  if asg_demand a <=? 0 then inl a
  else if (src <? 0) || (size <=? src) then inr tt
  else
    let available := asg_remaining a src in
    if (available <? 0) || (asg_routed a src <? 0) || (asg_cursor a src <? 0) ||
       (asg_dstCursor a <? 0) then inr tt
    else
      let pairRemain := if negb (routeLimit =? 0) then routeLimit - asg_routed a src
                        else asg_demand a in
      let take := Z.min (Z.min available (asg_demand a)) (Z.max pairRemain 0) in
      if take <=? 0 then inl a
      else inl {|
        asg_remaining := upd1 (asg_remaining a) src (asg_remaining a src - take);
        asg_routed := if negb (routeLimit =? 0)
          then upd1 (asg_routed a) src (asg_routed a src + take) else asg_routed a;
        asg_cursor := upd1 (asg_cursor a) src (asg_cursor a src + take);
        asg_dstCursor := asg_dstCursor a + take;
        asg_demand := asg_demand a - take; asg_actual := asg_actual a + take;
        asg_segments := asg_segments a ++
          [{| expertId := expertId; srcRank := src; dstRank := dstRank;
              srcExpertBegin := asg_cursor a src; dstExpertBegin := asg_dstCursor a;
              tokenCount := take |}] |}.

(** [None] is [false]; the caller then drops its copies of the vectors. *)
Definition AssignTokenSources (expertId dstRank requestedUnits routeLimit : Z)
    (affinityOrder : list Z) (remainingBySrc routedBySrc srcCursor : vector) (dstCursor : Z)
    : option (Assigning * TokenSourceAssignment) :=
  if (expertId <? 0) || (dstRank <? 0) || (requestedUnits <? 0) || (routeLimit <? 0) ||
     negb (vec_size remainingBySrc =? vec_size routedBySrc) ||
     negb (vec_size remainingBySrc =? vec_size srcCursor) then None
  else
    let size := vec_size remainingBySrc in
    match loop_ret (assign_source size expertId dstRank routeLimit) affinityOrder
      {| asg_remaining := vec_at remainingBySrc; asg_routed := vec_at routedBySrc;
         asg_cursor := vec_at srcCursor; asg_dstCursor := dstCursor;
         asg_demand := requestedUnits; asg_actual := 0; asg_segments := [] |} with
    | inr _ => None
    | inl a =>
        let '(supply, routeBlocked) :=
          if 0 <? asg_demand a then
            foldl (fun acc src =>
                (fst acc + asg_remaining a src,
                 snd acc || (negb (routeLimit =? 0) && (0 <? asg_remaining a src) &&
                   (routeLimit <=? asg_routed a src))))
              (0, false) (seqZ 0 size)
          else (1, false) in
        Some (a, {| actualAssigned := asg_actual a; unmetDemand := asg_demand a;
                    supplyExhausted := supply =? 0; routeLimited := routeBlocked;
                    as_segments := asg_segments a |})
    end.

(** ** Balancing *)

Section reference.
Context (inp : ReferenceInput).

Definition ref_expertsPerRank : Z := ri_expertNum inp / ri_rankSize inp.
Definition ref_cap : Z := rankTokenCapacity (ri_config inp).
Definition ref_prefetchSlots : Z := prefetchSlots (ri_config inp).
Definition ref_routeLimit : Z := tokenRouteLimitPerPair (ri_config inp).

#[local] Abbreviation RE r e := (ReIndex r e (ri_expertNum inp)).
#[local] Abbreviation PI s d := (PairIndex s d (ri_rankSize inp)).
#[local] Abbreviation gid r := (vec_at (ri_globalRankIds inp) r).

Definition affinity_less (dst lhs rhs : Z) : bool :=
  let dstId := u32 (gid dst) in
  let lhsId := u32 (gid lhs) in
  let rhsId := u32 (gid rhs) in
  let lhsDistance := Z.lxor lhsId dstId in
  let rhsDistance := Z.lxor rhsId dstId in
  if negb (lhsDistance =? rhsDistance) then lhsDistance <? rhsDistance
  else if negb (lhsId =? rhsId) then lhsId <? rhsId
  else lhs <? rhs.

Definition BuildAffinityOrders (dst : Z) : list Z :=
  std_sort (affinity_less dst) (seqZ 0 (ri_rankSize inp)).

Definition alloc_less (al : Z -> Z) (rank lhs rhs : Z) : bool :=
  let lhsAlloc := al (RE rank lhs) in
  let rhsAlloc := al (RE rank rhs) in
  if negb (lhsAlloc =? rhsAlloc) then rhsAlloc <? lhsAlloc else lhs <? rhs.

(** The vectors of one expert, one entry per source, written back into a table. *)
Definition write_back (index : Z -> Z) (v t : Z -> Z) : Z -> Z :=
  foldl (fun t src => upd1 t (index src) (v src)) t (seqZ 0 (ri_rankSize inp)).

(** The part of an iteration of [ApplyExpertMove] behind a successful assignment:
    [(state, demand)]. *)
Definition apply_assignment (s : PlannerState) (srcHomeRank dstRank expert expertRequest round demand : Z)
    (alreadyRemote : bool) (a : Assigning) (assignment : TokenSourceAssignment) : PlannerState * Z :=
  let remaining := write_back (fun src => RE src expert) (asg_remaining a) (ref_remainingTpe s) in
  let routed := write_back (fun src => PI src dstRank) (asg_routed a) (ref_routedPairTokens s) in
  let cursors := write_back (fun src => RE src expert) (asg_cursor a) (ref_srcExpertCursor s) in
  let dstCursors := upd1 (ref_dstExpertCursor s) (RE dstRank expert) (asg_dstCursor a) in
  let actual := actualAssigned assignment in
  let moved := 0 <? actual in
  let al := upd1 (ref_alloc s) (RE srcHomeRank expert) (ref_alloc s (RE srcHomeRank expert) - actual) in
  let load := upd1 (ref_rankLoad s) srcHomeRank (ref_rankLoad s srcHomeRank - actual) in
  let s1 := {|
    ref_rankLoad := if moved then upd1 load dstRank (load dstRank + actual) else ref_rankLoad s;
    ref_alloc := if moved then upd1 al (RE dstRank expert) (al (RE dstRank expert) + actual)
                 else ref_alloc s;
    ref_segments := if moved then ref_segments s ++ as_segments assignment else ref_segments s;
    ref_expertMoves := if moved then ref_expertMoves s ++
        [{| em_expertId := expert; em_srcHomeRank := srcHomeRank; em_dstRank := dstRank;
            em_requestedUnits := expertRequest; em_actualAssigned := actual; em_round := round |}]
      else ref_expertMoves s;
    ref_remainingTpe := remaining; ref_srcExpertCursor := cursors;
    ref_dstExpertCursor := dstCursors; ref_routedPairTokens := routed;
    remoteExpertSets := if moved && negb alreadyRemote
      then upd1 (remoteExpertSets s) dstRank ({[expert]} ∪ remoteExpertSets s dstRank)
      else remoteExpertSets s;
    sawSlotBlock := sawSlotBlock s; sawSupplyBlock := sawSupplyBlock s;
    sawRouteOrPairBlock := sawRouteOrPairBlock s |} in
  (if 0 <? unmetDemand assignment then
     if routeLimited assignment then saw_pair s1
     else if supplyExhausted assignment then saw_supply s1 else s1
   else s1,
   if moved then demand - actual else demand).

(** One expert of [ApplyExpertMove]: [(state, demand, foundCandidate)]. *)
Definition ref_move_expert (srcHomeRank dstRank round : Z) (acc : PlannerState * Z * bool) (expert : Z)
    : PlannerState * Z * bool :=
  let '(s, demand, foundCandidate) := acc in
  if demand <=? 0 then acc
  else
    let availableAlloc := ref_alloc s (RE srcHomeRank expert) in
    if availableAlloc <=? 0 then acc
    else
      let alreadyRemote := bool_decide (expert ∈ remoteExpertSets s dstRank) in
      if negb alreadyRemote && (ref_prefetchSlots <=? Z.of_nat (size (remoteExpertSets s dstRank)))
      then (saw_slot s, demand, foundCandidate)
      else
        let expertRequest := Z.min availableAlloc demand in
        let column t := Vector (ri_rankSize inp) t in
        match AssignTokenSources expert dstRank expertRequest ref_routeLimit
          (BuildAffinityOrders dstRank) (column (fun src => ref_remainingTpe s (RE src expert)))
          (column (fun src => ref_routedPairTokens s (PI src dstRank)))
          (column (fun src => ref_srcExpertCursor s (RE src expert)))
          (ref_dstExpertCursor s (RE dstRank expert)) with
        | None => (saw_pair s, demand, true)
        | Some (a, assignment) =>
            (apply_assignment s srcHomeRank dstRank expert expertRequest round demand
               alreadyRemote a assignment, true)
        end.

Definition ref_expert_order (s : PlannerState) (srcHomeRank : Z) : list Z :=
  std_sort (alloc_less (ref_alloc s) srcHomeRank)
    (List.filter (fun e => 0 <? ref_alloc s (RE srcHomeRank e))
       (seqZ (srcHomeRank * ref_expertsPerRank) ref_expertsPerRank)).

Definition RefApplyExpertMove (s : PlannerState) (srcHomeRank dstRank requestedUnits round : Z)
    : PlannerState * Z :=
  if (requestedUnits <=? 0) || (srcHomeRank =? dstRank) then (s, 0)
  else
    let '(s1, demand, foundCandidate) :=
      foldl (ref_move_expert srcHomeRank dstRank round) (s, requestedUnits, false)
        (ref_expert_order s srcHomeRank) in
    (if (0 <? demand) && negb foundCandidate then saw_pair s1 else s1, requestedUnits - demand).

(** ** Pairs inside a server *)

Definition load_less (lhs rhs : RankedLoad) : bool :=
  if negb (rl_load lhs =? rl_load rhs) then rl_load rhs <? rl_load lhs
  else if negb (rl_globalRankId lhs =? rl_globalRankId rhs)
  then rl_globalRankId lhs <? rl_globalRankId rhs
  else rl_rank lhs <? rl_rank rhs.

Definition load_less_ascending (lhs rhs : RankedLoad) : bool :=
  if negb (rl_load lhs =? rl_load rhs) then rl_load lhs <? rl_load rhs
  else if negb (rl_globalRankId lhs =? rl_globalRankId rhs)
  then rl_globalRankId lhs <? rl_globalRankId rhs
  else rl_rank lhs <? rl_rank rhs.

Definition no_load : RankedLoad := {| rl_rank := 0; rl_load := 0; rl_globalRankId := 0 |}.

Fixpoint ref_middle (cap : Z) (active : list RankedLoad) (middle : nat) : nat :=
  match middle with
  | O => O
  | S m => if rl_load (nth m active no_load) + rl_load (nth (S m) active no_load) <=? cap
           then ref_middle cap active m else S m
  end.

(** The pairs of the sender and receiver lists, in order. *)
Definition pair_up (cap : Z) (senders receivers : list RankedLoad) : list ReferenceRankPair :=
  omap (fun p =>
      let requested := Z.min (rl_load (fst p) - cap) (cap - rl_load (snd p)) in
      if 0 <? requested
      then Some {| rp_srcRank := rl_rank (fst p); rp_dstRank := rl_rank (snd p);
                   requestedUnits := requested |}
      else None)
    (zip senders receivers).

(** [None] is [false]. *)
Definition BuildIntraServerPairs (rankLoad globalRankIds : list Z) (cap : Z)
    : option (list ReferenceRankPair) :=
  if (cap <=? 0) || negb (Z.of_nat (length rankLoad) =? Z.of_nat (length globalRankIds)) then None
  else match loop_ret (fun rank (active : list RankedLoad) =>
      let load := nth (Z.to_nat rank) rankLoad 0 in
      let globalId := nth (Z.to_nat rank) globalRankIds 0 in
      if (load <? 0) || (globalId <? 0) then inr tt
      else inl (if negb (load =? cap)
                then active ++ [{| rl_rank := rank; rl_load := load; rl_globalRankId := globalId |}]
                else active))
    (seqZ 0 (Z.of_nat (length rankLoad))) [] with
  | inr _ => None
  | inl found =>
      let active := std_sort load_less found in
      let count := length active in
      if (count <? 2)%nat ||
         (rl_load (nth 0 active no_load) + rl_load (nth 1 active no_load) <? cap) ||
         (cap <? rl_load (nth (count - 1) active no_load))
      then Some []
      else
        let middle := ref_middle cap active (count / 2)%nat in
        if (middle =? 0)%nat then Some []
        else
          Some (pair_up cap
            (List.filter (fun x => cap <? rl_load x) (rev (take middle active)))
            (List.filter (fun x => rl_load x <? cap) (drop middle active)))
  end.

(** ** The two stages *)

(** A loop variable: the state, [roundCounter] and [stageRounds]. *)
Record Stage := { sg_state : PlannerState; roundCounter : Z; stageRounds : Z }.

Inductive stage_result : Type :=
| Next (g : Stage)
| Leave (g : Stage).

Fixpoint iterate_stage (round : Stage -> stage_result) (fuel : nat) (g : Stage) : option Stage :=
  match fuel with
  | O => None
  | S fuel' => match round g with Leave g' => Some g' | Next g' => iterate_stage round fuel' g' end
  end.

Definition end_round (s : PlannerState) (g : Stage) (actualRound : Z) : stage_result :=
  if actualRound =? 0
  then Leave {| sg_state := saw_pair s; roundCounter := roundCounter g + 1; stageRounds := stageRounds g |}
  else Next {| sg_state := s; roundCounter := roundCounter g + 1; stageRounds := stageRounds g + 1 |}.

Definition ref_server_key (rank : Z) : Z := gid rank / kPlanCardsPerServer.

Definition server_keys : list Z :=
  std_sort Z.ltb
    (foldl (fun keys rank =>
        if bool_decide (ref_server_key rank ∈ keys) then keys else keys ++ [ref_server_key rank])
      [] (seqZ 0 (ri_rankSize inp))).

Definition ref_members (key : Z) : list Z :=
  List.filter (fun rank => ref_server_key rank =? key) (seqZ 0 (ri_rankSize inp)).

Definition ref_intra_round (members : list Z) (g : Stage) : stage_result :=
  let s := sg_state g in
  match BuildIntraServerPairs (map (ref_rankLoad s) members) (map (vec_at (ri_globalRankIds inp)) members) ref_cap with
  | None | Some [] => Leave g
  | Some localPairs =>
      let '(s1, actualRound) :=
        foldl (fun acc p =>
            let '(s, actualRound) := acc in
            let '(s1, moved) := RefApplyExpertMove s (nth (Z.to_nat (rp_srcRank p)) members 0)
              (nth (Z.to_nat (rp_dstRank p)) members 0) (requestedUnits p) (roundCounter g) in
            (s1, actualRound + moved))
          (s, 0) localPairs in
      end_round s1 g actualRound
  end.

Definition RunIntraServerStage (fuel : nat) (g : Stage) : option Stage :=
  foldl (fun acc key => acc ≫= iterate_stage (ref_intra_round (ref_members key)) fuel)
    (Some g) server_keys.

(** The ranks of the sender group in affinity order, at most three. *)
Definition BuildStaticTopCandidates (senderGroup affinityOrder : list Z) : list Z :=
  take (Z.to_nat kPlanCrossCandidateCount)
    (List.filter (fun rank => bool_decide (rank ∈ (list_to_set senderGroup : gset Z))) affinityOrder).

(** The candidate loop of one receiver: [(state, occupied, actual)]. *)
Fixpoint ref_candidates (s : PlannerState) (dst round : Z) (occupied : gset Z) (candidates : list Z)
    : PlannerState * gset Z * Z :=
  match candidates with
  | [] => (s, occupied, 0)
  | src :: rest =>
      if bool_decide (src ∈ occupied) then ref_candidates s dst round occupied rest
      else
        let overflow := ref_rankLoad s src - ref_cap in
        let deficit := ref_cap - ref_rankLoad s dst in
        let requested := Z.min overflow deficit in
        if requested <=? 0 then ref_candidates s dst round occupied rest
        else
          let '(s1, actual) := RefApplyExpertMove s src dst requested round in
          if 0 <? actual then (s1, {[src]} ∪ occupied, actual)
          else ref_candidates s1 dst round occupied rest
  end.

Definition ranked (s : PlannerState) (rank : Z) : RankedLoad :=
  {| rl_rank := rank; rl_load := ref_rankLoad s rank; rl_globalRankId := gid rank |}.

Definition ref_inter_round (g : Stage) : stage_result :=
  let s := sg_state g in
  let found := map (ranked s)
    (List.filter (fun r => negb (ref_rankLoad s r =? ref_cap)) (seqZ 0 (ri_rankSize inp))) in
  let underloadedCount := Z.of_nat (length (List.filter (fun x => rl_load x <? ref_cap) found)) in
  let activeCount := Z.of_nat (length found) in
  if (activeCount <? 2) || (underloadedCount =? 0) || (underloadedCount =? activeCount) then Leave g
  else
    let active := std_sort load_less found in
    let receiverCount := Z.min underloadedCount (activeCount / 2) in
    if receiverCount <=? 0 then Leave g
    else
      let senderCount := activeCount - receiverCount in
      let senderGroup := map rl_rank (take (Z.to_nat senderCount) active) in
      let receivers := std_sort load_less_ascending (drop (Z.to_nat senderCount) active) in
      let '(s1, _, actualRound) :=
        foldl (fun acc receiver =>
            let '(s, occupied, actualRound) := acc in
            let '(s1, occupied1, actual) :=
              ref_candidates s (rl_rank receiver) (roundCounter g) occupied
                (BuildStaticTopCandidates senderGroup (BuildAffinityOrders (rl_rank receiver))) in
            (s1, occupied1, actualRound + actual))
          (s, ∅, 0) receivers in
      end_round s1 g actualRound.

Definition RunInterServerStage (fuel : nat) (g : Stage) : option Stage :=
  iterate_stage ref_inter_round fuel g.

Definition append_remainder_segment (expert : Z) (s : PlannerState) (src : Z) : PlannerState :=
  let dst := HomeRank expert ref_expertsPerRank in
  let index := RE src expert in
  let count := ref_remainingTpe s index in
  if count <=? 0 then s
  else
    let dstIndex := RE dst expert in
    {| ref_rankLoad := ref_rankLoad s; ref_alloc := ref_alloc s;
       ref_segments := ref_segments s ++
         [{| expertId := expert; srcRank := src; dstRank := dst;
             srcExpertBegin := ref_srcExpertCursor s index;
             dstExpertBegin := ref_dstExpertCursor s dstIndex; tokenCount := count |}];
       ref_expertMoves := ref_expertMoves s;
       ref_remainingTpe := upd1 (ref_remainingTpe s) index 0;
       ref_srcExpertCursor := upd1 (ref_srcExpertCursor s) index (ref_srcExpertCursor s index + count);
       ref_dstExpertCursor := upd1 (ref_dstExpertCursor s) dstIndex (ref_dstExpertCursor s dstIndex + count);
       ref_routedPairTokens := ref_routedPairTokens s; remoteExpertSets := remoteExpertSets s;
       sawSlotBlock := sawSlotBlock s; sawSupplyBlock := sawSupplyBlock s;
       sawRouteOrPairBlock := sawRouteOrPairBlock s |}.

Definition AppendRemainderSegments (s : PlannerState) : PlannerState :=
  foldl (fun s expert => foldl (append_remainder_segment expert) s (seqZ 0 (ri_rankSize inp)))
    s (seqZ 0 (ri_expertNum inp)).
End reference.
