(* ===== verification/RefOutput.v ===== *)
(** The second half of the reference planner (src/src/moonep/planner_v2/reference/
    ep_plan_reference.cpp): the layouts of all the ranks, the destinations of all the routes, the
    status words of every rank, and [BuildReferencePlan]. The indices that the source computes
    with [int32_t] operands overflow for some accepted inputs; the result is then [None], which
    stands for undefined behaviour: [rankSize * expertNum] in [BuildReferencePlan] bounds every
    [ReIndex], and [dst * prefetchSlots] is guarded where [BuildLayouts] computes it. *)
From stdpp Require Import gmap.
From S2P Require Import Prelude PlanTypes PlanSort PlanAlgorithm PlanOutput RefPlan.

(** The vectors that [BuildLayouts] fills. *)
Record RefLayout := {
  rf_cuSeqlens : Z -> Z; rf_expertsToCopy : Z -> Z; rf_remoteStats : Z -> Z;
  rf_expertTargets : Z -> Z; rf_base : Z -> Z; rf_remote : Z -> list Z
}.

Section reference.
Context (inp : ReferenceInput).

#[local] Abbreviation RE r e := (ReIndex r e (ri_expertNum inp)).
#[local] Abbreviation R := (ri_rankSize inp).
#[local] Abbreviation epr := (ref_expertsPerRank inp).
#[local] Abbreviation slots := (ref_prefetchSlots inp).

Definition ref_groupCount : Z := ri_expertNum inp + slots.
Definition ref_targetWords : Z := (R + 63) / 64.

Definition ref_empty_layout : RefLayout :=
  {| rf_cuSeqlens := fun _ => 0; rf_expertsToCopy := fun _ => -1; rf_remoteStats := fun _ => 0;
     rf_expertTargets := fun _ => 0; rf_base := fun _ => 0; rf_remote := fun _ => [] |}.

Definition ref_remote_row (al : Z -> Z) (dst : Z) : list Z :=
  std_sort (alloc_less inp al dst)
    (List.filter (fun e => negb (HomeRank e epr =? dst) && (0 <? al (RE dst e)))
       (seqZ 0 (ri_expertNum inp))).

(** What one remote expert of [dst], in slot [slot], adds to the vectors. *)
Definition ref_publish_slot (dst : Z) (remote : list Z) (l : RefLayout) (slot : Z) : RefLayout :=
  let expert := nth (Z.to_nat slot) remote 0 in
  let home := HomeRank expert epr in
  let localExpert := expert - home * epr in
  let word := (home * epr + localExpert) * ref_targetWords + dst / 64 in
  {| rf_cuSeqlens := rf_cuSeqlens l;
     rf_expertsToCopy := upd1 (rf_expertsToCopy l) (dst * slots + slot) expert;
     rf_remoteStats := upd1 (rf_remoteStats l) (home * 2 + 1) (rf_remoteStats l (home * 2 + 1) + 1);
     rf_expertTargets := upd1 (rf_expertTargets l) word
       (Z.lor (rf_expertTargets l word) (Z.shiftl 1 (dst mod 64)));
     rf_base := rf_base l; rf_remote := rf_remote l |}.

(** [inr None] is the overflow of [dst * state->prefetchSlots], computed for every slot in use. *)
Definition ref_place_remote (al : Z -> Z) (dst : Z) (l : RefLayout)
    : RefLayout + option (TileXRMoonEPPlanStatus * RefLayout) :=
  let remote := ref_remote_row al dst in
  let count := Z.of_nat (length remote) in
  if slots <? count then inr (Some (PLAN_PARTIAL_PREFETCH_SLOT_EXHAUSTED, l))
  else if (0 <? count) && (INT32_MAX <? dst * slots) then inr None
  else
    let l1 := {| rf_cuSeqlens := rf_cuSeqlens l; rf_expertsToCopy := rf_expertsToCopy l;
                 rf_remoteStats := upd1 (rf_remoteStats l) (dst * 2) count;
                 rf_expertTargets := rf_expertTargets l; rf_base := rf_base l;
                 rf_remote := upd1 (rf_remote l) dst remote |} in
    inl (foldl (ref_publish_slot dst remote) l1 (seqZ 0 count)).

(** [slotOfExpert]: the slot of every remote expert of a rank, [-1] for the others. *)
Definition slot_of_expert (remote : list Z) : Z -> Z :=
  foldl (fun t slot => upd1 t (nth (Z.to_nat slot) remote 0) slot) (fun _ => -1)
    (seqZ 0 (Z.of_nat (length remote))).

(** The expert of a group, if any. *)
Definition ref_group_expert (remote : list Z) (group : Z) : option Z :=
  if group <? ri_expertNum inp then
    if slot_of_expert remote group <? 0 then Some group else None
  else
    let slot := group - ri_expertNum inp in
    if slot <? Z.of_nat (length remote) then Some (nth (Z.to_nat slot) remote 0) else None.

Definition ref_place_group (al : Z -> Z) (dst : Z) (remote : list Z) (group : Z) (acc : RefLayout * Z)
    : (RefLayout * Z) + (TileXRMoonEPPlanStatus * RefLayout) :=
  let '(l, previousEnd) := acc in
  let '(count, base) := match ref_group_expert remote group with
    | Some expert => (al (RE dst expert), upd1 (rf_base l) (RE dst expert) previousEnd)
    | None => (0, rf_base l)
    end in
  let with_cu cu := {| rf_cuSeqlens := cu; rf_expertsToCopy := rf_expertsToCopy l;
                       rf_remoteStats := rf_remoteStats l; rf_expertTargets := rf_expertTargets l;
                       rf_base := base; rf_remote := rf_remote l |} in
  match (if count =? 0 then Some 0 else RefAlignUp count (tokenPadding (ri_config inp))) with
  | None => inr (PLAN_ERROR_LAYOUT_EXCEEDS_NVS, with_cu (rf_cuSeqlens l))
  | Some padded =>
      if nvS (ri_config inp) - previousEnd <? padded
      then inr (PLAN_ERROR_LAYOUT_EXCEEDS_NVS, with_cu (rf_cuSeqlens l))
      else inl (with_cu (upd1 (rf_cuSeqlens l) (dst * ref_groupCount + group) (previousEnd + padded)),
                previousEnd + padded)
  end.

Definition ref_place_groups (al : Z -> Z) (dst : Z) (l : RefLayout)
    : RefLayout + (TileXRMoonEPPlanStatus * RefLayout) :=
  match loop_ret (ref_place_group al dst (rf_remote l dst)) (seqZ 0 ref_groupCount) (l, 0) with
  | inr r => inr r
  | inl (l', _) => inl l'
  end.

(** [None] is undefined behaviour. *)
Definition RefBuildLayouts (s : PlannerState) : option (TileXRMoonEPPlanStatus * RefLayout) :=
  match loop_ret (ref_place_remote (ref_alloc s)) (seqZ 0 R) ref_empty_layout with
  | inr r => r
  | inl l =>
      match loop_ret (ref_place_groups (ref_alloc s)) (seqZ 0 R) l with
      | inr r => Some r
      | inl l' => Some (PLAN_OK, l')
      end
  end.

(** ** Destinations *)

Definition begin_less (lhs rhs : TokenSegmentMove) : bool := srcExpertBegin lhs <? srcExpertBegin rhs.

(** [segmentsBySourceExpert], sorted. *)
Definition segments_of (segments : list TokenSegmentMove) (src expert : Z) : list TokenSegmentMove :=
  std_sort begin_less
    (List.filter (fun m => RE (srcRank m) (expertId m) =? RE src expert) segments).

(** One route: [(dst, ordinal, seenRanks)]. *)
Definition ref_build_route (s : PlannerState) (base : Z -> Z) (src token k : Z)
    (acc : (Z -> Z) * (Z -> Z) * gset Z)
    : ((Z -> Z) * (Z -> Z) * gset Z) + (TileXRMoonEPPlanStatus * (Z -> Z)) :=
  let '(dst, ordinal, seenRanks) := acc in
  let localRoute := token * ri_topK inp + k in
  let routeIndex := src * ref_cap inp + localRoute in
  let expert := vec_at (ri_topkExperts inp) routeIndex in
  let currentOrdinal := ordinal expert in
  let ordinal1 := upd1 ordinal expert (currentOrdinal + 1) in
  match List.find (fun m => (srcExpertBegin m <=? currentOrdinal) &&
                       (currentOrdinal <? srcExpertBegin m + tokenCount m))
          (segments_of (ref_segments s) src expert) with
  | None => inr (PLAN_ERROR_INTERNAL_INVARIANT, dst)
  | Some matched =>
      let segmentOffset := currentOrdinal - srcExpertBegin matched in
      let localOffset := base (RE (dstRank matched) expert) + dstExpertBegin matched + segmentOffset in
      let raw := dstRank matched * nvS (ri_config inp) + localOffset in
      if (localOffset <? 0) || (nvS (ri_config inp) <=? localOffset) || (raw <? 0) ||
         (INT32_MAX <? raw)
      then inr (PLAN_ERROR_INTERNAL_INVARIANT, dst)
      else inl (upd1 dst routeIndex
                  (if bool_decide (dstRank matched ∈ seenRanks) then Z.lnot raw else raw),
                ordinal1, {[dstRank matched]} ∪ seenRanks)
  end.

Definition ref_build_rank (s : PlannerState) (base : Z -> Z) (src : Z) (dst : Z -> Z)
    : (Z -> Z) + (TileXRMoonEPPlanStatus * (Z -> Z)) :=
  match loop_ret (fun token (acc : (Z -> Z) * (Z -> Z)) =>
          match loop_ret (ref_build_route s base src token) (seqZ 0 (ri_topK inp))
                  (fst acc, snd acc, ∅) with
          | inr r => inr r
          | inl (dst', ordinal', _) => inl (dst', ordinal')
          end)
        (seqZ 0 (ri_s inp)) (dst, fun _ => 0) with
  | inr r => inr r
  | inl (dst', _) => inl dst'
  end.

Definition RefBuildDst (s : PlannerState) (base : Z -> Z) : TileXRMoonEPPlanStatus * (Z -> Z) :=
  match loop_ret (ref_build_rank s base) (seqZ 0 R) (fun _ => 0) with
  | inr r => r
  | inl dst => (PLAN_OK, dst)
  end.

(** ** Status words *)

(** The eight words of one rank. *)
Definition ref_status_words (s : PlannerState) (l : RefLayout) (status : TileXRMoonEPPlanStatus)
    (intraRounds interRounds rank : Z) : list Z :=
  let deficit := foldl (fun d r => let delta := ref_rankLoad s r - ref_cap inp in
                          if delta <? 0 then d - delta else d) 0 (seqZ 0 R) in
  let maxRemoteExperts := foldl (fun m r => Z.max m (rf_remoteStats l (r * 2))) 0 (seqZ 0 R) in
  let localSegments := Z.of_nat (length (List.filter (fun m => srcRank m =? rank) (ref_segments s))) in
  [ status_code status; intraRounds; interRounds; deficit; maxRemoteExperts;
    rf_cuSeqlens l ((rank + 1) * ref_groupCount - 1);
    Z.of_nat (length (ref_expertMoves s)); localSegments ].

Definition RefFillStatus (s : PlannerState) (l : RefLayout) (status : TileXRMoonEPPlanStatus)
    (intraRounds interRounds : Z) : vector :=
  Vector (R * kPlanStatusWords) (fun i =>
    nth (Z.to_nat (i mod kPlanStatusWords))
      (ref_status_words s l status intraRounds interRounds (i / kPlanStatusWords)) 0).

(** ** The whole plan *)

Definition ref_initial_state : PlannerState :=
  let '(al, load) :=
    foldl (fun acc expert =>
        let '(al, load) := acc in
        let count := foldl (fun c src => c + vec_at (ri_tokensPerExpert inp) (RE src expert)) 0
          (seqZ 0 R) in
        let home := HomeRank expert epr in
        (upd1 al (RE home expert) count, upd1 load home (load home + count)))
      (fun _ => 0, fun _ => 0) (seqZ 0 (ri_expertNum inp)) in
  {| ref_rankLoad := load; ref_alloc := al; ref_segments := []; ref_expertMoves := [];
     ref_remainingTpe := vec_at (ri_tokensPerExpert inp); ref_srcExpertCursor := fun _ => 0;
     ref_dstExpertCursor := fun _ => 0; ref_routedPairTokens := fun _ => 0;
     remoteExpertSets := fun _ => ∅;
     sawSlotBlock := false; sawSupplyBlock := false; sawRouteOrPairBlock := false |}.

(** The balancing: the final state and the rounds of the two stages. *)
Definition ref_balance (fuel : nat) : option (PlannerState * Z * Z) :=
  g1 ← RunIntraServerStage inp fuel {| sg_state := ref_initial_state; roundCounter := 0; stageRounds := 0 |};
  g2 ← RunInterServerStage inp fuel
         {| sg_state := sg_state g1; roundCounter := roundCounter g1; stageRounds := 0 |};
  Some (AppendRemainderSegments inp (sg_state g2), stageRounds g1, stageRounds g2).

Definition empty_plan (status : TileXRMoonEPPlanStatus) : ReferenceOutput :=
  {| finalStatus := status; ro_dst := no_elements; ro_cuSeqlens := no_elements;
     ro_expertsToCopy := no_elements; ro_expertTargets := no_elements; ro_remoteStats := no_elements;
     statusByRank := no_elements; ro_rankLoad := no_elements; ro_alloc := no_elements;
     ro_segments := []; ro_expertMoves := [] |}.

Definition ref_balanced (s : PlannerState) : bool :=
  forallb (fun r => ref_rankLoad s r =? ref_cap inp) (seqZ 0 R).

Definition ref_balance_status (s : PlannerState) : TileXRMoonEPPlanStatus :=
  if ref_balanced s then PLAN_OK
  else if sawSlotBlock s then PLAN_PARTIAL_PREFETCH_SLOT_EXHAUSTED
  else if sawSupplyBlock s then PLAN_PARTIAL_TOKEN_SUPPLY
  else PLAN_PARTIAL_NO_FEASIBLE_PAIR.

Definition ref_finish (s : PlannerState) (intraRounds interRounds : Z)
    : option (TileXRMoonEPPlanStatus * ReferenceOutput) :=
  '(layoutStatus, l) ← RefBuildLayouts s;
  let '(dstStatus, dst) :=
    if bool_decide (layoutStatus = PLAN_OK) then
      let '(st, dst) := RefBuildDst s (rf_base l) in (st, Vector (R * ref_cap inp) dst)
    else (layoutStatus, no_elements) in
  let status := if ref_balanced s then dstStatus else ref_balance_status s in
  Some (status,
   {| finalStatus := status; ro_dst := dst;
      ro_cuSeqlens := Vector (R * ref_groupCount) (rf_cuSeqlens l);
      ro_expertsToCopy := Vector (R * slots) (rf_expertsToCopy l);
      ro_expertTargets := Vector (R * epr * ref_targetWords) (rf_expertTargets l);
      ro_remoteStats := Vector (R * 2) (rf_remoteStats l);
      statusByRank := RefFillStatus s l status intraRounds interRounds;
      ro_rankLoad := Vector R (ref_rankLoad s);
      ro_alloc := Vector (R * ri_expertNum inp) (ref_alloc s);
      ro_segments := ref_segments s; ro_expertMoves := ref_expertMoves s |}).

(** As many rounds as the planner of PlanAlgorithm allows. *)
Definition ref_fuel : nat := S (Z.to_nat (R * ref_cap inp)).

(** [None] is undefined behaviour. [state.rankSize * state.expertNum] is computed before the first
    [ReIndex] and is larger than all of them. *)
Definition BuildReferencePlan : option (TileXRMoonEPPlanStatus * ReferenceOutput) :=
  let validation := ValidateInput inp in
  if negb (bool_decide (validation = PLAN_OK)) then Some (validation, empty_plan validation)
  else if INT32_MAX <? R * ri_expertNum inp then None
  else
    '(s, intraRounds, interRounds) ← ref_balance ref_fuel;
    ref_finish s intraRounds interRounds.
End reference.
