(* ===== verification/RefMove.v ===== *)
(** The reference planner moves tokens exactly as the planner of PlanAlgorithm does: sorting,
    the sources of a move, and [ApplyExpertMove]. *)
From Stdlib Require Import FunctionalExtensionality.
From stdpp Require Import gmap.
From S2P Require Import Prelude PlanTypes PlanSort PlanAlgorithm PlanOutput PlanMove PlanSegments RefPlan.

(** ** Sorting *)

Class StrictWeak {A : Type} (less : A -> A -> bool) : Prop := {
  less_asym x y : less x y = true -> less y x = false;
  less_neg_trans x y z : less x y = false -> less y z = false -> less x z = false
}.

Lemma std_sort_perm {A} (less : A -> A -> bool) l : std_sort less l ≡ₚ l.
Proof. apply merge_sort_Permutation. Qed.

(** [std::sort] has one possible result when no two different elements are equivalent. *)
Lemma std_sort_unique {A} (less : A -> A -> bool) `{!StrictWeak less} l l' :
  l' ≡ₚ l -> StronglySorted (fun x y => less y x = false) l' ->
  (forall x y, x ∈ l -> y ∈ l -> less x y = false -> less y x = false -> x = y) ->
  std_sort less l = l'.
Proof.
  intros Hp Hs Hanti. pose proof (std_sort_perm less l) as Hp'.
  apply (StronglySorted_unique_strong (fun x y => less y x = false)); [| |done|by rewrite Hp'].
  - intros x y Hx Hy. rewrite Hp' in Hx. rewrite Hp in Hy. intros. by apply Hanti.
  - apply StronglySorted_merge_sort.
    + intros x y z H1 H2. by apply (less_neg_trans z y x).
    + intros x y. destruct (less x y) eqn:E; [left; by apply less_asym|by right].
Qed.

Lemma std_sort_map {A} (g : Z -> A) (less : A -> A -> bool) (better : Z -> Z -> bool) l :
  StrictWeak less -> TotalBetter better -> NoDup l ->
  (forall x y, x ∈ l -> y ∈ l -> x <> y -> better x y = less (g x) (g y)) ->
  std_sort less (map g l) = map g (insertion_sort better l).
Proof.
  intros HW HB Hnd Heq. apply std_sort_unique; [done| | |].
  - by rewrite insertion_sort_perm.
  - pose proof (insertion_sort_sorted better l Hnd) as Hs.
    pose proof (insertion_sort_perm better l) as Hp.
    assert (forall x, x ∈ insertion_sort better l -> x ∈ l) as Hin by (intros x; by rewrite Hp).
    assert (NoDup (insertion_sort better l)) as Hnd' by (by rewrite Hp). clear Hp.
    revert Hs Hin Hnd'. generalize (insertion_sort better l). intros l0 Hs.
    induction Hs as [|x l0 Hs IH Hx]; intros Hin Hnd'; [constructor|]. cbn.
    apply NoDup_cons in Hnd' as [Hxl Hnd']. constructor; [apply IH; [|done]; intros; apply Hin; by right|].
    rewrite List.Forall_forall in Hx |- *. intros y (z & <- & Hz)%in_map_iff. specialize (Hx z Hz).
    apply list_elem_of_In in Hz. rewrite Heq in Hx; [by apply less_asym|apply Hin; by left|apply Hin; by right|].
    by intros ->.
  - intros x y Hx Hy H1 H2. apply list_elem_of_In, in_map_iff in Hx as (a & <- & Ha%list_elem_of_In).
    apply list_elem_of_In, in_map_iff in Hy as (b & <- & Hb%list_elem_of_In).
    destruct (decide (a = b)) as [->|Hne]; [done|]. exfalso.
    pose proof (better_flip a b Hne) as Hf. rewrite !Heq, H1, H2 in Hf by done. done.
Qed.

Lemma std_sort_insertion (less better : Z -> Z -> bool) l :
  StrictWeak less -> TotalBetter better -> NoDup l ->
  (forall x y, x ∈ l -> y ∈ l -> x <> y -> better x y = less x y) ->
  std_sort less l = insertion_sort better l.
Proof. intros ? ? ? ?. rewrite <- (map_id l) at 1. rewrite (std_sort_map id less better); [apply map_id|done..]. Qed.

(** Three keys compared one after the other. *)
Lemma three_keys {A} (k1 k2 k3 : A -> Z) (less : A -> A -> bool) :
  (forall x y, less x y = (k1 x <? k1 y) || ((k1 x =? k1 y) && ((k2 x <? k2 y) || ((k2 x =? k2 y) && (k3 x <? k3 y))))) ->
  StrictWeak less.
Proof. intros H. split; intros *; rewrite !H; lia. Qed.

#[global] Instance affinity_less_weak inp dst : StrictWeak (affinity_less inp dst).
Proof.
  apply (three_keys (fun x => Z.lxor (u32 (vec_at (ri_globalRankIds inp) x)) (u32 (vec_at (ri_globalRankIds inp) dst)))
    (fun x => u32 (vec_at (ri_globalRankIds inp) x)) id). intros x y. unfold affinity_less, id. cbv zeta.
  repeat case_if; lia.
Qed.

#[global] Instance alloc_less_weak inp al rank : StrictWeak (alloc_less inp al rank).
Proof.
  apply (three_keys (fun x => - al (ReIndex rank x (ri_expertNum inp))) id (fun _ => 0)). intros x y.
  unfold alloc_less, id. cbv zeta. repeat case_if; lia.
Qed.

#[global] Instance load_less_weak : StrictWeak load_less.
Proof.
  apply (three_keys (fun x => - rl_load x) rl_globalRankId rl_rank). intros x y. unfold load_less.
  repeat case_if; lia.
Qed.

#[global] Instance load_less_ascending_weak : StrictWeak load_less_ascending.
Proof.
  apply (three_keys rl_load rl_globalRankId rl_rank). intros x y. unfold load_less_ascending.
  repeat case_if; lia.
Qed.

#[global] Instance ltb_weak : StrictWeak Z.ltb.
Proof. split; intros *; lia. Qed.

(** ** The input of one rank *)

Definition rank_input (ri : ReferenceInput) (rank : Z) : PlanAlgorithmInput :=
  {| in_rank := rank; in_rankSize := ri_rankSize ri; in_s := ri_s ri; in_topK := ri_topK ri;
     in_expertNum := ri_expertNum ri; in_config := ri_config ri;
     topkExperts := fun route => vec_at (ri_topkExperts ri) (rank * ref_cap ri + route);
     tokensPerExpert := vec_at (ri_tokensPerExpert ri);
     globalRankIds := vec_at (ri_globalRankIds ri) |}.

Lemma affinity_orders ri dst :
  BuildAffinityOrders ri dst = BuildAffinity (ri_rankSize ri) (vec_at (ri_globalRankIds ri)) dst.
Proof. apply std_sort_insertion; [apply _..|apply NoDup_seqZ|done]. Qed.

(** ** Columns of a table *)

(** [v] is the column of [t1] that [index] picks, and [t1] is [t0] elsewhere. *)
Definition column (n : Z) (index : Z -> Z) (v t0 t1 : Z -> Z) : Prop :=
  (forall src, 0 <= src < n -> v src = t1 (index src)) /\
  (forall i, (forall src, 0 <= src < n -> i <> index src) -> t1 i = t0 i).

Lemma column_self n index t : column n index (fun src => t (index src)) t t.
Proof. done. Qed.

Lemma column_upd n index v t0 t1 src x : (forall a b, index a = index b -> a = b) -> 0 <= src < n ->
  column n index v t0 t1 -> column n index (upd1 v src x) t0 (upd1 t1 (index src) x).
Proof.
  intros Hinj Hs [H1 H2]. split.
  - intros a Ha. destruct (decide (a = src)) as [->|Hne]; [by rewrite !upd1_eq|].
    rewrite !upd1_ne; [by apply H1| |done]. intros Ei. by apply Hne, Hinj.
  - intros i Hi. rewrite upd1_ne; [by apply H2|by apply Hi].
Qed.

Lemma write_back_column ri index v t0 t1 : (forall a b, index a = index b -> a = b) ->
  column (ri_rankSize ri) index v t0 t1 -> write_back ri index v t0 = t1.
Proof.
  intros Hinj [H1 H2]. unfold write_back.
  assert (forall l t, (forall a, a ∈ l -> 0 <= a < ri_rankSize ri) ->
    forall i, foldl (fun t src => upd1 t (index src) (v src)) t l i =
      if bool_decide (i ∈ map index l) then t1 i else t i) as Hf.
  { induction l as [|a l IH]; intros t Hl i; [done|]. cbn [foldl map].
    rewrite IH by (intros; apply Hl; by right). clear IH. rewrite !bool_decide_decide.
    destruct (decide (i ∈ map index l)) as [Hin|Hin].
    - rewrite decide_True; [done|by right].
    - destruct (decide (i = index a)) as [->|Hne].
      + rewrite upd1_eq, decide_True by (by left). apply H1, Hl. by left.
      + rewrite upd1_ne, decide_False; [done| |done]. intros [?|?]%elem_of_cons; done. }
  apply functional_extensionality. intros i. rewrite Hf by (intros a; by rewrite elem_of_seqZ0).
  case_bool_decide as D; [done|]. symmetry. apply H2. intros src Hs ->. apply D.
  apply list_elem_of_In, in_map, list_elem_of_In. by apply elem_of_seqZ0.
Qed.

Lemma upd1_self {A} (f : Z -> A) i : upd1 f i (f i) = f.
Proof. apply functional_extensionality. intros x. unfold upd1. destruct (Z.eqb_spec x i); by subst. Qed.

Lemma upd1_twice {A} (f : Z -> A) i x y : upd1 (upd1 f i x) i y = upd1 f i y.
Proof. apply functional_extensionality. intros z. unfold upd1. by destruct (z =? i). Qed.

(** ** Sources of a move *)

Section move.
Context (ri : ReferenceInput) (rank : Z) (ws : PlanAlgorithmWorkspace).
#[local] Abbreviation inp := (rank_input ri rank).
#[local] Abbreviation R := (ri_rankSize ri).
#[local] Abbreviation E := (ri_expertNum ri).
#[local] Abbreviation RE r e := (ReIndex r e (ri_expertNum ri)).
#[local] Abbreviation PI s d := (PairIndex s d (ri_rankSize ri)).
#[local] Abbreviation orders := (BuildAffinityOrders ri).
Context (Hok : plan_ok inp ws) (Hroom : ref_cap ri <= tokenSegmentCapacity ws).

Lemma expert_index_inj e a b : RE a e = RE b e -> a = b.
Proof.
  destruct Hok as [[HR _] _ HE HP]. cbn in HE. unfold ReIndex.
  assert (0 < E) by (cbn in HP, HR; rewrite HE; lia). nia.
Qed.

Lemma pair_index_inj d a b : PI a d = PI b d -> a = b.
Proof. destruct Hok as [[HR _]]. cbn in HR. unfold PairIndex. nia. Qed.

Lemma no_overflow s : ~ overflowed inp ws s.
Proof. intros [_ H]. unfold cap_ in H. unfold ref_cap in Hroom. cbn in H. lia. Qed.

Lemma orders_ranks dst r : r ∈ orders dst -> 0 <= r < R.
Proof. rewrite affinity_orders, affinity_perm, elem_of_seqZ0. done. Qed.

(** The counters and flags that the sources of a move leave alone. *)
Definition noted (s : PState) := (expertMoves s, intraRounds s, interRounds s, slotBlock s, supplyBlock s, pairBlock s).

(** No route limit, no count of routed tokens. *)
Definition unrouted (s : PState) : Prop := routeLimit inp = 0 -> forall i, routedPairTokens s i = 0.

(** The loops over the sources, side by side. *)
Record drawn (s0 : PState) (x dst : Z) (acc : PState * Z * Z) (a : Assigning) : Prop := {
  dr_demand : asg_demand a = acc.1.2;
  dr_actual : asg_actual a = acc.2;
  dr_none : acc.2 = 0 -> asg_segments a = [];
  dr_log : segLog acc.1.1 = segLog s0 ++ asg_segments a;
  dr_rem : column R (fun src => RE src x) (asg_remaining a) (remainingTpe s0) (remainingTpe acc.1.1);
  dr_cur : column R (fun src => RE src x) (asg_cursor a) (srcExpertCursor s0) (srcExpertCursor acc.1.1);
  dr_routed : column R (fun src => PI src dst) (asg_routed a) (routedPairTokens s0) (routedPairTokens acc.1.1);
  dr_dst : dstExpertCursor acc.1.1 = upd1 (dstExpertCursor s0) (RE dst x) (asg_dstCursor a);
  dr_noted : noted acc.1.1 = noted s0;
  dr_zero : unrouted acc.1.1
}.

Lemma away_total_nonneg log src dst : log_ok R E log -> 0 <= away_total inp log src dst.
Proof.
  intros Hl. apply zsum_nonneg. intros m Hm. pose proof (log_ok_counts log Hl m Hm). case_if; lia.
Qed.

(** The checks of [AssignTokenSources] on its arguments pass. *)
Lemma counts_nonneg s x src dst : tok_inv inp ws s -> unrouted s -> 0 <= x < E -> 0 <= src < R -> 0 <= dst < R ->
  0 <= remainingTpe s (RE src x) /\ 0 <= routedPairTokens s (PI src dst) /\
  0 <= srcExpertCursor s (RE src x) /\ 0 <= dstExpertCursor s (RE dst x).
Proof.
  intros HT Hz Hx Hs Hd. pose proof (t_log _ _ _ HT) as Hl. split_and!.
  - by apply (t_rem _ _ _ HT).
  - destruct (decide (routeLimit inp = 0)) as [E0|Hn]; [by rewrite Hz|].
    destruct (t_route _ _ _ HT src dst Hs Hd Hn) as [Er _]. cbn in Er. rewrite Er. by apply away_total_nonneg.
  - pose proof (t_src _ _ _ HT src x Hs Hx) as Es. cbn in Es. rewrite Es. by apply (src_total_nonneg _ _ _ Hl).
  - pose proof (t_dst _ _ _ HT dst x Hd Hx) as Es. cbn in Es. rewrite Es. by apply (dst_total_nonneg _ _ _ Hl).
Qed.

Lemma assign_source_sim s0 x dst req src acc a :
  0 <= x < E -> 0 <= dst < R -> dst <> HomeRank x (ref_expertsPerRank ri) -> 0 <= src < R ->
  taking inp ws s0 x dst req acc -> drawn s0 x dst acc a ->
  match take_source inp ws x dst src acc, assign_source R x dst (ref_routeLimit ri) src a with
  | inl acc', inl a' => taking inp ws s0 x dst req acc' /\ drawn s0 x dst acc' a'
  | _, _ => False
  end.
Proof.
  intros Hx Hd Hdh Hs Htk Hdr.
  pose proof (take_source_inv inp ws Hok s0 x dst req src acc Hx Hd Hdh Hs Htk) as Hinv.
  destruct acc as [[s demand] actual]. destruct Htk as ((HT & _) & _ & Ha & Hdm & _).
  destruct Hdr as [E1 E2 En E3 [E4 E4'] [E5 E5'] [E6 E6'] E7 E8 E9]. cbn [fst snd] in *.
  destruct (counts_nonneg s x src dst HT E9 Hx Hs Hd) as (P1 & P2 & P3 & P4).
  unfold assign_source. rewrite E1. unfold take_source in *.
  destruct (Z.leb_spec demand 0); [split; [done|by constructor]|].
  rewrite (proj2 (Z.ltb_ge src 0)), (proj2 (Z.leb_gt R src)) by lia. cbn [orb].
  assert (asg_dstCursor a = dstExpertCursor s (RE dst x)) as Edst by (by rewrite E7, upd1_eq).
  rewrite (E4 src Hs), (E6 src Hs), (E5 src Hs), Edst.
  rewrite (proj2 (Z.ltb_ge (remainingTpe s (RE src x)) 0)), (proj2 (Z.ltb_ge (routedPairTokens s (PI src dst)) 0)),
    (proj2 (Z.ltb_ge (srcExpertCursor s (RE src x)) 0)), (proj2 (Z.ltb_ge (dstExpertCursor s (RE dst x)) 0)) by done.
  cbn [orb]. cbv zeta in *. rewrite !MinI32_min in *.
  change (routeLimit inp) with (ref_routeLimit ri) in *. change (in_expertNum inp) with E in *.
  change (in_rankSize inp) with R in *.
  set (pr := if negb (ref_routeLimit ri =? 0)
             then (if ref_routeLimit ri - routedPairTokens s (PI src dst) <? 0 then 0
                   else ref_routeLimit ri - routedPairTokens s (PI src dst)) else demand) in *.
  assert (Z.max (if negb (ref_routeLimit ri =? 0) then ref_routeLimit ri - routedPairTokens s (PI src dst)
                 else demand) 0 = pr) as -> by (unfold pr; repeat case_if; b2p; lia).
  set (take := Z.min (Z.min (remainingTpe s (RE src x)) demand) pr) in *.
  destruct (Z.leb_spec take 0); [split; [done|by constructor]|].
  destruct (AppendSegment inp ws s x src dst _ _ take) as [s1 ok] eqn:Eap.
  destruct ok; [|by apply no_overflow in Hinv]. split; [done|].
  unfold AppendSegment in Eap. cbv zeta in Eap. set (m := {| expertId := x |}) in *.
  assert (exists segs, s1 = with_segments s segs (segLog s ++ [m]) (fatal s)) as [segs ->].
  { repeat case_if_in Eap; inversion Eap; eauto. }
  clear Eap. constructor; cbn [fst snd with_tokens with_segments segLog remainingTpe srcExpertCursor
    dstExpertCursor routedPairTokens asg_demand asg_actual asg_segments asg_remaining asg_routed asg_cursor asg_dstCursor].
  - done.
  - by rewrite E2.
  - lia.
  - rewrite E3, <- app_assoc. done.
  - apply (column_upd R (fun src => RE src x)); [apply expert_index_inj|done|done].
  - apply (column_upd R (fun src => RE src x)); [apply expert_index_inj|done|done].
  - destruct (negb (ref_routeLimit ri =? 0)); [|done].
    apply (column_upd R (fun src => PI src dst)); [apply pair_index_inj|done|done].
  - rewrite E7, upd1_twice, upd1_eq. done.
  - exact E8.
  - intros Hz i. cbn. change (routeLimit inp) with (ref_routeLimit ri) in Hz. rewrite Hz. cbn. by apply E9.
Qed.

Lemma assign_loop s x dst req l : 0 <= x < E -> 0 <= dst < R -> dst <> HomeRank x (ref_expertsPerRank ri) ->
  (forall r, r ∈ l -> 0 <= r < R) -> forall acc a, taking inp ws s x dst req acc -> drawn s x dst acc a ->
  exists acc' a', loop_ret (take_source inp ws x dst) l acc = inl acc' /\
    loop_ret (assign_source R x dst (ref_routeLimit ri)) l a = inl a' /\
    taking inp ws s x dst req acc' /\ drawn s x dst acc' a'.
Proof.
  intros Hx Hd Hdh. induction l as [|src l IH]; intros Hl acc a Ht Hr; cbn [loop_ret]; [by exists acc, a|].
  pose proof (assign_source_sim s x dst req src acc a Hx Hd Hdh (Hl src ltac:(by left)) Ht Hr) as H.
  destruct (take_source inp ws x dst src acc) as [acc'|]; [|done].
  destruct (assign_source _ _ _ _ _ _) as [a'|]; [|done]. destruct H as [H1 H2].
  apply IH; [intros; apply Hl; by right|done..].
Qed.

(** ** One expert *)

(** The two planners in the same state. The flags [pairBlock] and [sawRouteOrPairBlock] are left
    out: only the first is set by a server round without pairs, and no result depends on them. *)
Record agrees (s : PState) (r : PlannerState) : Prop := {
  ag_load : rankLoad s = ref_rankLoad r;
  ag_alloc : alloc s = ref_alloc r;
  ag_rem : remainingTpe s = ref_remainingTpe r;
  ag_src : srcExpertCursor s = ref_srcExpertCursor r;
  ag_dst : dstExpertCursor s = ref_dstExpertCursor r;
  ag_routed : routedPairTokens s = ref_routedPairTokens r;
  ag_log : segLog s = ref_segments r;
  ag_moves : expertMoves s = Z.of_nat (length (ref_expertMoves r));
  ag_sets d : 0 <= d < R -> remoteExpertSets r d = list_to_set (remote_experts inp s d);
  ag_slot : slotBlock s = sawSlotBlock r;
  ag_supply : supplyBlock s = sawSupplyBlock r;
  ag_zero : unrouted s
}.

Lemma assign_tokens s r x dst req : inv inp ws s -> agrees s r -> 0 <= x < E -> 0 <= dst < R ->
  dst <> HomeRank x (ref_expertsPerRank ri) -> 0 <= req ->
  exists s1 demand actual a, 
    loop_ret (take_source inp ws x dst) (orders dst) (s, req, 0) = inl (s1, demand, actual) /\
    taking inp ws s x dst req (s1, demand, actual) /\ drawn s x dst (s1, demand, actual) a /\
    let blocked := foldl (fun acc src =>
        (fst acc + asg_remaining a src,
         snd acc || (negb (ref_routeLimit ri =? 0) && (0 <? asg_remaining a src) &&
           (ref_routeLimit ri <=? asg_routed a src)))) (0, false) (seqZ 0 R) in
    AssignTokenSources x dst req (ref_routeLimit ri) (orders dst)
      (Vector R (fun src => ref_remainingTpe r (RE src x)))
      (Vector R (fun src => ref_routedPairTokens r (PI src dst)))
      (Vector R (fun src => ref_srcExpertCursor r (RE src x))) (ref_dstExpertCursor r (RE dst x)) =
    Some (a, {| actualAssigned := actual; unmetDemand := demand;
                supplyExhausted := if 0 <? demand then blocked.1 =? 0 else false;
                routeLimited := if 0 <? demand then blocked.2 else false;
                as_segments := asg_segments a |}).
Proof.
  intros (HT & HA & Haw & Hf) Hag Hx Hd Hdh Hreq.
  set (a0 := {| asg_remaining := fun src => ref_remainingTpe r (RE src x);
                asg_routed := fun src => ref_routedPairTokens r (PI src dst);
                asg_cursor := fun src => ref_srcExpertCursor r (RE src x);
                asg_dstCursor := ref_dstExpertCursor r (RE dst x);
                asg_demand := req; asg_actual := 0; asg_segments := [] |}).
  assert (taking inp ws s x dst req (s, req, 0)) as Ht.
  { split; [|split; [done|lia]]. split; [done|]. split; [by apply alloc_zero|done]. }
  assert (drawn s x dst (s, req, 0) a0) as Hdr.
  { destruct Hag. constructor; cbn; try done.
    - by rewrite app_nil_r.
    - rewrite <- ag_rem0. apply column_self.
    - rewrite <- ag_src0. apply column_self.
    - rewrite <- ag_routed0. apply column_self.
    - rewrite <- ag_dst0. by rewrite upd1_self. }
  destruct (assign_loop s x dst req (orders dst) Hx Hd Hdh (fun r => orders_ranks dst r) _ _ Ht Hdr)
    as ([[s1 demand] actual] & a & E1 & E2 & Ht' & Hdr').
  exists s1, demand, actual, a. split; [exact E1|]. split; [exact Ht'|]. split; [exact Hdr'|]. cbv zeta.
  unfold AssignTokenSources. cbn [vec_size vec_at].
  pose proof (ok_limit _ _ Hok) as Hlim. change (routeLimit inp) with (ref_routeLimit ri) in Hlim.
  rewrite (proj2 (Z.ltb_ge x 0)), (proj2 (Z.ltb_ge dst 0)), (proj2 (Z.ltb_ge req 0)),
    (proj2 (Z.ltb_ge (ref_routeLimit ri) 0)), Z.eqb_refl by lia. cbn [orb negb]. fold a0. rewrite E2.
  destruct Hdr' as [D1 D2 _]. cbn [fst snd] in D1, D2. rewrite D1, D2.
  destruct (0 <? demand); [|done]. by destruct (foldl _ _ _).
Qed.

(** [note_block] looks at the same counts as [AssignTokenSources]. *)
Lemma note_block_counts s s0 x dst a acc : segLog s = segLog acc.1.1 -> remainingTpe s = remainingTpe acc.1.1 ->
  routedPairTokens s = routedPairTokens acc.1.1 -> drawn s0 x dst acc a ->
  note_block inp s dst x =
  let blocked := foldl (fun acc src =>
      (fst acc + asg_remaining a src,
       snd acc || (negb (ref_routeLimit ri =? 0) && (0 <? asg_remaining a src) &&
         (ref_routeLimit ri <=? asg_routed a src)))) (0, false) (seqZ 0 R) in
  if blocked.2 then set_pairBlock s else if blocked.1 =? 0 then set_supplyBlock s else s.
Proof.
  intros _ Er Ep Hdr. unfold note_block. cbv zeta.
  assert (forall l acc0, (forall y, y ∈ l -> 0 <= y < R) ->
    foldl (fun acc src =>
        let re := ReIndex src x (in_expertNum inp) in
        (fst acc + remainingTpe s re,
         snd acc || (negb (routeLimit inp =? 0) && (0 <? remainingTpe s re) &&
           (routeLimit inp <=? routedPairTokens s (PairIndex src dst (in_rankSize inp)))))) acc0 l =
    foldl (fun acc src =>
      (fst acc + asg_remaining a src,
       snd acc || (negb (ref_routeLimit ri =? 0) && (0 <? asg_remaining a src) &&
         (ref_routeLimit ri <=? asg_routed a src)))) acc0 l) as Hf.
  { induction l as [|y l IH]; intros acc0 Hl; [done|]. cbn [foldl]. rewrite IH by (intros; apply Hl; by right).
    f_equal. cbv zeta. destruct (dr_rem _ _ _ _ _ Hdr) as [H1 _], (dr_routed _ _ _ _ _ Hdr) as [H2 _].
    specialize (H1 y (Hl y ltac:(by left))). specialize (H2 y (Hl y ltac:(by left))). cbn beta in H1, H2.
    rewrite H1, H2, Er, Ep. done. }
  change (in_rankSize inp) with R. cbv zeta in Hf. rewrite Hf by (intros y; by rewrite elem_of_seqZ0).
  by destruct (foldl _ _ _).
Qed.

(** The state after a move, compared with the state after the assignment. *)
Lemma apply_sim s r home dst x req round demand already s1 d1 actual a blocked :
  inv inp ws s -> agrees s r -> 0 <= x < E -> 0 <= dst < R -> home = HomeRank x (ref_expertsPerRank ri) ->
  taking inp ws s x dst req (s1, d1, actual) -> drawn s x dst (s1, d1, actual) a ->
  (already = false -> slotCount s dst < ref_prefetchSlots ri) ->
  blocked = foldl (fun acc src =>
      (fst acc + asg_remaining a src,
       snd acc || (negb (ref_routeLimit ri =? 0) && (0 <? asg_remaining a src) &&
         (ref_routeLimit ri <=? asg_routed a src)))) (0, false) (seqZ 0 R) ->
  let s2 := commit_move inp s1 home dst x actual already in
  let res := apply_assignment ri r home dst x req round demand already a
    {| actualAssigned := actual; unmetDemand := d1;
       supplyExhausted := if 0 <? d1 then blocked.1 =? 0 else false;
       routeLimited := if 0 <? d1 then blocked.2 else false; as_segments := asg_segments a |} in
  agrees (if 0 <? d1 then note_block inp s2 dst x else s2) res.1 /\
  res.2 = if 0 <? actual then demand - actual else demand.
Proof.
  intros HI Hag Hx Hd -> Htk Hdr Hslot Eb s2 res. split; [|done].
  destruct Htk as (HI1 & (T1 & T2 & T3 & T4) & Ha & Hd1 & Hsum).
  pose proof Hdr as [D1 D2 Dn D3 D4 D5 D6 D7 D8 D9]. cbn [fst snd] in D1, D2, Dn, D3, D4, D5, D6, D7, D8, D9.
  injection D8 as N1 N2 N3 N4 N5 N6. destruct Hag as [A1 A2 A3 A4 A5 A6 A7 A8 A9 A10 A11 A13].
  apply (write_back_column ri (fun src => RE src x)) in D4; [|apply expert_index_inj].
  apply (write_back_column ri (fun src => RE src x)) in D5; [|apply expert_index_inj].
  apply (write_back_column ri (fun src => PI src dst)) in D6; [|apply pair_index_inj].
  rewrite A3 in D4. rewrite A4 in D5. rewrite A6 in D6. rewrite A5 in D7.
  assert (agrees s2 (fst (apply_assignment ri r (HomeRank x (ref_expertsPerRank ri)) dst x req round demand already a
    {| actualAssigned := actual; unmetDemand := 0; supplyExhausted := false; routeLimited := false;
       as_segments := asg_segments a |}))) as Hcore.
  { unfold s2, commit_move, apply_assignment. cbn [fst actualAssigned unmetDemand as_segments]. cbv zeta. cbn [Z.ltb Z.compare].
    destruct (Z.ltb_spec 0 actual) as [Hpos|Hz]; cbn [andb].
    - constructor; cbn [with_move rankLoad alloc remainingTpe srcExpertCursor dstExpertCursor routedPairTokens segLog
        expertMoves slotBlock supplyBlock pairBlock ref_rankLoad ref_alloc ref_segments ref_expertMoves
        ref_remainingTpe ref_srcExpertCursor ref_dstExpertCursor ref_routedPairTokens remoteExpertSets
        sawSlotBlock sawSupplyBlock sawRouteOrPairBlock].
      + by rewrite T2, A1.
      + by rewrite T1, A2.
      + done.
      + done.
      + done.
      + done.
      + by rewrite D3, A7.
      + rewrite N1, A8, length_app. cbn. lia.
      + intros d Hdr'. destruct already; cbn [negb].
        { rewrite (A9 d Hdr'). unfold remote_experts. cbn. by rewrite T3, T4. }
        specialize (Hslot eq_refl). pose proof (a_slots _ _ _ _ _ (proj1 (proj2 HI))) as Hsl.
        pose proof (remote_experts_add inp s dst _ x Hsl Hd Hslot eq_refl d Hdr') as Hadd.
        unfold remote_experts at 1. cbn [slotCount remoteExpertSet with_move]. rewrite T3, T4, Hadd. unfold upd1. case_decide as Dd.
        * subst d. rewrite Z.eqb_refl, list_to_set_app_L, (A9 dst Hd). cbn. by rewrite union_empty_r_L, union_comm_L.
        * rewrite (proj2 (Z.eqb_neq d dst)) by done. by apply A9.
      + by rewrite N4.
      + by rewrite N5.
      + exact D9.
    - assert (actual = 0) as -> by lia. constructor; cbn; try congruence.
      + rewrite D3, A7. assert (asg_segments a = []) as ->; [|by rewrite app_nil_r].
        by apply Dn.
      + intros d Hdr'. rewrite (A9 d Hdr'). unfold remote_experts. by rewrite T3, T4.
      + exact D9. }
  unfold res, apply_assignment. unfold apply_assignment in Hcore. cbn [fst actualAssigned unmetDemand as_segments
    routeLimited supplyExhausted] in Hcore |- *. cbv zeta in Hcore |- *. cbn [Z.ltb Z.compare] in Hcore.
  destruct (0 <? d1); [|exact Hcore].
  rewrite (note_block_counts s2 s x dst a (s1, d1, actual)); [|unfold s2, commit_move; by destruct (0 <? actual)..|done].
  rewrite <- Eb. cbv zeta. destruct Hcore.
  destruct blocked.2; [|destruct (blocked.1 =? 0)]; constructor; done.
Qed.

Lemma remote_test s r dst x : 0 <= dst < R -> agrees s r ->
  (0 <=? FindRemote inp s dst x) = bool_decide (x ∈ remoteExpertSets r dst).
Proof.
  intros Hd Hag. apply eq_true_iff_eq. rewrite (find_remote inp s dst x), bool_decide_eq_true.
  rewrite (ag_sets _ _ Hag dst Hd). by rewrite elem_of_list_to_set.
Qed.

Lemma remote_size s r dst : inv inp ws s -> agrees s r -> 0 <= dst < R ->
  Z.of_nat (size (remoteExpertSets r dst)) = slotCount s dst.
Proof.
  intros (_ & HA & _) Hag Hd. rewrite (ag_sets _ _ Hag dst Hd), size_list_to_set by (by apply HA).
  unfold remote_experts. rewrite length_fmap, length_seqZ. pose proof (a_slots _ _ _ _ _ HA dst Hd). lia.
Qed.

Lemma agrees_slot s r : agrees s r -> agrees (set_slotBlock s) (saw_slot r).
Proof. intros []. by constructor. Qed.

Lemma agrees_pair s r : agrees s r -> agrees (set_pairBlock s) r /\ agrees (set_pairBlock s) (saw_pair r).
Proof. intros []. by repeat constructor. Qed.

Lemma move_expert_ref s0 h dst requested round x s demand fnd r :
  0 <= x < E -> HomeRank x (ref_expertsPerRank ri) = h -> 0 <= dst < R -> dst <> h ->
  moving inp ws s0 h dst requested (s, demand, fnd) -> agrees s r ->
  exists s' demand' fnd' r', move_expert inp ws orders h dst x (s, demand, fnd) = inl (s', demand', fnd') /\
    ref_move_expert ri h dst round (r, demand, fnd) x = (r', demand', fnd') /\
    moving inp ws s0 h dst requested (s', demand', fnd') /\ agrees s' r'.
Proof.
  intros Hx Hh Hd Hdh Hm Hag.
  pose proof (move_expert_inv inp ws orders Hok (fun d r _ => orders_ranks d r) s0 h dst requested x
    (s, demand, fnd) Hx Hh Hd Hdh Hm) as Hinv.
  pose proof Hm as (HI & Hdm & _). unfold move_expert in *. unfold ref_move_expert.
  destruct (Z.leb_spec demand 0); [by exists s, demand, fnd, r|]. cbv zeta in *.
  rewrite <- (ag_alloc _ _ Hag), <- (remote_test s r dst x Hd Hag), (remote_size s r dst HI Hag Hd).
  change (in_expertNum inp) with E in *. change (b_ inp) with (ref_prefetchSlots ri) in *.
  destruct (Z.leb_spec (alloc s (RE h x)) 0); [by exists s, demand, fnd, r|].
  destruct (negb (0 <=? FindRemote inp s dst x) && (ref_prefetchSlots ri <=? slotCount s dst)) eqn:Eb.
  { exists (set_slotBlock s), demand, fnd, (saw_slot r). split_and!; [done..|by apply agrees_slot]. }
  rewrite MinI32_min in *. set (req := Z.min (alloc s (RE h x)) demand) in *.
  destruct (assign_tokens s r x dst req HI Hag Hx Hd ltac:(congruence) ltac:(lia))
    as (s1 & d1 & actual & a & E1 & Htk & Hdr & E2).
  rewrite E1 in *. rewrite E2.
  match goal with |- context [apply_assignment ri r h dst x req round demand ?al a ?as_] =>
    pose proof (apply_sim s r h dst x req round demand al s1 d1 actual a _ HI Hag Hx Hd (eq_sym Hh) Htk Hdr
      ltac:(intros Hf; rewrite Hf in Eb; cbn in Eb; lia) eq_refl) as [Hag' Ed] end.
  cbv zeta in Hag', Ed.
  destruct (apply_assignment ri r h dst x req round demand _ a _) as [r' demand'].
  cbn [fst snd] in Hag', Ed. subst demand'. do 4 eexists. split; [reflexivity|]. done.
Qed.

(** ** The move *)

#[local] Instance expert_better_total s h : TotalBetter (expert_better inp s h).
Proof.
  split; intros *; unfold expert_better; cbv zeta;
    set (ax := alloc s (ReIndex h x _)); set (ay := alloc s (ReIndex h y _)); [|set (az := alloc s (ReIndex h z _))];
    lia.
Qed.

Lemma expert_orders s r h : agrees s r -> ref_expert_order ri r h = expert_order inp s h.
Proof.
  intros Hag. unfold ref_expert_order, expert_order. rewrite <- (ag_alloc _ _ Hag).
  apply std_sort_insertion; [apply _..| |].
  - apply NoDup_ListNoDup, List.NoDup_filter, NoDup_ListNoDup, NoDup_seqZ.
  - intros x y _ _ Hne. unfold expert_better, alloc_less. cbv zeta. change (in_expertNum inp) with E.
    set (ax := alloc s (RE h x)). set (ay := alloc s (RE h y)). destruct (Z.eqb_spec ax ay); cbn [negb]; lia.
Qed.

Lemma apply_move_ref s r h dst requested round : inv inp ws s -> agrees s r -> 0 <= h < R -> 0 <= dst < R ->
  exists s' moved r', ApplyExpertMove inp ws orders s h dst requested = (s', moved) /\
    RefApplyExpertMove ri r h dst requested round = (r', moved) /\ inv inp ws s' /\ agrees s' r' /\
    0 <= moved <= Z.max 0 requested /\
    forall q, rankLoad s' q = rankLoad s q - (if q =? h then moved else 0) + (if q =? dst then moved else 0).
Proof.
  intros HI Hag Hh Hd.
  pose proof (apply_move_spec inp ws orders Hok (fun d r _ => orders_ranks d r) s h dst requested HI Hh Hd) as Hspec.
  unfold ApplyExpertMove, RefApplyExpertMove in *.
  rewrite bool_decide_true in * by apply HI. cbn [negb] in *. rewrite orb_false_r in *.
  destruct (Z.leb_spec requested 0); cbn [orb] in *.
  { destruct Hspec as [(_ & ? & ? & ?)|[Hov _]]; [by exists s, 0, r|by apply no_overflow in Hov]. }
  destruct (Z.eqb_spec h dst) as [->|Hne]; cbn [orb] in *.
  { destruct Hspec as [(_ & ? & ? & ?)|[Hov _]]; [by exists s, 0, r|by apply no_overflow in Hov]. }
  rewrite (expert_orders s r h Hag).
  assert (forall l s1 d1 f1 r1, (forall x, x ∈ l -> 0 <= x < E /\ HomeRank x (ref_expertsPerRank ri) = h) ->
    moving inp ws s h dst requested (s1, d1, f1) -> agrees s1 r1 ->
    exists s2 d2 f2 r2, loop_ret (move_expert inp ws orders h dst) l (s1, d1, f1) = inl (s2, d2, f2) /\
      foldl (ref_move_expert ri h dst round) (r1, d1, f1) l = (r2, d2, f2) /\ agrees s2 r2) as HL.
  { induction l as [|x l IH]; intros s1 d1 f1 r1 Hl Hm Ha; cbn [loop_ret foldl]; [by exists s1, d1, f1, r1|].
    destruct (Hl x ltac:(by left)) as [Hx Hhx].
    destruct (move_expert_ref s h dst requested round x s1 d1 f1 r1 Hx Hhx Hd ltac:(congruence) Hm Ha)
      as (s2 & d2 & f2 & r2 & -> & -> & Hm2 & Ha2).
    apply IH; [intros; apply Hl; by right|done..]. }
  destruct (HL (expert_order inp s h) s requested false r) as (s1 & demand & fnd & r1 & E1 & -> & Ha1); [| |done|].
  { intros x. by apply (expert_order_home inp ws Hok). }
  { split; [done|]. split; [lia|]. intros q. repeat case_if; lia. }
  rewrite E1 in *. destruct Hspec as [(_ & ? & ? & ?)|[Hov _]]; [|by apply no_overflow in Hov].
  do 3 eexists. split; [reflexivity|]. split; [reflexivity|]. split; [done|]. split; [|done].
  case_if; [by apply agrees_pair|done].
Qed.
End move.
