(* ===== verification/RefBalance.v ===== *)
(** The balancing stages of the reference planner take the same decisions as [RunIntra],
    [RunInter] and [AppendRemainders]: the same pairs, the same candidates, the same rounds. *)
From Stdlib Require Import FunctionalExtensionality.
From stdpp Require Import gmap.
From S2P Require Import Prelude PlanTypes PlanSort PlanAlgorithm PlanOutput PlanMove PlanSegments PlanBalance PlanFinal PlanRounds RefPlan RefMove RefOutput.

(** ** Lists *)

Fixpoint index_in (l : list Z) (x : Z) : Z :=
  match l with
  | [] => 0
  | y :: l' => if y =? x then 0 else 1 + index_in l' x
  end.

Lemma index_in_app l1 l2 x : x ∉ l1 -> index_in (l1 ++ x :: l2) x = Z.of_nat (length l1).
Proof.
  induction l1 as [|y l1 IH]; intros Hx; cbn; [by rewrite Z.eqb_refl|].
  apply not_elem_of_cons in Hx as [Hne Hx]. rewrite (proj2 (Z.eqb_neq y x)) by congruence.
  rewrite IH by done. lia.
Qed.

Lemma nth_index_in l x : x ∈ l -> nth (Z.to_nat (index_in l x)) l 0 = x /\ 0 <= index_in l x.
Proof.
  induction l as [|y l IH]; intros Hx; [by inversion Hx|]. cbn [index_in].
  destruct (Z.eqb_spec y x) as [->|Hne]; [done|].
  apply elem_of_cons in Hx as [->|Hx]; [done|]. destruct (IH Hx) as [E1 E2].
  replace (Z.to_nat (1 + index_in l x)) with (S (Z.to_nat (index_in l x))) by lia. split; [done|lia].
Qed.

Lemma filter_map {A B} (p : B -> bool) (f : A -> B) l :
  List.filter p (map f l) = map f (List.filter (fun x => p (f x)) l).
Proof. induction l as [|x l IH]; [done|]. cbn. destruct (p (f x)); cbn; by rewrite IH. Qed.

Lemma filter_twice {A} (p q : A -> bool) l :
  List.filter p (List.filter q l) = List.filter (fun x => q x && p x) l.
Proof. induction l as [|x l IH]; [done|]. cbn. destruct (q x); cbn; [destruct (p x)|]; by rewrite IH. Qed.

Lemma seqZ_cons0 m n : 0 < n -> seqZ m n = m :: seqZ (m + 1) (n - 1).
Proof. intros. rewrite seqZ_cons by lia. by rewrite <- Z.sub_1_r. Qed.

Lemma zip_map {A B C D} (f : A -> C) (g : B -> D) l k :
  zip (map f l) (map g k) = map (fun p => (f p.1, g p.2)) (zip l k).
Proof. revert k. induction l as [|x l IH]; intros [|y k]; cbn; try done. by rewrite IH. Qed.

(** ** Loops in step *)

Lemma iterate_sim (dround : PState -> round_result) (rround : Stage -> stage_result) (I : PState -> Stage -> Prop) :
  (forall s g, I s g -> match dround s, rround g with
     | Continue s', Next g' => I s' g' | Break s', Leave g' => I s' g' | _, _ => False end) ->
  forall fuel s g, I s g ->
  match iterate_rounds dround fuel s, iterate_stage rround fuel g with
  | Some s', Some g' => I s' g' | None, None => True | _, _ => False end.
Proof.
  intros Hr. induction fuel as [|fuel IH]; intros s g HI; [done|]. cbn. specialize (Hr s g HI).
  destruct (dround s), (rround g); try done. by apply IH.
Qed.

Section balance.
Context (ri : ReferenceInput) (rank : Z) (ws : PlanAlgorithmWorkspace).
#[local] Abbreviation inp := (rank_input ri rank).
#[local] Abbreviation R := (ri_rankSize ri).
#[local] Abbreviation E := (ri_expertNum ri).
#[local] Abbreviation RE r e := (ReIndex r e (ri_expertNum ri)).
#[local] Abbreviation gid := (vec_at (ri_globalRankIds ri)).
#[local] Abbreviation orders := (BuildAffinityOrders ri).
#[local] Abbreviation cap := (ref_cap ri).
Context (Hok : plan_ok inp ws) (Hroom : ref_cap ri <= tokenSegmentCapacity ws).
Context (Hinj : forall a b, 0 <= a < R -> 0 <= b < R -> gid a = gid b -> a = b).
Context (Hids : forall r, 0 <= r < R -> 0 <= gid r <= INT32_MAX).

#[local] Abbreviation agree := (agrees ri rank).

(** ** Inside a server *)

(** The entry of a rank in the lists of a server. *)
Definition local_load (members : list Z) (load : Z -> Z) (r : Z) : RankedLoad :=
  {| rl_rank := index_in members r; rl_load := load r; rl_globalRankId := gid r |}.

Lemma ranks_filter (p : Z -> bool) r : r ∈ List.filter p (seqZ 0 R) -> 0 <= r < R.
Proof. intros H%elem_of_filter_list. by apply elem_of_seqZ0. Qed.

Lemma NoDup_filter_seqZ (p : Z -> bool) n : NoDup (List.filter p (seqZ 0 n)).
Proof. apply NoDup_ListNoDup, List.NoDup_filter, NoDup_ListNoDup, NoDup_seqZ. Qed.

Lemma active_found load members :
  (forall r, r ∈ members -> 0 <= load r /\ 0 <= gid r) -> NoDup members ->
  loop_ret (fun rank (active : list RankedLoad) =>
      let ld := nth (Z.to_nat rank) (map load members) 0 in
      let globalId := nth (Z.to_nat rank) (map gid members) 0 in
      if (ld <? 0) || (globalId <? 0) then inr tt
      else inl (if negb (ld =? cap)
                then active ++ [{| rl_rank := rank; rl_load := ld; rl_globalRankId := globalId |}]
                else active))
    (seqZ 0 (Z.of_nat (length (map load members)))) [] =
  inl (map (local_load members load) (List.filter (fun r => negb (load r =? cap)) members)).
Proof.
  intros Hpos Hnd. rewrite length_map.
  assert (forall Q P acc, members = P ++ Q -> 
    loop_ret (fun rank (active : list RankedLoad) =>
      let ld := nth (Z.to_nat rank) (map load members) 0 in
      let globalId := nth (Z.to_nat rank) (map gid members) 0 in
      if (ld <? 0) || (globalId <? 0) then @inr (list RankedLoad) unit tt
      else inl (if negb (ld =? cap)
                then active ++ [{| rl_rank := rank; rl_load := ld; rl_globalRankId := globalId |}]
                else active))
      (seqZ (Z.of_nat (length P)) (Z.of_nat (length Q))) acc =
    inl (acc ++ map (local_load members load) (List.filter (fun r => negb (load r =? cap)) Q))) as H.
  { induction Q as [|r Q IH]; intros P acc EM; [cbn; by rewrite app_nil_r|].
    cbn [length]. rewrite seqZ_cons0 by lia. cbn [loop_ret]. cbv zeta.
    rewrite Nat2Z.id, EM, !map_app, !app_nth2 by (rewrite length_map; lia).
    rewrite !length_map, Nat.sub_diag. cbn [map nth].
    destruct (Hpos r) as [H1 H2]; [rewrite EM, elem_of_app; right; by left|].
    rewrite (proj2 (Z.ltb_ge (load r) 0)), (proj2 (Z.ltb_ge (gid r) 0)) by done. cbn [orb].
    replace (Z.of_nat (length P) + 1) with (Z.of_nat (length (P ++ [r]))) by (rewrite length_app; cbn; lia).
    replace (Z.of_nat (S (length Q)) - 1) with (Z.of_nat (length Q)) by lia.
    specialize (IH (P ++ [r])). rewrite <- app_assoc in IH. cbn [app] in IH.
    specialize (IH (if negb (load r =? cap)
        then acc ++ [{| rl_rank := Z.of_nat (length P); rl_load := load r; rl_globalRankId := gid r |}] else acc) EM).
    rewrite EM, !map_app in IH. cbn [map] in IH. rewrite IH. f_equal. cbn [List.filter].
    destruct (negb (load r =? cap)); [|done]. cbn [map]. rewrite <- app_assoc. cbn [app]. f_equal. f_equal.
    unfold local_load. f_equal. symmetry. apply index_in_app. rewrite EM in Hnd.
    apply NoDup_app in Hnd as (_ & Hd & _). intros Hin. apply (Hd r Hin). by left. }
  exact (H members [] [] eq_refl).
Qed.

Lemma middle_sim s load (f : Z -> RankedLoad) active m : (forall r, rl_load (f r) = load r) -> rankLoad s = load ->
  (m < length active)%nat -> ref_middle cap (map f active) m = find_middle inp s active m.
Proof.
  intros Hf El Hm. induction m as [|m IH]; [done|]. cbn [ref_middle find_middle].
  rewrite !(nth_indep (map f active) no_load (f 0)), !map_nth, !Hf, El by (rewrite length_map; lia).
  rewrite IH by lia. done.
Qed.

(** Loads are never negative. *)
Lemma loads_nonneg s d : inv inp ws s -> 0 <= d < R -> 0 <= rankLoad s d.
Proof.
  intros (_ & HA & _) Hd. rewrite (a_load _ _ _ _ _ HA d Hd). apply zsum_nonneg.
  intros e He%elem_of_seqZ0. by apply (a_pos _ _ _ _ _ HA).
Qed.

Lemma cap_positive : 0 < cap.
Proof. destruct Hok as [_ _ _ _ Hs Hk Hc]. unfold cap_ in Hc. unfold ref_cap. cbn in Hs, Hk, Hc. nia. Qed.

(** The ranks of a server that are off their capacity, most loaded first. *)
Definition server_active (s : PState) (key : Z) : list Z :=
  insertion_sort (rank_better (rankLoad s) gid false)
    (List.filter (fun r => (server_key inp r =? key) && negb (rankLoad s r =? cap)) (seqZ 0 R)).

Lemma server_active_ranks s key x : x ∈ server_active s key ->
  0 <= x < R /\ x ∈ ref_members ri key.
Proof.
  unfold server_active. rewrite insertion_sort_perm, list_elem_of_In, List.filter_In, <- list_elem_of_In.
  intros [Hx Hp]. split; [by apply elem_of_seqZ0|]. apply list_elem_of_In, List.filter_In.
  split; [by apply list_elem_of_In|]. b2p. by apply Z.eqb_eq.
Qed.

Lemma server_pairs s r key : inv inp ws s -> agree s r ->
  let M := ref_members ri key in
  let active := server_active s key in
  let f := local_load M (rankLoad s) in
  BuildIntraServerPairs (map (ref_rankLoad r) M) (map gid M) cap =
  let middle := find_middle inp s active (length active / 2)%nat in
  Some (if (length active <? 2)%nat || (rankLoad s (nth 0 active 0) + rankLoad s (nth 1 active 0) <? cap) ||
           (cap <? rankLoad s (nth (length active - 1) active 0)) || (middle =? 0)%nat then []
        else pair_up cap (map f (List.filter (fun x => cap <? rankLoad s x) (rev (take middle active))))
               (map f (List.filter (fun x => rankLoad s x <? cap) (drop middle active)))).
Proof.
  intros HI Hag M active f. unfold BuildIntraServerPairs. pose proof cap_positive as Hc.
  rewrite !length_map, Z.eqb_refl, (proj2 (Z.leb_gt cap 0)) by lia. cbn [orb negb].
  rewrite <- (ag_load _ _ _ _ Hag).
  assert (forall x, x ∈ M -> 0 <= x < R) as HM by (intros x; apply ranks_filter).
  pose proof (active_found (rankLoad s) M) as Hfound. rewrite length_map in Hfound. cbv zeta in Hfound. rewrite Hfound; clear Hfound.
  2: { intros x Hx%HM. split; [by apply loads_nonneg|by apply Hids]. }
  2: apply NoDup_filter_seqZ.
  change (local_load M (rankLoad s)) with f. assert (std_sort load_less (map f (List.filter (fun x => negb (rankLoad s x =? cap)) M)) = map f active) as ->.
  { unfold M, ref_members, active, server_active. rewrite filter_twice.
    apply std_sort_map; [apply _..|apply NoDup_filter_seqZ|].
    intros x y Hx%ranks_filter Hy%ranks_filter Hne. unfold rank_better, load_less, f. cbn. cbv zeta.
    destruct (negb (rankLoad s x =? rankLoad s y)); [done|]. destruct (Z.eqb_spec (gid x) (gid y)) as [Ex|]; [|done].
    exfalso. by apply Hne, Hinj. }
  rewrite length_map. cbv zeta. destruct (Nat.ltb_spec (length active) 2) as [|Hlen]; [done|]. cbn [orb].
  rewrite !(nth_indep (map f active) no_load (f 0)), !map_nth by (rewrite length_map; lia).
  unfold f at 1 2 3. cbn [local_load rl_load].
  assert (length active / 2 < length active)%nat by (apply Nat.div_lt; lia).
  rewrite (middle_sim s (rankLoad s)) by done.
  destruct ((_ <? cap) || _); [done|]. cbn [orb]. destruct (_ =? 0)%nat; [done|].
  rewrite firstn_map, skipn_map, <- map_rev, !filter_map. done.
Qed.

(** The moves of a round, pair by pair: the requests computed at the start of the round are the
    requests when their turn comes, because no rank occurs twice. *)
Lemma server_moves members load round senders : forall receivers s r moved,
  NoDup (senders ++ receivers) -> (forall x, x ∈ senders ++ receivers -> 0 <= x < R /\ x ∈ members) ->
  (forall x, x ∈ senders -> cap < load x /\ rankLoad s x = load x) ->
  (forall x, x ∈ receivers -> load x < cap /\ rankLoad s x = load x) ->
  inv inp ws s -> agree s r ->
  let f := local_load members load in
  exists s' moved' r',
    loop_ret (fun p acc =>
      let '(s, actualRound) := acc in
      let requested := MinI32 (rankLoad s (fst p) - cap_ inp) (cap_ inp - rankLoad s (snd p)) in
      let '(s1, moved) :=
        if 0 <? requested then ApplyExpertMove inp ws orders s (fst p) (snd p) requested else (s, 0) in
      if bool_decide (fatal s1 = PLAN_OK) then inl (s1, actualRound + moved) else inr s1)
      (zip senders receivers) (s, moved) = inl (s', moved') /\
    foldl (fun acc p =>
        let '(s, actualRound) := acc in
        let '(s1, moved) := RefApplyExpertMove ri s (nth (Z.to_nat (rp_srcRank p)) members 0)
          (nth (Z.to_nat (rp_dstRank p)) members 0) (requestedUnits p) round in
        (s1, actualRound + moved)) (r, moved) (pair_up cap (map f senders) (map f receivers)) = (r', moved') /\
    inv inp ws s' /\ agree s' r' /\ same_rounds s s' /\ length (pair_up cap (map f senders) (map f receivers)) =
      length (zip senders receivers).
Proof.
  induction senders as [|h senders IH]; intros receivers s r moved Hnd Hin Hs Hr HI Hag f.
  { exists s, moved, r. split_and!; try done. }
  destruct receivers as [|d receivers].
  { exists s, moved, r. split_and!; try done. }
  destruct (Hs h ltac:(by left)) as [Hh Eh]. destruct (Hr d ltac:(by left)) as [Hd Ed].
  destruct (Hin h ltac:(by left)) as [Hhr Hhm].
  destruct (Hin d ltac:(apply elem_of_app; right; by left)) as [Hdr Hdm].
  cbn [zip zip_with loop_ret map]. cbv zeta. cbn [fst snd]. change (cap_ inp) with cap.
  rewrite MinI32_min, Eh, Ed, (proj2 (Z.ltb_lt 0 _)) by lia.
  destruct (apply_move_ref ri rank ws Hok Hroom s r h d (Z.min (load h - cap) (cap - load d)) round HI Hag Hhr Hdr)
    as (s1 & m1 & r1 & E1 & E2 & HI1 & Hag1 & _ & HL).
  rewrite E1, bool_decide_true by apply HI1.
  assert (same_rounds s s1) as Hsr.
  { pose proof (apply_rounds inp ws orders s s h d (Z.min (load h - cap) (cap - load d)) (conj eq_refl eq_refl)) as H.
    by rewrite E1 in H. }
  rewrite <- Permutation_middle in Hnd. cbn [app] in Hnd.
  apply NoDup_cons in Hnd as [Hd1 Hnd]. apply NoDup_cons in Hnd as [Hh1 Hnd].
  assert (forall x, x ∈ senders ++ receivers -> rankLoad s1 x = rankLoad s x) as Hkeep.
  { intros x Hx. rewrite HL, (proj2 (Z.eqb_neq x h)), (proj2 (Z.eqb_neq x d)); [lia|..]; intros ->; [|done].
    apply Hd1. by right. }
  destruct (IH receivers s1 r1 (moved + m1)) as (s' & m' & r' & F1 & F2 & HI' & Hag' & Hsr' & Hlen); try done.
  { intros x Hx. apply Hin. rewrite elem_of_app in Hx |- *. destruct Hx; [left|right]; by right. }
  { intros x Hx. rewrite Hkeep by (apply elem_of_app; by left). apply Hs. by right. }
  { intros x Hx. rewrite Hkeep by (apply elem_of_app; by right). apply Hr. by right. }
  exists s', m', r'. split; [done|].
  assert (pair_up cap (f h :: map f senders) (f d :: map f receivers) =
    {| rp_srcRank := index_in members h; rp_dstRank := index_in members d;
       requestedUnits := Z.min (load h - cap) (cap - load d) |} :: pair_up cap (map f senders) (map f receivers)) as Ep.
  { unfold pair_up. cbn [zip zip_with omap list_omap fst snd f local_load rl_load rl_rank].
    rewrite (proj2 (Z.ltb_lt 0 _)) by lia. done. }
  rewrite Ep. cbn [foldl rp_srcRank rp_dstRank requestedUnits length].
  rewrite (proj1 (nth_index_in members h Hhm)), (proj1 (nth_index_in members d Hdm)), E2.
  split; [done|]. split; [done|]. split; [done|]. split; [|exact (f_equal S Hlen)].
  destruct Hsr, Hsr'. split; congruence.
Qed.

(** The two planners between the rounds of the first stage. *)
Definition intra_step (s : PState) (g : Stage) : Prop :=
  inv inp ws s /\ agree s (sg_state g) /\ intraRounds s = stageRounds g /\ interRounds s = 0.

Lemma server_active_apart s key k (p q : Z -> bool) :
  NoDup (List.filter p (rev (take k (server_active s key))) ++ List.filter q (drop k (server_active s key))).
Proof.
  assert (NoDup (server_active s key)) as Hnd.
  { unfold server_active. rewrite insertion_sort_perm. apply NoDup_filter_seqZ. }
  rewrite <- (take_drop k (server_active s key)) in Hnd at 1. apply NoDup_app in Hnd as (H1 & H2 & H3).
  apply NoDup_app. split_and!.
  - apply NoDup_ListNoDup, List.NoDup_filter, List.NoDup_rev, NoDup_ListNoDup, H1.
  - intros x Hx%elem_of_filter_list Hy%elem_of_filter_list. rewrite <- Permutation_rev in Hx. by apply (H2 x).
  - apply NoDup_ListNoDup, List.NoDup_filter, NoDup_ListNoDup, H3.
Qed.

Lemma intra_round_ref key s g : intra_step s g ->
  match intra_round inp ws orders s key, ref_intra_round ri (ref_members ri key) g with
  | Continue s', Next g' => intra_step s' g'
  | Break s', Leave g' => intra_step s' g'
  | _, _ => False
  end.
Proof.
  intros (HI & Hag & Hri & Hre). unfold intra_round, ref_intra_round. cbv zeta.
  destruct (sorted_candidates inp ws Hok (fun r => (server_key inp r =? key) && negb (rankLoad s r =? cap))
    (rankLoad s) false) as [Es _].
  change (cap_ inp) with cap. change (in_rankSize inp) with R in *. change (globalRankIds inp) with gid in *.
  rewrite Es. clear Es. fold (server_active s key).
  pose proof (server_pairs s (sg_state g) key HI Hag) as Hp. cbv zeta in Hp. rewrite Hp. clear Hp.
  set (active := server_active s key). destruct ((length active <? 2)%nat || _ || _); [done|]. cbn [orb].
  set (middle := find_middle inp s active (length active / 2)%nat). destruct (middle =? 0)%nat; [done|].
  set (senders := List.filter _ (rev _)). set (receivers := List.filter _ (drop _ _)).
  set (f := local_load (ref_members ri key) (rankLoad s)).
  destruct (server_moves (ref_members ri key) (rankLoad s) (roundCounter g) senders receivers s (sg_state g) 0)
    as (s' & moved & r' & E1 & E2 & HI' & Hag' & [Hr1 Hr2] & Hlen); try done.
  { apply server_active_apart. }
  { intros x Hx. apply (server_active_ranks s key). fold active. apply elem_of_app in Hx as [Hx|Hx];
      apply elem_of_filter_list in Hx; [rewrite <- Permutation_rev in Hx; by apply elem_of_take_list in Hx|
      by apply elem_of_drop_list in Hx]. }
  { intros x Hx. apply list_elem_of_In, List.filter_In in Hx as [_ Hx]. b2p. done. }
  { intros x Hx. apply list_elem_of_In, List.filter_In in Hx as [_ Hx]. b2p. done. }
  fold f in E2, Hlen.
  assert (intra_pairs inp ws orders s (zip senders receivers) = inl (s', moved)) as -> by exact E1.
  assert (intra_step (set_pairBlock s') {| sg_state := saw_pair r'; roundCounter := roundCounter g + 1;
    stageRounds := stageRounds g |}) as Hstop.
  { split; [apply (flagged_inv inp ws s'); [right; unfold set_pairBlock; eauto 10|done]|].
    split; [by apply agrees_pair|]. cbn. split; congruence. }
  destruct (pair_up cap (map f senders) (map f receivers)) as [|p l] eqn:Epairs.
  - injection E2 as <- <-. cbn [Z.eqb]. destruct (zip senders receivers); [|done]. injection E1 as <-.
    split; [apply (flagged_inv inp ws s); [right; unfold set_pairBlock; eauto 10|done]|].
    split; [by apply agrees_pair|]. done.
  - rewrite E2. unfold end_round. destruct (moved =? 0); [done|].
    split; [apply (flagged_inv inp ws s'); [right; unfold count_intraRound; eauto 10|done]|].
    split; [by destruct Hag'|]. cbn. split; [lia|congruence].
Qed.

(** ** Server by server *)

Lemma next_server_key_least key r : 0 <= r < R -> key < server_key inp r -> next_server_key inp key <= server_key inp r.
Proof.
  intros Hr Hk. unfold next_server_key. apply elem_of_seqZ0 in Hr. change (in_rankSize inp) with R.
  set (step := fun serverKey r => let key' := server_key inp r in
    if (key <? key') && (key' <? serverKey) then key' else serverKey).
  assert (forall l acc, foldl step acc l <= acc) as Hle.
  { induction l as [|x l IH]; intros acc; cbn; [lia|]. rewrite IH. unfold step. case_if; b2p; lia. }
  generalize INT32_MAX as acc. induction (seqZ 0 R) as [|x l IH]; intros acc; [by inversion Hr|]. cbn [foldl].
  apply elem_of_cons in Hr as [<-|Hr]; [|by apply IH].
  rewrite Hle. unfold step. cbv zeta. rewrite (proj2 (Z.ltb_lt _ _)) by done. cbn [andb]. case_if; b2p; lia.
Qed.

(** [server_keys] lists the keys of the ranks in increasing order. *)
Lemma server_keys_spec : StronglySorted Z.lt (server_keys ri) /\
  forall k, k ∈ server_keys ri <-> exists r, 0 <= r < R /\ server_key inp r = k.
Proof.
  unfold server_keys.
  set (step := fun keys rank => if bool_decide (ref_server_key ri rank ∈ keys) then keys else keys ++ [ref_server_key ri rank]).
  assert (forall l acc, NoDup acc -> NoDup (foldl step acc l) /\
    forall k, k ∈ foldl step acc l <-> k ∈ acc \/ exists r, r ∈ l /\ ref_server_key ri r = k) as H.
  { induction l as [|x l IH]; intros acc Ha; cbn [foldl].
    { split; [done|]. intros k. split; [by left|]. intros [?|(r & Hr & _)]; [done|by inversion Hr]. }
    unfold step at 2 4. case_bool_decide as Hx.
    - destruct (IH acc Ha) as [H1 H2]. split; [done|]. intros k. rewrite H2. split.
      + intros [?|(r & ? & ?)]; [by left|right; exists r; split; [by right|done]].
      + intros [?|(r & Hr & <-)]; [by left|]. apply elem_of_cons in Hr as [->|Hr]; [by left|right; eauto].
    - destruct (IH (acc ++ [ref_server_key ri x])) as [H1 H2].
      { apply NoDup_app. split; [done|]. split; [|apply NoDup_singleton]. intros y Hy ->%list_elem_of_singleton. done. }
      split; [done|]. intros k. rewrite H2, elem_of_app, list_elem_of_singleton. split.
      + intros [[?| ->]|(r & ? & ?)]; [by left|right; exists x; split; [by left|done]|right; exists r; split; [by right|done]].
      + intros [?|(r & Hr & <-)]; [left; by left|]. apply elem_of_cons in Hr as [->|Hr]; [left; by right|right; eauto]. }
  destruct (H (seqZ 0 R) [] ltac:(constructor)) as [H1 H2]. set (l := foldl step [] (seqZ 0 R)) in *.
  pose proof (std_sort_perm Z.ltb l) as Hp. split.
  - assert (StronglySorted (fun x y => (y <? x) = false) (std_sort Z.ltb l)) as Hs.
    { apply StronglySorted_merge_sort; [intros x y z|intros x y]; lia. }
    assert (NoDup (std_sort Z.ltb l)) as Hnd by (by rewrite Hp).
    clear -Hs Hnd. induction Hs as [|x l0 Hs IH Hx]; [constructor|]. apply NoDup_cons in Hnd as [Hxl Hnd].
    constructor; [by apply IH|]. rewrite List.Forall_forall in Hx |- *. intros y Hy. specialize (Hx y Hy).
    assert (x <> y); [|lia]. intros ->. by apply Hxl, list_elem_of_In.
  - intros k. rewrite Hp, H2. setoid_rewrite elem_of_seqZ0. split; [|by right].
    intros [Hk|?]; [by inversion Hk|done].
Qed.

Lemma server_key_range r : 0 <= r < R -> 0 <= server_key inp r < INT32_MAX.
Proof.
  intros Hr. specialize (Hids r Hr). unfold server_key. change (globalRankIds inp r) with (gid r).
  unfold kPlanCardsPerServer, INT32_MAX in *. div_lia.
Qed.

Lemma next_key_head key k K : StronglySorted Z.lt (k :: K) -> key < k -> k ∈ server_keys ri ->
  (forall k', k' ∈ server_keys ri -> key < k' -> k' ∈ k :: K) -> next_server_key inp key = k.
Proof.
  intros Hs Hlt Hk Hall. destruct server_keys_spec as [_ Hkeys]. apply Hkeys in Hk as (r & Hr & Er).
  pose proof (next_server_key_least key r Hr ltac:(lia)) as Hle. pose proof (server_key_range r Hr) as Hrng.
  destruct (next_server_key_spec inp key ltac:(lia)) as (H1 & r' & Hr' & Er').
  assert (next_server_key inp key ∈ k :: K) as Hin by (apply Hall; [apply Hkeys; eauto|done]).
  apply elem_of_cons in Hin as [?|Hin]; [done|]. apply StronglySorted_inv in Hs as [_ Hf].
  rewrite List.Forall_forall in Hf. specialize (Hf _ (proj1 (list_elem_of_In _ _) Hin)). lia.
Qed.

Lemma next_key_none key : (forall k', k' ∈ server_keys ri -> k' <= key) -> next_server_key inp key = INT32_MAX.
Proof.
  intros Hall. destruct (decide (next_server_key inp key = INT32_MAX)) as [|Hne]; [done|].
  destruct (next_server_key_spec inp key Hne) as (H1 & r & Hr & Er). exfalso.
  destruct server_keys_spec as [_ Hkeys]. specialize (Hall (next_server_key inp key) (proj2 (Hkeys _) ltac:(eauto))). lia.
Qed.

Lemma intra_servers_ref roundFuel K : forall fuel key s g, StronglySorted Z.lt K -> (length K < fuel)%nat ->
  (forall k, k ∈ K -> key < k /\ k ∈ server_keys ri) ->
  (forall k', k' ∈ server_keys ri -> key < k' -> k' ∈ K) -> intra_step s g ->
  match intra_servers inp ws orders roundFuel fuel key s,
        foldl (fun acc key => acc ≫= iterate_stage (ref_intra_round ri (ref_members ri key)) roundFuel) (Some g) K with
  | Some s', Some g' => intra_step s' g'
  | None, None => True
  | _, _ => False
  end.
Proof.
  assert (forall K : list Z, foldl (fun acc key => acc ≫= iterate_stage (ref_intra_round ri (ref_members ri key)) roundFuel) (@None Stage) K
    = None) as Hnone by (intros K0; induction K0 as [|k' K' IH']; [reflexivity|exact IH']).
  induction K as [|k K IH]; intros [|fuel] key s g Hs Hfuel HK Hall Hst; cbn [length] in Hfuel; try lia;
    cbn [intra_servers foldl]; cbv zeta.
  - rewrite next_key_none, Z.eqb_refl; [done|]. intros k' Hk'. destruct (Z.le_gt_cases k' key) as [|Hgt]; [done|].
    specialize (Hall k' Hk' Hgt). by inversion Hall.
  - destruct (HK k ltac:(by left)) as [Hlt Hk]. rewrite (next_key_head key k K Hs Hlt Hk Hall).
    destruct server_keys_spec as [_ Hkeys]. pose proof (proj1 (Hkeys k) Hk) as (r & Hr & Er).
    pose proof (server_key_range r Hr). rewrite (proj2 (Z.eqb_neq k INT32_MAX)) by lia.
    pose proof (iterate_sim (fun s => intra_round inp ws orders s k) (ref_intra_round ri (ref_members ri k)) intra_step
      (intra_round_ref k) roundFuel s g Hst) as Hit.
    destruct (iterate_rounds _ roundFuel s) as [s1|]; cbn [mbind option_bind].
    2: { destruct (iterate_stage _ roundFuel g); [done|]. by rewrite Hnone. }
    destruct (iterate_stage _ roundFuel g) as [g1|]; [|done].
    rewrite bool_decide_true by apply Hit. apply StronglySorted_inv in Hs as [Hs Hf].
    apply IH; [done|lia| | |done].
    + intros k' Hk'. split; [|apply HK; by right]. rewrite List.Forall_forall in Hf. by apply Hf, list_elem_of_In.
    + intros k' Hk' Hgt. specialize (Hall k' Hk' ltac:(lia)). apply elem_of_cons in Hall as [->|?]; [lia|done].
Qed.

Lemma run_intra_ref roundFuel s g : intra_step s g ->
  match RunIntra inp ws orders roundFuel s, RunIntraServerStage ri roundFuel g with
  | Some s', Some g' => intra_step s' g'
  | None, None => True
  | _, _ => False
  end.
Proof.
  intros Hst. destruct server_keys_spec as [Hs Hkeys]. apply intra_servers_ref; try done.
  - pose proof (ok_R _ _ Hok). change (in_rankSize inp) with R in *.
    assert (NoDup (server_keys ri)) as Hnd.
    { clear -Hs. induction Hs as [|k K Hs IH Hf]; constructor; [|done]. intros Hin.
      rewrite List.Forall_forall in Hf. specialize (Hf k (proj1 (list_elem_of_In _ _) Hin)). lia. }
    assert (length (server_keys ri) <= length (map (server_key inp) (seqZ 0 R)))%nat as Hle.
    { apply NoDup_incl_length; [by apply NoDup_ListNoDup|]. intros k (r & Hr & <-)%list_elem_of_In%Hkeys.
      apply in_map, list_elem_of_In. by apply elem_of_seqZ0. }
    rewrite length_map, length_seqZ in Hle. lia.
  - intros k Hk. split; [|done]. apply Hkeys in Hk as (r & Hr & <-). pose proof (server_key_range r Hr).
    unfold INT32_MIN. lia.
Qed.

(** ** Between servers *)

Lemma in_list_test x l : RankInList x l = bool_decide (x ∈ (list_to_set l : gset Z)).
Proof.
  apply eq_true_iff_eq. rewrite bool_decide_eq_true, elem_of_list_to_set. unfold RankInList.
  rewrite List.existsb_exists. split.
  - intros (y & Hy & E1). b2p. subst. by apply list_elem_of_In.
  - intros Hx. exists x. split; [by apply list_elem_of_In|by apply Z.eqb_refl].
Qed.

Lemma candidates_ref round dst senders l : 0 <= dst < R -> (forall x, x ∈ l -> 0 <= x < R) ->
  forall n s r occ (O : gset Z), 0 <= n <= kPlanCrossCandidateCount -> inv inp ws s -> agree s r ->
  (forall x, occ x = bool_decide (x ∈ O)) ->
  exists s' occ' actual r' O',
    inter_candidates inp ws orders s dst senders occ l n = (s', occ', actual) /\
    ref_candidates ri r dst round O (take (Z.to_nat (kPlanCrossCandidateCount - n))
      (List.filter (fun x => bool_decide (x ∈ (list_to_set senders : gset Z))) l)) = (r', O', actual) /\
    inv inp ws s' /\ agree s' r' /\ (forall x, occ' x = bool_decide (x ∈ O')) /\ same_rounds s s'.
Proof.
  intros Hd. induction l as [|src l IH]; intros Hl n s r occ O Hn HI Hag Hocc; cbn [inter_candidates List.filter].
  { exists s, occ, 0, r, O. rewrite take_nil. by split_and!. }
  assert (0 <= src < R) as Hsrc by (apply Hl; by left).
  assert (forall x, x ∈ l -> 0 <= x < R) as Hl' by (intros; apply Hl; by right).
  destruct (Z.ltb_spec n kPlanCrossCandidateCount) as [Hlt|Hge]; cbn [negb].
  2: { exists s, occ, 0, r, O. replace (Z.to_nat (kPlanCrossCandidateCount - n)) with 0%nat by lia.
       by split_and!. }
  rewrite in_list_test. destruct (bool_decide (src ∈ _)) eqn:Ein; cbn [negb]; [|by apply IH].
  replace (Z.to_nat (kPlanCrossCandidateCount - n)) with (S (Z.to_nat (kPlanCrossCandidateCount - (n + 1)))) by lia.
  cbn [take firstn ref_candidates]. rewrite Hocc. destruct (bool_decide (src ∈ O)) eqn:Eo; [apply IH; try done; lia|].
  cbv zeta. change (cap_ inp) with cap. rewrite MinI32_min, <- (ag_load _ _ _ _ Hag).
  set (requested := Z.min (rankLoad s src - cap) (cap - rankLoad s dst)).
  destruct (requested <=? 0); [apply IH; try done; lia|].
  destruct (apply_move_ref ri rank ws Hok Hroom s r src dst requested round HI Hag Hsrc Hd)
    as (s1 & m1 & r1 & E1 & E2 & HI1 & Hag1 & _).
  assert (same_rounds s s1) as [Hr1 Hr2].
  { pose proof (apply_rounds inp ws orders s s src dst requested (conj eq_refl eq_refl)) as H. by rewrite E1 in H. }
  rewrite E1, E2, bool_decide_true by apply HI1. cbn [negb].
  destruct (0 <? m1).
  - exists s1, (upd1 occ src true), m1, r1, ({[src]} ∪ O). split_and!; try done. intros x. unfold upd1.
    destruct (Z.eqb_spec x src) as [->|Hne].
    + symmetry. apply bool_decide_eq_true. by apply elem_of_union_l, elem_of_singleton.
    + rewrite Hocc. apply bool_decide_ext. rewrite elem_of_union, elem_of_singleton. tauto.
  - destruct (IH Hl' (n + 1) s1 r1 occ O ltac:(lia) HI1 Hag1 Hocc) as (s' & occ' & a & r' & O' & F1 & F2 & ? & ? & ? & [G1 G2]).
    exists s', occ', a, r', O'. split_and!; try done; split; congruence.
Qed.

Lemma receivers_ref (f : Z -> RankedLoad) round senders receivers : (forall x, rl_rank (f x) = x) ->
  (forall x, x ∈ receivers -> 0 <= x < R) ->
  forall s r occ (O : gset Z) moved, inv inp ws s -> agree s r -> (forall x, occ x = bool_decide (x ∈ O)) ->
  exists s' occ' moved' r' O',
    loop_ret (fun dst acc =>
      let '(s, occupied, actualRound) := acc in
      let '(s1, occupied1, actual) := inter_candidates inp ws orders s dst senders occupied (orders dst) 0 in
      if bool_decide (fatal s1 = PLAN_OK) then inl (s1, occupied1, actualRound + actual)
      else inr s1) receivers (s, occ, moved) = inl (s', occ', moved') /\
    foldl (fun acc receiver =>
      let '(s, occupied, actualRound) := acc in
      let '(s1, occupied1, actual) :=
        ref_candidates ri s (rl_rank receiver) round occupied
          (BuildStaticTopCandidates senders (orders (rl_rank receiver))) in
      (s1, occupied1, actualRound + actual)) (r, O, moved)
      (map f receivers) = (r', O', moved') /\
    inv inp ws s' /\ agree s' r' /\ same_rounds s s'.
Proof.
  intros Hf. induction receivers as [|dst receivers IH]; intros Hr s r occ O moved HI Hag Hocc; cbn [loop_ret foldl map].
  { exists s, occ, moved, r, O. by split_and!. }
  rewrite Hf.
  destruct (candidates_ref round dst senders (orders dst) (Hr dst ltac:(by left)) (fun x => orders_ranks ri dst x)
    0 s r occ O ltac:(unfold kPlanCrossCandidateCount; lia) HI Hag Hocc)
    as (s1 & occ1 & a & r1 & O1 & E1 & E2 & HI1 & Hag1 & Hocc1 & [G1 G2]).
  rewrite E1. rewrite Z.sub_0_r in E2. unfold BuildStaticTopCandidates at 2. rewrite E2.
  rewrite bool_decide_true by apply HI1.
  destruct (IH ltac:(intros; apply Hr; by right) s1 r1 occ1 O1 (moved + a) HI1 Hag1 Hocc1)
    as (s' & occ' & m' & r' & O' & F1 & F2 & ? & ? & [G3 G4]).
  exists s', occ', m', r', O'. split_and!; try done; split; congruence.
Qed.

(** The two planners between the rounds of the second stage, after [k] rounds of the first. *)
Definition inter_step (k : Z) (s : PState) (g : Stage) : Prop :=
  inv inp ws s /\ agree s (sg_state g) /\ intraRounds s = k /\ interRounds s = stageRounds g.

Lemma inter_round_ref k s g : inter_step k s g ->
  match inter_round inp ws orders s, ref_inter_round ri g with
  | Continue s', Next g' => inter_step k s' g'
  | Break s', Leave g' => inter_step k s' g'
  | _, _ => False
  end.
Proof.
  intros (HI & Hag & Hri & Hre). unfold inter_round, ref_inter_round. cbv zeta.
  rewrite <- (ag_load _ _ _ _ Hag). set (f := ranked ri (sg_state g)).
  assert (forall x, rl_load (f x) = rankLoad s x) as Hfl by (intros; by rewrite (ag_load _ _ _ _ Hag)).
  change (cap_ inp) with cap. change (in_rankSize inp) with R. change (globalRankIds inp) with gid.
  set (C := List.filter (fun r => negb (rankLoad s r =? cap)) (seqZ 0 R)).
  rewrite filter_map, !length_map.
  rewrite (List.filter_ext (fun x => rl_load (f x) <? cap) (fun x => rankLoad s x <? cap)) by (intros; by rewrite Hfl).
  set (under := Z.of_nat (length (List.filter (fun x => rankLoad s x <? cap) C))).
  destruct ((Z.of_nat (length C) <? 2) || (under =? 0) || (under =? Z.of_nat (length C))); [done|].
  destruct (sorted_candidates inp ws Hok (fun r => negb (rankLoad s r =? cap)) (rankLoad s) false) as [Es HA].
  change (in_rankSize inp) with R in *. change (globalRankIds inp) with gid in *. fold C in Es, HA. rewrite Es. clear Es.
  set (A := insertion_sort (rank_better (rankLoad s) gid false) C) in *.
  assert (NoDup A) as HndA by (unfold A; rewrite insertion_sort_perm; apply NoDup_filter_seqZ).
  assert (std_sort load_less (map f C) = map f A) as ->.
  { apply std_sort_map; [apply _..|apply NoDup_filter_seqZ|].
    intros x y _ _ _. unfold rank_better, load_less. cbv zeta. by rewrite !Hfl. }
  rewrite MinI32_min. destruct (Z.min under (Z.of_nat (length C) / 2) <=? 0); [done|].
  set (m := Z.to_nat (Z.of_nat (length C) - Z.min under (Z.of_nat (length C) / 2))).
  assert (forall x, x ∈ drop m A -> 0 <= x < R) as HD by (intros x Hx%elem_of_drop_list; by apply HA).
  rewrite sort_ranks_some; [|..|done].
  2: { rewrite length_drop. unfold A. rewrite (Permutation_length (insertion_sort_perm _ _)).
       pose proof (List.filter_length_le (fun r => negb (rankLoad s r =? cap)) (seqZ 0 R)) as Hle.
       rewrite length_seqZ in Hle. pose proof (ok_R _ _ Hok) as HR. change (in_rankSize inp) with R in HR. fold C in Hle. lia. }
  rewrite firstn_map, skipn_map, map_map.
  assert (std_sort load_less_ascending (map f (drop m A)) =
    map f (insertion_sort (rank_better (rankLoad s) gid true) (drop m A))) as ->.
  { apply std_sort_map; [apply _..| |].
    - rewrite <- (take_drop m A) in HndA. by apply NoDup_app in HndA as (_ & _ & ?).
    - intros x y _ _ _. unfold rank_better, load_less_ascending. cbv zeta. by rewrite !Hfl. }
  rewrite (map_ext (fun x => rl_rank (f x)) id) by done. rewrite map_id.
  set (receivers := insertion_sort _ (drop m A)).
  destruct (receivers_ref f (roundCounter g) (take m A) receivers ltac:(done)) with (s := s) (r := sg_state g)
    (occ := fun _ : Z => false) (O := ∅ : gset Z) (moved := 0)
    as (s' & occ' & moved & r' & O' & E1 & E2 & HI' & Hag' & [Hr1 Hr2]); try done.
  { intros x. unfold receivers. rewrite insertion_sort_perm. apply HD. }
  assert (inter_receivers inp ws orders s (take m A) receivers = inl (s', occ', moved)) as -> by exact E1.
  rewrite E2. unfold end_round. destruct (moved =? 0).
  - split; [apply (flagged_inv inp ws s'); [right; unfold set_pairBlock; eauto 10|done]|].
    split; [by apply agrees_pair|]. cbn. split; congruence.
  - split; [apply (flagged_inv inp ws s'); [right; unfold count_interRound; eauto 10|done]|].
    split; [by destruct Hag'|]. cbn. split; [congruence|lia].
Qed.

(** ** What stays at home *)

Lemma append_remainder_ref s0 x src s r : 0 <= x < E -> 0 <= src < R -> settling inp ws s0 s -> agree s r ->
  exists s', append_remainder inp ws x src s = inl s' /\ settling inp ws s0 s' /\ same_rounds s s' /\
    agree s' (append_remainder_segment ri x r src).
Proof.
  intros Hx Hs Hse Hag. pose proof (append_remainder_ok inp ws Hok s0 x src s Hx Hs Hse) as Hst.
  unfold append_remainder in *. unfold append_remainder_segment. cbv zeta in *.
  rewrite <- (ag_rem _ _ _ _ Hag). change (in_expertNum inp) with E in *.
  change (expertsPerRank inp) with (ref_expertsPerRank ri) in *.
  destruct (remainingTpe s (RE src x) <=? 0); [by exists s|].
  destruct (AppendSegment inp ws s x src _ _ _ _) as [s1 ok] eqn:Eap.
  destruct ok; [|exfalso; by apply (no_overflow ri rank ws Hroom) in Hst]. destruct Hst as (Hst & _).
  eexists. split; [reflexivity|]. split; [exact Hst|]. unfold AppendSegment in Eap. cbv zeta in Eap.
  rewrite <- (ag_src _ _ _ _ Hag), <- (ag_dst _ _ _ _ Hag), <- (ag_log _ _ _ _ Hag).
  set (m := {| expertId := x |}) in *.
  assert (exists segs, s1 = with_segments s segs (segLog s ++ [m]) (fatal s)) as [segs ->]
    by (repeat case_if_in Eap; inversion Eap; eauto).
  split; [done|]. destruct Hag. by constructor.
Qed.

Lemma append_remainders_ref s r : inv inp ws s -> agree s r ->
  exists s', AppendRemainders inp ws s = s' /\ settled inp ws s' /\ same_rounds s s' /\
    agree s' (AppendRemainderSegments ri r).
Proof.
  intros HI Hag. eexists. split; [reflexivity|].
  destruct (append_remainders_ok inp ws Hok s HI) as [[Hset _]|Hov]; [|by apply (no_overflow ri rank ws Hroom) in Hov].
  split; [exact Hset|]. clear Hset. unfold AppendRemainders, AppendRemainderSegments.
  change (in_expertNum inp) with E. change (in_rankSize inp) with R.
  assert (forall X l s1 r1, 0 <= X < E -> (forall y, y ∈ l -> 0 <= y < R) -> settling inp ws s s1 -> same_rounds s s1 ->
    agree s1 r1 -> exists s2, loop_ret (append_remainder inp ws X) l s1 = inl s2 /\ settling inp ws s s2 /\
      same_rounds s s2 /\ agree s2 (foldl (append_remainder_segment ri X) r1 l)) as Hin.
  { intros X. induction l as [|y l IH]; intros s1 r1 HX Hl Hse Hsr Ha; cbn [loop_ret foldl]; [by exists s1|].
    destruct (append_remainder_ref s X y s1 r1 HX (Hl y ltac:(by left)) Hse Ha) as (s2 & -> & ? & [? ?] & ?).
    apply IH; try done; [intros; apply Hl; by right|]. destruct Hsr. split; congruence. }
  assert (forall l s1 r1, (forall y, y ∈ l -> 0 <= y < E) -> settling inp ws s s1 -> same_rounds s s1 ->
    agree s1 r1 -> exists s2,
      loop_ret (fun expert s => loop_ret (append_remainder inp ws expert) (seqZ 0 R) s) l s1 = inl s2 /\
      same_rounds s s2 /\
      agree s2 (foldl (fun s expert => foldl (append_remainder_segment ri expert) s (seqZ 0 R)) r1 l)) as Hout.
  { induction l as [|X l IH]; intros s1 r1 Hl Hse Hsr Ha; cbn [loop_ret foldl]; [by exists s1|].
    destruct (Hin X (seqZ 0 R) s1 r1 (Hl X ltac:(by left))) as (s2 & -> & ? & ? & ?); try done.
    { intros y. by rewrite elem_of_seqZ0. }
    apply IH; try done. intros; apply Hl; by right. }
  destruct (Hout (seqZ 0 E) s r) as (s2 & -> & ? & ?); try done.
  - intros y. by rewrite elem_of_seqZ0.
  - by apply settling_start.
Qed.

(** ** The balancing as a whole *)

Lemma initial_agrees : agree (initial_state inp) (ref_initial_state ri) /\
  intraRounds (initial_state inp) = 0 /\ interRounds (initial_state inp) = 0.
Proof.
  unfold initial_state, ref_initial_state. cbv zeta.
  change (in_expertNum inp) with E. change (in_rankSize inp) with R. change (expertsPerRank inp) with (ref_expertsPerRank ri).
  change (tokensPerExpert inp) with (vec_at (ri_tokensPerExpert ri)).
  destruct (foldl _ _ (seqZ 0 E)) as [al load]. split; [|done]. constructor; try done.
Qed.

(** The reference balancing ends in the state of the device planner, with its round counts. *)
Lemma balance_ref : affinity_rows inp ws = orders ->
  exists s r, Balance inp ws (round_fuel inp) = Some s /\ settled inp ws s /\
    ref_balance ri (ref_fuel ri) = Some (r, intraRounds s, interRounds s) /\ agree s r.
Proof.
  intros Haff. assert (affinity_ok inp ws) as Hc.
  { intros cached d r Ec Hd Hr. apply (orders_ranks ri d). rewrite <- Haff. unfold affinity_rows. by rewrite Ec. }
  destruct (balance_total inp ws Hok (round_fuel inp) Hc) as (s & Eb & Hs).
  { unfold round_fuel. pose proof (ok_R _ _ Hok). pose proof cap_positive. change (cap_ inp) with cap in *.
    change (in_rankSize inp) with R in *. nia. }
  assert (settled inp ws s) as Hset by (destruct Hs as [|Hov]; [done|by apply (no_overflow ri rank ws Hroom) in Hov]).
  pose proof Eb as Eb0. unfold Balance in Eb. rewrite Haff in Eb. unfold ref_balance. change (round_fuel inp) with (ref_fuel ri) in *.
  destruct initial_agrees as (Hag0 & Hr0 & He0).
  pose proof (run_intra_ref (ref_fuel ri) (initial_state inp)
    {| sg_state := ref_initial_state ri; roundCounter := 0; stageRounds := 0 |}) as H1.
  specialize (H1 (conj (initial_inv inp ws Hok) (conj Hag0 (conj Hr0 He0)))).
  destruct (RunIntra inp ws orders (ref_fuel ri) (initial_state inp)) as [s1|]; [|done].
  destruct (RunIntraServerStage ri (ref_fuel ri) _) as [g1|]; [|done]. cbn [mbind option_bind].
  destruct H1 as (HI1 & Hag1 & Hr1 & He1). rewrite bool_decide_true in Eb by apply HI1.
  pose proof (iterate_sim (inter_round inp ws orders) (ref_inter_round ri) (inter_step (stageRounds g1))
    (inter_round_ref (stageRounds g1)) (ref_fuel ri) s1
    {| sg_state := sg_state g1; roundCounter := roundCounter g1; stageRounds := 0 |}
    (conj HI1 (conj Hag1 (conj Hr1 He1)))) as H2.
  unfold RunInter in Eb. unfold RunInterServerStage.
  destruct (iterate_rounds (inter_round inp ws orders) (ref_fuel ri) s1) as [s2|]; [|done].
  destruct (iterate_stage (ref_inter_round ri) (ref_fuel ri) _) as [g2|]; [|done]. cbn [mbind option_bind].
  destruct H2 as (HI2 & Hag2 & Hr2 & He2). rewrite bool_decide_true in Eb by apply HI2.
  destruct (append_remainders_ref s2 (sg_state g2) HI2 Hag2) as (s' & Es & _ & [Hr3 He3] & Hag3).
  rewrite Es in Eb. injection Eb as ->.
  exists s, (AppendRemainderSegments ri (sg_state g2)). split; [exact Eb0|]. split; [done|]. split; [|done].
  by rewrite Hr3, He3, Hr2, He2.
Qed.
End balance.
