(* ===== verification/RefLayout.v ===== *)
(** The layouts of the reference planner, seen by one rank, are the layouts its own planner
    builds. *)
From stdpp Require Import gmap.
From S2P Require Import Prelude PlanTypes PlanSort PlanAlgorithm PlanOutput PlanMove PlanBalance PlanFinal PlanLayout RefPlan RefMove RefOutput.

Section layout.
Context (ri : ReferenceInput) (rank : Z) (ws : PlanAlgorithmWorkspace).
#[local] Abbreviation inp := (rank_input ri rank).
#[local] Abbreviation R := (ri_rankSize ri).
#[local] Abbreviation E := (ri_expertNum ri).
#[local] Abbreviation P := (ref_expertsPerRank ri).
#[local] Abbreviation W := (ref_targetWords ri).
#[local] Abbreviation B := (ref_prefetchSlots ri).
#[local] Abbreviation G := (ref_groupCount ri).
#[local] Abbreviation RE r e := (ReIndex r e (ri_expertNum ri)).
#[local] Abbreviation home e := (HomeRank e (ref_expertsPerRank ri)).
Context (Hok : plan_ok inp ws) (Hmeta : hasRemoteExperts ws = true).
Context (s : PState) (Hs : settled inp ws s).

(** ** Rows *)

Lemma remote_rows d : 0 <= d < R -> remote_row inp s d = inl (ref_remote_row ri (alloc s) d) /\
  row_of inp s d (ref_remote_row ri (alloc s) d).
Proof.
  intros Hd. destruct (remote_row_spec inp ws s Hs d Hd) as (row & -> & Hp & Hsort).
  assert (ref_remote_row ri (alloc s) d = row) as ->; [|done].
  unfold ref_remote_row. apply std_sort_unique; [apply _|exact Hp| |].
  - clear Hp. induction Hsort as [|x l Hl IH Hx]; [constructor|]. constructor; [done|].
    rewrite List.Forall_forall in Hx |- *. intros y Hy. specialize (Hx y Hy). by apply less_asym.
  - intros x y _ _. unfold alloc_less. cbv zeta. repeat case_if; intros; b2p; lia.
Qed.

(** ** The first phase *)

(** The metadata of one rank against the metadata of all. *)
Record meta_sim (o : Outputs) (f : RefLayout) : Prop := {
  ms_copy slot : 0 <= slot < B -> expertsToCopy o slot = rf_expertsToCopy f (rank * B + slot);
  ms_remote d slot : 0 <= d < R -> 0 <= slot < B ->
    remoteExperts o (d * B + slot) = rf_expertsToCopy f (d * B + slot);
  ms_targets le w : 0 <= le < P -> 0 <= w < W ->
    expertTargets o (le * W + w) = rf_expertTargets f ((rank * P + le) * W + w);
  ms_stats0 : remoteStats0 o = rf_remoteStats f (rank * 2);
  ms_stats1 : remoteStats1 o = rf_remoteStats f (rank * 2 + 1)
}.

(** What one slot of the first phase writes for this rank. *)
Lemma target_words_sim d e (tdev tref : Z -> Z) : 0 <= d < R -> 0 <= e < E ->
  (forall le w, 0 <= le < P -> 0 <= w < W -> tdev (le * W + w) = tref ((rank * P + le) * W + w)) ->
  let word := (home e * P + (e - home e * P)) * W + d / 64 in
  let tdev' := if (0 <=? e) && (home e =? rank) then mark_target W tdev (e - rank * P) d else tdev in
  forall le w, 0 <= le < P -> 0 <= w < W ->
    tdev' (le * W + w) = upd1 tref word (Z.lor (tref word) (Z.shiftl 1 (d mod 64))) ((rank * P + le) * W + w).
Proof.
  intros Hd He HT word tdev' le w Hle Hw. unfold word, tdev'. clear word tdev'.
  pose proof (ok_P _ _ Hok) as HP. change (expertsPerRank inp) with P in HP.
  assert (0 <= d / 64 < W) as Hdw by (unfold ref_targetWords; div_lia).
  replace (home e * P + (e - home e * P)) with e by lia. rewrite (proj2 (Z.leb_le 0 e)) by lia. cbn [andb].
  destruct (Z.eqb_spec (home e) rank) as [Eh|Hne].
  - assert (0 <= e - rank * P < P) as Hl by (unfold HomeRank in Eh; rewrite <- Eh; div_lia).
    unfold mark_target. cbv zeta. unfold upd1.
    destruct (Z.eqb_spec (le * W + w) ((e - rank * P) * W + d / 64)) as [E1|N1].
    + apply mul_add_inj in E1 as [-> ->]; [|done..]. replace (rank * P + (e - rank * P)) with e by lia.
      rewrite Z.eqb_refl, HT by done. by replace (rank * P + (e - rank * P)) with e by lia.
    + rewrite (proj2 (Z.eqb_neq _ _)); [by apply HT|]. intros E2. apply N1.
      apply mul_add_inj in E2 as [E3 ->]; [|done..]. f_equal. f_equal. lia.
  - rewrite upd1_ne; [by apply HT|]. intros E2. apply Hne. apply mul_add_inj in E2 as [E3 _]; [|done..].
    unfold HomeRank. rewrite <- E3. by apply div_mul_add.
Qed.

Lemma count_home_snoc (row : list Z) (n : nat) e : row !! n = Some e ->
  Z.of_nat (length (List.filter (fun x => home x =? rank) (take (S n) row))) =
  Z.of_nat (length (List.filter (fun x => home x =? rank) (take n row))) + (if home e =? rank then 1 else 0).
Proof.
  intros He. rewrite (take_S_r _ _ _ He), List.filter_app, length_app. cbn. case_if; cbn; lia.
Qed.

(** The publishing of a row, slot by slot, on both sides. *)
Record publishing (d : Z) (row : list Z) (n : Z) (o0 o : Outputs) (f0 f : RefLayout) : Prop := {
  pb_frame : cuSeqlens o = cuSeqlens o0 /\ out_dst o = out_dst o0 /\ expertsToCopy o = expertsToCopy o0 /\
    remoteStats0 o = remoteStats0 o0 /\ remoteStats1 o = remoteStats1 o0;
  pb_ref : rf_cuSeqlens f = rf_cuSeqlens f0 /\ rf_base f = rf_base f0 /\ rf_remote f = rf_remote f0;
  pb_dev i : remoteExperts o i =
    if bool_decide (d * B <= i < d * B + n) then row_at row (i - d * B) else remoteExperts o0 i;
  pb_copy i : rf_expertsToCopy f i =
    if bool_decide (d * B <= i < d * B + n) then row_at row (i - d * B) else rf_expertsToCopy f0 i;
  pb_targets le w : 0 <= le < P -> 0 <= w < W ->
    expertTargets o (le * W + w) = rf_expertTargets f ((rank * P + le) * W + w);
  pb_even i : rf_remoteStats f (i * 2) = rf_remoteStats f0 (i * 2);
  pb_odd : rf_remoteStats f (rank * 2 + 1) = rf_remoteStats f0 (rank * 2 + 1) +
    Z.of_nat (length (List.filter (fun x => home x =? rank) (take (Z.to_nat n) row)))
}.

Lemma decide_snoc (a n i : Z) {A : Type} (x y z : A) : 0 <= n -> (i = a + n -> x = y) ->
  (if i =? a + n then x else if bool_decide (a <= i < a + n) then y else z) =
  (if bool_decide (a <= i < a + (n + 1)) then y else z).
Proof.
  intros Hn Hx. destruct (Z.eqb_spec i (a + n)) as [->|Hne].
  - rewrite (bool_decide_true (a <= a + n < _)) by lia. by apply Hx.
  - destruct (bool_decide (a <= i < a + n)) eqn:E1.
    + apply bool_decide_eq_true in E1. by rewrite bool_decide_true by lia.
    + apply bool_decide_eq_false in E1. by rewrite bool_decide_false by lia.
Qed.

Lemma publish_step d row n o0 o f0 f : 0 <= d < R -> 0 <= n < Z.of_nat (length row) ->
  (forall x, x ∈ row -> 0 <= x < E) -> publishing d row n o0 o f0 f ->
  let expert := row_at row n in
  publishing d row (n + 1) o0
    {| out_dst := out_dst o; cuSeqlens := cuSeqlens o; expertsToCopy := expertsToCopy o;
       remoteExperts := upd1 (remoteExperts o) (d * B + n) expert;
       expertTargets := if (0 <=? expert) && (home expert =? rank)
         then mark_target W (expertTargets o) (expert - rank * P) d else expertTargets o;
       remoteStats0 := remoteStats0 o; remoteStats1 := remoteStats1 o |} f0 (ref_publish_slot ri d row f n).
Proof.
  intros Hd Hn Hrow [F1 F2 P1 P2 P3 P4 P5] expert.
  destruct (lookup_lt_is_Some_2 row (Z.to_nat n) ltac:(lia)) as [e He].
  assert (expert = e) as Ee by (by apply nth_lookup_Some).
  assert (nth (Z.to_nat n) row 0 = e) as Ee' by (by apply nth_lookup_Some).
  assert (0 <= e < E) as Her by (by eapply Hrow, list_elem_of_lookup_2).
  unfold ref_publish_slot. cbv zeta. rewrite Ee', Ee. constructor; cbn.
  - done.
  - done.
  - intros i. unfold upd1. rewrite P1. apply decide_snoc; [lia|]. intros ->. rewrite <- Ee. unfold expert. f_equal. lia.
  - intros i. unfold upd1. rewrite P2. apply decide_snoc; [lia|]. intros ->. rewrite <- Ee. unfold expert. f_equal. lia.
  - intros le w Hle Hw. by apply (target_words_sim d e (expertTargets o) (rf_expertTargets f) Hd Her P3).
  - intros i. rewrite upd1_ne by lia. apply P4.
  - replace (Z.to_nat (n + 1)) with (S (Z.to_nat n)) by lia. rewrite (count_home_snoc _ _ e He).
    unfold upd1. destruct (Z.eqb_spec (home e) rank) as [->|Hne].
    + rewrite Z.eqb_refl. lia.
    + rewrite (proj2 (Z.eqb_neq _ _)) by lia. lia.
Qed.

Lemma row_at_beyond row n : Z.of_nat (length row) <= n -> row_at row n = -1.
Proof. intros H. unfold row_at. apply nth_overflow. lia. Qed.

(** The slots behind the entries of a row hold no expert and add nothing. *)
Lemma publish_tail d row n o0 o f0 f : Z.of_nat (length row) <= n -> publishing d row n o0 o f0 f ->
  publishing d row (n + 1) o0
    {| out_dst := out_dst o; cuSeqlens := cuSeqlens o; expertsToCopy := expertsToCopy o;
       remoteExperts := upd1 (remoteExperts o) (d * B + n) (-1);
       expertTargets := expertTargets o;
       remoteStats0 := remoteStats0 o; remoteStats1 := remoteStats1 o |} f0
    {| rf_cuSeqlens := rf_cuSeqlens f; rf_expertsToCopy := upd1 (rf_expertsToCopy f) (d * B + n) (-1);
       rf_remoteStats := rf_remoteStats f; rf_expertTargets := rf_expertTargets f;
       rf_base := rf_base f; rf_remote := rf_remote f |}.
Proof.
  intros Hn [F1 F2 P1 P2 P3 P4 P5]. pose proof (row_at_beyond row n Hn) as Hm. constructor; cbn; try done.
  - intros i. unfold upd1. rewrite P1. apply decide_snoc; [lia|]. intros ->. rewrite <- Hm. f_equal. lia.
  - intros i. unfold upd1. rewrite P2. apply decide_snoc; [lia|]. intros ->. rewrite <- Hm. f_equal. lia.
  - rewrite P5, !take_ge by lia. done.
Qed.

(** Writing [-1] where it already stands changes nothing that is compared. *)
Lemma publish_row_sim d row o0 f0 : 0 <= d < R -> Z.of_nat (length row) <= B ->
  (forall x, x ∈ row -> 0 <= x < E) ->
  (forall slot, 0 <= slot < B -> rf_expertsToCopy f0 (d * B + slot) = -1) ->
  (forall le w, 0 <= le < P -> 0 <= w < W ->
    expertTargets o0 (le * W + w) = rf_expertTargets f0 ((rank * P + le) * W + w)) ->
  let f := foldl (ref_publish_slot ri d row) f0 (seqZ 0 (Z.of_nat (length row))) in
  publishing d row B o0 (publish_row inp d row o0) f0 f.
Proof.
  intros Hd Hlen Hrow Hfree HT f.
  unfold publish_row. change (b_ inp) with B. change (expertsPerRank inp) with P. change (in_rank inp) with rank.
  change (targetWords inp) with W.
  match goal with |- publishing _ _ _ _ (foldl ?g _ _) _ _ => set (step := g) end.
  assert (forall n : nat, Z.of_nat n <= Z.of_nat (length row) ->
    publishing d row (Z.of_nat n) o0 (foldl step o0 (seqZ 0 (Z.of_nat n))) f0
      (foldl (ref_publish_slot ri d row) f0 (seqZ 0 (Z.of_nat n)))) as H1.
  { induction n as [|n IH]; intros Hn.
    - change (seqZ 0 (Z.of_nat 0)) with (@nil Z). cbn [foldl]. constructor; [done|done|intros i; by rewrite bool_decide_false by lia..|done|done|].
      change (take (Z.to_nat (Z.of_nat 0)) row) with (@nil Z). cbn [List.filter length]. lia.
    - replace (Z.of_nat (S n)) with (Z.of_nat n + 1) by lia. rewrite !seqZ0_snoc, !foldl_app by lia. cbn [foldl].
      apply publish_step; try done; [lia|]. apply IH. lia. }
  specialize (H1 (length row) ltac:(lia)). fold f in H1.
  assert (forall k : nat, Z.of_nat (length row) + Z.of_nat k <= B ->
    publishing d row (Z.of_nat (length row) + Z.of_nat k) o0
      (foldl step o0 (seqZ 0 (Z.of_nat (length row) + Z.of_nat k))) f0 f) as H2.
  { induction k as [|k IH]; intros Hk; [by rewrite Z.add_0_r|].
    specialize (IH ltac:(lia)). set (n := Z.of_nat (length row) + Z.of_nat k) in *.
    replace (Z.of_nat (length row) + Z.of_nat (S k)) with (n + 1) by lia.
    rewrite seqZ0_snoc, foldl_app by lia. cbn [foldl]. set (o := foldl step o0 (seqZ 0 n)) in *.
    pose proof (publish_tail d row n o0 o f0 f ltac:(lia) IH) as Ht.
    destruct Ht as [F1 F2 P1 P2 P3 P4 P5]. pose proof (row_at_beyond row n ltac:(lia)) as Hm.
    constructor; try done.
    - unfold step. cbv zeta. rewrite Hm. exact P1.
    - intros i. rewrite <- P2. cbn. unfold upd1. destruct (Z.eqb_spec i (d * B + n)) as [->|]; [|done].
      destruct IH as [_ _ _ Q _ _ _]. rewrite Q, bool_decide_false by lia. apply Hfree. lia.
    - unfold step. cbv zeta. rewrite Hm. exact P3. }
  specialize (H2 (Z.to_nat (B - Z.of_nat (length row))) ltac:(lia)).
  by replace (Z.of_nat (length row) + Z.of_nat (Z.to_nat (B - Z.of_nat (length row)))) with B in H2 by lia.
Qed.

Definition largest_remote (f : RefLayout) (n : Z) : Z :=
  foldl (fun m r => Z.max m (rf_remoteStats f (r * 2))) 0 (seqZ 0 n).

(** After the rows of the destinations before [n]. *)
Record rows_sim (n : Z) (l : Layout) (f : RefLayout) : Prop := {
  rs_rows : rows l = rf_remote f;
  rs_base : expertPhysicalBase l = rf_base f;
  rs_cu : (forall g, cuSeqlens (outs l) g = 0) /\ (forall i, rf_cuSeqlens f i = 0);
  rs_meta : meta_sim (outs l) f;
  rs_max : maxRemote l = largest_remote f n;
  rs_later d : n <= d -> rf_remoteStats f (d * 2) = 0;
  rs_free d slot : n <= d -> 0 <= slot < B -> rf_expertsToCopy f (d * B + slot) = -1;
  rs_end : localEnd l = 0;
  rs_dst : out_dst (outs l) = fun _ => 0;
  rs_valid d : 0 <= d < n -> row_of inp s d (rows l d)
}.

Lemma largest_ext f f' n : (forall r, 0 <= r < n -> rf_remoteStats f (r * 2) = rf_remoteStats f' (r * 2)) ->
  largest_remote f n = largest_remote f' n.
Proof.
  intros H. unfold largest_remote. generalize 0 at 1 3 as m.
  assert (forall r, r ∈ seqZ 0 n -> rf_remoteStats f (r * 2) = rf_remoteStats f' (r * 2)) as H'
    by (intros r Hr%elem_of_seqZ0; auto).
  revert H'. clear H. induction (seqZ 0 n) as [|x l IH]; intros H m; [done|]. cbn.
  rewrite H by (by left). apply IH. intros. apply H. by right.
Qed.

(** The index of a slot fits an [int32_t]. *)
Context (Hslots : (R - 1) * B <= INT32_MAX).

Lemma slot_product_fits d : 0 <= d < R -> d * B <= INT32_MAX.
Proof. intros Hd. pose proof (ok_b _ _ Hok) as Hb. change (0 < B) in Hb. nia. Qed.

Lemma place_remote_ref d l f : 0 <= d < R -> rows_sim d l f ->
  match place_remote inp ws s d l, ref_place_remote ri (alloc s) d f with
  | inl l', inl f' => rows_sim (d + 1) l' f'
  | _, _ => False
  end.
Proof.
  intros Hd [H1 H2 [H3 H3'] [M1 M2 M3 M4 M5] H5 H6 H7 H8 H9 H10]. unfold place_remote, ref_place_remote. cbv zeta.
  destruct (remote_rows d Hd) as [-> Hrow]. set (row := ref_remote_row ri (alloc s) d) in *.
  pose proof (row_of_length inp ws s Hs d row Hd Hrow) as Hlen. change (b_ inp) with B in *.
  rewrite (proj2 (Z.ltb_ge B _)) by done. rewrite (proj2 (Z.ltb_ge INT32_MAX _)), andb_false_r by (by apply slot_product_fits). rewrite Hmeta. change (in_rank inp) with rank. change (expertsPerRank inp) with P.
  set (o1 := {| out_dst := _ |}). set (f1 := {| rf_cuSeqlens := _ |}).
  pose proof (ok_rank _ _ Hok) as Hrk. cbn in Hrk.
  assert (forall x, x ∈ row -> 0 <= x < E) as Hx by (intros x Hx; by apply (row_of_elem inp s d row x Hrow) in Hx as [? _]).
  pose proof (publish_row_sim d row o1 f1 Hd Hlen Hx) as Hpub. cbv zeta in Hpub.
  specialize (Hpub ltac:(intros; apply H7; [lia|done]) ltac:(done)).
  set (f' := foldl (ref_publish_slot ri d row) f1 _) in *.
  destruct Hpub as [(F1 & F2 & F3 & F4 & F5) (F6 & F7 & F8) P1 P2 P3 P4 P5].
  assert (forall i, rf_remoteStats f' (i * 2) = if i =? d then Z.of_nat (length row) else rf_remoteStats f (i * 2)) as Hst.
  { intros i. rewrite P4. cbn. unfold upd1. destruct (Z.eqb_spec i d) as [->|]; [by rewrite Z.eqb_refl|].
    by rewrite (proj2 (Z.eqb_neq _ _)) by lia. }
  constructor; cbn [rows expertPhysicalBase outs maxRemote localEnd].
  - rewrite F8. cbn. by rewrite H1.
  - rewrite F7. cbn. done.
  - rewrite F1, F6. done.
  - constructor.
    + intros slot Hslot. rewrite F3, P2. cbn [o1 expertsToCopy f1 rf_expertsToCopy].
      destruct (Z.eqb_spec d rank) as [->|Hne].
      * rewrite (proj2 (Z.leb_le 0 slot)), (proj2 (Z.ltb_lt slot B)), bool_decide_true by lia. cbn [andb]. f_equal. lia.
      * rewrite bool_decide_false; [by apply M1|]. intros Hi.
        assert (rank = d) by nia. congruence.
    + intros d' slot Hd' Hslot. rewrite P1, P2. case_bool_decide; [done|]. by apply M2.
    + done.
    + rewrite F4, Hst, Z.eqb_sym. cbn. by destruct (Z.eqb_spec d rank).
    + rewrite F5, P5. cbn. rewrite upd1_ne by lia. rewrite take_ge, M5 by lia. done.
  - rewrite MaxI32_max, H5. unfold largest_remote. rewrite seqZ0_snoc, foldl_app by lia. cbn [foldl].
    rewrite Hst, Z.eqb_refl. f_equal. apply (largest_ext f f' d). intros r Hr. rewrite Hst.
    by rewrite (proj2 (Z.eqb_neq r d)) by lia.
  - intros d' Hd'. rewrite Hst, (proj2 (Z.eqb_neq _ _)) by lia. apply H6. lia.
  - intros d' slot Hd' Hslot. rewrite P2, bool_decide_false by nia. cbn. apply H7; lia.
  - done.
  - rewrite F2. done.
  - intros d' Hd'. unfold upd1. destruct (Z.eqb_spec d' d) as [->|]; [done|]. apply H10. lia.
Qed.

(** ** The second phase *)

Lemma slot_of_expert_spec row g : (slot_of_expert row g <? 0) = negb (existsb (fun x => x =? g) row).
Proof.
  unfold slot_of_expert.
  assert (forall n : nat, (n <= length row)%nat ->
    (foldl (fun t slot => upd1 t (nth (Z.to_nat slot) row 0) slot) (fun _ => -1) (seqZ 0 (Z.of_nat n)) g <? 0) =
    negb (existsb (fun x => x =? g) (take n row))) as H.
  { induction n as [|n IH]; intros Hn; [done|].
    replace (Z.of_nat (S n)) with (Z.of_nat n + 1) by lia. rewrite seqZ0_snoc, foldl_app by lia. cbn [foldl].
    destruct (lookup_lt_is_Some_2 row n ltac:(lia)) as [x Hx].
    rewrite (take_S_r _ _ _ Hx), existsb_app. cbn [existsb]. rewrite orb_false_r, Nat2Z.id.
    assert (nth n row 0 = x) as -> by (by apply nth_lookup_Some).
    unfold upd1. rewrite (Z.eqb_sym g). destruct (x =? g); [rewrite orb_true_r; cbn; lia|].
    rewrite orb_false_r. apply IH. lia. }
  specialize (H (length row) ltac:(lia)). by rewrite take_ge in H by lia.
Qed.

Lemma group_expert_sim d row g : 0 <= d < R -> row_of inp s d row -> 0 <= g < G ->
  match ref_group_expert ri row g with
  | Some e => 0 <= e < E /\ group_expert inp s d row g = (e, alloc s (RE d e))
  | None => group_expert inp s d row g = (-1, 0)
  end.
Proof.
  intros Hd Hrow Hg. unfold ref_group_expert, group_expert. change (in_expertNum inp) with E. change (b_ inp) with B.
  unfold ref_groupCount in Hg. destruct (Z.ltb_spec g E).
  - rewrite slot_of_expert_spec. destruct (existsb _ row); cbn [negb]; [done|]. split; [lia|done].
  - cbv zeta. pose proof (row_of_length inp ws s Hs d row Hd Hrow) as Hlen. change (b_ inp) with B in Hlen.
    rewrite (proj2 (Z.ltb_lt (g - E) B)) by lia. cbn [andb]. destruct (Z.ltb_spec (g - E) (Z.of_nat (length row))).
    + destruct (lookup_lt_is_Some_2 row (Z.to_nat (g - E)) ltac:(lia)) as [e He].
      assert (nth (Z.to_nat (g - E)) row 0 = e) as -> by (by apply nth_lookup_Some).
      assert (row_at row (g - E) = e) as -> by (by apply nth_lookup_Some).
      assert (0 <= e < E) as Her by (by apply list_elem_of_lookup_2, (row_of_elem inp s d row e Hrow) in He as [? _]).
      rewrite (proj2 (Z.leb_le 0 e)) by lia. done.
    + rewrite row_at_beyond by lia. done.
Qed.

Lemma align_sim value alignment : 0 <= value -> 0 < alignment -> RefAlignUp value alignment = AlignCount value alignment.
Proof.
  intros. unfold RefAlignUp, AlignCount. rewrite (proj2 (Z.ltb_ge value 0)), (proj2 (Z.leb_gt alignment 0)) by lia. done.
Qed.

(** The layouts of this rank against those of all the ranks. *)
Record layout_sim (l : Layout) (f : RefLayout) : Prop := {
  ls_rows : rows l = rf_remote f;
  ls_base : expertPhysicalBase l = rf_base f;
  ls_meta : meta_sim (outs l) f;
  ls_max : maxRemote l = largest_remote f R;
  ls_cu g : 0 <= g < G -> cuSeqlens (outs l) g = rf_cuSeqlens f (rank * G + g);
  ls_end : localEnd l = rf_cuSeqlens f (rank * G + (G - 1));
  ls_dst : out_dst (outs l) = fun _ => 0;
  ls_valid d : 0 <= d < R -> row_of inp s d (rows l d)
}.

(** Nothing is written behind group [g] of destination [d]. *)
Definition unwritten (d g : Z) (f : RefLayout) : Prop :=
  forall d' g', 0 <= g' < G -> d < d' \/ (d' = d /\ g <= g') -> rf_cuSeqlens f (d' * G + g') = 0.

(** Inside destination [d]: [localEnd] is set only behind the last group. *)
Definition group_sim (d g : Z) (l : Layout) (f : RefLayout) (p : Z) : Prop :=
  (exists last, layout_sim {| rows := rows l; outs := outs l; expertPhysicalBase := expertPhysicalBase l;
     maxRemote := maxRemote l; localEnd := last |} f /\
   (if d =? rank then localEnd l = 0 /\ (0 < g -> g = G -> last = p) else localEnd l = last)) /\
  unwritten d g f.

Lemma groups_positive : 0 < G.
Proof.
  pose proof (ok_b _ _ Hok) as H. change (b_ inp) with B in H. pose proof (ok_E _ _ Hok) as HE.
  pose proof (ok_P _ _ Hok). pose proof (ok_R _ _ Hok). cbn in HE. unfold ref_groupCount.
  change (expertsPerRank inp) with P in *. change (in_rankSize inp) with R in *. nia.
Qed.

Lemma layout_sim_group_error d g l f p base : 0 <= g < G -> group_sim d g l f p ->
  layout_sim {| rows := rows l; outs := outs l; expertPhysicalBase := base; maxRemote := maxRemote l;
                localEnd := localEnd l |}
    {| rf_cuSeqlens := rf_cuSeqlens f; rf_expertsToCopy := rf_expertsToCopy f; rf_remoteStats := rf_remoteStats f;
       rf_expertTargets := rf_expertTargets f; rf_base := base; rf_remote := rf_remote f |}.
Proof.
  intros Hg [(last & [] & Hl) Hun]. cbn in *. constructor; try done.
  - by destruct ls_meta0.
  - cbn. destruct (Z.eqb_spec d rank) as [->|]; [|congruence]. destruct Hl as [-> _]. symmetry. apply Hun; [lia|].
    right. split; [done|lia].
Qed.

Lemma place_group_ref d row g l f p : 0 <= d < R -> row_of inp s d row -> 0 <= g < G -> group_sim d g l f p ->
  match place_group inp s d row g (l, p), ref_place_group ri (alloc s) d row g (f, p) with
  | inl (l', p'), inl (f', p'') => p' = p'' /\ group_sim d (g + 1) l' f' p'
  | inr (st, l'), inr (st', f') => st = st' /\ layout_sim l' f'
  | _, _ => False
  end.
Proof.
  intros Hd Hrow Hg Hsim. unfold place_group, ref_place_group.
  pose proof (group_expert_sim d row g Hd Hrow Hg) as Hge.
  pose proof (ok_padding _ _ Hok) as Hpad. change (in_config inp) with (ri_config ri) in *.
  change (in_expertNum inp) with E in *. change (in_rank inp) with rank in *.
  assert (exists count base, group_expert inp s d row g = (default (-1) (ref_group_expert ri row g), count) /\
    0 <= count /\ (if 0 <=? default (-1) (ref_group_expert ri row g)
      then upd1 (expertPhysicalBase l) (RE d (default (-1) (ref_group_expert ri row g))) p else expertPhysicalBase l) = base /\
    (match ref_group_expert ri row g with
     | Some expert => (alloc s (RE d expert), upd1 (rf_base f) (RE d expert) p)
     | None => (0, rf_base f) end) = (count, base)) as (count & base & -> & Hc & Eb & ->).
  { destruct Hsim as [(last & [] & _) _]. cbn in ls_base0. rewrite ls_base0.
    destruct (ref_group_expert ri row g) as [e|]; cbn.
    - destruct Hge as [He ->]. exists (alloc s (RE d e)), (upd1 (rf_base f) (RE d e) p).
      split_and!; try done; [by apply (fin_pos _ _ _ Hs)|]. by rewrite (proj2 (Z.leb_le 0 e)) by lia.
    - rewrite Hge. exists 0, (rf_base f). done. }
  cbv zeta. rewrite Eb.
  assert ((if count =? 0 then Some 0 else RefAlignUp count (tokenPadding (ri_config ri))) =
    (if count =? 0 then Some 0 else AlignCount count (tokenPadding (ri_config ri)))) as ->
    by (by rewrite align_sim).
  destruct (if count =? 0 then Some 0 else _) as [padded|].
  2: { split; [done|]. by apply (layout_sim_group_error d g l f p). }
  destruct (nvS (ri_config ri) - p <? padded).
  { split; [done|]. by apply (layout_sim_group_error d g l f p). }
  split; [done|]. destruct Hsim as [(last & [L1 L2 [M1 M2 M3 M4 M5] L4 L5 L6 L7 L8] & Hl) Hun]. cbn in *.
  pose proof groups_positive as HG. split.
  - exists (if (d =? rank) && (g =? G - 1) then p + padded else last). split.
    + constructor; cbn; try done.
      * constructor; cbn; destruct (d =? rank); done.
      * intros g' Hg'. destruct (Z.eqb_spec d rank) as [->|Hne]; cbn.
        -- unfold upd1. destruct (Z.eqb_spec g' g) as [->|Hgn]; [by rewrite Z.eqb_refl|].
           rewrite (proj2 (Z.eqb_neq _ _)) by lia. by apply L5.
        -- rewrite upd1_ne; [by apply L5|]. intros E1. apply mul_add_inj in E1 as [E1 _]; [|done..]. congruence.
      * destruct (Z.eqb_spec d rank) as [->|Hne]; cbn [andb].
        -- unfold upd1. destruct (Z.eqb_spec g (G - 1)) as [->|Hgn]; [by rewrite Z.eqb_refl|].
           rewrite (proj2 (Z.eqb_neq _ _)) by lia. done.
        -- rewrite upd1_ne; [done|]. intros E1. apply mul_add_inj in E1 as [E1 _]; [congruence|lia|lia].
      * by destruct (d =? rank).
    + destruct (d =? rank); [|done]. destruct Hl as [Hl1 Hl2]. split; [done|]. intros _ Eg.
      by rewrite (proj2 (Z.eqb_eq g (G - 1))) by lia.
  - intros d' g' Hg' Hcase. cbn. rewrite upd1_ne; [apply Hun; [done|lia]|].
    intros E1. apply mul_add_inj in E1 as [-> ->]; [lia|done..].
Qed.

(** Two loops over the same range, step by step. *)
Lemma loop_range_sim {S S' T T' : Type} (I : Z -> S -> S' -> Prop) (Q : T -> T' -> Prop)
    (body : Z -> S -> S + T) (body' : Z -> S' -> S' + T') n x x' :
  (forall i y y', 0 <= i < n -> I i y y' ->
     match body i y, body' i y' with
     | inl z, inl z' => I (i + 1) z z'
     | inr t, inr t' => Q t t'
     | _, _ => False
     end) -> 0 <= n -> I 0 x x' ->
  match loop_ret body (seqZ 0 n) x, loop_ret body' (seqZ 0 n) x' with
  | inl z, inl z' => I n z z'
  | inr t, inr t' => Q t t'
  | _, _ => False
  end.
Proof.
  intros H Hn HI. rewrite <- (Z2Nat.id n Hn) in *. clear Hn. revert H. generalize (Z.to_nat n) as k.
  induction k as [|k IH]; intros H; [done|].
  replace (Z.of_nat (Datatypes.S k)) with (Z.of_nat k + 1) in * by lia. rewrite !seqZ0_snoc, !loop_ret_app by lia.
  assert (forall i y y', 0 <= i < Z.of_nat k -> I i y y' ->
     match body i y, body' i y' with inl z, inl z' => I (i + 1) z z' | inr t, inr t' => Q t t' | _, _ => False end) as H'
    by (intros; apply H; [lia|done]).
  specialize (IH H'). destruct (loop_ret body _ x) as [z|t], (loop_ret body' _ x') as [z'|t']; try done.
  specialize (H (Z.of_nat k) z z' ltac:(lia) IH). cbn.
  by destruct (body (Z.of_nat k) z), (body' (Z.of_nat k) z').
Qed.

Lemma place_groups_ref d l f : 0 <= d < R -> layout_sim l f -> unwritten d 0 f ->
  match place_groups inp s d l, ref_place_groups ri (alloc s) d f with
  | inl l', inl f' => layout_sim l' f' /\ unwritten (d + 1) 0 f'
  | inr (st, l'), inr (st', f') => st = st' /\ layout_sim l' f'
  | _, _ => False
  end.
Proof.
  intros Hd Hl Hun. unfold place_groups, ref_place_groups.
  rewrite <- (ls_rows _ _ Hl). pose proof (ls_valid _ _ Hl d Hd) as Hrow. set (row := rows l d) in *.
  pose proof groups_positive as HG. pose proof (ok_rank _ _ Hok) as Hrk. cbn in Hrk.
  pose proof (loop_range_sim (fun g (a : Layout * Z) (b : RefLayout * Z) => a.2 = b.2 /\ group_sim d g a.1 b.1 a.2)
    (fun (a : TileXRMoonEPPlanStatus * Layout) (b : TileXRMoonEPPlanStatus * RefLayout) => a.1 = b.1 /\ layout_sim a.2 b.2)
    (place_group inp s d row) (ref_place_group ri (alloc s) d row) G (l, 0) (f, 0)) as HL.
  cbn [fst snd] in HL. specialize (HL ltac:(intros g [l1 p1] [f1 p1'] Hg [Ep Hsim]; cbn [fst snd] in Ep, Hsim; subst p1';
    pose proof (place_group_ref d row g l1 f1 p1 Hd Hrow Hg Hsim) as Hstep;
    destruct (place_group _ _ _ _ _ _) as [[]|[]], (ref_place_group _ _ _ _ _ _) as [[]|[]]; exact Hstep) ltac:(lia)).
  specialize (HL ltac:(split; [done|]; split; [|done]; exists (localEnd l); destruct l; cbn; split; [done|];
    destruct (Z.eqb_spec d rank) as [->|]; [|done]; split; [|lia];
    pose proof (ls_end _ _ Hl) as Hend; cbn in Hend; rewrite Hend; apply Hun; [lia|]; right; lia)).
  change (in_expertNum inp + b_ inp) with G.
  destruct (loop_ret (place_group _ _ _ _) _ _) as [[l' p]|[st l']],
    (loop_ret (ref_place_group _ _ _ _) _ _) as [[f' p']|[st' f']]; try exact HL. cbn [fst snd] in HL.
  destruct HL as [<- HL].
  destruct HL as [(last & [L1 L2 L3 L4 L5 L6 L7 L8] & He) Hun']. change (in_rank inp) with rank. split.
  - constructor; try done. cbn. destruct (d =? rank); [|by rewrite He]. destruct He as [_ He]. by rewrite <- L6, He.
  - intros d' g' Hg' Hc. apply Hun'; lia.
Qed.

Lemma rows_sim_start : rows_sim 0 empty_layout ref_empty_layout.
Proof. constructor; try done; try lia. all: constructor; done. Qed.

(** The layouts of the planner, succeeded or not, are those of the reference. *)
Lemma build_layouts_ref r : ref_alloc r = alloc s ->
  exists f, RefBuildLayouts ri r = Some (fst (BuildLayouts inp ws s), f) /\
    layout_sim (snd (BuildLayouts inp ws s)) f.
Proof.
  intros Ea. unfold BuildLayouts, RefBuildLayouts. rewrite Ea. change (in_rankSize inp) with R.
  pose proof (ok_R _ _ Hok) as HR. change (in_rankSize inp) with R in HR.
  pose proof (loop_range_sim rows_sim (fun _ _ => False) (place_remote inp ws s) (ref_place_remote ri (alloc s)) R
    empty_layout ref_empty_layout) as H1.
  specialize (H1 ltac:(intros d l f Hd Hsim; pose proof (place_remote_ref d l f Hd Hsim);
    destruct (place_remote _ _ _ _ _), (ref_place_remote _ _ _ _); done) ltac:(lia) rows_sim_start).
  destruct (loop_ret (place_remote _ _ _) _ _) as [l|], (loop_ret (ref_place_remote _ _) _ _) as [f|]; try done.
  assert (layout_sim l f /\ unwritten 0 0 f) as Hstart.
  { destruct H1 as [S1 S2 [S3 S3'] S4 S5 _ _ S8 S9 S10]. split; [|intros d g _ _; apply S3'].
    constructor; try done; [intros g _; by rewrite S3, S3'|by rewrite S8, S3']. }
  pose proof (loop_range_sim (fun d l f => layout_sim l f /\ unwritten d 0 f)
    (fun (a : TileXRMoonEPPlanStatus * Layout) (b : TileXRMoonEPPlanStatus * RefLayout) => a.1 = b.1 /\ layout_sim a.2 b.2)
    (place_groups inp s) (ref_place_groups ri (alloc s)) R l f) as H2.
  specialize (H2 ltac:(intros d l1 f1 Hd [Hsim Hun]; pose proof (place_groups_ref d l1 f1 Hd Hsim Hun);
    destruct (place_groups _ _ _ _) as [|[]], (ref_place_groups _ _ _ _) as [|[]]; done) ltac:(lia) Hstart).
  destruct (loop_ret (place_groups _ _) _ _), (loop_ret (ref_place_groups _ _) _ _) as [|[st' f']]; try done.
  - destruct H2 as [H2 _]. eauto.
  - destruct H2 as [-> H2]. eauto.
Qed.
End layout.
