(* ===== verification/RefDst.v ===== *)
(** The destinations of the reference planner, rank by rank, are those the planner of that rank
    writes. *)
From stdpp Require Import gmap.
From S2P Require Import Prelude PlanTypes PlanSort PlanAlgorithm PlanOutput PlanMove PlanBalance PlanFinal PlanSegments PlanLayout PlanDst RefPlan RefMove RefOutput RefLayout.

Section rank.
Context (ri : ReferenceInput) (rank : Z) (ws : PlanAlgorithmWorkspace).
#[local] Abbreviation inp := (rank_input ri rank).
#[local] Abbreviation R := (ri_rankSize ri).
#[local] Abbreviation E := (ri_expertNum ri).
#[local] Abbreviation K := (ri_topK ri).
#[local] Abbreviation RE r e := (ReIndex r e (ri_expertNum ri)).
#[local] Abbreviation window := (nvS (ri_config ri)).
Context (Hok : plan_ok inp ws) (s : PState) (Hs : settled inp ws s).
Context (base : Z -> Z) (Hbase : forall d, 0 <= d < R -> window_ok inp s base d).
Context (r : PlannerState) (Hag : agrees ri rank s r).

#[local] Abbreviation expert_of route := (topkExperts inp route).
#[local] Abbreviation ordinal route := (routes_before inp route (topkExperts inp route)).
#[local] Abbreviation raw := (raw_of inp s base).
#[local] Abbreviation code := (encoded inp s base).

Definition covering (o : Z) (m : TokenSegmentMove) : bool :=
  (srcExpertBegin m <=? o) && (o <? srcExpertBegin m + tokenCount m).

(** Both searches find the one segment that covers an ordinal. *)
Lemma segment_sim route : 0 <= route < cap_ inp ->
  exists m, List.find (covering (ordinal route)) (segments_of ri (ref_segments r) rank (expert_of route)) = Some m /\
    find_segment s (expert_of route) (ordinal route) = Some m /\
    m ∈ segLog s /\ expertId m = expert_of route /\ srcExpertBegin m <= ordinal route < srcExpertBegin m + tokenCount m.
Proof.
  intros Hr. destruct (find_segment_spec inp ws Hok s Hs route Hr) as (m & Ef & Hm & Em & Ee & Eo).
  exists m. split; [|done]. change (in_rank inp) with rank in Em. pose proof (t_log _ _ _ (fin_tok _ _ _ Hs)) as Hlog.
  destruct (ordinal_range inp ws Hok route Hr) as [He _].
  assert (forall x, In x (segments_of ri (ref_segments r) rank (expert_of route)) <->
    x ∈ segLog s /\ RE (srcRank x) (expertId x) = RE rank (expert_of route)) as Hin.
  { intros x. unfold segments_of. rewrite <- list_elem_of_In, std_sort_perm, list_elem_of_In, List.filter_In, Z.eqb_eq.
    by rewrite <- list_elem_of_In, <- (ag_log _ _ _ _ Hag). }
  destruct (List.find _ _) as [m'|] eqn:Ef'.
  - apply List.find_some in Ef' as [[Hm' Hi]%Hin Hc]. unfold covering in Hc. b2p.
    destruct (log_ok_counts _ Hlog m' Hm') as (_ & _ & _ & He').
    apply ReIndex_inj in Hi as [Hsrc Hex]; [|done..]. f_equal.
    apply (seg_src_unique (segLog s) m' m (ordinal route) Hlog); try done; congruence.
  - exfalso. pose proof (List.find_none _ _ Ef' m) as Hn. rewrite Hin, Em, Ee in Hn.
    specialize (Hn (conj Hm eq_refl)). unfold covering in Hn. lia.
Qed.

(** The ranks the routes [0, k) of a token go to. *)
Definition ranks_before (token k : Z) : gset Z :=
  list_to_set (map (fun p => raw (token * K + p) / window) (seqZ 0 k)).

Lemma ranks_before_test token k d :
  bool_decide (d ∈ ranks_before token k) = existsb (fun p => raw (token * K + p) / window =? d) (seqZ 0 k).
Proof.
  unfold ranks_before. apply eq_true_iff_eq. rewrite bool_decide_eq_true, elem_of_list_to_set, List.existsb_exists.
  rewrite list_elem_of_In, in_map_iff. setoid_rewrite Z.eqb_eq. split; intros (p & ? & ?); eauto.
Qed.

Lemma ranks_before_step token k : 0 <= k ->
  {[raw (token * K + k) / window]} ∪ ranks_before token k = ranks_before token (k + 1).
Proof.
  intros Hk. unfold ranks_before. rewrite seqZ0_snoc, map_app, list_to_set_app_L by done. cbn.
  by rewrite (right_id_L ∅ (∪)), (comm_L (∪)).
Qed.

(** Behind the routes before [n] of this rank. *)
Definition written (n : Z) (dst0 dst ordinals : Z -> Z) : Prop :=
  (forall t k, 0 <= t -> 0 <= k < K -> t * K + k < n -> dst (rank * ref_cap ri + (t * K + k)) = code t k) /\
  (forall i, ~ rank * ref_cap ri <= i < rank * ref_cap ri + n -> dst i = dst0 i) /\
  (forall e, ordinals e = routes_before inp n e).

Lemma build_route_ref dst0 token k dst ordinals : 0 <= token < ri_s ri -> 0 <= k < K ->
  written (token * K + k) dst0 dst ordinals ->
  match ref_build_route ri r base rank token k (dst, ordinals, ranks_before token k) with
  | inl (dst', ordinals', seen') =>
      written (token * K + k + 1) dst0 dst' ordinals' /\ seen' = ranks_before token (k + 1)
  | inr _ => False
  end.
Proof.
  intros Ht Hk (W1 & W2 & W3). set (route := token * K + k) in *.
  assert (0 <= route < cap_ inp) as Hr by (unfold route; rewrite (ok_cap _ _ Hok); cbn; nia).
  unfold ref_build_route. fold route. cbv zeta. change (vec_at (ri_topkExperts ri) (rank * ref_cap ri + route)) with (expert_of route).
  rewrite W3. destruct (segment_sim route Hr) as (m & Ef & Ed & Hm & Ee & Eo). fold (covering (ordinal route)). rewrite Ef.
  destruct (slot_range inp ws Hok s Hs base Hbase m _ Hm Eo) as (V1 & V2 & V3). cbv zeta in V1.
  unfold slot_of in V2, V3. rewrite Ee in V1, V2, V3. unfold seg_pos in *. change (in_expertNum inp) with E in *.
  change (in_config inp) with (ri_config ri) in *.
  replace (base (RE (dstRank m) (expert_of route)) + dstExpertBegin m + (ordinal route - srcExpertBegin m))
    with (base (RE (dstRank m) (expert_of route)) + (dstExpertBegin m + (ordinal route - srcExpertBegin m))) by lia.
  set (v := dstRank m * window + _) in *.
  rewrite (proj2 (Z.ltb_ge _ 0)), (proj2 (Z.leb_gt _ _)), (proj2 (Z.ltb_ge v 0)), (proj2 (Z.ltb_ge INT32_MAX v)) by lia.
  cbn [orb].
  assert (raw route = v) as Ev by (unfold raw_of; rewrite Ed; unfold slot_of, seg_pos; by rewrite Ee).
  split; [|by rewrite <- V3, <- Ev; apply ranks_before_step; lia].
  rewrite ranks_before_test. split; [|split].
  - intros t k' Ht' Hk' Hlt. unfold upd1.
    destruct (Z.eqb_spec (rank * ref_cap ri + (t * K + k')) (rank * ref_cap ri + route)) as [Eq|Hne].
    + assert (t = token /\ k' = k) as [-> ->] by (apply (mul_add_inj t token k' k K); [done..|unfold route in Eq; lia]).
      unfold encoded. cbv zeta. change (in_topK inp) with K. fold route. rewrite Ev. change (in_config inp) with (ri_config ri).
      by rewrite V3.
    + apply W1; try done. unfold route in *. lia.
  - intros i Hi. rewrite upd1_ne by lia. apply W2. lia.
  - intros e. rewrite routes_before_step by lia. unfold upd1. rewrite (Z.eqb_sym e).
    destruct (Z.eqb_spec (expert_of route) e) as [<-|]; [lia|]. rewrite W3. lia.
Qed.

(** The routes of this rank. *)
Lemma build_rank_ref dst0 : exists dst, ref_build_rank ri r base rank dst0 = inl dst /\
  (forall t k, 0 <= t < ri_s ri -> 0 <= k < K -> dst (rank * ref_cap ri + (t * K + k)) = code t k) /\
  (forall i, ~ rank * ref_cap ri <= i < (rank + 1) * ref_cap ri -> dst i = dst0 i).
Proof.
  pose proof (ok_topK _ _ Hok) as HK. pose proof (ok_s _ _ Hok) as HS. cbn in HK, HS.
  pose proof (ok_cap _ _ Hok) as Hcap. change (cap_ inp) with (ref_cap ri) in Hcap. cbn in Hcap.
  assert (forall token (acc : (Z -> Z) * (Z -> Z)), 0 <= token < ri_s ri -> written (token * K) dst0 (fst acc) (snd acc) ->
    match loop_ret (ref_build_route ri r base rank token) (seqZ 0 K) (fst acc, snd acc, ∅) with
    | inl (dst', ordinals', _) => written ((token + 1) * K) dst0 dst' ordinals'
    | inr _ => False
    end) as Hstep.
  { intros token [dst ordinals] Ht Hw. cbn [fst snd] in *.
    pose proof (loop_ret_range (fun k (acc : (Z -> Z) * (Z -> Z) * gset Z) =>
        written (token * K + k) dst0 (fst (fst acc)) (snd (fst acc)) /\ snd acc = ranks_before token k)
      (fun _ => False) (ref_build_route ri r base rank token) K (dst, ordinals, ∅)) as HL.
    specialize (HL ltac:(intros k [[d o] seen] Hk [Hw1 Hseen]; cbn [fst snd] in *; subst seen;
      pose proof (build_route_ref dst0 token k d o Ht Hk Hw1) as Hr;
      destruct (ref_build_route _ _ _ _ _ _ _) as [[[] ]|]; [rewrite Z.add_assoc; exact Hr|exact Hr]) ltac:(lia)
      ltac:(cbn [fst snd]; rewrite Z.add_0_r; done)).
    destruct (loop_ret _ _ _) as [[[d o] ?]|]; [|done]. cbn [fst snd] in HL.
    replace ((token + 1) * K) with (token * K + K) by lia. apply HL. }
  unfold ref_build_rank.
  match goal with |- context [loop_ret ?b (seqZ 0 (ri_s ri)) _] => set (body := b) end.
  pose proof (loop_ret_range (fun t (acc : (Z -> Z) * (Z -> Z)) => written (t * K) dst0 (fst acc) (snd acc))
    (fun _ => False) body (ri_s ri) (dst0, fun _ => 0)) as HL.
  specialize (HL ltac:(intros t acc Ht Hw; specialize (Hstep t acc Ht Hw); unfold body;
    destruct (loop_ret (ref_build_route _ _ _ _ _) _ _) as [[[] ]|]; exact Hstep) ltac:(lia)
    ltac:(cbn [fst snd]; rewrite Z.mul_0_l; split; [nia|done])).
  destruct (loop_ret body _ _) as [[dst o]|]; [|done]. destruct HL as (W1 & W2 & _). cbn [fst snd] in *.
  exists dst. split; [done|]. split.
  - intros t k Ht Hk. apply W1; try lia. nia.
  - intros i Hi. apply W2. rewrite <- Hcap. lia.
Qed.
End rank.

Lemma route_range t k n K : 0 <= t < n -> 0 <= k < K -> 0 <= t * K + k < n * K.
Proof. intros Ht Hk. assert (t * K <= (n - 1) * K) by (apply Z.mul_le_mono_nonneg_r; lia). nia. Qed.

Lemma apart cap rank rank' x : 0 <= x < cap -> rank' <> rank ->
  ~ rank * cap <= rank' * cap + x < (rank + 1) * cap.
Proof. intros Hx Hne. destruct (Z.lt_trichotomy rank' rank) as [|[|]]; nia. Qed.

(** The destinations of all the ranks, one after the other. *)
Lemma build_dst_ref ri r base (code : Z -> Z -> Z -> Z) : 0 <= ri_rankSize ri -> 0 <= ref_cap ri ->
  ref_cap ri = ri_s ri * ri_topK ri ->
  (forall rank dst0, 0 <= rank < ri_rankSize ri -> exists dst, ref_build_rank ri r base rank dst0 = inl dst /\
    (forall t k, 0 <= t < ri_s ri -> 0 <= k < ri_topK ri ->
       dst (rank * ref_cap ri + (t * ri_topK ri + k)) = code rank t k) /\
    (forall i, ~ rank * ref_cap ri <= i < (rank + 1) * ref_cap ri -> dst i = dst0 i)) ->
  exists dst, RefBuildDst ri r base = (PLAN_OK, dst) /\
    forall rank t k, 0 <= rank < ri_rankSize ri -> 0 <= t < ri_s ri -> 0 <= k < ri_topK ri ->
      dst (rank * ref_cap ri + (t * ri_topK ri + k)) = code rank t k.
Proof.
  intros HR Hcap0 Hcap Hrank. unfold RefBuildDst.
  pose proof (loop_ret_range (fun n (dst : Z -> Z) => forall rank t k, 0 <= rank < n -> 0 <= t < ri_s ri ->
      0 <= k < ri_topK ri -> dst (rank * ref_cap ri + (t * ri_topK ri + k)) = code rank t k)
    (fun _ => False) (ref_build_rank ri r base) (ri_rankSize ri) (fun _ => 0)) as HL.
  specialize (HL ltac:(intros rank dst0 Hr Hd; destruct (Hrank rank dst0 Hr) as (dst & -> & H1 & H2);
    intros rank' t k Hr' Ht Hk; destruct (decide (rank' = rank)) as [->|];
    [by apply H1|rewrite H2; [apply Hd; lia|apply apart; [rewrite Hcap; by apply route_range|done]]]) HR ltac:(cbv beta; intros; lia)).
  destruct (loop_ret _ _ _) as [dst|]; [|done]. exists dst. done.
Qed.
