(* ===== verification/RefValid.v ===== *)
(** An input that the reference planner accepts is accepted by the planner of every rank. *)
From stdpp Require Import gmap.
From S2P Require Import Prelude PlanTypes PlanSort PlanAlgorithm PlanOutput PlanMove PlanFinal RefPlan RefMove.

Section valid.
Context (ri : ReferenceInput).
#[local] Abbreviation R := (ri_rankSize ri).
#[local] Abbreviation E := (ri_expertNum ri).
#[local] Abbreviation RE r e := (ReIndex r e (ri_expertNum ri)).
#[local] Abbreviation gid r := (vec_at (ri_globalRankIds ri) r).
#[local] Abbreviation tpe r e := (vec_at (ri_tokensPerExpert ri) (ReIndex r e (ri_expertNum ri))).

Lemma CheckedProduct_ok a b p : CheckedProduct a b = Some p -> p = a * b /\ 0 <= a /\ 0 <= b.
Proof. unfold CheckedProduct. repeat case_if; intros [= <-]. b2p. lia. Qed.

Lemma global_ids_ok ids : check_global_ids ri = inl ids -> forall a, 0 <= a < R ->
  0 <= gid a /\ forall b, 0 <= b < a -> gid a <> gid b.
Proof.
  intros H. unfold check_global_ids in H.
  match type of H with loop_ret ?f _ _ = _ => set (body := f) in H end.
  destruct (Z.le_gt_cases 0 R) as [HR|HR]; [|lia].
  pose proof (loop_ret_range (fun n (g : gset Z) => (forall b, 0 <= b < n -> gid b ∈ g) /\
      forall a, 0 <= a < n -> 0 <= gid a /\ forall b, 0 <= b < a -> gid a <> gid b)
    (fun _ => True) body R ∅) as HL. rewrite H in HL. apply HL; [|done|split; lia].
  intros n g Hn [G1 G2]. unfold body. cbv zeta.
  destruct ((gid n <? 0) || bool_decide (gid n ∈ g)) eqn:Et; [done|]. apply orb_false_iff in Et as [E1 E2].
  apply bool_decide_eq_false in E2. split.
  - intros b Hb. destruct (decide (b = n)) as [->|]; [by apply elem_of_union_l, elem_of_singleton|]. apply elem_of_union_r, G1. lia.
  - intros a Ha. destruct (decide (a = n)) as [->|]; [|apply G2; lia]. split; [lia|].
    intros b Hb Eb. apply E2. rewrite Eb. by apply G1.
Qed.

Lemma rank_histogram_count cap rank : cap = ref_cap ri ->
  rank_histogram ri cap rank = count_experts (rank_input ri rank) cap.
Proof. by intros ->. Qed.

Lemma check_rank_ok cap rank u : cap = ref_cap ri -> check_rank ri cap rank = inl u ->
  exists histogram, count_experts (rank_input ri rank) cap = inl histogram /\
    (forall e, 0 <= e < E -> 0 <= tpe rank e /\ tpe rank e = histogram e) /\
    zsum (fun e => tpe rank e) (seqZ 0 E) = cap.
Proof.
  intros Hcap. unfold check_rank. rewrite rank_histogram_count by done.
  destruct (count_experts _ cap) as [h|]; [|done]. intros H. exists h. split; [done|].
  change (fun expert tpeSum => _) with (fun expert tpeSum => let value := tpe rank expert in
          if value <? 0 then inr PLAN_ERROR_CONFIG_MISMATCH
          else if negb (value =? h expert) then inr PLAN_ERROR_TPE_MISMATCH
          else inl (tpeSum + value)) in H.
  assert (forall l s0 s1, loop_ret (fun e sum => let value := tpe rank e in
          if value <? 0 then inr PLAN_ERROR_CONFIG_MISMATCH
          else if negb (value =? h e) then inr PLAN_ERROR_TPE_MISMATCH
          else inl (sum + value)) l s0 = inl s1 ->
    s1 = s0 + zsum (fun e => tpe rank e) l /\ forall e, e ∈ l -> 0 <= tpe rank e /\ tpe rank e = h e) as HL.
  { induction l as [|x l IH]; intros s0 s1; cbn [loop_ret].
    - intros [= ->]. split; [cbn; lia|]. intros ? Hx. by inversion Hx.
    - cbv zeta. case_if; [done|]. case_if; [done|]. intros Hl. apply IH in Hl as [-> Hr].
      rewrite zsum_cons. split; [lia|]. intros e [->|Hin]%elem_of_cons; [b2p; lia|auto]. }
  destruct (loop_ret _ _ 0) as [sum|] eqn:Es; [|done]. apply HL in Es as [-> Hr]. case_if_in H; [|done].
  split; [|b2p; lia]. intros e He. apply Hr. by apply elem_of_seqZ0.
Qed.

(** A workspace with room for every rank: all the buffers, a scratch area of sixteen words per
    rank, a record per local route, and affinity rows, when they are cached, that the planner
    computed itself. *)
Record workspace_ok (ws : PlanAlgorithmWorkspace) : Prop := {
  wk_pointers : mandatoryPointers ws = true;
  wk_remote : hasRemoteExperts ws = true;
  wk_targets : hasExpertTargets ws = true;
  wk_sets : hasRemoteExpertSet ws = true;
  wk_routed : hasRoutedPairTokens ws = true;
  wk_segments : ref_cap ri <= tokenSegmentCapacity ws;
  wk_scratch : R * 16 <= scratchCount ws;
  wk_cache : match affinityCache ws with
    | Some rows => rows = BuildAffinity R (vec_at (ri_globalRankIds ri))
    | None => True
    end
}.

Lemma no_duplicates rank : (forall a, 0 <= a < R -> 0 <= gid a /\ forall b, 0 <= b < a -> gid a <> gid b) ->
  duplicate_rank_ids (rank_input ri rank) = false.
Proof.
  intros H. unfold duplicate_rank_ids. destruct (existsb _ _) eqn:Ex; [|done]. exfalso.
  apply List.existsb_exists in Ex as (a & Ha%list_elem_of_In%elem_of_seqZ0 & Hb). cbn in Ha, Hb.
  destruct (H a Ha) as [H1 H2]. apply orb_true_iff in Hb as [Hb|Hb]; [lia|].
  apply List.existsb_exists in Hb as (b & Hb1%list_elem_of_In%elem_of_seqZ0 & Hb2). apply (H2 b Hb1). lia.
Qed.

Lemma tokens_accepted rank cap h : 0 <= rank < R ->
  (forall src, 0 <= src < R -> (forall e, 0 <= e < E -> 0 <= tpe src e /\ (src = rank -> tpe src e = h e)) /\
     zsum (fun e => tpe src e) (seqZ 0 E) = cap) ->
  check_tokens_per_expert (rank_input ri rank) cap h = inl tt.
Proof.
  intros Hr H. unfold check_tokens_per_expert. cbn [in_rankSize in_expertNum in_rank tokensPerExpert rank_input].
  assert (forall src, 0 <= src < R -> forall l s0, (forall e, e ∈ l -> 0 <= e < E) -> loop_ret (fun e sum =>
      let value := tpe src e in
      if value <? 0 then inr PLAN_ERROR_CONFIG_MISMATCH
      else if (src =? rank) && negb (value =? h e) then inr PLAN_ERROR_TPE_MISMATCH
      else inl (sum + value)) l s0 = inl (s0 + zsum (fun e => tpe src e) l)) as HL.
  { intros src Hsrc. destruct (H src Hsrc) as [H1 _]. induction l as [|x l IH]; intros s0 Hl; cbn [loop_ret].
    - cbn. f_equal. lia.
    - cbv zeta. destruct (H1 x ltac:(apply Hl; by left)) as [H2 H3].
      rewrite (proj2 (Z.ltb_ge _ 0)) by done.
      assert ((src =? rank) && negb (tpe src x =? h x) = false) as ->.
      { destruct (Z.eqb_spec src rank); [|done]. cbn [andb]. rewrite (proj2 (Z.eqb_eq _ _)); auto. }
      rewrite IH by (intros; apply Hl; by right). rewrite zsum_cons. f_equal. lia. }
  match goal with |- loop_ret ?f ?l ?x = _ =>
    pose proof (loop_ret_inv (fun _ => True) (fun _ => False) f l x) as Hloop; destruct (loop_ret f l x) as [[]|] end; [done|].
  exfalso. apply Hloop; [|done]. intros src [] Hsrc%elem_of_seqZ0 _. rewrite (HL src Hsrc); [|intros e; apply elem_of_seqZ0].
  destruct (H src Hsrc) as [_ ->]. by rewrite Z.eqb_refl.
Qed.

(** A rejection is never reported as success. *)
Lemma global_ids_rejects st : check_global_ids ri = inr st -> st <> PLAN_OK.
Proof.
  intros H. unfold check_global_ids in H. match type of H with loop_ret ?f ?l ?x = _ =>
    pose proof (loop_ret_inv (fun _ => True) (fun r => r <> PLAN_OK) f l x) as HL end.
  rewrite H in HL. apply HL; [|done]. intros. cbv zeta. by case_if.
Qed.

Lemma rank_rejects cap rank st : cap = ref_cap ri -> check_rank ri cap rank = inr st -> st <> PLAN_OK.
Proof.
  intros Hcap. unfold check_rank. rewrite rank_histogram_count by done.
  destruct (count_experts _ cap) as [h|st'] eqn:Ec; [|intros [= <-]; by apply count_experts_rejects in Ec].
  match goal with |- context [loop_ret ?f ?l ?x] =>
    pose proof (loop_ret_inv (fun _ => True) (fun r => r <> PLAN_OK) f l x) as HL; destruct (loop_ret f l x) end.
  - case_if; [done|]. by intros [= <-].
  - intros [= <-]. apply HL; [|done]. intros. cbv zeta. by repeat case_if.
Qed.

(** What an accepted input gives. *)
Lemma validate_input_ok : ValidateInput ri = PLAN_OK -> R <= 128 -> E <= INT32_MAX ->
  (forall a, 0 <= a < R -> 0 <= gid a /\ forall b, 0 <= b < a -> gid a <> gid b) /\
  forall rank ws, 0 <= rank < R -> workspace_ok ws -> Validate (rank_input ri rank) ws = PLAN_OK.
Proof.
  unfold ValidateInput. cbv zeta. case_if; [done|]. intros H HR HE.
  destruct (CheckedProduct (ri_s ri) (ri_topK ri)) as [cap|] eqn:Ecap; [|done].
  apply CheckedProduct_ok in Ecap as (Ecap & _). case_if_in H; [done|]. case_if_in H; [done|].
  destruct (CheckedProduct R cap) as [routes|]; [|done]. destruct (CheckedProduct R (ri_expertNum ri)) as [cells|]; [|done].
  destruct (CheckedProduct R (nvS (ri_config ri))) as [range|] eqn:Erange; [|done].
  apply CheckedProduct_ok in Erange as (Erange & _). case_if_in H; [done|].
  destruct (check_global_ids ri) as [ids|] eqn:Eids; [|by apply global_ids_rejects in Eids].
  pose proof (global_ids_ok ids Eids) as Hids. split; [done|].
  assert (cap = ref_cap ri) as Hcap by (unfold ref_cap; b2p; lia).
  destruct (loop_ret _ _ tt) as [[]|st] eqn:Er.
  2: { match type of Er with loop_ret ?f ?l ?x = _ =>
         pose proof (loop_ret_inv (fun _ => True) (fun r => r <> PLAN_OK) f l x) as HL end.
       rewrite Er in HL. exfalso. apply HL; [|done..]. intros rank [] _ _.
       destruct (check_rank ri cap rank) eqn:Ec; [done|]. by apply rank_rejects in Ec. }
  pose proof (loop_ret_checks _ _ _ Er) as Hranks. clear Er H.
  intros rank ws Hrank Hws. unfold Validate. cbv zeta.
  destruct Hws as [-> -> -> -> -> Hseg Hscr _]. cbn [in_rankSize in_rank in_s in_topK in_expertNum in_config rank_input].
  assert (ri_s ri <= INT32_MAX / ri_topK ri) by (b2p; apply Z.div_le_lower_bound; lia).
  case_if; [exfalso; b2p; lia|]. case_if; [exfalso; b2p; lia|]. rewrite no_duplicates by done. rewrite <- Ecap.
  destruct (check_rank_ok cap rank tt Hcap) as (h & Eh & _ & _); [apply Hranks, elem_of_seqZ0; done|].
  rewrite Eh, (tokens_accepted rank cap h Hrank); [done|]. intros src Hsrc.
  destruct (check_rank_ok cap src tt Hcap) as (h' & Eh' & T1 & T2); [apply Hranks, elem_of_seqZ0; done|].
  split; [|done]. intros e He. destruct (T1 e He) as [T3 T4]. split; [done|]. intros ->. congruence.
Qed.
End valid.
