(* ===== verification/RefProps.v ===== *)
(** The reference planner and the planner agree: one call of the reference for all the ranks
    and one call of the planner per rank report the same status and write the same plan. *)
From Stdlib Require Import FunctionalExtensionality.
From stdpp Require Import gmap.
From S2P Require Import Prelude PlanTypes PlanSort PlanAlgorithm PlanOutput PlanMove PlanBalance PlanFinal PlanLayout PlanDst PlanProps RefPlan RefOutput RefMove RefBalance RefLayout RefDst RefValid.

(** The part of a reference plan that belongs to one rank, and the outputs of that rank. *)
Record rank_slice (ri : ReferenceInput) (rank : Z) (out : ReferenceOutput) (o : Outputs) (words : list Z) : Prop := {
  sl_dst route : 0 <= route < ref_cap ri ->
    out_dst o route = if vec_size (ro_dst out) =? 0 then 0 else vec_at (ro_dst out) (rank * ref_cap ri + route);
  sl_cu group : 0 <= group < ref_groupCount ri ->
    cuSeqlens o group = vec_at (ro_cuSeqlens out) (rank * ref_groupCount ri + group);
  sl_copy slot : 0 <= slot < ref_prefetchSlots ri ->
    expertsToCopy o slot = vec_at (ro_expertsToCopy out) (rank * ref_prefetchSlots ri + slot);
  sl_remote i : 0 <= i < ri_rankSize ri * ref_prefetchSlots ri ->
    remoteExperts o i = vec_at (ro_expertsToCopy out) i;
  sl_targets i : 0 <= i < ref_expertsPerRank ri * ref_targetWords ri ->
    expertTargets o i = vec_at (ro_expertTargets out) (rank * (ref_expertsPerRank ri * ref_targetWords ri) + i);
  sl_stats0 : remoteStats0 o = vec_at (ro_remoteStats out) (rank * 2);
  sl_stats1 : remoteStats1 o = vec_at (ro_remoteStats out) (rank * 2 + 1);
  sl_words : words = map (fun i => vec_at (statusByRank out) (rank * kPlanStatusWords + i)) (seqZ 0 kPlanStatusWords)
}.

Lemma split_index i m n : 0 <= n -> 0 <= i < m * n -> exists q j, i = q * n + j /\ 0 <= q < m /\ 0 <= j < n.
Proof.
  intros Hn Hi. assert (0 < n) as Hn' by (destruct (decide (n = 0)) as [->|]; lia). exists (i / n), (i mod n).
  pose proof (Z.div_mod i n ltac:(lia)). pose proof (Z.mod_pos_bound i n Hn').
  split; [lia|]. split; [|done]. split; [apply Z.div_pos; lia|apply Z.div_lt_upper_bound; lia].
Qed.

Section agree.
Context (ri : ReferenceInput) (ws : Z -> PlanAlgorithmWorkspace).
#[local] Abbreviation R := (ri_rankSize ri).
#[local] Abbreviation rin rank := (rank_input ri rank).
Context (Hval : ValidateInput ri = PLAN_OK) (HR : R <= 128) (HE : ri_expertNum ri <= INT32_MAX).
Context (Hint : forall r, 0 <= r < R -> vec_at (ri_globalRankIds ri) r <= INT32_MAX).
Context (Hslots : (R - 1) * ref_prefetchSlots ri <= INT32_MAX).
Context (Hws : forall rank, 0 <= rank < R -> workspace_ok ri (ws rank)).

Lemma rank_valid rank : 0 <= rank < R -> Validate (rin rank) (ws rank) = PLAN_OK.
Proof. intros Hr. apply (validate_input_ok ri Hval HR HE); auto. Qed.

Lemma ranks_positive : 0 < R.
Proof.
  revert Hval. unfold ValidateInput. cbv zeta. case_if; [done|]. intros _. b2p. lia.
Qed.

Lemma rows_orders rank : 0 <= rank < R -> affinity_rows (rin rank) (ws rank) = BuildAffinityOrders ri.
Proof.
  intros Hr. assert (BuildAffinityOrders ri = BuildAffinity R (vec_at (ri_globalRankIds ri))) as ->
    by (apply functional_extensionality; intros dst; apply affinity_orders).
  pose proof (wk_cache _ _ (Hws rank Hr)) as Hc. unfold affinity_rows. by destruct (affinityCache _).
Qed.

(** One state of the reference for the states of all the ranks. *)
Lemma states_agree : exists r intra inter, ref_balance ri (ref_fuel ri) = Some (r, intra, inter) /\
  forall rank, 0 <= rank < R -> exists s, Balance (rin rank) (ws rank) (round_fuel (rin rank)) = Some s /\
    settled (rin rank) (ws rank) s /\ agrees ri rank s r /\ intraRounds s = intra /\ interRounds s = inter.
Proof.
  destruct (validate_input_ok ri Hval HR HE) as [Hids _].
  assert (forall rank, 0 <= rank < R -> exists s r, Balance (rin rank) (ws rank) (round_fuel (rin rank)) = Some s /\
    settled (rin rank) (ws rank) s /\ ref_balance ri (ref_fuel ri) = Some (r, intraRounds s, interRounds s) /\
    agrees ri rank s r) as H.
  { intros rank Hr. apply balance_ref.
    - by apply validate_ok, rank_valid.
    - apply (wk_segments _ _ (Hws rank Hr)).
    - intros a b Ha Hb Eab. destruct (Z.lt_trichotomy a b) as [|[|]]; [|done|]; exfalso.
      + apply (proj2 (Hids b Hb) a); [lia|done].
      + apply (proj2 (Hids a Ha) b); [lia|done].
    - intros r Hr'. split; [by apply Hids|by apply Hint].
    - by apply rows_orders. }
  destruct (H 0) as (s0 & r & _ & _ & Eb & _); [pose proof ranks_positive; lia|].
  exists r, (intraRounds s0), (interRounds s0). split; [done|]. intros rank Hr.
  destruct (H rank Hr) as (s & r' & Es & Hs & Eb' & Hag). rewrite Eb in Eb'. injection Eb' as -> E1 E2. eauto 10.
Qed.

Section state.
Context (r : PlannerState) (intra inter : Z).
Context (Hranks : forall rank, 0 <= rank < R -> exists s,
  Balance (rin rank) (ws rank) (round_fuel (rin rank)) = Some s /\ settled (rin rank) (ws rank) s /\
  agrees ri rank s r /\ intraRounds s = intra /\ interRounds s = inter).

(** The layouts are defined, and those of every rank. *)
Lemma layouts_agree : exists ls f, RefBuildLayouts ri r = Some (ls, f) /\
  forall rank s, 0 <= rank < R -> settled (rin rank) (ws rank) s -> agrees ri rank s r ->
    exists l, BuildLayouts (rin rank) (ws rank) s = (ls, l) /\ layout_sim ri rank s l f.
Proof.
  assert (forall rank s, 0 <= rank < R -> settled (rin rank) (ws rank) s -> agrees ri rank s r ->
    exists f, RefBuildLayouts ri r = Some (fst (BuildLayouts (rin rank) (ws rank) s), f) /\
      layout_sim ri rank s (snd (BuildLayouts (rin rank) (ws rank) s)) f) as H.
  { intros rank s Hr Hs Hag. assert (plan_ok (rin rank) (ws rank)) as Hok by (by apply validate_ok, rank_valid).
    apply (build_layouts_ref ri rank (ws rank) Hok (wk_remote _ _ (Hws rank Hr)) s Hs Hslots).
    symmetry. apply (ag_alloc _ _ _ _ Hag). }
  pose proof ranks_positive as Hpos. destruct (Hranks 0 ltac:(lia)) as (s0 & _ & Hs0 & Hag0 & _).
  destruct (H 0 s0 ltac:(lia) Hs0 Hag0) as (f & E & _). exists (fst (BuildLayouts (rin 0) (ws 0) s0)), f. split; [done|].
  intros rank s Hr Hs Hag. destruct (H rank s Hr Hs Hag) as (f' & E' & Hsim). rewrite E in E'. injection E' as -> <-.
  destruct (BuildLayouts (rin rank) (ws rank) s). eauto.
Qed.

(** The destinations, all the ranks together, when the layouts fit. *)
Lemma destinations f : RefBuildLayouts ri r = Some (PLAN_OK, f) ->
  let base := rf_base f in
  exists dst, RefBuildDst ri r base = (PLAN_OK, dst) /\
    forall rank s t k, 0 <= rank < R -> 0 <= t < ri_s ri -> 0 <= k < ri_topK ri ->
      Balance (rin rank) (ws rank) (round_fuel (rin rank)) = Some s ->
      dst (rank * ref_cap ri + (t * ri_topK ri + k)) = encoded (rin rank) s base t k.
Proof.
  intros Hfit base.
  pose (code rank t k := match Balance (rin rank) (ws rank) (round_fuel (rin rank)) with
    | Some s => encoded (rin rank) s base t k | None => 0 end).
  pose proof ranks_positive as Hpos.
  assert (plan_ok (rin 0) (ws 0)) as Hok0 by (apply validate_ok, rank_valid; lia).
  pose proof (ok_cap _ _ Hok0) as Hcap. change (cap_ (rin 0)) with (ref_cap ri) in Hcap. cbn in Hcap.
  pose proof (ok_s _ _ Hok0) as H1. pose proof (ok_topK _ _ Hok0) as H2. cbn in H1, H2.
  destruct (build_dst_ref ri r base code) as (dst & Ed & Hd); [lia|nia|done| |].
  - intros rank dst0 Hr. destruct (Hranks rank Hr) as (s & Es & Hs & Hag & _).
    assert (plan_ok (rin rank) (ws rank)) as Hok by (by apply validate_ok, rank_valid).
    pose proof (build_layouts_spec (rin rank) (ws rank) Hok s Hs) as Hspec.
    destruct layouts_agree as (ls' & f' & E1 & Hsim). rewrite Hfit in E1. injection E1 as <- <-.
    destruct (Hsim rank s Hr Hs Hag) as (l & El & Hsim'). rewrite El in Hspec. clear Hsim. rename Hsim' into Hsim.
    destruct Hspec as [(_ & _ & Hw & _)|]; [|done]. rewrite (ls_base _ _ _ _ _ Hsim) in Hw.
    destruct (build_rank_ref ri rank (ws rank) Hok s Hs base Hw r Hag dst0) as (dst & Ed & Hd1 & Hd2).
    exists dst. split; [done|]. split; [|done]. intros t k Ht Hk. unfold code. rewrite Es. by apply Hd1.
  - exists dst. split; [done|]. intros rank s t k Hr Ht Hk Es. rewrite Hd by done. unfold code. by rewrite Es.
Qed.

(** The eight status words. *)
Lemma status_words_ref rank s l f st : 0 <= rank < R -> settled (rin rank) (ws rank) s -> agrees ri rank s r ->
  intraRounds s = intra -> interRounds s = inter -> layout_sim ri rank s l f ->
  FillStatus (rin rank) s st (maxRemote l) (localEnd l) =
  map (fun i => vec_at (RefFillStatus ri r f st intra inter) (rank * kPlanStatusWords + i)) (seqZ 0 kPlanStatusWords).
Proof.
  intros Hr Hs Hag <- <- Hsim.
  assert (map (fun i => vec_at (RefFillStatus ri r f st (intraRounds s) (interRounds s)) (rank * kPlanStatusWords + i))
    (seqZ 0 kPlanStatusWords) = ref_status_words ri r f st (intraRounds s) (interRounds s) rank) as ->.
  { change (seqZ 0 kPlanStatusWords) with [0; 1; 2; 3; 4; 5; 6; 7]. cbn [map]. unfold RefFillStatus. cbn [vec_at].
    repeat (rewrite (div_mul_add rank _ kPlanStatusWords) by (unfold kPlanStatusWords; lia)).
    repeat (rewrite (mod_mul_add rank _ kPlanStatusWords) by (unfold kPlanStatusWords; lia)). done. }
  unfold FillStatus, ref_status_words. cbv zeta.
  rewrite (ls_max _ _ _ _ _ Hsim), (ls_end _ _ _ _ _ Hsim), (ag_moves _ _ _ _ Hag), (ag_load _ _ _ _ Hag).
  unfold localSegments. rewrite (t_segs _ _ _ (fin_tok _ _ _ Hs)), (ag_log _ _ _ _ Hag).
  replace ((rank + 1) * ref_groupCount ri - 1) with (rank * ref_groupCount ri + (ref_groupCount ri - 1)) by lia.
  f_equal. f_equal. f_equal. f_equal. change (in_rankSize (rin rank)) with R. change (cap_ (rin rank)) with (ref_cap ri).
  assert (forall xs d, foldl (fun d x => if ref_rankLoad r x <? ref_cap ri then d + (ref_cap ri - ref_rankLoad r x) else d) d xs =
    foldl (fun d x => let delta := ref_rankLoad r x - ref_cap ri in if delta <? 0 then d - delta else d) d xs) as Hdef.
  { induction xs as [|x xs IH]; intros d; [done|]. cbn [foldl]. rewrite <- IH. f_equal. cbv zeta.
    destruct (Z.ltb_spec (ref_rankLoad r x) (ref_cap ri)), (Z.ltb_spec (ref_rankLoad r x - ref_cap ri) 0); lia. }
  rewrite Hdef. done.
Qed.

(** What a run adds to the layouts: the destinations, when the layouts fit. *)
Lemma destinations_ref rank s l ls f ds dst : 0 <= rank < R ->
  Balance (rin rank) (ws rank) (round_fuel (rin rank)) = Some s -> settled (rin rank) (ws rank) s ->
  RefBuildLayouts ri r = Some (ls, f) -> BuildLayouts (rin rank) (ws rank) s = (ls, l) -> layout_sim ri rank s l f ->
  (if bool_decide (ls = PLAN_OK) then
     let '(st, dst) := RefBuildDst ri r (rf_base f) in (st, Vector (R * ref_cap ri) dst)
   else (ls, no_elements)) = (ds, dst) ->
  exists d, (if bool_decide (ls = PLAN_OK) then
       let '(st, d) := BuildDst (rin rank) s (expertPhysicalBase l) in (st, set_dst (outs l) d)
     else (ls, outs l)) = (ds, set_dst (outs l) d) /\
    forall route, 0 <= route < ref_cap ri ->
      d route = if vec_size dst =? 0 then 0 else vec_at dst (rank * ref_cap ri + route).
Proof.
  intros Hr Es Hs Elay El Hsim Edst. pose proof (destinations f) as Hdest.
  assert (plan_ok (rin rank) (ws rank)) as Hok by (by apply validate_ok, rank_valid).
  pose proof (build_layouts_spec (rin rank) (ws rank) Hok s Hs) as Hspec. rewrite El in Hspec.
  case_bool_decide as Hls.
  - destruct Hspec as [(_ & _ & Hw & _)|]; [|congruence].
    destruct (build_dst_spec (rin rank) (ws rank) Hok s Hs (expertPhysicalBase l) Hw) as (d & -> & Hd).
    rewrite Elay, Hls in Hdest. destruct (Hdest eq_refl) as (dst' & Ed & Hd'). rewrite Ed in Edst. injection Edst as <- <-. exists d. split; [done|].
    pose proof (ok_cap _ _ Hok) as Hcap. change (cap_ (rin rank)) with (ref_cap ri) in Hcap. cbn in Hcap.
    pose proof (ok_topK _ _ Hok) as HK. cbn in HK.
    intros route Hroute. cbn [vec_size vec_at]. rewrite (proj2 (Z.eqb_neq _ 0)) by nia.
    destruct (split_index route (ri_s ri) (ri_topK ri)) as (t & k & -> & Ht & Hk); [lia..|].
    rewrite (Hd' rank s) by done. rewrite <- (ls_base _ _ _ _ _ Hsim). by apply Hd.
  - injection Edst as <- <-. exists (fun _ => 0). split; [|done]. f_equal. pose proof (ls_dst _ _ _ _ _ Hsim) as Hz.
    destruct (outs l). cbn in *. by subst.
Qed.

Lemma finish_ref : exists st out, ref_finish ri r intra inter = Some (st, out) /\ finalStatus out = st /\
  forall rank s, 0 <= rank < R -> Balance (rin rank) (ws rank) (round_fuel (rin rank)) = Some s ->
    exists o words, finish (rin rank) (ws rank) s = (st, o, words) /\ rank_slice ri rank out o words.
Proof.
  destruct layouts_agree as (ls & f & Elay & Hlays). unfold ref_finish. rewrite Elay. cbn [mbind option_bind].
  match goal with |- context [if bool_decide (ls = PLAN_OK) then ?x else ?y] =>
    destruct (if bool_decide (ls = PLAN_OK) then x else y) as [ds dst] eqn:Edst end.
  do 2 eexists. split; [done|]. split; [done|]. intros rank s Hr Es.
  destruct (Hranks rank Hr) as (s' & Es' & Hs & Hag & E1 & E2). rewrite Es in Es'. injection Es' as <-.
  assert (plan_ok (rin rank) (ws rank)) as Hok by (by apply validate_ok, rank_valid).
  destruct (Hlays rank s Hr Hs Hag) as (l & Ebl & Hsim).
  unfold finish. rewrite (fin_fatal _ _ _ Hs), bool_decide_true by done. cbn [negb].
  rewrite Ebl.
  destruct (destinations_ref rank s l ls f ds dst Hr Es Hs Elay Ebl Hsim Edst) as (d & -> & Hd).
  assert (balanced (rin rank) s = ref_balanced ri r) as Hb by (unfold balanced; by rewrite (ag_load _ _ _ _ Hag)).
  assert (balance_status (rin rank) s = ref_balance_status ri r) as ->.
  { unfold balance_status, ref_balance_status. by rewrite Hb, (ag_slot _ _ _ _ Hag), (ag_supply _ _ _ _ Hag). }
  rewrite Hb. cbv zeta. do 2 eexists. split; [done|].
  destruct (ls_meta _ _ _ _ _ Hsim) as [M1 M2 M3 M4 M5].
  assert (0 <= ref_prefetchSlots ri) as Hb0 by (pose proof (ok_b _ _ Hok) as Hb'; change (0 < ref_prefetchSlots ri) in Hb'; lia).
  assert (0 <= ref_targetWords ri) as Hwords by (pose proof ranks_positive; unfold ref_targetWords; apply Z.div_pos; lia).
  constructor; cbn [set_dst out_dst cuSeqlens expertsToCopy remoteExperts expertTargets remoteStats0 remoteStats1
    ro_dst ro_cuSeqlens ro_expertsToCopy ro_expertTargets ro_remoteStats statusByRank vec_at]; try done.
  - apply (ls_cu _ _ _ _ _ Hsim).
  - intros i Hi. destruct (split_index i _ _ Hb0 Hi) as (d' & slot & -> & Hd' & Hslot). by apply M2.
  - intros i Hi. destruct (split_index i _ _ Hwords Hi) as (le & w & -> & Hle & Hw). rewrite M3 by done. f_equal. lia.
  - by apply status_words_ref.
Qed.
End state.
End agree.

(** A plan whose [rankSize * expertNum] does not fit an [int32_t] is undefined, although
    [ValidateInput] accepts it. *)
Lemma reference_plan_undefined ri : ValidateInput ri = PLAN_OK ->
  INT32_MAX < ri_rankSize ri * ri_expertNum ri -> BuildReferencePlan ri = None.
Proof.
  intros Hval H. unfold BuildReferencePlan. rewrite Hval, bool_decide_true by done.
  by rewrite (proj2 (Z.ltb_lt _ _) H).
Qed.

(** The experts alone fit when the product does. *)
Lemma experts_fit ri : ValidateInput ri = PLAN_OK -> ri_rankSize ri * ri_expertNum ri <= INT32_MAX ->
  ri_expertNum ri <= INT32_MAX.
Proof.
  intros Hval. pose proof (ranks_positive ri Hval). revert Hval. unfold ValidateInput. cbv zeta. case_if; [done|].
  intros _ ?. b2p. nia.
Qed.

(** C2: on every input that the reference planner accepts, with at most 128 ranks, 32-bit ids and
    a workspace with room on every rank, and whose index products [rankSize * expertNum] and
    [(rankSize - 1) * prefetchSlots] fit an [int32_t] (beyond that the reference planner is
    undefined), the reference planner returns a plan and the planner of
    every rank returns with the same status; the destinations, cumulative lengths, expert copies,
    remote experts, target words, remote counts and status words of each rank are its slice of the
    reference plan. It holds for complete plans, for partial ones and for layouts that do not fit
    the window. *)
Theorem reference_plan_agrees ri ws : ValidateInput ri = PLAN_OK -> ri_rankSize ri <= 128 ->
  ri_rankSize ri * ri_expertNum ri <= INT32_MAX ->
  (ri_rankSize ri - 1) * ref_prefetchSlots ri <= INT32_MAX ->
  (forall r, 0 <= r < ri_rankSize ri -> vec_at (ri_globalRankIds ri) r <= INT32_MAX) ->
  (forall rank, 0 <= rank < ri_rankSize ri -> workspace_ok ri (ws rank)) ->
  exists st out, BuildReferencePlan ri = Some (st, out) /\ finalStatus out = st /\
    forall rank, 0 <= rank < ri_rankSize ri -> exists o words,
      RunPlanAlgorithm (rank_input ri rank) (ws rank) = Some (st, o, words) /\ rank_slice ri rank out o words.
Proof.
  intros Hval HR Hcells Hslots Hint Hws. pose proof (experts_fit ri Hval Hcells) as HE.
  destruct (states_agree ri ws Hval HR HE Hint Hws) as (r & intra & inter & Eb & Hranks).
  destruct (finish_ref ri ws Hval HR HE Hslots Hws r intra inter Hranks) as (st & out & Ef & Est & Hfin).
  exists st, out. unfold BuildReferencePlan. rewrite Hval, (proj2 (Z.ltb_ge _ _) Hcells), Eb. cbn. rewrite Ef. split; [done|]. split; [done|].
  intros rank Hr. destruct (Hranks rank Hr) as (s & Es & _).
  destruct (Hfin rank s Hr Es) as (o & words & Efin & Hsl). exists o, words. split; [|done].
  unfold RunPlanAlgorithm. rewrite (rank_valid ri ws Hval HR HE Hws rank Hr). cbn. rewrite Es. cbn. by rewrite Efin.
Qed.

Definition small_reference : ReferenceInput :=
  {| ri_rankSize := 2; ri_s := 4; ri_topK := 2; ri_expertNum := 4; ri_config := small_config;
     ri_globalRankIds := Vector 2 (fun r => r);
     ri_topkExperts := Vector 16 (array_of [0; 1; 0; 1; 0; 2; 0; 1; 0; 1; 1; 0; 3; 2; 1; 0]);
     ri_tokensPerExpert := Vector 8 (array_of [4; 3; 1; 0; 3; 3; 1; 1]) |}.

Lemma reference_plan_agrees_witness : exists st out, BuildReferencePlan small_reference = Some (st, out) /\
  finalStatus out = st /\
  forall rank, 0 <= rank < 2 -> exists o words,
    RunPlanAlgorithm (rank_input small_reference rank) small_workspace = Some (st, o, words) /\
    rank_slice small_reference rank out o words.
Proof.
  apply (reference_plan_agrees small_reference (fun _ => small_workspace)).
  - vm_compute. reflexivity.
  - cbn. lia.
  - unfold INT32_MAX. cbn. lia.
  - unfold INT32_MAX. cbn. lia.
  - unfold INT32_MAX. cbn. intros. lia.
  - intros rank _. constructor; cbn; auto; unfold ref_cap; cbn; lia.
Defined.
