(* ===== verification/RefCheck.v ===== *)
(** [CheckReferencePlanInvariants] of src/src/moonep/planner_v2/reference/ep_plan_reference.cpp:
    the checker that the tests run on a plan of the reference planner. A check that fails is its
    error message; [None] is the overflow of an [int32_t], which is undefined. *)
From Stdlib Require Import String.
From stdpp Require Import gmap.
From S2P Require Import Prelude PlanTypes PlanSort PlanAlgorithm PlanOutput RefPlan RefOutput.
#[local] Open Scope string_scope.
#[local] Open Scope list_scope.
#[local] Open Scope Z_scope.

(** [SetError(error, message)] when [failed], with [return false]. *)
Definition fails (failed : bool) (message : string) : unit + string :=
  if failed then inr message else inl tt.

Definition and_then (first rest : unit + string) : unit + string :=
  match first with inr message => inr message | inl _ => rest end.
#[local] Infix "then_" := and_then (at level 60, right associativity).

(** The same before a part that can be undefined. *)
Definition and_then_defined (first : unit + string) (rest : option (unit + string)) : option (unit + string) :=
  match first with inr message => Some (inr message) | inl _ => rest end.
#[local] Infix "then_some_" := and_then_defined (at level 60, right associativity).

(** [operator!=] of two vectors. *)
Definition vectors_differ (a b : vector) : bool :=
  negb (vec_size a =? vec_size b) ||
  existsb (fun i => negb (vec_at a i =? vec_at b i)) (seqZ 0 (vec_size a)).

(** [operator<] of [std::pair<int32_t, int32_t>]. *)
Definition pair_less (a b : Z * Z) : bool :=
  (fst a <? fst b) || (negb (fst b <? fst a) && (snd a <? snd b)).

(** [expectedRemoteExperts], [expectedRemoteStats] and [expectedExpertTargets]. *)
Record Expected := { ex_remote : Z -> list Z; ex_stats : Z -> Z; ex_targets : Z -> Z }.

(** [segmentCount], [destinationSegmentCount], [sourceRanges] and [destinationRanges]. *)
Record Ranges := {
  segmentCount : Z -> Z; destinationSegmentCount : Z -> Z;
  sourceRanges : Z -> list (Z * Z); destinationRanges : Z -> list (Z * Z)
}.

Section check.
Context (inp : ReferenceInput) (out : ReferenceOutput).
#[local] Abbreviation R := (ri_rankSize inp).
#[local] Abbreviation E := (ri_expertNum inp).
#[local] Abbreviation RE r e := (ReIndex r e (ri_expertNum inp)).
#[local] Abbreviation epr := (ref_expertsPerRank inp).
#[local] Abbreviation slots := (ref_prefetchSlots inp).
#[local] Abbreviation words := (ref_targetWords inp).
#[local] Abbreviation groups := (ref_groupCount inp).
#[local] Abbreviation cap := (ref_cap inp).
#[local] Abbreviation window := (nvS (ri_config inp)).
#[local] Abbreviation al := (vec_at (ro_alloc out)).
#[local] Abbreviation ok := (bool_decide (finalStatus out = PLAN_OK)).

Definition check_status : unit + string :=
  let agreedStatus := vec_at (statusByRank out) 0 in
  loop_ret (fun rank (_ : unit) =>
      fails (negb (vec_at (statusByRank out) (rank * kPlanStatusWords) =? agreedStatus))
        "status[0] consensus mismatch")
    (seqZ 1 (R - 1)) tt then_
  fails (negb (agreedStatus =? status_code (finalStatus out))) "status[0] does not match final status".

Definition check_shapes : unit + string :=
  fails (negb (vec_size (ro_expertsToCopy out) =? R * slots)) "expertsToCopy shape mismatch" then_
  fails (negb (vec_size (ro_expertTargets out) =? E * words)) "expertTargets shape mismatch" then_
  fails (negb (vec_size (statusByRank out) =? R * kPlanStatusWords)) "statusByRank shape mismatch" then_
  check_status.

(** The shapes that follow, the first of them against [rankSize * expertNum]. *)
Definition check_table_shapes : unit + string :=
  fails (negb (vec_size (ro_alloc out) =? R * E) || negb (vec_size (ro_rankLoad out) =? R) ||
         negb (vec_size (ro_dst out) =? R * cap) || negb (vec_size (ro_cuSeqlens out) =? R * groups) ||
         negb (vec_size (ro_remoteStats out) =? R * 2)) "output shape mismatch".

Definition check_conservation : unit + string :=
  loop_ret (fun expert (_ : unit) =>
      match loop_ret (fun rank acc =>
          let '(expected, actual) := acc in
          let value := al (RE rank expert) in
          if value <? 0 then inr "negative allocation"
          else inl (expected + vec_at (ri_tokensPerExpert inp) (RE rank expert), actual + value))
        (seqZ 0 R) (0, 0) with
      | inr message => inr message
      | inl (expected, actual) => fails (negb (actual =? expected)) "expert conservation failed"
      end)
    (seqZ 0 E) tt.

Definition check_loads : unit + string :=
  loop_ret (fun rank (_ : unit) =>
      let load := foldl (fun load expert => load + al (RE rank expert)) 0 (seqZ 0 E) in
      fails (negb (load =? vec_at (ro_rankLoad out) rank)) "rank load does not match allocation" then_
      fails (ok && negb (load =? cap)) "PLAN_OK rank capacity violated")
    (seqZ 0 R) tt.

(** One iteration of the loop that rebuilds the metadata. *)
Definition expect_rank (rank : Z) (x : Expected) : Expected + string :=
  let remote := ref_remote_row inp al rank in
  let count := Z.of_nat (length remote) in
  let '(stats, targets) :=
    foldl (fun acc slot =>
        let '(stats, targets) := acc in
        let expert := nth (Z.to_nat slot) remote 0 in
        let homed := HomeRank expert epr * 2 + 1 in
        let word := expert * words + rank / 64 in
        (upd1 stats homed (stats homed + 1),
         upd1 targets word (Z.lor (targets word) (Z.shiftl 1 (rank mod 64)))))
      (upd1 (ex_stats x) (rank * 2) count, ex_targets x) (seqZ 0 count) in
  match (if ok then
    loop_ret (fun slot (_ : unit) =>
        let expected := if slot <? count then nth (Z.to_nat slot) remote 0 else -1 in
        fails (negb (vec_at (ro_expertsToCopy out) (rank * slots + slot) =? expected))
          "expertsToCopy content mismatch")
      (seqZ 0 slots) tt
    else inl tt) with
  | inr message => inr message
  | inl _ => inl {| ex_remote := upd1 (ex_remote x) rank remote; ex_stats := stats; ex_targets := targets |}
  end.

Definition expected_metadata : Expected + string :=
  loop_ret expect_rank (seqZ 0 R)
    {| ex_remote := fun _ => []; ex_stats := fun _ => 0; ex_targets := fun _ => 0 |}.

Definition check_metadata (x : Expected) : unit + string :=
  fails (ok && vectors_differ (ro_remoteStats out) (Vector (R * 2) (ex_stats x))) "remoteStats mismatch" then_
  fails (ok && vectors_differ (ro_expertTargets out) (Vector (E * words) (ex_targets x)))
    "expertTargets content mismatch".

Definition collect_segment (m : TokenSegmentMove) (x : Ranges) : Ranges + string :=
  if (expertId m <? 0) || (E <=? expertId m) || (srcRank m <? 0) || (R <=? srcRank m) ||
     (dstRank m <? 0) || (R <=? dstRank m) || (srcExpertBegin m <? 0) || (dstExpertBegin m <? 0) ||
     (tokenCount m <=? 0) then inr "invalid token segment"
  else
    let sourceIndex := RE (srcRank m) (expertId m) in
    let destinationIndex := RE (dstRank m) (expertId m) in
    inl {|
      segmentCount := upd1 (segmentCount x) sourceIndex (segmentCount x sourceIndex + tokenCount m);
      destinationSegmentCount := upd1 (destinationSegmentCount x) destinationIndex
        (destinationSegmentCount x destinationIndex + tokenCount m);
      sourceRanges := upd1 (sourceRanges x) sourceIndex
        (sourceRanges x sourceIndex ++ [(srcExpertBegin m, tokenCount m)]);
      destinationRanges := upd1 (destinationRanges x) destinationIndex
        (destinationRanges x destinationIndex ++ [(dstExpertBegin m, tokenCount m)]) |}.

(** The ranges of one cell start where the one before ends. *)
Definition contiguous (ranges : list (Z * Z)) (message : string) : unit + string :=
  match loop_ret (fun range cursor =>
      if negb (fst range =? cursor) then inr message else inl (cursor + snd range))
    (std_sort pair_less ranges) 0 with
  | inr message => inr message
  | inl _ => inl tt
  end.

Definition check_segments : unit + string :=
  match loop_ret collect_segment (ro_segments out)
    {| segmentCount := fun _ => 0; destinationSegmentCount := fun _ => 0;
       sourceRanges := fun _ => []; destinationRanges := fun _ => [] |} with
  | inr message => inr message
  | inl x =>
      loop_ret (fun i (_ : unit) =>
          fails (negb (segmentCount x i =? vec_at (ri_tokensPerExpert inp) i))
            "source/expert segment conservation failed" then_
          fails (negb (destinationSegmentCount x i =? al i))
            "destination/expert segment conservation failed" then_
          contiguous (sourceRanges x i) "source/expert segment ranges are not contiguous" then_
          contiguous (destinationRanges x i) "destination/expert segment ranges are not contiguous")
        (seqZ 0 (R * E)) tt
  end.

(** One group of one rank; [previous] is the end of the group before. *)
Definition check_group (rank : Z) (remote : list Z) (group previous : Z) : Z + string :=
  let group_end := vec_at (ro_cuSeqlens out) (rank * groups + group) in
  if (group_end <? previous) || (window <? group_end) then inr "cuSeqlens is not monotonic or exceeds NvS"
  else
    let realCount := match ref_group_expert inp remote group with
      | Some expert => al (RE rank expert) | None => 0 end in
    match (if realCount =? 0 then Some 0 else RefAlignUp realCount (tokenPadding (ri_config inp))) with
    | None => inr "group payload exceeds layout capacity"
    | Some padded =>
        if window - previous <? padded then inr "group payload exceeds layout capacity"
        else if ok && negb (group_end =? previous + padded) then inr "cuSeqlens does not match group payload"
        else inl group_end
    end.

(** The groups of one rank. The counter is an [int32_t] and [groupCount] is not: with more groups
    than the counter reaches, the increment after the last one overflows. *)
Definition check_groups (x : Expected) (rank : Z) : unit + option string :=
  match loop_ret (check_group rank (ex_remote x rank)) (seqZ 0 (Z.min groups (INT32_MAX + 1))) 0 with
  | inr message => inr (Some message)
  | inl _ => if INT32_MAX <? groups then inr None else inl tt
  end.

Definition check_layouts (x : Expected) : option (unit + string) :=
  match loop_ret (fun rank (_ : unit) =>
      if slots <? vec_at (ro_remoteStats out) (rank * 2) then inr (Some "remote expert count exceeds B")
      else check_groups x rank)
    (seqZ 0 R) tt with
  | inl _ => Some (inl tt)
  | inr (Some message) => Some (inr message)
  | inr None => None
  end.

(** One route: [(rawSlots, positiveRanks, seenRanks)]. *)
Definition check_route (src token k : Z) (acc : gset Z * gset Z * gset Z) : (gset Z * gset Z * gset Z) + string :=
  let '(rawSlots, positiveRanks, seenRanks) := acc in
  let encoded := vec_at (ro_dst out) (src * cap + (token * ri_topK inp + k)) in
  let raw := if 0 <=? encoded then encoded else Z.lnot encoded in
  if (raw <? 0) || (R * window <=? raw) then inr "dst is not decodable"
  else if bool_decide (raw ∈ rawSlots) then inr "two routes share one destination slot"
  else
    let dstRank := raw / window in
    let first := negb (bool_decide (dstRank ∈ seenRanks)) in
    if first && (encoded <? 0) then inr "first route to rank is negative"
    else if negb first && (0 <=? encoded) then inr "duplicate route to rank is non-negative"
    else inl ({[raw]} ∪ rawSlots,
              if 0 <=? encoded then {[dstRank]} ∪ positiveRanks else positiveRanks,
              {[dstRank]} ∪ seenRanks).

Definition check_token (src token : Z) (rawSlots : gset Z) : gset Z + string :=
  match loop_ret (check_route src token) (seqZ 0 (ri_topK inp)) (rawSlots, ∅, ∅) with
  | inr message => inr message
  | inl (rawSlots', positiveRanks, seenRanks) =>
      if bool_decide (positiveRanks = seenRanks) then inl rawSlots'
      else inr "dedup positive route count mismatch"
  end.

Definition check_destinations : unit + string :=
  match loop_ret (fun src rawSlots => loop_ret (check_token src) (seqZ 0 (ri_s inp)) rawSlots)
    (seqZ 0 R) ∅ with
  | inr message => inr message
  | inl _ => inl tt
  end.

(** [inl] is [true]. Every index [rank * expertNum + expert] is below the product that the shapes
    of the tables are compared with. *)
Definition CheckReferencePlanInvariants : option (unit + string) :=
  fails (negb (bool_decide (ValidateInput inp = PLAN_OK))) "input validation failed" then_some_
  check_shapes then_some_
  if INT32_MAX <? R * E then None else
  check_table_shapes then_some_
  check_conservation then_some_
  check_loads then_some_
  match expected_metadata with
  | inr message => Some (inr message)
  | inl x =>
      check_metadata x then_some_
      check_segments then_some_
      (passed ← check_layouts x;
       passed then_some_ Some check_destinations)
  end.
End check.
