(* ===== verification/RefAccept.v ===== *)
(** The checker accepts the plans of the reference planner: every check of
    [CheckReferencePlanInvariants] passes on the plan of an accepted input whose layouts fit the
    window. *)
From Stdlib Require Import String.
From stdpp Require Import gmap.
From S2P Require Import Prelude PlanTypes PlanSort PlanAlgorithm PlanOutput PlanMove PlanBalance PlanFinal PlanSegments PlanBounds PlanLayout PlanDst PlanProps RefPlan RefOutput RefMove RefBalance RefLayout RefDst RefValid RefProps RefCheck.

Lemma fails_not b message : b = false -> fails b message = inl tt.
Proof. by intros ->. Qed.

Lemma checks_pass {A T} (f : A -> unit -> unit + T) l : (forall x, x ∈ l -> f x tt = inl tt) -> loop_ret f l tt = inl tt.
Proof.
  induction l as [|x l IH]; intros H; [done|]. cbn. rewrite H by (by left). apply IH. intros. apply H. by right.
Qed.

Section accept.
Context (ri : ReferenceInput) (rank : Z) (ws : PlanAlgorithmWorkspace).
#[local] Abbreviation inp := (rank_input ri rank).
#[local] Abbreviation R := (ri_rankSize ri).
#[local] Abbreviation E := (ri_expertNum ri).
#[local] Abbreviation P := (ref_expertsPerRank ri).
#[local] Abbreviation W := (ref_targetWords ri).
#[local] Abbreviation B := (ref_prefetchSlots ri).
#[local] Abbreviation G := (ref_groupCount ri).
#[local] Abbreviation RE r e := (ReIndex r e (ri_expertNum ri)).
#[local] Abbreviation window := (nvS (ri_config ri)).
Context (Hok : plan_ok inp ws) (s : PState) (Hs : settled inp ws s) (r : PlannerState) (Hag : agrees ri rank s r).
Context (f : RefLayout) (Hlay : RefBuildLayouts ri r = Some (PLAN_OK, f)) (dst : Z -> Z) (intra inter : Z).

Definition plan_status : TileXRMoonEPPlanStatus := if ref_balanced ri r then PLAN_OK else ref_balance_status ri r.

(** A plan with these destinations. *)
Definition plan_with (st : TileXRMoonEPPlanStatus) (destinations : vector) : ReferenceOutput :=
  {| finalStatus := st; ro_dst := destinations;
     ro_cuSeqlens := Vector (R * G) (rf_cuSeqlens f); ro_expertsToCopy := Vector (R * B) (rf_expertsToCopy f);
     ro_expertTargets := Vector (R * P * W) (rf_expertTargets f); ro_remoteStats := Vector (R * 2) (rf_remoteStats f);
     statusByRank := RefFillStatus ri r f st intra inter; ro_rankLoad := Vector R (ref_rankLoad r);
     ro_alloc := Vector (R * E) (ref_alloc r); ro_segments := ref_segments r; ro_expertMoves := ref_expertMoves r |}.

(** The plan of a layout that fits. *)
Definition fitting_plan : ReferenceOutput := plan_with plan_status (Vector (R * ref_cap ri) dst).

Lemma balanced_when_ok : plan_status = PLAN_OK -> ref_balanced ri r = true.
Proof.
  unfold plan_status. destruct (ref_balanced ri r) eqn:Eb; [done|]. unfold ref_balance_status. rewrite Eb. by repeat case_if.
Qed.

Lemma first_word st d : 0 <= d -> vec_at (RefFillStatus ri r f st intra inter) (d * kPlanStatusWords) = status_code st.
Proof.
  intros Hd. unfold RefFillStatus. cbn [vec_at]. rewrite Z.mod_mul by done. done.
Qed.

Lemma experts_split : E = R * P.
Proof. exact (ok_E _ _ Hok). Qed.

(** Every shape is right but possibly that of the destinations. *)
Lemma table_shapes_checked st v : check_table_shapes ri (plan_with st v) =
  fails (negb (vec_size v =? R * ref_cap ri)) "output shape mismatch".
Proof. unfold check_table_shapes. cbn. rewrite experts_split, !Z.eqb_refl. cbn [negb orb]. by rewrite !orb_false_r. Qed.

Lemma shapes_checked st v : check_shapes ri (plan_with st v) = inl tt.
Proof.
  unfold check_shapes. cbn. rewrite experts_split, !Z.eqb_refl. cbn [negb fails and_then orb].
  unfold check_status. cbv zeta. rewrite checks_pass.
  - cbn [and_then plan_with statusByRank finalStatus]. apply fails_not. change 0 with (0 * kPlanStatusWords) at 1.
    by rewrite first_word, Z.eqb_refl by lia.
  - intros d Hd%elem_of_seqZ. apply fails_not. cbn [plan_with statusByRank].
    change (vec_at (RefFillStatus ri r f st intra inter) 0) with
      (vec_at (RefFillStatus ri r f st intra inter) (0 * kPlanStatusWords)).
    by rewrite !first_word, Z.eqb_refl by lia.
Qed.

Lemma cell_nonneg d e : 0 <= d < R -> 0 <= e < E -> 0 <= ref_alloc r (RE d e).
Proof. rewrite <- (ag_alloc _ _ _ _ Hag). apply (fin_pos _ _ _ Hs). Qed.

Lemma conservation_pass : check_conservation ri fitting_plan = inl tt.
Proof.
  apply checks_pass. intros e He%elem_of_seqZ0. cbn [fitting_plan plan_with ro_alloc vec_at].
  assert (forall l a b, (forall d, d ∈ l -> 0 <= d < R) -> loop_ret (fun rank acc =>
      let '(expected, actual) := acc in
      let value := ref_alloc r (RE rank e) in
      if value <? 0 then inr "negative allocation"%string
      else inl (expected + vec_at (ri_tokensPerExpert ri) (RE rank e), actual + value)) l (a, b) =
    inl (a + zsum (fun d => vec_at (ri_tokensPerExpert ri) (RE d e)) l, b + zsum (fun d => ref_alloc r (RE d e)) l)) as HL.
  { induction l as [|x l IH]; intros a b Hl; cbn [loop_ret]; [cbn; by rewrite !Z.add_0_r|]. cbv zeta.
    rewrite (proj2 (Z.ltb_ge _ 0)) by (apply cell_nonneg; [apply Hl; by left|done]).
    rewrite IH by (intros; apply Hl; by right). rewrite !zsum_cons. f_equal. f_equal; lia. }
  rewrite HL by (intros d; apply elem_of_seqZ0). apply fails_not. apply negb_false_iff, Z.eqb_eq. f_equal.
  pose proof (log_ok_counts _ (t_log _ _ _ (fin_tok _ _ _ Hs))) as Hl.
  transitivity (zsum (fun d => dst_total (segLog s) d e) (seqZ 0 R)).
  - apply zsum_ext. intros d Hd%elem_of_seqZ0. by rewrite (fin_dst _ _ _ Hs), (ag_alloc _ _ _ _ Hag).
  - unfold dst_total. rewrite (log_by_rank dstRank) by (intros m Hm; by apply Hl).
    rewrite <- (log_by_rank srcRank R) by (intros m Hm; by apply Hl).
    apply zsum_ext. intros d Hd%elem_of_seqZ0. by apply (fin_src _ _ _ Hs).
Qed.

Lemma sum_foldl (g : Z -> Z) l a : foldl (fun x e => x + g e) a l = a + zsum g l.
Proof. revert a. induction l as [|x l IH]; intros a; cbn [foldl]; [cbn; lia|]. rewrite IH, zsum_cons. lia. Qed.

Lemma loads_pass : check_loads ri fitting_plan = inl tt.
Proof.
  apply checks_pass. intros d Hd%elem_of_seqZ0. cbv zeta. cbn [fitting_plan plan_with ro_alloc ro_rankLoad vec_at finalStatus].
  rewrite (sum_foldl (fun e => ref_alloc r (RE d e))).
  assert (0 + zsum (fun e => ref_alloc r (RE d e)) (seqZ 0 E) = ref_rankLoad r d) as ->.
  { rewrite <- (ag_load _ _ _ _ Hag), (fin_load _ _ _ Hs), (ag_alloc _ _ _ _ Hag) by done. done. }
  rewrite Z.eqb_refl. cbn [negb fails and_then]. apply fails_not. case_bool_decide as Hst; [|done]. cbn [andb].
  apply balanced_when_ok in Hst. unfold ref_balanced in Hst. rewrite List.forallb_forall in Hst.
  rewrite Hst; [done|]. by apply list_elem_of_In, elem_of_seqZ0.
Qed.

(** ** Metadata *)

Definition expect_slot (d : Z) (row : list Z) (acc : (Z -> Z) * (Z -> Z)) (slot : Z) : (Z -> Z) * (Z -> Z) :=
  let '(stats, targets) := acc in
  let expert := nth (Z.to_nat slot) row 0 in
  let homed := HomeRank expert P * 2 + 1 in
  let word := expert * W + d / 64 in
  (upd1 stats homed (stats homed + 1), upd1 targets word (Z.lor (targets word) (Z.shiftl 1 (d mod 64)))).

(** Publishing a row adds what the checker expects, and writes its slots. *)
Lemma publish_expected d row f1 (n : nat) :
  let f2 := foldl (ref_publish_slot ri d row) f1 (seqZ 0 (Z.of_nat n)) in
  (rf_remoteStats f2, rf_expertTargets f2) =
    foldl (expect_slot d row) (rf_remoteStats f1, rf_expertTargets f1) (seqZ 0 (Z.of_nat n)) /\
  rf_remote f2 = rf_remote f1 /\
  (forall i, rf_remoteStats f2 (i * 2) = rf_remoteStats f1 (i * 2)) /\
  forall i, rf_expertsToCopy f2 i =
    if bool_decide (d * B <= i < d * B + Z.of_nat n) then nth (Z.to_nat (i - d * B)) row 0 else rf_expertsToCopy f1 i.
Proof.
  induction n as [|n IH]; cbv zeta in *.
  - change (seqZ 0 (Z.of_nat 0)) with (@nil Z). cbn [foldl]. split; [done|]. split; [done|]. split; [done|].
    intros i. by rewrite bool_decide_false by lia.
  - replace (Z.of_nat (S n)) with (Z.of_nat n + 1) by lia. rewrite !seqZ0_snoc, !foldl_app by lia. cbn [foldl].
    destruct IH as (H1 & H2 & H4 & H3). rewrite <- H1. set (f2 := foldl _ f1 _) in *. unfold ref_publish_slot, expect_slot. cbv zeta.
    set (e := nth (Z.to_nat (Z.of_nat n)) row 0). replace (HomeRank e P * P + (e - HomeRank e P * P)) with e by lia.
    split; [done|]. split; [done|]. cbn [rf_expertsToCopy rf_remoteStats].
    split; [intros i; rewrite upd1_ne by lia; apply H4|]. intros i. unfold upd1. rewrite H3.
    apply decide_snoc; [lia|]. intros ->. unfold e. f_equal. lia.
Qed.

(** The metadata after the rows of the destinations before [n]. *)
Record expecting (n : Z) (x : Expected) (f' : RefLayout) : Prop := {
  xp_remote : ex_remote x = rf_remote f';
  xp_stats : ex_stats x = rf_remoteStats f';
  xp_targets : ex_targets x = rf_expertTargets f';
  xp_rows d : 0 <= d < n -> rf_remote f' d = ref_remote_row ri (ref_alloc r) d /\
    Z.of_nat (length (rf_remote f' d)) <= B /\ rf_remoteStats f' (d * 2) = Z.of_nat (length (rf_remote f' d));
  xp_copy d slot : 0 <= d < n -> 0 <= slot < B -> rf_expertsToCopy f' (d * B + slot) =
    if slot <? Z.of_nat (length (rf_remote f' d)) then nth (Z.to_nat slot) (rf_remote f' d) 0 else -1;
  xp_free d slot : n <= d -> 0 <= slot < B -> rf_expertsToCopy f' (d * B + slot) = -1
}.

(** One rank of the reference, with what the checker accumulates for it. *)
Lemma place_expected d x f' f'' : 0 <= d -> ref_place_remote ri (ref_alloc r) d f' = inl f'' -> expecting d x f' ->
  let row := ref_remote_row ri (ref_alloc r) d in
  let '(stats, targets) := foldl (expect_slot d row) (upd1 (ex_stats x) (d * 2) (Z.of_nat (length row)), ex_targets x)
    (seqZ 0 (Z.of_nat (length row))) in
  expecting (d + 1) {| ex_remote := upd1 (ex_remote x) d row; ex_stats := stats; ex_targets := targets |} f''.
Proof.
  intros Hd. unfold ref_place_remote. cbv zeta. set (row := ref_remote_row ri (ref_alloc r) d).
  destruct (Z.ltb_spec B (Z.of_nat (length row))) as [|Hlen]; [done|]. case_if; [done|]. intros [= <-] [X1 X2 X3 X4 X5 X6].
  set (f1 := {| rf_cuSeqlens := _ |}). destruct (publish_expected d row f1 (length row)) as (H1 & H2 & H4 & H3).
  set (f2 := foldl (ref_publish_slot ri d row) f1 _) in *.
  cbn [f1 rf_remoteStats rf_expertTargets rf_remote rf_expertsToCopy] in H1, H2, H3, H4. rewrite X2, X3, <- H1.
  constructor; cbn [ex_remote ex_stats ex_targets]; try done.
  - by rewrite X1, H2.
  - intros d' Hd'. rewrite H2, H4. unfold upd1. destruct (Z.eqb_spec d' d) as [->|]; [by rewrite Z.eqb_refl|].
    rewrite (proj2 (Z.eqb_neq (d' * 2) (d * 2))) by lia. apply X4. lia.
  - intros d' slot Hd' Hslot. rewrite H3, H2. unfold upd1. destruct (Z.eqb_spec d' d) as [->|Hne].
    + destruct (Z.ltb_spec slot (Z.of_nat (length row))).
      * rewrite bool_decide_true by lia. f_equal. lia.
      * rewrite bool_decide_false by lia. apply X6; lia.
    + rewrite bool_decide_false by nia. apply X5; lia.
  - intros d' slot Hd' Hslot. rewrite H3, bool_decide_false by nia. apply X6; lia.
Qed.

Definition expect_row (x : Expected) (d : Z) : Expected :=
  let row := ref_remote_row ri (ref_alloc r) d in
  let '(stats, targets) := foldl (expect_slot d row) (upd1 (ex_stats x) (d * 2) (Z.of_nat (length row)), ex_targets x)
    (seqZ 0 (Z.of_nat (length row))) in
  {| ex_remote := upd1 (ex_remote x) d row; ex_stats := stats; ex_targets := targets |}.

Definition expected_all : Expected :=
  foldl expect_row {| ex_remote := fun _ => []; ex_stats := fun _ => 0; ex_targets := fun _ => 0 |} (seqZ 0 R).

Lemma rows_expected f0 : 0 <= R -> loop_ret (ref_place_remote ri (ref_alloc r)) (seqZ 0 R) ref_empty_layout = inl f0 ->
  expecting R expected_all f0.
Proof.
  intros HR0 E0. pose proof (loop_ret_range (fun n f' => expecting n
      (foldl expect_row {| ex_remote := fun _ => []; ex_stats := fun _ => 0; ex_targets := fun _ => 0 |} (seqZ 0 n)) f')
    (fun _ => True) (ref_place_remote ri (ref_alloc r)) R ref_empty_layout) as HL. cbv beta in HL.
  rewrite E0 in HL. apply HL; [|done|].
  - intros d f' Hd Hx. destruct (ref_place_remote ri (ref_alloc r) d f') as [f''|] eqn:Ep; [|done].
    rewrite seqZ0_snoc, foldl_app by lia. cbn [foldl]. pose proof (place_expected d _ f' f'' ltac:(lia) Ep Hx) as Hn. unfold expect_row at 1. cbv zeta in *.
    match type of Hn with let '_ := ?x in _ => destruct x as [stats targets] end. done.
  - constructor; try done; lia.
Qed.

(** The groups leave the metadata alone. *)
Definition meta_of (f' : RefLayout) := (rf_remote f', rf_remoteStats f', rf_expertTargets f', rf_expertsToCopy f').

Lemma group_keeps d row g f' p : match ref_place_group ri (ref_alloc r) d row g (f', p) with
  | inl (f'', _) => meta_of f'' = meta_of f' | inr e => fst e <> PLAN_OK end.
Proof.
  unfold ref_place_group. destruct (ref_group_expert ri row g) as [e|]; cbv zeta.
  - destruct (if ref_alloc r (RE d e) =? 0 then Some 0 else _); [|done]. by case_if.
  - cbn. by case_if.
Qed.

Lemma groups_keep d f' : match ref_place_groups ri (ref_alloc r) d f' with
  | inl f'' => meta_of f'' = meta_of f' | inr e => fst e <> PLAN_OK end.
Proof.
  unfold ref_place_groups.
  pose proof (loop_ret_inv (fun a : RefLayout * Z => meta_of a.1 = meta_of f') (fun e => fst e <> PLAN_OK)
    (ref_place_group ri (ref_alloc r) d (rf_remote f' d)) (seqZ 0 G) (f', 0)) as HL.
  specialize (HL ltac:(intros g [f1 p] _ H1; pose proof (group_keeps d (rf_remote f' d) g f1 p) as Hk;
    destruct (ref_place_group _ _ _ _ _ _) as [[]|]; [cbn in *; congruence|exact Hk]) eq_refl).
  by destruct (loop_ret _ _ _) as [[]|].
Qed.

Lemma layouts_split : exists f0,
  loop_ret (ref_place_remote ri (ref_alloc r)) (seqZ 0 R) ref_empty_layout = inl f0 /\
  loop_ret (ref_place_groups ri (ref_alloc r)) (seqZ 0 R) f0 = inl f /\ meta_of f = meta_of f0.
Proof.
  pose proof Hlay as H. unfold RefBuildLayouts in H.
  destruct (loop_ret (ref_place_remote _ _) _ _) as [f0|e] eqn:E0.
  - exists f0. split; [done|].
    pose proof (loop_ret_inv (fun f' => meta_of f' = meta_of f0) (fun e => fst e <> PLAN_OK)
      (ref_place_groups ri (ref_alloc r)) (seqZ 0 R) f0) as HL.
    destruct (loop_ret (ref_place_groups _ _) _ _) as [f'|e].
    + injection H as ->. split; [done|]. apply HL; [|done]. intros d f' _ Hf. pose proof (groups_keep d f') as Hk.
      destruct (ref_place_groups _ _ _ _); [congruence|done].
    + exfalso. injection H as ->. apply HL; [|done..]. intros d f1 _ Hf. pose proof (groups_keep d f1) as Hk.
      destruct (ref_place_groups _ _ _ _); [congruence|done].
  - exfalso. pose proof (loop_ret_inv (fun _ => True) (fun e => from_option (fun p => fst p <> PLAN_OK) True e)
      (ref_place_remote ri (ref_alloc r)) (seqZ 0 R) ref_empty_layout) as HL. rewrite E0 in HL.
    rewrite H in HL. apply HL; [|done..]. intros d f' _ _. unfold ref_place_remote. cbv zeta. by repeat case_if.
Qed.

Lemma plan_expected : expecting R expected_all f.
Proof.
  destruct layouts_split as (f0 & E0 & _ & Hm). pose proof (ok_R _ _ Hok) as HR0. cbn in HR0.
  destruct (rows_expected f0 ltac:(lia) E0) as [X1 X2 X3 X4 X5 X6]. unfold meta_of in Hm. injection Hm as M1 M2 M3 M4.
  constructor; rewrite ?M1, ?M2, ?M3, ?M4; done.
Qed.

Lemma loop_ret_pure {A S T} (body : A -> S -> S + T) (g : S -> A -> S) l x :
  (forall a y, a ∈ l -> body a y = inl (g y a)) -> loop_ret body l x = inl (foldl g x l).
Proof.
  revert x. induction l as [|a l IH]; intros x H; [done|]. cbn. rewrite H by (by left). apply IH. intros. apply H. by right.
Qed.

Lemma metadata_pass : expected_metadata ri fitting_plan = inl expected_all /\
  check_metadata ri fitting_plan expected_all = inl tt.
Proof.
  destruct plan_expected as [X1 X2 X3 X4 X5 _]. split.
  - apply loop_ret_pure. intros d x Hd%elem_of_seqZ0. unfold expect_rank, expect_row.
    cbn [fitting_plan plan_with ro_alloc ro_expertsToCopy finalStatus vec_at]. cbv zeta.
    match goal with |- context [foldl ?g (_, ex_targets x)] => change g with (expect_slot d (ref_remote_row ri (ref_alloc r) d)) end.
    destruct (foldl _ _ _) as [stats targets]. case_bool_decide; [|done].
    rewrite checks_pass; [done|]. intros slot Hslot%elem_of_seqZ0. apply fails_not.
    destruct (X4 d Hd) as [E1 _]. rewrite (X5 d slot Hd Hslot), E1. by rewrite Z.eqb_refl.
  - unfold check_metadata. cbn [fitting_plan plan_with ro_remoteStats ro_expertTargets].
    assert (forall n a b, a = b -> vectors_differ (Vector n a) (Vector n b) = false) as Hsame.
    { intros n a b ->. unfold vectors_differ. cbn. rewrite Z.eqb_refl. cbn [negb orb].
      apply not_true_iff_false. intros (i & _ & Hi)%List.existsb_exists. by rewrite Z.eqb_refl in Hi. }
    rewrite <- experts_split, !Hsame by done. by rewrite !andb_false_r.
Qed.

(** ** Segments *)

(** Ranges that follow one another from [0] to [n]. *)
Inductive tiled : Z -> list (Z * Z) -> Prop :=
| tiled_nil : tiled 0 []
| tiled_snoc n l c : tiled n l -> 0 < c -> tiled (n + c) (l ++ [(n, c)]).

Lemma tiled_below n l p : tiled n l -> p ∈ l -> fst p + snd p <= n /\ 0 < snd p.
Proof.
  induction 1 as [|n l c Ht IH Hc]; intros Hp; [by inversion Hp|].
  apply elem_of_app in Hp as [Hp|Hp%list_elem_of_singleton]; [specialize (IH Hp); lia|subst p; cbn; lia].
Qed.

#[local] Instance pair_less_weak : StrictWeak pair_less.
Proof. split; unfold pair_less; [intros [] []|intros [] [] []]; cbn; lia. Qed.

Lemma tiled_sorted n l : tiled n l -> StronglySorted (fun x y => pair_less y x = false) l.
Proof.
  induction 1 as [|n l c Ht IH Hc]; [constructor|]. apply StronglySorted_app_2; [|done|repeat constructor].
  intros p q Hp ->%list_elem_of_singleton. pose proof (tiled_below n l p Ht Hp). unfold pair_less. destruct p. cbn in *. lia.
Qed.

Lemma tiled_contiguous n l message : tiled n l -> contiguous l message = inl tt.
Proof.
  intros Ht. unfold contiguous. rewrite (std_sort_unique pair_less l l); [|done|by apply (tiled_sorted n)|].
  - assert (loop_ret (fun range cursor => if negb (fst range =? cursor) then inr message else inl (cursor + snd range)) l 0 =
      inl n) as ->; [|done].
    induction Ht as [|n l c Ht IH Hc]; [done|]. rewrite loop_ret_app, IH. cbn. by rewrite Z.eqb_refl.
  - intros [a b] [c d] _ _. unfold pair_less. cbn. intros. f_equal; lia.
Qed.

Record collected (log : list TokenSegmentMove) (x : Ranges) : Prop := {
  co_src a e : 0 <= e < E -> segmentCount x (RE a e) = src_total log a e;
  co_dst a e : 0 <= e < E -> destinationSegmentCount x (RE a e) = dst_total log a e;
  co_from a e : 0 <= e < E -> tiled (src_total log a e) (sourceRanges x (RE a e));
  co_to a e : 0 <= e < E -> tiled (dst_total log a e) (destinationRanges x (RE a e))
}.

Lemma collect_pass log : log_ok R E log -> exists x, loop_ret (collect_segment ri) log
  {| segmentCount := fun _ => 0; destinationSegmentCount := fun _ => 0;
     sourceRanges := fun _ => []; destinationRanges := fun _ => [] |} = inl x /\ collected log x.
Proof.
  induction 1 as [|l m Hl IH Hsrc Hdst He Hc Es Ed].
  - eexists. split; [done|]. constructor; try done; constructor.
  - destruct IH as (x & Ex & [C1 C2 C3 C4]). rewrite loop_ret_app, Ex. cbn [loop_ret].
    pose proof (src_total_nonneg l (srcRank m) (expertId m) Hl). pose proof (dst_total_nonneg l (dstRank m) (expertId m) Hl).
    assert (forall a b e, 0 <= e < E -> (RE a e =? RE b (expertId m)) = (b =? a) && (expertId m =? e)) as Hcell.
    { intros a b e He'. apply eq_true_iff_eq. rewrite andb_true_iff, !Z.eqb_eq, ReIndex_inj by done. intuition. }
    unfold collect_segment. case_if; [exfalso; b2p; lia|]. cbv zeta. eexists. split; [done|].
    constructor; intros a e He'; cbn; unfold upd1; rewrite Hcell by done; rewrite ?src_total_snoc, ?dst_total_snoc.
    + destruct ((srcRank m =? a) && (expertId m =? e)) eqn:Em; [b2p; subst; rewrite C1 by done; lia|rewrite C1 by done; lia].
    + destruct ((dstRank m =? a) && (expertId m =? e)) eqn:Em; [b2p; subst; rewrite C2 by done; lia|rewrite C2 by done; lia].
    + destruct ((srcRank m =? a) && (expertId m =? e)) eqn:Em; [|rewrite Z.add_0_r; by apply C3].
      b2p. subst. rewrite Es. apply tiled_snoc; [by apply C3|done].
    + destruct ((dstRank m =? a) && (expertId m =? e)) eqn:Em; [|rewrite Z.add_0_r; by apply C4].
      b2p. subst. rewrite Ed. apply tiled_snoc; [by apply C4|done].
Qed.

Lemma segments_pass : check_segments ri fitting_plan = inl tt.
Proof.
  unfold check_segments. cbn [fitting_plan plan_with ro_segments ro_alloc vec_at]. rewrite <- (ag_log _ _ _ _ Hag).
  destruct (collect_pass _ (t_log _ _ _ (fin_tok _ _ _ Hs))) as (x & -> & [C1 C2 C3 C4]).
  apply checks_pass. intros i Hi%elem_of_seqZ0. pose proof (ok_P _ _ Hok) as HP. change (expertsPerRank inp) with P in HP.
  pose proof (ok_R _ _ Hok) as HR0. cbn in HR0. pose proof experts_split.
  destruct (split_index i R E ltac:(nia) Hi) as (a & e & -> & Ha & He). change (a * E + e) with (RE a e).
  rewrite C1, C2, (fin_src _ _ _ Hs), (fin_dst _ _ _ Hs), (ag_alloc _ _ _ _ Hag) by done.
  change (in_expertNum inp) with E. change (tokensPerExpert inp) with (vec_at (ri_tokensPerExpert ri)).
  rewrite !Z.eqb_refl. cbn [negb fails and_then]. by rewrite !(tiled_contiguous _ _ _ (C3 a e He)), !(tiled_contiguous _ _ _ (C4 a e He)).
Qed.

(** ** Cumulative lengths *)

Definition padded_group (d : Z) (row : list Z) (g : Z) : option Z :=
  let count := match ref_group_expert ri row g with Some e => ref_alloc r (RE d e) | None => 0 end in
  if count =? 0 then Some 0 else RefAlignUp count (tokenPadding (ri_config ri)).

Lemma padded_nonneg d row g p : padded_group d row g = Some p -> 0 <= p.
Proof.
  unfold padded_group. cbv zeta. case_if; [intros [= <-]; lia|]. unfold RefAlignUp.
  destruct (_ || _) eqn:E1; [done|]. b2p. case_if; [done|]. case_if; [done|]. intros [= <-].
  apply Z.mul_nonneg_nonneg; [apply Z.div_pos|]; lia.
Qed.

Definition start_of (cu : Z -> Z) (d g : Z) : Z := if g =? 0 then 0 else cu (d * G + (g - 1)).

(** The first [n] groups of [d]: each ends its padded length behind the one before. *)
Definition cu_row (cu : Z -> Z) (d : Z) (row : list Z) (n : Z) : Prop :=
  forall g, 0 <= g < n -> exists p, padded_group d row g = Some p /\ p <= window - start_of cu d g /\
    cu (d * G + g) = start_of cu d g + p.

Lemma cu_row_upd cu d row n i v : (forall g, 0 <= g < n -> d * G + g <> i) -> cu_row cu d row n -> cu_row (upd1 cu i v) d row n.
Proof.
  intros Hi H g Hg. destruct (H g Hg) as (p & H1 & H2 & H3). exists p.
  assert (start_of (upd1 cu i v) d g = start_of cu d g) as ->.
  { unfold start_of. destruct (Z.eqb_spec g 0); [done|]. apply upd1_ne, Hi. lia. }
  rewrite upd1_ne by (apply Hi; lia). done.
Qed.

Lemma place_group_cu d row g f1 p : 0 <= g < G -> cu_row (rf_cuSeqlens f1) d row g -> p = start_of (rf_cuSeqlens f1) d g ->
  match ref_place_group ri (ref_alloc r) d row g (f1, p) with
  | inl (f2, p') => cu_row (rf_cuSeqlens f2) d row (g + 1) /\ p' = start_of (rf_cuSeqlens f2) d (g + 1) /\
      (exists v, rf_cuSeqlens f2 = upd1 (rf_cuSeqlens f1) (d * G + g) v)
  | inr _ => True
  end.
Proof.
  intros Hg Hrow Hp. unfold ref_place_group.
  assert (exists base, match ref_group_expert ri row g with
    | Some e => (ref_alloc r (RE d e), upd1 (rf_base f1) (RE d e) p) | None => (0, rf_base f1) end =
    (match ref_group_expert ri row g with Some e => ref_alloc r (RE d e) | None => 0 end, base)) as [base ->]
    by (destruct (ref_group_expert ri row g); eauto).
  cbv zeta. fold (padded_group d row g). destruct (padded_group d row g) as [q|] eqn:Eq; [|done].
  destruct (Z.ltb_spec (window - p) q); [done|]. cbn [rf_cuSeqlens]. split; [|split; [|eauto]].
  - intros g' Hg'. destruct (decide (g' = g)) as [->|].
    + exists q. split; [done|]. rewrite upd1_eq.
      assert (start_of (upd1 (rf_cuSeqlens f1) (d * G + g) (p + q)) d g = p) as ->; [|lia].
      rewrite Hp. unfold start_of. destruct (Z.eqb_spec g 0); [done|]. apply upd1_ne. lia.
    + apply (cu_row_upd (rf_cuSeqlens f1) d row g); [lia|done|lia].
  - unfold start_of. rewrite (proj2 (Z.eqb_neq (g + 1) 0)) by lia. replace (g + 1 - 1) with g by lia. by rewrite upd1_eq.
Qed.

Definition cu_done (n : Z) (rows : Z -> list Z) (cu : Z -> Z) : Prop := forall d, 0 <= d < n -> cu_row cu d (rows d) G.

Lemma place_groups_cu d f1 : 0 <= d -> 0 <= G -> cu_done d (rf_remote f1) (rf_cuSeqlens f1) ->
  match ref_place_groups ri (ref_alloc r) d f1 with
  | inl f2 => cu_done (d + 1) (rf_remote f2) (rf_cuSeqlens f2)
  | inr _ => True
  end.
Proof.
  intros Hd HG H. pose proof (groups_keep d f1) as Hkeep. unfold ref_place_groups in *.
  pose proof (loop_ret_range (fun g (a : RefLayout * Z) => cu_row (rf_cuSeqlens a.1) d (rf_remote f1 d) g /\
      a.2 = start_of (rf_cuSeqlens a.1) d g /\ cu_done d (rf_remote f1) (rf_cuSeqlens a.1)) (fun _ => True)
    (ref_place_group ri (ref_alloc r) d (rf_remote f1 d)) G (f1, 0)) as HL.
  destruct (loop_ret _ _ _) as [[f2 p]|]; [|done]. unfold meta_of in Hkeep. injection Hkeep as -> _ _ _.
  destruct HL as (H1 & _ & H3); [|done|split; [intros g Hg; lia|done]|].
  - intros g [f3 p3] Hg (K1 & K2 & K3). cbn [fst snd] in *. pose proof (place_group_cu d (rf_remote f1 d) g f3 p3 Hg K1 K2) as Hs'.
    destruct (ref_place_group _ _ _ _ _ _) as [[f4 p4]|]; [|done]. destruct Hs' as (L1 & L2 & v & L3). cbn [fst snd].
    split; [done|]. split; [done|]. rewrite L3. intros d' Hd'. apply cu_row_upd; [|by apply K3].
    intros g' Hg' E1. apply mul_add_inj in E1 as [E1 _]; lia.
  - intros d' Hd'. cbn [fst] in *. destruct (decide (d' = d)) as [->|]; [done|]. apply H3. lia.
Qed.

Lemma plan_cu : cu_done R (rf_remote f) (rf_cuSeqlens f).
Proof.
  destruct layouts_split as (f0 & _ & E1 & _). pose proof (groups_positive ri rank ws Hok) as HG.
  pose proof (ok_R _ _ Hok) as HR0. cbn in HR0.
  pose proof (loop_ret_range (fun d f' => cu_done d (rf_remote f') (rf_cuSeqlens f')) (fun _ => True)
    (ref_place_groups ri (ref_alloc r)) R f0) as HL. cbv beta in HL. rewrite E1 in HL. apply HL; [|lia|intros d; lia].
  intros d f' Hd H. apply place_groups_cu; [lia|lia|done].
Qed.

Lemma layouts_pass : G <= INT32_MAX -> check_layouts ri fitting_plan expected_all = Some (inl tt).
Proof.
  intros Hgroups. unfold check_layouts. rewrite checks_pass; [done|]. intros d Hd%elem_of_seqZ0. destruct plan_expected as [X1 X2 X3 X4 X5 X6].
  unfold check_groups. cbn [fitting_plan plan_with ro_remoteStats vec_at]. rewrite X1.
  pose proof (groups_positive ri rank ws Hok) as HG. destruct (X4 d Hd) as (_ & Hlen & ->).
  rewrite (proj2 (Z.ltb_ge B _)) by done. rewrite Z.min_l, (proj2 (Z.ltb_ge _ _) Hgroups) by lia.
  pose proof (loop_ret_range (fun g p => p = start_of (rf_cuSeqlens f) d g) (fun _ => False)
    (check_group ri fitting_plan d (rf_remote f d)) G 0) as HL.
  destruct (loop_ret _ _ _); [done|]. exfalso. apply HL; [|lia|done].
  intros g p Hg ->. unfold check_group. cbn [fitting_plan plan_with ro_cuSeqlens ro_alloc finalStatus vec_at]. cbv zeta.
  fold (padded_group d (rf_remote f d) g). destruct (plan_cu d Hd g Hg) as (q & Eq & Hq & Ecu).
  pose proof (padded_nonneg d (rf_remote f d) g q Eq). rewrite Eq, Ecu.
  rewrite (proj2 (Z.ltb_ge _ (start_of _ d g))), (proj2 (Z.ltb_ge window _)), (proj2 (Z.ltb_ge _ q)), Z.eqb_refl by lia.
  cbn [orb negb]. rewrite andb_false_r. unfold start_of at 2. rewrite (proj2 (Z.eqb_neq (g + 1) 0)) by lia.
  replace (g + 1 - 1) with g by lia. lia.
Qed.
End accept.

(** ** Destinations *)

Section slots.
Context (ri : ReferenceInput) (out : ReferenceOutput) (raw : Z -> Z -> Z).
#[local] Abbreviation R := (ri_rankSize ri).
#[local] Abbreviation K := (ri_topK ri).
#[local] Abbreviation window := (nvS (ri_config ri)).
#[local] Abbreviation code src t k := (vec_at (ro_dst out) (src * ref_cap ri + (t * ri_topK ri + k))).
Context (HK : 0 <= K) (HS : 0 <= ri_s ri) (HR : 0 <= R).
Context (Hraw : forall src t k, 0 <= src < R -> 0 <= t < ri_s ri -> 0 <= k < K ->
  decode (code src t k) = raw src (t * K + k) /\ 0 <= raw src (t * K + k) < R * window /\
  (code src t k < 0 <-> exists p, 0 <= p < k /\ raw src (t * K + p) / window = raw src (t * K + k) / window)).
Context (Hinj : forall src src' n n', 0 <= src < R -> 0 <= src' < R -> 0 <= n < ri_s ri * K -> 0 <= n' < ri_s ri * K ->
  raw src n = raw src' n' -> src = src' /\ n = n').

(** The slots of the routes before route [n] of rank [src]. *)
Definition slots_before (src n : Z) (slots : gset Z) : Prop :=
  forall v, v ∈ slots -> exists src' n', 0 <= src' < R /\ 0 <= n' < ri_s ri * K /\ v = raw src' n' /\
    (src' < src \/ (src' = src /\ n' < n)).

Definition ranks_of_token (src t k : Z) (ranks : gset Z) : Prop :=
  forall d, d ∈ ranks <-> exists p, 0 <= p < k /\ raw src (t * K + p) / window = d.

Lemma route_pass src t k slots ranks : 0 <= src < R -> 0 <= t < ri_s ri -> 0 <= k < K ->
  slots_before src (t * K + k) slots -> ranks_of_token src t k ranks ->
  exists slots' ranks', check_route ri out src t k (slots, ranks, ranks) = inl (slots', ranks', ranks') /\
    slots_before src (t * K + (k + 1)) slots' /\ ranks_of_token src t (k + 1) ranks'.
Proof.
  intros Hsrc Ht Hk Hslots Hranks. destruct (Hraw src t k Hsrc Ht Hk) as (Hdec & Hrange & Hsign).
  pose proof (route_range t k _ _ Ht Hk) as Hn.
  unfold check_route. fold (decode (code src t k)). rewrite Hdec. cbv zeta. set (v := raw src (t * K + k)) in *.
  rewrite (proj2 (Z.ltb_ge v 0)), (proj2 (Z.leb_gt _ v)) by lia. cbn [orb].
  rewrite bool_decide_false; [|].
  2: { intros (src' & n' & H1 & H2 & H3 & H4)%Hslots. apply Hinj in H3 as [<- <-]; [lia|done..]. }
  assert (slots_before src (t * K + (k + 1)) ({[v]} ∪ slots)) as Hslots'.
  { intros x [->%elem_of_singleton|Hx]%elem_of_union; [exists src, (t * K + k); lia|].
    destruct (Hslots x Hx) as (src' & n' & ? & ? & ? & ?). exists src', n'. lia. }
  assert (ranks_of_token src t (k + 1) ({[v / window]} ∪ ranks)) as Hranks'.
  { intros d. rewrite elem_of_union, elem_of_singleton, (Hranks d). split.
    - intros [->|(p & ? & ?)]; [exists k; split; [lia|done]|exists p; split; [lia|done]].
    - intros (p & Hp & Ep). destruct (decide (p = k)) as [->|]; [by left|right; exists p; split; [lia|done]]. }
  assert (v / window ∈ ranks <-> code src t k < 0) as Hseen by (by rewrite Hsign, (Hranks (v / window))).
  destruct (Z.leb_spec 0 (code src t k)) as [Hpos|Hneg].
  - rewrite bool_decide_false by (rewrite Hseen; lia). rewrite (proj2 (Z.ltb_ge _ 0)) by lia. cbn. eauto.
  - rewrite bool_decide_true by (by apply Hseen). cbn. 
    assert ({[v / window]} ∪ ranks = ranks) as E1 by (apply subseteq_union_1_L, singleton_subseteq_l, Hseen; lia).
    exists ({[v]} ∪ slots), ranks. rewrite E1 in Hranks' |- *. done.
Qed.

Lemma destinations_pass : check_destinations ri out = inl tt.
Proof.
  assert (forall src t slots, 0 <= src < R -> 0 <= t < ri_s ri -> slots_before src (t * K) slots ->
    match check_token ri out src t slots with inl slots' => slots_before src ((t + 1) * K) slots' | inr _ => False end) as Htoken.
  { intros src t slots Hsrc Ht Hslots. unfold check_token.
    pose proof (loop_ret_range (fun k (acc : gset Z * gset Z * gset Z) => slots_before src (t * K + k) (fst (fst acc)) /\
        snd (fst acc) = snd acc /\ ranks_of_token src t k (snd acc)) (fun _ => False)
      (check_route ri out src t) K (slots, ∅, ∅)) as HL.
    specialize (HL ltac:(intros k [[sl pos] seen] Hk (H1 & H2 & H3); cbn [fst snd] in *; subst pos;
      destruct (route_pass src t k sl seen Hsrc Ht Hk H1 H3) as (sl' & seen' & -> & H4 & H5); done) HK).
    specialize (HL ltac:(cbn [fst snd]; rewrite Z.add_0_r; split; [done|]; split; [done|];
      intros d; split; [by intros ?%elem_of_empty|intros (p & ? & _); lia])).
    destruct (loop_ret _ _ _) as [[[slots' pos] seen]|]; [|done]. cbn [fst snd] in HL. destruct HL as (H1 & -> & _).
    rewrite bool_decide_true by done. by replace ((t + 1) * K) with (t * K + K) by lia. }
  unfold check_destinations.
  pose proof (loop_ret_range (fun src slots => slots_before src 0 slots) (fun _ => False)
    (fun src slots => loop_ret (check_token ri out src) (seqZ 0 (ri_s ri)) slots) R ∅) as HL. cbv beta in HL.
  destruct (loop_ret _ _ _); [done|]. exfalso. apply HL; [|done|by intros v ?%elem_of_empty].
  intros src slots Hsrc Hslots.
  pose proof (loop_ret_range (fun t sl => slots_before src (t * K) sl) (fun _ => False)
    (check_token ri out src) (ri_s ri) slots (fun t sl Ht => Htoken src t sl Hsrc Ht) HS Hslots) as HT. cbv beta in HT.
  destruct (loop_ret _ _ _) as [sl|]; [|done]. intros v Hv. destruct (HT v Hv) as (src' & n' & ? & ? & ? & ?).
  exists src', n'. lia.
Qed.
End slots.

(** ** The whole check *)

(** Room for everything. *)
Definition full_workspace (ri : ReferenceInput) : PlanAlgorithmWorkspace :=
  {| mandatoryPointers := true; hasRemoteExperts := true; hasExpertTargets := true;
     hasRemoteExpertSet := true; hasRoutedPairTokens := true; tokenSegmentCapacity := ref_cap ri;
     scratchCount := ri_rankSize ri * 16; affinityCache := None |}.

Lemma full_workspace_ok ri : workspace_ok ri (full_workspace ri).
Proof. constructor; cbn; done || lia. Qed.

Section whole.
Context (ri : ReferenceInput).
#[local] Abbreviation R := (ri_rankSize ri).
#[local] Abbreviation rin rank := (rank_input ri rank).
#[local] Abbreviation ws := (full_workspace ri).
Context (Hval : ValidateInput ri = PLAN_OK) (HR : R <= 128) (HE : ri_expertNum ri <= INT32_MAX).
Context (Hslots : (R - 1) * ref_prefetchSlots ri <= INT32_MAX).
Context (r : PlannerState) (intra inter : Z).
Context (Hranks : forall rank, 0 <= rank < R -> exists s,
  Balance (rin rank) ws (round_fuel (rin rank)) = Some s /\ settled (rin rank) ws s /\
  agrees ri rank s r /\ intraRounds s = intra /\ interRounds s = inter).
Context (f : RefLayout) (Hlay : RefBuildLayouts ri r = Some (PLAN_OK, f)).

#[local] Abbreviation whole_raw rank route := (match Balance (rin rank) ws (round_fuel (rin rank)) with
  | Some s => raw_of (rin rank) s (rf_base f) route | None => 0 end).

Lemma rank_ok rank : 0 <= rank < R -> plan_ok (rin rank) ws.
Proof. intros Hr. apply validate_ok, (rank_valid ri (fun _ => ws) Hval HR HE); [|done]. intros. apply full_workspace_ok. Qed.

(** The windows of the layouts are sound in the state of every rank. *)
Lemma rank_windows rank s : 0 <= rank < R -> settled (rin rank) ws s -> agrees ri rank s r ->
  forall d, 0 <= d < R -> window_ok (rin rank) s (rf_base f) d.
Proof.
  intros Hr Hs Hag. pose proof (rank_ok rank Hr) as Hok.
  destruct (build_layouts_ref ri rank ws Hok eq_refl s Hs Hslots r (eq_sym (ag_alloc _ _ _ _ Hag))) as (f' & E1 & Hsim).
  pose proof (build_layouts_spec (rin rank) ws Hok s Hs) as Hspec. rewrite Hlay in E1. injection E1 as E1 <-.
  destruct (BuildLayouts (rin rank) ws s) as [st l]. cbn [fst snd] in *. subst st.
  destruct Hspec as [(_ & _ & Hw & _)|]; [|done]. by rewrite (ls_base _ _ _ _ _ Hsim) in Hw.
Qed.

Lemma destinations_accepted dst st : RefBuildDst ri r (rf_base f) = (PLAN_OK, dst) ->
  check_destinations ri (plan_with ri r f intra inter st (Vector (R * ref_cap ri) dst)) = inl tt.
Proof.
  intros Edst. pose proof (ranks_positive ri Hval) as Hpos.
  pose proof (rank_ok 0 ltac:(lia)) as Hok0. pose proof (ok_topK _ _ Hok0) as HK. pose proof (ok_s _ _ Hok0) as HS. cbn in HK, HS.
  pose proof (ok_cap _ _ Hok0) as Hcap. change (cap_ (rin 0)) with (ref_cap ri) in Hcap. cbn in Hcap.
  pose proof (destinations ri (fun _ => ws) Hval HR HE Hslots (fun _ _ => full_workspace_ok ri) r intra inter Hranks f Hlay) as Hd.
  destruct Hd as (dst' & Edst' & Hcode).
  rewrite Edst in Edst'. injection Edst' as <-.
  apply (destinations_pass ri _ (fun rank route => whole_raw rank route)); try lia.
  - intros src t k Hsrc Ht Hk. cbn [plan_with ro_dst vec_at].
    destruct (Hranks src Hsrc) as (s & Es & Hs & Hag & _). rewrite (Hcode src s t k Hsrc Ht Hk Es), Es.
    pose proof (rank_ok src Hsrc) as Hok. pose proof (rank_windows src s Hsrc Hs Hag) as Hw.
    assert (0 <= t * ri_topK ri + k < cap_ (rin src)) as Hn
      by (change (cap_ (rin src)) with (ref_cap ri); rewrite Hcap; by apply route_range).
    split; [by apply (decode_encoded (rin src) ws Hok s Hs (rf_base f) Hw)|]. split.
    + destruct (raw_range (rin src) ws Hok s Hs (rf_base f) Hw _ Hn) as [H1 H2].
      change (in_config (rin src)) with (ri_config ri) in H2. change (in_rankSize (rin src)) with R in H2.
      pose proof (ok_nvS _ _ Hok) as Hnv. change (in_config (rin src)) with (ri_config ri) in Hnv.
      split; [lia|]. destruct (Z.lt_ge_cases (raw_of (rin src) s (rf_base f) (t * ri_topK ri + k)) (R * nvS (ri_config ri))) as [|Hge]; [done|].
      apply (Z.div_le_mono _ _ (nvS (ri_config ri))) in Hge; [|lia]. rewrite Z.div_mul in Hge by lia. lia.
    + by apply (encoded_sign (rin src) ws Hok s Hs (rf_base f) Hw).
  - intros src src' n n' Hsrc Hsrc' Hn Hn'. rewrite <- Hcap in Hn, Hn'.
    destruct (Hranks src Hsrc) as (s & Es & Hs & Hag & _). destruct (Hranks src' Hsrc') as (s' & Es' & Hs' & Hag' & _).
    rewrite Es, Es'. intros Heq. destruct (decide (src = src')) as [<-|Hne].
    + split; [done|]. rewrite Es in Es'. injection Es' as <-.
      by apply (raw_inj (rin src) ws (rank_ok src Hsrc) s Hs (rf_base f) (rank_windows src s Hsrc Hs Hag)).
    + exfalso. revert Heq. apply (raw_apart (rin src) ws (rank_ok src Hsrc) s Hs (rf_base f) (rank_windows src s Hsrc Hs Hag)
        (rin src') ws (rank_ok src' Hsrc') s' Hs' (rf_base f)); try done.
      by rewrite (ag_log _ _ _ _ Hag), (ag_log _ _ _ _ Hag').
Qed.
End whole.

(** C23: the checker of the reference planner accepts its plans. On every accepted input with at most
    128 ranks and 32-bit ids, whose index products [rankSize * expertNum] and
    [(rankSize - 1) * prefetchSlots] and whose group count [expertNum + prefetchSlots] fit an
    [int32_t], neither of the two overflows: the reference planner returns a plan, and
    [CheckReferencePlanInvariants] passes on it whenever the layouts fit the window, so that there
    are destinations: for complete plans, and for partial ones too. When they do not fit the
    destinations are empty and the checker reports the shape. *)
Theorem reference_plan_accepted ri : ValidateInput ri = PLAN_OK -> ri_rankSize ri <= 128 ->
  ri_rankSize ri * ri_expertNum ri <= INT32_MAX ->
  (ri_rankSize ri - 1) * ref_prefetchSlots ri <= INT32_MAX ->
  ref_groupCount ri <= INT32_MAX ->
  (forall r, 0 <= r < ri_rankSize ri -> vec_at (ri_globalRankIds ri) r <= INT32_MAX) ->
  exists st out, BuildReferencePlan ri = Some (st, out) /\
    (st = PLAN_OK -> vec_size (ro_dst out) = ri_rankSize ri * ref_cap ri) /\
    CheckReferencePlanInvariants ri out =
      Some (if vec_size (ro_dst out) =? 0 then inr "output shape mismatch"%string else inl tt).
Proof.
  intros Hval HR Hcells Hslots Hgroups Hint. pose proof (experts_fit ri Hval Hcells) as HE.
  destruct (states_agree ri (fun _ => full_workspace ri) Hval HR HE Hint (fun _ _ => full_workspace_ok ri))
    as (r & intra & inter & Eb & Hranks).
  pose proof (ranks_positive ri Hval) as Hpos. pose proof (rank_ok ri Hval HR HE 0 ltac:(lia)) as Hok.
  destruct (Hranks 0 ltac:(lia)) as (s & Es & Hs & Hag & _).
  pose proof (ok_cap _ _ Hok) as Hcap. pose proof (ok_s _ _ Hok) as HS. pose proof (ok_topK _ _ Hok) as HK.
  change (cap_ (rank_input ri 0)) with (ref_cap ri) in Hcap. cbn in Hcap, HS, HK.
  assert (0 < ri_rankSize ri * ref_cap ri) as Hsize by (apply Z.mul_pos_pos; nia).
  unfold BuildReferencePlan. rewrite Hval, (proj2 (Z.ltb_ge _ _) Hcells), Eb, bool_decide_true by done. cbn [negb mbind option_bind].
  destruct (layouts_agree ri (fun _ => full_workspace ri) Hval HR HE Hslots (fun _ _ => full_workspace_ok ri) r intra inter Hranks)
    as (ls & f & Elay & _).
  unfold ref_finish, CheckReferencePlanInvariants. rewrite Hval, (proj2 (Z.ltb_ge _ _) Hcells), Elay, bool_decide_true by done.
  cbn [negb fails and_then_defined mbind option_bind]. case_bool_decide as Hls.
  - subst ls. destruct (destinations ri (fun _ => full_workspace ri) Hval HR HE Hslots (fun _ _ => full_workspace_ok ri) r intra inter Hranks f Elay)
      as (dst & Ed & _). rewrite Ed. cbv zeta.
    fold (plan_status ri r). do 2 eexists. split; [done|].
    change {| finalStatus := _ |} with (fitting_plan ri r f dst intra inter). split; [done|].
    change (vec_size (ro_dst (fitting_plan ri r f dst intra inter))) with (ri_rankSize ri * ref_cap ri).
    rewrite (proj2 (Z.eqb_neq _ 0)) by lia.
    unfold fitting_plan at 1 2. rewrite (shapes_checked ri 0 (full_workspace ri) Hok r f intra inter),
      (table_shapes_checked ri 0 (full_workspace ri) Hok r f intra inter). cbn [vec_size].
    rewrite Z.eqb_refl. cbn [negb fails and_then_defined].
    rewrite (conservation_pass ri 0 (full_workspace ri) s Hs r Hag f dst intra inter),
      (loads_pass ri 0 (full_workspace ri) s Hs r Hag f dst intra inter). cbn [and_then_defined].
    destruct (metadata_pass ri 0 (full_workspace ri) Hok r f Elay dst intra inter) as [-> ->]. cbn [and_then_defined].
    rewrite (segments_pass ri 0 (full_workspace ri) Hok s Hs r Hag f dst intra inter),
      (layouts_pass ri 0 (full_workspace ri) Hok r f Elay dst intra inter Hgroups). cbn [and_then_defined mbind option_bind]. f_equal.
    by apply (destinations_accepted ri Hval HR HE Hslots r intra inter Hranks f Elay).
  - do 2 eexists. split; [done|]. split.
    + destruct (ref_balanced ri r) eqn:Ebal; [done|]. unfold ref_balance_status. rewrite Ebal. by repeat case_if.
    + cbn [ro_dst no_elements vec_size]. rewrite Z.eqb_refl.
      match goal with |- context [check_shapes ri ?o] =>
        change o with (plan_with ri r f intra inter (finalStatus o) no_elements) end.
      rewrite (shapes_checked ri 0 (full_workspace ri) Hok r f intra inter),
        (table_shapes_checked ri 0 (full_workspace ri) Hok r f intra inter). cbn [vec_size no_elements].
      by rewrite (proj2 (Z.eqb_neq 0 _)) by lia.
Qed.

Lemma reference_plan_accepted_witness : exists st out, BuildReferencePlan small_reference = Some (st, out) /\
  (st = PLAN_OK -> vec_size (ro_dst out) = 16) /\
  CheckReferencePlanInvariants small_reference out =
    Some (if vec_size (ro_dst out) =? 0 then inr "output shape mismatch"%string else inl tt).
Proof.
  apply (reference_plan_accepted small_reference).
  - vm_compute. reflexivity.
  - cbn. lia.
  - unfold INT32_MAX. cbn. lia.
  - unfold INT32_MAX. cbn. lia.
  - unfold INT32_MAX, ref_groupCount. cbn. lia.
  - unfold INT32_MAX. cbn. intros. lia.
Defined.
