(* ===== verification/UdmaTypes.v ===== *)
(** The data of the device-side UDMA wrapper (src/src/include/tilexr_udma_types.h and
    tilexr_udma_reg.h): sizes, queue contexts, work entries, the registries of memory regions and
    the checks of ranges in them. A pointer is its address, [0] when it is null; an optional
    argument stands for a pointer to a record. *)
From S2P Require Import Prelude CombineWire.

(** ** Constants *)

Definition TILEXR_UDMA_CQ_DEPTH : Z := 16384.
Definition TILEXR_UDMA_SQ_DEPTH : Z := 4096.
Definition TILEXR_UDMA_MAX_SQE_BB_NUM : Z := 4.
Definition TILEXR_UDMA_SQ_BB_COUNT : Z := TILEXR_UDMA_SQ_DEPTH * TILEXR_UDMA_MAX_SQE_BB_NUM.
Definition TILEXR_UDMA_MAX_RETRY_TIMES : Z := 1000000.

Definition TILEXR_UDMA_REGISTRY_MAGIC : Z := 0x54585255.
Definition TILEXR_UDMA_REGISTRY_VERSION : Z := 1.
Definition TILEXR_UDMA_MAX_REGIONS : Z := 1.
Definition TILEXR_UDMA_PROFILE_MAGIC : Z := 0x54585052.
Definition TILEXR_UDMA_PROFILE_VERSION : Z := 2.
Definition TILEXR_UDMA_PROFILE_MAX_REGIONS : Z := 8.
Definition TILEXR_UDMA_PROFILE_MAX_QP_BINDINGS : Z := 48.

Definition TILEXR_UDMA_STATUS_SUCCESS : Z := 0.
Definition TILEXR_UDMA_STATUS_CQ_TIMEOUT : Z := 0xFF.
Definition TILEXR_UDMA_STATUS_SQ_FULL : Z := 0xFFFFFFFE.
Definition TILEXR_UDMA_STATUS_INVALID : Z := 0xFFFFFFFF.

(** ** Queues *)

Inductive UDMAOpcode : Set := WRITE | WRITE_WITH_NOTIFY | READ.

Definition opcode_value (opcode : UDMAOpcode) : Z :=
  match opcode with WRITE => 3 | WRITE_WITH_NOTIFY => 5 | READ => 6 end.

Record UDMAMemInfo := {
  tokenValueValid : bool; mi_rmtJettyType : Z; mi_targetHint : Z; mi_tpn : Z; mi_tid : Z;
  mi_rmtTokenValue : Z; eidAddr : Z
}.

Record UDMAWQCtx := {
  wq_bufAddr : Z; wq_baseBkShift : Z; wq_depth : Z; wq_headAddr : Z; wq_tailAddr : Z; wq_dbAddr : Z;
  wq_localTokenId : Z; wqeCntAddr : Z
}.

Record UDMACQCtx := {
  cq_bufAddr : Z; cq_baseBkShift : Z; cq_depth : Z; cq_tailAddr : Z; cq_dbAddr : Z
}.

(** The tables [sqPtr], [scqPtr] and [memPtr] point to, by the index of the entry. *)
Record UDMAInfo := {
  qpNum : Z; sqPtr : Z; scqPtr : Z; memPtr : Z;
  wq_entries : Z -> UDMAWQCtx; cq_entries : Z -> UDMACQCtx; mem_entries : Z -> UDMAMemInfo
}.

Definition sizeof_UDMASqeCtx : Z := 48.
Definition sizeof_UDMASgeCtx : Z := 16.
Definition sizeof_UDMANotifyCtx : Z := 32.
Definition sizeof_UDMACqeCtx : Z := 64.

(** ** Registries *)

Record TileXRUDMARegionDesc := { rd_base : Z; rd_bytes : Z }.

Record TileXRUDMARegistry := {
  rg_magic : Z; rg_version : Z; rg_rankSize : Z; rg_regionCount : Z; rg_regions : Z -> TileXRUDMARegionDesc
}.

Record TileXRUDMAProfileRegionDesc := {
  pd_base : Z; pd_bytes : Z; registrationBase : Z; registrationBytes : Z
}.

Record TileXRUDMAProfileQpBinding := { localRegion : Z; remoteRegion : Z }.

Record TileXRUDMAProfileDesc := {
  ds_version : Z; ds_regionCount : Z; qpBindingCount : Z; ds_regions : Z -> TileXRUDMAProfileRegionDesc;
  ds_qpBindings : Z -> TileXRUDMAProfileQpBinding
}.

Record TileXRUDMAProfileRegistry := {
  pr_magic : Z; pr_version : Z; pr_rankSize : Z; pr_regionCount : Z; pr_qpCount : Z;
  qpBindings : Z -> TileXRUDMAProfileQpBinding; pr_regions : Z -> TileXRUDMAProfileRegionDesc
}.

Definition UDMAProfileRegionValid (region : TileXRUDMAProfileRegionDesc) : bool :=
  let base := pd_base region in
  let rbase := registrationBase region in
  if (base =? 0) || (pd_bytes region =? 0) then false
  else if UINT64_MAX - base <? pd_bytes region then false
  else if (rbase =? 0) && (registrationBytes region =? 0) then true
  else if (rbase =? 0) || (registrationBytes region =? 0) then false
  else if (UINT64_MAX - rbase <? registrationBytes region) || (base <? rbase) then false
  else
    let offset := base - rbase in
    (offset <=? registrationBytes region) && (pd_bytes region <=? registrationBytes region - offset).

Definition UDMAProfileRegistrationBase (region : TileXRUDMAProfileRegionDesc) : Z :=
  if registrationBase region =? 0 then pd_base region else registrationBase region.

Definition UDMAProfileRegistrationBytes (region : TileXRUDMAProfileRegionDesc) : Z :=
  if registrationBase region =? 0 then pd_bytes region else registrationBytes region.

Definition bindings_valid (bindings : Z -> TileXRUDMAProfileQpBinding) (count regionCount : Z) : bool :=
  forallb (fun qp => negb ((regionCount <=? localRegion (bindings qp)) || (regionCount <=? remoteRegion (bindings qp))))
    (seqZ 0 count).

Definition UDMAProfileDescValid (desc : option TileXRUDMAProfileDesc) (expectedQpCount : Z) : bool :=
  match desc with
  | None => false
  | Some d =>
      if negb (ds_version d =? TILEXR_UDMA_PROFILE_VERSION) || (ds_regionCount d =? 0) ||
         (TILEXR_UDMA_PROFILE_MAX_REGIONS <? ds_regionCount d) || (expectedQpCount =? 0) ||
         (TILEXR_UDMA_PROFILE_MAX_QP_BINDINGS <? expectedQpCount) || negb (qpBindingCount d =? expectedQpCount)
      then false
      else if negb (forallb (fun region => UDMAProfileRegionValid (ds_regions d region)) (seqZ 0 (ds_regionCount d)))
      then false
      else bindings_valid (ds_qpBindings d) (qpBindingCount d) (ds_regionCount d)
  end.

Definition UDMAProfileContractsEqual (lhs rhs : TileXRUDMAProfileDesc) : bool :=
  if negb (ds_version lhs =? ds_version rhs) || negb (ds_regionCount lhs =? ds_regionCount rhs) ||
     negb (qpBindingCount lhs =? qpBindingCount rhs)
  then false
  else forallb (fun qp =>
      negb (negb (localRegion (ds_qpBindings lhs qp) =? localRegion (ds_qpBindings rhs qp)) ||
            negb (remoteRegion (ds_qpBindings lhs qp) =? remoteRegion (ds_qpBindings rhs qp))))
    (seqZ 0 (qpBindingCount lhs)).

Definition UDMAProfileRegistryValid (registry : option TileXRUDMAProfileRegistry)
    (expectedRankSize expectedRegionCount expectedQpCount : Z) : bool :=
  match registry with
  | None => false
  | Some r =>
      if negb (pr_magic r =? TILEXR_UDMA_PROFILE_MAGIC) || negb (pr_version r =? TILEXR_UDMA_PROFILE_VERSION) ||
         (expectedRankSize <=? 0) || (TILEXR_MAX_RANK_SIZE <? expectedRankSize) ||
         negb (pr_rankSize r =? u32 expectedRankSize) || (expectedRegionCount =? 0) ||
         (TILEXR_UDMA_PROFILE_MAX_REGIONS <? expectedRegionCount) || negb (pr_regionCount r =? expectedRegionCount) ||
         (pr_qpCount r =? 0) || (TILEXR_UDMA_PROFILE_MAX_QP_BINDINGS <? pr_qpCount r) ||
         (negb (expectedQpCount =? 0) && negb (pr_qpCount r =? expectedQpCount))
      then false
      else bindings_valid (qpBindings r) (pr_qpCount r) (pr_regionCount r)
  end.

Definition UDMAProfileRegion (registry : option TileXRUDMAProfileRegistry) (rank region : Z)
    : option TileXRUDMAProfileRegionDesc :=
  match registry with
  | None => None
  | Some r =>
      if (rank <? 0) || (pr_rankSize r <=? u32 rank) || (pr_regionCount r <=? region) ||
         (TILEXR_MAX_RANK_SIZE <? pr_rankSize r) || (TILEXR_UDMA_PROFILE_MAX_REGIONS <? pr_regionCount r)
      then None
      else Some (pr_regions r (rank * TILEXR_UDMA_PROFILE_MAX_REGIONS + region))
  end.

Definition UDMAProfileRegionContains (registry : option TileXRUDMAProfileRegistry)
    (rank region byteOffset byteCount : Z) : bool :=
  match UDMAProfileRegion registry rank region with
  | None => false
  | Some desc =>
      if negb (UDMAProfileRegionValid desc) || (pd_bytes desc <? byteOffset) then false
      else byteCount <=? pd_bytes desc - byteOffset
  end.

Definition UDMAProfileRemoteAddr (registry : option TileXRUDMAProfileRegistry) (rank region byteOffset : Z) : Z :=
  match UDMAProfileRegion registry rank region with
  | None => 0
  | Some desc => if pd_bytes desc <? byteOffset then 0 else u64 (pd_base desc + byteOffset)
  end.

Definition UDMARegistryValid (registry : option TileXRUDMARegistry) (expectedRankSize : Z) : bool :=
  match registry with
  | None => false
  | Some r =>
      (rg_magic r =? TILEXR_UDMA_REGISTRY_MAGIC) && (rg_version r =? TILEXR_UDMA_REGISTRY_VERSION) &&
      (0 <=? expectedRankSize) && (rg_rankSize r =? u32 expectedRankSize) &&
      (rg_rankSize r <=? TILEXR_MAX_RANK_SIZE) && (0 <? rg_regionCount r) &&
      (rg_regionCount r <=? TILEXR_UDMA_MAX_REGIONS)
  end.

(** The 32-bit value as an [int]. *)
Definition as_int (x : Z) : Z := if x <? 2147483648 then x else x - 4294967296.

Definition UDMARegionContains (registry : option TileXRUDMARegistry) (rank byteOffset byteCount : Z) : bool :=
  if negb (UDMARegistryValid registry (match registry with None => 0 | Some r => as_int (rg_rankSize r) end)) then false
  else match registry with
    | None => false
    | Some r =>
        if (rank <? 0) || (rg_rankSize r <=? u32 rank) then false
        else if (rd_base (rg_regions r rank) =? 0) || (rd_bytes (rg_regions r rank) <? byteOffset) then false
        else byteCount <=? rd_bytes (rg_regions r rank) - byteOffset
    end.

Definition UDMARemoteAddr (registry : option TileXRUDMARegistry) (rank byteOffset : Z) : Z :=
  match registry with
  | None => 0
  | Some r => if (rank <? 0) || (rg_rankSize r <=? u32 rank) then 0
              else u64 (rd_base (rg_regions r rank) + byteOffset)
  end.
