(* ===== verification/UdmaQueue.v ===== *)
(** The device-side UDMA wrapper (src/src/include/tilexr_udma.h): checks, the encoding of work
    entries, the post of an entry to a send queue and the polls of a completion queue. Memory is a
    function from the addresses of 32-bit words; the words the device itself writes into the
    completion queues are a function of time as well, and every look at an owner bit takes one
    unit of it. The order of the stores of one core and the cache maintenance are not modelled. *)
From S2P Require Import Prelude CombineWire UdmaTypes.

Definition TILEXR_UDMA_SQE_FLAG_COMPLETION : Z := 0x20.
Definition TILEXR_UDMA_SQE_FLAG_STRONG_ORDER : Z := 0x02.
Definition TILEXR_UDMA_SQE_FLAG_ORDERED_COMPLETION : Z :=
  Z.lor TILEXR_UDMA_SQE_FLAG_COMPLETION TILEXR_UDMA_SQE_FLAG_STRONG_ORDER.
Definition TILEXR_UDMA_WQE_BB_BYTES : Z := 64.
Definition TILEXR_UDMA_WQE_SCRATCH_BYTES : Z := 2 * TILEXR_UDMA_WQE_BB_BYTES.
Definition TILEXR_UDMA_WQE_SCRATCH_ALIGNMENT : Z := 32.
Definition TILEXR_UDMA_DEVICE_MAX_QP_COUNT : Z := 48.
Definition ExtraFlag_UDMA : Z := Z.shiftl 1 10.

Record CommArgs := {
  ca_rank : Z; ca_rankSize : Z; extraFlag : Z; udmaInfoPtr : option UDMAInfo;
  udmaRegistryPtr : option TileXRUDMARegistry
}.

Record UDMASignalParams := { sigAddr : Z; signal : Z }.

(** The scratch tensor of a core: its address and its size. *)
Record Scratch := { scratchAddr : Z; scratchSize : Z }.

(** ** Checks *)

Definition UDMAEnabled (args : option CommArgs) : bool :=
  match args with
  | None => false
  | Some a => negb (Z.land (extraFlag a) ExtraFlag_UDMA =? 0) && bool_decide (is_Some (udmaInfoPtr a))
  end.

Definition UDMARegistryEnabled (args : option CommArgs) : bool :=
  UDMAEnabled args && match args with Some a => bool_decide (is_Some (udmaRegistryPtr a)) | None => false end.

Definition UDMAQpCount (args : option CommArgs) : Z :=
  if negb (UDMAEnabled args) then 0
  else match args with
    | Some {| udmaInfoPtr := Some info |} =>
        if (0 <? qpNum info) && (qpNum info <=? TILEXR_UDMA_DEVICE_MAX_QP_COUNT) then qpNum info else 0
    | _ => 0
    end.

Definition UDMAQpValid (args : option CommArgs) (qpIdx : Z) : bool := qpIdx <? UDMAQpCount args.

Definition UDMARankValid (args : option CommArgs) (peer : Z) : bool :=
  match args with
  | None => false
  | Some a => (0 <? ca_rankSize a) && (ca_rankSize a <=? TILEXR_MAX_RANK_SIZE) && (0 <=? peer) &&
              (peer <? ca_rankSize a) && negb (peer =? ca_rank a)
  end.

Definition UDMAQueueOperationValid (args : option CommArgs) (peer qpIdx : Z) : bool :=
  if negb (UDMARankValid args peer) then false else UDMAQpValid args qpIdx.

Definition UDMAProfileRegistryValidDevice (args : option CommArgs) (info : option UDMAInfo)
    (registry : option TileXRUDMAProfileRegistry) : bool :=
  match args, info, registry with
  | Some a, Some i, Some r =>
      negb ((Z.land (extraFlag a) ExtraFlag_UDMA =? 0) || negb (pr_magic r =? TILEXR_UDMA_PROFILE_MAGIC) ||
            negb (pr_version r =? TILEXR_UDMA_PROFILE_VERSION) || (ca_rankSize a <=? 0) ||
            (TILEXR_MAX_RANK_SIZE <? ca_rankSize a) || (ca_rank a <? 0) || (ca_rankSize a <=? ca_rank a) ||
            negb (pr_rankSize r =? u32 (ca_rankSize a)) || (pr_regionCount r =? 0) ||
            (TILEXR_UDMA_PROFILE_MAX_REGIONS <? pr_regionCount r) || (pr_qpCount r =? 0) ||
            (TILEXR_UDMA_DEVICE_MAX_QP_COUNT <? pr_qpCount r) || negb (qpNum i =? pr_qpCount r) ||
            (sqPtr i =? 0) || (memPtr i =? 0))
  | _, _, _ => false
  end.

Definition UDMAProfileGetRegion (registry : option TileXRUDMAProfileRegistry) (rank region : Z)
    : option TileXRUDMAProfileRegionDesc :=
  match registry with
  | None => None
  | Some r =>
      if (rank <? 0) || (pr_rankSize r <=? u32 rank) || (pr_regionCount r <=? region) ||
         (TILEXR_MAX_RANK_SIZE <? pr_rankSize r) || (TILEXR_UDMA_PROFILE_MAX_REGIONS <? pr_regionCount r)
      then None
      else Some (pr_regions r (rank * TILEXR_UDMA_PROFILE_MAX_REGIONS + region)%u64)
  end.

Definition UDMAProfileRegisteredRangeValid (registry : option TileXRUDMAProfileRegistry)
    (rank region byteOffset byteCount : Z) : bool :=
  match UDMAProfileGetRegion registry rank region with
  | None => false
  | Some desc =>
      if (pd_base desc =? 0) || (pd_bytes desc =? 0) || (pd_bytes desc <? byteOffset) then false
      else byteCount <=? pd_bytes desc - byteOffset
  end.

Definition UDMAProfileRegisteredAddr (registry : option TileXRUDMAProfileRegistry) (rank region byteOffset : Z) : Z :=
  match UDMAProfileGetRegion registry rank region with
  | None => 0
  | Some desc => if (pd_base desc =? 0) || (pd_bytes desc <? byteOffset) then 0 else u64 (pd_base desc + byteOffset)
  end.

Definition UDMARegisteredRangeValid (registry : option TileXRUDMARegistry) (targetRank byteOffset byteCount : Z) : bool :=
  match registry with
  | None => false
  | Some r =>
      if negb (rg_magic r =? TILEXR_UDMA_REGISTRY_MAGIC) || negb (rg_version r =? TILEXR_UDMA_REGISTRY_VERSION) ||
         (rg_regionCount r =? 0) || (TILEXR_UDMA_MAX_REGIONS <? rg_regionCount r) || (rg_rankSize r =? 0) ||
         (TILEXR_MAX_RANK_SIZE <? rg_rankSize r) || (targetRank <? 0) || (rg_rankSize r <=? u32 targetRank)
      then false
      else if (rd_base (rg_regions r targetRank) =? 0) || (rd_bytes (rg_regions r targetRank) <? byteOffset) then false
      else byteCount <=? rd_bytes (rg_regions r targetRank) - byteOffset
  end.

Definition UDMARegisteredRemoteAddr (registry : TileXRUDMARegistry) (targetRank byteOffset : Z) : Z :=
  u64 (rd_base (rg_regions registry targetRank) + byteOffset).

(** ** Contexts *)

(** The entry of a queue pair in the tables, or [None]. *)
Definition qp_entry (info : option UDMAInfo) (pe qpIdx : Z) : option (UDMAInfo * Z) :=
  match info with
  | None => None
  | Some i => if (qpNum i =? 0) || (TILEXR_UDMA_DEVICE_MAX_QP_COUNT <? qpNum i) || (qpNum i <=? qpIdx) then None
              else Some (i, (pe * qpNum i + qpIdx)%u64)
  end.

Definition UDMAGetWQCtx (info : option UDMAInfo) (pe qpIdx : Z) : option UDMAWQCtx :=
  '(i, entry) ← qp_entry info pe qpIdx; Some (wq_entries i entry).

Definition UDMAGetSCQCtx (info : option UDMAInfo) (pe qpIdx : Z) : option UDMACQCtx :=
  '(i, entry) ← qp_entry info pe qpIdx; Some (cq_entries i entry).

Definition UDMAGetRemoteMemInfo (info : option UDMAInfo) (pe qpIdx : Z) : option UDMAMemInfo :=
  '(i, entry) ← qp_entry info pe qpIdx; Some (mem_entries i entry).

Definition UDMAWqeBBCnt (opcode : UDMAOpcode) : Z := match opcode with WRITE_WITH_NOTIFY => 2 | _ => 1 end.

(** ** Memory *)

Definition Mem : Type := Z -> Z.

Definition ld_dev (m : Mem) (addr : Z) : Z := m addr.
Definition st_dev (m : Mem) (value addr : Z) : Mem := upd1 m addr (u32 value).

(** Consecutive words from an address. *)
Fixpoint store_words (m : Mem) (addr : Z) (words : list Z) : Mem :=
  match words with
  | [] => m
  | w :: rest => store_words (upd1 m addr w) (addr + 4) rest
  end.

(** ** Polls *)

(** The fields of a completion entry in its first two words. *)
Definition cqe_owner (word0 : Z) : Z := Z.land (Z.shiftr word0 2) 1.
Definition cqe_substatus (word0 : Z) : Z := Z.land (Z.shiftr word0 16) 0xFF.
Definition cqe_status (word0 : Z) : Z := Z.land (Z.shiftr word0 24) 0xFF.
Definition cqe_entryIdx (word1 : Z) : Z := Z.land word1 0xFFFF.

Definition UDMAPollCQUpdateInfo (m : Mem) (cqTail sqTail : Z) (cq : UDMACQCtx) (wq : UDMAWQCtx) : Mem :=
  st_dev (st_dev (st_dev m cqTail (cq_tailAddr cq)) sqTail (wq_tailAddr wq)) (Z.land cqTail 0xFFFFFF) (cq_dbAddr cq).

(** The checks of the contexts before a poll. *)
Definition PollContextsValid (wq : UDMAWQCtx) (cq : UDMACQCtx) : bool :=
  negb ((wq_bufAddr wq =? 0) || (wq_headAddr wq =? 0) || (wq_tailAddr wq =? 0) ||
        negb (wq_depth wq =? TILEXR_UDMA_SQ_BB_COUNT) || (32 <=? wq_baseBkShift wq) ||
        (Z.shiftl 1 (wq_baseBkShift wq) <? sizeof_UDMASqeCtx + sizeof_UDMASgeCtx) ||
        (cq_bufAddr cq =? 0) || (cq_tailAddr cq =? 0) || (cq_dbAddr cq =? 0) ||
        negb (cq_depth cq =? TILEXR_UDMA_CQ_DEPTH) || (32 <=? cq_baseBkShift cq) ||
        (Z.shiftl 1 (cq_baseBkShift cq) <? sizeof_UDMACqeCtx)).

(** The contexts a poll works on, or [None] when it refuses its arguments. *)
Definition poll_contexts (info : option UDMAInfo) (pe qpIdx : Z) : option (UDMAWQCtx * UDMACQCtx) :=
  match info with
  | None => None
  | Some i =>
      if (qpNum i =? 0) || (TILEXR_UDMA_DEVICE_MAX_QP_COUNT <? qpNum i) || (qpNum i <=? qpIdx) ||
         (sqPtr i =? 0) || (scqPtr i =? 0) then None
      else
        cq ← UDMAGetSCQCtx info pe qpIdx;
        wq ← UDMAGetWQCtx info pe qpIdx;
        if negb (PollContextsValid wq cq) then None else Some (wq, cq)
  end.

Definition cqe_address (cq : UDMACQCtx) (cqTail : Z) : Z :=
  u64 (cq_bufAddr cq + (Z.shiftl 1 (cq_baseBkShift cq) * Z.land cqTail (TILEXR_UDMA_CQ_DEPTH - 1))%u32).

Section poll.
(** What the words of the completion queues are at a time. *)
Context (hw : Z -> Mem).

(** The wait for the owner bit: the time of the look that found it. *)
Fixpoint wait_owner (fuel : nat) (t addr : Z) (validOwner : bool) : option Z :=
  match fuel with
  | O => None
  | S f => if xorb validOwner (negb (cqe_owner (hw t addr) =? 0)) then Some t else wait_owner f (t + 1) addr validOwner
  end.

(** The completion entry at a tail: its entry index and the time, or the status of a failure. *)
Definition read_entry (cq : UDMACQCtx) (cqTail t : Z) : (Z * Z) + Z :=
  let addr := cqe_address cq cqTail in
  let validOwner := negb (Z.land (cqTail / TILEXR_UDMA_CQ_DEPTH) 1 =? 0) in
  match wait_owner (Z.to_nat TILEXR_UDMA_MAX_RETRY_TIMES) t addr validOwner with
  | None => inr TILEXR_UDMA_STATUS_CQ_TIMEOUT
  | Some t' =>
      let status := cqe_status (hw t' addr) in
      let subStatus := cqe_substatus (hw t' addr) in
      if negb (status =? 0) || negb (subStatus =? 0) then inr (Z.lor (Z.shiftl status 8) subStatus)
      else inl (cqe_entryIdx (hw t' (addr + 4)), t' + 1)
  end.

(** The basic blocks an entry completes. *)
Definition completed_bb (wq : UDMAWQCtx) (sqTail entryIdx : Z) : Z :=
  let tailIndex := sqTail mod wq_depth wq in
  let completedEntryIndex := entryIdx mod wq_depth wq in
  ((completedEntryIndex + wq_depth wq - tailIndex)%u32 mod wq_depth wq + 1)%u32.

(** The outcome of a poll: its status, the memory and the time. *)
Record Polled := { po_status : Z; po_mem : Mem; po_time : Z }.

(** The loop of [UDMAPollCQ]; [fuel] are the entries that are left. *)
Fixpoint poll_entries (fuel : nat) (wq : UDMAWQCtx) (cq : UDMACQCtx) (cqTail sqTail : Z) (m : Mem) (t : Z) : Polled :=
  match fuel with
  | O => {| po_status := TILEXR_UDMA_STATUS_SUCCESS; po_mem := m; po_time := t |}
  | S f =>
      match read_entry cq cqTail t with
      | inr status => {| po_status := status; po_mem := m; po_time := t |}
      | inl (entryIdx, t') =>
          let sqHead := ld_dev m (wq_headAddr wq) in
          let sqOutstanding := (sqHead - sqTail)%u32 in
          let completedBb := completed_bb wq sqTail entryIdx in
          if (sqOutstanding =? 0) || (wq_depth wq <? sqOutstanding) ||
             (TILEXR_UDMA_MAX_SQE_BB_NUM <? completedBb) || (sqOutstanding <? completedBb)
          then {| po_status := TILEXR_UDMA_STATUS_INVALID; po_mem := m; po_time := t' |}
          else
            let sqTail' := (sqTail + completedBb)%u32 in
            let cqTail' := (cqTail + 1)%u32 in
            poll_entries f wq cq cqTail' sqTail' (UDMAPollCQUpdateInfo m cqTail' sqTail' cq wq) t'
      end
  end.

Definition refused (m : Mem) (t : Z) : Polled := {| po_status := TILEXR_UDMA_STATUS_INVALID; po_mem := m; po_time := t |}.

Definition UDMAPollCQ (info : option UDMAInfo) (pe qpIdx idx : Z) (m : Mem) (t : Z) : Polled :=
  match poll_contexts info pe qpIdx with
  | None => refused m t
  | Some (wq, cq) =>
      let cqTail := ld_dev m (cq_tailAddr cq) in
      let sqTail := ld_dev m (wq_tailAddr wq) in
      let completionCount := (idx - cqTail)%u32 in
      if cq_depth cq <? completionCount then refused m t
      else poll_entries (Z.to_nat completionCount) wq cq cqTail sqTail m t
  end.

(** The loop of [UDMAPollCQUntilSqTail]; a turn lowers the distance to the target, which bounds
    [fuel]. *)
Fixpoint poll_until (fuel : nat) (wq : UDMAWQCtx) (cq : UDMACQCtx) (sqTarget cqTail sqTail : Z) (m : Mem) (t : Z) : Polled :=
  if sqTail =? sqTarget then {| po_status := TILEXR_UDMA_STATUS_SUCCESS; po_mem := m; po_time := t |}
  else
    match fuel with
    | O => refused m t
    | S f =>
        match read_entry cq cqTail t with
        | inr status => {| po_status := status; po_mem := m; po_time := t |}
        | inl (entryIdx, t') =>
            let sqHead := ld_dev m (wq_headAddr wq) in
            let sqOutstanding := (sqHead - sqTail)%u32 in
            let remainingToTarget := (sqTarget - sqTail)%u32 in
            let completedBb := completed_bb wq sqTail entryIdx in
            if (sqOutstanding =? 0) || (wq_depth wq <? sqOutstanding) || (remainingToTarget =? 0) ||
               (sqOutstanding <? remainingToTarget) || (completedBb =? 0) || (remainingToTarget <? completedBb) ||
               (sqOutstanding <? completedBb)
            then {| po_status := TILEXR_UDMA_STATUS_INVALID; po_mem := m; po_time := t' |}
            else
              let sqTail' := (sqTail + completedBb)%u32 in
              let cqTail' := (cqTail + 1)%u32 in
              poll_until f wq cq sqTarget cqTail' sqTail' (UDMAPollCQUpdateInfo m cqTail' sqTail' cq wq) t'
        end
    end.

Definition UDMAPollCQUntilSqTail (info : option UDMAInfo) (pe qpIdx sqTarget : Z) (m : Mem) (t : Z) : Polled :=
  match poll_contexts info pe qpIdx with
  | None => refused m t
  | Some (wq, cq) =>
      let cqTail := ld_dev m (cq_tailAddr cq) in
      let sqTail := ld_dev m (wq_tailAddr wq) in
      if wq_depth wq <? (sqTarget - sqTail)%u32 then refused m t
      else poll_until (Z.to_nat (sqTarget - sqTail)%u32) wq cq sqTarget cqTail sqTail m t
  end.
End poll.

(** ** Work entries *)

(** A word of bit fields [(value, width)], the first in the lowest bits. *)
Definition bit_fields (fields : list (Z * Z)) : Z :=
  foldr (fun f acc => fst f mod 2 ^ snd f + acc * 2 ^ snd f) 0 fields.

Definition UDMAWqeScratchValid (scratch : Scratch) : bool :=
  (scratchAddr scratch mod TILEXR_UDMA_WQE_SCRATCH_ALIGNMENT =? 0) &&
  (TILEXR_UDMA_WQE_SCRATCH_BYTES <=? scratchSize scratch).

Definition UDMAClearWqeScratch (byteCount : Z) : list Z := replicate (Z.to_nat (byteCount / 4)) 0.

Definition sqe_owner (curHead : Z) : Z := if Z.land (curHead / TILEXR_UDMA_SQ_BB_COUNT) 1 =? 0 then 1 else 0.

Definition UDMAFillSqeCtx (opcode : UDMAOpcode) (remoteAddr : Z) (mi : UDMAMemInfo) (curHead sqeFlag : Z) (m : Mem) : list Z :=
  [bit_fields [(curHead mod TILEXR_UDMA_SQ_BB_COUNT, 16); (sqeFlag, 8); (0, 3); (0, 1);
               (if tokenValueValid mi then 1 else 0, 1); (mi_rmtJettyType mi, 2); (sqe_owner curHead, 1)];
   bit_fields [(mi_targetHint mi, 8); (opcode_value opcode, 8); (0, 6); (0, 10)];
   bit_fields [(mi_tpn mi, 24); (1, 8)];
   bit_fields [(mi_tid mi, 20); (0, 12)];
   m (eidAddr mi); m (eidAddr mi + 4); m (eidAddr mi + 8); m (eidAddr mi + 12);
   mi_rmtTokenValue mi;
   bit_fields [(0, 8); (0, 4); (0, 4); (0, 16)];
   Z.land remoteAddr 0xFFFFFFFF; Z.land (Z.shiftr remoteAddr 32) 0xFFFFFFFF].

Definition UDMAFillNotifyData (tid tokenValue : Z) (params : UDMASignalParams) : list Z :=
  [bit_fields [(Z.land tid 0xFFFFF, 20); (0, 12)]; tokenValue;
   u32 (sigAddr params); u32 (Z.shiftr (sigAddr params) 32);
   u32 (signal params); u32 (Z.shiftr (signal params) 32); 0; 0].

Definition UDMAFillSgeCtx (messageLen localAddr localTokenId : Z) : list Z :=
  [u32 messageLen; localTokenId; u32 localAddr; u32 (Z.shiftr localAddr 32)].

(** The words of an entry over the cleared scratch. *)
Definition wqe_words (opcode : UDMAOpcode) (remoteAddr localAddr messageLen : Z) (mi : UDMAMemInfo)
    (signalParams : option UDMASignalParams) (localTokenId curHead sqeFlag : Z) (m : Mem) : list Z :=
  let filled := UDMAFillSqeCtx opcode remoteAddr mi curHead sqeFlag m ++
    match opcode, signalParams with
    | WRITE_WITH_NOTIFY, Some params => UDMAFillNotifyData (mi_tid mi) (mi_rmtTokenValue mi) params
    | _, _ => []
    end ++ UDMAFillSgeCtx messageLen localAddr localTokenId in
  filled ++ drop (length filled) (UDMAClearWqeScratch (UDMAWqeBBCnt opcode * TILEXR_UDMA_WQE_BB_BYTES)).

(** ** Posts *)

Definition UDMARingDoorbell (m : Mem) (curHead : Z) (wq : UDMAWQCtx) : Mem := st_dev m curHead (wq_dbAddr wq).

(** The copies of the scratch to the ring, in two parts when the entry wraps. *)
Definition UDMAPublishWqe (m : Mem) (scratch : list Z) (wq : UDMAWQCtx) (curHead wqeBbCnt : Z) : Mem :=
  let headIndex := curHead mod wq_depth wq in
  let firstBb := if wqeBbCnt <? (wq_depth wq - headIndex)%u32 then wqeBbCnt else (wq_depth wq - headIndex)%u32 in
  let firstBytes := (firstBb * TILEXR_UDMA_WQE_BB_BYTES)%u32 in
  let firstDst := wq_bufAddr wq + headIndex * TILEXR_UDMA_WQE_BB_BYTES in
  let m1 := store_words m firstDst (take (Z.to_nat (firstBytes / 4)) scratch) in
  if negb (firstBb =? wqeBbCnt) then
    let wrappedBytes := ((wqeBbCnt - firstBb) * TILEXR_UDMA_WQE_BB_BYTES)%u32 in
    store_words m1 (wq_bufAddr wq) (take (Z.to_nat (wrappedBytes / 4)) (drop (Z.to_nat (firstBytes / 4)) scratch))
  else m1.

Definition UDMAValidatePostSend (opcode : UDMAOpcode) (info : option UDMAInfo) (remoteAddr localAddr qpIdx messageLen sqeFlag : Z)
    (wq : option UDMAWQCtx) (m : Mem) : Z :=
  match info, wq with
  | Some i, Some q =>
      if (qpNum i <=? qpIdx) || (sqPtr i =? 0) || (memPtr i =? 0) then TILEXR_UDMA_STATUS_INVALID
      else if remoteAddr =? 0 then TILEXR_UDMA_STATUS_INVALID
      else if (localAddr =? 0) && negb (messageLen =? 0) then TILEXR_UDMA_STATUS_INVALID
      else if 0xFFFFFFFF <? messageLen then TILEXR_UDMA_STATUS_INVALID
      else if Z.land sqeFlag TILEXR_UDMA_SQE_FLAG_COMPLETION =? 0 then TILEXR_UDMA_STATUS_INVALID
      else if (wq_bufAddr q =? 0) || (wq_headAddr q =? 0) || (wq_tailAddr q =? 0) || (wqeCntAddr q =? 0) ||
              (wq_dbAddr q =? 0) || negb (wq_depth q =? TILEXR_UDMA_SQ_BB_COUNT) || (32 <=? wq_baseBkShift q)
      then TILEXR_UDMA_STATUS_INVALID
      else
        let wqeSize := Z.shiftl 1 (wq_baseBkShift q) in
        let requiredBb := UDMAWqeBBCnt opcode in
        let requiredBytes := sizeof_UDMASqeCtx + sizeof_UDMASgeCtx +
          match opcode with WRITE_WITH_NOTIFY => sizeof_UDMANotifyCtx | _ => 0 end in
        if negb (wqeSize =? TILEXR_UDMA_WQE_BB_BYTES) || (wq_depth q <? requiredBb) || (wqeSize * requiredBb <? requiredBytes)
        then TILEXR_UDMA_STATUS_INVALID
        else
          let outstanding := (ld_dev m (wq_headAddr q) - ld_dev m (wq_tailAddr q))%u32 in
          if wq_depth q <? outstanding then TILEXR_UDMA_STATUS_INVALID
          else if (wq_depth q - outstanding)%u32 <? requiredBb then TILEXR_UDMA_STATUS_SQ_FULL
          else TILEXR_UDMA_STATUS_SUCCESS
  | _, _ => TILEXR_UDMA_STATUS_INVALID
  end.

Section post.
Context (hw : Z -> Mem).

(** [UDMAPostSend] behind a validation that succeeded: the entry is written, the counters advance
    and the door bell rings. *)
Definition submit (opcode : UDMAOpcode) (ringDoorbell : bool) (info : option UDMAInfo) (wq : UDMAWQCtx)
    (remoteAddr localAddr pe qpIdx messageLen : Z) (signalParams : option UDMASignalParams) (sqeFlag : Z)
    (m : Mem) (t : Z) : Polled :=
  match UDMAGetRemoteMemInfo info pe qpIdx with
  | None => refused m t
  | Some mi =>
      if eidAddr mi =? 0 then refused m t
      else
        let curHead := ld_dev m (wq_headAddr wq) in
        let wqeCnt := ld_dev m (wqeCntAddr wq) in
        let wqeBbCnt := UDMAWqeBBCnt opcode in
        let words := wqe_words opcode remoteAddr localAddr messageLen mi signalParams (wq_localTokenId wq) curHead sqeFlag m in
        let m1 := UDMAPublishWqe m words wq curHead wqeBbCnt in
        let curHead' := (curHead + wqeBbCnt)%u32 in
        let wqeCnt' := (wqeCnt + 1)%u32 in
        let m2 := st_dev (st_dev m1 curHead' (wq_headAddr wq)) wqeCnt' (wqeCntAddr wq) in
        {| po_status := TILEXR_UDMA_STATUS_SUCCESS;
           po_mem := if ringDoorbell then UDMARingDoorbell m2 curHead' wq else m2; po_time := t |}
  end.

Definition UDMAPostSend (opcode : UDMAOpcode) (ringDoorbell : bool) (info : option UDMAInfo) (scratch : Scratch)
    (remoteAddr localAddr pe qpIdx messageLen : Z) (signalParams : option UDMASignalParams) (sqeFlag : Z)
    (m : Mem) (t : Z) : Polled :=
  match info with
  | None => refused m t
  | Some i =>
      if (qpNum i =? 0) || (TILEXR_UDMA_DEVICE_MAX_QP_COUNT <? qpNum i) || (qpNum i <=? qpIdx) || (sqPtr i =? 0) ||
         negb (UDMAWqeScratchValid scratch) then refused m t
      else if match opcode, signalParams with
              | WRITE_WITH_NOTIFY, None => true
              | WRITE_WITH_NOTIFY, Some p => sigAddr p =? 0
              | _, _ => false
              end then refused m t
      else
        match UDMAGetWQCtx info pe qpIdx with
        | None => refused m t
        | Some wq =>
            let validate m := UDMAValidatePostSend opcode info remoteAddr localAddr qpIdx messageLen sqeFlag (Some wq) m in
            let post m t := submit opcode ringDoorbell info wq remoteAddr localAddr pe qpIdx messageLen signalParams sqeFlag m t in
            let validation := validate m in
            if (validation =? TILEXR_UDMA_STATUS_SQ_FULL) && ringDoorbell then
              let m1 := UDMARingDoorbell m (ld_dev m (wq_headAddr wq)) wq in
              let reclaimed := UDMAPollCQ hw info pe qpIdx (ld_dev m1 (wqeCntAddr wq)) m1 t in
              if negb (po_status reclaimed =? TILEXR_UDMA_STATUS_SUCCESS) then reclaimed
              else
                let validation' := validate (po_mem reclaimed) in
                if negb (validation' =? TILEXR_UDMA_STATUS_SUCCESS)
                then {| po_status := validation'; po_mem := po_mem reclaimed; po_time := po_time reclaimed |}
                else post (po_mem reclaimed) (po_time reclaimed)
            else if negb (validation =? TILEXR_UDMA_STATUS_SUCCESS)
            then {| po_status := validation; po_mem := m; po_time := t |}
            else post m t
        end
  end.
End post.
