(* ===== verification/UdmaOps.v ===== *)
(** The operations of the device-side UDMA wrapper (src/src/include/tilexr_udma.h) over the queues
    of UdmaQueue: puts, gets and signals into registered memory, the same over a profile of
    regions, door bells and the waits for completion. *)
From S2P Require Import Prelude CombineWire UdmaTypes UdmaQueue.

Section ops.
(** The completion queues over time, and [TILEXR_UDMA_ARCH_SUPPORTED]. *)
Context (hw : Z -> Mem) (arch : bool).

Definition GetUDMAInfo (args : option CommArgs) : option UDMAInfo := a ← args; udmaInfoPtr a.
Definition GetUDMARegistry (args : option CommArgs) : option TileXRUDMARegistry := a ← args; udmaRegistryPtr a.

Definition UDMAWrite (args : option CommArgs) (scratch : Scratch) (remoteAddr localAddr pe qpIdx messageLen sqeFlag : Z)
    (ringDoorbell : bool) (m : Mem) (t : Z) : Polled :=
  if negb arch then refused m t
  else if negb (UDMAQueueOperationValid args pe qpIdx) then refused m t
  else UDMAPostSend hw WRITE ringDoorbell (GetUDMAInfo args) scratch remoteAddr localAddr pe qpIdx messageLen None sqeFlag m t.

Definition UDMARead (args : option CommArgs) (scratch : Scratch) (localAddr remoteAddr pe qpIdx messageLen : Z)
    (ringDoorbell : bool) (m : Mem) (t : Z) : Polled :=
  if arch && UDMAQueueOperationValid args pe qpIdx
  then UDMAPostSend hw READ ringDoorbell (GetUDMAInfo args) scratch remoteAddr localAddr pe qpIdx messageLen None
         TILEXR_UDMA_SQE_FLAG_ORDERED_COMPLETION m t
  else refused m t.

Definition UDMAWriteNotify (args : option CommArgs) (scratch : Scratch) (remoteAddr localAddr pe qpIdx messageLen : Z)
    (signalParams : option UDMASignalParams) (m : Mem) (t : Z) : Polled :=
  if arch && UDMAQueueOperationValid args pe qpIdx then
    match signalParams with
    | None => refused m t
    | Some p =>
        if sigAddr p =? 0 then refused m t
        else UDMAPostSend hw WRITE_WITH_NOTIFY true (GetUDMAInfo args) scratch remoteAddr localAddr pe qpIdx messageLen
               (Some p) TILEXR_UDMA_SQE_FLAG_ORDERED_COMPLETION m t
    end
  else refused m t.

(** ** Registered memory *)

Definition UDMARegisteredOperationValid (args : option CommArgs) (peer qpIdx byteOffset byteCount : Z) : bool :=
  if negb (UDMARegistryEnabled args) then false
  else if negb (UDMARankValid args peer) then false
  else if negb (UDMAQpValid args qpIdx) then false
  else
    match args, GetUDMARegistry args with
    | Some a, Some r =>
        if negb (rg_rankSize r =? u32 (ca_rankSize a)) then false
        else UDMARegisteredRangeValid (Some r) peer byteOffset byteCount
    | _, _ => false
    end.

Definition registered_addr (args : option CommArgs) (rank byteOffset : Z) : Z :=
  match GetUDMARegistry args with Some r => UDMARegisteredRemoteAddr r rank byteOffset | None => 0 end.

Definition UDMAPutNbiOnQpWithFlagDeferred (args : option CommArgs) (scratch : Scratch)
    (targetRank qpIdx localSrc byteOffset byteCount sqeFlag : Z) (m : Mem) (t : Z) : Polled :=
  if negb (UDMARegisteredOperationValid args targetRank qpIdx byteOffset byteCount) ||
     (Z.land sqeFlag TILEXR_UDMA_SQE_FLAG_COMPLETION =? 0) then refused m t
  else UDMAWrite args scratch (registered_addr args targetRank byteOffset) localSrc targetRank qpIdx byteCount sqeFlag false m t.

Definition UDMAPutNbiOnQpWithFlag (args : option CommArgs) (scratch : Scratch)
    (targetRank qpIdx localSrc byteOffset byteCount sqeFlag : Z) (m : Mem) (t : Z) : Polled :=
  if negb (UDMARegisteredOperationValid args targetRank qpIdx byteOffset byteCount) ||
     (Z.land sqeFlag TILEXR_UDMA_SQE_FLAG_COMPLETION =? 0) then refused m t
  else UDMAWrite args scratch (registered_addr args targetRank byteOffset) localSrc targetRank qpIdx byteCount sqeFlag true m t.

Definition UDMAPutNbiOnQp (args : option CommArgs) (scratch : Scratch) (targetRank qpIdx localSrc byteOffset byteCount : Z)
    (m : Mem) (t : Z) : Polled :=
  UDMAPutNbiOnQpWithFlag args scratch targetRank qpIdx localSrc byteOffset byteCount
    TILEXR_UDMA_SQE_FLAG_ORDERED_COMPLETION m t.

(** The operations that drop the status: the memory and the time are left. *)
Definition dropped (r : Polled) : Mem * Z := (po_mem r, po_time r).

Definition UDMAPutNbi (args : option CommArgs) (scratch : Scratch) (targetRank localSrc byteOffset byteCount : Z) (m : Mem) (t : Z) : Mem * Z :=
  dropped (UDMAPutNbiOnQp args scratch targetRank 0 localSrc byteOffset byteCount m t).

Definition UDMAPutRegisteredNbi (args : option CommArgs) (scratch : Scratch) (targetRank localSrc byteOffset byteCount : Z) (m : Mem) (t : Z) : Mem * Z :=
  UDMAPutNbi args scratch targetRank localSrc byteOffset byteCount m t.

Definition UDMAGetNbiOnQp (args : option CommArgs) (scratch : Scratch) (sourceRank qpIdx localDst byteOffset byteCount : Z)
    (m : Mem) (t : Z) : Polled :=
  if negb (UDMARegisteredOperationValid args sourceRank qpIdx byteOffset byteCount) ||
     ((localDst =? 0) && negb (byteCount =? 0)) then refused m t
  else UDMARead args scratch localDst (registered_addr args sourceRank byteOffset) sourceRank qpIdx byteCount true m t.

Definition UDMAGetNbi (args : option CommArgs) (scratch : Scratch) (sourceRank localDst byteOffset byteCount : Z) (m : Mem) (t : Z) : Mem * Z :=
  dropped (UDMAGetNbiOnQp args scratch sourceRank 0 localDst byteOffset byteCount m t).

Definition UDMAGetRegisteredNbi (args : option CommArgs) (scratch : Scratch) (sourceRank localDst byteOffset byteCount : Z) (m : Mem) (t : Z) : Mem * Z :=
  UDMAGetNbi args scratch sourceRank localDst byteOffset byteCount m t.

Definition UDMAPutSignalNbiOnQp (args : option CommArgs) (scratch : Scratch)
    (targetRank qpIdx localSrc byteOffset byteCount signalByteOffset signal : Z) (m : Mem) (t : Z) : Polled :=
  if negb (UDMARegisteredOperationValid args targetRank qpIdx byteOffset byteCount) ||
     negb (UDMARegisteredOperationValid args targetRank qpIdx signalByteOffset 8) ||
     ((localSrc =? 0) && negb (byteCount =? 0)) then refused m t
  else UDMAWriteNotify args scratch (registered_addr args targetRank byteOffset) localSrc targetRank qpIdx byteCount
         (Some {| sigAddr := registered_addr args targetRank signalByteOffset; signal := signal |}) m t.

Definition UDMAPutSignalNbi (args : option CommArgs) (scratch : Scratch)
    (targetRank localSrc byteOffset byteCount signalByteOffset signal : Z) (m : Mem) (t : Z) : Mem * Z :=
  dropped (UDMAPutSignalNbiOnQp args scratch targetRank 0 localSrc byteOffset byteCount signalByteOffset signal m t).

Definition UDMAPutRegisteredSignalNbiOnQp (args : option CommArgs) (scratch : Scratch)
    (targetRank qpIdx localSrc byteOffset byteCount signalByteOffset signal : Z) (m : Mem) (t : Z) : Polled :=
  UDMAPutSignalNbiOnQp args scratch targetRank qpIdx localSrc byteOffset byteCount signalByteOffset signal m t.

Definition UDMAPutRegisteredSignalNbi (args : option CommArgs) (scratch : Scratch)
    (targetRank localSrc byteOffset byteCount signalByteOffset signal : Z) (m : Mem) (t : Z) : Mem * Z :=
  dropped (UDMAPutRegisteredSignalNbiOnQp args scratch targetRank 0 localSrc byteOffset byteCount signalByteOffset signal m t).

(** ** Profiles *)

Definition UDMAProfileGetOperationValid (args : option CommArgs) (info : option UDMAInfo)
    (registry : option TileXRUDMAProfileRegistry) (sourceRank qpIdx local localByteOffset remote remoteByteOffset byteCount : Z) : bool :=
  match args, registry with
  | Some a, Some r =>
      if negb arch || negb (UDMAProfileRegistryValidDevice args info registry) || (sourceRank <? 0) ||
         (ca_rankSize a <=? sourceRank) || (sourceRank =? ca_rank a) || (pr_qpCount r <=? qpIdx) || (byteCount =? 0) ||
         (0xFFFFFFFF <? byteCount) then false
      else if negb (localRegion (qpBindings r qpIdx) =? local) || negb (remoteRegion (qpBindings r qpIdx) =? remote) then false
      else UDMAProfileRegisteredRangeValid registry (ca_rank a) local localByteOffset byteCount &&
           UDMAProfileRegisteredRangeValid registry sourceRank remote remoteByteOffset byteCount
  | _, _ => false
  end.

Definition UDMAProfileGetNbiOnQpDeferred (args : option CommArgs) (info : option UDMAInfo)
    (registry : option TileXRUDMAProfileRegistry) (scratch : Scratch)
    (sourceRank qpIdx local localByteOffset remote remoteByteOffset byteCount : Z) (m : Mem) (t : Z) : Polled :=
  if negb (UDMAProfileGetOperationValid args info registry sourceRank qpIdx local localByteOffset remote remoteByteOffset byteCount)
  then refused m t
  else
    let rank := match args with Some a => ca_rank a | None => 0 end in
    UDMAPostSend hw READ false info scratch (UDMAProfileRegisteredAddr registry sourceRank remote remoteByteOffset)
      (UDMAProfileRegisteredAddr registry rank local localByteOffset) sourceRank qpIdx byteCount None
      TILEXR_UDMA_SQE_FLAG_ORDERED_COMPLETION m t.

(** The queue pair of a profile operation, or [None] when it is refused. *)
Definition profile_queue (args : option CommArgs) (info : option UDMAInfo) (registry : option TileXRUDMAProfileRegistry)
    (sourceRank qpIdx : Z) : option UDMAWQCtx :=
  match args, registry with
  | Some a, Some r =>
      if negb (UDMAProfileRegistryValidDevice args info registry) || (sourceRank <? 0) || (ca_rankSize a <=? sourceRank) ||
         (sourceRank =? ca_rank a) || (pr_qpCount r <=? qpIdx) then None
      else UDMAGetWQCtx info sourceRank qpIdx
  | _, _ => None
  end.

Definition UDMAProfileCompletionFrontier (args : option CommArgs) (info : option UDMAInfo)
    (registry : option TileXRUDMAProfileRegistry) (sourceRank qpIdx : Z) (m : Mem) : Z :=
  match profile_queue args info registry sourceRank qpIdx with
  | None => 0
  | Some wq => if wq_headAddr wq =? 0 then 0 else ld_dev m (wq_headAddr wq)
  end.

(** The door bell of a queue pair whose counters are sound. *)
Definition flush_queue (wq : UDMAWQCtx) (m : Mem) (t : Z) : Polled :=
  if (wq_headAddr wq =? 0) || (wq_tailAddr wq =? 0) || (wq_dbAddr wq =? 0) ||
     negb (wq_depth wq =? TILEXR_UDMA_SQ_BB_COUNT) then refused m t
  else
    let head := ld_dev m (wq_headAddr wq) in
    let tail := ld_dev m (wq_tailAddr wq) in
    if wq_depth wq <? (head - tail)%u32 then refused m t
    else {| po_status := TILEXR_UDMA_STATUS_SUCCESS; po_mem := UDMARingDoorbell m head wq; po_time := t |}.

Definition UDMAProfileFlushQpDoorbell (args : option CommArgs) (info : option UDMAInfo)
    (registry : option TileXRUDMAProfileRegistry) (sourceRank qpIdx : Z) (m : Mem) (t : Z) : Polled :=
  match profile_queue args info registry sourceRank qpIdx with
  | None => refused m t
  | Some wq => flush_queue wq m t
  end.

Definition UDMAProfileQuietStatusOnQpUntil (args : option CommArgs) (info : option UDMAInfo)
    (registry : option TileXRUDMAProfileRegistry) (sourceRank qpIdx completionFrontier : Z) (m : Mem) (t : Z) : Polled :=
  match profile_queue args info registry sourceRank qpIdx with
  | None => refused m t
  | Some wq =>
      if (match info with Some i => scqPtr i =? 0 | None => true end) || (wq_headAddr wq =? 0) || (wq_tailAddr wq =? 0) ||
         negb (wq_depth wq =? TILEXR_UDMA_SQ_BB_COUNT) then refused m t
      else
        let submittedHead := ld_dev m (wq_headAddr wq) in
        let submittedTail := ld_dev m (wq_tailAddr wq) in
        if (wq_depth wq <? (submittedHead - submittedTail)%u32) ||
           (wq_depth wq <? (completionFrontier - submittedTail)%u32) ||
           (wq_depth wq <? (submittedHead - completionFrontier)%u32) then refused m t
        else UDMAPollCQUntilSqTail hw info sourceRank qpIdx completionFrontier m t
  end.

(** ** Completion *)

Definition UDMAFlushQpDoorbell (args : option CommArgs) (targetRank qpIdx : Z) (m : Mem) (t : Z) : Polled :=
  if negb arch then refused m t
  else if negb (UDMAQueueOperationValid args targetRank qpIdx) then refused m t
  else
    match GetUDMAInfo args with
    | None => refused m t
    | Some i =>
        if sqPtr i =? 0 then refused m t
        else match UDMAGetWQCtx (Some i) targetRank qpIdx with
          | None => refused m t
          | Some wq => flush_queue wq m t
          end
    end.

Definition UDMAQuietStatusOnQpUntil (args : option CommArgs) (targetRank qpIdx completionTarget : Z) (m : Mem) (t : Z) : Polled :=
  if negb arch then refused m t
  else if negb (UDMAQueueOperationValid args targetRank qpIdx) then refused m t
  else
    match GetUDMAInfo args with
    | None => refused m t
    | Some i =>
        if (sqPtr i =? 0) || (scqPtr i =? 0) then refused m t
        else UDMAPollCQ hw (Some i) targetRank qpIdx completionTarget m t
    end.

Definition UDMAQuietStatusOnQp (args : option CommArgs) (targetRank qpIdx : Z) (m : Mem) (t : Z) : Polled :=
  if negb arch || negb (UDMAQueueOperationValid args targetRank qpIdx) then refused m t
  else
    match UDMAGetWQCtx (GetUDMAInfo args) targetRank qpIdx with
    | None => refused m t
    | Some wq =>
        if wqeCntAddr wq =? 0 then refused m t
        else UDMAQuietStatusOnQpUntil args targetRank qpIdx (ld_dev m (wqeCntAddr wq)) m t
    end.

Definition UDMAQuietStatus (args : option CommArgs) (targetRank : Z) (m : Mem) (t : Z) : Polled :=
  UDMAQuietStatusOnQp args targetRank 0 m t.

Definition UDMAQuiet (args : option CommArgs) (targetRank : Z) (m : Mem) (t : Z) : Mem * Z := dropped (UDMAQuietStatus args targetRank m t).
End ops.
