(* ===== verification/UdmaRing.v ===== *)
(** The rings of a queue pair against unbounded counters: what the words of a queue stand for, the
    contract of the device that writes completion entries, and what the polls of UdmaQueue do
    under it. *)
From S2P Require Import Prelude CombineWire WqeRing WqeProps UdmaTypes UdmaQueue.

(** ** Rings *)

Lemma ring_sq : ring_size TILEXR_UDMA_SQ_BB_COUNT.
Proof. split; [done|]. split; [done|]. by exists 262144. Qed.

Lemma ring_cq : ring_size TILEXR_UDMA_CQ_DEPTH /\ ring_size (2 * TILEXR_UDMA_CQ_DEPTH).
Proof. split; (split; [done|]; split; [done|]); [by exists 262144|by exists 131072]. Qed.

(** Differences of wrapped counters. *)
Lemma u32_sub x y : 0 <= x - y < 4294967296 -> u32 (u32 x - u32 y) = x - y.
Proof. intros H. unfold u32. rewrite <- Zminus_mod. by apply Z.mod_small. Qed.

Lemma u32_add x y : u32 (u32 x + y) = u32 (x + y).
Proof. unfold u32. apply Zplus_mod_idemp_l. Qed.

Lemma u32_eq x y : 0 <= y - x < 4294967296 -> u32 x = u32 y -> x = y.
Proof. intros H E. pose proof (u32_sub y x H) as E2. rewrite E, Z.sub_diag in E2. change (u32 0) with 0 in E2. lia. Qed.

(** The basic blocks of an entry, given by its words, and the position of the first block behind
    the first [n] entries. *)
Definition entry_bb (entry : list Z) : Z := Z.of_nat (length entry) / 16.
Definition entry_ok (entry : list Z) : Prop := Z.of_nat (length entry) = 16 * entry_bb entry /\ 1 <= entry_bb entry <= TILEXR_UDMA_MAX_SQE_BB_NUM.
Definition position (log : list (list Z)) (n : Z) : Z := zsum entry_bb (take (Z.to_nat n) log).
Definition posted (log : list (list Z)) : Z := Z.of_nat (length log).

Lemma position_0 log : position log 0 = 0.
Proof. done. Qed.

Lemma position_app log log' n : 0 <= n <= posted log -> position (log ++ log') n = position log n.
Proof. intros Hn. unfold position, posted in *. rewrite take_app_le by lia. done. Qed.

Lemma position_S log n entry : 0 <= n -> log !! Z.to_nat n = Some entry -> position log (n + 1) = position log n + entry_bb entry.
Proof.
  intros Hn He. unfold position. replace (Z.to_nat (n + 1)) with (S (Z.to_nat n)) by lia.
  rewrite (take_S_r _ _ _ He), zsum_app. cbn. lia.
Qed.

Lemma position_snoc log entry : position (log ++ [entry]) (posted log + 1) = position log (posted log) + entry_bb entry.
Proof.
  unfold posted. rewrite (position_S _ _ entry) by (lia || (rewrite Nat2Z.id; by apply list_lookup_middle)).
  rewrite position_app by (unfold posted; lia). done.
Qed.

Lemma position_le log n n' : Forall entry_ok log -> 0 <= n <= n' -> n' <= posted log ->
  position log n + (n' - n) <= position log n' <= position log n + 4 * (n' - n).
Proof.
  intros Hl Hn Hn'. replace n' with (n + (n' - n)) by lia. assert (0 <= n' - n) as Hd by lia.
  assert (n + (n' - n) <= posted log) as Hb by lia. clear Hn'. revert Hb. generalize (n' - n) Hd. apply (natlike_ind (fun d => _ -> _)); [rewrite Z.add_0_r; lia|].
  intros d Hd0 IH Hb. unfold Z.succ in *. rewrite Z.add_assoc. unfold posted in *.
  destruct (lookup_lt_is_Some_2 log (Z.to_nat (n + d))) as [entry He]; [lia|].
  rewrite (position_S log (n + d) entry) by (lia || done). rewrite Forall_lookup in Hl. destruct (Hl _ _ He) as [_ Hs].
  unfold TILEXR_UDMA_MAX_SQE_BB_NUM in Hs. lia.
Qed.

Lemma ring_distance p s : 1 <= s <= 4 -> ((p + s - 1) mod 16384 + 16384 - p mod 16384) mod 16384 = s - 1.
Proof. intros Hs. div_lia. Qed.

(** ** What the words of a queue pair stand for *)

Definition word_addr (wq : UDMAWQCtx) (p i : Z) : Z := wq_bufAddr wq + (p + i / 16) mod wq_depth wq * TILEXR_UDMA_WQE_BB_BYTES + 4 * (i mod 16).

(** The contexts of a queue pair as the host sets them up: the counters and door bells are words of
    their own, apart from the ring. *)
Record contexts_ok (wq : UDMAWQCtx) (cq : UDMACQCtx) : Prop := {
  cx_valid : PollContextsValid wq cq = true;
  cx_shift : wq_baseBkShift wq = 6;
  cx_set : wqeCntAddr wq <> 0 /\ wq_dbAddr wq <> 0;
  cx_words : NoDup [wq_headAddr wq; wq_tailAddr wq; wqeCntAddr wq; wq_dbAddr wq; cq_tailAddr cq; cq_dbAddr cq];
  cx_apart a : a ∈ [wq_headAddr wq; wq_tailAddr wq; wqeCntAddr wq; wq_dbAddr wq; cq_tailAddr cq; cq_dbAddr cq] ->
    a < wq_bufAddr wq \/ wq_bufAddr wq + TILEXR_UDMA_SQ_BB_COUNT * TILEXR_UDMA_WQE_BB_BYTES <= a
}.

(** All entries ever posted are in [log], and [reaped] of them are known to be complete: the words
    are the counters at 32 bits, and the ring holds the entries that are outstanding. *)
Record ring_ok (wq : UDMAWQCtx) (cq : UDMACQCtx) (m : Mem) (log : list (list Z)) (reaped : Z) : Prop := {
  ri_log : Forall entry_ok log;
  ri_reaped : 0 <= reaped <= posted log;
  ri_room : position log (posted log) - position log reaped <= TILEXR_UDMA_SQ_BB_COUNT;
  ri_head : m (wq_headAddr wq) = u32 (position log (posted log));
  ri_tail : m (wq_tailAddr wq) = u32 (position log reaped);
  ri_count : m (wqeCntAddr wq) = u32 (posted log);
  ri_cq : m (cq_tailAddr cq) = u32 reaped;
  ri_blocks n entry i : reaped <= n -> log !! Z.to_nat n = Some entry -> 0 <= i < Z.of_nat (length entry) ->
    m (word_addr wq (position log n) i) = nth (Z.to_nat i) entry 0
}.

Lemma contexts_depth wq cq : contexts_ok wq cq -> wq_depth wq = TILEXR_UDMA_SQ_BB_COUNT /\ cq_depth cq = TILEXR_UDMA_CQ_DEPTH /\
  wq_bufAddr wq <> 0 /\ wq_headAddr wq <> 0 /\ wq_tailAddr wq <> 0.
Proof.
  intros [Hv _ _ _ _]. unfold PollContextsValid in Hv. apply negb_true_iff in Hv. rewrite !orb_false_iff in Hv.
  destruct Hv as [[[[[[[[[[[H1 H2] H3] H4] _] _] _] _] _] H5] _] _]. b2p. done.
Qed.

Lemma word_addr_ring wq cq p i : contexts_ok wq cq ->
  wq_bufAddr wq <= word_addr wq p i < wq_bufAddr wq + TILEXR_UDMA_SQ_BB_COUNT * TILEXR_UDMA_WQE_BB_BYTES.
Proof.
  intros Hc. destruct (contexts_depth wq cq Hc) as [Hd _]. unfold word_addr. rewrite Hd. unfold TILEXR_UDMA_WQE_BB_BYTES.
  pose proof (Z.mod_pos_bound (p + i / 16) TILEXR_UDMA_SQ_BB_COUNT ltac:(done)). pose proof (Z.mod_pos_bound i 16 ltac:(done)). lia.
Qed.

Lemma ring_apart wq cq : contexts_ok wq cq -> forall p i,
  word_addr wq p i ∉ [wq_headAddr wq; wq_tailAddr wq; wqeCntAddr wq; wq_dbAddr wq; cq_tailAddr cq; cq_dbAddr cq].
Proof. intros Hc p i Hin. apply (cx_apart _ _ Hc) in Hin. pose proof (word_addr_ring wq cq p i Hc). lia. Qed.

(** ** The contract of the device *)

(** By time [t] the device has completed [complete t] entries, in the order of the log, and has
    written a completion entry for each, with the status bytes of [failure]; the owner bit of the
    slot of an entry turns when it is written. *)
Record device_ok (hw : Z -> Mem) (cq : UDMACQCtx) (log : list (list Z)) (complete : Z -> Z) (failure : Z -> Z * Z) : Prop := {
  dv_mono t t' : t <= t' -> complete t <= complete t';
  dv_posted t : complete t <= posted log;
  dv_written t n : 0 <= n < complete t -> complete t <= n + TILEXR_UDMA_CQ_DEPTH ->
    let addr := cqe_address cq (u32 n) in
    cqe_owner (hw t addr) = 1 - (n / TILEXR_UDMA_CQ_DEPTH) mod 2 /\
    cqe_status (hw t addr) = fst (failure n) /\ cqe_substatus (hw t addr) = snd (failure n) /\
    cqe_entryIdx (hw t (addr + 4)) = (position log (n + 1) - 1) mod TILEXR_UDMA_SQ_BB_COUNT;
  dv_free t n : 0 <= n -> complete t <= n < complete t + TILEXR_UDMA_CQ_DEPTH ->
    cqe_owner (hw t (cqe_address cq (u32 n))) = (n / TILEXR_UDMA_CQ_DEPTH) mod 2;
  dv_byte n : 0 <= fst (failure n) < 256 /\ 0 <= snd (failure n) < 256
}.

(** The code a poll returns for a failed entry. *)
Definition failure_code (f : Z * Z) : Z := fst f * 256 + snd f.

Section poll.
Context (wq : UDMAWQCtx) (cq : UDMACQCtx) (Hctx : contexts_ok wq cq).
Context (hw : Z -> Mem) (log : list (list Z)) (complete : Z -> Z) (failure : Z -> Z * Z).
Context (Hdev : device_ok hw cq log complete failure).

Lemma lap_parity c : 0 <= c -> negb (Z.land (u32 c / TILEXR_UDMA_CQ_DEPTH) 1 =? 0) = ((c / TILEXR_UDMA_CQ_DEPTH) mod 2 =? 1).
Proof using Type.
  intros Hc. rewrite land_1. unfold u32, TILEXR_UDMA_CQ_DEPTH.
  destruct (Z.eqb_spec ((c / 16384) mod 2) 1), (Z.eqb_spec ((c mod 4294967296 / 16384) mod 2) 0); cbn; div_lia.
Qed.

Lemma wait_owner_cases fuel t c : 0 <= c -> c <= complete t -> posted log <= c + TILEXR_UDMA_CQ_DEPTH ->
  let addr := cqe_address cq (u32 c) in
  (wait_owner hw fuel t addr ((c / TILEXR_UDMA_CQ_DEPTH) mod 2 =? 1) = None /\ forall t', t <= t' < t + Z.of_nat fuel -> complete t' = c) \/
  exists t', t <= t' < t + Z.of_nat fuel /\ c < complete t' /\
    wait_owner hw fuel t addr ((c / TILEXR_UDMA_CQ_DEPTH) mod 2 =? 1) = Some t'.
Proof using Hdev.
  intros Hc Hct Hp addr. revert t Hct. induction fuel as [|f IH]; intros t Hct; [left; split; [done|lia]|].
  cbn [wait_owner]. pose proof (Z.mod_pos_bound (c / TILEXR_UDMA_CQ_DEPTH) 2 ltac:(lia)) as Hb.
  destruct (Z.lt_ge_cases c (complete t)) as [Hlt|Hge].
  - right. exists t. split; [lia|]. split; [done|]. pose proof (dv_posted _ _ _ _ _ Hdev t).
    destruct (dv_written _ _ _ _ _ Hdev t c ltac:(lia) ltac:(lia)) as [Ho _]. fold addr in Ho. rewrite Ho.
    destruct (Z.eqb_spec ((c / TILEXR_UDMA_CQ_DEPTH) mod 2) 1) as [E|E]; [by rewrite E|].
    replace (1 - (c / TILEXR_UDMA_CQ_DEPTH) mod 2) with 1 by lia. done.
  - pose proof (dv_free _ _ _ _ _ Hdev t c Hc ltac:(unfold TILEXR_UDMA_CQ_DEPTH; lia)) as Ho. fold addr in Ho. rewrite Ho.
    assert (xorb ((c / TILEXR_UDMA_CQ_DEPTH) mod 2 =? 1) (negb ((c / TILEXR_UDMA_CQ_DEPTH) mod 2 =? 0)) = false) as ->.
    { destruct (Z.eqb_spec ((c / TILEXR_UDMA_CQ_DEPTH) mod 2) 1) as [E|E]; [by rewrite E|].
      replace ((c / TILEXR_UDMA_CQ_DEPTH) mod 2) with 0 by lia. done. }
    pose proof (dv_mono _ _ _ _ _ Hdev t (t + 1) ltac:(lia)).
    destruct (IH (t + 1) ltac:(lia)) as [[E Hn]|(t' & Ht & Hlt & E)].
    + left. split; [done|]. intros t' Ht'. destruct (Z.eq_dec t' t) as [-> |]; [lia|]. apply Hn. lia.
    + right. exists t'. split; [lia|done].
Qed.

Lemma read_entry_cases t c : 0 <= c -> c <= complete t -> posted log <= c + TILEXR_UDMA_CQ_DEPTH ->
  (read_entry hw cq (u32 c) t = inr TILEXR_UDMA_STATUS_CQ_TIMEOUT /\
   forall t', t <= t' < t + TILEXR_UDMA_MAX_RETRY_TIMES -> complete t' = c) \/
  exists t', t <= t' < t + TILEXR_UDMA_MAX_RETRY_TIMES /\ c < complete t' /\
    read_entry hw cq (u32 c) t = if decide (failure c = (0, 0)) then inl ((position log (c + 1) - 1) mod TILEXR_UDMA_SQ_BB_COUNT, t' + 1)
                                 else inr (failure_code (failure c)).
Proof using Hdev.
  intros Hc Hct Hp. unfold read_entry. cbv zeta. rewrite lap_parity by done.
  destruct (wait_owner_cases (Z.to_nat TILEXR_UDMA_MAX_RETRY_TIMES) t c Hc Hct Hp) as [[-> Hn]|(t' & Ht & Hlt & ->)].
  - left. split; [done|]. intros t' Ht'. apply Hn. unfold TILEXR_UDMA_MAX_RETRY_TIMES in *. rewrite Z2Nat.id; lia.
  - right. unfold TILEXR_UDMA_MAX_RETRY_TIMES in Ht. rewrite Z2Nat.id in Ht by lia. exists t'. split; [unfold TILEXR_UDMA_MAX_RETRY_TIMES; lia|]. split; [done|].
    pose proof (dv_posted _ _ _ _ _ Hdev t'). destruct (dv_written _ _ _ _ _ Hdev t' c ltac:(lia) ltac:(lia)) as (_ & -> & -> & ->).
    pose proof (dv_byte _ _ _ _ _ Hdev c) as [B1 B2]. destruct (failure c) as [s1 s2]. cbn [fst snd] in *.
    case_decide as E; [injection E as -> ->; done|].
    assert (negb (s1 =? 0) || negb (s2 =? 0) = true) as ->.
    { apply orb_true_iff. destruct (Z.eqb_spec s1 0) as [-> |]; [|by left]. right. destruct (Z.eqb_spec s2 0) as [-> |]; [|done]. done. }
    f_equal. unfold failure_code. cbn [fst snd]. rewrite Z.lor_comm, lor_shiftl_add by lia. lia.
Qed.

Lemma completed_entry c entry : 0 <= c -> log !! Z.to_nat c = Some entry -> entry_ok entry ->
  completed_bb wq (u32 (position log c)) ((position log (c + 1) - 1) mod TILEXR_UDMA_SQ_BB_COUNT) = entry_bb entry.
Proof using Hctx.
  intros Hc He [_ Hs]. destruct (contexts_depth wq cq Hctx) as [Hd _]. unfold completed_bb. rewrite Hd. cbv zeta.
  rewrite (ring_u32 _ (position log c) ring_sq), (position_S log c entry Hc He), Z.mod_mod by done. unfold TILEXR_UDMA_MAX_SQE_BB_NUM in Hs.
  change TILEXR_UDMA_SQ_BB_COUNT with 16384. set (p := position log c). set (s := entry_bb entry) in *.
  pose proof (Z.mod_pos_bound (p + s - 1) 16384 ltac:(lia)). pose proof (Z.mod_pos_bound p 16384 ltac:(lia)).
  rewrite (u32_small ((p + s - 1) mod 16384 + 16384)) by lia. rewrite (u32_small (_ - p mod 16384)) by lia.
  assert (((p + s - 1) mod 16384 + 16384 - p mod 16384) mod 16384 = s - 1) as -> by (apply ring_distance; lia).
  rewrite u32_small by lia. lia.
Qed.

(** Where the counters of the tails are not. *)
Lemma update_other m ct st a : a <> cq_tailAddr cq -> a <> wq_tailAddr wq -> a <> cq_dbAddr cq -> UDMAPollCQUpdateInfo m ct st cq wq a = m a.
Proof using Type. intros H1 H2 H3. unfold UDMAPollCQUpdateInfo, st_dev. by rewrite !upd1_ne. Qed.

Lemma update_tails m ct st : UDMAPollCQUpdateInfo m ct st cq wq (cq_tailAddr cq) = u32 ct /\ UDMAPollCQUpdateInfo m ct st cq wq (wq_tailAddr wq) = u32 st.
Proof using Hctx.
  pose proof (cx_words _ _ Hctx) as Hn. rewrite !NoDup_cons, !not_elem_of_cons in Hn. unfold UDMAPollCQUpdateInfo, st_dev.
  split; [|rewrite upd1_ne, upd1_eq; [done|tauto]]. rewrite upd1_ne, upd1_ne, upd1_eq; [done| |tauto]. apply not_eq_sym. tauto.
Qed.

(** Memory that differs in the tails and the door bell of the completion queue only. *)
Definition same_but_tails (m m' : Mem) : Prop :=
  forall a, a <> cq_tailAddr cq -> a <> wq_tailAddr wq -> a <> cq_dbAddr cq -> m' a = m a.

Lemma reap m c entry : ring_ok wq cq m log c -> log !! Z.to_nat c = Some entry ->
  let m' := UDMAPollCQUpdateInfo m (u32 (c + 1)) (u32 (position log (c + 1))) cq wq in ring_ok wq cq m' log (c + 1) /\ same_but_tails m m'.
Proof using Hctx.
  intros [L R Rm H T Cn Cq B] He m'. pose proof (lookup_lt_Some _ _ _ He) as Hlt. pose proof (position_S log c entry ltac:(lia) He) as Ep.
  rewrite Forall_lookup in L. destruct (L _ _ He) as [_ Hs]. rewrite <- Forall_lookup in L.
  pose proof (cx_words _ _ Hctx) as Hn. rewrite !NoDup_cons, !not_elem_of_cons in Hn.
  assert (same_but_tails m m') as Hsame by (intros a H1 H2 H3; by apply update_other).
  split; [|done]. destruct (update_tails m (u32 (c + 1)) (u32 (position log (c + 1)))) as [U1 U2]. constructor.
  - done.
  - clear - R Hlt. unfold posted in *. lia.
  - clear - Rm Ep Hs. lia.
  - rewrite Hsame by tauto. exact H.
  - unfold m'. rewrite U2. by rewrite (u32_small (u32 _)) by apply u32_range.
  - rewrite Hsame; [exact Cn|tauto| |tauto]. apply not_eq_sym. tauto.
  - unfold m'. rewrite U1. by rewrite (u32_small (u32 _)) by apply u32_range.
  - intros n e i Hn' Hln Hi. rewrite Hsame; [by apply B; [lia|..]|..].
    all: intros E; apply (ring_apart _ _ Hctx (position log n) i); rewrite E; rewrite !elem_of_cons; tauto.
Qed.

(** The outcome of a poll for the entries from [c] up to [k]: it reaps a prefix of them, all without
    a failure; it succeeds when that is all of them, which the device has then completed;
    otherwise it stops at an entry that failed, or that was not complete for all of a wait. *)
Definition poll_outcome (m : Mem) (t c k : Z) (r : Polled) : Prop :=
  exists j, c <= j <= k /\ ring_ok wq cq (po_mem r) log j /\ same_but_tails m (po_mem r) /\
    (forall n, c <= n < j -> failure n = (0, 0)) /\
    ((j = k /\ po_status r = TILEXR_UDMA_STATUS_SUCCESS /\ k <= complete (po_time r)) \/
     (j < k /\ po_status r = TILEXR_UDMA_STATUS_CQ_TIMEOUT /\
      exists t', t <= t' /\ complete (t' + TILEXR_UDMA_MAX_RETRY_TIMES - 1) = j) \/
     (j < k /\ failure j <> (0, 0) /\ po_status r = failure_code (failure j) /\ exists t', t <= t' /\ j < complete t')).

Lemma same_trans m m' m'' : same_but_tails m m' -> same_but_tails m' m'' -> same_but_tails m m''.
Proof using Type. intros H1 H2 a A1 A2 A3. rewrite H2, H1 by done. done. Qed.

Lemma outstanding_cq m c : ring_ok wq cq m log c -> posted log <= c + TILEXR_UDMA_CQ_DEPTH.
Proof using Type.
  intros [L R Rm _ _ _ _ _]. pose proof (position_le log c (posted log) L ltac:(lia) ltac:(lia)).
  unfold TILEXR_UDMA_CQ_DEPTH. change TILEXR_UDMA_SQ_BB_COUNT with 16384 in Rm. lia.
Qed.

(** One entry, as both loops handle it. *)
Lemma read_outcome m t c k : ring_ok wq cq m log c -> c <= complete t -> c < k <= posted log ->
  (exists status, read_entry hw cq (u32 c) t = inr status /\ poll_outcome m t c k {| po_status := status; po_mem := m; po_time := t |}) \/
  exists t' entry, t < t' /\ log !! Z.to_nat c = Some entry /\ entry_ok entry /\ failure c = (0, 0) /\ c + 1 <= complete t' /\
    read_entry hw cq (u32 c) t = inl ((position log (c + 1) - 1) mod TILEXR_UDMA_SQ_BB_COUNT, t').
Proof using Hdev.
  intros Hr Hct Hk. pose proof (ri_reaped _ _ _ _ _ Hr) as Hc. pose proof (outstanding_cq m c Hr) as Hp.
  assert (forall o, (o = TILEXR_UDMA_STATUS_CQ_TIMEOUT /\ exists t', t <= t' /\ complete (t' + TILEXR_UDMA_MAX_RETRY_TIMES - 1) = c) \/
     (failure c <> (0, 0) /\ o = failure_code (failure c) /\ exists t', t <= t' /\ c < complete t') ->
     poll_outcome m t c k {| po_status := o; po_mem := m; po_time := t |}) as Hout.
  { intros o Ho. exists c. split; [lia|]. split; [done|]. split; [done|]. split; [lia|]. right.
    destruct Ho as [(-> & Ht)|(Hf & -> & Ht)]; [left|right]; (split; [lia|]); done. }
  destruct (read_entry_cases t c ltac:(lia) Hct Hp) as [[E Hn]|(t' & Ht & Hlt & E)].
  - left. exists TILEXR_UDMA_STATUS_CQ_TIMEOUT. split; [done|]. apply Hout. left. split; [done|]. exists t. split; [lia|].
    apply Hn. unfold TILEXR_UDMA_MAX_RETRY_TIMES. lia.
  - case_decide as Hf.
    + right. destruct (lookup_lt_is_Some_2 log (Z.to_nat c)) as [entry He]; [unfold posted in *; lia|]. exists (t' + 1), entry.
      split; [lia|]. split; [done|]. pose proof (ri_log _ _ _ _ _ Hr) as L. rewrite Forall_lookup in L. split; [by eapply L|]. split; [done|]. split; [|done].
      pose proof (dv_mono _ _ _ _ _ Hdev t' (t' + 1) ltac:(lia)). lia.
    + left. eexists. split; [done|]. apply Hout. right. split; [done|]. split; [done|]. exists t'. split; [lia|done].
Qed.

(** The rest of a poll behind one entry. *)
Lemma outcome_step m m1 t t' c k r : same_but_tails m m1 -> t <= t' -> c < k -> failure c = (0, 0) ->
  poll_outcome m1 t' (c + 1) k r -> poll_outcome m t c k r.
Proof using Type.
  intros Hs Ht Hc Hf (j & Hj & Hr & Hs' & Hn & Ho). exists j. split; [lia|]. split; [done|]. split; [by eapply same_trans|]. split.
  - intros n Hn'. destruct (Z.eq_dec n c) as [-> |]; [done|]. apply Hn. lia.
  - destruct Ho as [Ho|[(H1 & H2 & t2 & H3 & H4)|(H1 & H2 & H3 & t2 & H4 & H5)]]; [by left|right; left|right; right]; split_and!; try done;
      exists t2; (split; [lia|done]).
Qed.

Lemma poll_until_outcome fuel m t c k : ring_ok wq cq m log c -> c <= complete t -> c <= k <= posted log ->
  position log k - position log c <= Z.of_nat fuel ->
  poll_outcome m t c k (poll_until hw fuel wq cq (u32 (position log k)) (u32 c) (u32 (position log c)) m t).
Proof using Hctx Hdev.
  revert m t c. induction fuel as [|f IH]; intros m t c Hr Hct Hk Hf; pose proof (ri_reaped _ _ _ _ _ Hr) as Hc;
    pose proof (ri_log _ _ _ _ _ Hr) as L; pose proof (position_le log c k L ltac:(lia) ltac:(lia)) as Hpk;
    pose proof (position_le log k (posted log) L ltac:(lia) ltac:(lia)) as Hkp; pose proof (ri_room _ _ _ _ _ Hr) as Hroom;
    change TILEXR_UDMA_SQ_BB_COUNT with 16384 in Hroom.
  - assert (c = k) as -> by lia. cbn [poll_until]. rewrite Z.eqb_refl. exists k. split; [lia|]. split; [done|]. split; [done|]. split; [lia|]. by left.
  - cbn [poll_until]. destruct (Z.eqb_spec (u32 (position log c)) (u32 (position log k))) as [E|E].
    { apply u32_eq in E; [|lia]. assert (c = k) as -> by lia. exists k. split; [lia|]. split; [done|]. split; [done|]. split; [lia|]. by left. }
    assert (c < k) as Hlt by (destruct (Z.eq_dec c k) as [-> |]; [done|lia]).
    destruct (read_outcome m t c k Hr Hct ltac:(lia)) as [(st & -> & Ho)|(t' & entry & Ht & He & Hok & Hf0 & Hdone & ->)]; [done|].
    rewrite (completed_entry c entry) by (lia || done). unfold ld_dev. rewrite (ri_head _ _ _ _ _ Hr).
    pose proof (position_S log c entry ltac:(lia) He) as Ep. pose proof (position_le log (c + 1) k L ltac:(lia) ltac:(lia)) as Hpk1.
    destruct Hok as [_ Hs]. unfold TILEXR_UDMA_MAX_SQE_BB_NUM in Hs.
    rewrite !u32_sub by lia. rewrite !u32_add, <- Ep. destruct (contexts_depth wq cq Hctx) as [-> _]. change TILEXR_UDMA_SQ_BB_COUNT with 16384.
    case_if; [exfalso; b2p; lia|].
    destruct (reap m c entry Hr He) as [Hr' Hs']. eapply (outcome_step _ _ t t' c k); [done|lia|lia|done|].
    apply IH; [done|lia|lia|lia].
Qed.

Lemma poll_entries_outcome fuel m t c : ring_ok wq cq m log c -> c <= complete t -> c + Z.of_nat fuel <= posted log ->
  poll_outcome m t c (c + Z.of_nat fuel) (poll_entries hw fuel wq cq (u32 c) (u32 (position log c)) m t).
Proof using Hctx Hdev.
  revert m t c. induction fuel as [|f IH]; intros m t c Hr Hct Hk; pose proof (ri_reaped _ _ _ _ _ Hr) as Hc; pose proof (ri_log _ _ _ _ _ Hr) as L.
  - rewrite Z.add_0_r. exists c. split; [lia|]. split; [done|]. split; [done|]. split; [lia|]. by left.
  - cbn [poll_entries].
    destruct (read_outcome m t c (c + Z.of_nat (S f)) Hr Hct ltac:(lia)) as [(st & -> & Ho)|(t' & entry & Ht & He & Hok & Hf0 & Hdone & ->)]; [done|].
    rewrite (completed_entry c entry) by (lia || done). unfold ld_dev. rewrite (ri_head _ _ _ _ _ Hr).
    pose proof (position_S log c entry ltac:(lia) He) as Ep. pose proof (position_le log (c + 1) (posted log) L ltac:(lia) ltac:(lia)) as Hpk1.
    pose proof (ri_room _ _ _ _ _ Hr) as Hroom. change TILEXR_UDMA_SQ_BB_COUNT with 16384 in Hroom.
    destruct Hok as [_ Hs]. unfold TILEXR_UDMA_MAX_SQE_BB_NUM in *.
    rewrite !u32_sub by lia. rewrite !u32_add, <- Ep. destruct (contexts_depth wq cq Hctx) as [-> _]. change TILEXR_UDMA_SQ_BB_COUNT with 16384.
    case_if; [exfalso; b2p; lia|].
    destruct (reap m c entry Hr He) as [Hr' Hs']. eapply (outcome_step _ _ t t' c); [done|lia|lia|done|].
    replace (c + Z.of_nat (S f)) with (c + 1 + Z.of_nat f) by lia. apply IH; [done|lia|lia].
Qed.
End poll.
