(* ===== verification/UdmaPost.v ===== *)
(** Posting to a send queue: the copies of an entry into the ring, and what a post does to the
    queue the words stand for (UdmaRing). *)
From S2P Require Import Prelude CombineWire WqeRing WqeProps UdmaTypes UdmaQueue UdmaRing.

(** ** Copies *)

Lemma store_words_at m addr ws i : 0 <= i < Z.of_nat (length ws) -> store_words m addr ws (addr + 4 * i) = nth (Z.to_nat i) ws 0.
Proof.
  revert m addr i. induction ws as [|w ws IH]; intros m addr i Hi; [cbn in Hi; lia|]. cbn [store_words length] in *.
  destruct (Z.eq_dec i 0) as [-> |Hne].
  - rewrite Z.mul_0_r, Z.add_0_r. cbn [nth Z.to_nat]. assert (forall ws' m' b, addr < b -> store_words m' b ws' addr = m' addr) as Hlow.
    { clear. intros ws'. induction ws' as [|w' ws' IH]; intros m' b Hb; [done|]. cbn [store_words]. rewrite IH by lia. rewrite upd1_ne by lia. done. }
    rewrite Hlow by lia. apply upd1_eq.
  - replace (addr + 4 * i) with (addr + 4 + 4 * (i - 1)) by lia. rewrite IH by lia.
    replace (Z.to_nat i) with (S (Z.to_nat (i - 1))) by lia. done.
Qed.

Lemma store_words_other m addr ws a : (forall i, 0 <= i < Z.of_nat (length ws) -> a <> addr + 4 * i) -> store_words m addr ws a = m a.
Proof.
  revert m addr. induction ws as [|w ws IH]; intros m addr Ha; [done|]. cbn [store_words length] in *. rewrite IH.
  - apply upd1_ne. specialize (Ha 0 ltac:(lia)). lia.
  - intros i Hi. specialize (Ha (i + 1) ltac:(lia)). lia.
Qed.

(** ** Fields *)

(** The bits of a word from [lo], [width] of them. *)
Definition field (word lo width : Z) : Z := Z.land (Z.shiftr word lo) (2 ^ width - 1).

Definition fields_width (fields : list (Z * Z)) : Z := zsum snd fields.

Lemma fields_width_nonneg fields : Forall (fun f => 0 <= snd f) fields -> 0 <= fields_width fields.
Proof. intros H. apply zsum_nonneg. by apply Forall_forall. Qed.

Lemma field_div word lo width : 0 <= lo -> 0 <= width -> field word lo width = (word / 2 ^ lo) mod 2 ^ width.
Proof. intros H1 H2. unfold field. replace (2 ^ width - 1) with (Z.ones width) by (rewrite Z.ones_equiv; lia). by rewrite Z.land_ones, Z.shiftr_div_pow2. Qed.

(** A word of bit fields holds each of them behind those before it. *)
Lemma field_bit_fields fields k v width : Forall (fun f => 0 <= snd f) fields -> fields !! k = Some (v, width) ->
  field (bit_fields fields) (fields_width (take k fields)) width = v mod 2 ^ width.
Proof.
  intros Hf. revert k. induction Hf as [|[v0 w0] rest Hw0 Hrest IH]; intros k Hk; [done|]. cbn [snd] in Hw0.
  pose proof (Z.pow_pos_nonneg 2 w0 ltac:(lia) Hw0) as P0. destruct k as [|k]; cbn in Hk.
  - injection Hk as -> ->. rewrite field_div by done. cbn. rewrite Z.div_1_r, Z.mod_add by lia. apply Z.mod_mod. lia.
  - assert (0 <= width) as Hw by (rewrite Forall_lookup in Hrest; apply (Hrest _ _ Hk)).
    pose proof (fields_width_nonneg (take k rest) (Forall_take _ _ _ Hrest)) as Hs. rewrite <- (IH k Hk).
    change (fields_width (take (S k) ((v0, w0) :: rest))) with (w0 + fields_width (take k rest)).
    rewrite !field_div by lia. rewrite Z.pow_add_r, <- Z.div_div by (done || lia). do 2 f_equal. cbn.
    rewrite Z.div_add by lia. rewrite Z.div_small by (apply Z.mod_pos_bound; lia). done.
Qed.

(** Two words of a 64-bit value. *)
Lemma u32_halves v : 0 <= v < 2 ^ 64 -> u32 v + u32 (Z.shiftr v 32) * 2 ^ 32 = v.
Proof. intros Hv. rewrite Z.shiftr_div_pow2 by lia. unfold u32. change (2 ^ 32) with 4294967296. div_lia. Qed.

Lemma land_u32 v : Z.land v 0xFFFFFFFF = u32 v.
Proof. change 0xFFFFFFFF with (Z.ones 32). by rewrite Z.land_ones. Qed.

Lemma sqe_owner_lap p : 0 <= p -> sqe_owner (u32 p) = 1 - (p / TILEXR_UDMA_SQ_BB_COUNT) mod 2.
Proof.
  intros Hp. unfold sqe_owner. rewrite land_1. change TILEXR_UDMA_SQ_BB_COUNT with 16384. unfold u32.
  destruct (Z.eqb_spec ((p mod 4294967296 / 16384) mod 2) 0); div_lia.
Qed.

(** What the words [w] of an entry at the position [head] say to the device. *)
Record wqe_decoded (w : Z -> Z) (opcode : UDMAOpcode) (remote local len : Z) (params : option UDMASignalParams) (flag head : Z) : Prop := {
  wd_index : field (w 0) 0 16 = head mod TILEXR_UDMA_SQ_BB_COUNT;
  wd_flag : field (w 0) 16 8 = flag;
  wd_owner : field (w 0) 31 1 = 1 - (head / TILEXR_UDMA_SQ_BB_COUNT) mod 2;
  wd_opcode : field (w 1) 8 8 = opcode_value opcode;
  wd_remote : w 10 + w 11 * 2 ^ 32 = remote;
  wd_local : let sge := match opcode with WRITE_WITH_NOTIFY => 20 | _ => 12 end in
    w sge = len /\ w (sge + 2) + w (sge + 3) * 2 ^ 32 = local;
  wd_signal p : opcode = WRITE_WITH_NOTIFY -> params = Some p ->
    w 14 + w 15 * 2 ^ 32 = sigAddr p /\ w 16 + w 17 * 2 ^ 32 = signal p
}.

(** The arguments of a post at the width the code has them. *)
Record post_widths (remote local len flag : Z) (params : option UDMASignalParams) : Prop := {
  pw_remote : 0 <= remote < 2 ^ 64;
  pw_local : 0 <= local < 2 ^ 64;
  pw_len : 0 <= len < 2 ^ 32;
  pw_flag : 0 <= flag < 256;
  pw_signal p : params = Some p -> 0 <= sigAddr p < 2 ^ 64 /\ 0 <= signal p < 2 ^ 64
}.

(** Reads the field at place [k] of a word of bit fields. *)
Ltac field_at k :=
  match goal with |- field (bit_fields ?F) ?lo ?w = _ =>
    refine (eq_trans (field_bit_fields F k _ w ltac:(repeat (constructor; [cbn; lia|]); constructor) eq_refl) _) end.

Lemma wqe_fields opcode remote local len mi params token head flag m : 0 <= head -> post_widths remote local len flag params ->
  (opcode = WRITE_WITH_NOTIFY -> is_Some params) ->
  wqe_decoded (fun i => nth (Z.to_nat i) (wqe_words opcode remote local len mi params token (u32 head) flag m) 0) opcode remote local len params flag head.
Proof.
  intros Hh [W1 W2 W3 W4 W5] Hn. pose proof (sqe_owner_lap head Hh) as Eo. pose proof (ring_u32 _ head ring_sq) as Eb.
  pose proof (Z.mod_pos_bound head TILEXR_UDMA_SQ_BB_COUNT ltac:(done)) as Hb. pose proof (Z.mod_pos_bound (head / TILEXR_UDMA_SQ_BB_COUNT) 2 ltac:(lia)) as Hl.
  assert (forall i, (i < 12)%nat -> nth i (wqe_words opcode remote local len mi params token (u32 head) flag m) 0 =
    nth i (UDMAFillSqeCtx opcode remote mi (u32 head) flag m) 0) as E.
  { intros i Hi. unfold wqe_words. cbv zeta. rewrite <- app_assoc. by apply app_nth1. }
  constructor.
  - rewrite E by (cbn; lia). change (Z.to_nat 0) with 0%nat. unfold UDMAFillSqeCtx. cbn [nth]. field_at 0%nat. rewrite Eb. apply Z.mod_small. change TILEXR_UDMA_SQ_BB_COUNT with 16384 in *. lia.
  - rewrite E by (cbn; lia). change (Z.to_nat 0) with 0%nat. unfold UDMAFillSqeCtx. cbn [nth]. field_at 1%nat. by apply Z.mod_small.
  - rewrite E by (cbn; lia). change (Z.to_nat 0) with 0%nat. unfold UDMAFillSqeCtx. cbn [nth]. field_at 6%nat. rewrite Eo. apply Z.mod_small. lia.
  - rewrite E by (cbn; lia). change (Z.to_nat 1) with 1%nat. unfold UDMAFillSqeCtx. cbn [nth]. field_at 1%nat. by destruct opcode.
  - rewrite !E by (cbn; lia). change (Z.to_nat 10) with 10%nat. change (Z.to_nat 11) with 11%nat. unfold UDMAFillSqeCtx. cbn [nth]. rewrite !land_u32. by apply u32_halves.
  - assert (u32 len = len) as El by (apply Z.mod_small; exact W3). pose proof (u32_halves local W2) as Ell.
    destruct opcode; [split; [exact El|exact Ell]| |split; [exact El|exact Ell]]. destruct (Hn eq_refl) as [p ->]. split; [exact El|exact Ell].
  - intros p -> ->. destruct (W5 p eq_refl) as [S1 S2]. split; [exact (u32_halves _ S1)|exact (u32_halves _ S2)].
Qed.

(** The words that are read determine what an entry says. *)
Lemma wqe_decoded_ext w w' opcode remote local len params flag head :
  (forall j, 0 <= j < 16 * UDMAWqeBBCnt opcode -> w j = w' j) ->
  wqe_decoded w' opcode remote local len params flag head -> wqe_decoded w opcode remote local len params flag head.
Proof.
  intros E [D1 D2 D3 D4 D5 D6 D7]. assert (1 <= UDMAWqeBBCnt opcode) by (by destruct opcode).
  constructor; rewrite ?E by lia; try done; [destruct opcode; cbv zeta iota in *; rewrite !E by (cbn; lia); exact D6|].
  intros p -> Ep. rewrite !E by (cbn; lia). by apply D7.
Qed.

Section post.
Context (wq : UDMAWQCtx) (cq : UDMACQCtx) (Hctx : contexts_ok wq cq).

(** Two words of the ring whose blocks are fewer than a lap apart. *)
Lemma word_addr_apart p i p' i' : 0 < p' + i' / 16 - (p + i / 16) < TILEXR_UDMA_SQ_BB_COUNT -> word_addr wq p i <> word_addr wq p' i'.
Proof using Hctx.
  intros H. destruct (contexts_depth wq cq Hctx) as [Hd _]. unfold word_addr. rewrite Hd. unfold TILEXR_UDMA_WQE_BB_BYTES.
  change TILEXR_UDMA_SQ_BB_COUNT with 16384 in *. set (x := p + i / 16) in *. set (y := p' + i' / 16) in *.
  pose proof (Z.mod_pos_bound i 16 ltac:(lia)). pose proof (Z.mod_pos_bound i' 16 ltac:(lia)).
  assert (x mod 16384 <> y mod 16384); [|lia]. clear - H. div_lia.
Qed.

(** The two parts of an entry in the ring. *)
Definition first_blocks (p bb : Z) : Z := Z.min bb (TILEXR_UDMA_SQ_BB_COUNT - p mod TILEXR_UDMA_SQ_BB_COUNT).

Lemma word_addr_split p bb i : 1 <= bb <= 4 -> 0 <= i < 16 * bb ->
  word_addr wq p i = if i <? 16 * first_blocks p bb then wq_bufAddr wq + p mod TILEXR_UDMA_SQ_BB_COUNT * TILEXR_UDMA_WQE_BB_BYTES + 4 * i
                     else wq_bufAddr wq + 4 * (i - 16 * first_blocks p bb).
Proof using Hctx.
  intros Hbb Hi. destruct (contexts_depth wq cq Hctx) as [Hd _]. unfold word_addr, first_blocks. rewrite Hd.
  change TILEXR_UDMA_SQ_BB_COUNT with 16384. unfold TILEXR_UDMA_WQE_BB_BYTES. rewrite <- Z.add_mod_idemp_l by lia.
  pose proof (Z.mod_pos_bound p 16384 ltac:(lia)) as Hp. set (h := p mod 16384) in *. clearbody h.
  destruct (Z.ltb_spec i (16 * Z.min bb (16384 - h))); div_lia.
Qed.

Lemma publish_eq m ws p bb : 1 <= bb <= 4 -> UDMAPublishWqe m ws wq (u32 p) bb =
  let first := first_blocks p bb in
  let m1 := store_words m (wq_bufAddr wq + p mod TILEXR_UDMA_SQ_BB_COUNT * TILEXR_UDMA_WQE_BB_BYTES) (take (Z.to_nat (16 * first)) ws) in
  if first =? bb then m1 else store_words m1 (wq_bufAddr wq) (take (Z.to_nat (16 * (bb - first))) (drop (Z.to_nat (16 * first)) ws)).
Proof using Hctx.
  intros Hbb. destruct (contexts_depth wq cq Hctx) as [Hd _]. unfold UDMAPublishWqe, first_blocks. cbv zeta. rewrite Hd, (ring_u32 _ p ring_sq).
  change TILEXR_UDMA_SQ_BB_COUNT with 16384. unfold TILEXR_UDMA_WQE_BB_BYTES.
  pose proof (Z.mod_pos_bound p 16384 ltac:(lia)) as Hp. rewrite (u32_small (16384 - p mod 16384)) by lia.
  assert ((if bb <? 16384 - p mod 16384 then bb else 16384 - p mod 16384) = Z.min bb (16384 - p mod 16384)) as -> by (case_if; b2p; lia).
  set (f := Z.min bb (16384 - p mod 16384)). rewrite (u32_small (f * 64)), (u32_small (bb - f)), (u32_small ((bb - f) * 64)) by lia.
  replace (f * 64 / 4) with (16 * f) by (rewrite Z.mul_comm; div_lia). replace ((bb - f) * 64 / 4) with (16 * (bb - f)) by div_lia.
  destruct (Z.eqb_spec f bb); done.
Qed.

Lemma publish_at m ws p bb i : 1 <= bb <= 4 -> Z.of_nat (length ws) = 16 * bb -> 0 <= i < 16 * bb ->
  UDMAPublishWqe m ws wq (u32 p) bb (word_addr wq p i) = nth (Z.to_nat i) ws 0.
Proof using Hctx.
  intros Hbb Hlen Hi. rewrite publish_eq by done. cbv zeta. rewrite (word_addr_split p bb i Hbb Hi).
  pose proof (Z.mod_pos_bound p TILEXR_UDMA_SQ_BB_COUNT ltac:(done)) as Hp.
  assert (1 <= first_blocks p bb <= bb) as Hf by (unfold first_blocks; lia).
  assert (first_blocks p bb < bb -> p mod TILEXR_UDMA_SQ_BB_COUNT + first_blocks p bb = 16384) as Hw.
  { unfold first_blocks. change TILEXR_UDMA_SQ_BB_COUNT with 16384. lia. }
  unfold TILEXR_UDMA_WQE_BB_BYTES. destruct (Z.ltb_spec i (16 * first_blocks p bb)) as [Hlt|Hge].
  - assert (forall m', store_words m' (wq_bufAddr wq + p mod TILEXR_UDMA_SQ_BB_COUNT * 64) (take (Z.to_nat (16 * first_blocks p bb)) ws)
      (wq_bufAddr wq + p mod TILEXR_UDMA_SQ_BB_COUNT * 64 + 4 * i) = nth (Z.to_nat i) ws 0) as H1.
    { intros m'. rewrite store_words_at by (rewrite length_take; lia). rewrite !nth_lookup, lookup_take_lt by lia. done. }
    case_if; [apply H1|]. b2p. rewrite store_words_other; [apply H1|]. rewrite length_take, length_drop. intros j Hj. lia.
  - case_if; [b2p; lia|]. b2p. rewrite store_words_at by (rewrite length_take, length_drop; lia).
    rewrite !nth_lookup, lookup_take_lt, lookup_drop by lia. do 2 f_equal. lia.
Qed.

Lemma publish_other m ws p bb a : 1 <= bb <= 4 -> Z.of_nat (length ws) = 16 * bb -> (forall i, 0 <= i < 16 * bb -> a <> word_addr wq p i) ->
  UDMAPublishWqe m ws wq (u32 p) bb a = m a.
Proof using Hctx.
  intros Hbb Hlen Ha. rewrite publish_eq by done. cbv zeta.
  assert (1 <= first_blocks p bb <= bb) as Hf.
  { unfold first_blocks. pose proof (Z.mod_pos_bound p TILEXR_UDMA_SQ_BB_COUNT ltac:(done)). lia. }
  assert (forall m', store_words m' (wq_bufAddr wq + p mod TILEXR_UDMA_SQ_BB_COUNT * TILEXR_UDMA_WQE_BB_BYTES) (take (Z.to_nat (16 * first_blocks p bb)) ws) a = m' a) as H1.
  { intros m'. apply store_words_other. rewrite length_take. intros i Hi. specialize (Ha i ltac:(lia)).
    rewrite (word_addr_split p bb i Hbb ltac:(lia)), (proj2 (Z.ltb_lt i (16 * first_blocks p bb))) in Ha by lia. done. }
  case_if; [apply H1|]. b2p. rewrite store_words_other; [apply H1|]. rewrite length_take, length_drop. intros i Hi.
  specialize (Ha (i + 16 * first_blocks p bb) ltac:(lia)). rewrite (word_addr_split p bb (i + 16 * first_blocks p bb) Hbb ltac:(lia)) in Ha.
  rewrite (proj2 (Z.ltb_ge (i + 16 * first_blocks p bb) (16 * first_blocks p bb))) in Ha by lia.
  by rewrite Z.add_simpl_r in Ha.
Qed.

(** ** The ring behind a post *)

(** Memory behind a post of [entry] at position [p]: its words, the head, the count and the door
    bell apart, nothing has changed. *)
Record posted_mem (m m' : Mem) (log : list (list Z)) (entry : list Z) : Prop := {
  pm_words i : 0 <= i < Z.of_nat (length entry) -> m' (word_addr wq (position log (posted log)) i) = nth (Z.to_nat i) entry 0;
  pm_head : m' (wq_headAddr wq) = u32 (position log (posted log) + entry_bb entry);
  pm_count : m' (wqeCntAddr wq) = u32 (posted log + 1);
  pm_other a : a <> wq_headAddr wq -> a <> wqeCntAddr wq -> a <> wq_dbAddr wq ->
    (forall i, 0 <= i < Z.of_nat (length entry) -> a <> word_addr wq (position log (posted log)) i) -> m' a = m a
}.

Lemma push m m' log c entry : ring_ok wq cq m log c -> entry_ok entry ->
  position log (posted log) + entry_bb entry - position log c <= TILEXR_UDMA_SQ_BB_COUNT -> posted_mem m m' log entry ->
  ring_ok wq cq m' (log ++ [entry]) c.
Proof using Hctx.
  intros [L R Rm H T Cn Cq B] He Hroom [P1 P2 P3 P4].
  assert (posted (log ++ [entry]) = posted log + 1) as Ep by (unfold posted; rewrite length_app; cbn; lia).
  pose proof (cx_words _ _ Hctx) as Hn. rewrite !NoDup_cons, !not_elem_of_cons in Hn. pose proof (ring_apart _ _ Hctx) as Hap.
  assert (forall a, a ∈ [wq_tailAddr wq; cq_tailAddr cq] -> m' a = m a) as Hkeep.
  { intros a Ha. rewrite !elem_of_cons, elem_of_nil in Ha. apply P4; [destruct Ha as [-> |[-> |[]]]; intros E; rewrite E in *; tauto..|].
    intros i _ E. apply (Hap (position log (posted log)) i). rewrite <- E, !elem_of_cons. clear - Ha. tauto. }
  clear Hn. constructor.
  - apply Forall_app. split; [done|by constructor].
  - lia.
  - rewrite Ep, position_snoc, position_app by lia. lia.
  - rewrite Ep, position_snoc. done.
  - rewrite position_app by lia. rewrite Hkeep by (rewrite !elem_of_cons; clear; tauto). done.
  - rewrite Ep. done.
  - rewrite Hkeep by (rewrite !elem_of_cons; clear; tauto). done.
  - intros n e i Hn' Hln Hi. destruct (Z.lt_ge_cases n (posted log)) as [Hlt|Hge].
    + rewrite lookup_app_l in Hln by (unfold posted in *; lia). rewrite position_app by lia.
      rewrite P4; [by apply B|..]. 1-3: intros E; apply (Hap (position log n) i); rewrite E, !elem_of_cons; clear; tauto.
      intros i' Hi'. apply word_addr_apart. destruct He as [He1 He2]. rewrite Forall_lookup in L. destruct (L _ _ Hln) as [Hs1 Hs2].
      rewrite <- Forall_lookup in L. pose proof (position_le log c n L ltac:(lia) ltac:(lia)).
      pose proof (position_S log n e ltac:(lia) Hln). pose proof (position_le log (n + 1) (posted log) L ltac:(lia) ltac:(lia)).
      assert (0 <= i / 16 < entry_bb e) by (clear - Hi Hs1; div_lia). assert (0 <= i' / 16 < entry_bb entry) by (clear - Hi' He1; div_lia). lia.
    + pose proof (lookup_lt_Some _ _ _ Hln) as Hlt. rewrite length_app in Hlt. cbn in Hlt. unfold posted in *.
      assert (n = Z.of_nat (length log)) as -> by lia. rewrite Nat2Z.id, list_lookup_middle in Hln by done. injection Hln as <-.
      rewrite position_app by (unfold posted; lia). by apply P1.
Qed.

(** The door bell is no part of the ring. *)
Lemma ring_bell m log c h : ring_ok wq cq m log c -> ring_ok wq cq (UDMARingDoorbell m h wq) log c.
Proof using Hctx.
  intros [L R Rm H T Cn Cq B]. pose proof (cx_words _ _ Hctx) as Hn. rewrite !NoDup_cons, !not_elem_of_cons in Hn.
  unfold UDMARingDoorbell, st_dev. constructor; try done.
  all: try (rewrite upd1_ne; [done|tauto]). 1: rewrite upd1_ne; [done|apply not_eq_sym; tauto].
  intros n e i H1 H2 H3. rewrite upd1_ne; [by apply B|]. intros E. apply (ring_apart _ _ Hctx (position log n) i). rewrite E, !elem_of_cons. clear. tauto.
Qed.

Lemma wqe_words_length opcode remote local len mi params token head flag m :
  (opcode = WRITE_WITH_NOTIFY -> is_Some params) ->
  Z.of_nat (length (wqe_words opcode remote local len mi params token head flag m)) = 16 * UDMAWqeBBCnt opcode.
Proof using Type. intros Hp. destruct opcode; [done| |done]. destruct params; [done|]. by destruct (Hp eq_refl). Qed.

(** What a post stores, given the head it starts from. *)
Definition posted_entry (opcode : UDMAOpcode) (remote local len : Z) (mi : UDMAMemInfo) (params : option UDMASignalParams) (flag : Z)
    (m : Mem) (log : list (list Z)) : list Z :=
  wqe_words opcode remote local len mi params (wq_localTokenId wq) (u32 (position log (posted log))) flag m.

Lemma submit_spec opcode ring info remote local pe qp len params flag m t log c mi : ring_ok wq cq m log c ->
  UDMAGetRemoteMemInfo info pe qp = Some mi -> eidAddr mi <> 0 -> (opcode = WRITE_WITH_NOTIFY -> is_Some params) ->
  let entry := posted_entry opcode remote local len mi params flag m log in
  let r := submit opcode ring info wq remote local pe qp len params flag m t in
  po_status r = TILEXR_UDMA_STATUS_SUCCESS /\ po_time r = t /\ entry_ok entry /\ entry_bb entry = UDMAWqeBBCnt opcode /\
  posted_mem m (po_mem r) log entry /\
  (ring = true -> po_mem r (wq_dbAddr wq) = u32 (position log (posted log) + entry_bb entry)) /\
  (ring = false -> po_mem r (wq_dbAddr wq) = m (wq_dbAddr wq)).
Proof using Hctx.
  intros Hr Hmi Heid Hp entry r. pose proof (wqe_words_length opcode remote local len mi params (wq_localTokenId wq) (u32 (position log (posted log))) flag m Hp) as Hlen.
  change (Z.of_nat (length entry) = 16 * UDMAWqeBBCnt opcode) in Hlen. assert (entry_bb entry = UDMAWqeBBCnt opcode) as Ebb by (unfold entry_bb; rewrite Hlen; destruct opcode; done).
  assert (1 <= UDMAWqeBBCnt opcode <= 4) as Hbb by (destruct opcode; cbn; lia).
  assert (r = {| po_status := TILEXR_UDMA_STATUS_SUCCESS; po_time := t; po_mem :=
     let m1 := UDMAPublishWqe m entry wq (u32 (position log (posted log))) (UDMAWqeBBCnt opcode) in
     let h := u32 (position log (posted log) + UDMAWqeBBCnt opcode) in
     let m2 := st_dev (st_dev m1 h (wq_headAddr wq)) (u32 (posted log + 1)) (wqeCntAddr wq) in
     if ring then UDMARingDoorbell m2 h wq else m2 |}) as ->.
  { unfold r, submit. rewrite Hmi, (proj2 (Z.eqb_neq _ 0)) by done. cbv zeta. unfold ld_dev.
    rewrite (ri_head _ _ _ _ _ Hr), (ri_count _ _ _ _ _ Hr), !u32_add. done. }
  cbn [po_status po_time po_mem]. cbv zeta. set (m1 := UDMAPublishWqe _ _ _ _ _).
  pose proof (cx_words _ _ Hctx) as Hn. rewrite !NoDup_cons, !not_elem_of_cons in Hn. pose proof (ring_apart _ _ Hctx) as Hap.
  assert (forall v, u32 (u32 v) = u32 v) as Huu by (intros v; apply u32_small, u32_range).
  split; [done|]. split; [done|]. split; [clear Hn; split; [lia|unfold TILEXR_UDMA_MAX_SQE_BB_NUM; lia]|]. split; [done|].
  assert (forall a, a <> wq_headAddr wq -> a <> wqeCntAddr wq -> a <> wq_dbAddr wq -> forall h h' v,
    (if ring then UDMARingDoorbell (st_dev (st_dev m1 h (wq_headAddr wq)) v (wqeCntAddr wq)) h' wq
     else st_dev (st_dev m1 h (wq_headAddr wq)) v (wqeCntAddr wq)) a = m1 a) as Hother.
  { intros a A1 A2 A3 h h' v. unfold UDMARingDoorbell, st_dev. destruct ring; by rewrite !upd1_ne. }
  assert (m1 (wq_dbAddr wq) = m (wq_dbAddr wq)) as Hdb.
  { apply publish_other; [done|done|]. intros i _ E. apply (Hap (position log (posted log)) i). rewrite <- E, !elem_of_cons. clear. tauto. }
  split; [|split].
  - constructor.
    + clear Hn. intros i Hi. rewrite Hother; [apply publish_at; [done|done|lia]|..]; intros E; apply (Hap (position log (posted log)) i); rewrite E, !elem_of_cons; clear; tauto.
    + rewrite Ebb. unfold UDMARingDoorbell, st_dev. destruct ring; rewrite ?(upd1_ne _ (wq_dbAddr wq)) by tauto; rewrite upd1_ne, upd1_eq by tauto; apply Huu.
    + unfold UDMARingDoorbell, st_dev. destruct ring; rewrite ?(upd1_ne _ (wq_dbAddr wq)) by tauto; rewrite upd1_eq; apply Huu.
    + clear Hn. intros a A1 A2 A3 Ha. rewrite Hother by done. apply publish_other; [done|done|]. intros i Hi. apply Ha. lia.
  - intros ->. rewrite Ebb. unfold UDMARingDoorbell, st_dev. rewrite upd1_eq. apply Huu.
  - intros ->. unfold st_dev. rewrite !upd1_ne; [done|..]; apply not_eq_sym; tauto.
Qed.
End post.
