(* ===== verification/UdmaProps.v ===== *)
(** What the queue pairs of the UDMA wrapper guarantee under the contract of the device
    ([device_ok] in UdmaRing): a poll reports completion only for what is complete, and a post
    never touches an entry the device may still read. *)
From S2P Require Import Prelude CombineWire WqeRing WqeProps UdmaTypes UdmaQueue UdmaOps UdmaRing UdmaPost.

(** Tests of pointers that are set. *)
Ltac test_set := repeat match goal with H : ?x <> 0 |- context [?x =? 0] => rewrite (proj2 (Z.eqb_neq x 0) H) end.

(** The queue pair of a peer in the tables of a communicator. *)
Record queue_at (info : option UDMAInfo) (pe qpIdx : Z) (wq : UDMAWQCtx) (cq : UDMACQCtx) : Prop := {
  qa_info : exists i, info = Some i /\ 0 < qpNum i <= TILEXR_UDMA_DEVICE_MAX_QP_COUNT /\ 0 <= qpIdx < qpNum i /\
    sqPtr i <> 0 /\ scqPtr i <> 0 /\ memPtr i <> 0;
  qa_wq : UDMAGetWQCtx info pe qpIdx = Some wq;
  qa_cq : UDMAGetSCQCtx info pe qpIdx = Some cq;
  qa_contexts : contexts_ok wq cq
}.

Lemma queue_contexts info pe qp wq cq : queue_at info pe qp wq cq -> poll_contexts info pe qp = Some (wq, cq).
Proof.
  intros [(i & -> & Hq & Hp & H1 & H2 & _) E1 E2 Hc]. unfold poll_contexts. rewrite E1, E2. cbn [mbind option_bind].
  rewrite (cx_valid _ _ Hc). unfold TILEXR_UDMA_DEVICE_MAX_QP_COUNT in *. case_if; [|done]. b2p. lia.
Qed.

Section props.
Context (info : option UDMAInfo) (pe qp : Z) (wq : UDMAWQCtx) (cq : UDMACQCtx) (Hq : queue_at info pe qp wq cq).
Context (hw : Z -> Mem) (log : list (list Z)) (complete : Z -> Z) (failure : Z -> Z * Z).
Context (Hdev : device_ok hw cq log complete failure).

Lemma poll_cq_outcome m t c k : ring_ok wq cq m log c -> c <= complete t -> c <= k <= posted log ->
  poll_outcome wq cq log complete failure m t c k (UDMAPollCQ hw info pe qp (u32 k) m t).
Proof using Hq Hdev.
  intros Hr Hct Hk. pose proof (qa_contexts _ _ _ _ _ Hq) as Hctx. pose proof (outstanding_cq _ _ log m c Hr) as Ho.
  unfold UDMAPollCQ. rewrite (queue_contexts _ _ _ _ _ Hq). unfold ld_dev. rewrite (ri_cq _ _ _ _ _ Hr), (ri_tail _ _ _ _ _ Hr).
  destruct (contexts_depth wq cq Hctx) as (_ & -> & _). unfold TILEXR_UDMA_CQ_DEPTH in *. rewrite u32_sub by lia.
  rewrite (proj2 (Z.ltb_ge _ _)) by lia. replace k with (c + Z.of_nat (Z.to_nat (k - c))) at 1 by lia.
  apply poll_entries_outcome with (hw := hw); try done. lia.
Qed.

Lemma poll_until_sq_outcome m t c k : ring_ok wq cq m log c -> c <= complete t -> c <= k <= posted log ->
  poll_outcome wq cq log complete failure m t c k (UDMAPollCQUntilSqTail hw info pe qp (u32 (position log k)) m t).
Proof using Hq Hdev.
  intros Hr Hct Hk. pose proof (qa_contexts _ _ _ _ _ Hq) as Hctx. pose proof (ri_log _ _ _ _ _ Hr) as L. pose proof (ri_reaped _ _ _ _ _ Hr).
  pose proof (position_le log c k L ltac:(lia) ltac:(lia)). pose proof (position_le log k (posted log) L ltac:(lia) ltac:(lia)).
  pose proof (ri_room _ _ _ _ _ Hr) as Hroom. change TILEXR_UDMA_SQ_BB_COUNT with 16384 in Hroom.
  unfold UDMAPollCQUntilSqTail. rewrite (queue_contexts _ _ _ _ _ Hq). unfold ld_dev. rewrite (ri_cq _ _ _ _ _ Hr), (ri_tail _ _ _ _ _ Hr).
  destruct (contexts_depth wq cq Hctx) as (-> & _). change TILEXR_UDMA_SQ_BB_COUNT with 16384. rewrite u32_sub by lia.
  rewrite (proj2 (Z.ltb_ge _ _)) by lia. apply poll_until_outcome; try done. lia.
Qed.

(** A poll for entries that are complete and did not fail succeeds, and no poll is refused. *)
Lemma outcome_status m t c k r : poll_outcome wq cq log complete failure m t c k r ->
  po_status r <> TILEXR_UDMA_STATUS_INVALID /\
  (k <= complete t -> (forall n, c <= n < k -> failure n = (0, 0)) -> po_status r = TILEXR_UDMA_STATUS_SUCCESS) /\
  (po_status r = TILEXR_UDMA_STATUS_SUCCESS -> ring_ok wq cq (po_mem r) log k /\ k <= complete (po_time r) /\
     (forall n, c <= n < k -> failure n = (0, 0))).
Proof using Hdev.
  intros (j & Hj & Hr & Hs & Hn & [(-> & -> & Hc)|[(Hlt & E & t' & Ht & Hc)|(Hlt & Hf & E & t' & Ht & Hc)]]).
  - split; [done|]. split; done.
  - rewrite E. split; [done|]. split; [|done]. intros Hk _. exfalso.
    pose proof (dv_mono _ _ _ _ _ Hdev t (t' + TILEXR_UDMA_MAX_RETRY_TIMES - 1) ltac:(unfold TILEXR_UDMA_MAX_RETRY_TIMES; lia)). lia.
  - rewrite E. pose proof (dv_byte _ _ _ _ _ Hdev j) as [B1 B2]. unfold failure_code, TILEXR_UDMA_STATUS_INVALID, TILEXR_UDMA_STATUS_SUCCESS.
    split; [lia|]. split; [intros _ Hall; exfalso; apply Hf, Hall; lia|]. intros E0. exfalso. apply Hf. destruct (failure j). cbn in *. f_equal; lia.
Qed.

(** C14: the two polls of a queue pair against the contract of the device. From a sound queue with [c]
    entries reaped, a poll for the entries up to [k], by their number or by the position behind
    them in the send ring, with all counters at 32 bits, reaps a prefix of them: all of them when
    it reports success, and then the device has completed them without a failure; otherwise it
    stops at an entry that failed, with its status bytes as the code, or at one that was not
    complete during a whole wait. It is never refused, leaves the queue sound at the entry it
    stopped at, and succeeds when all entries asked for are complete. *)
Theorem udma_polls_refine m t c k : ring_ok wq cq m log c -> c <= complete t -> c <= k <= posted log ->
  forall r, r = UDMAPollCQ hw info pe qp (u32 k) m t \/ r = UDMAPollCQUntilSqTail hw info pe qp (u32 (position log k)) m t ->
  poll_outcome wq cq log complete failure m t c k r /\ po_status r <> TILEXR_UDMA_STATUS_INVALID /\
  (k <= complete t -> (forall n, c <= n < k -> failure n = (0, 0)) -> po_status r = TILEXR_UDMA_STATUS_SUCCESS) /\
  (po_status r = TILEXR_UDMA_STATUS_SUCCESS -> ring_ok wq cq (po_mem r) log k /\ k <= complete (po_time r)).
Proof using Hq Hdev.
  intros Hr Hct Hk r Hor. assert (poll_outcome wq cq log complete failure m t c k r) as Ho.
  { destruct Hor as [-> | ->]; [by apply poll_cq_outcome|by apply poll_until_sq_outcome]. }
  split; [done|]. destruct (outcome_status m t c k r Ho) as (H1 & H2 & H3). split; [done|]. split; [done|]. intros E. by destruct (H3 E) as (? & ? & _).
Qed.

(** ** Posts *)

Context (opcode : UDMAOpcode) (scratch : Scratch) (remote local len flag : Z) (params : option UDMASignalParams) (mi : UDMAMemInfo).

(** Arguments a post accepts. *)
Record post_args : Prop := {
  pa_scratch : UDMAWqeScratchValid scratch = true;
  pa_remote : remote <> 0;
  pa_local : local <> 0 \/ len = 0;
  pa_len : 0 <= len < 4294967296;
  pa_flag : Z.land flag TILEXR_UDMA_SQE_FLAG_COMPLETION <> 0;
  pa_notify : opcode = WRITE_WITH_NOTIFY -> exists p, params = Some p /\ sigAddr p <> 0;
  pa_mem : UDMAGetRemoteMemInfo info pe qp = Some mi;
  pa_eid : eidAddr mi <> 0
}.

(** The ring has place for the entry behind [reaped] entries. *)
Definition room (reaped : Z) : Prop := position log (posted log) + UDMAWqeBBCnt opcode - position log reaped <= TILEXR_UDMA_SQ_BB_COUNT.

#[export] Instance room_dec c : Decision (room c).
Proof using Type. apply _. Defined.

Lemma validate_spec m c : post_args -> ring_ok wq cq m log c ->
  UDMAValidatePostSend opcode info remote local qp len flag (Some wq) m =
  if decide (room c) then TILEXR_UDMA_STATUS_SUCCESS else TILEXR_UDMA_STATUS_SQ_FULL.
Proof using Hq.
  intros [_ A1 A2 A3 A4 _ _ _] Hr. destruct Hq as [(i & -> & _ & Hp & H1 & _ & H2) _ _ Hctx].
  destruct (contexts_depth wq cq Hctx) as (Hd & _ & B1 & B2 & B3). destruct (cx_set _ _ Hctx) as [B4 B5].
  pose proof (ri_log _ _ _ _ _ Hr) as L. pose proof (ri_reaped _ _ _ _ _ Hr) as Rp. pose proof (ri_room _ _ _ _ _ Hr) as Rm.
  pose proof (position_le log c (posted log) L ltac:(lia) ltac:(lia)) as Hle.
  unfold UDMAValidatePostSend. test_set. rewrite (proj2 (Z.leb_gt _ _)) by lia. cbn [orb].
  assert ((local =? 0) && negb (len =? 0) = false) as ->.
  { destruct A2 as [A2| ->]; [by rewrite (proj2 (Z.eqb_neq _ 0) A2)|apply andb_false_r]. }
  rewrite (proj2 (Z.ltb_ge _ _)) by lia. rewrite Hd, (cx_shift _ _ Hctx). unfold ld_dev. rewrite (ri_head _ _ _ _ _ Hr), (ri_tail _ _ _ _ _ Hr).
  unfold room. change TILEXR_UDMA_SQ_BB_COUNT with 16384 in *. rewrite u32_sub by lia. cbv zeta.
  change (negb (16384 =? 16384)) with false. change (32 <=? 6) with false. cbn [orb].
  assert (negb (Z.shiftl 1 6 =? TILEXR_UDMA_WQE_BB_BYTES) || (16384 <? UDMAWqeBBCnt opcode) ||
    (Z.shiftl 1 6 * UDMAWqeBBCnt opcode <? sizeof_UDMASqeCtx + sizeof_UDMASgeCtx +
       match opcode with WRITE_WITH_NOTIFY => sizeof_UDMANotifyCtx | _ => 0 end) = false) as -> by (by destruct opcode).
  rewrite (proj2 (Z.ltb_ge 16384 _)) by lia. rewrite u32_small by lia. destruct (Z.ltb_spec (16384 - (position log (posted log) - position log c)) (UDMAWqeBBCnt opcode)); case_decide; try done; exfalso; lia.
Qed.

(** The queue behind a post from the memory [m] with [reaped] entries reaped. *)
Definition post_accepted (m : Mem) (reaped : Z) (r : Polled) : Prop :=
  let entry := posted_entry wq opcode remote local len mi params flag m log in
  po_status r = TILEXR_UDMA_STATUS_SUCCESS /\ ring_ok wq cq (po_mem r) (log ++ [entry]) reaped /\
  posted_mem wq m (po_mem r) log entry.

Lemma submit_accepted ring m t c : post_args -> ring_ok wq cq m log c -> room c ->
  post_accepted m c (submit opcode ring info wq remote local pe qp len params flag m t).
Proof using Hq.
  intros [_ _ _ _ _ A1 A2 A3] Hr Hroom. pose proof (qa_contexts _ _ _ _ _ Hq) as Hctx.
  assert (opcode = WRITE_WITH_NOTIFY -> is_Some params) as Hp by (intros E; destruct (A1 E) as (p & -> & _); by exists p).
  destruct (submit_spec wq cq Hctx opcode ring info remote local pe qp len params flag m t log c mi Hr A2 A3 Hp) as (H1 & _ & H2 & H3 & H4 & _).
  split; [done|]. split; [|done]. eapply push; [done..| |done]. by rewrite H3.
Qed.

(** The words of the entry in the ring. *)
Lemma submit_decoded ring m t c : post_args -> post_widths remote local len flag params -> ring_ok wq cq m log c -> room c ->
  let head := position log (posted log) in
  wqe_decoded (fun i => po_mem (submit opcode ring info wq remote local pe qp len params flag m t) (word_addr wq head i)) opcode remote local len params flag head.
Proof using Hq.
  intros Ha W Hr Hroom. destruct (submit_accepted ring m t c Ha Hr Hroom) as (_ & _ & Hp).
  pose proof (position_le log 0 (posted log) (ri_log _ _ _ _ _ Hr) ltac:(unfold posted; lia) ltac:(lia)) as Hle. rewrite position_0 in Hle.
  assert (opcode = WRITE_WITH_NOTIFY -> is_Some params) as Hn by (intros E; destruct (pa_notify Ha E) as (p & -> & _); by exists p).
  eapply wqe_decoded_ext; [|eapply wqe_fields; [unfold posted in *; lia|done|done]].
  intros j Hj. apply (pm_words _ _ _ _ _ Hp). unfold posted_entry. by rewrite wqe_words_length.
Qed.

Lemma room_all : room (posted log).
Proof using Type. unfold room. rewrite Z.add_simpl_l. by destruct opcode. Qed.

(** A post behind the checks of its arguments. *)
Lemma post_send_checked ring m t c : post_args -> ring_ok wq cq m log c ->
  let validate m := UDMAValidatePostSend opcode info remote local qp len flag (Some wq) m in
  UDMAPostSend hw opcode ring info scratch remote local pe qp len params flag m t =
  if (validate m =? TILEXR_UDMA_STATUS_SQ_FULL) && ring then
    let m1 := UDMARingDoorbell m (u32 (position log (posted log))) wq in
    let r := UDMAPollCQ hw info pe qp (u32 (posted log)) m1 t in
    if negb (po_status r =? TILEXR_UDMA_STATUS_SUCCESS) then r
    else if negb (validate (po_mem r) =? TILEXR_UDMA_STATUS_SUCCESS) then {| po_status := validate (po_mem r); po_mem := po_mem r; po_time := po_time r |}
    else submit opcode ring info wq remote local pe qp len params flag (po_mem r) (po_time r)
  else if negb (validate m =? TILEXR_UDMA_STATUS_SUCCESS) then {| po_status := validate m; po_mem := m; po_time := t |}
  else submit opcode ring info wq remote local pe qp len params flag m t.
Proof using Hq.
  intros [A0 _ _ _ _ A1 _ _] Hr. pose proof (qa_contexts _ _ _ _ _ Hq) as Hctx.
  pose proof (ring_bell wq cq Hctx m log c (u32 (position log (posted log))) Hr) as Hr1.
  destruct Hq as [(i & -> & Hn & Hp & H1 & _) Ewq _ _]. unfold UDMAPostSend.
  rewrite A0, Ewq. unfold TILEXR_UDMA_DEVICE_MAX_QP_COUNT in *. cbv zeta. unfold ld_dev. rewrite (ri_head _ _ _ _ _ Hr), (ri_count _ _ _ _ _ Hr1).
  test_set. rewrite (proj2 (Z.eqb_neq (qpNum i) 0)), (proj2 (Z.ltb_ge _ _)), (proj2 (Z.leb_gt _ _)) by lia. cbn [orb negb].
  destruct opcode; [done| |done]. destruct (A1 eq_refl) as (p & -> & Hs). by test_set.
Qed.

Lemma post_send_room ring m t c : post_args -> ring_ok wq cq m log c -> room c ->
  UDMAPostSend hw opcode ring info scratch remote local pe qp len params flag m t = submit opcode ring info wq remote local pe qp len params flag m t.
Proof using Hq.
  intros Ha Hr Hroom. rewrite (post_send_checked ring m t c Ha Hr). cbv zeta beta. by rewrite (validate_spec m c Ha Hr), decide_True by done.
Qed.

(** A post in terms of its parts: it submits when there is room, reclaims the ring and submits when
    it rings the door bell, and refuses otherwise. *)
Lemma post_send_eq ring m t c : post_args -> ring_ok wq cq m log c -> c <= complete t ->
  UDMAPostSend hw opcode ring info scratch remote local pe qp len params flag m t =
  if decide (room c) then submit opcode ring info wq remote local pe qp len params flag m t
  else if ring then
    let m1 := UDMARingDoorbell m (u32 (position log (posted log))) wq in
    let r := UDMAPollCQ hw info pe qp (u32 (posted log)) m1 t in
    if po_status r =? TILEXR_UDMA_STATUS_SUCCESS
    then submit opcode ring info wq remote local pe qp len params flag (po_mem r) (po_time r) else r
  else {| po_status := TILEXR_UDMA_STATUS_SQ_FULL; po_mem := m; po_time := t |}.
Proof using Hq Hdev.
  intros Ha Hr Hct. case_decide as Hroom; [by apply post_send_room with c|]. pose proof (qa_contexts _ _ _ _ _ Hq) as Hctx.
  pose proof (ring_bell wq cq Hctx m log c (u32 (position log (posted log))) Hr) as Hr1. pose proof (ri_reaped _ _ _ _ _ Hr) as Rp.
  pose proof (poll_cq_outcome _ t c (posted log) Hr1 Hct ltac:(lia)) as Ho. destruct (outcome_status _ t c _ _ Ho) as (_ & _ & Hok).
  rewrite (post_send_checked ring m t c Ha Hr). cbv zeta beta. rewrite (validate_spec m c Ha Hr), decide_False by done.
  change (TILEXR_UDMA_STATUS_SQ_FULL =? TILEXR_UDMA_STATUS_SQ_FULL) with true. cbn [andb]. destruct ring; [|done].
  set (r := UDMAPollCQ hw info pe qp (u32 (posted log)) _ t) in *. destruct (Z.eqb_spec (po_status r) TILEXR_UDMA_STATUS_SUCCESS) as [E|E]; [|done].
  cbn [negb]. destruct (Hok E) as (Hr2 & _). rewrite (validate_spec _ _ Ha Hr2). rewrite decide_True; [done|apply room_all].
Qed.

(** C15: a post to a sound queue. With room in the send ring it succeeds, appends one entry to what
    was ever posted, advances the head and the count and changes no other word, so that every
    outstanding entry stays as it was posted, also across the end of the ring and of the 32-bit
    counters. Without room and without the door bell it reports a full queue and changes nothing.
    Without room and with the door bell it waits for all that is outstanding: it posts into the
    empty ring when all of that is complete, and otherwise hands on the outcome of the wait. *)
Theorem udma_post_send ring m t c : post_args -> ring_ok wq cq m log c -> c <= complete t ->
  let r := UDMAPostSend hw opcode ring info scratch remote local pe qp len params flag m t in
  (room c -> post_accepted m c r) /\
  (~ room c -> ring = false -> r = {| po_status := TILEXR_UDMA_STATUS_SQ_FULL; po_mem := m; po_time := t |}) /\
  (~ room c -> ring = true -> exists r0,
     poll_outcome wq cq log complete failure (UDMARingDoorbell m (u32 (position log (posted log))) wq) t c (posted log) r0 /\
     (po_status r0 = TILEXR_UDMA_STATUS_SUCCESS -> post_accepted (po_mem r0) (posted log) r) /\
     (po_status r0 <> TILEXR_UDMA_STATUS_SUCCESS -> r = r0)).
Proof using Hq Hdev.
  intros Ha Hr Hct r. pose proof (post_send_eq ring m t c Ha Hr Hct) as E. fold r in E. cbv zeta in E. pose proof (qa_contexts _ _ _ _ _ Hq) as Hctx.
  pose proof (ring_bell wq cq Hctx m log c (u32 (position log (posted log))) Hr) as Hr1. pose proof (ri_reaped _ _ _ _ _ Hr) as Rp.
  pose proof (poll_cq_outcome _ t c (posted log) Hr1 Hct ltac:(lia)) as Ho. destruct (outcome_status _ t c _ _ Ho) as (_ & _ & Hok).
  split; [|split]; intros Hroom.
  - rewrite decide_True in E by done. rewrite E. by apply submit_accepted.
  - intros ->. by rewrite decide_False in E by done.
  - intros ->. rewrite decide_False in E by done. eexists. split; [exact Ho|]. split; intros Hs.
    + rewrite (proj2 (Z.eqb_eq _ _) Hs) in E. rewrite E. destruct (Hok Hs) as (Hr2 & _). apply submit_accepted; [done|done|apply room_all].
    + by rewrite (proj2 (Z.eqb_neq _ _) Hs) in E.
Qed.

(** C35: what the device reads in the ring behind a post: the entry sits at the head the queue had, is
    marked with its block in the ring and with the parity of the lap, carries the operation, the
    flag, the remote and the local address, the length and, for a write with a notification, the
    address and the value of the signal, with every address and value whole over its two words. *)
Theorem udma_wqe_decodes ring m t c : post_args -> post_widths remote local len flag params ->
  ring_ok wq cq m log c -> c <= complete t -> room c ->
  let head := position log (posted log) in
  let r := UDMAPostSend hw opcode ring info scratch remote local pe qp len params flag m t in
  wqe_decoded (fun i => po_mem r (word_addr wq head i)) opcode remote local len params flag head.
Proof using Hq Hdev.
  intros Ha W Hr Hct Hroom. cbv zeta. rewrite (post_send_eq ring m t c Ha Hr Hct), decide_True by done. by apply submit_decoded with c.
Qed.
End props.

(** ** Ranges *)

Lemma region_same registry rank region : 0 <= rank < 2147483648 -> 0 <= region ->
  UDMAProfileGetRegion registry rank region = UDMAProfileRegion registry rank region.
Proof.
  intros Hr Hg. unfold UDMAProfileGetRegion, UDMAProfileRegion. destruct registry as [r|]; [|done]. case_if; [done|]. b2p. f_equal. f_equal.
  unfold TILEXR_UDMA_PROFILE_MAX_REGIONS, TILEXR_MAX_RANK_SIZE in *. rewrite u32_small in * by lia. by rewrite !u64_small by (rewrite ?u64_small; lia).
Qed.

Lemma region_valid desc : UDMAProfileRegionValid desc = true -> 0 <= pd_base desc -> 0 <= pd_bytes desc ->
  pd_base desc <> 0 /\ pd_bytes desc <> 0 /\ UDMAProfileRegistrationBase desc <= pd_base desc /\
  pd_base desc + pd_bytes desc <= UDMAProfileRegistrationBase desc + UDMAProfileRegistrationBytes desc <= UINT64_MAX.
Proof.
  intros Hv H1 H2. unfold UDMAProfileRegionValid in Hv. unfold UDMAProfileRegistrationBase, UDMAProfileRegistrationBytes.
  case_if_in Hv; [done|]. case_if_in Hv; [done|]. case_if_in Hv.
  - b2p. rewrite (proj2 (Z.eqb_eq (registrationBase desc) 0)) by done. lia.
  - case_if_in Hv; [done|]. case_if_in Hv; [done|]. b2p. rewrite (proj2 (Z.eqb_neq (registrationBase desc) 0)) by done. lia.
Qed.

(** The checks of a range on the host and on the device. In a region the host accepts they agree
    for every range; a range they accept has the same address on both sides, which does not wrap
    in 64 bits, and lies in what was registered for the region. For the older registry of one
    region per rank the two checks agree for every registry. *)
Theorem udma_ranges_agree registry rank region offset count desc : 0 <= rank < 2147483648 -> 0 <= region -> 0 <= offset -> 0 <= count ->
  UDMAProfileRegion registry rank region = Some desc -> UDMAProfileRegionValid desc = true -> 0 <= pd_base desc -> 0 <= pd_bytes desc ->
  UDMAProfileRegisteredRangeValid registry rank region offset count = UDMAProfileRegionContains registry rank region offset count /\
  (UDMAProfileRegionContains registry rank region offset count = true ->
   let address := UDMAProfileRegisteredAddr registry rank region offset in
   address = UDMAProfileRemoteAddr registry rank region offset /\ address = pd_base desc + offset /\
   UDMAProfileRegistrationBase desc <= address /\
   address + count <= UDMAProfileRegistrationBase desc + UDMAProfileRegistrationBytes desc <= UINT64_MAX) /\
  (forall old, (forall r, old = Some r -> 0 <= rg_rankSize r < 4294967296 /\ 0 <= rg_regionCount r) ->
   UDMARegisteredRangeValid old rank offset count = UDMARegionContains old rank offset count).
Proof.
  intros Hr Hg Ho Hc E Hv B1 B2. destruct (region_valid desc Hv B1 B2) as (V1 & V2 & V3 & V4 & V5).
  unfold UDMAProfileRegisteredRangeValid, UDMAProfileRegionContains, UDMAProfileRegisteredAddr, UDMAProfileRemoteAddr.
  rewrite (region_same registry rank region Hr Hg), E, Hv. test_set. cbn [orb negb].
  split; [done|]. split.
  - destruct (Z.ltb_spec (pd_bytes desc) offset); [done|]. intros Hle. apply Z.leb_le in Hle. cbv zeta. unfold UINT64_MAX in *. rewrite u64_small by lia. lia.
  - intros [r|]; [|done]. intros Hold. destruct (Hold r eq_refl) as [R1 R2]. unfold UDMARegisteredRangeValid, UDMARegionContains, UDMARegistryValid, as_int.
    unfold TILEXR_MAX_RANK_SIZE, TILEXR_UDMA_MAX_REGIONS. rewrite (u32_small rank) by lia.
    destruct (Z.ltb_spec (rg_rankSize r) 2147483648); [|].
    + rewrite (u32_small (rg_rankSize r)), Z.eqb_refl by lia.
      destruct (rg_magic r =? _), (rg_version r =? _); cbn [negb andb orb]; try done.
      destruct (Z.leb_spec 0 (rg_rankSize r)), (Z.leb_spec (rg_rankSize r) 128), (Z.ltb_spec 0 (rg_regionCount r)), (Z.leb_spec (rg_regionCount r) 1);
        cbn [negb andb orb]; repeat case_if; b2p; try done; lia.
    + rewrite (proj2 (Z.leb_gt 0 (rg_rankSize r - 4294967296))) by lia. rewrite (proj2 (Z.ltb_lt 128 (rg_rankSize r))) by lia.
      rewrite !orb_true_r, !andb_false_r. done.
Qed.

Lemma udma_ranges_agree_witness :
  let desc := {| pd_base := 4096; pd_bytes := 8192; registrationBase := 2048; registrationBytes := 65536 |} in
  let registry := Some {| pr_magic := TILEXR_UDMA_PROFILE_MAGIC; pr_version := TILEXR_UDMA_PROFILE_VERSION; pr_rankSize := 4; pr_regionCount := 3;
    pr_qpCount := 1; qpBindings := fun _ => {| localRegion := 0; remoteRegion := 1 |}; pr_regions := fun _ => desc |} in
  UDMAProfileRegisteredRangeValid registry 3 2 8191 1 = UDMAProfileRegionContains registry 3 2 8191 1 /\
  UDMAProfileRegionContains registry 3 2 8191 1 = true.
Proof.
  intros desc registry. split; [|done].
  exact (proj1 (udma_ranges_agree registry 3 2 8191 1 desc ltac:(lia) ltac:(lia) ltac:(lia) ltac:(lia) eq_refl eq_refl ltac:(done) ltac:(done))).
Defined.

(** ** A queue pair *)

Module Sample.
Definition wq : UDMAWQCtx := {| wq_bufAddr := 1048576; wq_baseBkShift := 6; wq_depth := 16384; wq_headAddr := 64; wq_tailAddr := 68;
  wq_dbAddr := 72; wq_localTokenId := 5; wqeCntAddr := 76 |}.
Definition cq : UDMACQCtx := {| cq_bufAddr := 4194304; cq_baseBkShift := 6; cq_depth := 16384; cq_tailAddr := 80; cq_dbAddr := 84 |}.
Definition mi : UDMAMemInfo := {| tokenValueValid := true; mi_rmtJettyType := 1; mi_targetHint := 2; mi_tpn := 3; mi_tid := 4;
  mi_rmtTokenValue := 6; eidAddr := 256 |}.
Definition info : UDMAInfo := {| qpNum := 1; sqPtr := 8; scqPtr := 16; memPtr := 24;
  wq_entries := fun _ => wq; cq_entries := fun _ => cq; mem_entries := fun _ => mi |}.

(** Two entries were posted, the first was reaped, and the second completes at time 5. *)
Definition log : list (list Z) := [replicate 16 7; replicate 32 9].
Definition complete (t : Z) : Z := if t <? 5 then 1 else 2.
Definition failure (n : Z) : Z * Z := (0, 0).
Definition hw (t a : Z) : Z :=
  if a =? 4194304 then 4 else if a =? 4194304 + 64 then (if t <? 5 then 0 else 4) else if a =? 4194304 + 64 + 4 then 2 else 0.
Definition mem (a : Z) : Z :=
  if a =? 64 then 3 else if a =? 68 then 1 else if a =? 76 then 2 else if a =? 80 then 1
  else if (1048576 + 64 <=? a) && (a <? 1048576 + 192) then 9 else 0.

Lemma sample_contexts : contexts_ok wq cq.
Proof.
  constructor; [done|done|done| |].
  - cbn. repeat (apply NoDup_cons; split; [rewrite ?elem_of_cons, ?elem_of_nil; lia|]). apply NoDup_nil. done.
  - intros a. cbn. rewrite !elem_of_cons, elem_of_nil. lia.
Qed.

Lemma sample_queue : queue_at (Some info) 0 0 wq cq.
Proof. constructor; [exists info; cbn; unfold TILEXR_UDMA_DEVICE_MAX_QP_COUNT; split_and!; done || lia|done|done|apply sample_contexts]. Qed.

Lemma sample_cqe n : cqe_address cq (u32 n) = 4194304 + 64 * (n mod 16384).
Proof.
  unfold cqe_address. change (TILEXR_UDMA_CQ_DEPTH - 1) with (Z.ones 14). rewrite Z.land_ones by lia. change (2 ^ 14) with 16384.
  rewrite (ring_u32 16384 n (proj1 ring_cq)). cbn [cq_bufAddr cq_baseBkShift cq]. change (Z.shiftl 1 6) with 64.
  pose proof (Z.mod_pos_bound n 16384 ltac:(lia)). rewrite u32_small by lia. rewrite u64_small by lia. done.
Qed.

Lemma sample_device : device_ok hw cq log complete failure.
Proof.
  constructor.
  - intros t t' H. unfold complete. repeat case_if; b2p; lia.
  - intros t. unfold complete. by case_if.
  - intros t n Hn Hn' addr. unfold addr. rewrite sample_cqe. assert (n = 0 \/ n = 1 /\ (t <? 5) = false) as [-> |[-> Ht]].
    { unfold complete in Hn. destruct (t <? 5); [left|destruct (Z.eq_dec n 0)]; lia. }
    + done.
    + unfold hw. rewrite Ht. done.
  - intros t n Hn Hc. rewrite sample_cqe. unfold TILEXR_UDMA_CQ_DEPTH in *. unfold hw.
    destruct (Z.eqb_spec (4194304 + 64 * (n mod 16384)) 4194304).
    { assert (n = 16384) as -> by (unfold complete in Hc; destruct (t <? 5); div_lia). done. }
    destruct (Z.eqb_spec (4194304 + 64 * (n mod 16384)) (4194304 + 64)).
    { unfold complete in Hc. destruct (t <? 5).
      - assert (n = 1) as -> by div_lia. done.
      - assert (n = 16385) as -> by div_lia. done. }
    rewrite (proj2 (Z.eqb_neq _ _)) by div_lia. replace (n / 16384) with 0; [done|]. unfold complete in Hc. destruct (t <? 5); div_lia.
  - intros n. done.
Qed.

Lemma sample_ring : ring_ok wq cq mem log 1.
Proof.
  constructor; try done.
  - unfold log. repeat constructor; done.
  - intros n entry i Hn He Hi. assert (n = 1) as ->.
    { pose proof (lookup_lt_Some _ _ _ He) as Hl. cbn in Hl. lia. }
    assert (entry = replicate 32 9) as -> by (change (Some (replicate 32 9) = Some entry) in He; congruence). rewrite length_replicate in Hi. rewrite nth_lookup, lookup_replicate_2 by lia. cbn [from_option]. unfold id.
    unfold word_addr. change (position log 1) with 1. cbn [wq_bufAddr wq_depth wq]. unfold TILEXR_UDMA_WQE_BB_BYTES, mem.
    assert (1048576 + 64 <= 1048576 + (1 + i / 16) mod 16384 * 64 + 4 * (i mod 16) < 1048576 + 192) as Ha by (clear - Hi; div_lia).
    set (a := 1048576 + _ + _) in *. clearbody a. repeat case_if; b2p; lia.
Qed.

Definition scratch : Scratch := {| scratchAddr := 1024; scratchSize := 128 |}.
Definition params : UDMASignalParams := {| sigAddr := 8589934600; signal := 4294967297 |}.

Lemma sample_args : post_args (Some info) 0 0 WRITE_WITH_NOTIFY scratch 12884901888 17179869184 4096 0x22 (Some params) mi.
Proof. constructor; (done || lia || (left; lia) || (intros; by exists params)). Qed.
End Sample.

Lemma udma_polls_refine_witness :
  po_status (UDMAPollCQ Sample.hw (Some Sample.info) 0 0 (u32 2) Sample.mem 3) <> TILEXR_UDMA_STATUS_INVALID /\
  po_status (UDMAPollCQUntilSqTail Sample.hw (Some Sample.info) 0 0 (u32 (position Sample.log 2)) Sample.mem 7) = TILEXR_UDMA_STATUS_SUCCESS.
Proof.
  split.
  - apply (udma_polls_refine (Some Sample.info) 0 0 Sample.wq Sample.cq Sample.sample_queue Sample.hw Sample.log Sample.complete Sample.failure
      Sample.sample_device Sample.mem 3 1 2 Sample.sample_ring ltac:(done) ltac:(done) _ (or_introl eq_refl)).
  - apply (udma_polls_refine (Some Sample.info) 0 0 Sample.wq Sample.cq Sample.sample_queue Sample.hw Sample.log Sample.complete Sample.failure
      Sample.sample_device Sample.mem 7 1 2 Sample.sample_ring ltac:(done) ltac:(done) _ (or_intror eq_refl)); done.
Defined.

Lemma udma_post_send_witness :
  post_accepted Sample.wq Sample.cq Sample.log WRITE_WITH_NOTIFY 12884901888 17179869184 4096 0x22 (Some Sample.params) Sample.mi Sample.mem 1
    (UDMAPostSend Sample.hw WRITE_WITH_NOTIFY true (Some Sample.info) Sample.scratch 12884901888 17179869184 0 0 4096 (Some Sample.params) 0x22 Sample.mem 3).
Proof.
  apply (udma_post_send (Some Sample.info) 0 0 Sample.wq Sample.cq Sample.sample_queue Sample.hw Sample.log Sample.complete Sample.failure
    Sample.sample_device WRITE_WITH_NOTIFY Sample.scratch 12884901888 17179869184 4096 0x22 (Some Sample.params) Sample.mi true Sample.mem 3 1
    Sample.sample_args Sample.sample_ring); done.
Defined.

Lemma udma_wqe_decodes_witness :
  wqe_decoded (fun i => po_mem (UDMAPostSend Sample.hw WRITE_WITH_NOTIFY false (Some Sample.info) Sample.scratch 12884901888 17179869184 0 0 4096
      (Some Sample.params) 0x22 Sample.mem 3) (word_addr Sample.wq 3 i)) WRITE_WITH_NOTIFY 12884901888 17179869184 4096 (Some Sample.params) 0x22 3.
Proof.
  apply (udma_wqe_decodes (Some Sample.info) 0 0 Sample.wq Sample.cq Sample.sample_queue Sample.hw Sample.log Sample.complete Sample.failure
    Sample.sample_device WRITE_WITH_NOTIFY Sample.scratch 12884901888 17179869184 4096 0x22 (Some Sample.params) Sample.mi false Sample.mem 3 1
    Sample.sample_args); [|apply Sample.sample_ring|done|done].
  constructor; try lia. intros p [= <-]. cbn. lia.
Defined.
