(* ===== verification/UdmaPut.v ===== *)
(** A put with a signal into registered memory and the wait behind it (src/src/include/
    tilexr_udma.h: [UDMAPutSignalNbiOnQp] and [UDMAQuietStatusOnQp]), on top of the posts and the
    polls of UdmaProps. *)
From S2P Require Import Prelude CombineWire WqeRing WqeProps UdmaTypes UdmaQueue UdmaOps UdmaRing UdmaPost UdmaProps.

Section put.
Context (args : CommArgs) (info : UDMAInfo) (registry : TileXRUDMARegistry) (rank qp : Z) (wq : UDMAWQCtx) (cq : UDMACQCtx) (mi : UDMAMemInfo).

(** A peer with registered memory, and the queue pair to it. *)
Record put_peer : Prop := {
  pp_info : udmaInfoPtr args = Some info;
  pp_registry : udmaRegistryPtr args = Some registry;
  pp_queue : queue_at (Some info) rank qp wq cq;
  pp_mem : UDMAGetRemoteMemInfo (Some info) rank qp = Some mi;
  pp_eid : eidAddr mi <> 0;
  pp_region : 0 <= rd_base (rg_regions registry rank) /\ rd_base (rg_regions registry rank) + rd_bytes (rg_regions registry rank) <= UINT64_MAX
}.

Lemma registered_range offset count : put_peer -> 0 <= offset -> 0 <= count ->
  UDMARegisteredOperationValid (Some args) rank qp offset count = true ->
  UDMAQueueOperationValid (Some args) rank qp = true /\
  registered_addr (Some args) rank offset = rd_base (rg_regions registry rank) + offset /\
  0 < rd_base (rg_regions registry rank) /\ offset + count <= rd_bytes (rg_regions registry rank).
Proof using Type.
  intros Hp Ho Hc Hv. unfold UDMARegisteredOperationValid in Hv. case_if_in Hv; [done|]. case_if_in Hv; [done|]. case_if_in Hv; [done|]. b2p.
  unfold registered_addr, GetUDMARegistry in *. cbn [mbind option_bind] in *. rewrite (pp_registry Hp) in *. case_if_in Hv; [done|].
  unfold UDMARegisteredRangeValid in Hv. case_if_in Hv; [done|]. case_if_in Hv; [done|]. b2p. destruct (pp_region Hp) as [R1 R2]. unfold UINT64_MAX in R2.
  unfold UDMAQueueOperationValid, UDMARegisteredRemoteAddr. rewrite u64_small by lia. split; [|lia]. case_if; b2p; congruence.
Qed.

Section signal.
Context (scratch : Scratch) (localSrc byteOffset byteCount signalByteOffset value : Z).

(** Arguments the put accepts, at their widths. *)
Record put_args : Prop := {
  pu_scratch : UDMAWqeScratchValid scratch = true;
  pu_local : 0 < localSrc < 2 ^ 64;
  pu_offsets : 0 <= byteOffset /\ 0 <= byteCount < 2 ^ 32 /\ 0 <= signalByteOffset /\ 0 <= value < 2 ^ 64;
  pu_range : UDMARegisteredOperationValid (Some args) rank qp byteOffset byteCount = true;
  pu_signal : UDMARegisteredOperationValid (Some args) rank qp signalByteOffset 8 = true
}.

Let remote := rd_base (rg_regions registry rank) + byteOffset.
Let params := {| sigAddr := rd_base (rg_regions registry rank) + signalByteOffset; signal := value |}.

Lemma put_signal_args : put_peer -> put_args ->
  post_args (Some info) rank qp WRITE_WITH_NOTIFY scratch remote localSrc byteCount TILEXR_UDMA_SQE_FLAG_ORDERED_COMPLETION (Some params) mi /\
  post_widths remote localSrc byteCount TILEXR_UDMA_SQE_FLAG_ORDERED_COMPLETION (Some params).
Proof using Type.
  intros Hp [P1 P2 (P3 & P4 & P5 & P6) P7 P8]. destruct (registered_range byteOffset byteCount Hp P3 ltac:(lia) P7) as (_ & _ & B & R1).
  destruct (registered_range signalByteOffset 8 Hp P5 ltac:(lia) P8) as (_ & _ & _ & R2). pose proof (pp_region Hp) as [_ R3]. unfold UINT64_MAX in R3.
  destruct Hp as [_ _ _ Q1 Q2 _]. unfold remote. split; constructor; try (done || lia); [intros _; exists params; split; [done|unfold params; cbn; lia]|].
  intros p [= <-]. unfold params. cbn. lia.
Qed.

Lemma put_signal_eq hw m t : put_peer -> put_args ->
  UDMAPutSignalNbiOnQp hw true (Some args) scratch rank qp localSrc byteOffset byteCount signalByteOffset value m t =
  UDMAPostSend hw WRITE_WITH_NOTIFY true (Some info) scratch remote localSrc rank qp byteCount (Some params) TILEXR_UDMA_SQE_FLAG_ORDERED_COMPLETION m t.
Proof using Type.
  intros Hp [P1 P2 (P3 & P4 & P5 & P6) P7 P8]. destruct (registered_range byteOffset byteCount Hp P3 ltac:(lia) P7) as (Hv & E1 & B & R1).
  destruct (registered_range signalByteOffset 8 Hp P5 ltac:(lia) P8) as (_ & E2 & _ & R2).
  unfold UDMAPutSignalNbiOnQp. rewrite P7, P8, (proj2 (Z.eqb_neq localSrc 0)) by lia. cbn [negb orb andb].
  unfold UDMAWriteNotify. rewrite Hv, E1, E2. cbn [andb sigAddr]. rewrite (proj2 (Z.eqb_neq _ 0)) by lia.
  unfold GetUDMAInfo. cbn [mbind option_bind]. by rewrite (pp_info Hp).
Qed.

Lemma quiet_eq hw m t log c : put_peer -> UDMAQueueOperationValid (Some args) rank qp = true -> ring_ok wq cq m log c ->
  UDMAQuietStatusOnQp hw true (Some args) rank qp m t = UDMAPollCQ hw (Some info) rank qp (u32 (posted log)) m t.
Proof using Type.
  intros Hp Hv Hr. pose proof (pp_queue Hp) as Hq. destruct (qa_info _ _ _ _ _ Hq) as (i & [= <-] & _ & _ & B1 & B2 & _).
  unfold UDMAQuietStatusOnQp, UDMAQuietStatusOnQpUntil, GetUDMAInfo. rewrite Hv. cbn [mbind option_bind negb orb]. rewrite (pp_info Hp), (qa_wq _ _ _ _ _ Hq).
  destruct (cx_set _ _ (qa_contexts _ _ _ _ _ Hq)) as [B3 _]. test_set. cbn [orb]. unfold ld_dev. by rewrite (ri_count _ _ _ _ _ Hr).
Qed.

(** C34: a put with a signal, and the wait behind it. A put the registry allows, on a queue with room,
    succeeds: the entry at the head of the ring writes the bytes of the source into the region of
    the peer at the offset and the value at the signal's offset, with both addresses inside the
    registered region. Whatever the device does next, the wait is not refused; when it reports
    success, every entry ever posted to the queue is complete without a failure, this one
    included, and it does report success once that is so. *)
Theorem udma_put_signal_quiet hw m t log c complete failure : put_peer -> put_args -> ring_ok wq cq m log c -> room log WRITE_WITH_NOTIFY c ->
  let head := position log (posted log) in
  let r := UDMAPutSignalNbiOnQp hw true (Some args) scratch rank qp localSrc byteOffset byteCount signalByteOffset value m t in
  po_status r = TILEXR_UDMA_STATUS_SUCCESS /\
  wqe_decoded (fun i => po_mem r (word_addr wq head i)) WRITE_WITH_NOTIFY remote localSrc byteCount (Some params) TILEXR_UDMA_SQE_FLAG_ORDERED_COMPLETION head /\
  byteOffset + byteCount <= rd_bytes (rg_regions registry rank) /\ signalByteOffset + 8 <= rd_bytes (rg_regions registry rank) /\
  exists entry, ring_ok wq cq (po_mem r) (log ++ [entry]) c /\
    forall hw', device_ok hw' cq (log ++ [entry]) complete failure -> forall t', c <= complete t' ->
    let q := UDMAQuietStatusOnQp hw' true (Some args) rank qp (po_mem r) t' in
    po_status q <> TILEXR_UDMA_STATUS_INVALID /\
    (po_status q = TILEXR_UDMA_STATUS_SUCCESS -> posted log + 1 <= complete (po_time q) /\ forall n, c <= n <= posted log -> failure n = (0, 0)) /\
    (posted log + 1 <= complete t' -> (forall n, c <= n <= posted log -> failure n = (0, 0)) -> po_status q = TILEXR_UDMA_STATUS_SUCCESS).
Proof using Type.
  intros Hp Ha Hr Hroom head r. destruct (put_signal_args Hp Ha) as [Hpa Hw]. pose proof (pp_queue Hp) as Hq.
  assert (r = submit WRITE_WITH_NOTIFY true (Some info) wq remote localSrc rank qp byteCount (Some params) TILEXR_UDMA_SQE_FLAG_ORDERED_COMPLETION m t) as ->.
  { unfold r. rewrite (put_signal_eq hw m t Hp Ha). by apply (post_send_room (Some info) rank qp wq cq Hq hw log _ _ _ _ _ _ _ mi true m t c). }
  destruct (submit_accepted (Some info) rank qp wq cq Hq log _ scratch _ _ _ _ _ mi true m t c Hpa Hr Hroom) as (S1 & S2 & _).
  split; [done|]. destruct Ha as [_ _ (P3 & P4 & P5 & P6) P7 P8].
  destruct (registered_range byteOffset byteCount Hp P3 ltac:(lia) P7) as (Hv & _ & _ & R1). destruct (registered_range signalByteOffset 8 Hp P5 ltac:(lia) P8) as (_ & _ & _ & R2).
  split; [by apply (submit_decoded (Some info) rank qp wq cq Hq log _ scratch _ _ _ _ _ mi true m t c)|]. split; [done|]. split; [done|].
  eexists. split; [exact S2|]. intros hw' Hdev t' Hc q. unfold q. rewrite (quiet_eq hw' _ t' _ c Hp Hv S2).
  assert (forall e, posted (log ++ [e]) = posted log + 1) as Ep by (intros e; unfold posted; rewrite length_app; cbn; lia).
  pose proof (ri_reaped _ _ _ _ _ S2) as Rp. rewrite Ep in Rp |- *.
  pose proof (poll_cq_outcome (Some info) rank qp wq cq Hq hw' _ complete failure Hdev _ t' c (posted log + 1) S2 Hc ltac:(rewrite Ep; lia)) as Ho.
  destruct (outcome_status _ _ _ _ _ _ Hdev _ _ _ _ _ Ho) as (H1 & H2 & H3). split; [done|]. split.
  - intros Hs. destruct (H3 Hs) as (_ & H4 & H5). split; [done|]. intros n Hn. apply H5. lia.
  - intros H4 H5. apply H2; [done|]. intros n Hn. apply H5. lia.
Qed.
End signal.
End put.

(** ** A put to a peer *)

Module SamplePut.
Definition registry : TileXRUDMARegistry := {| rg_magic := TILEXR_UDMA_REGISTRY_MAGIC; rg_version := TILEXR_UDMA_REGISTRY_VERSION; rg_rankSize := 2;
  rg_regionCount := 1; rg_regions := fun _ => {| rd_base := 2 ^ 40; rd_bytes := 65536 |} |}.
Definition args : CommArgs := {| ca_rank := 1; ca_rankSize := 2; extraFlag := 1024; udmaInfoPtr := Some Sample.info; udmaRegistryPtr := Some registry |}.

Lemma sample_peer : put_peer args Sample.info registry 0 0 Sample.wq Sample.cq Sample.mi.
Proof. constructor; try done. apply Sample.sample_queue. Qed.

Lemma sample_put : put_args args 0 0 Sample.scratch 8192 4096 61440 0 77.
Proof. constructor; (done || lia). Qed.
End SamplePut.

Lemma udma_put_signal_quiet_witness :
  po_status (UDMAPutSignalNbiOnQp Sample.hw true (Some SamplePut.args) Sample.scratch 0 0 8192 4096 61440 0 77 Sample.mem 3) = TILEXR_UDMA_STATUS_SUCCESS.
Proof.
  exact (proj1 (udma_put_signal_quiet SamplePut.args Sample.info SamplePut.registry 0 0 Sample.wq Sample.cq Sample.mi Sample.scratch 8192 4096 61440 0 77
    Sample.hw Sample.mem 3 Sample.log 1 Sample.complete Sample.failure SamplePut.sample_peer SamplePut.sample_put Sample.sample_ring ltac:(done))).
Defined.
