(* ===== verification/GradLayout.v ===== *)
(** The host layout of the gradient reduction (src/src/moonep/reduce_grad/common/
    reduce_grad_common.h and host/reduce_grad_layout.cpp): the queue pairs split over the three
    projections, the lanes, the chunks and the workspace of a launch. A function that returns
    [false] or [TILEXR_ERROR_PARA_CHECK_FAIL] is [None]; the environment variable is an argument.
    The checked sum and product are those of Layouts. *)
From Stdlib Require Import String Ascii.
From S2P Require Import Prelude Layouts CombineWire.

(** ** Constants *)

Definition kReduceGradDefaultChunkBytes : Z := 8388608.
Definition kReduceGradUdmaAlignment : Z := 512.
Definition kReduceGradWorkspaceAlignment : Z := 2097152.
Definition kReduceGradBankCount : Z := 2.
Definition kReduceGradLaneStateStrideBytes : Z := 8192.
Definition kReduceGradLaneFlagStrideBytes : Z := 64.
Definition kReduceGradBankReadyOffset : Z := 0.
Definition kReduceGradDoneTokenBytes : Z := 64.
Definition kReduceGradDoneTokenCount : Z := 32.
Definition kReduceGradDoneBankStrideBytes : Z := kReduceGradDoneTokenCount * kReduceGradDoneTokenBytes.
Definition kReduceGradBankDoneOffset : Z := kReduceGradBankCount * kReduceGradLaneFlagStrideBytes.
Definition kReduceGradBankItemOffset : Z :=
  kReduceGradBankDoneOffset + kReduceGradBankCount * kReduceGradDoneBankStrideBytes.
Definition kReduceGradLaneErrorOffset : Z :=
  kReduceGradBankItemOffset + kReduceGradBankCount * kReduceGradLaneFlagStrideBytes.
Definition kReduceGradKernelTileBytes : Z := 40960.
Definition kReduceGradProjectionCount : Z := 3.
Definition kReduceGradMinRankCount : Z := 4.
Definition kReduceGradMaxUdmaQpCount : Z := 8.
Definition kReduceGradMaxTransportQpCount : Z := 48.
Definition kReduceGradMinMultiRankQpCount : Z := kReduceGradProjectionCount.
Definition kReduceGradMaxAivBlockCount : Z := 64.
Definition kReduceGradDown : Z := 2.

Record ReduceGradLayout := {
  g_rank : Z; g_rankSize : Z; g_expertCount : Z; g_expertsPerRank : Z; g_prefetchSlots : Z; blockDim : Z;
  rowElements : Z -> Z; rowBytes : Z -> Z; chunkCounts : Z -> Z;
  projectionQpBase : Z -> Z; projectionQpCounts : Z -> Z; qpProjection : Z -> Z;
  lanePhysicalQps : Z -> Z; transportQpCount : Z; qpCount : Z; laneCount : Z;
  laneStateBytes : Z; stagingOffset : Z; bankStrideBytes : Z; laneStrideBytes : Z; chunkBytes : Z;
  workspaceBytes : Z
}.

(** ** Arithmetic *)

Definition GradAlignUp (value alignment : Z) : option Z :=
  if alignment =? 0 then None
  else let remainder := value mod alignment in
       if remainder =? 0 then Some value else CheckedAdd value (alignment - remainder).

Definition DivideRoundUp (value divisor : Z) : option Z :=
  if divisor =? 0 then None
  else Some (value / divisor + (if negb (value mod divisor =? 0) then 1 else 0)).

(** Whether [lhsBytes / lhsCount] exceeds [rhsBytes / rhsCount]. *)
Definition ScoreGreater (lhsBytes lhsCount rhsBytes rhsCount : Z) : bool :=
  let lhsQuotient := lhsBytes / lhsCount in
  let rhsQuotient := rhsBytes / rhsCount in
  if negb (lhsQuotient =? rhsQuotient) then rhsQuotient <? lhsQuotient
  else
    let lhsRemainder := lhsBytes mod lhsCount in
    let rhsRemainder := rhsBytes mod rhsCount in
    (rhsRemainder * lhsCount)%u64 <? (lhsRemainder * rhsCount)%u64.

(** ** Queue pairs *)

(** The projection with the most bytes per queue pair, the first one on a tie. *)
Definition select_projection (bytes counts : Z -> Z) : Z :=
  foldl (fun selected projection =>
      if ScoreGreater (bytes projection) (counts projection) (bytes selected) (counts selected)
      then projection else selected)
    0 (seqZ 1 (kReduceGradProjectionCount - 1)).

(** [projectionQpCounts]: one queue pair each, then the rest one by one. *)
Definition projection_counts (qpCount : Z) (bytes : Z -> Z) : Z -> Z :=
  foldl (fun counts (_ : Z) =>
      let selected := select_projection bytes counts in upd1 counts selected (counts selected + 1))
    (fun projection => if (0 <=? projection) && (projection <? kReduceGradProjectionCount) then 1 else 0)
    (seqZ kReduceGradProjectionCount (qpCount - kReduceGradProjectionCount)).

(** [projectionQpBase], [qpProjection] and the cursor. *)
Definition place_projection (qpCount : Z) (counts : Z -> Z) (projection : Z) (acc : (Z -> Z) * (Z -> Z) * Z)
    : ((Z -> Z) * (Z -> Z) * Z) + unit :=
  let '(base, owner, cursor) := acc in
  match loop_ret (fun (_ : Z) (a : (Z -> Z) * Z) =>
      let '(owner, cursor) := a in
      if (qpCount <=? cursor) || (kReduceGradMaxUdmaQpCount <=? cursor) then inr tt
      else inl (upd1 owner cursor projection, cursor + 1))
    (seqZ 0 (counts projection)) (owner, cursor) with
  | inr u => inr u
  | inl (owner', cursor') => inl (upd1 base projection cursor, owner', cursor')
  end.

Definition AllocateProjectionQps (qpCount : Z) (bytes : Z -> Z) : option ((Z -> Z) * (Z -> Z) * (Z -> Z)) :=
  if (qpCount <? kReduceGradMinMultiRankQpCount) || (kReduceGradMaxUdmaQpCount <? qpCount) then None
  else
    let counts := projection_counts qpCount bytes in
    match loop_ret (place_projection qpCount counts) (seqZ 0 kReduceGradProjectionCount)
      (fun _ => 0, fun _ => 0, 0) with
    | inr _ => None
    | inl (base, owner, cursor) => if cursor =? qpCount then Some (base, counts, owner) else None
    end.

Definition MapPhysicalQps (laneCount transportQpCount : Z) : option (Z -> Z) :=
  if (laneCount =? 0) || (kReduceGradMaxUdmaQpCount <? laneCount) || (transportQpCount <? laneCount)
  then None
  else
    let identity := fun lane => if (0 <=? lane) && (lane <? laneCount) then lane else 0 in
    Some (if transportQpCount =? kReduceGradMaxTransportQpCount
          then upd1 identity kReduceGradDown 16 else identity).

(** ** The block count *)

Definition isspace (c : ascii) : bool :=
  let n := Z.of_N (N_of_ascii c) in (n =? 32) || ((9 <=? n) && (n <=? 13)).

Definition digit_value (c : ascii) : option Z :=
  let n := Z.of_N (N_of_ascii c) in if (48 <=? n) && (n <=? 57) then Some (n - 48) else None.

(** The digits at the front of a text: how many, their value and the rest. *)
Fixpoint digits (s : string) (count value : Z) : Z * Z * string :=
  match s with
  | EmptyString => (count, value, s)
  | String c rest => match digit_value c with
      | Some d => digits rest (count + 1) (value * 10 + d)
      | None => (count, value, s)
      end
  end.

Fixpoint skip_spaces (s : string) : string :=
  match s with
  | String c rest => if isspace c then skip_spaces rest else s
  | EmptyString => s
  end.

(** [std::strtoll(value, &end, 10)] of a whole text: [None] for a range error, for no digits and
    for a text behind the number. *)
Definition strtoll (s : string) : option Z :=
  let s1 := skip_spaces s in
  let '(negative, s2) := match s1 with
    | String "-" rest => (true, rest) | String "+" rest => (false, rest) | _ => (false, s1) end in
  let '(count, value, rest) := digits s2 0 0 in
  let parsed := if (negative : bool) then - value else value in
  if (count =? 0) || (INT64_MAX <? parsed) || (parsed <? - INT64_MAX - 1) then None
  else match rest with EmptyString => Some parsed | _ => None end.

(** [value] is [TILEXR_MOONEP_REDUCE_GRAD_BLOCK_DIM], [None] when it is not set. *)
Definition ResolveBlockDim (value : option string) (laneCount : Z) : option Z :=
  if laneCount =? 0 then None
  else
    selected ← match value with
      | None | Some EmptyString => Some kReduceGradMaxAivBlockCount
      | Some text => strtoll text
      end;
    let minimum := (2 * laneCount)%u32 in
    if (selected <=? 0) || (kReduceGradMaxAivBlockCount <? selected) || (selected <? minimum)
    then None else Some selected.

(** ** The layout *)

(** [rowBytes] of the three projections. *)
Definition row_sizes (elements : Z -> Z) : option (Z -> Z) :=
  match loop_ret (fun projection bytes =>
      if elements projection =? 0 then inr tt
      else match CheckedMul (elements projection) 4 with
        | None => inr tt
        | Some b => inl (upd1 bytes projection b)
        end)
    (seqZ 0 kReduceGradProjectionCount) (fun _ => 0) with
  | inr _ => None
  | inl bytes => Some bytes
  end.

Definition chunk_counts (bytes : Z -> Z) (chunk : Z) : option (Z -> Z) :=
  match loop_ret (fun projection counts =>
      match DivideRoundUp (bytes projection) chunk with
      | None => inr tt
      | Some c => inl (upd1 counts projection c)
      end)
    (seqZ 0 kReduceGradProjectionCount) (fun _ => 0) with
  | inr _ => None
  | inl counts => Some counts
  end.

Definition TileXRMoonEpBuildReduceGradLayout (env : option string) (rank rankSize expertCount prefetchSlots : Z)
    (elements : Z -> Z) (transportQpCount requestedChunkBytes : Z) : option ReduceGradLayout :=
  if (rankSize <? kReduceGradMinRankCount) || (TILEXR_MAX_RANK_SIZE <? rankSize) || (rank <? 0) ||
     (rankSize <=? rank) || (expertCount <=? 0) || negb (expertCount mod rankSize =? 0) ||
     (prefetchSlots <=? 0) || (INT32_MAX <? expertCount) || (INT32_MAX <? prefetchSlots) ||
     (INT32_MAX / rankSize <? prefetchSlots) || (transportQpCount <? kReduceGradMinMultiRankQpCount) ||
     (kReduceGradMaxTransportQpCount <? transportQpCount) ||
     ((kReduceGradMaxUdmaQpCount <? transportQpCount) &&
      negb (transportQpCount =? kReduceGradMaxTransportQpCount))
  then None
  else
    let qps := if transportQpCount =? kReduceGradMaxTransportQpCount
               then kReduceGradProjectionCount else transportQpCount in
    let lanes := qps in
    bytes ← row_sizes elements;
    blocks ← ResolveBlockDim env lanes;
    '(base, counts, owner) ← AllocateProjectionQps qps bytes;
    physical ← MapPhysicalQps lanes transportQpCount;
    let desiredChunk := if requestedChunkBytes =? 0 then kReduceGradDefaultChunkBytes
                        else requestedChunkBytes in
    if (desiredChunk =? 0) || (UINT32_MAX <? desiredChunk) then None
    else
      chunk ← GradAlignUp desiredChunk kReduceGradUdmaAlignment;
      if UINT32_MAX <? chunk then None
      else
        chunks ← chunk_counts bytes chunk;
        stateBytes ← CheckedMul lanes kReduceGradLaneStateStrideBytes;
        laneState ← GradAlignUp stateBytes kReduceGradUdmaAlignment;
        bankStride ← CheckedMul rankSize chunk;
        laneStride ← CheckedMul kReduceGradBankCount bankStride;
        payloadBytes ← CheckedMul lanes laneStride;
        cursor ← CheckedAdd laneState payloadBytes;
        workspace ← GradAlignUp cursor kReduceGradWorkspaceAlignment;
        Some {| g_rank := rank; g_rankSize := rankSize; g_expertCount := expertCount;
                g_expertsPerRank := expertCount / rankSize; g_prefetchSlots := prefetchSlots;
                blockDim := blocks; rowElements := elements; rowBytes := bytes; chunkCounts := chunks;
                projectionQpBase := base; projectionQpCounts := counts; qpProjection := owner;
                lanePhysicalQps := physical; transportQpCount := transportQpCount; qpCount := qps;
                laneCount := lanes; laneStateBytes := laneState; stagingOffset := laneState;
                bankStrideBytes := bankStride; laneStrideBytes := laneStride; chunkBytes := chunk;
                workspaceBytes := workspace |}.

(** The overload without [prefetchSlots]. *)
Definition BuildReduceGradLayoutDefaultSlots (env : option string) (rank rankSize expertCount : Z)
    (elements : Z -> Z) (transportQpCount requestedChunkBytes : Z) : option ReduceGradLayout :=
  let prefetchSlots := if (0 <? rankSize) && (0 <? expertCount) then expertCount / rankSize else 0 in
  TileXRMoonEpBuildReduceGradLayout env rank rankSize expertCount prefetchSlots elements
    transportQpCount requestedChunkBytes.

(** ** Queue pairs: the split is the best one *)

Lemma ratio_lt m n q q' r r' : 0 < m -> 0 < n -> q + 1 <= q' -> 0 <= r < n -> 0 <= r' ->
  (n * q + r) * m < (m * q' + r') * n.
Proof.
  intros Hm Hn Hq Hr Hr'. assert (r * m < n * m) by (apply Z.mul_lt_mono_pos_r; lia).
  assert (n * m * (q + 1) <= n * m * q') by (apply Z.mul_le_mono_nonneg_l; lia).
  assert (0 <= r' * n) by (apply Z.mul_nonneg_nonneg; lia). lia.
Qed.

(** The comparison is the exact comparison of the two ratios. *)
Lemma score_greater_exact a m b n : 0 <= a -> 0 <= b -> 0 < m <= UINT32_MAX -> 0 < n <= UINT32_MAX ->
  ScoreGreater a m b n = (b * m <? a * n).
Proof.
  intros Ha Hb Hm Hn. unfold ScoreGreater, UINT32_MAX in *. cbv zeta.
  pose proof (Z.div_mod a m ltac:(lia)) as Da. pose proof (Z.mod_pos_bound a m ltac:(lia)) as Ma.
  pose proof (Z.div_mod b n ltac:(lia)) as Db. pose proof (Z.mod_pos_bound b n ltac:(lia)) as Mb.
  set (qa := a / m) in *. set (qb := b / n) in *. set (ra := a mod m) in *. set (rb := b mod n) in *.
  assert (rb * m <= 4294967295 * 4294967295) by (apply Z.mul_le_mono_nonneg; lia).
  assert (ra * n <= 4294967295 * 4294967295) by (apply Z.mul_le_mono_nonneg; lia).
  rewrite !u64_small by (split; [apply Z.mul_nonneg_nonneg; lia|lia]). destruct (Z.eqb_spec qa qb) as [<-|Hne]; cbn [negb].
  - apply eq_true_iff_eq. rewrite !Z.ltb_lt. rewrite Da, Db. split; intros; nia.
  - apply eq_true_iff_eq. rewrite !Z.ltb_lt. rewrite Da, Db. split; intros Hlt.
    + apply ratio_lt; lia.
    + destruct (Z.lt_ge_cases qb qa); [done|]. exfalso.
      pose proof (ratio_lt n m qa qb ra rb ltac:(lia) ltac:(lia) ltac:(lia) ltac:(lia) ltac:(lia)). lia.
Qed.

(** Every queue pair beyond the first three went to the projection that needed it most. *)
Definition greedy (bytes c : Z -> Z) : Prop := forall p q, 0 <= p < 3 -> 0 <= q < 3 -> 1 < c p ->
  bytes q * (c p - 1) <= bytes p * c q.

Lemma projections p : 0 <= p < 3 -> p = 0 \/ p = 1 \/ p = 2.
Proof. lia. Qed.

Lemma select_spec bytes c : (forall p, 0 <= bytes p) -> (forall p, 0 <= p < 3 -> 0 < c p <= UINT32_MAX) ->
  let s := select_projection bytes c in
  0 <= s < 3 /\ forall q, 0 <= q < 3 -> bytes q * c s <= bytes s * c q.
Proof.
  intros Hb Hc. unfold select_projection. change (seqZ 1 _) with [1; 2]. cbn [foldl]. cbv zeta.
  pose proof (Hc 0 ltac:(lia)). pose proof (Hc 1 ltac:(lia)). pose proof (Hc 2 ltac:(lia)).
  pose proof (Hb 0). pose proof (Hb 1). pose proof (Hb 2).
  rewrite (score_greater_exact (bytes 1) (c 1) (bytes 0) (c 0)) by done.
  destruct (Z.ltb_spec (bytes 0 * c 1) (bytes 1 * c 0)) as [L|L]; rewrite score_greater_exact by done;
    match goal with |- context [if ?x <? ?y then _ else _] => destruct (Z.ltb_spec x y) as [M|M] end;
    (split; [lia|]); intros q [-> |[-> | ->]]%projections; nia.
Qed.

Lemma greedy_step bytes c : (forall p, 0 <= bytes p) -> (forall p, 0 <= p < 3 -> 0 < c p < UINT32_MAX) ->
  greedy bytes c -> let s := select_projection bytes c in greedy bytes (upd1 c s (c s + 1)).
Proof.
  intros Hb Hc Hg s p q Hp Hq.
  destruct (select_spec bytes c Hb ltac:(intros x Hx; specialize (Hc x Hx); lia)) as [Hs Hmax]. fold s in Hs, Hmax.
  unfold upd1. specialize (Hg p q Hp Hq). specialize (Hmax q Hq). pose proof (Hb p). pose proof (Hb q). pose proof (Hb s).
  destruct (Z.eqb_spec p s) as [->|], (Z.eqb_spec q s) as [-> |]; intros Hgt; nia.
Qed.

Lemma counts_spec qps bytes : 3 <= qps <= 8 -> (forall p, 0 <= bytes p) ->
  let c := projection_counts qps bytes in
  (forall p, 0 <= p < 3 -> 1 <= c p) /\ c 0 + c 1 + c 2 = qps /\ greedy bytes c.
Proof.
  intros Hq Hb. unfold projection_counts, kReduceGradProjectionCount.
  match goal with |- context [foldl ?f ?c0 _] => set (step := f); set (start := c0) end.
  assert (forall k : nat, (k <= 5)%nat -> let c := foldl step start (seqZ 3 (Z.of_nat k)) in
    (forall p, 0 <= p < 3 -> 1 <= c p) /\ c 0 + c 1 + c 2 = 3 + Z.of_nat k /\ greedy bytes c) as H.
  { induction k as [|k IH]; intros Hk; cbv zeta.
    - change (seqZ 3 (Z.of_nat 0)) with (@nil Z). cbn [foldl]. split; [|split].
      + intros p [-> |[-> | ->]]%projections; cbn; lia.
      + done.
      + intros p q [-> |[-> | ->]]%projections _; cbn; lia.
    - replace (Z.of_nat (S k)) with (Z.of_nat k + 1) by lia. rewrite seqZ_app, foldl_app by lia.
      change (seqZ (3 + Z.of_nat k) 1) with [3 + Z.of_nat k]. cbn [foldl].
      destruct (IH ltac:(lia)) as (H1 & H2 & H3). set (c := foldl step start _) in *.
      pose proof (H1 0 ltac:(lia)). pose proof (H1 1 ltac:(lia)). pose proof (H1 2 ltac:(lia)).
      assert (forall p, 0 <= p < 3 -> 0 < c p < UINT32_MAX) as Hc
        by (intros p [-> |[-> | ->]]%projections; unfold UINT32_MAX; lia).
      destruct (select_spec bytes c Hb ltac:(intros x Hx; specialize (Hc x Hx); lia)) as [Hs _].
      unfold step. cbv zeta. split; [|split].
      + intros p Hp. unfold upd1. pose proof (H1 p Hp). case_if; b2p; [subst|]; lia.
      + unfold upd1. destruct (projections _ Hs) as [-> |[-> | ->]]; cbn; lia.
      + by apply greedy_step. }
  specialize (H (Z.to_nat (qps - 3)) ltac:(lia)). cbv zeta in H.
  replace (3 + Z.of_nat (Z.to_nat (qps - 3))) with qps in H by lia. by rewrite Z2Nat.id in H by lia.
Qed.

(** No other split makes the largest share per queue pair smaller. *)
Lemma greedy_best bytes c d : (forall p, 0 <= bytes p) -> greedy bytes c -> (forall p, 0 <= p < 3 -> 1 <= d p) ->
  (forall p, 0 <= p < 3 -> 1 <= c p) -> c 0 + c 1 + c 2 = d 0 + d 1 + d 2 ->
  forall q, 0 <= q < 3 -> exists p, 0 <= p < 3 /\ bytes q * d p <= bytes p * c q.
Proof.
  intros Hb Hg Hd Hc Hsum q Hq. destruct (Z.le_gt_cases (d q) (c q)) as [Hle|Hgt].
  - exists q. split; [done|]. pose proof (Hb q). nia.
  - assert (exists p, 0 <= p < 3 /\ d p < c p) as (p & Hp & Hlt).
    { destruct (Z.lt_ge_cases (d 0) (c 0)); [exists 0; lia|]. destruct (Z.lt_ge_cases (d 1) (c 1)); [exists 1; lia|].
      destruct (Z.lt_ge_cases (d 2) (c 2)); [exists 2; lia|]. exfalso. destruct (projections q Hq) as [-> |[-> | ->]]; lia. }
    exists p. split; [done|]. pose proof (Hd p Hp). specialize (Hg p q Hp Hq ltac:(lia)). pose proof (Hb q).
    transitivity (bytes q * (c p - 1)); [|done]. apply Z.mul_le_mono_nonneg_l; lia.
Qed.

(** ** Placement of the queue pairs *)

(** Writing one projection's queue pairs from [cursor] on. *)
Lemma place_projection_ok qps counts p base owner cursor : 0 <= cursor -> 0 <= counts p ->
  cursor + counts p <= qps -> qps <= 8 ->
  exists owner', place_projection qps counts p (base, owner, cursor) =
      inl (upd1 base p cursor, owner', cursor + counts p) /\
    forall lane, owner' lane = if bool_decide (cursor <= lane < cursor + counts p) then p else owner lane.
Proof.
  intros Hc0 Hc Hq H8. unfold place_projection.
  assert (forall n : nat, Z.of_nat n <= counts p -> exists owner',
    loop_ret (fun (_ : Z) (a : (Z -> Z) * Z) => let '(owner, cursor) := a in
      if (qps <=? cursor) || (kReduceGradMaxUdmaQpCount <=? cursor) then inr tt
      else inl (upd1 owner cursor p, cursor + 1)) (seqZ 0 (Z.of_nat n)) (owner, cursor) =
      inl (owner', cursor + Z.of_nat n) /\
    forall lane, owner' lane = if bool_decide (cursor <= lane < cursor + Z.of_nat n) then p else owner lane) as H.
  { induction n as [|n IH]; intros Hn.
    - exists owner. split; [cbn; by rewrite Z.add_0_r|]. intros lane. by rewrite bool_decide_false by lia.
    - destruct (IH ltac:(lia)) as (o & E1 & E2). replace (Z.of_nat (S n)) with (Z.of_nat n + 1) by lia.
      rewrite seqZ0_snoc, loop_ret_app, E1 by lia. cbn [loop_ret]. unfold kReduceGradMaxUdmaQpCount.
      rewrite (proj2 (Z.leb_gt qps _)), (proj2 (Z.leb_gt 8 _)) by lia. cbn [orb]. exists (upd1 o (cursor + Z.of_nat n) p).
      split; [do 2 f_equal; lia|]. intros lane. unfold upd1. rewrite E2.
      destruct (Z.eqb_spec lane (cursor + Z.of_nat n)) as [-> |].
      + by rewrite (bool_decide_true (_ <= _ < _ + (_ + 1))) by lia.
      + destruct (decide (cursor <= lane < cursor + Z.of_nat n)).
        * by rewrite !bool_decide_true by lia.
        * by rewrite !bool_decide_false by lia. }
  destruct (H (Z.to_nat (counts p)) ltac:(lia)) as (o & E1 & E2). rewrite Z2Nat.id in E1, E2 by lia.
  rewrite E1. exists o. done.
Qed.

(** The queue pairs of a projection follow those of the projections before it. *)
Record qp_split (qps : Z) (bytes base counts owner : Z -> Z) : Prop := {
  qs_counts p : 0 <= p < 3 -> 1 <= counts p;
  qs_sum : counts 0 + counts 1 + counts 2 = qps;
  qs_base0 : base 0 = 0;
  qs_base1 : base 1 = counts 0;
  qs_base2 : base 2 = counts 0 + counts 1;
  qs_owner p lane : 0 <= p < 3 -> base p <= lane < base p + counts p -> owner lane = p;
  qs_greedy : greedy bytes counts
}.

Lemma allocate_ok qps bytes : 3 <= qps <= 8 -> (forall p, 0 <= bytes p) ->
  exists base counts owner, AllocateProjectionQps qps bytes = Some (base, counts, owner) /\
    qp_split qps bytes base counts owner.
Proof.
  intros Hq Hb. unfold AllocateProjectionQps, kReduceGradMinMultiRankQpCount, kReduceGradMaxUdmaQpCount.
  rewrite (proj2 (Z.ltb_ge qps _)), (proj2 (Z.ltb_ge 8 _)) by (unfold kReduceGradProjectionCount; lia). cbn [orb]. cbv zeta.
  destruct (counts_spec qps bytes Hq Hb) as (H1 & H2 & H3). set (c := projection_counts qps bytes) in *.
  pose proof (H1 0 ltac:(lia)). pose proof (H1 1 ltac:(lia)). pose proof (H1 2 ltac:(lia)).
  change (seqZ 0 kReduceGradProjectionCount) with [0; 1; 2]. cbn [loop_ret].
  destruct (place_projection_ok qps c 0 (fun _ => 0) (fun _ => 0) 0) as (o1 & -> & O1); [lia..|].
  destruct (place_projection_ok qps c 1 (upd1 (fun _ => 0) 0 0) o1 (0 + c 0)) as (o2 & -> & O2); [lia..|].
  destruct (place_projection_ok qps c 2 (upd1 (upd1 (fun _ => 0) 0 0) 1 (0 + c 0)) o2 (0 + c 0 + c 1)) as (o3 & -> & O3); [lia..|].
  rewrite (proj2 (Z.eqb_eq _ qps)) by lia. do 3 eexists. split; [done|].
  constructor; try done; unfold upd1; cbn; try lia.
  intros p lane [-> |[-> | ->]]%projections Hl; cbn in Hl; rewrite O3, O2, O1.
  - rewrite !(bool_decide_false (0 + c 0 + c 1 <= _ < _)), (bool_decide_false (0 + c 0 <= _ < _)), bool_decide_true by lia. done.
  - rewrite !(bool_decide_false (0 + c 0 + c 1 <= _ < _)), (bool_decide_true (0 + c 0 <= _ < _)) by lia. done.
  - rewrite (bool_decide_true (0 + c 0 + c 1 <= _ < _)) by lia. done.
Qed.

Lemma map_physical_ok lanes transport physical : 3 <= lanes <= 8 -> lanes <= transport ->
  (transport = kReduceGradMaxTransportQpCount -> lanes = 3) -> MapPhysicalQps lanes transport = Some physical ->
  (forall lane, 0 <= lane < lanes -> 0 <= physical lane < transport) /\
  (forall lane lane', 0 <= lane < lanes -> 0 <= lane' < lanes -> physical lane = physical lane' -> lane = lane').
Proof.
  intros Hl Ht H48. unfold MapPhysicalQps. cbv zeta. case_if; [done|]. intros [= <-].
  destruct (Z.eqb_spec transport kReduceGradMaxTransportQpCount) as [E48|].
  - specialize (H48 E48). rewrite E48. unfold kReduceGradMaxTransportQpCount, kReduceGradDown, upd1.
    split; [intros lane Hlane|intros lane lane' Hlane Hlane']; repeat case_if; b2p; try lia.
  - split; [intros lane Hlane|intros lane lane' Hlane Hlane'];
      repeat (rewrite (proj2 (Z.leb_le 0 _)), (proj2 (Z.ltb_lt _ lanes)) by lia; cbn [andb]); lia.
Qed.

(** ** The layout *)

Lemma grad_align_up v a r : is_u64 v -> 0 < a <= UINT64_MAX -> GradAlignUp v a = Some r ->
  r = align_to a v /\ is_u64 r.
Proof.
  intros Hv Ha. unfold GradAlignUp. rewrite (proj2 (Z.eqb_neq a 0)) by lia. cbv zeta.
  pose proof (Z.mod_pos_bound v a ltac:(lia)) as Hm. destruct (Z.eqb_spec (v mod a) 0) as [E0|].
  - intros [= <-]. by rewrite align_to_fix by lia.
  - intros H. apply CheckedAdd_Some in H as [-> Hr]; [|done|unfold is_u64; lia]. split; [|done]. symmetry.
    apply align_to_unique; [lia| |lia]. rewrite (Z.div_mod v a) at 1 by lia.
    replace (a * (v / a) + v mod a + (a - v mod a)) with ((v / a + 1) * a) by lia. apply Z.mod_mul. lia.
Qed.

Lemma row_sizes_ok elements bytes : (forall p, 0 <= p < 3 -> is_u64 (elements p)) -> row_sizes elements = Some bytes ->
  (forall p, 0 <= p < 3 -> bytes p = 4 * elements p /\ 0 < bytes p <= UINT64_MAX) /\
  forall p, ~ 0 <= p < 3 -> bytes p = 0.
Proof.
  intros He. unfold row_sizes. change (seqZ 0 kReduceGradProjectionCount) with [0; 1; 2]. cbn [loop_ret].
  pose proof (He 0 ltac:(lia)) as E0. pose proof (He 1 ltac:(lia)) as E1. pose proof (He 2 ltac:(lia)) as E2.
  assert (is_u64 4) by (unfold is_u64, UINT64_MAX; lia).
  destruct (Z.eqb_spec (elements 0) 0); [done|]. destruct (CheckedMul (elements 0) 4) eqn:M0; [|done].
  destruct (Z.eqb_spec (elements 1) 0); [done|]. destruct (CheckedMul (elements 1) 4) eqn:M1; [|done].
  destruct (Z.eqb_spec (elements 2) 0); [done|]. destruct (CheckedMul (elements 2) 4) eqn:M2; [|done].
  apply CheckedMul_Some in M0 as [-> ?], M1 as [-> ?], M2 as [-> ?]; try done. intros [= <-].
  unfold is_u64 in *. split.
  - intros p [-> |[-> | ->]]%projections; unfold upd1; cbn; lia.
  - intros p Hp. unfold upd1. repeat (case_if; [b2p; lia|]). done.
Qed.

Definition ceil_div (v d : Z) : Z := (v + d - 1) / d.

Lemma divide_round_up v d : 0 <= v -> 0 < d -> DivideRoundUp v d = Some (ceil_div v d).
Proof.
  intros Hv Hd. unfold DivideRoundUp, ceil_div. rewrite (proj2 (Z.eqb_neq d 0)) by lia. f_equal.
  pose proof (Z.div_mod v d ltac:(lia)) as E. pose proof (Z.mod_pos_bound v d ltac:(lia)).
  destruct (Z.eqb_spec (v mod d) 0); cbn [negb].
  - rewrite Z.add_0_r. apply (Z.div_unique _ _ _ (d - 1)); lia.
  - apply (Z.div_unique _ _ _ (v mod d - 1)); lia.
Qed.

Lemma chunk_counts_ok bytes chunk : (forall p, 0 <= bytes p) -> 0 < chunk -> exists counts,
  chunk_counts bytes chunk = Some counts /\ forall p, 0 <= p < 3 -> counts p = ceil_div (bytes p) chunk.
Proof.
  intros Hb Hc. unfold chunk_counts. change (seqZ 0 kReduceGradProjectionCount) with [0; 1; 2]. cbn [loop_ret].
  rewrite !divide_round_up by done. eexists. split; [done|].
  intros p [-> |[-> | ->]]%projections; unfold upd1; cbn; done.
Qed.

(** What a layout of the host guarantees. *)
Record grad_layout_ok (l : ReduceGradLayout) : Prop := {
  gl_ranks : 4 <= g_rankSize l <= 128;
  gl_rank : 0 <= g_rank l < g_rankSize l;
  gl_experts : g_expertCount l = g_expertsPerRank l * g_rankSize l /\ 0 < g_expertsPerRank l /\ g_expertCount l <= INT32_MAX;
  gl_slots : 0 < g_prefetchSlots l /\ g_prefetchSlots l <= INT32_MAX / g_rankSize l;
  gl_lanes : laneCount l = qpCount l /\ 3 <= qpCount l <= 8;
  gl_blocks : 2 * laneCount l <= blockDim l <= 64;
  gl_transport : qpCount l <= transportQpCount l <= 48;
  gl_rows p : 0 <= p < 3 -> rowBytes l p = 4 * rowElements l p /\ 0 < rowBytes l p <= UINT64_MAX;
  gl_split : qp_split (qpCount l) (rowBytes l) (projectionQpBase l) (projectionQpCounts l) (qpProjection l);
  gl_physical : (forall lane, 0 <= lane < laneCount l -> 0 <= lanePhysicalQps l lane < transportQpCount l) /\
    (forall lane lane', 0 <= lane < laneCount l -> 0 <= lane' < laneCount l ->
       lanePhysicalQps l lane = lanePhysicalQps l lane' -> lane = lane');
  gl_chunk : 0 < chunkBytes l <= UINT32_MAX /\ chunkBytes l mod kReduceGradUdmaAlignment = 0;
  gl_chunks p : 0 <= p < 3 -> chunkCounts l p = ceil_div (rowBytes l p) (chunkBytes l);
  gl_state : laneStateBytes l = laneCount l * kReduceGradLaneStateStrideBytes /\ stagingOffset l = laneStateBytes l;
  gl_banks : bankStrideBytes l = g_rankSize l * chunkBytes l /\ laneStrideBytes l = 2 * bankStrideBytes l;
  gl_total : stagingOffset l + laneCount l * laneStrideBytes l <= workspaceBytes l <= UINT64_MAX /\
    workspaceBytes l mod kReduceGradWorkspaceAlignment = 0
}.

Lemma resolve_block_ok env lanes blocks : 0 < lanes <= 8 -> ResolveBlockDim env lanes = Some blocks ->
  2 * lanes <= blocks <= 64.
Proof.
  intros Hl. unfold ResolveBlockDim. rewrite (proj2 (Z.eqb_neq lanes 0)) by lia.
  destruct (match env with None => _ | Some _ => _ end) as [selected|]; [|done]. cbn [mbind option_bind]. cbv zeta.
  unfold kReduceGradMaxAivBlockCount. rewrite u32_small by lia. case_if; [done|]. intros [= <-]. b2p. lia.
Qed.

Lemma grad_layout_sound env rank rankSize experts slots elements transport chunk l :
  (forall p, 0 <= p < 3 -> is_u64 (elements p)) -> is_u64 chunk ->
  TileXRMoonEpBuildReduceGradLayout env rank rankSize experts slots elements transport chunk = Some l ->
  grad_layout_ok l /\ rowElements l = elements /\ g_rank l = rank /\ g_rankSize l = rankSize /\
  g_expertCount l = experts /\ g_prefetchSlots l = slots.
Proof.
  intros He Hchunk. unfold TileXRMoonEpBuildReduceGradLayout. case_if; [done|]. cbv zeta.
  set (qps := if transport =? kReduceGradMaxTransportQpCount then kReduceGradProjectionCount else transport).
  unfold kReduceGradMinRankCount, TILEXR_MAX_RANK_SIZE, kReduceGradMinMultiRankQpCount, kReduceGradMaxTransportQpCount,
    kReduceGradMaxUdmaQpCount, kReduceGradProjectionCount in *.
  assert (3 <= qps <= 8 /\ qps <= transport <= 48 /\ (transport = 48 -> qps = 3)) as (Hq & Ht & H48).
  { unfold qps. destruct (Z.eqb_spec transport 48); b2p; [lia|].
    repeat match goal with H : _ \/ _ |- _ => destruct H end; b2p; lia. }
  destruct (row_sizes elements) as [bytes|] eqn:Erow; [|done]. cbn [mbind option_bind].
  destruct (row_sizes_ok elements bytes He Erow) as [Hrow Hrow0].
  assert (forall p, 0 <= bytes p) as Hb.
  { intros p. destruct (decide (0 <= p < 3)) as [Hp|Hp]; [destruct (Hrow p Hp); lia|]. by rewrite Hrow0. }
  destruct (ResolveBlockDim env qps) as [blocks|] eqn:Eblk; [|done]. cbn [mbind option_bind].
  apply resolve_block_ok in Eblk; [|lia].
  destruct (allocate_ok qps bytes Hq Hb) as (base & counts & owner & -> & Hsplit). cbn [mbind option_bind].
  destruct (MapPhysicalQps qps transport) as [physical|] eqn:Ephys; [|done]. cbn [mbind option_bind].
  apply map_physical_ok in Ephys; [|done|lia|done].
  set (desired := if chunk =? 0 then kReduceGradDefaultChunkBytes else chunk). unfold kReduceGradDefaultChunkBytes in desired.
  case_if; [done|]. assert (0 < desired <= UINT32_MAX) as Hd.
  { unfold is_u64, UINT64_MAX, UINT32_MAX in *. unfold desired in *. destruct (chunk =? 0); b2p; lia. }
  destruct (GradAlignUp desired _) as [c|] eqn:Ec; [|done]. cbn [mbind option_bind].
  apply grad_align_up in Ec as [Ec Hc64]; [|unfold is_u64, UINT64_MAX, UINT32_MAX in *; lia|unfold kReduceGradUdmaAlignment, UINT64_MAX; lia].
  pose proof (align_to_spec kReduceGradUdmaAlignment desired ltac:(unfold kReduceGradUdmaAlignment; lia)) as Hal. rewrite <- Ec in Hal.
  destruct (Z.ltb_spec UINT32_MAX c) as [|Hc32]; [done|].
  destruct (chunk_counts_ok bytes c Hb ltac:(lia)) as (chunks & -> & Hchunks). cbn [mbind option_bind].
  assert (is_u64 qps /\ is_u64 rankSize /\ is_u64 kReduceGradLaneStateStrideBytes /\ is_u64 kReduceGradBankCount) as (U1 & U2 & U3 & U4).
  { unfold is_u64, UINT64_MAX, kReduceGradLaneStateStrideBytes, kReduceGradBankCount. b2p. lia. }
  destruct (CheckedMul qps kReduceGradLaneStateStrideBytes) as [state|] eqn:E1; [|done]. cbn [mbind option_bind].
  apply CheckedMul_Some in E1 as [E1 U5]; [|done..].
  destruct (GradAlignUp state _) as [laneState|] eqn:E2; [|done]. cbn [mbind option_bind].
  apply grad_align_up in E2 as [E2 U6]; [|done|unfold kReduceGradUdmaAlignment, UINT64_MAX; lia].
  rewrite align_to_fix in E2; [|unfold kReduceGradUdmaAlignment; lia|].
  2: { rewrite E1. unfold kReduceGradLaneStateStrideBytes, kReduceGradUdmaAlignment. replace 8192 with (16 * 512) by lia.
       rewrite Z.mul_assoc. apply Z.mod_mul. lia. }
  destruct (CheckedMul rankSize c) as [bank|] eqn:E3; [|done]. cbn [mbind option_bind]. apply CheckedMul_Some in E3 as [E3 U7]; [|done..].
  destruct (CheckedMul kReduceGradBankCount bank) as [stride|] eqn:E4; [|done]. cbn [mbind option_bind]. apply CheckedMul_Some in E4 as [E4 U8]; [|done..].
  destruct (CheckedMul qps stride) as [payload|] eqn:E5; [|done]. cbn [mbind option_bind]. apply CheckedMul_Some in E5 as [E5 U9]; [|done..].
  destruct (CheckedAdd laneState payload) as [cursor|] eqn:E6; [|done]. cbn [mbind option_bind]. apply CheckedAdd_Some in E6 as [E6 U10]; [|done..].
  destruct (GradAlignUp cursor _) as [total|] eqn:E7; [|done]. cbn [mbind option_bind].
  apply grad_align_up in E7 as [E7 U11]; [|done|unfold kReduceGradWorkspaceAlignment, UINT64_MAX; lia].
  pose proof (align_to_spec kReduceGradWorkspaceAlignment cursor ltac:(unfold kReduceGradWorkspaceAlignment; lia)) as Hal2.
  rewrite <- E7 in Hal2. intros [= <-]. split; [|done]. b2p.
  pose proof (Z.div_mod experts rankSize ltac:(lia)) as Hdm.
  constructor; cbn; try done; try lia.
  rewrite <- E5, <- E6. unfold is_u64 in U11. split; [lia|]. by apply Hal2.
Qed.

(** The queue pairs of an accepted launch: every projection has at least one, together they
    are all the queue pairs, those of a projection are the consecutive ones from its base on and
    name it as their owner, and the split is the best possible: whatever other split gives every
    projection at least one queue pair, the largest row share per queue pair is not smaller. *)
Theorem grad_queue_split env rank rankSize experts slots elements transport chunk l :
  (forall p, 0 <= p < 3 -> is_u64 (elements p)) -> is_u64 chunk ->
  TileXRMoonEpBuildReduceGradLayout env rank rankSize experts slots elements transport chunk = Some l ->
  let base := projectionQpBase l in let counts := projectionQpCounts l in
  (forall p, 0 <= p < 3 -> 1 <= counts p) /\
  (forall lane, 0 <= lane < qpCount l -> exists p, 0 <= p < 3 /\ qpProjection l lane = p /\
     base p <= lane < base p + counts p) /\
  (forall p lane, 0 <= p < 3 -> base p <= lane < base p + counts p ->
     0 <= lane < qpCount l /\ qpProjection l lane = p) /\
  (forall other, (forall p, 0 <= p < 3 -> 1 <= other p) -> other 0 + other 1 + other 2 = qpCount l ->
     forall q, 0 <= q < 3 -> exists p, 0 <= p < 3 /\ rowBytes l q * other p <= rowBytes l p * counts q).
Proof.
  intros He Hc Hb. destruct (grad_layout_sound _ _ _ _ _ _ _ _ _ He Hc Hb) as ([] & _).
  destruct gl_split0 as [S1 S2 S3 S4 S5 S6 S7]. cbv zeta.
  pose proof (S1 0 ltac:(lia)). pose proof (S1 1 ltac:(lia)). pose proof (S1 2 ltac:(lia)).
  split; [done|]. split; [|split].
  - intros lane Hl.
    assert (exists p, 0 <= p < 3 /\ projectionQpBase l p <= lane < projectionQpBase l p + projectionQpCounts l p) as (p & Hp & Hin).
    { destruct (Z.lt_ge_cases lane (projectionQpCounts l 0)); [exists 0; lia|].
      destruct (Z.lt_ge_cases lane (projectionQpCounts l 0 + projectionQpCounts l 1)); [exists 1; lia|exists 2; lia]. }
    exists p. split; [done|]. split; [by apply S6|done].
  - intros p lane Hp Hin. split; [|by apply S6]. destruct (projections p Hp) as [-> |[-> | ->]]; lia.
  - intros other Ho Hsum.
    assert (greedy (fun p => Z.max 0 (rowBytes l p)) (projectionQpCounts l)) as Hg.
    { intros p q Hp Hq Hgt. destruct (gl_rows0 p Hp) as [_ ?], (gl_rows0 q Hq) as [_ ?]. rewrite !Z.max_r by lia. by apply S7. }
    intros q Hq. destruct (greedy_best (fun p => Z.max 0 (rowBytes l p)) (projectionQpCounts l) other
      ltac:(intros; lia) Hg Ho S1 ltac:(lia) q Hq) as (p & Hp & Hle).
    exists p. split; [done|]. destruct (gl_rows0 p Hp) as [_ ?], (gl_rows0 q Hq) as [_ ?]. rewrite !Z.max_r in Hle by lia. done.
Qed.

(** Eight queue pairs for rows of 28, 28 and 7 elements. *)
Definition small_elements (p : Z) : Z := if p =? 2 then 7 else 28.

Lemma grad_queue_split_witness : exists l,
  TileXRMoonEpBuildReduceGradLayout None 1 4 8 2 small_elements 8 0 = Some l /\
  projectionQpCounts l 0 = 4 /\ projectionQpCounts l 1 = 3 /\ projectionQpCounts l 2 = 1 /\
  forall q, 0 <= q < 3 -> exists p, 0 <= p < 3 /\ rowBytes l q * (if p =? 2 then 2 else 3) <= rowBytes l p * projectionQpCounts l q.
Proof.
  destruct (TileXRMoonEpBuildReduceGradLayout None 1 4 8 2 small_elements 8 0) as [l|] eqn:E; [|vm_compute in E; discriminate E].
  pose proof (grad_queue_split None 1 4 8 2 small_elements 8 0 l
    ltac:(intros p [-> |[-> | ->]]%projections; unfold is_u64, UINT64_MAX; cbn; lia) ltac:(unfold is_u64, UINT64_MAX; lia) E) as H.
  exists l. split; [reflexivity|].
  assert (qpCount l = 8 /\ projectionQpCounts l 0 = 4 /\ projectionQpCounts l 1 = 3 /\ projectionQpCounts l 2 = 1) as (E8 & E0 & E1 & E2).
  { vm_compute in E. injection E as <-. split_and!; reflexivity. }
  split_and!; [done..|]. apply (proj2 (proj2 (proj2 H)) (fun p => if p =? 2 then 2 else 3)).
  - intros p [-> |[-> | ->]]%projections; cbn; lia.
  - rewrite E8. reflexivity.
Defined.
