(* ===== verification/StageCombine.v ===== *)
(** The window of the combine stage (src/src/moonep/combine/host/combine_layout.cpp): the checks of
    the tensors, the regions of the window, and the search for the largest chunk of a row that
    fits. A function that returns an error code and fills a layout is an option. *)
From S2P Require Import Prelude CombineSchedule CombineWire Layouts.

(** ** The checks *)

Definition HiddenValid (input output : option TileXRMoonEpTensorV1) (s nvS : Z) : option Z :=
  match input, output with
  | Some i, Some o =>
      if TensorHeaderValid input && TensorHeaderValid output && (dtype i =? TILEXR_MOONEP_DTYPE_BFLOAT16) &&
         (dtype o =? TILEXR_MOONEP_DTYPE_BFLOAT16) && (t_rank i =? 2) && (t_rank o =? 2) && (shape i 0 =? nvS) &&
         (0 <? shape i 1) && (shape o 0 =? s) && (shape o 1 =? shape i 1)
      then CheckedMul (shape i 1) 2
      else None
  | _, _ => None
  end.

Definition WeightsValid (input output : option TileXRMoonEpTensorV1) (s k nvS : Z) : bool :=
  match input, output with
  | None, None => true
  | Some i, Some o =>
      TensorHeaderValid input && TensorHeaderValid output && (dtype i =? TILEXR_MOONEP_DTYPE_FLOAT32) &&
      (dtype o =? TILEXR_MOONEP_DTYPE_FLOAT32) && (t_rank i =? 1) && (shape i 0 =? nvS) && (t_rank o =? 2) &&
      (shape o 0 =? s) && (shape o 1 =? k)
  | _, _ => false
  end.

(** ** The regions *)

(** The part of a [CombineLayout] that [BuildRegions] fills. *)
Record CombineRegions := {
  sourceHiddenOffset : Z; hiddenPayloadBytes : Z; receiveHiddenOffset : Z; sourceWeightsOffset : Z; receiveWeightsOffset : Z;
  routeWeightsBytes : Z; duplicateMaskOffset : Z; duplicateMaskBytes : Z; doneOffset : Z; doneBytes : Z;
  coreStatusOffset : Z; coreStatusBytes : Z; windowBytes : Z
}.

Record CombineLayout := {
  c_rank : Z; c_world : Z; c_s : Z; c_k : Z; c_n : Z; c_nvS : Z; hiddenSize : Z; c_blockDim : Z; c_stepCount : Z; sourcesPerCore : Z;
  chunkCount : Z; c_flags : Z; hiddenRowBytes : Z; hiddenChunkBytes : Z; hiddenChunkStride : Z; c_regions : CombineRegions
}.

Definition BuildRegions (nvS hiddenStride weightsBytes world activeCores : Z) : option CombineRegions :=
  if (nvS =? 0) || (hiddenStride =? 0) then None
  else
    hiddenBytes ← CheckedMul nvS hiddenStride;
    maskBytes ← CheckedMul nvS 4;
    done ← CheckedMul world kMoonEpCombineV2TokenStrideBytes;
    status ← CheckedMul activeCores kMoonEpCombineV2TokenStrideBytes;
    '(sourceHidden, cursor) ← AppendRegion hiddenBytes kMoonEpStageAlignment 0;
    '(receiveHidden, cursor) ← AppendRegion hiddenBytes kMoonEpStageAlignment cursor;
    '(sourceWeights, cursor) ← AppendRegion weightsBytes kMoonEpStageAlignment cursor;
    '(receiveWeights, cursor) ← AppendRegion weightsBytes kMoonEpStageAlignment cursor;
    '(duplicateMask, cursor) ← AppendRegion maskBytes kMoonEpStageAlignment cursor;
    '(doneAt, cursor) ← AppendRegion done kMoonEpCombineV2TokenStrideBytes cursor;
    '(statusAt, cursor) ← AppendRegion status kMoonEpCombineV2TokenStrideBytes cursor;
    if IPC_BUFF_MAX_SIZE <? cursor then None
    else Some {| sourceHiddenOffset := sourceHidden; hiddenPayloadBytes := hiddenBytes; receiveHiddenOffset := receiveHidden;
      sourceWeightsOffset := sourceWeights; receiveWeightsOffset := receiveWeights; routeWeightsBytes := weightsBytes;
      duplicateMaskOffset := duplicateMask; duplicateMaskBytes := maskBytes; doneOffset := doneAt; doneBytes := done;
      coreStatusOffset := statusAt; coreStatusBytes := status; windowBytes := cursor |}.

(** The binary search; a turn lowers [high - low], which bounds [fuel]. *)
Fixpoint search_stride (fuel : nat) (nvS weightsBytes world activeCores low high : Z) : Z :=
  match fuel with
  | O => low
  | S f =>
      if low <? high then
        let mid := (low + ((high - low)%u64 + 1)%u64 / 2)%u64 in
        if bool_decide (is_Some (BuildRegions nvS (mid * kMoonEpStageAlignment)%u64 weightsBytes world activeCores))
        then search_stride f nvS weightsBytes world activeCores mid high
        else search_stride f nvS weightsBytes world activeCores low (mid - 1)%u64
      else low
  end.

Definition MaxHiddenStride (nvS weightsBytes world activeCores : Z) : Z :=
  let maxUnits := IPC_BUFF_MAX_SIZE / kMoonEpStageAlignment / nvS / 2 in
  (search_stride (Z.to_nat maxUnits) nvS weightsBytes world activeCores 0 maxUnits * kMoonEpStageAlignment)%u64.

Definition TileXRMoonEpBuildCombineLayout (commRank commWorld : Z) (plan : option TileXRMoonEpPlanV1)
    (hiddenNvsh routeWeightsNvs hiddenSh routeWeightsSk : option TileXRMoonEpTensorV1) (flags : Z) : option CombineLayout :=
  if negb (flags =? TILEXR_MOONEP_FLAG_NONE) || negb (MoonEpCombineV2RankSizeSupported (u32 commWorld)) then None
  else
    s ← PlanValid commRank commWorld plan;
    p ← plan;
    rowBytes ← HiddenValid hiddenNvsh hiddenSh s (p_nvS p);
    if (INT64_MAX <? rowBytes) || negb (WeightsValid routeWeightsNvs routeWeightsSk s (p_k p) (p_nvS p)) then None
    else
      let world := commWorld in
      let nvS := p_nvS p in
      let activeCores := MoonEpCombineV2ActiveCoreCount (u32 commWorld) in
      weightsBytes ← match routeWeightsNvs with Some _ => CheckedMul nvS 4 | None => Some 0 end;
      let maxStride := MaxHiddenStride nvS weightsBytes world activeCores in
      if maxStride =? 0 then None
      else
        let chunkBytes := if rowBytes <? maxStride then rowBytes else maxStride in
        let chunkStride := AlignUp chunkBytes kMoonEpStageAlignment in
        if chunkStride =? UINT64_MAX then None
        else
          let chunks := ((rowBytes - 1)%u64 / chunkBytes + 1)%u64 in
          if 0xFFFFFF <? chunks then None
          else
            regions ← BuildRegions nvS chunkStride weightsBytes world activeCores;
            hidden ← hiddenNvsh;
            Some {| c_rank := commRank; c_world := commWorld; c_s := s; c_k := p_k p; c_n := p_n p; c_nvS := p_nvS p;
              hiddenSize := shape hidden 1; c_blockDim := activeCores; c_stepCount := MoonEpCombineV2StepCount (u32 commWorld);
              sourcesPerCore := Z.quot commWorld activeCores; chunkCount := chunks; c_flags := flags; hiddenRowBytes := rowBytes;
              hiddenChunkBytes := chunkBytes; hiddenChunkStride := chunkStride; c_regions := regions |}.

(** ** The window of a stride *)

(** Where the window ends for the sizes of its parts. *)
Definition combine_end (hidden weights mask done status : Z) : Z :=
  let c1 := align_to 32 0 + hidden in
  let c2 := align_to 32 c1 + hidden in
  let c3 := align_to 32 c2 + weights in
  let c4 := align_to 32 c3 + weights in
  let c5 := align_to 32 c4 + mask in
  let c6 := align_to 64 c5 + done in
  align_to 64 c6 + status.

Definition combine_parts (r : CombineRegions) : list (Z * Z) :=
  [(sourceHiddenOffset r, hiddenPayloadBytes r); (receiveHiddenOffset r, hiddenPayloadBytes r);
   (sourceWeightsOffset r, routeWeightsBytes r); (receiveWeightsOffset r, routeWeightsBytes r);
   (duplicateMaskOffset r, duplicateMaskBytes r); (doneOffset r, doneBytes r); (coreStatusOffset r, coreStatusBytes r)].

Section regions.
Context (nvS weightsBytes world activeCores : Z).
Context (Hn : 0 < nvS <= 4294967296) (Hw : 0 <= weightsBytes <= 17179869184) (Hwd : 0 <= world <= 4294967296) (Hac : 0 <= activeCores <= 4294967296).

Definition window_of (stride : Z) : Z := combine_end (nvS * stride) weightsBytes (nvS * 4) (world * 64) (activeCores * 64).

Lemma window_mono s1 s2 : s1 <= s2 -> window_of s1 <= window_of s2.
Proof using Hn Hw.
  intros H. unfold window_of, combine_end. assert (nvS * s1 <= nvS * s2) by nia.
  apply Z.add_le_mono_r, align_to_mono; [lia|]. apply Z.add_le_mono_r, align_to_mono; [lia|]. apply Z.add_le_mono_r, align_to_mono; [lia|].
  apply Z.add_le_mono_r, align_to_mono; [lia|]. apply Z.add_le_mono_r, align_to_mono; [lia|]. apply Z.add_le_mono; [|done]. apply align_to_mono; lia.
Qed.

(** The regions of a window that fits. *)
Definition regions_of (stride : Z) : CombineRegions :=
  let c1 := align_to 32 0 + nvS * stride in
  let c2 := align_to 32 c1 + nvS * stride in
  let c3 := align_to 32 c2 + weightsBytes in
  let c4 := align_to 32 c3 + weightsBytes in
  let c5 := align_to 32 c4 + nvS * 4 in
  let c6 := align_to 64 c5 + world * 64 in
  {| sourceHiddenOffset := align_to 32 0; hiddenPayloadBytes := nvS * stride; receiveHiddenOffset := align_to 32 c1;
     sourceWeightsOffset := align_to 32 c2; receiveWeightsOffset := align_to 32 c3; routeWeightsBytes := weightsBytes;
     duplicateMaskOffset := align_to 32 c4; duplicateMaskBytes := nvS * 4; doneOffset := align_to 64 c5; doneBytes := world * 64;
     coreStatusOffset := align_to 64 c6; coreStatusBytes := activeCores * 64; windowBytes := align_to 64 c6 + activeCores * 64 |}.

(** One bind of a checked append: it goes on with the next cursor, or the cursor is beyond the window. *)
Lemma append_bind {B : Type} bytes a cur (f : Z * Z -> option B) : 0 < a <= 64 -> is_u64 bytes -> is_u64 cur ->
  cur <= align_to a cur + bytes /\
  ((AppendRegion bytes a cur ≫= f = f (align_to a cur, align_to a cur + bytes) /\ is_u64 (align_to a cur + bytes)) \/
   (AppendRegion bytes a cur ≫= f = None /\ IPC_BUFF_MAX_SIZE < align_to a cur + bytes)).
Proof using Type.
  intros Ha Hu1 Hu2. pose proof (align_to_spec a cur ltac:(lia)). split; [unfold is_u64 in *; lia|].
  destruct (AppendRegion bytes a cur) as [[off nxt]|] eqn:E.
  - left. apply AppendRegion_Some in E as (-> & -> & _ & ?); [done|done|done|unfold UINT64_MAX; lia].
  - right. split; [done|]. unfold is_u64, UINT64_MAX in *. change IPC_BUFF_MAX_SIZE with 536870912.
    destruct (Z.le_gt_cases (cur + a + bytes) UINT64_MAX) as [H1|H1]; unfold UINT64_MAX in H1; [|lia].
    by rewrite AppendRegion_ok in E by (unfold UINT64_MAX; lia).
Qed.

(** The next append of a chain, whose cursor is [c] behind it. *)
Ltac append_to c U U' :=
  match goal with |- AppendRegion ?b ?a ?cur ≫= ?f = _ =>
    let E := fresh "E" in
    destruct (append_bind b a cur f ltac:(lia) ltac:(auto with lia) U) as [_ [[E U']|[E U']]]; rewrite E; clear E;
    change IPC_BUFF_MAX_SIZE with 536870912 in U'; change (align_to a cur + b) with c in U' |- *;
    [cbv beta iota|rewrite (proj2 (Z.leb_gt _ _)) by lia; done] end.

Lemma aligned_after a c n : 0 < a -> 0 <= n -> c <= align_to a c + n.
Proof using Type. intros Ha Hn'. pose proof (align_to_spec a c Ha). lia. Qed.

Lemma BuildRegions_spec stride : 0 < stride -> is_u64 stride ->
  BuildRegions nvS stride weightsBytes world activeCores = if window_of stride <=? IPC_BUFF_MAX_SIZE then Some (regions_of stride) else None.
Proof using Hn Hw Hwd Hac.
  intros Hs Hu. unfold BuildRegions, window_of, combine_end, regions_of, kMoonEpStageAlignment, kMoonEpCombineV2TokenStrideBytes.
  rewrite (proj2 (Z.eqb_neq nvS 0)), (proj2 (Z.eqb_neq stride 0)) by lia. cbn [orb]. unfold is_u64, UINT64_MAX in Hu.
  rewrite !CheckedMul_spec by (unfold is_u64, UINT64_MAX; lia). unfold UINT64_MAX.
  rewrite (proj2 (Z.leb_le (nvS * 4) _)), (proj2 (Z.leb_le (world * 64) _)), (proj2 (Z.leb_le (activeCores * 64) _)) by lia.
  assert (0 < nvS * stride) as Hp by nia. set (h := nvS * stride) in *. clearbody h. cbv zeta.
  pose proof (aligned_after 32 0 h ltac:(lia) ltac:(lia)) as A1. set (c1 := align_to 32 0 + h) in *.
  pose proof (aligned_after 32 c1 h ltac:(lia) ltac:(lia)) as A2. set (c2 := align_to 32 c1 + h) in *.
  pose proof (aligned_after 32 c2 weightsBytes ltac:(lia) ltac:(lia)) as A3. set (c3 := align_to 32 c2 + weightsBytes) in *.
  pose proof (aligned_after 32 c3 weightsBytes ltac:(lia) ltac:(lia)) as A4. set (c4 := align_to 32 c3 + weightsBytes) in *.
  pose proof (aligned_after 32 c4 (nvS * 4) ltac:(lia) ltac:(lia)) as A5. set (c5 := align_to 32 c4 + nvS * 4) in *.
  pose proof (aligned_after 64 c5 (world * 64) ltac:(lia) ltac:(lia)) as A6. set (c6 := align_to 64 c5 + world * 64) in *.
  pose proof (aligned_after 64 c6 (activeCores * 64) ltac:(lia) ltac:(lia)) as A7. set (c7 := align_to 64 c6 + activeCores * 64) in *.
  change IPC_BUFF_MAX_SIZE with 536870912.
  destruct (Z.leb_spec h 18446744073709551615) as [Hh|Hh]; cycle 1.
  { pose proof (align_to_spec 32 0 ltac:(lia)). rewrite (proj2 (Z.leb_gt _ _)) by lia. done. }
  rewrite !bind_Some. assert (is_u64 0) as U0 by (unfold is_u64, UINT64_MAX; lia).
  assert (forall n, 0 <= n <= 18446744073709551615 -> is_u64 n) as Hsz by (intros n; unfold is_u64, UINT64_MAX; lia).
  append_to c1 U0 U1. append_to c2 U1 U2. append_to c3 U2 U3. append_to c4 U3 U4. append_to c5 U4 U5. append_to c6 U5 U6. append_to c7 U6 U7.
  destruct (Z.ltb_spec 536870912 c7), (Z.leb_spec c7 536870912); (done || lia).
Qed.

(** ** The search *)

Definition fits (units : Z) : bool := window_of (units * 32) <=? IPC_BUFF_MAX_SIZE.

Lemma fits_mono u1 u2 : u1 <= u2 -> fits u2 = true -> fits u1 = true.
Proof using Hn Hw. unfold fits. intros H Hf. b2p. apply Z.leb_le. pose proof (window_mono (u1 * 32) (u2 * 32)). lia. Qed.

(** Both payloads of a window that fits are in it. *)
Lemma fits_bound units : 0 <= units -> fits units = true -> units <= IPC_BUFF_MAX_SIZE / kMoonEpStageAlignment / nvS / 2.
Proof using Hn Hw Hwd Hac.
  unfold fits, window_of, combine_end. intros Hu Hf. b2p. change IPC_BUFF_MAX_SIZE with 536870912 in *. unfold kMoonEpStageAlignment.
  assert (0 <= nvS * (units * 32)) as Hp by nia. set (h := nvS * (units * 32)) in *.
  pose proof (align_to_spec 32 0 ltac:(lia)) as A0. set (c1 := align_to 32 0 + h) in *.
  pose proof (align_to_spec 32 c1 ltac:(lia)) as A1. set (c2 := align_to 32 c1 + h) in *.
  pose proof (aligned_after 32 c2 weightsBytes ltac:(lia) ltac:(lia)) as A3. set (c3 := align_to 32 c2 + weightsBytes) in *.
  pose proof (aligned_after 32 c3 weightsBytes ltac:(lia) ltac:(lia)) as A4. set (c4 := align_to 32 c3 + weightsBytes) in *.
  pose proof (aligned_after 32 c4 (nvS * 4) ltac:(lia) ltac:(lia)) as A5. set (c5 := align_to 32 c4 + nvS * 4) in *.
  pose proof (aligned_after 64 c5 (world * 64) ltac:(lia) ltac:(lia)) as A6. set (c6 := align_to 64 c5 + world * 64) in *.
  pose proof (aligned_after 64 c6 (activeCores * 64) ltac:(lia) ltac:(lia)) as A7. set (c7 := align_to 64 c6 + activeCores * 64) in *.
  assert (2 * h <= 536870912) as Hh by lia. clear - Hh Hn Hu. subst h. change (536870912 / 32) with 16777216.
  apply Z.div_le_lower_bound; [lia|]. apply Z.div_le_lower_bound; [lia|]. nia.
Qed.

Lemma search_spec fuel low high : 0 <= low <= high -> high <= 16777216 -> high - low <= Z.of_nat fuel -> low = 0 \/ fits low = true ->
  (forall u, high < u -> fits u = false) ->
  let r := search_stride fuel nvS weightsBytes world activeCores low high in
  low <= r <= high /\ (r = 0 \/ fits r = true) /\ (forall u, r < u -> fits u = false).
Proof using Hn Hw Hwd Hac.
  revert low high. induction fuel as [|f IH]; intros low high Hl Hh Hf Hlow Hhigh; cbn [search_stride].
  - assert (low = high) as <- by lia. split; [lia|]. done.
  - destruct (Z.ltb_spec low high) as [Hlt|Hge]; [|assert (low = high) as <- by lia; split; [lia|done]].
    rewrite (u64_small (high - low)), (u64_small (high - low + 1)) by lia. assert (low < low + (high - low + 1) / 2 <= high) as Hmid by (clear - Hlt; div_lia).
    rewrite (u64_small (low + _)) by lia. set (mid := low + (high - low + 1) / 2) in *. clearbody mid. cbv zeta.
    unfold kMoonEpStageAlignment. rewrite (u64_small (mid * 32)) by lia. rewrite BuildRegions_spec by (unfold is_u64, UINT64_MAX; lia). fold (fits mid).
    destruct (fits mid) eqn:E.
    + rewrite bool_decide_true by done. destruct (IH mid high ltac:(lia) Hh ltac:(lia) (or_intror E) Hhigh) as (H1 & H2 & H3). split; [lia|done].
    + rewrite bool_decide_false by (intros [? [=]]). rewrite u64_small by lia.
      destruct (IH low (mid - 1) ltac:(lia) ltac:(lia) ltac:(lia) Hlow) as (H1 & H2 & H3); [|split; [lia|done]].
      intros u Hu. destruct (fits u) eqn:Eu; [|done]. rewrite (fits_mono mid u) in E by (done || lia). done.
Qed.

(** The search returns the largest stride whose window fits, zero when none does. *)
Lemma max_stride_spec : let r := MaxHiddenStride nvS weightsBytes world activeCores in
  exists u, r = u * 32 /\ 0 <= u <= 16777216 /\ (u = 0 \/ fits u = true) /\ forall u', u < u' -> fits u' = false.
Proof using Hn Hw Hwd Hac.
  unfold MaxHiddenStride. cbv zeta. set (mu := IPC_BUFF_MAX_SIZE / kMoonEpStageAlignment / nvS / 2).
  assert (0 <= mu <= 16777216) as Hmu.
  { unfold mu, kMoonEpStageAlignment. change (IPC_BUFF_MAX_SIZE / 32) with 16777216. clear - Hn. split; [apply Z.div_pos; [apply Z.div_pos; lia|lia]|].
    apply Z.div_le_upper_bound; [lia|]. apply Z.div_le_upper_bound; [lia|]. nia. }
  destruct (search_spec (Z.to_nat mu) 0 mu ltac:(lia) ltac:(lia) ltac:(lia) (or_introl eq_refl)) as (H1 & H2 & H3).
  { intros u Hu. destruct (fits u) eqn:E; [|done]. apply fits_bound in E; [|lia]. unfold mu in Hu. lia. }
  eexists. split; [unfold kMoonEpStageAlignment; apply u64_small; lia|]. split; [lia|]. done.
Qed.

(** The regions of a window. *)
Lemma regions_packed stride : 0 < stride -> window_of stride <= IPC_BUFF_MAX_SIZE ->
  packed 32 0 (combine_parts (regions_of stride)) (windowBytes (regions_of stride)) /\ doneOffset (regions_of stride) mod 64 = 0 /\
  coreStatusOffset (regions_of stride) mod 64 = 0.
Proof using Hn Hw Hwd Hac.
  intros Hs _. assert (forall v, align_to 64 v mod 32 = 0) as H64.
  { intros v. destruct (align_to_spec 64 v ltac:(lia)) as [_ E]. clear - E. div_lia. }
  assert (0 <= nvS * stride) by nia. unfold combine_parts, regions_of. cbv zeta.
  cbn [sourceHiddenOffset hiddenPayloadBytes receiveHiddenOffset sourceWeightsOffset receiveWeightsOffset routeWeightsBytes duplicateMaskOffset
    duplicateMaskBytes doneOffset doneBytes coreStatusOffset coreStatusBytes windowBytes].
  split; [|split; apply align_to_spec; lia]. do 5 (apply packed_cons; [lia|lia|]). cbn [packed].
  set (c5 := align_to 32 _ + nvS * 4). pose proof (align_to_spec 64 c5 ltac:(lia)). set (c6 := align_to 64 c5 + world * 64) in *.
  pose proof (align_to_spec 64 c6 ltac:(lia)). split_and!; try apply H64; lia.
Qed.
End regions.

(** ** The theorem *)

Lemma CheckedMul_pos a b c : 0 < a -> 0 <= b -> CheckedMul a b = Some c -> c = a * b /\ 0 <= c <= UINT64_MAX.
Proof.
  intros Ha Hb. unfold CheckedMul. rewrite (proj2 (Z.eqb_neq a 0)) by lia. cbn [negb andb]. case_if; [done|]. b2p. intros [= <-].
  pose proof (Z.mul_div_le UINT64_MAX a Ha). unfold UINT64_MAX in *. rewrite u64_small by nia. nia.
Qed.

(** A plan the stages accept. *)
Lemma PlanValid_bounds commRank commWorld p s : PlanValid commRank commWorld (Some p) = Some s ->
  1 <= commWorld <= 128 /\ 0 <= commRank < commWorld /\ 0 < p_n p <= p_nvS p /\ p_r p = commWorld /\ commWorld * p_nvS p <= 2147483648 /\
  1 <= p_k p <= 32 /\ p_n p = s * p_k p /\ 0 < s.
Proof.
  cbn [PlanValid]. intros H. case_if_in H; [done|]. destruct (CheckedMul _ _) as [cap|] eqn:Ecap; [|done]. case_if_in H; [done|].
  cbv zeta in H. case_if_in H; [|done]. injection H as <-. b2p. apply CheckedMul_pos in Ecap as [-> _]; [|lia|lia]. unfold INT32_MAX in *.
  assert (p_r p * p_nvS p <= 2147483648) by lia. pose proof (Z_div_exact_full_2 (p_n p) (p_k p) ltac:(lia) ltac:(done)) as Ek.
  replace (p_r p) with commWorld in * by done. split_and!; lia.
Qed.

(** What the layout of an accepted call is built from. *)
Lemma combine_layout_inv commRank commWorld plan hNvsh wNvs hSh wSk flags l :
  TileXRMoonEpBuildCombineLayout commRank commWorld plan hNvsh wNvs hSh wSk flags = Some l ->
  exists w u, 0 < c_nvS l <= 2147483648 /\ 2 <= c_world l <= 128 /\ 0 <= w <= 17179869184 /\ 0 < hiddenRowBytes l <= INT64_MAX /\
    let cores := MoonEpCombineV2ActiveCoreCount (c_world l) in
    0 < u <= 16777216 /\ fits (c_nvS l) w (c_world l) cores u = true /\ (forall u', u < u' -> fits (c_nvS l) w (c_world l) cores u' = false) /\
    hiddenChunkBytes l = Z.min (hiddenRowBytes l) (u * 32) /\ hiddenChunkStride l = align_to 32 (hiddenChunkBytes l) /\
    chunkCount l = (hiddenRowBytes l - 1) / hiddenChunkBytes l + 1 /\ chunkCount l <= 0xFFFFFF /\
    window_of (c_nvS l) w (c_world l) cores (hiddenChunkStride l) <= IPC_BUFF_MAX_SIZE /\
    c_regions l = regions_of (c_nvS l) w (c_world l) cores (hiddenChunkStride l).
Proof.
  unfold TileXRMoonEpBuildCombineLayout. intros H. case_if_in H; [done|]. b2p.
  destruct (PlanValid commRank commWorld plan) as [s0|] eqn:Ep; [|done]. cbn [mbind option_bind] in H. destruct plan as [p|]; [|done].
  cbn [mbind option_bind] in H. destruct (HiddenValid _ _ _ _) as [rb|] eqn:Eh; [|done]. cbn [mbind option_bind] in H. case_if_in H; [done|]. b2p.
  apply PlanValid_bounds in Ep as (P1 & _ & P3 & _ & P5 & _). rewrite (u32_small commWorld) in * by lia.
  assert (2 <= commWorld) as P2 by (destruct (Z.eq_dec commWorld 1) as [-> |]; [done|lia]).
  unfold HiddenValid in Eh. destruct hNvsh as [hi|]; [|done]. destruct hSh as [ho|]; [|done]. case_if_in Eh; [|done]. b2p.
  apply CheckedMul_pos in Eh as [Erb Hrb]; [|done|lia].
  destruct (match wNvs with Some _ => CheckedMul (p_nvS p) 4 | None => Some 0 end) as [w|] eqn:Ew; [|done]. cbn [mbind option_bind] in H.
  assert (0 <= w <= 17179869184) as Hw. { destruct wNvs; [apply CheckedMul_pos in Ew as [-> _]; lia|injection Ew as <-; lia]. }
  cbv zeta in H. set (cores := MoonEpCombineV2ActiveCoreCount commWorld) in *.
  assert (0 <= cores <= 4294967296) as Hco.
  { unfold cores, MoonEpCombineV2ActiveCoreCount, kMoonEpCombineV2GroupSize, kMoonEpCombineV2CoreCount. case_if; lia. }
  destruct (max_stride_spec (p_nvS p) w commWorld cores ltac:(nia) Hw ltac:(lia) Hco) as (u & Eu & Hu & Hfit & Hmax). rewrite Eu in H.
  case_if_in H; [done|]. b2p. destruct Hfit as [-> |Hfit]; [done|].
  set (cb := if rb <? u * 32 then rb else u * 32) in *. assert (cb = Z.min rb (u * 32)) as Ecb by (unfold cb; case_if; b2p; lia).
  assert (0 < cb <= 536870912) as Hcb by lia. unfold kMoonEpStageAlignment in H.
  rewrite AlignUp_spec in H by (unfold is_u64, UINT64_MAX; lia). rewrite (proj2 (Z.leb_le _ UINT64_MAX)) in H by (unfold UINT64_MAX; lia).
  pose proof (align_to_spec 32 cb ltac:(lia)) as Hal. case_if_in H; [done|]. case_if_in H; [done|]. b2p.
  rewrite BuildRegions_spec in H by (unfold is_u64, UINT64_MAX; nia). destruct (Z.leb_spec (window_of (p_nvS p) w commWorld cores (align_to 32 cb)) IPC_BUFF_MAX_SIZE); [|done].
  assert (0 <= (rb - 1) / cb <= rb - 1) as Hd by (split; [apply Z.div_pos; lia|apply Z.div_le_upper_bound; nia]). unfold INT64_MAX in *.
  rewrite (u64_small (rb - 1)), (u64_small (_ + 1)) in * by lia. cbn [mbind option_bind] in H. injection H as <-. cbn.
  exists w, u. split_and!; try done; try lia.
Qed.

(** A call with valid descriptors that is refused. *)
Lemma combine_layout_refused commRank commWorld p hNvsh wNvs hSh wSk s rowBytes : MoonEpCombineV2RankSizeSupported commWorld = true ->
  PlanValid commRank commWorld (Some p) = Some s -> HiddenValid hNvsh hSh s (p_nvS p) = Some rowBytes -> rowBytes <= INT64_MAX ->
  WeightsValid wNvs wSk s (p_k p) (p_nvS p) = true ->
  TileXRMoonEpBuildCombineLayout commRank commWorld (Some p) hNvsh wNvs hSh wSk TILEXR_MOONEP_FLAG_NONE = None ->
  let w := match wNvs with Some _ => p_nvS p * 4 | None => 0 end in
  forall u, fits (p_nvS p) w commWorld (MoonEpCombineV2ActiveCoreCount commWorld) u = true -> 0 < u -> 0xFFFFFF * (u * 32) < rowBytes.
Proof.
  intros Hs Hp Hh Hr Hwv H w u Hu Hpos. pose proof (PlanValid_bounds _ _ _ _ Hp) as (P1 & _ & P3 & _ & P5 & _). unfold TileXRMoonEpBuildCombineLayout in H.
  rewrite (u32_small commWorld), Hs, Hp in H by lia. cbn [mbind option_bind negb orb] in H. rewrite Hh in H. cbn [mbind option_bind] in H.
  rewrite (proj2 (Z.ltb_ge INT64_MAX rowBytes)), Hwv in H by done. cbn [orb negb] in H.
  assert (match wNvs with Some _ => CheckedMul (p_nvS p) 4 | None => Some 0 end = Some w) as Ew.
  { unfold w. destruct wNvs; [|done]. rewrite CheckedMul_spec by (unfold is_u64, UINT64_MAX; lia). by rewrite (proj2 (Z.leb_le _ UINT64_MAX)) by (unfold UINT64_MAX; lia). }
  rewrite Ew in H. cbn [mbind option_bind] in H. assert (0 <= w <= 17179869184) as Hw by (unfold w; destruct wNvs; lia). clearbody w. clear Ew.
  unfold HiddenValid in Hh. destruct hNvsh as [hi|]; [|done]. destruct hSh as [ho|]; [|done]. case_if_in Hh; [|done]. b2p.
  apply CheckedMul_pos in Hh as [Erb Hrb]; [|done|lia]. cbv zeta in H. set (cores := MoonEpCombineV2ActiveCoreCount commWorld) in *.
  assert (0 <= cores <= 4294967296) as Hco.
  { unfold cores, MoonEpCombineV2ActiveCoreCount, kMoonEpCombineV2GroupSize, kMoonEpCombineV2CoreCount. case_if; lia. }
  destruct (max_stride_spec (p_nvS p) w commWorld cores ltac:(nia) Hw ltac:(lia) Hco) as (v & Ev & Hv & Hfit & Hmax). rewrite Ev in H.
  assert (u <= v) as Huv. { destruct (Z.le_gt_cases u v); [done|]. rewrite Hmax in Hu by lia. done. }
  rewrite (proj2 (Z.eqb_neq (v * 32) 0)) in H by lia. set (cb := if rowBytes <? v * 32 then rowBytes else v * 32) in *.
  assert (cb = Z.min rowBytes (v * 32)) as Ecb by (unfold cb; case_if; b2p; lia). assert (0 < cb <= 536870912) as Hcb by lia. unfold kMoonEpStageAlignment in H.
  rewrite AlignUp_spec in H by (unfold is_u64, UINT64_MAX; lia). rewrite (proj2 (Z.leb_le _ UINT64_MAX)) in H by (unfold UINT64_MAX; lia).
  pose proof (align_to_spec 32 cb ltac:(lia)) as Hal. rewrite (proj2 (Z.eqb_neq (align_to 32 cb) UINT64_MAX)) in H by (unfold UINT64_MAX; lia).
  assert (0 <= (rowBytes - 1) / cb <= rowBytes - 1) as Hd by (split; [apply Z.div_pos; lia|apply Z.div_le_upper_bound; nia]). unfold INT64_MAX in *.
  rewrite (u64_small (rowBytes - 1)), (u64_small (_ + 1)) in H by lia. destruct (Z.ltb_spec 0xFFFFFF ((rowBytes - 1) / cb + 1)) as [Hlt|Hge].
  - pose proof (Z.mul_div_le (rowBytes - 1) cb ltac:(lia)). destruct (Z.le_gt_cases rowBytes (v * 32)) as [Hle|Hgt].
    + replace cb with rowBytes in * by lia. rewrite Z.div_small in Hlt by lia. lia.
    + replace cb with (v * 32) in * by lia. nia.
  - rewrite BuildRegions_spec in H by (unfold is_u64, UINT64_MAX; nia). destruct Hfit as [-> |Hfit]; [lia|]. exfalso.
    assert (align_to 32 cb <= v * 32) as Hst by (apply align_to_le; [lia|lia|apply Z.mod_mul; lia]).
    pose proof (window_mono (p_nvS p) w commWorld cores ltac:(nia) Hw _ _ Hst) as Hm. unfold fits in Hfit. b2p.
    rewrite (proj2 (Z.leb_le _ IPC_BUFF_MAX_SIZE)) in H by lia. done.
Qed.

(** C37: the window of the combine stage. A layout that is accepted has its seven parts inside the
    window, aligned and apart from each other, and the window inside the buffer between two
    ranks. Its chunks cover a row of the hidden state and the last one is not empty; the chunk is
    the whole row, or the largest multiple of the alignment for which the window fits. With
    descriptors that are valid, a layout is refused only when no stride for which the window fits
    covers the row in [2^24 - 1] chunks. *)
Theorem combine_layout_chunks commRank commWorld plan hNvsh wNvs hSh wSk flags :
  (forall l, TileXRMoonEpBuildCombineLayout commRank commWorld plan hNvsh wNvs hSh wSk flags = Some l ->
   let r := c_regions l in
   disjoint_regions 32 0 (combine_parts r) (windowBytes r) /\ windowBytes r <= IPC_BUFF_MAX_SIZE /\
   hiddenPayloadBytes r = c_nvS l * hiddenChunkStride l /\ hiddenChunkBytes l <= hiddenChunkStride l /\ hiddenChunkStride l mod 32 = 0 /\
   (chunkCount l - 1) * hiddenChunkBytes l < hiddenRowBytes l <= chunkCount l * hiddenChunkBytes l /\ 0 < chunkCount l <= 0xFFFFFF /\
   (hiddenChunkBytes l = hiddenRowBytes l \/
    forall stride, hiddenChunkStride l < stride -> stride mod 32 = 0 -> stride <= INT64_MAX ->
      BuildRegions (c_nvS l) stride (routeWeightsBytes r) (c_world l) (MoonEpCombineV2ActiveCoreCount (c_world l)) = None)) /\
  (forall s p rowBytes, flags = TILEXR_MOONEP_FLAG_NONE -> MoonEpCombineV2RankSizeSupported commWorld = true -> plan = Some p ->
   PlanValid commRank commWorld plan = Some s -> HiddenValid hNvsh hSh s (p_nvS p) = Some rowBytes -> rowBytes <= INT64_MAX ->
   WeightsValid wNvs wSk s (p_k p) (p_nvS p) = true ->
   TileXRMoonEpBuildCombineLayout commRank commWorld plan hNvsh wNvs hSh wSk flags = None ->
   forall units r, 0 < units <= 16777216 ->
     BuildRegions (p_nvS p) (units * 32) (match wNvs with Some _ => p_nvS p * 4 | None => 0 end) commWorld (MoonEpCombineV2ActiveCoreCount commWorld) = Some r ->
     0xFFFFFF * (units * 32) < rowBytes).
Proof.
  split.
  - intros l H r. apply combine_layout_inv in H as (w & u & Hn & Hwd & Hw & Hrow & Hu & Hfit & Hmax & Ecb & Est & Ech & Hch & Hwin & Er).
    set (cores := MoonEpCombineV2ActiveCoreCount (c_world l)) in *. assert (0 <= cores <= 4294967296) as Hco.
    { unfold cores, MoonEpCombineV2ActiveCoreCount, kMoonEpCombineV2GroupSize, kMoonEpCombineV2CoreCount. case_if; lia. }
    pose proof (align_to_spec 32 (hiddenChunkBytes l) ltac:(lia)) as Hal. rewrite <- Est in Hal.
    destruct (regions_packed (c_nvS l) w (c_world l) cores ltac:(lia) Hw ltac:(lia) Hco (hiddenChunkStride l) ltac:(lia) Hwin) as (Hpk & _ & _).
    unfold r. rewrite Er. split; [by apply packed_disjoint|]. split; [done|]. split; [done|]. split; [lia|]. split; [lia|].
    pose proof (Z.mul_div_le (hiddenRowBytes l - 1) (hiddenChunkBytes l) ltac:(lia)). pose proof (Z.mul_succ_div_gt (hiddenRowBytes l - 1) (hiddenChunkBytes l) ltac:(lia)).
    pose proof (Z.div_pos (hiddenRowBytes l - 1) (hiddenChunkBytes l) ltac:(lia) ltac:(lia)). split; [rewrite Ech; lia|]. split; [lia|].
    destruct (Z.le_gt_cases (hiddenRowBytes l) (u * 32)) as [Hle|Hgt]; [left; lia|right]. intros stride Hst Hmod Hmx. unfold INT64_MAX in Hmx.
    change (routeWeightsBytes (regions_of (c_nvS l) w (c_world l) cores (hiddenChunkStride l))) with w.
    rewrite BuildRegions_spec by (unfold is_u64, UINT64_MAX; lia).
    specialize (Hmax (stride / 32)). unfold fits in Hmax. pose proof (Z_div_exact_full_2 stride 32 ltac:(lia) Hmod) as E32.
    replace (stride / 32 * 32) with stride in Hmax by lia. rewrite Hmax; [done|]. lia.
  - intros s p rowBytes -> Hs -> Hp Hh Hr Hwv H units rg Hu Hb. eapply combine_layout_refused; [done..| |lia]. unfold fits.
    pose proof (PlanValid_bounds _ _ _ _ Hp) as (P1 & _ & P3 & _ & P5 & _).
    rewrite BuildRegions_spec in Hb; [by destruct (_ <=? _)|nia|destruct wNvs; nia|lia| |lia|unfold is_u64, UINT64_MAX; lia].
    unfold MoonEpCombineV2ActiveCoreCount, kMoonEpCombineV2GroupSize, kMoonEpCombineV2CoreCount. case_if; lia.
Qed.

(** ** A window *)

Module SampleCombine.
Definition tensor (dtype rank d0 d1 : Z) : option TileXRMoonEpTensorV1 :=
  Some {| t_structSize := 64; t_abiVersion := 1; t_data := 4096; elementCount := if rank =? 1 then d0 else d0 * d1; dtype := dtype; t_rank := rank;
    shape := fun d => if d =? 0 then d0 else if (d =? 1) && (rank =? 2) then d1 else 0 |}.
Definition plan : option TileXRMoonEpPlanV1 :=
  Some {| p_structSize := 120; p_abiVersion := 1; p_n := 65536; p_r := 4; p_e := 16; p_b := 2; p_nvS := 131072; p_k := 8; planPointers := true |}.
(** A row of 7168 numbers, of which 2016 bytes fit at a time. *)
Definition layout : option CombineLayout :=
  TileXRMoonEpBuildCombineLayout 1 4 plan (tensor 11 2 131072 7168) (tensor 4 1 131072 0) (tensor 11 2 8192 7168) (tensor 4 2 8192 8) 0.
End SampleCombine.

Lemma combine_layout_chunks_witness : exists l, SampleCombine.layout = Some l /\ hiddenChunkBytes l < hiddenRowBytes l /\
  disjoint_regions 32 0 (combine_parts (c_regions l)) (windowBytes (c_regions l)) /\ windowBytes (c_regions l) <= IPC_BUFF_MAX_SIZE.
Proof.
  destruct SampleCombine.layout as [l|] eqn:E; [|vm_compute in E; discriminate E]. exists l.
  destruct (proj1 (combine_layout_chunks _ _ _ _ _ _ _ _) l E) as (H1 & H2 & _). split; [reflexivity|]. split; [|split; assumption].
  vm_compute in E. injection E as <-. reflexivity.
Defined.
