(* ===== verification/StageDispatch.v ===== *)
(** The workspace of the one-sided dispatch (src/src/moonep/dispatch/urma/host/dispatch_layout.cpp):
    the rows and scratch buffers of the two payloads at the start, and the words and records that
    outlive a launch, the common part, at the end. A function that returns an error code and
    fills a layout is an option. *)
From S2P Require Import Prelude CombineWire Layouts DispatchSchedule DispatchCredit WqeRing StageCombine.

Definition kDispatchMaxDesignRankCount : Z := 512.
Definition kDispatchScratchBufferCount : Z := 2.
Definition kDispatchInternalAlignmentBytes : Z := 64.
Definition kDispatchRegistrationAlignmentBytes : Z := 2 * 1024 * 1024.
Definition kDispatchSignalStrideBytes : Z := 64.
Definition kDispatchProfileRecordCount : Z := kDispatchAivCoreCount.
Definition kDispatchDfxRecordCount : Z := kDispatchAivCoreCount.
Definition sizeof_DispatchProfileRecord : Z := 256.
Definition sizeof_DispatchDfxRecord : Z := 128.
Definition sizeof_DispatchKernelStatus : Z := 64.

Record DispatchUrmaActiveLayout := {
  a_rowBytes : Z; sourceOffset : Z; sourceBytes : Z; scratchOffset : Z; scratchSlotBytes : Z; a_scratchBytes : Z; activeDataBytes : Z
}.

(** The fields of a [MoonEpDispatchUrmaLayout] from [commonOffset] to [kernelStatusBytes]. *)
Record DispatchCommon := {
  commonOffset : Z; completionFlagsOffset : Z; completionFlagsBytes : Z; creditOffset : Z; creditBytes : Z;
  creditSourceOffset : Z; creditSourceBytes : Z; signalOffset : Z; signalBytes : Z; hiddenProfileOffset : Z;
  weightProfileOffset : Z; d_profileBytes : Z; hiddenDfxOffset : Z; weightDfxOffset : Z; dfxBytes : Z;
  kernelStatusOffset : Z; kernelStatusBytes : Z
}.

Record MoonEpDispatchUrmaLayout := {
  d_rankSize : Z; d_s : Z; d_k : Z; d_h : Z; d_routeCount : Z; d_destinationCapacity : Z;
  d_hidden : DispatchUrmaActiveLayout; d_weight : DispatchUrmaActiveLayout; d_common : DispatchCommon;
  d_requiredBytes : Z; d_totalBytes : Z
}.

Definition AppendBytes (bytes cursor : Z) : option (Z * Z) := AppendRegion bytes kDispatchInternalAlignmentBytes cursor.

Definition BuildActiveLayout (sourceRows destinationCapacity rowBytes cursor : Z) : option (DispatchUrmaActiveLayout * Z) :=
  if (sourceRows =? 0) || (destinationCapacity =? 0) || (rowBytes =? 0) then None
  else
    source ← CheckedMul sourceRows rowBytes;
    '(sourceAt, next) ← AppendBytes source cursor;
    slot ← CheckedMul destinationCapacity rowBytes;
    scratch ← CheckedMul slot kDispatchScratchBufferCount;
    '(scratchAt, next) ← AppendBytes scratch next;
    Some ({| a_rowBytes := rowBytes; sourceOffset := sourceAt; sourceBytes := source; scratchOffset := scratchAt; scratchSlotBytes := slot;
             a_scratchBytes := scratch; activeDataBytes := (next - cursor)%u64 |}, next).

(** The common part from the cursor [common]. *)
Definition build_common (common : Z) : option (DispatchCommon * Z) :=
  flags ← CheckedMul (kDispatchMaxDesignRankCount * kDispatchQpCount)%u32 8;
  '(flagsAt, cursor) ← AppendBytes flags common;
  '(creditAt, cursor) ← AppendBytes kDispatchCreditBytes cursor;
  '(creditSourceAt, cursor) ← AppendBytes kDispatchCreditSourceBytes cursor;
  signal ← CheckedMul kDispatchAivCoreCount kDispatchSignalStrideBytes;
  '(signalAt, cursor) ← AppendBytes signal cursor;
  profile ← CheckedMul kDispatchProfileRecordCount sizeof_DispatchProfileRecord;
  '(hiddenProfileAt, cursor) ← AppendBytes profile cursor;
  '(weightProfileAt, cursor) ← AppendBytes profile cursor;
  dfx ← CheckedMul kDispatchDfxRecordCount sizeof_DispatchDfxRecord;
  '(hiddenDfxAt, cursor) ← AppendBytes dfx cursor;
  '(weightDfxAt, cursor) ← AppendBytes dfx cursor;
  '(statusAt, cursor) ← AppendBytes sizeof_DispatchKernelStatus cursor;
  Some ({| commonOffset := common; completionFlagsOffset := flagsAt; completionFlagsBytes := flags; creditOffset := creditAt;
           creditBytes := kDispatchCreditBytes; creditSourceOffset := creditSourceAt; creditSourceBytes := kDispatchCreditSourceBytes;
           signalOffset := signalAt; signalBytes := signal; hiddenProfileOffset := hiddenProfileAt; weightProfileOffset := weightProfileAt;
           d_profileBytes := profile; hiddenDfxOffset := hiddenDfxAt; weightDfxOffset := weightDfxAt; dfxBytes := dfx;
           kernelStatusOffset := statusAt; kernelStatusBytes := sizeof_DispatchKernelStatus |}, cursor).

(** The common part moved to the offset [at_], by [shift]. *)
Definition shift_common (c : DispatchCommon) (at_ shift : Z) : DispatchCommon :=
  {| commonOffset := at_; completionFlagsOffset := (completionFlagsOffset c + shift)%u64; completionFlagsBytes := completionFlagsBytes c;
     creditOffset := (creditOffset c + shift)%u64; creditBytes := creditBytes c; creditSourceOffset := (creditSourceOffset c + shift)%u64;
     creditSourceBytes := creditSourceBytes c; signalOffset := (signalOffset c + shift)%u64; signalBytes := signalBytes c;
     hiddenProfileOffset := (hiddenProfileOffset c + shift)%u64; weightProfileOffset := (weightProfileOffset c + shift)%u64;
     d_profileBytes := d_profileBytes c; hiddenDfxOffset := (hiddenDfxOffset c + shift)%u64; weightDfxOffset := (weightDfxOffset c + shift)%u64;
     dfxBytes := dfxBytes c; kernelStatusOffset := (kernelStatusOffset c + shift)%u64; kernelStatusBytes := kernelStatusBytes c |}.

Definition TileXRMoonEpBuildDispatchUrmaLayout (rankSize s k h destinationCapacity : Z) : option MoonEpDispatchUrmaLayout :=
  if (rankSize <=? 0) || (TILEXR_MAX_RANK_SIZE <? rankSize) || (s <=? 0) || (k <=? 0) || (h <=? 0) || (destinationCapacity <=? 0) then None
  else
    routeCount ← CheckedMul s k;
    if (routeCount =? 0) || (INT64_MAX <? routeCount) || (destinationCapacity <? routeCount) || (UINT32_MAX <? destinationCapacity) then None
    else
      rowBytes ← CheckedMul h 2;
      if (rowBytes =? 0) || (UINT32_MAX <? rowBytes) then None
      else
        encoded ← CheckedMul rankSize destinationCapacity;
        if INT32_MAX + 1 <? encoded then None
        else
          '(hidden, cursor) ← BuildActiveLayout s destinationCapacity rowBytes 0;
          '(weight, cursor) ← BuildActiveLayout routeCount destinationCapacity 4 cursor;
          let common := AlignUp cursor kDispatchInternalAlignmentBytes in
          if common =? UINT64_MAX then None
          else
            '(c, cursor) ← build_common common;
            let total := AlignUp cursor kDispatchRegistrationAlignmentBytes in
            if total =? UINT64_MAX then None
            else
              let commonBytes := (cursor - common)%u64 in
              let bound := (total - commonBytes)%u64 in
              Some {| d_rankSize := rankSize; d_s := s; d_k := k; d_h := h; d_routeCount := routeCount; d_destinationCapacity := destinationCapacity;
                      d_hidden := hidden; d_weight := weight; d_common := shift_common c bound (bound - common)%u64; d_requiredBytes := cursor;
                      d_totalBytes := total |}.

Definition TileXRMoonEpBindDispatchUrmaWorkspace (workspaceBytes : Z) (l : MoonEpDispatchUrmaLayout) : option MoonEpDispatchUrmaLayout :=
  if (workspaceBytes =? 0) || negb (workspaceBytes mod kDispatchRegistrationAlignmentBytes =? 0) || (d_totalBytes l =? 0) ||
     (workspaceBytes <? d_totalBytes l) then None
  else
    let commonBytes := (d_totalBytes l - commonOffset (d_common l))%u64 in
    let next := (workspaceBytes - commonBytes)%u64 in
    if next <? commonOffset (d_common l) then None
    else Some {| d_rankSize := d_rankSize l; d_s := d_s l; d_k := d_k l; d_h := d_h l; d_routeCount := d_routeCount l;
                 d_destinationCapacity := d_destinationCapacity l; d_hidden := d_hidden l; d_weight := d_weight l;
                 d_common := shift_common (d_common l) next (next - commonOffset (d_common l))%u64; d_requiredBytes := d_requiredBytes l;
                 d_totalBytes := workspaceBytes |}.

Definition TileXRMoonEpGetActiveDispatchUrmaLayout (layout : MoonEpDispatchUrmaLayout) (mode : DispatchPayloadMode) : DispatchUrmaActiveLayout :=
  match mode with Hidden => d_hidden layout | RouteWeight => d_weight layout end.

(** ** The common part *)

Definition dispatch_common_bytes : Z := 8192 + kDispatchCreditBytes + kDispatchCreditSourceBytes + 4096 + 2 * 16384 + 2 * 8192 + 64.

(** The common part at an offset. *)
Definition common_at (base : Z) : DispatchCommon :=
  let credit := base + 8192 in
  let creditSource := credit + kDispatchCreditBytes in
  let signal := creditSource + kDispatchCreditSourceBytes in
  let profile := signal + 4096 in
  let dfx := profile + 2 * 16384 in
  {| commonOffset := base; completionFlagsOffset := base; completionFlagsBytes := 8192; creditOffset := credit; creditBytes := kDispatchCreditBytes;
     creditSourceOffset := creditSource; creditSourceBytes := kDispatchCreditSourceBytes; signalOffset := signal; signalBytes := 4096;
     hiddenProfileOffset := profile; weightProfileOffset := profile + 16384; d_profileBytes := 16384; hiddenDfxOffset := dfx;
     weightDfxOffset := dfx + 8192; dfxBytes := 8192; kernelStatusOffset := dfx + 2 * 8192; kernelStatusBytes := 64 |}.

Definition common_parts (c : DispatchCommon) : list (Z * Z) :=
  [(completionFlagsOffset c, completionFlagsBytes c); (creditOffset c, creditBytes c); (creditSourceOffset c, creditSourceBytes c);
   (signalOffset c, signalBytes c); (hiddenProfileOffset c, d_profileBytes c); (weightProfileOffset c, d_profileBytes c);
   (hiddenDfxOffset c, dfxBytes c); (weightDfxOffset c, dfxBytes c); (kernelStatusOffset c, kernelStatusBytes c)].

Definition active_parts (a : DispatchUrmaActiveLayout) : list (Z * Z) := [(sourceOffset a, sourceBytes a); (scratchOffset a, a_scratchBytes a)].

Definition dispatch_parts (l : MoonEpDispatchUrmaLayout) : list (Z * Z) :=
  active_parts (d_hidden l) ++ active_parts (d_weight l) ++ common_parts (d_common l).

Lemma append_fix n c o e : is_u64 n -> is_u64 c -> n mod 64 = 0 -> c mod 64 = 0 -> AppendBytes n c = Some (o, e) ->
  o = c /\ e = c + n /\ is_u64 e /\ e mod 64 = 0.
Proof.
  intros Hn Hc Mn Mc E. apply AppendRegion_Some in E as (-> & -> & _ & U); [|done|done|done]. unfold kDispatchInternalAlignmentBytes in *.
  rewrite align_to_fix in * by done. split_and!; [done|done|done|]. rewrite Z.add_mod, Mn, Mc by lia. done.
Qed.

Lemma build_common_at base c e : is_u64 base -> base mod 64 = 0 -> build_common base = Some (c, e) ->
  c = common_at base /\ e = base + dispatch_common_bytes /\ is_u64 e.
Proof.
  intros Hb Mb. unfold build_common. change (CheckedMul (kDispatchMaxDesignRankCount * kDispatchQpCount)%u32 8) with (Some 8192).
  change (CheckedMul kDispatchAivCoreCount kDispatchSignalStrideBytes) with (Some 4096).
  change (CheckedMul kDispatchProfileRecordCount sizeof_DispatchProfileRecord) with (Some 16384).
  change (CheckedMul kDispatchDfxRecordCount sizeof_DispatchDfxRecord) with (Some 8192). rewrite !bind_Some.
  assert (is_u64 8192 /\ is_u64 4096 /\ is_u64 16384 /\ is_u64 sizeof_DispatchKernelStatus /\ is_u64 kDispatchCreditBytes /\ is_u64 kDispatchCreditSourceBytes)
    as (S1 & S2 & S3 & S4 & S5 & S6) by done.
  repeat match goal with
  | Hc : is_u64 ?cur, Mc : ?cur mod 64 = 0 |- AppendBytes ?n ?cur ≫= _ = _ -> _ =>
      let E := fresh "E" in destruct (AppendBytes n cur) as [[? ?]|] eqn:E; [|done]; rewrite bind_Some;
      apply append_fix in E as (-> & -> & ? & ?); [|assumption|assumption|reflexivity|assumption]
  | |- Some _ ≫= _ = _ -> _ => rewrite bind_Some
  end.
  intros [= <- <-]. unfold common_at, dispatch_common_bytes. change sizeof_DispatchKernelStatus with 64 in *. split; [|split; [lia|done]]. f_equal; lia.
Qed.

Lemma shift_common_at base at_ : 0 <= base <= at_ -> at_ + dispatch_common_bytes <= UINT64_MAX -> shift_common (common_at base) at_ (at_ - base) = common_at at_.
Proof.
  intros H1 H2. change dispatch_common_bytes with (8192 + kDispatchCreditBytes + kDispatchCreditSourceBytes + 4096 + 2 * 16384 + 2 * 8192 + 64) in H2.
  assert (0 <= kDispatchCreditBytes /\ 0 <= kDispatchCreditSourceBytes) as [C1 C2] by done. unfold UINT64_MAX in H2.
  unfold shift_common, common_at. cbn [completionFlagsOffset completionFlagsBytes creditOffset creditBytes creditSourceOffset creditSourceBytes signalOffset
    signalBytes hiddenProfileOffset weightProfileOffset d_profileBytes hiddenDfxOffset weightDfxOffset dfxBytes kernelStatusOffset kernelStatusBytes].
  rewrite !u64_small by lia. f_equal; lia.
Qed.

Lemma common_packed base hi : base mod 64 = 0 -> base + dispatch_common_bytes <= hi -> packed 64 base (common_parts (common_at base)) hi.
Proof.
  intros Hb Hh. unfold dispatch_common_bytes in Hh. assert (kDispatchCreditBytes mod 64 = 0 /\ kDispatchCreditSourceBytes mod 64 = 0 /\ 0 <= kDispatchCreditBytes /\ 0 <= kDispatchCreditSourceBytes) as (M1 & M2 & C1 & C2) by done.
  set (A := kDispatchCreditBytes) in *. set (B := kDispatchCreditSourceBytes) in *. unfold common_parts, common_at. fold A B. clearbody A B. cbn [packed completionFlagsOffset completionFlagsBytes creditOffset creditBytes creditSourceOffset creditSourceBytes signalOffset
    signalBytes hiddenProfileOffset weightProfileOffset d_profileBytes hiddenDfxOffset weightDfxOffset dfxBytes kernelStatusOffset kernelStatusBytes].
  split_and!; try lia; clear Hh; div_lia.
Qed.

(** ** The rows *)

Lemma build_active rows cap rowBytes cur a e : 0 < rows -> 0 < cap -> 0 < rowBytes -> is_u64 cur -> BuildActiveLayout rows cap rowBytes cur = Some (a, e) ->
  packed 64 cur (active_parts a) e /\ cur <= e /\ is_u64 e /\ sourceBytes a = rows * rowBytes /\ scratchSlotBytes a = cap * rowBytes /\
  a_scratchBytes a = 2 * (cap * rowBytes) /\ a_rowBytes a = rowBytes.
Proof.
  intros H1 H2 H3 Hc. unfold BuildActiveLayout. case_if; [b2p; lia|]. intros H.
  destruct (CheckedMul rows rowBytes) as [src|] eqn:E1; [|done]. apply CheckedMul_pos in E1 as [-> B1]; [|lia|lia]. rewrite bind_Some in H.
  destruct (AppendBytes _ cur) as [[o1 c1]|] eqn:E2; [|done]. rewrite bind_Some in H.
  apply AppendRegion_Some in E2 as (-> & -> & U1 & U2); [|unfold is_u64; lia|done|done].
  destruct (CheckedMul cap rowBytes) as [slot|] eqn:E3; [|done]. apply CheckedMul_pos in E3 as [-> B3]; [|lia|lia]. rewrite bind_Some in H.
  destruct (CheckedMul (cap * rowBytes) _) as [scr|] eqn:E4; [|done]. apply CheckedMul_pos in E4 as [-> B4]; [|nia|done]. rewrite bind_Some in H.
  unfold kDispatchScratchBufferCount, kDispatchInternalAlignmentBytes in *.
  destruct (AppendBytes _ (align_to 64 cur + _)) as [[o2 c2]|] eqn:E5; [|done]. rewrite bind_Some in H.
  apply AppendRegion_Some in E5 as (-> & -> & U3 & U4); [|unfold is_u64; lia|done|done]. injection H as <- <-. unfold kDispatchInternalAlignmentBytes in *.
  unfold active_parts. cbn [sourceOffset sourceBytes scratchOffset a_scratchBytes scratchSlotBytes a_rowBytes].
  pose proof (align_to_spec 64 cur ltac:(lia)). pose proof (align_to_spec 64 (align_to 64 cur + rows * rowBytes) ltac:(lia)).
  split; [apply packed_cons; [lia|lia|]; apply packed_cons; [lia|lia|]; cbn [packed]; lia|]. split_and!; try done; lia.
Qed.

(** A layout with its common part at the end of [total] bytes. *)
Record placed (l : MoonEpDispatchUrmaLayout) (total : Z) : Prop := {
  pl_common : d_common l = common_at (total - dispatch_common_bytes);
  pl_total : d_totalBytes l = total /\ total mod kDispatchRegistrationAlignmentBytes = 0 /\ 0 < total <= UINT64_MAX;
  pl_parts : packed 64 0 (active_parts (d_hidden l) ++ active_parts (d_weight l)) (total - dispatch_common_bytes);
  pl_hidden : sourceBytes (d_hidden l) = d_s l * (d_h l * 2) /\ scratchSlotBytes (d_hidden l) = d_destinationCapacity l * (d_h l * 2) /\
    a_scratchBytes (d_hidden l) = 2 * scratchSlotBytes (d_hidden l);
  pl_weight : sourceBytes (d_weight l) = d_s l * d_k l * 4 /\ scratchSlotBytes (d_weight l) = d_destinationCapacity l * 4 /\
    a_scratchBytes (d_weight l) = 2 * scratchSlotBytes (d_weight l)
}.

Lemma build_placed rankSize s k h cap l : TileXRMoonEpBuildDispatchUrmaLayout rankSize s k h cap = Some l ->
  placed l (d_totalBytes l) /\ d_s l = s /\ d_k l = k /\ d_h l = h /\ d_destinationCapacity l = cap.
Proof.
  unfold TileXRMoonEpBuildDispatchUrmaLayout. intros H. case_if_in H; [done|]. b2p.
  destruct (CheckedMul s k) as [rc|] eqn:E1; [|done]. apply CheckedMul_pos in E1 as [-> B1]; [|lia|lia]. rewrite bind_Some in H. case_if_in H; [done|]. b2p.
  destruct (CheckedMul h 2) as [rb|] eqn:E2; [|done]. apply CheckedMul_pos in E2 as [-> B2]; [|lia|lia]. rewrite bind_Some in H. case_if_in H; [done|]. b2p.
  destruct (CheckedMul rankSize cap) as [ec|] eqn:E3; [|done]. rewrite bind_Some in H. case_if_in H; [done|].
  destruct (BuildActiveLayout s cap (h * 2) 0) as [[hid c1]|] eqn:E4; [|done]. rewrite bind_Some in H.
  apply build_active in E4 as (P1 & L1 & U1 & A1 & A2 & A3 & A4); [|lia|lia|lia|done].
  destruct (BuildActiveLayout (s * k) cap 4 c1) as [[wei c2]|] eqn:E5; [|done]. rewrite bind_Some in H.
  apply build_active in E5 as (P2 & L2 & U2 & A5 & A6 & A7 & A8); [|nia|lia|lia|done].
  unfold kDispatchInternalAlignmentBytes in H. cbv zeta in H. rewrite AlignUp_spec in H by (done || (unfold UINT64_MAX; lia)).
  pose proof (align_to_spec 64 c2 ltac:(lia)) as Hal. destruct (Z.leb_spec (c2 + (64 - 1)) UINT64_MAX) as [Hle|Hgt]; [|by rewrite Z.eqb_refl in H].
  set (base := align_to 64 c2) in *. clearbody base. case_if_in H; [done|]. b2p. assert (is_u64 base) as Ub by (unfold is_u64 in *; lia).
  destruct (build_common base) as [[cm e]|] eqn:E6; [|done]. rewrite bind_Some in H. apply build_common_at in E6 as (-> & -> & Ue); [|done|lia].
  assert (0 < dispatch_common_bytes /\ dispatch_common_bytes mod 64 = 0 /\ dispatch_common_bytes <= 1073741824) as (Cp & Cm & Cb) by done.
  unfold kDispatchRegistrationAlignmentBytes in *. change (2 * 1024 * 1024) with 2097152 in *. rewrite AlignUp_spec in H by (done || (unfold UINT64_MAX; lia)).
  destruct (Z.leb_spec (base + dispatch_common_bytes + (2097152 - 1)) UINT64_MAX) as [Hle2|]; [|by rewrite Z.eqb_refl in H].
  pose proof (align_to_spec 2097152 (base + dispatch_common_bytes) ltac:(lia)) as Ht. set (total := align_to 2097152 (base + dispatch_common_bytes)) in *. clearbody total.
  case_if_in H; [done|]. b2p. unfold is_u64, UINT64_MAX in Ub, Ue, Hle2. rewrite (u64_small (base + _ - base)) in H by lia. rewrite Z.add_simpl_l in H.
  rewrite (u64_small (total - _)) in H by lia. rewrite (u64_small (_ - base)) in H by lia.
  rewrite shift_common_at in H by (unfold UINT64_MAX; lia). injection H as <-. cbn [d_totalBytes d_s d_k d_h d_destinationCapacity].
  split; [|done]. constructor; cbn [d_common d_totalBytes d_hidden d_weight d_s d_k d_h d_destinationCapacity].
  - done.
  - unfold kDispatchRegistrationAlignmentBytes, UINT64_MAX. change (2 * 1024 * 1024) with 2097152. lia.
  - eapply packed_app; [exact P1|]. eapply packed_weaken; [| |exact P2]; lia.
  - lia.
  - lia.
Qed.

Lemma placed_parts l total : placed l total -> packed 64 0 (dispatch_parts l) total.
Proof.
  intros [Ec (_ & Hm & _) Hp _ _]. unfold dispatch_parts. rewrite app_assoc, Ec. eapply packed_app; [exact Hp|]. apply common_packed; [|lia].
  assert (dispatch_common_bytes mod 64 = 0) as Cm by done. unfold kDispatchRegistrationAlignmentBytes in Hm. change (2 * 1024 * 1024) with 2097152 in Hm.
  clear - Hm Cm. set (c := dispatch_common_bytes) in *. clearbody c. div_lia.
Qed.

(** C38: the workspace of the dispatch. A layout that is accepted can be bound to every workspace of
    at least its size that is a multiple of the registration alignment; no other size is taken.
    Behind the binding, and before, the rows and the two scratch buffers of both payloads and the
    nine parts of the common part are inside the workspace, aligned and apart from each other. The
    common part ends with the workspace, so that its flags, credits, signals and records are at
    the same place for every shape bound to the same workspace. *)
Theorem dispatch_workspace_shared rankSize s k h cap l w : TileXRMoonEpBuildDispatchUrmaLayout rankSize s k h cap = Some l -> is_u64 w ->
  disjoint_regions 64 0 (dispatch_parts l) (d_totalBytes l) /\
  (is_Some (TileXRMoonEpBindDispatchUrmaWorkspace w l) <-> d_totalBytes l <= w /\ w mod kDispatchRegistrationAlignmentBytes = 0) /\
  (forall l', TileXRMoonEpBindDispatchUrmaWorkspace w l = Some l' ->
   disjoint_regions 64 0 (dispatch_parts l') w /\ d_common l' = common_at (w - dispatch_common_bytes) /\ d_totalBytes l' = w /\
   d_hidden l' = d_hidden l /\ d_weight l' = d_weight l /\
   sourceBytes (d_hidden l') = s * (h * 2) /\ scratchSlotBytes (d_hidden l') = cap * (h * 2) /\ a_scratchBytes (d_hidden l') = 2 * (cap * (h * 2)) /\
   sourceBytes (d_weight l') = s * k * 4 /\ scratchSlotBytes (d_weight l') = cap * 4 /\ a_scratchBytes (d_weight l') = 2 * (cap * 4)).
Proof.
  intros H Hw. apply build_placed in H as (Hl & <- & <- & <- & <-). pose proof Hl as [Ec (_ & Em & Et) Hp Hh Hwt]. split; [by apply packed_disjoint, placed_parts|].
  assert (0 < dispatch_common_bytes <= d_totalBytes l) as Cb. { pose proof (packed_le _ _ _ _ Hp). split; [done|lia]. }
  assert (d_totalBytes l <= w -> w mod kDispatchRegistrationAlignmentBytes = 0 -> exists l', TileXRMoonEpBindDispatchUrmaWorkspace w l = Some l' /\
    placed l' w /\ d_hidden l' = d_hidden l /\ d_weight l' = d_weight l) as Hbind.
  { intros Hle Hm. unfold is_u64, UINT64_MAX in *. unfold TileXRMoonEpBindDispatchUrmaWorkspace. rewrite Hm.
    rewrite (proj2 (Z.eqb_neq w 0)), (proj2 (Z.eqb_neq (d_totalBytes l) 0)), (proj2 (Z.ltb_ge w _)) by lia. cbn [orb negb Z.eqb]. rewrite Ec. cbn [commonOffset common_at].
    rewrite (u64_small (d_totalBytes l - _)) by lia. replace (d_totalBytes l - (d_totalBytes l - dispatch_common_bytes)) with dispatch_common_bytes by lia.
    cbv zeta. rewrite (u64_small (w - _)) by lia. rewrite (proj2 (Z.ltb_ge _ _)) by lia. rewrite (u64_small (w - _ - _)) by lia.
    rewrite shift_common_at by (unfold UINT64_MAX; lia). eexists. split; [done|]. split; [|done].
    constructor; cbn [d_common d_totalBytes d_hidden d_weight d_s d_k d_h d_destinationCapacity]; try done; [unfold UINT64_MAX; lia|].
    eapply packed_weaken; [| |exact Hp]; lia. }
  split.
  - split; [|intros [H1 H2]; destruct (Hbind H1 H2) as (l' & -> & _); done]. intros [l' E]. unfold TileXRMoonEpBindDispatchUrmaWorkspace in E. case_if_in E; [done|]. b2p. done.
  - intros l' E. assert (d_totalBytes l <= w /\ w mod kDispatchRegistrationAlignmentBytes = 0) as [H1 H2].
    { unfold TileXRMoonEpBindDispatchUrmaWorkspace in E. case_if_in E; [done|]. b2p. done. }
    destruct (Hbind H1 H2) as (l2 & E2 & Hpl & E3 & E4). rewrite E2 in E. injection E as ->. split; [by apply packed_disjoint, placed_parts|].
    destruct Hpl as [Ec2 (-> & _) _ _ _]. rewrite E3, E4. split_and!; (done || lia).
Qed.

Lemma dispatch_workspace_shared_witness : exists l l', TileXRMoonEpBuildDispatchUrmaLayout 8 4096 8 7168 65536 = Some l /\
  TileXRMoonEpBindDispatchUrmaWorkspace (2048 * 2097152) l = Some l' /\ disjoint_regions 64 0 (dispatch_parts l') (2048 * 2097152).
Proof.
  destruct (TileXRMoonEpBuildDispatchUrmaLayout 8 4096 8 7168 65536) as [l|] eqn:E; [|vm_compute in E; discriminate E].
  assert (is_u64 (2048 * 2097152)) as Hw by (split; vm_compute; discriminate).
  destruct (dispatch_workspace_shared 8 4096 8 7168 65536 l (2048 * 2097152) E Hw) as (_ & H2 & H3).
  destruct (TileXRMoonEpBindDispatchUrmaWorkspace (2048 * 2097152) l) as [l'|] eqn:E2.
  - exists l, l'. split; [reflexivity|]. split; [exact E2|]. apply (H3 l' eq_refl).
  - exfalso. destruct (proj2 H2) as [x Hx]; [|discriminate Hx]. vm_compute in E. injection E as <-. split; [vm_compute; discriminate|reflexivity].
Defined.
