(* ===== verification/StageCombineV2.v ===== *)
(** The registered workspace of the combine and the peer window of its weights (src/src/moonep/
    combine_v2/host/combine_v2_layout.cpp), with the slots that the kernels compute for the words
    in it (CombineWire). A function that returns an error code and fills a layout is an option. *)
From S2P Require Import Prelude CombineSchedule CombineWire DispatchSchedule Layouts StageCombine.

Definition kCombineV2ScratchAlignmentBytes : Z := 64.
Definition kCombineV2RegistrationAlignmentBytes : Z := 2 * 1024 * 1024.
Definition sizeof_MoonEpCombineV2ProfileRecord : Z := 448.
Definition kMoonEpCombineV2WeightRecordBytes : Z := 16.
Definition kMoonEpCombineV2WeightDoneStrideBytes : Z := 64.

Definition CheckedAlign (value alignment : Z) : option Z :=
  if (alignment =? 0) || ((UINT64_MAX - (alignment - 1))%u64 <? value) then None
  else Some ((value + alignment - 1) / alignment * alignment)%u64.

Record CombineV2Layout := {
  v2_slots : Z; v2_rowBytes : Z; v2_expertBytes : Z; v2_profileOffset : Z; v2_profileBytes : Z; v2_scratchOffset : Z -> Z; v2_scratchBytes : Z;
  v2_doneOffset : Z; v2_doneBytes : Z; v2_controlSourceOffset : Z; v2_controlSourceBytes : Z; v2_failureOffset : Z; v2_failureBytes : Z;
  v2_collectiveStatusOffset : Z; v2_collectiveStatusBytes : Z; v2_outputOffset : Z; v2_outputBytes : Z; v2_totalBytes : Z
}.

Record CombineV2WeightLayout := {
  wl_recordOffset : Z; wl_recordEpochBytes : Z; wl_recordBytes : Z; wl_doneOffset : Z; wl_doneEpochBytes : Z; wl_doneBytes : Z; wl_totalBytes : Z
}.

Definition TileXRMoonEpBuildCombineV2Layout (bs h topK nvS dtype : Z) : option CombineV2Layout :=
  if negb (MoonEpCombineV2ShapeValid bs h topK nvS) ||
     (negb (dtype =? TILEXR_MOONEP_DTYPE_BFLOAT16) && negb (dtype =? TILEXR_MOONEP_DTYPE_FLOAT32)) ||
     ((dtype =? TILEXR_MOONEP_DTYPE_FLOAT32) && negb (h =? 1)) then None
  else
    let slots := nvS in
    let elementBytes := if dtype =? TILEXR_MOONEP_DTYPE_BFLOAT16 then 2 else 4 in
    rowBytes ← CheckedMul h elementBytes;
    expertBytes ← CheckedMul slots rowBytes;
    profileOffset ← CheckedAlign expertBytes kCombineV2ScratchAlignmentBytes;
    profileBytes ← CheckedMul kMoonEpCombineV2CoreCount sizeof_MoonEpCombineV2ProfileRecord;
    profileBytes ← CheckedAlign profileBytes kCombineV2ScratchAlignmentBytes;
    scratch0Offset ← CheckedAdd profileOffset profileBytes;
    scratch1Offset ← CheckedAdd scratch0Offset expertBytes;
    requiredBytes ← CheckedAdd scratch1Offset expertBytes;
    doneOffset ← CheckedAlign requiredBytes kMoonEpCombineV2TokenStrideBytes;
    doneBytes ← CheckedMul (kMoonEpCombineV2EpochCount * kMoonEpCombineV2RankCount * kMoonEpCombineV2LaneCount)%u64 kMoonEpCombineV2TokenStrideBytes;
    controlSourceOffset ← CheckedAdd doneOffset doneBytes;
    controlSourceBytes ← CheckedMul (kMoonEpCombineV2CoreCount * kMoonEpCombineV2LaneCount)%u64 kMoonEpCombineV2TokenStrideBytes;
    failureOffset ← CheckedAdd controlSourceOffset controlSourceBytes;
    failureBytes ← CheckedMul (kMoonEpCombineV2EpochCount * kMoonEpCombineV2CoreCount)%u64 kMoonEpCombineV2TokenStrideBytes;
    collectiveStatusOffset ← CheckedAdd failureOffset failureBytes;
    collectiveStatusBytes ← CheckedMul (kMoonEpCombineV2EpochCount * kMoonEpCombineV2CollectiveStatusSlotCount)%u64 kMoonEpCombineV2CollectiveStatusSlotBytes;
    requiredBytes ← CheckedAdd collectiveStatusOffset collectiveStatusBytes;
    outputOffset ← CheckedAlign requiredBytes kCombineV2ScratchAlignmentBytes;
    outputBytes ← CheckedMul bs rowBytes;
    requiredBytes ← CheckedAdd outputOffset outputBytes;
    totalBytes ← CheckedAlign requiredBytes kCombineV2RegistrationAlignmentBytes;
    if (UINT32_MAX <? totalBytes) || (UINT64_MAX <? totalBytes) then None
    else Some {| v2_slots := slots; v2_rowBytes := rowBytes; v2_expertBytes := expertBytes; v2_profileOffset := profileOffset; v2_profileBytes := profileBytes;
                 v2_scratchOffset := fun epoch => if epoch =? 0 then scratch0Offset else scratch1Offset; v2_scratchBytes := expertBytes;
                 v2_doneOffset := doneOffset; v2_doneBytes := doneBytes; v2_controlSourceOffset := controlSourceOffset;
                 v2_controlSourceBytes := controlSourceBytes; v2_failureOffset := failureOffset; v2_failureBytes := failureBytes;
                 v2_collectiveStatusOffset := collectiveStatusOffset; v2_collectiveStatusBytes := collectiveStatusBytes;
                 v2_outputOffset := outputOffset; v2_outputBytes := outputBytes; v2_totalBytes := totalBytes |}.

Definition TileXRMoonEpBuildCombineV2WeightLayout (nvS rankSize : Z) : option CombineV2WeightLayout :=
  if (nvS <=? 0) || (rankSize <=? 0) || (TILEXR_MAX_RANK_SIZE <? rankSize) then None
  else
    recordPayloadBytes ← CheckedMul nvS kMoonEpCombineV2WeightRecordBytes;
    recordEpochBytes ← CheckedAlign recordPayloadBytes kCombineV2ScratchAlignmentBytes;
    recordBytes ← CheckedMul recordEpochBytes kMoonEpCombineV2EpochCount;
    doneEpochBytes ← CheckedMul rankSize kMoonEpCombineV2WeightDoneStrideBytes;
    doneBytes ← CheckedMul doneEpochBytes kMoonEpCombineV2EpochCount;
    requiredBytes ← CheckedAdd recordBytes doneBytes;
    totalBytes ← CheckedAlign requiredBytes kCombineV2ScratchAlignmentBytes;
    if IPC_BUFF_MAX_SIZE <? totalBytes then None
    else Some {| wl_recordOffset := 0; wl_recordEpochBytes := recordEpochBytes; wl_recordBytes := recordBytes; wl_doneOffset := recordBytes;
                 wl_doneEpochBytes := doneEpochBytes; wl_doneBytes := doneBytes; wl_totalBytes := totalBytes |}.

(** ** The checked steps *)

Lemma CheckedAlign_spec v a : is_u64 v -> 0 < a <= UINT64_MAX ->
  CheckedAlign v a = if v + (a - 1) <=? UINT64_MAX then Some (align_to a v) else None.
Proof.
  intros Hv Ha. pose proof (AlignUp_spec v a Hv Ha) as Hup. unfold CheckedAlign, AlignUp in *. unfold is_u64, UINT64_MAX in *.
  rewrite (proj2 (Z.eqb_neq a 0)) in * by lia. cbn [orb] in *. rewrite (u64_small (a - 1)), (u64_small (18446744073709551615 - (a - 1))) in * by lia.
  destruct (Z.ltb_spec (18446744073709551615 - (a - 1)) v), (Z.leb_spec (v + (a - 1)) 18446744073709551615); try lia; [done|]. by rewrite <- Hup.
Qed.

(** ** The workspace in closed form *)

Section workspace.
Context (bs nvS row : Z).
Let expert := nvS * row.
Let profile := align_to 64 expert.
Let scratch := profile + 7168.
Let done := align_to 64 (scratch + expert + expert).
Let control := done + 32768.
Let failure := control + 2048.
Let collective := failure + 2048.
Let output := collective + 2048.

Definition combine_v2_end : Z := align_to kCombineV2RegistrationAlignmentBytes (output + bs * row).

Definition combine_v2_at : CombineV2Layout :=
  {| v2_slots := nvS; v2_rowBytes := row; v2_expertBytes := expert; v2_profileOffset := profile; v2_profileBytes := 7168;
     v2_scratchOffset := fun epoch => if epoch =? 0 then scratch else scratch + expert; v2_scratchBytes := expert;
     v2_doneOffset := done; v2_doneBytes := 32768; v2_controlSourceOffset := control; v2_controlSourceBytes := 2048; v2_failureOffset := failure;
     v2_failureBytes := 2048; v2_collectiveStatusOffset := collective; v2_collectiveStatusBytes := 2048; v2_outputOffset := output;
     v2_outputBytes := bs * row; v2_totalBytes := combine_v2_end |}.

Lemma combine_v2_steps : 0 < bs -> 0 < nvS -> 0 < row ->
  0 < expert /\ expert <= profile < expert + 64 /\ scratch + expert + expert <= done < scratch + expert + expert + 64 /\ done mod 64 = 0 /\ profile mod 64 = 0 /\
  0 < bs * row /\ output + bs * row <= combine_v2_end < output + bs * row + 2097152 /\ combine_v2_end mod 2097152 = 0.
Proof using Type.
  intros Hb Hn Hr. assert (0 < expert) by (apply Z.mul_pos_pos; lia). pose proof (align_to_spec 64 expert ltac:(lia)). pose proof (align_to_spec 64 (scratch + expert + expert) ltac:(lia)).
  pose proof (align_to_spec kCombineV2RegistrationAlignmentBytes (output + bs * row) ltac:(done)) as H2. change kCombineV2RegistrationAlignmentBytes with 2097152 in H2.
  assert (0 < bs * row) by (apply Z.mul_pos_pos; lia). unfold combine_v2_end, done, profile. change kCombineV2RegistrationAlignmentBytes with 2097152. lia.
Qed.
End workspace.

(** The checks pass one after the other, or stop. *)
Ltac checked_step :=
  lazymatch goal with
  | |- CheckedMul ?a ?b ≫= _ = _ => rewrite (CheckedMul_spec a b) by (unfold is_u64, UINT64_MAX in *; lia); destruct (Z.leb_spec (a * b) UINT64_MAX)
  | |- CheckedAdd ?a ?b ≫= _ = _ => rewrite (CheckedAdd_spec a b) by (unfold is_u64, UINT64_MAX in *; lia); destruct (Z.leb_spec (a + b) UINT64_MAX)
  | |- CheckedAlign ?a ?b ≫= _ = _ => rewrite (CheckedAlign_spec a b) by (unfold is_u64, UINT64_MAX in *; lia); destruct (Z.leb_spec (a + (b - 1)) UINT64_MAX)
  end; cbn [mbind option_bind].

(** A check of constants. *)
Ltac constant_step :=
  lazymatch goal with |- ?o ≫= _ = _ => let v := eval vm_compute in o in change o with v end; cbn [mbind option_bind].

Lemma combine_v2_spec bs h topK nvS ty : is_u64 h ->
  TileXRMoonEpBuildCombineV2Layout bs h topK nvS ty =
  if MoonEpCombineV2ShapeValid bs h topK nvS && ((ty =? TILEXR_MOONEP_DTYPE_BFLOAT16) || ((ty =? TILEXR_MOONEP_DTYPE_FLOAT32) && (h =? 1))) &&
     (combine_v2_end bs nvS (h * if ty =? TILEXR_MOONEP_DTYPE_BFLOAT16 then 2 else 4) <=? UINT32_MAX)
  then Some (combine_v2_at bs nvS (h * if ty =? TILEXR_MOONEP_DTYPE_BFLOAT16 then 2 else 4)) else None.
Proof.
  intros Hh. unfold TileXRMoonEpBuildCombineV2Layout. cbv zeta. destruct (MoonEpCombineV2ShapeValid bs h topK nvS) eqn:Hs; [|done]. cbn [negb orb andb].
  assert ((negb (ty =? TILEXR_MOONEP_DTYPE_BFLOAT16) && negb (ty =? TILEXR_MOONEP_DTYPE_FLOAT32)) || ((ty =? TILEXR_MOONEP_DTYPE_FLOAT32) && negb (h =? 1)) =
    negb ((ty =? TILEXR_MOONEP_DTYPE_BFLOAT16) || ((ty =? TILEXR_MOONEP_DTYPE_FLOAT32) && (h =? 1)))) as ->.
  { destruct (Z.eqb_spec ty TILEXR_MOONEP_DTYPE_BFLOAT16) as [-> |]; [done|]. by destruct (ty =? TILEXR_MOONEP_DTYPE_FLOAT32), (h =? 1). }
  destruct (_ || _); [|done]. cbn [negb andb]. set (eb := if ty =? TILEXR_MOONEP_DTYPE_BFLOAT16 then 2 else 4).
  assert (2 <= eb <= 4) as Heb by (unfold eb; case_if; lia). clearbody eb.
  unfold MoonEpCombineV2ShapeValid in Hs. b2p. unfold INT32_MAX, is_u64 in *.
  assert (bs <= nvS) as Hbn. { pose proof (Z.quot_div_nonneg nvS topK ltac:(lia) ltac:(lia)). pose proof (Z.div_le_upper_bound nvS topK nvS ltac:(lia) ltac:(nia)). lia. }
  assert (0 < h * eb) as Hrow by (apply Z.mul_pos_pos; lia).
  destruct (combine_v2_steps bs nvS (h * eb)) as (S1 & S2 & S3 & S4 & S5 & S6 & S7 & S8); [lia|lia|done|].
  assert (h * eb <= nvS * (h * eb) /\ bs * (h * eb) <= nvS * (h * eb)) as Hge by nia. set (row := h * eb) in *.
  set (total := combine_v2_end bs nvS row) in *. assert (forall o : option CombineV2Layout, UINT32_MAX < total -> None = if total <=? UINT32_MAX then o else None) as Hno.
  { intros o Ht. by rewrite (proj2 (Z.leb_gt _ _)) by done. }
  assert (UINT32_MAX = 4294967295 /\ UINT64_MAX = 18446744073709551615) as [E32 E64] by done.
  change kCombineV2ScratchAlignmentBytes with 64. change kMoonEpCombineV2TokenStrideBytes with 64. change kCombineV2RegistrationAlignmentBytes with 2097152.
  checked_step; [|apply Hno; lia]. fold row. checked_step; [|apply Hno; lia]. checked_step; [|apply Hno; lia]. do 2 constant_step.
  do 3 (checked_step; [|apply Hno; lia]). checked_step; [|apply Hno; lia]. constant_step. checked_step; [|apply Hno; lia]. constant_step. checked_step; [|apply Hno; lia].
  constant_step. checked_step; [|apply Hno; lia]. constant_step. checked_step; [|apply Hno; lia].
  checked_step; [|apply Hno; lia]. rewrite (align_to_fix 64 (_ + 2048)) by (lia || div_lia). checked_step; [|apply Hno; lia]. checked_step; [|apply Hno; lia].
  checked_step; [|apply Hno; lia].
  change (align_to 2097152 (align_to 64 (align_to 64 (nvS * row) + 7168 + nvS * row + nvS * row) + 32768 + 2048 + 2048 + 2048 + bs * row)) with total.
  rewrite E64. destruct (Z.leb_spec total UINT32_MAX); [|by rewrite (proj2 (Z.ltb_lt _ _))]. rewrite (proj2 (Z.ltb_ge UINT32_MAX _)), (proj2 (Z.ltb_ge 18446744073709551615 _)) by lia. done.
Qed.

(** ** The slots *)

(** The parts of the workspace; the kernels may start the second scratch buffer at any byte. *)
Definition combine_v2_parts (l : CombineV2Layout) : list (Z * Z) :=
  [(0, v2_expertBytes l); (v2_profileOffset l, v2_profileBytes l); (v2_scratchOffset l 0, v2_scratchBytes l); (v2_scratchOffset l 1, v2_scratchBytes l);
   (v2_doneOffset l, v2_doneBytes l); (v2_controlSourceOffset l, v2_controlSourceBytes l); (v2_failureOffset l, v2_failureBytes l);
   (v2_collectiveStatusOffset l, v2_collectiveStatusBytes l); (v2_outputOffset l, v2_outputBytes l)].

Lemma combine_v2_packed bs nvS row : 0 < bs -> 0 < nvS -> 0 < row -> packed 1 0 (combine_v2_parts (combine_v2_at bs nvS row)) (combine_v2_end bs nvS row).
Proof.
  intros Hb Hn Hr. destruct (combine_v2_steps bs nvS row Hb Hn Hr) as (S1 & S2 & S3 & _ & _ & S6 & S7 & _). cbv zeta in *.
  unfold combine_v2_parts, combine_v2_at. cbn -[Z.mul Z.add align_to combine_v2_end Z.modulo]. rewrite !Z.mod_1_r. split_and!; lia.
Qed.

(** The window of the weights, in closed form. *)
Definition weights_at (nvS rankSize : Z) : CombineV2WeightLayout :=
  let epoch := align_to 64 (nvS * 16) in
  {| wl_recordOffset := 0; wl_recordEpochBytes := epoch; wl_recordBytes := epoch * 2; wl_doneOffset := epoch * 2; wl_doneEpochBytes := rankSize * 64;
     wl_doneBytes := rankSize * 64 * 2; wl_totalBytes := epoch * 2 + rankSize * 64 * 2 |}.

Lemma weights_spec nvS rankSize : is_u64 nvS ->
  TileXRMoonEpBuildCombineV2WeightLayout nvS rankSize =
  if (0 <? nvS) && (0 <? rankSize) && (rankSize <=? TILEXR_MAX_RANK_SIZE) && (wl_totalBytes (weights_at nvS rankSize) <=? IPC_BUFF_MAX_SIZE) then Some (weights_at nvS rankSize) else None.
Proof.
  intros Hn. unfold TileXRMoonEpBuildCombineV2WeightLayout. unfold TILEXR_MAX_RANK_SIZE in *. 
  destruct (Z.leb_spec nvS 0); [by rewrite (proj2 (Z.ltb_ge 0 nvS))|]. rewrite (proj2 (Z.ltb_lt 0 nvS)) by done.
  destruct (Z.leb_spec rankSize 0); [by rewrite (proj2 (Z.ltb_ge 0 rankSize))|]. rewrite (proj2 (Z.ltb_lt 0 rankSize)) by done.
  destruct (Z.ltb_spec 128 rankSize); [by rewrite (proj2 (Z.leb_gt rankSize 128))|]. rewrite (proj2 (Z.leb_le rankSize 128)) by done. cbn [orb andb].
  set (total := wl_totalBytes (weights_at nvS rankSize)). pose proof (align_to_spec 64 (nvS * 16) ltac:(lia)) as Ha.
  assert (total = align_to 64 (nvS * 16) * 2 + rankSize * 64 * 2) as Et by done.
  assert (IPC_BUFF_MAX_SIZE < total -> None = if total <=? IPC_BUFF_MAX_SIZE then Some (weights_at nvS rankSize) else None) as Hno by (intros Ht; by rewrite (proj2 (Z.leb_gt _ _))).
  assert (IPC_BUFF_MAX_SIZE <= 4294967296) as Hipc by done.
  assert (UINT64_MAX = 18446744073709551615) as E64 by done. unfold is_u64 in Hn.
  change kMoonEpCombineV2WeightRecordBytes with 16. change kCombineV2ScratchAlignmentBytes with 64. change kMoonEpCombineV2EpochCount with 2. change kMoonEpCombineV2WeightDoneStrideBytes with 64.
  checked_step; [|apply Hno; lia]. checked_step; [|apply Hno; lia]. checked_step; [|apply Hno; lia]. checked_step; [|apply Hno; lia]. checked_step; [|apply Hno; lia].
  checked_step; [|apply Hno; lia]. checked_step; [|apply Hno; lia].
  rewrite (align_to_fix 64 (_ + _)) by (lia || div_lia). rewrite <- Et. destruct (Z.ltb_spec IPC_BUFF_MAX_SIZE total); [by rewrite (proj2 (Z.leb_gt _ _))|]. rewrite (proj2 (Z.leb_le _ _)) by done. by rewrite Et.
Qed.

(** A slot of [stride] bytes inside a part of [bytes] bytes. *)
Definition slot_in (index stride bytes : Z) : Prop := 0 <= index /\ index * stride + stride <= bytes.

Lemma done_slot epoch rank lane : 0 <= epoch < kMoonEpCombineV2EpochCount -> 0 <= rank < kMoonEpCombineV2RankCount -> 0 <= lane < kMoonEpCombineV2LaneCount ->
  MoonEpCombineV2DoneIndex epoch rank lane = (epoch * 128 + rank) * 2 + lane.
Proof.
  unfold kMoonEpCombineV2EpochCount, kMoonEpCombineV2RankCount, kMoonEpCombineV2LaneCount, MoonEpCombineV2DoneIndex. intros He Hr Hl.
  change kMoonEpCombineV2RankCount with 128. change kMoonEpCombineV2LaneCount with 2. rewrite (u64_small (epoch * 128)), (u64_small (_ + rank)), (u64_small (_ * 2)), u64_small by lia. done.
Qed.

Lemma failure_slot epoch core : 0 <= epoch < kMoonEpCombineV2EpochCount -> 0 <= core < kMoonEpCombineV2CoreCount -> MoonEpCombineV2FailureIndex epoch core = epoch * 16 + core.
Proof.
  unfold kMoonEpCombineV2EpochCount, kMoonEpCombineV2CoreCount, MoonEpCombineV2FailureIndex. intros He Hc. change kMoonEpCombineV2CoreCount with 16. rewrite (u64_small (epoch * 16)), u64_small by lia. done.
Qed.

Lemma status_slot epoch stage : 0 <= epoch < kMoonEpCombineV2EpochCount -> 0 <= stage -> MoonEpCombineV2CollectiveStatusIndex epoch stage = epoch * 16 + stage mod 16.
Proof.
  unfold kMoonEpCombineV2EpochCount, MoonEpCombineV2CollectiveStatusIndex. intros He Hc. change kMoonEpCombineV2CollectiveStatusSlotCount with 16.
  pose proof (Z.mod_pos_bound stage 16 ltac:(lia)). rewrite (u64_small (epoch * 16)), u64_small by lia. done.
Qed.

(** C39: the registered workspace of the combine and the window of its weights. A workspace is laid out
    exactly when the shape and the type are valid and its size, in exact arithmetic, fits in 32
    bits: no other check refuses it and no product wraps. Its nine parts do not overlap and end
    inside a whole number of registration units; all but the second scratch buffer start at a
    multiple of 64 bytes. Every completion, failure and status slot that the kernels compute for an epoch lies in
    its part, and different completion slots are different words. The window of the weights is laid out exactly when it
    fits into the peer window, with the records and the completion words of the two epochs apart
    and room for a record per slot and a word per rank. *)
Theorem combine_v2_workspace bs h topK nvS ty rankSize : is_u64 h -> is_u64 nvS ->
  (forall l, TileXRMoonEpBuildCombineV2Layout bs h topK nvS ty = Some l <->
     MoonEpCombineV2ShapeValid bs h topK nvS = true /\ (ty = TILEXR_MOONEP_DTYPE_BFLOAT16 \/ ty = TILEXR_MOONEP_DTYPE_FLOAT32 /\ h = 1) /\
     l = combine_v2_at bs nvS (h * if ty =? TILEXR_MOONEP_DTYPE_BFLOAT16 then 2 else 4) /\ v2_totalBytes l <= UINT32_MAX) /\
  (forall l, TileXRMoonEpBuildCombineV2Layout bs h topK nvS ty = Some l ->
     disjoint_regions 1 0 (combine_v2_parts l) (v2_totalBytes l) /\ v2_totalBytes l mod kCombineV2RegistrationAlignmentBytes = 0 /\
     (forall i p, combine_v2_parts l !! i = Some p -> i <> 3%nat -> fst p mod kCombineV2ScratchAlignmentBytes = 0) /\
     v2_scratchBytes l = nvS * v2_rowBytes l /\ v2_outputBytes l = bs * v2_rowBytes l /\
     (forall epoch rank lane, 0 <= epoch < kMoonEpCombineV2EpochCount -> 0 <= rank < kMoonEpCombineV2RankCount -> 0 <= lane < kMoonEpCombineV2LaneCount ->
        slot_in (MoonEpCombineV2DoneIndex epoch rank lane) kMoonEpCombineV2TokenStrideBytes (v2_doneBytes l) /\
        forall epoch' rank' lane', 0 <= epoch' < kMoonEpCombineV2EpochCount -> 0 <= rank' < kMoonEpCombineV2RankCount -> 0 <= lane' < kMoonEpCombineV2LaneCount ->
          MoonEpCombineV2DoneIndex epoch rank lane = MoonEpCombineV2DoneIndex epoch' rank' lane' -> epoch = epoch' /\ rank = rank' /\ lane = lane') /\
     (forall epoch core, 0 <= epoch < kMoonEpCombineV2EpochCount -> 0 <= core < kMoonEpCombineV2CoreCount ->
        slot_in (MoonEpCombineV2FailureIndex epoch core) kMoonEpCombineV2TokenStrideBytes (v2_failureBytes l)) /\
     (forall epoch stage, 0 <= epoch < kMoonEpCombineV2EpochCount -> 0 <= stage ->
        slot_in (MoonEpCombineV2CollectiveStatusIndex epoch stage) kMoonEpCombineV2CollectiveStatusSlotBytes (v2_collectiveStatusBytes l))) /\
  (forall l, TileXRMoonEpBuildCombineV2WeightLayout nvS rankSize = Some l ->
     wl_totalBytes l <= IPC_BUFF_MAX_SIZE /\
     disjoint_regions 64 0 [(wl_recordOffset l, wl_recordEpochBytes l); (wl_recordOffset l + wl_recordEpochBytes l, wl_recordEpochBytes l);
       (wl_doneOffset l, wl_doneEpochBytes l); (wl_doneOffset l + wl_doneEpochBytes l, wl_doneEpochBytes l)] (wl_totalBytes l) /\
     (forall slot, 0 <= slot < nvS -> slot_in slot kMoonEpCombineV2WeightRecordBytes (wl_recordEpochBytes l)) /\
     (forall rank, 0 <= rank < rankSize -> slot_in rank kMoonEpCombineV2WeightDoneStrideBytes (wl_doneEpochBytes l))) /\
  (is_Some (TileXRMoonEpBuildCombineV2WeightLayout nvS rankSize) <->
     0 < nvS /\ 0 < rankSize <= TILEXR_MAX_RANK_SIZE /\ 2 * align_to 64 (nvS * kMoonEpCombineV2WeightRecordBytes) + 2 * (rankSize * 64) <= IPC_BUFF_MAX_SIZE).
Proof.
  intros Hh Hn. set (row := h * if ty =? TILEXR_MOONEP_DTYPE_BFLOAT16 then 2 else 4).
  assert (forall l, TileXRMoonEpBuildCombineV2Layout bs h topK nvS ty = Some l <-> MoonEpCombineV2ShapeValid bs h topK nvS = true /\
    (ty = TILEXR_MOONEP_DTYPE_BFLOAT16 \/ ty = TILEXR_MOONEP_DTYPE_FLOAT32 /\ h = 1) /\ l = combine_v2_at bs nvS row /\ v2_totalBytes l <= UINT32_MAX) as Hspec.
  { intros l. rewrite combine_v2_spec by done. fold row. rewrite <- (Z.eqb_eq ty TILEXR_MOONEP_DTYPE_BFLOAT16), <- (Z.eqb_eq ty TILEXR_MOONEP_DTYPE_FLOAT32), <- (Z.eqb_eq h 1).
    rewrite <- andb_true_iff, <- orb_true_iff. split.
    - case_if; [|done]. intros [= <-]. apply andb_true_iff in E as [[E1 E2]%andb_true_iff E3%Z.leb_le]. done.
    - intros (E1 & E2 & -> & E3). rewrite E1, E2, (proj2 (Z.leb_le _ _)) by done. done. }
  split; [done|]. split; [|split].
  - intros l (Hv & _ & -> & _)%Hspec. unfold MoonEpCombineV2ShapeValid in Hv. b2p. assert (0 < row) as Hr by (unfold row; case_if; lia).
    destruct (combine_v2_steps bs nvS row) as (S1 & S2 & S3 & S4 & S5 & S6 & S7 & S8); try done. cbv zeta in *.
    split; [by apply packed_disjoint, combine_v2_packed|]. split; [done|]. split.
    { intros i p Hp Hi. unfold kCombineV2ScratchAlignmentBytes. do 9 (destruct i as [|i]; [injection Hp as <-; cbn -[Z.mul Z.add align_to Z.modulo]; first [done|div_lia]|]). done. }
    split; [done|]. split; [done|]. unfold slot_in.
    split; [|split].
    + intros e r ln He Hrk Hln. rewrite (done_slot e r ln) by done. unfold kMoonEpCombineV2EpochCount, kMoonEpCombineV2RankCount, kMoonEpCombineV2LaneCount in *.
      split; [cbn -[Z.mul Z.add]; unfold kMoonEpCombineV2TokenStrideBytes; lia|]. intros e' r' ln' He' Hr' Hl' E. rewrite done_slot in E by done. lia.
    + intros e c He Hc. rewrite failure_slot by done. unfold kMoonEpCombineV2EpochCount, kMoonEpCombineV2CoreCount in *. cbn -[Z.mul Z.add]. unfold kMoonEpCombineV2TokenStrideBytes. lia.
    + intros e c He Hc. rewrite status_slot by done. unfold kMoonEpCombineV2EpochCount in *. pose proof (Z.mod_pos_bound c 16 ltac:(lia)). cbn -[Z.mul Z.add Z.modulo]. unfold kMoonEpCombineV2CollectiveStatusSlotBytes. lia.
  - intros l. rewrite weights_spec by done. case_if; [|done]. intros [= <-]. apply andb_true_iff in E as [[[E1%Z.ltb_lt E2%Z.ltb_lt]%andb_true_iff E3%Z.leb_le]%andb_true_iff E4%Z.leb_le].
    split; [done|]. pose proof (align_to_spec 64 (nvS * 16) ltac:(lia)) as Ha. unfold slot_in, kMoonEpCombineV2WeightRecordBytes, kMoonEpCombineV2WeightDoneStrideBytes.
    unfold weights_at. cbn -[Z.mul Z.add align_to]. split; [|split; lia]. apply packed_disjoint. cbn -[Z.mul Z.add align_to Z.modulo]. split_and!; first [lia|div_lia].
  - rewrite weights_spec by done. unfold weights_at, kMoonEpCombineV2WeightRecordBytes. cbn -[Z.mul Z.add align_to IPC_BUFF_MAX_SIZE]. split.
    + case_if; [|by intros [? [=]]]. b2p. intros _. lia.
    + intros (H1 & H2 & H3). rewrite (proj2 (Z.ltb_lt 0 nvS)), (proj2 (Z.ltb_lt 0 rankSize)), (proj2 (Z.leb_le rankSize _)), (proj2 (Z.leb_le _ IPC_BUFF_MAX_SIZE)) by lia. by eexists.
Qed.

Lemma combine_v2_workspace_witness : exists l w, TileXRMoonEpBuildCombineV2Layout 4096 7168 8 32768 TILEXR_MOONEP_DTYPE_BFLOAT16 = Some l /\
  TileXRMoonEpBuildCombineV2WeightLayout 32768 128 = Some w /\ disjoint_regions 1 0 (combine_v2_parts l) (v2_totalBytes l) /\ wl_totalBytes w <= IPC_BUFF_MAX_SIZE.
Proof.
  assert (is_u64 7168 /\ is_u64 32768) as [H1 H2] by (split; split; vm_compute; discriminate).
  destruct (combine_v2_workspace 4096 7168 8 32768 TILEXR_MOONEP_DTYPE_BFLOAT16 128 H1 H2) as (_ & Hl & Hw & _).
  destruct (TileXRMoonEpBuildCombineV2Layout 4096 7168 8 32768 TILEXR_MOONEP_DTYPE_BFLOAT16) as [l|] eqn:E; [|vm_compute in E; discriminate E].
  destruct (TileXRMoonEpBuildCombineV2WeightLayout 32768 128) as [w|] eqn:Ew; [|vm_compute in Ew; discriminate Ew].
  exists l, w. split; [reflexivity|]. split; [reflexivity|]. split; [exact (proj1 (Hl l eq_refl))|exact (proj1 (Hw w eq_refl))].
Defined.
