(* ===== verification/StageWindow.v ===== *)
(** The peer window of the dispatch through peer memory (src/src/moonep/dispatch/host/
    dispatch_layout.cpp): the checks of the tensors and the four regions, with the largest chunk of
    a row that fits. A function that returns an error code and fills a layout is an option. *)
From S2P Require Import Prelude CombineWire Layouts StageCombine.

Definition HiddenValid (input output : option TileXRMoonEpTensorV1) (s nvS : Z) : option Z :=
  match input, output with
  | Some i, Some o =>
      if TensorHeaderValid input && TensorHeaderValid output && (dtype i =? TILEXR_MOONEP_DTYPE_BFLOAT16) &&
         (dtype o =? TILEXR_MOONEP_DTYPE_BFLOAT16) && (t_rank i =? 2) && (t_rank o =? 2) && (shape i 0 =? s) &&
         (0 <? shape i 1) && (shape o 0 =? nvS) && (shape o 1 =? shape i 1)
      then CheckedMul (shape i 1) 2
      else None
  | _, _ => None
  end.

Definition WeightsValid (input output : option TileXRMoonEpTensorV1) (s k nvS : Z) : bool :=
  match input, output with
  | None, None => true
  | Some i, Some o =>
      TensorHeaderValid input && TensorHeaderValid output && (dtype i =? TILEXR_MOONEP_DTYPE_FLOAT32) &&
      (dtype o =? TILEXR_MOONEP_DTYPE_FLOAT32) && (t_rank i =? 2) && (shape i 0 =? s) && (shape i 1 =? k) && (t_rank o =? 1) && (shape o 0 =? nvS)
  | _, _ => false
  end.

Record DispatchLayout := {
  w_rank : Z; w_world : Z; w_s : Z; w_k : Z; w_n : Z; w_nvS : Z; w_hiddenSize : Z; w_blockDim : Z; w_chunkCount : Z; w_flags : Z; w_hiddenRowBytes : Z;
  w_hiddenChunkBytes : Z; w_hiddenChunkStride : Z; w_hiddenPayloadBytes : Z; w_routeWeightsOffset : Z; w_routeWeightsBytes : Z; dedupParentsOffset : Z;
  dedupParentsBytes : Z; dedupGroupMapOffset : Z; dedupGroupMapBytes : Z; w_windowBytes : Z
}.

Definition TileXRMoonEpAlignDispatchBytes (value : Z) : Z := AlignUp value kMoonEpStageAlignment.

Definition TileXRMoonEpBuildDispatchLayout (commRank commWorld : Z) (plan : option TileXRMoonEpPlanV1)
    (hiddenSh routeWeightsSk hiddenNvsh routeWeightsNvs : option TileXRMoonEpTensorV1) (flags : Z) : option DispatchLayout :=
  let allowedFlags := Z.lor TILEXR_MOONEP_FLAG_BUILD_DEDUP TILEXR_MOONEP_FLAG_SKIP_INTER_RANK_SYNC in
  if negb (Z.ldiff flags allowedFlags =? 0) then None
  else
    s ← PlanValid commRank commWorld plan;
    p ← plan;
    rowBytes ← HiddenValid hiddenSh hiddenNvsh s (p_nvS p);
    if negb (WeightsValid routeWeightsSk routeWeightsNvs s (p_k p) (p_nvS p)) then None
    else
      let nvS := p_nvS p in
      weightsBytes ← match routeWeightsSk with Some _ => CheckedMul nvS 4 | None => Some 0 end;
      dedupBytes ← if negb (Z.land flags TILEXR_MOONEP_FLAG_BUILD_DEDUP =? 0) then CheckedMul nvS 4 else Some 0;
      fixedBytes ← CheckedAdd weightsBytes dedupBytes;
      fixedBytes ← CheckedAdd fixedBytes dedupBytes;
      if IPC_BUFF_MAX_SIZE - 3 * (kMoonEpStageAlignment - 1) <? fixedBytes then None
      else
        let available := (IPC_BUFF_MAX_SIZE - fixedBytes - 3 * (kMoonEpStageAlignment - 1))%u64 in
        let maxStride := (available / nvS / kMoonEpStageAlignment * kMoonEpStageAlignment)%u64 in
        if maxStride =? 0 then None
        else
          let chunkBytes := if rowBytes <? maxStride then rowBytes else maxStride in
          let chunkStride := AlignUp chunkBytes kMoonEpStageAlignment in
          if chunkStride =? UINT64_MAX then None
          else
            payload ← CheckedMul nvS chunkStride;
            '(hiddenAt, cursor) ← AppendRegion payload kMoonEpStageAlignment 0;
            if negb (hiddenAt =? 0) then None
            else
              '(weightsAt, cursor) ← AppendRegion weightsBytes kMoonEpStageAlignment cursor;
              '(parentsAt, cursor) ← AppendRegion dedupBytes kMoonEpStageAlignment cursor;
              '(groupMapAt, cursor) ← AppendRegion dedupBytes kMoonEpStageAlignment cursor;
              if IPC_BUFF_MAX_SIZE <? cursor then None
              else
                let chunks := ((rowBytes - 1) / chunkBytes + 1)%u64 in
                if (INT32_MAX - kMoonEpDispatchWindowDrainedStep) / 4 <? chunks then None
                else
                  hidden ← hiddenSh;
                  Some {| w_rank := commRank; w_world := commWorld; w_s := s; w_k := p_k p; w_n := p_n p; w_nvS := nvS; w_hiddenSize := shape hidden 1;
                          w_blockDim := kMoonEpStageAivBlockCount; w_chunkCount := chunks; w_flags := flags; w_hiddenRowBytes := rowBytes;
                          w_hiddenChunkBytes := chunkBytes; w_hiddenChunkStride := chunkStride; w_hiddenPayloadBytes := payload;
                          w_routeWeightsOffset := weightsAt; w_routeWeightsBytes := weightsBytes; dedupParentsOffset := parentsAt;
                          dedupParentsBytes := dedupBytes; dedupGroupMapOffset := groupMapAt; dedupGroupMapBytes := dedupBytes; w_windowBytes := cursor |}.

(** ** The window in closed form *)

Section window.
Context (nvS weights dedup row : Z) (Hn : 0 < nvS <= 2147483648) (Hw : 0 <= weights <= 4 * nvS) (Hd : 0 <= dedup <= 4 * nvS) (Hr : 0 < row <= UINT64_MAX).

(** What is left for the rows, the alignment gaps set aside. *)
Definition row_space : Z := IPC_BUFF_MAX_SIZE - (weights + dedup + dedup) - 93.
Definition max_stride : Z := row_space / nvS / 32 * 32.
Definition chunk_bytes : Z := if row <? max_stride then row else max_stride.
Definition chunk_stride : Z := align_to 32 chunk_bytes.
Definition chunk_count : Z := (row - 1) / chunk_bytes + 1.

Definition window_end : Z := place_end 32 0 [nvS * chunk_stride; weights; dedup; dedup].

(** The chunk fits, and no wider one leaves the gaps set aside. *)
Lemma stride_bounds : 0 < max_stride -> 0 < chunk_bytes <= chunk_stride /\ chunk_stride <= max_stride /\ chunk_stride mod 32 = 0 /\ nvS * max_stride <= row_space < nvS * (max_stride + 32).
Proof using Hn Hr Hw Hd.
  intros Hm. assert (max_stride mod 32 = 0) as Em by (unfold max_stride; apply Z.mod_mul; lia).
  assert (0 < chunk_bytes <= max_stride) as Hc by (unfold chunk_bytes; destruct (Z.ltb_spec row max_stride); lia).
  pose proof (align_to_spec 32 chunk_bytes ltac:(lia)) as Ha. pose proof (align_to_le 32 chunk_bytes max_stride ltac:(lia) ltac:(lia) Em). unfold chunk_stride in *.
  split; [lia|]. split; [lia|]. split; [lia|]. unfold max_stride. set (q := row_space / nvS).
  pose proof (Z.mul_div_le row_space nvS ltac:(lia)). pose proof (Z.mul_succ_div_gt row_space nvS ltac:(lia)). fold q in H0, H1.
  pose proof (Z.mul_div_le q 32 ltac:(lia)). pose proof (Z.mul_succ_div_gt q 32 ltac:(lia)). split; nia.
Qed.

Lemma window_fits : 0 < max_stride -> 0 <= row_space -> window_end <= IPC_BUFF_MAX_SIZE.
Proof using Hn Hr Hw Hd.
  intros Hm Hs. destruct (stride_bounds Hm) as (H1 & H2 & H3 & H4). unfold window_end. rewrite !place_end_cons, place_end_nil.
  assert (0 <= nvS * chunk_stride <= nvS * max_stride) as Hp by (split; [apply Z.mul_nonneg_nonneg; lia|apply Z.mul_le_mono_nonneg_l; lia]).
  change (align_to 32 0) with 0. set (c1 := 0 + nvS * chunk_stride). pose proof (align_to_spec 32 c1 ltac:(lia)). set (c2 := align_to 32 c1 + weights) in *.
  pose proof (align_to_spec 32 c2 ltac:(lia)). set (c3 := align_to 32 c2 + dedup) in *. pose proof (align_to_spec 32 c3 ltac:(lia)). unfold row_space in *. lia.
Qed.

(** A stride that leaves the room is no wider than the widest. *)
Lemma max_stride_ge units : 0 <= units -> nvS * (units * 32) <= row_space -> units * 32 <= max_stride.
Proof using Hn.
  intros Hu Hs. unfold max_stride. pose proof (Z.div_le_lower_bound row_space nvS (units * 32) ltac:(lia) Hs).
  pose proof (Z.div_le_lower_bound (row_space / nvS) 32 units ltac:(lia) ltac:(lia)). lia.
Qed.

Lemma dispatch_packed : 0 < max_stride -> 0 <= row_space -> let payload := nvS * chunk_stride in
  packed 32 0 [(0, payload); (align_to 32 payload, weights); (align_to 32 (align_to 32 payload + weights), dedup);
    (align_to 32 (align_to 32 (align_to 32 payload + weights) + dedup), dedup)] window_end.
Proof using Hn Hr Hw Hd.
  intros Hm Hs payload. destruct (stride_bounds Hm) as (H1 & _). assert (0 <= payload) by (apply Z.mul_nonneg_nonneg; lia).
  pose proof (place_packed 32 [payload; weights; dedup; dedup] window_end ltac:(lia) ltac:(repeat constructor; lia) 0 (Z.le_refl _)) as Hp.
  rewrite !place_cons, place_nil in Hp. change (align_to 32 0) with 0 in Hp. by rewrite !Z.add_0_l in Hp.
Qed.
End window.

Lemma div_le_self a b : 0 <= a -> 0 < b -> a / b <= a.
Proof. intros. apply Z.div_le_upper_bound; nia. Qed.

(** The layout, once its arguments are valid: only the space for a chunk and the number of chunks decide. *)
Lemma dispatch_window_eq commRank commWorld p s hSh wSk hNvsh wNvs flags row :
  Z.ldiff flags 3 = 0 -> PlanValid commRank commWorld (Some p) = Some s -> HiddenValid hSh hNvsh s (p_nvS p) = Some row ->
  WeightsValid wSk wNvs s (p_k p) (p_nvS p) = true ->
  let nvS := p_nvS p in
  let weights := match wSk with Some _ => nvS * 4 | None => 0 end in
  let dedup := if Z.land flags 1 =? 0 then 0 else nvS * 4 in
  0 < row <= UINT64_MAX /\
  exists hidden,
  TileXRMoonEpBuildDispatchLayout commRank commWorld (Some p) hSh wSk hNvsh wNvs flags =
  if (0 <=? row_space weights dedup) && (0 <? max_stride nvS weights dedup) && (chunk_count nvS weights dedup row <=? (INT32_MAX - 103) / 4) then
    Some {| w_rank := commRank; w_world := commWorld; w_s := s; w_k := p_k p; w_n := p_n p; w_nvS := nvS; w_hiddenSize := hidden;
            w_blockDim := 1; w_chunkCount := chunk_count nvS weights dedup row; w_flags := flags; w_hiddenRowBytes := row;
            w_hiddenChunkBytes := chunk_bytes nvS weights dedup row; w_hiddenChunkStride := chunk_stride nvS weights dedup row;
            w_hiddenPayloadBytes := nvS * chunk_stride nvS weights dedup row;
            w_routeWeightsOffset := align_to 32 (nvS * chunk_stride nvS weights dedup row); w_routeWeightsBytes := weights;
            dedupParentsOffset := align_to 32 (align_to 32 (nvS * chunk_stride nvS weights dedup row) + weights); dedupParentsBytes := dedup;
            dedupGroupMapOffset := align_to 32 (align_to 32 (align_to 32 (nvS * chunk_stride nvS weights dedup row) + weights) + dedup); dedupGroupMapBytes := dedup;
            w_windowBytes := window_end nvS weights dedup row |}
  else None.
Proof.
  intros Hf Hp Hh Hv. cbv zeta. destruct (PlanValid_bounds _ _ _ _ Hp) as (P1 & _ & P3 & _ & P5 & _).
  destruct hSh as [hidden|]; [|done]. destruct hNvsh as [o|]; [|done].
  assert (exists e, 0 < e /\ CheckedMul e 2 = Some row) as (e & He & Er). { cbn [HiddenValid] in Hh. case_if_in Hh; [|done]. b2p. eauto. }
  apply CheckedMul_pos in Er as [Er Hrow]; [|done|lia]. split; [lia|]. exists (shape hidden 1).
  unfold TileXRMoonEpBuildDispatchLayout. change (Z.lor TILEXR_MOONEP_FLAG_BUILD_DEDUP TILEXR_MOONEP_FLAG_SKIP_INTER_RANK_SYNC) with 3. cbv zeta. rewrite Hf. change (negb (0 =? 0)) with false. cbv iota.
  rewrite Hp. cbn [mbind option_bind]. rewrite Hh. cbn [mbind option_bind]. rewrite Hv. cbn [negb].
  assert (0 < p_nvS p <= 2147483648) as Hn by nia. set (nvS := p_nvS p) in *. set (weights := match wSk with Some _ => nvS * 4 | None => 0 end).
  set (dedup := if Z.land flags 1 =? 0 then 0 else nvS * 4).
  assert (CheckedMul nvS 4 = Some (nvS * 4)) as E4. { rewrite CheckedMul_spec by (unfold is_u64, UINT64_MAX; lia). by rewrite (proj2 (Z.leb_le _ _)) by (unfold UINT64_MAX; lia). }
  rewrite E4. assert (match wSk with Some _ => Some (nvS * 4) | None => Some 0 end = Some weights) as -> by (by destruct wSk). cbn [mbind option_bind].
  change TILEXR_MOONEP_FLAG_BUILD_DEDUP with 1. assert ((if negb (Z.land flags 1 =? 0) then Some (nvS * 4) else Some 0) = Some dedup) as -> by (unfold dedup; by destruct (_ =? 0)).
  cbn [mbind option_bind]. assert (0 <= weights <= 4 * nvS) as Hw by (unfold weights; destruct wSk; lia). assert (0 <= dedup <= 4 * nvS) as Hd by (unfold dedup; case_if; lia). clearbody weights dedup.
  assert (forall x y, 0 <= x <= 137438953472 -> 0 <= y <= 137438953472 -> CheckedAdd x y = Some (x + y)) as Hadd.
  { intros x y Hx Hy. rewrite CheckedAdd_spec by (unfold is_u64, UINT64_MAX; lia). by rewrite (proj2 (Z.leb_le _ _)) by (unfold UINT64_MAX; lia). }
  rewrite (Hadd weights dedup) by lia. cbn [mbind option_bind]. rewrite Hadd by lia. cbn [mbind option_bind]. unfold kMoonEpStageAlignment. change (3 * (32 - 1)) with 93.
  change (IPC_BUFF_MAX_SIZE - 93) with 536870819. assert (row_space weights dedup = 536870819 - (weights + dedup + dedup)) as Es by (unfold row_space; change IPC_BUFF_MAX_SIZE with 536870912; lia).
  destruct (Z.ltb_spec 536870819 (weights + dedup + dedup)); [by rewrite (proj2 (Z.leb_gt 0 _)) by lia|]. rewrite (proj2 (Z.leb_le 0 _)) by lia. cbn [andb].
  change (u64 (3 * u64 (32 - 1))) with 93. set (space := row_space weights dedup) in *.
  assert (u64 (u64 (IPC_BUFF_MAX_SIZE - (weights + dedup + dedup)) - 93) = space) as Hsp.
  { change IPC_BUFF_MAX_SIZE with 536870912. rewrite (u64_small (536870912 - _)), u64_small by lia. lia. }
  rewrite !Hsp.
  assert (0 <= space / nvS <= space) as Hq by (split; [apply Z.div_pos; lia|apply div_le_self; lia]).
  assert (u64 (space / nvS / 32 * 32) = max_stride nvS weights dedup) as ->.
  { unfold max_stride. fold space. apply u64_small. pose proof (Z.mul_div_le (space / nvS) 32 ltac:(lia)). pose proof (Z.div_pos (space / nvS) 32 ltac:(lia) ltac:(lia)). lia. }
  assert (0 <= max_stride nvS weights dedup) as Hm0. { unfold max_stride. fold space. pose proof (Z.div_pos (space / nvS) 32 ltac:(lia) ltac:(lia)). lia. }
  destruct (Z.eqb_spec (max_stride nvS weights dedup) 0) as [E0|E0]; [by rewrite E0|]. rewrite (proj2 (Z.ltb_lt 0 _)) by lia. cbn [andb].
  assert (0 < row <= UINT64_MAX) as Hrw by lia. assert (0 < max_stride nvS weights dedup) as Hmp by lia.
  destruct (stride_bounds nvS weights dedup row Hn Hw Hd Hrw Hmp) as (B1 & B2 & B3 & B4). fold space in B4.
  pose proof (window_fits nvS weights dedup row Hn Hw Hd Hrw Hmp ltac:(fold space; lia)) as Hfit.
  change (if row <? max_stride nvS weights dedup then row else max_stride nvS weights dedup) with (chunk_bytes nvS weights dedup row).
  set (cb := chunk_bytes nvS weights dedup row) in *.
  assert (max_stride nvS weights dedup <= 536870912) as Hmx by nia.
  assert (AlignUp cb 32 = chunk_stride nvS weights dedup row) as ->.
  { rewrite AlignUp_spec by (unfold is_u64, UINT64_MAX; lia). by rewrite (proj2 (Z.leb_le _ _)) by (unfold UINT64_MAX; lia). }
  set (cs := chunk_stride nvS weights dedup row) in *. rewrite (proj2 (Z.eqb_neq cs _)) by (unfold UINT64_MAX; lia).
  assert (0 <= nvS * cs <= 536870912) as Hpay by nia.
  assert (CheckedMul nvS cs = Some (nvS * cs)) as ->. { rewrite CheckedMul_spec by (unfold is_u64, UINT64_MAX; lia). by rewrite (proj2 (Z.leb_le _ _)) by (unfold UINT64_MAX; lia). }
  cbn [mbind option_bind]. rewrite AppendRegion_ok by (unfold UINT64_MAX; lia). cbn [mbind option_bind]. change (align_to 32 0) with 0. change (negb (0 =? 0)) with false. cbv iota. rewrite Z.add_0_l.
  pose proof (align_to_spec 32 (nvS * cs) ltac:(lia)). rewrite AppendRegion_ok by (unfold UINT64_MAX; lia). cbn [mbind option_bind].
  pose proof (align_to_spec 32 (align_to 32 (nvS * cs) + weights) ltac:(lia)). rewrite AppendRegion_ok by (unfold UINT64_MAX; lia). cbn [mbind option_bind].
  pose proof (align_to_spec 32 (align_to 32 (align_to 32 (nvS * cs) + weights) + dedup) ltac:(lia)). rewrite AppendRegion_ok by (unfold UINT64_MAX; lia). cbn [mbind option_bind].
  assert (align_to 32 (align_to 32 (align_to 32 (nvS * cs) + weights) + dedup) + dedup = window_end nvS weights dedup row) as ->.
  { unfold window_end. rewrite !place_end_cons, place_end_nil. change (align_to 32 0) with 0. by rewrite Z.add_0_l. }
  rewrite (proj2 (Z.ltb_ge IPC_BUFF_MAX_SIZE _)) by done. pose proof (div_le_self (row - 1) cb ltac:(lia) ltac:(lia)). pose proof (Z.div_pos (row - 1) cb ltac:(lia) ltac:(lia)).
  assert (u64 (u64 (row - 1) / cb + 1) = chunk_count nvS weights dedup row) as ->.
  { unfold chunk_count. fold cb. unfold UINT64_MAX in *. rewrite (u64_small (row - 1)), u64_small by lia. done. }
  change kMoonEpDispatchWindowDrainedStep with 103. destruct (Z.ltb_spec ((INT32_MAX - 103) / 4) (chunk_count nvS weights dedup row)); [by rewrite (proj2 (Z.leb_gt _ _))|].
  by rewrite (proj2 (Z.leb_le _ _)).
Qed.


(** The four regions of a window. *)
Definition dispatch_parts (l : DispatchLayout) : list (Z * Z) :=
  [(0, w_hiddenPayloadBytes l); (w_routeWeightsOffset l, w_routeWeightsBytes l); (dedupParentsOffset l, dedupParentsBytes l);
   (dedupGroupMapOffset l, dedupGroupMapBytes l)].

(** The bytes of the window beside the rows. *)
Definition window_fixed (plan : TileXRMoonEpPlanV1) (routeWeightsSk : option TileXRMoonEpTensorV1) (flags : Z) : Z :=
  match routeWeightsSk with Some _ => p_nvS plan * 4 | None => 0 end + 2 * (if Z.land flags 1 =? 0 then 0 else p_nvS plan * 4).

(** C40: the peer window of the dispatch. With valid arguments an accepted layout has
    its four regions inside the window, aligned and apart, and the window inside the buffer between
    two ranks; the chunks cover a row, the last one not empty, and the last step word of the exchange
    fits in 32 bits; the chunk is the whole row or the widest number of alignment units that leaves room
    for the other regions and their gaps. A layout is refused only when no such width cuts the row into
    few enough chunks for the step words. *)
Theorem dispatch_window_chunks commRank commWorld plan hSh wSk hNvsh wNvs flags p s row :
  plan = Some p -> Z.ldiff flags 3 = 0 -> PlanValid commRank commWorld plan = Some s -> HiddenValid hSh hNvsh s (p_nvS p) = Some row ->
  WeightsValid wSk wNvs s (p_k p) (p_nvS p) = true ->
  let room units := p_nvS p * (units * 32) + window_fixed p wSk flags + 93 <= IPC_BUFF_MAX_SIZE in
  let enough units := 0 < units /\ row <= (INT32_MAX - 103) / 4 * (units * 32) in
  match TileXRMoonEpBuildDispatchLayout commRank commWorld plan hSh wSk hNvsh wNvs flags with
  | Some l =>
      disjoint_regions 32 0 (dispatch_parts l) (w_windowBytes l) /\ w_windowBytes l <= IPC_BUFF_MAX_SIZE /\
      w_hiddenPayloadBytes l = p_nvS p * w_hiddenChunkStride l /\ w_hiddenChunkBytes l <= w_hiddenChunkStride l /\
      (w_chunkCount l - 1) * w_hiddenChunkBytes l < row <= w_chunkCount l * w_hiddenChunkBytes l /\ 4 * w_chunkCount l + 103 <= INT32_MAX /\
      (w_hiddenChunkBytes l = row \/ exists units, w_hiddenChunkBytes l = units * 32 /\ room units /\ forall wider, units < wider -> ~ room wider)
  | None => forall units, room units -> ~ enough units
  end.
Proof.
  intros -> Hf Hp Hh Hv room enough. destruct (PlanValid_bounds _ _ _ _ Hp) as (P1 & _ & P3 & _ & P5 & _).
  destruct (dispatch_window_eq commRank commWorld p s hSh wSk hNvsh wNvs flags row Hf Hp Hh Hv) as (Hr & hidden & ->).
  unfold window_fixed in room. set (nvS := p_nvS p) in *. set (weights := match wSk with Some _ => nvS * 4 | None => 0 end) in *. set (dedup := if Z.land flags 1 =? 0 then 0 else nvS * 4) in *.
  assert (0 < nvS <= 2147483648) as Hn by nia. assert (0 <= weights <= 4 * nvS) as Hw by (unfold weights; destruct wSk; lia).
  assert (0 <= dedup <= 4 * nvS) as Hd by (unfold dedup; case_if; lia). clearbody weights dedup.
  destruct (_ && _) eqn:E; b2p.
  - destruct (stride_bounds nvS weights dedup row Hn Hw Hd Hr ltac:(lia)) as (B1 & B2 & B3 & B4).
    pose proof (window_fits nvS weights dedup row Hn Hw Hd Hr ltac:(lia) ltac:(lia)) as Hfit. cbn -[disjoint_regions window_end chunk_count chunk_bytes chunk_stride IPC_BUFF_MAX_SIZE INT32_MAX Z.div Z.mul Z.add].
    split. { unfold dispatch_parts; cbn -[window_end chunk_stride align_to disjoint_regions]. apply packed_disjoint, dispatch_packed; [lia..|done]. }
    split; [done|]. split; [done|]. split; [lia|]. unfold chunk_count in *. set (cb := chunk_bytes nvS weights dedup row) in *.
    pose proof (Z.mul_div_le (row - 1) cb ltac:(lia)). pose proof (Z.mul_succ_div_gt (row - 1) cb ltac:(lia)). split; [lia|].
    split; [change INT32_MAX with 2147483647 in *; change ((2147483647 - 103) / 4) with 536870886 in *; lia|].
    unfold cb, chunk_bytes. destruct (Z.ltb_spec row (max_stride nvS weights dedup)); [by left|right].
    exists (max_stride nvS weights dedup / 32). assert (max_stride nvS weights dedup / 32 * 32 = max_stride nvS weights dedup) as E32 by (unfold max_stride; by rewrite Z.div_mul).
    split; [done|]. unfold room. rewrite E32. unfold row_space in B4. split; [lia|]. intros wider Hwi Hro. nia.
  - intros units Hro [Hu Hen]. unfold room in Hro. assert (nvS * (units * 32) <= row_space weights dedup) as Hs by (unfold row_space; lia).
    assert (units * 32 <= max_stride nvS weights dedup) as Hm by (apply max_stride_ge; lia).
    rewrite (proj2 (Z.leb_le 0 _)), (proj2 (Z.ltb_lt 0 _)) in E by nia. cbn [andb] in E. b2p. unfold chunk_count, chunk_bytes in E.
    change ((INT32_MAX - 103) / 4) with 536870886 in *. destruct (Z.ltb_spec row (max_stride nvS weights dedup)).
    + rewrite Z.div_small in E by lia. lia.
    + pose proof (Z.mul_div_le (row - 1) (max_stride nvS weights dedup) ltac:(lia)). nia.
Qed.

(** ** A window *)

Module SampleWindow.
Definition plan : TileXRMoonEpPlanV1 :=
  {| p_structSize := 120; p_abiVersion := 1; p_n := 65536; p_r := 4; p_e := 16; p_b := 2; p_nvS := 131072; p_k := 8; planPointers := true |}.
(** A row of 7168 numbers, of which 4064 bytes fit at a time beside the weights and the groups. *)
Definition layout : option DispatchLayout :=
  TileXRMoonEpBuildDispatchLayout 1 4 (Some plan) (SampleCombine.tensor 11 2 8192 7168) (SampleCombine.tensor 4 2 8192 8)
    (SampleCombine.tensor 11 2 131072 7168) (SampleCombine.tensor 4 1 131072 0) 1.
End SampleWindow.

Lemma dispatch_window_chunks_witness : exists l, SampleWindow.layout = Some l /\ w_hiddenChunkBytes l < w_hiddenRowBytes l /\
  disjoint_regions 32 0 (dispatch_parts l) (w_windowBytes l) /\ w_windowBytes l <= IPC_BUFF_MAX_SIZE.
Proof.
  pose proof (dispatch_window_chunks 1 4 (Some SampleWindow.plan) (SampleCombine.tensor 11 2 8192 7168) (SampleCombine.tensor 4 2 8192 8)
    (SampleCombine.tensor 11 2 131072 7168) (SampleCombine.tensor 4 1 131072 0) 1 SampleWindow.plan 8192 14336
    eq_refl eq_refl eq_refl eq_refl eq_refl) as H.
  fold SampleWindow.layout in H. destruct SampleWindow.layout as [l|] eqn:E; [|vm_compute in E; discriminate E]. exists l.
  destruct H as (H1 & H2 & _). split; [reflexivity|]. split; [|split; assumption].
  vm_compute in E. injection E as <-. reflexivity.
Defined.
