(* ===== verification/StagePrefetch.v ===== *)
(** The layout of the weight prefetch (src/src/moonep/prefetch_weight/host/
    prefetch_weight_layout.cpp and .h): where the three weight tensors are in the registered memory,
    how many workers there are, and which queue pair each of them uses. A function that returns
    an error code and fills a layout is an option. *)
From Stdlib Require Import String Ascii.
From S2P Require Import Prelude CombineWire Layouts UdmaTypes UdmaQueue GradLayout StageCombine.

Definition kPrefetchWeightMaxWorkers : Z := 8.
Definition kPrefetchWeightAlignment : Z := 64.
Definition kPrefetchWeightSharedQpCount : Z := 32.
Definition kPrefetchWeightSecondClosQpBase : Z := 16.
Definition ExtraFlag_UDMA_SHARED_QP : Z := Z.shiftl 1 12.

Record PrefetchWeightProjectionLayout := { localBase : Z; registryOffset : Z; f_rowBytes : Z }.

Record PrefetchWeightLayout := {
  f_gate : PrefetchWeightProjectionLayout; f_up : PrefetchWeightProjectionLayout; f_down : PrefetchWeightProjectionLayout;
  f_expertsPerRank : Z; f_prefetchSlots : Z; f_rank : Z; f_rankSize : Z; f_qpNum : Z; f_blockDim : Z; physicalQpMap : Z
}.

Record TileXRMoonEpPrefetchWeightArgsV1 := {
  fa_structSize : Z; fa_abiVersion : Z; fa_comm : Z; fa_plan : option TileXRMoonEpPlanV1; fa_gate : option TileXRMoonEpTensorV1; fa_up : option TileXRMoonEpTensorV1;
  fa_down : option TileXRMoonEpTensorV1; fa_flags : Z
}.

Definition SupportedWorkerCount (value : Z) : bool :=
  (value =? 1) || (value =? 2) || (value =? 4) || (value =? kPrefetchWeightMaxWorkers).

(** [std::strtoul(value, &end, 10)] of a whole text: [None] for a range error, for no digits and
    for a text behind the number. *)
Definition strtoul (s : string) : option Z :=
  let s1 := skip_spaces s in
  let '(negative, s2) := match s1 with
    | String "-" rest => (true, rest) | String "+" rest => (false, rest) | _ => (false, s1) end in
  let '(count, value, rest) := digits s2 0 0 in
  if (count =? 0) || (UINT64_MAX <? value) then None
  else match rest with EmptyString => Some (if (negative : bool) then u64 (- value) else value) | _ => None end.

(** The number of workers behind the override, [None] when the override is invalid. *)
Definition ParseWorkerOverride (value : option string) (workers : Z) : option Z :=
  match value with
  | None | Some EmptyString => Some workers
  | Some text =>
      parsed ← strtoul text;
      if (UINT32_MAX <? parsed) || negb (SupportedWorkerCount (u32 parsed)) then None else Some (u32 parsed)
  end.

Definition BuildProjection (tensor : option TileXRMoonEpTensorV1) (expertsPerRank localRank : Z) (registry : TileXRUDMARegistry)
    : option (PrefetchWeightProjectionLayout * Z) :=
  t ← tensor;
  if negb (TensorHeaderValid tensor) || (negb (dtype t =? TILEXR_MOONEP_DTYPE_FLOAT16) && negb (dtype t =? TILEXR_MOONEP_DTYPE_BFLOAT16)) ||
     (t_rank t <? 2) || (TILEXR_MOONEP_MAX_TENSOR_RANK <? t_rank t) || (expertsPerRank <=? 0) || negb (shape t 0 =? 2 * expertsPerRank)
  then None
  else
    tensorBytes ← CheckedMul (elementCount t) 2;
    if negb (tensorBytes mod (2 * expertsPerRank) =? 0) then None
    else
      let rowBytes := tensorBytes / (2 * expertsPerRank) in
      if (rowBytes =? 0) || (UINT32_MAX <? rowBytes) || negb (rowBytes mod kPrefetchWeightAlignment =? 0) then None
      else
        let regionBase := rd_base (rg_regions registry localRank) in
        let tensorBase := t_data t in
        if (regionBase =? 0) || (tensorBase <? regionBase) || negb (tensorBase mod kPrefetchWeightAlignment =? 0) then None
        else
          let offset := tensorBase - regionBase in
          if negb (offset mod kPrefetchWeightAlignment =? 0) then None
          else
            sourceBytes ← CheckedMul expertsPerRank rowBytes;
            if negb (UDMARegionContains (Some registry) localRank offset tensorBytes) then None
            else if negb (forallb (fun peer => UDMARegionContains (Some registry) peer offset sourceBytes) (seqZ 0 (rg_rankSize registry))) then None
            else if (UINT64_MAX - tensorBytes <? offset) then None
            else Some ({| localBase := t_data t; registryOffset := offset; f_rowBytes := u32 rowBytes |}, (offset + tensorBytes)%u64).

Definition RangesOverlap (lhsBegin lhsEnd rhsBegin rhsEnd : Z) : bool := (lhsBegin <? rhsEnd) && (rhsBegin <? lhsEnd).

(** The queue pair of a worker. *)
Definition physical_qp (workers : Z) (sharedQps : bool) (worker : Z) : Z :=
  if sharedQps && (workers =? 4) && (worker =? 3) then kPrefetchWeightSecondClosQpBase
  else if sharedQps && (workers =? kPrefetchWeightMaxWorkers) && (6 <=? worker) then (kPrefetchWeightSecondClosQpBase + worker - 6)%u32
  else worker.

Definition TileXRMoonEpBuildPrefetchWeightQpMap (workers qpNum : Z) (sharedQps : bool) : option Z :=
  if negb (SupportedWorkerCount workers) || (qpNum <? workers) || (sharedQps && (qpNum <? kPrefetchWeightSharedQpCount)) then None
  else
    match loop_ret (fun worker packed =>
        let physicalQp := physical_qp workers sharedQps worker in
        if (qpNum <=? physicalQp) || (255 <? physicalQp) then inr tt
        else inl (Z.lor packed (u64 (Z.shiftl physicalQp (worker * 8)))))
      (seqZ 0 workers) 0 with
    | inr _ => None
    | inl packed => Some packed
    end.

Definition TileXRMoonEpPrefetchWeightPhysicalQp (physicalQpMap worker : Z) : Z :=
  if worker <? kPrefetchWeightMaxWorkers then Z.land (Z.shiftr physicalQpMap (worker * 8)) 0xFF else UINT32_MAX.

(** [while (workers > limit) workers >>= 1]; a turn halves a 32-bit value, so that 32 are enough. *)
Fixpoint halve_to (fuel : nat) (limit workers : Z) : Z :=
  match fuel with
  | O => workers
  | S f => if limit <? workers then halve_to f limit (Z.shiftr workers 1) else workers
  end.

Definition TileXRMoonEpBuildPrefetchWeightLayout (args : TileXRMoonEpPrefetchWeightArgsV1) (commArgs : CommArgs) (registry : TileXRUDMARegistry)
    (qpNum : Z) (blockDimOverride : option string) : option PrefetchWeightLayout :=
  s ← PlanValid (ca_rank commArgs) (ca_rankSize commArgs) (fa_plan args);
  p ← fa_plan args;
  if negb (fa_flags args =? TILEXR_MOONEP_FLAG_NONE) || (INT32_MAX <? p_e p) || (INT32_MAX <? p_b p) || (p_e p / p_r p <? p_b p) ||
     (Z.land (extraFlag commArgs) ExtraFlag_UDMA =? 0) || negb (bool_decide (is_Some (udmaInfoPtr commArgs))) ||
     negb (bool_decide (is_Some (udmaRegistryPtr commArgs))) || negb (UDMARegistryValid (Some registry) (ca_rankSize commArgs)) ||
     (ca_rank commArgs <? 0) || (ca_rankSize commArgs <=? ca_rank commArgs) || (qpNum =? 0)
  then None
  else
    let expertsPerRank := p_e p / p_r p in
    gate ← fa_gate args; up ← fa_up args; down ← fa_down args;
    if negb (dtype gate =? dtype up) || negb (dtype gate =? dtype down) then None
    else
      '(gateAt, gateEnd) ← BuildProjection (fa_gate args) expertsPerRank (ca_rank commArgs) registry;
      '(upAt, upEnd) ← BuildProjection (fa_up args) expertsPerRank (ca_rank commArgs) registry;
      '(downAt, downEnd) ← BuildProjection (fa_down args) expertsPerRank (ca_rank commArgs) registry;
      if RangesOverlap (registryOffset gateAt) gateEnd (registryOffset upAt) upEnd ||
         RangesOverlap (registryOffset gateAt) gateEnd (registryOffset downAt) downEnd ||
         RangesOverlap (registryOffset upAt) upEnd (registryOffset downAt) downEnd then None
      else
        let hasOverride := match blockDimOverride with None | Some EmptyString => false | Some _ => true end in
        workers ← ParseWorkerOverride blockDimOverride (halve_to 32 qpNum kPrefetchWeightMaxWorkers);
        if (qpNum <? workers) || (hasOverride && (u32 (p_b p) <? workers)) then None
        else
          let workers := halve_to 32 (u32 (p_b p)) workers in
          let sharedQps := negb (Z.land (extraFlag commArgs) ExtraFlag_UDMA_SHARED_QP =? 0) in
          map ← TileXRMoonEpBuildPrefetchWeightQpMap workers qpNum sharedQps;
          Some {| f_gate := gateAt; f_up := upAt; f_down := downAt; f_expertsPerRank := expertsPerRank; f_prefetchSlots := p_b p;
                  f_rank := ca_rank commArgs; f_rankSize := ca_rankSize commArgs; f_qpNum := qpNum; f_blockDim := workers; physicalQpMap := map |}.

(** ** The host *)

Definition TILEXR_MOONEP_ERROR_INVALID_ARGUMENT : Z := -3.
Definition TILEXR_MOONEP_ERROR_INTERNAL : Z := -4.
Definition TILEXR_MOONEP_ERROR_NOT_SUPPORTED : Z := -6.
Definition TILEXR_SUCCESS : Z := 0.
Definition ExtraFlag_TOPO_910A5 : Z := Z.shiftl 1 6.
Definition sizeof_prefetch_args : Z := 56.

(** What the calls on the communicator answer: a code and what they fill in. *)
Record Communicator := {
  TileXRGetCommArgsHost : Z * option CommArgs; TileXRGetUDMARegistryHost : Z * option TileXRUDMARegistry;
  TileXRUDMAGetQpCount : Z * Z; TileXRGetCommArgsDev : Z * Z
}.

(** The plan stands for its pointers [expertsToCopy] and [status]. *)
Record PrefetchWeightParams := { wp_comm : Z; wp_plan : TileXRMoonEpPlanV1; wp_gate : Z; wp_up : Z; wp_down : Z; wp_stream : Z }.
Record PrefetchWeightLaunchContext := { hostArgs : CommArgs; devArgs : Z; lc_layout : PrefetchWeightLayout }.

(** The parameters and the context of a launch, or the error. *)
Definition TileXRMoonEpPreparePrefetchWeightLaunch (c : Communicator) (args : option TileXRMoonEpPrefetchWeightArgsV1) (stream : Z) (blockDimOverride : option string)
    : (PrefetchWeightParams * PrefetchWeightLaunchContext) + Z :=
  match args with
  | None => inr TILEXR_MOONEP_ERROR_INVALID_ARGUMENT
  | Some a =>
      match fa_plan a, fa_gate a, fa_up a, fa_down a with
      | Some plan, Some gate, Some up, Some down =>
          if (fa_structSize a <? sizeof_prefetch_args) || negb (fa_abiVersion a =? TILEXR_MOONEP_ABI_VERSION_V1) || (fa_comm a =? 0) ||
             negb (fa_flags a =? TILEXR_MOONEP_FLAG_NONE) || (stream =? 0) then inr TILEXR_MOONEP_ERROR_INVALID_ARGUMENT
          else
            let '(ret, host) := TileXRGetCommArgsHost c in
            if negb (ret =? TILEXR_SUCCESS) then inr ret
            else match host with
            | None => inr TILEXR_MOONEP_ERROR_INVALID_ARGUMENT
            | Some h =>
                if (ca_rankSize h <=? 0) || (TILEXR_MAX_RANK_SIZE <? ca_rankSize h) || (ca_rank h <? 0) || (ca_rankSize h <=? ca_rank h)
                then inr TILEXR_MOONEP_ERROR_INVALID_ARGUMENT
                else if Z.land (extraFlag h) ExtraFlag_TOPO_910A5 =? 0 then inr TILEXR_MOONEP_ERROR_NOT_SUPPORTED
                else
                  let '(registryRet, registry) := TileXRGetUDMARegistryHost c in
                  let '(qpRet, qpNum) := TileXRUDMAGetQpCount c in
                  match registry with
                  | Some r =>
                      if negb (registryRet =? TILEXR_SUCCESS) || negb (qpRet =? TILEXR_SUCCESS) then inr TILEXR_MOONEP_ERROR_NOT_SUPPORTED
                      else
                        match TileXRMoonEpBuildPrefetchWeightLayout a h r qpNum blockDimOverride with
                        | None => inr TILEXR_MOONEP_ERROR_INVALID_ARGUMENT
                        | Some layout =>
                            let '(devRet, dev) := TileXRGetCommArgsDev c in
                            if negb (devRet =? TILEXR_SUCCESS) then inr devRet
                            else if dev =? 0 then inr TILEXR_MOONEP_ERROR_INTERNAL
                            else inl ({| wp_comm := fa_comm a; wp_plan := plan; wp_gate := t_data gate; wp_up := t_data up; wp_down := t_data down; wp_stream := stream |},
                                      {| hostArgs := h; devArgs := dev; lc_layout := layout |})
                        end
                  | None => inr TILEXR_MOONEP_ERROR_NOT_SUPPORTED
                  end
            end
      | _, _, _, _ => inr TILEXR_MOONEP_ERROR_INVALID_ARGUMENT
      end
  end.

(** ** The queue pairs *)

Lemma worker_counts v : SupportedWorkerCount v = true -> v = 1 \/ v = 2 \/ v = 4 \/ v = 8.
Proof. unfold SupportedWorkerCount, kPrefetchWeightMaxWorkers. intros H. rewrite !orb_true_iff in H. destruct H as [[[H|H]|H]|H]; apply Z.eqb_eq in H; auto. Qed.

(** The map without its guard, which the compiler of the model can run. *)
Definition pack_qps (workers : Z) (shared : bool) : Z :=
  fold_left (fun packed worker => Z.lor packed (u64 (Z.shiftl (physical_qp workers shared worker) (worker * 8)))) (seqZ 0 workers) 0.

Lemma pack_loop workers qpNum shared ws : forall acc r,
  loop_ret (fun worker packed =>
      let physicalQp := physical_qp workers shared worker in
      if (qpNum <=? physicalQp) || (255 <? physicalQp) then inr tt
      else inl (Z.lor packed (u64 (Z.shiftl physicalQp (worker * 8))))) ws acc = inl r ->
  r = fold_left (fun packed worker => Z.lor packed (u64 (Z.shiftl (physical_qp workers shared worker) (worker * 8)))) ws acc /\
  forall w, w ∈ ws -> physical_qp workers shared w < qpNum.
Proof.
  induction ws as [|w ws IH]; intros acc r; cbn [loop_ret fold_left]; cbv zeta.
  - intros [= ->]. split; [done|]. intros w Hw%elem_of_nil. done.
  - destruct ((qpNum <=? physical_qp workers shared w) || (255 <? physical_qp workers shared w)) eqn:Hg; [done|].
    b2p. intros [-> Hws]%IH. split; [done|]. intros x [-> |Hx]%elem_of_cons; [lia|by apply Hws].
Qed.

(** The checks below run over the eight cases of a supported number of workers. *)
Definition qp_table (workers : Z) (shared : bool) : bool :=
  forallb (fun a => (TileXRMoonEpPrefetchWeightPhysicalQp (pack_qps workers shared) a =? physical_qp workers shared a) &&
    forallb (fun b => (a =? b) || negb (physical_qp workers shared a =? physical_qp workers shared b)) (seqZ 0 workers)) (seqZ 0 workers).

Lemma qp_table_ok workers shared : SupportedWorkerCount workers = true -> qp_table workers shared = true.
Proof. intros [-> |[-> |[-> | ->]]]%worker_counts; destruct shared; vm_compute; reflexivity. Qed.

Lemma qp_map_spec workers qpNum shared map : TileXRMoonEpBuildPrefetchWeightQpMap workers qpNum shared = Some map ->
  SupportedWorkerCount workers = true /\ workers <= qpNum /\
  forall w, 0 <= w < workers ->
    TileXRMoonEpPrefetchWeightPhysicalQp map w < qpNum /\
    forall v, 0 <= v < workers -> TileXRMoonEpPrefetchWeightPhysicalQp map v = TileXRMoonEpPrefetchWeightPhysicalQp map w -> v = w.
Proof.
  unfold TileXRMoonEpBuildPrefetchWeightQpMap. intros H. case_if_in H; [done|]. b2p. split; [done|]. split; [done|].
  destruct (loop_ret _ _ _) as [packed|] eqn:E; [|done]. injection H as <-. apply pack_loop in E as [-> Hlt].
  fold (pack_qps workers shared).
  assert (Ht : qp_table workers shared = true) by (by apply qp_table_ok).
  unfold qp_table in Ht. rewrite forallb_forall in Ht.
  assert (Hrow : forall a, 0 <= a < workers -> TileXRMoonEpPrefetchWeightPhysicalQp (pack_qps workers shared) a = physical_qp workers shared a /\
     forall b, 0 <= b < workers -> physical_qp workers shared a = physical_qp workers shared b -> a = b).
  { intros a Ha. assert (forall x, 0 <= x < workers -> In x (seqZ 0 workers)) as Hin by (intros x Hx; apply list_elem_of_In, elem_of_seqZ; lia).
    specialize (Ht a (Hin a Ha)). apply andb_true_iff in Ht as [Ht1%Z.eqb_eq Ht2]. split; [done|]. intros b Hb He.
    rewrite forallb_forall in Ht2. specialize (Ht2 b (Hin b Hb)). apply orb_true_iff in Ht2 as [Hx|Hx]; b2p; done. }
  intros w Hw. destruct (Hrow w Hw) as [-> _]. split; [apply Hlt, elem_of_seqZ; lia|].
  intros v Hv. destruct (Hrow v Hv) as [-> Hi]. intros He. exact (Hi w Hw He).
Qed.

Lemma physical_qp_small workers shared w : workers <= kPrefetchWeightMaxWorkers -> 0 <= w < workers ->
  0 <= physical_qp workers shared w <= 17 /\ (shared = false -> physical_qp workers shared w = w).
Proof.
  unfold physical_qp, kPrefetchWeightSecondClosQpBase, kPrefetchWeightMaxWorkers. intros Hs Hw. destruct shared; cbn [andb]; [|lia].
  repeat case_if; b2p; try rewrite (u32_small (16 + w)), u32_small by lia; (split; [lia|done]).
Qed.

Lemma qp_map_some workers qpNum shared : is_Some (TileXRMoonEpBuildPrefetchWeightQpMap workers qpNum shared) <->
  SupportedWorkerCount workers = true /\ workers <= qpNum /\ (shared = true -> kPrefetchWeightSharedQpCount <= qpNum).
Proof.
  unfold TileXRMoonEpBuildPrefetchWeightQpMap. destruct (SupportedWorkerCount workers) eqn:Hs; [|cbn; split; [by intros []|by intros []]].
  cbn [negb orb]. destruct (Z.ltb_spec qpNum workers); [split; [by intros []|lia]|]. cbn [orb]. unfold kPrefetchWeightSharedQpCount.
  destruct (shared && (qpNum <? 32)) eqn:Hq.
  { apply andb_true_iff in Hq as [-> Hq%Z.ltb_lt]. split; [by intros []|]. intros (_ & _ & Hsh). specialize (Hsh eq_refl). lia. }
  assert (shared = true -> 32 <= qpNum) as Hsh by (intros ->; cbn [andb] in Hq; by apply Z.ltb_ge in Hq).
  split; [done|]. intros _. apply worker_counts in Hs.
  match goal with |- is_Some (match loop_ret ?body _ _ with _ => _ end) =>
    assert (match loop_ret body (seqZ 0 workers) 0 with inl _ => True | inr _ => False end) as Hl end.
  { apply (loop_ret_range (fun _ _ => True) (fun _ => False)); [|lia|done]. intros w acc Hw _. cbv zeta.
    destruct (physical_qp_small workers shared w) as [Hb Hn]; [unfold kPrefetchWeightMaxWorkers; lia|lia|].
    rewrite (proj2 (Z.ltb_ge 255 _)) by lia. rewrite (proj2 (Z.leb_gt qpNum _)); [done|]. destruct shared; [specialize (Hsh eq_refl); lia|rewrite Hn by done; lia]. }
  destruct (loop_ret _ _ _); done.
Qed.

(** The halving loop, on the supported counts: the largest count the limit allows. *)
Lemma halve_to_spec limit workers : SupportedWorkerCount workers = true -> 1 <= limit ->
  let r := halve_to 32 limit workers in
  SupportedWorkerCount r = true /\ r <= limit /\ r <= workers /\
  forall v, SupportedWorkerCount v = true -> v <= limit -> v <= workers -> v <= r.
Proof.
  intros Hs Hl. cbv zeta. change 32%nat with (S (S (S (S (S 27))))). generalize 27%nat. intros fuel.
  apply worker_counts in Hs as [-> |[-> |[-> | ->]]];
    repeat (cbn [halve_to]; match goal with |- context [Z.shiftr ?a 1] => let v := eval vm_compute in (Z.shiftr a 1) in change (Z.shiftr a 1) with v | _ => idtac end;
      match goal with |- context [limit <? ?a] => destruct (Z.ltb_spec limit a); [|] end); try lia;
    (split; [done|split; [lia|split; [lia|]]]); intros v Hv%worker_counts; lia.
Qed.

(** ** The tensors *)

(** What a projection promises its copies: the rows are where the tensor is, in the region that this
    rank has registered; [2 * experts] of them fit in, and the first [experts] fit in the region of
    every rank. *)
Record registered (registry : TileXRUDMARegistry) (rank experts : Z) (t : TileXRMoonEpTensorV1) (at_ : PrefetchWeightProjectionLayout) : Prop := {
  reg_base : localBase at_ = t_data t /\ t_data t = rd_base (rg_regions registry rank) + registryOffset at_ /\ 0 <= registryOffset at_;
  reg_row : 0 < f_rowBytes at_ <= UINT32_MAX /\ 2 * experts * f_rowBytes at_ = elementCount t * 2;
  reg_align : (kPrefetchWeightAlignment | f_rowBytes at_) /\ (kPrefetchWeightAlignment | registryOffset at_) /\ (kPrefetchWeightAlignment | localBase at_);
  reg_local : registryOffset at_ + 2 * experts * f_rowBytes at_ <= rd_bytes (rg_regions registry rank);
  reg_peers peer : 0 <= peer < rg_rankSize registry -> rd_base (rg_regions registry peer) <> 0 /\
    registryOffset at_ + experts * f_rowBytes at_ <= rd_bytes (rg_regions registry peer)
}.

Lemma region_contains_le r rank off count : UDMARegionContains (Some r) rank off count = true ->
  rd_base (rg_regions r rank) <> 0 /\ off + count <= rd_bytes (rg_regions r rank).
Proof. unfold UDMARegionContains. intros H. repeat (case_if_in H; [done|]). b2p. lia. Qed.

Lemma mod_divide a b : 0 < b -> a mod b = 0 -> (b | a).
Proof. intros Hb H. apply Z.mod_divide; [lia|done]. Qed.

Lemma projection_registered tensor experts rank registry at_ stop : BuildProjection tensor experts rank registry = Some (at_, stop) ->
  (forall t, tensor = Some t -> is_u64 (elementCount t)) ->
  exists t, tensor = Some t /\ registered registry rank experts t at_ /\ stop = registryOffset at_ + 2 * experts * f_rowBytes at_.
Proof.
  intros H Hw. destruct tensor as [t|]; [|done]. specialize (Hw t eq_refl). exists t. split; [done|].
  unfold BuildProjection in H. cbn [mbind option_bind] in H. case_if_in H; [done|]. b2p.
  destruct (CheckedMul (elementCount t) 2) as [bytes|] eqn:Eb; [|done]. cbn [mbind option_bind] in H.
  apply CheckedMul_Some in Eb as [-> Hb]; [|done|unfold is_u64, UINT64_MAX; lia].
  cbv zeta in H. set (row := elementCount t * 2 / (2 * experts)) in *. repeat (case_if_in H; [done|]). b2p.
  destruct (CheckedMul experts row) as [source|] eqn:Es; [|done]. cbn [mbind option_bind] in H. repeat (case_if_in H; [done|]). b2p.
  injection H as <- <-. cbn [registryOffset f_rowBytes localBase].
  assert (elementCount t * 2 = 2 * experts * row) as Er by (apply Z_div_exact_full_2; [lia|done]).
  assert (0 <= row) by (apply Z.div_pos; unfold is_u64 in *; lia). apply CheckedMul_pos in Es as [-> _]; [|lia|lia].
  assert (u32 row = row) as -> by (unfold UINT32_MAX in *; apply u32_small; lia).
  split; [constructor; cbn [registryOffset f_rowBytes localBase]; unfold kPrefetchWeightAlignment in *|].
  - lia.
  - lia.
  - split_and!; apply mod_divide; (lia || done).
  - match goal with Hc : UDMARegionContains _ rank _ _ = true |- _ => apply region_contains_le in Hc end. lia.
  - intros peer Hp. match goal with Hf : forallb _ _ = true |- _ => rewrite forallb_forall in Hf; specialize (Hf peer); cbv beta in Hf end.
    apply region_contains_le. match goal with Hf : In peer _ -> _ |- _ => apply Hf, list_elem_of_In, elem_of_seqZ end. lia.
  - rewrite u64_small; [lia|]. unfold UINT64_MAX, is_u64 in *. lia.
Qed.

(** The workers of the accepted layout. *)
Definition workers_chosen (blockDimOverride : option string) (qpNum slots workers : Z) : Prop :=
  SupportedWorkerCount workers = true /\ workers <= qpNum /\ workers <= slots /\
  match blockDimOverride with
  | None | Some EmptyString => forall v, SupportedWorkerCount v = true -> v <= qpNum -> v <= slots -> v <= workers
  | Some text => strtoul text = Some workers
  end.

Lemma digits_nonneg s : forall count value c v rest, digits s count value = (c, v, rest) -> 0 <= value -> 0 <= v.
Proof.
  induction s as [|a s IH]; intros count value c v rest; cbn [digits]; [by intros [= <- <- <-]|].
  destruct (digit_value a) as [d|] eqn:Ed; [|by intros [= <- <- <-]]. intros H Hv. eapply IH; [exact H|].
  unfold digit_value in Ed. case_if_in Ed; [|done]. injection Ed as <-. b2p. lia.
Qed.

Lemma strtoul_nonneg s v : strtoul s = Some v -> 0 <= v.
Proof.
  unfold strtoul. set (signed := match skip_spaces s with String _ _ => _ | _ => _ end). destruct signed as [negative digits_text].
  destruct (digits digits_text 0 0) as [[count value] rest] eqn:E. apply digits_nonneg in E; [|done]. case_if; [done|].
  destruct rest; [|done]. intros [= <-]. destruct negative; [apply u64_range|done].
Qed.

Lemma chosen_workers blockDimOverride qpNum slots first : 1 <= qpNum -> 1 <= slots ->
  ParseWorkerOverride blockDimOverride (halve_to 32 qpNum kPrefetchWeightMaxWorkers) = Some first -> first <= qpNum ->
  (match blockDimOverride with None | Some EmptyString => false | Some _ => true end && (slots <? first)) = false ->
  workers_chosen blockDimOverride qpNum slots (halve_to 32 slots first).
Proof.
  intros Hq Hs Hp Hle Hov. unfold workers_chosen.
  destruct (halve_to_spec qpNum kPrefetchWeightMaxWorkers eq_refl Hq) as (A1 & A2 & A3 & A4).
  destruct blockDimOverride as [[|c text]|]; cbn [ParseWorkerOverride andb] in *.
  1,3: injection Hp as <-; destruct (halve_to_spec slots _ A1 Hs) as (B1 & B2 & B3 & B4); (split; [done|split; [etransitivity; eassumption|split; [done|]]]); intros v V1 V2 V3;
    apply B4; [done..|]; apply A4; [done..|]; apply worker_counts in V1; unfold kPrefetchWeightMaxWorkers; lia.
  destruct (strtoul (String c text)) as [parsed|] eqn:E; [|done]. cbn [mbind option_bind] in Hp. case_if_in Hp; [done|]. injection Hp as <-. b2p.
  assert (SupportedWorkerCount (u32 parsed) = true) as Hv by done. destruct (halve_to_spec slots _ Hv Hs) as (B1 & B2 & B3 & B4).
  assert (halve_to 32 slots (u32 parsed) = u32 parsed) as -> by (apply Z.le_antisymm; [done|apply B4; (done || lia)]).
  split_and!; [done|lia|lia|]. f_equal. symmetry. apply u32_small. apply strtoul_nonneg in E. unfold UINT32_MAX in *. lia.
Qed.

Lemma ranges_apart a b c d : RangesOverlap a b c d = false -> b <= c \/ d <= a.
Proof. unfold RangesOverlap. intros [H%Z.ltb_ge|H%Z.ltb_ge]%andb_false_iff; auto. Qed.

(** Two blocks of rows, apart. *)
Definition rows_apart (experts : Z) (a b : PrefetchWeightProjectionLayout) : Prop :=
  registryOffset a + 2 * experts * f_rowBytes a <= registryOffset b \/ registryOffset b + 2 * experts * f_rowBytes b <= registryOffset a.

(** What an accepted layout has of its arguments. *)
Record layout_of (args : TileXRMoonEpPrefetchWeightArgsV1) (commArgs : CommArgs) (registry : TileXRUDMARegistry) (qpNum : Z) (l : PrefetchWeightLayout) : Prop := {
  lo_rank : f_rank l = ca_rank commArgs /\ f_rankSize l = ca_rankSize commArgs /\ f_qpNum l = qpNum;
  lo_ranks : 0 <= f_rank l < f_rankSize l /\ f_rankSize l <= 128;
  lo_qps : 1 <= qpNum;
  lo_registry : UDMARegistryValid (Some registry) (ca_rankSize commArgs) = true;
  lo_comm : Z.land (extraFlag commArgs) ExtraFlag_UDMA <> 0 /\ is_Some (udmaInfoPtr commArgs) /\ is_Some (udmaRegistryPtr commArgs);
  lo_slots : 0 < f_prefetchSlots l <= f_expertsPerRank l;
  lo_rows : exists gate up down, fa_gate args = Some gate /\ fa_up args = Some up /\ fa_down args = Some down /\
    registered registry (f_rank l) (f_expertsPerRank l) gate (f_gate l) /\ registered registry (f_rank l) (f_expertsPerRank l) up (f_up l) /\
    registered registry (f_rank l) (f_expertsPerRank l) down (f_down l);
  lo_apart : rows_apart (f_expertsPerRank l) (f_gate l) (f_up l) /\ rows_apart (f_expertsPerRank l) (f_gate l) (f_down l) /\
    rows_apart (f_expertsPerRank l) (f_up l) (f_down l)
}.

Lemma layout_registered args commArgs registry qpNum ov l : 0 <= qpNum <= UINT32_MAX ->
  (forall t, (fa_gate args = Some t \/ fa_up args = Some t \/ fa_down args = Some t) -> is_u64 (elementCount t)) ->
  TileXRMoonEpBuildPrefetchWeightLayout args commArgs registry qpNum ov = Some l ->
  layout_of args commArgs registry qpNum l /\ workers_chosen ov qpNum (f_prefetchSlots l) (f_blockDim l) /\
  forall w, 0 <= w < f_blockDim l ->
    TileXRMoonEpPrefetchWeightPhysicalQp (physicalQpMap l) w < qpNum /\
    forall v, 0 <= v < f_blockDim l ->
      TileXRMoonEpPrefetchWeightPhysicalQp (physicalQpMap l) v = TileXRMoonEpPrefetchWeightPhysicalQp (physicalQpMap l) w -> v = w.
Proof.
  intros Hqp Hel H. unfold TileXRMoonEpBuildPrefetchWeightLayout in H.
  destruct (PlanValid _ _ _) as [s|] eqn:Ep; [|done]. cbn [mbind option_bind] in H. destruct (fa_plan args) as [p|] eqn:Eplan; [|done].
  cbn [mbind option_bind] in H. case_if_in H; [done|]. b2p. cbv zeta in H.
  destruct (fa_gate args) as [gate|] eqn:Eg; [|done]. destruct (fa_up args) as [up|] eqn:Eu; [|done].
  destruct (fa_down args) as [down|] eqn:Ed; [|done]. cbn [mbind option_bind] in H. case_if_in H; [done|].
  destruct (BuildProjection (Some gate) _ _ _) as [[gateAt gateEnd]|] eqn:Bg; [|done]. cbn [mbind option_bind] in H.
  destruct (BuildProjection (Some up) _ _ _) as [[upAt upEnd]|] eqn:Bu; [|done]. cbn [mbind option_bind] in H.
  destruct (BuildProjection (Some down) _ _ _) as [[downAt downEnd]|] eqn:Bd; [|done]. cbn [mbind option_bind] in H. case_if_in H; [done|].
  destruct (ParseWorkerOverride _ _) as [first|] eqn:Ew; [|done]. cbn [mbind option_bind] in H.
  match type of H with (if ?b then _ else _) = _ => destruct b eqn:Ec; [done|] end. apply orb_false_iff in Ec as [Ec1%Z.ltb_ge Ec2].
  destruct (TileXRMoonEpBuildPrefetchWeightQpMap _ _ _) as [map|] eqn:Em; [|done]. cbn [mbind option_bind] in H. injection H as <-.
  apply projection_registered in Bg as (t1 & [= <-] & Rg & ->); [|intros t [= ->]; auto].
  apply projection_registered in Bu as (t2 & [= <-] & Ru & ->); [|intros t [= ->]; auto].
  apply projection_registered in Bd as (t3 & [= <-] & Rd & ->); [|intros t [= ->]; auto].
  match goal with Hr : (_ || _ || _) = false |- _ => apply orb_false_iff in Hr as [[R1 R2]%orb_false_iff R3] end. apply ranges_apart in R1, R2, R3.
  pose proof Ep as Hpos. cbn [PlanValid] in Hpos. case_if_in Hpos; [done|]. b2p. unfold INT32_MAX in *. rewrite (u32_small (p_b p)) in * by lia.
  split; [constructor; cbn [f_rank f_rankSize f_qpNum f_expertsPerRank f_gate f_up f_down f_prefetchSlots]|].
  1: done. 1: lia. 1: lia. 1: done. 1: split; [done|split; eapply bool_decide_eq_true_1; eassumption]. 1: lia. 1: by exists gate, up, down. 1: done.
  cbn [f_prefetchSlots f_blockDim physicalQpMap]. split; [apply chosen_workers; (assumption || lia || by apply andb_false_iff)|]. by apply qp_map_spec in Em as (_ & _ & Hm).
Qed.

(** What a launch that was prepared has of its arguments. *)
Lemma prepared_layout c args stream ov params ctx : TileXRMoonEpPreparePrefetchWeightLaunch c (Some args) stream ov = inl (params, ctx) ->
  exists registry qpNum gate up down, TileXRGetUDMARegistryHost c = (TILEXR_SUCCESS, Some registry) /\ TileXRUDMAGetQpCount c = (TILEXR_SUCCESS, qpNum) /\
    TileXRMoonEpBuildPrefetchWeightLayout args (hostArgs ctx) registry qpNum ov = Some (lc_layout ctx) /\
    fa_gate args = Some gate /\ fa_up args = Some up /\ fa_down args = Some down /\ wp_gate params = t_data gate /\ wp_up params = t_data up /\ wp_down params = t_data down.
Proof.
  unfold TileXRMoonEpPreparePrefetchWeightLaunch. destruct (fa_plan args) as [plan|]; [|done]. destruct (fa_gate args) as [gate|]; [|done].
  destruct (fa_up args) as [up|]; [|done]. destruct (fa_down args) as [down|]; [|done]. case_if; [done|].
  destruct (TileXRGetCommArgsHost c) as [ret [h|]]; (case_if; [done|]); [|done]. case_if; [done|]. case_if; [done|].
  destruct (TileXRGetUDMARegistryHost c) as [rr [r|]]; destruct (TileXRUDMAGetQpCount c) as [qr q]; [|done].
  destruct (negb (rr =? TILEXR_SUCCESS) || negb (qr =? TILEXR_SUCCESS)) eqn:Er; [done|]. b2p. destruct (TileXRMoonEpBuildPrefetchWeightLayout _ _ _ _ _) as [l|] eqn:El; [|done].
  destruct (TileXRGetCommArgsDev c) as [dr dev]. case_if; [done|]. case_if; [done|]. intros [= <- <-]. exists r, q, gate, up, down. subst. done.
Qed.

(** C36: the layout of the weight prefetch. When a layout is accepted, the rows of the three weight
    tensors are in the memory that the rank has registered, aligned to 64 bytes: all the rows,
    the borrowed ones too, in its own region, and the rows of its own experts in the region of
    every rank, at the same offset, so that each read of a copy and each write is inside a
    registered region; the three blocks do not overlap. The number of workers is 1, 2, 4 or 8, at
    most the number of queue pairs and of borrowed slots; it is the number the override names, or
    without an override the largest such number. Each worker has a queue pair of its own. *)
Theorem prefetch_rows_registered args commArgs registry qpNum ov : 0 <= qpNum <= UINT32_MAX ->
  (forall t, (fa_gate args = Some t \/ fa_up args = Some t \/ fa_down args = Some t) -> is_u64 (elementCount t)) ->
  forall l, TileXRMoonEpBuildPrefetchWeightLayout args commArgs registry qpNum ov = Some l ->
   (exists gate up down, fa_gate args = Some gate /\ fa_up args = Some up /\ fa_down args = Some down /\
      registered registry (f_rank l) (f_expertsPerRank l) gate (f_gate l) /\ registered registry (f_rank l) (f_expertsPerRank l) up (f_up l) /\
      registered registry (f_rank l) (f_expertsPerRank l) down (f_down l)) /\
   rows_apart (f_expertsPerRank l) (f_gate l) (f_up l) /\ rows_apart (f_expertsPerRank l) (f_gate l) (f_down l) /\
   rows_apart (f_expertsPerRank l) (f_up l) (f_down l) /\
   0 < f_prefetchSlots l <= f_expertsPerRank l /\ workers_chosen ov qpNum (f_prefetchSlots l) (f_blockDim l) /\
   forall w, 0 <= w < f_blockDim l ->
     TileXRMoonEpPrefetchWeightPhysicalQp (physicalQpMap l) w < qpNum /\
     forall v, 0 <= v < f_blockDim l ->
       TileXRMoonEpPrefetchWeightPhysicalQp (physicalQpMap l) v = TileXRMoonEpPrefetchWeightPhysicalQp (physicalQpMap l) w -> v = w.
Proof.
  intros Hqp Hel l H. destruct (layout_registered _ _ _ _ _ _ Hqp Hel H) as ([_ _ _ _ _ Hs Hr (H1 & H2 & H3)] & Hw & Hm). done.
Qed.

(** ** Three tensors *)

Module SamplePrefetch.
(** Four experts of a rank and two borrowed slots, in regions of 16 MiB. *)
Definition tensor (data : Z) : option TileXRMoonEpTensorV1 :=
  Some {| t_structSize := 64; t_abiVersion := 1; t_data := data; elementCount := 8 * 1024; dtype := TILEXR_MOONEP_DTYPE_BFLOAT16; t_rank := 2;
    shape := fun d => if d =? 0 then 8 else if d =? 1 then 1024 else 0 |}.
Definition registry : TileXRUDMARegistry :=
  {| rg_magic := TILEXR_UDMA_REGISTRY_MAGIC; rg_version := TILEXR_UDMA_REGISTRY_VERSION; rg_rankSize := 4; rg_regionCount := 1;
     rg_regions := fun rank => {| rd_base := 65536 * (rank + 1); rd_bytes := 16777216 |} |}.
Definition args : TileXRMoonEpPrefetchWeightArgsV1 :=
  {| fa_structSize := 56; fa_abiVersion := 1; fa_comm := 512; fa_plan := SampleCombine.plan; fa_gate := tensor 131072; fa_up := tensor 262144; fa_down := tensor 393216; fa_flags := 0 |}.
(** The queues themselves are not looked at. *)
Definition info : UDMAInfo :=
  {| UdmaTypes.qpNum := 32; sqPtr := 8; scqPtr := 16; memPtr := 24;
     wq_entries := fun _ => {| wq_bufAddr := 0; wq_baseBkShift := 6; wq_depth := 4; wq_headAddr := 0; wq_tailAddr := 0; wq_dbAddr := 0; wq_localTokenId := 0; wqeCntAddr := 0 |};
     cq_entries := fun _ => {| cq_bufAddr := 0; cq_baseBkShift := 6; cq_depth := 4; cq_tailAddr := 0; cq_dbAddr := 0 |};
     mem_entries := fun _ => {| tokenValueValid := true; mi_rmtJettyType := 1; mi_targetHint := 2; mi_tpn := 3; mi_tid := 4; mi_rmtTokenValue := 6; eidAddr := 256 |} |}.
Definition comm : CommArgs :=
  {| ca_rank := 1; ca_rankSize := 4; extraFlag := Z.lor ExtraFlag_UDMA ExtraFlag_UDMA_SHARED_QP;
     udmaInfoPtr := Some info; udmaRegistryPtr := Some registry |}.
Definition layout (ov : option string) : option PrefetchWeightLayout := TileXRMoonEpBuildPrefetchWeightLayout args comm registry 32 ov.
End SamplePrefetch.

Lemma prefetch_rows_registered_witness : exists l, SamplePrefetch.layout (Some "2"%string) = Some l /\ f_blockDim l = 2 /\
  rows_apart (f_expertsPerRank l) (f_gate l) (f_up l) /\ workers_chosen (Some "2"%string) 32 (f_prefetchSlots l) (f_blockDim l).
Proof.
  destruct (SamplePrefetch.layout (Some "2"%string)) as [l|] eqn:E; [|vm_compute in E; discriminate E]. exists l.
  destruct (prefetch_rows_registered SamplePrefetch.args SamplePrefetch.comm SamplePrefetch.registry 32 (Some "2"%string)) with (l := l) as (_ & H1 & _ & _ & _ & H2 & _).
  - split; vm_compute; discriminate.
  - intros t [H|[H|H]]; injection H as <-; split; vm_compute; discriminate.
  - exact E.
  - split; [reflexivity|]. split; [vm_compute in E; injection E as <-; reflexivity|]. split; assumption.
Defined.
