(* ===== verification/PrefetchKernel.v ===== *)
(** The kernel of the weight prefetch (src/src/moonep/prefetch_weight/kernels/
    tilexr_moonep_prefetch_weight_kernel.cpp) and its launch: every worker reads the rows of the
    experts that its rank borrows from their owners, over the queues of UdmaOps, and the workers agree on one status word.
    The words of the completion queues are a function of time, as in UdmaQueue; the cache
    maintenance is not modelled. *)
From S2P Require Import Prelude CombineWire UdmaTypes UdmaQueue UdmaOps StagePrefetch.

Definition kMaxTrackedRankSize : Z := TILEXR_MAX_RANK_SIZE.
Definition kUsedPeerWordCount : Z := kMaxTrackedRankSize / 64.

Definition kPrefetchWeightStatusSuccess : Z := 4000.
Definition kPrefetchWeightStatusInvalidRuntime : Z := 4001.
Definition kPrefetchWeightStatusInvalidExpert : Z := 4002.
Definition kPrefetchWeightStatusLocalExpert : Z := 4003.
Definition kPrefetchWeightStatusCqErrorBase : Z := 4100.
Definition kPrefetchWeightStatusSubmitErrorBase : Z := 4200.
Definition kPrefetchWeightStatusCqInvalidUnsupported : Z := 4301.
Definition kPrefetchWeightStatusCqInvalidQueue : Z := 4302.
Definition kPrefetchWeightStatusCqInvalidInfo : Z := 4303.
Definition kPrefetchWeightStatusCqInvalidContext : Z := 4304.
Definition kPrefetchWeightStatusCqInvalidCompletionDepth : Z := 4305.
Definition kPrefetchWeightStatusCqInvalidSqOutstanding : Z := 4306.
Definition kPrefetchWeightStatusCqInvalidCompletedBb : Z := 4307.
Definition kPrefetchWeightStatusCqInvalidUnknown : Z := 4308.

(** The fields of a kernel. A pointer that is only tested and dereferenced is an option; the scratch
    buffer is the one [Init] takes from the pipe. *)
Record PrefetchWeightKernel := {
  args_ : option CommArgs; expertsToCopy_ : option (Z -> Z); projections_ : Z -> Z; status_ : Z; offsets_ : Z -> Z; rowBytes_ : Z -> Z;
  expertsPerRank_ : Z; prefetchSlots_ : Z; rank_ : Z; rankSize_ : Z; qpNum_ : Z; worker_ : Z; workerCount_ : Z; physicalQp_ : Z; wqeBuf_ : Scratch
}.

(** Where a worker runs. *)
Record Block := { block_idx : Z; block_num : Z; subblockdim : Z; subblockid : Z }.

Definition Init (b : Block) (wqeBuf : Scratch) (commArgs : option CommArgs) (expertsToCopy : option (Z -> Z)) (gate up down status gateOffset upOffset downOffset
    gateRowBytes upRowBytes downRowBytes rank rankSize expertsPerRank prefetchSlots qpNum physicalQpMap : Z) : PrefetchWeightKernel :=
  let worker := (block_idx b * subblockdim b + subblockid b)%u32 in
  {| args_ := commArgs; expertsToCopy_ := expertsToCopy;
     projections_ := fun p => if p =? 0 then gate else if p =? 1 then up else down;
     offsets_ := fun p => if p =? 0 then gateOffset else if p =? 1 then upOffset else downOffset;
     rowBytes_ := fun p => if p =? 0 then gateRowBytes else if p =? 1 then upRowBytes else downRowBytes;
     status_ := status; expertsPerRank_ := expertsPerRank; prefetchSlots_ := prefetchSlots; rank_ := rank; rankSize_ := rankSize; qpNum_ := qpNum;
     worker_ := worker; workerCount_ := (block_num b * subblockdim b)%u32;
     physicalQp_ := u32 (Z.land (Z.shiftr physicalQpMap (worker * 8)%u32) 0xFF); wqeBuf_ := wqeBuf |}.

(** The launch: the words of [PrefetchWeightKernelArgs] and the casts of the entry. The pointers to
    [expertsToCopy] and to the status are given by what they point to and by their value. *)
Definition TileXRMoonEpLaunchPrefetchWeightKernel (b : Block) (wqeBuf : Scratch) (devArgs : option CommArgs) (expertsToCopy : option (Z -> Z)) (status : Z)
    (params : PrefetchWeightParams) (layout : PrefetchWeightLayout) : PrefetchWeightKernel :=
  Init b wqeBuf devArgs expertsToCopy (wp_gate params) (wp_up params) (wp_down params) status
    (registryOffset (f_gate layout)) (registryOffset (f_up layout)) (registryOffset (f_down layout))
    (u32 (f_rowBytes (f_gate layout))) (u32 (f_rowBytes (f_up layout))) (u32 (f_rowBytes (f_down layout)))
    (as_int (u32 (f_rank layout))) (as_int (u32 (f_rankSize layout))) (f_expertsPerRank layout) (f_prefetchSlots layout) (u32 (f_qpNum layout)) (physicalQpMap layout).

(** What a worker keeps while it runs: the words of [Process] and the memory of its queues. *)
Record Worker := {
  usedPeers : Z -> Z; completionQueueIds : Z -> Z; completionQueuePeers : Z -> Z; sqTargets : Z -> Z; completionQueueCount : Z;
  workerStatus : Z; k_mem : Mem; k_time : Z
}.

(** [if (workerStatus == 0) workerStatus = code] *)
Definition blame (code : Z) (s : Worker) : Worker :=
  {| usedPeers := usedPeers s; completionQueueIds := completionQueueIds s; completionQueuePeers := completionQueuePeers s; sqTargets := sqTargets s;
     completionQueueCount := completionQueueCount s; workerStatus := if workerStatus s =? 0 then code else workerStatus s; k_mem := k_mem s; k_time := k_time s |}.

(** The memory and the time behind a call. *)
Definition behind (r : Polled) (s : Worker) : Worker :=
  {| usedPeers := usedPeers s; completionQueueIds := completionQueueIds s; completionQueuePeers := completionQueuePeers s; sqTargets := sqTargets s;
     completionQueueCount := completionQueueCount s; workerStatus := workerStatus s; k_mem := po_mem r; k_time := po_time r |}.

Section kernel.
(** The completion queues over time, [TILEXR_UDMA_ARCH_SUPPORTED], and the worker's kernel. *)
Context (hw : Z -> Mem) (arch : bool) (k : PrefetchWeightKernel).

Definition ValidateRuntime : Z :=
  match args_ k with
  | None => kPrefetchWeightStatusInvalidRuntime
  | Some a =>
      if (status_ k =? 0) || negb (bool_decide (is_Some (expertsToCopy_ k))) || (projections_ k 0 =? 0) || (projections_ k 1 =? 0) || (projections_ k 2 =? 0) ||
         (rowBytes_ k 0 =? 0) || (rowBytes_ k 1 =? 0) || (rowBytes_ k 2 =? 0) || (expertsPerRank_ k <=? 0) || (prefetchSlots_ k <=? 0) ||
         (expertsPerRank_ k <? prefetchSlots_ k) || (rank_ k <? 0) || (rankSize_ k <=? rank_ k) || (kMaxTrackedRankSize <? rankSize_ k) ||
         (workerCount_ k =? 0) || (workerCount_ k <=? worker_ k) || (qpNum_ k <=? physicalQp_ k) || negb (UDMARegistryEnabled (Some a)) ||
         negb (ca_rank a =? rank_ k) || negb (ca_rankSize a =? rankSize_ k)
      then kPrefetchWeightStatusInvalidRuntime
      else match GetUDMAInfo (Some a) with
           | Some info => if qpNum info =? qpNum_ k then 0 else kPrefetchWeightStatusInvalidRuntime
           | None => kPrefetchWeightStatusInvalidRuntime
           end
  end.

Definition MarkPeer (used : Z -> Z) (peer : Z) : Z -> Z :=
  let word := Z.shiftr (u32 peer) 6 in upd1 used word (Z.lor (used word) (u64 (Z.shiftl 1 (Z.land (u32 peer) 63)))).

Definition PeerUsed (used : Z -> Z) (peer : Z) : bool :=
  negb (Z.land (used (Z.shiftr (u32 peer) 6)) (u64 (Z.shiftl 1 (Z.land (u32 peer) 63))) =? 0).

Definition queueId (wqCtxEntry : option UDMAWQCtx) : Z :=
  match wqCtxEntry with None => 0 | Some wq => Z.lxor (wq_headAddr wq) (u64 (Z.shiftl (wq_tailAddr wq) 1)) end.

(** The index of the tracked queue, [kMaxTrackedRankSize] when it cannot be tracked. *)
Definition TrackCompletionQueue (wqCtxEntry : option UDMAWQCtx) (peer : Z) (s : Worker) : Z * Worker :=
  let id := queueId wqCtxEntry in
  match loop_ret (fun queue _ => if completionQueueIds s queue =? id then inr queue else inl tt) (seqZ 0 (completionQueueCount s)) tt with
  | inr queue => (queue, s)
  | inl _ =>
      if (id =? 0) || (kMaxTrackedRankSize <=? completionQueueCount s) then (kMaxTrackedRankSize, blame kPrefetchWeightStatusInvalidRuntime s)
      else
        let queue := completionQueueCount s in
        (queue, {| usedPeers := usedPeers s; completionQueueIds := upd1 (completionQueueIds s) queue id;
                   completionQueuePeers := upd1 (completionQueuePeers s) queue peer;
                   sqTargets := upd1 (sqTargets s) queue (match wqCtxEntry with Some wq => ld_dev (k_mem s) (wq_headAddr wq) | None => 0 end);
                   completionQueueCount := (queue + 1)%u32; workerStatus := workerStatus s; k_mem := k_mem s; k_time := k_time s |})
  end.

(** The read of one projection of a slot. *)
Definition submit_projection (owner localExpert slot completionQueue : Z) (s : Worker) (projection : Z) : Worker :=
  let sourceOffset := (offsets_ k projection + localExpert * rowBytes_ k projection)%u64 in
  let destination := (projections_ k projection + (expertsPerRank_ k + slot) * rowBytes_ k projection)%u64 in
  let r := UDMAGetNbiOnQp hw arch (args_ k) (wqeBuf_ k) owner (physicalQp_ k) destination sourceOffset (rowBytes_ k projection) (k_mem s) (k_time s) in
  let s := behind r s in
  if negb (po_status r =? TILEXR_UDMA_STATUS_SUCCESS) && (workerStatus s =? 0)
  then blame (kPrefetchWeightStatusSubmitErrorBase + Z.land (po_status r) 0xFF) s
  else if po_status r =? TILEXR_UDMA_STATUS_SUCCESS
  then {| usedPeers := usedPeers s; completionQueueIds := completionQueueIds s; completionQueuePeers := completionQueuePeers s;
          sqTargets := upd1 (sqTargets s) completionQueue (sqTargets s completionQueue + 1)%u32;
          completionQueueCount := completionQueueCount s; workerStatus := workerStatus s; k_mem := k_mem s; k_time := k_time s |}
  else s.

Definition expert_at (slot : Z) : Z := match expertsToCopy_ k with Some experts => experts (rank_ k * prefetchSlots_ k + slot) | None => 0 end.

(** The body of the loop of [SubmitReads]. *)
Definition submit_slot (slot : Z) (s : Worker) : Worker :=
  let globalExpertCount := expertsPerRank_ k * rankSize_ k in
  let expert := expert_at slot in
  if expert <? 0 then s
  else if globalExpertCount <=? expert then blame kPrefetchWeightStatusInvalidExpert s
  else
    let owner := expert / expertsPerRank_ k in
    if owner =? rank_ k then blame kPrefetchWeightStatusLocalExpert s
    else
      let localExpert := expert mod expertsPerRank_ k in
      let s := {| usedPeers := MarkPeer (usedPeers s) owner; completionQueueIds := completionQueueIds s; completionQueuePeers := completionQueuePeers s;
                  sqTargets := sqTargets s; completionQueueCount := completionQueueCount s; workerStatus := workerStatus s; k_mem := k_mem s; k_time := k_time s |} in
      let workQueueCtx := UDMAGetWQCtx (GetUDMAInfo (args_ k)) (u32 owner) (physicalQp_ k) in
      let '(completionQueue, s) := TrackCompletionQueue workQueueCtx owner s in
      if kMaxTrackedRankSize <=? completionQueue then s
      else fold_left (submit_projection owner localExpert slot completionQueue) (seqZ 0 3) s.

(** [for (slot = worker_; slot < prefetchSlots_; slot += workerCount_)]; a turn adds at least one, so
    that the number of slots is enough fuel. *)
Fixpoint submit_slots (fuel : nat) (slot : Z) (s : Worker) : Worker :=
  match fuel with
  | O => s
  | S f => if slot <? prefetchSlots_ k then submit_slots f (slot + workerCount_ k) (submit_slot slot s) else s
  end.

Definition SubmitReads (s : Worker) : Worker := submit_slots (Z.to_nat (prefetchSlots_ k)) (worker_ k) s.

(** The contexts the wait works on, or [None] when it refuses its arguments. *)
Definition poll_sq_contexts (peer qpIdx : Z) : option (UDMAWQCtx * UDMACQCtx) :=
  if negb arch || negb (UDMAQueueOperationValid (args_ k) peer qpIdx) then None
  else
    info ← GetUDMAInfo (args_ k);
    if (qpNum info =? 0) || (TILEXR_UDMA_DEVICE_MAX_QP_COUNT <? qpNum info) || (qpNum info <=? qpIdx) || (sqPtr info =? 0) || (scqPtr info =? 0) then None
    else
      cq ← UDMAGetSCQCtx (Some info) (u32 peer) qpIdx;
      wq ← UDMAGetWQCtx (Some info) (u32 peer) qpIdx;
      if (wq_headAddr wq =? 0) || (wq_tailAddr wq =? 0) || negb (wq_depth wq =? TILEXR_UDMA_SQ_BB_COUNT) || (cq_bufAddr cq =? 0) || (cq_tailAddr cq =? 0) ||
         (cq_dbAddr cq =? 0) || negb (cq_depth cq =? TILEXR_UDMA_CQ_DEPTH) || (32 <=? cq_baseBkShift cq) ||
         (Z.shiftl 1 (cq_baseBkShift cq) <? sizeof_UDMACqeCtx) then None
      else Some (wq, cq).

(** The wait for a position of the send queue; its loop is the one of [UDMAPollCQUntilSqTail]. *)
Definition PollSqUntil (peer qpIdx sqTarget : Z) (m : Mem) (t : Z) : Polled :=
  match poll_sq_contexts peer qpIdx with
  | None => refused m t
  | Some (wq, cq) =>
      let cqTail := ld_dev m (cq_tailAddr cq) in
      let sqTail := ld_dev m (wq_tailAddr wq) in
      if wq_depth wq <? (sqTarget - sqTail)%u32 then refused m t
      else poll_until hw (Z.to_nat (sqTarget - sqTail)%u32) wq cq sqTarget cqTail sqTail m t
  end.

Definition ClassifyQuietInvalid (peer qpIdx sqTarget : Z) (m : Mem) (t : Z) : Z :=
  if negb arch then kPrefetchWeightStatusCqInvalidUnsupported
  else if negb (UDMAQueueOperationValid (args_ k) peer qpIdx) then kPrefetchWeightStatusCqInvalidQueue
  else
    match GetUDMAInfo (args_ k) with
    | None => kPrefetchWeightStatusCqInvalidInfo
    | Some info =>
        if (qpNum info =? 0) || (TILEXR_UDMA_DEVICE_MAX_QP_COUNT <? qpNum info) || (qpNum info <=? qpIdx) || (sqPtr info =? 0) || (scqPtr info =? 0)
        then kPrefetchWeightStatusCqInvalidInfo
        else
          match UDMAGetWQCtx (Some info) (u32 peer) qpIdx, UDMAGetSCQCtx (Some info) (u32 peer) qpIdx with
          | Some wq, Some cq =>
              if negb (PollContextsValid wq cq) then kPrefetchWeightStatusCqInvalidContext
              else
                let cqTail := ld_dev m (cq_tailAddr cq) in
                let sqTail := ld_dev m (wq_tailAddr wq) in
                let completionCount := (sqTarget - sqTail)%u32 in
                if wq_depth wq <? completionCount then kPrefetchWeightStatusCqInvalidCompletionDepth
                else
                  let sqOutstanding := (ld_dev m (wq_headAddr wq) - sqTail)%u32 in
                  if (sqOutstanding =? 0) || (wq_depth wq <? sqOutstanding) then kPrefetchWeightStatusCqInvalidSqOutstanding
                  else if completionCount =? 0 then kPrefetchWeightStatusCqInvalidUnknown
                  else
                    let completedBb := completed_bb wq sqTail (cqe_entryIdx (hw t (cqe_address cq cqTail + 4))) in
                    if (TILEXR_UDMA_MAX_SQE_BB_NUM <? completedBb) || (sqOutstanding <? completedBb) then kPrefetchWeightStatusCqInvalidCompletedBb
                    else kPrefetchWeightStatusCqInvalidUnknown
          | _, _ => kPrefetchWeightStatusCqInvalidContext
          end
    end.

(** The body of the loop of [CompleteReads]. *)
Definition complete_queue (s : Worker) (queue : Z) : Worker :=
  let peer := completionQueuePeers s queue in
  if negb (PeerUsed (usedPeers s) peer) then blame kPrefetchWeightStatusInvalidRuntime s
  else
    let r := PollSqUntil peer (physicalQp_ k) (sqTargets s queue) (k_mem s) (k_time s) in
    let s := behind r s in
    if negb (po_status r =? 0) && (workerStatus s =? 0)
    then blame (if po_status r =? TILEXR_UDMA_STATUS_INVALID then ClassifyQuietInvalid peer (physicalQp_ k) (sqTargets s queue) (k_mem s) (k_time s)
                else kPrefetchWeightStatusCqErrorBase + Z.land (po_status r) 0xFF) s
    else s.

Definition CompleteReads (s : Worker) : Worker := fold_left complete_queue (seqZ 0 (completionQueueCount s)) s.

(** What a worker does between the first two barriers of [Process]. *)
Definition start (m : Mem) (t : Z) : Worker :=
  {| usedPeers := fun _ => 0; completionQueueIds := fun _ => 0; completionQueuePeers := fun _ => 0; sqTargets := fun _ => 0; completionQueueCount := 0;
     workerStatus := ValidateRuntime; k_mem := m; k_time := t |}.

Definition run_worker (m : Mem) (t : Z) : Worker :=
  let s := start m t in if workerStatus s =? 0 then CompleteReads (SubmitReads s) else s.
End kernel.

(** ** The status word *)

Definition AtomicCas (word expected value : Z) : Z := if word =? expected then value else word.

(** The status word over [Process]: worker 0 clears it before the first barrier, the workers that
    failed swap their codes in before the second, in any [order], and worker 0 closes it. *)
Definition Process (order : list Z) (code : Z -> Z) : Z :=
  let status := fold_left (fun status worker => if code worker =? 0 then status else AtomicCas status 0 (code worker)) order 0 in
  AtomicCas status 0 kPrefetchWeightStatusSuccess.
