(* ===== verification/PrefetchFrame.v ===== *)
(** Several queue pairs in one memory, and the marks of the weight prefetch: what a post or a wait
    on one queue pair leaves of the others, and the set of peers in the words of a worker. *)
From S2P Require Import Prelude CombineWire WqeRing WqeProps UdmaTypes UdmaQueue UdmaOps UdmaRing UdmaPost UdmaProps StagePrefetch PrefetchKernel.

(** ** Peers *)

Lemma land_pow_bit w b : 0 <= b -> (Z.land w (Z.shiftl 1 b) =? 0) = negb (Z.testbit w b).
Proof.
  intros Hb. rewrite Z.shiftl_1_l. destruct (Z.testbit w b) eqn:E.
  - apply Z.eqb_neq. intros H0. assert (Z.testbit (Z.land w (2 ^ b)) b = false) as Hf by (rewrite H0; apply Z.bits_0).
    rewrite Z.land_spec, E, Z.pow2_bits_true in Hf by done. done.
  - apply Z.eqb_eq, Z.bits_inj'. intros n Hn. rewrite Z.bits_0, Z.land_spec, Z.pow2_bits_eqb by done.
    destruct (Z.eqb_spec b n) as [<- |]; [by rewrite E|apply andb_false_r].
Qed.

Lemma peer_used_mark used p q : 0 <= p < kMaxTrackedRankSize -> 0 <= q < kMaxTrackedRankSize ->
  PeerUsed (MarkPeer used p) q = (p =? q) || PeerUsed used q.
Proof.
  unfold kMaxTrackedRankSize, TILEXR_MAX_RANK_SIZE. intros Hp Hq. unfold PeerUsed, MarkPeer. rewrite !(u32_small p), !(u32_small q) by lia.
  assert (forall x, 0 <= x < 128 -> Z.land x 63 = x mod 64 /\ Z.shiftr x 6 = x / 64 /\ 0 <= x mod 64 < 64) as Hx.
  { intros x Hx. split; [by apply (Z.land_ones x 6)|]. split; [by rewrite Z.shiftr_div_pow2|]. apply Z.mod_pos_bound. lia. }
  destruct (Hx p Hp) as (-> & -> & P), (Hx q Hq) as (-> & -> & Q).
  assert (forall b, 0 <= b < 64 -> u64 (Z.shiftl 1 b) = Z.shiftl 1 b) as Hs.
  { intros b Hb. apply u64_small. rewrite Z.shiftl_1_l. split; [apply Z.pow_nonneg; lia|]. change 18446744073709551616 with (2 ^ 64). apply Z.pow_lt_mono_r; lia. }
  rewrite !Hs, !land_pow_bit, !negb_involutive by done || lia. clear Hs Hx. unfold upd1.
  destruct (Z.eqb_spec (q / 64) (p / 64)) as [E|E].
  - rewrite Z.lor_spec, Z.shiftl_1_l, Z.pow2_bits_eqb, orb_comm, E by lia. f_equal.
    destruct (Z.eqb_spec (p mod 64) (q mod 64)), (Z.eqb_spec p q); try done; exfalso; div_lia.
  - destruct (Z.eqb_spec p q) as [-> |]; done.
Qed.

(** ** Queue pairs side by side *)

(** The words of a queue pair. *)
Definition footprint (wq : UDMAWQCtx) (cq : UDMACQCtx) (a : Z) : Prop :=
  a ∈ [wq_headAddr wq; wq_tailAddr wq; wqeCntAddr wq; wq_dbAddr wq; cq_tailAddr cq; cq_dbAddr cq] \/
  wq_bufAddr wq <= a < wq_bufAddr wq + TILEXR_UDMA_SQ_BB_COUNT * TILEXR_UDMA_WQE_BB_BYTES.

(** Memory that is the same outside of a queue pair. *)
Definition same_outside (wq : UDMAWQCtx) (cq : UDMACQCtx) (m m' : Mem) : Prop := forall a, ~ footprint wq cq a -> m' a = m a.

Section frame.
Context (wq : UDMAWQCtx) (cq : UDMACQCtx) (Hctx : contexts_ok wq cq).

Lemma ring_frame m m' log c : ring_ok wq cq m log c -> (forall a, footprint wq cq a -> m' a = m a) -> ring_ok wq cq m' log c.
Proof using Hctx.
  intros [L R Rm H T Cn Cq B] Hs. unfold footprint in Hs. constructor; try done.
  1-4: rewrite Hs; [done|left; rewrite !elem_of_cons; tauto].
  intros n e i H1 H2 H3. rewrite Hs; [by apply B|]. right. by apply word_addr_ring with cq.
Qed.

Lemma posted_outside m m' log entry : posted_mem wq m m' log entry -> same_outside wq cq m m'.
Proof using Hctx.
  intros [_ _ _ P] a Ha. unfold footprint in Ha. apply P; [intros ->; apply Ha; left; rewrite !elem_of_cons; tauto..|].
  intros i _ ->. apply Ha. right. by apply word_addr_ring with cq.
Qed.

Lemma tails_outside m m' : same_but_tails wq cq m m' -> same_outside wq cq m m'.
Proof using Type. intros Hs a Ha. unfold footprint in Ha. apply Hs; intros ->; apply Ha; left; rewrite !elem_of_cons; tauto. Qed.
End frame.

(** A wait takes time. *)
Lemma wait_owner_time hw fuel t addr b t' : wait_owner hw fuel t addr b = Some t' -> t <= t'.
Proof. revert t. induction fuel as [|f IH]; intros t; cbn [wait_owner]; [done|]. case_if; [intros [= ->]; lia|]. intros H%IH. lia. Qed.

Lemma read_entry_time hw cq cqTail t e t' : read_entry hw cq cqTail t = inl (e, t') -> t < t'.
Proof.
  unfold read_entry. cbv zeta. destruct (wait_owner _ _ _ _ _) as [t1|] eqn:E; [|done]. apply wait_owner_time in E. case_if; [done|]. intros [= _ <-]. lia.
Qed.

Lemma poll_until_time hw fuel wq cq target ct st m t : t <= po_time (poll_until hw fuel wq cq target ct st m t).
Proof.
  revert ct st m t. induction fuel as [|f IH]; intros ct st m t; cbn [poll_until]; case_if; try (cbn; lia).
  destruct (read_entry hw cq ct t) as [[e t']|] eqn:Er; [|cbn; lia]. apply read_entry_time in Er. cbv zeta. case_if; [cbn; lia|].
  etransitivity; [|apply IH]. lia.
Qed.
