(* ===== verification/PrefetchReads.v ===== *)
(** The reads of a worker of the weight prefetch: what the loop of [SubmitReads] posts, on queue
    pairs that several owners may share, and what it keeps to wait for them. *)
From S2P Require Import Prelude CombineWire WqeRing WqeProps UdmaTypes UdmaQueue UdmaOps UdmaRing UdmaPost UdmaProps UdmaPut StagePrefetch PrefetchKernel PrefetchFrame.

(** The read of a row: from the owner, of its expert, into a slot, for one of the three weights. *)
Record Read := { r_owner : Z; r_expert : Z; r_slot : Z; r_weight : Z }.

Section reads.
Context (hw : Z -> Mem) (k : PrefetchWeightKernel) (a : CommArgs) (info : UDMAInfo) (registry : TileXRUDMARegistry).
(** The queue pair of an owner; owners may share one. *)
Context (qof : Z -> Z) (W : Z -> UDMAWQCtx) (C : Z -> UDMACQCtx) (MI : Z -> UDMAMemInfo).

Definition is_owner (o : Z) : Prop := 0 <= o < rankSize_ k /\ o <> rank_ k.

(** The queue pairs of a worker: a sound queue to every peer, each with an identity and words of its own. *)
Record fabric : Prop := {
  fb_args : args_ k = Some a;
  fb_scratch : UDMAWqeScratchValid (wqeBuf_ k) = true;
  fb_peer o : is_owner o -> put_peer a info registry o (physicalQp_ k) (W (qof o)) (C (qof o)) (MI o);
  fb_id o : is_owner o -> queueId (Some (W (qof o))) <> 0;
  fb_ids o o' : is_owner o -> is_owner o' -> qof o <> qof o' -> queueId (Some (W (qof o))) <> queueId (Some (W (qof o')));
  fb_apart o o' x : is_owner o -> is_owner o' -> qof o <> qof o' -> footprint (W (qof o)) (C (qof o)) x -> ~ footprint (W (qof o')) (C (qof o')) x
}.

(** The shape of a kernel whose rows are registered. *)
Record kernel_ok : Prop := {
  ko_ranks : 0 <= rank_ k < rankSize_ k /\ rankSize_ k <= kMaxTrackedRankSize;
  ko_slots : 0 < prefetchSlots_ k <= expertsPerRank_ k;
  ko_worker : 0 <= worker_ k < workerCount_ k;
  ko_row p : 0 <= p < 3 -> 0 < rowBytes_ k p < 2 ^ 32;
  ko_source p o e : 0 <= p < 3 -> is_owner o -> 0 <= e < expertsPerRank_ k -> 0 <= offsets_ k p /\ offsets_ k p + e * rowBytes_ k p < 2 ^ 64 /\
    UDMARegisteredOperationValid (Some a) o (physicalQp_ k) (offsets_ k p + e * rowBytes_ k p) (rowBytes_ k p) = true;
  ko_target p : 0 <= p < 3 -> 0 < projections_ k p /\ projections_ k p + 2 * expertsPerRank_ k * rowBytes_ k p <= UINT64_MAX
}.

(** ** What a slot asks for *)

Definition owner_of (slot : Z) : Z := expert_at k slot / expertsPerRank_ k.

Definition borrows (slot : Z) : bool :=
  (0 <=? expert_at k slot) && (expert_at k slot <? expertsPerRank_ k * rankSize_ k) && negb (owner_of slot =? rank_ k).

(** The code of an entry of the plan that no prefetch can serve. *)
Definition slot_code (slot : Z) : Z :=
  if expert_at k slot <? 0 then 0
  else if expertsPerRank_ k * rankSize_ k <=? expert_at k slot then kPrefetchWeightStatusInvalidExpert
  else if owner_of slot =? rank_ k then kPrefetchWeightStatusLocalExpert else 0.

Definition slot_reads (slot : Z) : list Read :=
  if borrows slot
  then map (fun p => {| r_owner := owner_of slot; r_expert := expert_at k slot mod expertsPerRank_ k; r_slot := slot; r_weight := p |}) (seqZ 0 3)
  else [].

Definition r_source (r : Read) : Z := offsets_ k (r_weight r) + r_expert r * rowBytes_ k (r_weight r).
Definition r_target (r : Read) : Z := projections_ k (r_weight r) + (expertsPerRank_ k + r_slot r) * rowBytes_ k (r_weight r).
Definition r_bytes (r : Read) : Z := rowBytes_ k (r_weight r).

(** The entry of a read. *)
Definition says (entry : list Z) (r : Read) : Prop := exists head,
  wqe_decoded (fun i => nth (Z.to_nat i) entry 0) READ (rd_base (rg_regions registry (r_owner r)) + r_source r) (r_target r) (r_bytes r) None
    TILEXR_UDMA_SQE_FLAG_ORDERED_COMPLETION head.

Record read_ok (r : Read) : Prop := {
  ro_owner : is_owner (r_owner r);
  ro_expert : 0 <= r_expert r < expertsPerRank_ k;
  ro_slot : 0 <= r_slot r < prefetchSlots_ k;
  ro_weight : 0 <= r_weight r < 3
}.

Definition post_read (r : Read) (m : Mem) (t : Z) : Polled :=
  UDMAGetNbiOnQp hw true (args_ k) (wqeBuf_ k) (r_owner r) (physicalQp_ k) (r_target r) (r_source r) (r_bytes r) m t.

Lemma read_args r : fabric -> kernel_ok -> read_ok r ->
  UDMARegisteredOperationValid (Some a) (r_owner r) (physicalQp_ k) (r_source r) (r_bytes r) = true /\
  0 <= r_source r < 2 ^ 64 /\ 0 < r_target r < 2 ^ 64 /\ 0 < r_bytes r < 2 ^ 32 /\
  post_args (Some info) (r_owner r) (physicalQp_ k) READ (wqeBuf_ k) (rd_base (rg_regions registry (r_owner r)) + r_source r) (r_target r) (r_bytes r)
    TILEXR_UDMA_SQE_FLAG_ORDERED_COMPLETION None (MI (r_owner r)) /\
  post_widths (rd_base (rg_regions registry (r_owner r)) + r_source r) (r_target r) (r_bytes r) TILEXR_UDMA_SQE_FLAG_ORDERED_COMPLETION None.
Proof using Type.
  intros Hf Hk [R1 R2 R3 R4]. destruct (ko_source Hk _ _ _ R4 R1 R2) as (S0 & S1 & S2). pose proof (ko_row Hk _ R4) as Hrow.
  destruct (ko_target Hk _ R4) as [T1 T2]. pose proof (ko_slots Hk) as Hs. unfold UINT64_MAX in T2.
  assert (0 <= r_source r) as Hs0 by (unfold r_source; nia). fold (r_source r) in S1, S2. fold (r_bytes r) in S2, Hrow.
  assert (0 < r_target r < 2 ^ 64) as Ht by (unfold r_target, r_bytes in *; assert ((expertsPerRank_ k + r_slot r) * rowBytes_ k (r_weight r) <= 2 * expertsPerRank_ k * rowBytes_ k (r_weight r)) by (apply Z.mul_le_mono_nonneg_r; lia); assert (0 <= (expertsPerRank_ k + r_slot r) * rowBytes_ k (r_weight r)) by (apply Z.mul_nonneg_nonneg; lia); change (2 ^ 64) with 18446744073709551616; lia).
  assert (0 <= r_bytes r) as Hb0 by lia. destruct (registered_range a info registry _ _ _ _ _ _ _ (fb_peer Hf _ R1) Hs0 Hb0 S2) as (_ & _ & B & B2).
  pose proof (pp_region _ _ _ _ _ _ _ _ (fb_peer Hf _ R1)) as [_ B3]. unfold UINT64_MAX in B3.
  split; [done|]. split; [lia|]. split; [done|]. split; [done|]. split; constructor; try (done || lia).
  - exact (fb_scratch Hf).
  - exact (pp_mem _ _ _ _ _ _ _ _ (fb_peer Hf _ R1)).
  - exact (pp_eid _ _ _ _ _ _ _ _ (fb_peer Hf _ R1)).
Qed.

Lemma post_read_spec r m t log c : fabric -> kernel_ok -> read_ok r -> let q := qof (r_owner r) in
  ring_ok (W q) (C q) m log c -> room log READ c ->
  let res := post_read r m t in
  po_status res = TILEXR_UDMA_STATUS_SUCCESS /\ po_time res = t /\ same_outside (W q) (C q) m (po_mem res) /\
  exists entry, entry_bb entry = 1 /\ says entry r /\ ring_ok (W q) (C q) (po_mem res) (log ++ [entry]) c.
Proof using Type.
  intros Hf Hk Hr q Hring Hroom. cbv zeta. destruct (read_args r Hf Hk Hr) as (Hv & Hs & Ht & Hb & Hpa & Hpw). pose proof (ro_owner _ Hr) as Ho.
  pose proof (fb_peer Hf _ Ho) as Hp. fold q in Hp. pose proof (pp_queue _ _ _ _ _ _ _ _ Hp) as Hq. pose proof (qa_contexts _ _ _ _ _ Hq) as Hctx.
  assert (0 <= r_bytes r) as Hb0 by lia. destruct (registered_range a info registry _ _ _ _ _ _ _ Hp (proj1 Hs) Hb0 Hv) as (Hqv & Ea & _ & _).
  assert (post_read r m t = submit READ true (Some info) (W q) (rd_base (rg_regions registry (r_owner r)) + r_source r) (r_target r) (r_owner r) (physicalQp_ k)
     (r_bytes r) None TILEXR_UDMA_SQE_FLAG_ORDERED_COMPLETION m t) as ->.
  { unfold post_read, UDMAGetNbiOnQp. rewrite (fb_args Hf), Hv, (proj2 (Z.eqb_neq (r_target r) 0)) by lia. cbn [negb orb andb].
    unfold UDMARead. rewrite Hqv, Ea. cbn [andb]. unfold GetUDMAInfo. cbn [mbind option_bind]. rewrite (pp_info _ _ _ _ _ _ _ _ Hp).
    by apply (post_send_room (Some info) (r_owner r) (physicalQp_ k) (W q) (C q) Hq hw log _ _ _ _ _ _ _ (MI (r_owner r)) true m t c). }
  destruct (submit_spec (W q) (C q) Hctx READ true (Some info) (rd_base (rg_regions registry (r_owner r)) + r_source r) (r_target r) (r_owner r) (physicalQp_ k)
     (r_bytes r) None TILEXR_UDMA_SQE_FLAG_ORDERED_COMPLETION m t log c (MI (r_owner r)) Hring (pa_mem _ _ _ _ _ _ _ _ _ _ _ Hpa) (pa_eid _ _ _ _ _ _ _ _ _ _ _ Hpa) ltac:(done))
    as (S1 & S2 & S3 & S4 & S5 & _).
  split; [done|]. split; [done|]. split; [by eapply posted_outside|]. eexists. split; [exact S4|]. split.
  - exists (position log (posted log)). apply wqe_fields; [|done|done].
    pose proof (position_le log 0 (posted log) (ri_log _ _ _ _ _ Hring) ltac:(unfold posted; lia) ltac:(lia)) as Hle. rewrite position_0 in Hle. unfold posted in *. lia.
  - eapply push; [done|done|done| |done]. rewrite S4. exact Hroom.
Qed.

(** ** What has been posted *)

Context (logs0 : Z -> list (list Z)) (R : Z -> Z).

(** The reads on a queue pair. *)
Definition on (q : Z) (rs : list Read) : list Read := List.filter (fun r => qof (r_owner r) =? q) rs.

(** Behind the posts of [rs]: the queues hold their entries behind what was there, and each queue in
    use is tracked with the position behind its last entry. *)
Record posted_reads (rs : list Read) (logs : Z -> list (list Z)) (tr : list Z) (s : Worker) : Prop := {
  ps_ring o : is_owner o -> ring_ok (W (qof o)) (C (qof o)) (k_mem s) (logs (qof o)) (R (qof o));
  ps_log q : exists entries, logs q = logs0 q ++ entries /\ Forall2 says entries (on q rs) /\ Forall (fun e => entry_bb e = 1) entries;
  ps_count : completionQueueCount s = Z.of_nat (length tr);
  ps_nodup : NoDup (qof <$> tr);
  ps_tracked j o : tr !! j = Some o -> is_owner o /\ completionQueueIds s (Z.of_nat j) = queueId (Some (W (qof o))) /\
    completionQueuePeers s (Z.of_nat j) = o /\ PeerUsed (usedPeers s) o = true /\
    sqTargets s (Z.of_nat j) = u32 (position (logs (qof o)) (posted (logs (qof o))));
  ps_cover r : r ∈ rs -> qof (r_owner r) ∈ qof <$> tr
}.

Lemma position_posted log : position log (posted log) = zsum entry_bb log.
Proof using Type. unfold position, posted. by rewrite Nat2Z.id, firstn_all. Qed.

Lemma zsum_ones es : Forall (fun e => entry_bb e = 1) es -> zsum entry_bb es = Z.of_nat (length es).
Proof using Type. induction 1 as [|e es He _ IH]; [done|]. rewrite zsum_cons, IH, He. cbn [length]. lia. Qed.

Lemma on_length q rs : (length (on q rs) <= length rs)%nat.
Proof using Type. apply filter_length_le. Qed.

(** Room for [N] more reads on every queue. *)
Definition roomy (N : Z) : Prop := forall o, is_owner o -> 0 <= R (qof o) <= posted (logs0 (qof o)) /\
  position (logs0 (qof o)) (posted (logs0 (qof o))) + N - position (logs0 (qof o)) (R (qof o)) <= TILEXR_UDMA_SQ_BB_COUNT.

Lemma posted_room N rs logs tr s o : roomy N -> posted_reads rs logs tr s -> is_owner o -> Z.of_nat (length rs) < N -> room (logs (qof o)) READ (R (qof o)).
Proof using Type.
  intros Hro Hps Ho Hlen. destruct (Hro o Ho) as [H1 H2]. destruct (ps_log _ _ _ _ Hps (qof o)) as (es & -> & Hes & Hone).
  unfold room. rewrite (position_app _ _ (R (qof o))) by done. rewrite position_posted, zsum_app, <- (position_posted (logs0 (qof o))), (zsum_ones es) by done.
  rewrite (Forall2_length _ _ _ Hes). pose proof (on_length (qof o) rs). change (UDMAWqeBBCnt READ) with 1. lia.
Qed.

(** ** One read *)

Lemma submit_projection_eq r j s : fabric -> kernel_ok -> read_ok r ->
  submit_projection hw true k (r_owner r) (r_expert r) (r_slot r) j s (r_weight r) =
  let res := post_read r (k_mem s) (k_time s) in
  let s := behind res s in
  if po_status res =? TILEXR_UDMA_STATUS_SUCCESS
  then {| usedPeers := usedPeers s; completionQueueIds := completionQueueIds s; completionQueuePeers := completionQueuePeers s;
          sqTargets := upd1 (sqTargets s) j (u32 (sqTargets s j + 1)); completionQueueCount := completionQueueCount s; workerStatus := workerStatus s;
          k_mem := k_mem s; k_time := k_time s |}
  else if workerStatus s =? 0 then blame (kPrefetchWeightStatusSubmitErrorBase + Z.land (po_status res) 0xFF) s else s.
Proof using Type.
  intros Hf Hk Hr. destruct (read_args r Hf Hk Hr) as (_ & Hs & Ht & Hb & _). unfold submit_projection. cbv zeta.
  assert (u64 (offsets_ k (r_weight r) + u64 (r_expert r * rowBytes_ k (r_weight r))) = r_source r) as ->.
  { unfold r_source, u64 in *. rewrite Zplus_mod_idemp_r. apply Z.mod_small. lia. }
  assert (u64 (projections_ k (r_weight r) + u64 (u64 (expertsPerRank_ k + r_slot r) * rowBytes_ k (r_weight r))) = r_target r) as ->.
  { unfold r_target, u64 in *. rewrite Zmult_mod_idemp_l, Zplus_mod_idemp_r. apply Z.mod_small. lia. }
  fold (r_bytes r). fold (post_read r (k_mem s) (k_time s)). destruct (_ =? TILEXR_UDMA_STATUS_SUCCESS); cbn [negb andb]; [done|]. by destruct (_ =? 0).
Qed.

Lemma on_snoc q rs r : on q (rs ++ [r]) = if qof (r_owner r) =? q then on q rs ++ [r] else on q rs.
Proof using Type. unfold on. rewrite List.filter_app. cbn [List.filter]. case_if; [done|apply app_nil_r]. Qed.

Lemma projection_posts N rs logs tr s r j o : fabric -> kernel_ok -> roomy N -> posted_reads rs logs tr s -> read_ok r -> Z.of_nat (length rs) < N ->
  tr !! j = Some o -> qof o = qof (r_owner r) ->
  let s' := submit_projection hw true k (r_owner r) (r_expert r) (r_slot r) (Z.of_nat j) s (r_weight r) in
  workerStatus s' = workerStatus s /\ k_time s' = k_time s /\ exists logs', posted_reads (rs ++ [r]) logs' tr s'.
Proof using Type.
  intros Hf Hk Hro Hps Hr Hlen Hj Eo. cbv zeta. rewrite submit_projection_eq by done. set (q := qof (r_owner r)) in *.
  pose proof (posted_room N rs logs tr s _ Hro Hps (ro_owner _ Hr) Hlen) as Hroom. fold q in Hroom.
  destruct (post_read_spec r (k_mem s) (k_time s) (logs q) (R q) Hf Hk Hr (ps_ring _ _ _ _ Hps _ (ro_owner _ Hr)) Hroom)
    as (E1 & E2 & Hout & entry & Ebb & Hsays & Hring).
  cbv zeta. rewrite E1. cbn [Z.eqb TILEXR_UDMA_STATUS_SUCCESS]. change (TILEXR_UDMA_STATUS_SUCCESS =? TILEXR_UDMA_STATUS_SUCCESS) with true. cbv iota.
  cbn [workerStatus behind k_time]. split; [done|]. split; [done|]. exists (upd1 logs q (logs q ++ [entry])).
  constructor; cbn [k_mem k_time usedPeers completionQueueIds completionQueuePeers sqTargets completionQueueCount workerStatus behind].
  - intros o' Ho'. destruct (Z.eq_dec (qof o') q) as [-> |Hne]; [by rewrite upd1_eq|]. rewrite upd1_ne by done.
    eapply ring_frame; [exact (qa_contexts _ _ _ _ _ (pp_queue _ _ _ _ _ _ _ _ (fb_peer Hf _ Ho')))|exact (ps_ring _ _ _ _ Hps _ Ho')|].
    intros x Hx. apply Hout. by eapply (fb_apart Hf o' (r_owner r) x Ho' (ro_owner _ Hr)).
  - intros q'. destruct (ps_log _ _ _ _ Hps q') as (es & El & Hes & Hone). rewrite on_snoc. fold q. destruct (Z.eqb_spec q q') as [<- |Hne].
    + rewrite upd1_eq, El. exists (es ++ [entry]). split; [by rewrite app_assoc|]. split; [apply Forall2_app; [done|by constructor]|].
      apply Forall_app. split; [done|by constructor].
    + rewrite upd1_ne by done. by exists es.
  - exact (ps_count _ _ _ _ Hps).
  - exact (ps_nodup _ _ _ _ Hps).
  - intros j' o' Hj'. destruct (ps_tracked _ _ _ _ Hps j' o' Hj') as (T1 & T2 & T3 & T4 & T5). split_and!; try done.
    destruct (decide (j' = j)) as [-> |Hne].
    + rewrite Hj in Hj'. injection Hj' as <-. rewrite upd1_eq, T5, Eo, upd1_eq, u32_add.
      rewrite !position_posted, zsum_app, zsum_cons, Ebb; done.
    + rewrite upd1_ne by lia. rewrite upd1_ne; [done|]. rewrite <- Eo. intros E. apply Hne.
      eapply (NoDup_lookup (qof <$> tr)); [exact (ps_nodup _ _ _ _ Hps)|rewrite list_lookup_fmap, Hj'; done|rewrite list_lookup_fmap, Hj]. cbn. by rewrite E.
  - intros r' [Hr'|Hr'%list_elem_of_singleton]%elem_of_app; [by apply (ps_cover _ _ _ _ Hps)|]. subst r'. fold q. rewrite <- Eo.
    apply list_elem_of_fmap_2. by eapply list_elem_of_lookup_2.
Qed.

(** ** The queue of an owner *)

(** The search for a tracked queue. *)
Lemma find_queue ids id n : 0 <= n ->
  match loop_ret (fun queue (_ : unit) => if ids queue =? id then inr queue else inl tt) (seqZ 0 n) tt with
  | inr queue => 0 <= queue < n /\ ids queue = id
  | inl _ => forall queue, 0 <= queue < n -> ids queue <> id
  end.
Proof using Type.
  intros Hn. apply (loop_ret_range (fun m _ => forall queue, 0 <= queue < m -> ids queue <> id) (fun queue => 0 <= queue < n /\ ids queue = id)); [|done|lia].
  intros i _ Hi HI. destruct (Z.eqb_spec (ids i) id) as [E|E]; [done|]. intros queue Hq. destruct (Z.eq_dec queue i) as [-> |]; [done|]. apply HI. lia.
Qed.

Lemma tracked_bound tr : kernel_ok -> Forall is_owner tr -> NoDup tr -> Z.of_nat (length tr) <= kMaxTrackedRankSize.
Proof using Type.
  intros Hk Hall Hnd. assert (tr ⊆+ seqZ 0 (rankSize_ k)) as Hsub.
  { apply NoDup_submseteq; [done|]. rewrite Forall_forall in Hall. intros x Hx. apply elem_of_seqZ. destruct (Hall x Hx). lia. }
  apply submseteq_length in Hsub. rewrite length_seqZ in Hsub. pose proof (ko_ranks Hk). lia.
Qed.

(** The worker behind [MarkPeer]. *)
Definition marked (o : Z) (s : Worker) : Worker :=
  {| usedPeers := MarkPeer (usedPeers s) o; completionQueueIds := completionQueueIds s; completionQueuePeers := completionQueuePeers s;
     sqTargets := sqTargets s; completionQueueCount := completionQueueCount s; workerStatus := workerStatus s; k_mem := k_mem s; k_time := k_time s |}.

Lemma owner_tracked o : kernel_ok -> is_owner o -> 0 <= o < kMaxTrackedRankSize.
Proof using Type. intros Hk [Ho _]. pose proof (ko_ranks Hk). lia. Qed.

Lemma mark_posted rs logs tr s o : kernel_ok -> is_owner o -> posted_reads rs logs tr s ->
  posted_reads rs logs tr (marked o s) /\ PeerUsed (usedPeers (marked o s)) o = true.
Proof using Type.
  intros Hk Ho [P1 P2 P3 P4 P5 P6]. split.
  - constructor; try done. intros j o' Hj. destruct (P5 j o' Hj) as (T1 & T2 & T3 & T4 & T5). split_and!; try done.
    cbn [usedPeers marked]. by rewrite peer_used_mark, T4, orb_true_r by by apply owner_tracked.
  - cbn [usedPeers marked]. by rewrite peer_used_mark, Z.eqb_refl by by apply owner_tracked.
Qed.

Lemma track_posted rs logs tr s o : fabric -> kernel_ok -> is_owner o -> PeerUsed (usedPeers s) o = true -> posted_reads rs logs tr s ->
  let '(queue, s') := TrackCompletionQueue (UDMAGetWQCtx (GetUDMAInfo (args_ k)) (u32 o) (physicalQp_ k)) o s in
  workerStatus s' = workerStatus s /\ k_time s' = k_time s /\ queue < kMaxTrackedRankSize /\
  exists j tr' o', queue = Z.of_nat j /\ tr' !! j = Some o' /\ qof o' = qof o /\ (forall x, x ∈ tr' -> x ∈ tr \/ x = o) /\ posted_reads rs logs tr' s'.
Proof using Type.
  intros Hf Hk Ho Hu Hps. pose proof (owner_tracked o Hk Ho) as Hlt. pose proof (fb_peer Hf _ Ho) as Hp.
  assert (UDMAGetWQCtx (GetUDMAInfo (args_ k)) (u32 o) (physicalQp_ k) = Some (W (qof o))) as ->.
  { unfold kMaxTrackedRankSize, TILEXR_MAX_RANK_SIZE in Hlt. rewrite u32_small, (fb_args Hf) by lia. unfold GetUDMAInfo. cbn [mbind option_bind].
    rewrite (pp_info _ _ _ _ _ _ _ _ Hp). exact (qa_wq _ _ _ _ _ (pp_queue _ _ _ _ _ _ _ _ Hp)). }
  unfold TrackCompletionQueue. cbv zeta.
  assert (Forall is_owner tr) as Hall. { apply Forall_lookup. intros j o' Hj. by destruct (ps_tracked _ _ _ _ Hps j o' Hj). }
  pose proof (NoDup_fmap_1 _ _ (ps_nodup _ _ _ _ Hps)) as Hnd. pose proof (find_queue (completionQueueIds s) (queueId (Some (W (qof o)))) (completionQueueCount s) ltac:(rewrite (ps_count _ _ _ _ Hps); lia)) as Hfind.
  rewrite (ps_count _ _ _ _ Hps) in *. destruct (loop_ret _ _ _) as [[]|queue].
  - assert (qof o ∉ qof <$> tr) as Hnew.
    { intros (o' & E & (j & Hj)%list_elem_of_lookup)%list_elem_of_fmap. destruct (ps_tracked _ _ _ _ Hps j o' Hj) as (T1 & T2 & _).
      apply (Hfind (Z.of_nat j)); [apply lookup_lt_Some in Hj; lia|]. by rewrite T2, E. }
    assert (Z.of_nat (length tr) < kMaxTrackedRankSize) as Hcap.
    { assert (Z.of_nat (length (o :: tr)) <= kMaxTrackedRankSize); [|cbn [length] in *; lia]. apply tracked_bound; [done|by constructor|]. constructor; [|done]. intros Hin. apply Hnew. by apply list_elem_of_fmap_2. }
    rewrite (proj2 (Z.eqb_neq _ 0) (fb_id Hf _ Ho)), (proj2 (Z.leb_gt _ _)) by done. cbn [orb workerStatus k_time]. split; [done|]. split; [done|]. split; [done|].
    exists (length tr), (tr ++ [o]), o. split; [done|]. split; [by rewrite list_lookup_middle|]. split; [done|].
    split; [intros x [Hx|Hx%list_elem_of_singleton]%elem_of_app; auto|].
    destruct Hps as [P1 P2 P3 P4 P5 P6]. constructor; cbn [k_mem completionQueueCount completionQueueIds completionQueuePeers usedPeers sqTargets]; try done.
    + unfold kMaxTrackedRankSize, TILEXR_MAX_RANK_SIZE in Hcap. rewrite length_app, u32_small; cbn [length]; lia.
    + rewrite fmap_app. apply NoDup_app. split; [done|]. split; [|by apply NoDup_singleton]. intros x Hx ->%list_elem_of_singleton. done.
    + intros j o' Hj. destruct (decide (j = length tr)) as [-> |Hne].
      * rewrite list_lookup_middle in Hj by done. injection Hj as <-. rewrite !upd1_eq. split_and!; try done. unfold ld_dev. exact (ri_head _ _ _ _ _ (P1 _ Ho)).
      * assert (tr !! j = Some o') as Hj'. { rewrite lookup_app_l in Hj; [done|]. apply lookup_lt_Some in Hj. rewrite length_app in Hj. cbn in Hj. lia. }
        rewrite !upd1_ne by lia. by apply P5.
    + intros r Hr. rewrite fmap_app. apply elem_of_app. left. by apply P6.
  - destruct Hfind as [Hq Eid]. assert (exists j, queue = Z.of_nat j) as [j ->] by (exists (Z.to_nat queue); lia).
    destruct (lookup_lt_is_Some_2 tr j ltac:(lia)) as [o' Hj]. destruct (ps_tracked _ _ _ _ Hps j o' Hj) as (T1 & T2 & _).
    split; [done|]. split; [done|]. split; [pose proof (tracked_bound tr Hk Hall Hnd); lia|]. exists j, tr, o'. split; [done|]. split; [done|]. split; [|split; [auto|done]].
    destruct (Z.eq_dec (qof o') (qof o)) as [E|Hne]; [done|]. exfalso. apply (fb_ids Hf o' o T1 Ho Hne). by rewrite <- T2.
Qed.

(** ** The slots of a worker *)

Lemma borrows_ok slot : kernel_ok -> 0 <= slot < prefetchSlots_ k -> borrows slot = true ->
  forall p, 0 <= p < 3 -> read_ok {| r_owner := owner_of slot; r_expert := expert_at k slot mod expertsPerRank_ k; r_slot := slot; r_weight := p |}.
Proof using Type.
  intros Hk Hs Hb p Hp. unfold borrows in Hb. b2p. pose proof (ko_slots Hk). constructor; cbn [r_owner r_expert r_slot r_weight]; try done; [|apply Z.mod_pos_bound; lia].
  split; [|done]. unfold owner_of. split; [apply Z.div_pos; lia|]. apply Z.div_lt_upper_bound; lia.
Qed.

Definition first_code (codes : list Z) : Z := foldr (fun code rest => if code =? 0 then rest else code) 0 codes.

Lemma first_code_snoc codes c : first_code (codes ++ [c]) = if first_code codes =? 0 then c else first_code codes.
Proof using Type.
  unfold first_code. induction codes as [|d codes IH]; cbn [app foldr]; [destruct (Z.eqb_spec c 0) as [-> |]; done|].
  destruct (d =? 0) eqn:E; [done|]. by rewrite E.
Qed.

Lemma slot_reads_length slots : Z.of_nat (length (flat_map slot_reads slots)) <= 3 * Z.of_nat (length slots).
Proof using Type.
  induction slots as [|x slots IH]; [done|]. cbn [flat_map length]. rewrite length_app. unfold slot_reads at 1. destruct (borrows x); cbn [length map]; [change (length (map _ _)) with 3%nat|]; lia.
Qed.

Lemma first_code_zero codes : first_code codes = 0 <-> Forall (fun c => c = 0) codes.
Proof using Type.
  unfold first_code. induction codes as [|c codes IH]; cbn [foldr]; [done|]. rewrite Forall_cons, <- IH. destruct (Z.eqb_spec c 0) as [E|E].
  - split; [intros H0; by split|by intros [_ H0]].
  - split; [intros H0; by destruct E|intros [H0 _]; by destruct E].
Qed.

(** Behind the slots [done]: their reads are posted, and the status is the code of the first of them that cannot be served. *)
Definition submitted (done : list Z) (t : Z) (s : Worker) : Prop :=
  k_time s = t /\ workerStatus s = first_code (map slot_code done) /\ exists logs tr, posted_reads (flat_map slot_reads done) logs tr s /\
    forall o, o ∈ tr -> exists r, r ∈ flat_map slot_reads done /\ r_owner r = o.

Lemma blame_posted rs logs tr s code : posted_reads rs logs tr s -> posted_reads rs logs tr (blame code s).
Proof using Type. intros [P1 P2 P3 P4 P5 P6]. by constructor. Qed.

Lemma slot_submitted done t s slot : fabric -> kernel_ok -> 0 <= slot < prefetchSlots_ k -> roomy (3 * Z.of_nat (length done) + 3) ->
  submitted done t s -> submitted (done ++ [slot]) t (submit_slot hw true k slot s).
Proof using Type.
  intros Hf Hk Hslot Hro (Et & Es & logs & tr & Hps & Hown). unfold submitted. rewrite map_app, flat_map_app. cbn [map flat_map]. rewrite app_nil_r, first_code_snoc, <- Es.
  unfold submit_slot. cbv zeta. fold (owner_of slot). unfold slot_code, slot_reads. destruct (borrows slot) eqn:Hb.
  - pose proof (borrows_ok slot Hk Hslot Hb) as Hread. unfold borrows in Hb. b2p.
    rewrite (proj2 (Z.ltb_ge _ _)), (proj2 (Z.leb_gt _ _)), (proj2 (Z.eqb_neq _ _)) by done. fold (marked (owner_of slot) s).
    destruct (Hread 0 ltac:(lia)) as [Ho _ _ _]. cbn [r_owner] in Ho. destruct (mark_posted _ _ _ _ _ Hk Ho Hps) as [Hps1 Hu].
    pose proof (track_posted _ _ _ _ _ Hf Hk Ho Hu Hps1) as Ht. destruct (TrackCompletionQueue _ _ _) as [queue s1].
    destruct Ht as (Et1 & Es1 & Hq & j & tr1 & o' & -> & Hj & Eq & Hsub & Hps2). rewrite (proj2 (Z.leb_gt _ _)) by done.
    assert (Z.of_nat (length (flat_map slot_reads done)) <= 3 * Z.of_nat (length done)) as Hlen by apply slot_reads_length.
    change (seqZ 0 3) with [0; 1; 2]. cbn [map fold_left]. set (rd := fun p => {| r_owner := owner_of slot; r_expert := expert_at k slot mod expertsPerRank_ k; r_slot := slot; r_weight := p |}) in *.
    change (expert_at k slot mod expertsPerRank_ k) with (r_expert (rd 0)).
    set (rs := flat_map slot_reads done) in *. set (N := 3 * Z.of_nat (length done) + 3) in *.
    assert (forall x y : Read, Z.of_nat (length (rs ++ [x])) < N /\ Z.of_nat (length ((rs ++ [x]) ++ [y])) < N) as Hl by (intros x y; rewrite !length_app; cbn [length]; lia).
    destruct (projection_posts N rs logs tr1 s1 (rd 0) j o' Hf Hk Hro Hps2 (Hread 0 ltac:(lia)) ltac:(lia) Hj Eq) as (A1 & A2 & logs1 & B1).
    set (s2 := submit_projection hw true k (owner_of slot) (r_expert (rd 0)) slot (Z.of_nat j) s1 0).
    destruct (projection_posts N _ logs1 tr1 s2 (rd 1) j o' Hf Hk Hro B1 (Hread 1 ltac:(lia)) (proj1 (Hl (rd 0) (rd 0))) Hj Eq) as (A3 & A4 & logs2 & B2).
    set (s3 := submit_projection hw true k (owner_of slot) (r_expert (rd 0)) slot (Z.of_nat j) s2 1).
    destruct (projection_posts N _ logs2 tr1 s3 (rd 2) j o' Hf Hk Hro B2 (Hread 2 ltac:(lia)) (proj2 (Hl (rd 0) (rd 1))) Hj Eq) as (A5 & A6 & logs3 & B3).
    change (workerStatus s2 = workerStatus s1) in A1. change (k_time s2 = k_time s1) in A2. change (workerStatus s3 = workerStatus s2) in A3. change (k_time s3 = k_time s2) in A4.
    split; [etransitivity; [exact A6|]; by rewrite A4, A2, Es1|].
    split; [etransitivity; [exact A5|]; rewrite A3, A1, Et1; cbn [marked workerStatus]; by destruct (Z.eqb_spec (workerStatus s) 0)|].
    exists logs3, tr1. rewrite <- !app_assoc in B3. split; [exact B3|]. intros x [Hx| ->]%Hsub.
    + destruct (Hown x Hx) as (r & Hr & Er). exists r. split; [apply elem_of_app; by left|done].
    + exists (rd 0). split; [apply elem_of_app; right; by left|done].
  - rewrite app_nil_r. assert (forall code, (if workerStatus s =? 0 then code else workerStatus s) = workerStatus (blame code s)) as Hbl by done.
    destruct (Z.ltb_spec (expert_at k slot) 0).
    { split; [done|]. split; [by destruct (Z.eqb_spec (workerStatus s) 0)|]. by exists logs, tr. }
    destruct (Z.leb_spec (expertsPerRank_ k * rankSize_ k) (expert_at k slot)); [by split; [|split; [|exists logs, tr; split; [apply blame_posted|]]]|].
    destruct (Z.eqb_spec (owner_of slot) (rank_ k)); [by split; [|split; [|exists logs, tr; split; [apply blame_posted|]]]|].
    exfalso. unfold borrows in Hb. rewrite (proj2 (Z.leb_le _ _)), (proj2 (Z.ltb_lt _ _)), (proj2 (Z.eqb_neq _ _)) in Hb by done. done.
Qed.

Lemma roomy_le N N' : N <= N' -> roomy N' -> roomy N.
Proof using Type. intros Hle Hro o Ho. destruct (Hro o Ho). lia. Qed.

(** The slots of a worker: every [workerCount_]-th from its own number on. *)
Definition mine (slot : Z) : bool := (slot - worker_ k) mod workerCount_ k =? 0.

Lemma no_filter {A} (p : A -> bool) l : (forall x, x ∈ l -> p x = false) -> List.filter p l = [].
Proof using Type. induction l as [|x l IH]; intros H; [done|]. cbn [List.filter]. rewrite H by (rewrite elem_of_cons; by left). apply IH. intros y Hy. apply H. rewrite elem_of_cons. by right. Qed.

(** Between two slots of a worker there is none. *)
Lemma mine_gap slot n : kernel_ok -> mine slot = true -> n <= workerCount_ k - 1 -> List.filter mine (seqZ (slot + 1) n) = [].
Proof using Type.
  intros Hk Hm Hn. apply no_filter. intros x Hx%elem_of_seqZ. unfold mine in *. b2p. pose proof (ko_worker Hk) as Hw.
  replace (x - worker_ k) with (slot - worker_ k + (x - slot)) by lia. rewrite Zplus_mod. 
  match goal with E : _ mod _ = 0 |- _ => rewrite E end. rewrite Z.add_0_l, Zmod_mod, Z.mod_small by lia. apply Z.eqb_neq. lia.
Qed.

Lemma mine_next slot : kernel_ok -> mine slot = true ->
  List.filter mine (seqZ (slot + 1) (prefetchSlots_ k - slot - 1)) = List.filter mine (seqZ (slot + workerCount_ k) (prefetchSlots_ k - (slot + workerCount_ k))).
Proof using Type.
  intros Hk Hm. pose proof (ko_worker Hk) as Hw. destruct (Z.le_gt_cases (prefetchSlots_ k) (slot + workerCount_ k)) as [Hle|Hgt].
  - rewrite (seqZ_nil (slot + workerCount_ k)) by lia. apply mine_gap; [done|done|lia].
  - replace (prefetchSlots_ k - slot - 1) with ((workerCount_ k - 1) + (prefetchSlots_ k - (slot + workerCount_ k))) by lia.
    rewrite seqZ_app by lia. rewrite List.filter_app, mine_gap by (done || lia). cbn [app]. do 2 f_equal. lia.
Qed.

Lemma submit_slots_spec fuel slot done t s : fabric -> kernel_ok -> roomy (3 * prefetchSlots_ k) ->
  mine slot = true -> 0 <= slot -> prefetchSlots_ k - slot <= Z.of_nat fuel -> Z.of_nat (length done) <= slot -> submitted done t s ->
  submitted (done ++ List.filter mine (seqZ slot (prefetchSlots_ k - slot))) t (submit_slots hw true k fuel slot s).
Proof using Type.
  intros Hf Hk Hro. pose proof (ko_worker Hk) as Hw. revert slot done s. induction fuel as [|f IH]; intros slot done s Hmine Hpos Hfuel Hlen Hs; cbn [submit_slots].
  { rewrite seqZ_nil by lia. cbn. by rewrite app_nil_r. }
  destruct (Z.ltb_spec slot (prefetchSlots_ k)) as [Hlt|Hge]; [|rewrite seqZ_nil by lia; cbn; by rewrite app_nil_r].
  rewrite seqZ_cons by lia. cbn [List.filter]. rewrite Hmine. replace (Z.succ slot) with (slot + 1) by lia. replace (Z.pred (prefetchSlots_ k - slot)) with (prefetchSlots_ k - slot - 1) by lia.
  rewrite mine_next by done. change (slot :: ?l) with ([slot] ++ l). rewrite app_assoc. apply IH.
  - unfold mine in *. b2p. replace (slot + workerCount_ k - worker_ k) with (slot - worker_ k + 1 * workerCount_ k) by lia. apply Z.eqb_eq. by rewrite Z_mod_plus_full.
  - lia.
  - lia.
  - rewrite length_app. cbn [length]. lia.
  - apply slot_submitted; [done|done|lia| |done]. eapply roomy_le; [|exact Hro]. lia.
Qed.

(** Behind [SubmitReads]: every slot of the worker is handled, in order. *)
Lemma submit_reads_spec m t : fabric -> kernel_ok -> roomy (3 * prefetchSlots_ k) ->
  (forall o, is_owner o -> ring_ok (W (qof o)) (C (qof o)) m (logs0 (qof o)) (R (qof o))) -> ValidateRuntime k = 0 ->
  submitted (List.filter mine (seqZ (worker_ k) (prefetchSlots_ k - worker_ k))) t (SubmitReads hw true k (start k m t)).
Proof using Type.
  intros Hf Hk Hro Hring Hv. pose proof (ko_worker Hk) as Hw. pose proof (ko_slots Hk). unfold SubmitReads. 
  apply (submit_slots_spec _ (worker_ k) []); try done; [unfold mine; by rewrite Z.sub_diag, Zmod_0_l|lia|lia|cbn; lia|].
  split; [done|]. split; [exact Hv|]. exists logs0, []. split; [|intros o []%not_elem_of_nil]. constructor; try done; [|by constructor|].
  - intros q. exists []. split; [by rewrite app_nil_r|]. by split.
  - intros r []%not_elem_of_nil.
Qed.
End reads.
