(* ===== verification/PrefetchProps.v ===== *)
(** What the weight prefetch guarantees: the wait of a worker, the launch of a layout, the status
    word of all workers. *)
From Stdlib Require Import String Ascii.
From S2P Require Import Prelude CombineWire Layouts WqeRing WqeProps UdmaTypes UdmaQueue UdmaOps UdmaRing UdmaPost UdmaProps UdmaPut StagePrefetch PrefetchKernel PrefetchFrame PrefetchReads.

Section complete.
Context (hw : Z -> Mem) (k : PrefetchWeightKernel) (a : CommArgs) (info : UDMAInfo) (registry : TileXRUDMARegistry).
Context (qof : Z -> Z) (W : Z -> UDMAWQCtx) (C : Z -> UDMACQCtx) (MI : Z -> UDMAMemInfo).
Context (Hf : fabric k a info registry qof W C MI) (Hk : kernel_ok k a).

Lemma owner_valid o : is_owner k o -> UDMAQueueOperationValid (Some a) o (physicalQp_ k) = true.
Proof using Hf Hk.
  intros Ho. pose proof (ko_slots _ _ Hk) as Hs. pose proof (ko_row _ _ Hk 0 ltac:(lia)) as Hr.
  destruct (ko_source _ _ Hk 0 o 0 ltac:(lia) Ho ltac:(lia)) as (S0 & _ & S2).
  rewrite Z.mul_0_l, Z.add_0_r in S2. assert (0 <= rowBytes_ k 0) as Hr0 by lia.
  by destruct (registered_range a info registry _ _ _ _ _ _ _ (fb_peer _ _ _ _ _ _ _ _ Hf _ Ho) S0 Hr0 S2) as (Hv & _).
Qed.

(** The wait of the kernel is the one of the wrapper. *)
Lemma poll_sq_same o target m t : is_owner k o ->
  PollSqUntil hw true k o (physicalQp_ k) target m t = UDMAPollCQUntilSqTail hw (Some info) o (physicalQp_ k) target m t.
Proof using Hf Hk.
  intros Ho. pose proof (owner_tracked k a o Hk Ho) as Hlt. unfold kMaxTrackedRankSize, TILEXR_MAX_RANK_SIZE in Hlt.
  pose proof (fb_peer _ _ _ _ _ _ _ _ Hf _ Ho) as Hp. pose proof (pp_queue _ _ _ _ _ _ _ _ Hp) as Hq.
  unfold PollSqUntil, UDMAPollCQUntilSqTail. rewrite (queue_contexts _ _ _ _ _ Hq).
  assert (poll_sq_contexts true k o (physicalQp_ k) = Some (W (qof o), C (qof o))) as ->; [|done].
  unfold poll_sq_contexts. rewrite (fb_args _ _ _ _ _ _ _ _ Hf), owner_valid by done. cbn [negb orb]. unfold GetUDMAInfo. cbn [mbind option_bind].
  rewrite (pp_info _ _ _ _ _ _ _ _ Hp). cbn [mbind option_bind]. rewrite (u32_small o) by lia. rewrite (qa_wq _ _ _ _ _ Hq), (qa_cq _ _ _ _ _ Hq). cbn [mbind option_bind].
  destruct (qa_info _ _ _ _ _ Hq) as (i & [= <-] & N1 & N2 & N3 & N4 & _). unfold TILEXR_UDMA_DEVICE_MAX_QP_COUNT in *.
  rewrite (proj2 (Z.eqb_neq (qpNum info) 0)), (proj2 (Z.ltb_ge 48 _)), (proj2 (Z.leb_gt (qpNum info) _)), (proj2 (Z.eqb_neq (sqPtr info) 0)), (proj2 (Z.eqb_neq (scqPtr info) 0)) by lia.
  cbn [orb]. pose proof (cx_valid _ _ (qa_contexts _ _ _ _ _ Hq)) as Hv. unfold PollContextsValid in Hv. apply negb_true_iff in Hv. rewrite !orb_false_iff in Hv.
  destruct Hv as [[[[[[[[[[[V1 V2] V3] V4] V5] V6] V7] V8] V9] V10] V11] V12]. by rewrite V2, V3, V4, V7, V8, V9, V10, V11, V12.
Qed.

Context (logs0 logs : Z -> list (list Z)) (R : Z -> Z) (rs : list Read) (tr : list Z) (s0 : Worker).
Context (Hps : posted_reads k registry qof W C logs0 R rs logs tr s0).
Context (complete : Z -> Z -> Z) (failure : Z -> Z -> Z * Z).
Context (Hdev : forall o, is_owner k o -> device_ok hw (C (qof o)) (logs (qof o)) (complete (qof o)) (failure (qof o))).
Context (Hstart : forall o, is_owner k o -> R (qof o) <= complete (qof o) (k_time s0)).

(** All that was ever posted to a queue is complete at a time, and nothing has failed since [R]. *)
Definition finished (q t : Z) : Prop := posted (logs q) <= complete q t /\ forall n, R q <= n < posted (logs q) -> failure q n = (0, 0).

(** Behind the first [n] queues. *)
Record waited (n : nat) (s : Worker) : Prop := {
  wt_kept : usedPeers s = usedPeers s0 /\ completionQueuePeers s = completionQueuePeers s0 /\ sqTargets s = sqTargets s0;
  wt_time : k_time s0 <= k_time s;
  wt_ring o : is_owner k o -> exists c, ring_ok (W (qof o)) (C (qof o)) (k_mem s) (logs (qof o)) c /\ (qof o ∉ qof <$> take n tr -> c = R (qof o));
  wt_failed : workerStatus s0 <> 0 -> workerStatus s = workerStatus s0;
  wt_clean : workerStatus s = 0 -> workerStatus s0 = 0 /\ forall o, o ∈ take n tr -> finished (qof o) (k_time s);
  wt_done : workerStatus s0 = 0 -> (forall o, o ∈ take n tr -> finished (qof o) (k_time s0)) -> workerStatus s = 0
}.

Lemma finished_mono o t t' : is_owner k o -> t <= t' -> finished (qof o) t -> finished (qof o) t'.
Proof using Hdev. intros Ho Ht [F1 F2]. split; [|done]. pose proof (dv_mono _ _ _ _ _ (Hdev o Ho) t t' Ht). lia. Qed.

Lemma poll_sq_time i pe qp target m t : t <= po_time (UDMAPollCQUntilSqTail hw i pe qp target m t).
Proof using Type. unfold UDMAPollCQUntilSqTail. destruct (poll_contexts _ _ _) as [[wq cq]|]; [|cbn; lia]. cbv zeta. case_if; [cbn; lia|apply poll_until_time]. Qed.

(** The worker behind the wait for a queue. *)
Lemma complete_queue_eq n s o : waited n s -> tr !! n = Some o ->
  let r := UDMAPollCQUntilSqTail hw (Some info) o (physicalQp_ k) (u32 (position (logs (qof o)) (posted (logs (qof o))))) (k_mem s) (k_time s) in
  exists code, 0 < code /\ complete_queue hw true k s (Z.of_nat n) =
    if negb (po_status r =? 0) && (workerStatus s =? 0) then blame code (behind r s) else behind r s.
Proof using Hf Hk Hps.
  intros [(E1 & E2 & E3) _ _ _ _ _] Hn. cbv zeta. destruct (ps_tracked _ _ _ _ _ _ _ _ _ _ _ Hps n o Hn) as (T1 & _ & T3 & T4 & T5).
  unfold complete_queue. cbv zeta. rewrite E1, E2, E3, T3, T4, T5. cbn [negb]. rewrite poll_sq_same by done. set (r := UDMAPollCQUntilSqTail _ _ _ _ _ _ _).
  exists (if po_status r =? TILEXR_UDMA_STATUS_INVALID then ClassifyQuietInvalid hw true k o (physicalQp_ k) (sqTargets (behind r s) (Z.of_nat n)) (k_mem (behind r s)) (k_time (behind r s))
    else kPrefetchWeightStatusCqErrorBase + Z.land (po_status r) 0xFF). split; [|done].
  destruct (_ =? TILEXR_UDMA_STATUS_INVALID).
  - unfold ClassifyQuietInvalid. cbv zeta. repeat (case_if; [done|]). destruct (GetUDMAInfo _); [|done]. case_if; [done|]. destruct (UDMAGetWQCtx _ _ _); [|done]. destruct (UDMAGetSCQCtx _ _ _); [|done].
    repeat (case_if; [done|]). done.
  - pose proof (Z.land_nonneg (po_status r) 0xFF) as [_ Hl]. unfold kPrefetchWeightStatusCqErrorBase. specialize (Hl ltac:(right; lia)). lia.
Qed.

Lemma wait_step n s o : waited n s -> tr !! n = Some o -> waited (S n) (complete_queue hw true k s (Z.of_nat n)).
Proof using All.
  intros Hw Hn. destruct (complete_queue_eq n s o Hw Hn) as (code & Hcode & ->). destruct Hw as [K1 K2 K3 K4 K5 K6].
  destruct (ps_tracked _ _ _ _ _ _ _ _ _ _ _ Hps n o Hn) as (Ho & _). set (r := UDMAPollCQUntilSqTail _ _ _ _ _ _ _).
  pose proof (fb_peer _ _ _ _ _ _ _ _ Hf _ Ho) as Hp. pose proof (pp_queue _ _ _ _ _ _ _ _ Hp) as Hq.
  assert (qof o ∉ qof <$> take n tr) as Hnew.
  { pose proof (ps_nodup _ _ _ _ _ _ _ _ _ _ _ Hps) as Hnd. rewrite <- (take_drop_middle tr n o Hn), fmap_app, NoDup_app in Hnd. destruct Hnd as (_ & Hnd & _).
    intros Hin. apply (Hnd _ Hin). by left. }
  destruct (K3 o Ho) as (c & Hr & Hc). rewrite (Hc Hnew) in Hr. clear Hc c.
  assert (R (qof o) <= complete (qof o) (k_time s)) as Hrc.
  { pose proof (dv_mono _ _ _ _ _ (Hdev o Ho) _ _ K2). pose proof (Hstart o Ho). lia. }
  pose proof (ri_reaped _ _ _ _ _ Hr) as Hrp.
  pose proof (poll_until_sq_outcome (Some info) o (physicalQp_ k) _ _ Hq hw _ _ _ (Hdev o Ho) _ (k_time s) _ (posted (logs (qof o))) Hr Hrc ltac:(lia)) as Hout.
  fold r in Hout. destruct (outcome_status _ _ _ _ _ _ (Hdev o Ho) _ _ _ _ _ Hout) as (_ & O2 & O3). destruct Hout as (j & _ & Hrj & Hsame & _).
  pose proof (poll_sq_time (Some info) o (physicalQp_ k) (u32 (position (logs (qof o)) (posted (logs (qof o))))) (k_mem s) (k_time s)) as Htime. fold r in Htime.
  assert (forall x, x ∈ take (S n) tr <-> x ∈ take n tr \/ x = o) as Htake.
  { intros x. rewrite (take_S_r tr n o Hn), elem_of_app, list_elem_of_singleton. done. }
  assert (forall t, (forall x, x ∈ take (S n) tr -> finished (qof x) t) <-> (forall x, x ∈ take n tr -> finished (qof x) t) /\ finished (qof o) t) as Hall.
  { intros t. split; [intros H; split; [intros x Hx|]; apply H, Htake; auto|]. intros [H1 H2] x [Hx| ->]%Htake; auto. }
  set (s' := if negb (po_status r =? 0) && (workerStatus s =? 0) then blame code (behind r s) else behind r s).
  assert (workerStatus s' = (if po_status r =? 0 then workerStatus s else if workerStatus s =? 0 then code else workerStatus s) /\ k_mem s' = po_mem r /\ k_time s' = po_time r /\
    usedPeers s' = usedPeers s /\ completionQueuePeers s' = completionQueuePeers s /\ sqTargets s' = sqTargets s) as (A1 & A2 & A3 & A4 & A5 & A6).
  { unfold s'. destruct (po_status r =? 0), (Z.eqb_spec (workerStatus s) 0) as [E|E]; cbn [negb andb]; try done. cbn [blame behind workerStatus]. by rewrite E. }
  constructor.
  - by rewrite A4, A5, A6.
  - rewrite A3. lia.
  - intros o' Ho'. rewrite A2. destruct (Z.eq_dec (qof o') (qof o)) as [E|Hne].
    + rewrite E. exists j. split; [done|]. intros Hno. exfalso. apply Hno. rewrite (take_S_r tr n o Hn), fmap_app, elem_of_app. right. by left.
    + destruct (K3 o' Ho') as (c & Hc & Hcr). exists c. split.
      * eapply ring_frame; [exact (qa_contexts _ _ _ _ _ (pp_queue _ _ _ _ _ _ _ _ (fb_peer _ _ _ _ _ _ _ _ Hf _ Ho')))|exact Hc|].
        intros x Hx. apply (tails_outside _ _ _ _ Hsame). by eapply (fb_apart _ _ _ _ _ _ _ _ Hf o' o x Ho' Ho).
      * intros Hno. apply Hcr. intros Hin. apply Hno. rewrite (take_S_r tr n o Hn), fmap_app, elem_of_app. by left.
  - intros H0. rewrite A1, (K4 H0), (proj2 (Z.eqb_neq _ 0) H0). by destruct (_ =? 0).
  - rewrite A1, A3. intros H0. assert (workerStatus s = 0 /\ po_status r = 0) as [W1 W2].
    { destruct (Z.eqb_spec (po_status r) 0); [done|]. destruct (Z.eqb_spec (workerStatus s) 0); lia. }
    destruct (K5 W1) as [W3 W4]. split; [done|]. apply Hall. destruct (O3 W2) as (_ & F1 & F2). split; [|done].
    intros x Hx. assert (is_owner k x) as Hox. { apply list_elem_of_lookup in Hx as [jx Hjx]. apply lookup_take_Some in Hjx as [Hjx _]. by destruct (ps_tracked _ _ _ _ _ _ _ _ _ _ _ Hps jx x Hjx). }
    by apply (finished_mono x (k_time s) (po_time r) Hox Htime), W4.
  - intros H0 Hfin. apply Hall in Hfin as [F1 F2]. pose proof (K6 H0 F1) as W1. apply (finished_mono o _ _ Ho K2) in F2 as [F2 F3].
    rewrite A1, W1. rewrite (O2 F2 F3). done.
Qed.

Lemma complete_reads_spec : waited (length tr) (CompleteReads hw true k s0).
Proof using All.
  unfold CompleteReads. rewrite (ps_count _ _ _ _ _ _ _ _ _ _ _ Hps).
  assert (forall n, (n <= length tr)%nat -> waited n (fold_left (complete_queue hw true k) (seqZ 0 (Z.of_nat n)) s0)) as H; [|by apply H].
  induction n as [|n IH]; intros Hn.
  - constructor; try (done || lia). 1: intros o Ho; exists (R (qof o)); split; [exact (ps_ring _ _ _ _ _ _ _ _ _ _ _ Hps o Ho)|done].
    intros H0. split; [done|]. intros o []%not_elem_of_nil.
  - replace (Z.of_nat (S n)) with (Z.of_nat n + 1) by lia. rewrite seqZ0_snoc, fold_left_app by lia. cbn [fold_left].
    destruct (lookup_lt_is_Some_2 tr n ltac:(lia)) as [o Ho]. apply wait_step with o; [apply IH; lia|done].
Qed.
End complete.

(** ** The launch of a layout *)

Section launch.
Context (args : TileXRMoonEpPrefetchWeightArgsV1) (comm : CommArgs) (registry : TileXRUDMARegistry) (info : UDMAInfo) (ov : option string) (l : PrefetchWeightLayout).
Context (c : Communicator) (stream : Z) (params : PrefetchWeightParams) (dev : Z).
Context (b : Block) (wqeBuf : Scratch) (experts : Z -> Z) (status : Z).

(** A launch the host has prepared, on the device: the communicator is the one the host looked at, the regions are at
    64-bit addresses, and the blocks are as many as the layout asks for. *)
Record launched : Prop := {
  la_prepared : TileXRMoonEpPreparePrefetchWeightLaunch c (Some args) stream ov = inl (params, {| hostArgs := comm; devArgs := dev; lc_layout := l |});
  la_host : snd (TileXRGetUDMARegistryHost c) = Some registry /\ snd (TileXRUDMAGetQpCount c) = qpNum info;
  la_counts t : (fa_gate args = Some t \/ fa_up args = Some t \/ fa_down args = Some t) -> is_u64 (elementCount t);
  la_info : udmaInfoPtr comm = Some info /\ udmaRegistryPtr comm = Some registry;
  la_qps : 0 <= qpNum info <= TILEXR_UDMA_DEVICE_MAX_QP_COUNT;
  la_regions r : 0 <= r < ca_rankSize comm -> 0 <= rd_base (rg_regions registry r) /\ rd_base (rg_regions registry r) + rd_bytes (rg_regions registry r) <= UINT64_MAX;
  la_block : 0 <= block_idx b < block_num b /\ block_num b = f_blockDim l /\ subblockdim b = 1 /\ subblockid b = 0;
  la_status : status <> 0
}.

Definition kernel : PrefetchWeightKernel := TileXRMoonEpLaunchPrefetchWeightKernel b wqeBuf (Some comm) (Some experts) status params l.

Lemma la_layout : launched -> TileXRMoonEpBuildPrefetchWeightLayout args comm registry (qpNum info) ov = Some l /\
  exists gate up down, fa_gate args = Some gate /\ fa_up args = Some up /\ fa_down args = Some down /\ wp_gate params = t_data gate /\ wp_up params = t_data up /\ wp_down params = t_data down.
Proof using Type.
  intros La. destruct (prepared_layout _ _ _ _ _ _ (la_prepared La)) as (r & q & gate & up & down & E1 & E2 & El & H). destruct (la_host La) as [H1 H2].
  rewrite E1 in H1. rewrite E2 in H2. cbn in H1, H2. injection H1 as ->. subst q. split; [done|]. by exists gate, up, down.
Qed.

(** One of the three weights. *)
Lemma weight_at p : launched -> 0 <= p < 3 -> exists t at_, registered registry (ca_rank comm) (f_expertsPerRank l) t at_ /\
  projections_ kernel p = localBase at_ /\ offsets_ kernel p = registryOffset at_ /\ rowBytes_ kernel p = f_rowBytes at_.
Proof using Type.
  intros La Hp. assert (0 <= qpNum info <= UINT32_MAX) as Hq by (pose proof (la_qps La); unfold TILEXR_UDMA_DEVICE_MAX_QP_COUNT, UINT32_MAX in *; lia).
  destruct (layout_registered _ _ _ _ _ _ Hq (la_counts La) (proj1 (la_layout La))) as ([(Er & _) _ _ _ _ _ (gate & up & down & F1 & F2 & F3 & G & U & D) _] & _). rewrite Er in *.
  destruct (proj2 (la_layout La)) as (gate' & up' & down' & F1' & F2' & F3' & P1 & P2 & P3). rewrite F1 in F1'. rewrite F2 in F2'. rewrite F3 in F3'. injection F1' as <-. injection F2' as <-. injection F3' as <-.
  destruct (reg_base _ _ _ _ _ G) as [Bg _]. destruct (reg_base _ _ _ _ _ U) as [Bu _]. destruct (reg_base _ _ _ _ _ D) as [Bd _].
  pose proof (reg_row _ _ _ _ _ G) as [Rg _]. pose proof (reg_row _ _ _ _ _ U) as [Ru _]. pose proof (reg_row _ _ _ _ _ D) as [Rd _]. unfold UINT32_MAX in *.
  assert (p = 0 \/ p = 1 \/ p = 2) as [-> |[-> | ->]] by lia; [exists gate, (f_gate l)|exists up, (f_up l)|exists down, (f_down l)];
    (split; [done|]); unfold kernel, TileXRMoonEpLaunchPrefetchWeightKernel, Init; cbn; (split; [congruence|]); (split; [done|]); apply u32_small; lia.
Qed.

Lemma kernel_fields : launched -> rank_ kernel = ca_rank comm /\ rankSize_ kernel = ca_rankSize comm /\ 0 <= ca_rank comm < ca_rankSize comm /\ ca_rankSize comm <= 128 /\
  worker_ kernel = block_idx b /\ workerCount_ kernel = f_blockDim l /\ qpNum_ kernel = qpNum info /\
  0 <= physicalQp_ kernel < qpNum info /\ 0 < prefetchSlots_ kernel <= expertsPerRank_ kernel.
Proof using Type.
  intros La. assert (0 <= qpNum info <= UINT32_MAX) as Hq by (pose proof (la_qps La); unfold TILEXR_UDMA_DEVICE_MAX_QP_COUNT, UINT32_MAX in *; lia).
  destruct (layout_registered _ _ _ _ _ _ Hq (la_counts La) (proj1 (la_layout La))) as ([(E1 & E2 & E3) L2 L3 L4 L5 L6 L7 L8] & (Hw & Hw2 & _) & Hqps).
  destruct (la_block La) as (B1 & B2 & B3 & B4). unfold UINT32_MAX in Hq.
  assert (block_num b <= 8) as B5 by (rewrite B2; apply worker_counts in Hw; lia).
  assert (forall x, 0 <= x <= 128 -> as_int (u32 x) = x) as Hint. { intros x Hx. unfold as_int. rewrite u32_small by lia. by rewrite (proj2 (Z.ltb_lt _ _)) by lia. }
  unfold kernel, TileXRMoonEpLaunchPrefetchWeightKernel, Init. cbn [rank_ rankSize_ worker_ workerCount_ qpNum_ physicalQp_ prefetchSlots_ expertsPerRank_].
  rewrite B3, B4, !Z.mul_1_r, Z.add_0_r, !(u32_small (block_idx b)), !(u32_small (block_num b)), (u32_small (f_qpNum l)), !Hint by lia.
  rewrite <- E1, <- E2. split_and!; try (done || lia).
  all: destruct (Hqps (block_idx b) ltac:(lia)) as [Hlt _]; unfold TileXRMoonEpPrefetchWeightPhysicalQp in Hlt; rewrite (proj2 (Z.ltb_lt _ _)) in Hlt by (unfold kPrefetchWeightMaxWorkers; lia);
    pose proof (Z.land_nonneg (Z.shiftr (physicalQpMap l) (block_idx b * 8)) 255) as [_ Hn]; specialize (Hn ltac:(right; lia)); rewrite (u32_small (block_idx b * 8)), u32_small by lia; lia.
Qed.

Lemma launch_registry : launched -> rg_rankSize registry = ca_rankSize comm /\ forall o offset count, 0 <= o < ca_rankSize comm -> o <> ca_rank comm ->
  rd_base (rg_regions registry o) <> 0 -> offset + count <= rd_bytes (rg_regions registry o) -> 0 <= count ->
  UDMARegisteredOperationValid (Some comm) o (physicalQp_ kernel) offset count = true.
Proof using Type.
  intros La. destruct (kernel_fields La) as (_ & _ & R1 & R2 & _ & _ & _ & Hqp & _). destruct (la_info La) as [I1 I2].
  assert (0 <= qpNum info <= UINT32_MAX) as Hq by (pose proof (la_qps La); unfold TILEXR_UDMA_DEVICE_MAX_QP_COUNT, UINT32_MAX in *; lia).
  destruct (layout_registered _ _ _ _ _ _ Hq (la_counts La) (proj1 (la_layout La))) as ([_ _ _ Hreg (Hflag & _) _ _ _] & _).
  unfold UDMARegistryValid in Hreg. rewrite (u32_small (ca_rankSize comm)) in Hreg by lia. b2p. split; [done|]. intros o offset count Ho Hne Hb Hle Hc.
  pose proof (la_qps La) as Hqs. assert (UDMAEnabled (Some comm) = true) as Hen. { unfold UDMAEnabled. rewrite I1. by rewrite (proj2 (Z.eqb_neq _ 0) Hflag). }
  unfold UDMARegisteredOperationValid, UDMARegistryEnabled. rewrite Hen, I2. cbn [andb negb]. rewrite bool_decide_eq_true_2 by done. cbn [negb].
  assert (UDMARankValid (Some comm) o = true) as ->.
  { unfold UDMARankValid, TILEXR_MAX_RANK_SIZE. rewrite (proj2 (Z.ltb_lt 0 _)), (proj2 (Z.leb_le _ 128)), (proj2 (Z.leb_le 0 o)), (proj2 (Z.ltb_lt o _)), (proj2 (Z.eqb_neq o _)) by lia. done. }
  assert (UDMAQpValid (Some comm) (physicalQp_ kernel) = true) as ->.
  { unfold UDMAQpValid, UDMAQpCount. rewrite Hen. cbn [negb]. destruct comm as [? ? ? [i|] ?]; [|done]. injection I1 as ->. 
    rewrite (proj2 (Z.ltb_lt 0 (qpNum info))), (proj2 (Z.leb_le (qpNum info) _)) by lia. cbn [andb]. apply Z.ltb_lt. lia. }
  cbn [negb]. unfold GetUDMARegistry. cbn [mbind option_bind]. rewrite I2, (u32_small (ca_rankSize comm)) by lia.
  unfold UDMARegisteredRangeValid. rewrite (u32_small o) by lia.
  repeat match goal with E : rg_magic registry = _ |- _ => rewrite E; clear E | E : rg_version registry = _ |- _ => rewrite E; clear E end.
  match goal with E : rg_rankSize registry = _ |- _ => rewrite E end. rewrite !Z.eqb_refl. cbn [negb orb].
  rewrite (proj2 (Z.eqb_neq (rg_regionCount registry) 0)), (proj2 (Z.ltb_ge TILEXR_UDMA_MAX_REGIONS _)), (proj2 (Z.eqb_neq (ca_rankSize comm) 0)), (proj2 (Z.ltb_ge TILEXR_MAX_RANK_SIZE _)),
    (proj2 (Z.ltb_ge o 0)), (proj2 (Z.leb_gt (ca_rankSize comm) o)) by (unfold TILEXR_MAX_RANK_SIZE; lia).
  cbn [orb]. rewrite (proj2 (Z.eqb_neq _ 0) Hb), (proj2 (Z.ltb_ge _ offset)) by lia. cbn [orb]. apply Z.leb_le. lia.
Qed.

Lemma launch_kernel_ok : launched -> kernel_ok kernel comm.
Proof using Type.
  intros La. destruct (kernel_fields La) as (E1 & E2 & R1 & R2 & E3 & E4 & E5 & Hqp & Hs). destruct (la_block La) as (B1 & B2 & _).
  destruct (launch_registry La) as [Erg Hreg]. constructor.
  - rewrite E1, E2. unfold kMaxTrackedRankSize, TILEXR_MAX_RANK_SIZE. lia.
  - done.
  - rewrite E3, E4. lia.
  - intros p Hp. destruct (weight_at p La Hp) as (t & w & Hw & _ & _ & ->). destruct (reg_row _ _ _ _ _ Hw) as [Hr _]. unfold UINT32_MAX in Hr. lia.
  - intros p o e Hp [Ho Hne] He. rewrite E2 in Ho. rewrite E1 in Hne. destruct (weight_at p La Hp) as (t & w & Hw & _ & -> & ->). destruct (reg_row _ _ _ _ _ Hw) as [Hr _].
    destruct (reg_base _ _ _ _ _ Hw) as (_ & _ & Ho0). destruct (reg_peers _ _ _ _ _ Hw o ltac:(lia)) as [Hb Hle]. pose proof (la_regions La o Ho) as [G1 G2]. unfold UINT64_MAX in G2.
    change (f_expertsPerRank l) with (expertsPerRank_ kernel) in Hle.
    assert (e * f_rowBytes w + f_rowBytes w <= expertsPerRank_ kernel * f_rowBytes w) by (replace (e * f_rowBytes w + f_rowBytes w) with ((e + 1) * f_rowBytes w) by lia; apply Z.mul_le_mono_nonneg_r; lia).
    split; [done|]. split; [lia|]. apply Hreg; try done; lia.
  - intros p Hp. destruct (weight_at p La Hp) as (t & w & Hw & -> & _ & ->). destruct (reg_base _ _ _ _ _ Hw) as (Eb & Et & Ho0). pose proof (reg_local _ _ _ _ _ Hw) as Hl.
    destruct (reg_peers _ _ _ _ _ Hw (ca_rank comm) ltac:(lia)) as [Hb _]. pose proof (la_regions La (ca_rank comm) R1) as [G1 G2].
    change (f_expertsPerRank l) with (expertsPerRank_ kernel) in Hl. rewrite Eb, Et. lia.
Qed.

Lemma launch_validated : launched -> ValidateRuntime kernel = 0.
Proof using Type.
  intros La. pose proof (launch_kernel_ok La) as Hk. destruct (kernel_fields La) as (E1 & E2 & R1 & R2 & E3 & E4 & E5 & Hqp & Hs). destruct (la_info La) as [I1 I2].
  assert (0 <= qpNum info <= UINT32_MAX) as Hq by (pose proof (la_qps La); unfold TILEXR_UDMA_DEVICE_MAX_QP_COUNT, UINT32_MAX in *; lia).
  destruct (layout_registered _ _ _ _ _ _ Hq (la_counts La) (proj1 (la_layout La))) as ([_ _ _ _ (Hflag & _) _ _ _] & _).
  unfold ValidateRuntime. change (args_ kernel) with (Some comm). unfold UDMARegistryEnabled, UDMAEnabled, GetUDMAInfo. cbn [mbind option_bind]. rewrite I1, I2, E1, E2, E3, E4, E5, !Z.eqb_refl.
  change (status_ kernel) with status. change (expertsToCopy_ kernel) with (Some experts). pose proof (la_status La) as Hst. test_set.
  rewrite !bool_decide_eq_true_2 by done. cbn [negb andb orb]. case_if; [|done]. exfalso.
  pose proof (ko_target _ _ Hk 0 ltac:(lia)). pose proof (ko_target _ _ Hk 1 ltac:(lia)). pose proof (ko_target _ _ Hk 2 ltac:(lia)).
  pose proof (ko_row _ _ Hk 0 ltac:(lia)). pose proof (ko_row _ _ Hk 1 ltac:(lia)). pose proof (ko_row _ _ Hk 2 ltac:(lia)). pose proof (ko_worker _ _ Hk) as Hwk. rewrite E3, E4 in Hwk.
  unfold kMaxTrackedRankSize, TILEXR_MAX_RANK_SIZE in *.
  repeat match goal with E : (_ || _) = true |- _ => apply orb_true_iff in E as [E|E] end; b2p; try done; lia.
Qed.

(** Where the rows of a read are. *)
Definition in_regions (r : Read) : Prop := exists offset, r_target kernel r = rd_base (rg_regions registry (ca_rank comm)) + offset /\ 0 <= offset /\
  offset + r_bytes kernel r <= rd_bytes (rg_regions registry (ca_rank comm)) /\
  0 <= r_source kernel r /\ r_source kernel r + r_bytes kernel r <= rd_bytes (rg_regions registry (r_owner r)).

Lemma read_in_regions r : launched -> read_ok kernel r -> in_regions r.
Proof using Type.
  intros La [R1 R2 R3 R4]. destruct (kernel_fields La) as (E1 & E2 & _ & _ & _ & _ & _ & _ & Hs). destruct (launch_registry La) as [Erg _].
  destruct (weight_at _ La R4) as (t & w & Hw & P1 & P2 & P3). unfold in_regions, r_target, r_source, r_bytes. rewrite P1, P2, P3.
  destruct (reg_base _ _ _ _ _ Hw) as (Eb & Et & Ho0). destruct (reg_row _ _ _ _ _ Hw) as [Hr _]. pose proof (reg_local _ _ _ _ _ Hw) as Hl.
  destruct R1 as [R1 _]. rewrite E2 in R1. destruct (reg_peers _ _ _ _ _ Hw (r_owner r) ltac:(lia)) as [_ Hp].
  change (f_expertsPerRank l) with (expertsPerRank_ kernel) in *.
  assert (forall x n, 0 <= x < n -> 0 <= x * f_rowBytes w /\ x * f_rowBytes w + f_rowBytes w <= n * f_rowBytes w) as Hmul.
  { intros x n Hx. split; [apply Z.mul_nonneg_nonneg; lia|]. replace (x * f_rowBytes w + f_rowBytes w) with ((x + 1) * f_rowBytes w) by lia. apply Z.mul_le_mono_nonneg_r; lia. }
  exists (registryOffset w + (expertsPerRank_ kernel + r_slot r) * f_rowBytes w).
  pose proof (Hmul (expertsPerRank_ kernel + r_slot r) (2 * expertsPerRank_ kernel) ltac:(lia)). pose proof (Hmul (r_expert r) (expertsPerRank_ kernel) R2). rewrite Eb, Et. lia.
Qed.

(** The slots of the worker and their reads. *)
Definition worker_slots : list Z := List.filter (mine kernel) (seqZ (worker_ kernel) (prefetchSlots_ kernel - worker_ kernel)).
Definition worker_reads : list Read := flat_map (slot_reads kernel) worker_slots.

Lemma worker_reads_ok r : launched -> r ∈ worker_reads -> read_ok kernel r.
Proof using Type.
  intros La Hr. pose proof (launch_kernel_ok La) as Hk. apply list_elem_of_In, in_flat_map in Hr as (slot & [Hs _]%filter_In & Hin).
  apply list_elem_of_In, elem_of_seqZ in Hs. pose proof (ko_worker _ _ Hk). unfold slot_reads in Hin. destruct (borrows kernel slot) eqn:Hb; [|done].
  apply in_map_iff in Hin as (p & <- & Hp%list_elem_of_In%elem_of_seqZ). eapply borrows_ok; [done|lia|done|lia].
Qed.

Context (hw : Z -> Mem) (qof : Z -> Z) (W : Z -> UDMAWQCtx) (C : Z -> UDMACQCtx) (MI : Z -> UDMAMemInfo) (logs0 : Z -> list (list Z)) (R : Z -> Z).

(** C18: a worker of the weight prefetch, from the layout to the completed reads. For a layout that
    was accepted, launched on its communicator, the worker takes every [blockDim]-th slot from its
    number on, and for each expert it borrows it posts three reads, one per weight, to the queue
    pair of the owner: behind what the queue held, in order, one entry per read that names the
    row in the registered region of the owner, the row of the slot in the region of this rank and
    its length, all inside the regions. Queue pairs may be shared by several owners. Whatever the
    device does then under its contract, the worker ends with status 0 only when every entry of
    the plan could be served and every read is complete without a failure, and it does end so once
    that holds; an entry that is out of range or names an expert of this rank itself gives its
    code, the first one winning. *)
Theorem prefetch_reads_complete m t : launched -> fabric kernel comm info registry qof W C MI -> roomy kernel qof logs0 R (3 * prefetchSlots_ kernel) ->
  (forall o, is_owner kernel o -> ring_ok (W (qof o)) (C (qof o)) m (logs0 (qof o)) (R (qof o))) ->
  Forall in_regions worker_reads /\
  exists logs, (forall q, exists entries, logs q = logs0 q ++ entries /\ Forall2 (says kernel registry) entries (on qof q worker_reads)) /\
  forall complete failure,
    (forall o, is_owner kernel o -> device_ok hw (C (qof o)) (logs (qof o)) (complete (qof o)) (failure (qof o)) /\ R (qof o) <= complete (qof o) t) ->
    let s := run_worker hw true kernel m t in
    (workerStatus s = 0 -> Forall (fun slot => slot_code kernel slot = 0) worker_slots /\
       forall r, r ∈ worker_reads -> finished logs R complete failure (qof (r_owner r)) (k_time s)) /\
    (Forall (fun slot => slot_code kernel slot = 0) worker_slots ->
       (forall r, r ∈ worker_reads -> finished logs R complete failure (qof (r_owner r)) t) -> workerStatus s = 0) /\
    (first_code (map (slot_code kernel) worker_slots) <> 0 -> workerStatus s = first_code (map (slot_code kernel) worker_slots)).
Proof using Type.
  intros La Hf Hro Hring. pose proof (launch_kernel_ok La) as Hk. pose proof (launch_validated La) as Hv.
  split; [apply Forall_forall; intros r Hr; by apply read_in_regions, worker_reads_ok|].
  destruct (submit_reads_spec hw kernel comm info registry qof W C MI logs0 R m t Hf Hk Hro Hring Hv) as (Et & Es & logs & tr & Hps & Hown). fold worker_slots in Es, Hps. fold worker_reads in Hps, Hown.
  set (s0 := SubmitReads hw true kernel (start kernel m t)) in *. exists logs. split; [intros q; destruct (ps_log _ _ _ _ _ _ _ _ _ _ _ Hps q) as (es & E1 & E2 & _); by exists es|].
  intros complete failure Hdev s.
  assert (s = CompleteReads hw true kernel s0) as ->. { unfold s, run_worker. cbv zeta. cbn [start workerStatus]. by rewrite Hv. }
  assert (waited kernel qof W C logs R tr s0 complete failure (length tr) (CompleteReads hw true kernel s0)) as [_ _ _ W4 W5 W6].
  { eapply complete_reads_spec; try done; [intros o Ho; apply (proj1 (Hdev o Ho))|]. intros o Ho. rewrite Et. apply (proj2 (Hdev o Ho)). }
  rewrite firstn_all in W5, W6. rewrite Et in W6. rewrite Es in W4, W5, W6. rewrite first_code_zero, Forall_map in W5, W6. split; [|split].
  - intros H0. destruct (W5 H0) as [H1 H2]. split; [done|]. intros r Hr. pose proof (ps_cover _ _ _ _ _ _ _ _ _ _ _ Hps r Hr) as (o & -> & Ho)%list_elem_of_fmap. by apply H2.
  - intros H0 H1. apply W6; [done|]. intros o Ho. destruct (Hown o Ho) as (r & Hr & <-). by apply H1.
  - done.
Qed.
End launch.

(** ** The status word *)

(** The status of a worker: none, or a code behind that of success. *)
Definition coded (s : Worker) : Prop := workerStatus s = 0 \/ 4001 <= workerStatus s <= 4455.

Lemma blame_coded code s : 4001 <= code <= 4455 -> coded s -> coded (blame code s).
Proof. unfold coded. cbn [blame workerStatus]. intros Hc [H|H]; [rewrite H; by right|]. rewrite (proj2 (Z.eqb_neq _ 0)) by lia. by right. Qed.

Lemma land_byte x : 0 <= Z.land x 0xFF <= 255.
Proof. assert (Z.land x 0xFF = x mod 256) as -> by (apply (Z.land_ones x 8); lia). pose proof (Z.mod_pos_bound x 256 ltac:(lia)). lia. Qed.

Lemma fold_coded {A} (f : Worker -> A -> Worker) l s : (forall s x, coded s -> coded (f s x)) -> coded s -> coded (fold_left f l s).
Proof. intros Hf. revert s. induction l as [|x l IH]; intros s Hs; [done|]. cbn [fold_left]. auto. Qed.

Lemma track_coded wq peer s : coded s -> coded (snd (TrackCompletionQueue wq peer s)).
Proof. intros Hs. unfold TrackCompletionQueue. cbv zeta. destruct (loop_ret _ _ _); [|done]. case_if; [by apply blame_coded|done]. Qed.

Lemma projection_coded hw arch k owner e slot q s p : coded s -> coded (submit_projection hw arch k owner e slot q s p).
Proof.
  intros Hs. unfold submit_projection. cbv zeta. set (r := UDMAGetNbiOnQp _ _ _ _ _ _ _ _ _ _ _). pose proof (land_byte (po_status r)).
  repeat case_if; try done. apply blame_coded; [unfold kPrefetchWeightStatusSubmitErrorBase; lia|done].
Qed.

Lemma slots_coded hw arch k fuel slot s : coded s -> coded (submit_slots hw arch k fuel slot s).
Proof.
  revert slot s. induction fuel as [|f IH]; intros slot s Hs; cbn [submit_slots]; [done|]. case_if; [|done]. apply IH.
  unfold submit_slot. cbv zeta. case_if; [done|]. case_if; [by apply blame_coded|]. case_if; [by apply blame_coded|].
  match goal with |- context [TrackCompletionQueue ?w ?p ?s1] => pose proof (track_coded w p s1) as Ht; destruct (TrackCompletionQueue w p s1) as [q s2] end.
  cbn [snd] in Ht. specialize (Ht Hs). case_if; [done|]. apply fold_coded; [|done]. intros s3 p. apply projection_coded.
Qed.

Lemma complete_coded hw arch k s : coded s -> coded (CompleteReads hw arch k s).
Proof.
  intros Hs. apply fold_coded; [|done]. intros s1 q H1. unfold complete_queue. cbv zeta. case_if; [by apply blame_coded|].
  set (r := PollSqUntil _ _ _ _ _ _ _ _). pose proof (land_byte (po_status r)). case_if; [|done]. apply blame_coded; [|done].
  case_if; [|unfold kPrefetchWeightStatusCqErrorBase; lia].
  unfold ClassifyQuietInvalid. cbv zeta. repeat (case_if; [done|]). destruct (GetUDMAInfo _); [|done]. case_if; [done|].
  destruct (UDMAGetWQCtx _ _ _); [|done]. destruct (UDMAGetSCQCtx _ _ _); [|done]. repeat (case_if; [done|]). done.
Qed.

Lemma run_coded hw arch k m t : coded (run_worker hw arch k m t).
Proof.
  unfold run_worker. cbv zeta. assert (coded (start k m t)) as Hs.
  { unfold coded. cbn [start workerStatus]. unfold ValidateRuntime, kPrefetchWeightStatusInvalidRuntime. destruct (args_ k); [|lia]. case_if; [lia|]. destruct (GetUDMAInfo _); [|lia]. case_if; lia. }
  case_if; [|done]. by apply complete_coded, slots_coded.
Qed.

(** The word behind the swaps is the code of the first worker of the order that failed. *)
Lemma swaps_first (order : list Z) (code : Z -> Z) (word : Z) :
  fold_left (fun status worker => if code worker =? 0 then status else AtomicCas status 0 (code worker)) order word =
  if word =? 0 then first_code (map code order) else word.
Proof.
  revert word. induction order as [|w order IH]; intros word; cbn [fold_left map first_code foldr]; [by destruct (Z.eqb_spec word 0)|].
  rewrite IH. unfold AtomicCas, first_code. cbn [foldr]. destruct (Z.eqb_spec (code w) 0) as [E|E]; [done|].
  destruct (Z.eqb_spec word 0) as [-> |Hw]; [by rewrite (proj2 (Z.eqb_neq _ 0) E)|by rewrite (proj2 (Z.eqb_neq _ 0) Hw)].
Qed.

(** C19: the status word of a weight prefetch. Whatever the kernels, the memory and the device, and in
    whatever order the workers reach the word: behind the last barrier it says success exactly
    when no worker has failed, and otherwise it is the code of a worker that failed, which is
    never the code of success. Every slot has exactly one worker. *)
Theorem prefetch_status_reports (n : Z) (order : list Z) (hw : Z -> Z -> Mem) arch (k : Z -> PrefetchWeightKernel) (m : Z -> Mem) (t : Z -> Z) : order ≡ₚ seqZ 0 n ->
  let code w := workerStatus (run_worker (hw w) arch (k w) (m w) (t w)) in
  (Process order code = kPrefetchWeightStatusSuccess <-> forall w, 0 <= w < n -> code w = 0) /\
  (Process order code <> kPrefetchWeightStatusSuccess -> exists w, 0 <= w < n /\ code w <> 0 /\ Process order code = code w) /\
  ((forall w, 0 <= w < n -> worker_ (k w) = w /\ workerCount_ (k w) = n) -> forall slot, 0 <= slot -> 0 < n ->
     exists w, 0 <= w < n /\ mine (k w) slot = true /\ forall v, 0 <= v < n -> mine (k v) slot = true -> v = w).
Proof.
  intros Hp code. assert (forall w, w ∈ order <-> 0 <= w < n) as Hin. { intros w. rewrite Hp, elem_of_seqZ. lia. }
  assert (Process order code = if first_code (map code order) =? 0 then kPrefetchWeightStatusSuccess else first_code (map code order)) as ->.
  { unfold Process. by rewrite swaps_first. }
  assert (forall w, code w = 0 \/ 4001 <= code w <= 4455) as Hcode by (intros w; apply run_coded).
  assert (first_code (map code order) = 0 \/ exists w, w ∈ order /\ code w <> 0 /\ first_code (map code order) = code w) as Hfirst.
  { clear -order. unfold first_code. induction order as [|w order IH]; [by left|]. cbn [map foldr]. destruct (Z.eqb_spec (code w) 0) as [E|E].
    - destruct IH as [IH|(v & Hv & IH)]; [by left|right]. exists v. split; [rewrite elem_of_cons; by right|done].
    - right. exists w. split; [rewrite elem_of_cons; by left|done]. }
  split; [|split].
  - destruct (Z.eqb_spec (first_code (map code order)) 0) as [E|E].
    + split; [|done]. intros _ w Hw%Hin. apply first_code_zero in E. rewrite Forall_map, Forall_forall in E. by apply E.
    + destruct Hfirst as [?|(w & Hw & Hne & ->)]; [done|]. unfold kPrefetchWeightStatusSuccess. split; [intros H0; destruct (Hcode w); lia|].
      intros Hall. apply Hin in Hw. by destruct Hne; apply Hall.
  - destruct (Z.eqb_spec (first_code (map code order)) 0) as [E|E]; [done|]. intros _. destruct Hfirst as [?|(w & Hw & Hne & E2)]; [done|]. exists w. by apply Hin in Hw.
  - intros Hk slot Hs Hn. pose proof (Z.mod_pos_bound slot n Hn) as Hb. exists (slot mod n). split; [done|]. unfold mine. split.
    + destruct (Hk (slot mod n) Hb) as [-> ->]. apply Z.eqb_eq. rewrite Zminus_mod_idemp_r, Z.sub_diag. done.
    + intros v Hv. destruct (Hk v Hv) as [-> ->]. intros E%Z.eqb_eq. rewrite <- (Z.mod_small v n) by done. apply Z.mod_divide in E as [q Eq]; [|lia].
      replace slot with (v + q * n) by lia. by rewrite Z_mod_plus_full.
Qed.

(** ** A prefetch *)

Module SampleLaunch.
(** Rank 1 of 4 borrows an expert of rank 0 and one of rank 3; all peers share one queue pair. *)
Definition info : UDMAInfo := {| UdmaTypes.qpNum := 32; sqPtr := 8; scqPtr := 16; memPtr := 24;
  wq_entries := fun _ => Sample.wq; cq_entries := fun _ => Sample.cq; mem_entries := fun _ => Sample.mi |}.
Definition comm : CommArgs := {| ca_rank := 1; ca_rankSize := 4; extraFlag := Z.lor ExtraFlag_TOPO_910A5 (Z.lor ExtraFlag_UDMA ExtraFlag_UDMA_SHARED_QP);
  udmaInfoPtr := Some info; udmaRegistryPtr := Some SamplePrefetch.registry |}.
Definition host : Communicator := {| TileXRGetCommArgsHost := (0, Some comm); TileXRGetUDMARegistryHost := (0, Some SamplePrefetch.registry);
  TileXRUDMAGetQpCount := (0, 32); TileXRGetCommArgsDev := (0, 1024) |}.
Definition prepared : (PrefetchWeightParams * PrefetchWeightLaunchContext) + Z := TileXRMoonEpPreparePrefetchWeightLaunch host (Some SamplePrefetch.args) 7 None.
Definition experts (i : Z) : Z := if i =? 2 then 0 else if i =? 3 then 13 else -1.
Definition block (w : Z) : Block := {| block_idx := w; block_num := 2; subblockdim := 1; subblockid := 0 |}.

(** What was prepared, for this communicator. *)
Definition is_prepared (params : PrefetchWeightParams) (l : PrefetchWeightLayout) : Prop :=
  prepared = inl (params, {| hostArgs := comm; devArgs := 1024; lc_layout := l |}).

Lemma sample_launched w params l : 0 <= w < 2 -> is_prepared params l ->
  launched SamplePrefetch.args comm SamplePrefetch.registry info None l host 7 params 1024 (block w) 4096.
Proof.
  unfold is_prepared. intros Hw E. constructor.
  - exact E.
  - split; reflexivity.
  - intros t [H|[H|H]]; injection H as <-; split; vm_compute; discriminate.
  - split; reflexivity.
  - split; vm_compute; discriminate.
  - cbn. intros r Hr. unfold UINT64_MAX. lia.
  - vm_compute in E. injection E as <- <-. cbn. lia.
  - done.
Qed.

Lemma sample_fabric w params l : 0 <= w < 2 -> is_prepared params l ->
  fabric (kernel comm l params (block w) Sample.scratch experts 4096) comm info SamplePrefetch.registry (fun _ => 0) (fun _ => Sample.wq) (fun _ => Sample.cq) (fun _ => Sample.mi).
Proof.
  intros Hw E. destruct (kernel_fields _ _ _ _ _ _ _ _ _ _ _ Sample.scratch experts _ (sample_launched w params l Hw E)) as (E1 & E2 & _ & _ & _ & _ & _ & Hqp & _). clear E.
  constructor.
  - done.
  - done.
  - intros o [Ho _]. rewrite E2 in Ho. cbn in Ho. change (UdmaTypes.qpNum info) with 32 in Hqp.
    assert (qp_entry (Some info) o (physicalQp_ (kernel comm l params (block w) Sample.scratch experts 4096)) <> None) as Hqe.
    { unfold qp_entry. change (UdmaTypes.qpNum info) with 32. rewrite (proj2 (Z.leb_gt 32 _)) by lia. done. }
    constructor; [reflexivity|reflexivity|constructor| |discriminate|].
      * exists info. unfold TILEXR_UDMA_DEVICE_MAX_QP_COUNT. change (UdmaTypes.qpNum info) with 32. split_and!; (done || lia).
      * unfold UDMAGetWQCtx. destruct (qp_entry _ _ _) as [[i e]|] eqn:Eq; [|done]. unfold qp_entry in Eq. case_if_in Eq; [done|]. by injection Eq as <- <-.
      * unfold UDMAGetSCQCtx. destruct (qp_entry _ _ _) as [[i e]|] eqn:Eq; [|done]. unfold qp_entry in Eq. case_if_in Eq; [done|]. by injection Eq as <- <-.
      * exact Sample.sample_contexts.
      * unfold UDMAGetRemoteMemInfo. destruct (qp_entry _ _ _) as [[i e]|] eqn:Eq; [|done]. unfold qp_entry in Eq. case_if_in Eq; [done|]. by injection Eq as <- <-.
      * cbn. unfold UINT64_MAX. lia.
  - done.
  - done.
  - done.
Qed.

(** A kernel that was launched without its arguments. *)
Definition unset (w : Z) : PrefetchWeightKernel :=
  let nowhere := {| localBase := 0; registryOffset := 0; f_rowBytes := 0 |} in
  TileXRMoonEpLaunchPrefetchWeightKernel (block w) Sample.scratch None None 0
    {| wp_comm := 0; wp_plan := {| p_structSize := 0; p_abiVersion := 0; p_n := 0; p_r := 0; p_e := 0; p_b := 0; p_nvS := 0; p_k := 0; planPointers := false |};
       wp_gate := 0; wp_up := 0; wp_down := 0; wp_stream := 0 |}
    {| f_gate := nowhere; f_up := nowhere; f_down := nowhere; f_expertsPerRank := 0; f_prefetchSlots := 0; f_rank := 0; f_rankSize := 0; f_qpNum := 0;
       f_blockDim := 2; physicalQpMap := 0 |}.
End SampleLaunch.

Lemma prefetch_reads_complete_witness : exists params l, SampleLaunch.is_prepared params l /\
  let reads := worker_reads SampleLaunch.comm l params (SampleLaunch.block 1) Sample.scratch SampleLaunch.experts 4096 in
  map r_owner reads = [3; 3; 3] /\ map r_expert reads = [1; 1; 1] /\
  Forall (in_regions SampleLaunch.comm SamplePrefetch.registry l params (SampleLaunch.block 1) Sample.scratch SampleLaunch.experts 4096) reads.
Proof.
  destruct SampleLaunch.prepared as [[params [h dev l]]|e] eqn:E0; [|vm_compute in E0; discriminate E0]. exists params, l.
  assert (SampleLaunch.is_prepared params l) as E.
  { unfold SampleLaunch.is_prepared. rewrite E0. vm_compute in E0. injection E0 as <- <- <- <-. reflexivity. }
  clear E0. split; [exact E|]. cbv zeta. assert (0 <= 1 < 2) as Hw by lia.
  pose proof (proj1 (prefetch_reads_complete _ _ _ _ _ _ _ _ _ _ _ Sample.scratch SampleLaunch.experts _ Sample.hw (fun _ => 0) (fun _ => Sample.wq) (fun _ => Sample.cq) (fun _ => Sample.mi)
    (fun _ => Sample.log) (fun _ => 1) Sample.mem 7 (SampleLaunch.sample_launched 1 params l Hw E) (SampleLaunch.sample_fabric 1 params l Hw E)
    ltac:(vm_compute in E; injection E as <- <-; intros o _; split; [split; vm_compute; discriminate|vm_compute; discriminate])
    ltac:(intros o _; exact Sample.sample_ring))) as H.
  split; [|split; [|exact H]]; clear H; vm_compute in E; injection E as <- <-; vm_compute; reflexivity.
Defined.

Lemma prefetch_status_reports_witness :
  let code w := workerStatus (run_worker Sample.hw true (SampleLaunch.unset w) Sample.mem 7) in
  Process [1; 0] code <> kPrefetchWeightStatusSuccess /\ exists w, 0 <= w < 2 /\ Process [1; 0] code = code w.
Proof.
  cbv zeta. assert ([1; 0] ≡ₚ seqZ 0 2) as Hp by (apply perm_swap).
  destruct (prefetch_status_reports 2 [1; 0] (fun _ => Sample.hw) true SampleLaunch.unset (fun _ => Sample.mem) (fun _ => 7) Hp) as (H1 & H2 & _).
  match type of H2 with ?P -> _ => assert P as Hne end.
  - intros H. assert (0 <= 0 < 2) as H0 by lia. pose proof (proj1 H1 H 0 H0) as Hc. vm_compute in Hc. discriminate Hc.
  - split; [exact Hne|]. destruct (H2 Hne) as (w & Hw & _ & E). exists w. split; assumption.
Defined.
