(* ===== verification/GradKernel.v ===== *)
(** The gradient reduction kernel (src/src/moonep/reduce_grad/kernels/
    tilexr_moonep_reduce_grad_kernel.cpp), the parts that compute: the check of the configuration,
    the tokens and the words of a lane, the helpers of a lane, and the contributors of a wave.
    The members of the kernel class are the fields of the host layout, which the launch copies
    (host/reduce_grad_launch.cpp), with a few more from the launch itself. *)
From S2P Require Import Prelude Layouts CombineWire GradLayout.

(** The launch beside the layout: whether the pointers are set and the profile registry is valid,
    what the registry says, and the block count, the magic, the poll limit ([waitIterations], one
    when it is zero) and the plan. *)
Record GradLaunch := {
  dataPointers : bool; workspacePointers : bool; profileRegistryValid : bool;
  registryRegions : Z; registryQps : Z; blockCount : Z; magic : Z; peerMem : bool;
  waitIterations_ : Z;
  expertsToCopy_ : Z -> Z
}.

Definition kReduceGradProfileRegionCount : Z := 4.

Definition CeilDivU64 (value divisor : Z) : Z :=
  if divisor =? 0 then 0 else (value / divisor + (if value mod divisor =? 0 then 0 else 1))%u64.

Section kernel.
Context (l : ReduceGradLayout) (k : GradLaunch).

Definition CollectiveConfigurationValid (blockIdx : Z) : bool :=
  (0 <=? g_rank l) && (g_rank l <? g_rankSize l) && (kReduceGradMinRankCount <=? g_rankSize l) &&
  (g_rankSize l <=? TILEXR_MAX_RANK_SIZE) && negb (blockCount k =? 0) && (blockIdx <? blockCount k) &&
  (0 <? magic k) && peerMem k.

Definition lanes_distinct : bool :=
  forallb (fun lane => (lanePhysicalQps l lane <? transportQpCount l) &&
      forallb (fun prior => negb (lanePhysicalQps l prior =? lanePhysicalQps l lane)) (seqZ 0 lane))
    (seqZ 0 (laneCount l)).

(** The cursor behind the queue pairs of the projections, or a mismatch. *)
Definition projections_cursor : Z + unit :=
  loop_ret (fun p cursor =>
      if (projectionQpCounts l p =? 0) || negb (projectionQpBase l p =? cursor) ||
         negb (chunkCounts l p =? CeilDivU64 (rowBytes l p) (chunkBytes l)) then inr tt
      else inl (cursor + projectionQpCounts l p)%u32)
    (seqZ 0 kReduceGradProjectionCount) 0.

Definition ConfigurationValid : bool :=
  if negb (dataPointers k) || (g_expertCount l <=? 0) || (g_expertsPerRank l <=? 0) ||
     negb (g_expertCount l =? g_expertsPerRank l * g_rankSize l) || (INT32_MAX <? g_expertCount l) ||
     (g_prefetchSlots l <=? 0) || (INT32_MAX <? g_prefetchSlots l) ||
     (INT32_MAX / g_rankSize l <? g_prefetchSlots l) || (blockCount k <? (2 * laneCount l)%u32)
  then false
  else if existsb (fun p => (rowElements l p =? 0) || (rowBytes l p =? 0) ||
            negb (rowBytes l p =? (rowElements l p * 4)%u64)) (seqZ 0 kReduceGradProjectionCount)
  then false
  else if negb (workspacePointers k) || (transportQpCount l <? kReduceGradMinMultiRankQpCount) ||
     (kReduceGradMaxTransportQpCount <? transportQpCount l) ||
     (qpCount l <? kReduceGradProjectionCount) || (kReduceGradMaxUdmaQpCount <? qpCount l) ||
     negb (laneCount l =? qpCount l) || (chunkBytes l =? 0) || (UINT32_MAX <? chunkBytes l) ||
     (laneStateBytes l <? (laneCount l * kReduceGradLaneStateStrideBytes)%u64) ||
     negb (stagingOffset l =? laneStateBytes l) ||
     negb (bankStrideBytes l =? (g_rankSize l * chunkBytes l)%u64) ||
     negb (laneStrideBytes l =? (kReduceGradBankCount * bankStrideBytes l)%u64) ||
     (workspaceBytes l <? (stagingOffset l + laneCount l * laneStrideBytes l)%u64) ||
     negb (profileRegistryValid k) || negb (registryRegions k =? kReduceGradProfileRegionCount) ||
     negb (registryQps k =? transportQpCount l)
  then false
  else if negb lanes_distinct then false
  else match projections_cursor with
    | inr _ => false
    | inl cursor => cursor =? qpCount l
    end.

(** ** Tokens and words *)

Definition LaneToken (sequence : Z) : Z := (Z.lor (Z.shiftl (u32 (magic k)) 32) sequence).

Definition LaneAbortToken : Z := LaneToken UINT32_MAX.

(** [kReduceGradProjectionCount] when no projection has the lane. *)
Definition ProjectionForLane (lane : Z) : Z :=
  found kReduceGradProjectionCount
    (loop_ret (fun p (_ : unit) =>
        if (projectionQpBase l p <=? lane) && (lane <? (projectionQpBase l p + projectionQpCounts l p)%u32)
        then inr p else inl tt)
      (seqZ 0 kReduceGradProjectionCount) tt).

(** Offsets from the start of the workspace. *)
Definition BankReady (lane bank : Z) : Z :=
  lane * kReduceGradLaneStateStrideBytes + kReduceGradBankReadyOffset + bank * kReduceGradLaneFlagStrideBytes.

Definition BankDoneToken (lane bank helperIndex : Z) : Z :=
  lane * kReduceGradLaneStateStrideBytes + kReduceGradBankDoneOffset +
  bank * kReduceGradDoneBankStrideBytes + helperIndex * kReduceGradDoneTokenBytes.

Definition BankItem (lane bank : Z) : Z :=
  lane * kReduceGradLaneStateStrideBytes + kReduceGradBankItemOffset + bank * kReduceGradLaneFlagStrideBytes.

Definition LaneAbort (lane : Z) : Z :=
  lane * kReduceGradLaneStateStrideBytes + kReduceGradLaneErrorOffset.

Definition BankPayload (lane bank : Z) : Z :=
  stagingOffset l + lane * laneStrideBytes l + bank * bankStrideBytes l.

(** ** Helpers *)

(** [(helperCount, helperBegin)]. *)
Definition HelperShape (lane : Z) : Z * Z :=
  let totalHelpers := (blockCount k - laneCount l)%u32 in
  let base := totalHelpers / laneCount l in
  let extra := totalHelpers mod laneCount l in
  ((base + (if lane <? extra then 1 else 0))%u32,
   (laneCount l + lane * base + (if lane <? extra then lane else extra))%u32).

(** [(lane, helperIndex, helperCount)]. *)
Definition HelperLane (blockIdx : Z) : Z * Z * Z :=
  let ordinal := (blockIdx - laneCount l)%u32 in
  let totalHelpers := (blockCount k - laneCount l)%u32 in
  let base := totalHelpers / laneCount l in
  let extra := totalHelpers mod laneCount l in
  let wider := ((base + 1) * extra)%u32 in
  if ordinal <? wider then (ordinal / (base + 1)%u32, ordinal mod (base + 1)%u32, (base + 1)%u32)
  else
    let tailOrdinal := (ordinal - wider)%u32 in
    ((extra + tailOrdinal / base)%u32, tailOrdinal mod base, base).

(** ** Contributors *)

Definition plan_entries : Z := g_rankSize l * g_prefetchSlots l.

Definition CountContributors (globalExpert : Z) : Z :=
  foldl (fun count entry => if expertsToCopy_ k entry =? globalExpert then (count + 1)%u32 else count)
    0 (seqZ 0 plan_entries).

(** One entry of the loops that collect a wave: [(matching, contributors)]. *)
Definition collect_entry (globalExpert waveStart contributorCount : Z) (acc : Z * list Z) (entry : Z) : Z * list Z :=
  let '(matching, contributors) := acc in
  if negb (Z.of_nat (length contributors) <? contributorCount) then acc
  else if negb (expertsToCopy_ k entry =? globalExpert) then acc
  else if matching <? waveStart then ((matching + 1)%u32, contributors)
  else ((matching + 1)%u32, contributors ++ [entry]).

Definition CollectWaveContributors (globalExpert waveStart contributorCount : Z) : list Z :=
  snd (foldl (collect_entry globalExpert waveStart contributorCount) (0, []) (seqZ 0 plan_entries)).

Definition remote_entry (entry : Z) : bool := negb (entry / g_prefetchSlots l =? g_rank l).
End kernel.

(** ** The host's layout is accepted *)

Lemma ceil_div_u64 v d : 0 <= v <= UINT64_MAX -> 0 < d -> CeilDivU64 v d = ceil_div v d.
Proof.
  intros Hv Hd. unfold CeilDivU64. rewrite (proj2 (Z.eqb_neq d 0)) by lia.
  pose proof (divide_round_up v d ltac:(lia) Hd) as H. unfold DivideRoundUp in H. rewrite (proj2 (Z.eqb_neq d 0)) in H by lia.
  injection H as <-. pose proof (Z.div_mod v d ltac:(lia)). pose proof (Z.mod_pos_bound v d Hd).
  pose proof (Z.div_pos v d ltac:(lia) Hd). unfold UINT64_MAX in *.
  destruct (Z.eqb_spec (v mod d) 0); cbn [negb]; rewrite u64_small; nia.
Qed.

(** The pointers and the registry of a launch. *)
Record launch_ok (l : ReduceGradLayout) (k : GradLaunch) : Prop := {
  lk_data : dataPointers k = true;
  lk_workspace : workspacePointers k = true;
  lk_registry : profileRegistryValid k = true;
  lk_regions : registryRegions k = kReduceGradProfileRegionCount;
  lk_qps : registryQps k = transportQpCount l;
  lk_blocks : blockCount k = blockDim l;
  lk_magic : 0 < magic k;
  lk_peer : peerMem k = true
}.

Lemma lanes_distinct_ok l : (forall lane, 0 <= lane < laneCount l -> 0 <= lanePhysicalQps l lane < transportQpCount l) ->
  (forall lane lane', 0 <= lane < laneCount l -> 0 <= lane' < laneCount l ->
     lanePhysicalQps l lane = lanePhysicalQps l lane' -> lane = lane') -> lanes_distinct l = true.
Proof.
  intros H1 H2. apply List.forallb_forall. intros lane Hl%list_elem_of_In%elem_of_seqZ0. apply andb_true_iff. split.
  - apply Z.ltb_lt, H1, Hl.
  - apply List.forallb_forall. intros prior Hp%list_elem_of_In%elem_of_seqZ0. apply negb_true_iff, Z.eqb_neq.
    intros E1. apply H2 in E1; lia.
Qed.

Lemma cursor_ok l : grad_layout_ok l -> projections_cursor l = inl (qpCount l).
Proof.
  intros Hl. destruct (gl_split l Hl) as [S1 S2 S3 S4 S5 _ _]. destruct (gl_lanes l Hl) as [_ Hq].
  pose proof (S1 0 ltac:(lia)). pose proof (S1 1 ltac:(lia)). pose proof (S1 2 ltac:(lia)).
  assert (forall p, 0 <= p < 3 -> (projectionQpCounts l p =? 0) = false /\
    (chunkCounts l p =? CeilDivU64 (rowBytes l p) (chunkBytes l)) = true) as Hp.
  { intros p Hp. split; [pose proof (S1 p Hp); lia|]. apply Z.eqb_eq. rewrite (gl_chunks l Hl p Hp).
    destruct (gl_rows l Hl p Hp) as [_ Hr]. destruct (gl_chunk l Hl) as [Hc _]. by rewrite ceil_div_u64 by lia. }
  unfold projections_cursor. change (seqZ 0 kReduceGradProjectionCount) with [0; 1; 2]. cbn [loop_ret].
  destruct (Hp 0 ltac:(lia)) as [-> ->], (Hp 1 ltac:(lia)) as [-> ->], (Hp 2 ltac:(lia)) as [-> ->]. cbn [orb negb].
  rewrite S3, S4, S5, Z.eqb_refl. cbn [negb orb]. rewrite (u32_small (0 + _)), Z.add_0_l, Z.eqb_refl by lia. cbn [negb orb].
  rewrite (u32_small (projectionQpCounts l 0 + _)), Z.eqb_refl by lia. cbn [negb orb]. rewrite u32_small by lia. f_equal. lia.
Qed.

Lemma config_ok l k : grad_layout_ok l -> launch_ok l k ->
  ConfigurationValid l k = true /\ forall block, block < blockCount k -> CollectiveConfigurationValid l k block = true.
Proof.
  intros Hl [K1 K2 K3 K4 K5 K6 K7 K8]. split.
  - unfold ConfigurationValid. rewrite K1, K2, K3, K4, K5, K6.
    destruct (gl_physical l Hl) as [P1 P2]. rewrite (lanes_distinct_ok l P1 P2), (cursor_ok l Hl). cbn [negb].
    destruct (gl_ranks l Hl), (gl_experts l Hl) as (E1 & E2 & E3), (gl_slots l Hl) as [B1 B2], (gl_lanes l Hl) as [L1 L2],
      (gl_blocks l Hl), (gl_transport l Hl), (gl_chunk l Hl) as [C1 C2], (gl_state l Hl) as [T1 T2], (gl_banks l Hl) as [N1 N2],
      (gl_total l Hl) as [W1 W2].
    assert (INT32_MAX / g_rankSize l <= INT32_MAX) as HI by (apply Z.div_le_upper_bound; unfold INT32_MAX; lia).
    assert (0 < g_expertsPerRank l * g_rankSize l) by (apply Z.mul_pos_pos; lia).
    assert (0 <= g_rankSize l * chunkBytes l) by (apply Z.mul_nonneg_nonneg; lia).
    assert (0 <= laneStrideBytes l) by lia.
    assert (laneStrideBytes l <= laneCount l * laneStrideBytes l) by nia.
    unfold kReduceGradLaneStateStrideBytes, kReduceGradBankCount, kReduceGradMinMultiRankQpCount, kReduceGradProjectionCount,
      kReduceGradMaxTransportQpCount, kReduceGradMaxUdmaQpCount, UINT32_MAX, UINT64_MAX in *.
    rewrite !u32_small by lia. rewrite (u64_small (laneCount l * 8192)), (u64_small (g_rankSize l * _)), (u64_small (2 * _)) by lia.
    rewrite (u64_small (laneCount l * laneStrideBytes l)), (u64_small (stagingOffset l + _)) by lia.
    case_if; [exfalso; b2p; repeat match goal with H : _ \/ _ |- _ => destruct H; b2p end; try done; lia|].
    assert (existsb (fun p => (rowElements l p =? 0) || (rowBytes l p =? 0) || negb (rowBytes l p =? u64 (rowElements l p * 4)))
      (seqZ 0 3) = false) as ->.
    { apply not_true_iff_false. intros (p & Hp%list_elem_of_In%elem_of_seqZ0 & Hx)%List.existsb_exists.
      destruct (gl_rows l Hl p Hp) as [R1 R2]. unfold UINT64_MAX in R2. rewrite u64_small in Hx by lia.
      apply orb_true_iff in Hx as [Hx|Hx]; [apply orb_true_iff in Hx as [Hx|Hx]|]; b2p; lia. }
    case_if; [exfalso; b2p; repeat match goal with H : _ \/ _ |- _ => destruct H; b2p end; try done; lia|].
    apply Z.eqb_refl.
  - intros block Hb. unfold CollectiveConfigurationValid, kReduceGradMinRankCount, TILEXR_MAX_RANK_SIZE. rewrite K8.
    destruct (gl_ranks l Hl), (gl_rank l Hl), (gl_blocks l Hl), (gl_lanes l Hl). rewrite !andb_true_iff, !negb_true_iff.
    repeat split; try lia.
Qed.
