(* ===== verification/GradWave.v ===== *)
(** The work of the gradient reduction kernel (src/src/moonep/reduce_grad/kernels/
    tilexr_moonep_reduce_grad_kernel.cpp): the waves a lane's leader goes through, the gets it
    posts for one, the items it publishes, and what a helper does with an item. Memory is a
    function from byte offsets to the numbers that start there, so a copy of a range of bytes
    copies the numbers in it; the numbers and their addition are parameters, because the addition
    of the device is not associative and its order is part of what is shown. Addresses are offsets
    into the buffers they belong to and do not wrap. *)
From S2P Require Import Prelude Layouts CombineWire UdmaTypes GradLayout GradKernel.

Definition MinU64 (lhs rhs : Z) : Z := if lhs <? rhs then lhs else rhs.

Definition kReduceGradStagingRegion : Z := 0.
Definition kReduceGradDeviceInvalidState : Z := 1.
Definition kReduceGradDeviceUdmaTimeout : Z := 2.
Definition kReduceGradDeviceUdmaCqError : Z := 3.
Definition kReduceGradDeviceLeaderTimeout : Z := 4.
Definition kReduceGradDeviceHelperTimeout : Z := 5.
Definition kReduceGradBankWork : Z := 0.
Definition kReduceGradBankTerminal : Z := 1.

(** The first status that is published stays. *)
Definition PublishStatus (status value : Z) : Z :=
  if negb (value =? 0) then (if status =? 0 then value else status) else status.

(** ** Items *)

Record ReduceGradBankItem := {
  it_token : Z; it_chunkIndex : Z; it_chunkBytes : Z; it_kind : Z; it_projection : Z;
  it_localExpert : Z; it_waveStart : Z; it_contributorCount : Z; it_remoteContributorCount : Z
}.

Definition PackUint32Pair (low high : Z) : Z := Z.lor low (u64 (Z.shiftl high 32)).

(** The eight words [PublishItem] copies to the item of a bank. *)
Definition PublishItem (it : ReduceGradBankItem) : list Z :=
  [it_token it; it_chunkIndex it; it_chunkBytes it; PackUint32Pair (it_kind it) (it_projection it);
   PackUint32Pair (it_localExpert it) (it_waveStart it);
   PackUint32Pair (it_contributorCount it) (it_remoteContributorCount it); 0; 0].

Definition LoadItem (words : list Z) : ReduceGradBankItem :=
  let kindProjection := nth 3 words 0 in
  let expertWave := nth 4 words 0 in
  let contributors := nth 5 words 0 in
  {| it_token := nth 0 words 0; it_chunkIndex := nth 1 words 0; it_chunkBytes := nth 2 words 0;
     it_kind := u32 kindProjection; it_projection := u32 (Z.shiftr kindProjection 32);
     it_localExpert := u32 expertWave; it_waveStart := u32 (Z.shiftr expertWave 32);
     it_contributorCount := u32 contributors; it_remoteContributorCount := u32 (Z.shiftr contributors 32) |}.

(** ** Waves *)

(** The variables of the three loops of [RunLaneLeader] at one turn. *)
Record Wave := { wv_expert : Z; wv_chunk : Z; wv_start : Z; wv_count : Z }.

Record ReduceGradPendingWave := {
  pw_used : Z -> bool; pw_frontiers : Z -> Z; pw_chunkIndex : Z; pw_itemChunkBytes : Z;
  pw_sequence : Z; pw_projection : Z; pw_localExpert : Z; pw_waveStart : Z;
  pw_contributorCount : Z; pw_remoteContributorCount : Z
}.

(** A get that was posted: the peer and the queue pair, the offset in the staging region, the
    region and the offset at the peer, and the size. *)
Record Get := {
  get_rank : Z; get_qp : Z; get_local : Z; get_region : Z; get_remote : Z; get_bytes : Z
}.

(** The locals of the loop over the entries: [collected], [matching], the remote count, [used],
    the gets that were posted and the statuses that were published. *)
Record Issue := {
  is_matching : Z; is_collected : Z; is_remote : Z; is_used : Z -> bool; is_gets : list Get;
  is_statuses : list Z
}.

Section waves.
Context (l : ReduceGradLayout) (k : GradLaunch).

Definition globalExpert (localExpert : Z) : Z := g_rank l * g_expertsPerRank l + localExpert.

Definition wave_starts (totalContributors : Z) : list Z :=
  (fun wave => wave * g_rankSize l) <$> seqZ 0 (CeilDivU64 totalContributors (g_rankSize l)).

(** The waves of a lane in the order of the loops. *)
Definition lane_waves (lane : Z) : list Wave :=
  let projection := ProjectionForLane l lane in
  let projectionLane := (lane - projectionQpBase l projection)%u32 in
  localExpert ← seqZ 0 (g_expertsPerRank l);
  let totalContributors := CountContributors l k (globalExpert localExpert) in
  if totalContributors =? 0 then []
  else
    chunk ← seqZ 0 (chunkCounts l projection);
    let workOrdinal := (localExpert * chunkCounts l projection + chunk)%u64 in
    if negb (workOrdinal mod projectionQpCounts l projection =? projectionLane) then []
    else (fun waveStart =>
        {| wv_expert := localExpert; wv_chunk := chunk; wv_start := waveStart;
           wv_count := u32 (MinU64 (totalContributors - waveStart)%u32 (u32 (g_rankSize l))) |})
      <$> wave_starts totalContributors.

(** What one entry of the plan does; [post] says which gets the queue accepts. *)
Definition issue_entry (lane projection bank : Z) (expert chunkOffset bytes waveStart contributorCount : Z)
    (post : Get -> bool) (st : Issue) (entry : Z) : Issue :=
  if negb (is_collected st <? contributorCount) then st
  else if negb (expertsToCopy_ k entry =? expert) then st
  else
    let matched := {| is_matching := (is_matching st + 1)%u32; is_collected := is_collected st;
      is_remote := is_remote st; is_used := is_used st; is_gets := is_gets st; is_statuses := is_statuses st |} in
    if is_matching st <? waveStart then matched
    else
      let sourceRank := entry / g_prefetchSlots l in
      let slot := entry mod g_prefetchSlots l in
      if sourceRank =? g_rank l then
        {| is_matching := is_matching matched; is_collected := (is_collected st + 1)%u32;
           is_remote := is_remote st; is_used := is_used st; is_gets := is_gets st; is_statuses := is_statuses st |}
      else
        let get := {| get_rank := sourceRank; get_qp := lanePhysicalQps l lane;
          get_local := stagingOffset l + lane * laneStrideBytes l + bank * bankStrideBytes l +
                       is_remote st * chunkBytes l;
          get_region := (projection + 1)%u32; get_remote := slot * rowBytes l projection + chunkOffset;
          get_bytes := bytes |} in
        let posted := post get in
        {| is_matching := is_matching matched; is_collected := (is_collected st + 1)%u32;
           is_remote := (is_remote st + 1)%u32;
           is_used := if posted then upd1 (is_used st) sourceRank true else is_used st;
           is_gets := if posted then is_gets st ++ [get] else is_gets st;
           is_statuses := if posted then is_statuses st else is_statuses st ++ [kReduceGradDeviceUdmaCqError] |}.

Definition issue_entries (lane projection bank : Z) (w : Wave) (post : Get -> bool) : Issue :=
  let chunkOffset := wv_chunk w * chunkBytes l in
  foldl (issue_entry lane projection bank (globalExpert (wv_expert w)) chunkOffset
           (MinU64 (rowBytes l projection - chunkOffset)%u64 (chunkBytes l)) (wv_start w) (wv_count w) post)
    {| is_matching := 0; is_collected := 0; is_remote := 0; is_used := fun _ => false; is_gets := []; is_statuses := [] |}
    (seqZ 0 (plan_entries l)).

(** The pending wave, the gets that were posted and the statuses: the wave failed when there is
    one. [head] is the number of gets each queue has been given before, [flush] says which door
    bells are accepted. *)
Definition IssueWave (lane projection bank : Z) (w : Wave) (sequence : Z) (post : Get -> bool) (head : Z -> Z)
    (flush : Z -> bool) : ReduceGradPendingWave * list Get * list Z :=
  let st := issue_entries lane projection bank w post in
  let collected := if is_collected st =? wv_count w then [] else [kReduceGradDeviceInvalidState] in
  let flushed := (fun _ => kReduceGradDeviceUdmaCqError) <$>
    filter (fun rank => is_used st rank && negb (flush rank) = true) (seqZ 0 (g_rankSize l)) in
  ({| pw_used := is_used st;
      pw_frontiers := fun rank => if is_used st rank
        then head rank + Z.of_nat (length (filter (fun g => get_rank g = rank) (is_gets st))) else 0;
      pw_chunkIndex := wv_chunk w;
      pw_itemChunkBytes := MinU64 (rowBytes l projection - wv_chunk w * chunkBytes l)%u64 (chunkBytes l);
      pw_sequence := sequence; pw_projection := projection;
      pw_localExpert := u32 (globalExpert (wv_expert w) - g_rank l * g_expertsPerRank l);
      pw_waveStart := wv_start w; pw_contributorCount := wv_count w; pw_remoteContributorCount := is_remote st |},
   is_gets st, is_statuses st ++ collected ++ flushed).

(** The statuses of the wait for the gets of a wave, none when it completed; [quiet] is the
    status of each queue. *)
Definition CompleteWave (pending : ReduceGradPendingWave) (quiet : Z -> Z) : list Z :=
  (fun rank => if quiet rank =? TILEXR_UDMA_STATUS_CQ_TIMEOUT then kReduceGradDeviceUdmaTimeout
               else kReduceGradDeviceUdmaCqError) <$>
  filter (fun rank => pw_used pending rank && negb (quiet rank =? TILEXR_UDMA_STATUS_SUCCESS) = true)
    (seqZ 0 (g_rankSize l)).

(** The item of a wave that completed. *)
Definition work_item (ready : ReduceGradPendingWave) : ReduceGradBankItem :=
  {| it_token := LaneToken k (pw_sequence ready); it_chunkIndex := pw_chunkIndex ready;
     it_chunkBytes := pw_itemChunkBytes ready; it_kind := kReduceGradBankWork;
     it_projection := pw_projection ready; it_localExpert := pw_localExpert ready;
     it_waveStart := pw_waveStart ready; it_contributorCount := pw_contributorCount ready;
     it_remoteContributorCount := pw_remoteContributorCount ready |}.

Definition terminal_item (sequence : Z) : ReduceGradBankItem :=
  {| it_token := LaneToken k sequence; it_chunkIndex := 0; it_chunkBytes := 0; it_kind := kReduceGradBankTerminal;
     it_projection := 0; it_localExpert := 0; it_waveStart := 0; it_contributorCount := 0;
     it_remoteContributorCount := 0 |}.

(** The contributors of an item, or [None] when [ProcessBankItem] refuses it. *)
Definition item_contributors (it : ReduceGradBankItem) : option (list Z) :=
  if (kReduceGradProjectionCount <=? it_projection it) || (u32 (g_expertsPerRank l) <=? it_localExpert it) ||
     (it_contributorCount it =? 0) || (u32 (g_rankSize l) <? it_contributorCount it) ||
     (chunkCounts l (it_projection it) <=? it_chunkIndex it) || (it_chunkBytes it =? 0) ||
     (chunkBytes l <? it_chunkBytes it)
  then None
  else
    let contributors := CollectWaveContributors l k (globalExpert (it_localExpert it)) (it_waveStart it)
                          (it_contributorCount it) in
    if negb (Z.of_nat (length contributors) =? it_contributorCount it) then None
    else if negb (Z.of_nat (length (filter (fun entry => remote_entry l entry = true) contributors)) =?
                  it_remoteContributorCount it) then None
    else Some contributors.

Definition item_tiles (it : ReduceGradBankItem) : Z := CeilDivU64 (it_chunkBytes it) kReduceGradKernelTileBytes.

Definition tile_bytes (it : ReduceGradBankItem) (tile : Z) : Z :=
  u32 (MinU64 (it_chunkBytes it - tile * kReduceGradKernelTileBytes)%u64 kReduceGradKernelTileBytes).

(** The offset of the chunk of an item in the gradients of its projection. *)
Definition item_output (it : ReduceGradBankItem) : Z :=
  globalExpert (it_localExpert it) * rowBytes l (it_projection it) + it_chunkIndex it * chunkBytes l.
End waves.

(** ** Tiles *)

(** Where a contributor's numbers are: in this rank's source of the projection, or in the
    workspace. *)
Inductive Address := SourceAt (projection offset : Z) | WorkspaceAt (offset : Z).

Section tiles.
Context (l : ReduceGradLayout) {V : Type} (vadd : V -> V -> V) (sources : Z -> Z -> Z -> V).

(** A copy of [bytes] bytes. *)
Definition DataCopyPad (dst : Z -> V) (dstOffset : Z) (src : Z -> V) (srcOffset bytes : Z) : Z -> V :=
  fun a => if (dstOffset <=? a) && (a <? dstOffset + bytes) then src (srcOffset + (a - dstOffset)) else dst a.

(** The address and [remoteOrdinal] behind it. *)
Definition ContributorAddress (projection contributor bankPayload remoteOrdinal chunkOffset tileOffset : Z)
    : Address * Z :=
  let sourceRank := contributor / g_prefetchSlots l in
  let slot := contributor mod g_prefetchSlots l in
  if sourceRank =? g_rank l
  then (SourceAt projection (slot * rowBytes l projection + chunkOffset + tileOffset), remoteOrdinal)
  else (WorkspaceAt (bankPayload + remoteOrdinal * chunkBytes l + tileOffset), (remoteOrdinal + 1)%u32).

Definition CopyGmToUb (workspace : Z -> V) (destination : Z -> V) (source : Address) (bytes : Z) : Z -> V :=
  match source with
  | SourceAt projection offset => DataCopyPad destination 0 (sources (g_rank l) projection) offset bytes
  | WorkspaceAt offset => DataCopyPad destination 0 workspace offset bytes
  end.

(** The two accumulators and the two inputs of a core. *)
Record Ub := { ub_accum : Z -> Z -> V; ub_input : Z -> Z -> V }.

Definition PrefetchAccumulator (gradients : Z -> V) (output tileOffset tileBytes accumIndex : Z)
    (accum : Z -> Z -> V) : Z -> Z -> V :=
  upd1 accum accumIndex (DataCopyPad (accum accumIndex) 0 gradients (output + tileOffset) tileBytes).

(** The turn of a contributor: the next input or, behind the last one, the accumulator of the
    next tile [(offset, bytes)] is loaded, then the current input is added. *)
Definition accumulate_contributor (workspace gradients : Z -> V) (projection output bankPayload : Z)
    (contributors : list Z) (contributorCount chunkOffset tileOffset tileBytes accumIndex : Z)
    (nextTile : option (Z * Z)) (acc : Ub * Z) (contributor : Z) : Ub * Z :=
  let '(ub, remoteOrdinal) := acc in
  let current := Z.land contributor 1 in
  let '(accum, input, remoteOrdinal') :=
    if (contributor + 1)%u32 <? contributorCount then
      let next := Z.lxor current 1 in
      let '(nextSource, ordinal) := ContributorAddress projection
        (nth (Z.to_nat (contributor + 1)) contributors 0) bankPayload remoteOrdinal chunkOffset tileOffset in
      (ub_accum ub, upd1 (ub_input ub) next (CopyGmToUb workspace (ub_input ub next) nextSource tileBytes), ordinal)
    else (match nextTile with
          | Some (nextTileOffset, nextTileBytes) =>
              PrefetchAccumulator gradients output nextTileOffset nextTileBytes (Z.lxor accumIndex 1) (ub_accum ub)
          | None => ub_accum ub
          end, ub_input ub, remoteOrdinal) in
  ({| ub_accum := upd1 accum accumIndex
        (fun a => if (0 <=? a) && (a <? tileBytes / 4 * 4) then vadd (accum accumIndex a) (input current a)
                  else accum accumIndex a);
      ub_input := input |}, remoteOrdinal').

(** The gradients of the projection and the buffers after a tile. *)
Definition AccumulateTile (workspace gradients : Z -> V) (projection output bankPayload : Z)
    (contributors : list Z) (contributorCount chunkOffset tileOffset tileBytes accumIndex : Z)
    (nextTile : option (Z * Z)) (ub : Ub) : (Z -> V) * Ub :=
  let '(firstSource, ordinal) := ContributorAddress projection (nth 0 contributors 0) bankPayload 0 chunkOffset tileOffset in
  let loaded := {| ub_accum := ub_accum ub;
                   ub_input := upd1 (ub_input ub) 0 (CopyGmToUb workspace (ub_input ub 0) firstSource tileBytes) |} in
  let '(ub', _) := foldl (accumulate_contributor workspace gradients projection output bankPayload contributors
      contributorCount chunkOffset tileOffset tileBytes accumIndex nextTile)
    (loaded, ordinal) (seqZ 0 contributorCount) in
  (DataCopyPad gradients (output + tileOffset) (ub_accum ub' accumIndex) 0 tileBytes, ub').
End tiles.
