(* ===== verification/GradTile.v ===== *)
(** What a wave and a tile of the gradient reduction do: the contributors of a wave are a window
    of the plan entries of the expert, the gets of a wave go to consecutive slots of its bank, the
    items survive the trip through the workspace, and a tile adds the contributors in the order of
    the plan, whatever buffer they pass through. *)
From S2P Require Import Prelude Layouts CombineWire UdmaTypes GradLayout GradKernel GradWave.

Section contributors.
Context (l : ReduceGradLayout) (k : GradLaunch).

(** The entries of the plan that hold an expert. *)
Definition holders (expert : Z) : list Z := filter (fun e => expertsToCopy_ k e = expert) (seqZ 0 (plan_entries l)).

Lemma count_contributors expert : 0 <= plan_entries l <= INT32_MAX ->
  CountContributors l k expert = Z.of_nat (length (holders expert)).
Proof.
  intros Hp. unfold CountContributors, holders, INT32_MAX in *.
  assert (Z.of_nat (length (seqZ 0 (plan_entries l))) <= 2147483647) as Hn by (rewrite length_seqZ0; lia).
  revert Hn. generalize (seqZ 0 (plan_entries l)). intros xs. induction xs as [|x xs IH] using rev_ind; [done|].
  rewrite length_app, foldl_app, filter_app, length_app. cbn [foldl length]. intros Hn. rewrite IH by lia.
  pose proof (length_filter (fun e => expertsToCopy_ k e = expert) xs).
  rewrite (filter_cons _ x []), filter_nil. destruct (Z.eqb_spec (expertsToCopy_ k x) expert) as [Ex|Ex].
  - rewrite decide_True by done. cbn [length]. rewrite u32_small; lia.
  - rewrite decide_False by done. cbn [length]. lia.
Qed.

Definition window (expert waveStart count : Z) : list Z :=
  take (Z.to_nat count) (drop (Z.to_nat waveStart) (holders expert)).

(** A window over a list that grows by one. *)
Lemma window_snoc (f : list Z) x ws c : 0 <= ws -> 0 <= c ->
  let w := take (Z.to_nat c) (drop (Z.to_nat ws) f) in
  take (Z.to_nat c) (drop (Z.to_nat ws) (f ++ [x])) =
    if (Z.of_nat (length w) <? c) && (ws <=? Z.of_nat (length f)) then w ++ [x] else w.
Proof.
  intros Hw Hc w. unfold w. destruct (Z.leb_spec ws (Z.of_nat (length f))) as [Hle|Hgt].
  - rewrite drop_app_le by lia. set (d := drop _ f).
    destruct (Z.ltb_spec (Z.of_nat (length (take (Z.to_nat c) d))) c) as [H|H]; rewrite length_take in H; cbn [andb].
    + rewrite (take_ge (d ++ _)) by (rewrite length_app; cbn; lia). rewrite take_ge by lia. done.
    + rewrite take_app_le by lia. done.
  - rewrite andb_false_r. rewrite !drop_ge by (rewrite ?length_app; cbn; lia). done.
Qed.

Lemma collect_window expert ws c : 0 <= plan_entries l <= INT32_MAX -> 0 <= ws -> 0 <= c ->
  CollectWaveContributors l k expert ws c = window expert ws c.
Proof.
  intros Hp Hw Hc. unfold CollectWaveContributors, window, holders, INT32_MAX in *.
  assert (Z.of_nat (length (seqZ 0 (plan_entries l))) <= 2147483647) as Hn by (rewrite length_seqZ0; lia).
  revert Hn. generalize (seqZ 0 (plan_entries l)). intros xs Hn.
  set (F := fun xs : list Z => filter (fun e => expertsToCopy_ k e = expert) xs). change (filter _ xs) with (F xs).
  enough (let r := foldl (collect_entry k expert ws c) (0, []) xs in
    snd r = take (Z.to_nat c) (drop (Z.to_nat ws) (F xs)) /\
    (Z.of_nat (length (snd r)) < c -> fst r = Z.of_nat (length (F xs)))) as [H _] by done.
  induction xs as [|x xs IH] using rev_ind; [split; [change (F []) with (@nil Z); by rewrite drop_nil, take_nil|done]|].
  rewrite length_app in Hn. cbn [length] in Hn. specialize (IH ltac:(lia)). cbv zeta in *. rewrite foldl_app. cbn [foldl].
  destruct (foldl _ _ xs) as [m r]. cbn [fst snd] in IH. destruct IH as [-> IHm]. unfold collect_entry.
  assert (F (xs ++ [x]) = F xs ++ (if expertsToCopy_ k x =? expert then [x] else [])) as ->.
  { unfold F. rewrite filter_app, (filter_cons _ x []), filter_nil.
    destruct (Z.eqb_spec (expertsToCopy_ k x) expert); [by rewrite decide_True by done|by rewrite decide_False by done]. }
  pose proof (length_filter (fun e => expertsToCopy_ k e = expert) xs) as HF. change (filter _ xs) with (F xs) in HF.
  destruct (Z.eqb_spec (expertsToCopy_ k x) expert) as [Ex|Ex]; cbn [negb].
  2: { rewrite app_nil_r. destruct (negb _); cbn [fst snd]; done. }
  rewrite window_snoc by done. cbv zeta. set (w := take _ (drop _ (F xs))) in *. rewrite length_app. cbn [length].
  destruct (Z.ltb_spec (Z.of_nat (length w)) c) as [Hlt|Hge]; cbn [negb andb fst snd]; [|split; [done|lia]].
  specialize (IHm Hlt). subst m. rewrite u32_small by lia.
  destruct (Z.ltb_spec (Z.of_nat (length (F xs))) ws), (Z.leb_spec ws (Z.of_nat (length (F xs)))); try lia; cbn [fst snd];
    (split; [done|lia]).
Qed.

(** ** The gets of a wave *)

Definition remote_count (cs : list Z) : Z := Z.of_nat (length (filter (fun e => remote_entry l e = true) cs)).

Definition wave_get (lane projection bank chunkOffset bytes c ordinal : Z) : Get :=
  {| get_rank := c / g_prefetchSlots l; get_qp := lanePhysicalQps l lane;
     get_local := BankPayload l lane bank + ordinal * chunkBytes l; get_region := (projection + 1)%u32;
     get_remote := c mod g_prefetchSlots l * rowBytes l projection + chunkOffset; get_bytes := bytes |}.

(** The gets of the contributors [cs] when [ordinal] slots are taken. *)
Fixpoint wave_gets (lane projection bank chunkOffset bytes ordinal : Z) (cs : list Z) : list Get :=
  match cs with
  | [] => []
  | c :: cs' =>
      if remote_entry l c then wave_get lane projection bank chunkOffset bytes c ordinal ::
        wave_gets lane projection bank chunkOffset bytes (ordinal + 1) cs'
      else wave_gets lane projection bank chunkOffset bytes ordinal cs'
  end.

Lemma remote_count_app a b : remote_count (a ++ b) = remote_count a + remote_count b.
Proof. unfold remote_count. rewrite filter_app, length_app. lia. Qed.

Lemma remote_count_1 c : remote_count [c] = if remote_entry l c then 1 else 0.
Proof.
  unfold remote_count. rewrite filter_cons, filter_nil.
  destruct (remote_entry l c); [by rewrite decide_True by done|by rewrite decide_False by done].
Qed.

Lemma remote_count_cons c cs : remote_count (c :: cs) = (if remote_entry l c then 1 else 0) + remote_count cs.
Proof. rewrite <- remote_count_1, <- remote_count_app. done. Qed.

Lemma remote_count_le cs : 0 <= remote_count cs <= Z.of_nat (length cs).
Proof. unfold remote_count. pose proof (length_filter (fun e => remote_entry l e = true) cs). lia. Qed.

Lemma wave_gets_app lane p bank off bytes cs1 cs2 : forall o, wave_gets lane p bank off bytes o (cs1 ++ cs2) =
  wave_gets lane p bank off bytes o cs1 ++ wave_gets lane p bank off bytes (o + remote_count cs1) cs2.
Proof.
  induction cs1 as [|c cs1 IH]; intros o; cbn [wave_gets app].
  - unfold remote_count. rewrite filter_nil. cbn. by rewrite Z.add_0_r.
  - rewrite remote_count_cons.
    destruct (remote_entry l c); rewrite IH; cbn [app]; [f_equal|]; do 2 f_equal; lia.
Qed.

Lemma elem_wave_gets lane p bank off bytes g cs : forall o, g ∈ wave_gets lane p bank off bytes o cs <->
  exists cs1 c cs2, cs = cs1 ++ c :: cs2 /\ remote_entry l c = true /\
    g = wave_get lane p bank off bytes c (o + remote_count cs1).
Proof.
  intros o. split.
  - revert o. induction cs as [|c cs IH]; intros o; cbn [wave_gets]; [by intros ?%elem_of_nil|].
    destruct (remote_entry l c) eqn:Er.
    + intros [-> |Hg]%elem_of_cons; [exists [], c, cs; by rewrite Z.add_0_r|].
      apply IH in Hg as (cs1 & c' & cs2 & -> & Hr & ->). exists (c :: cs1), c', cs2. split_and!; [done..|].
      f_equal. rewrite remote_count_cons, Er. lia.
    + intros Hg. apply IH in Hg as (cs1 & c' & cs2 & -> & Hr & ->). exists (c :: cs1), c', cs2. split_and!; [done..|].
      f_equal. rewrite remote_count_cons, Er. lia.
  - intros (cs1 & c & cs2 & -> & Hr & ->). rewrite wave_gets_app. apply elem_of_app. right. cbn [wave_gets]. rewrite Hr.
    by left.
Qed.
Lemma issue_spec lane p bank w post : 0 <= plan_entries l <= INT32_MAX -> 0 <= wv_start w -> 0 <= wv_count w ->
  let st := issue_entries l k lane p bank w post in
  let cs := window (globalExpert l (wv_expert w)) (wv_start w) (wv_count w) in
  let off := wv_chunk w * chunkBytes l in
  is_collected st = Z.of_nat (length cs) /\ is_remote st = remote_count cs /\
  (forall r, is_used st r = true <-> exists g, g ∈ is_gets st /\ get_rank g = r) /\
  (is_statuses st = [] -> is_gets st =
     wave_gets lane p bank off (MinU64 (rowBytes l p - off)%u64 (chunkBytes l)) 0 cs).
Proof.
  intros Hp Hw Hc. unfold issue_entries, window, holders, INT32_MAX in *.
  assert (Z.of_nat (length (seqZ 0 (plan_entries l))) <= 2147483647) as Hn by (rewrite length_seqZ0; lia).
  revert Hn. generalize (seqZ 0 (plan_entries l)). intros xs Hn. cbv zeta.
  set (off := wv_chunk w * chunkBytes l). set (bytes := MinU64 _ _). set (expert := globalExpert l (wv_expert w)).
  set (F := fun xs : list Z => filter (fun e => expertsToCopy_ k e = expert) xs). change (filter _ xs) with (F xs).
  set (st := foldl _ _ xs).
  enough (let cs := take (Z.to_nat (wv_count w)) (drop (Z.to_nat (wv_start w)) (F xs)) in
    is_collected st = Z.of_nat (length cs) /\ is_remote st = remote_count cs /\
    (forall r, is_used st r = true <-> exists g, g ∈ is_gets st /\ get_rank g = r) /\
    (is_statuses st = [] -> is_gets st = wave_gets lane p bank off bytes 0 cs) /\
    (Z.of_nat (length cs) < wv_count w -> is_matching st = Z.of_nat (length (F xs)))) as (? & ? & ? & ? & _) by done.
  subst st. induction xs as [|x xs IH] using rev_ind.
  { change (F []) with (@nil Z). rewrite drop_nil, take_nil. cbn. split_and!; try done.
    intros r. split; [done|]. intros (g & Hg & _). by apply elem_of_nil in Hg. }
  rewrite length_app in Hn. cbn [length] in Hn. specialize (IH ltac:(lia)). cbv zeta in *. rewrite foldl_app. cbn [foldl].
  set (st := foldl _ _ xs) in *. destruct IH as (I1 & I2 & I3 & I4 & I5). unfold issue_entry.
  assert (F (xs ++ [x]) = F xs ++ (if expertsToCopy_ k x =? expert then [x] else [])) as ->.
  { unfold F. rewrite filter_app, (filter_cons _ x []), filter_nil.
    destruct (Z.eqb_spec (expertsToCopy_ k x) expert); [by rewrite decide_True by done|by rewrite decide_False by done]. }
  pose proof (length_filter (fun e => expertsToCopy_ k e = expert) xs) as HF. change (filter _ xs) with (F xs) in HF.
  destruct (Z.eqb_spec (expertsToCopy_ k x) expert) as [Ex|Ex]; cbn [negb].
  2: { rewrite app_nil_r. destruct (negb _); done. }
  rewrite window_snoc by done. cbv zeta. set (cs := take _ (drop _ (F xs))) in *. rewrite length_app. cbn [length].
  assert (length cs <= length (F xs))%nat as Hcs by (subst cs; rewrite length_take, length_drop; lia).
  pose proof (remote_count_le cs) as Hrem. rewrite I1.
  destruct (Z.ltb_spec (Z.of_nat (length cs)) (wv_count w)) as [Hlt|Hge]; cbn [negb andb]; [|split_and!; try done; lia].
  specialize (I5 Hlt). rewrite I5.
  destruct (Z.ltb_spec (Z.of_nat (length (F xs))) (wv_start w)), (Z.leb_spec (wv_start w) (Z.of_nat (length (F xs)))); try lia; cbn.
  { rewrite (u32_small (_ + 1)) by lia. split_and!; try done. lia. }
  rewrite length_app, remote_count_app, remote_count_1, wave_gets_app. cbn [wave_gets length]. unfold remote_entry.
  rewrite !Z.add_0_l. change (x / g_prefetchSlots l) with (Z.div x (g_prefetchSlots l)).
  destruct (Z.eqb_spec (x / g_prefetchSlots l) (g_rank l)) as [El|El]; cbn [negb is_collected is_remote is_used is_gets is_statuses is_matching].
  { rewrite app_nil_r, !u32_small by lia. split_and!; try done; lia. }
  rewrite I2, !(u32_small (Z.of_nat _ + 1)), (u32_small (remote_count cs + 1)) by lia. destruct (post _).
  - split_and!; [lia|done| | |lia].
    + intros r. unfold upd1. destruct (Z.eqb_spec r (x / g_prefetchSlots l)) as [-> |Hr].
      * split; [intros _|done]. eexists. split; [apply elem_of_app; right; by left|done].
      * rewrite I3. split; intros (g & Hg & E1); exists g; (split; [|done]).
        -- apply elem_of_app. by left.
        -- apply elem_of_app in Hg as [Hg|Hg]; [done|]. apply list_elem_of_singleton in Hg. subst g. cbn in E1. congruence.
    + intros Hs. rewrite (I4 Hs). done.
  - split_and!; [lia|done|done| |lia]. intros Hs. by apply app_eq_nil in Hs as [_ ?].
Qed.
End contributors.

(** ** Items *)

Lemma pack_low a b : is_u32 a -> is_u32 b -> u32 (PackUint32Pair a b) = a /\ u32 (Z.shiftr (PackUint32Pair a b) 32) = b.
Proof.
  intros Ha Hb. unfold is_u32, UINT32_MAX in *. unfold PackUint32Pair.
  rewrite (u64_small (Z.shiftl b 32)) by (rewrite Z.shiftl_mul_pow2; lia).
  rewrite lor_shiftl_add by lia. change (2 ^ 32) with 4294967296. unfold u32. rewrite Z.shiftr_div_pow2 by lia.
  change (2 ^ 32) with 4294967296. split.
  - rewrite Z.mod_add, Z.mod_small by lia. done.
  - rewrite Z.div_add, Z.div_small, Z.mod_small by lia. lia.
Qed.

Definition item_fields_ok (it : ReduceGradBankItem) : Prop :=
  is_u32 (it_kind it) /\ is_u32 (it_projection it) /\ is_u32 (it_localExpert it) /\ is_u32 (it_waveStart it) /\
  is_u32 (it_contributorCount it) /\ is_u32 (it_remoteContributorCount it).

Lemma load_publish it : item_fields_ok it -> LoadItem (PublishItem it) = it.
Proof.
  intros (H1 & H2 & H3 & H4 & H5 & H6). unfold LoadItem, PublishItem. cbn [nth]. destruct it as [t c b kd p e ws n r]. cbn in *.
  destruct (pack_low kd p H1 H2) as [-> ->], (pack_low e ws H3 H4) as [-> ->], (pack_low n r H5 H6) as [-> ->]. done.
Qed.

(** ** Tiles *)

Section tiles.
Context (l : ReduceGradLayout) {V : Type} (vadd : V -> V -> V) (sources : Z -> Z -> Z -> V).

Lemma copy_in (dst : Z -> V) d src s n a : d <= a < d + n -> DataCopyPad dst d src s n a = src (s + (a - d)).
Proof. intros H. unfold DataCopyPad. rewrite (proj2 (Z.leb_le _ _)), (proj2 (Z.ltb_lt _ _)) by lia. done. Qed.

Lemma copy_out (dst : Z -> V) d src s n a : a < d \/ d + n <= a -> DataCopyPad dst d src s n a = dst a.
Proof. intros H. unfold DataCopyPad. destruct (Z.leb_spec d a), (Z.ltb_spec a (d + n)); try done. lia. Qed.

(** The number of a contributor at an offset of the chunk. *)
Definition contribution (projection chunkOffset offset c : Z) : V :=
  sources (c / g_prefetchSlots l) projection (c mod g_prefetchSlots l * rowBytes l projection + chunkOffset + offset).

(** The slots of the remote contributors in a bank hold their numbers of a tile. *)
Definition staged (workspace : Z -> V) (projection bankPayload chunkOffset tileOffset tileBytes : Z) (cs : list Z) : Prop :=
  forall cs1 c cs2, cs = cs1 ++ c :: cs2 -> remote_entry l c = true -> forall x, 0 <= x < tileBytes ->
    workspace (bankPayload + remote_count l cs1 * chunkBytes l + tileOffset + x) =
    contribution projection chunkOffset (tileOffset + x) c.

Lemma contributor_address workspace p payload off toff tb cs cs1 c cs2 :
  staged workspace p payload off toff tb cs -> cs = cs1 ++ c :: cs2 -> Z.of_nat (length cs) <= INT32_MAX ->
  let '(a, o) := ContributorAddress l p c payload (remote_count l cs1) off toff in
  o = remote_count l (cs1 ++ [c]) /\
  forall dst x, 0 <= x < tb -> CopyGmToUb l sources workspace dst a tb x = contribution p off (toff + x) c.
Proof.
  intros Hs E Hlen. unfold ContributorAddress, INT32_MAX in *. cbv zeta.
  rewrite remote_count_app, remote_count_1. pose proof (remote_count_le l cs1).
  assert (length cs1 <= length cs)%nat by (rewrite E, length_app; lia).
  specialize (Hs cs1 c cs2 E). unfold remote_entry in *. destruct (Z.eqb_spec (c / g_prefetchSlots l) (g_rank l)) as [El|El];
    cbn [negb]; (split; [rewrite ?u32_small; lia|]); intros dst x Hx; unfold CopyGmToUb; rewrite copy_in by lia.
  - unfold contribution. rewrite El. f_equal. lia.
  - rewrite Z.sub_0_r. by apply Hs.
Qed.
(** The state of the loop behind [i] contributors. *)
Definition accumulated (gradients : Z -> V) (p output off toff tb ai : Z) (next : option (Z * Z)) (cs : list Z)
    (i : Z) (st : Ub * Z) : Prop :=
  let '(ub, ordinal) := st in
  (forall x, 0 <= x < tb -> ub_accum ub ai x =
     foldl vadd (gradients (output + toff + x)) ((fun c => contribution p off (toff + x) c) <$> take (Z.to_nat i) cs)) /\
  (forall c, cs !! Z.to_nat i = Some c -> ordinal = remote_count l (take (Z.to_nat (i + 1)) cs) /\
     forall x, 0 <= x < tb -> ub_input ub (Z.land i 1) x = contribution p off (toff + x) c) /\
  (i = Z.of_nat (length cs) -> forall noff nb, next = Some (noff, nb) -> forall x, 0 <= x < nb ->
     ub_accum ub (Z.lxor ai 1) x = gradients (output + noff + x)).

Lemma lxor_bit i : i = 0 \/ i = 1 -> Z.lxor i 1 <> i.
Proof. by intros [-> | ->]. Qed.

Lemma land_bit i : Z.land i 1 = 0 \/ Z.land i 1 = 1.
Proof. rewrite land_1. pose proof (Z.mod_pos_bound i 2 ltac:(lia)). lia. Qed.

Lemma land_succ i : Z.land (i + 1) 1 = Z.lxor (Z.land i 1) 1.
Proof.
  destruct (land_bit i) as [E0|E0]; rewrite E0; rewrite land_1 in *; [change (Z.lxor 0 1) with 1|change (Z.lxor 1 1) with 0]; div_lia.
Qed.

Lemma accumulate_turn workspace gradients p output payload cs off toff tb ai next i st :
  staged workspace p payload off toff tb cs -> Z.of_nat (length cs) <= INT32_MAX -> ai = 0 \/ ai = 1 ->
  tb mod 4 = 0 -> 0 <= i < Z.of_nat (length cs) ->
  accumulated gradients p output off toff tb ai next cs i st ->
  accumulated gradients p output off toff tb ai next cs (i + 1)
    (accumulate_contributor l vadd sources workspace gradients p output payload cs (Z.of_nat (length cs)) off toff tb ai next st i).
Proof.
  intros Hs Hlen Hai Htb Hi H. destruct st as [ub ordinal]. destruct H as (A & O & _).
  destruct (lookup_lt_is_Some_2 cs (Z.to_nat i) ltac:(lia)) as [c Hc]. destruct (O c Hc) as [-> Hin]. clear O.
  assert (tb / 4 * 4 = tb) as E4 by (pose proof (Z.div_mod tb 4); lia).
  assert (take (Z.to_nat (i + 1)) cs = take (Z.to_nat i) cs ++ [c]) as Etake.
  { rewrite Z2Nat.inj_add, Nat.add_1_r by lia. by apply take_S_r. }
  unfold accumulate_contributor. unfold INT32_MAX in Hlen. rewrite (u32_small (i + 1)), E4 by lia. pose proof (lxor_bit _ (land_bit i)) as Hne.
  pose proof (lxor_bit _ Hai) as Hnai.
  destruct (Z.ltb_spec (i + 1) (Z.of_nat (length cs))) as [Hmore|Hlast].
  - destruct (lookup_lt_is_Some_2 cs (Z.to_nat (i + 1)) ltac:(lia)) as [c' Hc'].
    rewrite (nth_lookup_Some _ _ _ _ Hc').
    pose proof (take_drop_middle _ _ _ Hc') as Esplit.
    pose proof (contributor_address workspace p payload off toff tb cs _ c' _ Hs (eq_sym Esplit) Hlen) as Hadr.
    destruct (ContributorAddress _ _ _ _ _ _ _) as [a o]. destruct Hadr as [-> Hadr]. cbn [accumulated ub_accum ub_input]. split_and!; [| |lia].
    + intros x Hx. rewrite upd1_eq, (proj2 (Z.leb_le 0 x)), (proj2 (Z.ltb_lt x tb)) by lia. cbn [andb].
      rewrite A by done. rewrite upd1_ne by congruence. rewrite Hin by done. rewrite Etake, fmap_app, foldl_app. done.
    + intros c2 Hc2. rewrite Hc' in Hc2. injection Hc2 as <-. split.
      * f_equal. rewrite (Z2Nat.inj_add (i + 1) 1), Nat.add_1_r by lia. symmetry. by apply take_S_r.
      * intros x Hx. rewrite land_succ, upd1_eq. by apply Hadr.
  - cbn [accumulated ub_accum ub_input]. split_and!.
    + intros x Hx. rewrite upd1_eq, (proj2 (Z.leb_le 0 x)), (proj2 (Z.ltb_lt x tb)) by lia. cbn [andb].
      rewrite Hin by done. rewrite Etake, fmap_app, foldl_app. cbn. rewrite <- A by done. f_equal.
      destruct next as [[noff nb]|]; [|done]. unfold PrefetchAccumulator. by rewrite upd1_ne by congruence.
    + intros c2 Hc2. apply lookup_lt_Some in Hc2. lia.
    + intros _ noff nb -> x Hx. rewrite upd1_ne by congruence. unfold PrefetchAccumulator.
      rewrite upd1_eq, copy_in by lia. f_equal. lia.
Qed.

(** A tile: its numbers gain the contributors in the order of the plan, nothing else changes, and
    the accumulator of the next tile is loaded. *)
Lemma accumulate_tile workspace gradients p output payload cs off toff tb ai next ub :
  staged workspace p payload off toff tb cs -> cs <> [] -> Z.of_nat (length cs) <= INT32_MAX -> ai = 0 \/ ai = 1 ->
  tb mod 4 = 0 -> (forall x, 0 <= x < tb -> ub_accum ub ai x = gradients (output + toff + x)) ->
  let '(g', ub') := AccumulateTile l vadd sources workspace gradients p output payload cs (Z.of_nat (length cs)) off toff tb
    ai next ub in
  (forall a, output + toff <= a < output + toff + tb ->
     g' a = foldl vadd (gradients a) ((fun c => contribution p off (a - output) c) <$> cs)) /\
  (forall a, a < output + toff \/ output + toff + tb <= a -> g' a = gradients a) /\
  (forall noff nb, next = Some (noff, nb) -> forall x, 0 <= x < nb ->
     ub_accum ub' (Z.lxor ai 1) x = gradients (output + noff + x)).
Proof.
  intros Hs Hne Hlen Hai Htb Hub. unfold AccumulateTile. destruct cs as [|c0 cs']; [done|]. set (cs := c0 :: cs') in *.
  pose proof (contributor_address workspace p payload off toff tb cs [] c0 cs' Hs eq_refl Hlen) as Hadr.
  change (remote_count l []) with 0 in Hadr. change (nth 0 cs 0) with c0.
  destruct (ContributorAddress _ _ _ _ _ _ _) as [a o]. destruct Hadr as [Ho Hadr]. cbv zeta.
  set (loaded := {| ub_accum := _; ub_input := _ |}).
  assert (forall i : nat, (i <= length cs)%nat -> accumulated gradients p output off toff tb ai next cs (Z.of_nat i)
    (foldl (accumulate_contributor l vadd sources workspace gradients p output payload cs (Z.of_nat (length cs)) off toff tb ai next)
      (loaded, o) (seqZ 0 (Z.of_nat i)))) as Hloop.
  { induction i as [|i IH]; intros Hi.
    - cbn [foldl seqZ accumulated]. split_and!.
      + intros x Hx. cbn. by apply Hub.
      + intros c Hc. cbn in Hc. injection Hc as <-. split; [done|]. intros x Hx. cbn. rewrite upd1_eq. by apply Hadr.
      + cbn. lia.
    - rewrite Nat2Z.inj_succ, <- Z.add_1_r, seqZ0_snoc, foldl_app by lia. cbn [foldl].
      apply accumulate_turn; try done; [lia|]. apply IH. lia. }
  specialize (Hloop (length cs) (le_n _)). destruct (foldl _ _ _) as [ub' o']. destruct Hloop as (A & _ & N). split_and!.
  - intros x Hx. rewrite copy_in by done. rewrite Z.add_0_l, A by lia. rewrite Nat2Z.id, firstn_all.
    replace (output + toff + (x - (output + toff))) with x by lia. f_equal. apply list_fmap_ext. intros _ y _. f_equal. lia.
  - intros x Hx. by apply copy_out.
  - intros noff nb En x Hx. by apply (N eq_refl noff nb En).
Qed.
End tiles.
