(* ===== verification/GradShare.v ===== *)
(** How the gradient reduction shares its work: the lanes of a projection partition its rows in
    chunks, the waves of a chunk go through the contributors of the expert once and in order, the
    helper blocks are dealt to the lanes, and the words and slots of the lanes are disjoint. *)
From S2P Require Import Prelude Layouts CombineWire UdmaTypes GradLayout GradKernel GradWave GradTile.

Section share.
Context (l : ReduceGradLayout) (k : GradLaunch) (Hl : grad_layout_ok l) (Hk : launch_ok l k).

Lemma entries_range : 0 <= plan_entries l <= INT32_MAX.
Proof using Hl.
  destruct (gl_ranks l Hl), (gl_slots l Hl) as [S1 S2]. unfold plan_entries.
  pose proof (Z.mul_div_le INT32_MAX (g_rankSize l) ltac:(lia)).
  assert (g_rankSize l * g_prefetchSlots l <= g_rankSize l * (INT32_MAX / g_rankSize l)) by (apply Z.mul_le_mono_nonneg_l; lia).
  split; [apply Z.mul_nonneg_nonneg; lia|lia].
Qed.

Lemma holders_le e : Z.of_nat (length (holders l k e)) <= INT32_MAX.
Proof using Hl.
  pose proof entries_range. unfold holders. pose proof (length_filter (fun x => expertsToCopy_ k x = e) (seqZ 0 (plan_entries l))) as H1.
  pose proof (length_seqZ0 (plan_entries l)). lia.
Qed.

(** ** Lanes *)

Definition lane_of (p e c : Z) : Z := projectionQpBase l p + (e * chunkCounts l p + c) mod projectionQpCounts l p.

Lemma counts_range p : 0 <= p < 3 -> 1 <= projectionQpCounts l p <= 8 /\ 0 <= projectionQpBase l p /\
  projectionQpBase l p + projectionQpCounts l p <= laneCount l.
Proof using Hl.
  intros Hp. destruct (gl_split l Hl) as [S1 S2 S3 S4 S5 S6 _], (gl_lanes l Hl) as [L1 L2].
  pose proof (S1 0 ltac:(lia)). pose proof (S1 1 ltac:(lia)). pose proof (S1 2 ltac:(lia)).
  destruct (projections p Hp) as [-> |[-> | ->]]; lia.
Qed.

Lemma projection_for_lane p lane : 0 <= p < 3 -> projectionQpBase l p <= lane < projectionQpBase l p + projectionQpCounts l p ->
  ProjectionForLane l lane = p.
Proof using Hl.
  intros Hp Hin. destruct (gl_split l Hl) as [S1 S2 S3 S4 S5 S6 _]. destruct (gl_lanes l Hl) as [L1 L2].
  pose proof (S1 0 ltac:(lia)). pose proof (S1 1 ltac:(lia)). pose proof (S1 2 ltac:(lia)).
  unfold ProjectionForLane. change (seqZ 0 kReduceGradProjectionCount) with [0; 1; 2]. cbn [loop_ret].
  rewrite S3, S4, S5, !u32_small by lia.
  destruct (projections p Hp) as [-> |[-> | ->]];
    repeat match goal with |- context [?a <=? ?b] => destruct (Z.leb_spec a b); try lia
                         | |- context [?a <? ?b] => destruct (Z.ltb_spec a b); try lia end; done.
Qed.

Lemma lane_projection lane : 0 <= lane < laneCount l -> exists p, 0 <= p < 3 /\ ProjectionForLane l lane = p /\
  projectionQpBase l p <= lane < projectionQpBase l p + projectionQpCounts l p.
Proof using Hl.
  intros Hlane. destruct (gl_split l Hl) as [S1 S2 S3 S4 S5 S6 _]. destruct (gl_lanes l Hl) as [L1 L2].
  pose proof (S1 0 ltac:(lia)). pose proof (S1 1 ltac:(lia)). pose proof (S1 2 ltac:(lia)).
  assert (exists p, 0 <= p < 3 /\ projectionQpBase l p <= lane < projectionQpBase l p + projectionQpCounts l p) as (p & Hp & Hin).
  { destruct (Z.lt_ge_cases lane (projectionQpCounts l 0)); [exists 0; lia|].
    destruct (Z.lt_ge_cases lane (projectionQpCounts l 0 + projectionQpCounts l 1)); [exists 1; lia|exists 2; lia]. }
  exists p. split; [done|]. split; [by apply projection_for_lane|done].
Qed.

Lemma lane_of_range p e c : 0 <= p < 3 -> 0 <= lane_of p e c < laneCount l /\ ProjectionForLane l (lane_of p e c) = p.
Proof using Hl.
  intros Hp. destruct (counts_range p Hp) as (C1 & C2 & C3). unfold lane_of.
  pose proof (Z.mod_pos_bound (e * chunkCounts l p + c) (projectionQpCounts l p) ltac:(lia)).
  split; [lia|]. apply projection_for_lane; [done|lia].
Qed.

Lemma chunk_counts_pos p : 0 <= p < 3 -> 0 < chunkCounts l p /\ (chunkCounts l p - 1) * chunkBytes l < rowBytes l p <= chunkCounts l p * chunkBytes l.
Proof using Hl.
  intros Hp. rewrite (gl_chunks l Hl p Hp). destruct (gl_rows l Hl p Hp) as [_ R], (gl_chunk l Hl) as [C _]. unfold ceil_div.
  pose proof (Z.div_mod (rowBytes l p + chunkBytes l - 1) (chunkBytes l) ltac:(lia)).
  pose proof (Z.mod_pos_bound (rowBytes l p + chunkBytes l - 1) (chunkBytes l) ltac:(lia)). nia.
Qed.

(** The turns of the loops of a lane, without wrapping. *)
Definition expert_waves (e c : Z) : list Wave :=
  let total := Z.of_nat (length (holders l k (globalExpert l e))) in
  (fun i => {| wv_expert := e; wv_chunk := c; wv_start := i * g_rankSize l;
               wv_count := Z.min (total - i * g_rankSize l) (g_rankSize l) |}) <$> seqZ 0 (ceil_div total (g_rankSize l)).

(** Every row of the gradients is addressable. *)
Context (Hrows : forall p, 0 <= p < 3 -> g_expertCount l * rowBytes l p <= UINT64_MAX).

Lemma ordinal_small p e c : 0 <= p < 3 -> 0 <= e < g_expertsPerRank l -> 0 <= c < chunkCounts l p ->
  0 <= e * chunkCounts l p + c <= UINT64_MAX.
Proof using Hl Hrows.
  intros Hp He Hc. destruct (chunk_counts_pos p Hp) as [C1 C2], (gl_chunk l Hl) as [C3 _], (gl_experts l Hl) as (E1 & E2 & _), (gl_ranks l Hl).
  pose proof (Hrows p Hp) as H1. destruct (gl_rows l Hl p Hp) as [_ R].
  assert (chunkCounts l p <= rowBytes l p) by nia.
  assert (e * chunkCounts l p + c < g_expertsPerRank l * chunkCounts l p) by nia.
  assert (g_expertsPerRank l * chunkCounts l p <= g_expertsPerRank l * rowBytes l p) by (apply Z.mul_le_mono_nonneg_l; lia).
  assert (g_expertsPerRank l * rowBytes l p <= g_expertCount l * rowBytes l p) by (apply Z.mul_le_mono_nonneg_r; nia).
  split; [|lia]. assert (0 <= e * chunkCounts l p) by (apply Z.mul_nonneg_nonneg; lia). lia.
Qed.

Lemma flat_ext {A B : Type} (f g : A -> list B) xs : (forall x, x ∈ xs -> f x = g x) -> (xs ≫= f) = (xs ≫= g).
Proof using Type.
  induction xs as [|x xs IH]; intros H; [done|]. cbn. rewrite (H x) by (by left). rewrite <- IH; [done|].
  intros y Hy. apply H. by right.
Qed.

Lemma flat_nil {A B : Type} (f : A -> list B) xs : (forall x, x ∈ xs -> f x = []) -> (xs ≫= f) = [].
Proof using Type.
  induction xs as [|x xs IH]; intros H; [done|]. cbn. rewrite (H x) by (by left). apply IH.
  intros y Hy. apply H. by right.
Qed.

Lemma lane_waves_eq lane : 0 <= lane < laneCount l -> let p := ProjectionForLane l lane in
  lane_waves l k lane = (e ← seqZ 0 (g_expertsPerRank l); c ← seqZ 0 (chunkCounts l p);
    if lane_of p e c =? lane then expert_waves e c else []).
Proof using Hl Hrows.
  intros Hlane p. unfold lane_waves. fold p.
  destruct (lane_projection lane Hlane) as (p' & Hp & Ep & Hin). fold p in Ep. subst p'.
  destruct (counts_range p Hp) as (C1 & C2 & C3). destruct (gl_lanes l Hl) as [L1 L2], (gl_ranks l Hl).
  apply flat_ext. intros e He%elem_of_seqZ0. rewrite count_contributors by apply entries_range.
  pose proof (holders_le (globalExpert l e)) as Hh. set (total := Z.of_nat (length _)) in *. assert (0 <= total) by lia.
  destruct (Z.eqb_spec total 0) as [E0|E0].
  { symmetry. apply flat_nil. intros c _. destruct (_ =? lane); [|done]. unfold expert_waves. fold total. rewrite E0.
    unfold ceil_div. rewrite Z.div_small by lia. done. }
  apply flat_ext. intros c Hc%elem_of_seqZ0. pose proof (ordinal_small p e c Hp He Hc) as Ho. unfold UINT64_MAX in Ho.
  assert (0 <= e * chunkCounts l p) by (apply Z.mul_nonneg_nonneg; lia).
  rewrite (u64_small (e * _)), u64_small, u32_small by lia. unfold lane_of.
  rewrite <- (Z.add_0_l lane) at 1.
  assert (((e * chunkCounts l p + c) mod projectionQpCounts l p =? 0 + lane - projectionQpBase l p) =
    (projectionQpBase l p + (e * chunkCounts l p + c) mod projectionQpCounts l p =? lane)) as ->.
  { apply eq_true_iff_eq. rewrite !Z.eqb_eq. lia. }
  destruct (_ =? lane); [|done]. cbn [negb]. unfold wave_starts, expert_waves. fold total. rewrite <- list_fmap_compose.
  unfold INT32_MAX in Hh. rewrite ceil_div_u64 by (unfold UINT64_MAX; lia). apply list_fmap_ext. intros j i Hi.
  apply list_elem_of_lookup_2, elem_of_seqZ0 in Hi. unfold compose.
  assert (i * g_rankSize l < total) as Hir.
  { unfold ceil_div in Hi. pose proof (Z.div_mod (total + g_rankSize l - 1) (g_rankSize l) ltac:(lia)).
    pose proof (Z.mod_pos_bound (total + g_rankSize l - 1) (g_rankSize l) ltac:(lia)). nia. }
  assert (0 <= i * g_rankSize l) by (apply Z.mul_nonneg_nonneg; lia).
  f_equal. rewrite (u32_small (total - _)), (u32_small (g_rankSize l)) by lia. unfold MinU64. 
  destruct (Z.ltb_spec (total - i * g_rankSize l) (g_rankSize l)); rewrite u32_small by lia; lia.
Qed.

(** ** Waves *)

Record wave_ok (lane : Z) (w : Wave) : Prop := {
  wo_expert : 0 <= wv_expert w < g_expertsPerRank l;
  wo_chunk : 0 <= wv_chunk w < chunkCounts l (ProjectionForLane l lane);
  wo_lane : lane_of (ProjectionForLane l lane) (wv_expert w) (wv_chunk w) = lane;
  wo_start : 0 <= wv_start w;
  wo_count : 0 < wv_count w <= g_rankSize l;
  wo_end : wv_start w + wv_count w <= Z.of_nat (length (holders l k (globalExpert l (wv_expert w))))
}.

Definition wave_cs (w : Wave) : list Z := window l k (globalExpert l (wv_expert w)) (wv_start w) (wv_count w).

Lemma ceil_lt i t d : 0 <= i < ceil_div t d -> 0 < d -> i * d < t.
Proof using Type.
  intros Hi Hd. unfold ceil_div in Hi. pose proof (Z.div_mod (t + d - 1) d ltac:(lia)).
  pose proof (Z.mod_pos_bound (t + d - 1) d ltac:(lia)). nia.
Qed.

Lemma lane_wave_ok lane w : 0 <= lane < laneCount l -> w ∈ lane_waves l k lane -> wave_ok lane w.
Proof using Hl Hrows.
  intros Hlane Hw. rewrite lane_waves_eq in Hw by done. destruct (gl_ranks l Hl).
  apply list_elem_of_bind in Hw as (e & Hw & He%elem_of_seqZ0).
  apply list_elem_of_bind in Hw as (c & Hw & Hc%elem_of_seqZ0).
  destruct (Z.eqb_spec (lane_of (ProjectionForLane l lane) e c) lane) as [El|]; [|by apply elem_of_nil in Hw].
  unfold expert_waves in Hw. apply list_elem_of_fmap in Hw as (i & -> & Hi%elem_of_seqZ0).
  apply ceil_lt in Hi as Hlt; [|lia]. assert (0 <= i * g_rankSize l) by (apply Z.mul_nonneg_nonneg; lia).
  constructor; cbn; try done; lia.
Qed.

Lemma wave_cs_length lane w : wave_ok lane w -> Z.of_nat (length (wave_cs w)) = wv_count w.
Proof using Type. intros []. unfold wave_cs, window. rewrite length_take, length_drop. lia. Qed.

(** The contributors that the waves [ws] add to a chunk of an expert. *)
Definition wave_entries (e c : Z) (ws : list Wave) : list Z :=
  w ← ws; if (wv_expert w =? e) && (wv_chunk w =? c) then wave_cs w else [].

Lemma wave_entries_app e c ws ws' : wave_entries e c (ws ++ ws') = wave_entries e c ws ++ wave_entries e c ws'.
Proof using Type. apply bind_app. Qed.

Lemma wave_entries_bind {A : Type} e c (f : A -> list Wave) xs :
  wave_entries e c (xs ≫= f) = (x ← xs; wave_entries e c (f x)).
Proof using Type. induction xs as [|x xs IH]; [done|]. rewrite !bind_cons, wave_entries_app, IH. done. Qed.

Lemma wave_entries_other e c ws : (forall w, w ∈ ws -> wv_expert w = e -> wv_chunk w = c -> False) -> wave_entries e c ws = [].
Proof using Type.
  intros H. apply flat_nil. intros w Hw. destruct (Z.eqb_spec (wv_expert w) e) as [E1|]; [|done].
  destruct (Z.eqb_spec (wv_chunk w) c) as [E2|]; [|done]. by exfalso; apply (H w Hw).
Qed.

Lemma take_window (xs : list Z) i r : 0 <= i -> 0 < r ->
  take (Z.to_nat (i * r)) xs ++ take (Z.to_nat (Z.min (Z.of_nat (length xs) - i * r) r)) (drop (Z.to_nat (i * r)) xs) =
  take (Z.to_nat ((i + 1) * r)) xs.
Proof using Type.
  intros Hi Hr. assert (0 <= i * r) by (apply Z.mul_nonneg_nonneg; lia).
  replace (Z.to_nat ((i + 1) * r)) with (Z.to_nat (i * r) + Z.to_nat r)%nat by lia. rewrite <- take_take_drop. f_equal.
  destruct (Z.le_gt_cases r (Z.of_nat (length xs) - i * r)); [by rewrite Z.min_r by lia|].
  rewrite !take_ge; rewrite ?length_drop; lia || done.
Qed.

Lemma expert_waves_all e c : wave_entries e c (expert_waves e c) = holders l k (globalExpert l e).
Proof using Hl.
  destruct (gl_ranks l Hl). unfold expert_waves. set (hs := holders l k (globalExpert l e)). set (r := g_rankSize l).
  assert (0 < r) by (unfold r; lia). set (t := Z.of_nat (length hs)).
  set (f := fun i => {| wv_expert := e; wv_chunk := c; wv_start := i * r; wv_count := Z.min (t - i * r) r |}).
  enough (forall n : nat, wave_entries e c (f <$> seqZ 0 (Z.of_nat n)) = take (Z.to_nat (Z.of_nat n * r)) hs) as Hn.
  { assert (0 <= ceil_div t r) by (unfold ceil_div; apply Z.div_pos; lia).
    specialize (Hn (Z.to_nat (ceil_div t r))). rewrite Z2Nat.id in Hn by lia. rewrite Hn. apply take_ge. unfold ceil_div.
    pose proof (Z.div_mod (t + r - 1) r ltac:(lia)). pose proof (Z.mod_pos_bound (t + r - 1) r ltac:(lia)). unfold t in *. nia. }
  induction n as [|n IH]; [done|]. rewrite Nat2Z.inj_succ, <- Z.add_1_r, seqZ0_snoc, fmap_app, wave_entries_app, IH by lia.
  rewrite <- take_window by lia. f_equal. unfold wave_entries. cbn. rewrite !Z.eqb_refl, app_nil_r. done.
Qed.

Lemma flat_seqZ_one {B : Type} (f : Z -> list B) n x : 0 <= x < n -> (forall y, 0 <= y < n -> y <> x -> f y = []) ->
  (seqZ 0 n ≫= f) = f x.
Proof using Type.
  intros Hx H. replace n with (x + (1 + (n - x - 1))) by lia.
  rewrite (seqZ_app 0 x (1 + _)), bind_app by lia. rewrite (flat_nil f (seqZ 0 x)).
  2: { intros y Hy%elem_of_seqZ0. apply H; lia. }
  rewrite (seqZ_app (0 + x) 1 _), bind_app by lia. rewrite (flat_nil f (seqZ (0 + x + 1) _)).
  2: { intros y Hy%elem_of_seqZ. apply H; lia. }
  rewrite app_nil_r. change (seqZ (0 + x) 1) with [Z.of_nat 0 + (0 + x)]. cbn. by rewrite app_nil_r.
Qed.

(** The waves of the lane of a chunk go through the contributors once and in order. *)
Lemma lane_entries_all p e c : 0 <= p < 3 -> 0 <= e < g_expertsPerRank l -> 0 <= c < chunkCounts l p ->
  wave_entries e c (lane_waves l k (lane_of p e c)) = holders l k (globalExpert l e).
Proof using Hl Hrows.
  intros Hp He Hc. destruct (lane_of_range p e c Hp) as [Hlane Ep]. rewrite lane_waves_eq by done. rewrite Ep.
  rewrite wave_entries_bind, (flat_seqZ_one _ _ e He).
  - rewrite wave_entries_bind, (flat_seqZ_one _ _ c Hc); [rewrite Z.eqb_refl; apply expert_waves_all|].
    intros c' _ Hne. destruct (_ =? _); [|done]. apply wave_entries_other. intros w Hw _ E2.
    apply list_elem_of_fmap in Hw as (i & -> & _). cbn in E2. congruence.
  - intros e' _ Hne. apply wave_entries_other. intros w Hw E1 _.
    apply list_elem_of_bind in Hw as (c' & Hw & _). destruct (_ =? _); [|by apply elem_of_nil in Hw].
    apply list_elem_of_fmap in Hw as (i & -> & _). cbn in E1. congruence.
Qed.

(** ** Slots *)

(** Two slots of the banks that overlap are one. *)
Lemma slots_disjoint lane bank o x lane' bank' o' x' : 0 <= bank < 2 -> 0 <= bank' < 2 ->
  0 <= o < g_rankSize l -> 0 <= o' < g_rankSize l -> 0 <= x < chunkBytes l -> 0 <= x' < chunkBytes l ->
  BankPayload l lane bank + o * chunkBytes l + x = BankPayload l lane' bank' + o' * chunkBytes l + x' ->
  lane = lane' /\ bank = bank' /\ o = o' /\ x = x'.
Proof using Hl.
  intros Hb Hb' Ho Ho' Hx Hx' E. destruct (gl_banks l Hl) as [B1 B2], (gl_ranks l Hl), (gl_chunk l Hl) as [C _].
  unfold BankPayload in E. rewrite B2, B1 in E.
  assert (((lane * 2 + bank) * g_rankSize l + o) * chunkBytes l + x = ((lane' * 2 + bank') * g_rankSize l + o') * chunkBytes l + x') as E' by nia.
  apply mul_add_inj in E' as [E1 ->]; [|done..]. apply mul_add_inj in E1 as [E2 ->]; [|done..].
  apply mul_add_inj in E2 as [-> ->]; done.
Qed.

(** A slot lies behind the words of the lanes and inside the workspace. *)
Lemma slot_inside lane bank o x : 0 <= lane < laneCount l -> 0 <= bank < 2 -> 0 <= o < g_rankSize l -> 0 <= x < chunkBytes l ->
  laneCount l * kReduceGradLaneStateStrideBytes <= BankPayload l lane bank + o * chunkBytes l + x < workspaceBytes l.
Proof using Hl.
  intros Hlane Hb Ho Hx. destruct (gl_banks l Hl) as [B1 B2], (gl_ranks l Hl), (gl_chunk l Hl) as [C _], (gl_state l Hl) as [T1 T2], (gl_total l Hl) as [W _].
  unfold BankPayload. rewrite B2, B1 in *. rewrite T2 in *. rewrite T1 in *.
  assert (o * chunkBytes l + x < g_rankSize l * chunkBytes l) by nia.
  assert (0 <= o * chunkBytes l) by (apply Z.mul_nonneg_nonneg; lia).
  set (b := g_rankSize l * chunkBytes l) in *. assert (0 <= b) by lia.
  assert (0 <= bank * b <= b) by nia. assert (0 <= lane * (2 * b)) by (apply Z.mul_nonneg_nonneg; lia).
  assert (lane * (2 * b) + 2 * b <= laneCount l * (2 * b)) by nia. lia.
Qed.

(** ** Helpers *)

Definition helper_count (lane : Z) : Z := fst (HelperShape l k lane).

Lemma blocks_range : 2 * laneCount l <= blockCount k <= 64 /\ 3 <= laneCount l <= 8.
Proof using Hl Hk. destruct (gl_blocks l Hl), (gl_lanes l Hl) as [E ?]. rewrite (lk_blocks l k Hk), E in *. lia. Qed.

(** [HelperShape] without wrapping. *)
Lemma helper_shape_eq lane : 0 <= lane < laneCount l ->
  let b := (blockCount k - laneCount l) / laneCount l in let x := (blockCount k - laneCount l) mod laneCount l in
  HelperShape l k lane = (b + (if lane <? x then 1 else 0), laneCount l + lane * b + (if lane <? x then lane else x)) /\
  1 <= b /\ b <= 21 /\ 0 <= x < laneCount l /\ blockCount k - laneCount l = laneCount l * b + x.
Proof using Hl Hk.
  intros Hlane b x. pose proof blocks_range as [B1 B2]. unfold HelperShape. rewrite (u32_small (blockCount k - laneCount l)) by lia. cbv zeta. fold b x.
  pose proof (Z.div_mod (blockCount k - laneCount l) (laneCount l) ltac:(lia)) as E. fold b x in E.
  pose proof (Z.mod_pos_bound (blockCount k - laneCount l) (laneCount l) ltac:(lia)) as Hx. fold x in Hx.
  assert (1 <= b <= 21) as Hb by nia. assert (lane * b <= 7 * 21) by nia. assert (0 <= lane * b) by nia.
  split_and!; try lia. rewrite (u32_small (lane * b)), (u32_small (laneCount l + lane * b)) by lia.
  destruct (Z.ltb_spec lane x); rewrite !u32_small by lia; done.
Qed.

Lemma helper_count_range lane : 0 <= lane < laneCount l -> 1 <= helper_count lane <= 22.
Proof using Hl Hk.
  intros Hlane. unfold helper_count. destruct (helper_shape_eq lane Hlane) as (-> & H). cbn [fst]. case_if; lia.
Qed.

(** [HelperLane] without wrapping. *)
Lemma helper_lane_eq block : laneCount l <= block < blockCount k ->
  let b := (blockCount k - laneCount l) / laneCount l in let x := (blockCount k - laneCount l) mod laneCount l in
  let ord := block - laneCount l in
  HelperLane l k block = if ord <? (b + 1) * x then (ord / (b + 1), ord mod (b + 1), b + 1)
    else (x + (ord - (b + 1) * x) / b, (ord - (b + 1) * x) mod b, b).
Proof using Hl Hk.
  intros Hblock b x ord. pose proof blocks_range as [B1 B2].
  destruct (helper_shape_eq 0 ltac:(lia)) as (_ & H1 & H2 & H3 & H4). fold b x in H1, H2, H3, H4.
  unfold HelperLane. rewrite !(u32_small (_ - laneCount l)) by lia. fold b x ord. rewrite (u32_small (b + 1)) by lia.
  rewrite (u32_small ((b + 1) * x)) by nia. destruct (Z.ltb_spec ord ((b + 1) * x)); [done|].
  assert (0 <= ord - (b + 1) * x) by nia. assert (ord - (b + 1) * x <= 64) by nia. rewrite (u32_small (ord - _)) by lia.
  pose proof (Z.div_pos (ord - (b + 1) * x) b ltac:(lia) ltac:(lia)).
  pose proof (Z.div_le_upper_bound (ord - (b + 1) * x) b 64 ltac:(lia) ltac:(nia)). rewrite u32_small by lia. done.
Qed.

(** The block of a helper. *)
Definition helper_block (lane h : Z) : Z := snd (HelperShape l k lane) + h.

Lemma helper_lane_block lane h : 0 <= lane < laneCount l -> 0 <= h < helper_count lane ->
  laneCount l <= helper_block lane h < blockCount k /\ HelperLane l k (helper_block lane h) = (lane, h, helper_count lane).
Proof using Hl Hk.
  intros Hlane Hh. unfold helper_count, helper_block in *. destruct (helper_shape_eq lane Hlane) as (E & H1 & H2 & H3 & H4).
  rewrite E in *. cbn [fst snd] in *. set (b := _ / laneCount l) in *. set (x := _ mod laneCount l) in *.
  assert (0 <= lane * b) by nia.
  destruct (Z.ltb_spec lane x) as [Hlt|Hge].
  - assert ((lane + 1) * (b + 1) <= x * (b + 1)) by nia. assert (x * (b + 1) <= laneCount l * b + x) by nia.
    split; [lia|]. rewrite helper_lane_eq by lia. cbv zeta. fold b x.
    replace (laneCount l + lane * b + lane + h - laneCount l) with (lane * (b + 1) + h) by lia.
    rewrite (proj2 (Z.ltb_lt _ _)) by lia. rewrite div_mul_add, mod_mul_add by lia. done.
  - assert ((lane + 1) * b <= laneCount l * b) by nia. assert (x * b <= lane * b) by nia.
    split; [lia|]. rewrite helper_lane_eq by lia. cbv zeta. fold b x.
    replace (laneCount l + lane * b + x + h - laneCount l) with (lane * b + x + h) by lia.
    rewrite (proj2 (Z.ltb_ge _ _)) by lia. replace (lane * b + x + h - (b + 1) * x) with ((lane - x) * b + h) by lia.
    rewrite div_mul_add, mod_mul_add by lia. do 2 f_equal; lia.
Qed.

Lemma helper_lane_inv block lane h c : laneCount l <= block < blockCount k -> HelperLane l k block = (lane, h, c) ->
  0 <= lane < laneCount l /\ c = helper_count lane /\ 0 <= h < c /\ block = helper_block lane h.
Proof using Hl Hk.
  intros Hb. rewrite helper_lane_eq by done. cbv zeta. pose proof blocks_range as [B1 B2].
  destruct (helper_shape_eq 0 ltac:(lia)) as (_ & H1 & H2 & H3 & H4).
  unfold helper_count, helper_block.
  set (b := _ / laneCount l) in *. set (x := _ mod laneCount l) in *. set (ord := block - laneCount l) in *.
  destruct (Z.ltb_spec ord ((b + 1) * x)) as [Hlt|Hge]; intros [= <- <- <-].
  - pose proof (Z.div_mod ord (b + 1) ltac:(lia)). pose proof (Z.mod_pos_bound ord (b + 1) ltac:(lia)).
    assert (0 <= ord / (b + 1) < x) by nia. destruct (helper_shape_eq (ord / (b + 1)) ltac:(lia)) as (-> & _). fold b x.
    cbn [fst snd]. rewrite (proj2 (Z.ltb_lt (ord / (b + 1)) x)) by lia. split_and!; lia.
  - pose proof (Z.div_mod (ord - (b + 1) * x) b ltac:(lia)). pose proof (Z.mod_pos_bound (ord - (b + 1) * x) b ltac:(lia)).
    set (q := (ord - (b + 1) * x) / b) in *. assert (0 <= q) by nia. assert (q < laneCount l - x) by nia.
    destruct (helper_shape_eq (x + q) ltac:(lia)) as (-> & _). fold b x.
    cbn [fst snd]. rewrite (proj2 (Z.ltb_ge (x + q) x)) by lia. split_and!; try lia.
Qed.

(** ** Tiles *)

Definition chunk_size (p c : Z) : Z := Z.min (rowBytes l p - c * chunkBytes l) (chunkBytes l).

Lemma chunk_size_ok p c : 0 <= p < 3 -> 0 <= c < chunkCounts l p -> 0 < chunk_size p c <= chunkBytes l /\
  chunk_size p c mod 4 = 0 /\ c * chunkBytes l + chunk_size p c <= rowBytes l p /\
  MinU64 (rowBytes l p - c * chunkBytes l)%u64 (chunkBytes l) = chunk_size p c.
Proof using Hl.
  intros Hp Hc. destruct (chunk_counts_pos p Hp) as [C1 C2], (gl_chunk l Hl) as [C3 C4], (gl_rows l Hl p Hp) as [R1 R2].
  unfold chunk_size, kReduceGradUdmaAlignment, UINT64_MAX in *. assert (c * chunkBytes l <= (chunkCounts l p - 1) * chunkBytes l) by nia.
  assert (0 <= c * chunkBytes l) by (apply Z.mul_nonneg_nonneg; lia).
  assert (chunkBytes l mod 4 = 0) as M1 by div_lia. assert ((c * chunkBytes l) mod 4 = 0) as M2.
  { rewrite <- Z.mul_mod_idemp_r, M1, Z.mul_0_r by lia. done. }
  split_and!; try lia; [destruct (Z.min_spec (rowBytes l p - c * chunkBytes l) (chunkBytes l)) as [[_ ->]|[_ ->]]; [|done]|].
  - rewrite R1, Zminus_mod, M2, (Z.mul_comm 4), Z.mod_mul by lia. done.
  - rewrite (u64_small (c * chunkBytes l)), u64_small by lia. unfold MinU64. destruct (Z.ltb_spec (rowBytes l p - c * chunkBytes l) (chunkBytes l)); lia.
Qed.

(** The size of a tile. *)
Definition tile_size (n t : Z) : Z := Z.min (n - t * kReduceGradKernelTileBytes) kReduceGradKernelTileBytes.

Lemma tile_size_ok n t : 0 < n <= UINT32_MAX -> n mod 4 = 0 -> 0 <= t < ceil_div n kReduceGradKernelTileBytes ->
  0 < tile_size n t <= kReduceGradKernelTileBytes /\ tile_size n t mod 4 = 0 /\
  t * kReduceGradKernelTileBytes + tile_size n t <= n /\
  u32 (MinU64 (n - t * kReduceGradKernelTileBytes)%u64 kReduceGradKernelTileBytes) = tile_size n t.
Proof using Type.
  intros Hn H4 Ht. apply ceil_lt in Ht as Hlt; [|unfold kReduceGradKernelTileBytes; lia].
  unfold tile_size, kReduceGradKernelTileBytes, UINT32_MAX in *. split_and!; try lia.
  - destruct (Z.min_spec (n - t * 40960) 40960) as [[_ ->]|[_ ->]]; [div_lia|done].
  - rewrite (u64_small (t * 40960)), u64_small by lia. unfold MinU64. destruct (Z.ltb_spec (n - t * 40960) 40960); rewrite u32_small by lia; lia.
Qed.

(** An offset of a row is in one chunk, and in one tile of it. *)
Lemma offset_place p x : 0 <= p < 3 -> 0 <= x < rowBytes l p ->
  let c := x / chunkBytes l in let y := x mod chunkBytes l in let t := y / kReduceGradKernelTileBytes in
  0 <= c < chunkCounts l p /\ 0 <= y < chunk_size p c /\ 0 <= t < ceil_div (chunk_size p c) kReduceGradKernelTileBytes /\
  0 <= y - t * kReduceGradKernelTileBytes < tile_size (chunk_size p c) t /\ x = c * chunkBytes l + y.
Proof using Hl.
  intros Hp Hx c y t. destruct (chunk_counts_pos p Hp) as [C1 C2], (gl_chunk l Hl) as [C3 C4], (gl_rows l Hl p Hp) as [R1 R2].
  pose proof (Z.div_mod x (chunkBytes l) ltac:(lia)) as E1. pose proof (Z.mod_pos_bound x (chunkBytes l) ltac:(lia)) as M1.
  fold c y in E1, M1. assert (0 <= c) by (apply Z.div_pos; lia). assert (c < chunkCounts l p) by nia.
  assert (0 <= y < chunk_size p c) as Hy by (unfold chunk_size; lia).
  pose proof (Z.div_mod y kReduceGradKernelTileBytes ltac:(unfold kReduceGradKernelTileBytes; lia)) as E2.
  pose proof (Z.mod_pos_bound y kReduceGradKernelTileBytes ltac:(unfold kReduceGradKernelTileBytes; lia)) as M2. fold t in E2.
  assert (0 <= t) by (apply Z.div_pos; unfold kReduceGradKernelTileBytes; lia).
  assert (t < ceil_div (chunk_size p c) kReduceGradKernelTileBytes) as Ht.
  { unfold ceil_div, kReduceGradKernelTileBytes in *. div_lia. }
  unfold tile_size, kReduceGradKernelTileBytes in *. split_and!; try lia.
Qed.
End share.
