(* ===== verification/GradLane.v ===== *)
(** The lanes of the gradient reduction kernel as a step relation (src/src/moonep/reduce_grad/
    kernels/tilexr_moonep_reduce_grad_kernel.cpp: [RunLaneLeader] and [RunLaneHelper] with the
    waits they call). A lane has one leader, which gets the rows of the contributors into two
    banks of the workspace in turn, and helpers, which add them to the gradients; they talk
    through the ready words and the items of the banks, the done words of the helpers and the
    abort word. A step is what one core does up to its next look at a word of another core, or
    the arrival of the data of one get, in any order. What the queues answer is an oracle; the
    one thing asked of it is that a queue is only reported quiet up to a frontier when the gets
    before it have arrived. *)
From S2P Require Import Prelude Layouts CombineWire UdmaTypes GradLayout GradKernel GradWave.

(** Where the leader is: the constructors that carry a helper and a count are inside
    [WaitForHelpers]. *)
Inductive LeaderPc : Set :=
| LStart | LNext | LReclaim (helper attempts : Z) | LIssue | LReady | LToken
| LDrain | LDrainToken | LFinal (bank helper attempts : Z) | LTerminal | LTerminalToken | LReturned.

(** The locals of [RunLaneLeader]; [ld_work] are the turns of its loops that are left. *)
Record Leader := {
  ld_pc : LeaderPc; ld_work : list Wave; ld_sequence : Z; ld_next : Z;
  ld_pending : Z -> ReduceGradPendingWave; ld_issued : Z -> bool; ld_published : Z -> bool;
  ld_bankSequence : Z -> Z
}.

(** Where a helper is: [HWait] is [WaitForBank], [HTile] the loop of [ProcessBankItem]. *)
Inductive HelperPc : Set :=
| HWait (attempts : Z) | HLoad
| HTile (item : ReduceGradBankItem) (contributors : list Z) (tile accumIndex : Z)
| HStore (last : bool) | HReturned.

Inductive WaitResult : Set := WaitOver | WaitOn (helper attempts : Z) | WaitAborted | WaitTimeout.

(** The answers of the queues of a lane. *)
Record Oracle := { o_post : Get -> bool; o_flush : Z -> bool; o_quiet : Z -> Z }.

Section lane.
Context (l : ReduceGradLayout) (k : GradLaunch) {V : Type} (vadd : V -> V -> V) (sources : Z -> Z -> Z -> V).

Record Helper := { hp_pc : HelperPc; hp_sequence : Z; hp_ub : Ub (V:=V) }.

(** The words of a lane, its queues (the gets posted to each rank and which of them arrived), and
    its cores. *)
Record LaneState := {
  ls_ready : Z -> Z; ls_item : Z -> list Z; ls_done : Z -> Z -> Z; ls_abort : Z;
  ls_queue : Z -> list Get; ls_arrived : Z -> Z -> bool;
  ls_leader : Leader; ls_helpers : Z -> Helper
}.

(** The gradients of each projection, the workspace and the status of the launch. *)
Record Shared := { sh_grad : Z -> Z -> V; sh_workspace : Z -> V; sh_status : Z }.

Definition set_leader (ls : LaneState) (ld : Leader) : LaneState :=
  {| ls_ready := ls_ready ls; ls_item := ls_item ls; ls_done := ls_done ls; ls_abort := ls_abort ls;
     ls_queue := ls_queue ls; ls_arrived := ls_arrived ls; ls_leader := ld; ls_helpers := ls_helpers ls |}.

Definition set_helper (ls : LaneState) (helperIndex : Z) (h : Helper) : LaneState :=
  {| ls_ready := ls_ready ls; ls_item := ls_item ls; ls_done := ls_done ls; ls_abort := ls_abort ls;
     ls_queue := ls_queue ls; ls_arrived := ls_arrived ls; ls_leader := ls_leader ls;
     ls_helpers := upd1 (ls_helpers ls) helperIndex h |}.

Definition AbortLane (ls : LaneState) : LaneState :=
  {| ls_ready := ls_ready ls; ls_item := ls_item ls; ls_done := ls_done ls; ls_abort := LaneAbortToken k;
     ls_queue := ls_queue ls; ls_arrived := ls_arrived ls; ls_leader := ls_leader ls; ls_helpers := ls_helpers ls |}.

Definition store_ready (ls : LaneState) (bank token : Z) : LaneState :=
  {| ls_ready := upd1 (ls_ready ls) bank token; ls_item := ls_item ls; ls_done := ls_done ls;
     ls_abort := ls_abort ls; ls_queue := ls_queue ls; ls_arrived := ls_arrived ls;
     ls_leader := ls_leader ls; ls_helpers := ls_helpers ls |}.

Definition store_item (ls : LaneState) (bank : Z) (words : list Z) : LaneState :=
  {| ls_ready := ls_ready ls; ls_item := upd1 (ls_item ls) bank words; ls_done := ls_done ls;
     ls_abort := ls_abort ls; ls_queue := ls_queue ls; ls_arrived := ls_arrived ls;
     ls_leader := ls_leader ls; ls_helpers := ls_helpers ls |}.

Definition store_done (ls : LaneState) (bank helperIndex token : Z) : LaneState :=
  {| ls_ready := ls_ready ls; ls_item := ls_item ls;
     ls_done := upd1 (ls_done ls) bank (upd1 (ls_done ls bank) helperIndex token);
     ls_abort := ls_abort ls; ls_queue := ls_queue ls; ls_arrived := ls_arrived ls;
     ls_leader := ls_leader ls; ls_helpers := ls_helpers ls |}.

Definition post_gets (ls : LaneState) (gets : list Get) : LaneState :=
  {| ls_ready := ls_ready ls; ls_item := ls_item ls; ls_done := ls_done ls; ls_abort := ls_abort ls;
     ls_queue := fun rank => ls_queue ls rank ++ filter (fun g => get_rank g = rank) gets;
     ls_arrived := ls_arrived ls; ls_leader := ls_leader ls; ls_helpers := ls_helpers ls |}.

Definition publish (sh : Shared) (statuses : list Z) : Shared :=
  {| sh_grad := sh_grad sh; sh_workspace := sh_workspace sh;
     sh_status := foldl PublishStatus (sh_status sh) statuses |}.

(** ** The leader *)

Definition leader_at (ld : Leader) (pc : LeaderPc) : Leader :=
  {| ld_pc := pc; ld_work := ld_work ld; ld_sequence := ld_sequence ld; ld_next := ld_next ld;
     ld_pending := ld_pending ld; ld_issued := ld_issued ld; ld_published := ld_published ld;
     ld_bankSequence := ld_bankSequence ld |}.

Definition unpublish (ld : Leader) (bank : Z) : Leader :=
  {| ld_pc := LIssue; ld_work := ld_work ld; ld_sequence := ld_sequence ld; ld_next := ld_next ld;
     ld_pending := ld_pending ld; ld_issued := ld_issued ld; ld_published := upd1 (ld_published ld) bank false;
     ld_bankSequence := ld_bankSequence ld |}.

Definition next_turn (ld : Leader) : Leader :=
  {| ld_pc := LNext; ld_work := tl (ld_work ld); ld_sequence := (ld_sequence ld + 1)%u32; ld_next := ld_next ld;
     ld_pending := ld_pending ld; ld_issued := ld_issued ld; ld_published := ld_published ld;
     ld_bankSequence := ld_bankSequence ld |}.

Definition issue (ld : Leader) (bank : Z) (pending : ReduceGradPendingWave) : Leader :=
  {| ld_pc := LReady; ld_work := ld_work ld; ld_sequence := ld_sequence ld; ld_next := ld_next ld;
     ld_pending := upd1 (ld_pending ld) bank pending; ld_issued := upd1 (ld_issued ld) bank true;
     ld_published := ld_published ld; ld_bankSequence := ld_bankSequence ld |}.

Definition bank_of (sequence : Z) : Z := (sequence - 1)%u32 mod kReduceGradBankCount.

(** The flags behind the store of the ready word. *)
Definition published_ready (ld : Leader) (pc : LeaderPc) : Leader :=
  let readyBank := bank_of (ld_next ld) in
  {| ld_pc := pc; ld_work := ld_work ld; ld_sequence := ld_sequence ld; ld_next := (ld_next ld + 1)%u32;
     ld_pending := ld_pending ld; ld_issued := upd1 (ld_issued ld) readyBank false;
     ld_published := upd1 (ld_published ld) readyBank true;
     ld_bankSequence := upd1 (ld_bankSequence ld) readyBank (pw_sequence (ld_pending ld readyBank)) |}.

(** The wave to publish next, or the statuses of a failure. *)
Definition complete_next (o : Oracle) (ld : Leader) : ReduceGradPendingWave + list Z :=
  let readyBank := bank_of (ld_next ld) in
  let ready := ld_pending ld readyBank in
  if negb (ld_issued ld readyBank) || negb (pw_sequence ready =? ld_next ld)
  then inr [kReduceGradDeviceInvalidState]
  else match CompleteWave l ready (o_quiet o) with
    | [] => inl ready
    | statuses => inr statuses
    end.

Definition WaitForHelpers (ls : LaneState) (bank helperCount sequence helper attempts : Z) : WaitResult :=
  if helperCount <=? helper then WaitOver
  else if ls_done ls bank helper =? LaneToken k sequence then WaitOn (helper + 1) 0
  else if ls_abort ls =? LaneAbortToken k then WaitAborted
  else if waitIterations_ k <=? attempts + 1 then WaitTimeout
  else WaitOn helper (attempts + 1).

Definition fail_leader (ls : LaneState) (sh : Shared) (statuses : list Z) : LaneState * Shared :=
  (AbortLane (set_leader ls (leader_at (ls_leader ls) LReturned)), publish sh statuses).

Definition leader_step (o : Oracle) (lane : Z) (ls : LaneState) (sh : Shared) : option (LaneState * Shared) :=
  let ld := ls_leader ls in
  let helperCount := fst (HelperShape l k lane) in
  let projection := ProjectionForLane l lane in
  let bank := bank_of (ld_sequence ld) in
  let go pc := Some (set_leader ls (leader_at ld pc), sh) in
  match ld_pc ld with
  | LStart =>
      if (kReduceGradProjectionCount <=? projection) || (helperCount =? 0)
      then Some (fail_leader ls sh [kReduceGradDeviceInvalidState]) else go LNext
  | LNext => match ld_work ld with
      | [] => go LDrain
      | _ :: _ => go (if ld_published ld bank then LReclaim 0 0 else LIssue)
      end
  | LReclaim helper attempts =>
      match WaitForHelpers ls bank helperCount (ld_bankSequence ld bank) helper attempts with
      | WaitOver => Some (set_leader ls (unpublish ld bank), sh)
      | WaitOn helper' attempts' => go (LReclaim helper' attempts')
      | WaitAborted => go LReturned
      | WaitTimeout => Some (fail_leader ls sh [kReduceGradDeviceLeaderTimeout])
      end
  | LIssue => match ld_work ld with
      | [] => None
      | w :: _ =>
          if ld_issued ld bank then Some (fail_leader ls sh [kReduceGradDeviceInvalidState])
          else
            let '(pending, gets, statuses) := IssueWave l k lane projection bank w (ld_sequence ld) (o_post o)
              (fun rank => Z.of_nat (length (ls_queue ls rank))) (o_flush o) in
            let ls' := post_gets ls gets in
            match statuses with
            | _ :: _ => Some (fail_leader ls' sh statuses)
            | [] =>
                let ld' := issue ld bank pending in
                Some (set_leader ls' (if kReduceGradBankCount <=? ld_sequence ld then ld' else next_turn ld'), sh)
            end
      end
  | LReady => match complete_next o ld with
      | inr statuses => Some (fail_leader ls sh statuses)
      | inl ready => Some (set_leader (store_item ls (bank_of (ld_next ld)) (PublishItem (work_item k ready)))
                             (leader_at ld LToken), sh)
      end
  | LToken =>
      let ready := ld_pending ld (bank_of (ld_next ld)) in
      Some (set_leader (store_ready ls (bank_of (ld_next ld)) (LaneToken k (pw_sequence ready)))
              (next_turn (published_ready ld LNext)), sh)
  | LDrain =>
      if ld_next ld <? ld_sequence ld then
        match complete_next o ld with
        | inr statuses => Some (fail_leader ls sh statuses)
        | inl ready => Some (set_leader (store_item ls (bank_of (ld_next ld)) (PublishItem (work_item k ready)))
                               (leader_at ld LDrainToken), sh)
        end
      else go (LFinal 0 0 0)
  | LDrainToken =>
      let ready := ld_pending ld (bank_of (ld_next ld)) in
      Some (set_leader (store_ready ls (bank_of (ld_next ld)) (LaneToken k (pw_sequence ready)))
              (published_ready ld LDrain), sh)
  | LFinal bank' helper attempts =>
      if kReduceGradBankCount <=? bank' then go LTerminal
      else if negb (ld_published ld bank') then go (LFinal (bank' + 1) 0 0)
      else match WaitForHelpers ls bank' helperCount (ld_bankSequence ld bank') helper attempts with
        | WaitOver => go (LFinal (bank' + 1) 0 0)
        | WaitOn helper' attempts' => go (LFinal bank' helper' attempts')
        | WaitAborted => go LReturned
        | WaitTimeout => Some (fail_leader ls sh [kReduceGradDeviceLeaderTimeout])
        end
  | LTerminal => Some (set_leader (store_item ls bank (PublishItem (terminal_item k (ld_sequence ld))))
                         (leader_at ld LTerminalToken), sh)
  | LTerminalToken => Some (set_leader (store_ready ls bank (LaneToken k (ld_sequence ld)))
                              (leader_at ld LReturned), sh)
  | LReturned => None
  end.

(** ** A helper *)

Definition helper_at (h : Helper) (pc : HelperPc) : Helper :=
  {| hp_pc := pc; hp_sequence := hp_sequence h; hp_ub := hp_ub h |}.

(** The offset and the size of a tile of an item, when the item has it. *)
Definition next_tile (it : ReduceGradBankItem) (tile : Z) : option (Z * Z) :=
  if tile <? item_tiles it then Some (tile * kReduceGradKernelTileBytes, tile_bytes it tile) else None.

(** [ProcessBankItem] up to the loop: the first accumulator is loaded. *)
Definition begin_item (helperIndex : Z) (h : Helper) (sh : Shared) (it : ReduceGradBankItem) : Helper * list Z :=
  match item_contributors l k it with
  | None => (helper_at h (HStore false), [kReduceGradDeviceInvalidState])
  | Some contributors =>
      if item_tiles it <=? helperIndex then (helper_at h (HStore false), [])
      else
        ({| hp_pc := HTile it contributors helperIndex 0; hp_sequence := hp_sequence h;
            hp_ub := {| ub_accum := PrefetchAccumulator (sh_grad sh (it_projection it)) (item_output l it)
                          (helperIndex * kReduceGradKernelTileBytes) (tile_bytes it helperIndex) 0
                          (ub_accum (hp_ub h));
                        ub_input := ub_input (hp_ub h) |} |}, [])
  end.

(** One turn of the loop over the tiles. *)
Definition tile_step (lane helperCount : Z) (h : Helper) (sh : Shared) (it : ReduceGradBankItem)
    (contributors : list Z) (tile accumIndex : Z) : Helper * Shared :=
  let '(grad, ub) := AccumulateTile l vadd sources (sh_workspace sh) (sh_grad sh (it_projection it))
    (it_projection it) (item_output l it) (BankPayload l lane (bank_of (hp_sequence h))) contributors
    (it_contributorCount it) (it_chunkIndex it * chunkBytes l) (tile * kReduceGradKernelTileBytes)
    (tile_bytes it tile) accumIndex (next_tile it (tile + helperCount)) (hp_ub h) in
  ({| hp_pc := if tile + helperCount <? item_tiles it
               then HTile it contributors (tile + helperCount) (Z.lxor accumIndex 1) else HStore false;
      hp_sequence := hp_sequence h; hp_ub := ub |},
   {| sh_grad := upd1 (sh_grad sh) (it_projection it) grad; sh_workspace := sh_workspace sh;
      sh_status := sh_status sh |}).

Definition helper_step (lane helperIndex helperCount : Z) (ls : LaneState) (sh : Shared)
    : option (LaneState * Shared) :=
  let h := ls_helpers ls helperIndex in
  let bank := bank_of (hp_sequence h) in
  let go pc := Some (set_helper ls helperIndex (helper_at h pc), sh) in
  match hp_pc h with
  | HWait attempts =>
      if ls_ready ls bank =? LaneToken k (hp_sequence h) then go HLoad
      else if ls_abort ls =? LaneAbortToken k then go HReturned
      else if waitIterations_ k <=? attempts + 1 then
        Some (AbortLane (set_helper ls helperIndex (helper_at h HReturned)), publish sh [kReduceGradDeviceHelperTimeout])
      else go (HWait (attempts + 1))
  | HLoad =>
      let it := LoadItem (ls_item ls bank) in
      if negb (it_token it =? LaneToken k (hp_sequence h)) then
        Some (set_helper ls helperIndex (helper_at h (HStore false)), publish sh [kReduceGradDeviceInvalidState])
      else if it_kind it =? kReduceGradBankTerminal then go (HStore true)
      else if it_kind it =? kReduceGradBankWork then
        let '(h', statuses) := begin_item helperIndex h sh it in
        Some (set_helper ls helperIndex h', publish sh statuses)
      else Some (set_helper ls helperIndex (helper_at h (HStore false)), publish sh [kReduceGradDeviceInvalidState])
  | HTile it contributors tile accumIndex =>
      let '(h', sh') := tile_step lane helperCount h sh it contributors tile accumIndex in
      Some (set_helper ls helperIndex h', sh')
  | HStore last =>
      let h' := if (last : bool) then helper_at h HReturned
                else {| hp_pc := HWait 0; hp_sequence := (hp_sequence h + 1)%u32; hp_ub := hp_ub h |} in
      Some (set_helper (store_done ls bank helperIndex (LaneToken k (hp_sequence h))) helperIndex h', sh)
  | HReturned => None
  end.

(** ** The blocks *)

Record System := { sy_lanes : Z -> LaneState; sy_shared : Shared }.

Definition set_lane (s : System) (lane : Z) (r : LaneState * Shared) : System :=
  {| sy_lanes := upd1 (sy_lanes s) lane (fst r); sy_shared := snd r |}.

(** The lane of a block and what the block does in it ([Process]). *)
Definition block_step (o : Oracle) (blockIdx : Z) (s : System) : option System :=
  if blockIdx <? laneCount l then
    set_lane s blockIdx <$> leader_step o blockIdx (sy_lanes s blockIdx) (sy_shared s)
  else
    let '(lane, helperIndex, helperCount) := HelperLane l k blockIdx in
    set_lane s lane <$> helper_step lane helperIndex helperCount (sy_lanes s lane) (sy_shared s).

(** A block that finds a status published when it looks, before its first step, does not run its
    lane. *)
Definition skip_step (blockIdx : Z) (s : System) : option System :=
  if sh_status (sy_shared s) =? 0 then None
  else if blockIdx <? laneCount l then
    let ls := sy_lanes s blockIdx in
    match ld_pc (ls_leader ls) with
    | LStart => Some (set_lane s blockIdx (set_leader ls (leader_at (ls_leader ls) LReturned), sy_shared s))
    | _ => None
    end
  else
    let '(lane, helperIndex, _) := HelperLane l k blockIdx in
    let ls := sy_lanes s lane in
    let h := ls_helpers ls helperIndex in
    match hp_pc h with
    | HWait 0 => if hp_sequence h =? 1
                 then Some (set_lane s lane (set_helper ls helperIndex (helper_at h HReturned), sy_shared s)) else None
    | _ => None
    end.

(** The data of a get arrives in the workspace. *)
Definition arrive (s : System) (lane rank i : Z) (g : Get) : System :=
  let ls := sy_lanes s lane in
  let sh := sy_shared s in
  set_lane s lane
    ({| ls_ready := ls_ready ls; ls_item := ls_item ls; ls_done := ls_done ls; ls_abort := ls_abort ls;
        ls_queue := ls_queue ls; ls_arrived := upd1 (ls_arrived ls) rank (upd1 (ls_arrived ls rank) i true);
        ls_leader := ls_leader ls; ls_helpers := ls_helpers ls |},
     {| sh_grad := sh_grad sh;
        sh_workspace := DataCopyPad (sh_workspace sh) (get_local g) (sources rank (get_region g - 1)) (get_remote g)
                          (get_bytes g);
        sh_status := sh_status sh |}).

(** A queue that is reported quiet has no get in flight before the frontier. *)
Definition oracle_sound (o : Oracle) (blockIdx : Z) (s : System) : Prop :=
  let ls := sy_lanes s blockIdx in
  let ready := ld_pending (ls_leader ls) (bank_of (ld_next (ls_leader ls))) in
  forall rank, pw_used ready rank = true -> o_quiet o rank = TILEXR_UDMA_STATUS_SUCCESS ->
    forall i, 0 <= i < pw_frontiers ready rank -> ls_arrived ls rank i = true.

Inductive gstep (s : System) : System -> Prop :=
| gstep_block blockIdx o s' : 0 <= blockIdx < blockCount k ->
    (blockIdx < laneCount l -> oracle_sound o blockIdx s) -> block_step o blockIdx s = Some s' -> gstep s s'
| gstep_skip blockIdx s' : 0 <= blockIdx < blockCount k -> skip_step blockIdx s = Some s' -> gstep s s'
| gstep_arrive lane rank i g : 0 <= lane < laneCount l ->
    ls_queue (sy_lanes s lane) rank !! Z.to_nat i = Some g -> 0 <= i ->
    ls_arrived (sy_lanes s lane) rank i = false -> gstep s (arrive s lane rank i g).

(** [greach s0 n s]: [s] is reached from [s0] in [n] steps. *)
Inductive greach (s0 : System) : nat -> System -> Prop :=
| greach_refl : greach s0 0 s0
| greach_step n s s' : greach s0 n s -> gstep s s' -> greach s0 (S n) s'.

(** ** The start *)

(** What the workspace holds before a launch: in each lane the ready words, the items, the done
    words and the abort word; and the payloads. *)
Record Before := {
  b_ready : Z -> Z -> Z; b_item : Z -> Z -> list Z; b_done : Z -> Z -> Z -> Z; b_abort : Z -> Z;
  b_workspace : Z -> V; b_grad : Z -> Z -> V; b_ub : Ub (V:=V); b_pending : ReduceGradPendingWave
}.

Definition gstart (b : Before) : System :=
  {| sy_lanes := fun lane =>
       {| ls_ready := b_ready b lane; ls_item := b_item b lane; ls_done := b_done b lane; ls_abort := b_abort b lane;
          ls_queue := fun _ => []; ls_arrived := fun _ _ => false;
          ls_leader := {| ld_pc := LStart; ld_work := lane_waves l k lane; ld_sequence := 1; ld_next := 1;
                          ld_pending := fun _ => b_pending b; ld_issued := fun _ => false;
                          ld_published := fun _ => false; ld_bankSequence := fun _ => 0 |};
          ls_helpers := fun _ => {| hp_pc := HWait 0; hp_sequence := 1; hp_ub := b_ub b |} |};
     sy_shared := {| sh_grad := b_grad b; sh_workspace := b_workspace b; sh_status := 0 |} |}.

(** No core has a step left. *)
Definition finished (s : System) : Prop := forall lane, 0 <= lane < laneCount l ->
  ld_pc (ls_leader (sy_lanes s lane)) = LReturned /\
  forall h, 0 <= h < fst (HelperShape l k lane) -> hp_pc (ls_helpers (sy_lanes s lane) h) = HReturned.
End lane.
