(* ===== verification/GradLaneInv.v ===== *)
(** The invariant of the lanes of the gradient reduction. Three counters describe a lane: the
    waves its leader has issued, the waves it has published, and the waves each helper is done
    with. The words of the lane are functions of the counters, and the leader never issues a wave
    into a bank before every helper is done with the wave before it in that bank. *)
From S2P Require Import Prelude Layouts CombineWire UdmaTypes GradLayout GradKernel GradWave GradTile GradShare GradLane.

(** All elements pass a test, or one of them fails it. *)
Lemma forallb_or {A : Type} (f : A -> bool) (xs : list A) :
  (forall x, x ∈ xs -> f x = true) \/ exists x, x ∈ xs /\ f x = false.
Proof.
  induction xs as [|x xs IH]; [left; by intros x ?%elem_of_nil|]. destruct (f x) eqn:E1; [|right; exists x; split; [by left|done]].
  destruct IH as [IH|(y & Hy & E2)]; [left; by intros y [-> |Hy]%elem_of_cons; [|apply IH]|right; exists y; split; [by right|done]].
Qed.

(** ** Words of two banks *)

(** The last of the first [c] sequence numbers that uses a bank. *)
Definition lastq (bank c : Z) : Z := if (c - 1) mod 2 =? bank then c else c - 1.

(** A word that is stored with [f q] for every sequence number [q] of its bank up to [c]. *)
Definition word_at {A : Type} (w0 : A) (f : Z -> A) (bank c : Z) : A :=
  if 1 <=? lastq bank c then f (lastq bank c) else w0.

Lemma bank_of_eq q : 1 <= q <= UINT32_MAX -> bank_of q = (q - 1) mod 2.
Proof. intros Hq. unfold bank_of, kReduceGradBankCount, UINT32_MAX in *. rewrite u32_small by lia. done. Qed.

Lemma bank_of_range q : 0 <= bank_of q < 2.
Proof. unfold bank_of, kReduceGradBankCount. apply Z.mod_pos_bound. lia. Qed.

Lemma bank_of_inj q q' : 1 <= q <= UINT32_MAX -> 1 <= q' <= UINT32_MAX -> bank_of q = bank_of q' -> q - 2 < q' < q + 2 -> q = q'.
Proof. intros Hq Hq'. rewrite !bank_of_eq by done. div_lia. Qed.

Lemma bank_of_2 q : 1 <= q -> q + 2 <= UINT32_MAX -> bank_of (q + 2) = bank_of q.
Proof. intros Hq Hq'. rewrite !bank_of_eq by lia. div_lia. Qed.

Lemma word_at_step {A : Type} (w w0 : Z -> A) f c : 0 <= c < UINT32_MAX -> (forall bank, 0 <= bank < 2 -> w bank = word_at (w0 bank) f bank c) ->
  forall bank, 0 <= bank < 2 -> upd1 w (bank_of (c + 1)) (f (c + 1)) bank = word_at (w0 bank) f bank (c + 1).
Proof.
  intros Hc Hw bank Hb. unfold upd1. rewrite bank_of_eq by lia. unfold word_at, lastq in *. rewrite Z.add_simpl_r.
  destruct (Z.eqb_spec bank (c mod 2)) as [E1|E1], (Z.eqb_spec (c mod 2) bank) as [E2|E2]; try lia.
  - rewrite (proj2 (Z.leb_le 1 (c + 1))) by lia. done.
  - rewrite Hw by done. destruct (Z.eqb_spec ((c - 1) mod 2) bank); [done|]. div_lia.
Qed.

Lemma word_at_bank {A : Type} (w0 : A) f q c : 1 <= q <= UINT32_MAX -> q <= c < q + 2 -> word_at w0 f (bank_of q) c = f q.
Proof.
  intros Hq Hc. unfold word_at, lastq. rewrite bank_of_eq by done.
  assert (c = q \/ c = q + 1) as [-> | ->] by lia.
  - rewrite Z.eqb_refl, (proj2 (Z.leb_le 1 q)) by lia. done.
  - rewrite (proj2 (Z.eqb_neq ((q + 1 - 1) mod 2) _)) by div_lia. rewrite Z.add_simpl_r, (proj2 (Z.leb_le 1 q)) by lia. done.
Qed.

Lemma word_at_cases {A : Type} (w0 : A) f bank c : 0 <= bank < 2 -> c < UINT32_MAX ->
  word_at w0 f bank c = w0 \/ exists q, 1 <= q <= c /\ c < q + 2 /\ bank_of q = bank /\ word_at w0 f bank c = f q.
Proof.
  intros Hb Hc. unfold word_at, lastq. destruct (Z.eqb_spec ((c - 1) mod 2) bank) as [E1|E1];
    [destruct (Z.leb_spec 1 c)|destruct (Z.leb_spec 1 (c - 1))]; try (by left); right.
  - exists c. rewrite bank_of_eq by lia. split_and!; lia || done.
  - exists (c - 1). rewrite bank_of_eq by lia. split_and!; [lia..| |done]. div_lia.
Qed.

Section inv.
Context (l : ReduceGradLayout) (k : GradLaunch) (Hl : grad_layout_ok l) (Hk : launch_ok l k).
Context (Hrows : forall p, 0 <= p < 3 -> g_expertCount l * rowBytes l p <= UINT64_MAX).
Context (Hwaves : forall lane, 0 <= lane < laneCount l -> Z.of_nat (length (lane_waves l k lane)) + 2 <= UINT32_MAX).
Context {V : Type} (vadd : V -> V -> V) (sources : Z -> Z -> Z -> V) (b : Before (V:=V)).

(** No word of the workspace is a token of this launch. *)
Definition stale (w : Z) : Prop := forall q, is_u32 q -> w <> LaneToken k q.
Context (Hready : forall lane bank, stale (b_ready b lane bank)).
Context (Hdone : forall lane bank h, stale (b_done b lane bank h)).
Context (Habort : forall lane, stale (b_abort b lane)).

Lemma lane_token_inj q q' : is_u32 q -> is_u32 q' -> LaneToken k q = LaneToken k q' -> q = q'.
Proof using Type.
  intros Hq Hq'. unfold is_u32, UINT32_MAX in *. unfold LaneToken. rewrite !(Z.lor_comm (Z.shiftl _ _)).
  rewrite !lor_shiftl_add by lia. lia.
Qed.

(** ** What is fixed: the items and the gets of a lane *)

Definition waves (lane : Z) : list Wave := lane_waves l k lane.
Definition wave_count (lane : Z) : Z := Z.of_nat (length (waves lane)).
Definition wave_at (lane q : Z) : option Wave := waves lane !! Z.to_nat (q - 1).

Definition wave_item (lane q : Z) (w : Wave) : ReduceGradBankItem :=
  let p := ProjectionForLane l lane in
  {| it_token := LaneToken k q; it_chunkIndex := wv_chunk w; it_chunkBytes := chunk_size l p (wv_chunk w);
     it_kind := kReduceGradBankWork; it_projection := p; it_localExpert := wv_expert w; it_waveStart := wv_start w;
     it_contributorCount := wv_count w; it_remoteContributorCount := remote_count l (wave_cs l k w) |}.

Definition item_of (lane q : Z) : ReduceGradBankItem :=
  match wave_at lane q with Some w => wave_item lane q w | None => terminal_item k q end.

Definition gets_at (lane q : Z) : list Get :=
  match wave_at lane q with
  | Some w => wave_gets l lane (ProjectionForLane l lane) (bank_of q) (wv_chunk w * chunkBytes l)
                (chunk_size l (ProjectionForLane l lane) (wv_chunk w)) 0 (wave_cs l k w)
  | None => []
  end.

Definition queue_upto (lane n rank : Z) : list Get :=
  q ← seqZ 1 n; filter (fun g => get_rank g = rank) (gets_at lane q).

Definition frontier (lane n rank : Z) : Z := Z.of_nat (length (queue_upto lane n rank)).

Lemma queue_upto_S lane n rank : 0 <= n ->
  queue_upto lane (n + 1) rank = queue_upto lane n rank ++ filter (fun g => get_rank g = rank) (gets_at lane (n + 1)).
Proof using Type.
  intros Hn. unfold queue_upto. rewrite seqZ_app, bind_app by lia. f_equal.
  replace (1 + n) with (n + 1) by lia. change (seqZ (n + 1) 1) with [Z.of_nat 0 + (n + 1)]. rewrite bind_cons. change (@nil Z ≫= _) with (@nil Get). rewrite app_nil_r. done.
Qed.

Lemma frontier_mono lane n m rank : 0 <= n <= m -> frontier lane n rank <= frontier lane m rank.
Proof using Type.
  intros Hnm. unfold frontier, queue_upto. replace m with (n + (m - n)) by lia.
  rewrite seqZ_app, bind_app, length_app by lia. lia.
Qed.

(** The gets of a wave: their slots. *)
Lemma queue_get lane n rank i g q : 0 <= n -> 1 <= q <= n -> frontier lane (q - 1) rank <= i < frontier lane q rank ->
  queue_upto lane n rank !! Z.to_nat i = Some g -> g ∈ gets_at lane q /\ get_rank g = rank.
Proof using Type.
  intros Hn Hq Hi Hg. unfold frontier in Hi.
  assert (queue_upto lane n rank = queue_upto lane q rank ++ (q' ← seqZ (1 + q) (n - q); filter (fun g => get_rank g = rank) (gets_at lane q'))) as E.
  { unfold queue_upto at 1. replace n with (q + (n - q)) at 1 by lia. by rewrite seqZ_app, bind_app by lia. }
  rewrite E, lookup_app_l in Hg by lia. replace q with (q - 1 + 1) in Hg at 1 by lia. rewrite queue_upto_S in Hg by lia.
  rewrite lookup_app_r in Hg by lia. apply list_elem_of_lookup_2, list_elem_of_filter in Hg as [Hr Hg].
  replace (q - 1 + 1) with q in Hg by lia. done.
Qed.

(** Every get of the queue belongs to a wave. *)
Lemma queue_wave lane n rank i : 0 <= n -> 0 <= i < frontier lane n rank ->
  exists q, 1 <= q <= n /\ frontier lane (q - 1) rank <= i < frontier lane q rank.
Proof using Type.
  intros Hn. pattern n. apply natlike_ind; [|clear n Hn; intros n Hn IH|done].
  - intros Hi. change (frontier lane 0 rank) with 0 in Hi. lia.
  - rewrite <- Z.add_1_r. intros Hi. destruct (Z.lt_ge_cases i (frontier lane n rank)) as [Hlt|Hge].
    + destruct IH as (q & Hq & Hin); [lia|]. exists q. split; [lia|done].
    + exists (n + 1). rewrite Z.add_simpl_r. split; [lia|]. lia.
Qed.

(** ** The counters *)

Definition issued (ld : Leader) : Z :=
  match ld_pc ld with LReady | LToken => ld_sequence ld | _ => ld_sequence ld - 1 end.

(** Every helper is done with the waves two before this one. *)
Definition reclaimed (ld : Leader) : Z :=
  match ld_pc ld with LIssue | LReady | LToken | LTerminalToken | LReturned => ld_sequence ld | _ => ld_sequence ld - 1 end.

(** The same for the flags of the banks, which the end does not touch. *)
Definition freed (ld : Leader) : Z :=
  match ld_pc ld with LIssue | LReady | LToken => ld_sequence ld | _ => ld_sequence ld - 1 end.

Definition published (ld : Leader) : Z := match ld_pc ld with LReturned => ld_next ld | _ => ld_next ld - 1 end.

Definition itemed (ld : Leader) : Z :=
  match ld_pc ld with LToken | LDrainToken | LTerminalToken | LReturned => ld_next ld | _ => ld_next ld - 1 end.

Definition completed (ld : Leader) : Z := match ld_pc ld with LToken | LDrainToken => ld_next ld | _ => ld_next ld - 1 end.

Definition hdone (h : Helper (V:=V)) : Z := match hp_pc h with HReturned => hp_sequence h | _ => hp_sequence h - 1 end.

(** ** The parts of the invariant *)

Definition leader_ok (lane : Z) (ld : Leader) (done : Z -> Z) : Prop :=
  let n := wave_count lane in let sq := ld_sequence ld in let nx := ld_next ld in
  let loop := 1 <= sq <= n + 1 /\ nx = Z.max 1 (sq - 1) /\ ld_work ld = drop (Z.to_nat (sq - 1)) (waves lane) in
  match ld_pc ld with
  | LStart => sq = 1 /\ nx = 1 /\ ld_work ld = waves lane
  | LNext => loop
  | LReclaim h a => loop /\ 3 <= sq <= n /\ 0 <= h /\ forall h', 0 <= h' < h -> sq - 2 <= done h'
  | LIssue => loop /\ sq <= n
  | LReady | LToken => loop /\ 2 <= sq <= n
  | LDrain => sq = n + 1 /\ sq - 1 <= nx <= sq /\ 1 <= nx
  | LDrainToken => sq = n + 1 /\ nx = n /\ 1 <= nx
  | LFinal bank h a => sq = n + 1 /\ nx = n + 1 /\ 0 <= bank <= 2 /\ 0 <= h /\
      forall q h', n - 1 <= q <= n -> 1 <= q -> 0 <= h' < helper_count l k lane ->
        bank_of q < bank \/ bank_of q = bank /\ h' < h -> q <= done h'
  | LTerminal | LTerminalToken | LReturned => sq = n + 1 /\ nx = n + 1 /\
      forall h, 0 <= h < helper_count l k lane -> n <= done h
  end.

Definition pending_ok (lane q : Z) (pw : ReduceGradPendingWave) : Prop :=
  pw_sequence pw = q /\ (exists w, wave_at lane q = Some w /\ work_item k pw = wave_item lane q w) /\
  (forall r, pw_used pw r = true <-> exists g, g ∈ gets_at lane q /\ get_rank g = r) /\
  (forall r, pw_used pw r = true -> pw_frontiers pw r = frontier lane q r).

(** The flags of the banks: [nx] to [ic] are issued, those up to [pb] are published, and those up
    to [rc - 2] are reclaimed. *)
Definition banks_ok (lane nx ic pb rc : Z) (ld : Leader) : Prop :=
  (forall q, nx <= q <= ic -> ld_issued ld (bank_of q) = true /\ pending_ok lane q (ld_pending ld (bank_of q))) /\
  (forall bank, 0 <= bank < 2 -> ld_issued ld bank = true -> exists q, nx <= q <= ic /\ bank_of q = bank) /\
  (forall q, 1 <= q <= pb -> rc < q + 2 -> ld_published ld (bank_of q) = true /\ ld_bankSequence ld (bank_of q) = q) /\
  (forall bank, 0 <= bank < 2 -> ld_published ld bank = true -> exists q, 1 <= q <= pb /\ rc < q + 2 /\ bank_of q = bank).

Definition words_ok (lane pb im : Z) (ls : LaneState (V:=V)) : Prop :=
  (forall bank, 0 <= bank < 2 -> ls_ready ls bank = word_at (b_ready b lane bank) (LaneToken k) bank pb) /\
  (forall bank, 0 <= bank < 2 -> ls_item ls bank = word_at (b_item b lane bank) (fun q => PublishItem (item_of lane q)) bank im) /\
  (forall bank h, 0 <= bank < 2 -> 0 <= h < helper_count l k lane ->
     ls_done ls bank h = word_at (b_done b lane bank h) (LaneToken k) bank (hdone (ls_helpers ls h))).

(** The gets of the first [ic] waves are posted, those of the first [cp] have arrived, and what
    has arrived for the last two waves is in its slot. *)
Definition transport_ok (lane ic cp : Z) (ls : LaneState (V:=V)) (ws : Z -> V) : Prop :=
  (forall r, ls_queue ls r = queue_upto lane ic r) /\
  (forall r i, ls_arrived ls r i = true -> i < frontier lane ic r) /\
  (forall r i, 0 <= i < frontier lane cp r -> ls_arrived ls r i = true) /\
  (forall q r i g, 1 <= q <= ic -> ic < q + 2 -> 0 <= i -> frontier lane (q - 1) r <= i < frontier lane q r ->
     queue_upto lane ic r !! Z.to_nat i = Some g -> ls_arrived ls r i = true -> forall x, 0 <= x < get_bytes g ->
     ws (get_local g + x) = sources r (ProjectionForLane l lane) (get_remote g + x)).

Definition helper_ok (lane h pb rc : Z) (hp : Helper (V:=V)) (grad : Z -> Z -> V) : Prop :=
  let n := wave_count lane in let s := hp_sequence hp in
  1 <= s <= n + 1 /\ hdone hp <= pb /\ rc <= hdone hp + 2 /\
  match hp_pc hp with
  | HWait a => True
  | HLoad => s <= pb
  | HTile it cs tile ai => s <= pb /\ exists w, wave_at lane s = Some w /\ it = wave_item lane s w /\ cs = wave_cs l k w /\
      tile mod helper_count l k lane = h /\
      0 <= tile < ceil_div (it_chunkBytes it) kReduceGradKernelTileBytes /\ (ai = 0 \/ ai = 1) /\
      forall x, 0 <= x < tile_size (it_chunkBytes it) tile ->
        ub_accum (hp_ub hp) ai x = grad (it_projection it) (item_output l it + tile * kReduceGradKernelTileBytes + x)
  | HStore last => s <= pb /\ last = (s =? n + 1)
  | HReturned => s = n + 1
  end.

Record lane_inv (lane : Z) (ls : LaneState (V:=V)) (sh : Shared (V:=V)) : Prop := {
  li_abort : ls_abort ls <> LaneAbortToken k;
  li_leader : leader_ok lane (ls_leader ls) (fun h => hdone (ls_helpers ls h));
  li_banks : banks_ok lane (ld_next (ls_leader ls)) (issued (ls_leader ls)) (ld_next (ls_leader ls) - 1) (freed (ls_leader ls)) (ls_leader ls);
  li_words : words_ok lane (published (ls_leader ls)) (itemed (ls_leader ls)) ls;
  li_transport : transport_ok lane (issued (ls_leader ls)) (completed (ls_leader ls)) ls (sh_workspace sh);
  li_helpers h : 0 <= h < helper_count l k lane ->
    helper_ok lane h (published (ls_leader ls)) (reclaimed (ls_leader ls)) (ls_helpers ls h) (sh_grad sh)
}.

Lemma wave_count_small lane : 0 <= lane < laneCount l -> 0 <= wave_count lane /\ wave_count lane + 2 <= UINT32_MAX.
Proof using Hwaves. intros Hlane. unfold wave_count, waves. specialize (Hwaves lane Hlane). lia. Qed.

Lemma wave_at_some lane q : 1 <= q <= wave_count lane -> exists w, wave_at lane q = Some w.
Proof using Type. intros Hq. unfold wave_at, wave_count in *. apply lookup_lt_is_Some_2. lia. Qed.

Lemma wave_at_range lane q w : 1 <= q -> wave_at lane q = Some w -> q <= wave_count lane.
Proof using Type. intros Hq H. unfold wave_at, wave_count in *. apply lookup_lt_Some in H. lia. Qed.

Lemma wave_at_ok lane q w : 0 <= lane < laneCount l -> wave_at lane q = Some w -> wave_ok l k lane w.
Proof using Hl Hrows. intros Hlane H. apply list_elem_of_lookup_2 in H. by apply lane_wave_ok. Qed.

Lemma stale_at w0 q q' bank : stale w0 -> is_u32 q -> 0 <= bank < 2 -> q' < UINT32_MAX ->
  word_at w0 (LaneToken k) bank q' = LaneToken k q -> 1 <= q <= q' /\ q' < q + 2 /\ bank_of q = bank.
Proof using Type.
  intros Hs Hq Hb Hq' E. destruct (word_at_cases w0 (LaneToken k) bank q' Hb Hq') as [E1|(q1 & H1 & H2 & H3 & E1)];
    rewrite E1 in E; [by apply Hs in E|]. apply lane_token_inj in E as ->; [|unfold is_u32, UINT32_MAX in *; lia|done]. done.
Qed.

(** ** Statuses *)

Lemma statuses_zero sts s : Forall (fun v => v <> 0) sts -> foldl PublishStatus s sts = 0 -> sts = [] /\ s = 0.
Proof using Type.
  revert s. induction sts as [|v sts IH]; intros s Hn; [done|]. cbn [foldl]. intros E.
  apply Forall_cons in Hn as [Hv Hn]. apply IH in E as [_ E]; [|done]. unfold PublishStatus in E.
  rewrite (proj2 (Z.eqb_neq v 0)) in E by done. cbn [negb] in E. destruct (Z.eqb_spec s 0); done.
Qed.

Lemma publish_zero (sh : Shared (V:=V)) sts : Forall (fun v => v <> 0) sts -> sh_status (publish sh sts) = 0 -> sts = [] /\ publish sh sts = sh.
Proof using Type.
  intros Hn E. apply statuses_zero in E as [-> E]; [|done]. split; [done|]. by destruct sh.
Qed.

Lemma fail_status (ls : LaneState (V:=V)) sh sts ls' sh' : Forall (fun v => v <> 0) sts -> sts <> [] ->
  Some (fail_leader k ls sh sts) = Some (ls', sh') -> sh_status sh' <> 0.
Proof using Type. intros Hn Hne [= _ <-] E. apply statuses_zero in E as [E _]; done. Qed.

Lemma complete_statuses pw quiet : Forall (fun v => v <> 0) (CompleteWave l pw quiet).
Proof using Type.
  apply Forall_forall. intros v Hv. apply list_elem_of_fmap in Hv as (r & -> & _).
  unfold kReduceGradDeviceUdmaTimeout, kReduceGradDeviceUdmaCqError. case_if; lia.
Qed.

(** ** Steps that keep the counters *)

Definition same_counters (pc pc' : LeaderPc) (ld : Leader) : Prop :=
  issued (leader_at ld pc) = issued (leader_at ld pc') /\ published (leader_at ld pc) = published (leader_at ld pc') /\
  reclaimed (leader_at ld pc) = reclaimed (leader_at ld pc') /\ freed (leader_at ld pc) = freed (leader_at ld pc') /\ itemed (leader_at ld pc) = itemed (leader_at ld pc') /\
  completed (leader_at ld pc) = completed (leader_at ld pc').

Lemma leader_at_self ld : leader_at ld (ld_pc ld) = ld.
Proof using Type. by destruct ld. Qed.

Lemma inv_goto lane ls sh pc : lane_inv lane ls sh -> same_counters (ld_pc (ls_leader ls)) pc (ls_leader ls) ->
  leader_ok lane (leader_at (ls_leader ls) pc) (fun h => hdone (ls_helpers ls h)) ->
  lane_inv lane (set_leader ls (leader_at (ls_leader ls) pc)) sh.
Proof using Type.
  intros [] (E1 & E2 & E3 & E6 & E4 & E5) Hok. rewrite leader_at_self in *.
  constructor; cbn [set_leader ls_leader ls_abort ls_helpers]; rewrite <- ?E1, <- ?E2, <- ?E3, <- ?E4, <- ?E5, <- ?E6; done.
Qed.

Lemma helper_ok_mono lane h pb rc pb' rc' hp grad : helper_ok lane h pb rc hp grad -> pb <= pb' -> rc' <= hdone hp + 2 ->
  helper_ok lane h pb' rc' hp grad.
Proof using Type.
  intros (H1 & H2 & H3 & H4) Hpb Hrc. split_and!; try done; [lia..|]. destruct (hp_pc hp); try done; try lia.
  - destruct H4 as [? H4]. split; [lia|done].
  - destruct H4 as [? H4]. split; [lia|done].
Qed.

(** The counters of a lane in order. *)
Lemma counters_le lane ls sh : 0 <= lane < laneCount l -> lane_inv lane ls sh -> let ld := ls_leader ls in
  1 <= ld_next ld /\ 0 <= published ld <= itemed ld /\ itemed ld <= reclaimed ld /\ issued ld <= reclaimed ld /\
  reclaimed ld <= wave_count lane + 1 /\ 0 <= issued ld <= wave_count lane /\ itemed ld <= wave_count lane + 1 /\
  ld_sequence ld <= wave_count lane + 1 /\ ld_next ld <= wave_count lane + 1 /\ 1 <= ld_sequence ld /\ completed ld <= issued ld /\ 0 <= completed ld /\
  issued ld - 2 <= completed ld.
Proof using Hwaves.
  intros Hlane Hi ld. pose proof (li_leader _ _ _ Hi) as HL. destruct (wave_count_small lane Hlane) as [N0 _].
  fold ld in HL. unfold leader_ok in HL. unfold published, itemed, reclaimed, issued, completed.
  destruct (ld_pc ld); lia.
Qed.

(** ** The leader waits *)

Lemma wait_done lane ls sh bank h q : 0 <= lane < laneCount l -> lane_inv lane ls sh -> 0 <= bank < 2 ->
  0 <= h < helper_count l k lane -> is_u32 q -> ls_done ls bank h = LaneToken k q -> q <= hdone (ls_helpers ls h).
Proof using Hl Hk Hrows Hwaves Hdone.
  intros Hlane Hi Hb Hh Hq E. destruct (li_words _ _ _ Hi) as (_ & _ & W3). rewrite W3 in E by done.
  destruct (li_helpers _ _ _ Hi h Hh) as (H1 & H2 & _). destruct (counters_le lane ls sh Hlane Hi) as (_ & C2 & C3 & _ & C5 & _).
  destruct (wave_count_small lane Hlane). apply stale_at in E; [lia|apply Hdone|done|done|lia].
Qed.

Lemma wait_over (ls : LaneState (V:=V)) bank hc q h a : WaitForHelpers k ls bank hc q h a = WaitOver -> hc <= h.
Proof using Type. unfold WaitForHelpers. case_if; [intros _; b2p; lia|]. repeat case_if; done. Qed.

Lemma wait_on lane ls sh bank q h a h' a' : 0 <= lane < laneCount l -> lane_inv lane ls sh -> 0 <= bank < 2 -> is_u32 q ->
  0 <= h -> WaitForHelpers k ls bank (helper_count l k lane) q h a = WaitOn h' a' ->
  h' = h \/ h' = h + 1 /\ h < helper_count l k lane /\ q <= hdone (ls_helpers ls h).
Proof using Hl Hk Hrows Hwaves Hdone.
  intros Hlane Hi Hb Hq Hh. unfold WaitForHelpers. case_if; [done|]. b2p.
  destruct (Z.eqb_spec (ls_done ls bank h) (LaneToken k q)) as [E1|E1].
  - intros [= <- <-]. right. split_and!; [done|lia|]. apply (wait_done lane ls sh bank); try done; lia.
  - repeat case_if; try done. intros [= <- <-]. by left.
Qed.

Lemma wait_aborted lane ls sh bank hc q h a : lane_inv lane ls sh -> WaitForHelpers k ls bank hc q h a <> WaitAborted.
Proof using Type.
  intros Hi. unfold WaitForHelpers. case_if; [done|]. case_if; [done|]. rewrite (proj2 (Z.eqb_neq _ _) (li_abort _ _ _ Hi)).
  case_if; done.
Qed.

(** ** The leader issues *)

Lemma wave_tail lane sq w rest : 1 <= sq -> w :: rest = drop (Z.to_nat (sq - 1)) (waves lane) ->
  sq <= wave_count lane /\ wave_at lane sq = Some w /\ rest = drop (Z.to_nat sq) (waves lane).
Proof using Type.
  intros Hsq E. unfold wave_count, wave_at. split_and!.
  - apply (f_equal length) in E. rewrite length_drop in E. cbn in E. lia.
  - rewrite <- (Nat.add_0_r (Z.to_nat (sq - 1))), <- lookup_drop, <- E. done.
  - apply (f_equal (drop 1)) in E. rewrite drop_drop in E. cbn in E. rewrite drop_0 in E. rewrite E. f_equal. lia.
Qed.

Lemma wave_cs_len lane w : wave_ok l k lane w -> 0 < Z.of_nat (length (wave_cs l k w)) <= 128.
Proof using Hl. intros Hw. rewrite (wave_cs_length l k lane w Hw). destruct Hw, (gl_ranks l Hl). lia. Qed.

Lemma lane_p lane : 0 <= lane < laneCount l -> 0 <= ProjectionForLane l lane < 3.
Proof using Hl. intros Hlane. by destruct (lane_projection l Hl lane Hlane) as (p & Hp & -> & _). Qed.

Lemma wave_fields lane w : 0 <= lane < laneCount l -> wave_ok l k lane w ->
  is_u32 (wv_expert w) /\ is_u32 (wv_start w) /\ is_u32 (wv_count w) /\ is_u32 (remote_count l (wave_cs l k w)) /\
  0 <= wv_chunk w < chunkCounts l (ProjectionForLane l lane) /\ 0 < wv_count w.
Proof using Hl.
  intros Hlane Hw. pose proof (wave_cs_len lane w Hw) as Hc. pose proof (wave_cs_length l k lane w Hw) as Hlen.
  pose proof (remote_count_le l (wave_cs l k w)). destruct Hw. destruct (gl_experts l Hl) as (E1 & E2 & E3), (gl_ranks l Hl).
  pose proof (holders_le l k Hl (globalExpert l (wv_expert w))).
  assert (g_expertsPerRank l <= g_expertsPerRank l * g_rankSize l) by nia. unfold is_u32, UINT32_MAX, INT32_MAX in *. lia.
Qed.

Lemma issue_wave lane q w post flush head pw gets : 0 <= lane < laneCount l -> 1 <= q -> wave_at lane q = Some w ->
  (forall r, head r = frontier lane (q - 1) r) ->
  IssueWave l k lane (ProjectionForLane l lane) (bank_of q) w q post head flush = (pw, gets, []) ->
  gets = gets_at lane q /\ pending_ok lane q pw.
Proof using Hl Hrows.
  intros Hlane Hq Hw Hhead. pose proof (wave_at_ok lane q w Hlane Hw) as Hok. destruct (wave_fields lane w Hlane Hok) as (F1 & F2 & F3 & F4 & F5 & F6).
  destruct (chunk_size_ok l Hl _ _ (lane_p lane Hlane) F5) as (Z1 & _ & Z3 & Z4). destruct (gl_rows l Hl _ (lane_p lane Hlane)) as [_ R].
  destruct (issue_spec l k lane (ProjectionForLane l lane) (bank_of q) w post (entries_range l Hl) ltac:(unfold is_u32 in F2; lia) ltac:(unfold is_u32 in F3; lia))
    as (I1 & I2 & I3 & I4). fold (wave_cs l k w) in I1, I2, I4.
  assert (0 <= wv_chunk w * chunkBytes l) by (destruct (gl_chunk l Hl); apply Z.mul_nonneg_nonneg; lia).
  assert (MinU64 (rowBytes l (ProjectionForLane l lane) - wv_chunk w * chunkBytes l)%u64 (chunkBytes l) =
    MinU64 (u64 (rowBytes l (ProjectionForLane l lane) - wv_chunk w * chunkBytes l)) (chunkBytes l)) as E4.
  { rewrite (u64_small (wv_chunk w * chunkBytes l)) by (unfold UINT64_MAX in R; lia). done. }
  unfold IssueWave. intros [= Epw Eg Es]. apply app_eq_nil in Es as [Es1 Es2]. specialize (I4 Es1). rewrite Z4 in E4. rewrite <- E4 in I4.
  assert (is_gets (issue_entries l k lane (ProjectionForLane l lane) (bank_of q) w post) = gets_at lane q) as EG.
  { rewrite I4. unfold gets_at. by rewrite Hw. }
  rewrite EG in *. split; [done|]. rewrite <- Epw. split_and!; cbn; [done| | |].
  - exists w. split; [done|]. unfold work_item, wave_item. cbn. rewrite Z4, I2. f_equal.
    unfold globalExpert. replace (g_rank l * g_expertsPerRank l + wv_expert w - g_rank l * g_expertsPerRank l) with (wv_expert w) by lia.
    apply u32_small. unfold is_u32, UINT32_MAX in F1. lia.
  - done.
  - intros r ->. rewrite Hhead. unfold frontier. replace q with (q - 1 + 1) at 3 by lia. rewrite queue_upto_S by lia.
    replace (q - 1 + 1) with q by lia. rewrite length_app. lia.
Qed.

Lemma transport_issue lane ic cp ls ws (ld : Leader) : 0 <= cp <= ic -> transport_ok lane ic cp ls ws ->
  transport_ok lane (ic + 1) cp (set_leader (post_gets ls (gets_at lane (ic + 1))) ld) ws.
Proof using Type.
  intros Hcp (T1 & T2 & T3 & T4). split_and!; cbn.
  - intros r. rewrite T1, queue_upto_S by lia. done.
  - intros r i Hi. apply T2 in Hi. pose proof (frontier_mono lane ic (ic + 1) r ltac:(lia)). lia.
  - done.
  - intros q r i g Hq Hlt Hi Hin Hg Ha x Hx. pose proof (T2 r i Ha) as Hlt2.
    assert (q <= ic) by (destruct (Z.eq_dec q (ic + 1)) as [-> |]; [rewrite Z.add_simpl_r in Hin|]; lia).
    apply (T4 q r i g); try done; [lia..|]. rewrite queue_upto_S, lookup_app_l in Hg by (unfold frontier in *; lia). done.
Qed.

Lemma frontier_unused lane q r : 1 <= q -> (forall g, g ∈ gets_at lane q -> get_rank g <> r) ->
  frontier lane q r = frontier lane (q - 1) r.
Proof using Type.
  intros Hq Hn. unfold frontier. replace q with (q - 1 + 1) at 1 by lia. rewrite queue_upto_S, length_app by lia.
  replace (q - 1 + 1) with q by lia. destruct (filter _ (gets_at lane q)) as [|g gs] eqn:Ef; [cbn; lia|].
  exfalso. assert (g ∈ filter (fun g => get_rank g = r) (gets_at lane q)) as Hg by (rewrite Ef; by left).
  apply list_elem_of_filter in Hg as [Hr Hg]. by apply (Hn g Hg).
Qed.

(** The gets that belong to a rank of the launch. *)
Lemma gets_rank lane q g : 0 <= lane < laneCount l -> g ∈ gets_at lane q -> 0 <= get_rank g < g_rankSize l /\ get_rank g <> g_rank l /\
  exists w o, wave_at lane q = Some w /\ 0 <= o < wv_count w /\
    get_local g = BankPayload l lane (bank_of q) + o * chunkBytes l /\ get_region g = ProjectionForLane l lane + 1 /\
    get_bytes g = chunk_size l (ProjectionForLane l lane) (wv_chunk w).
Proof using Hl Hrows.
  intros Hlane Hg. unfold gets_at in Hg. destruct (wave_at lane q) as [w|] eqn:Hw; [|by apply elem_of_nil in Hg].
  pose proof (wave_at_ok lane q w Hlane Hw) as Hok. pose proof (wave_cs_length l k lane w Hok) as Hlen.
  apply elem_wave_gets in Hg as (cs1 & c & cs2 & Ecs & Hr & ->).
  unfold remote_entry in Hr. apply negb_true_iff, Z.eqb_neq in Hr. pose proof (lane_p lane Hlane).
  assert (c ∈ holders l k (globalExpert l (wv_expert w))) as Hc.
  { apply (elem_of_submseteq (wave_cs l k w)); [rewrite Ecs; apply elem_of_app; right; by left|].
    apply sublist_submseteq. unfold wave_cs, window. etrans; [apply sublist_take|apply sublist_drop]. }
  unfold holders in Hc. apply list_elem_of_filter in Hc as [_ Hc%elem_of_seqZ0]. destruct (gl_slots l Hl) as [S1 _].
  cbn. split; [|split; [done|]].
  - unfold plan_entries in Hc. split; [apply Z.div_pos; lia|]. apply Z.div_lt_upper_bound; lia.
  - exists w, (0 + remote_count l cs1). rewrite u32_small by lia. pose proof (remote_count_le l cs1).
    rewrite Ecs, length_app in Hlen. cbn in Hlen. split_and!; try done; lia.
Qed.

(** ** The leader publishes *)

(** A wave that completed: its queues are quiet, so its gets have arrived. *)
Lemma transport_complete lane ic nx ls ws (o : Oracle) ready : 0 <= lane < laneCount l -> 1 <= nx <= ic ->
  transport_ok lane ic (nx - 1) ls ws -> pending_ok lane nx ready -> CompleteWave l ready (o_quiet o) = [] ->
  (forall rank, pw_used ready rank = true -> o_quiet o rank = TILEXR_UDMA_STATUS_SUCCESS ->
    forall i, 0 <= i < pw_frontiers ready rank -> ls_arrived ls rank i = true) ->
  transport_ok lane ic nx ls ws.
Proof using Hl Hrows.
  intros Hlane Hnx (T1 & T2 & T3 & T4) (_ & _ & P3 & P4) Hc Ho. split_and!; try done. intros r i Hi.
  destruct (pw_used ready r) eqn:Eu.
  - assert (o_quiet o r = TILEXR_UDMA_STATUS_SUCCESS) as Hq.
    { destruct (proj1 (P3 r) Eu) as (g & Hg & <-). destruct (gets_rank lane nx g Hlane Hg) as [Hr _].
      destruct (Z.eq_dec (o_quiet o (get_rank g)) TILEXR_UDMA_STATUS_SUCCESS) as [|Hne]; [done|]. exfalso.
      unfold CompleteWave in Hc. apply fmap_nil_inv in Hc. apply (filter_nil_not_elem_of _ _ (get_rank g) Hc).
      - rewrite Eu. cbn [andb]. by apply negb_true_iff, Z.eqb_neq.
      - by apply elem_of_seqZ0. }
    apply (Ho r Eu Hq). by rewrite P4.
  - apply T3. rewrite frontier_unused in Hi; [done|lia|]. intros g Hg <-.
    rewrite (proj2 (P3 (get_rank g))) in Eu; [done|]. by exists g.
Qed.

Lemma words_item lane pb im ls (ld : Leader) : 0 <= im < UINT32_MAX -> words_ok lane pb im ls ->
  words_ok lane pb (im + 1) (set_leader (store_item ls (bank_of (im + 1)) (PublishItem (item_of lane (im + 1)))) ld).
Proof using Type.
  intros Him (W1 & W2 & W3). split_and!; cbn; try done. intros bank Hb.
  by apply (word_at_step (ls_item ls) (b_item b lane) (fun q => PublishItem (item_of lane q))).
Qed.

Lemma words_ready lane pb im ls (ld : Leader) : 0 <= pb < UINT32_MAX -> words_ok lane pb im ls ->
  words_ok lane (pb + 1) im (set_leader (store_ready ls (bank_of (pb + 1)) (LaneToken k (pb + 1))) ld).
Proof using Type.
  intros Him (W1 & W2 & W3). split_and!; cbn; try done. intros bank Hb.
  by apply (word_at_step (ls_ready ls) (b_ready b lane) (LaneToken k)).
Qed.

(** The two cases of a completion: in the loop and behind it. *)
Lemma inv_complete lane ls sh o pc ls' sh' : 0 <= lane < laneCount l -> lane_inv lane ls sh ->
  let ld := ls_leader ls in
  oracle_sound o lane {| sy_lanes := fun _ => ls; sy_shared := sh |} -> ld_pc ld = LReady /\ pc = LToken \/
    ld_pc ld = LDrain /\ pc = LDrainToken -> ld_next ld <= issued ld -> leader_ok lane (leader_at ld pc) (fun h => hdone (ls_helpers ls h)) ->
  match complete_next l o ld with
  | inr statuses => Some (fail_leader k ls sh statuses)
  | inl ready => Some (set_leader (store_item ls (bank_of (ld_next ld)) (PublishItem (work_item k ready))) (leader_at ld pc), sh)
  end = Some (ls', sh') -> sh_status sh' = 0 -> lane_inv lane ls' sh' /\ sh' = sh.
Proof using Hl Hrows Hwaves.
  intros Hlane Hi ld Ho Hpc Hle Hok Hs H0. pose proof (counters_le lane ls sh Hlane Hi) as HC. cbv zeta in HC. fold ld in HC.
  destruct (wave_count_small lane Hlane) as [N0 N1]. pose proof (li_banks _ _ _ Hi) as (B1 & _). fold ld in B1.
  destruct (B1 (ld_next ld) ltac:(lia)) as [B2 B3]. unfold complete_next in Hs. rewrite B2 in Hs. cbn [negb orb] in Hs.
  destruct B3 as (P1 & (w & Pw & Pitem) & P3). rewrite P1, Z.eqb_refl in Hs. cbn [negb] in Hs.
  destruct (CompleteWave l _ _) as [|v vs] eqn:Ec.
  2: { exfalso. refine (fail_status ls sh (v :: vs) ls' sh' _ _ Hs H0); [|done]. rewrite <- Ec. apply complete_statuses. }
  injection Hs as <- <-. split; [|done].
  assert (Eitem : work_item k (ld_pending ld (bank_of (ld_next ld))) = item_of lane (ld_next ld)).
  { unfold item_of. rewrite Pw. done. }
  rewrite Eitem. pose proof (li_words _ _ _ Hi) as HW. pose proof (li_transport _ _ _ Hi) as HT. fold ld in HW, HT.
  assert (transport_ok lane (issued ld) (ld_next ld) ls (sh_workspace sh)) as HT'.
  { eapply (transport_complete lane (issued ld) (ld_next ld) ls (sh_workspace sh) o); try done; [lia| |exact (conj P1 (conj (ex_intro _ w (conj Pw Pitem)) P3))].
    destruct Hpc as [[Ep _]|[Ep _]]; unfold completed in HT; rewrite Ep in HT; done. }
  replace (ld_next ld) with (ld_next ld - 1 + 1) by lia.
  destruct Hi as [Ha _ Hb _ _ Hh]. fold ld in Hb, Hh. constructor; try done; cbn [set_leader ls_leader].
  - destruct Hpc as [[Ep ->]|[Ep ->]]; unfold issued, published, freed in *; rewrite Ep in *; exact Hb.
  - destruct Hpc as [[Ep ->]|[Ep ->]]; unfold published, itemed in *; rewrite Ep in *; cbn [leader_at ld_pc ld_next];
      replace (ld_next ld) with (ld_next ld - 1 + 1) at 2 by lia; apply words_item; try done; lia.
  - destruct Hpc as [[Ep ->]|[Ep ->]]; unfold issued, completed in *; rewrite Ep in *; exact HT'.
  - intros h Hr. specialize (Hh h Hr). destruct Hpc as [[Ep ->]|[Ep ->]]; unfold published, reclaimed in *; rewrite Ep in *; exact Hh.
Qed.

(** The flags behind the store of a ready word. *)
Lemma banks_publish lane nx ic rc ld pc : 1 <= nx <= ic -> ic <= nx + 1 -> ic <= rc <= nx + 1 -> ic + 2 <= UINT32_MAX -> ld_next ld = nx ->
  banks_ok lane nx ic (nx - 1) rc ld -> banks_ok lane (nx + 1) ic nx rc (published_ready ld pc).
Proof using Type.
  intros Hnx Hic Hrc Hmax En (B1 & B2 & B3 & B4). unfold published_ready. split_and!; cbn; rewrite En.
  - intros q Hq. rewrite upd1_ne; [apply B1; lia|]. intros E. apply bank_of_inj in E; lia.
  - intros bank Hb. unfold upd1. destruct (Z.eqb_spec bank (bank_of nx)) as [|Hne]; [done|]. intros Hi.
    destruct (B2 bank Hb Hi) as (q & Hq & <-). exists q. split; [|done].
    assert (q <> nx) by (intros ->; done). lia.
  - intros q Hq Hlt. destruct (Z.eq_dec q nx) as [-> |Hne].
    + rewrite !upd1_eq. split; [done|]. by destruct (B1 nx ltac:(lia)) as [_ (-> & _)].
    + rewrite !upd1_ne by (intros E; apply bank_of_inj in E; lia). apply B3; lia.
  - intros bank Hb. unfold upd1. destruct (Z.eqb_spec bank (bank_of nx)) as [-> |Hne].
    + intros _. exists nx. split_and!; lia || done.
    + intros Hp. destruct (B4 bank Hb Hp) as (q & Hq & Hlt & <-). exists q. split_and!; lia || done.
Qed.

Lemma inv_publish lane ls sh : 0 <= lane < laneCount l -> lane_inv lane ls sh -> let ld := ls_leader ls in
  forall ld', ld_pc ld = LToken /\ ld' = next_turn (published_ready ld LNext) \/ ld_pc ld = LDrainToken /\ ld' = published_ready ld LDrain ->
  lane_inv lane (set_leader (store_ready ls (bank_of (ld_next ld)) (LaneToken k (pw_sequence (ld_pending ld (bank_of (ld_next ld)))))) ld') sh.
Proof using Hl Hrows Hwaves.
  intros Hlane Hi ld ld' Hpc. pose proof (counters_le lane ls sh Hlane Hi) as HC. cbv zeta in HC. fold ld in HC.
  destruct (wave_count_small lane Hlane) as [N0 N1]. unfold UINT32_MAX in N1. destruct Hi as [Ha Hld Hb Hw Ht Hh]. fold ld in Hld, Hb, Hw, Ht, Hh.
  assert (ld_next ld = wave_count lane /\ 1 <= ld_next ld \/ 2 <= ld_sequence ld <= wave_count lane /\ ld_next ld = ld_sequence ld - 1) as Hn.
  { unfold leader_ok in Hld. destruct Hpc as [[Ep _]|[Ep _]]; rewrite Ep in Hld; lia. }
  assert (pw_sequence (ld_pending ld (bank_of (ld_next ld))) = ld_next ld) as ->.
  { destruct Hb as (B1 & _). apply B1. split; [lia|]. unfold issued. unfold leader_ok in Hld. destruct Hpc as [[Ep _]|[Ep _]]; rewrite Ep in *; lia. }
  assert (freed ld' = freed ld /\ issued ld' = issued ld /\ reclaimed ld' = reclaimed ld /\ published ld' = published ld + 1 /\ itemed ld' = itemed ld /\
    completed ld' = completed ld /\ published ld = ld_next ld - 1 /\ ld_next ld' = ld_next ld + 1 /\ itemed ld = ld_next ld /\
    (ld_sequence ld' = ld_sequence ld + 1 /\ ld_pc ld = LToken \/ ld_sequence ld' = ld_sequence ld /\ ld_pc ld = LDrainToken))
    as (E0 & E1 & E2 & E3 & E4 & E5 & E6 & E7 & E8 & E9).
  { unfold issued, reclaimed, freed, published, itemed, completed. destruct Hpc as [[Ep ->]|[Ep ->]]; rewrite Ep; cbn; rewrite ?u32_small by lia.
    - split_and!; try lia; left; split; lia || done.
    - split_and!; try lia; right; split; lia || done. }
  constructor; cbn [set_leader ls_leader ls_helpers store_ready ls_abort]; rewrite ?E0, ?E1, ?E2, ?E4, ?E5.
  - done.
  - unfold leader_ok in *. destruct Hpc as [[Ep ->]|[Ep ->]]; rewrite Ep in Hld; cbn; rewrite ?u32_small by lia.
    + destruct Hld as [(L1 & L2 & L3) L4]. split_and!; try lia. rewrite L3.
      change (tl (drop (Z.to_nat (ld_sequence ld - 1)) (waves lane))) with (drop 1 (drop (Z.to_nat (ld_sequence ld - 1)) (waves lane))).
      rewrite drop_drop. f_equal. lia.
    + lia.
  - rewrite E7. replace (ld_next ld + 1 - 1) with (ld_next ld) by lia.
    assert (banks_ok lane (ld_next ld + 1) (issued ld) (ld_next ld) (freed ld) (published_ready ld LNext)) as HB.
    { unfold leader_ok in Hld. unfold issued, freed in *.
      destruct Hpc as [[Ep _]|[Ep _]]; rewrite Ep in *; apply banks_publish; try done; unfold UINT32_MAX; lia. }
    destruct Hpc as [[Ep ->]|[Ep ->]]; exact HB.
  - rewrite E3. rewrite E6 in *. replace (ld_next ld - 1 + 1) with (ld_next ld) by lia.
    replace (bank_of (ld_next ld)) with (bank_of (ld_next ld - 1 + 1)) by (f_equal; lia).
    replace (ld_next ld) with (ld_next ld - 1 + 1) at 1 3 by lia. apply words_ready; [unfold UINT32_MAX; lia|done].
  - exact Ht.
  - intros h Hr. specialize (Hh h Hr). eapply helper_ok_mono; [exact Hh|lia|]. by destruct Hh as (_ & _ & ? & _).
Qed.

(** The leader finds the bank of its next wave free, or waits for it. *)
Lemma inv_next lane ls sh w rest : 0 <= lane < laneCount l -> lane_inv lane ls sh -> let ld := ls_leader ls in
  ld_pc ld = LNext -> ld_work ld = w :: rest ->
  lane_inv lane (set_leader ls (leader_at ld (if ld_published ld (bank_of (ld_sequence ld)) then LReclaim 0 0 else LIssue))) sh.
Proof using Hl Hk Hrows Hwaves.
  intros Hlane Hi ld Ep Hw. pose proof (li_leader _ _ _ Hi) as Hld. pose proof (li_banks _ _ _ Hi) as Hb. fold ld in Hld, Hb.
  unfold leader_ok in Hld. rewrite Ep in Hld. destruct Hld as (L1 & L2 & L3). destruct (wave_count_small lane Hlane) as [N0 N1]. unfold UINT32_MAX in N1.
  destruct (wave_tail lane (ld_sequence ld) w rest ltac:(lia) ltac:(by rewrite <- L3, Hw)) as (L4 & _).
  unfold published, freed, issued in Hb. rewrite Ep in Hb. pose proof Hb as (B1 & B2 & B3 & B4).
  destruct (ld_published ld (bank_of (ld_sequence ld))) eqn:Epub.
  - destruct (B4 _ (bank_of_range _) Epub) as (q & Hq & _). apply inv_goto; [done|fold ld; rewrite Ep; repeat split|].
    fold ld. unfold leader_ok. cbn. split_and!; try lia; try done; intros; lia.
  - assert (ld_sequence ld <= 2) as H2.
    { destruct (Z.le_gt_cases (ld_sequence ld) 2); [done|]. destruct (B3 (ld_sequence ld - 2)) as [B3' _]; [lia..|].
      rewrite <- bank_of_2 in B3' by (unfold UINT32_MAX; lia). replace (ld_sequence ld - 2 + 2) with (ld_sequence ld) in B3' by lia. congruence. }
    destruct Hi as [Ha _ _ Hwd Ht Hh]. fold ld in Hwd, Ht, Hh. clearbody ld. unfold published, freed, reclaimed, issued, itemed, completed in *. rewrite Ep in *.
    constructor; [done| | |exact Hwd|exact Ht|].
    + unfold leader_ok. cbn. split_and!; first [lia | done].
    + unfold banks_ok. cbn. split_and!; try done; [intros q Hq Hlt; apply B3; lia|].
      intros bank Hbk Hp. destruct (B4 bank Hbk Hp) as (q & Hq & Hlt & <-). exists q. split_and!; lia || done.
    + intros h Hr. specialize (Hh h Hr). cbn. eapply helper_ok_mono; [exact Hh|lia|].
      destruct Hh as (Hs & _). unfold hdone. destruct (hp_pc _); lia.
Qed.

Lemma inv_reclaimed lane ls sh h a : 0 <= lane < laneCount l -> lane_inv lane ls sh -> let ld := ls_leader ls in
  ld_pc ld = LReclaim h a -> helper_count l k lane <= h ->
  lane_inv lane (set_leader ls (unpublish ld (bank_of (ld_sequence ld)))) sh.
Proof using Hl Hk Hrows Hwaves.
  intros Hlane Hi ld Ep Hh. destruct (wave_count_small lane Hlane) as [N0 N1]. unfold UINT32_MAX in N1.
  destruct Hi as [Ha Hld Hb Hwd Ht Hhp]. fold ld in Hld, Hb, Hwd, Ht, Hhp. clearbody ld. unfold leader_ok in Hld. rewrite Ep in Hld.
  destruct Hld as ((L1 & L2 & L3) & L4 & L5 & L6). unfold published, freed, reclaimed, issued, itemed, completed in *. rewrite Ep in *.
  destruct Hb as (B1 & B2 & B3 & B4). constructor; [done| | |exact Hwd|exact Ht|].
  - unfold leader_ok. cbn. split_and!; first [lia | done].
  - unfold banks_ok. cbn. split_and!; try done; [intros q Hq Hlt; lia|]. intros bank Hbk. unfold upd1.
    destruct (Z.eqb_spec bank (bank_of (ld_sequence ld))) as [|Hne]; [done|]. intros Hp.
    destruct (B4 bank Hbk Hp) as (q & Hq & Hlt & <-). exfalso. apply Hne. assert (q = ld_sequence ld - 2) as -> by lia.
    rewrite <- bank_of_2 by (unfold UINT32_MAX; lia). f_equal. lia.
  - intros h' Hr. specialize (Hhp h' Hr). cbn. eapply helper_ok_mono; [exact Hhp|lia|]. specialize (L6 h' ltac:(lia)). cbn in L6. lia.
Qed.

Lemma banks_issue lane nx ic pb rc ld pw : nx = Z.max 1 ic -> 0 <= ic -> ic + 2 <= UINT32_MAX -> ld_sequence ld = ic + 1 ->
  banks_ok lane nx ic pb rc ld -> pending_ok lane (ic + 1) pw -> banks_ok lane nx (ic + 1) pb rc (issue ld (bank_of (ic + 1)) pw).
Proof using Type.
  intros Hnx Hic Hmax Es (B1 & B2 & B3 & B4) Hp. unfold UINT32_MAX in Hmax. split_and!; cbn; try done.
  - intros q Hq. destruct (Z.eq_dec q (ic + 1)) as [-> |Hne]; [by rewrite !upd1_eq|].
    rewrite !upd1_ne by (intros E; apply bank_of_inj in E; unfold UINT32_MAX; lia). apply B1. lia.
  - intros bank Hb. unfold upd1. destruct (Z.eqb_spec bank (bank_of (ic + 1))) as [-> |Hne].
    + intros _. exists (ic + 1). split; [lia|done].
    + intros Hi. destruct (B2 bank Hb Hi) as (q & Hq & <-). exists q. split; [lia|done].
Qed.

Lemma inv_issue lane ls sh w rest pw gets (o : Oracle) : 0 <= lane < laneCount l -> lane_inv lane ls sh -> let ld := ls_leader ls in
  ld_pc ld = LIssue -> ld_work ld = w :: rest ->
  IssueWave l k lane (ProjectionForLane l lane) (bank_of (ld_sequence ld)) w (ld_sequence ld) (o_post o)
    (fun rank => Z.of_nat (length (ls_queue ls rank))) (o_flush o) = (pw, gets, []) ->
  ld_issued ld (bank_of (ld_sequence ld)) = false /\
  lane_inv lane (set_leader (post_gets ls gets)
    (if kReduceGradBankCount <=? ld_sequence ld then issue ld (bank_of (ld_sequence ld)) pw
     else next_turn (issue ld (bank_of (ld_sequence ld)) pw))) sh.
Proof using Hl Hk Hrows Hwaves.
  intros Hlane Hi ld Ep Hw Hiss. destruct (wave_count_small lane Hlane) as [N0 N1]. unfold UINT32_MAX in N1.
  destruct Hi as [Ha Hld Hb Hwd Ht Hhp]. fold ld in Hld, Hb, Hwd, Ht, Hhp. clearbody ld. unfold leader_ok in Hld. rewrite Ep in Hld.
  destruct Hld as ((L1 & L2 & L3) & L4). unfold published, freed, reclaimed, issued, itemed, completed in *. rewrite Ep in *.
  destruct (wave_tail lane (ld_sequence ld) w rest ltac:(lia) ltac:(by rewrite <- L3, Hw)) as (_ & Hat & Hrest).
  apply (issue_wave lane (ld_sequence ld)) in Hiss as [-> Hp]; [|done|lia|done|].
  2: { intros r. destruct Ht as [-> _]. done. }
  split.
  { destruct (ld_issued ld (bank_of (ld_sequence ld))) eqn:Ei; [|done]. exfalso. destruct Hb as (_ & B2 & _).
    destruct (B2 _ (bank_of_range _) Ei) as (q & Hq & Eq). apply bank_of_inj in Eq; unfold UINT32_MAX; lia. }
  assert (banks_ok lane (ld_next ld) (ld_sequence ld) (ld_next ld - 1) (ld_sequence ld) (issue ld (bank_of (ld_sequence ld)) pw)) as HB.
  { replace (ld_sequence ld) with (ld_sequence ld - 1 + 1) at 1 3 by lia. apply banks_issue; try done; try (unfold UINT32_MAX; lia).
    by replace (ld_sequence ld - 1 + 1) with (ld_sequence ld) by lia. }
  assert (forall ld', transport_ok lane (ld_sequence ld) (ld_next ld - 1) (set_leader (post_gets ls (gets_at lane (ld_sequence ld))) ld') (sh_workspace sh)) as HT.
  { intros ld'. replace (ld_sequence ld) with (ld_sequence ld - 1 + 1) by lia. apply transport_issue; [lia|done]. }
  unfold kReduceGradBankCount. destruct (Z.leb_spec 2 (ld_sequence ld)) as [H2|H2].
  - constructor; [done| |exact HB|exact Hwd|exact (HT _)|exact Hhp]. unfold leader_ok. cbn. split_and!; first [lia | done].
  - assert (ld_sequence ld = 1) as E1 by lia. unfold next_turn. cbn [issue ld_work ld_sequence ld_next ld_pending ld_issued ld_published ld_bankSequence].
    rewrite (u32_small (ld_sequence ld + 1)) by lia. constructor; unfold leader_ok, issued, published, freed, reclaimed, itemed, completed;
      cbn [set_leader ls_leader ld_pc ld_sequence ld_next ld_work]; rewrite ?Z.add_simpl_r;
      [done| |exact HB|exact Hwd|exact (HT _)|exact Hhp].
    rewrite Hw. split_and!; [lia..|]. cbn. done.
Qed.

Lemma issue_statuses lane p bank w q post head flush pw gets sts :
  IssueWave l k lane p bank w q post head flush = (pw, gets, sts) -> Forall (fun v => v <> 0) sts.
Proof using Type.
  unfold IssueWave. intros [= _ _ <-]. apply Forall_app. split; [|apply Forall_app; split].
  - unfold issue_entries. generalize (seqZ 0 (plan_entries l)). intros xs.
    induction xs as [|x xs IH] using rev_ind; [constructor|]. rewrite foldl_app. cbn [foldl]. unfold issue_entry at 1.
    repeat case_if; cbn [is_statuses]; try done. apply Forall_app. split; [done|]. by repeat constructor.
  - case_if; by repeat constructor.
  - apply Forall_forall. intros v Hv. by apply list_elem_of_fmap in Hv as (r & -> & _).
Qed.

(** Behind the last wait: the leader has seen every helper done with the banks below [bank]. *)
Lemma final_waits lane ls sh h a bank : 0 <= lane < laneCount l -> lane_inv lane ls sh -> let ld := ls_leader ls in
  ld_pc ld = LFinal bank h a -> 0 <= bank < 2 ->
  ld_published ld bank = false \/ helper_count l k lane <= h ->
  leader_ok lane (leader_at ld (LFinal (bank + 1) 0 0)) (fun h => hdone (ls_helpers ls h)).
Proof using Hwaves.
  intros Hlane Hi ld Ep Hbank Hor. pose proof (li_leader _ _ _ Hi) as Hld. pose proof (li_banks _ _ _ Hi) as (_ & _ & B3 & _).
  destruct (wave_count_small lane Hlane) as [N0 N1]. fold ld in Hld, B3. clearbody ld. unfold leader_ok in *. rewrite Ep in Hld. cbn [leader_at ld_pc ld_sequence ld_next].
  destruct Hld as (L1 & L2 & L3 & L4 & L5). split_and!; [lia..|]. intros q h' Hq Hq1 Hh' [Hlt|[_ ?]]; [|lia].
  destruct (Z.eq_dec (bank_of q) bank) as [E|Hne]; [|apply L5; try done; left; lia].
  destruct Hor as [Hp|Hall]; [|apply L5; try done; right; split; [done|lia]].
  unfold published, freed in B3. rewrite Ep in B3. destruct (B3 q) as [B _]; [lia..|]. rewrite E in B. congruence.
Qed.

Lemma final_wait_on lane ls sh h a bank h' a' : 0 <= lane < laneCount l -> lane_inv lane ls sh -> let ld := ls_leader ls in
  ld_pc ld = LFinal bank h a -> 0 <= bank < 2 -> ld_published ld bank = true ->
  WaitForHelpers k ls bank (helper_count l k lane) (ld_bankSequence ld bank) h a = WaitOn h' a' ->
  leader_ok lane (leader_at ld (LFinal bank h' a')) (fun h => hdone (ls_helpers ls h)).
Proof using Hl Hk Hrows Hwaves Hdone.
  intros Hlane Hi ld Ep Hbank Hp Hw. pose proof (li_leader _ _ _ Hi) as Hld. pose proof (li_banks _ _ _ Hi) as (_ & _ & B3 & B4).
  destruct (wave_count_small lane Hlane) as [N0 N1]. unfold UINT32_MAX in N1. fold ld in Hld, B3, B4.
  destruct (B4 bank Hbank Hp) as (q0 & Q1 & Q2 & Q3). destruct (B3 q0 Q1 Q2) as [_ Eq]. rewrite Q3 in Eq. rewrite Eq in Hw.
  unfold published, freed in *. unfold leader_ok in Hld. rewrite Ep in *. destruct Hld as (L1 & L2 & L3 & L4 & L5).
  apply (wait_on lane ls sh) in Hw; try done; [|unfold is_u32, UINT32_MAX; lia]. unfold leader_ok. cbn [leader_at ld_pc ld_sequence ld_next].
  split_and!; [lia..|]. intros q h2 Hq Hq1 Hh2 Hor. destruct Hw as [-> |(-> & Hlt & Hd)]; [by apply L5|].
  destruct Hor as [Hlt2|[Eb Hlt2]]; [apply L5; try done; by left|].
  destruct (Z.eq_dec h2 h) as [-> |]; [|apply L5; try done; right; split; [done|lia]].
  assert (q = q0) as -> by (apply bank_of_inj; [unfold UINT32_MAX; lia..| |lia]; congruence). done.
Qed.

Lemma inv_terminal lane ls sh : 0 <= lane < laneCount l -> lane_inv lane ls sh -> let ld := ls_leader ls in
  ld_pc ld = LTerminal ->
  lane_inv lane (set_leader (store_item ls (bank_of (ld_sequence ld)) (PublishItem (terminal_item k (ld_sequence ld)))) (leader_at ld LTerminalToken)) sh.
Proof using Hwaves.
  intros Hlane Hi ld Ep. destruct (wave_count_small lane Hlane) as [N0 N1].
  destruct Hi as [Ha Hld Hb Hw Ht Hh]. fold ld in Hld, Hb, Hw, Ht, Hh. clearbody ld.
  unfold leader_ok, published, freed, reclaimed, issued, itemed, completed in *. rewrite Ep in *. destruct Hld as (L1 & L2 & L3).
  assert (item_of lane (wave_count lane + 1) = terminal_item k (wave_count lane + 1)) as Eit.
  { unfold item_of. destruct (wave_at lane (wave_count lane + 1)) eqn:Ew; [|done]. apply wave_at_range in Ew; lia. }
  constructor; unfold leader_ok, published, freed, reclaimed, issued, itemed, completed; cbn [set_leader ls_leader ls_helpers leader_at ld_pc ld_sequence ld_next].
  - done.
  - done.
  - exact Hb.
  - rewrite L2 in Hw. rewrite L1, L2, <- Eit. replace (wave_count lane + 1 - 1) with (wave_count lane) in Hw |- * by lia.
    apply words_item; [lia|done].
  - exact Ht.
  - intros h Hr. specialize (Hh h Hr). eapply helper_ok_mono; [exact Hh|lia|]. specialize (L3 h Hr). cbn [store_item ls_helpers]. lia.
Qed.

Lemma inv_terminal_token lane ls sh : 0 <= lane < laneCount l -> lane_inv lane ls sh -> let ld := ls_leader ls in
  ld_pc ld = LTerminalToken ->
  lane_inv lane (set_leader (store_ready ls (bank_of (ld_sequence ld)) (LaneToken k (ld_sequence ld))) (leader_at ld LReturned)) sh.
Proof using Hwaves.
  intros Hlane Hi ld Ep. destruct (wave_count_small lane Hlane) as [N0 N1]. unfold UINT32_MAX in N1.
  destruct Hi as [Ha Hld Hb Hw Ht Hh]. fold ld in Hld, Hb, Hw, Ht, Hh. clearbody ld.
  unfold leader_ok, published, freed, reclaimed, issued, itemed, completed in *. rewrite Ep in *. destruct Hld as (L1 & L2 & L3).
  constructor; unfold leader_ok, published, freed, reclaimed, issued, itemed, completed; cbn [set_leader ls_leader ls_helpers leader_at ld_pc ld_sequence ld_next].
  - done.
  - done.
  - exact Hb.
  - rewrite L1, L2. rewrite L2 in Hw. replace (wave_count lane + 1 - 1) with (wave_count lane) in Hw by lia.
    apply words_ready; [unfold UINT32_MAX; lia|done].
  - exact Ht.
  - intros h Hr. specialize (Hh h Hr). eapply helper_ok_mono; [exact Hh|lia|]. by destruct Hh as (_ & _ & ? & _).
Qed.

(** A step of the leader that publishes no status keeps the invariant of its lane. *)
Lemma leader_inv o lane ls sh ls' sh' : 0 <= lane < laneCount l -> lane_inv lane ls sh ->
  oracle_sound o lane {| sy_lanes := fun _ => ls; sy_shared := sh |} ->
  leader_step l k o lane ls sh = Some (ls', sh') -> sh_status sh' = 0 -> lane_inv lane ls' sh' /\ sh' = sh.
Proof using Hl Hk Hrows Hwaves Hdone.
  intros Hlane Hi Ho Hs H0. pose proof (li_leader _ _ _ Hi) as Hld. destruct (wave_count_small lane Hlane) as [N0 N1].
  unfold leader_step in Hs. fold (helper_count l k lane) in Hs. cbv zeta in Hs. unfold UINT32_MAX in N1.
  assert (forall sts, sts <> [] -> Forall (fun v => v <> 0) sts -> Some (fail_leader k ls sh sts) = Some (ls', sh') -> False) as Hfail.
  { intros sts Hne Hn Hf. by apply (fail_status ls sh sts ls' sh'). }
  destruct (ld_pc (ls_leader ls)) eqn:Ep; try done.
  - pose proof (lane_p lane Hlane). pose proof (helper_count_range l k Hl Hk lane Hlane). case_if_in Hs.
    { unfold kReduceGradProjectionCount in *. b2p. lia. }
    injection Hs as <- <-. split; [|done]. apply inv_goto; [done|rewrite Ep; repeat split|].
    unfold leader_ok in *. rewrite Ep in Hld. destruct Hld as (L1 & L2 & L3). cbn [leader_at ld_pc ld_sequence ld_next ld_work].
    rewrite L1, L2, L3. split_and!; [lia..|done].
  - destruct (ld_work (ls_leader ls)) as [|w rest] eqn:Ew; injection Hs as <- <-; (split; [|done]); [|by eapply inv_next].
    apply inv_goto; [done|rewrite Ep; repeat split|]. unfold leader_ok in *. rewrite Ep in Hld. destruct Hld as (L1 & L2 & L3).
    cbn [leader_at ld_pc ld_sequence ld_next ld_work]. rewrite Ew in L3. apply (f_equal length) in L3. rewrite length_drop in L3.
    cbn in L3. unfold wave_count in *. lia.
  - pose proof Hld as Hld'. unfold leader_ok in Hld'. rewrite Ep in Hld'. destruct Hld' as ((L1 & L2 & L3) & L4 & L5 & L6).
    assert (ld_bankSequence (ls_leader ls) (bank_of (ld_sequence (ls_leader ls))) = ld_sequence (ls_leader ls) - 2) as Eq.
    { pose proof (li_banks _ _ _ Hi) as (_ & _ & B3 & _). unfold freed in B3. rewrite Ep in B3.
      destruct (B3 (ld_sequence (ls_leader ls) - 2)) as [_ B]; [lia..|].
      rewrite <- bank_of_2 in B by (unfold UINT32_MAX; lia). replace (ld_sequence _ - 2 + 2) with (ld_sequence (ls_leader ls)) in B by lia. done. }
    rewrite Eq in Hs. destruct (WaitForHelpers _ _ _ _ _ _ _) as [|h' a'| |] eqn:Ew.
    + injection Hs as <- <-. split; [|done]. eapply inv_reclaimed; [done|done|exact Ep|]. by apply wait_over in Ew.
    + injection Hs as <- <-. split; [|done]. apply inv_goto; [done|rewrite Ep; repeat split|].
      apply (wait_on lane ls sh) in Ew; try done; [|apply bank_of_range|unfold is_u32, UINT32_MAX; lia].
      unfold leader_ok. cbn [leader_at ld_pc ld_sequence ld_next ld_work]. split_and!; [lia|lia|done|done|lia|lia|lia|].
      intros h2 Hh2. destruct Ew as [-> |(-> & _ & Hd)]; [by apply L6|].
      destruct (Z.eq_dec h2 helper) as [-> |]; [done|apply L6; lia].
    + by apply (wait_aborted lane ls sh) in Ew.
    + exfalso. eapply Hfail; [| |exact Hs]; [done|by repeat constructor].
  - destruct (ld_work (ls_leader ls)) as [|w rest] eqn:Ew; [done|]. case_if_in Hs.
    { exfalso. eapply Hfail; [| |exact Hs]; [done|by repeat constructor]. }
    destruct (IssueWave _ _ _ _ _ _ _ _ _ _) as [[pw gets] sts] eqn:Eiw. destruct sts as [|v vs].
    + injection Hs as <- <-. split; [|done]. by eapply inv_issue.
    + exfalso. refine (fail_status _ sh (v :: vs) ls' sh' _ _ Hs H0); [|done]. by apply issue_statuses in Eiw.
  - eapply inv_complete; try done; [by left|unfold issued; rewrite Ep; unfold leader_ok in Hld; rewrite Ep in Hld; lia|].
    unfold leader_ok in *. rewrite Ep in Hld. exact Hld.
  - injection Hs as <- <-. split; [|done]. apply inv_publish; try done. by left.
  - unfold leader_ok in Hld. rewrite Ep in Hld. destruct (Z.ltb_spec (ld_next (ls_leader ls)) (ld_sequence (ls_leader ls))).
    + eapply inv_complete; try done; [by right|unfold issued; rewrite Ep; lia|].
      unfold leader_ok. cbn [leader_at ld_pc ld_sequence ld_next ld_work]. lia.
    + injection Hs as <- <-. split; [|done]. apply inv_goto; [done|rewrite Ep; repeat split|].
      unfold leader_ok. cbn [leader_at ld_pc ld_sequence ld_next ld_work]. split_and!; try lia.
      intros q h' _ _ Hh' [Hlt|[_ Hlt]]; [pose proof (bank_of_range q)|]; lia.
  - injection Hs as <- <-. split; [|done]. apply inv_publish; try done. by right.
  - unfold kReduceGradBankCount in Hs. pose proof Hld as Hld'. unfold leader_ok in Hld'. rewrite Ep in Hld'. destruct Hld' as (L1 & L2 & L3 & L4 & L5).
    destruct (Z.leb_spec 2 bank) as [H2|H2].
    { injection Hs as <- <-. split; [|done]. apply inv_goto; [done|rewrite Ep; repeat split|].
      unfold leader_ok. cbn [leader_at ld_pc ld_sequence ld_next]. split_and!; [lia..|]. intros h Hh.
      destruct (Z.eq_dec (wave_count lane) 0) as [E0|]; [destruct (li_helpers _ _ _ Hi h Hh) as (Hs & _); unfold hdone; destruct (hp_pc _); lia|].
      apply L5; try lia. left. pose proof (bank_of_range (wave_count lane)). lia. }
    destruct (ld_published (ls_leader ls) bank) eqn:Epb; cbn [negb] in Hs.
    2: { injection Hs as <- <-. split; [|done]. apply inv_goto; [done|rewrite Ep; repeat split|].
         eapply final_waits; try done; [lia|by left]. }
    destruct (WaitForHelpers _ _ _ _ _ _ _) as [|h' a'| |] eqn:Ew.
    + injection Hs as <- <-. split; [|done]. apply inv_goto; [done|rewrite Ep; repeat split|].
      eapply final_waits; try done; [lia|]. right. by apply wait_over in Ew.
    + injection Hs as <- <-. split; [|done]. apply inv_goto; [done|rewrite Ep; repeat split|].
      eapply final_wait_on; try done. lia.
    + by apply (wait_aborted lane ls sh) in Ew.
    + exfalso. eapply Hfail; [| |exact Hs]; [done|by repeat constructor].
  - injection Hs as <- <-. split; [|done]. by apply inv_terminal.
  - injection Hs as <- <-. split; [|done]. by apply inv_terminal_token.
Qed.

(** ** Addresses *)

(** The address of an offset of a tile. *)
Definition tile_addr (p e c t x : Z) : Z :=
  globalExpert l e * rowBytes l p + c * chunkBytes l + t * kReduceGradKernelTileBytes + x.

Definition in_tile (p c t x : Z) : Prop :=
  0 <= c < chunkCounts l p /\ 0 <= t < ceil_div (chunk_size l p c) kReduceGradKernelTileBytes /\
  0 <= x < tile_size (chunk_size l p c) t.

Lemma in_tile_offset p c t x : 0 <= p < 3 -> in_tile p c t x -> 0 <= t * kReduceGradKernelTileBytes + x < chunkBytes l /\
  0 <= x < kReduceGradKernelTileBytes /\ 0 <= c * chunkBytes l + (t * kReduceGradKernelTileBytes + x) < rowBytes l p.
Proof using Hl.
  intros Hp (Hc & Ht & Hx). destruct (chunk_size_ok l Hl p c Hp Hc) as (S1 & S2 & S3 & _). destruct (gl_chunk l Hl) as [C _].
  destruct (tile_size_ok (chunk_size l p c) t ltac:(unfold UINT32_MAX in *; lia) S2 Ht) as (T1 & _ & T3 & _).
  assert (0 <= c * chunkBytes l) by (apply Z.mul_nonneg_nonneg; lia). unfold kReduceGradKernelTileBytes in *. lia.
Qed.

Lemma tile_addr_inj p e c t x e' c' t' x' : 0 <= p < 3 -> in_tile p c t x -> in_tile p c' t' x' ->
  tile_addr p e c t x = tile_addr p e' c' t' x' -> e = e' /\ c = c' /\ t = t' /\ x = x'.
Proof using Hl.
  intros Hp H1 H2 E. destruct (in_tile_offset p c t x Hp H1) as (O1 & O2 & O3), (in_tile_offset p c' t' x' Hp H2) as (O1' & O2' & O3').
  unfold tile_addr in E.
  assert (globalExpert l e * rowBytes l p + (c * chunkBytes l + (t * kReduceGradKernelTileBytes + x)) =
    globalExpert l e' * rowBytes l p + (c' * chunkBytes l + (t' * kReduceGradKernelTileBytes + x'))) as E1 by lia.
  apply mul_add_inj in E1 as [Ee E1]; [|lia..]. apply mul_add_inj in E1 as [-> E1]; [|lia..].
  apply mul_add_inj in E1 as [-> ->]; [|lia..]. unfold globalExpert in Ee. split_and!; lia || done.
Qed.

(** ** The gradients *)

(** The waves a helper has added to its tile [t]. *)
Definition progress (hp : Helper (V:=V)) (t : Z) : Z :=
  match hp_pc hp with
  | HStore _ | HReturned => hp_sequence hp
  | HTile _ _ tile _ => if t <? tile then hp_sequence hp else hp_sequence hp - 1
  | _ => hp_sequence hp - 1
  end.

Definition added (lane : Z) (hp : Helper (V:=V)) (e c t : Z) : list Z :=
  wave_entries l k e c (take (Z.to_nat (progress hp t)) (waves lane)).

(** Every number of this rank's rows has the contributors of the waves that its helper added. *)
Definition grads_ok (grad : Z -> Z -> V) (helpers : Z -> Z -> Helper (V:=V)) : Prop :=
  forall p e c t x, 0 <= p < 3 -> 0 <= e < g_expertsPerRank l -> in_tile p c t x ->
  let lane := lane_of l p e c in
  grad p (tile_addr p e c t x) = foldl vadd (b_grad b p (tile_addr p e c t x))
    ((fun s => contribution l sources p (c * chunkBytes l) (t * kReduceGradKernelTileBytes + x) s) <$>
     added lane (helpers lane (t mod helper_count l k lane)) e c t).

(** No other number changes. *)
Definition rest_ok (grad : Z -> Z -> V) : Prop := forall p a,
  ~ (exists e c t x, 0 <= p < 3 /\ 0 <= e < g_expertsPerRank l /\ in_tile p c t x /\ a = tile_addr p e c t x) ->
  grad p a = b_grad b p a.

(** What a step of helper [h] of [lane] does to the gradients: it changes at most one tile. *)
Definition grad_effect (lane h : Z) (hp hp' : Helper (V:=V)) (g g' : Z -> Z -> V) : Prop :=
  let p := ProjectionForLane l lane in
  exists changed : option (Z * Z * Z),
    (forall p' a, (forall e c t x, changed = Some (e, c, t) -> p' = p -> in_tile p c t x -> a <> tile_addr p e c t x) ->
       g' p' a = g p' a) /\
    (forall e c t, changed = Some (e, c, t) ->
       0 <= e < g_expertsPerRank l /\ lane_of l p e c = lane /\ t mod helper_count l k lane = h) /\
    (forall e c t x, 0 <= e < g_expertsPerRank l -> in_tile p c t x -> lane_of l p e c = lane -> t mod helper_count l k lane = h ->
       exists more, added lane hp' e c t = added lane hp e c t ++ more /\
         g' p (tile_addr p e c t x) = foldl vadd (g p (tile_addr p e c t x))
           ((fun s => contribution l sources p (c * chunkBytes l) (t * kReduceGradKernelTileBytes + x) s) <$> more)).

(** The numbers of the other helpers stay. *)
Lemma effect_frame lane h hp hp' g g' p e c t x : grad_effect lane h hp hp' g g' -> 0 <= p < 3 -> in_tile p c t x ->
  ~ (lane_of l p e c = lane /\ t mod helper_count l k lane = h) -> g' p (tile_addr p e c t x) = g p (tile_addr p e c t x).
Proof using Hl.
  intros (ch & H1 & H2 & _) Hp Hin Hne. apply H1. intros e' c' t' x' Hch -> Hin' E. destruct (H2 e' c' t' Hch) as (E1 & E2 & E3).
  apply tile_addr_inj in E as (-> & -> & -> & ->); try done. by apply Hne.
Qed.

Lemma grads_step lane h helpers helpers' g g' : 0 <= lane < laneCount l -> grads_ok g helpers -> rest_ok g ->
  grad_effect lane h (helpers lane h) (helpers' lane h) g g' ->
  (forall lane2 h2, ~ (lane2 = lane /\ h2 = h) -> helpers' lane2 h2 = helpers lane2 h2) ->
  grads_ok g' helpers' /\ rest_ok g'.
Proof using Hl.
  intros Hlane Hg Hr He Hh. split.
  - intros p e c t x Hp Hee Hin lane2. specialize (Hg p e c t x Hp Hee Hin). fold lane2 in Hg. cbv zeta in Hg.
    destruct (decide (lane2 = lane /\ t mod helper_count l k lane2 = h)) as [[El Eh]|Hne].
    + destruct (lane_of_range l Hl p e c Hp) as [_ Ep]. fold lane2 in Ep. rewrite El in *. rewrite Eh in *.
      destruct He as (ch & _ & _ & H3). rewrite Ep in H3. destruct (H3 e c t x Hee Hin El Eh) as (more & -> & ->).
      rewrite Hg, fmap_app, foldl_app. done.
    + rewrite Hh by done. rewrite <- Hg. eapply effect_frame; try done. fold lane2. intros [El Eh]. apply Hne. by rewrite El in *.
  - intros p a Hn. rewrite <- (Hr p a Hn). destruct He as (ch & H1 & H2 & _). apply H1. intros e c t x Hch -> Hin ->.
    apply Hn. destruct (H2 e c t Hch) as (E1 & _). exists e, c, t, x. split; [by apply lane_p|done].
Qed.

Lemma item_output_addr lane q w t x : item_output l (wave_item lane q w) + t * kReduceGradKernelTileBytes + x =
  tile_addr (ProjectionForLane l lane) (wv_expert w) (wv_chunk w) t x.
Proof using Type. unfold item_output, tile_addr, wave_item. cbn. lia. Qed.

Lemma helper_ok_frame lane h pb rc hp g g' : 0 <= lane < laneCount l -> helper_ok lane h pb rc hp g ->
  (forall e c t x, let p := ProjectionForLane l lane in in_tile p c t x -> lane_of l p e c = lane -> t mod helper_count l k lane = h ->
     g' p (tile_addr p e c t x) = g p (tile_addr p e c t x)) -> helper_ok lane h pb rc hp g'.
Proof using Hl Hrows.
  intros Hlane (H1 & H2 & H3 & H4) Hf. refine (conj H1 (conj H2 (conj H3 _))). destruct (hp_pc hp) as [a| |it cs tile ai|lst|]; try exact H4.
  destruct H4 as (H4 & w & Hw & -> & -> & Ht & Htile & Hai & Hub). split; [done|]. exists w.
  refine (conj Hw (conj eq_refl (conj eq_refl (conj Ht (conj Htile (conj Hai _)))))). intros x Hx. rewrite Hub by done. rewrite item_output_addr. cbn [wave_item it_projection]. symmetry.
  pose proof (wave_at_ok lane _ w Hlane Hw) as Hok. apply Hf; [|apply Hok|done]. exact (conj (wo_chunk _ _ _ _ Hok) (conj Htile Hx)).
Qed.

Lemma leader_ok_mono lane ld done done' : (forall h, done h <= done' h) -> leader_ok lane ld done -> leader_ok lane ld done'.
Proof using Type.
  intros Hd. unfold leader_ok. destruct (ld_pc ld); try done.
  - intros (H1 & H2 & H3 & H4). refine (conj H1 (conj H2 (conj H3 _))). intros h' Hh'. specialize (H4 h' Hh'). specialize (Hd h'). lia.
  - intros (H1 & H2 & H3 & H4 & H5). refine (conj H1 (conj H2 (conj H3 (conj H4 _)))). intros q h' Q1 Q2 Q3 Q4.
    specialize (H5 q h' Q1 Q2 Q3 Q4). specialize (Hd h'). lia.
  - intros (H1 & H2 & H3). refine (conj H1 (conj H2 _)). intros h Hh. specialize (H3 h Hh). specialize (Hd h). lia.
  - intros (H1 & H2 & H3). refine (conj H1 (conj H2 _)). intros h Hh. specialize (H3 h Hh). specialize (Hd h). lia.
  - intros (H1 & H2 & H3). refine (conj H1 (conj H2 _)). intros h Hh. specialize (H3 h Hh). specialize (Hd h). lia.
Qed.

(** A helper moves and stores no done word. *)
Lemma inv_helper lane ls sh sh' h hp : 0 <= lane < laneCount l -> lane_inv lane ls sh -> 0 <= h < helper_count l k lane ->
  hdone hp = hdone (ls_helpers ls h) -> sh_workspace sh' = sh_workspace sh ->
  grad_effect lane h (ls_helpers ls h) hp (sh_grad sh) (sh_grad sh') ->
  helper_ok lane h (published (ls_leader ls)) (reclaimed (ls_leader ls)) hp (sh_grad sh') ->
  lane_inv lane (set_helper ls h hp) sh'.
Proof using Hl Hrows.
  intros Hlane [Ha Hld Hb Hw Ht Hh] Hr Ed Ews Hge Hok.
  assert (forall h2, hdone (upd1 (ls_helpers ls) h hp h2) = hdone (ls_helpers ls h2)) as Eh.
  { intros h2. unfold upd1. destruct (Z.eqb_spec h2 h) as [-> |]; done. }
  constructor; cbn [set_helper ls_abort ls_leader ls_helpers]; try done.
  - eapply leader_ok_mono; [|exact Hld]. intros h2. rewrite Eh. cbv beta. lia.
  - destruct Hw as (W1 & W2 & W3). split_and!; try done. intros bank h2 Hbk Hh2. cbn. rewrite Eh. by apply W3.
  - rewrite Ews. exact Ht.
  - intros h2 Hh2. unfold upd1. destruct (Z.eqb_spec h2 h) as [-> |Hne]; [done|]. apply (helper_ok_frame lane h2 _ _ _ (sh_grad sh)); [done|by apply Hh|].
    intros e c t x p Hin Hlo Ht2. eapply effect_frame; try done; [by apply lane_p|]. intros [_ E]. congruence.
Qed.

(** A helper moves and no number changes. *)
Lemma effect_same lane h hp hp' g : (forall e c t x, 0 <= e < g_expertsPerRank l -> in_tile (ProjectionForLane l lane) c t x ->
    lane_of l (ProjectionForLane l lane) e c = lane -> t mod helper_count l k lane = h -> added lane hp' e c t = added lane hp e c t) ->
  grad_effect lane h hp hp' g g.
Proof using Type.
  intros Ha. exists None. split_and!; [done|done|]. intros e c t x He Hin Hlo Ht. exists []. rewrite app_nil_r. split; [by eapply Ha|done].
Qed.

Lemma added_step lane hp hp' e c t w : 1 <= hp_sequence hp -> wave_at lane (hp_sequence hp) = Some w ->
  progress hp t = hp_sequence hp - 1 -> progress hp' t = hp_sequence hp ->
  added lane hp' e c t = added lane hp e c t ++ (if (wv_expert w =? e) && (wv_chunk w =? c) then wave_cs l k w else []).
Proof using Type.
  intros Hs Hw E1 E2. unfold added. rewrite E1, E2. replace (Z.to_nat (hp_sequence hp)) with (S (Z.to_nat (hp_sequence hp - 1))) by lia.
  rewrite (take_S_r _ _ w) by exact Hw. rewrite wave_entries_app. f_equal. unfold wave_entries. cbn. by rewrite app_nil_r.
Qed.

Lemma added_end lane hp hp' e c t : 1 <= hp_sequence hp -> hp_sequence hp = wave_count lane + 1 ->
  progress hp t = hp_sequence hp - 1 -> progress hp' t = hp_sequence hp -> added lane hp' e c t = added lane hp e c t.
Proof using Type.
  intros Hs Hn E1 E2. unfold added. rewrite E1, E2. unfold wave_count in Hn. rewrite !take_ge by lia. done.
Qed.

(** ** Items *)

Lemma wave_item_fields lane q w : 0 <= lane < laneCount l -> wave_ok l k lane w -> item_fields_ok (wave_item lane q w).
Proof using Hl.
  intros Hlane Hw. destruct (wave_fields lane w Hlane Hw) as (F1 & F2 & F3 & F4 & _). pose proof (lane_p lane Hlane).
  unfold item_fields_ok, wave_item. cbn. unfold is_u32, UINT32_MAX, kReduceGradBankWork in *. lia.
Qed.

Lemma wave_item_contributors lane q w : 0 <= lane < laneCount l -> wave_ok l k lane w ->
  item_contributors l k (wave_item lane q w) = Some (wave_cs l k w).
Proof using Hl.
  intros Hlane Hw. destruct (wave_fields lane w Hlane Hw) as (F1 & F2 & F3 & F4 & F5 & F6). pose proof (lane_p lane Hlane) as Hp.
  pose proof (wave_cs_length l k lane w Hw) as Hlen. destruct (chunk_size_ok l Hl _ _ Hp F5) as (S1 & _).
  destruct (gl_ranks l Hl), (gl_experts l Hl) as (E1 & E2 & E3). pose proof (wo_expert _ _ _ _ Hw). pose proof (wo_count _ _ _ _ Hw).
  assert (g_expertsPerRank l <= g_expertsPerRank l * g_rankSize l) by nia.
  unfold item_contributors, wave_item. cbn [it_projection it_localExpert it_contributorCount it_chunkIndex it_chunkBytes it_waveStart it_remoteContributorCount].
  unfold kReduceGradProjectionCount, is_u32, UINT32_MAX, INT32_MAX in *. rewrite (u32_small (g_expertsPerRank l)), (u32_small (g_rankSize l)) by lia.
  rewrite (proj2 (Z.leb_gt 3 _)), (proj2 (Z.leb_gt (g_expertsPerRank l) _)), (proj2 (Z.eqb_neq (wv_count w) 0)),
    (proj2 (Z.ltb_ge (g_rankSize l) _)), (proj2 (Z.leb_gt (chunkCounts l _) _)), (proj2 (Z.eqb_neq (chunk_size l _ _) 0)),
    (proj2 (Z.ltb_ge (chunkBytes l) _)) by lia. cbn [orb].
  rewrite collect_window by (try apply entries_range; try done; lia). fold (wave_cs l k w). cbv zeta.
  rewrite Hlen, Z.eqb_refl. cbn [negb]. fold (remote_count l (wave_cs l k w)). rewrite Z.eqb_refl. done.
Qed.

(** The item a helper loads is the one of its sequence number. *)
Lemma helper_item lane ls sh h : 0 <= lane < laneCount l -> lane_inv lane ls sh -> 0 <= h < helper_count l k lane ->
  let s := hp_sequence (ls_helpers ls h) in hdone (ls_helpers ls h) = s - 1 -> s <= published (ls_leader ls) ->
  LoadItem (ls_item ls (bank_of s)) = item_of lane s.
Proof using Hl Hrows Hwaves.
  intros Hlane Hi Hh s Hd Hs. destruct (wave_count_small lane Hlane) as [N0 N1]. unfold UINT32_MAX in N1.
  destruct (counters_le lane ls sh Hlane Hi) as (_ & C1 & C2 & _). destruct (li_words _ _ _ Hi) as (_ & W2 & _).
  destruct (li_helpers _ _ _ Hi h Hh) as (H1 & _ & H3 & _). rewrite W2 by apply bank_of_range. fold s in H1.
  rewrite word_at_bank by (unfold UINT32_MAX; lia). apply load_publish. unfold item_of.
  destruct (wave_at lane s) as [w|] eqn:Ew; [|by repeat split]. apply wave_item_fields; [done|]. by eapply wave_at_ok.
Qed.

(** ** A helper adds a tile *)

Lemma completed_le lane ls sh s : 0 <= lane < laneCount l -> lane_inv lane ls sh -> s <= published (ls_leader ls) ->
  s <= wave_count lane -> s <= completed (ls_leader ls).
Proof using Type.
  intros Hlane Hi H1 H2. pose proof (li_leader _ _ _ Hi) as HL. unfold leader_ok in HL. unfold published, completed in *.
  destruct (ld_pc (ls_leader ls)); lia.
Qed.

Lemma staged_wave lane ls sh h w t : 0 <= lane < laneCount l -> lane_inv lane ls sh -> 0 <= h < helper_count l k lane ->
  let s := hp_sequence (ls_helpers ls h) in hdone (ls_helpers ls h) = s - 1 -> s <= published (ls_leader ls) -> wave_at lane s = Some w ->
  0 <= t < ceil_div (chunk_size l (ProjectionForLane l lane) (wv_chunk w)) kReduceGradKernelTileBytes ->
  staged l sources (sh_workspace sh) (ProjectionForLane l lane) (BankPayload l lane (bank_of s)) (wv_chunk w * chunkBytes l)
    (t * kReduceGradKernelTileBytes) (tile_size (chunk_size l (ProjectionForLane l lane) (wv_chunk w)) t) (wave_cs l k w).
Proof using Hl Hrows Hwaves.
  intros Hlane Hi Hh s Hd Hs Hw Ht cs1 c cs2 Ecs Hr x Hx. destruct (counters_le lane ls sh Hlane Hi) as (_ & _ & _ & C1 & _ & C2 & _ & _ & _ & _ & C3 & _).
  destruct (li_helpers _ _ _ Hi h Hh) as (H1 & _ & H3 & _). fold s in H1. rewrite Hd in H3.
  pose proof (wave_at_range lane s w ltac:(lia) Hw) as Hsn. pose proof (completed_le lane ls sh s Hlane Hi Hs Hsn) as Hsc.
  destruct (li_transport _ _ _ Hi) as (T1 & _ & T3 & T4). pose proof (wave_at_ok lane s w Hlane Hw) as Hok.
  destruct (chunk_size_ok l Hl _ _ (lane_p lane Hlane) (wo_chunk _ _ _ _ Hok)) as (S1 & S2 & _). destruct (gl_chunk l Hl) as [G1 _].
  destruct (tile_size_ok (chunk_size l (ProjectionForLane l lane) (wv_chunk w)) t ltac:(unfold UINT32_MAX in *; lia) S2 Ht) as (Z1 & _ & Z3 & _).
  set (p := ProjectionForLane l lane) in *. set (size := chunk_size l p (wv_chunk w)) in *.
  set (g := wave_get l lane p (bank_of s) (wv_chunk w * chunkBytes l) size c (0 + remote_count l cs1)).
  assert (g ∈ filter (fun g' => get_rank g' = get_rank g) (gets_at lane s)) as Hg.
  { apply list_elem_of_filter. split; [done|]. unfold gets_at. rewrite Hw. apply elem_wave_gets. by exists cs1, c, cs2. }
  apply list_elem_of_lookup_1 in Hg as [j Hj]. pose proof (lookup_lt_Some _ _ _ Hj) as Hjl. set (r := get_rank g) in *.
  set (i := frontier lane (s - 1) r + Z.of_nat j).
  assert (frontier lane s r = frontier lane (s - 1) r + Z.of_nat (length (filter (fun g' => get_rank g' = r) (gets_at lane s)))) as Ef.
  { unfold frontier. replace s with (s - 1 + 1) at 1 by lia. rewrite queue_upto_S, length_app by lia. replace (s - 1 + 1) with s by lia. lia. }
  assert (0 <= frontier lane (s - 1) r) by (unfold frontier; lia).
  pose proof (frontier_mono lane s (completed (ls_leader ls)) r ltac:(lia)) as Hf.
  pose proof (frontier_mono lane s (issued (ls_leader ls)) r ltac:(lia)) as Hf2.
  assert (queue_upto lane (issued (ls_leader ls)) r !! Z.to_nat i = Some g) as Hq.
  { unfold queue_upto. replace (issued (ls_leader ls)) with (s - 1 + (1 + (issued (ls_leader ls) - s))) by lia.
    rewrite (seqZ_app 1 (s - 1) _), bind_app by lia. fold (queue_upto lane (s - 1) r). unfold i, frontier.
    rewrite Z2Nat.inj_add, !Nat2Z.id, lookup_app_r by lia. rewrite Nat.add_comm, Nat.add_sub.
    rewrite seqZ_app, bind_app by lia. change (seqZ (1 + (s - 1)) 1) with [Z.of_nat 0 + (1 + (s - 1))].
    rewrite bind_cons. change (@nil Z ≫= _) with (@nil Get). rewrite app_nil_r. replace (Z.of_nat 0 + (1 + (s - 1))) with s by lia.
    rewrite lookup_app_l by done. done. }
  assert (0 <= t * kReduceGradKernelTileBytes) by (unfold kReduceGradKernelTileBytes; lia).
  assert (get_bytes g = size) as Egb by done.
  specialize (T4 s r i g ltac:(lia) ltac:(lia) ltac:(lia) ltac:(lia) Hq (T3 r i ltac:(lia)) (t * kReduceGradKernelTileBytes + x) ltac:(rewrite Egb; lia)).
  cbn [g wave_get get_local get_remote] in T4. rewrite Z.add_0_l in T4. unfold contribution.
  etrans; [|etrans; [exact T4|]]; [f_equal; lia|]. unfold r. cbn [g wave_get get_rank]. fold p. f_equal.
Qed.

Lemma mod_window t t' m : 0 < m -> t mod m = t' mod m -> t < t' -> t + m <= t'.
Proof using Type.
  intros Hm E Hlt. pose proof (Z.div_mod t m ltac:(lia)) as E1. pose proof (Z.div_mod t' m ltac:(lia)) as E2. rewrite E in E1.
  destruct (Z.le_gt_cases (t' / m) (t / m)).
  - assert (m * (t' / m) <= m * (t / m)) by (apply Z.mul_le_mono_nonneg_l; lia). lia.
  - assert (m * (t / m + 1) <= m * (t' / m)) by (apply Z.mul_le_mono_nonneg_l; lia). lia.
Qed.

Lemma item_tiles_eq lane q w : 0 <= lane < laneCount l -> wave_ok l k lane w ->
  item_tiles (wave_item lane q w) = ceil_div (chunk_size l (ProjectionForLane l lane) (wv_chunk w)) kReduceGradKernelTileBytes.
Proof using Hl.
  intros Hlane Hw. destruct (chunk_size_ok l Hl _ _ (lane_p lane Hlane) (wo_chunk _ _ _ _ Hw)) as (S1 & _). destruct (gl_chunk l Hl) as [G1 _].
  unfold item_tiles, wave_item. cbn [it_chunkBytes]. apply ceil_div_u64; unfold kReduceGradKernelTileBytes, UINT32_MAX, UINT64_MAX in *; lia.
Qed.

Lemma tile_bytes_eq lane q w t : 0 <= lane < laneCount l -> wave_ok l k lane w ->
  0 <= t < ceil_div (chunk_size l (ProjectionForLane l lane) (wv_chunk w)) kReduceGradKernelTileBytes ->
  tile_bytes (wave_item lane q w) t = tile_size (chunk_size l (ProjectionForLane l lane) (wv_chunk w)) t /\
  tile_size (chunk_size l (ProjectionForLane l lane) (wv_chunk w)) t mod 4 = 0.
Proof using Hl.
  intros Hlane Hw Ht. destruct (chunk_size_ok l Hl _ _ (lane_p lane Hlane) (wo_chunk _ _ _ _ Hw)) as (S1 & S2 & _). destruct (gl_chunk l Hl) as [G1 _].
  destruct (tile_size_ok (chunk_size l (ProjectionForLane l lane) (wv_chunk w)) t ltac:(unfold UINT32_MAX in *; lia) S2 Ht) as (_ & Z2 & _ & Z4).
  unfold tile_bytes, wave_item. cbn [it_chunkBytes]. done.
Qed.

(** The gradients behind one tile of a wave. *)
Definition tile_sum (p : Z) (w : Wave) (t : Z) (g g' : Z -> Z -> V) : Prop :=
  (forall p' a, p' <> p -> g' p' a = g p' a) /\
  (forall a, (forall x, in_tile p (wv_chunk w) t x -> a <> tile_addr p (wv_expert w) (wv_chunk w) t x) -> g' p a = g p a) /\
  (forall x, in_tile p (wv_chunk w) t x -> g' p (tile_addr p (wv_expert w) (wv_chunk w) t x) =
     foldl vadd (g p (tile_addr p (wv_expert w) (wv_chunk w) t x))
       ((fun s => contribution l sources p (wv_chunk w * chunkBytes l) (t * kReduceGradKernelTileBytes + x) s) <$> wave_cs l k w)).

Lemma tile_step_sum lane ls sh h w tile ai : 0 <= lane < laneCount l -> lane_inv lane ls sh -> 0 <= h < helper_count l k lane ->
  let hp := ls_helpers ls h in let s := hp_sequence hp in let it := wave_item lane s w in let p := ProjectionForLane l lane in
  hp_pc hp = HTile it (wave_cs l k w) tile ai -> wave_at lane s = Some w ->
  let '(hp', sh') := tile_step l vadd sources lane (helper_count l k lane) hp sh it (wave_cs l k w) tile ai in
  tile_sum p w tile (sh_grad sh) (sh_grad sh') /\ sh_workspace sh' = sh_workspace sh /\ sh_status sh' = sh_status sh /\
  hp_sequence hp' = s /\
  hp_pc hp' = (if tile + helper_count l k lane <? item_tiles it
               then HTile it (wave_cs l k w) (tile + helper_count l k lane) (Z.lxor ai 1) else HStore false) /\
  (tile + helper_count l k lane < item_tiles it -> forall x, in_tile p (wv_chunk w) (tile + helper_count l k lane) x ->
     ub_accum (hp_ub hp') (Z.lxor ai 1) x = sh_grad sh p (tile_addr p (wv_expert w) (wv_chunk w) (tile + helper_count l k lane) x)).
Proof using Hl Hrows Hwaves Hk.
  intros Hlane Hi Hh hp s it p Hpc Hw. destruct (li_helpers _ _ _ Hi h Hh) as (H1 & H2 & H3 & H4). fold hp s in H1, H2, H3, H4. rewrite Hpc in H4.
  destruct H4 as (H4 & w' & Hw' & _ & _ & Htm & Ht & Hai & Hub). fold s in Hw'. rewrite Hw in Hw'. injection Hw' as <-.
  pose proof (wave_at_ok lane s w Hlane Hw) as Hok. pose proof (wave_cs_length l k lane w Hok) as Hlen. pose proof (wave_cs_len lane w Hok) as Hcl.
  pose proof (helper_count_range l k Hl Hk lane Hlane) as Hc. cbn [it wave_item it_chunkBytes] in Ht, Hub. fold p in Ht, Hub.
  destruct (tile_bytes_eq lane s w tile Hlane Hok Ht) as [Etb E4]. fold it p in Etb. fold p in E4.
  assert (hdone hp = s - 1) as Hd by (unfold hdone; rewrite Hpc; done).
  pose proof (staged_wave lane ls sh h w tile Hlane Hi Hh Hd H4 Hw Ht) as Hst. fold hp s p in Hst.
  unfold tile_step. cbn [it wave_item it_projection it_chunkIndex it_contributorCount]. fold it. fold p. rewrite <- Hlen, Etb.
  pose proof (accumulate_tile l vadd sources (sh_workspace sh) (sh_grad sh p) p (item_output l it) (BankPayload l lane (bank_of s)) (wave_cs l k w)
    (wv_chunk w * chunkBytes l) (tile * kReduceGradKernelTileBytes) (tile_size (chunk_size l p (wv_chunk w)) tile) ai
    (next_tile it (tile + helper_count l k lane)) (hp_ub hp) Hst ltac:(intros E; rewrite E in Hcl; cbn in Hcl; lia)
    ltac:(unfold INT32_MAX; lia) Hai E4 Hub) as Hacc.
  destruct (AccumulateTile _ _ _ _ _ _ _ _ _ _ _ _ _ _ _ _) as [g' ub']. destruct Hacc as (A1 & A2 & A3).
  assert (forall t x, item_output l it + t * kReduceGradKernelTileBytes + x = tile_addr p (wv_expert w) (wv_chunk w) t x) as Eaddr.
  { intros t x. apply item_output_addr. }
  split_and!; cbn [sh_grad sh_workspace sh_status hp_sequence hp_pc hp_ub]; try done.
  - split_and!.
    + intros p' a Hne. by rewrite upd1_ne.
    + intros a Hout. rewrite upd1_eq. apply A2. destruct (Z.lt_ge_cases a (item_output l it + tile * kReduceGradKernelTileBytes)) as [|Hge]; [by left|].
      right. destruct (Z.le_gt_cases (item_output l it + tile * kReduceGradKernelTileBytes + tile_size (chunk_size l p (wv_chunk w)) tile) a); [done|].
      exfalso. apply (Hout (a - (item_output l it + tile * kReduceGradKernelTileBytes))); [|rewrite <- Eaddr; lia].
      refine (conj (wo_chunk _ _ _ _ Hok) (conj Ht _)). lia.
    + intros x (_ & _ & Hx). rewrite upd1_eq, <- Eaddr, A1 by lia. f_equal. apply list_fmap_ext. intros _ y _. f_equal. lia.
  - intros Hlt x (_ & Ht2 & Hx). rewrite <- Eaddr. unfold next_tile in A3. rewrite (proj2 (Z.ltb_lt _ _) Hlt) in A3.
    destruct (tile_bytes_eq lane s w (tile + helper_count l k lane) Hlane Hok Ht2) as [Etb2 _]. fold it p in Etb2.
    apply (A3 _ _ eq_refl). by rewrite Etb2.
Qed.

Lemma added_same lane hp hp' e c t : progress hp' t = progress hp t -> added lane hp' e c t = added lane hp e c t.
Proof using Type. intros E. unfold added. by rewrite E. Qed.

(** The effect of a tile of a wave on the gradients. *)
Lemma tile_effect lane h hp hp' w tile g g' : 0 <= lane < laneCount l -> wave_at lane (hp_sequence hp) = Some w -> 1 <= hp_sequence hp ->
  0 <= tile -> tile mod helper_count l k lane = h -> tile_sum (ProjectionForLane l lane) w tile g g' ->
  (forall t, progress hp t = if t <? tile then hp_sequence hp else hp_sequence hp - 1) ->
  (forall t, progress hp' t = (if t <? tile + helper_count l k lane then hp_sequence hp else hp_sequence hp - 1) \/
     progress hp' t = hp_sequence hp /\ ceil_div (chunk_size l (ProjectionForLane l lane) (wv_chunk w)) kReduceGradKernelTileBytes <= tile + helper_count l k lane) ->
  grad_effect lane h hp hp' g g'.
Proof using Hl Hk Hrows.
  intros Hlane Hw Hs Ht0 Htm (S1 & S2 & S3) Hpr Hpr'. set (p := ProjectionForLane l lane) in *.
  pose proof (wave_at_ok lane _ w Hlane Hw) as Hok. pose proof (helper_count_range l k Hl Hk lane Hlane) as Hc. pose proof (lane_p lane Hlane) as Hp. fold p in Hp.
  exists (Some (wv_expert w, wv_chunk w, tile)). split_and!.
  - intros p' a Hout. destruct (Z.eq_dec p' p) as [-> |]; [|by apply S1]. apply S2. intros x Hx. by apply (Hout _ _ _ x eq_refl).
  - intros e c t [= <- <- <-]. split_and!; [apply Hok..|done].
  - intros e c t x He Hin Hlo Ht. specialize (Hpr t). specialize (Hpr' t). fold p in Hin, Hlo |- *.
    destruct (decide (wv_expert w = e /\ wv_chunk w = c)) as [[<- <-]|Hne].
    + destruct (Z.eq_dec t tile) as [-> |Hnt].
      * exists (wave_cs l k w). split; [|by apply S3]. rewrite Z.ltb_irrefl in Hpr. rewrite (added_step lane hp hp' _ _ _ w Hs Hw Hpr).
        -- by rewrite !Z.eqb_refl.
        -- destruct Hpr' as [->|[-> _]]; [|done]. by rewrite (proj2 (Z.ltb_lt _ _)) by lia.
      * exists []. rewrite app_nil_r. split.
        -- apply added_same. rewrite Hpr. destruct (Z.ltb_spec t tile) as [Hlt|Hge].
           ++ destruct Hpr' as [->|[-> _]]; [|done]. by rewrite (proj2 (Z.ltb_lt _ _)) by lia.
           ++ pose proof (mod_window tile t (helper_count l k lane) ltac:(lia) ltac:(congruence) ltac:(lia)) as Hwin.
              destruct Hpr' as [->|[_ Hend]]; [by rewrite (proj2 (Z.ltb_ge _ _)) by lia|]. destruct Hin as (_ & Hti & _). lia.
        -- apply S2. intros x' Hx' E. apply tile_addr_inj in E as (_ & _ & E & _); done.
    + exists []. rewrite app_nil_r. split.
      * destruct (Z.ltb_spec t tile) as [Hlt|Hge].
        -- apply added_same. rewrite Hpr. destruct Hpr' as [->|[-> _]]; [|done]. by rewrite (proj2 (Z.ltb_lt _ _)) by lia.
        -- assert (progress hp' t = hp_sequence hp \/ progress hp' t = hp_sequence hp - 1) as [E|E].
           { destruct Hpr' as [->|[-> _]]; [case_if; [by left|by right]|by left]. }
           ++ rewrite (added_step lane hp hp' e c t w Hs Hw Hpr E).
              destruct (Z.eqb_spec (wv_expert w) e), (Z.eqb_spec (wv_chunk w) c); cbn [andb]; try (by rewrite app_nil_r). by exfalso; apply Hne.
           ++ apply added_same. by rewrite Hpr, E.
      * apply S2. intros x' Hx' E. apply tile_addr_inj in E as (E1 & E2 & _); try done. by apply Hne.
Qed.

(** A helper behind the load of its item. *)
Lemma begin_effect lane ls sh h w : 0 <= lane < laneCount l -> lane_inv lane ls sh -> 0 <= h < helper_count l k lane ->
  let hp := ls_helpers ls h in let s := hp_sequence hp in hp_pc hp = HLoad -> wave_at lane s = Some w ->
  let '(hp', sts) := begin_item l k h hp sh (wave_item lane s w) in
  sts = [] /\ hdone hp' = hdone hp /\ grad_effect lane h hp hp' (sh_grad sh) (sh_grad sh) /\
  helper_ok lane h (published (ls_leader ls)) (reclaimed (ls_leader ls)) hp' (sh_grad sh).
Proof using Hl Hk Hrows Hwaves.
  intros Hlane Hi Hh hp s Hpc Hw. destruct (li_helpers _ _ _ Hi h Hh) as (H1 & H2 & H3 & H4). fold hp s in H1, H2, H3, H4. rewrite Hpc in H4.
  pose proof (wave_at_ok lane s w Hlane Hw) as Hok. pose proof (wave_at_range lane s w ltac:(lia) Hw) as Hsn.
  pose proof (helper_count_range l k Hl Hk lane Hlane) as Hc. unfold begin_item. rewrite (wave_item_contributors lane s w Hlane Hok).
  rewrite (item_tiles_eq lane s w Hlane Hok). set (p := ProjectionForLane l lane).
  assert (hdone hp = s - 1) as Hd by (unfold hdone; rewrite Hpc; done).
  destruct (Z.leb_spec (ceil_div (chunk_size l p (wv_chunk w)) kReduceGradKernelTileBytes) h) as [Hle|Hgt].
  - split; [done|]. split; [rewrite Hd; done|]. split.
    + apply effect_same. intros e c t x He Hin Hlo Ht. rewrite (added_step lane hp (helper_at hp (HStore false)) e c t w); try done; [|lia|unfold progress; rewrite Hpc; done].
      destruct (Z.eqb_spec (wv_expert w) e), (Z.eqb_spec (wv_chunk w) c) as [<-|]; cbn [andb]; try (by rewrite app_nil_r).
      exfalso. destruct Hin as (_ & Hti & _). fold p in Hti. pose proof (Z.mod_le t (helper_count l k lane) ltac:(lia) ltac:(lia)). lia.
    + unfold helper_ok, hdone. cbn [helper_at hp_pc hp_sequence]. fold s. rewrite (proj2 (Z.eqb_neq _ _)) by lia. split_and!; lia || done.
  - destruct (tile_bytes_eq lane s w h Hlane Hok ltac:(fold p; lia)) as [Etb _]. fold p in Etb. rewrite Etb.
    split; [done|]. split; [rewrite Hd; done|]. split.
    + apply effect_same. intros e c t x He Hin Hlo Ht. apply added_same. unfold progress. rewrite Hpc. cbn [hp_pc hp_sequence].
      destruct Hin as (_ & Hti & _). pose proof (Z.mod_le t (helper_count l k lane) ltac:(lia) ltac:(lia)). by rewrite (proj2 (Z.ltb_ge _ _)) by lia.
    + unfold helper_ok, hdone. cbn [hp_pc hp_sequence hp_ub]. fold s. split_and!; try lia. exists w. cbn [wave_item it_chunkBytes]. fold p.
      split_and!; try lia; try done; [apply Z.mod_small; lia|]. intros x Hx. cbn [ub_accum]. unfold PrefetchAccumulator.
      rewrite upd1_eq, copy_in by lia. cbn [it_projection]. fold p. f_equal. lia.
Qed.

Lemma inv_store lane ls sh h last : 0 <= lane < laneCount l -> lane_inv lane ls sh -> 0 <= h < helper_count l k lane ->
  let hp := ls_helpers ls h in let s := hp_sequence hp in hp_pc hp = HStore last ->
  let hp' := if last then helper_at hp HReturned else {| hp_pc := HWait 0; hp_sequence := (s + 1)%u32; hp_ub := hp_ub hp |} in
  lane_inv lane (set_helper (store_done ls (bank_of s) h (LaneToken k s)) h hp') sh /\
  grad_effect lane h hp hp' (sh_grad sh) (sh_grad sh).
Proof using Hl Hk Hrows Hwaves.
  intros Hlane Hi Hh hp s Hpc hp'. destruct (li_helpers _ _ _ Hi h Hh) as (H1 & H2 & H3 & H4). fold hp s in H1, H2, H3, H4. rewrite Hpc in H4.
  destruct H4 as [H4 Hlast]. destruct (wave_count_small lane Hlane) as [N0 N1]. unfold UINT32_MAX in N1.
  assert (hdone hp = s - 1) as Hd by (unfold hdone; rewrite Hpc; done).
  assert (hdone hp' = s /\ forall t, progress hp' t = s) as [Hd' Hp'].
  { unfold hp', hdone, progress. destruct last; cbn [helper_at hp_pc hp_sequence]; rewrite ?u32_small by lia; split; try done; intros; lia. }
  assert (helper_ok lane h (published (ls_leader ls)) (reclaimed (ls_leader ls)) hp' (sh_grad sh)) as Hok.
  { unfold helper_ok. rewrite Hd'. symmetry in Hlast. destruct last; [apply Z.eqb_eq in Hlast|apply Z.eqb_neq in Hlast];
      unfold hp'; cbn [helper_at hp_pc hp_sequence]; fold s; rewrite ?u32_small by lia; split_and!; lia || done. }
  split.
  - destruct Hi as [Ha Hld Hb Hw Ht Hhp]. fold hp in Hd. constructor; cbn [set_helper store_done ls_abort ls_leader ls_helpers]; try done.
    + eapply leader_ok_mono; [|exact Hld]. intros h2. cbv beta. unfold upd1. destruct (Z.eqb_spec h2 h) as [-> |]; [fold hp; lia|lia].
    + destruct Hw as (W1 & W2 & W3). split_and!; try done. intros bank h2 Hbk Hh2. cbn [set_helper store_done ls_done ls_helpers].
      destruct (Z.eq_dec h2 h) as [-> |Hne].
      * rewrite upd1_eq, Hd'. pose proof (word_at_step (fun bk => ls_done ls bk h) (fun bk => b_done b lane bk h) (LaneToken k) (s - 1)
          ltac:(unfold UINT32_MAX; lia)) as Hst. replace (s - 1 + 1) with s in Hst by lia. rewrite <- Hst; [|intros bk Hbk2; rewrite W3 by done; by fold hp; rewrite Hd|done].
        unfold upd1. destruct (Z.eqb_spec bank (bank_of s)) as [-> |]; [by rewrite Z.eqb_refl|done].
      * rewrite (upd1_ne (ls_helpers ls)) by done. rewrite <- W3 by done. unfold upd1.
        destruct (Z.eqb_spec bank (bank_of s)) as [-> |]; [by rewrite (proj2 (Z.eqb_neq h2 h))|done].
    + intros h2 Hh2. unfold upd1. destruct (Z.eqb_spec h2 h) as [-> |]; [done|by apply Hhp].
  - apply effect_same. intros e c t x He Hin Hlo Ht. apply added_same. rewrite Hp'. unfold progress. rewrite Hpc. done.
Qed.

(** What a step of helper [h] that publishes no status keeps: the invariant of its lane; and its
    effect on the gradients is that of its progress. *)
Definition helper_kept (lane h : Z) (ls : LaneState (V:=V)) (sh : Shared (V:=V)) (r : LaneState * Shared) : Prop :=
  lane_inv lane (fst r) (snd r) /\ sh_workspace (snd r) = sh_workspace sh /\ sh_status sh = 0 /\
  exists hp', ls_helpers (fst r) = upd1 (ls_helpers ls) h hp' /\ grad_effect lane h (ls_helpers ls h) hp' (sh_grad sh) (sh_grad (snd r)).

Lemma kept_goto lane h ls sh pc : 0 <= lane < laneCount l -> lane_inv lane ls sh -> 0 <= h < helper_count l k lane -> sh_status sh = 0 ->
  hdone (helper_at (ls_helpers ls h) pc) = hdone (ls_helpers ls h) ->
  grad_effect lane h (ls_helpers ls h) (helper_at (ls_helpers ls h) pc) (sh_grad sh) (sh_grad sh) ->
  helper_ok lane h (published (ls_leader ls)) (reclaimed (ls_leader ls)) (helper_at (ls_helpers ls h) pc) (sh_grad sh) ->
  helper_kept lane h ls sh (set_helper ls h (helper_at (ls_helpers ls h) pc), sh).
Proof using Hl Hrows.
  intros Hlane Hi Hh H0 Hd He Hok. split_and!; try done; [by apply (inv_helper lane ls sh sh)|]. by eexists.
Qed.

Lemma effect_goto lane h hp pc g : (forall t, progress (helper_at hp pc) t = progress hp t) -> grad_effect lane h hp (helper_at hp pc) g g.
Proof using Type. intros Hp. apply effect_same. intros e c t x _ _ _ _. by apply added_same. Qed.

Lemma kept_wait lane h ls sh a r : 0 <= lane < laneCount l -> lane_inv lane ls sh -> 0 <= h < helper_count l k lane ->
  hp_pc (ls_helpers ls h) = HWait a -> helper_step l k vadd sources lane h (helper_count l k lane) ls sh = Some r ->
  sh_status (snd r) = 0 -> helper_kept lane h ls sh r.
Proof using Hl Hk Hrows Hwaves Hready.
  intros Hlane Hi Hh Epc Hs H0. destruct (li_helpers _ _ _ Hi h Hh) as (H1 & H2 & H3 & _). destruct (wave_count_small lane Hlane) as [N0 N1]. unfold UINT32_MAX in N1.
  destruct (counters_le lane ls sh Hlane Hi) as (_ & C1 & C2 & _ & C3 & _). unfold helper_step in Hs. cbv zeta in Hs. rewrite Epc in Hs.
  unfold hdone in H2, H3. rewrite Epc in H2, H3.
  destruct (Z.eqb_spec (ls_ready ls (bank_of (hp_sequence (ls_helpers ls h)))) (LaneToken k (hp_sequence (ls_helpers ls h)))) as [Er|Er].
  - destruct (li_words _ _ _ Hi) as (W1 & _). rewrite W1 in Er by apply bank_of_range.
    apply stale_at in Er as (Er & _); [|apply Hready|unfold is_u32, UINT32_MAX; lia|apply bank_of_range|unfold UINT32_MAX; lia].
    injection Hs as <-. (apply kept_goto; try done); [unfold hdone; by rewrite Epc|apply effect_goto; intros t; unfold progress; by rewrite Epc|].
    exact (conj H1 (conj H2 (conj H3 (proj2 Er)))).
  - rewrite (proj2 (Z.eqb_neq _ _) (li_abort _ _ _ Hi)) in Hs. destruct (waitIterations_ k <=? a + 1); injection Hs as <-.
    + exfalso. apply statuses_zero in H0 as [? _]; [done|by repeat constructor].
    + (apply kept_goto; try done); [unfold hdone; by rewrite Epc|apply effect_goto; intros t; unfold progress; by rewrite Epc].
Qed.

Lemma kept_load lane h ls sh r : 0 <= lane < laneCount l -> lane_inv lane ls sh -> 0 <= h < helper_count l k lane ->
  hp_pc (ls_helpers ls h) = HLoad -> helper_step l k vadd sources lane h (helper_count l k lane) ls sh = Some r ->
  sh_status (snd r) = 0 -> helper_kept lane h ls sh r.
Proof using Hl Hk Hrows Hwaves.
  intros Hlane Hi Hh Epc Hs H0. destruct (li_helpers _ _ _ Hi h Hh) as (H1 & H2 & H3 & H4). rewrite Epc in H4.
  assert (hdone (ls_helpers ls h) = hp_sequence (ls_helpers ls h) - 1) as Hd by (unfold hdone; by rewrite Epc).
  unfold helper_step in Hs. cbv zeta in Hs. rewrite Epc, (helper_item lane ls sh h Hlane Hi Hh Hd H4) in Hs. unfold item_of in Hs.
  destruct (wave_at lane (hp_sequence (ls_helpers ls h))) as [w|] eqn:Ew.
  - cbn [wave_item it_token it_kind] in Hs. rewrite Z.eqb_refl in Hs. cbn [negb] in Hs.
    change (kReduceGradBankWork =? kReduceGradBankTerminal) with false in Hs. rewrite Z.eqb_refl in Hs.
    pose proof (begin_effect lane ls sh h w Hlane Hi Hh Epc Ew) as Hbe. cbv zeta in Hbe.
    change {| it_token := _ |} with (wave_item lane (hp_sequence (ls_helpers ls h)) w) in Hs.
    destruct (begin_item _ _ _ _ _ _) as [hp' sts]. destruct Hbe as (-> & Hd' & He & Hok). injection Hs as <-.
    assert (publish sh [] = sh) as Epub by (by destruct sh). rewrite Epub in *. cbn [snd] in H0.
    split_and!; try done; [by apply (inv_helper lane ls sh sh)|]. by eexists.
  - cbn [terminal_item it_token it_kind] in Hs. rewrite Z.eqb_refl in Hs. cbn [negb] in Hs. rewrite Z.eqb_refl in Hs.
    assert (hp_sequence (ls_helpers ls h) = wave_count lane + 1) as En.
    { destruct (Z.le_gt_cases (hp_sequence (ls_helpers ls h)) (wave_count lane)); [|lia].
      destruct (wave_at_some lane (hp_sequence (ls_helpers ls h)) ltac:(lia)) as [w Hw]. congruence. }
    injection Hs as <-. apply kept_goto; try done.
    + apply effect_same. intros e c t x _ _ _ _. apply added_end; try done; [lia|unfold progress; by rewrite Epc].
    + refine (conj H1 (conj _ (conj _ _))); [unfold hdone; cbn; lia|unfold hdone in *; rewrite Epc in H3; cbn; lia|].
      cbn. split; [exact H4|]. by rewrite En, Z.eqb_refl.
Qed.

Lemma kept_tile lane h ls sh it cs tile ai r : 0 <= lane < laneCount l -> lane_inv lane ls sh -> 0 <= h < helper_count l k lane ->
  hp_pc (ls_helpers ls h) = HTile it cs tile ai -> helper_step l k vadd sources lane h (helper_count l k lane) ls sh = Some r ->
  sh_status (snd r) = 0 -> helper_kept lane h ls sh r.
Proof using Hl Hk Hrows Hwaves.
  intros Hlane Hi Hh Epc Hs H0. destruct (li_helpers _ _ _ Hi h Hh) as (H1 & H2 & H3 & H4). rewrite Epc in H4.
  destruct H4 as (H4 & w & Hw & -> & -> & Htm & Ht & Hai & Hub). unfold helper_step in Hs. cbv zeta in Hs. rewrite Epc in Hs.
  pose proof (tile_step_sum lane ls sh h w tile ai Hlane Hi Hh Epc Hw) as Hts. cbv zeta in Hts.
  destruct (tile_step _ _ _ _ _ _ _ _ _ _ _) as [hp' sh2]. destruct Hts as (T1 & T2 & T3 & T4 & T5 & T6). injection Hs as <-. cbn [snd] in H0.
  pose proof (wave_at_ok lane _ w Hlane Hw) as Hok. rewrite (item_tiles_eq lane _ w Hlane Hok) in T5, T6.
  pose proof (wave_at_range lane (hp_sequence (ls_helpers ls h)) w ltac:(lia) Hw) as Hsn.
  assert (grad_effect lane h (ls_helpers ls h) hp' (sh_grad sh) (sh_grad sh2)) as He.
  { eapply (tile_effect lane h _ _ w tile); try done; [lia|lia|intros t; unfold progress; by rewrite Epc|].
    intros t. unfold progress. rewrite T5, T4. destruct (Z.ltb_spec (tile + helper_count l k lane) (ceil_div (chunk_size l (ProjectionForLane l lane) (wv_chunk w)) kReduceGradKernelTileBytes)); [by left|by right]. }
  assert (hdone hp' = hdone (ls_helpers ls h)) as Hd' by (unfold hdone; rewrite T5, T4, Epc; by case_if).
  rewrite T3 in H0. split_and!; try done; [|by eexists]. apply (inv_helper lane ls sh sh2); try done.
  unfold helper_ok. rewrite Hd', T4. refine (conj H1 (conj H2 (conj H3 _))). rewrite T5.
  destruct (Z.ltb_spec (tile + helper_count l k lane) (ceil_div (chunk_size l (ProjectionForLane l lane) (wv_chunk w)) kReduceGradKernelTileBytes)) as [Hlt|Hge].
  - split; [exact H4|]. exists w. pose proof (helper_count_range l k Hl Hk lane Hlane) as Hc. cbn [wave_item it_chunkBytes] in *.
    refine (conj Hw (conj eq_refl (conj eq_refl (conj _ (conj _ (conj _ _)))))).
    + rewrite <- Zplus_mod_idemp_r, Z.mod_same, Z.add_0_r by lia. done.
    + lia.
    + destruct Hai as [-> | ->]; [by right|by left].
    + assert (0 <= tile + helper_count l k lane) as H00 by lia. intros x Hx. pose proof (conj (wo_chunk _ _ _ _ Hok) (conj (conj H00 Hlt) Hx)) as Hin.
      rewrite (T6 Hlt x Hin). rewrite item_output_addr. cbn [it_projection]. destruct T1 as (_ & S2 & _). symmetry. apply S2.
      intros x' Hx' E. apply tile_addr_inj in E as (_ & _ & E & _); try done; [lia|by apply lane_p].
  - split; [exact H4|]. symmetry. apply Z.eqb_neq. lia.
Qed.

Lemma helper_inv lane h ls sh r : 0 <= lane < laneCount l -> lane_inv lane ls sh -> 0 <= h < helper_count l k lane ->
  helper_step l k vadd sources lane h (helper_count l k lane) ls sh = Some r -> sh_status (snd r) = 0 -> helper_kept lane h ls sh r.
Proof using Hl Hk Hrows Hwaves Hready.
  intros Hlane Hi Hh Hs H0. destruct (hp_pc (ls_helpers ls h)) as [a| |it cs tile ai|last|] eqn:Epc.
  - by eapply kept_wait.
  - by eapply kept_load.
  - by eapply kept_tile.
  - unfold helper_step in Hs. cbv zeta in Hs. rewrite Epc in Hs.
    destruct (inv_store lane ls sh h last Hlane Hi Hh Epc) as [Hst He]. injection Hs as <-. split_and!; try done. by eexists.
  - unfold helper_step in Hs. by rewrite Epc in Hs.
Qed.

(** ** Data arrives *)

Lemma split_unique (cs1 cs1' cs2 cs2' : list Z) c c' : cs1 ++ c :: cs2 = cs1' ++ c' :: cs2' -> remote_entry l c = true -> remote_entry l c' = true ->
  remote_count l cs1 = remote_count l cs1' -> cs1 = cs1' /\ c = c'.
Proof using Type.
  revert cs1'. induction cs1 as [|a cs1 IH]; intros [|a' cs1'] E Hc Hc' En; cbn in E; injection E as Ea Er; subst.
  - done.
  - exfalso. rewrite remote_count_cons, Hc in En. pose proof (remote_count_le l cs1'). change (remote_count l []) with 0 in En. lia.
  - exfalso. rewrite remote_count_cons, Hc' in En. pose proof (remote_count_le l cs1). change (remote_count l []) with 0 in En. lia.
  - rewrite !remote_count_cons in En. destruct (IH cs1' Er Hc Hc') as [-> ->]; [|done]. lia.
Qed.

(** Gets of neighbouring waves that overlap are the same. *)
Lemma gets_overlap lane q q' g g' x x' : 0 <= lane < laneCount l -> 1 <= q <= UINT32_MAX -> 1 <= q' <= UINT32_MAX -> q - 2 < q' < q + 2 ->
  g ∈ gets_at lane q -> g' ∈ gets_at lane q' -> 0 <= x < get_bytes g -> 0 <= x' < get_bytes g' ->
  get_local g + x = get_local g' + x' -> g = g' /\ x = x'.
Proof using Hl Hrows.
  intros Hlane Hq Hq' Hqq Hg Hg' Hx Hx' E. destruct (gets_rank lane q g Hlane Hg) as (_ & _ & w & o & Hw & Ho & El & _ & Eb),
    (gets_rank lane q' g' Hlane Hg') as (_ & _ & w' & o' & Hw' & Ho' & El' & _ & Eb').
  pose proof (wave_at_ok lane q w Hlane Hw) as Hok. pose proof (wave_at_ok lane q' w' Hlane Hw') as Hok'.
  destruct (chunk_size_ok l Hl _ _ (lane_p lane Hlane) (wo_chunk _ _ _ _ Hok)) as (S1 & _), (chunk_size_ok l Hl _ _ (lane_p lane Hlane) (wo_chunk _ _ _ _ Hok')) as (S1' & _).
  pose proof (wo_count _ _ _ _ Hok). pose proof (wo_count _ _ _ _ Hok'). rewrite El, El' in E.
  apply slots_disjoint in E as (_ & Eq & Eo & ->); try done; try apply bank_of_range; try lia. apply bank_of_inj in Eq as <-; [|lia..].
  split; [|done]. rewrite Hw in Hw'. injection Hw' as <-. unfold gets_at in Hg, Hg'. rewrite Hw in Hg, Hg'.
  apply elem_wave_gets in Hg as (cs1 & c & cs2 & E1 & R1 & ->), Hg' as (cs1' & c' & cs2' & E2 & R2 & ->). cbn in El, El'.
  destruct (gl_chunk l Hl) as [G1 _]. rewrite E1 in E2. apply split_unique in E2 as [-> ->]; try done.
  assert (remote_count l cs1 * chunkBytes l = remote_count l cs1' * chunkBytes l) as Em by lia. apply Z.mul_reg_r in Em; lia.
Qed.

Lemma transport_frame lane ic cp ls ws ws' : 0 <= ic -> transport_ok lane ic cp ls ws ->
  (forall q g x, g ∈ gets_at lane q -> 0 <= x < get_bytes g -> ws' (get_local g + x) = ws (get_local g + x)) ->
  transport_ok lane ic cp ls ws'.
Proof using Type.
  intros Hic (T1 & T2 & T3 & T4) Hf. split_and!; try done. intros q r i g Hq Hlt Hi Hin Hg Ha x Hx.
  destruct (queue_get lane ic r i g q Hic Hq Hin Hg) as [Hgq _]. rewrite (Hf q g x Hgq Hx). by apply (T4 q r i g).
Qed.

Lemma inv_workspace lane ls sh sh' : 0 <= lane < laneCount l -> lane_inv lane ls sh -> sh_grad sh' = sh_grad sh ->
  (forall q g x, g ∈ gets_at lane q -> 0 <= x < get_bytes g -> sh_workspace sh' (get_local g + x) = sh_workspace sh (get_local g + x)) ->
  lane_inv lane ls sh'.
Proof using Hwaves.
  intros Hlane Hi Eg Hf. destruct (counters_le lane ls sh Hlane Hi) as (_ & _ & _ & _ & _ & C & _). destruct Hi as [Ha Hld Hb Hw Ht Hh].
  constructor; try done; [|by rewrite Eg]. eapply transport_frame; [lia|done|done].
Qed.

(** The wave of a get in flight is one of the last two. *)
Lemma flight_wave lane ls sh r i g : 0 <= lane < laneCount l -> lane_inv lane ls sh ->
  ls_queue ls r !! Z.to_nat i = Some g -> 0 <= i -> ls_arrived ls r i = false ->
  exists q, 1 <= q <= issued (ls_leader ls) /\ issued (ls_leader ls) < q + 2 /\ g ∈ gets_at lane q /\ get_rank g = r /\
    queue_upto lane (issued (ls_leader ls)) r !! Z.to_nat i = Some g.
Proof using Hwaves.
  intros Hlane Hi Hg Hi0 Ha. destruct (counters_le lane ls sh Hlane Hi) as (_ & _ & _ & _ & _ & C1 & _ & _ & _ & _ & C2 & C3 & C4).
  destruct (li_transport _ _ _ Hi) as (T1 & _ & T3 & _). rewrite T1 in Hg. pose proof (lookup_lt_Some _ _ _ Hg) as Hlt.
  destruct (queue_wave lane (issued (ls_leader ls)) r i ltac:(lia) ltac:(unfold frontier; lia)) as (q & Hq & Hin). exists q.
  destruct (queue_get lane (issued (ls_leader ls)) r i g q ltac:(lia) Hq Hin Hg) as [Hgq Hr]. split_and!; try done; try lia.
  destruct (Z.le_gt_cases q (completed (ls_leader ls))) as [Hle|]; [|lia]. exfalso.
  pose proof (frontier_mono lane q (completed (ls_leader ls)) r ltac:(lia)). rewrite T3 in Ha by lia. done.
Qed.

Lemma arrive_own lane ls sh r i g : 0 <= lane < laneCount l -> lane_inv lane ls sh ->
  ls_queue ls r !! Z.to_nat i = Some g -> 0 <= i -> ls_arrived ls r i = false ->
  lane_inv lane
    {| ls_ready := ls_ready ls; ls_item := ls_item ls; ls_done := ls_done ls; ls_abort := ls_abort ls; ls_queue := ls_queue ls;
       ls_arrived := upd1 (ls_arrived ls) r (upd1 (ls_arrived ls r) i true); ls_leader := ls_leader ls; ls_helpers := ls_helpers ls |}
    {| sh_grad := sh_grad sh;
       sh_workspace := DataCopyPad (sh_workspace sh) (get_local g) (sources r (get_region g - 1)) (get_remote g) (get_bytes g);
       sh_status := sh_status sh |}.
Proof using Hl Hrows Hwaves.
  intros Hlane Hi Hg Hi0 Har. destruct (flight_wave lane ls sh r i g Hlane Hi Hg Hi0 Har) as (q & Hq & Hlt & Hgq & Hr & Hlook).
  destruct (wave_count_small lane Hlane) as [N0 N1]. unfold UINT32_MAX in N1.
  destruct (counters_le lane ls sh Hlane Hi) as (_ & _ & _ & _ & _ & C1 & _). pose proof (lookup_lt_Some _ _ _ Hlook) as Hlen.
  destruct Hi as [Ha Hld Hb Hw (T1 & T2 & T3 & T4) Hh]. constructor; try done. split_and!; cbn; try done.
  - intros r' i'. unfold upd1. destruct (Z.eqb_spec r' r) as [-> |]; [|apply T2]. destruct (Z.eqb_spec i' i) as [-> |]; [intros _; unfold frontier; lia|apply T2].
  - intros r' i' Hi'. unfold upd1. destruct (Z.eqb_spec r' r) as [-> |]; [|by apply T3]. destruct (Z.eqb_spec i' i) as [-> |]; [done|by apply T3].
  - intros q' r' i' g' Hq' Hlt' Hi' Hin' Hg' Ha' x Hx. destruct (queue_get lane (issued (ls_leader ls)) r' i' g' q' ltac:(lia) Hq' Hin' Hg') as [Hgq' Hr'].
    destruct (gets_rank lane q g Hlane Hgq) as (_ & _ & w & o & _ & _ & _ & Ereg & _).
    destruct (decide (get_local g <= get_local g' + x < get_local g + get_bytes g)) as [Hinr|Hout].
    + destruct (gets_overlap lane q q' g g' (get_local g' + x - get_local g) x Hlane) as [<- Ex]; try done; try (unfold UINT32_MAX; lia); [lia..|].
      rewrite copy_in by done. rewrite Ereg, Z.add_simpl_r. rewrite <- Hr, <- Hr'. f_equal. lia.
    + rewrite copy_out by lia. apply (T4 q' r' i' g'); try done. revert Ha'. unfold upd1.
      destruct (Z.eqb_spec r' r) as [-> |]; [|done]. destruct (Z.eqb_spec i' i) as [-> |]; [|done]. intros _. exfalso.
      rewrite Hlook in Hg'. injection Hg' as <-. lia.
Qed.

(** ** The system *)

Lemma statuses_keep sts s : foldl PublishStatus s sts = 0 -> s = 0.
Proof using Type.
  revert s. induction sts as [|v sts IH]; intros s E; [done|]. cbn [foldl] in E. apply IH in E. unfold PublishStatus in E.
  destruct (v =? 0); cbn [negb] in E; [done|]. destruct (Z.eqb_spec s 0); done.
Qed.

Lemma leader_frame o lane (ls : LaneState (V:=V)) sh ls' sh' : leader_step l k o lane ls sh = Some (ls', sh') ->
  ls_helpers ls' = ls_helpers ls /\ (sh_status sh' = 0 -> sh_status sh = 0).
Proof using Type.
  unfold leader_step, fail_leader. cbv zeta. intros Hs.
  repeat match type of Hs with
  | context [match ?x with _ => _ end] => lazymatch x with context [match _ with _ => _ end] => fail | _ => destruct x end
  end; try done; injection Hs as <- <-; (split; [done|]); try done; apply statuses_keep.
Qed.

Lemma helper_frame lane h hc (ls : LaneState (V:=V)) sh ls' sh' : helper_step l k vadd sources lane h hc ls sh = Some (ls', sh') ->
  sh_status sh' = 0 -> sh_status sh = 0.
Proof using Type.
  unfold helper_step, tile_step, begin_item. cbv zeta. intros Hs.
  repeat match type of Hs with
  | context [match ?x with _ => _ end] => lazymatch x with context [match _ with _ => _ end] => fail | _ => destruct x end
  end; try done; injection Hs as <- <-; try done; apply statuses_keep.
Qed.

Definition sys_helpers (s : System (V:=V)) (lane : Z) : Z -> Helper (V:=V) := ls_helpers (sy_lanes s lane).

(** The invariant of a run: it holds as long as no status was published. *)
Definition sys_inv (s : System (V:=V)) : Prop := sh_status (sy_shared s) = 0 ->
  (forall lane, 0 <= lane < laneCount l -> lane_inv lane (sy_lanes s lane) (sy_shared s)) /\
  grads_ok (sh_grad (sy_shared s)) (sys_helpers s) /\ rest_ok (sh_grad (sy_shared s)).

Lemma leader_sys s o lane ls' sh' : sys_inv s -> 0 <= lane < laneCount l -> oracle_sound o lane s ->
  leader_step l k o lane (sy_lanes s lane) (sy_shared s) = Some (ls', sh') -> sys_inv (set_lane s lane (ls', sh')).
Proof using Hl Hk Hrows Hwaves Hdone.
  intros Hi Hlane Ho Hs H0. cbn in H0. destruct (leader_frame o lane _ _ _ _ Hs) as [Eh Hst]. destruct (Hi (Hst H0)) as (HL & HG & HR).
  destruct (leader_inv o lane (sy_lanes s lane) (sy_shared s) ls' sh' Hlane (HL lane Hlane) Ho Hs H0) as [Hinv ->].
  split_and!; cbn; [|intros p e c t x Hp He Hin; specialize (HG p e c t x Hp He Hin); cbv zeta in HG; rewrite HG|done].
  - intros lane2 Hl2. unfold upd1. destruct (Z.eqb_spec lane2 lane) as [-> |]; [done|by apply HL].
  - do 2 f_equal. unfold sys_helpers. cbn. unfold upd1. destruct (Z.eqb_spec (lane_of l p e c) lane) as [-> |]; [|done]. by rewrite Eh.
Qed.

Lemma helper_sys s lane h ls' sh' : sys_inv s -> 0 <= lane < laneCount l -> 0 <= h < helper_count l k lane ->
  helper_step l k vadd sources lane h (helper_count l k lane) (sy_lanes s lane) (sy_shared s) = Some (ls', sh') ->
  sys_inv (set_lane s lane (ls', sh')).
Proof using Hl Hk Hrows Hwaves Hready.
  intros Hi Hlane Hh Hs H0. cbn in H0. destruct (Hi (helper_frame _ _ _ _ _ _ _ Hs H0)) as (HL & HG & HR).
  destruct (helper_inv lane h (sy_lanes s lane) (sy_shared s) (ls', sh') Hlane (HL lane Hlane) Hh Hs H0) as (Hinv & Ews & _ & hp' & Ehp & He). cbn [fst snd] in *.
  destruct (grads_step lane h (sys_helpers s) (sys_helpers (set_lane s lane (ls', sh'))) (sh_grad (sy_shared s)) (sh_grad sh') Hlane HG HR) as [HG' HR'].
  - unfold sys_helpers at 2. cbn. rewrite upd1_eq, Ehp, upd1_eq. exact He.
  - intros lane2 h2 Hne. unfold sys_helpers. cbn. unfold upd1 at 1. destruct (Z.eqb_spec lane2 lane) as [-> |]; [|done]. rewrite Ehp.
    apply upd1_ne. intros ->. by apply Hne.
  - split_and!; [|done|done]. intros lane2 Hl2. cbn. unfold upd1. destruct (Z.eqb_spec lane2 lane) as [-> |Hne]; [done|].
    destruct (HL lane2 Hl2) as [Ha Hld Hb Hw Ht Hhp]. constructor; try done; [by rewrite Ews|]. intros h2 Hh2.
    apply (helper_ok_frame lane2 h2 _ _ _ (sh_grad (sy_shared s))); [done|by apply Hhp|]. intros e c t x p Hin Hlo Ht2.
    eapply effect_frame; try done; [by apply lane_p|]. intros [E _]. fold p in E. congruence.
Qed.

Lemma arrive_sys s lane r i g : sys_inv s -> 0 <= lane < laneCount l -> ls_queue (sy_lanes s lane) r !! Z.to_nat i = Some g -> 0 <= i ->
  ls_arrived (sy_lanes s lane) r i = false -> sys_inv (arrive sources s lane r i g).
Proof using Hl Hrows Hwaves.
  intros Hi Hlane Hg Hi0 Ha H0. cbn in H0. destruct (Hi H0) as (HL & HG & HR).
  split_and!; cbn; [|intros p e c t x Hp He Hin; specialize (HG p e c t x Hp He Hin); cbv zeta in HG; rewrite HG|done].
  - intros lane2 Hl2. unfold upd1 at 1. destruct (Z.eqb_spec lane2 lane) as [-> |Hne]; [apply arrive_own; try done; by apply HL|].
    eapply inv_workspace; [done|by apply HL|done|]. intros q g2 x Hg2 Hx. cbn.
    destruct (flight_wave lane _ _ r i g Hlane (HL lane Hlane) Hg Hi0 Ha) as (q1 & _ & _ & Hg1 & _).
    destruct (gets_rank lane2 q g2 Hl2 Hg2) as (_ & _ & w & o & Hw & Ho & El & _ & Eb), (gets_rank lane q1 g Hlane Hg1) as (_ & _ & w' & o' & Hw' & Ho' & El' & _ & Eb').
    pose proof (wave_at_ok lane2 q w Hl2 Hw) as Hok. pose proof (wave_at_ok lane q1 w' Hlane Hw') as Hok'.
    destruct (chunk_size_ok l Hl _ _ (lane_p lane2 Hl2) (wo_chunk _ _ _ _ Hok)) as (S1 & _), (chunk_size_ok l Hl _ _ (lane_p lane Hlane) (wo_chunk _ _ _ _ Hok')) as (S1' & _).
    pose proof (wo_count _ _ _ _ Hok). pose proof (wo_count _ _ _ _ Hok').
    destruct (decide (get_local g <= get_local g2 + x < get_local g + get_bytes g)) as [Hin|Hout]; [|by rewrite copy_out by lia].
    exfalso. apply Hne. assert (get_local g2 + x = get_local g + (get_local g2 + x - get_local g)) as E by lia. rewrite El', El in E.
    apply slots_disjoint in E as (-> & _); try done; try apply bank_of_range; lia.
  - do 2 f_equal. unfold sys_helpers. cbn. unfold upd1. destruct (Z.eqb_spec (lane_of l p e c) lane) as [-> |]; done.
Qed.

Lemma skip_sys s s' blockIdx : skip_step l k blockIdx s = Some s' -> sys_inv s'.
Proof using Type.
  unfold skip_step. destruct (Z.eqb_spec (sh_status (sy_shared s)) 0) as [|Hne]; [done|]. intros Hs H0. exfalso. apply Hne.
  repeat case_match; simplify_eq; exact H0.
Qed.

Lemma sys_step s s' : sys_inv s -> gstep l k vadd sources s s' -> sys_inv s'.
Proof using Hl Hk Hrows Hwaves Hready Hdone.
  intros Hi [blockIdx o s2 Hb Ho Hs|blockIdx s2 Hb Hs|lane r i g Hlane Hg Hi0 Ha]; [|by eapply skip_sys|by apply arrive_sys]. unfold block_step in Hs.
  destruct (Z.ltb_spec blockIdx (laneCount l)) as [Hlt|Hge].
  - apply fmap_Some in Hs as ([ls' sh'] & Hs & ->). eapply leader_sys; try done; [lia|by apply Ho].
  - destruct (HelperLane l k blockIdx) as [[lane h] c] eqn:Eh. apply (helper_lane_inv l k Hl Hk) in Eh as (H1 & -> & H3 & _); [|lia].
    apply fmap_Some in Hs as ([ls' sh'] & Hs & ->). by eapply helper_sys.
Qed.

Lemma sys_reach n s : greach l k vadd sources (gstart l k b) n s -> sys_inv (gstart l k b) -> sys_inv s.
Proof using Hl Hk Hrows Hwaves Hready Hdone. intros Hr Hi. induction Hr as [|n s s' _ IH Hst]; [done|]. by eapply sys_step. Qed.

Lemma word_at_0 {A : Type} (w0 : A) f bank : 0 <= bank < 2 -> word_at w0 f bank 0 = w0.
Proof using Type. intros Hb. unfold word_at, lastq. destruct ((0 - 1) mod 2 =? bank); done. Qed.

Lemma sys_start : sys_inv (gstart l k b).
Proof using Hwaves Habort Hl Hk.
  intros _. split_and!.
  - intros lane Hlane. destruct (wave_count_small lane Hlane) as [N0 N1]. constructor; cbn.
    + apply Habort. unfold is_u32, UINT32_MAX. lia.
    + split_and!; done.
    + split_and!; cbn; try done; intros; lia.
    + split_and!; cbn; intros; by rewrite word_at_0.
    + split_and!; cbn; try done. intros r i Hi. change (frontier lane (1 - 1) r) with 0 in Hi. lia.
    + intros h Hh. unfold helper_ok, hdone. cbn. unfold published, reclaimed. cbn. split_and!; lia || done.
  - intros p e c t x Hp He Hin. done.
  - intros p a _. done.
Qed.

(** ** The result *)

Lemma finished_sum n s : greach l k vadd sources (gstart l k b) n s -> finished l k s -> sh_status (sy_shared s) = 0 ->
  (forall p e x, 0 <= p < 3 -> 0 <= e < g_expertsPerRank l -> 0 <= x < rowBytes l p ->
     let a := globalExpert l e * rowBytes l p + x in
     sh_grad (sy_shared s) p a = foldl vadd (b_grad b p a)
       ((fun s => sources (s / g_prefetchSlots l) p (s mod g_prefetchSlots l * rowBytes l p + x)) <$> holders l k (globalExpert l e))) /\
  (forall p a, (forall e x, 0 <= p < 3 -> 0 <= e < g_expertsPerRank l -> 0 <= x < rowBytes l p -> a <> globalExpert l e * rowBytes l p + x) ->
     sh_grad (sy_shared s) p a = b_grad b p a).
Proof using Hl Hk Hrows Hwaves Hready Hdone Habort.
  intros Hr Hfin H0. destruct (sys_reach n s Hr sys_start H0) as (HL & HG & HR). split.
  - intros p e x Hp He Hx a. destruct (offset_place l Hl p x Hp Hx) as (Pc & Py & Pt & Px & Ex).
    set (c := x / chunkBytes l) in *. set (y := x mod chunkBytes l) in *. set (t := y / kReduceGradKernelTileBytes) in *.
    assert (in_tile p c t (y - t * kReduceGradKernelTileBytes)) as Hin by done.
    assert (a = tile_addr p e c t (y - t * kReduceGradKernelTileBytes)) as -> by (unfold a, tile_addr; lia).
    specialize (HG p e c t _ Hp He Hin). cbv zeta in HG. rewrite HG. destruct (lane_of_range l Hl p e c Hp) as [Hlane _].
    set (lane := lane_of l p e c) in *. pose proof (helper_count_range l k Hl Hk lane Hlane).
    set (h := t mod helper_count l k lane). pose proof (Z.mod_pos_bound t (helper_count l k lane) ltac:(lia)) as Hh. fold h in Hh.
    destruct (Hfin lane Hlane) as [_ Hhr]. specialize (Hhr h Hh). destruct (li_helpers _ _ _ (HL lane Hlane) h Hh) as (_ & _ & _ & Hs).
    rewrite Hhr in Hs.
    assert (added lane (sys_helpers s lane h) e c t = holders l k (globalExpert l e)) as ->.
    { unfold added, progress, sys_helpers. rewrite Hhr, Hs. rewrite take_ge by (unfold wave_count; lia). by apply lane_entries_all. }
    f_equal. apply list_fmap_ext. intros _ s' _. unfold contribution. f_equal. lia.
  - intros p a Hn. apply HR. intros (e & c & t & x & Hp & He & Hin & ->).
    destruct (in_tile_offset p c t x Hp Hin) as (_ & _ & O). apply (Hn e (c * chunkBytes l + (t * kReduceGradKernelTileBytes + x)) Hp He O).
    unfold tile_addr. lia.
Qed.

(** ** No lane is stuck *)

Lemma helper_can lane ls sh h : 0 <= lane < laneCount l -> lane_inv lane ls sh -> 0 <= h < helper_count l k lane ->
  hp_pc (ls_helpers ls h) <> HReturned ->
  (forall a, hp_pc (ls_helpers ls h) = HWait a -> hp_sequence (ls_helpers ls h) <= published (ls_leader ls)) ->
  exists r, helper_step l k vadd sources lane h (helper_count l k lane) ls sh = Some r /\ sh_status (snd r) = sh_status sh.
Proof using Hl Hk Hrows Hwaves.
  intros Hlane Hi Hh Hne Hwait. destruct (li_helpers _ _ _ Hi h Hh) as (H1 & H2 & H3 & H4). destruct (wave_count_small lane Hlane) as [N0 N1]. unfold UINT32_MAX in N1.
  destruct (counters_le lane ls sh Hlane Hi) as (_ & C1 & C2 & _). unfold helper_step. cbv zeta.
  destruct (hp_pc (ls_helpers ls h)) as [a| |it cs tile ai|last|] eqn:Epc; try done.
  - specialize (Hwait a eq_refl). unfold hdone in H3. rewrite Epc in H3. destruct (li_words _ _ _ Hi) as (W1 & _).
    rewrite W1 by apply bank_of_range. rewrite word_at_bank by (unfold UINT32_MAX; lia). rewrite Z.eqb_refl. by eexists.
  - assert (hdone (ls_helpers ls h) = hp_sequence (ls_helpers ls h) - 1) as Hd by (unfold hdone; by rewrite Epc).
    rewrite (helper_item lane ls sh h Hlane Hi Hh Hd H4). unfold item_of.
    destruct (wave_at lane (hp_sequence (ls_helpers ls h))) as [w|] eqn:Ew.
    + pose proof (begin_effect lane ls sh h w Hlane Hi Hh Epc Ew) as Hbe. cbv zeta in Hbe. cbn [wave_item it_token it_kind].
      rewrite Z.eqb_refl. cbn [negb]. change (kReduceGradBankWork =? kReduceGradBankTerminal) with false. rewrite Z.eqb_refl.
      change {| it_token := _ |} with (wave_item lane (hp_sequence (ls_helpers ls h)) w).
      destruct (begin_item _ _ _ _ _ _) as [hp' sts]. destruct Hbe as (-> & _). by eexists.
    + cbn [terminal_item it_token it_kind]. rewrite Z.eqb_refl. cbn [negb]. rewrite Z.eqb_refl. by eexists.
  - destruct H4 as (H4 & w & Hw & -> & -> & _). pose proof (tile_step_sum lane ls sh h w tile ai Hlane Hi Hh Epc Hw) as Hts. cbv zeta in Hts.
    destruct (tile_step _ _ _ _ _ _ _ _ _ _ _) as [hp' sh2]. destruct Hts as (_ & _ & E & _). by eexists.
  - by eexists.
Qed.

(** The answers of queues that work. *)
Definition calm (quiet : Z) : Oracle := {| o_post := fun _ => true; o_flush := fun _ => true; o_quiet := fun _ => quiet |}.

Lemma calm_issue lane q w head : 0 <= lane < laneCount l -> wave_at lane q = Some w ->
  exists pw gets, IssueWave l k lane (ProjectionForLane l lane) (bank_of q) w q (fun _ => true) head (fun _ => true) = (pw, gets, []).
Proof using Hl Hrows.
  intros Hlane Hw. pose proof (wave_at_ok lane q w Hlane Hw) as Hok. destruct (wave_fields lane w Hlane Hok) as (_ & F2 & F3 & _).
  destruct (issue_spec l k lane (ProjectionForLane l lane) (bank_of q) w (fun _ => true) (entries_range l Hl) ltac:(unfold is_u32 in F2; lia) ltac:(unfold is_u32 in F3; lia))
    as (I1 & _). fold (wave_cs l k w) in I1. rewrite (wave_cs_length l k lane w Hok) in I1. unfold IssueWave. do 2 eexists. f_equal.
  rewrite I1, Z.eqb_refl. cbn [app]. apply app_nil. split.
  - unfold issue_entries. generalize (seqZ 0 (plan_entries l)). intros xs. induction xs as [|x xs IH] using rev_ind; [done|].
    rewrite foldl_app. cbn [foldl]. unfold issue_entry at 1. repeat case_if; done.
  - apply elem_of_nil_inv. intros v Hv. apply list_elem_of_fmap in Hv as (r & _ & Hr). apply list_elem_of_filter in Hr as [Hr _]. by rewrite andb_false_r in Hr.
Qed.

Definition arrived_all (lane : Z) (ls : LaneState (V:=V)) : Prop := forall r i g, ls_queue ls r !! Z.to_nat i = Some g -> 0 <= i -> ls_arrived ls r i = true.

(** A leader that waits for a helper waits for one that can go on. *)
Definition waits_for (lane : Z) (ls : LaneState (V:=V)) (h : Z) : Prop := 0 <= h < helper_count l k lane /\
  hp_pc (ls_helpers ls h) <> HReturned /\ hp_sequence (ls_helpers ls h) <= published (ls_leader ls).

Definition leader_moves (lane : Z) (ls : LaneState (V:=V)) (sh : Shared (V:=V)) : Prop :=
  exists o r, oracle_sound o lane {| sy_lanes := fun _ => ls; sy_shared := sh |} /\ leader_step l k o lane ls sh = Some r /\ snd r = sh.

Lemma wait_moves lane ls sh bank q h a : 0 <= lane < laneCount l -> lane_inv lane ls sh -> 0 <= h -> 1 <= q <= wave_count lane ->
  q <= published (ls_leader ls) -> published (ls_leader ls) < q + 2 -> bank_of q = bank ->
  (exists h' a', WaitForHelpers k ls bank (helper_count l k lane) q h a = WaitOn h' a' /\ a' = 0) \/
  WaitForHelpers k ls bank (helper_count l k lane) q h a = WaitOver \/ waits_for lane ls h.
Proof using Hl Hk Hrows Hwaves.
  intros Hlane Hi Hh Hq Hpb Hpb2 <-. destruct (wave_count_small lane Hlane) as [N0 N1]. unfold UINT32_MAX in N1. unfold WaitForHelpers.
  destruct (Z.leb_spec (helper_count l k lane) h) as [|Hlt]; [by right; left|]. destruct (Z.eqb_spec (ls_done ls (bank_of q) h) (LaneToken k q)) as [|Hne].
  { left. by do 2 eexists. }
  right; right. destruct (li_helpers _ _ _ Hi h ltac:(lia)) as (H1 & H2 & _ & H4). destruct (li_words _ _ _ Hi) as (_ & _ & W3).
  assert (hdone (ls_helpers ls h) < q) as Hd.
  { destruct (Z.lt_ge_cases (hdone (ls_helpers ls h)) q) as [|Hge]; [done|]. exfalso. apply Hne.
    rewrite W3 by first [apply bank_of_range|lia]. apply word_at_bank; unfold UINT32_MAX; lia. }
  split; [lia|]. unfold hdone in Hd. destruct (hp_pc (ls_helpers ls h)); try (split; [done|lia]). cbn in H4. lia.
Qed.

Lemma calm_complete lane ls sh : 0 <= lane < laneCount l -> lane_inv lane ls sh -> arrived_all lane ls -> ld_next (ls_leader ls) <= issued (ls_leader ls) ->
  oracle_sound (calm TILEXR_UDMA_STATUS_SUCCESS) lane {| sy_lanes := fun _ => ls; sy_shared := sh |} /\
  exists ready, complete_next l (calm TILEXR_UDMA_STATUS_SUCCESS) (ls_leader ls) = inl ready.
Proof using Hl Hrows Hwaves.
  intros Hlane Hi Hall Hle. destruct (li_banks _ _ _ Hi) as (B1 & _). destruct (B1 (ld_next (ls_leader ls)) ltac:(lia)) as [B2 (P1 & _ & P3 & P4)].
  destruct (li_transport _ _ _ Hi) as (T1 & _). destruct (counters_le lane ls sh Hlane Hi) as (C0 & _). split.
  - intros r Hu _ i Hir. cbn in *. rewrite P4 in Hir by done.
    pose proof (frontier_mono lane (ld_next (ls_leader ls)) (issued (ls_leader ls)) r ltac:(lia)).
    destruct (lookup_lt_is_Some_2 (ls_queue ls r) (Z.to_nat i)) as [g Hg]; [rewrite T1; unfold frontier in *; lia|]. apply (Hall r i g Hg). lia.
  - unfold complete_next. rewrite B2, P1, Z.eqb_refl. cbn [negb orb].
    assert (CompleteWave l (ld_pending (ls_leader ls) (bank_of (ld_next (ls_leader ls)))) (o_quiet (calm TILEXR_UDMA_STATUS_SUCCESS)) = []) as ->; [|by eexists].
    apply elem_of_nil_inv. intros v Hv. apply list_elem_of_fmap in Hv as (r & _ & Hr). apply list_elem_of_filter in Hr as [Hr _].
    cbn in Hr. by rewrite andb_false_r in Hr.
Qed.

(** A leader that has not returned moves, or waits for a get or for a helper. *)
Lemma leader_can lane ls sh : 0 <= lane < laneCount l -> lane_inv lane ls sh -> ld_pc (ls_leader ls) <> LReturned -> arrived_all lane ls ->
  leader_moves lane ls sh \/ exists h, waits_for lane ls h.
Proof using Hl Hk Hrows Hwaves.
  intros Hlane Hi Hne Hall. pose proof (li_leader _ _ _ Hi) as Hld. destruct (wave_count_small lane Hlane) as [N0 N1]. unfold UINT32_MAX in N1.
  set (bad := calm TILEXR_UDMA_STATUS_CQ_TIMEOUT).
  assert (oracle_sound bad lane {| sy_lanes := fun _ => ls; sy_shared := sh |}) as Hbad by done.
  assert (forall r, leader_step l k bad lane ls sh = Some r -> snd r = sh -> leader_moves lane ls sh \/ exists h, waits_for lane ls h) as Hmv.
  { intros r Hs Er. left. by exists bad, r. }
  unfold leader_step in Hmv. cbv zeta in Hmv. fold (helper_count l k lane) in Hmv. unfold leader_ok in Hld.
  assert (leader_moves lane ls sh -> leader_moves lane ls sh \/ exists h, waits_for lane ls h) as Hleft by (by left).
  destruct (li_banks _ _ _ Hi) as (B1 & B2 & B3 & B4). unfold freed in B3, B4.
  destruct (ld_pc (ls_leader ls)) as [| |h a| | | | | |bk h a| | |] eqn:Ep; try done; try (by eapply Hmv).
  - pose proof (lane_p lane Hlane). pose proof (helper_count_range l k Hl Hk lane Hlane).
    rewrite (proj2 (Z.leb_gt kReduceGradProjectionCount _)), (proj2 (Z.eqb_neq _ 0)) in Hmv by (unfold kReduceGradProjectionCount; lia). by eapply Hmv.
  - destruct (ld_work (ls_leader ls)); by eapply Hmv.
  - destruct Hld as ((L1 & L2 & L3) & L4 & L5 & _).
    assert (ld_bankSequence (ls_leader ls) (bank_of (ld_sequence (ls_leader ls))) = ld_sequence (ls_leader ls) - 2) as Eq.
    { destruct (B3 (ld_sequence (ls_leader ls) - 2)) as [_ B]; [lia..|].
      rewrite <- bank_of_2 in B by (unfold UINT32_MAX; lia). replace (ld_sequence _ - 2 + 2) with (ld_sequence (ls_leader ls)) in B by lia. done. }
    rewrite Eq in Hmv. destruct (wait_moves lane ls sh (bank_of (ld_sequence (ls_leader ls))) (ld_sequence (ls_leader ls) - 2) h a Hlane Hi) as [(h' & a' & Ew & _)|[Ew|Hw]];
      try lia; try (unfold published; rewrite Ep; lia).
    + rewrite <- bank_of_2 by (unfold UINT32_MAX; lia). f_equal. lia.
    + rewrite Ew in Hmv. by eapply Hmv.
    + rewrite Ew in Hmv. by eapply Hmv.
    + right. by exists h.
  - destruct Hld as ((L1 & L2 & L3) & L4). destruct (wave_at_some lane (ld_sequence (ls_leader ls)) ltac:(lia)) as [w Hw].
    destruct (ld_work (ls_leader ls)) as [|w' rest] eqn:Ework.
    { exfalso. apply (f_equal length) in L3. rewrite length_drop in L3. unfold wave_count in *. cbn in L3. lia. }
    destruct (wave_tail lane (ld_sequence (ls_leader ls)) w' rest ltac:(lia) L3) as (_ & Hw' & _). rewrite Hw in Hw'. injection Hw' as <-.
    destruct (calm_issue lane (ld_sequence (ls_leader ls)) w (fun rank => Z.of_nat (length (ls_queue ls rank))) Hlane Hw) as (pw & gets & Eiw).
    destruct (inv_issue lane ls sh w rest pw gets bad Hlane Hi Ep Ework Eiw) as [Ei _]. rewrite Ei in Hmv. cbn [bad calm o_post o_flush] in Hmv. rewrite Eiw in Hmv. by eapply Hmv.
  - destruct (calm_complete lane ls sh Hlane Hi Hall) as [Ho (ready & Er)]; [unfold issued; rewrite Ep; lia|]. left.
    eexists _, _. split_and!; [exact Ho|unfold leader_step; rewrite Ep, Er; done|done].
  - destruct (Z.ltb_spec (ld_next (ls_leader ls)) (ld_sequence (ls_leader ls))) as [Hlt|Hge]; [|by eapply Hmv].
    destruct (calm_complete lane ls sh Hlane Hi Hall) as [Ho (ready & Er)]; [unfold issued; rewrite Ep; lia|]. left.
    eexists _, _. split_and!; [exact Ho|unfold leader_step; rewrite Ep, (proj2 (Z.ltb_lt _ _) Hlt), Er; done|done].
  - destruct Hld as (L1 & L2 & L3 & L4 & _). unfold kReduceGradBankCount in Hmv. destruct (Z.leb_spec 2 bk); [by eapply Hmv|].
    destruct (ld_published (ls_leader ls) bk) eqn:Epb; cbn [negb] in Hmv; [|by eapply Hmv].
    destruct (B4 bk ltac:(lia) Epb) as (q & Hq & Hlt & Eb). destruct (B3 q Hq Hlt) as [_ Eseq]. rewrite Eb in Eseq. rewrite Eseq in Hmv.
    destruct (wait_moves lane ls sh bk q h a Hlane Hi) as [(h' & a' & Ew & _)|[Ew|Hw]]; try lia; try done; try (unfold published; rewrite Ep; lia).
    + rewrite Ew in Hmv. by eapply Hmv.
    + rewrite Ew in Hmv. by eapply Hmv.
    + right. by exists h.
Qed.

Lemma arrived_dec lane ls sh : 0 <= lane < laneCount l -> lane_inv lane ls sh ->
  arrived_all lane ls \/ exists r i g, ls_queue ls r !! Z.to_nat i = Some g /\ 0 <= i /\ ls_arrived ls r i = false.
Proof using Hl Hrows Hwaves.
  intros Hlane Hi. set (all := r ← seqZ 0 (g_rankSize l); (fun i => (r, i)) <$> seqZ 0 (Z.of_nat (length (ls_queue ls r)))).
  destruct (counters_le lane ls sh Hlane Hi) as (_ & _ & _ & _ & _ & C & _). destruct (li_transport _ _ _ Hi) as (T1 & _).
  destruct (forallb_or (fun x => ls_arrived ls (fst x) (snd x)) all) as [Hall|([r i] & Hin & Hne)].
  - left. intros r i g Hg Hi0. pose proof (lookup_lt_Some _ _ _ Hg) as Hlen. apply (Hall (r, i)).
    apply list_elem_of_bind. exists r. split; [apply list_elem_of_fmap; exists i; split; [done|apply elem_of_seqZ0; lia]|]. apply elem_of_seqZ0.
    rewrite T1 in Hg, Hlen. destruct (queue_wave lane (issued (ls_leader ls)) r i ltac:(lia) ltac:(unfold frontier; lia)) as (q & Hq & Hin).
    destruct (queue_get lane (issued (ls_leader ls)) r i g q ltac:(lia) Hq Hin Hg) as [Hgq <-]. by apply (gets_rank lane q g Hlane Hgq).
  - right. apply list_elem_of_bind in Hin as (r' & Hin & _). apply list_elem_of_fmap in Hin as (i' & [= -> ->] & Hin%elem_of_seqZ0).
    destruct (lookup_lt_is_Some_2 (ls_queue ls r') (Z.to_nat i') ltac:(lia)) as [g Hg]. exists r', i', g. split_and!; [done|lia|done].
Qed.

Definition leader_returned (ls : LaneState (V:=V)) : bool := match ld_pc (ls_leader ls) with LReturned => true | _ => false end.
Definition helper_returned (ls : LaneState (V:=V)) (h : Z) : bool := match hp_pc (ls_helpers ls h) with HReturned => true | _ => false end.

(** Either every core has returned or one has not. *)
Lemma finished_dec s : finished l k s \/ exists lane, 0 <= lane < laneCount l /\
  (leader_returned (sy_lanes s lane) = false \/ exists h, 0 <= h < helper_count l k lane /\ helper_returned (sy_lanes s lane) h = false).
Proof using Type.
  destruct (forallb_or (fun lane => leader_returned (sy_lanes s lane) && forallb (helper_returned (sy_lanes s lane)) (seqZ 0 (helper_count l k lane)))
    (seqZ 0 (laneCount l))) as [Hall|(lane & Hlane%elem_of_seqZ0 & Hf)].
  - left. intros lane Hlane. specialize (Hall lane ltac:(by apply elem_of_seqZ0)). apply andb_true_iff in Hall as [E1 E2].
    split; [unfold leader_returned in E1; by destruct (ld_pc _)|]. intros h Hh.
    rewrite List.forallb_forall in E2. specialize (E2 h ltac:(by apply list_elem_of_In, elem_of_seqZ0)). unfold helper_returned in E2. by destruct (hp_pc _).
  - right. exists lane. split; [done|]. apply andb_false_iff in Hf as [Hf|Hf]; [by left|]. right.
    destruct (forallb_or (helper_returned (sy_lanes s lane)) (seqZ 0 (helper_count l k lane))) as [Hall|(h & Hh%elem_of_seqZ0 & Hn)]; [|by exists h].
    exfalso. apply not_true_iff_false in Hf. apply Hf, List.forallb_forall. intros h Hh%list_elem_of_In. by apply Hall.
Qed.

Lemma helper_block_step s lane h r : 0 <= lane < laneCount l -> 0 <= h < helper_count l k lane ->
  helper_step l k vadd sources lane h (helper_count l k lane) (sy_lanes s lane) (sy_shared s) = Some r -> gstep l k vadd sources s (set_lane s lane r).
Proof using Hl Hk.
  intros Hlane Hh Hs. destruct (helper_lane_block l k Hl Hk lane h Hlane Hh) as [Hb Eh]. pose proof (blocks_range l k Hl Hk).
  apply (gstep_block l k vadd sources s (helper_block l k lane h) (calm 0)); [lia|lia|].
  unfold block_step. rewrite (proj2 (Z.ltb_ge _ _)) by lia. rewrite Eh, Hs. done.
Qed.

(** As long as nothing went wrong and not every core has returned, the run goes on and nothing
    goes wrong. *)
Lemma sys_progress s : sys_inv s -> sh_status (sy_shared s) = 0 -> finished l k s \/ exists s', gstep l k vadd sources s s' /\ sh_status (sy_shared s') = 0.
Proof using Hl Hk Hrows Hwaves.
  intros Hi H0. destruct (Hi H0) as (HL & _). destruct (finished_dec s) as [|(lane & Hlane & Hor)]; [by left|]. right. specialize (HL lane Hlane).
  assert (forall h, 0 <= h < helper_count l k lane -> hp_pc (ls_helpers (sy_lanes s lane) h) <> HReturned ->
    hp_sequence (ls_helpers (sy_lanes s lane) h) <= published (ls_leader (sy_lanes s lane)) ->
    exists s', gstep l k vadd sources s s' /\ sh_status (sy_shared s') = 0) as Hhelp.
  { intros h Hh Hne Hs. destruct (helper_can lane _ (sy_shared s) h Hlane HL Hh Hne (fun _ _ => Hs)) as (r & Hst & Er).
    exists (set_lane s lane r). split; [by eapply helper_block_step|]. cbn. congruence. }
  destruct (leader_returned (sy_lanes s lane)) eqn:El.
  - destruct Hor as [|(h & Hh & Hr)]; [done|]. apply (Hhelp h Hh); [unfold helper_returned in Hr; by destruct (hp_pc _)|].
    destruct (li_helpers _ _ _ HL h Hh) as (H1 & _). pose proof (li_leader _ _ _ HL) as Hld. unfold leader_returned in El.
    unfold published, leader_ok in *. destruct (ld_pc (ls_leader (sy_lanes s lane))); try done. lia.
  - destruct (arrived_dec lane _ _ Hlane HL) as [Hall|(r & i & g & Hg & Hi0 & Ha)].
    2: { exists (arrive sources s lane r i g). split; [by constructor|done]. }
    destruct (leader_can lane _ (sy_shared s) Hlane HL) as [(o & r & Ho & Hs & Er)|(h & Hh & Hne & Hs)]; try done; [unfold leader_returned in El; by destruct (ld_pc _)| |by apply (Hhelp h)].
    exists (set_lane s lane r). split; [|cbn; by rewrite Er]. pose proof (blocks_range l k Hl Hk).
    apply (gstep_block l k vadd sources s lane o); [lia|by intros _|]. unfold block_step. rewrite (proj2 (Z.ltb_lt _ _)) by lia. rewrite Hs. done.
Qed.
End inv.
