(* ===== verification/GradBound.v ===== *)
(** Every run of the lanes of the gradient reduction is bounded, whatever the queues answer and
    whatever goes wrong: each step of a core and each arrival lowers a measure. The leader's part
    counts the turns of its loops that are left and the polls of its waits, a helper's part the
    sequence numbers, the tiles and the polls, and the last part the gets in flight. *)
From S2P Require Import Prelude Layouts CombineWire UdmaTypes GradLayout GradKernel GradWave GradTile GradShare GradLane GradLaneInv.

Section bound.
Context (l : ReduceGradLayout) (k : GradLaunch) (Hl : grad_layout_ok l) (Hk : launch_ok l k).
Context (Hwaves : forall lane, 0 <= lane < laneCount l -> Z.of_nat (length (lane_waves l k lane)) + 2 <= UINT32_MAX).
Context {V : Type} (vadd : V -> V -> V) (sources : Z -> Z -> Z -> V) (b : Before (V:=V)).
Context (Hready : forall lane bank, stale k (b_ready b lane bank)).
Context (Hitem : forall lane bank, 0 <= nth 2 (b_item b lane bank) 0) (Hpend : 0 <= pw_itemChunkBytes (b_pending b)).

(** ** What holds in every state *)

Definition turns (lane : Z) : Z := Z.of_nat (length (lane_waves l k lane)).

Definition in_turn (pc : LeaderPc) : bool := match pc with LReclaim _ _ | LIssue | LReady | LToken => true | _ => false end.

Definition polls : Z := Z.max 1 (waitIterations_ k).

(** The counters of the leader, and the tokens it stores. *)
Definition leader_weak (lane : Z) (ld : Leader) : Prop :=
  1 <= ld_next ld <= ld_sequence ld /\ ld_sequence ld + Z.of_nat (length (ld_work ld)) <= turns lane + 1 /\
  (in_turn (ld_pc ld) = true -> ld_work ld <> []) /\ (forall bank, 0 <= pw_itemChunkBytes (ld_pending ld bank)) /\
  match ld_pc ld with
  | LReclaim h a | LFinal _ h a => a <= polls
  | LToken => pw_sequence (ld_pending ld (bank_of (ld_next ld))) = ld_next ld
  | LDrainToken => pw_sequence (ld_pending ld (bank_of (ld_next ld))) = ld_next ld /\ ld_next ld < ld_sequence ld
  | _ => True
  end.

Definition ready_weak (lane : Z) (ls : LaneState (V:=V)) : Prop :=
  forall bank q, is_u32 q -> ls_ready ls bank = LaneToken k q -> q <= turns lane + 1.

Definition tile_max : Z := ceil_div (chunkBytes l) kReduceGradKernelTileBytes.

Definition helper_weak (lane : Z) (h : Helper (V:=V)) : Prop :=
  1 <= hp_sequence h <= turns lane + 2 /\
  match hp_pc h with
  | HWait _ | HReturned => True
  | HTile it cs tile ai => hp_sequence h <= turns lane + 1 /\ 0 <= tile /\ item_tiles it <= tile_max
  | _ => hp_sequence h <= turns lane + 1
  end.

Record lane_weak (lane : Z) (ls : LaneState (V:=V)) : Prop := {
  lw_leader : leader_weak lane (ls_leader ls);
  lw_ready : ready_weak lane ls;
  lw_item bank : 0 <= nth 2 (ls_item ls bank) 0;
  lw_helpers h : helper_weak lane (ls_helpers ls h);
  lw_queue r : ~ 0 <= r < g_rankSize l -> ls_queue ls r = []
}.

(** ** The measure *)

Definition wait_measure (lane h a : Z) : Z :=
  (helper_count l k lane - h) * (polls + 1) + (polls - a).

Definition wait_max (lane : Z) : Z := helper_count l k lane * (polls + 1) + polls.

Definition turn_cost (lane : Z) : Z := wait_max lane + plan_entries l + 8.

Definition final_cost (lane : Z) : Z := 3 * (wait_max lane + 2) + 4.

(** What the drain and the end of the leader cost. *)
Definition end_cost (lane : Z) (ld : Leader) : Z := 2 * (ld_sequence ld - ld_next ld) + final_cost lane + 1.

Definition leader_measure (lane : Z) (ld : Leader) : Z :=
  let w := Z.of_nat (length (ld_work ld)) in
  let rest := (w - 1) * turn_cost lane + end_cost lane ld in
  match ld_pc ld with
  | LStart => w * turn_cost lane + end_cost lane ld + 2
  | LNext => w * turn_cost lane + end_cost lane ld + 1
  | LReclaim h a => rest + plan_entries l + 6 + Z.max 0 (wait_measure lane h a)
  | LIssue => rest + plan_entries l + 5
  | LReady => rest + 4
  | LToken => rest + 3
  | LDrain => end_cost lane ld
  | LDrainToken => end_cost lane ld - 1
  | LFinal bank h a => Z.max 0 (2 - bank) * (wait_max lane + 2) + 3 + Z.max 0 (wait_measure lane h a)
  | LTerminal => 2
  | LTerminalToken => 1
  | LReturned => 0
  end.

Definition helper_cost : Z := tile_max + polls + 5.

Definition helper_measure (lane : Z) (h : Helper (V:=V)) : Z :=
  let rest := (turns lane + 2 - hp_sequence h) * helper_cost in
  match hp_pc h with
  | HWait a => rest + tile_max + 4 + Z.max 0 (polls - a)
  | HLoad => rest + tile_max + 3
  | HTile it _ tile _ => rest + 2 + Z.max 0 (item_tiles it - tile)
  | HStore _ => rest + 1
  | HReturned => 0
  end.

(** The gets of a queue that have not arrived. *)
Definition flight_rank (ls : LaneState (V:=V)) (r : Z) : Z :=
  zsum (fun i => if ls_arrived ls r i then 0 else 1) (seqZ 0 (Z.of_nat (length (ls_queue ls r)))).

Definition flight (ls : LaneState (V:=V)) : Z := zsum (flight_rank ls) (seqZ 0 (g_rankSize l)).

Definition lane_measure (lane : Z) (ls : LaneState (V:=V)) : Z :=
  leader_measure lane (ls_leader ls) + zsum (fun h => helper_measure lane (ls_helpers ls h)) (seqZ 0 (helper_count l k lane)) + flight ls.

Definition sys_measure (s : System (V:=V)) : Z := zsum (fun lane => lane_measure lane (sy_lanes s lane)) (seqZ 0 (laneCount l)).

(** ** The measure is not negative *)

Lemma polls_pos : 1 <= polls /\ waitIterations_ k <= polls.
Proof using Type. unfold polls. lia. Qed.

Lemma tile_max_pos : 0 <= tile_max.
Proof using Hl.
  unfold tile_max, ceil_div, kReduceGradKernelTileBytes. destruct (gl_chunk l Hl). apply Z.div_pos; lia.
Qed.

Lemma wait_max_pos lane : 0 <= lane < laneCount l -> 0 <= wait_max lane /\ 1 <= helper_count l k lane.
Proof using Hl Hk.
  intros Hlane. pose proof (helper_count_range l k Hl Hk lane Hlane). pose proof polls_pos. unfold wait_max.
  split; [|lia]. assert (0 <= helper_count l k lane * (polls + 1)) by (apply Z.mul_nonneg_nonneg; lia). lia.
Qed.

Lemma end_cost_pos lane ld : 0 <= lane < laneCount l -> leader_weak lane ld -> final_cost lane + 1 <= end_cost lane ld /\ 1 <= final_cost lane.
Proof using Hl Hk. intros Hlane (H1 & _). pose proof (wait_max_pos lane Hlane). unfold end_cost, final_cost. lia. Qed.

Lemma turn_cost_pos lane : 0 <= lane < laneCount l -> 0 <= turn_cost lane /\ 0 <= plan_entries l.
Proof using Hl Hk. intros Hlane. pose proof (wait_max_pos lane Hlane). pose proof (entries_range l Hl). unfold turn_cost. lia. Qed.

Lemma leader_measure_pos lane ld : 0 <= lane < laneCount l -> leader_weak lane ld ->
  0 <= leader_measure lane ld /\ (ld_pc ld <> LReturned -> 1 <= leader_measure lane ld) /\
  (ld_pc ld = LIssue -> plan_entries l + 1 <= leader_measure lane ld).
Proof using Hl Hk.
  intros Hlane Hw. pose proof (end_cost_pos lane ld Hlane Hw). pose proof (turn_cost_pos lane Hlane). pose proof (wait_max_pos lane Hlane).
  destruct Hw as (_ & _ & Hin & _). unfold leader_measure.
  assert (0 <= Z.of_nat (length (ld_work ld)) * turn_cost lane) by (apply Z.mul_nonneg_nonneg; lia).
  assert (in_turn (ld_pc ld) = true -> 0 <= (Z.of_nat (length (ld_work ld)) - 1) * turn_cost lane) as Hrest.
  { intros Ht. specialize (Hin Ht). destruct (ld_work ld); [done|]. apply Z.mul_nonneg_nonneg; cbn; lia. }
  destruct (ld_pc ld) as [| |h a| | | | | |bk h a| | |]; cbn [in_turn] in Hrest; try (specialize (Hrest eq_refl)); (split; [|split; [intros Hne|intros Heq]]); try done; try lia.
  all: assert (0 <= Z.max 0 (2 - bk) * (wait_max lane + 2)) by (apply Z.mul_nonneg_nonneg; lia); lia.
Qed.

Lemma helper_measure_pos lane h : 0 <= lane < laneCount l -> helper_weak lane h ->
  0 <= helper_measure lane h /\ (hp_pc h <> HReturned -> 1 <= helper_measure lane h).
Proof using Hl.
  intros Hlane (H1 & _). pose proof tile_max_pos. pose proof polls_pos. unfold helper_measure.
  assert (0 <= (turns lane + 2 - hp_sequence h) * helper_cost) by (apply Z.mul_nonneg_nonneg; unfold helper_cost; lia).
  destruct (hp_pc h); (split; [|intros ?]); lia || done.
Qed.

Lemma flight_pos ls : 0 <= flight ls.
Proof using Type. apply zsum_nonneg. intros r _. apply zsum_nonneg. intros i _. case_if; lia. Qed.

(** ** The leader *)

Lemma wait_on_measure (ls : LaneState (V:=V)) bank lane q h a h' a' : 0 <= lane < laneCount l -> a <= polls ->
  WaitForHelpers k ls bank (helper_count l k lane) q h a = WaitOn h' a' ->
  a' <= polls /\ Z.max 0 (wait_measure lane h' a') + 1 <= Z.max 0 (wait_measure lane h a).
Proof using Hl Hk.
  intros Hlane Ha. pose proof polls_pos. pose proof (wait_max_pos lane Hlane). unfold WaitForHelpers, wait_measure. case_if; [done|]. b2p.
  case_if; [intros [= <- <-]|case_if; [done|case_if; [done|intros [= <- <-]]]]; b2p.
  - split; [lia|]. replace ((helper_count l k lane - (h + 1)) * (polls + 1)) with ((helper_count l k lane - h) * (polls + 1) - (polls + 1)) by lia.
    assert (1 * (polls + 1) <= (helper_count l k lane - h) * (polls + 1)) by (apply Z.mul_le_mono_nonneg_r; lia). lia.
  - split; [lia|]. assert (0 <= (helper_count l k lane - h) * (polls + 1)) by (apply Z.mul_nonneg_nonneg; lia). lia.
Qed.

Lemma issue_gets lane p bank w q post head flush pw gets sts :
  IssueWave l k lane p bank w q post head flush = (pw, gets, sts) ->
  Z.of_nat (length gets) <= plan_entries l /\ (forall g, g ∈ gets -> 0 <= get_rank g < g_rankSize l) /\ 0 <= pw_itemChunkBytes pw.
Proof using Hl.
  unfold IssueWave. intros [= <- <- _]. pose proof (entries_range l Hl) as He. destruct (gl_slots l Hl) as [S1 _]. split_and!.
  - rewrite <- (length_seqZ0 (plan_entries l)) by lia. unfold issue_entries. generalize (seqZ 0 (plan_entries l)). intros xs.
    induction xs as [|x xs IH] using rev_ind; [done|]. rewrite foldl_app, length_app. cbn [foldl length]. unfold issue_entry at 1.
    repeat case_if; cbn [is_gets]; rewrite ?length_app; cbn [length]; lia.
  - unfold issue_entries. assert (forall x, x ∈ seqZ 0 (plan_entries l) -> 0 <= x / g_prefetchSlots l < g_rankSize l) as Hx.
    { intros x Hx%elem_of_seqZ0. unfold plan_entries in Hx. split; [apply Z.div_pos; lia|apply Z.div_lt_upper_bound; lia]. }
    revert Hx. generalize (seqZ 0 (plan_entries l)). intros xs. induction xs as [|x xs IH] using rev_ind; intros Hx; [by intros g ?%elem_of_nil|].
    assert (forall y, y ∈ xs -> 0 <= y / g_prefetchSlots l < g_rankSize l) as Hx' by (intros y Hy; apply Hx, elem_of_app; by left).
    specialize (IH Hx'). specialize (Hx x ltac:(apply elem_of_app; right; by left)). rewrite foldl_app. cbn [foldl]. unfold issue_entry at 1.
    repeat case_if; cbn [is_gets]; try done. intros g [Hg|Hg]%elem_of_app; [by apply IH|]. apply list_elem_of_singleton in Hg. subst g. done.
  - cbn. unfold MinU64. destruct (gl_chunk l Hl). case_if; [|lia]. pose proof (u64_range (rowBytes l p - u64 (wv_chunk w * chunkBytes l))). lia.
Qed.

Lemma flight_post (ls : LaneState (V:=V)) gets : flight (post_gets ls gets) <= flight ls + Z.of_nat (length gets).
Proof using Type.
  unfold flight. transitivity (zsum (fun r => flight_rank ls r + Z.of_nat (length (filter (fun g => get_rank g = r) gets))) (seqZ 0 (g_rankSize l))).
  - apply zsum_le. intros r _. unfold flight_rank. cbn. rewrite length_app, Nat2Z.inj_add, seqZ_app, zsum_app by lia.
    apply Z.add_le_mono_l. rewrite Z.add_0_l. etrans; [apply (zsum_le _ (fun _ => 1)); intros i _; case_if; lia|].
    rewrite zsum_const, length_seqZ. lia.
  - rewrite zsum_plus. apply Z.add_le_mono_l. induction gets as [|g gets IH]; [cbn; rewrite zsum_const; lia|].
    transitivity (zsum (fun r => (if r =? get_rank g then 1 else 0) + Z.of_nat (length (filter (fun g => get_rank g = r) gets))) (seqZ 0 (g_rankSize l))).
    { apply zsum_le. intros r _. rewrite filter_cons. destruct (Z.eqb_spec r (get_rank g)) as [-> |Hne].
      - rewrite decide_True by done. cbn [length]. lia.
      - rewrite decide_False by congruence. lia. }
    rewrite zsum_plus. cbn [length]. assert (zsum (fun r => if r =? get_rank g then 1 else 0) (seqZ 0 (g_rankSize l)) <= 1); [|lia].
    destruct (decide (get_rank g ∈ seqZ 0 (g_rankSize l))) as [Hin|Hout].
    + rewrite (zsum_single _ _ (get_rank g) (NoDup_seqZ _ _) Hin), Z.eqb_refl; [lia|]. intros r _ Hne. by rewrite (proj2 (Z.eqb_neq _ _)).
    + rewrite (zsum_ext _ (fun _ => 0)), zsum_const; [lia|]. intros r Hr. destruct (Z.eqb_spec r (get_rank g)) as [-> |]; done.
Qed.

(** A step of the leader that only moves it. *)
Lemma weak_at lane ls pc : lane_weak lane ls -> leader_weak lane (leader_at (ls_leader ls) pc) ->
  lane_weak lane (set_leader ls (leader_at (ls_leader ls) pc)).
Proof using Type. intros [] Hl'. constructor; done. Qed.

Lemma leader_weak_at lane ld pc : leader_weak lane ld -> (in_turn pc = true -> ld_work ld <> []) ->
  match pc with
  | LReclaim h a | LFinal _ h a => a <= polls
  | LToken => pw_sequence (ld_pending ld (bank_of (ld_next ld))) = ld_next ld
  | LDrainToken => pw_sequence (ld_pending ld (bank_of (ld_next ld))) = ld_next ld /\ ld_next ld < ld_sequence ld
  | _ => True
  end -> leader_weak lane (leader_at ld pc).
Proof using Type. intros (H1 & H2 & H3 & H4 & _) Hin Hm. exact (conj H1 (conj H2 (conj Hin (conj H4 Hm)))). Qed.

(** What a step of a leader is asked for. *)
Definition leader_goal (lane : Z) (ls ls' : LaneState (V:=V)) : Prop :=
  lane_weak lane ls' /\ ls_helpers ls' = ls_helpers ls /\
  leader_measure lane (ls_leader ls') + flight ls' + 1 <= leader_measure lane (ls_leader ls) + flight ls.

Lemma fail_goal lane ls ls2 sh sts gets : 0 <= lane < laneCount l -> lane_weak lane ls ->
  (ls2 = ls /\ gets = [] /\ ld_pc (ls_leader ls) <> LReturned \/
   ls2 = post_gets ls gets /\ ld_pc (ls_leader ls) = LIssue /\ Z.of_nat (length gets) <= plan_entries l /\ forall g, g ∈ gets -> 0 <= get_rank g < g_rankSize l) ->
  leader_goal lane ls (fst (fail_leader k ls2 sh sts)).
Proof using Hl Hk.
  intros Hlane Hw Hor. destruct (leader_measure_pos lane (ls_leader ls) Hlane (lw_leader _ _ Hw)) as (_ & M1 & M2).
  assert (leader_weak lane (leader_at (ls_leader ls) LReturned)) as Hlw by (apply leader_weak_at; [apply Hw|done|done]).
  destruct Hor as [(-> & _ & Hne)|(-> & Hpc & Hlen & Hrk)]; unfold leader_goal, fail_leader; cbn [fst].
  - split_and!; [destruct Hw; constructor; done|done|]. change (flight _) with (flight ls) at 1. change (leader_measure lane _) with 0 at 1. specialize (M1 Hne). lia.
  - pose proof (flight_post ls gets) as Hf. split_and!; [destruct Hw as [W1 W2 W5 W3 W4]; constructor; try done|done|].
    + intros r Hr. cbn. rewrite W4 by done. cbn. apply elem_of_nil_inv. intros g Hg.
      apply list_elem_of_filter in Hg as [<- Hg]. by apply Hr, Hrk.
    + change (flight _) with (flight (post_gets ls gets)) at 1. change (leader_measure lane _) with 0 at 1. specialize (M2 Hpc). lia.
Qed.

Lemma goto_goal lane ls pc : lane_weak lane ls -> leader_weak lane (leader_at (ls_leader ls) pc) ->
  leader_measure lane (leader_at (ls_leader ls) pc) + 1 <= leader_measure lane (ls_leader ls) ->
  leader_goal lane ls (set_leader ls (leader_at (ls_leader ls) pc)).
Proof using Type. intros Hw Hlw Hm. split_and!; [by apply weak_at|done|]. change (flight (set_leader _ _)) with (flight ls). cbn [set_leader ls_leader]. lia. Qed.

(** The measure of the leader where it is. *)
Ltac at_pc Ep := unfold leader_measure, end_cost; rewrite Ep; cbn [leader_at ld_pc ld_work ld_sequence ld_next].

Lemma work_turn lane ld : (in_turn (ld_pc ld) = true -> ld_work ld <> []) -> in_turn (ld_pc ld) = true ->
  exists w rest, ld_work ld = w :: rest /\ (Z.of_nat (length (ld_work ld)) - 1) * turn_cost lane = Z.of_nat (length rest) * turn_cost lane.
Proof using Type.
  intros H Ht. specialize (H Ht). destruct (ld_work ld) as [|w rest]; [done|]. exists w, rest. split; [done|]. f_equal. cbn. lia.
Qed.

Lemma issue_goal o lane ls w rest pw gets : 0 <= lane < laneCount l -> lane_weak lane ls -> ld_pc (ls_leader ls) = LIssue ->
  ld_work (ls_leader ls) = w :: rest ->
  IssueWave l k lane (ProjectionForLane l lane) (bank_of (ld_sequence (ls_leader ls))) w (ld_sequence (ls_leader ls)) (o_post o)
    (fun rank => Z.of_nat (length (ls_queue ls rank))) (o_flush o) = (pw, gets, []) ->
  leader_goal lane ls (set_leader (post_gets ls gets)
    (if kReduceGradBankCount <=? ld_sequence (ls_leader ls) then issue (ls_leader ls) (bank_of (ld_sequence (ls_leader ls))) pw
     else next_turn (issue (ls_leader ls) (bank_of (ld_sequence (ls_leader ls))) pw))).
Proof using Hl Hk Hwaves.
  intros Hlane Hw Ep Ework Hiw. destruct (issue_gets _ _ _ _ _ _ _ _ _ _ _ Hiw) as (I1 & I2 & I3). pose proof (flight_post ls gets) as Hf.
  destruct Hw as [(L1 & L2 & L3 & L4 & _) W2 W5 W3 W4]. specialize (Hwaves lane Hlane). fold (turns lane) in Hwaves. unfold UINT32_MAX in Hwaves.
  assert (forall r, ~ 0 <= r < g_rankSize l -> ls_queue (post_gets ls gets) r = []) as Hq.
  { intros r Hr. cbn. rewrite W4 by done. cbn. apply elem_of_nil_inv. intros g Hg. apply list_elem_of_filter in Hg as [<- Hg]. by apply Hr, I2. }
  assert (forall bank, 0 <= pw_itemChunkBytes (upd1 (ld_pending (ls_leader ls)) (bank_of (ld_sequence (ls_leader ls))) pw bank)) as L4'.
  { intros bank. unfold upd1. case_if; [done|apply L4]. }
  unfold leader_goal, kReduceGradBankCount. rewrite Ework in L2. cbn [length] in L2.
  destruct (Z.leb_spec 2 (ld_sequence (ls_leader ls))); (split_and!; [constructor; try done|done|]).
  - refine (conj L1 (conj _ (conj _ (conj L4' I)))); cbn; rewrite Ework; [cbn; lia|done].
  - change (flight (set_leader _ _)) with (flight (post_gets ls gets)). cbn [set_leader ls_leader]. at_pc Ep. cbn [issue ld_pc ld_work ld_sequence ld_next]. lia.
  - unfold next_turn. cbn [issue ld_work ld_sequence ld_next ld_pending ld_issued ld_published ld_bankSequence].
    rewrite u32_small by lia. refine (conj _ (conj _ (conj _ (conj L4' I)))); cbn; rewrite ?Ework; [lia|cbn; lia|done].
  - change (flight (set_leader _ _)) with (flight (post_gets ls gets)). cbn [set_leader ls_leader]. at_pc Ep.
    cbn [issue next_turn ld_pc ld_work ld_sequence ld_next]. rewrite u32_small by lia. rewrite Ework. cbn [tl length].
    replace (Z.of_nat (S (length rest)) - 1) with (Z.of_nat (length rest)) by lia. lia.
Qed.

Lemma complete_goal o lane ls (sh : Shared (V:=V)) pc : 0 <= lane < laneCount l -> lane_weak lane ls -> let ld := ls_leader ls in
  ld_pc ld = LReady /\ pc = LToken \/ ld_pc ld = LDrain /\ pc = LDrainToken /\ ld_next ld < ld_sequence ld ->
  forall r, match complete_next l o ld with
  | inr statuses => Some (fail_leader k ls sh statuses)
  | inl ready => Some (set_leader (store_item ls (bank_of (ld_next ld)) (PublishItem (work_item k ready))) (leader_at ld pc), sh)
  end = Some r -> leader_goal lane ls (fst r).
Proof using Hl Hk.
  intros Hlane Hw ld Hpc r. assert (ld_pc ld <> LReturned) as Hne by (destruct Hpc as [[-> _]|[-> _]]; done).
  unfold complete_next. destruct (ld_issued ld (bank_of (ld_next ld))); cbn [negb orb].
  2: { intros [= <-]. apply (fail_goal lane ls ls sh _ []); try done. by left. }
  destruct (Z.eqb_spec (pw_sequence (ld_pending ld (bank_of (ld_next ld)))) (ld_next ld)) as [Es|]; cbn [negb].
  2: { intros [= <-]. apply (fail_goal lane ls ls sh _ []); try done. by left. }
  destruct (CompleteWave _ _ _).
  2: { intros [= <-]. apply (fail_goal lane ls ls sh _ []); try done. by left. }
  intros [= <-]. cbn [fst]. destruct Hw as [Lw W2 W5 W3 W4]. fold ld in Lw. split_and!; [constructor; try done|done|].
  - apply leader_weak_at; [done| |destruct Hpc as [[_ ->]|(_ & -> & ?)]; done].
    destruct Lw as (_ & _ & L3 & _). destruct Hpc as [[Ep ->]|(_ & -> & _)]; [|done]. rewrite Ep in L3. done.
  - intros bank. cbn. unfold upd1. case_if; [|apply W5]. cbn. apply Lw.
  - change (flight (set_leader _ _)) with (flight ls). cbn [set_leader ls_leader]. fold ld.
    destruct Hpc as [[Ep ->]|(Ep & -> & _)]; at_pc Ep; lia.
Qed.

Lemma publish_goal lane ls (ld' : Leader) : 0 <= lane < laneCount l -> lane_weak lane ls -> let ld := ls_leader ls in
  ld_pc ld = LToken /\ ld' = next_turn (published_ready ld LNext) \/ ld_pc ld = LDrainToken /\ ld' = published_ready ld LDrain ->
  leader_goal lane ls (set_leader (store_ready ls (bank_of (ld_next ld)) (LaneToken k (pw_sequence (ld_pending ld (bank_of (ld_next ld)))))) ld').
Proof using Hl Hk Hwaves.
  intros Hlane Hw ld Hpc. destruct Hw as [Lw W2 W5 W3 W4]. fold ld in Lw. specialize (Hwaves lane Hlane). fold (turns lane) in Hwaves. unfold UINT32_MAX in Hwaves.
  assert (leader_weak lane ld' /\ leader_measure lane ld' + 1 <= leader_measure lane ld) as [Lw' Lm].
  { pose proof (turn_cost_pos lane Hlane). destruct Lw as (L1 & L2 & L3 & L4 & L5). clearbody ld. destruct Hpc as [[Ep ->]|[Ep ->]]; rewrite Ep in L3, L5.
    - destruct (ld_work ld) as [|w rest] eqn:Ew; [by exfalso; apply L3|]. cbn [length] in L2.
      unfold next_turn, published_ready. cbn [ld_work ld_sequence ld_next ld_pending ld_issued ld_published ld_bankSequence]. rewrite Ew. cbn [tl].
      rewrite !u32_small by lia. split.
      + refine (conj _ (conj _ (conj _ (conj L4 I)))); cbn; [lia|lia|done].
      + at_pc Ep. rewrite Ew. cbn [length]. replace (Z.of_nat (S (length rest)) - 1) with (Z.of_nat (length rest)) by lia. lia.
    - unfold published_ready. rewrite u32_small by lia. split.
      + refine (conj _ (conj L2 (conj _ (conj L4 I)))); cbn; [lia|done].
      + at_pc Ep. lia. }
  split_and!; [constructor; try done|done|].
  - intros bank q Hq. cbn. unfold upd1. destruct (Z.eqb_spec bank (bank_of (ld_next ld))); [|by apply W2].
    intros E. destruct Lw as (L1 & L2 & _ & _ & L5).
    assert (pw_sequence (ld_pending ld (bank_of (ld_next ld))) = ld_next ld) as Es by (destruct Hpc as [[Ep _]|[Ep _]]; rewrite Ep in L5; [done|by destruct L5]).
    rewrite Es in E. apply lane_token_inj in E; [lia|unfold is_u32, UINT32_MAX; lia|done].
  - change (flight (set_leader _ _)) with (flight ls). cbn [set_leader ls_leader]. fold ld. lia.
Qed.

Lemma terminal_goal lane ls : 0 <= lane < laneCount l -> lane_weak lane ls -> let ld := ls_leader ls in
  (ld_pc ld = LTerminal -> leader_goal lane ls
     (set_leader (store_item ls (bank_of (ld_sequence ld)) (PublishItem (terminal_item k (ld_sequence ld)))) (leader_at ld LTerminalToken))) /\
  (ld_pc ld = LTerminalToken -> leader_goal lane ls
     (set_leader (store_ready ls (bank_of (ld_sequence ld)) (LaneToken k (ld_sequence ld))) (leader_at ld LReturned))).
Proof using Hwaves.
  intros Hlane Hw ld. destruct Hw as [Lw W2 W5 W3 W4]. fold ld in Lw. specialize (Hwaves lane Hlane). fold (turns lane) in Hwaves. unfold UINT32_MAX in Hwaves.
  split; intros Ep; (split_and!; [constructor; try done; try (by apply leader_weak_at)|done|]).
  - intros bank. cbn. unfold upd1. case_if; [cbn; lia|apply W5].
  - change (flight (set_leader _ _)) with (flight ls). cbn [set_leader ls_leader]. fold ld. at_pc Ep. lia.
  - intros bank q Hq. cbn. unfold upd1. destruct (Z.eqb_spec bank (bank_of (ld_sequence ld))); [|by apply W2].
    destruct Lw as (L1 & L2 & _). intros E. apply lane_token_inj in E; [lia|unfold is_u32, UINT32_MAX; lia|done].
  - change (flight (set_leader _ _)) with (flight ls). cbn [set_leader ls_leader]. fold ld. at_pc Ep. lia.
Qed.

Lemma final_goal lane ls bk h a : 0 <= lane < laneCount l -> lane_weak lane ls -> let ld := ls_leader ls in
  ld_pc ld = LFinal bk h a -> (kReduceGradBankCount <= bk -> leader_goal lane ls (set_leader ls (leader_at ld LTerminal))) /\
  (bk < kReduceGradBankCount -> leader_goal lane ls (set_leader ls (leader_at ld (LFinal (bk + 1) 0 0)))).
Proof using Hl Hk.
  intros Hlane Hw ld Ep. pose proof polls_pos. pose proof (wait_max_pos lane Hlane). unfold kReduceGradBankCount. split; intros Hb; apply goto_goal; try done.
  - apply leader_weak_at; [apply Hw|done|done].
  - fold ld. at_pc Ep. assert (0 <= Z.max 0 (2 - bk) * (wait_max lane + 2)) by (apply Z.mul_nonneg_nonneg; lia). lia.
  - apply leader_weak_at; [apply Hw|done|lia].
  - fold ld. at_pc Ep. rewrite (Z.max_r 0 (2 - bk)), (Z.max_r 0 (2 - (bk + 1))) by lia.
    assert (wait_measure lane 0 0 = wait_max lane) as -> by (unfold wait_measure, wait_max; lia). lia.
Qed.

Lemma leader_bound o lane ls (sh : Shared (V:=V)) r : 0 <= lane < laneCount l -> lane_weak lane ls ->
  leader_step l k o lane ls sh = Some r -> leader_goal lane ls (fst r).
Proof using Hl Hk Hwaves.
  intros Hlane Hw. pose proof polls_pos as Hpolls. pose proof (turn_cost_pos lane Hlane) as Htc. pose proof (wait_max_pos lane Hlane) as Hwm.
  assert (turn_cost lane = wait_max lane + plan_entries l + 8) as Htc2 by done.
  pose proof (lw_leader _ _ Hw) as Lw. pose proof Lw as (L1 & L2 & L3 & L4 & L5).
  assert (ld_pc (ls_leader ls) <> LReturned -> forall sts, leader_goal lane ls (fst (fail_leader k ls sh sts))) as Hfail.
  { intros Hne sts. apply (fail_goal lane ls ls sh sts []); try done. by left. }
  unfold leader_step. cbv zeta. fold (helper_count l k lane).
  destruct (ld_pc (ls_leader ls)) as [| |h a| | | | | |bk h a| | |] eqn:Ep; cbn [in_turn] in L3.
  - case_if; intros [= <-]; [by apply Hfail|]. apply goto_goal; [done|by apply leader_weak_at|]. at_pc Ep. lia.
  - destruct (ld_work (ls_leader ls)) as [|w rest] eqn:Ew; intros [= <-]; apply goto_goal; try done.
    + by apply leader_weak_at.
    + at_pc Ep. rewrite Ew. cbn [length]. lia.
    + apply leader_weak_at; [done|by rewrite Ew|]. case_if; [lia|done].
    + unfold leader_measure, end_cost. rewrite Ep. case_if; cbn [leader_at ld_pc ld_work ld_sequence ld_next]; rewrite Ew; cbn [length];
        replace (Z.of_nat (S (length rest)) - 1) with (Z.of_nat (length rest)) by lia;
        replace (Z.of_nat (S (length rest)) * turn_cost lane) with (Z.of_nat (length rest) * turn_cost lane + turn_cost lane) by lia.
      * assert (wait_measure lane 0 0 = wait_max lane) as -> by (unfold wait_measure, wait_max; lia). lia.
      * lia.
  - destruct (WaitForHelpers _ _ _ _ _ _ _) as [|h' a'| |] eqn:Ewt; intros [= <-]; [| | |by apply Hfail].
    + unfold leader_goal. cbn [fst]. split_and!; [destruct Hw; constructor; try done; exact (conj L1 (conj L2 (conj (fun _ => L3 eq_refl) (conj L4 I))))|done|].
      change (flight (set_leader _ _)) with (flight ls). cbn [set_leader ls_leader]. at_pc Ep. cbn [unpublish ld_pc ld_work ld_sequence ld_next]. lia.
    + apply (wait_on_measure _ _ lane) in Ewt as [Ha' Hm]; try done. apply goto_goal; [done|apply leader_weak_at; [done|intros _; by apply L3|done]|]. at_pc Ep. lia.
    + apply goto_goal; [done|by apply leader_weak_at|].
      destruct (leader_measure_pos lane (ls_leader ls) Hlane Lw) as (_ & M1 & _). rewrite Ep in M1. specialize (M1 ltac:(done)).
      change (leader_measure lane (leader_at (ls_leader ls) LReturned)) with 0. lia.
  - destruct (ld_work (ls_leader ls)) as [|w rest] eqn:Ew; [done|]. case_if; [intros [= <-]; by apply Hfail|].
    destruct (IssueWave _ _ _ _ _ _ _ _ _ _) as [[pw gets] sts] eqn:Eiw. destruct sts as [|v vs]; intros [= <-].
    + by eapply issue_goal.
    + destruct (issue_gets _ _ _ _ _ _ _ _ _ _ _ Eiw) as (I1 & I2 & _). apply (fail_goal lane ls _ sh _ gets); try done. by right.
  - intros Hs. eapply complete_goal; try done. by left.
  - intros [= <-]. apply publish_goal; try done. by left.
  - destruct (Z.ltb_spec (ld_next (ls_leader ls)) (ld_sequence (ls_leader ls))).
    + intros Hs. eapply complete_goal; try done. by right.
    + intros [= <-]. apply goto_goal; [done|apply leader_weak_at; [done|done|lia]|]. at_pc Ep.
      assert (wait_measure lane 0 0 = wait_max lane) as -> by (unfold wait_measure, wait_max; lia).
      unfold final_cost. rewrite !Z.max_r by lia. lia.
  - intros [= <-]. apply publish_goal; try done. by right.
  - destruct (final_goal lane ls bk h a Hlane Hw Ep) as [F1 F2]. destruct (Z.leb_spec kReduceGradBankCount bk) as [Hb|Hb]; [intros [= <-]; by apply F1|].
    case_if; [intros [= <-]; by apply F2|]. destruct (WaitForHelpers _ _ _ _ _ _ _) as [|h' a'| |] eqn:Ewt; intros [= <-]; [by apply F2| | |by apply Hfail].
    + apply (wait_on_measure _ _ lane) in Ewt as [Ha' Hm]; try done. apply goto_goal; [done|by apply leader_weak_at|]. at_pc Ep. lia.
    + apply goto_goal; [done|by apply leader_weak_at|].
      destruct (leader_measure_pos lane (ls_leader ls) Hlane Lw) as (_ & M1 & _). rewrite Ep in M1. specialize (M1 ltac:(done)).
      change (leader_measure lane (leader_at (ls_leader ls) LReturned)) with 0. lia.
  - intros [= <-]. by apply terminal_goal.
  - intros [= <-]. by apply terminal_goal.
  - done.
Qed.

(** ** A helper *)

Lemma item_tiles_max it cs : item_contributors l k it = Some cs -> 0 <= it_chunkBytes it -> item_tiles it <= tile_max.
Proof using Hl.
  intros Hc H0. unfold item_contributors in Hc. case_if_in Hc; [done|]. b2p. destruct (gl_chunk l Hl) as [G _]. unfold UINT32_MAX in G.
  unfold item_tiles, tile_max. rewrite ceil_div_u64 by (unfold kReduceGradKernelTileBytes, UINT64_MAX; lia). unfold ceil_div.
  apply Z.div_le_mono; [unfold kReduceGradKernelTileBytes; lia|]. lia.
Qed.

(** What a step of helper [h] is asked for: [ls'] differs from [ls] in its helper and in words that
    do not count. *)
Definition helper_goal (lane h : Z) (ls ls' : LaneState (V:=V)) : Prop :=
  exists hp', ls_helpers ls' = upd1 (ls_helpers ls) h hp' /\ ls_leader ls' = ls_leader ls /\ ls_ready ls' = ls_ready ls /\
    ls_item ls' = ls_item ls /\ ls_queue ls' = ls_queue ls /\ ls_arrived ls' = ls_arrived ls /\ helper_weak lane hp' /\
    helper_measure lane hp' + 1 <= helper_measure lane (ls_helpers ls h).

Lemma helper_bound lane h ls sh r : 0 <= lane < laneCount l -> lane_weak lane ls -> 0 <= h < helper_count l k lane ->
  helper_step l k vadd sources lane h (helper_count l k lane) ls sh = Some r -> helper_goal lane h ls (fst r).
Proof using Hl Hk Hwaves.
  intros Hlane Hw Hh. pose proof (lw_helpers _ _ Hw h) as Hhw. pose proof Hhw as (H1 & H2). pose proof tile_max_pos as Htm. pose proof polls_pos as Hpp.
  specialize (Hwaves lane Hlane). fold (turns lane) in Hwaves. unfold UINT32_MAX in Hwaves.
  destruct (helper_measure_pos lane (ls_helpers ls h) Hlane Hhw) as [_ Hpos].
  assert (forall hp', helper_weak lane hp' -> helper_measure lane hp' + 1 <= helper_measure lane (ls_helpers ls h) ->
    helper_goal lane h ls (set_helper ls h hp')) as Hgo by (intros hp' Hx Hm; exists hp'; done).
  unfold helper_step. cbv zeta. destruct (hp_pc (ls_helpers ls h)) as [a| |it cs tile ai|last|] eqn:Epc; try (specialize (Hpos ltac:(done))).
  - destruct (Z.eqb_spec (ls_ready ls (bank_of (hp_sequence (ls_helpers ls h)))) (LaneToken k (hp_sequence (ls_helpers ls h)))) as [Er|Er].
    { intros [= <-]. apply Hgo; [|unfold helper_measure; rewrite Epc; cbn; lia]. split; [done|]. cbn.
      apply (lw_ready _ _ Hw (bank_of (hp_sequence (ls_helpers ls h)))); [unfold is_u32, UINT32_MAX; lia|done]. }
    assert (helper_weak lane (helper_at (ls_helpers ls h) HReturned)) as Hx by done.
    case_if; [intros [= <-]; by apply Hgo|]. case_if; intros [= <-].
    + exists (helper_at (ls_helpers ls h) HReturned). split_and!; done.
    + b2p. apply Hgo; [done|]. unfold helper_measure. rewrite Epc. cbn [helper_at hp_pc hp_sequence]. lia.
  - assert (forall last, helper_weak lane (helper_at (ls_helpers ls h) (HStore last)) /\
      helper_measure lane (helper_at (ls_helpers ls h) (HStore last)) + 1 <= helper_measure lane (ls_helpers ls h)) as Hst.
    { intros last. split; [done|]. unfold helper_measure. rewrite Epc. cbn [helper_at hp_pc hp_sequence]. lia. }
    case_if; [intros [= <-]; by apply Hgo; apply Hst|]. case_if; [intros [= <-]; by apply Hgo; apply Hst|].
    case_if; [|intros [= <-]; by apply Hgo; apply Hst]. unfold begin_item. destruct (item_contributors _ _ _) as [cs|] eqn:Ec; [|intros [= <-]; by apply Hgo; apply Hst].
    destruct (Z.leb_spec (item_tiles (LoadItem (ls_item ls (bank_of (hp_sequence (ls_helpers ls h)))))) h); intros [= <-]; [by apply Hgo; apply Hst|].
    pose proof (item_tiles_max _ _ Ec (lw_item _ _ Hw _)) as Hmax. apply Hgo.
    + split; [done|]. cbn [hp_pc hp_sequence]. split_and!; lia || done.
    + unfold helper_measure. rewrite Epc. cbn [hp_pc hp_sequence]. lia.
  - destruct H2 as (H2 & H3 & H4). unfold tile_step. destruct (AccumulateTile _ _ _ _ _ _ _ _ _ _ _ _ _ _ _ _) as [g' ub']. intros [= <-]. apply Hgo.
    + split; [done|]. cbn [hp_pc hp_sequence]. case_if; [split_and!; lia|done].
    + unfold helper_measure. rewrite Epc. cbn [hp_pc hp_sequence]. destruct (Z.ltb_spec (tile + helper_count l k lane) (item_tiles it)); lia.
  - intros [= <-]. cbn [fst].
    assert (helper_weak lane (if last then helper_at (ls_helpers ls h) HReturned
        else {| hp_pc := HWait 0; hp_sequence := (hp_sequence (ls_helpers ls h) + 1)%u32; hp_ub := hp_ub (ls_helpers ls h) |}) /\
      helper_measure lane (if last then helper_at (ls_helpers ls h) HReturned
        else {| hp_pc := HWait 0; hp_sequence := (hp_sequence (ls_helpers ls h) + 1)%u32; hp_ub := hp_ub (ls_helpers ls h) |}) + 1 <=
      helper_measure lane (ls_helpers ls h)) as [Hx Hm].
    { destruct last; [done|]. rewrite u32_small by lia. split; [split; [cbn; lia|done]|]. unfold helper_measure. rewrite Epc. cbn [hp_pc hp_sequence].
      replace (turns lane + 2 - (hp_sequence (ls_helpers ls h) + 1)) with (turns lane + 2 - hp_sequence (ls_helpers ls h) - 1) by lia.
      rewrite Z.mul_sub_distr_r, Z.mul_1_l. unfold helper_cost at 2. rewrite (Z.max_r 0 (polls - 0)) by lia. lia. }
    eexists. split_and!; done.
  - done.
Qed.

(** ** The system *)

Lemma helper_weak_lane lane h ls ls' : lane_weak lane ls -> helper_goal lane h ls ls' -> lane_weak lane ls'.
Proof using Type.
  intros [L R It Hs Q] (hp' & E1 & E2 & E3 & E4 & E5 & _ & Hx & _). constructor; rewrite ?E1, ?E2, ?E4; try done.
  - unfold ready_weak. rewrite E3. exact R.
  - intros h2. unfold upd1. case_if; [done|apply Hs].
  - intros r. rewrite E5. apply Q.
Qed.

Lemma helper_lane_measure lane h ls ls' : 0 <= lane < laneCount l -> 0 <= h < helper_count l k lane -> helper_goal lane h ls ls' ->
  lane_measure lane ls' + 1 <= lane_measure lane ls.
Proof using Type.
  intros Hlane Hh (hp' & E1 & E2 & E3 & E4 & E5 & E6 & Hx & Hm). unfold lane_measure, flight, flight_rank. rewrite E1, E2, E5, E6.
  rewrite (zsum_change (fun h2 => helper_measure lane (upd1 (ls_helpers ls) h hp' h2)) (fun h2 => helper_measure lane (ls_helpers ls h2))
    (seqZ 0 (helper_count l k lane)) h (NoDup_seqZ _ _)); [|by apply elem_of_seqZ0|intros h2 _ Hne; by rewrite upd1_ne].
  rewrite upd1_eq. lia.
Qed.

Lemma arrive_lane_measure lane ls r i g : 0 <= lane < laneCount l -> lane_weak lane ls -> ls_queue ls r !! Z.to_nat i = Some g -> 0 <= i ->
  ls_arrived ls r i = false ->
  let ls' := {| ls_ready := ls_ready ls; ls_item := ls_item ls; ls_done := ls_done ls; ls_abort := ls_abort ls; ls_queue := ls_queue ls;
     ls_arrived := upd1 (ls_arrived ls) r (upd1 (ls_arrived ls r) i true); ls_leader := ls_leader ls; ls_helpers := ls_helpers ls |} in
  lane_weak lane ls' /\ lane_measure lane ls' + 1 <= lane_measure lane ls.
Proof using Type.
  intros Hlane Hw Hg Hi Ha ls'. split; [destruct Hw; constructor; done|].
  assert (0 <= r < g_rankSize l) as Hr.
  { destruct (decide (0 <= r < g_rankSize l)) as [|Hn]; [done|]. rewrite (lw_queue _ _ Hw r Hn) in Hg. done. }
  unfold lane_measure. cbn [ls' ls_leader ls_helpers]. assert (flight ls' + 1 <= flight ls); [|lia]. unfold flight.
  rewrite (zsum_change (flight_rank ls') (flight_rank ls) (seqZ 0 (g_rankSize l)) r (NoDup_seqZ _ _)); [|by apply elem_of_seqZ0|].
  - unfold flight_rank. cbn [ls' ls_queue ls_arrived]. rewrite upd1_eq. pose proof (lookup_lt_Some _ _ _ Hg).
    rewrite (zsum_change (fun i0 => if upd1 (ls_arrived ls r) i true i0 then 0 else 1) (fun i0 => if ls_arrived ls r i0 then 0 else 1)
      (seqZ 0 (Z.of_nat (length (ls_queue ls r)))) i (NoDup_seqZ _ _)); [rewrite upd1_eq, Ha; lia|apply elem_of_seqZ0; lia|].
    intros i2 _ Hne. by rewrite upd1_ne.
  - intros r2 _ Hne. unfold flight_rank. cbn [ls' ls_queue ls_arrived]. by rewrite upd1_ne.
Qed.

Definition sys_weak (s : System (V:=V)) : Prop := forall lane, 0 <= lane < laneCount l -> lane_weak lane (sy_lanes s lane).

Lemma set_lane_weak s lane ls' sh' : sys_weak s -> 0 <= lane < laneCount l -> lane_weak lane ls' ->
  lane_measure lane ls' + 1 <= lane_measure lane (sy_lanes s lane) ->
  sys_weak (set_lane s lane (ls', sh')) /\ sys_measure (set_lane s lane (ls', sh')) + 1 <= sys_measure s.
Proof using Type.
  intros Hs Hlane Hw Hm. split.
  - intros lane2 Hl2. cbn. unfold upd1. destruct (Z.eqb_spec lane2 lane) as [-> |]; [done|by apply Hs].
  - unfold sys_measure. cbn. rewrite (zsum_change (fun lane2 => lane_measure lane2 (upd1 (sy_lanes s) lane ls' lane2))
      (fun lane2 => lane_measure lane2 (sy_lanes s lane2)) (seqZ 0 (laneCount l)) lane (NoDup_seqZ _ _));
      [|by apply elem_of_seqZ0|intros lane2 _ Hne; by rewrite upd1_ne]. rewrite upd1_eq. lia.
Qed.

Lemma skip_weak s s' blockIdx : sys_weak s -> 0 <= blockIdx < blockCount k -> skip_step l k blockIdx s = Some s' ->
  sys_weak s' /\ sys_measure s' + 1 <= sys_measure s.
Proof using Hl Hk.
  intros Hs Hb. unfold skip_step. case_if; [done|]. destruct (Z.ltb_spec blockIdx (laneCount l)) as [Hlt|Hge].
  - pose proof (Hs blockIdx ltac:(lia)) as Hw. pose proof (lw_leader _ _ Hw) as Hld.
    destruct (leader_measure_pos blockIdx _ ltac:(lia) Hld) as (_ & M & _). destruct (ld_pc _) eqn:Epc; try done. intros [= <-].
    specialize (M ltac:(done)). set (ld := leader_at (ls_leader (sy_lanes s blockIdx)) LReturned).
    assert (flight (set_leader (sy_lanes s blockIdx) ld) = flight (sy_lanes s blockIdx)) as Ef by done.
    assert (leader_measure blockIdx ld = 0) as E0 by done.
    apply set_lane_weak; [done|lia| |unfold lane_measure; rewrite Ef; cbn [set_leader ls_leader ls_helpers]; rewrite E0; lia].
    destruct Hld as (L1 & L2 & L3 & L4 & _). destruct Hw as [_ R It Hh Q]. constructor; try done.
  - destruct (HelperLane l k blockIdx) as [[lane h] c] eqn:Eh. apply (helper_lane_inv l k Hl Hk) in Eh as (H1 & -> & H3 & _); [|lia].
    pose proof (Hs lane H1) as Hw. pose proof (lw_helpers _ _ Hw h) as Hh.
    destruct (helper_measure_pos lane _ H1 Hh) as [_ M]. destruct (hp_pc _) as [[| |]| | | |] eqn:Epc; try done. case_if; [|done]. intros [= <-].
    specialize (M ltac:(done)).
    assert (helper_goal lane h (sy_lanes s lane) (set_helper (sy_lanes s lane) h (helper_at (ls_helpers (sy_lanes s lane) h) HReturned))) as Hg.
    { eexists. split_and!; try done. by destruct Hh. }
    apply set_lane_weak; [done|done|by eapply helper_weak_lane|by eapply helper_lane_measure].
Qed.

Lemma step_weak s s' : sys_weak s -> gstep l k vadd sources s s' -> sys_weak s' /\ sys_measure s' + 1 <= sys_measure s.
Proof using Hl Hk Hwaves.
  intros Hs [blockIdx o s2 Hb Ho Hst|blockIdx s2 Hb Hst|lane r i g Hlane Hg Hi0 Ha]; [|by eapply skip_weak|].
  - unfold block_step in Hst. destruct (Z.ltb_spec blockIdx (laneCount l)) as [Hlt|Hge].
    + apply fmap_Some in Hst as ([ls' sh'] & Hst & ->). destruct (leader_bound o blockIdx _ _ _ ltac:(lia) (Hs blockIdx ltac:(lia)) Hst) as (G1 & G2 & G3).
      apply set_lane_weak; [done|lia|done|]. unfold lane_measure. cbn [fst] in *. rewrite G2. lia.
    + destruct (HelperLane l k blockIdx) as [[lane h] c] eqn:Eh. apply (helper_lane_inv l k Hl Hk) in Eh as (H1 & -> & H3 & _); [|lia].
      apply fmap_Some in Hst as ([ls' sh'] & Hst & ->). pose proof (helper_bound lane h _ _ _ H1 (Hs lane H1) H3 Hst) as Hg. cbn [fst] in Hg.
      apply set_lane_weak; [done|done|by eapply helper_weak_lane; [apply Hs|]|by eapply helper_lane_measure].
  - destruct (arrive_lane_measure lane _ r i g Hlane (Hs lane Hlane) Hg Hi0 Ha) as [A1 A2]. by apply set_lane_weak.
Qed.

Lemma sys_measure_pos s : sys_weak s -> 0 <= sys_measure s.
Proof using Hl Hk.
  intros Hs. apply zsum_nonneg. intros lane Hlane%elem_of_seqZ0. specialize (Hs lane Hlane). unfold lane_measure.
  destruct (leader_measure_pos lane _ Hlane (lw_leader _ _ Hs)) as (M & _). pose proof (flight_pos (sy_lanes s lane)).
  assert (0 <= zsum (fun h => helper_measure lane (ls_helpers (sy_lanes s lane) h)) (seqZ 0 (helper_count l k lane))); [|lia].
  apply zsum_nonneg. intros h _. by apply helper_measure_pos; [|apply Hs].
Qed.

Lemma start_weak : sys_weak (gstart l k b).
Proof using Hready Hitem Hpend.
  intros lane Hlane. constructor; cbn.
  - refine (conj _ (conj _ (conj _ (conj _ I)))); cbn; [lia|fold (turns lane); lia|done|done].
  - intros bank q Hq E. cbn in E. by apply Hready in E.
  - intros bank. apply Hitem.
  - intros h. split; [|done]. cbn. unfold turns. lia.
  - done.
Qed.

Lemma reach_measure n s : greach l k vadd sources (gstart l k b) n s ->
  sys_weak s /\ sys_measure s + Z.of_nat n <= sys_measure (gstart l k b).
Proof using Hl Hk Hwaves Hready Hitem Hpend.
  intros Hr. induction Hr as [|n s s' _ [IH1 IH2] Hst]; [split; [apply start_weak|lia]|].
  destruct (step_weak s s' IH1 Hst). split; [done|lia].
Qed.
End bound.
