(* ===== verification/GradProps.v ===== *)
(** What the gradient reduction guarantees, from the host's layout to the sums in memory: the
    kernel accepts the layout, its cores share the workspace without a clash, and the lanes end,
    can always end well, and leave in every row of the owner the sum over the copies of its
    expert. *)
From S2P Require Import Prelude Layouts CombineWire UdmaTypes GradLayout GradKernel GradWave GradTile GradShare GradLane GradLaneInv GradBound.

(** A layout some call of the host accepted. *)
Definition accepted (l : ReduceGradLayout) : Prop := exists env rank rankSize experts slots elements transport chunk,
  (forall p, 0 <= p < 3 -> is_u64 (elements p)) /\ is_u64 chunk /\
  TileXRMoonEpBuildReduceGradLayout env rank rankSize experts slots elements transport chunk = Some l.

Lemma accepted_ok l : accepted l -> grad_layout_ok l.
Proof.
  intros (env & rank & rankSize & experts & slots & elements & transport & chunk & He & Hc & Hb).
  by apply (grad_layout_sound env rank rankSize experts slots elements transport chunk l He Hc) in Hb as [? _].
Qed.

(** A launch over an accepted layout: the gradients are addressable, a lane has fewer than [2^32]
    waves, and what the workspace holds from before is no token of this launch. *)
Record grad_run_ok {V : Type} (l : ReduceGradLayout) (k : GradLaunch) (b : Before (V:=V)) : Prop := {
  ro_layout : accepted l;
  ro_launch : launch_ok l k;
  ro_rows p : 0 <= p < 3 -> g_expertCount l * rowBytes l p <= UINT64_MAX;
  ro_waves lane : 0 <= lane < laneCount l -> Z.of_nat (length (lane_waves l k lane)) + 2 <= UINT32_MAX;
  ro_ready lane bank : stale k (b_ready b lane bank);
  ro_done lane bank h : stale k (b_done b lane bank h);
  ro_abort lane : stale k (b_abort b lane);
  ro_item lane bank : 0 <= nth 2 (b_item b lane bank) 0;
  ro_pending : 0 <= pw_itemChunkBytes (b_pending b)
}.

(** The steps a lane can take: its leader's turns, and for each helper its items. *)
Definition lane_steps (l : ReduceGradLayout) (k : GradLaunch) (lane : Z) : Z :=
  turns l k lane * turn_cost l k lane + final_cost l k lane + 3 +
  helper_count l k lane * ((turns l k lane + 1) * helper_cost l k + tile_max l + 4 + polls k).

Section props.
Context {V : Type} (vadd : V -> V -> V) (sources : Z -> Z -> Z -> V) (l : ReduceGradLayout) (k : GradLaunch) (b : Before (V:=V)).

Lemma lane_start_measure lane : 0 <= helper_count l k lane -> lane_measure l k lane (sy_lanes (gstart l k b) lane) = lane_steps l k lane.
Proof using Type.
  intros Hc. unfold lane_measure, lane_steps. cbn [gstart sy_lanes ls_leader].
  rewrite (zsum_ext (fun h => helper_measure l k lane _) (fun _ => (turns l k lane + 1) * helper_cost l k + tile_max l + 4 + polls k)).
  - rewrite zsum_const, length_seqZ, Z2Nat.id by done. unfold flight. rewrite (zsum_ext _ (fun _ => 0)) by done. rewrite zsum_const.
    unfold leader_measure, end_cost. cbn [ld_pc ld_work ld_sequence ld_next]. fold (turns l k lane). lia.
  - intros h _. cbn [ls_helpers]. unfold helper_measure. cbn [hp_pc hp_sequence]. pose proof (polls_pos k). lia.
Qed.

Context (Hrun : grad_run_ok l k b).
Let Hl : grad_layout_ok l := accepted_ok l (ro_layout l k b Hrun).
Let Hk : launch_ok l k := ro_launch l k b Hrun.

Lemma run_reach n s : greach l k vadd sources (gstart l k b) n s ->
  sys_weak l k s /\ sys_measure l k s + Z.of_nat n <= zsum (lane_steps l k) (seqZ 0 (laneCount l)).
Proof using Hrun.
  intros Hr. destruct (reach_measure l k Hl Hk (ro_waves l k b Hrun) vadd sources b (ro_ready l k b Hrun) (ro_item l k b Hrun)
    (ro_pending l k b Hrun) n s Hr) as [Hs Hm]. split; [done|].
  replace (zsum _ _) with (sys_measure l k (gstart l k b)); [done|]. apply zsum_ext. intros lane Hlane%elem_of_seqZ0.
  apply lane_start_measure. pose proof (helper_count_range l k Hl Hk lane Hlane). lia.
Qed.

(** A core that has not returned has a step, whatever has happened. *)
Lemma leader_moves_on lane ls sh : leader_weak l k lane (ls_leader ls) -> ld_pc (ls_leader ls) <> LReturned ->
  exists r, leader_step (V:=V) l k (calm TILEXR_UDMA_STATUS_CQ_TIMEOUT) lane ls sh = Some r.
Proof using Type.
  intros (_ & _ & Hin & _) Hne. unfold leader_step. cbv zeta.
  repeat (case_match; simplify_eq; try (by eexists)); exfalso; by apply Hin.
Qed.

Lemma helper_moves_on lane h c ls sh : hp_pc (ls_helpers ls h) <> HReturned ->
  exists r, helper_step (V:=V) l k vadd sources lane h c ls sh = Some r.
Proof using Type.
  intros Hne. unfold helper_step. cbv zeta. repeat (case_match; simplify_eq; try (by eexists)).
Qed.

Lemma stuck_finished s : sys_weak l k s -> (forall s', ~ gstep l k vadd sources s s') -> finished l k s.
Proof using Hrun.
  intros Hs Hn. destruct (finished_dec l k s) as [|(lane & Hlane & [Hr|(h & Hh & Hr)])]; [done|exfalso..].
  - destruct (leader_moves_on lane (sy_lanes s lane) (sy_shared s) (lw_leader _ _ _ _ (Hs lane Hlane))) as [r Hst];
      [unfold leader_returned in Hr; by destruct (ld_pc _)|].
    pose proof (blocks_range l k Hl Hk). apply (Hn (set_lane s lane r)).
    apply (gstep_block l k vadd sources s lane (calm TILEXR_UDMA_STATUS_CQ_TIMEOUT)); [lia|by intros _ rank _ E|].
    unfold block_step. rewrite (proj2 (Z.ltb_lt lane (laneCount l))) by lia. by rewrite Hst.
  - destruct (helper_moves_on lane h (helper_count l k lane) (sy_lanes s lane) (sy_shared s)) as [r Hst];
      [unfold helper_returned in Hr; by destruct (hp_pc _)|].
    apply (Hn (set_lane s lane r)). by eapply helper_block_step.
Qed.

Lemma greach_trans s1 n s2 m s3 : greach l k vadd sources s1 n s2 -> greach l k vadd sources s2 m s3 -> greach l k vadd sources s1 (m + n) s3.
Proof using Type. intros H1 H2. induction H2 as [|m s s' _ IH Hst]; [done|]. by eapply greach_step. Qed.

(** From a state without a failure, a run to the end without one. *)
Lemma can_finish (f : nat) s : sys_inv l k vadd sources b s -> sys_weak l k s -> sys_measure l k s < Z.of_nat f -> sh_status (sy_shared s) = 0 ->
  exists m s', greach l k vadd sources s m s' /\ finished l k s' /\ sh_status (sy_shared s') = 0.
Proof using Hrun.
  revert s. induction f as [|f IH]; intros s Hi Hs Hm H0; [pose proof (sys_measure_pos l k Hl Hk s Hs); lia|].
  destruct (sys_progress l k Hl Hk (ro_rows l k b Hrun) (ro_waves l k b Hrun) vadd sources b s Hi H0) as [Hf|(s1 & Hst & H1)].
  - exists 0%nat, s. split_and!; [constructor|done..].
  - destruct (step_weak l k Hl Hk (ro_waves l k b Hrun) vadd sources s s1 Hs Hst) as [Hs1 Hd].
    destruct (IH s1) as (m & s' & Hr & Hf & H2); [|done|lia|done|].
    { by eapply sys_step; eauto using ro_rows, ro_waves, ro_ready, ro_done. }
    exists (m + 1)%nat, s'. split_and!; [|done..]. eapply greach_trans; [|done]. eapply greach_step; [constructor|done].
Qed.

Lemma run_inv n s : greach l k vadd sources (gstart l k b) n s -> sys_inv l k vadd sources b s.
Proof using Hrun.
  intros Hr. eapply sys_reach; eauto using ro_rows, ro_waves, ro_ready, ro_done. apply sys_start; eauto using ro_waves, ro_abort.
Qed.

Lemma run_finishes n s : greach l k vadd sources (gstart l k b) n s -> sh_status (sy_shared s) = 0 ->
  exists m s', greach l k vadd sources s m s' /\ finished l k s' /\ sh_status (sy_shared s') = 0.
Proof using Hrun.
  intros Hr H0. destruct (run_reach n s Hr) as [Hs _]. eapply (can_finish (S (Z.to_nat (sys_measure l k s)))); try done; [by eapply run_inv|].
  pose proof (sys_measure_pos l k Hl Hk s Hs). lia.
Qed.

(** C12: a launch of the gradient reduction always ends. Its cores take at most [lane_steps] steps
    in each lane, the arrivals of data counted, and the only states without a next step are those
    where every leader and every helper has returned, also when queues fail, waits time out or a
    lane is aborted: no failure leaves a core waiting. *)
Theorem grad_lanes_return n s : greach l k vadd sources (gstart l k b) n s ->
  Z.of_nat n <= zsum (lane_steps l k) (seqZ 0 (laneCount l)) /\
  ((forall s', ~ gstep l k vadd sources s s') -> finished l k s).
Proof using Hrun.
  intros Hr. destruct (run_reach n s Hr) as [Hs Hm]. pose proof (sys_measure_pos l k Hl Hk s Hs).
  split; [lia|]. by apply stuck_finished.
Qed.

(** C13: as long as no failure was published, a launch can still end without one: there are steps
    of the cores and answers of the queues from the current state to one where every core has
    returned and the status is zero. No order of the words, the items and the banks runs into a
    deadlock or forces a timeout. *)
Theorem grad_lanes_finish n s : greach l k vadd sources (gstart l k b) n s -> sh_status (sy_shared s) = 0 ->
  exists m s', greach l k vadd sources s m s' /\ finished l k s' /\ sh_status (sy_shared s') = 0.
Proof using Hrun. apply run_finishes. Qed.
End props.

(** ** The workspace *)

(** What the cores of a launch keep in the workspace: the ready word and the item of each bank, the
    done word of each helper in each bank and the abort word of a lane, and in each bank one slot
    per contributor of a wave. *)
Inductive workspace_part : Set :=
| PReady (lane bank : Z) | PDone (lane bank helper : Z) | PItem (lane bank : Z) | PAbort (lane : Z)
| PSlot (lane bank ordinal : Z).

Section parts.
Context (l : ReduceGradLayout) (k : GradLaunch).

Definition part_offset (w : workspace_part) : Z :=
  match w with
  | PReady lane bank => BankReady lane bank
  | PDone lane bank helper => BankDoneToken lane bank helper
  | PItem lane bank => BankItem lane bank
  | PAbort lane => LaneAbort lane
  | PSlot lane bank ordinal => BankPayload l lane bank + ordinal * chunkBytes l
  end.

Definition part_bytes (w : workspace_part) : Z := match w with PSlot _ _ _ => chunkBytes l | _ => 64 end.

Definition part_used (w : workspace_part) : Prop :=
  let lane_bank lane bank := 0 <= lane < laneCount l /\ 0 <= bank < kReduceGradBankCount in
  match w with
  | PReady lane bank | PItem lane bank => lane_bank lane bank
  | PDone lane bank helper => lane_bank lane bank /\ 0 <= helper < fst (HelperShape l k lane)
  | PAbort lane => 0 <= lane < laneCount l
  | PSlot lane bank ordinal => lane_bank lane bank /\ 0 <= ordinal < g_rankSize l
  end.

Definition part_byte (w : workspace_part) (a : Z) : Prop := part_offset w <= a < part_offset w + part_bytes w.
End parts.

Lemma part_helper l k lane bank h : grad_layout_ok l -> launch_ok l k -> part_used l k (PDone lane bank h) -> 0 <= h < 32.
Proof. intros Hl Hk [[Hlane _] Hh]. pose proof (helper_count_range l k Hl Hk lane Hlane) as Hc. unfold helper_count in Hc. lia. Qed.

Ltac unfold_offsets :=
  unfold BankReady, BankDoneToken, BankItem, LaneAbort, kReduceGradBankReadyOffset, kReduceGradLaneErrorOffset, kReduceGradBankItemOffset,
    kReduceGradBankDoneOffset, kReduceGradDoneBankStrideBytes, kReduceGradDoneTokenCount, kReduceGradDoneTokenBytes, kReduceGradBankCount,
    kReduceGradLaneFlagStrideBytes, kReduceGradLaneStateStrideBytes in *.

(** The bytes of a word lie in the state of its lane, those of a slot behind all of them. *)
Lemma part_inside l k w a : grad_layout_ok l -> launch_ok l k -> part_used l k w -> part_byte l w a ->
  match w with
  | PSlot lane bank o => exists x, 0 <= x < chunkBytes l /\ a = BankPayload l lane bank + o * chunkBytes l + x /\
      laneCount l * kReduceGradLaneStateStrideBytes <= a < workspaceBytes l
  | PReady lane _ | PDone lane _ _ | PItem lane _ | PAbort lane => lane = a / kReduceGradLaneStateStrideBytes
  end /\ 0 <= a < workspaceBytes l.
Proof.
  intros Hl Hk Hu Ha. destruct (gl_banks l Hl) as [B1 B2], (gl_state l Hl) as [T1 T2], (gl_total l Hl) as [W _], (gl_lanes l Hl),
    (gl_ranks l Hl), (gl_chunk l Hl) as [C _].
  assert (0 <= laneCount l * laneStrideBytes l) by (rewrite B2, B1; nia).
  unfold part_byte, part_used in *. destruct w as [lane bank|lane bank h|lane bank|lane|lane bank o]; cbn [part_offset part_bytes] in Ha.
  5: { destruct Hu as [[Hlane Hb] Ho]. set (x := a - (BankPayload l lane bank + o * chunkBytes l)).
       pose proof (slot_inside l Hl lane bank o x Hlane Hb Ho ltac:(lia)) as Hin.
       replace (BankPayload l lane bank + o * chunkBytes l + x) with a in Hin by lia.
       split; [exists x; split_and!; lia|unfold kReduceGradLaneStateStrideBytes in Hin; lia]. }
  2: apply (part_helper l k lane bank h Hl Hk) in Hu as Hh.
  all: unfold_offsets; split; [|lia].
  all: apply Z.div_unique with (r := a - 8192 * lane); lia.
Qed.

(** C33: the workspace of a launch is shared without a clash: every word, item and slot the cores of
    any lane use lies inside the bytes the host asks for, and no byte belongs to two of them. The
    [64]-byte line of each helper's done word is its own, as is each slot of a bank. *)
Theorem grad_workspace_disjoint l k w w' a : accepted l -> launch_ok l k -> part_used l k w -> part_byte l w a ->
  0 <= a < workspaceBytes l /\ (part_used l k w' -> part_byte l w' a -> w = w').
Proof.
  intros Hl%accepted_ok Hk Hu Ha. destruct (part_inside l k w a Hl Hk Hu Ha) as [Hw Hin]. split; [done|]. intros Hu' Ha'.
  destruct (part_inside l k w' a Hl Hk Hu' Ha') as [Hw' _].
  destruct w as [lane bank|lane bank h|lane bank|lane|lane bank o], w' as [lane' bank'|lane' bank' h'|lane' bank'|lane'|lane' bank' o'].
  25: { destruct Hw as (x & Hx & -> & _), Hw' as (x' & Hx' & E & _), Hu as [[_ Hb] Ho], Hu' as [[_ Hb'] Ho'].
        apply (slots_disjoint l Hl) in E as (-> & -> & -> & _); done. }
  all: try (apply part_helper in Hu as Hh; [|done..]); try (apply part_helper in Hu' as Hh'; [|done..]).
  all: unfold part_byte, part_used in *; cbn [part_offset part_bytes] in *; unfold_offsets.
  all: try (destruct Hw' as (x & _ & _ & Hw')); try (destruct Hw as (x & _ & _ & Hw)).
  all: try (exfalso; clear - Hu Hu' Hw Hw'; div_lia).
  all: subst lane lane'; f_equal; lia.
Qed.

(** Host and kernel agree: the kernel's checks, in every block, pass on every layout the host
    accepts, and its blocks then share the lanes so that each has one leader and each helper
    index of each lane is one block: the helper blocks number the helpers of the lanes in order,
    and [HelperLane] finds the lane, the index and the count that [HelperShape] gives. *)
Theorem grad_layout_agrees l k : accepted l -> launch_ok l k ->
  ConfigurationValid l k = true /\ (forall block, block < blockCount k -> CollectiveConfigurationValid l k block = true) /\
  (forall lane h block, 0 <= lane < laneCount l /\ 0 <= h < fst (HelperShape l k lane) /\ block = snd (HelperShape l k lane) + h <->
     laneCount l <= block < blockCount k /\ HelperLane l k block = (lane, h, fst (HelperShape l k lane))) /\
  (forall block, laneCount l <= block < blockCount k -> exists lane h, HelperLane l k block = (lane, h, fst (HelperShape l k lane))) /\
  (forall lane, 0 <= lane < laneCount l -> 1 <= fst (HelperShape l k lane)).
Proof.
  intros Hl%accepted_ok Hk. destruct (config_ok l k Hl Hk) as [C1 C2]. split_and!; [done..| | |].
  - intros lane h block. split.
    + intros (H1 & H2 & ->). by apply helper_lane_block.
    + intros [Hb E]. apply (helper_lane_inv l k Hl Hk) in E as (H1 & _ & H2 & ->); done.
  - intros block Hb. destruct (HelperLane l k block) as [[lane h] c] eqn:E.
    apply (helper_lane_inv l k Hl Hk) in E as (_ & -> & _); [|done]. by exists lane, h.
  - intros lane Hlane. by destruct (helper_count_range l k Hl Hk lane Hlane).
Qed.

(** ** A launch with one expert copied twice *)

Definition sample_launch : GradLaunch :=
  {| dataPointers := true; workspacePointers := true; profileRegistryValid := true;
     registryRegions := kReduceGradProfileRegionCount; registryQps := 3; blockCount := 64; magic := 5; peerMem := true;
     waitIterations_ := 100; expertsToCopy_ := fun entry => if (entry =? 0) || (entry =? 5) then 2 else -1 |}.

Definition sample_before : Before (V:=Z) :=
  {| b_ready := fun _ _ => 0; b_item := fun _ _ => []; b_done := fun _ _ _ => 0; b_abort := fun _ => 0;
     b_workspace := fun _ => 0; b_grad := fun _ _ => 1; b_ub := {| ub_accum := fun _ _ => 0; ub_input := fun _ _ => 0 |};
     b_pending := {| pw_used := fun _ => false; pw_frontiers := fun _ => 0; pw_chunkIndex := 0; pw_itemChunkBytes := 0; pw_sequence := 0;
                     pw_projection := 0; pw_localExpert := 0; pw_waveStart := 0; pw_contributorCount := 0; pw_remoteContributorCount := 0 |} |}.

Definition sample_layout : option ReduceGradLayout := TileXRMoonEpBuildReduceGradLayout None 1 4 8 2 small_elements 3 0.

Lemma sample_accepted l : sample_layout = Some l -> accepted l.
Proof.
  intros E. exists None, 1, 4, 8, 2, small_elements, 3, 0. split_and!; [|unfold is_u64, UINT64_MAX; lia|exact E].
  intros p [-> |[-> | ->]]%projections; unfold is_u64, UINT64_MAX; cbn; lia.
Qed.

Lemma sample_fields l : sample_layout = Some l ->
  launch_ok l sample_launch /\ laneCount l = 3 /\ g_rankSize l = 4 /\ g_expertCount l = 8 /\ g_expertsPerRank l = 2 /\ g_prefetchSlots l = 2 /\
  g_rank l = 1 /\ chunkBytes l = 8388608 /\ (forall p, 0 <= p < 3 -> rowBytes l p = if p =? 2 then 28 else 112) /\
  (forall lane, 0 <= lane < 3 -> length (lane_waves l sample_launch lane) = 1%nat) /\
  (forall lane, 0 <= lane < 3 -> 20 <= fst (HelperShape l sample_launch lane)).
Proof.
  intros E. vm_compute in E. injection E as <-. split_and!; try reflexivity.
  - by split; vm_compute.
  - intros p [-> |[-> | ->]]%projections; reflexivity.
  - intros p [-> |[-> | ->]]%projections; vm_compute; reflexivity.
  - intros p [-> |[-> | ->]]%projections; vm_compute; discriminate.
Qed.

Lemma sample_stale : stale sample_launch 0.
Proof.
  intros q Hq E. unfold is_u32, UINT32_MAX in Hq. unfold LaneToken in E. rewrite Z.lor_comm, lor_shiftl_add in E by lia. change (u32 (magic sample_launch)) with 5 in E. lia.
Qed.

Lemma sample_run l : sample_layout = Some l -> grad_run_ok l sample_launch sample_before.
Proof.
  intros E. destruct (sample_fields l E) as (F1 & F2 & _ & F4 & _ & _ & _ & _ & F9 & F10 & _).
  split; [by apply sample_accepted|exact F1| | |intros; apply sample_stale..|intros lane bank; apply Z.le_refl|apply Z.le_refl].
  - intros p Hp. rewrite F4, F9 by done. unfold UINT64_MAX. case_if; lia.
  - intros lane Hlane. rewrite F2 in Hlane. rewrite F10 by done. unfold UINT32_MAX. lia.
Qed.

(** Run [sample_launch] in the accepted sample layout. *)
Ltac with_sample l E :=
  destruct sample_layout as [l|] eqn:E; [|vm_compute in E; discriminate E].

Definition sample_sources (rank p offset : Z) : Z := 1000 * rank + 7 * p + offset.

Lemma grad_lanes_return_witness : exists l n s, sample_layout = Some l /\
  greach l sample_launch Z.add sample_sources (gstart l sample_launch sample_before) n s /\ finished l sample_launch s /\
  Z.of_nat n <= zsum (lane_steps l sample_launch) (seqZ 0 (laneCount l)).
Proof.
  with_sample l E. pose proof (sample_run l E) as Hr.
  destruct (run_finishes Z.add sample_sources l sample_launch sample_before Hr 0 _ (greach_refl _ _ _ _ _) eq_refl) as (n & s & Hs & Hf & H0).
  exists l, n, s. refine (conj eq_refl (conj Hs (conj Hf _))).
  exact (proj1 (grad_lanes_return Z.add sample_sources l sample_launch sample_before Hr n s Hs)).
Defined.

Lemma grad_lanes_finish_witness : exists l n s, sample_layout = Some l /\
  greach l sample_launch Z.add sample_sources (gstart l sample_launch sample_before) n s /\ finished l sample_launch s /\ sh_status (sy_shared s) = 0.
Proof.
  with_sample l E. pose proof (sample_run l E) as Hr.
  destruct (grad_lanes_finish Z.add sample_sources l sample_launch sample_before Hr 0 _ (greach_refl _ _ _ _ _) eq_refl) as (n & s & Hs & Hf & H0).
  exists l, n, s. exact (conj eq_refl (conj Hs (conj Hf H0))).
Defined.

Lemma grad_workspace_disjoint_witness : exists l, sample_layout = Some l /\ part_offset l (PDone 2 1 3) = 2 * 8192 + 128 + 2048 + 192 /\
  0 <= 2 * 8192 + 128 + 2048 + 192 < workspaceBytes l.
Proof.
  with_sample l E. destruct (sample_fields l E) as (F1 & F2 & _ & _ & _ & _ & _ & _ & _ & _ & F11). exists l. refine (conj eq_refl (conj eq_refl _)).
  all: specialize (F11 2 ltac:(lia)).
  all: apply (grad_workspace_disjoint l sample_launch (PDone 2 1 3) (PDone 2 1 3) (2 * 8192 + 128 + 2048 + 192) (sample_accepted l E) F1).
  all: try (unfold part_byte, part_offset, part_bytes; unfold_offsets; lia).
  all: refine (conj (conj _ _) _); unfold kReduceGradBankCount; lia.
Defined.

Lemma grad_layout_agrees_witness : exists l, sample_layout = Some l /\ ConfigurationValid l sample_launch = true /\
  HelperLane l sample_launch 40 = (1, 16, 20).
Proof.
  with_sample l E. destruct (sample_fields l E) as (F1 & _). exists l. refine (conj eq_refl (conj _ _)).
  - apply (grad_layout_agrees l sample_launch (sample_accepted l E) F1).
  - vm_compute in E. injection E as <-. vm_compute. reflexivity.
Defined.
