(* ===== verification/GradClear.v ===== *)
(** The rest of the gradient reduction kernel (src/src/moonep/reduce_grad/kernels/
    tilexr_moonep_reduce_grad_kernel.cpp): the check of the plan before the lanes, the clearing of
    this rank's copies behind them, and [Process], which runs the phases in order. The blocks are
    apart inside a phase and together between two phases ([SyncAll]); the barrier with the other
    ranks is an argument, the answer whether all ranks reported success. *)
From S2P Require Import Prelude Layouts CombineWire UdmaTypes GradLayout GradKernel GradWave GradTile GradShare GradLane GradLaneInv GradBound GradProps.

(** [for (x; x < stop; x += step)] at 64 bits; [fuel] bounds the turns. *)
Fixpoint for_stride (fuel : nat) (x stop step : Z) : list Z :=
  match fuel with
  | O => []
  | S f => if x <? stop then x :: for_stride f (x + step)%u64 stop step else []
  end.

Section clear.
Context (l : ReduceGradLayout) (k : GradLaunch) {V : Type} (zero : V).

(** The statuses a block publishes. *)
Definition ValidatePlanEntries (blockIdx : Z) : list Z :=
  let entries := (g_rankSize l * g_prefetchSlots l)%u64 in
  (fun _ => kReduceGradDeviceInvalidState) <$>
  filter (fun entry => (expertsToCopy_ k entry <? -1) || (g_expertCount l <=? expertsToCopy_ k entry) = true)
    (for_stride (Z.to_nat entries) blockIdx entries (blockCount k)).

(** The copies of one row, [(projection, offset, bytes)]; [rowTileBase] are the tiles of the rows
    before it. *)
Definition clear_row (blockIdx rowTileBase projection slot : Z) : list (Z * Z * Z) :=
  let tilesPerRow := CeilDivU64 (rowBytes l projection) kReduceGradKernelTileBytes in
  let rowBlock := rowTileBase mod blockCount k in
  let firstTile := (blockIdx + blockCount k - rowBlock)%u64 mod blockCount k in
  if expertsToCopy_ k (g_rank l * g_prefetchSlots l + slot) <? 0 then []
  else
    (fun tile =>
       let offset := (tile * kReduceGradKernelTileBytes)%u64 in
       (projection, (slot * rowBytes l projection)%u64 + offset,
        u32 (MinU64 (rowBytes l projection - offset)%u64 kReduceGradKernelTileBytes))) <$>
    for_stride (Z.to_nat tilesPerRow) firstTile tilesPerRow (blockCount k).

Definition clear_writes (blockIdx : Z) : list (Z * Z * Z) :=
  snd (foldl (fun acc projection =>
      foldl (fun '(rowTileBase, writes) slot =>
          ((rowTileBase + CeilDivU64 (rowBytes l projection) kReduceGradKernelTileBytes)%u64,
           writes ++ clear_row blockIdx rowTileBase projection slot))
        acc (seqZ 0 (g_prefetchSlots l)))
    (0, []) (seqZ 0 kReduceGradProjectionCount)).

Definition clear_write (sources : Z -> Z -> V) (w : Z * Z * Z) : Z -> Z -> V :=
  let '(projection, offset, bytes) := w in
  upd1 sources projection (DataCopyPad (sources projection) offset (fun _ => zero) 0 bytes).

Definition ClearLocalSources (sources : Z -> Z -> V) (blockIdx : Z) : Z -> Z -> V :=
  foldl clear_write sources (clear_writes blockIdx).

(** The status behind the barrier: [peerMems] tells which ranks' memories are mapped, [success]
    what the flags of the other ranks say when they are set. *)
Definition CrossRankBarrier (peerMems success : Z -> bool) (status : Z) : Z :=
  let peers := seqZ 0 (g_rankSize l) in
  let status1 := foldl (fun st peer => if peerMems peer then st else PublishStatus st kReduceGradDeviceInvalidState) status peers in
  let localStep := status1 =? 0 in
  foldl (fun st peer => if (if peer =? g_rank l then localStep else success peer) then st
                        else PublishStatus st kReduceGradDeviceInvalidState) status1 peers.

(** What a launch leaves: the gradients, this rank's copies and the status. *)
Record Outcome := { oc_grad : Z -> Z -> V; oc_sources : Z -> Z -> V; oc_status : Z }.

(** The statuses a block publishes before the lanes. *)
Definition block_checks (blockIdx : Z) : list Z :=
  if ConfigurationValid l k then ValidatePlanEntries blockIdx else [kReduceGradDeviceInvalidState].

(** The launch, phase by phase; [checked] and [cleared] are the orders of the blocks in the
    phases before and behind the lanes. *)
Inductive Process (vadd : V -> V -> V) (sources : Z -> Z -> Z -> V) (b : Before (V:=V)) (peerMems success : Z -> bool)
    : Outcome -> Prop :=
| Process_invalid : CollectiveConfigurationValid l k 0 = false ->
    Process vadd sources b peerMems success
      {| oc_grad := b_grad b; oc_sources := sources (g_rank l); oc_status := kReduceGradDeviceInvalidState |}
| Process_refused checked status : CollectiveConfigurationValid l k 0 = true -> checked ≡ₚ seqZ 0 (blockCount k) ->
    status = foldl PublishStatus 0 (checked ≫= block_checks) -> status <> 0 ->
    Process vadd sources b peerMems success
      {| oc_grad := b_grad b; oc_sources := sources (g_rank l); oc_status := CrossRankBarrier peerMems success status |}
| Process_lanes checked n s cleared status : CollectiveConfigurationValid l k 0 = true -> checked ≡ₚ seqZ 0 (blockCount k) ->
    foldl PublishStatus 0 (checked ≫= block_checks) = 0 ->
    greach l k vadd sources (gstart l k b) n s -> finished l k s -> cleared ≡ₚ seqZ 0 (blockCount k) ->
    status = CrossRankBarrier peerMems success (sh_status (sy_shared s)) ->
    Process vadd sources b peerMems success
      {| oc_grad := sh_grad (sy_shared s);
         oc_sources := if status =? 0 then foldl ClearLocalSources (sources (g_rank l)) cleared else sources (g_rank l);
         oc_status := status |}.
End clear.

(** ** The strided loop *)

Lemma for_stride_elem fuel x stop step y : 0 <= x -> 0 < step -> stop + step <= UINT64_MAX -> stop - x <= Z.of_nat fuel ->
  y ∈ for_stride fuel x stop step <-> x <= y < stop /\ (y - x) mod step = 0.
Proof.
  intros Hx Hst Hmax. revert x Hx. induction fuel as [|f IH]; intros x Hx Hf; cbn [for_stride].
  { split; [by intros ?%elem_of_nil|lia]. }
  destruct (Z.ltb_spec x stop) as [Hlt|Hge]; [|split; [by intros ?%elem_of_nil|lia]].
  unfold UINT64_MAX in Hmax. rewrite elem_of_cons, u64_small, IH by lia.
  replace (y - x) with (y - (x + step) + 1 * step) by lia. rewrite Z.mod_add by lia. split.
  - intros [-> |[H1 H2]]; [|split; [lia|done]]. split; [lia|]. replace (x - (x + step)) with (-1 * step) by lia. by apply Z.mod_mul; lia.
  - intros [[H1 H2] H3]. destruct (Z.eq_dec y x); [by left|right]. split; [|done]. split; [|done].
    destruct (Z.lt_ge_cases y (x + step)) as [Hlt'|]; [|done]. exfalso.
    rewrite <- (Z.mod_add _ 1) in H3 by lia. rewrite Z.mod_small in H3 by lia. lia.
Qed.

Section clear_spec.
Context (l : ReduceGradLayout) (k : GradLaunch) (Hl : grad_layout_ok l) (Hk : launch_ok l k).

(** The tiles of a row. *)
Definition row_tiles (p : Z) : Z := CeilDivU64 (rowBytes l p) kReduceGradKernelTileBytes.

(** The tiles before the rows of a projection, and [rowTileBase] before a row. *)
Fixpoint projection_base (p : nat) : Z :=
  match p with O => 0 | S q => projection_base q + g_prefetchSlots l * row_tiles (Z.of_nat q) end.

Definition row_base (p slot : Z) : Z := u64 (projection_base (Z.to_nat p) + slot * row_tiles p).

Lemma clear_slots block p base ws n : 0 <= n ->
  foldl (fun '(rowTileBase, writes) slot => ((rowTileBase + CeilDivU64 (rowBytes l p) kReduceGradKernelTileBytes)%u64,
      writes ++ clear_row l k block rowTileBase p slot)) (u64 base, ws) (seqZ 0 n) =
  (u64 (base + n * row_tiles p), ws ++ (slot ← seqZ 0 n; clear_row l k block (u64 (base + slot * row_tiles p)) p slot)).
Proof using Type.
  intros Hn. revert n Hn. apply natlike_ind; [cbn; by rewrite app_nil_r, Z.mul_0_l, Z.add_0_r|].
  intros n Hn IH. unfold Z.succ. rewrite seqZ0_snoc, foldl_app, IH, bind_app, app_assoc by lia. cbn [foldl mbind list_bind]. rewrite app_nil_r. f_equal.
  unfold u64, row_tiles. rewrite Zplus_mod_idemp_l. f_equal. lia.
Qed.

Lemma clear_writes_rows block : clear_writes l k block =
  (p ← seqZ 0 kReduceGradProjectionCount; slot ← seqZ 0 (g_prefetchSlots l); clear_row l k block (row_base p slot) p slot).
Proof using Hl.
  unfold clear_writes, row_base. destruct (gl_slots l Hl) as [S1 _]. change (seqZ 0 kReduceGradProjectionCount) with [0; 1; 2]. cbn [foldl].
  pose proof (clear_slots block 0 0 [] (g_prefetchSlots l) ltac:(lia)) as E0. change (u64 0) with 0 in E0. rewrite E0, !clear_slots by lia. cbn [snd mbind list_bind app]. rewrite app_nil_r, <- app_assoc. done.
Qed.

Context (Hcopies : forall p, 0 <= p < 3 -> g_prefetchSlots l * rowBytes l p <= UINT64_MAX).

(** A slot of this rank that holds a copy. *)
Definition used_slot (slot : Z) : Prop := 0 <= slot < g_prefetchSlots l /\ 0 <= expertsToCopy_ k (g_rank l * g_prefetchSlots l + slot).

Lemma row_tiles_eq p : 0 <= p < 3 -> row_tiles p = ceil_div (rowBytes l p) kReduceGradKernelTileBytes.
Proof using Hl. intros Hp. destruct (gl_rows l Hl p Hp) as [_ [? ?]]. apply ceil_div_u64; unfold kReduceGradKernelTileBytes; lia. Qed.

Lemma first_tile block base y : 0 <= block < blockCount k -> 0 <= base -> 0 <= y ->
  let first := (block + blockCount k - base mod blockCount k)%u64 mod blockCount k in
  0 <= first < blockCount k /\ (first <= y /\ (y - first) mod blockCount k = 0 <-> (y + base - block) mod blockCount k = 0).
Proof using Hl Hk.
  intros Hb Hbase Hy first. pose proof (blocks_range l k Hl Hk) as [B1 B2]. set (B := blockCount k) in *.
  pose proof (Z.mod_pos_bound base B ltac:(lia)) as Hr. pose proof (Z.div_mod base B ltac:(lia)) as Eb.
  assert (0 <= first < B) as Hf by (apply Z.mod_pos_bound; lia).
  assert (exists m, block - base = first + m * B) as [m Em].
  { unfold first. rewrite !u64_small by (rewrite ?u64_small; lia).
    pose proof (Z.div_mod (block + B - base mod B) B ltac:(lia)) as E2. exists ((block + B - base mod B) / B - 1 - base / B). lia. }
  replace (y + base - block) with (y - first + - m * B) by lia. rewrite Z.mod_add by lia. split; [done|]. split; [by intros []|].
  intros Hm. split; [|done]. destruct (Z.le_gt_cases first y); [done|]. exfalso.
  rewrite <- (Z.mod_add _ 1), Z.mod_small in Hm by lia. lia.
Qed.

Lemma clear_row_elem block base p slot w : 0 <= block < blockCount k -> 0 <= base -> 0 <= p < 3 -> used_slot slot ->
  w ∈ clear_row l k block base p slot <-> exists t, 0 <= t < row_tiles p /\ (t + base - block) mod blockCount k = 0 /\
    w = (p, slot * rowBytes l p + t * kReduceGradKernelTileBytes, tile_size (rowBytes l p) t).
Proof using Hl Hk Hcopies.
  intros Hb Hbase Hp [Hs Hu]. destruct (gl_rows l Hl p Hp) as [_ Hr]. pose proof (Hcopies p Hp) as Hc. pose proof (row_tiles_eq p Hp) as Ht.
  pose proof (blocks_range l k Hl Hk) as [B1 B2]. unfold clear_row. rewrite (proj2 (Z.ltb_ge _ 0)) by lia. cbv zeta. fold (row_tiles p).
  assert (0 <= row_tiles p <= 18446744073709551616 / 1000) as Hrange.
  { rewrite Ht. unfold ceil_div, kReduceGradKernelTileBytes, UINT64_MAX in *. div_lia. }
  rewrite list_elem_of_fmap. change (18446744073709551616 / 1000) with 18446744073709551 in Hrange. unfold UINT64_MAX in *.
  assert (forall t, 0 <= t < row_tiles p -> (p, u64 (slot * rowBytes l p) + u64 (t * kReduceGradKernelTileBytes),
     u32 (MinU64 (rowBytes l p - t * kReduceGradKernelTileBytes)%u64 kReduceGradKernelTileBytes)) =
     (p, slot * rowBytes l p + t * kReduceGradKernelTileBytes, tile_size (rowBytes l p) t)) as Hw.
  { intros t Htt. assert (0 <= t * kReduceGradKernelTileBytes < rowBytes l p) as Hin.
    { rewrite Ht in Htt. unfold ceil_div, kReduceGradKernelTileBytes in *. div_lia. }
    assert (0 <= slot * rowBytes l p) by nia. assert (slot * rowBytes l p <= g_prefetchSlots l * rowBytes l p) by nia.
    rewrite !u64_small by (rewrite ?u64_small; lia). unfold MinU64, tile_size, kReduceGradKernelTileBytes in *.
    rewrite u32_small; [|case_if; lia]. do 2 f_equal. case_if; b2p; lia. }
  split.
  - intros (t & -> & Hin). apply for_stride_elem in Hin as [H1 H2]; [|apply Z.mod_pos_bound; lia|lia|unfold UINT64_MAX; lia|].
    2: { pose proof (Z.mod_pos_bound (u64 (u64 (block + blockCount k) - base mod blockCount k)) (blockCount k) ltac:(lia)). lia. }
    pose proof (Z.mod_pos_bound (u64 (u64 (block + blockCount k) - base mod blockCount k)) (blockCount k) ltac:(lia)).
    destruct (first_tile block base t Hb Hbase ltac:(lia)) as [_ Hf]. exists t. split_and!; [lia..|apply Hf; exact (conj (proj1 H1) H2)|apply Hw; lia].
  - intros (t & Htt & Hm & ->). destruct (first_tile block base t Hb Hbase ltac:(lia)) as [Hr0 Hf]. apply Hf in Hm as [H1 H2].
    exists t. split; [symmetry; by apply Hw|]. apply for_stride_elem; [lia|lia|unfold UINT64_MAX; lia|lia|]. split; [lia|done].
Qed.

Definition covers (w : Z * Z * Z) (p a : Z) : Prop := let '(q, o, n) := w in q = p /\ o <= a < o + n.

Lemma clear_unused block base p slot : 0 <= slot < g_prefetchSlots l -> ~ used_slot slot -> clear_row l k block base p slot = [].
Proof using Type. intros Hs Hn. unfold clear_row, used_slot in *. cbv zeta. rewrite (proj2 (Z.ltb_lt _ 0)) by lia. done. Qed.

Lemma clear_only block w p a : 0 <= block < blockCount k -> w ∈ clear_writes l k block -> covers w p a ->
  0 <= p < 3 /\ exists slot x, used_slot slot /\ 0 <= x < rowBytes l p /\ a = slot * rowBytes l p + x.
Proof using Hl Hk Hcopies.
  intros Hb Hw Hc. rewrite clear_writes_rows in Hw. apply list_elem_of_bind in Hw as (q & Hw & Hq%elem_of_seqZ0).
  apply list_elem_of_bind in Hw as (slot & Hw & Hs%elem_of_seqZ0).
  assert (used_slot slot) as Hu by (split; [done|]; destruct (Z.le_gt_cases 0 (expertsToCopy_ k (g_rank l * g_prefetchSlots l + slot))); [done|];
    rewrite clear_unused in Hw; [by apply elem_of_nil in Hw|done|intros []; lia]).
  apply clear_row_elem in Hw as (t & Ht & _ & ->); [|done|apply u64_range|done|done]. destruct Hc as [-> Ha]. split; [done|].
  exists slot, (a - slot * rowBytes l p). split; [done|]. split; [|lia]. destruct (gl_rows l Hl p Hq) as [_ Hr].
  rewrite row_tiles_eq in Ht by done. unfold tile_size, ceil_div, kReduceGradKernelTileBytes in *. lia.
Qed.

Lemma clear_covers p slot x : 0 <= p < 3 -> used_slot slot -> 0 <= x < rowBytes l p ->
  exists block w, 0 <= block < blockCount k /\ w ∈ clear_writes l k block /\ covers w p (slot * rowBytes l p + x).
Proof using Hl Hk Hcopies.
  intros Hp Hu Hx. pose proof (blocks_range l k Hl Hk) as [B1 B2]. set (t := x / kReduceGradKernelTileBytes).
  assert (t * kReduceGradKernelTileBytes <= x < t * kReduceGradKernelTileBytes + kReduceGradKernelTileBytes /\ 0 <= t) as (Hxt & Ht0).
  { unfold t, kReduceGradKernelTileBytes in *. div_lia. }
  set (block := (t + row_base p slot) mod blockCount k). assert (0 <= block < blockCount k) as Hb by (apply Z.mod_pos_bound; lia).
  exists block, (p, slot * rowBytes l p + t * kReduceGradKernelTileBytes, tile_size (rowBytes l p) t). split; [done|]. split; [|unfold covers, tile_size; lia].
  rewrite clear_writes_rows. apply list_elem_of_bind. exists p. split; [|by apply elem_of_seqZ0].
  apply list_elem_of_bind. exists slot. split; [|apply elem_of_seqZ0, Hu].
  apply clear_row_elem; [done|apply u64_range|done|done|]. exists t. split; [|split; [|done]].
  - rewrite row_tiles_eq by done. unfold ceil_div, kReduceGradKernelTileBytes in *. div_lia.
  - unfold block. rewrite Zminus_mod_idemp_r, Z.sub_diag. done.
Qed.

(** Copies of zeros clear what they cover. *)
Lemma clear_effect {V : Type} (zero : V) ws src p a :
  ((exists w, w ∈ ws /\ covers w p a) -> foldl (clear_write zero) src ws p a = zero) /\
  ((forall w, w ∈ ws -> ~ covers w p a) -> foldl (clear_write zero) src ws p a = src p a).
Proof using Type.
  revert src. induction ws as [|w ws IH] using rev_ind; intros src; [split; [by intros (w & ?%elem_of_nil & _)|done]|].
  rewrite foldl_app. cbn [foldl]. destruct w as [[q o] n]. cbn [clear_write]. destruct (IH src) as [IH1 IH2].
  assert (covers (q, o, n) p a \/ ~ covers (q, o, n) p a) as [Hc|Hc] by (unfold covers; lia).
  - split; [|intros Hn; exfalso; apply (Hn (q, o, n)); [apply elem_of_app; right; by left|done]]. intros _.
    destruct Hc as [-> Hc]. rewrite upd1_eq. by rewrite copy_in.
  - assert (upd1 (foldl (clear_write zero) src ws) q (DataCopyPad (foldl (clear_write zero) src ws q) o (fun _ => zero) 0 n) p a =
      foldl (clear_write zero) src ws p a) as ->.
    { destruct (Z.eq_dec q p) as [-> |Hne]; [|by rewrite upd1_ne]. rewrite upd1_eq, copy_out; [done|]. unfold covers in Hc. lia. }
    split.
    + intros (w & [Hw|Hw%list_elem_of_singleton]%elem_of_app & Hcw); [apply IH1; by exists w|by subst].
    + intros Hn. apply IH2. intros w Hw. apply Hn, elem_of_app. by left.
Qed.

Lemma clear_all {V : Type} (zero : V) order src p a : order ≡ₚ seqZ 0 (blockCount k) ->
  let cleared := foldl (ClearLocalSources l k zero) src order in
  ((exists slot x, used_slot slot /\ 0 <= p < 3 /\ 0 <= x < rowBytes l p /\ a = slot * rowBytes l p + x) -> cleared p a = zero) /\
  (~ (exists slot x, used_slot slot /\ 0 <= p < 3 /\ 0 <= x < rowBytes l p /\ a = slot * rowBytes l p + x) -> cleared p a = src p a).
Proof using Hl Hk Hcopies.
  intros Ho cleared. assert (cleared = foldl (clear_write zero) src (order ≫= clear_writes l k)) as ->.
  { unfold cleared. clear Ho cleared. revert src. induction order as [|x order IH]; intros src; [done|]. cbn [foldl]. rewrite IH, bind_cons, foldl_app. done. }
  destruct (clear_effect zero (order ≫= clear_writes l k) src p a) as [E1 E2]. split.
  - intros (slot & x & Hu & Hp & Hx & ->). apply E1. destruct (clear_covers p slot x Hp Hu Hx) as (block & w & Hb & Hw & Hc).
    exists w. split; [|done]. apply list_elem_of_bind. exists block. split; [done|]. rewrite Ho. by apply elem_of_seqZ0.
  - intros Hn. apply E2. intros w (block & Hw & Hb)%list_elem_of_bind Hc. rewrite Ho in Hb. apply elem_of_seqZ0 in Hb.
    apply Hn. destruct (clear_only block w p a Hb Hw Hc) as (Hp & slot & x & Hu & Hx & ->). by exists slot, x.
Qed.

(** ** The checks *)

Definition plan_valid : Prop := forall entry, 0 <= entry < g_rankSize l * g_prefetchSlots l -> -1 <= expertsToCopy_ k entry < g_expertCount l.

Lemma statuses_same sts s : Forall (fun v => v = kReduceGradDeviceInvalidState) sts ->
  foldl PublishStatus s sts = if decide (sts = []) then s else PublishStatus s kReduceGradDeviceInvalidState.
Proof using Type.
  revert s. induction sts as [|v sts IH]; intros s Hn; [done|]. apply Forall_cons in Hn as [-> Hn]. cbn [foldl]. rewrite IH by done.
  rewrite (decide_False (P := _ :: _ = [])) by done. case_decide; [done|]. unfold PublishStatus. cbn.
  destruct (Z.eqb_spec s 0) as [-> |Hne]; [done|]. by rewrite (proj2 (Z.eqb_neq s 0)).
Qed.

Lemma validate_elem block : 0 <= block < blockCount k -> Forall (fun v => v = kReduceGradDeviceInvalidState) (ValidatePlanEntries l k block) /\
  (ValidatePlanEntries l k block <> [] <-> exists entry, 0 <= entry < g_rankSize l * g_prefetchSlots l /\
     (entry - block) mod blockCount k = 0 /\ block <= entry /\ ~ -1 <= expertsToCopy_ k entry < g_expertCount l).
Proof using Hl Hk.
  intros Hb. unfold ValidatePlanEntries. cbv zeta. pose proof (blocks_range l k Hl Hk) as [B1 B2]. pose proof (entries_range l Hl) as He. unfold plan_entries, INT32_MAX in He.
  rewrite u64_small by lia. split; [apply Forall_fmap, Forall_true; done|]. set (es := filter _ _).
  assert (forall e, e ∈ es <-> ((expertsToCopy_ k e <? -1) || (g_expertCount l <=? expertsToCopy_ k e) = true /\ block <= e < g_rankSize l * g_prefetchSlots l /\
    (e - block) mod blockCount k = 0)) as Hes.
  { intros e. unfold es. rewrite list_elem_of_filter, for_stride_elem by (unfold UINT64_MAX; lia). tauto. }
  split.
  - intros Hne. destruct es as [|e es'] eqn:Ee; [done|]. destruct (proj1 (Hes e)) as (H1 & H2 & H3); [by left|]. exists e. b2p. split_and!; lia.
  - intros (e & H1 & H2 & H3 & H4) E. apply fmap_nil_inv in E. assert (e ∈ es) as Hin; [|rewrite E in Hin; by apply elem_of_nil in Hin].
    apply Hes. split_and!; [|lia..|done]. apply orb_true_iff. lia.
Qed.

Lemma checks_same order : order ≡ₚ seqZ 0 (blockCount k) -> foldl PublishStatus 0 (order ≫= block_checks l k) =
  if decide (order ≫= block_checks l k = []) then 0 else kReduceGradDeviceInvalidState.
Proof using Hl Hk.
  intros Ho. destruct (config_ok l k Hl Hk) as [Hc _]. rewrite statuses_same; [done|].
  apply Forall_forall. intros v (block & Hv & Hb)%list_elem_of_bind. unfold block_checks in Hv. rewrite Hc in Hv. rewrite Ho in Hb.
  destruct (validate_elem block ltac:(by apply elem_of_seqZ0)) as [Hf _]. rewrite Forall_forall in Hf. by apply Hf.
Qed.

Lemma checks_zero order : order ≡ₚ seqZ 0 (blockCount k) ->
  foldl PublishStatus 0 (order ≫= block_checks l k) = 0 <-> plan_valid.
Proof using Hl Hk.
  intros Ho. pose proof (blocks_range l k Hl Hk) as [B1 B2]. destruct (config_ok l k Hl Hk) as [Hc _].
  assert (forall block, block ∈ order -> 0 <= block < blockCount k) as Hin by (intros block Hb; rewrite Ho in Hb; by apply elem_of_seqZ0).
  rewrite checks_same by done.
  case_decide as E; [split; [intros _|done]|split; [done|]].
  - intros entry He. destruct (decide (-1 <= expertsToCopy_ k entry < g_expertCount l)) as [|Hn]; [done|]. exfalso.
    set (block := entry mod blockCount k). assert (0 <= block < blockCount k) as Hb by (apply Z.mod_pos_bound; lia).
    destruct (validate_elem block Hb) as [_ Hv].
    assert (ValidatePlanEntries l k block <> []) as Hne.
    { apply Hv. exists entry. split; [done|]. split; [|split; [apply Z.mod_le; lia|done]].
      unfold block. rewrite Zminus_mod_idemp_r, Z.sub_diag. done. }
    destruct (ValidatePlanEntries l k block) as [|v vs] eqn:Ev; [done|].
    assert (v ∈ (order ≫= block_checks l k)) as Hx; [|rewrite E in Hx; by apply elem_of_nil in Hx].
    apply list_elem_of_bind. exists block. split; [unfold block_checks; rewrite Hc, Ev; by left|]. rewrite Ho. by apply elem_of_seqZ0.
  - intros Hv. exfalso. apply E. apply elem_of_nil_inv. intros v (block & Hx & Hb)%list_elem_of_bind. unfold block_checks in Hx. rewrite Hc in Hx.
    destruct (validate_elem block (Hin block Hb)) as [_ [Hv1 _]]. destruct Hv1 as (e & H1 & _ & _ & H4); [intros E2; rewrite E2 in Hx; by apply elem_of_nil in Hx|].
    apply H4, Hv, H1.
Qed.
End clear_spec.

(** ** The launch *)

Lemma publish_unless {A : Type} (f : A -> bool) xs st :
  foldl (fun st x => if f x then st else PublishStatus st kReduceGradDeviceInvalidState) st xs = 0 <-> st = 0 /\ forall x, x ∈ xs -> f x = true.
Proof.
  revert st. induction xs as [|x xs IH]; intros st; cbn [foldl]; [split; [intros ->; split; [done|by intros x ?%elem_of_nil]|by intros []]|].
  rewrite IH. destruct (f x) eqn:Ef.
  - split; intros [-> H]; (split; [done|]); intros y Hy; [apply elem_of_cons in Hy as [-> |Hy]; [done|by apply H]|apply H; by right].
  - split; [intros [H _]|intros [-> H]; specialize (H x ltac:(left)); congruence].
    unfold PublishStatus in H. cbn in H. by destruct (Z.eqb_spec st 0).
Qed.

Lemma barrier_zero l peerMems success st : CrossRankBarrier l peerMems success st = 0 <->
  st = 0 /\ forall peer, 0 <= peer < g_rankSize l -> peerMems peer = true /\ (peer <> g_rank l -> success peer = true).
Proof.
  unfold CrossRankBarrier. cbv zeta. rewrite publish_unless. setoid_rewrite elem_of_seqZ0.
  set (st1 := foldl _ _ _). pose proof (publish_unless peerMems (seqZ 0 (g_rankSize l)) st) as E1. fold st1 in E1. setoid_rewrite elem_of_seqZ0 in E1.
  split.
  - intros [H1 H2]. apply E1 in H1 as [-> H1]. split; [done|]. intros peer Hp. split; [by apply H1|]. intros Hne. specialize (H2 peer Hp).
    by rewrite (proj2 (Z.eqb_neq _ _)) in H2.
  - intros [-> H]. assert (st1 = 0) as H1 by (apply E1; split; [done|]; intros peer Hp; by apply H). split; [done|].
    intros peer Hp. rewrite H1. destruct (Z.eqb_spec peer (g_rank l)); [done|]. by apply H.
Qed.

Lemma barrier_keeps l peerMems success st : st <> 0 -> CrossRankBarrier l peerMems success st = st.
Proof.
  intros Hne. unfold CrossRankBarrier. cbv zeta.
  assert (forall (f : Z -> bool) xs, foldl (fun st x => if f x then st else PublishStatus st kReduceGradDeviceInvalidState) st xs = st) as Hf.
  { intros f xs. induction xs as [|x xs IH]; [done|]. cbn [foldl]. unfold PublishStatus at 2. cbn. rewrite (proj2 (Z.eqb_neq st 0)) by done.
    by destruct (f x). }
  by rewrite !Hf.
Qed.

(** The entries of the plan that copy an expert, in order. *)
Definition copies_of (l : ReduceGradLayout) (k : GradLaunch) (expert : Z) : list Z :=
  filter (fun entry => expertsToCopy_ k entry = expert) (seqZ 0 (g_rankSize l * g_prefetchSlots l)).

(** C11: the gradient reduction of a rank, whatever the queues answer and however its cores and the
    arriving data interleave. When it ends with status zero, every rank reported success, every
    row of an expert of this rank holds in every projection its old value with the rows of all
    copies of the expert added to it, once each and in the order of the plan, no other gradient
    has changed, and this rank's copies are zero again. When it ends with another status its
    copies are untouched, and when the plan has an entry that is neither an expert nor free, the
    gradients are as well and the status says so. *)
Theorem grad_process {V : Type} (vadd : V -> V -> V) (zero : V) sources l k (b : Before (V:=V)) peerMems success oc : grad_run_ok l k b ->
  (forall p, 0 <= p < 3 -> g_prefetchSlots l * rowBytes l p <= UINT64_MAX) -> Process l k zero vadd sources b peerMems success oc ->
  (oc_status oc = 0 ->
     (forall peer, 0 <= peer < g_rankSize l -> peer <> g_rank l -> success peer = true) /\
     (forall p e x, 0 <= p < 3 -> 0 <= e < g_expertsPerRank l -> 0 <= x < rowBytes l p ->
        let a := globalExpert l e * rowBytes l p + x in
        oc_grad oc p a = foldl vadd (b_grad b p a)
          ((fun entry => sources (entry / g_prefetchSlots l) p (entry mod g_prefetchSlots l * rowBytes l p + x)) <$> copies_of l k (globalExpert l e))) /\
     (forall p a, (forall e x, 0 <= p < 3 -> 0 <= e < g_expertsPerRank l -> 0 <= x < rowBytes l p -> a <> globalExpert l e * rowBytes l p + x) ->
        oc_grad oc p a = b_grad b p a) /\
     (forall p slot x, 0 <= p < 3 -> used_slot l k slot -> 0 <= x < rowBytes l p -> oc_sources oc p (slot * rowBytes l p + x) = zero)) /\
  (oc_status oc <> 0 -> oc_sources oc = sources (g_rank l)) /\
  (~ plan_valid l k -> oc_grad oc = b_grad b /\ oc_status oc = kReduceGradDeviceInvalidState).
Proof.
  intros Hrun Hcopies Hp. pose proof (accepted_ok l (ro_layout l k b Hrun)) as Hl. pose proof (ro_launch l k b Hrun) as Hk.
  destruct (config_ok l k Hl Hk) as [_ Hc]. pose proof (blocks_range l k Hl Hk) as [B1 B2].
  destruct Hp as [E|checked status _ Ho -> Hne|checked n s cleared status _ Ho E Hr Hf Ho2 ->]; [rewrite Hc in E by lia; done| |]; cbn [oc_status oc_grad oc_sources].
  - split; [intros H0; by apply barrier_zero in H0 as [? _]|]. split; [done|]. intros _. split; [done|]. rewrite barrier_keeps by done.
    rewrite (checks_same l k Hl Hk) in * by done. by case_decide.
  - split.
    + intros H0. rewrite H0, Z.eqb_refl. apply barrier_zero in H0 as [H0 Hb]. destruct Hrun.
      destruct (finished_sum l k Hl Hk ro_rows ro_waves vadd sources b ro_ready ro_done ro_abort n s Hr Hf H0) as [S1 S2].
      split; [intros peer Hp Hne; by apply Hb|]. split; [exact S1|]. split; [exact S2|]. intros p slot x Hp Hu Hx.
      apply (clear_all l k Hl Hk Hcopies zero cleared (sources (g_rank l)) p _ Ho2). by exists slot, x.
    + split; [intros Hne; by rewrite (proj2 (Z.eqb_neq _ 0))|]. intros Hn. exfalso. by apply Hn, (checks_zero l k Hl Hk checked Ho).
Qed.

Lemma grad_process_witness : exists l oc, sample_layout = Some l /\
  Process l sample_launch 0 Z.add sample_sources sample_before (fun _ => true) (fun _ => true) oc /\ oc_status oc = 0 /\
  oc_grad oc 2 (2 * 28 + 4) = 1 + (7 * 2 + 4) + (2000 + 7 * 2 + 28 + 4) /\ oc_grad oc 2 (3 * 28) = 1.
Proof.
  with_sample l E. pose proof (sample_run l E) as Hr. destruct (sample_fields l E) as (F1 & _ & _ & _ & F5 & F6 & F7 & _ & F9 & _).
  pose proof (accepted_ok l (sample_accepted l E)) as Hl. destruct (config_ok l sample_launch Hl F1) as [_ Hc]. pose proof (blocks_range l _ Hl F1) as [B1 B2].
  destruct (run_finishes Z.add sample_sources l sample_launch sample_before Hr 0 _ (greach_refl _ _ _ _ _) eq_refl) as (n & s & Hs & Hf & H0).
  assert (CrossRankBarrier l (fun _ => true) (fun _ => true) (sh_status (sy_shared s)) = 0) as Hb by (apply barrier_zero; done).
  pose proof (Process_lanes l sample_launch 0 Z.add sample_sources sample_before (fun _ => true) (fun _ => true) (seqZ 0 (blockCount sample_launch)) n s
    (seqZ 0 (blockCount sample_launch)) _ ltac:(apply Hc; lia) ltac:(reflexivity)
    ltac:(apply (checks_zero l sample_launch Hl F1 _ ltac:(reflexivity)); vm_compute in E; injection E as <-; intros e He; cbn in *; case_if; lia)
    Hs Hf ltac:(reflexivity) eq_refl) as Hp.
  rewrite Hb in Hp. eexists l, _. split; [reflexivity|]. split; [exact Hp|]. split; [reflexivity|].
  destruct (grad_process Z.add 0 sample_sources l sample_launch sample_before _ _ _ Hr
    ltac:(intros p Hp'; rewrite F6, F9 by done; unfold UINT64_MAX; case_if; lia) Hp) as [Hok _].
  destruct (Hok eq_refl) as (_ & Hg & _). split.
  - pose proof (Hg 2 0 4 ltac:(lia) ltac:(lia) ltac:(rewrite F9 by lia; cbn; lia)) as Hg'. cbv zeta in Hg'.
    clear - E Hg'. vm_compute in E. injection E as <-. etrans; [exact Hg'|]. vm_compute. reflexivity.
  - pose proof (Hg 2 1 0 ltac:(lia) ltac:(lia) ltac:(rewrite F9 by lia; cbn; lia)) as Hg'. cbv zeta in Hg'.
    clear - E Hg'. vm_compute in E. injection E as <-. etrans; [exact Hg'|]. vm_compute. reflexivity.
Defined.
