(* ===== verification/UdmaGrad.v ===== *)
(** The gradient reduction kernel over the queue pairs it uses: the gets a lane posts
    ([UDMAProfileGetNbiOnQpDeferred], the frontier and the door bell in [IssueWave]) and the waits
    for them ([UDMAProfileQuietStatusOnQpUntil] in [CompleteWave]). The lanes of GradLane count
    the gets of a queue without a bound and take the answers of the queues from an oracle; here
    the answers are those of the wrapper, and what the lanes ask of the oracle is shown. *)
From S2P Require Import Prelude Layouts CombineWire WqeRing WqeProps UdmaTypes UdmaQueue UdmaOps UdmaRing UdmaPost UdmaProps GradLayout GradKernel GradWave GradTile GradShare GradLane GradLaneInv GradBound GradProps.

(** ** Queues of gets *)

(** All entries take one block, as those of gets do. *)
Definition one_block (log : list (list Z)) : Prop := Forall (fun e => entry_bb e = 1) log.

Lemma position_one log n : one_block log -> 0 <= n <= posted log -> position log n = n.
Proof.
  intros Hl Hn. unfold position, posted in *. rewrite (zsum_ext _ (fun _ => 1)).
  - rewrite zsum_const, length_take. lia.
  - apply Forall_forall. by apply Forall_take.
Qed.

Section queue.
Context (hw : Z -> Mem) (args : option CommArgs) (info : option UDMAInfo) (registry : option TileXRUDMAProfileRegistry) (scratch : Scratch).
Context (rank : Z) (a : CommArgs) (Eargs : args = Some a).
Context (qp : Z) (wq : UDMAWQCtx) (cq : UDMACQCtx) (mi : UDMAMemInfo).

(** The queue pair of a lane to the rank, as the profile gives it, in a registry of regions the host
    accepts. *)
Record lane_qp : Prop := {
  lq_queue : queue_at info rank qp wq cq;
  lq_profile : profile_queue args info registry rank qp = Some wq;
  lq_mem : UDMAGetRemoteMemInfo info rank qp = Some mi;
  lq_eid : eidAddr mi <> 0;
  lq_scratch : UDMAWqeScratchValid scratch = true;
  lq_regions r region desc : UDMAProfileGetRegion registry r region = Some desc ->
    UDMAProfileRegionValid desc = true /\ 0 <= pd_base desc /\ 0 <= pd_bytes desc
}.

(** The call of [IssueWave] for a get, and the calls for a list of them. *)
Definition post_get (g : Get) (m : Mem) (t : Z) : Polled :=
  UDMAProfileGetNbiOnQpDeferred hw true args info registry scratch (get_rank g) (get_qp g) kReduceGradStagingRegion (get_local g)
    (get_region g) (get_remote g) (get_bytes g) m t.

Fixpoint post_all (gs : list Get) (m : Mem) (t : Z) : list Z * Mem :=
  match gs with
  | [] => ([], m)
  | g :: rest => let r := post_get g m t in let '(statuses, m') := post_all rest (po_mem r) t in (po_status r :: statuses, m')
  end.

Definition local_addr (g : Get) : Z := UDMAProfileRegisteredAddr registry (ca_rank a) kReduceGradStagingRegion (get_local g).
Definition remote_addr (g : Get) : Z := UDMAProfileRegisteredAddr registry rank (get_region g) (get_remote g).

(** A get the profile allows, with unsigned arguments. *)
Record get_ok (g : Get) : Prop := {
  go_rank : get_rank g = rank;
  go_qp : get_qp g = qp;
  go_valid : UDMAProfileGetOperationValid true args info registry rank qp kReduceGradStagingRegion (get_local g) (get_region g) (get_remote g) (get_bytes g) = true;
  go_unsigned : 0 <= get_local g /\ 0 <= get_remote g /\ 0 <= get_bytes g
}.

(** A valid range lies in its region, and its address does not wrap. *)
Lemma range_addr r region offset count : lane_qp -> 0 <= offset -> 0 <= count ->
  UDMAProfileRegisteredRangeValid registry r region offset count = true ->
  exists desc, UDMAProfileGetRegion registry r region = Some desc /\ UDMAProfileRegisteredAddr registry r region offset = pd_base desc + offset /\
    pd_base desc <> 0 /\ 0 < pd_base desc + offset < 2 ^ 64 /\ offset + count <= pd_bytes desc.
Proof using Type.
  intros Hq Ho Hc Hv. unfold UDMAProfileRegisteredRangeValid, UDMAProfileRegisteredAddr in *.
  destruct (UDMAProfileGetRegion registry r region) as [desc|] eqn:E; [|done]. exists desc. destruct (lq_regions Hq _ _ _ E) as (R1 & R2 & R3).
  destruct (region_valid desc R1 R2 R3) as (_ & _ & _ & R4). unfold UINT64_MAX in R4.
  case_if_in Hv; [done|]. b2p. rewrite (proj2 (Z.eqb_neq (pd_base desc) 0)) by done. rewrite (proj2 (Z.ltb_ge (pd_bytes desc) offset)) by lia. cbn [orb].
  split; [done|]. split; [apply u64_small; change (2 ^ 64) with 18446744073709551616 in *; lia|]. lia.
Qed.

(** The two regions of a get. *)
Definition get_regions (g : Get) : Prop :=
  exists local remote, UDMAProfileGetRegion registry (ca_rank a) kReduceGradStagingRegion = Some local /\
    UDMAProfileGetRegion registry rank (get_region g) = Some remote /\
    local_addr g = pd_base local + get_local g /\ get_local g + get_bytes g <= pd_bytes local /\
    remote_addr g = pd_base remote + get_remote g /\ get_remote g + get_bytes g <= pd_bytes remote.

Lemma get_in_regions g : lane_qp -> get_ok g ->
  get_regions g /\ 0 < local_addr g < 2 ^ 64 /\ 0 < remote_addr g < 2 ^ 64 /\ 0 < get_bytes g <= 0xFFFFFFFF.
Proof using Eargs.
  intros Hq [_ _ Hv (U1 & U2 & U3)]. unfold UDMAProfileGetOperationValid in Hv. rewrite Eargs in Hv.
  case_eq registry; [|intros E; by rewrite E in Hv]. intros r Er. rewrite Er in Hv at 1.
  case_if_in Hv; [done|]. case_if_in Hv; [done|]. apply andb_prop in Hv as [V1 V2]. rewrite <- Eargs in *. b2p.
  destruct (range_addr _ _ _ _ Hq U1 U3 V1) as (d1 & G1 & E1 & _ & F1 & B1). destruct (range_addr _ _ _ _ Hq U2 U3 V2) as (d2 & G2 & E2 & _ & F2 & B2).
  fold (local_addr g) in E1. fold (remote_addr g) in E2. split; [exists d1, d2; done|]. lia.
Qed.

Lemma get_args g : lane_qp -> get_ok g ->
  post_args info rank qp READ scratch (remote_addr g) (local_addr g) (get_bytes g) TILEXR_UDMA_SQE_FLAG_ORDERED_COMPLETION None mi /\
  post_widths (remote_addr g) (local_addr g) (get_bytes g) TILEXR_UDMA_SQE_FLAG_ORDERED_COMPLETION None.
Proof using Eargs.
  intros Hq Hg. destruct (get_in_regions g Hq Hg) as (_ & H1 & H2 & H3). destruct Hq as [_ _ Q1 Q2 Q3 _]. split; constructor; (done || lia).
Qed.

Lemma post_get_eq g m t : get_ok g -> post_get g m t = UDMAPostSend hw READ false info scratch (remote_addr g) (local_addr g) rank qp (get_bytes g) None
    TILEXR_UDMA_SQE_FLAG_ORDERED_COMPLETION m t.
Proof using Eargs.
  intros [E1 E2 Hv _]. unfold post_get, UDMAProfileGetNbiOnQpDeferred. rewrite E1, E2, Hv, Eargs. done.
Qed.

(** One get. *)
Definition get_entry (g : Get) (m : Mem) (log : list (list Z)) : list Z :=
  posted_entry wq READ (remote_addr g) (local_addr g) (get_bytes g) mi None TILEXR_UDMA_SQE_FLAG_ORDERED_COMPLETION m log.

Definition get_decoded (w : Z -> Z) (g : Get) (head : Z) : Prop :=
  wqe_decoded w READ (remote_addr g) (local_addr g) (get_bytes g) None TILEXR_UDMA_SQE_FLAG_ORDERED_COMPLETION head.

Lemma post_get_spec g m t log c : lane_qp -> get_ok g -> ring_ok wq cq m log c -> one_block log -> posted log + 1 - c <= TILEXR_UDMA_SQ_BB_COUNT ->
  let r := post_get g m t in
  po_status r = TILEXR_UDMA_STATUS_SUCCESS /\ ring_ok wq cq (po_mem r) (log ++ [get_entry g m log]) c /\ one_block (log ++ [get_entry g m log]) /\
  get_decoded (fun j => nth (Z.to_nat j) (get_entry g m log) 0) g (posted log).
Proof using Eargs.
  intros Hq Hg Hr Hl Hroom r. unfold r. rewrite (post_get_eq g m t Hg). destruct (get_args g Hq Hg) as [Ha Hw]. pose proof (ri_reaped _ _ _ _ _ Hr) as Rp.
  pose proof (position_one log (posted log) Hl ltac:(lia)) as Ep. assert (room log READ c) as Hr1.
  { unfold room. rewrite Ep, (position_one log c Hl) by lia. cbn. lia. }
  rewrite (post_send_room info rank qp wq cq (lq_queue Hq) hw log READ scratch _ _ _ _ _ mi false m t c Ha Hr Hr1).
  destruct (submit_accepted info rank qp wq cq (lq_queue Hq) log READ scratch _ _ _ _ _ mi false m t c Ha Hr Hr1) as (S1 & S2 & _).
  split; [done|]. split; [done|]. split; [apply Forall_app; split; [done|by constructor]|].
  unfold get_decoded, get_entry, posted_entry. rewrite Ep. apply wqe_fields; [unfold posted; lia|done|done].
Qed.

Lemma post_all_spec gs m t log c : lane_qp -> Forall get_ok gs -> ring_ok wq cq m log c -> one_block log ->
  posted log + Z.of_nat (length gs) - c <= TILEXR_UDMA_SQ_BB_COUNT ->
  exists entries, fst (post_all gs m t) = replicate (length gs) TILEXR_UDMA_STATUS_SUCCESS /\ length entries = length gs /\
    ring_ok wq cq (snd (post_all gs m t)) (log ++ entries) c /\ one_block (log ++ entries) /\
    (forall i g, gs !! i = Some g -> exists e, entries !! i = Some e /\ get_decoded (fun j => nth (Z.to_nat j) e 0) g (posted log + Z.of_nat i)).
Proof using Eargs.
  intros Hq Hgs. revert m log. induction Hgs as [|g gs Hg Hgs IH]; intros m log Hr Hl Hroom; cbn [length] in Hroom.
  - exists []. rewrite app_nil_r. split_and!; try done.
  - destruct (post_get_spec g m t log c Hq Hg Hr Hl ltac:(lia)) as (S1 & S2 & S3 & S4). set (e := get_entry g m log) in *.
    assert (posted (log ++ [e]) = posted log + 1) as Ep by (unfold posted; rewrite length_app; cbn; lia).
    destruct (IH _ _ S2 S3 ltac:(lia)) as (entries & E1 & E2 & E3 & E4 & E5). exists (e :: entries). cbn [post_all].
    destruct (post_all gs (po_mem (post_get g m t)) t) as [statuses m'] eqn:Eall. cbn [fst snd length replicate] in *. rewrite <- app_assoc in E3, E4.
    split; [by rewrite S1, E1|]. split; [by rewrite E2|]. split; [done|]. split; [done|].
    intros [|i] g' Hg'; cbn in Hg'; [injection Hg' as <-; exists e; split; [done|by rewrite Z.add_0_r]|].
    destruct (E5 i g' Hg') as (e' & ? & Hd). exists e'. split; [done|]. rewrite Ep in Hd. by replace (posted log + Z.of_nat (S i)) with (posted log + 1 + Z.of_nat i) by lia.
Qed.

(** The frontier and the door bell. *)
Lemma frontier_spec m log c : lane_qp -> ring_ok wq cq m log c -> one_block log ->
  UDMAProfileCompletionFrontier args info registry rank qp m = u32 (posted log).
Proof using Type.
  intros Hq Hr Hl. unfold UDMAProfileCompletionFrontier. rewrite (lq_profile Hq).
  destruct (contexts_depth wq cq (qa_contexts _ _ _ _ _ (lq_queue Hq))) as (_ & _ & _ & B & _). rewrite (proj2 (Z.eqb_neq _ 0) B).
  unfold ld_dev. rewrite (ri_head _ _ _ _ _ Hr), position_one by (done || (pose proof (ri_reaped _ _ _ _ _ Hr); lia)). done.
Qed.

Lemma flush_spec m t log c : lane_qp -> ring_ok wq cq m log c ->
  UDMAProfileFlushQpDoorbell args info registry rank qp m t =
  {| po_status := TILEXR_UDMA_STATUS_SUCCESS; po_mem := UDMARingDoorbell m (u32 (position log (posted log))) wq; po_time := t |}.
Proof using Type.
  intros Hq Hr. unfold UDMAProfileFlushQpDoorbell, flush_queue. rewrite (lq_profile Hq). pose proof (qa_contexts _ _ _ _ _ (lq_queue Hq)) as Hctx.
  destruct (contexts_depth wq cq Hctx) as (-> & _ & _ & B1 & B2). destruct (cx_set _ _ Hctx) as [_ B3]. test_set. cbn [orb negb].
  change (TILEXR_UDMA_SQ_BB_COUNT =? TILEXR_UDMA_SQ_BB_COUNT) with true. cbn [negb]. unfold ld_dev. rewrite (ri_head _ _ _ _ _ Hr), (ri_tail _ _ _ _ _ Hr).
  pose proof (ri_reaped _ _ _ _ _ Hr). pose proof (position_le log c (posted log) (ri_log _ _ _ _ _ Hr) ltac:(lia) ltac:(lia)).
  pose proof (ri_room _ _ _ _ _ Hr) as Hroom. change TILEXR_UDMA_SQ_BB_COUNT with 16384 in *. rewrite u32_sub by lia. by rewrite (proj2 (Z.ltb_ge _ _)) by lia.
Qed.

(** C17: the gets of a wave to one rank, posted through the wrapper without the door bell, with the
    frontier and the door bell behind them. Every get the profile allows is accepted when the
    send ring has a block for each; the ring then holds, behind the entries that are
    outstanding, one read per get in the order of the calls, each with the address of its row
    inside the region of the peer, the address of its chunk inside the staging region and its
    size; the frontier is the number of entries ever posted at 32 bits, the door bell is
    accepted, rings that position and leaves the queue sound. *)
Theorem udma_profile_gets gs m t log c : lane_qp -> Forall get_ok gs -> ring_ok wq cq m log c -> one_block log ->
  posted log + Z.of_nat (length gs) - c <= TILEXR_UDMA_SQ_BB_COUNT ->
  let m' := snd (post_all gs m t) in
  let flush := UDMAProfileFlushQpDoorbell args info registry rank qp m' t in
  let frontier := posted log + Z.of_nat (length gs) in
  fst (post_all gs m t) = replicate (length gs) TILEXR_UDMA_STATUS_SUCCESS /\
  UDMAProfileCompletionFrontier args info registry rank qp m' = u32 frontier /\
  po_status flush = TILEXR_UDMA_STATUS_SUCCESS /\ po_mem flush (wq_dbAddr wq) = u32 frontier /\
  (exists entries, length entries = length gs /\ one_block (log ++ entries) /\ ring_ok wq cq (po_mem flush) (log ++ entries) c) /\
  (forall i g, gs !! i = Some g ->
     get_decoded (fun j => po_mem flush (word_addr wq (posted log + Z.of_nat i) j)) g (posted log + Z.of_nat i) /\
     get_regions g).
Proof using Eargs.
  intros Hq Hgs Hr Hl Hroom m' flush frontier. destruct (post_all_spec gs m t log c Hq Hgs Hr Hl Hroom) as (entries & E1 & E2 & E3 & E4 & E5). fold m' in E3.
  assert (posted (log ++ entries) = frontier) as Ep by (unfold posted, frontier; rewrite length_app; unfold posted; lia).
  pose proof (qa_contexts _ _ _ _ _ (lq_queue Hq)) as Hctx. pose proof (ri_reaped _ _ _ _ _ E3) as Rp. pose proof (ri_reaped _ _ _ _ _ Hr) as Rp0.
  pose proof (ring_bell wq cq Hctx m' (log ++ entries) c (u32 frontier) E3) as Hb.
  assert (flush = {| po_status := TILEXR_UDMA_STATUS_SUCCESS; po_mem := UDMARingDoorbell m' (u32 frontier) wq; po_time := t |}) as ->.
  { unfold flush. by rewrite (flush_spec m' t _ c Hq E3), Ep, (position_one _ frontier E4) by lia. }
  cbn [po_status po_mem]. split; [done|]. split; [by rewrite (frontier_spec m' _ c Hq E3 E4), Ep|]. split; [done|]. split.
  { unfold UDMARingDoorbell, st_dev. rewrite upd1_eq. apply u32_small, u32_range. }
  split; [by exists entries|]. intros i g Hg. destruct (E5 i g Hg) as (e & He & Hd). pose proof (lookup_lt_Some _ _ _ Hg) as Hi. split.
  - eapply wqe_decoded_ext; [|exact Hd]. intros j Hj. cbn in Hj. rewrite <- (position_one (log ++ entries) (posted log + Z.of_nat i) E4) by lia.
    assert ((log ++ entries) !! Z.to_nat (posted log + Z.of_nat i) = Some e) as Hlk.
    { unfold posted. rewrite lookup_app_r by lia. replace (Z.to_nat _ - length log)%nat with i by lia. done. }
    apply (ri_blocks _ _ _ _ _ Hb _ e); [lia|done|]. pose proof (ri_log _ _ _ _ _ E3) as L. unfold one_block in E4. rewrite Forall_lookup in L, E4.
    destruct (L _ _ Hlk) as [-> _]. rewrite (E4 _ _ Hlk). lia.
  - rewrite Forall_lookup in Hgs. apply (get_in_regions g Hq (Hgs _ _ Hg)).
Qed.

(** ** Waits *)

Section wait.
Context (log : list (list Z)) (complete : Z -> Z) (failure : Z -> Z * Z) (Hdev : device_ok hw cq log complete failure).

Lemma quiet_outcome m t c k : lane_qp -> ring_ok wq cq m log c -> c <= complete t -> c <= k <= posted log ->
  poll_outcome wq cq log complete failure m t c k
    (UDMAProfileQuietStatusOnQpUntil hw args info registry rank qp (u32 (position log k)) m t).
Proof using Hdev.
  intros Hq Hr Hct Hk. unfold UDMAProfileQuietStatusOnQpUntil. rewrite (lq_profile Hq). pose proof (qa_contexts _ _ _ _ _ (lq_queue Hq)) as Hctx.
  destruct (contexts_depth wq cq Hctx) as (-> & _ & _ & B1 & B2). destruct (qa_info _ _ _ _ _ (lq_queue Hq)) as (i & Ei & _ & _ & _ & B3 & _).
  rewrite Ei at 1. test_set. cbn [orb]. change (TILEXR_UDMA_SQ_BB_COUNT =? TILEXR_UDMA_SQ_BB_COUNT) with true. cbn [negb].
  unfold ld_dev. rewrite (ri_head _ _ _ _ _ Hr), (ri_tail _ _ _ _ _ Hr). pose proof (ri_reaped _ _ _ _ _ Hr). pose proof (ri_log _ _ _ _ _ Hr) as L.
  pose proof (position_le log c k L ltac:(lia) ltac:(lia)). pose proof (position_le log k (posted log) L ltac:(lia) ltac:(lia)).
  pose proof (ri_room _ _ _ _ _ Hr) as Hroom. change TILEXR_UDMA_SQ_BB_COUNT with 16384 in *. rewrite !u32_sub by lia. case_if; [b2p; lia|].
  by apply poll_until_sq_outcome; [apply (lq_queue Hq)|..].
Qed.
End wait.
End queue.

(** ** The answers of the queues of a lane *)

(** A queue pair to a rank: its contexts, the device behind it, what was posted and reaped, and the
    memory and the time of a call. *)
Record RankQueue := {
  rq_wq : UDMAWQCtx; rq_cq : UDMACQCtx; rq_mi : UDMAMemInfo; rq_hw : Z -> Mem; rq_complete : Z -> Z;
  rq_failure : Z -> Z * Z; rq_log : list (list Z); rq_reaped : Z; rq_mem : Mem; rq_time : Z
}.

Section answers.
Context (args : option CommArgs) (info : option UDMAInfo) (registry : option TileXRUDMAProfileRegistry) (scratch : Scratch) (qp : Z).

Record rank_queue_ok (rank : Z) (q : RankQueue) : Prop := {
  rk_lane : lane_qp args info registry scratch rank qp (rq_wq q) (rq_cq q) (rq_mi q);
  rk_device : device_ok (rq_hw q) (rq_cq q) (rq_log q) (rq_complete q) (rq_failure q);
  rk_ring : ring_ok (rq_wq q) (rq_cq q) (rq_mem q) (rq_log q) (rq_reaped q);
  rk_gets : one_block (rq_log q);
  rk_complete : rq_reaped q <= rq_complete q (rq_time q);
  rk_sound n : 0 <= n < rq_reaped q -> rq_failure q n = (0, 0)
}.

(** The call of [CompleteWave] for a rank, and the queue behind it. *)
Definition quiet_call (rank : Z) (q : RankQueue) (frontier : Z) : Polled :=
  UDMAProfileQuietStatusOnQpUntil (rq_hw q) args info registry rank qp (u32 frontier) (rq_mem q) (rq_time q).

Definition behind_call (q : RankQueue) (r : Polled) (reaped : Z) : RankQueue :=
  {| rq_wq := rq_wq q; rq_cq := rq_cq q; rq_mi := rq_mi q; rq_hw := rq_hw q; rq_complete := rq_complete q;
     rq_failure := rq_failure q; rq_log := rq_log q; rq_reaped := reaped; rq_mem := po_mem r; rq_time := po_time r |}.

Lemma quiet_call_outcome rank q frontier : rank_queue_ok rank q -> rq_reaped q <= frontier <= posted (rq_log q) ->
  poll_outcome (rq_wq q) (rq_cq q) (rq_log q) (rq_complete q) (rq_failure q) (rq_mem q) (rq_time q) (rq_reaped q) frontier
    (quiet_call rank q frontier).
Proof using Type.
  intros [K1 K2 K3 K4 K5 _] Hf. unfold quiet_call. pose proof (ri_reaped _ _ _ _ _ K3). 
  replace (u32 frontier) with (u32 (position (rq_log q) frontier)) by (by rewrite position_one by (done || lia)).
  by eapply quiet_outcome.
Qed.

Lemma quiet_call_success rank q frontier : rank_queue_ok rank q -> rq_reaped q <= frontier <= posted (rq_log q) ->
  po_status (quiet_call rank q frontier) = TILEXR_UDMA_STATUS_SUCCESS ->
  rank_queue_ok rank (behind_call q (quiet_call rank q frontier) frontier).
Proof using Type.
  intros Hq Hf Hs. pose proof (quiet_call_outcome rank q frontier Hq Hf) as Ho. destruct Hq as [K1 K2 K3 K4 K5 K6].
  destruct (outcome_status _ _ _ _ _ _ K2 _ _ _ _ _ Ho) as (_ & _ & H). destruct (H Hs) as (H1 & H2 & H3).
  constructor; try done. cbn. intros n Hn. destruct (Z.lt_ge_cases n (rq_reaped q)); [apply K6; lia|apply H3; lia].
Qed.

Context {V : Type} (l : ReduceGradLayout) (o : Oracle) (lane : Z) (s : System (V:=V)) (qs : Z -> RankQueue).
Let ready := ld_pending (ls_leader (sy_lanes s lane)) (bank_of (ld_next (ls_leader (sy_lanes s lane)))).

(** The answers to a lane are those of the wrapper, from sound queues whose frontiers are between
    what is reaped and what is posted; a get that completed without a failure has arrived. *)
Record lane_answers : Prop := {
  la_queue rank : pw_used ready rank = true -> rank_queue_ok rank (qs rank);
  la_frontier rank : pw_used ready rank = true -> rq_reaped (qs rank) <= pw_frontiers ready rank <= posted (rq_log (qs rank));
  la_quiet rank : pw_used ready rank = true -> o_quiet o rank = po_status (quiet_call rank (qs rank) (pw_frontiers ready rank));
  la_arrived rank i : pw_used ready rank = true -> 0 <= i < rq_complete (qs rank) (po_time (quiet_call rank (qs rank) (pw_frontiers ready rank))) ->
    rq_failure (qs rank) i = (0, 0) -> ls_arrived (sy_lanes s lane) rank i = true
}.

(** C16: the wait for a wave through the wrapper. When the statuses of the queues of a lane come from
    [UDMAProfileQuietStatusOnQpUntil] at the frontiers of the wave, at 32 bits, over devices that
    keep their contract, the answers are sound for the protocol of the lanes: a queue that is
    reported quiet has no get of the wave, or of an earlier one, in flight. No queue is refused; a
    wave whose gets are complete and did not fail completes without a status; and a queue that
    was quiet is a sound queue with everything up to its frontier reaped. *)
Theorem udma_quiet_discharges : lane_answers ->
  oracle_sound o lane s /\
  (forall rank, pw_used ready rank = true -> o_quiet o rank <> TILEXR_UDMA_STATUS_INVALID) /\
  ((forall rank, pw_used ready rank = true -> pw_frontiers ready rank <= rq_complete (qs rank) (rq_time (qs rank)) /\
     forall n, 0 <= n < pw_frontiers ready rank -> rq_failure (qs rank) n = (0, 0)) -> CompleteWave l ready (o_quiet o) = []) /\
  (forall rank, pw_used ready rank = true -> o_quiet o rank = TILEXR_UDMA_STATUS_SUCCESS ->
     rank_queue_ok rank (behind_call (qs rank) (quiet_call rank (qs rank) (pw_frontiers ready rank)) (pw_frontiers ready rank))).
Proof using Type.
  intros [A1 A2 A3 A4].
  assert (forall rank, pw_used ready rank = true -> o_quiet o rank = TILEXR_UDMA_STATUS_SUCCESS ->
     rank_queue_ok rank (behind_call (qs rank) (quiet_call rank (qs rank) (pw_frontiers ready rank)) (pw_frontiers ready rank))) as Hbehind.
  { intros rank Hu E. rewrite (A3 rank Hu) in E. apply quiet_call_success; auto. }
  assert (forall rank, pw_used ready rank = true -> o_quiet o rank <> TILEXR_UDMA_STATUS_INVALID /\
    (pw_frontiers ready rank <= rq_complete (qs rank) (rq_time (qs rank)) -> (forall n, 0 <= n < pw_frontiers ready rank -> rq_failure (qs rank) n = (0, 0)) ->
     o_quiet o rank = TILEXR_UDMA_STATUS_SUCCESS)) as Hst.
  { intros rank Hu. rewrite (A3 rank Hu). pose proof (quiet_call_outcome rank _ _ (A1 rank Hu) (A2 rank Hu)) as Ho.
    destruct (outcome_status _ _ _ _ _ _ (rk_device _ _ (A1 rank Hu)) _ _ _ _ _ Ho) as (H1 & H2 & _). split; [done|].
    intros Hc Hn. apply H2; [done|]. intros n ?. apply Hn. pose proof (ri_reaped _ _ _ _ _ (rk_ring _ _ (A1 rank Hu))). lia. }
  split; [|split; [|split; [|done]]].
  - intros rank Hu E i Hi. change (0 <= i < pw_frontiers ready rank) in Hi. destruct (Hbehind rank Hu E) as [_ _ _ _ K5 K6]. cbn in K5, K6. apply A4; [done|lia|by apply K6].
  - intros rank Hu. by apply Hst.
  - intros Hall. apply elem_of_nil_inv. intros v Hv. apply list_elem_of_fmap in Hv as (rank & _ & Hr). apply list_elem_of_filter in Hr as [Hb _].
    b2p. destruct (Hall rank) as [Hc Hn]; [done|]. assert (o_quiet o rank <> TILEXR_UDMA_STATUS_SUCCESS) as Hne by done. apply Hne. by apply Hst.
Qed.
End answers.

(** ** A lane with one get *)

Module SampleGrad.
Definition info : UDMAInfo := {| qpNum := 1; sqPtr := 8; scqPtr := 16; memPtr := 24;
  wq_entries := fun _ => Sample.wq; cq_entries := fun _ => Sample.cq; mem_entries := fun _ => Sample.mi |}.
Definition args : CommArgs := {| ca_rank := 1; ca_rankSize := 2; extraFlag := 1024; udmaInfoPtr := Some info; udmaRegistryPtr := None |}.
Definition registry : TileXRUDMAProfileRegistry := {| pr_magic := TILEXR_UDMA_PROFILE_MAGIC; pr_version := TILEXR_UDMA_PROFILE_VERSION;
  pr_rankSize := 2; pr_regionCount := 2; pr_qpCount := 1;
  pr_regions := fun i => {| pd_base := 2 ^ 40; pd_bytes := 65536; registrationBase := 2 ^ 40; registrationBytes := 65536 |};
  qpBindings := fun _ => {| localRegion := 0; remoteRegion := 1 |} |}.

(** One get was posted and completes at time 5. *)
Definition log : list (list Z) := [replicate 16 7].
Definition complete (t : Z) : Z := if t <? 5 then 0 else 1.
Definition failure (n : Z) : Z * Z := (0, 0).
Definition hw (t a : Z) : Z := if a =? 4194304 then (if t <? 5 then 0 else 4) else 0.
Definition mem (a : Z) : Z :=
  if a =? 64 then 1 else if a =? 76 then 1 else if (1048576 <=? a) && (a <? 1048576 + 64) then 7 else 0.

Lemma sample_lane : lane_qp (Some args) (Some info) (Some registry) Sample.scratch 0 0 Sample.wq Sample.cq Sample.mi.
Proof.
  constructor; try done.
  - constructor; [exists info; cbn; unfold TILEXR_UDMA_DEVICE_MAX_QP_COUNT; split_and!; done || lia|done|done|apply Sample.sample_contexts].
  - intros r region desc. unfold UDMAProfileGetRegion. case_if; [done|]. intros [= <-]. done.
Qed.

Lemma lane_device : device_ok hw Sample.cq log complete failure.
Proof.
  constructor.
  - intros t t' H. unfold complete. repeat case_if; b2p; lia.
  - intros t. unfold complete. by case_if.
  - intros t n Hn Hn' addr. unfold addr. rewrite Sample.sample_cqe. unfold complete in Hn. destruct (t <? 5) eqn:Ht; [lia|].
    assert (n = 0) as -> by lia. unfold hw. rewrite Ht. done.
  - intros t n Hn Hc. rewrite Sample.sample_cqe. unfold TILEXR_UDMA_CQ_DEPTH in *. unfold hw, complete in *.
    destruct (Z.eqb_spec (4194304 + 64 * (n mod 16384)) 4194304).
    + destruct (t <? 5); [assert (n = 0) as -> by div_lia|assert (n = 16384) as -> by div_lia]; done.
    + replace (n / 16384) with 0; [done|]. destruct (t <? 5); div_lia.
  - intros n. done.
Qed.

Lemma lane_ring : ring_ok Sample.wq Sample.cq mem log 0.
Proof.
  constructor; try done.
  - unfold log. repeat constructor; done.
  - intros n entry i Hn He Hi. assert (n = 0) as ->.
    { pose proof (lookup_lt_Some _ _ _ He) as Hl. cbn in Hl. lia. }
    assert (entry = replicate 16 7) as -> by (change (Some (replicate 16 7) = Some entry) in He; congruence). rewrite length_replicate in Hi.
    rewrite nth_lookup, lookup_replicate_2 by lia. cbn [from_option]. unfold id.
    unfold word_addr. change (position log 0) with 0. cbn [wq_bufAddr wq_depth Sample.wq]. unfold TILEXR_UDMA_WQE_BB_BYTES, mem.
    assert (1048576 <= 1048576 + (0 + i / 16) mod 16384 * 64 + 4 * (i mod 16) < 1048576 + 64) as Ha by (clear - Hi; div_lia).
    set (x := 1048576 + _ + _) in *. clearbody x. repeat case_if; b2p; lia.
Qed.

Lemma sample_one : one_block log.
Proof. by repeat constructor. Qed.

Definition gets : list Get :=
  [{| get_rank := 0; get_qp := 0; get_local := 0; get_region := 1; get_remote := 8192; get_bytes := 4096 |};
   {| get_rank := 0; get_qp := 0; get_local := 4096; get_region := 1; get_remote := 61440; get_bytes := 4096 |}].

Lemma sample_gets : Forall (get_ok (Some args) (Some info) (Some registry) 0 0) gets.
Proof. unfold gets. repeat constructor; done. Qed.

(** A lane that waits for a wave with that get. *)
Definition pending : ReduceGradPendingWave := {| pw_used := fun rank => rank =? 0; pw_frontiers := fun rank => if rank =? 0 then 1 else 0;
  pw_chunkIndex := 0; pw_itemChunkBytes := 4096; pw_sequence := 1; pw_projection := 0; pw_localExpert := 0; pw_waveStart := 0;
  pw_contributorCount := 1; pw_remoteContributorCount := 1 |}.
Definition leader : Leader := {| ld_pc := LReady; ld_work := []; ld_sequence := 1; ld_next := 1; ld_pending := fun _ => pending;
  ld_issued := fun _ => true; ld_published := fun _ => false; ld_bankSequence := fun _ => 0 |}.
Definition system : System (V:=Z) := {| sy_lanes := fun _ => {| ls_ready := fun _ => 0; ls_item := fun _ => []; ls_done := fun _ _ => 0;
    ls_abort := 0; ls_queue := fun _ => []; ls_arrived := fun rank i => (rank =? 0) && (i =? 0); ls_leader := leader;
    ls_helpers := fun _ => {| hp_pc := HReturned; hp_sequence := 0; hp_ub := {| ub_accum := fun _ _ => 0; ub_input := fun _ _ => 0 |} |} |};
  sy_shared := {| sh_grad := fun _ _ => 0; sh_workspace := fun _ => 0; sh_status := 0 |} |}.
Definition queue (t : Z) : RankQueue := {| rq_wq := Sample.wq; rq_cq := Sample.cq; rq_mi := Sample.mi; rq_hw := hw; rq_complete := complete;
  rq_failure := failure; rq_log := log; rq_reaped := 0; rq_mem := mem; rq_time := t |}.
Definition oracle (t : Z) : Oracle := {| o_post := fun _ => true; o_flush := fun _ => true;
  o_quiet := fun rank => po_status (quiet_call (Some args) (Some info) (Some registry) 0 rank (queue t) (pw_frontiers pending rank)) |}.

Lemma sample_answers t : lane_answers (Some args) (Some info) (Some registry) Sample.scratch 0 (oracle t) 0 system (fun _ => queue t).
Proof.
  constructor.
  - intros rank Hu. apply Z.eqb_eq in Hu as ->. constructor; [apply sample_lane|apply lane_device|apply lane_ring|apply sample_one| |cbn; lia]. cbn. unfold complete. by case_if.
  - intros rank Hu. by apply Z.eqb_eq in Hu as ->.
  - done.
  - intros rank i Hu Hi _. apply Z.eqb_eq in Hu as ->. cbn in Hi |- *. change (0 =? 0) with true. cbn [andb]. apply Z.eqb_eq. unfold complete in Hi. case_if_in Hi; lia.
Qed.
End SampleGrad.

Lemma udma_profile_gets_witness :
  UDMAProfileCompletionFrontier (Some SampleGrad.args) (Some SampleGrad.info) (Some SampleGrad.registry) 0 0
    (snd (post_all SampleGrad.hw (Some SampleGrad.args) (Some SampleGrad.info) (Some SampleGrad.registry) Sample.scratch SampleGrad.gets SampleGrad.mem 0)) =
  u32 (posted SampleGrad.log + Z.of_nat (length SampleGrad.gets)).
Proof.
  exact (proj1 (proj2 (udma_profile_gets SampleGrad.hw (Some SampleGrad.args) (Some SampleGrad.info) (Some SampleGrad.registry) Sample.scratch 0 SampleGrad.args eq_refl
    0 Sample.wq Sample.cq Sample.mi SampleGrad.gets SampleGrad.mem 0 SampleGrad.log 0 SampleGrad.sample_lane SampleGrad.sample_gets SampleGrad.lane_ring
    SampleGrad.sample_one ltac:(done)))).
Defined.

Lemma udma_quiet_discharges_witness : exists l, sample_layout = Some l /\ oracle_sound (SampleGrad.oracle 3) 0 SampleGrad.system /\
  CompleteWave l SampleGrad.pending (o_quiet (SampleGrad.oracle 7)) = [].
Proof.
  with_sample l E. exists l. split; [done|]. split.
  - apply (udma_quiet_discharges (Some SampleGrad.args) (Some SampleGrad.info) (Some SampleGrad.registry) Sample.scratch 0 l _ _ _ _ (SampleGrad.sample_answers 3)).
  - apply (udma_quiet_discharges (Some SampleGrad.args) (Some SampleGrad.info) (Some SampleGrad.registry) Sample.scratch 0 l _ _ _ _ (SampleGrad.sample_answers 7)).
    intros rank Hu. cbn in Hu. apply Z.eqb_eq in Hu as ->. done.
Defined.
