(* ===== verification/PlanKernel.v ===== *)
(** The planner kernel on all the ranks of a job
    (src/src/moonep/planner_v2/kernels/tilexr_moonep_planner_kernel.cpp): every rank publishes its
    inputs into the mailboxes of the others, waits for all of them, plans, publishes its status,
    waits, agrees on a status, waits again, publishes once more, and commits the epoch when every
    status it reads is [PLAN_OK]. Ranks interleave arbitrarily and meet only through mailbox rows
    and barrier words; every wait may time out. One transition is one remote row write, one
    barrier word write, one successful poll, one row read, or a local computation. *)
From S2P Require Import Prelude Layouts PlanTypes PlanSort PlanAlgorithm PlanOutput CombineWire PlanWorkspace.

(** ** Constants, headers and status words *)

Definition kFnvOffset : Z := 1469598103934665603.
Definition kFnvPrime : Z := 1099511628211.
Definition kPlanAbiVersion : Z := 1.
Definition kPlanAffinityCacheValid : Z := 1.
Definition kPlannerStatusTimeoutBase : Z := 1000.
Definition kPlannerReadyEventId : Z := 4096.
Definition SYNC_UNIT_SIZE : Z := 32.
Definition IPC_DATA_OFFSET : Z := 2 * 1024 * 1024.
Definition MAGIC_OFFSET : Z := 32.
Definition MAGIC_MASK : Z := Z.lxor UINT64_MAX (Z.shiftl 1 MAGIC_OFFSET - 1).
Definition kPlannerBarrierStrideBytes : Z := 512.
Definition kPlannerBarrierBaseBytes : Z := kPlannerReadyEventId * SYNC_UNIT_SIZE.
Definition kBarrierDebugBuildTag : Z := 1511506142.
Definition sizeof_PlanCallHeader : Z := 112.

(** [kPhaseData], [kPhaseStatus], [kPhaseReady] and [kPhaseConsensus]. *)
Inductive BarrierPhase : Set := Data | Status | ReadyPhase | Consensus.

#[global] Instance barrier_phase_eq_dec : EqDecision BarrierPhase.
Proof. solve_decision. Defined.

Definition phase_number (ph : BarrierPhase) : Z :=
  match ph with Data => 1 | Status => 2 | ReadyPhase => 3 | Consensus => 4 end.

Record PlanCallHeader := {
  h_abiVersion : Z; h_headerBytes : Z; h_rankSize : Z; h_reserved0 : Z; h_s : Z; h_k : Z;
  h_expertNum : Z; h_prefetchSlots : Z; h_rankTokenCapacity : Z; h_nvS : Z; h_tokenPadding : Z;
  h_tokenRouteLimitPerPair : Z; h_cardsPerServer : Z; h_cardsPerCabinet : Z;
  h_crossCandidateCount : Z; h_reserved1 : Z; h_epoch : Z; h_topologyHash : Z
}.

Record PlanEpochState := { requestedEpoch : Z; committedEpoch : Z; topologyHash : Z; reserved : Z }.

(** A two's complement 32-bit reading, as [static_cast<int32_t>]. *)
Definition i32 (x : Z) : Z := let y := u32 x in if y <=? INT32_MAX then y else y - 4294967296.

Definition BuildTopologyHash (globalRankIds : Z -> Z) (rankSize : Z) : Z :=
  foldl (fun hash rank => (Z.lxor hash (u32 (globalRankIds rank)) * kFnvPrime)%u64)
    kFnvOffset (seqZ 0 rankSize).

Definition FillHeader (rankSize s topK expertNum : Z) (c : TileXRMoonEPPlanConfig)
    (epoch hash : Z) : PlanCallHeader :=
  {| h_abiVersion := kPlanAbiVersion; h_headerBytes := sizeof_PlanCallHeader; h_rankSize := rankSize;
     h_reserved0 := 0; h_s := s; h_k := topK; h_expertNum := expertNum;
     h_prefetchSlots := prefetchSlots c; h_rankTokenCapacity := rankTokenCapacity c;
     h_nvS := nvS c; h_tokenPadding := tokenPadding c;
     h_tokenRouteLimitPerPair := tokenRouteLimitPerPair c; h_cardsPerServer := cardsPerServer c;
     h_cardsPerCabinet := cardsPerCabinet c; h_crossCandidateCount := crossCandidateCount c;
     h_reserved1 := 0; h_epoch := epoch; h_topologyHash := hash |}.

(** The comparison of one header with the first one; the reserved words are not compared. *)
Definition header_matches (current expected : PlanCallHeader) : bool :=
  negb (negb (h_abiVersion current =? h_abiVersion expected) ||
    negb (h_headerBytes current =? h_headerBytes expected) ||
    negb (h_rankSize current =? h_rankSize expected) || negb (h_s current =? h_s expected) ||
    negb (h_k current =? h_k expected) || negb (h_expertNum current =? h_expertNum expected) ||
    negb (h_prefetchSlots current =? h_prefetchSlots expected) ||
    negb (h_rankTokenCapacity current =? h_rankTokenCapacity expected) ||
    negb (h_nvS current =? h_nvS expected) || negb (h_tokenPadding current =? h_tokenPadding expected) ||
    negb (h_tokenRouteLimitPerPair current =? h_tokenRouteLimitPerPair expected) ||
    negb (h_cardsPerServer current =? h_cardsPerServer expected) ||
    negb (h_cardsPerCabinet current =? h_cardsPerCabinet expected) ||
    negb (h_crossCandidateCount current =? h_crossCandidateCount expected) ||
    negb (h_epoch current =? h_epoch expected) ||
    negb (h_topologyHash current =? h_topologyHash expected)).

Definition HeadersMatch (headers : Z -> PlanCallHeader) (rankSize : Z) : bool :=
  forallb (fun rank => header_matches (headers rank) (headers 0)) (seqZ 1 (rankSize - 1)).

(** The status of the job from the first words of the gathered rows. *)
Definition reduce_status (result candidate : Z) : Z :=
  if ((4 <=? candidate) && ((result <? 4) || (result <? candidate))) ||
     ((result <? candidate) && (result <? 4))
  then candidate else result.

Definition ReduceGlobalPlanStatus (rows : Z -> list Z) (rankSize : Z) : Z :=
  foldl (fun result rank => reduce_status result (nth 0 (rows rank) 0)) 0 (seqZ 0 rankSize).

(** ** Barrier words *)

Definition barrierValue (magic : Z) (ph : BarrierPhase) : Z :=
  Z.lor (Z.shiftl (u32 magic) MAGIC_OFFSET) (u32 (phase_number ph)).

(** One poll of [WaitPhase]. *)
Definition phase_ready (magic : Z) (ph : BarrierPhase) (value : Z) : bool :=
  let expected := barrierValue magic ph in
  (Z.land value MAGIC_MASK =? Z.land expected MAGIC_MASK) && (expected <=? value).

Definition BarrierSlotOffset (ph : BarrierPhase) (sourceRank rankSize : Z) : Z :=
  (kPlannerBarrierBaseBytes + ((phase_number ph - 1) * rankSize + sourceRank) * kPlannerBarrierStrideBytes)%u64.

(** What a failed wait leaves for the status: the phase and the peer waited for, and the two
    addresses noted while publishing. *)
Record BarrierDebug := {
  publishSelfAddress : Z; publishRemoteAddress : Z; dbg_peer : Z; dbg_phase : Z
}.

Definition note_address (rank rankSize : Z) (peerMems : Z -> Z) (barrierByteOffset : Z)
    (acc : Z * Z) (i : Z) : Z * Z :=
  let '(self, remote) := acc in
  let targetRank := (rank + i) mod rankSize in
  let address := (peerMems targetRank + barrierByteOffset)%u64 in
  if targetRank =? rank then (address, remote)
  else if remote =? 0 then (self, address) else acc.

Definition barrier_debug (rank rankSize : Z) (peerMems : Z -> Z) (ph : BarrierPhase) (peer : Z)
    : BarrierDebug :=
  let '(self, remote) := foldl (note_address rank rankSize peerMems (BarrierSlotOffset ph rank rankSize))
    (0, 0) (seqZ 0 rankSize) in
  {| publishSelfAddress := self; publishRemoteAddress := remote; dbg_peer := peer;
     dbg_phase := phase_number ph |}.

Definition WriteBarrierDebugStatus (value : Z) (debug : BarrierDebug) : list Z :=
  [ value; kBarrierDebugBuildTag; dbg_phase debug; dbg_peer debug;
    i32 (publishSelfAddress debug); i32 (Z.shiftr (publishSelfAddress debug) 32);
    i32 (publishRemoteAddress debug); i32 (Z.shiftr (publishRemoteAddress debug) 32) ].

Definition set_status0 (status : list Z) (v : Z) : list Z := v :: tail status.

(** ** State *)

(** The launch arguments of a rank, and what its registered metadata holds at launch. *)
Record KernelArgs := {
  a_s : Z; a_topK : Z; a_expertNum : Z; a_config : TileXRMoonEPPlanConfig; a_epoch : Z;
  a_topkExperts : Z -> Z; a_tokensPerExpert : Z -> Z; a_globalRankIds : Z -> Z;
  a_hasRemoteExperts : bool; a_hasExpertTargets : bool;
  a_epochState : PlanEpochState; a_affinityOrder : Z -> list Z; a_peerMems : Z -> Z
}.

(** A mailbox row: header, global rank id, status words and token counts of one source. *)
Record Row := { row_header : PlanCallHeader; row_id : Z; row_status : list Z; row_tpe : Z -> Z }.

Inductive Pc : Set :=
| PStart
| PPush (ph : BarrierPhase) (i : Z)
| PFlag (ph : BarrierPhase) (i : Z)
| PWait (ph : BarrierPhase) (i : Z)
| PGather (ph : BarrierPhase) (i : Z)
| PPlan
| PFinish
| PDone.

(** One rank: program counter, the caller's status words, the gathered metadata (an array
    element that does not exist reads 0), the epoch state, and the plan written to the outputs. *)
Record RankState := {
  rk_pc : Pc; rk_status : list Z; g_headers : Z -> PlanCallHeader; g_tpe : Z -> Z; g_ids : Z -> Z;
  g_status : Z -> list Z; rk_epoch : PlanEpochState;
  rk_plan : option (TileXRMoonEPPlanStatus * Outputs * list Z)
}.

(** [mailbox owner source] and [barriers owner phase source]. *)
Record Global := {
  ranks : Z -> RankState; mailbox : Z -> Z -> Row; barriers : Z -> BarrierPhase -> Z -> Z
}.

Definition set_rank (g : Global) (p : Z) (k : RankState) : Global :=
  {| ranks := upd1 (ranks g) p k; mailbox := mailbox g; barriers := barriers g |}.

Definition set_row (g : Global) (owner source : Z) (r : Row) : Global :=
  {| ranks := ranks g; mailbox := upd2 (mailbox g) owner source r; barriers := barriers g |}.

Definition set_barrier (g : Global) (owner : Z) (ph : BarrierPhase) (source value : Z) : Global :=
  {| ranks := ranks g; mailbox := mailbox g;
     barriers := fun o ph' s => if (o =? owner) && bool_decide (ph' = ph) && (s =? source)
                                then value else barriers g o ph' s |}.

Definition at_pc (k : RankState) (pc : Pc) : RankState :=
  {| rk_pc := pc; rk_status := rk_status k; g_headers := g_headers k; g_tpe := g_tpe k;
     g_ids := g_ids k; g_status := g_status k; rk_epoch := rk_epoch k; rk_plan := rk_plan k |}.

Definition with_status (k : RankState) (status : list Z) : RankState :=
  {| rk_pc := rk_pc k; rk_status := status; g_headers := g_headers k; g_tpe := g_tpe k;
     g_ids := g_ids k; g_status := g_status k; rk_epoch := rk_epoch k; rk_plan := rk_plan k |}.

Definition with_epoch (k : RankState) (e : PlanEpochState) : RankState :=
  {| rk_pc := rk_pc k; rk_status := rk_status k; g_headers := g_headers k; g_tpe := g_tpe k;
     g_ids := g_ids k; g_status := g_status k; rk_epoch := e; rk_plan := rk_plan k |}.

Definition with_plan (k : RankState) (r : TileXRMoonEPPlanStatus * Outputs * list Z) : RankState :=
  {| rk_pc := rk_pc k; rk_status := snd r; g_headers := g_headers k; g_tpe := g_tpe k;
     g_ids := g_ids k; g_status := g_status k; rk_epoch := rk_epoch k; rk_plan := Some r |}.

(** ** One rank *)

Section kernel.
Context (rankSize magic : Z) (args : Z -> KernelArgs).

Definition peerMailbox (p : Z) : PlanPeerMailboxLayout :=
  BuildPlanPeerMailboxLayout rankSize (a_expertNum (args p)).

Definition call_header (p : Z) : PlanCallHeader :=
  let a := args p in
  FillHeader rankSize (a_s a) (a_topK a) (a_expertNum a) (a_config a) (a_epoch a)
    (BuildTopologyHash (a_globalRankIds a) rankSize).

(** [PushPeerMailboxRowMte]: the first [bytes] of the local row replace those of the remote one. *)
Definition PushPeerMailboxRow (layout : PlanPeerMailboxLayout) (bytes : Z) (localRow remoteRow : Row) : Row :=
  {| row_header := row_header localRow; row_id := row_id localRow; row_status := row_status localRow;
     row_tpe := fun e => if e <? (bytes - mb_tpe layout) / sizeof_int32
                         then row_tpe localRow e else row_tpe remoteRow e |}.

(** Bytes pushed in the publication of a phase. *)
Definition push_bytes (p : Z) (ph : BarrierPhase) : Z :=
  match ph with Data => mb_inputBytes (peerMailbox p) | _ => kPlanPeerMailboxTransferBytes end.

(** The writes of [PublishInputs] to the row in the rank's own mailbox. *)
Definition publish_inputs (p : Z) (r : Row) : Row :=
  let a := args p in
  {| row_header := call_header p; row_id := a_globalRankIds a p; row_status := row_status r;
     row_tpe := fun e => if (0 <=? e) && (e <? a_expertNum a) then a_tokensPerExpert a e else row_tpe r e |}.

(** The write of [PublishStatus] to the rank's own row. *)
Definition publish_status (status : list Z) (r : Row) : Row :=
  {| row_header := row_header r; row_id := row_id r; row_status := status; row_tpe := row_tpe r |}.

(** One iteration of [GatherInputs]. *)
Definition GatherInput (p : Z) (source : Z) (r : Row) (k : RankState) : RankState :=
  let E := a_expertNum (args p) in
  {| rk_pc := rk_pc k; rk_status := rk_status k;
     g_headers := upd1 (g_headers k) source (row_header r);
     g_tpe := fun x => if (source * E <=? x) && (x <? source * E + E) then row_tpe r (x - source * E) else g_tpe k x;
     g_ids := upd1 (g_ids k) source (row_id r);
     g_status := g_status k; rk_epoch := rk_epoch k; rk_plan := rk_plan k |}.

(** One iteration of [GatherStatuses]. *)
Definition GatherStatus (source : Z) (r : Row) (k : RankState) : RankState :=
  {| rk_pc := rk_pc k; rk_status := rk_status k; g_headers := g_headers k; g_tpe := g_tpe k;
     g_ids := g_ids k; g_status := upd1 (g_status k) source (row_status r);
     rk_epoch := rk_epoch k; rk_plan := rk_plan k |}.

Definition affinityOrderValid (p : Z) : bool :=
  let e := a_epochState (args p) in
  negb (Z.land (reserved e) kPlanAffinityCacheValid =? 0) &&
  (topologyHash e =? BuildTopologyHash (a_globalRankIds (args p)) rankSize).

(** The input and workspace of the algorithm. *)
Definition plan_input (p : Z) (k : RankState) : PlanAlgorithmInput :=
  let a := args p in
  {| in_rank := p; in_rankSize := rankSize; in_s := a_s a; in_topK := a_topK a;
     in_expertNum := a_expertNum a; in_config := a_config a; topkExperts := a_topkExperts a;
     tokensPerExpert := g_tpe k; globalRankIds := g_ids k |}.

Definition plan_workspace (p : Z) : PlanAlgorithmWorkspace :=
  let a := args p in
  BindAlgorithmWorkspace rankSize (a_s a) (a_topK a) (tokenRouteLimitPerPair (a_config a))
    (a_hasRemoteExperts a) (a_hasExpertTargets a)
    (if affinityOrderValid p then Some (a_affinityOrder a) else None).

(** The epoch state after the algorithm: a freshly built affinity table is marked valid. *)
Definition note_affinity (p : Z) (built : bool) (e : PlanEpochState) : PlanEpochState :=
  if built && negb (affinityOrderValid p)
  then {| requestedEpoch := requestedEpoch e; committedEpoch := committedEpoch e;
          topologyHash := BuildTopologyHash (a_globalRankIds (args p)) rankSize;
          reserved := kPlanAffinityCacheValid |}
  else e.

(** The rank's own row takes its status words, and the row is sent round. *)
Definition start_status_push (p : Z) (ph : BarrierPhase) (k : RankState) (g : Global) : Global :=
  set_row (set_rank g p (at_pc k (PPush ph 1))) p p (publish_status (rk_status k) (mailbox g p p)).

Definition debug_status (p : Z) (ph : BarrierPhase) (value peer : Z) : list Z :=
  WriteBarrierDebugStatus value (barrier_debug p rankSize (a_peerMems (args p)) ph peer).

(** Left by the data barrier and the header check in [localStatus]; a failure replaces the status. *)
Definition fail_planning (p value peer : Z) (g : Global) : Global :=
  let k := with_status (ranks g p) (debug_status p Data value peer) in
  start_status_push p Status k g.

(** What a rank does when the wait for [peer] in a phase runs out of polls. *)
Definition on_timeout (p : Z) (ph : BarrierPhase) (peer : Z) (g : Global) : Global :=
  let k := ranks g p in
  let failed := debug_status p ph (kPlannerStatusTimeoutBase + peer) peer in
  let kept := if nth 1 (rk_status k) 0 =? kBarrierDebugBuildTag then k else with_status k failed in
  match ph with
  | Data => fail_planning p (kPlannerStatusTimeoutBase + peer) peer g
  | Status => set_rank g p (at_pc (with_status k failed) (PFlag ReadyPhase 0))
  | ReadyPhase => start_status_push p Consensus kept g
  | Consensus => set_rank g p (at_pc kept PFinish)
  end.

(** What it does when all the flags of a phase are there. *)
Definition on_barrier (p : Z) (ph : BarrierPhase) (g : Global) : Global :=
  let k := ranks g p in
  match ph with
  | ReadyPhase => start_status_push p Consensus k g
  | _ => set_rank g p (at_pc k (PGather ph 0))
  end.

(** All the rows of a phase are read. *)
Definition on_gathered (p : Z) (ph : BarrierPhase) (g : Global) : Global :=
  let k := ranks g p in
  let reduced := with_status k (set_status0 (rk_status k) (ReduceGlobalPlanStatus (g_status k) rankSize)) in
  match ph with
  | Data => set_rank g p (at_pc k PPlan)
  | Consensus => set_rank g p (at_pc reduced PFinish)
  | _ => set_rank g p (at_pc reduced (PFlag ReadyPhase 0))
  end.

(** Header check and planning. *)
Definition plan_step (p : Z) (g : Global) : option Global :=
  let k := ranks g p in
  if negb (HeadersMatch (g_headers k) rankSize)
  then Some (fail_planning p (status_code PLAN_ERROR_CONFIG_MISMATCH) p g)
  else match RunPlanAlgorithm (plan_input p k) (plan_workspace p) with
       | None => None
       | Some r =>
           let built := bool_decide (Validate (plan_input p k) (plan_workspace p) = PLAN_OK) in
           let k := with_epoch (with_plan k r) (note_affinity p built (rk_epoch k)) in
           Some (start_status_push p Status k g)
       end.

Definition commit (p : Z) (k : RankState) : RankState :=
  if nth 0 (rk_status k) 0 =? status_code PLAN_OK
  then with_epoch k {| requestedEpoch := a_epoch (args p); committedEpoch := a_epoch (args p);
         topologyHash := topologyHash (rk_epoch k); reserved := reserved (rk_epoch k) |}
  else k.

(** [tilexr_ep_plan_kernel] at block 0 of rank [p]; [giveUp] is a wait whose polls are used up.
    A poll that finds no flag is not a transition. *)
Definition kernel_step (giveUp : bool) (p : Z) (g : Global) : option Global :=
  let k := ranks g p in
  match rk_pc k with
  | PStart =>
      let e := {| requestedEpoch := a_epoch (args p); committedEpoch := 0;
                  topologyHash := topologyHash (rk_epoch k); reserved := reserved (rk_epoch k) |} in
      Some (set_row (set_rank g p (at_pc (with_epoch k e) (PPush Data 1))) p p
              (publish_inputs p (mailbox g p p)))
  | PPush ph i =>
      if i <? rankSize then
        let target := (p + i) mod rankSize in
        Some (set_row (set_rank g p (at_pc k (PPush ph (i + 1)))) target p
                (PushPeerMailboxRow (peerMailbox p) (push_bytes p ph) (mailbox g p p) (mailbox g target p)))
      else Some (set_rank g p (at_pc k (PFlag ph 0)))
  | PFlag ph i =>
      if i <? rankSize then
        Some (set_barrier (set_rank g p (at_pc k (PFlag ph (i + 1)))) ((p + i) mod rankSize) ph p
                (barrierValue magic ph))
      else Some (set_rank g p (at_pc k (PWait ph 0)))
  | PWait ph i =>
      if i <? rankSize then
        let source := (p + i) mod rankSize in
        if giveUp then Some (on_timeout p ph source g)
        else if phase_ready magic ph (barriers g p ph source)
             then Some (set_rank g p (at_pc k (PWait ph (i + 1)))) else None
      else Some (on_barrier p ph g)
  | PGather ph i =>
      if i <? rankSize then
        let r := mailbox g p i in
        let k := match ph with Data => GatherInput p i r k | _ => GatherStatus i r k end in
        Some (set_rank g p (at_pc k (PGather ph (i + 1))))
      else Some (on_gathered p ph g)
  | PPlan => plan_step p g
  | PFinish => Some (set_rank g p (at_pc (commit p k) PDone))
  | PDone => None
  end.

(** ** All the ranks *)

Definition step (g g' : Global) : Prop :=
  exists p giveUp, 0 <= p < rankSize /\ kernel_step giveUp p g = Some g'.

(** At launch the barrier words hold no word of this launch: its magic is new. *)
Definition launch (g : Global) : Prop :=
  forall p, 0 <= p < rankSize ->
    rk_pc (ranks g p) = PStart /\ rk_plan (ranks g p) = None /\
    (forall x, ~ (0 <= x < rankSize * a_expertNum (args p)) -> g_tpe (ranks g p) x = 0) /\
    (forall x, ~ (0 <= x < rankSize) -> g_ids (ranks g p) x = 0) /\
    (forall ph q, phase_ready magic ph (barriers g p ph q) = false).

Inductive reachable (g0 : Global) : Global -> Prop :=
| reach_start : reachable g0 g0
| reach_step g g' : reachable g0 g -> step g g' -> reachable g0 g'.
End kernel.
