(* ===== verification/PlanKernelInv.v ===== *)
(** Invariants of the planner kernel: what the mailbox rows, the barrier words and the status of a
    rank say about the ranks that wrote them. *)
From S2P Require Import Prelude Layouts PlanTypes PlanSort PlanAlgorithm PlanOutput CombineWire PlanWorkspace PlanKernel.

(** Position in the program, increasing along every run. *)
Definition stage (pc : Pc) : Z :=
  match pc with
  | PStart => 0
  | PPush Data _ => 1 | PFlag Data _ => 2 | PWait Data _ => 3 | PGather Data _ => 4 | PPlan => 5
  | PPush Status _ => 6 | PFlag Status _ => 7 | PWait Status _ => 8 | PGather Status _ => 9
  | PFlag ReadyPhase _ => 10 | PWait ReadyPhase _ => 11
  | PPush Consensus _ => 12 | PFlag Consensus _ => 13 | PWait Consensus _ => 14 | PGather Consensus _ => 15
  | PFinish => 16 | PDone => 17
  | PPush ReadyPhase _ | PGather ReadyPhase _ => -1
  end.

(** The stage in which the flags of a phase are written. *)
Definition flag_stage (ph : BarrierPhase) : Z :=
  match ph with Data => 2 | Status => 7 | ReadyPhase => 10 | Consensus => 13 end.

(** Targets reached so far by the publication of the inputs and of the last status. *)
Definition pushed_inputs (R : Z) (pc : Pc) : Z :=
  match pc with PStart => 0 | PPush Data i => i | _ => R end.

Definition pushed_last (R : Z) (pc : Pc) : Z :=
  match pc with
  | PPush Consensus i => i
  | PFlag Consensus _ | PWait Consensus _ | PGather Consensus _ | PFinish | PDone => R
  | _ => 0
  end.

Section inv.
Context (rankSize magic : Z) (args : Z -> KernelArgs).
Context (HR : 0 < rankSize <= 128).
Context (Hexperts : forall p, 0 <= p < rankSize -> 0 < a_expertNum (args p) <= 1048512).

Abbreviation kernel_step := (kernel_step rankSize magic args).
Abbreviation reachable := (reachable rankSize magic args).
Abbreviation step := (step rankSize magic args).
Abbreviation launch := (launch rankSize magic args).
Abbreviation pc_of g p := (rk_pc (ranks g p)).

Lemma barrier_ready ph : phase_ready magic ph (barrierValue magic ph) = true.
Proof. unfold phase_ready. by rewrite Z.eqb_refl, Z.leb_refl. Qed.

(** ** Case analysis on a transition *)

(** Opens a transition of rank [q] into its cases and computes the new components. *)
Ltac open_step H :=
  unfold PlanKernel.kernel_step, plan_step, on_timeout, on_barrier, on_gathered, fail_planning,
    start_status_push in H;
  repeat match type of H with
  | context [match rk_pc ?k with _ => _ end] => destruct (rk_pc k) eqn:?Epc
  | (match ?ph with Data => _ | _ => _ end) = _ => destruct ph
  | context [match ?ph with Data => _ | Status => _ | ReadyPhase => _ | Consensus => _ end] =>
      is_var ph; destruct ph
  | context [if ?b then _ else _] =>
      lazymatch b with context [if _ then _ else _] => fail | _ => destruct b eqn:?Eb end
  | context [match RunPlanAlgorithm ?a ?b with _ => _ end] => destruct (RunPlanAlgorithm a b) eqn:?Erun
  end;
  try discriminate H; injection H as <-.

(** A transition changes its own rank, the rows it sends and the flags it sets. *)
Lemma step_frame q gu g g' : kernel_step gu q g = Some g' ->
  (forall p, p <> q -> ranks g' p = ranks g p) /\
  (forall o p, p <> q -> mailbox g' o p = mailbox g o p) /\
  (forall o ph p, p <> q -> barriers g' o ph p = barriers g o ph p).
Proof.
  intros H. open_step H; cbn [ranks mailbox barriers set_rank set_row set_barrier];
    (split_and!; intros; [by rewrite upd1_ne| try done; try (rewrite upd2_ne; [done|by intros [? ?]]) | try done]).
  case_if; [|done]. b2p. lia.
Qed.

(** Flags are never taken back. *)
Lemma step_ready q gu g g' o ph p : kernel_step gu q g = Some g' ->
  phase_ready magic ph (barriers g o ph p) = true -> phase_ready magic ph (barriers g' o ph p) = true.
Proof.
  intros H Hr. open_step H; cbn [ranks mailbox barriers set_rank set_row set_barrier]; try done.
  case_if; [|done]. b2p. case_bool_decide; [|done]. subst. apply barrier_ready.
Qed.

Abbreviation rank p := (0 <= p < rankSize).

Lemma target_rank p i : rank ((p + i) mod rankSize).
Proof. apply Z.mod_pos_bound. lia. Qed.

(** Every rank is some offset away from [p]. *)
Lemma target_onto p o : rank p -> rank o -> exists i, 0 <= i < rankSize /\ (p + i) mod rankSize = o.
Proof.
  intros Hp Ho. exists ((o - p) mod rankSize). split; [apply Z.mod_pos_bound; lia|].
  rewrite Zplus_mod_idemp_r. replace (p + (o - p)) with o by lia. by apply Z.mod_small.
Qed.

Lemma target_inj p i j : rank p -> 0 <= i < rankSize -> 0 <= j < rankSize ->
  (p + i) mod rankSize = (p + j) mod rankSize -> i = j.
Proof.
  intros Hp Hi Hj H.
  assert ((i - j) mod rankSize = 0) as Hm.
  { replace (i - j) with ((p + i) - (p + j)) by lia. rewrite Zminus_mod, H, Z.sub_diag. by apply Z.mod_0_l; lia. }
  apply Z.mod_divide in Hm as [c Hc]; [|lia].
  destruct (Z.lt_trichotomy c 0) as [|[->|]]; nia.
Qed.

Lemma target_self p i : rank p -> 0 <= i < rankSize -> (p + i) mod rankSize = p <-> i = 0.
Proof.
  intros Hp Hi. assert ((p + 0) mod rankSize = p) as E0 by (rewrite Z.add_0_r; by apply Z.mod_small).
  split; [|intros ->; done]. intros H. apply (target_inj p i 0 Hp Hi); [lia|congruence].
Qed.

(** Induction over the runs, rank by rank: a transition of [q] keeps the property of [q] and of
    every other rank. *)
Lemma rank_induction (I : Z -> Global -> Prop) g0 :
  (forall p, rank p -> I p g0) ->
  (forall g g' q gu, reachable g0 g -> rank q -> kernel_step gu q g = Some g' ->
     (forall p, rank p -> I p g) -> I q g') ->
  (forall g g' q gu p, reachable g0 g -> rank q -> rank p -> p <> q -> kernel_step gu q g = Some g' ->
     (forall p, rank p -> I p g) -> I p g') ->
  forall g, reachable g0 g -> forall p, rank p -> I p g.
Proof.
  intros H0 Hown Hother g Hg. induction Hg as [|g g' Hg IH (q & gu & Hq & Hstep)]; [done|].
  intros p Hp. destruct (decide (p = q)) as [->|Hne]; [by apply (Hown g g' q gu)|by apply (Hother g g' q gu p)].
Qed.

(** New components of the acting rank. *)
Ltac own :=
  cbn [ranks mailbox barriers set_rank set_row set_barrier] in *; rewrite ?upd1_eq in *;
  cbn [rk_pc rk_status g_headers g_tpe g_ids g_status rk_epoch rk_plan at_pc with_status with_epoch
       with_plan GatherInput GatherStatus] in *.

(** ** Program counters and flags *)

Definition pc_ok (pc : Pc) : Prop :=
  match pc with
  | PPush ReadyPhase _ | PGather ReadyPhase _ => False
  | PPush _ i => 1 <= i <= rankSize
  | PFlag _ i | PWait _ i | PGather _ i => 0 <= i <= rankSize
  | _ => True
  end.

Lemma commit_pc p k : rk_pc (commit args p k) = rk_pc k.
Proof. unfold commit. by case_if. Qed.

Lemma step_pc q gu g g' : kernel_step gu q g = Some g' -> pc_ok (pc_of g q) ->
  pc_ok (pc_of g' q) /\ stage (pc_of g q) <= stage (pc_of g' q).
Proof.
  intros H. open_step H; own; rewrite ?commit_pc; cbn [pc_ok stage rk_pc at_pc]; b2p; try lia.
  all: repeat match goal with |- context [match ?ph with Data => _ | _ => _ end] => destruct ph end; lia.
Qed.

Context (g0 : Global) (H0 : launch g0).

Lemma pc_valid g : reachable g0 g -> forall p, rank p -> pc_ok (pc_of g p).
Proof.
  revert g. apply (rank_induction (fun p g => pc_ok (pc_of g p))).
  - intros p Hp. destruct (H0 p Hp) as (-> & _). done.
  - intros g' g'' q gu _ Hq Hs IH. by apply (step_pc _ _ _ _ Hs), IH.
  - intros g' g'' q gu p _ Hq Hp Hne Hs IH. rewrite (proj1 (step_frame _ _ _ _ Hs) p Hne). by apply IH.
Qed.

Lemma stage_mono q gu g g' p : reachable g0 g -> rank q -> rank p -> kernel_step gu q g = Some g' ->
  stage (pc_of g p) <= stage (pc_of g' p).
Proof.
  intros Hg Hq Hp Hs. destruct (decide (p = q)) as [->|Hne].
  - apply (step_pc _ _ _ _ Hs). by apply pc_valid.
  - by rewrite (proj1 (step_frame _ _ _ _ Hs) p Hne).
Qed.

(** A flag of this launch is set only once its rank has come to the stage that sets it. *)
Lemma flag_inv g : reachable g0 g -> forall p, rank p -> forall o ph, rank o ->
  phase_ready magic ph (barriers g o ph p) = true -> flag_stage ph <= stage (pc_of g p).
Proof.
  revert g. apply (rank_induction (fun p g => forall o ph, rank o -> phase_ready magic ph (barriers g o ph p) = true ->
    flag_stage ph <= stage (pc_of g p))).
  - intros p Hp o ph Ho. destruct (H0 o Ho) as (_ & _ & _ & _ & Hf). by rewrite Hf.
  - intros g' g'' q gu Hg Hq Hs IH o ph Ho Hr. pose proof (stage_mono _ _ _ _ q Hg Hq Hq Hs) as Hm.
    destruct (phase_ready magic ph (barriers g' o ph q)) eqn:E; [pose proof (IH q Hq o ph Ho E); lia|].
    clear Hm. open_step Hs; own; try congruence.
    case_if_in Hr; b2p; [|congruence]. case_bool_decide; [|done]. subst.
    match goal with |- flag_stage ?x <= _ => by destruct x end.
  - intros g' g'' q gu p Hg Hq Hp Hne Hs IH o ph Ho.
    destruct (step_frame _ _ _ _ Hs) as (F1 & _ & F3). rewrite F1, F3 by done. by apply IH.
Qed.

(** A row of column [b] after a write to that column. *)
Lemma upd2_col {A} (f : Z -> Z -> A) a b v x :
  upd2 f a b v x b = if decide (x = a) then v else f x b.
Proof. case_decide; [subst; apply upd2_eq|]. apply upd2_ne. by intros [? _]. Qed.

(** Splits the phase of a program counter that is still open. *)
Ltac split_phase := try match goal with ph : BarrierPhase |- _ => destruct ph end.

(** Progress of a program counter: every transition increases it. *)
Definition weight (pc : Pc) : Z :=
  stage pc * (rankSize + 2) +
  match pc with PPush _ i | PFlag _ i | PWait _ i | PGather _ i => i | _ => 0 end.

Lemma weight_step q gu g g' : kernel_step gu q g = Some g' -> pc_ok (pc_of g q) ->
  weight (pc_of g q) < weight (pc_of g' q).
Proof.
  intros H. open_step H; own; rewrite ?commit_pc; b2p; unfold weight; cbn [rk_pc at_pc];
    repeat match goal with x : BarrierPhase |- _ => destruct x end; cbn [stage pc_ok]; try done; lia.
Qed.

Lemma weight_bound pc : pc_ok pc -> 0 <= weight pc <= 17 * (rankSize + 2).
Proof.
  unfold weight. destruct pc as [|[]|[]|[]|[]| | |]; cbn [stage pc_ok]; try done; lia.
Qed.

(** How many flags of a phase a rank has set. *)
Definition flags_set (ph : BarrierPhase) (pc : Pc) : Z :=
  if flag_stage ph <? stage pc then rankSize
  else match pc with PFlag ph' i => if decide (ph' = ph) then i else 0 | _ => 0 end.

Lemma flags_inv g : reachable g0 g -> forall p, rank p -> forall ph j, 0 <= j < flags_set ph (pc_of g p) ->
  phase_ready magic ph (barriers g ((p + j) mod rankSize) ph p) = true.
Proof.
  revert g. apply (rank_induction (fun p g => forall ph j, 0 <= j < flags_set ph (pc_of g p) ->
    phase_ready magic ph (barriers g ((p + j) mod rankSize) ph p) = true)).
  - intros p Hp ph j. destruct (H0 p Hp) as (-> & _). unfold flags_set. destruct ph; cbn; lia.
  - intros g g' q gu Hg Hq Hs IH ph j Hj. pose proof (pc_valid g Hg q Hq) as Hv.
    destruct (decide (j < flags_set ph (pc_of g q))) as [Hlt|Hge].
    { eapply step_ready; [done|]. apply IH; [done|lia]. }
    clear IH. open_step Hs; own; rewrite ?commit_pc in Hj; cbn [rk_pc at_pc] in Hj; b2p.
    all: repeat match goal with x : BarrierPhase |- _ => destruct x end.
    all: unfold flags_set in *; cbn [stage flag_stage Z.ltb Z.compare Pos.compare Pos.compare_cont pc_ok] in *;
      repeat case_decide; try discriminate; try lia; try done.
    all: replace j with i by lia; rewrite !Z.eqb_refl, bool_decide_true by done; apply barrier_ready.
  - intros g g' q gu p Hg Hq Hp Hne Hs IH ph j.
    destruct (step_frame _ _ _ _ Hs) as (F1 & _ & F3). rewrite F1, F3 by done. by apply IH.
Qed.

(** ** Published inputs *)

(** The row carries the header, id and token counts of rank [p]. *)
Definition row_ok (p : Z) (r : Row) : Prop :=
  row_header r = call_header rankSize args p /\ row_id r = a_globalRankIds (args p) p /\
  forall e, 0 <= e < a_expertNum (args p) -> row_tpe r e = a_tokensPerExpert (args p) e.

Lemma publish_inputs_ok p r : row_ok p (publish_inputs rankSize args p r).
Proof.
  split; [done|]. split; [done|]. intros e He. cbn [publish_inputs row_tpe]. case_if; [done|]. b2p. lia.
Qed.

Lemma push_inputs_ok p l r : rank p -> row_ok p l ->
  row_ok p (PushPeerMailboxRow (peerMailbox rankSize args p) (push_bytes rankSize args p Data) l r).
Proof.
  intros Hp (H1 & H2 & H3). split; [done|]. split; [done|]. intros e He. cbn [PushPeerMailboxRow row_tpe push_bytes].
  destruct (mailbox_fields rankSize (a_expertNum (args p)) (Hexperts p Hp)) as (_ & _ & _ & E4 & _ & E6).
  unfold peerMailbox. rewrite E4, E6. pose proof (align_to_spec 512 (256 + a_expertNum (args p) * 4) ltac:(lia)).
  unfold sizeof_int32. case_if; [by apply H3|]. exfalso. b2p.
  assert (a_expertNum (args p) <= (align_to 512 (256 + a_expertNum (args p) * 4) - 256) / 4); [|lia].
  apply Z.div_le_lower_bound; lia.
Qed.

Lemma push_status_ok p layout bytes l r : row_ok p l -> row_ok p r -> row_ok p (PushPeerMailboxRow layout bytes l r).
Proof.
  intros (H1 & H2 & H3) (_ & _ & H3'). split; [done|]. split; [done|]. intros e He.
  cbn [PushPeerMailboxRow row_tpe]. case_if; [by apply H3|by apply H3'].
Qed.

Lemma publish_status_ok p st r : row_ok p r -> row_ok p (publish_status st r).
Proof. done. Qed.

Lemma inputs_inv g : reachable g0 g -> forall p, rank p -> forall j, 0 <= j < pushed_inputs rankSize (pc_of g p) ->
  row_ok p (mailbox g ((p + j) mod rankSize) p).
Proof.
  revert g. apply (rank_induction (fun p g => forall j, 0 <= j < pushed_inputs rankSize (pc_of g p) ->
    row_ok p (mailbox g ((p + j) mod rankSize) p))).
  - intros p Hp j. destruct (H0 p Hp) as (-> & _). cbn [pushed_inputs]. lia.
  - intros g g' q gu Hg Hq Hs IH j. pose proof (pc_valid g Hg q Hq) as Hv. specialize (IH q Hq).
    assert (0 < pushed_inputs rankSize (pc_of g q) -> row_ok q (mailbox g q q)) as Hown.
    { intros Hst. specialize (IH 0 ltac:(lia)). by rewrite Z.add_0_r, (Z.mod_small q) in IH by lia. }
    open_step Hs; own; rewrite ?commit_pc; cbn [pushed_inputs rk_pc at_pc pc_ok] in *; b2p; intros Hj;
      try (apply IH; lia).
    all: split_phase; cbn [pushed_inputs] in *; try done; try (apply IH; lia).
    all: rewrite upd2_col; case_decide as Hd; eauto using publish_inputs_ok, push_inputs_ok, push_status_ok, publish_status_ok with lia.
    + exfalso. apply Hd, target_self; lia.
    + apply IH. assert (j <> i) by congruence. lia.
  - intros g g' q gu p Hg Hq Hp Hne Hs IH j.
    destruct (step_frame _ _ _ _ Hs) as (F1 & F2 & _). rewrite F1, F2 by done. by apply IH.
Qed.

(** A flag of the data phase comes after the row. *)
Lemma data_row g p o : reachable g0 g -> rank p -> rank o ->
  phase_ready magic Data (barriers g o Data p) = true -> row_ok p (mailbox g o p).
Proof.
  intros Hg Hp Ho Hf. pose proof (flag_inv g Hg p Hp o Data Ho Hf) as Hst.
  destruct (target_onto p o Hp Ho) as (i & Hi & <-). apply inputs_inv; try done.
  destruct (rk_pc (ranks g p)) as [|[]| | | | | |]; cbn in *; lia.
Qed.

(** ** The last published status *)

(** The rank's own row keeps its status from the last publication on. *)
Lemma own_status_stable q gu g g' p : reachable g0 g -> rank q -> rank p -> kernel_step gu q g = Some g' ->
  12 <= stage (pc_of g p) -> row_status (mailbox g' p p) = row_status (mailbox g p p).
Proof.
  intros Hg Hq Hp Hs Hst. destruct (decide (p = q)) as [->|Hne].
  - open_step Hs; rewrite ?Epc in Hst; cbn [stage] in Hst; try lia; own; try done.
    rewrite upd2_col. by case_decide as Hd; [rewrite Hd|].
  - destruct (step_frame _ _ _ _ Hs) as (_ & F2 & _). by rewrite F2.
Qed.

Lemma last_status_inv g : reachable g0 g -> forall p, rank p -> forall j, 0 <= j < pushed_last rankSize (pc_of g p) ->
  row_status (mailbox g ((p + j) mod rankSize) p) = row_status (mailbox g p p).
Proof.
  revert g. apply (rank_induction (fun p g => forall j, 0 <= j < pushed_last rankSize (pc_of g p) ->
    row_status (mailbox g ((p + j) mod rankSize) p) = row_status (mailbox g p p))).
  - intros p Hp j. destruct (H0 p Hp) as (-> & _). cbn [pushed_last]. lia.
  - intros g g' q gu Hg Hq Hs IH j. pose proof (pc_valid g Hg q Hq) as Hv. specialize (IH q Hq).
    open_step Hs; own; rewrite ?commit_pc; cbn [pushed_last rk_pc at_pc pc_ok] in *; b2p; intros Hj;
      try lia; try (apply IH; lia).
    all: split_phase; cbn [pushed_last] in *; try lia; try (apply IH; lia).
    all: rewrite !upd2_col; repeat case_decide; try done; try congruence.
    1, 2: cbn [row_status PushPeerMailboxRow]; apply IH; assert (j <> i) by congruence; lia.
    all: exfalso; match goal with Hd : (_ + _) mod _ <> _ |- _ => apply Hd, target_self; lia end.
  - intros g g' q gu p Hg Hq Hp Hne Hs IH j.
    destruct (step_frame _ _ _ _ Hs) as (F1 & F2 & _). rewrite F1, !F2 by done. by apply IH.
Qed.
(** After the last flag the row another rank holds is the rank's own. *)
Lemma last_row g p o : reachable g0 g -> rank p -> rank o ->
  phase_ready magic Consensus (barriers g o Consensus p) = true ->
  row_status (mailbox g o p) = row_status (mailbox g p p) /\ 13 <= stage (pc_of g p).
Proof.
  intros Hg Hp Ho Hf. pose proof (flag_inv g Hg p Hp o Consensus Ho Hf) as Hst. cbn [flag_stage] in Hst.
  split; [|done]. destruct (target_onto p o Hp Ho) as (i & Hi & <-). apply last_status_inv; try done.
  destruct (rk_pc (ranks g p)) as [|[]|[]|[]|[]| | |]; cbn in *; lia.
Qed.

(** ** Waits *)

(** All the flags of a phase have arrived at rank [p]. *)
Definition passed (p : Z) (ph : BarrierPhase) (g : Global) : Prop :=
  forall q, rank q -> phase_ready magic ph (barriers g p ph q) = true.

Lemma passed_mono q gu g g' p ph : kernel_step gu q g = Some g' -> passed p ph g -> passed p ph g'.
Proof. intros Hs H r Hr. by eapply step_ready, H. Qed.

Lemma wait_inv g : reachable g0 g -> forall p, rank p -> forall ph i, pc_of g p = PWait ph i ->
  forall j, 0 <= j < i -> phase_ready magic ph (barriers g p ph ((p + j) mod rankSize)) = true.
Proof.
  revert g. apply (rank_induction (fun p g => forall ph i, pc_of g p = PWait ph i ->
    forall j, 0 <= j < i -> phase_ready magic ph (barriers g p ph ((p + j) mod rankSize)) = true)).
  - intros p Hp ph i E. destruct (H0 p Hp) as (E' & _). congruence.
  - intros g g' q gu Hg Hq Hs IH ph i E j Hj. specialize (IH q Hq).
    open_step Hs; own; rewrite ?commit_pc in E; cbn [rk_pc at_pc] in E; simplify_eq; try lia.
    all: destruct (decide (j = i0)) as [->|]; [done|]; apply (IH _ _ eq_refl); lia.
  - intros g g' q gu p Hg Hq Hp Hne Hs IH ph i E j Hj. eapply step_ready; [done|].
    rewrite (proj1 (step_frame _ _ _ _ Hs) p Hne) in E. by apply (IH p Hp ph i E).
Qed.

(** Leaving a wait the regular way. *)
Lemma wait_passed g p ph i : reachable g0 g -> rank p -> pc_of g p = PWait ph i -> rankSize <= i -> passed p ph g.
Proof.
  intros Hg Hp E Hi r Hr. destruct (target_onto p r Hp Hr) as (j & Hj & <-).
  apply (wait_inv g Hg p Hp ph i E). lia.
Qed.

(** ** The status a rank agrees to *)

Lemma reduce_status_max r c : reduce_status r c = Z.max r c.
Proof. unfold reduce_status. case_if; lia. Qed.

Lemma reduce_ge (rs : Z -> list Z) (l : list Z) : forall r, (r <= foldl (fun result q => reduce_status result (nth 0 (rs q) 0)) r l) /\
  forall q, q ∈ l -> nth 0 (rs q) 0 <= foldl (fun result q => reduce_status result (nth 0 (rs q) 0)) r l.
Proof.
  induction l as [|a l IH]; intros r; cbn [foldl].
  - split; [lia|]. intros q H. by apply not_elem_of_nil in H.
  - destruct (IH (reduce_status r (nth 0 (rs a) 0))) as [I1 I2]. rewrite reduce_status_max in *.
    split; [lia|]. intros q [->|H]%elem_of_cons; [lia|by apply I2].
Qed.

Lemma Reduce_nonneg rs : 0 <= ReduceGlobalPlanStatus rs rankSize.
Proof. apply reduce_ge. Qed.

Lemma Reduce_ge rs q : rank q -> nth 0 (rs q) 0 <= ReduceGlobalPlanStatus rs rankSize.
Proof. intros Hq. apply reduce_ge, elem_of_seqZ. lia. Qed.

(** The first status word is the status. *)
Lemma run_word0 inp ws st o words : RunPlanAlgorithm inp ws = Some (st, o, words) ->
  nth 0 words 0 = status_code st.
Proof.
  unfold RunPlanAlgorithm. case_if; [by intros [= <- <- <-]|].
  destruct (Balance inp ws (round_fuel inp)) as [s|]; [|done]. cbn [fmap option_fmap option_map].
  unfold finish. case_if; [by intros [= <- <- <-]|]. destruct (BuildLayouts inp ws s) as [ls l].
  destruct (bool_decide (ls = PLAN_OK)); [destruct (BuildDst _ _ _) as [s2 d]|]; intros [= <- <- <-];
    unfold FillStatus; cbn [nth]; done.
Qed.

Lemma status_code_ok st : status_code st = 0 -> st = PLAN_OK.
Proof. by destruct st. Qed.

Lemma status_code_nonneg st : 0 <= status_code st.
Proof. by destruct st. Qed.

(** Rank [p] holds the inputs of rank [q]: header, id, and the counts both tables have. *)
Definition gathered (p q : Z) (k : RankState) : Prop :=
  g_headers k q = call_header rankSize args q /\ g_ids k q = a_globalRankIds (args q) q /\
  forall e, 0 <= e < a_expertNum (args p) -> e < a_expertNum (args q) ->
    g_tpe k (q * a_expertNum (args p) + e) = a_tokensPerExpert (args q) e.

(** Nothing outside the tables. *)
Definition canonical (p : Z) (k : RankState) : Prop :=
  (forall x, ~ (0 <= x < rankSize * a_expertNum (args p)) -> g_tpe k x = 0) /\
  (forall x, ~ rank x -> g_ids k x = 0).

(** The rank heard from every other one, their headers agree with its own view, and planning on
    what it gathered ended in [PLAN_OK]. *)
Definition planned (p : Z) (g : Global) : Prop :=
  let k := ranks g p in
  passed p Data g /\ HeadersMatch (g_headers k) rankSize = true /\
  (forall q, rank q -> gathered p q k) /\
  exists o words, rk_plan k = Some (PLAN_OK, o, words) /\
    RunPlanAlgorithm (plan_input rankSize args p k) (plan_workspace rankSize args p) = Some (PLAN_OK, o, words).

Lemma planned_mono q gu g g' p : kernel_step gu q g = Some g' -> p <> q -> planned p g -> planned p g'.
Proof.
  intros Hs Hne (H1 & H). split; [by eapply passed_mono|]. by rewrite (proj1 (step_frame _ _ _ _ Hs) p Hne).
Qed.

Lemma planned_same p g g' : (passed p Data g -> passed p Data g') ->
  g_headers (ranks g' p) = g_headers (ranks g p) -> g_tpe (ranks g' p) = g_tpe (ranks g p) ->
  g_ids (ranks g' p) = g_ids (ranks g p) -> rk_plan (ranks g' p) = rk_plan (ranks g p) ->
  planned p g -> planned p g'.
Proof.
  unfold planned, gathered, plan_input. intros Hp -> -> -> -> (H1 & H). by split; [apply Hp|].
Qed.

#[local] Opaque planned RunPlanAlgorithm.

(** The gathered inputs, while and after the rows are read. *)
Definition gather_inv (p : Z) (g : Global) : Prop :=
  let k := ranks g p in
  canonical p k /\
  match rk_pc k with
  | PGather Data i => passed p Data g /\ forall q, rank q -> q < i -> gathered p q k
  | PPlan => passed p Data g /\ forall q, rank q -> gathered p q k
  | _ => True
  end.

Lemma gather_row p q r k : rank p -> rank q -> row_ok q r -> gathered p q (GatherInput args p q r k).
Proof.
  intros Hp Hq (H1 & H2 & H3). unfold gathered. cbn [GatherInput g_headers g_ids g_tpe]. rewrite !upd1_eq.
  split; [done|]. split; [done|]. intros e He He'. case_if.
  - rewrite <- H3 by lia. f_equal. lia.
  - exfalso. b2p. destruct E; b2p; lia.
Qed.

Lemma gather_other p q q' r k : rank p -> q' <> q -> gathered p q k -> gathered p q (GatherInput args p q' r k).
Proof.
  intros Hp Hne (H1 & H2 & H3). unfold gathered. cbn [GatherInput g_headers g_ids g_tpe].
  rewrite !upd1_ne by done. split; [done|]. split; [done|]. intros e He He'. case_if; [|by apply H3].
  exfalso. b2p. pose proof (Hexperts p Hp). assert (q < q' \/ q' < q) as [] by lia; nia.
Qed.

Lemma gather_canonical p q r k : rank p -> rank q -> canonical p k -> canonical p (GatherInput args p q r k).
Proof.
  intros Hp Hq [H1 H2]. pose proof (Hexperts p Hp). split; intros x Hx; cbn [GatherInput g_tpe g_ids].
  - case_if; [|by apply H1]. exfalso. b2p. apply Hx. nia.
  - rewrite upd1_ne by (intros ->; done). by apply H2.
Qed.

Lemma gather_holds g : reachable g0 g -> forall p, rank p -> gather_inv p g.
Proof.
  revert g. apply (rank_induction gather_inv).
  - intros p Hp. destruct (H0 p Hp) as (E & _ & H1 & H2 & _). unfold gather_inv. rewrite E. done.
  - intros g g' q gu Hg Hq Hs IH. pose proof (pc_valid g Hg q Hq) as Hv.
    destruct (IH q Hq) as [Hc Hi]. clear IH. pose proof (wait_passed g q) as Hw.
    assert (forall r, rank r -> passed q Data g -> row_ok r (mailbox g q r)) as Hrow
      by (intros r Hr Hpd; apply data_row; [done..|by apply Hpd]).
    assert (forall ph, passed q ph g -> passed q ph g') as Hpm by (intros ph; by eapply passed_mono).
    unfold gather_inv. open_step Hs; own; rewrite ?Epc in *; cbn [pc_ok] in *; b2p;
      unfold commit; repeat case_if; cbn [rk_pc at_pc with_epoch]; try done.
    + split; [exact Hc|]. split; [apply Hpm, (Hw Data i); done|]. intros r Hr. lia.
    + destruct Hi as [Hp Hi]. assert (rank i) as Hri by lia. split; [by apply gather_canonical|].
      split; [by apply Hpm|]. intros r Hr Hlt. destruct (decide (i = r)) as [<-|Hne].
      * apply gather_row; [done..|by apply Hrow].
      * apply gather_other; [done..|]. apply Hi; [done|lia].
    + destruct Hi as [Hp Hi]. split; [exact Hc|]. split; [by apply Hpm|]. intros r Hr. apply Hi; [done|lia].
  - intros g g' q gu p Hg Hq Hp Hne Hs IH. destruct (IH p Hp) as [Hc Hi].
    unfold gather_inv. rewrite (proj1 (step_frame _ _ _ _ Hs) p Hne). split; [done|].
    destruct (rk_pc (ranks g p)) as [|[]|[]|[]|[]| | |]; try done;
      (split; [by eapply passed_mono, Hi|apply Hi]).
Qed.

(** ** The status through the phases *)

Context (Hepoch : forall p, rank p -> a_epoch (args p) <> 0).
Context (Htag : forall p k st o words, rank p ->
  RunPlanAlgorithm (plan_input rankSize args p k) (plan_workspace rankSize args p) = Some (st, o, words) ->
  nth 1 words 0 <> kBarrierDebugBuildTag).

Abbreviation status0 g p := (nth 0 (rk_status (ranks g p)) 0).
Abbreviation own0 g p := (nth 0 (row_status (mailbox g p p)) 0).

Record status_inv (p : Z) (g : Global) : Prop := {
  si_nonneg : 6 <= stage (pc_of g p) -> 0 <= status0 g p /\ 0 <= own0 g p;
  si_planned : 6 <= stage (pc_of g p) -> status0 g p = 0 -> planned p g;
  si_first : 6 <= stage (pc_of g p) <= 9 -> rk_status (ranks g p) = row_status (mailbox g p p);
  si_gather : forall i, pc_of g p = PGather Status i ->
    passed p Status g /\ (p < i -> g_status (ranks g p) p = row_status (mailbox g p p));
  si_tag : 6 <= stage (pc_of g p) <= 15 -> nth 1 (rk_status (ranks g p)) 0 = kBarrierDebugBuildTag ->
    status0 g p <> 0;
  si_status : 10 <= stage (pc_of g p) -> status0 g p = 0 -> passed p Status g;
  si_last : 12 <= stage (pc_of g p) -> own0 g p = 0 ->
    planned p g /\ passed p Status g /\ passed p ReadyPhase g;
  si_second : 12 <= stage (pc_of g p) <= 15 -> rk_status (ranks g p) = row_status (mailbox g p p);
  si_collect : forall i, pc_of g p = PGather Consensus i ->
    passed p Consensus g /\
    forall q, rank q -> q < i -> g_status (ranks g p) q = row_status (mailbox g q q);
  si_agreed : 16 <= stage (pc_of g p) -> status0 g p = 0 ->
    passed p Consensus g /\ forall q, rank q -> own0 g q = 0;
  si_epoch : 1 <= stage (pc_of g p) <= 16 -> committedEpoch (rk_epoch (ranks g p)) = 0;
  si_commit : stage (pc_of g p) = 17 -> committedEpoch (rk_epoch (ranks g p)) <> 0 -> status0 g p = 0
}.

Lemma status_frame g g' q gu p : reachable g0 g -> rank q -> rank p -> p <> q -> kernel_step gu q g = Some g' ->
  status_inv p g -> status_inv p g'.
Proof.
  intros Hg Hq Hp Hne Hs [].
  destruct (step_frame _ _ _ _ Hs) as (F1 & F2 & _).
  assert (forall r, rank r -> passed p Consensus g -> row_status (mailbox g' r r) = row_status (mailbox g r r)) as Hst.
  { intros r Hr Hpc. apply (own_status_stable _ _ _ _ _ Hg Hq Hr Hs).
    pose proof (flag_inv g Hg r Hr p Consensus Hp (Hpc r Hr)). cbn in *. lia. }
  assert (forall ph, passed p ph g -> passed p ph g') as Hpm by (intros ph; by eapply passed_mono).
  assert (planned p g -> planned p g') as Hpl by (by eapply planned_mono).
  clear Hs. constructor; rewrite ?F1, ?F2 by exact Hne.
  - exact si_nonneg0.
  - intros A B. exact (Hpl (si_planned0 A B)).
  - exact si_first0.
  - intros i E. destruct (si_gather0 i E) as [A B]. exact (conj (Hpm _ A) B).
  - exact si_tag0.
  - intros A B. exact (Hpm _ (si_status0 A B)).
  - intros A B. destruct (si_last0 A B) as (C & D & E). exact (conj (Hpl C) (conj (Hpm _ D) (Hpm _ E))).
  - exact si_second0.
  - intros i E. destruct (si_collect0 i E) as [A B]. split; [exact (Hpm _ A)|].
    intros r Hr Hlt. rewrite (Hst r Hr A). exact (B r Hr Hlt).
  - intros A B. destruct (si_agreed0 A B) as [C D]. split; [exact (Hpm _ C)|].
    intros r Hr. rewrite (Hst r Hr C). exact (D r Hr).
  - exact si_epoch0.
  - exact si_commit0.
Qed.

Lemma nth1_status0 st v : nth 1 (set_status0 st v) 0 = nth 1 st 0.
Proof. by destruct st as [|? []]. Qed.

(** The stages between which the status does not change hands. *)
Definition same_part (a b : Z) : Prop :=
  (1 <= a <= 5 /\ 1 <= b <= 5) \/ (6 <= a <= 9 /\ 6 <= b <= 9) \/ (10 <= a <= 11 /\ 10 <= b <= 11) \/
  (12 <= a <= 15 /\ 12 <= b <= 15).

(** What a transition that does not touch the status leaves alone. *)
Record quiet (p : Z) (g g' : Global) : Prop := {
  q_part : same_part (stage (pc_of g p)) (stage (pc_of g' p));
  q_passed : forall ph, passed p ph g -> passed p ph g';
  q_status : rk_status (ranks g' p) = rk_status (ranks g p);
  q_plan : 6 <= stage (pc_of g p) -> planned p g -> planned p g';
  q_row : 6 <= stage (pc_of g p) -> row_status (mailbox g' p p) = row_status (mailbox g p p);
  q_epoch : rk_epoch (ranks g' p) = rk_epoch (ranks g p)
}.

Lemma status_quiet p g g' : status_inv p g -> quiet p g g' ->
  (forall i, pc_of g' p = PGather Status i ->
    passed p Status g' /\ (p < i -> g_status (ranks g' p) p = row_status (mailbox g' p p))) ->
  (forall i, pc_of g' p = PGather Consensus i ->
    passed p Consensus g' /\ forall q, rank q -> q < i -> g_status (ranks g' p) q = row_status (mailbox g' q q)) ->
  status_inv p g'.
Proof.
  intros [] [Qp Qa Qs Qpl Qr Qe] HA HB. unfold same_part in Qp.
  constructor; try assumption; rewrite ?Qs, ?Qe; intros; rewrite ?Qr by lia; try lia.
  - apply Qpl, si_planned0; [lia..|done].
  - apply si_first0. lia.
  - apply Qa, si_status0; [lia|done].
  - match goal with H : nth 0 _ 0 = 0 |- _ => rewrite Qr in H by lia; destruct (si_last0 ltac:(lia) H) as (? & ? & ?) end.
    split_and!; [apply Qpl; [lia|assumption]|apply Qa; assumption..].
  - apply si_second0. lia.
Qed.

(** The state right after a publication of the status, after the first agreement, after the last
    publication and after the last agreement. *)
Lemma status_published p g : pc_of g p = PPush Status 1 ->
  rk_status (ranks g p) = row_status (mailbox g p p) -> 0 <= status0 g p ->
  (status0 g p = 0 -> planned p g) ->
  (nth 1 (rk_status (ranks g p)) 0 = kBarrierDebugBuildTag -> status0 g p <> 0) ->
  committedEpoch (rk_epoch (ranks g p)) = 0 -> status_inv p g.
Proof.
  intros E Hrow H1 H2 H3 H4. constructor; rewrite E; cbn [stage]; intros; try lia; try discriminate; auto.
  by rewrite <- Hrow.
Qed.

Lemma status_reduced p g : pc_of g p = PFlag ReadyPhase 0 ->
  0 <= status0 g p -> 0 <= own0 g p -> (status0 g p = 0 -> planned p g /\ passed p Status g) ->
  (nth 1 (rk_status (ranks g p)) 0 = kBarrierDebugBuildTag -> status0 g p <> 0) ->
  committedEpoch (rk_epoch (ranks g p)) = 0 -> status_inv p g.
Proof.
  intros E H1 H2 H3 H4 H5. constructor; rewrite E; cbn [stage]; intros; try lia; try discriminate; auto; by apply H3.
Qed.

Lemma status_republished p g : pc_of g p = PPush Consensus 1 ->
  rk_status (ranks g p) = row_status (mailbox g p p) -> 0 <= status0 g p ->
  (status0 g p = 0 -> planned p g /\ passed p Status g /\ passed p ReadyPhase g) ->
  (nth 1 (rk_status (ranks g p)) 0 = kBarrierDebugBuildTag -> status0 g p <> 0) ->
  committedEpoch (rk_epoch (ranks g p)) = 0 -> status_inv p g.
Proof.
  intros E Hrow H1 H2 H3 H4. constructor; rewrite E, <- ?Hrow; cbn [stage]; intros; try lia; try discriminate; auto;
    by apply H2.
Qed.

Lemma status_agreed p g : pc_of g p = PFinish -> 0 <= status0 g p -> 0 <= own0 g p ->
  (own0 g p = 0 -> planned p g /\ passed p Status g /\ passed p ReadyPhase g) ->
  (status0 g p = 0 -> passed p Consensus g /\ forall q, rank q -> own0 g q = 0) ->
  committedEpoch (rk_epoch (ranks g p)) = 0 -> rank p -> status_inv p g.
Proof.
  intros E H1 H2 H3 H4 H5 Hp. constructor; rewrite E; cbn [stage]; intros; try lia; try discriminate; auto;
    by apply H3, H4.
Qed.

(** A failed wait is never a success. *)
Lemma debug_status0 p ph v peer : nth 0 (debug_status rankSize args p ph v peer) 0 = v.
Proof. done. Qed.

(** The common quiet transition: only the program counter moves. *)
Lemma quiet_pc p g g' pc : ranks g' p = at_pc (ranks g p) pc -> (forall ph, passed p ph g -> passed p ph g') ->
  row_status (mailbox g' p p) = row_status (mailbox g p p) ->
  same_part (stage (pc_of g p)) (stage pc) -> quiet p g g'.
Proof.
  intros E Hp Hr Hs. constructor; rewrite ?E; cbn [rk_pc at_pc rk_status rk_epoch].
  - exact Hs.
  - exact Hp.
  - reflexivity.
  - intros _. apply planned_same; rewrite ?E; [exact (Hp Data)|reflexivity..].
  - intros _. exact Hr.
  - reflexivity.
Qed.

(** Not reading rows at the end, it keeps the invariant. *)
Lemma status_pc p g g' pc : status_inv p g -> ranks g' p = at_pc (ranks g p) pc ->
  (forall ph, passed p ph g -> passed p ph g') ->
  row_status (mailbox g' p p) = row_status (mailbox g p p) ->
  same_part (stage (pc_of g p)) (stage pc) ->
  match pc with PGather Status _ | PGather Consensus _ => False | _ => True end -> status_inv p g'.
Proof.
  intros Hi E Hp Hr Hs Hpc. apply (status_quiet p g); [done|by eapply quiet_pc|..];
    rewrite E; cbn [rk_pc at_pc]; intros i ->; done.
Qed.

Section own.
Context (g g' : Global) (q : Z) (gu : bool).
Context (Hg : reachable g0 g) (Hq : rank q) (Hs : kernel_step gu q g = Some g').
Context (IH : forall p, rank p -> status_inv p g).

Let Hpm ph : passed q ph g -> passed q ph g'.
Proof. by eapply passed_mono. Qed.

Lemma own_push ph i : pc_of g q = PPush ph i -> status_inv q g'.
Proof.
  intros E. pose proof (pc_valid g Hg q Hq) as Hv. rewrite E in Hv. unfold PlanKernel.kernel_step in Hs. rewrite E in Hs.
  case_if_in Hs; injection Hs as <-.
  - eapply status_pc; [by apply IH|apply upd1_eq|exact Hpm| |rewrite E; destruct ph; try done; unfold same_part; cbn; lia|done].
    cbn [mailbox set_row set_rank]. rewrite upd2_col. by case_decide.
  - eapply status_pc; [by apply IH|apply upd1_eq|exact Hpm|done|rewrite E; destruct ph; try done; unfold same_part; cbn; lia|done].
Qed.

Lemma own_flag ph i : pc_of g q = PFlag ph i -> status_inv q g'.
Proof.
  intros E. unfold PlanKernel.kernel_step in Hs. rewrite E in Hs.
  case_if_in Hs; injection Hs as <-;
    (eapply status_pc; [by apply IH|apply upd1_eq|exact Hpm|done|rewrite E; destruct ph; unfold same_part; cbn; lia|done]).
Qed.

Lemma own_start : pc_of g q = PStart -> status_inv q g'.
Proof.
  intros E. unfold PlanKernel.kernel_step in Hs. rewrite E in Hs. injection Hs as <-.
  constructor; cbn [ranks set_row set_rank]; rewrite upd1_eq; cbn [rk_pc at_pc stage with_epoch rk_epoch committedEpoch];
    intros; try lia; try discriminate; reflexivity.
Qed.

(** Planning, or not: the status goes into the rank's own row. *)
Lemma own_fail value peer : 3 <= stage (pc_of g q) <= 5 -> 0 < value ->
  g' = fail_planning rankSize args q value peer g -> status_inv q g'.
Proof.
  intros Hst Hv Eg. assert (ranks g' q = at_pc (with_status (ranks g q) (debug_status rankSize args q Data value peer)) (PPush Status 1)) as Er.
  { subst. apply upd1_eq. }
  apply status_published; rewrite ?Er; cbn [rk_pc at_pc with_status rk_status rk_epoch]; rewrite ?debug_status0; try lia.
  - reflexivity.
  - subst g'. cbn [fail_planning start_status_push mailbox set_row set_rank]. rewrite upd2_eq. reflexivity.
  - apply (si_epoch q g (IH q Hq)). lia.
Qed.

Lemma own_plan : pc_of g q = PPlan -> status_inv q g'.
Proof.
  intros E. pose proof Hs as Hs'. unfold PlanKernel.kernel_step in Hs'. rewrite E in Hs'. unfold plan_step in Hs'.
  destruct (HeadersMatch (g_headers (ranks g q)) rankSize) eqn:Eh; cbn [negb] in Hs'.
  2: { injection Hs' as Hs'. apply (own_fail 4 q); [rewrite E; cbn; lia|lia|by symmetry]. }
  destruct (RunPlanAlgorithm _ _) as [[[st o] words]|] eqn:Er; [|discriminate Hs']. injection Hs' as Hs'.
  set (b := bool_decide _) in Hs'. clearbody b.
  set (k := at_pc (with_epoch (with_plan (ranks g q) (st, o, words)) (note_affinity rankSize args q b (rk_epoch (ranks g q)))) (PPush Status 1)) in Hs'.
  assert (ranks g' q = k) as Ek by (subst g'; apply upd1_eq).
  assert (mailbox g' q q = publish_status words (mailbox g q q)) as Em by (subst g'; apply upd2_eq).
  destruct (gather_holds g Hg q Hq) as [_ Hgi]. rewrite E in Hgi. destruct Hgi as [Hpd Hgi].
  pose proof (run_word0 _ _ _ _ _ Er) as Hw0.
  apply status_published; rewrite ?Ek, ?Em; subst k; cbn [rk_pc at_pc with_plan with_epoch rk_status rk_epoch row_status publish_status snd].
  - reflexivity.
  - reflexivity.
  - rewrite Hw0. apply status_code_nonneg.
  - rewrite Hw0. intros H%status_code_ok. subst st. Transparent planned. unfold planned. rewrite Ek.
    split; [by apply Hpm|]. split; [exact Eh|]. split; [exact Hgi|]. exists o, words. split; [reflexivity|exact Er].
  - intros H. destruct (Htag _ _ _ _ _ Hq Er H).
  - pose proof (si_epoch q g (IH q Hq)) as He. rewrite E in He. specialize (He ltac:(cbn; lia)).
    unfold note_affinity. by case_if.
Qed.
#[local] Opaque planned.

(** The planning facts survive while only the status changes. *)
Lemma planned_next k : ranks g' q = k -> g_headers k = g_headers (ranks g q) -> g_tpe k = g_tpe (ranks g q) ->
  g_ids k = g_ids (ranks g q) -> rk_plan k = rk_plan (ranks g q) -> planned q g -> planned q g'.
Proof. intros <- H1 H2 H3 H4. apply planned_same; try assumption. exact (Hpm Data). Qed.

Lemma own_timeout ph i : pc_of g q = PWait ph i ->
  g' = on_timeout rankSize args q ph ((q + i) mod rankSize) g -> status_inv q g'.
Proof.
  intros E Eg. pose proof (target_rank q i) as Hpeer. set (peer := (q + i) mod rankSize) in *.
  destruct (IH q Hq) as [S1 S2 S3 S4 S5 S6 S7 S8 S9 S10 S11 S12].
  set (failed := debug_status rankSize args q ph (kPlannerStatusTimeoutBase + peer) peer) in *.
  set (kept := if nth 1 (rk_status (ranks g q)) 0 =? kBarrierDebugBuildTag then ranks g q else with_status (ranks g q) failed).
  assert (10 <= stage (pc_of g q) <= 15 -> 0 < nth 0 (rk_status kept) 0 /\ rk_epoch kept = rk_epoch (ranks g q) /\
    g_headers kept = g_headers (ranks g q) /\ g_tpe kept = g_tpe (ranks g q) /\ g_ids kept = g_ids (ranks g q) /\
    rk_plan kept = rk_plan (ranks g q)) as Hk.
  { intros Hst. subst kept. case_if; b2p; (split; [|split_and!; reflexivity]).
    - pose proof (S5 ltac:(lia) E0). pose proof (S1 ltac:(lia)). lia.
    - cbn [with_status rk_status]. subst failed. rewrite debug_status0. unfold kPlannerStatusTimeoutBase. lia. }
  rewrite E in Hk, S11, S1. destruct ph; cbn [stage] in *.
  - apply (own_fail (kPlannerStatusTimeoutBase + peer) peer); [rewrite E; cbn; lia|unfold kPlannerStatusTimeoutBase; lia|exact Eg].
  - assert (ranks g' q = at_pc (with_status (ranks g q) failed) (PFlag ReadyPhase 0)) as Er by (subst g'; apply upd1_eq).
    assert (mailbox g' q q = mailbox g q q) as Em by (subst g'; reflexivity).
    apply status_reduced; rewrite ?Er, ?Em; cbn [rk_pc at_pc with_status rk_status rk_epoch]; subst failed;
      rewrite ?debug_status0; unfold kPlannerStatusTimeoutBase; try lia; reflexivity.
  - assert (ranks g' q = at_pc kept (PPush Consensus 1)) as Er by (subst g'; apply upd1_eq).
    assert (mailbox g' q q = publish_status (rk_status kept) (mailbox g q q)) as Em by (subst g'; apply upd2_eq).
    destruct Hk as (Hk0 & Hke & _); [lia|].
    apply status_republished; rewrite ?Er, ?Em; cbn [rk_pc at_pc rk_status rk_epoch row_status publish_status]; try lia;
      [reflexivity..|rewrite Hke; apply S11; lia].
  - assert (ranks g' q = at_pc kept PFinish) as Er by (subst g'; apply upd1_eq).
    assert (mailbox g' q q = mailbox g q q) as Em by (subst g'; reflexivity).
    destruct Hk as (Hk0 & Hke & K1 & K2 & K3 & K4); [lia|].
    apply status_agreed; rewrite ?Er, ?Em; cbn [rk_pc at_pc rk_status rk_epoch]; try lia; try exact Hq.
    + reflexivity.
    + intros H. rewrite E in S7. destruct (S7 ltac:(cbn; lia) H) as (A & B & C).
      split; [by apply (planned_next _ Er)|exact (conj (Hpm _ B) (Hpm _ C))].
    + rewrite Hke. apply S11. lia.
Qed.

Lemma own_wait ph i : pc_of g q = PWait ph i -> status_inv q g'.
Proof.
  intros E. pose proof Hs as Hs'. unfold PlanKernel.kernel_step in Hs'. rewrite E in Hs'.
  destruct (IH q Hq) as [S1 S2 S3 S4 S5 S6 S7 S8 S9 S10 S11 S12].
  set (give := gu) in Hs'. clearbody give.
  destruct (i <? rankSize) eqn:Ei; [destruct give; [|destruct (phase_ready _ _ _) eqn:Ep; [|discriminate Hs']]|];
    injection Hs' as Hs'; b2p.
  - by apply (own_timeout ph i); [|symmetry].
  - subst g'. eapply status_pc; [by apply IH|apply upd1_eq|exact Hpm|reflexivity|rewrite E; destruct ph; unfold same_part; cbn; lia|done].
  - pose proof (wait_passed g q ph i Hg Hq E Ei) as Hp. rewrite E in S1, S2, S5, S6, S11.
    destruct ph; cbn [on_barrier stage] in *.
    + subst g'. eapply status_pc; [by apply IH|apply upd1_eq|exact Hpm|reflexivity|rewrite E; unfold same_part; cbn; lia|done].
    + assert (ranks g' q = at_pc (ranks g q) (PGather Status 0)) as Er by (subst g'; apply upd1_eq).
      apply (status_quiet q g); [by apply IH|eapply quiet_pc; [exact Er|exact Hpm|subst g'; reflexivity|rewrite E; unfold same_part; cbn; lia]|..];
        rewrite Er; cbn [rk_pc at_pc]; intros j Ej; [|discriminate Ej]. injection Ej as <-. split; [exact (Hpm _ Hp)|lia].
    + assert (ranks g' q = at_pc (ranks g q) (PPush Consensus 1)) as Er by (subst g'; apply upd1_eq).
      assert (mailbox g' q q = publish_status (rk_status (ranks g q)) (mailbox g q q)) as Em by (subst g'; apply upd2_eq).
      apply status_republished; rewrite ?Er, ?Em; cbn [rk_pc at_pc rk_status rk_epoch row_status publish_status];
        [reflexivity|reflexivity|apply S1; lia| |apply S5; lia|apply S11; lia].
      intros H. split; [apply (planned_next _ Er); try reflexivity; apply S2; [lia|exact H]|].
      split; [apply Hpm, S6; [lia|exact H]|exact (Hpm _ Hp)].
    + assert (ranks g' q = at_pc (ranks g q) (PGather Consensus 0)) as Er by (subst g'; apply upd1_eq).
      apply (status_quiet q g); [by apply IH|eapply quiet_pc; [exact Er|exact Hpm|subst g'; reflexivity|rewrite E; unfold same_part; cbn; lia]|..];
        rewrite Er; cbn [rk_pc at_pc]; intros j Ej; [discriminate Ej|]. injection Ej as <-. split; [exact (Hpm _ Hp)|lia].
Qed.

(** Reading a row touches only what was gathered. *)
Lemma own_read ph i : pc_of g q = PGather ph i -> i < rankSize -> status_inv q g'.
Proof.
  intros E Hi. pose proof (pc_valid g Hg q Hq) as Hv. rewrite E in Hv.
  pose proof Hs as Hs'. unfold PlanKernel.kernel_step in Hs'. rewrite E in Hs'.
  destruct (i <? rankSize) eqn:Ei; [|b2p; lia]. injection Hs' as Hs'. clear Ei.
  destruct (IH q Hq) as [_ _ _ S4 _ _ _ _ S9 _ _ _]. destruct ph; [| |done|]; cbn [pc_ok] in Hv.
  - set (k := GatherInput args q i (mailbox g q i) (ranks g q)) in Hs'.
    assert (ranks g' q = at_pc k (PGather Data (i + 1))) as Er by (subst g'; apply upd1_eq).
    apply (status_quiet q g); [by apply IH| |rewrite Er; discriminate..].
    constructor; rewrite ?Er, ?E; cbn [stage rk_pc at_pc]; [unfold same_part; lia|exact Hpm|reflexivity|lia|lia|reflexivity].
  - set (k := GatherStatus i (mailbox g q i) (ranks g q)) in Hs'.
    assert (ranks g' q = at_pc k (PGather Status (i + 1))) as Er by (subst g'; apply upd1_eq).
    assert (mailbox g' = mailbox g) as Em by (subst g'; reflexivity).
    apply (status_quiet q g); [by apply IH|..]; rewrite ?Em.
    + constructor; rewrite ?Er, ?E, ?Em; cbn [stage rk_pc at_pc];
        [unfold same_part; lia|exact Hpm|reflexivity|intros _; by apply (planned_next _ Er)|intros _; reflexivity|reflexivity].
    + rewrite Er. cbn [rk_pc at_pc g_status]. intros j [= <-]. destruct (S4 i E) as [A B].
      split; [exact (Hpm _ A)|]. intros Hlt. subst k. cbn [GatherStatus g_status].
      destruct (decide (q = i)) as [->|Hne]; [apply upd1_eq|]. rewrite upd1_ne by done. apply B. lia.
    + rewrite Er. discriminate.
  - set (k := GatherStatus i (mailbox g q i) (ranks g q)) in Hs'.
    assert (ranks g' q = at_pc k (PGather Consensus (i + 1))) as Er by (subst g'; apply upd1_eq).
    assert (mailbox g' = mailbox g) as Em by (subst g'; reflexivity).
    apply (status_quiet q g); [by apply IH|..]; rewrite ?Em.
    + constructor; rewrite ?Er, ?E, ?Em; cbn [stage rk_pc at_pc];
        [unfold same_part; lia|exact Hpm|reflexivity|intros _; by apply (planned_next _ Er)|intros _; reflexivity|reflexivity].
    + rewrite Er. discriminate.
    + rewrite Er. cbn [rk_pc at_pc g_status]. intros j [= <-]. destruct (S9 i E) as [A B].
      split; [exact (Hpm _ A)|]. intros r Hr Hlt. subst k. cbn [GatherStatus g_status].
      destruct (decide (r = i)) as [->|Hne].
      * rewrite upd1_eq. apply (last_row g i q Hg Hr Hq (A i Hr)).
      * rewrite upd1_ne by done. apply B; [exact Hr|lia].
Qed.

(** The reductions. *)
Lemma own_reduce ph i : pc_of g q = PGather ph i -> rankSize <= i -> status_inv q g'.
Proof.
  intros E Hi. pose proof (pc_valid g Hg q Hq) as Hv. rewrite E in Hv.
  pose proof Hs as Hs'. unfold PlanKernel.kernel_step in Hs'. rewrite E in Hs'.
  destruct (i <? rankSize) eqn:Ei; [b2p; lia|]. injection Hs' as Hs'. clear Ei.
  destruct (IH q Hq) as [S1 S2 S3 S4 S5 S6 S7 S8 S9 S10 S11 S12].
  set (red := ReduceGlobalPlanStatus (g_status (ranks g q)) rankSize) in *.
  pose proof (Reduce_nonneg (g_status (ranks g q))) as Hr0. fold red in Hr0.
  destruct ph; [| |done|]; cbn [pc_ok on_gathered] in *; rewrite E in S1, S2, S3, S5, S7, S8, S11; cbn [stage] in *.
  - subst g'. eapply status_pc; [by apply IH|apply upd1_eq|exact Hpm|reflexivity|rewrite E; unfold same_part; cbn; lia|done].
  - assert (ranks g' q = at_pc (with_status (ranks g q) (set_status0 (rk_status (ranks g q)) red)) (PFlag ReadyPhase 0)) as Er
      by (subst g'; apply upd1_eq).
    assert (mailbox g' q q = mailbox g q q) as Em by (subst g'; reflexivity).
    destruct (S4 i E) as [A B]. specialize (B ltac:(lia)).
    pose proof (Reduce_ge (g_status (ranks g q)) q Hq) as Hge. fold red in Hge. rewrite B, <- S3 in Hge by lia.
    apply status_reduced; rewrite ?Er, ?Em; cbn [rk_pc at_pc with_status rk_status rk_epoch];
      rewrite ?nth1_status0; cbn [set_status0 nth].
    + reflexivity.
    + exact Hr0.
    + apply S1. lia.
    + intros H. split; [|exact (Hpm _ A)]. apply (planned_next _ Er); try reflexivity. apply S2; [lia|]. pose proof (S1 ltac:(lia)). lia.
    + intros H. pose proof (S5 ltac:(lia) H). pose proof (S1 ltac:(lia)). lia.
    + apply S11. lia.
  - assert (ranks g' q = at_pc (with_status (ranks g q) (set_status0 (rk_status (ranks g q)) red)) PFinish) as Er
      by (subst g'; apply upd1_eq).
    assert (mailbox g' = mailbox g) as Em by (subst g'; reflexivity).
    destruct (S9 i E) as [A B].
    apply status_agreed; rewrite ?Er, ?Em; cbn [rk_pc at_pc with_status rk_status rk_epoch set_status0 nth].
    + reflexivity.
    + exact Hr0.
    + apply S1. lia.
    + intros H. destruct (S7 ltac:(lia) H) as (C & D & F).
      split; [by apply (planned_next _ Er)|exact (conj (Hpm _ D) (Hpm _ F))].
    + intros H. split; [exact (Hpm _ A)|]. intros r Hr.
      pose proof (Reduce_ge (g_status (ranks g q)) r Hr) as Hge. fold red in Hge. rewrite (B r Hr ltac:(lia)) in Hge.
      destruct (last_row g r q Hg Hr Hq (A r Hr)) as [_ Hst].
      pose proof (si_nonneg r g (IH r Hr) ltac:(lia)). lia.
    + apply S11. lia.
    + exact Hq.
Qed.

Lemma own_finish : pc_of g q = PFinish -> status_inv q g'.
Proof.
  intros E. pose proof Hs as Hs'. unfold PlanKernel.kernel_step in Hs'. rewrite E in Hs'. injection Hs' as Hs'.
  destruct (IH q Hq) as [S1 S2 S3 S4 S5 S6 S7 S8 S9 S10 S11 S12].
  set (k := commit args q (ranks g q)) in Hs'.
  assert (ranks g' q = at_pc k PDone) as Er by (subst g'; apply upd1_eq).
  assert (mailbox g' = mailbox g) as Em by (subst g'; reflexivity).
  assert (rk_status k = rk_status (ranks g q) /\ g_headers k = g_headers (ranks g q) /\
    g_tpe k = g_tpe (ranks g q) /\ g_ids k = g_ids (ranks g q) /\ rk_plan k = rk_plan (ranks g q) /\
    (committedEpoch (rk_epoch k) <> 0 -> status0 g q = 0)) as (K0 & K1 & K2 & K3 & K4 & K5).
  { subst k. unfold commit. rewrite E in S11. specialize (S11 ltac:(cbn; lia)).
    case_if; b2p; split_and!; try reflexivity; try (intros _; assumption). intros H. by rewrite S11 in H. }
  rewrite E in S1, S2, S6, S7, S10. cbn [stage] in *.
  constructor; rewrite ?Er, ?Em; cbn [rk_pc at_pc rk_status rk_epoch stage g_status]; rewrite ?K0; intros; try lia; try discriminate.
  - by apply (planned_next _ Er), S2; [..|lia].
  - apply Hpm, S6; [lia|assumption].
  - match goal with H : nth 0 _ 0 = 0 |- _ => destruct (S7 ltac:(lia) H) as (C & D & F) end.
    split; [by apply (planned_next _ Er)|exact (conj (Hpm _ D) (Hpm _ F))].
  - match goal with H : nth 0 _ 0 = 0 |- _ => destruct (S10 ltac:(lia) H) as (C & D) end.
    exact (conj (Hpm _ C) D).
Qed.
End own.

Lemma status_holds g : reachable g0 g -> forall p, rank p -> status_inv p g.
Proof.
  revert g. apply (rank_induction status_inv).
  - intros p Hp. destruct (H0 p Hp) as (E & _). constructor; rewrite E; cbn [stage]; intros; try lia; discriminate.
  - intros g g' q gu Hg Hq Hs IH. destruct (rk_pc (ranks g q)) eqn:E.
    + by apply (own_start g g' q gu).
    + by apply (own_push g g' q gu Hg Hq Hs IH ph i).
    + by apply (own_flag g g' q gu Hq Hs IH ph i).
    + by apply (own_wait g g' q gu Hg Hq Hs IH ph i).
    + destruct (Z.lt_ge_cases i rankSize).
      * by apply (own_read g g' q gu Hg Hq Hs IH ph i).
      * by apply (own_reduce g g' q gu Hg Hq Hs IH ph i).
    + by apply (own_plan g g' q gu).
    + by apply (own_finish g g' q gu).
    + unfold PlanKernel.kernel_step in Hs. by rewrite E in Hs.
  - intros g g' q gu p Hg Hq Hp Hne Hs IH. by apply (status_frame g g' q gu p Hg Hq Hp Hne Hs), IH.
Qed.
End inv.
