(* ===== verification/PlanKernelProps.v ===== *)
(** What the planner kernel guarantees across ranks: a committed epoch means that every rank
    planned the same job successfully, planners never deadlock, and every run is bounded. *)
From Stdlib Require Import FunctionalExtensionality.
From stdpp Require Import relations.
From S2P Require Import Prelude Layouts PlanTypes PlanSort PlanAlgorithm PlanOutput CombineWire PlanWorkspace PlanKernel PlanKernelInv PlanFinal PlanRounds PlanAgree PlanDst PlanProps.

(** ** The job the ranks plan together *)

Section job.
Context (rankSize magic : Z) (args : Z -> KernelArgs).

Definition job_tpe (E x : Z) : Z :=
  if (0 <=? x) && (x <? rankSize * E) then a_tokensPerExpert (args (x / E)) (x mod E) else 0.

Definition job_ids (x : Z) : Z :=
  if (0 <=? x) && (x <? rankSize) then a_globalRankIds (args x) x else 0.

(** The input of rank [q] with the tables of the whole job. *)
Definition job_input (q : Z) : PlanAlgorithmInput :=
  let a := args q in
  {| in_rank := q; in_rankSize := rankSize; in_s := a_s a; in_topK := a_topK a;
     in_expertNum := a_expertNum a; in_config := a_config a; topkExperts := a_topkExperts a;
     tokensPerExpert := job_tpe (a_expertNum a); globalRankIds := job_ids |}.

(** The sizes, configuration and epoch of two ranks are the same. *)
Definition same_call (q q' : Z) : Prop :=
  a_s (args q) = a_s (args q') /\ a_topK (args q) = a_topK (args q') /\
  a_expertNum (args q) = a_expertNum (args q') /\ a_config (args q) = a_config (args q') /\
  a_epoch (args q) = a_epoch (args q') /\
  BuildTopologyHash (a_globalRankIds (args q)) rankSize = BuildTopologyHash (a_globalRankIds (args q')) rankSize.

Lemma header_same q q' : header_matches (call_header rankSize args q) (call_header rankSize args q') = true ->
  same_call q q'.
Proof.
  unfold header_matches, call_header, FillHeader.
  cbn [h_abiVersion h_headerBytes h_rankSize h_reserved0 h_s h_k h_expertNum h_prefetchSlots h_rankTokenCapacity
    h_nvS h_tokenPadding h_tokenRouteLimitPerPair h_cardsPerServer h_cardsPerCabinet h_crossCandidateCount
    h_reserved1 h_epoch h_topologyHash]. intros H. b2p.
  unfold same_call. split_and!; try assumption.
  destruct (a_config (args q)), (a_config (args q')). cbn in *. congruence.
Qed.

Context (HR : 0 < rankSize <= 128).
Context (Hexperts : forall p, 0 <= p < rankSize -> 0 < a_expertNum (args p) <= 1048512).

Abbreviation rank p := (0 <= p < rankSize).

Lemma planned_calls p g : planned rankSize magic args p g -> forall q, rank q -> same_call q 0.
Proof.
  intros (_ & Hm & Hg & _) q Hq. unfold HeadersMatch in Hm.
  destruct (decide (q = 0)) as [->|Hne]; [done|]. apply header_same.
  rewrite forallb_forall in Hm. destruct (Hg q Hq) as [<- _], (Hg 0 ltac:(lia)) as [<- _].
  apply Hm. apply list_elem_of_In, elem_of_seqZ. lia.
Qed.

(** A rank that planned did so on the job's tables. *)
Lemma planned_input p g : rank p -> canonical rankSize args p (ranks g p) -> planned rankSize magic args p g ->
  plan_input rankSize args p (ranks g p) = job_input p.
Proof.
  intros Hp [C1 C2] Hpl. pose proof (planned_calls p g Hpl) as Hs. destruct Hpl as (_ & _ & Hg & _).
  unfold plan_input, job_input. pose proof (Hexperts p Hp) as HE. f_equal; apply functional_extensionality; intros x.
  - unfold job_tpe. destruct ((0 <=? x) && (x <? rankSize * a_expertNum (args p))) eqn:Ex; b2p.
    2: { apply C1. destruct Ex; b2p; lia. }
    set (E := a_expertNum (args p)) in *. set (q := x / E). set (e := x mod E).
    assert (x = q * E + e) as Hx by (subst q e; pose proof (Z.div_mod x E); lia).
    assert (rank q) as Hq by (subst q; split; [apply Z.div_pos; lia|apply Z.div_lt_upper_bound; nia]).
    assert (0 <= e < E) as He by (apply Z.mod_pos_bound; lia).
    destruct (Hg q Hq) as (_ & _ & Ht). rewrite Hx at 1. apply Ht; [done|].
    destruct (Hs q Hq) as (_ & _ & -> & _), (Hs p Hp) as (_ & _ & <- & _). subst E. lia.
  - unfold job_ids. destruct ((0 <=? x) && (x <? rankSize)) eqn:Ex; b2p.
    + destruct (Hg x ltac:(lia)) as (_ & -> & _). done.
    + apply C2. destruct Ex; b2p; lia.
Qed.
End job.

(** Cached or rebuilt, the rows are those of the rank ids of the job. *)
Lemma job_rows rankSize args q :
  (affinityOrderValid rankSize args q = true ->
     forall dst, a_affinityOrder (args q) dst = BuildAffinity rankSize (job_ids rankSize args) dst) ->
  affinity_rows (job_input rankSize args q) (plan_workspace rankSize args q) = BuildAffinity rankSize (job_ids rankSize args).
Proof.
  intros H. unfold affinity_rows, plan_workspace, BindAlgorithmWorkspace. cbn [affinityCache job_input in_rankSize globalRankIds].
  destruct (affinityOrderValid rankSize args q); [|done]. apply functional_extensionality. intros dst. by apply H.
Qed.

(** ** Commit *)

(** The launches the guarantees are about: at least one rank, expert tables that fit a mailbox
    row (checked on the host), epochs that are not 0 (checked on the host), cached affinity rows
    that name ranks, loads below the tag word of the debug status, and barrier words that hold no
    word of this launch. *)
Record well_launched (rankSize magic : Z) (args : Z -> KernelArgs) (g0 : Global) : Prop := {
  wl_ranks : 0 < rankSize <= 128;
  wl_experts : forall p, 0 <= p < rankSize -> 0 < a_expertNum (args p) <= 1048512;
  wl_epoch : forall p, 0 <= p < rankSize -> a_epoch (args p) <> 0;
  wl_affinity : forall p, 0 <= p < rankSize -> affinity_ok (job_input rankSize args p) (plan_workspace rankSize args p);
  wl_load : forall p, 0 <= p < rankSize -> rankSize * rankTokenCapacity (a_config (args p)) < kBarrierDebugBuildTag;
  wl_launch : launch rankSize magic args g0
}.

Section props.
Context (rankSize magic : Z) (args : Z -> KernelArgs) (g0 : Global).
Context (W : well_launched rankSize magic args g0).

Abbreviation rank p := (0 <= p < rankSize).

Lemma no_tag p k st o words : rank p ->
  RunPlanAlgorithm (plan_input rankSize args p k) (plan_workspace rankSize args p) = Some (st, o, words) ->
  nth 1 words 0 <> kBarrierDebugBuildTag.
Proof.
  intros Hp Hrun. pose proof (run_word1 _ _ _ _ _ (wl_affinity _ _ _ _ W p Hp : affinity_ok (plan_input rankSize args p k) _) Hrun) as H.
  pose proof (wl_load _ _ _ _ W p Hp) as Hl. unfold cap_, plan_input in H. cbn [in_rankSize in_config] in H.
  unfold kBarrierDebugBuildTag in *. lia.
Qed.

Lemma final_status g p : reachable rankSize magic args g0 g -> rank p -> status_inv rankSize magic args p g.
Proof.
  intros Hg. apply (status_holds rankSize magic args (wl_ranks _ _ _ _ W) (wl_experts _ _ _ _ W) g0
    (wl_launch _ _ _ _ W) no_tag g Hg).
Qed.

(** A committed rank has seen every rank plan. *)
Lemma committed_planned g p : reachable rankSize magic args g0 g -> rank p ->
  rk_pc (ranks g p) = PDone -> committedEpoch (rk_epoch (ranks g p)) <> 0 ->
  forall q, rank q -> planned rankSize magic args q g /\ passed rankSize magic q Status g /\
    passed rankSize magic q ReadyPhase g.
Proof.
  intros Hg Hp Epc He q Hq. pose proof (final_status g p Hg Hp) as Hi.
  pose proof (si_commit _ _ _ _ _ Hi) as Hc. rewrite Epc in Hc. specialize (Hc eq_refl He).
  pose proof (si_agreed _ _ _ _ _ Hi) as Ha. rewrite Epc in Ha. destruct (Ha ltac:(cbn; lia) Hc) as [Hpc Hown].
  pose proof (flag_inv rankSize magic args (wl_ranks _ _ _ _ W) g0 (wl_launch _ _ _ _ W) g Hg q Hq p Consensus Hp (Hpc q Hq)) as Hst.
  cbn [flag_stage] in Hst.
  apply (si_last _ _ _ _ _ (final_status g q Hg Hq)); [lia|by apply Hown].
Qed.
End props.

Lemma committed_runs rankSize magic args g0 g p :
  well_launched rankSize magic args g0 -> reachable rankSize magic args g0 g -> 0 <= p < rankSize ->
  rk_pc (ranks g p) = PDone -> committedEpoch (rk_epoch (ranks g p)) = a_epoch (args p) ->
  forall q, 0 <= q < rankSize ->
    same_call rankSize args q p /\
    (forall ph, ph <> Consensus -> passed rankSize magic q ph g) /\
    exists o words, rk_plan (ranks g q) = Some (PLAN_OK, o, words) /\
      RunPlanAlgorithm (job_input rankSize args q) (plan_workspace rankSize args q) = Some (PLAN_OK, o, words).
Proof.
  intros W Hg Hp Epc He q Hq. pose proof (wl_epoch _ _ _ _ W p Hp) as Hne.
  destruct (committed_planned rankSize magic args g0 W g p Hg Hp Epc ltac:(congruence) q Hq) as (Hpl & Hps & Hpr).
  pose proof (planned_calls rankSize magic args (wl_ranks _ _ _ _ W) q g Hpl) as Hs.
  destruct (gather_holds rankSize magic args (wl_ranks _ _ _ _ W) (wl_experts _ _ _ _ W) g0 (wl_launch _ _ _ _ W) g Hg q Hq) as [Hcan _].
  pose proof (planned_input rankSize magic args (wl_ranks _ _ _ _ W) (wl_experts _ _ _ _ W) q g Hq Hcan Hpl) as Ein.
  split; [|split].
  - destruct (Hs q Hq) as (A1 & A2 & A3 & A4 & A5 & A6), (Hs p Hp) as (B1 & B2 & B3 & B4 & B5 & B6).
    unfold same_call. split_and!; congruence.
  - destruct Hpl as (Hpd & _). intros [] H; done.
  - destruct Hpl as (_ & _ & _ & o & words & E1 & E2). exists o, words. rewrite Ein in E2. done.
Qed.

(** ** A concrete run: two ranks, turn by turn, no timeout *)

Fixpoint take_turns (rankSize magic : Z) (args : Z -> KernelArgs) (turns : list Z) (g : Global) : Global :=
  match turns with
  | [] => g
  | p :: t => take_turns rankSize magic args t
                (match kernel_step rankSize magic args false p g with Some g' => g' | None => g end)
  end.

Lemma take_turns_reachable rankSize magic args g0 turns : Forall (fun p => 0 <= p < rankSize) turns ->
  forall g, reachable rankSize magic args g0 g -> reachable rankSize magic args g0 (take_turns rankSize magic args turns g).
Proof.
  induction 1 as [|p t Hp _ IH]; intros g Hg; cbn [take_turns]; [done|]. apply IH.
  destruct (kernel_step _ _ _ _ _ _) as [g'|] eqn:E; [|done].
  eapply reach_step; [done|]. by exists p, false.
Qed.

Definition two_args (p : Z) : KernelArgs :=
  {| a_s := 4; a_topK := 2; a_expertNum := 4; a_config := small_config; a_epoch := 7;
     a_topkExperts := topkExperts (small_input p);
     a_tokensPerExpert := fun e => tokensPerExpert (small_input p) (p * 4 + e);
     a_globalRankIds := fun r => r; a_hasRemoteExperts := true; a_hasExpertTargets := true;
     a_epochState := {| requestedEpoch := 0; committedEpoch := 0; topologyHash := 0; reserved := 0 |};
     a_affinityOrder := fun _ => []; a_peerMems := fun r => 4096 * (r + 1) |}.

Definition two_start : Global :=
  {| ranks := fun p => {| rk_pc := PStart; rk_status := []; g_headers := fun _ => call_header 2 two_args 0;
       g_tpe := fun _ => 0; g_ids := fun _ => 0; g_status := fun _ => [];
       rk_epoch := a_epochState (two_args p); rk_plan := None |};
     mailbox := fun _ _ => {| row_header := call_header 2 two_args 0; row_id := 0; row_status := []; row_tpe := fun _ => 0 |};
     barriers := fun _ _ _ => 0 |}.

Definition two_turns : list Z := concat (replicate 60 [0; 1]).

Definition two_end : Global := take_turns 2 5 two_args two_turns two_start.

Lemma two_launched : well_launched 2 5 two_args two_start.
Proof.
  constructor; [lia|cbn; lia|cbn; lia| |cbn; unfold kBarrierDebugBuildTag; lia|].
  - intros p _ c dst r. cbn. discriminate.
  - intros p Hp. split_and!; try reflexivity. intros [] q; reflexivity.
Qed.

Lemma two_reaches : reachable 2 5 two_args two_start two_end.
Proof. apply take_turns_reachable; [|constructor]. vm_compute. repeat constructor; discriminate. Qed.

Lemma two_done : rk_pc (ranks two_end 0) = PDone /\ committedEpoch (rk_epoch (ranks two_end 0)) = 7.
Proof. vm_compute. done. Qed.

(** C1: Commit is agreement. Whatever the interleaving and whichever waits time out, once a rank
    has committed its epoch, every rank of the job was launched with the same sizes,
    configuration, epoch and topology hash, heard from all ranks in the data, status and ready
    phases, and its planner ended in [PLAN_OK] on the token counts and rank ids of the whole
    job; the plan written to its outputs is that result. *)
Theorem plan_commit_agreement rankSize magic args g0 g p :
  well_launched rankSize magic args g0 -> reachable rankSize magic args g0 g -> 0 <= p < rankSize ->
  rk_pc (ranks g p) = PDone -> committedEpoch (rk_epoch (ranks g p)) = a_epoch (args p) ->
  forall q, 0 <= q < rankSize ->
    same_call rankSize args q p /\
    (forall ph, ph <> Consensus -> passed rankSize magic q ph g) /\
    exists o words, rk_plan (ranks g q) = Some (PLAN_OK, o, words) /\
      RunPlanAlgorithm (job_input rankSize args q) (plan_workspace rankSize args q) = Some (PLAN_OK, o, words).
Proof. apply committed_runs. Qed.

Lemma plan_commit_agreement_witness : exists o words,
  RunPlanAlgorithm (job_input 2 two_args 1) (plan_workspace 2 two_args 1) = Some (PLAN_OK, o, words).
Proof.
  destruct (plan_commit_agreement 2 5 two_args two_start two_end 0 two_launched two_reaches ltac:(lia)
    (proj1 two_done) (proj2 two_done) 1 ltac:(lia)) as (_ & _ & o & words & _ & E).
  exists o, words. exact E.
Defined.

(** C5: After a commit no receive slot is used twice in the job: no route of one rank decodes to
    the slot of a route of another rank, for the plans written to the outputs of the two. Some ranks may reuse
    the affinity table they cached and others rebuild it; it is assumed of a rank whose cache is marked valid,
    for the hash of the topology, that the table holds the rows that [BuildAffinity] computes for
    the rank ids of the job (a table built by this planner for these ids does; one of other ids
    with the same hash would not). *)
Theorem plan_commit_slots rankSize magic args g0 g p :
  well_launched rankSize magic args g0 -> reachable rankSize magic args g0 g -> 0 <= p < rankSize ->
  (forall q, 0 <= q < rankSize -> affinityOrderValid rankSize args q = true ->
     forall dst, a_affinityOrder (args q) dst = BuildAffinity rankSize (job_ids rankSize args) dst) ->
  rk_pc (ranks g p) = PDone -> committedEpoch (rk_epoch (ranks g p)) = a_epoch (args p) ->
  forall q q', 0 <= q < rankSize -> 0 <= q' < rankSize -> q <> q' -> exists o o' words words',
    rk_plan (ranks g q) = Some (PLAN_OK, o, words) /\ rk_plan (ranks g q') = Some (PLAN_OK, o', words') /\
    forall t k t' k', 0 <= t < a_s (args p) -> 0 <= k < a_topK (args p) ->
      0 <= t' < a_s (args p) -> 0 <= k' < a_topK (args p) ->
      decode (out_dst o (t * a_topK (args p) + k)) <> decode (out_dst o' (t' * a_topK (args p) + k')).
Proof.
  intros W Hg Hp Hca Epc He q q' Hq Hq' Hne.
  destruct (committed_runs _ _ _ _ _ _ W Hg Hp Epc He q Hq) as ((A1 & A2 & A3 & A4 & _) & _ & o & words & E1 & E2).
  destruct (committed_runs _ _ _ _ _ _ W Hg Hp Epc He q' Hq') as ((B1 & B2 & B3 & B4 & _) & _ & o' & words' & E1' & E2').
  exists o, o', words, words'. split; [exact E1|]. split; [exact E1'|].
  rewrite <- A1, <- A2.
  apply (ranks_apart (job_input rankSize args q) (job_input rankSize args q') _ _ o o' words words'
    (wl_affinity _ _ _ _ W q Hq) (wl_affinity _ _ _ _ W q' Hq')); try assumption.
  - unfold shared_input, job_input.
    cbn [in_rank in_rankSize in_s in_topK in_expertNum in_config topkExperts tokensPerExpert globalRankIds].
    by rewrite A1, A2, A3, A4, B1, B2, B3, B4.
  - by rewrite (job_rows rankSize args q (Hca q Hq)), (job_rows rankSize args q' (Hca q' Hq')).
Qed.

(** Two ranks of which the second has its affinity rows cached from an earlier call. *)
Definition mixed_args (p : Z) : KernelArgs :=
  let a := two_args p in
  {| a_s := a_s a; a_topK := a_topK a; a_expertNum := a_expertNum a; a_config := a_config a; a_epoch := a_epoch a;
     a_topkExperts := a_topkExperts a; a_tokensPerExpert := a_tokensPerExpert a; a_globalRankIds := a_globalRankIds a;
     a_hasRemoteExperts := true; a_hasExpertTargets := true;
     a_epochState := {| requestedEpoch := 6; committedEpoch := 6;
       topologyHash := BuildTopologyHash (a_globalRankIds a) 2; reserved := if p =? 1 then kPlanAffinityCacheValid else 0 |};
     a_affinityOrder := BuildAffinity 2 (job_ids 2 two_args); a_peerMems := a_peerMems a |}.

Definition mixed_start : Global :=
  {| ranks := fun p => {| rk_pc := PStart; rk_status := []; g_headers := fun _ => call_header 2 mixed_args 0;
       g_tpe := fun _ => 0; g_ids := fun _ => 0; g_status := fun _ => [];
       rk_epoch := a_epochState (mixed_args p); rk_plan := None |};
     mailbox := mailbox two_start; barriers := fun _ _ _ => 0 |}.

Definition mixed_end : Global := take_turns 2 5 mixed_args two_turns mixed_start.

Lemma mixed_launched : well_launched 2 5 mixed_args mixed_start.
Proof.
  constructor; [lia|cbn; lia|cbn; lia| |cbn; unfold kBarrierDebugBuildTag; lia|].
  - intros p _ cached dst r Hca _ Hr. cbn in Hca. destruct (affinityOrderValid _ _ _); [|discriminate]. injection Hca as <-.
    rewrite affinity_perm in Hr. by apply elem_of_seqZ0.
  - intros p Hp. split_and!; try reflexivity. intros [] q; reflexivity.
Qed.

Lemma mixed_reaches : reachable 2 5 mixed_args mixed_start mixed_end.
Proof. apply take_turns_reachable; [|constructor]. vm_compute. repeat constructor; discriminate. Qed.

Lemma mixed_done : rk_pc (ranks mixed_end 0) = PDone /\ committedEpoch (rk_epoch (ranks mixed_end 0)) = 7.
Proof. vm_compute. done. Qed.

Lemma plan_commit_slots_witness : affinityOrderValid 2 mixed_args 0 = false /\ affinityOrderValid 2 mixed_args 1 = true /\
  exists o o' words words',
  rk_plan (ranks mixed_end 0) = Some (PLAN_OK, o, words) /\ rk_plan (ranks mixed_end 1) = Some (PLAN_OK, o', words').
Proof.
  split; [vm_compute; reflexivity|]. split; [vm_compute; reflexivity|].
  destruct (plan_commit_slots 2 5 mixed_args mixed_start mixed_end 0 mixed_launched mixed_reaches ltac:(lia)
    (fun q _ _ dst => eq_refl) (proj1 mixed_done) (proj2 mixed_done) 0 1 ltac:(lia) ltac:(lia) ltac:(lia))
    as (o & o' & words & words' & E & E' & _).
  exists o, o', words, words'. split; [exact E|exact E'].
Defined.

(** ** Progress *)

Lemma run_total inp ws : affinity_ok inp ws -> is_Some (RunPlanAlgorithm inp ws).
Proof.
  intros Hc. unfold RunPlanAlgorithm. case_if; [by eexists|]. apply negb_false_iff, bool_decide_eq_true in E.
  destruct (run_balance inp ws E Hc) as (s & -> & _). by eexists.
Qed.

(** A rank that is not waiting can move. *)
Lemma can_move rankSize magic args g p : affinity_ok (job_input rankSize args p) (plan_workspace rankSize args p) ->
  rk_pc (ranks g p) <> PDone -> (forall ph i, rk_pc (ranks g p) = PWait ph i -> rankSize <= i) ->
  is_Some (kernel_step rankSize magic args false p g).
Proof.
  intros Hc Hd Hw. unfold kernel_step. destruct (rk_pc (ranks g p)) as [|ph i|ph i|ph i|ph i| | |] eqn:E; try done; try by eexists.
  - case_if; by eexists.
  - case_if; by eexists.
  - specialize (Hw ph i eq_refl). case_if; b2p; [lia|by eexists].
  - case_if; by eexists.
  - unfold plan_step. case_if; [by eexists|].
    destruct (run_total (plan_input rankSize args p (ranks g p)) (plan_workspace rankSize args p) Hc) as [r ->]. by eexists.
Qed.

(** The flag a least advanced rank waits for is there. *)
Lemma least_flag rankSize magic args g0 g p ph i : well_launched rankSize magic args g0 ->
  reachable rankSize magic args g0 g -> 0 <= p < rankSize -> rk_pc (ranks g p) = PWait ph i -> 
  (forall q, 0 <= q < rankSize -> stage (rk_pc (ranks g q)) < 17 -> stage (rk_pc (ranks g p)) <= stage (rk_pc (ranks g q))) ->
  phase_ready magic ph (barriers g p ph ((p + i) mod rankSize)) = true.
Proof.
  intros W Hg Hp E Hmin. pose proof (wl_ranks _ _ _ _ W) as HR. set (q := (p + i) mod rankSize).
  assert (0 <= q < rankSize) as Hq by (apply Z.mod_pos_bound; lia).
  destruct (target_onto rankSize HR q p Hq Hp) as (j & Hj & Ej). rewrite <- Ej at 1.
  apply (flags_inv rankSize magic args HR g0 (wl_launch _ _ _ _ W) g Hg q Hq). unfold flags_set.
  case_if; b2p; [lia|]. exfalso. specialize (Hmin q Hq). rewrite E in Hmin. destruct ph; cbn [stage flag_stage] in *; lia.
Qed.

(** C10: No deadlock: in every reachable state, timed-out waits included, either all ranks have
    finished or some rank can take its next step without giving up a wait. *)
Theorem plan_kernel_deadlock_free rankSize magic args g0 g :
  well_launched rankSize magic args g0 -> reachable rankSize magic args g0 g ->
  (forall p, 0 <= p < rankSize -> rk_pc (ranks g p) = PDone) \/
  exists p g', 0 <= p < rankSize /\ kernel_step rankSize magic args false p g = Some g'.
Proof.
  intros W Hg. pose proof (wl_ranks _ _ _ _ W) as HR. pose proof (wl_launch _ _ _ _ W) as HL.
  set (open_ranks := List.filter (fun p => stage (rk_pc (ranks g p)) <? 17) (seqZ 0 rankSize)).
  assert (forall p, p ∈ open_ranks <-> 0 <= p < rankSize /\ stage (rk_pc (ranks g p)) < 17) as Hin.
  { intros p. unfold open_ranks. rewrite list_elem_of_In, filter_In, <- list_elem_of_In, elem_of_seqZ0, Z.ltb_lt. done. }
  assert (forall p, 0 <= p < rankSize -> stage (rk_pc (ranks g p)) <= 17 /\ (stage (rk_pc (ranks g p)) = 17 -> rk_pc (ranks g p) = PDone)) as Hst.
  { intros p Hp. destruct (rk_pc (ranks g p)) as [|[]|[]|[]|[]| | |]; cbn; split; (lia || done). }
  destruct (decide (open_ranks = [])) as [E|Hne].
  { left. intros p Hp. destruct (Hst p Hp) as [H1 H2]. apply H2. destruct (Z.lt_ge_cases (stage (rk_pc (ranks g p))) 17); [|lia].
    assert (p ∈ open_ranks) as Hp' by (by apply Hin). rewrite E in Hp'. by inversion Hp'. }
  right. destruct (argmin (fun p => stage (rk_pc (ranks g p))) open_ranks Hne) as (p & Hp & Hmin).
  apply Hin in Hp as [Hp Hlt]. exists p.
  assert (rk_pc (ranks g p) <> PDone) as Hd by (intros E; rewrite E in Hlt; cbn in Hlt; lia).
  assert ((exists ph i, rk_pc (ranks g p) = PWait ph i /\ i < rankSize) \/
    forall ph i, rk_pc (ranks g p) = PWait ph i -> rankSize <= i) as [(ph & i & E & Hi)|Hno].
  { destruct (rk_pc (ranks g p)) as [| | |ph i| | | |]; try (right; intros; discriminate).
    destruct (Z.lt_ge_cases i rankSize); [left; by exists ph, i|right; by intros ? ? [= <- <-]]. }
  - unfold kernel_step. rewrite E. case_if; b2p; [|lia].
    rewrite (least_flag rankSize magic args g0 g p ph i W Hg Hp E); [by eexists|].
    intros q Hq Hqs. apply Hmin. by apply Hin.
  - destruct (can_move rankSize magic args g p (wl_affinity _ _ _ _ W p Hp) Hd Hno) as [g' Hg']. by exists g'.
Qed.

Lemma plan_kernel_deadlock_free_witness : exists p g', 0 <= p < 2 /\ kernel_step 2 5 two_args false p two_start = Some g'.
Proof.
  destruct (plan_kernel_deadlock_free 2 5 two_args two_start two_start two_launched (reach_start _ _ _ _)) as [H|H];
    [|exact H]. specialize (H 0 ltac:(lia)). discriminate H.
Defined.

(** Every run is bounded: whatever the timeouts, the kernels of a job of [R] ranks take at
    most [17 * (R + 2)] steps per rank; so a run that is not cut short finishes on all ranks. *)
Theorem plan_kernel_bounded rankSize magic args g0 g n :
  well_launched rankSize magic args g0 -> nsteps (step rankSize magic args) n g0 g ->
  Z.of_nat n <= rankSize * (17 * (rankSize + 2)).
Proof.
  intros W Hn. pose proof (wl_ranks _ _ _ _ W) as HR. pose proof (wl_launch _ _ _ _ W) as HL.
  set (total g := zsum (fun p => weight rankSize (rk_pc (ranks g p))) (seqZ 0 rankSize)).
  assert (reachable rankSize magic args g0 g /\ Z.of_nat n <= total g) as [Hg Ht].
  { revert g Hn. induction n as [|n IH]; intros g Hn.
    - inversion Hn; subst. split; [constructor|]. apply zsum_nonneg. intros p Hp%elem_of_seqZ0.
      destruct (HL p Hp) as (-> & _). unfold weight. cbn [stage]. lia.
    - apply nsteps_inv_r in Hn as (g1 & Hn & (p & gu & Hp & Hs)). destruct (IH g1 Hn) as [Hg1 Ht1].
      split; [by eapply reach_step; [|exists p, gu]|].
      assert (weight rankSize (rk_pc (ranks g1 p)) < weight rankSize (rk_pc (ranks g p))) as Hw
        by (eapply weight_step; [done|exact Hs|by apply (pc_valid rankSize magic args HR g0 HL)]).
      assert (total g = total g1 + (weight rankSize (rk_pc (ranks g p)) - weight rankSize (rk_pc (ranks g1 p)))) as ->; [|lia].
      apply (zsum_change (fun p => weight rankSize (rk_pc (ranks g p))) (fun p => weight rankSize (rk_pc (ranks g1 p)))
        (seqZ 0 rankSize) p); [apply NoDup_seqZ|by apply elem_of_seqZ0|]. intros q _ Hne.
      by rewrite (proj1 (step_frame rankSize magic args _ _ _ _ Hs) q Hne). }
  transitivity (total g); [exact Ht|]. subst total. cbv beta.
  transitivity (zsum (fun _ => 17 * (rankSize + 2)) (seqZ 0 rankSize)).
  - apply zsum_le. intros p Hp%elem_of_seqZ0. by apply weight_bound, (pc_valid rankSize magic args HR g0 HL).
  - rewrite zsum_const, length_seqZ0 by lia. lia.
Qed.

Lemma plan_kernel_bounded_witness : nsteps (step 2 5 two_args) 0 two_start two_start /\ Z.of_nat 0 <= 2 * (17 * (2 + 2)).
Proof.
  split; [constructor|]. apply (plan_kernel_bounded 2 5 two_args two_start two_start 0 two_launched). constructor.
Defined.
