(* ===== verification/PlanHost.v ===== *)
(** The host side of the planner (src/src/moonep/planner_v2/host): the checks of a call, its header,
    the arguments handed to the kernel, and the entry point that works on one workspace of the caller
    (ep_plan_host.cpp, planner_launch.cpp, tilexr_moonep_planner.cpp), with the communicator
    functions they call (src/src/comm). Pointers are addresses, 0 is null; a pointer to a structure that
    the host reads is a [Ref]. What the vendor runtime answers is an argument, what it is asked to do is
    a list of effects. A call that would read through a null pointer is [None]. *)
From S2P Require Import Prelude Layouts PlanTypes PlanSort PlanAlgorithm PlanOutput CombineWire PlanWorkspace PlanKernel.

Definition TILEXR_SUCCESS : Z := 0.
Definition TILEXR_ERROR_NOT_INITIALIZED : Z := -1.
Definition TILEXR_ERROR_MKIRT : Z := -2.
Definition TILEXR_ERROR_PARA_CHECK_FAIL : Z := -3.
Definition TILEXR_ERROR_INTERNAL : Z := -4.
Definition TILEXR_ERROR_NOT_SUPPORT : Z := -6.
Definition ExtraFlag_TOPO_910A5 : Z := Z.shiftl 1 6.

(** ** Pointers to structures *)

(** Null, an address given by the caller, or a variable of the calling function, whose address the
    language aligns. *)
Inductive Ref (A : Type) : Type := Null | At (address : Z) (v : A) | Automatic (v : A).
Arguments Null {A}. Arguments At {A}. Arguments Automatic {A}.

Definition deref {A} (r : Ref A) : option A := match r with Null => None | At _ v | Automatic v => Some v end.

Definition IsAligned (pointer alignment : Z) : bool := negb (pointer =? 0) && (Z.land pointer (alignment - 1) =? 0).

Definition ref_aligned {A} (aligned : Z -> Z -> bool) (r : Ref A) (alignment : Z) : bool :=
  match r with Null => false | At a _ => aligned a alignment | Automatic _ => true end.

Definition ValidInt32Pointer (pointer : Z) : bool := IsAligned pointer 4.

(** ** The communicator *)

Record HostCommArgs := { hc_rank : Z; hc_rankSize : Z; hc_localRankSize : Z; hc_extraFlag : Z; hc_peerMems : Z -> Z }.

Record TileXRComm := { commArgs_ : HostCommArgs; commArgsPtr_ : Z; magic_ : Z }.

(** A two's complement 64-bit reading. *)
Definition i64 (x : Z) : Z := let y := u64 x in if y <=? INT64_MAX then y else y - 18446744073709551616.

Definition NextMagic (c : TileXRComm) : Z * TileXRComm :=
  (magic_ c, {| commArgs_ := commArgs_ c; commArgsPtr_ := commArgsPtr_ c; magic_ := i64 (magic_ c + 1) |}).

Definition TileXRGetCommArgsHost (comm : option TileXRComm) : Z * option HostCommArgs :=
  match comm with None => (TILEXR_ERROR_INTERNAL, None) | Some c => (TILEXR_SUCCESS, Some (commArgs_ c)) end.

Definition TileXRGetCommArgsDev (comm : option TileXRComm) : Z * Z :=
  match comm with None => (TILEXR_ERROR_INTERNAL, 0) | Some c => (TILEXR_SUCCESS, commArgsPtr_ c) end.

Definition TileXRCommNextMagic (comm : option TileXRComm) : Z * Z * option TileXRComm :=
  match comm with
  | None => (TILEXR_ERROR_PARA_CHECK_FAIL, 0, None)
  | Some c => let '(magic, c) := NextMagic c in (TILEXR_SUCCESS, magic, Some c)
  end.

(** ** ep_plan_host.cpp *)

Record TileXRMoonEPPlanDesc := {
  d_dst : Z; d_cuSeqlens : Z; d_expertsToCopy : Z; d_remoteStats : Z; d_dupGroups : Z; d_dupLoffs : Z; d_dupCounts : Z; d_status : Z;
  d_s : Z; d_k : Z; d_r : Z; d_e : Z; d_b : Z; d_cap : Z; d_nvS : Z; d_tokenPadding : Z; d_epoch : Z
}.

Record PlanHostArguments := {
  ha_topkExperts : Z; ha_tokensPerExpert : Z; ha_globalRankIds : Z; ha_s : Z; ha_topK : Z; ha_expertNum : Z;
  ha_config : Ref TileXRMoonEPPlanConfig; ha_plan : Ref TileXRMoonEPPlanDesc; ha_remoteExperts : Z; ha_expertTargets : Z;
  ha_localWorkspace : Z; ha_localWorkspaceBytes : Z; ha_registeredMetaWorkspace : Z; ha_registeredMetaBytes : Z;
  ha_waitIterations : Z; ha_stream : Z
}.

Record PlanRuntimeMetadata := { hostCommArgs : option HostCommArgs; deviceCommArgs : Z }.

Record PlanHostContext := { hx_layout : PlanWorkspaceLayout; hx_callHeader : PlanCallHeader; hx_rank : Z; hx_deviceCommArgs : Z }.

Definition alignof_TileXRMoonEPPlanConfig : Z := 8.
Definition alignof_TileXRMoonEPPlanDesc : Z := 8.

Definition ValidPlanPointers (plan : TileXRMoonEPPlanDesc) : bool :=
  ValidInt32Pointer (d_dst plan) && ValidInt32Pointer (d_cuSeqlens plan) && ValidInt32Pointer (d_expertsToCopy plan) &&
  ValidInt32Pointer (d_remoteStats plan) && ValidInt32Pointer (d_dupGroups plan) && ValidInt32Pointer (d_dupLoffs plan) &&
  ValidInt32Pointer (d_dupCounts plan) && ValidInt32Pointer (d_status plan).

Definition PlanIdentityMatches (a : PlanHostArguments) (plan : TileXRMoonEPPlanDesc) (config : TileXRMoonEPPlanConfig) (rankSize : Z) : bool :=
  (d_s plan =? ha_s a) && (d_k plan =? ha_topK a) && (d_r plan =? rankSize) && (d_e plan =? ha_expertNum a) &&
  (d_b plan =? prefetchSlots config) && (d_cap plan =? rankTokenCapacity config) && (d_nvS plan =? nvS config) &&
  (d_tokenPadding plan =? tokenPadding config) && negb (d_epoch plan =? 0).

Definition ValidateRuntimeMetadata (commArgs : HostCommArgs) (device expertNum : Z) : Z :=
  if device =? 0 then TILEXR_ERROR_NOT_INITIALIZED
  else if existsb (fun rank => hc_peerMems commArgs rank =? 0) (seqZ 0 (hc_rankSize commArgs)) then TILEXR_ERROR_NOT_INITIALIZED
  else
    let mailbox := BuildPlanPeerMailboxLayout (hc_rankSize commArgs) expertNum in
    if (mb_rowBytes mailbox <? mb_inputBytes mailbox) || (IPC_BUFF_MAX_SIZE <? mb_totalBytes mailbox)
    then TILEXR_ERROR_PARA_CHECK_FAIL else TILEXR_SUCCESS.

Definition BuildPlanCallHeader (rankSize s topK expertNum : Z) (config : TileXRMoonEPPlanConfig) (epoch hash : Z) : PlanCallHeader + Z :=
  if epoch =? 0 then inr TILEXR_ERROR_PARA_CHECK_FAIL
  else match BuildPlanWorkspaceLayout rankSize s topK expertNum config with
       | None => inr TILEXR_ERROR_PARA_CHECK_FAIL
       | Some _ =>
           inl {| h_abiVersion := kPlanAbiVersion; h_headerBytes := i32 sizeof_PlanCallHeader; h_rankSize := i32 rankSize; h_reserved0 := 0;
                  h_s := s; h_k := topK; h_expertNum := expertNum; h_prefetchSlots := prefetchSlots config;
                  h_rankTokenCapacity := rankTokenCapacity config; h_nvS := nvS config; h_tokenPadding := tokenPadding config;
                  h_tokenRouteLimitPerPair := tokenRouteLimitPerPair config; h_cardsPerServer := cardsPerServer config;
                  h_cardsPerCabinet := cardsPerCabinet config; h_crossCandidateCount := crossCandidateCount config; h_reserved1 := 0;
                  h_epoch := epoch; h_topologyHash := hash |}
       end.

Definition PlanCallHeadersMatch (lhs rhs : PlanCallHeader) : bool :=
  (h_abiVersion lhs =? h_abiVersion rhs) && (h_headerBytes lhs =? h_headerBytes rhs) && (h_rankSize lhs =? h_rankSize rhs) &&
  (h_s lhs =? h_s rhs) && (h_k lhs =? h_k rhs) && (h_expertNum lhs =? h_expertNum rhs) && (h_prefetchSlots lhs =? h_prefetchSlots rhs) &&
  (h_rankTokenCapacity lhs =? h_rankTokenCapacity rhs) && (h_nvS lhs =? h_nvS rhs) && (h_tokenPadding lhs =? h_tokenPadding rhs) &&
  (h_tokenRouteLimitPerPair lhs =? h_tokenRouteLimitPerPair rhs) && (h_cardsPerServer lhs =? h_cardsPerServer rhs) &&
  (h_cardsPerCabinet lhs =? h_cardsPerCabinet rhs) && (h_crossCandidateCount lhs =? h_crossCandidateCount rhs) &&
  (h_epoch lhs =? h_epoch rhs) && (h_topologyHash lhs =? h_topologyHash rhs).

Definition IsCommittedPlanReusable (committedHeader requestedHeader : PlanCallHeader) (epochState : PlanEpochState) : bool :=
  if (committedEpoch epochState =? 0) || negb (requestedEpoch epochState =? committedEpoch epochState) ||
     negb (h_epoch committedHeader =? committedEpoch epochState) || negb (h_epoch requestedHeader =? committedEpoch epochState) ||
     (Z.land (reserved epochState) kPlanAffinityCacheValid =? 0) || negb (topologyHash epochState =? h_topologyHash committedHeader)
  then false else PlanCallHeadersMatch committedHeader requestedHeader.

Definition ValidatePlanHostArguments (a : PlanHostArguments) (runtime : PlanRuntimeMetadata) : PlanHostContext + Z :=
  match deref (ha_config a), deref (ha_plan a), hostCommArgs runtime with
  | Some config, Some plan, Some commArgs =>
      let hasRemoteExperts := negb (ha_remoteExperts a =? 0) in
      let hasExpertTargets := negb (ha_expertTargets a =? 0) in
      if (ha_topkExperts a =? 0) || (ha_tokensPerExpert a =? 0) || (ha_globalRankIds a =? 0) || (ha_localWorkspace a =? 0) ||
         (ha_registeredMetaWorkspace a =? 0) || (ha_waitIterations a =? 0) || (ha_stream a =? 0) then inr TILEXR_ERROR_PARA_CHECK_FAIL
      else if negb (ref_aligned IsAligned (ha_config a) alignof_TileXRMoonEPPlanConfig) ||
              negb (ref_aligned IsAligned (ha_plan a) alignof_TileXRMoonEPPlanDesc) then inr TILEXR_ERROR_PARA_CHECK_FAIL
      else if negb (Bool.eqb hasRemoteExperts hasExpertTargets) ||
              (hasRemoteExperts && (negb (ValidInt32Pointer (ha_remoteExperts a)) || negb (IsAligned (ha_expertTargets a) 8))) ||
              negb (ValidInt32Pointer (ha_topkExperts a)) || negb (ValidInt32Pointer (ha_tokensPerExpert a)) ||
              negb (ValidInt32Pointer (ha_globalRankIds a)) || negb (ValidPlanPointers plan) ||
              negb (IsAligned (ha_localWorkspace a) kPlanWorkspaceAlignment) ||
              negb (IsAligned (ha_registeredMetaWorkspace a) kPlanWorkspaceAlignment) then inr TILEXR_ERROR_PARA_CHECK_FAIL
      else
        let rankSize := hc_rankSize commArgs in
        if (rankSize <=? 0) || (TILEXR_MAX_RANK_SIZE <? rankSize) || (hc_rank commArgs <? 0) || (rankSize <=? hc_rank commArgs)
        then inr TILEXR_ERROR_PARA_CHECK_FAIL
        else if Z.land (hc_extraFlag commArgs) ExtraFlag_TOPO_910A5 =? 0 then inr TILEXR_ERROR_NOT_SUPPORT
        else if negb (PlanIdentityMatches a plan config rankSize) then inr TILEXR_ERROR_PARA_CHECK_FAIL
        else match BuildPlanWorkspaceLayout rankSize (ha_s a) (ha_topK a) (ha_expertNum a) config with
             | None => inr TILEXR_ERROR_PARA_CHECK_FAIL
             | Some layout =>
                 if negb (ValidatePlanWorkspaceBytes layout (ha_localWorkspaceBytes a) (ha_registeredMetaBytes a)) then inr TILEXR_ERROR_PARA_CHECK_FAIL
                 else
                   let ret := ValidateRuntimeMetadata commArgs (deviceCommArgs runtime) (ha_expertNum a) in
                   if negb (ret =? TILEXR_SUCCESS) then inr ret
                   else match BuildPlanCallHeader rankSize (ha_s a) (ha_topK a) (ha_expertNum a) config (d_epoch plan) 0 with
                        | inr ret => inr ret
                        | inl header => inl {| hx_layout := layout; hx_callHeader := header; hx_rank := hc_rank commArgs;
                                               hx_deviceCommArgs := deviceCommArgs runtime |}
                        end
             end
  | _, _, _ => inr TILEXR_ERROR_PARA_CHECK_FAIL
  end.

(** ** planner_launch.cpp *)

Record PlanKernelArgs := {
  ka_commArgs : Z; ka_topkExperts : Z; ka_tokensPerExpert : Z; ka_globalRankIds : Z; ka_dst : Z; ka_cuSeqlens : Z; ka_expertsToCopy : Z;
  ka_remoteExperts : Z; ka_expertTargets : Z; ka_remoteStats : Z; ka_status : Z; ka_localWorkspace : Z; ka_metaWorkspace : Z;
  ka_rank : Z; ka_rankSize : Z; ka_s : Z; ka_topK : Z; ka_expertNum : Z; ka_prefetchSlots : Z; ka_rankTokenCapacity : Z; ka_nvS : Z;
  ka_tokenPadding : Z; ka_tokenRouteLimitPerPair : Z; ka_cardsPerServer : Z; ka_cardsPerCabinet : Z; ka_crossCandidateCount : Z;
  ka_epoch : Z; ka_waitIterations : Z; ka_magic : Z
}.

(** What the vendor runtime is asked to do: a launch of one block, a copy of words to the device, and
    a copy on the stream. *)
Inductive Effect : Type :=
| LaunchKernel (args : PlanKernelArgs)
| MemcpyToDevice (dst : Z) (words : list Z)
| MemcpyAsync (dst src bytes : Z).

(** Its answers; 0 is success. *)
Record Runtime := { rt_registered : Z; rt_launched : Z; rt_memcpy : Z; rt_memcpyAsync : Z -> Z }.

Definition LaunchRegisteredMoonEpKernel (rt : Runtime) (args : PlanKernelArgs) : Z * list Effect :=
  if negb (rt_registered rt =? TILEXR_SUCCESS) then (rt_registered rt, [])
  else if negb (rt_launched rt =? 0) then (TILEXR_ERROR_MKIRT, [])
  else (TILEXR_SUCCESS, [LaunchKernel args]).

Definition LaunchPlanKernel (rt : Runtime) (comm : option TileXRComm) (a : PlanHostArguments) (context : PlanHostContext)
    : option (Z * option TileXRComm * list Effect) :=
  let '(ret, magic, comm) := TileXRCommNextMagic comm in
  if negb (ret =? TILEXR_SUCCESS) then Some (ret, comm, [])
  else
    plan ← deref (ha_plan a);
    config ← deref (ha_config a);
    let '(ret, effects) := LaunchRegisteredMoonEpKernel rt
      {| ka_commArgs := hx_deviceCommArgs context; ka_topkExperts := ha_topkExperts a; ka_tokensPerExpert := ha_tokensPerExpert a;
         ka_globalRankIds := ha_globalRankIds a; ka_dst := d_dst plan; ka_cuSeqlens := d_cuSeqlens plan; ka_expertsToCopy := d_expertsToCopy plan;
         ka_remoteExperts := ha_remoteExperts a; ka_expertTargets := ha_expertTargets a; ka_remoteStats := d_remoteStats plan;
         ka_status := d_status plan; ka_localWorkspace := ha_localWorkspace a; ka_metaWorkspace := ha_registeredMetaWorkspace a;
         ka_rank := hx_rank context; ka_rankSize := h_rankSize (hx_callHeader context); ka_s := ha_s a; ka_topK := ha_topK a;
         ka_expertNum := ha_expertNum a; ka_prefetchSlots := prefetchSlots config; ka_rankTokenCapacity := rankTokenCapacity config;
         ka_nvS := nvS config; ka_tokenPadding := tokenPadding config; ka_tokenRouteLimitPerPair := tokenRouteLimitPerPair config;
         ka_cardsPerServer := cardsPerServer config; ka_cardsPerCabinet := cardsPerCabinet config;
         ka_crossCandidateCount := crossCandidateCount config; ka_epoch := d_epoch plan; ka_waitIterations := ha_waitIterations a;
         ka_magic := magic |} in
    Some (ret, comm, effects).

(** What the kernel finds at the addresses it is given. *)
Record DeviceTables := {
  dt_topkExperts : Z -> Z; dt_tokensPerExpert : Z -> Z; dt_globalRankIds : Z -> Z; dt_epochState : PlanEpochState; dt_affinityOrder : Z -> list Z;
  dt_peerMems : Z -> Z
}.

(** The arguments as [tilexr_ep_plan_kernel] binds them. *)
Definition tilexr_ep_plan_kernel (k : PlanKernelArgs) (t : DeviceTables) : KernelArgs :=
  {| a_s := ka_s k; a_topK := ka_topK k; a_expertNum := ka_expertNum k;
     a_config := {| prefetchSlots := ka_prefetchSlots k; rankTokenCapacity := ka_rankTokenCapacity k; nvS := ka_nvS k; tokenPadding := ka_tokenPadding k;
       tokenRouteLimitPerPair := ka_tokenRouteLimitPerPair k; cardsPerServer := ka_cardsPerServer k; cardsPerCabinet := ka_cardsPerCabinet k;
       crossCandidateCount := ka_crossCandidateCount k |};
     a_epoch := ka_epoch k; a_topkExperts := dt_topkExperts t; a_tokensPerExpert := dt_tokensPerExpert t; a_globalRankIds := dt_globalRankIds t;
     a_hasRemoteExperts := negb (ka_remoteExperts k =? 0); a_hasExpertTargets := negb (ka_expertTargets k =? 0);
     a_epochState := dt_epochState t; a_affinityOrder := dt_affinityOrder t; a_peerMems := dt_peerMems t |}.

(** ** tilexr_moonep_planner.cpp *)

Definition kDefaultPlanWaitIterations : Z := Z.shiftl 1 24.
Definition TILEXR_MOONEP_PLAN_METADATA_V2_ABI_VERSION : Z := 2.
Definition sizeof_TileXRMoonEPPlanMetadataV2 : Z := 208.
Definition alignof_TileXRMoonEPPlanMetadataV2 : Z := 8.

Definition PreparePlanLaunchContext (comm : option TileXRComm) (a : PlanHostArguments) : PlanHostContext + Z :=
  if negb (bool_decide (is_Some comm)) then inr TILEXR_ERROR_PARA_CHECK_FAIL
  else
    let '(ret, host) := TileXRGetCommArgsHost comm in
    if negb (ret =? TILEXR_SUCCESS) then inr ret
    else if negb (bool_decide (is_Some host)) then inr TILEXR_ERROR_NOT_INITIALIZED
    else
      let '(ret, device) := TileXRGetCommArgsDev comm in
      if negb (ret =? TILEXR_SUCCESS) then inr ret
      else if device =? 0 then inr TILEXR_ERROR_NOT_INITIALIZED
      else ValidatePlanHostArguments a {| hostCommArgs := host; deviceCommArgs := device |}.

Definition IsHostPointerAligned (pointer alignment : Z) : bool := negb (pointer =? 0) && (pointer mod alignment =? 0).

Record MetadataElementCounts := { ec_dst : Z; ec_cuSeqlens : Z; ec_remoteExperts : Z; ec_expertTargets : Z; ec_dupGroups : Z; ec_dupLoffs : Z }.

Definition BuildMetadataElementCounts (s topK expertNum rankSize : Z) (config : TileXRMoonEPPlanConfig) : option MetadataElementCounts :=
  if (s <=? 0) || (topK <=? 0) || (expertNum <=? 0) || (rankSize <=? 0) || negb (expertNum mod rankSize =? 0) ||
     (prefetchSlots config <=? 0) || (nvS config <=? 0) then None
  else
    let targetWords := ((rankSize - 1) / 64 + 1)%u64 in
    dst ← CheckedMul s topK;
    cuSeqlens ← CheckedAdd expertNum (prefetchSlots config);
    remoteExperts ← CheckedMul rankSize (prefetchSlots config);
    expertTargets ← CheckedMul (expertNum / rankSize) targetWords;
    dupGroups ← CheckedMul (nvS config) 3;
    Some {| ec_dst := dst; ec_cuSeqlens := cuSeqlens; ec_remoteExperts := remoteExperts; ec_expertTargets := expertTargets;
            ec_dupGroups := dupGroups; ec_dupLoffs := nvS config |}.

Definition RunOptimizedPlan (rt : Runtime) (comm : option TileXRComm) (a : PlanHostArguments) : option (Z * option TileXRComm * list Effect) :=
  match PreparePlanLaunchContext comm a with
  | inr ret => Some (ret, comm, [])
  | inl context => LaunchPlanKernel rt comm a context
  end.

Definition TileXRMoeEpPlanV2 (rt : Runtime) (topkExperts tokensPerExpert globalRankIds : Z) (comm : option TileXRComm) (s topK expertNum : Z)
    (config : Ref TileXRMoonEPPlanConfig) (plan : Ref TileXRMoonEPPlanDesc)
    (localWorkspace localWorkspaceBytes registeredMetaWorkspace registeredMetaBytes stream : Z) : option (Z * option TileXRComm * list Effect) :=
  if negb (ref_aligned IsHostPointerAligned config alignof_TileXRMoonEPPlanConfig) ||
     negb (ref_aligned IsHostPointerAligned plan alignof_TileXRMoonEPPlanDesc) then Some (TILEXR_ERROR_PARA_CHECK_FAIL, comm, [])
  else RunOptimizedPlan rt comm
    {| ha_topkExperts := topkExperts; ha_tokensPerExpert := tokensPerExpert; ha_globalRankIds := globalRankIds; ha_s := s; ha_topK := topK;
       ha_expertNum := expertNum; ha_config := config; ha_plan := plan; ha_remoteExperts := 0; ha_expertTargets := 0;
       ha_localWorkspace := localWorkspace; ha_localWorkspaceBytes := localWorkspaceBytes; ha_registeredMetaWorkspace := registeredMetaWorkspace;
       ha_registeredMetaBytes := registeredMetaBytes; ha_waitIterations := kDefaultPlanWaitIterations; ha_stream := stream |}.

Record TileXRMoonEPPlanMetadataV2 := {
  md_structSize : Z; md_abiVersion : Z; md_dst : Z; dstCount : Z; md_cuSeqlens : Z; cuSeqlensCount : Z; md_remoteExperts : Z; remoteExpertsCount : Z;
  md_expertTargets : Z; expertTargetsCount : Z; md_remoteStats : Z; remoteStatsCount : Z; md_status : Z; statusCount : Z; md_dupGroups : Z;
  dupGroupsCount : Z; md_dupLoffs : Z; dupLoffsCount : Z; md_dupCounts : Z; dupCountsCount : Z;
  md_s : Z; md_k : Z; md_r : Z; md_e : Z; md_b : Z; md_nvS : Z; md_epoch : Z
}.

(** The descriptor that the metadata stands for. *)
Definition metadata_plan (m : TileXRMoonEPPlanMetadataV2) (s topK expertNum : Z) (config : TileXRMoonEPPlanConfig) : TileXRMoonEPPlanDesc :=
  {| d_dst := md_dst m; d_cuSeqlens := md_cuSeqlens m; d_expertsToCopy := md_remoteExperts m; d_remoteStats := md_remoteStats m;
     d_dupGroups := md_dupGroups m; d_dupLoffs := md_dupLoffs m; d_dupCounts := md_dupCounts m; d_status := md_status m;
     d_s := s; d_k := topK; d_r := md_r m; d_e := expertNum; d_b := prefetchSlots config; d_cap := rankTokenCapacity config;
     d_nvS := nvS config; d_tokenPadding := tokenPadding config; d_epoch := md_epoch m |}.

Definition TileXRMoeEpPlanV2WithMetadata (rt : Runtime) (topkExperts tokensPerExpert globalRankIds : Z) (comm : option TileXRComm) (s topK expertNum : Z)
    (config : Ref TileXRMoonEPPlanConfig) (metadata : Ref TileXRMoonEPPlanMetadataV2)
    (localWorkspace localWorkspaceBytes registeredMetaWorkspace registeredMetaBytes stream : Z) : option (Z * option TileXRComm * list Effect) :=
  if negb (ref_aligned IsHostPointerAligned config alignof_TileXRMoonEPPlanConfig) ||
     negb (ref_aligned IsHostPointerAligned metadata alignof_TileXRMoonEPPlanMetadataV2) then Some (TILEXR_ERROR_PARA_CHECK_FAIL, comm, [])
  else
    m ← deref metadata;
    c ← deref config;
    if negb (md_structSize m =? sizeof_TileXRMoonEPPlanMetadataV2) || negb (md_abiVersion m =? TILEXR_MOONEP_PLAN_METADATA_V2_ABI_VERSION) ||
       negb (md_s m =? s) || negb (md_k m =? topK) || negb (md_e m =? expertNum) || negb (md_b m =? prefetchSlots c) ||
       negb (md_nvS m =? nvS c) || (md_epoch m =? 0) then Some (TILEXR_ERROR_PARA_CHECK_FAIL, comm, [])
    else match BuildMetadataElementCounts s topK expertNum (md_r m) c with
         | None => Some (TILEXR_ERROR_PARA_CHECK_FAIL, comm, [])
         | Some counts =>
             if (md_dst m =? 0) || negb (dstCount m =? ec_dst counts) || (md_cuSeqlens m =? 0) || negb (cuSeqlensCount m =? ec_cuSeqlens counts) ||
                (md_remoteExperts m =? 0) || negb (remoteExpertsCount m =? ec_remoteExperts counts) ||
                (md_expertTargets m =? 0) || negb (expertTargetsCount m =? ec_expertTargets counts) ||
                (md_remoteStats m =? 0) || negb (remoteStatsCount m =? 2) || (md_status m =? 0) || negb (statusCount m =? kPlanStatusWords) ||
                (md_dupGroups m =? 0) || negb (dupGroupsCount m =? ec_dupGroups counts) || (md_dupLoffs m =? 0) ||
                negb (dupLoffsCount m =? ec_dupLoffs counts) || (md_dupCounts m =? 0) || negb (dupCountsCount m =? 2)
             then Some (TILEXR_ERROR_PARA_CHECK_FAIL, comm, [])
             else RunOptimizedPlan rt comm
               {| ha_topkExperts := topkExperts; ha_tokensPerExpert := tokensPerExpert; ha_globalRankIds := globalRankIds; ha_s := s; ha_topK := topK;
                  ha_expertNum := expertNum; ha_config := config; ha_plan := Automatic (metadata_plan m s topK expertNum c);
                  ha_remoteExperts := md_remoteExperts m; ha_expertTargets := md_expertTargets m; ha_localWorkspace := localWorkspace;
                  ha_localWorkspaceBytes := localWorkspaceBytes; ha_registeredMetaWorkspace := registeredMetaWorkspace;
                  ha_registeredMetaBytes := registeredMetaBytes; ha_waitIterations := kDefaultPlanWaitIterations; ha_stream := stream |}
         end.

(** *** One workspace for all *)

Record MoonEpCompatLayout := {
  cl_optimized : PlanWorkspaceLayout; cl_localWorkspaceOffset : Z; cl_registeredMetaOffset : Z; cl_globalRankIdsOffset : Z; cl_dupGroupsOffset : Z;
  cl_dupLoffsOffset : Z; cl_dupCountsOffset : Z; cl_statusOffset : Z; cl_totalBytes : Z
}.

Definition CompatAlign (value : Z) : option Z :=
  let remainder := value mod kPlanWorkspaceAlignment in
  if remainder =? 0 then Some value else CheckedAdd value (kPlanWorkspaceAlignment - remainder).

(** The offset of the region and the cursor behind it. *)
Definition CompatAddRegion (bytes cursor : Z) : option (Z * Z) :=
  aligned ← CompatAlign cursor;
  stop ← CheckedAdd aligned bytes;
  Some (aligned, stop).

Definition MakeMoonEpCompatConfig (rankSize s k expertCount : Z) : TileXRMoonEPPlanConfig :=
  {| prefetchSlots := expertCount / rankSize; rankTokenCapacity := s * k; nvS := s * k; tokenPadding := 1; tokenRouteLimitPerPair := 0;
     cardsPerServer := kPlanCardsPerServer; cardsPerCabinet := kPlanCardsPerCabinet; crossCandidateCount := kPlanCrossCandidateCount |}.

Definition BuildMoonEpCompatLayout (rankSize s k expertCount : Z) : option MoonEpCompatLayout :=
  if (rankSize <=? 0) || (s <=? 0) || (k <=? 0) || (expertCount <=? 0) || negb (expertCount mod rankSize =? 0) || (INT64_MAX / k <? s) then None
  else
    let config := MakeMoonEpCompatConfig rankSize s k expertCount in
    optimized ← BuildPlanWorkspaceLayout rankSize s k expertCount config;
    let cursor := l_totalBytes (local optimized) in
    '(registeredMetaOffset, cursor) ← CompatAddRegion (m_totalBytes (registeredMeta optimized)) cursor;
    let cap := rankTokenCapacity config in
    bytes ← CheckedMul rankSize sizeof_int32;
    '(globalRankIdsOffset, cursor) ← CompatAddRegion bytes cursor;
    dupGroupElements ← CheckedMul cap 3;
    bytes ← CheckedMul dupGroupElements sizeof_int32;
    '(dupGroupsOffset, cursor) ← CompatAddRegion bytes cursor;
    bytes ← CheckedMul cap sizeof_int32;
    '(dupLoffsOffset, cursor) ← CompatAddRegion bytes cursor;
    bytes ← CheckedMul 2 sizeof_int32;
    '(dupCountsOffset, cursor) ← CompatAddRegion bytes cursor;
    bytes ← CheckedMul kPlanStatusWords sizeof_int32;
    '(statusOffset, cursor) ← CompatAddRegion bytes cursor;
    totalBytes ← CompatAlign cursor;
    if UINT64_MAX <? totalBytes then None
    else Some {| cl_optimized := optimized; cl_localWorkspaceOffset := 0; cl_registeredMetaOffset := registeredMetaOffset;
                 cl_globalRankIdsOffset := globalRankIdsOffset; cl_dupGroupsOffset := dupGroupsOffset; cl_dupLoffsOffset := dupLoffsOffset;
                 cl_dupCountsOffset := dupCountsOffset; cl_statusOffset := statusOffset; cl_totalBytes := totalBytes |}.

Definition GetCompatCommArgs (comm : option TileXRComm) : HostCommArgs + Z :=
  if negb (bool_decide (is_Some comm)) then inr TILEXR_ERROR_PARA_CHECK_FAIL
  else
    let '(ret, host) := TileXRGetCommArgsHost comm in
    if negb (ret =? TILEXR_SUCCESS) then inr ret
    else match host with
         | None => inr TILEXR_ERROR_NOT_INITIALIZED
         | Some args =>
             if (hc_rankSize args <=? 0) || (hc_rank args <? 0) || (hc_rankSize args <=? hc_rank args) then inr TILEXR_ERROR_NOT_INITIALIZED
             else if Z.land (hc_extraFlag args) ExtraFlag_TOPO_910A5 =? 0 then inr TILEXR_ERROR_NOT_SUPPORT
             else inl args
         end.

(** The return value, and what is written to the two results. *)
Definition TileXRMoonEpPlannerGetWorkspaceSizeV2 (comm : option TileXRComm) (s k expertCount workspaceBytes dispatchedCapacity : Z) : Z * option (Z * Z) :=
  if negb (IsHostPointerAligned workspaceBytes 8) || negb (IsHostPointerAligned dispatchedCapacity 8) then (TILEXR_ERROR_PARA_CHECK_FAIL, None)
  else match GetCompatCommArgs comm with
       | inr ret => (ret, Some (0, 0))
       | inl args =>
           match BuildMoonEpCompatLayout (hc_rankSize args) s k expertCount with
           | None => (TILEXR_ERROR_PARA_CHECK_FAIL, Some (0, 0))
           | Some layout => (TILEXR_SUCCESS, Some (cl_totalBytes layout, s * k))
           end
       end.

(** The rank ids of the compatible call: the servers are the groups of [localRankSize] ranks. *)
Definition compat_rank_id (localRankSize rank : Z) : Z := rank / localRankSize * kPlanCardsPerServer + rank mod localRankSize.

Definition compat_plan (base : Z) (layout : MoonEpCompatLayout) (config : TileXRMoonEPPlanConfig) (rankSize s k expertCount : Z)
    (dst cuSeqlens expertsToCopy remoteStats epoch : Z) : TileXRMoonEPPlanDesc :=
  {| d_dst := dst; d_cuSeqlens := cuSeqlens; d_expertsToCopy := expertsToCopy; d_remoteStats := remoteStats;
     d_dupGroups := (base + cl_dupGroupsOffset layout)%u64; d_dupLoffs := (base + cl_dupLoffsOffset layout)%u64;
     d_dupCounts := (base + cl_dupCountsOffset layout)%u64; d_status := (base + cl_statusOffset layout)%u64;
     d_s := s; d_k := k; d_r := rankSize; d_e := expertCount; d_b := prefetchSlots config; d_cap := rankTokenCapacity config; d_nvS := nvS config;
     d_tokenPadding := tokenPadding config; d_epoch := u64 epoch |}.

(** From the prepared call on: the copy of the rank ids, the launch, and the two copies behind it. *)
Definition compat_launch (rt : Runtime) (comm : option TileXRComm) (args : HostCommArgs) (base : Z) (layout : MoonEpCompatLayout)
    (a : PlanHostArguments) (context : PlanHostContext) (expertsToCopy plannerStatus status : Z) : option (Z * option TileXRComm * list Effect) :=
  let rankIds := compat_rank_id (hc_localRankSize args) <$> seqZ 0 (hc_rankSize args) in
  if negb (rt_memcpy rt =? 0) then Some (TILEXR_ERROR_MKIRT, comm, [])
  else
    let copied := MemcpyToDevice (ha_globalRankIds a) rankIds in
    '(ret, comm, launched) ← LaunchPlanKernel rt comm a context;
    if negb (ret =? TILEXR_SUCCESS) then Some (ret, comm, copied :: launched)
    else
      let remoteSet := l_remoteExpertSet (local (cl_optimized layout)) in
      let source := (base + offset remoteSet)%u64 in
      if negb (rt_memcpyAsync rt expertsToCopy =? 0) then Some (TILEXR_ERROR_MKIRT, comm, copied :: launched)
      else if negb (rt_memcpyAsync rt plannerStatus =? 0)
      then Some (TILEXR_ERROR_MKIRT, comm, copied :: launched ++ [MemcpyAsync expertsToCopy source (bytes remoteSet)])
      else Some (TILEXR_SUCCESS, comm, copied :: launched ++ [MemcpyAsync expertsToCopy source (bytes remoteSet); MemcpyAsync plannerStatus status sizeof_int32]).

Definition TileXRMoonEpPlannerV2 (rt : Runtime) (topkExpertIds tokensPerExpert : Z) (comm : option TileXRComm) (s k expertCount : Z)
    (workspace workspaceBytes dst cuSeqlens expertsToCopy remoteStats plannerStatus waitIterations stream : Z)
    : option (Z * option TileXRComm * list Effect) :=
  if (topkExpertIds =? 0) || (tokensPerExpert =? 0) || (workspace =? 0) || (dst =? 0) || (cuSeqlens =? 0) || (expertsToCopy =? 0) ||
     (remoteStats =? 0) || (plannerStatus =? 0) || (waitIterations =? 0) || (stream =? 0) || negb (workspace mod kPlanWorkspaceAlignment =? 0)
  then Some (TILEXR_ERROR_PARA_CHECK_FAIL, comm, [])
  else match GetCompatCommArgs comm with
  | inr ret => Some (ret, comm, [])
  | inl args =>
      match BuildMoonEpCompatLayout (hc_rankSize args) s k expertCount with
      | None => Some (TILEXR_ERROR_PARA_CHECK_FAIL, comm, [])
      | Some layout =>
          if workspaceBytes <? cl_totalBytes layout then Some (TILEXR_ERROR_PARA_CHECK_FAIL, comm, [])
          else
            let base := workspace in
            if (hc_localRankSize args <=? 0) || negb (hc_rankSize args mod hc_localRankSize args =? 0) then Some (TILEXR_ERROR_PARA_CHECK_FAIL, comm, [])
            else
              let '(ret, epochMagic, comm) := TileXRCommNextMagic comm in
              if negb (ret =? TILEXR_SUCCESS) then Some (ret, comm, [])
              else
                let config := MakeMoonEpCompatConfig (hc_rankSize args) s k expertCount in
                let plan := compat_plan base layout config (hc_rankSize args) s k expertCount dst cuSeqlens expertsToCopy remoteStats epochMagic in
                let arguments :=
                  {| ha_topkExperts := topkExpertIds; ha_tokensPerExpert := tokensPerExpert; ha_globalRankIds := (base + cl_globalRankIdsOffset layout)%u64;
                     ha_s := s; ha_topK := k; ha_expertNum := expertCount; ha_config := Automatic config; ha_plan := Automatic plan;
                     ha_remoteExperts := 0; ha_expertTargets := 0; ha_localWorkspace := (base + cl_localWorkspaceOffset layout)%u64;
                     ha_localWorkspaceBytes := l_totalBytes (local (cl_optimized layout));
                     ha_registeredMetaWorkspace := (base + cl_registeredMetaOffset layout)%u64;
                     ha_registeredMetaBytes := m_totalBytes (registeredMeta (cl_optimized layout)); ha_waitIterations := waitIterations;
                     ha_stream := stream |} in
                match PreparePlanLaunchContext comm arguments with
                | inr ret => Some (ret, comm, [])
                | inl context => compat_launch rt comm args base layout arguments context expertsToCopy plannerStatus (d_status plan)
                end
      end
  end.
