(* ===== verification/PlanHostProps.v ===== *)
(** What the host of the planner promises the kernel (PlanHost): the arguments of an accepted call
    meet the assumptions of the kernel theorems, and the call on one workspace of the caller gives
    every table its own part of it. *)
From S2P Require Import Prelude Layouts PlanTypes PlanSort PlanAlgorithm PlanOutput CombineWire PlanWorkspace PlanKernel PlanKernelInv PlanFinal PlanProps PlanKernelProps PlanHost.

(** ** An accepted call *)

Lemma mailbox_experts R E : 0 < E -> (mb_rowBytes (BuildPlanPeerMailboxLayout R E) <? mb_inputBytes (BuildPlanPeerMailboxLayout R E)) = false -> E <= 1048512.
Proof.
  intros HE H. apply Z.ltb_ge in H. unfold BuildPlanPeerMailboxLayout in H. cbn [mb_rowBytes mb_inputBytes] in H.
  change kPlanPeerMailboxRowBytes with 4194304 in H.
  change (AlignPlanPeerMailbox (AlignPlanPeerMailbox (AlignPlanPeerMailbox (AlignPlanPeerMailbox 0 kPlanWorkspaceAlignment + kPlanHeaderStrideBytes)%u64 kPlanWorkspaceAlignment + sizeof_int32)%u64
    kPlanWorkspaceAlignment + kPlanStatusStrideBytes)%u64 kPlanWorkspaceAlignment) with 256 in H.
  change ((4194304 - 256)%u64 / sizeof_int32) with 1048512 in H. rewrite (proj2 (Z.ltb_lt 0 E)) in H by done. cbn [andb] in H.
  destruct (Z.leb_spec E 1048512); [done|]. unfold UINT64_MAX in H. lia.
Qed.

Lemma mailbox_accepted R E : 0 < R <= 128 -> 0 < E <= 1048512 ->
  (mb_rowBytes (BuildPlanPeerMailboxLayout R E) <? mb_inputBytes (BuildPlanPeerMailboxLayout R E)) ||
  (IPC_BUFF_MAX_SIZE <? mb_totalBytes (BuildPlanPeerMailboxLayout R E)) = false.
Proof.
  intros HR HE. destruct (mailbox_fields R E HE) as (_ & _ & _ & _ & -> & ->).
  pose proof (align_to_le 512 (256 + E * 4) 4194304 ltac:(lia) ltac:(lia) ltac:(done)). rewrite (proj2 (Z.ltb_ge _ _)) by lia.
  unfold BuildPlanPeerMailboxLayout. cbn [mb_totalBytes orb]. rewrite (proj2 (Z.ltb_lt 0 R)) by lia. change kPlanPeerMailboxRowBytes with 4194304.
  rewrite u64_small by lia. apply Z.ltb_ge. unfold IPC_BUFF_MAX_SIZE. lia.
Qed.

Lemma i32_small x : 0 <= x <= INT32_MAX -> i32 x = x.
Proof.
  intros H. unfold i32, INT32_MAX in *. cbv zeta. rewrite u32_small by lia. by rewrite (proj2 (Z.leb_le _ _)) by lia.
Qed.

(** What a call that passes the checks has. *)
Record accepted (a : PlanHostArguments) (ca : HostCommArgs) (device : Z) (c : TileXRMoonEPPlanConfig) (d : TileXRMoonEPPlanDesc) (L : PlanWorkspaceLayout) : Prop := {
  ac_config : deref (ha_config a) = Some c;
  ac_plan : deref (ha_plan a) = Some d;
  ac_ranks : 0 < hc_rankSize ca <= 128 /\ 0 <= hc_rank ca < hc_rankSize ca;
  ac_identity : PlanIdentityMatches a d c (hc_rankSize ca) = true;
  ac_layout : BuildPlanWorkspaceLayout (hc_rankSize ca) (ha_s a) (ha_topK a) (ha_expertNum a) c = Some L;
  ac_bytes : ValidatePlanWorkspaceBytes L (ha_localWorkspaceBytes a) (ha_registeredMetaBytes a) = true;
  ac_experts : 0 < ha_expertNum a -> ha_expertNum a <= 1048512;
  ac_peers : forall p, 0 <= p < hc_rankSize ca -> hc_peerMems ca p <> 0;
  ac_tables : Bool.eqb (negb (ha_remoteExperts a =? 0)) (negb (ha_expertTargets a =? 0)) = true
}.

(** The header that goes with it. *)
Definition host_header (a : PlanHostArguments) (ca : HostCommArgs) (c : TileXRMoonEPPlanConfig) (epoch : Z) : PlanCallHeader :=
  FillHeader (hc_rankSize ca) (ha_s a) (ha_topK a) (ha_expertNum a) c epoch 0.

Lemma header_built R s k E c epoch h : 0 < R <= 128 -> BuildPlanCallHeader R s k E c epoch 0 = inl h -> epoch <> 0 /\ h = FillHeader R s k E c epoch 0.
Proof.
  intros HR. unfold BuildPlanCallHeader. destruct (Z.eqb_spec epoch 0); [done|]. destruct (BuildPlanWorkspaceLayout R s k E c); [|done].
  intros [= <-]. split; [done|]. unfold FillHeader. by rewrite (i32_small R) by (unfold INT32_MAX; lia).
Qed.

Lemma metadata_ready ca device E : ValidateRuntimeMetadata ca device E = TILEXR_SUCCESS ->
  device <> 0 /\ (forall p, 0 <= p < hc_rankSize ca -> hc_peerMems ca p <> 0) /\ (0 < E -> E <= 1048512).
Proof.
  unfold ValidateRuntimeMetadata. destruct (Z.eqb_spec device 0); [done|]. destruct (existsb _ _) eqn:Ex; [done|]. destruct (_ || _) eqn:Em; [done|].
  intros _. split; [done|]. split.
  - intros p Hp E0. assert (existsb (fun rank => hc_peerMems ca rank =? 0) (seqZ 0 (hc_rankSize ca)) = true) as Hx; [|congruence].
    apply existsb_exists. exists p. split; [apply list_elem_of_In, elem_of_seqZ; lia|by apply Z.eqb_eq].
  - intros HE. apply orb_false_iff in Em as [Em _]. by apply (mailbox_experts (hc_rankSize ca)).
Qed.

Lemma validate_inv a ca device ctx : ValidatePlanHostArguments a {| hostCommArgs := Some ca; deviceCommArgs := device |} = inl ctx ->
  exists c d L, accepted a ca device c d L /\
    ctx = {| hx_layout := L; hx_callHeader := host_header a ca c (d_epoch d); hx_rank := hc_rank ca; hx_deviceCommArgs := device |}.
Proof.
  unfold ValidatePlanHostArguments. cbn [hostCommArgs deviceCommArgs]. destruct (deref (ha_config a)) as [c|] eqn:Ec; [|done]. destruct (deref (ha_plan a)) as [d|] eqn:Ed; [|done].
  do 2 (case_if; [done|]). case_if; [done|]. rename E1 into Et. case_if; [done|]. rename E1 into Er. case_if; [done|]. case_if; [done|]. rename E2 into Ei. apply negb_false_iff in Ei.
  destruct (BuildPlanWorkspaceLayout _ _ _ _ _) as [L|] eqn:EL; [|done]. destruct (ValidatePlanWorkspaceBytes _ _ _) eqn:Eb; [|done]. cbn [negb].
  destruct (Z.eqb_spec (ValidateRuntimeMetadata ca device (ha_expertNum a)) TILEXR_SUCCESS) as [Em|]; [|done]. cbn [negb].
  unfold TILEXR_MAX_RANK_SIZE in Er. b2p. apply metadata_ready in Em as (Hd & Hp & HE).
  destruct (BuildPlanCallHeader _ _ _ _ _ _ _) as [h|] eqn:Eh; [|done]. apply header_built in Eh as [_ ->]; [|lia]. intros [= <-].
  exists c, d, L. split; [|done]. constructor; (done || lia).
Qed.

(** A refusal is not a success. *)
Lemma validate_error a rt ret : ValidatePlanHostArguments a rt = inr ret -> ret <> TILEXR_SUCCESS.
Proof.
  unfold ValidatePlanHostArguments. destruct (deref (ha_config a)) as [c|]; [|by intros [= <-]]. destruct (deref (ha_plan a)) as [d|]; [|by intros [= <-]].
  destruct (hostCommArgs rt) as [ca|]; [|by intros [= <-]]. do 6 (case_if; [by intros [= <-]|]). destruct (BuildPlanWorkspaceLayout _ _ _ _ _) as [L|] eqn:EL; [|by intros [= <-]].
  case_if; [by intros [= <-]|]. destruct (Z.eqb_spec (ValidateRuntimeMetadata ca (deviceCommArgs rt) (ha_expertNum a)) TILEXR_SUCCESS); cbn [negb]; [|intros [= <-]; done].
  unfold BuildPlanCallHeader. rewrite EL. destruct (d_epoch d =? 0); [by intros [= <-]|done].
Qed.

Lemma prepare_error comm a ret : PreparePlanLaunchContext comm a = inr ret -> ret <> TILEXR_SUCCESS.
Proof.
  unfold PreparePlanLaunchContext. destruct comm as [comm|]; [|by intros [= <-]]. cbn -[ValidatePlanHostArguments].
  destruct (commArgsPtr_ comm =? 0); [by intros [= <-]|]. apply validate_error.
Qed.

(** ** The launch *)

(** The 64-bit fields of a call. *)
Definition host_widths (a : PlanHostArguments) : Prop :=
  is_i64 (ha_s a) /\ is_i64 (ha_topK a) /\ is_i64 (ha_expertNum a) /\ forall c, deref (ha_config a) = Some c -> is_i64 (prefetchSlots c) /\ is_i64 (nvS c).

(** A prepared call has been checked against the communicator. *)
Lemma prepare_inv comm a ctx : PreparePlanLaunchContext (Some comm) a = inl ctx ->
  exists c d L, accepted a (commArgs_ comm) (commArgsPtr_ comm) c d L /\
    ctx = {| hx_layout := L; hx_callHeader := host_header a (commArgs_ comm) c (d_epoch d); hx_rank := hc_rank (commArgs_ comm); hx_deviceCommArgs := commArgsPtr_ comm |}.
Proof.
  unfold PreparePlanLaunchContext. cbn -[ValidatePlanHostArguments]. destruct (commArgsPtr_ comm =? 0); [done|]. apply validate_inv.
Qed.

(** A call that reports success has launched one kernel, with the next magic of the communicator. *)
Lemma host_run_inv rt comm a comm' effects : RunOptimizedPlan rt (Some comm) a = Some (TILEXR_SUCCESS, comm', effects) ->
  exists c d L k, accepted a (commArgs_ comm) (commArgsPtr_ comm) c d L /\ effects = [LaunchKernel k] /\ comm' = Some (snd (NextMagic comm)) /\
    ka_magic k = magic_ comm /\ ka_rank k = hc_rank (commArgs_ comm) /\ ka_rankSize k = hc_rankSize (commArgs_ comm) /\
    ka_remoteExperts k = ha_remoteExperts a /\ ka_expertTargets k = ha_expertTargets a /\ ka_epoch k = d_epoch d /\
    (forall t, let ar := tilexr_ep_plan_kernel k t in
       a_s ar = ha_s a /\ a_topK ar = ha_topK a /\ a_expertNum ar = ha_expertNum a /\ a_config ar = c /\ a_epoch ar = d_epoch d).
Proof.
  unfold RunOptimizedPlan. destruct (PreparePlanLaunchContext (Some comm) a) as [ctx|] eqn:E; [|intros [= -> _ _]].
  2: by destruct (prepare_error _ _ _ E).
  apply prepare_inv in E as (c & d & L & Ha & ->). unfold LaunchPlanKernel. cbn [TileXRCommNextMagic NextMagic negb Z.eqb TILEXR_SUCCESS].
  rewrite (ac_plan _ _ _ _ _ _ Ha), (ac_config _ _ _ _ _ _ Ha). cbn [mbind option_bind].
  unfold LaunchRegisteredMoonEpKernel. destruct (Z.eqb_spec (rt_registered rt) TILEXR_SUCCESS); cbn [negb]; [|intros [= Hr _ _]; contradiction].
  destruct (rt_launched rt =? 0); cbn [negb]; [|done]. intros [= <- <-]. exists c, d, L. eexists. split; [exact Ha|]. split; [reflexivity|].
  split; [reflexivity|]. cbn. do 6 (split; [reflexivity|]). intros t. by destruct c.
Qed.

(** The checks of the planner that do not look at the tables pass. *)
Lemma validate_tables R args p k : 0 < R <= 128 -> 0 <= p < R -> let a := args p in
  admissible R (a_s a) (a_topK a) (a_expertNum a) (a_config a) -> Bool.eqb (a_hasRemoteExperts a) (a_hasExpertTargets a) = true ->
  let inp := plan_input R args p k in let cap := a_s a * a_topK a in
  Validate inp (plan_workspace R args p) =
  if duplicate_rank_ids inp then PLAN_ERROR_CONFIG_MISMATCH
  else match count_experts inp cap with
       | inr status => status
       | inl count => match check_tokens_per_expert inp cap count with inr status => status | inl _ => PLAN_OK end
       end.
Proof.
  intros HR Hp a (_ & Hs & Hk & He & Hm & He4 & Hb & Ht & H1 & H2 & H3 & Hcap & Hnv & Hlim & Hrn) Hre inp cap.
  unfold Validate, inp, plan_input, plan_workspace, BindAlgorithmWorkspace. fold a.
  cbn [in_rank in_rankSize in_s in_topK in_expertNum in_config mandatoryPointers hasRemoteExperts hasExpertTargets hasRemoteExpertSet
    hasRoutedPairTokens tokenSegmentCapacity scratchCount negb]. rewrite Hre. unfold INT32_MAX in *.
  assert (0 < a_s a * a_topK a <= 2147483647 /\ nvS (a_config a) <= 2147483647) as [Hc Hn] by nia.
  pose proof (Z.div_le_lower_bound 2147483647 (a_topK a) (a_s a) ltac:(lia) ltac:(lia)) as Hd.
  case_if; [exfalso; b2p; lia|]. case_if; [exfalso|done].
  rewrite H1, H2, H3, Hcap in *. unfold kPlanCardsPerServer, kPlanCardsPerCabinet, kPlanCrossCandidateCount in *. destruct (tokenRouteLimitPerPair (a_config a) =? 0); b2p; lia.
Qed.

(** C20: what the host discharges of the launches the kernel theorems are about. When the call of
    every rank of a job reports success, each has launched one kernel, with the rank and the job
    size of its communicator and the next magic; then, whatever the device tables hold, there are
    at most 128 ranks, the expert tables fit a mailbox row, the epoch is not 0, the sizes and the configuration are
    admissible, and no rank's planner refuses them: only duplicate rank ids or token
    counts that do not fit the routes are left to refuse. Of [well_launched] there remain exactly
    the conditions that the host does not check: cached affinity rows that name ranks, loads
    below the tag word of the debug status, and memory that holds no word of this launch. *)
Theorem plan_host_launch R magic comms rts calls ks tables : 0 < R ->
  (forall p, 0 <= p < R -> hc_rank (commArgs_ (comms p)) = p /\ hc_rankSize (commArgs_ (comms p)) = R /\ magic_ (comms p) = magic /\ host_widths (calls p) /\
     exists comm effects, RunOptimizedPlan (rts p) (Some (comms p)) (calls p) = Some (TILEXR_SUCCESS, comm, effects) /\ In (LaunchKernel (ks p)) effects) ->
  let args p := tilexr_ep_plan_kernel (ks p) (tables p) in
  R <= 128 /\
  (forall p, 0 <= p < R -> ka_rank (ks p) = p /\ ka_rankSize (ks p) = R /\ ka_magic (ks p) = magic /\
    0 < a_expertNum (args p) <= 1048512 /\ a_epoch (args p) <> 0 /\
    admissible R (a_s (args p)) (a_topK (args p)) (a_expertNum (args p)) (a_config (args p)) /\
    (forall k, let inp := plan_input R args p k in let cap := ka_s (ks p) * ka_topK (ks p) in
       Validate inp (plan_workspace R args p) =
       if duplicate_rank_ids inp then PLAN_ERROR_CONFIG_MISMATCH
       else match count_experts inp cap with
            | inr status => status
            | inl count => match check_tokens_per_expert inp cap count with inr status => status | inl _ => PLAN_OK end
            end)) /\
  (forall g0, well_launched R magic args g0 <->
    (forall p, 0 <= p < R -> affinity_ok (job_input R args p) (plan_workspace R args p)) /\
    (forall p, 0 <= p < R -> R * rankTokenCapacity (a_config (args p)) < kBarrierDebugBuildTag) /\
    launch R magic args g0).
Proof.
  intros HR Hjob args.
  assert (forall p, 0 <= p < R -> R <= 128 /\ ka_rank (ks p) = p /\ ka_rankSize (ks p) = R /\ ka_magic (ks p) = magic /\ a_epoch (args p) <> 0 /\ a_expertNum (args p) <= 1048512 /\
    admissible R (a_s (args p)) (a_topK (args p)) (a_expertNum (args p)) (a_config (args p)) /\ Bool.eqb (a_hasRemoteExperts (args p)) (a_hasExpertTargets (args p)) = true) as H.
  { intros p Hp. destruct (Hjob p Hp) as (Er & ER & Em & (W1 & W2 & W3 & W4) & comm & effects & Hrun & Hin).
    apply host_run_inv in Hrun as (c & d & L & k & Ha & -> & _ & Hmg & Hrk & Hrs & Hre & Het & Hep & Hargs). destruct Hin as [[= E]|[]]. subst k.
    destruct (Hargs (tables p)) as (A1 & A2 & A3 & A4 & A5). fold (args p) in A1, A2, A3, A4, A5. rewrite A1, A2, A3, A4, A5.
    pose proof (ac_ranks _ _ _ _ _ _ Ha) as [HR1 HR2]. rewrite ER in *. pose proof (ac_identity _ _ _ _ _ _ Ha) as Hid. unfold PlanIdentityMatches in Hid. b2p.
    pose proof (ac_layout _ _ _ _ _ _ Ha) as EL. rewrite ER in EL. destruct (W4 c (ac_config _ _ _ _ _ _ Ha)) as [W5 W6].
    apply Build_admissible in EL; try done; [|unfold is_i64, INT64_MAX; lia]. split; [lia|]. do 4 (split; [lia|]).
    split. { destruct EL as (_ & _ & _ & HE & _). by apply (ac_experts _ _ _ _ _ _ Ha). } split; [done|].
    unfold args, tilexr_ep_plan_kernel. cbn [a_hasRemoteExperts a_hasExpertTargets]. rewrite Hre, Het. exact (ac_tables _ _ _ _ _ _ Ha). }
  split; [by destruct (H 0 ltac:(lia))|]. split.
  - intros p Hp. destruct (H p Hp) as (HR1 & H1 & H2 & H3 & H4 & H5 & Ha & Hb). do 3 (split; [done|]).
    split; [destruct Ha as (_ & _ & _ & HE & _); lia|]. split; [done|]. split; [done|]. intros k inp cap. by apply validate_tables; [lia|..].
  - intros g0. split; [intros []; done|]. intros (Haff & Hload & Hl). constructor; try done.
    + destruct (H 0 ltac:(lia)); lia.
    + intros p Hp. destruct (H p Hp) as (_ & _ & _ & _ & _ & HE & (_ & _ & _ & HE' & _) & _). lia.
    + intros p Hp. by destruct (H p Hp) as (_ & _ & _ & _ & He & _).
Qed.

(** ** Two ranks that call *)

Module SampleHost.
Definition comm (p : Z) : TileXRComm :=
  {| commArgs_ := {| hc_rank := p; hc_rankSize := 2; hc_localRankSize := 2; hc_extraFlag := 64; hc_peerMems := fun r => 4096 * (r + 1) |};
     commArgsPtr_ := 1024; magic_ := 5 |}.
Definition rt : Runtime := {| rt_registered := 0; rt_launched := 0; rt_memcpy := 0; rt_memcpyAsync := fun _ => 0 |}.
Definition plan : TileXRMoonEPPlanDesc :=
  {| d_dst := 65536; d_cuSeqlens := 69632; d_expertsToCopy := 73728; d_remoteStats := 77824; d_dupGroups := 81920; d_dupLoffs := 86016; d_dupCounts := 90112;
     d_status := 94208; d_s := 4; d_k := 2; d_r := 2; d_e := 4; d_b := prefetchSlots small_config; d_cap := rankTokenCapacity small_config;
     d_nvS := nvS small_config; d_tokenPadding := tokenPadding small_config; d_epoch := 7 |}.
Definition call : PlanHostArguments :=
  {| ha_topkExperts := 4096; ha_tokensPerExpert := 8192; ha_globalRankIds := 12288; ha_s := 4; ha_topK := 2; ha_expertNum := 4; ha_config := At 512 small_config;
     ha_plan := At 1024 plan; ha_remoteExperts := 73728; ha_expertTargets := 98304; ha_localWorkspace := 131072; ha_localWorkspaceBytes := 65536;
     ha_registeredMetaWorkspace := 262144; ha_registeredMetaBytes := 65536; ha_waitIterations := 16; ha_stream := 1 |}.
Definition tables (p : Z) : DeviceTables :=
  {| dt_topkExperts := a_topkExperts (two_args p); dt_tokensPerExpert := a_tokensPerExpert (two_args p); dt_globalRankIds := fun r => r;
     dt_epochState := a_epochState (two_args p); dt_affinityOrder := fun _ => []; dt_peerMems := fun r => 4096 * (r + 1) |}.
Definition kernel (p : Z) : PlanKernelArgs :=
  {| ka_commArgs := 1024; ka_topkExperts := 4096; ka_tokensPerExpert := 8192; ka_globalRankIds := 12288; ka_dst := 65536; ka_cuSeqlens := 69632; ka_expertsToCopy := 73728;
     ka_remoteExperts := 73728; ka_expertTargets := 98304; ka_remoteStats := 77824; ka_status := 94208; ka_localWorkspace := 131072; ka_metaWorkspace := 262144;
     ka_rank := p; ka_rankSize := 2; ka_s := 4; ka_topK := 2; ka_expertNum := 4; ka_prefetchSlots := prefetchSlots small_config;
     ka_rankTokenCapacity := rankTokenCapacity small_config; ka_nvS := nvS small_config; ka_tokenPadding := tokenPadding small_config;
     ka_tokenRouteLimitPerPair := tokenRouteLimitPerPair small_config; ka_cardsPerServer := cardsPerServer small_config;
     ka_cardsPerCabinet := cardsPerCabinet small_config; ka_crossCandidateCount := crossCandidateCount small_config; ka_epoch := 7; ka_waitIterations := 16; ka_magic := 5 |}.
End SampleHost.

Lemma plan_host_launch_witness : well_launched 2 5 (fun p => tilexr_ep_plan_kernel (SampleHost.kernel p) (SampleHost.tables p)) two_start.
Proof.
  apply (plan_host_launch 2 5 SampleHost.comm (fun _ => SampleHost.rt) (fun _ => SampleHost.call) SampleHost.kernel SampleHost.tables); [lia| |].
  - intros p Hp. split; [reflexivity|]. split; [reflexivity|]. split; [reflexivity|]. split.
    + split; [split; vm_compute; discriminate|]. split; [split; vm_compute; discriminate|]. split; [split; vm_compute; discriminate|].
      intros c E. injection E as <-. split; split; vm_compute; discriminate.
    + assert (p = 0 \/ p = 1) as [-> | ->] by lia; eexists _, _; (split; [vm_compute; reflexivity|left; reflexivity]).
  - split; [exact (wl_affinity _ _ _ _ two_launched)|]. split; [intros p Hp; reflexivity|exact (wl_launch _ _ _ _ two_launched)].
Defined.
