(* ===== verification/PlanCompat.v ===== *)
(** The planner call on one workspace of the caller (PlanHost): its layout in closed form, the call
    from the size query to the copies behind the launch, and the rank ids it makes up. *)
From S2P Require Import Prelude Layouts PlanTypes PlanSort PlanAlgorithm PlanOutput CombineWire PlanWorkspace PlanKernel PlanHost PlanHostProps.

(** ** The layout *)

Lemma CompatAlign_ok v : 0 <= v -> v + 64 <= UINT64_MAX -> CompatAlign v = Some (align_to 64 v).
Proof.
  intros Hv Hu. unfold CompatAlign, kPlanWorkspaceAlignment. pose proof (Z.mod_pos_bound v 64 ltac:(lia)). destruct (Z.eqb_spec (v mod 64) 0) as [E|E].
  - by rewrite align_to_fix by lia.
  - rewrite CheckedAdd_spec by (unfold is_u64, UINT64_MAX in *; lia). rewrite (proj2 (Z.leb_le _ _)) by lia. f_equal. symmetry. apply align_to_unique; [lia|div_lia|lia].
Qed.

Lemma CompatAddRegion_ok bytes cur : 0 <= bytes -> 0 <= cur -> cur + 64 + bytes <= UINT64_MAX ->
  CompatAddRegion bytes cur = Some (align_to 64 cur, align_to 64 cur + bytes).
Proof.
  intros Hb Hc Hu. unfold CompatAddRegion. rewrite CompatAlign_ok by lia. pose proof (align_to_spec 64 cur ltac:(lia)). cbn [mbind option_bind].
  rewrite CheckedAdd_spec by (unfold is_u64, UINT64_MAX in *; lia). by rewrite (proj2 (Z.leb_le _ _)) by lia.
Qed.

Lemma place_end_ub a sizes : 0 < a -> forall cur, place_end a cur sizes <= cur + foldr Z.add 0 sizes + a * Z.of_nat (length sizes).
Proof.
  intros Ha. induction sizes as [|b t IH]; intros cur; [rewrite place_end_nil; cbn; lia|]. rewrite place_end_cons. cbn [foldr length].
  pose proof (IH (align_to a cur + b)). pose proof (align_to_spec a cur Ha). lia.
Qed.

Section layout.
Context (R s k E : Z) (L : PlanWorkspaceLayout).
Context (Had : admissible R s k E (MakeMoonEpCompatConfig R s k E)) (HL : BuildPlanWorkspaceLayout R s k E (MakeMoonEpCompatConfig R s k E) = Some L).

Let lt := l_totalBytes (local L).
Let mt := m_totalBytes (registeredMeta L).

Lemma compat_totals : 0 <= lt <= 17592186044416 /\ lt mod 64 = 0 /\ 0 <= mt <= 17592186044416 /\ mt mod 64 = 0.
Proof using Had HL.
  destruct (Build_eq _ _ _ _ _ Had) as (L' & HL' & _ & E2 & _ & E4). rewrite HL in HL'. injection HL' as <-. cbv zeta in E2.
  destruct Had as (Hr & Hs & Hk & He & _ & He4 & Hb & _ & _ & _ & _ & _ & Hnv & _ & Hrn). cbn [MakeMoonEpCompatConfig prefetchSlots nvS tokenRouteLimitPerPair] in *.
  unfold INT32_MAX in *. assert (0 < s * k <= 2147483647) as Hsk by nia. set (b := E / R) in *.
  assert (0 <= R * E <= 549755813888 /\ 0 <= R * b <= E /\ 0 <= R * R <= 262144) as (B1 & B2 & B3). { split; [nia|]. split; [|nia]. unfold b. pose proof (Z.mul_div_le E R ltac:(lia)). nia. }
  destruct (sizes_nonneg R s k E b ltac:(lia) ltac:(lia) ltac:(lia) ltac:(lia) 0) as [N1 N2].
  pose proof (place_end_ub 64 (local_sizes R s k E b 0) ltac:(lia) 0) as U1. pose proof (place_end_ub 64 (meta_sizes R E) ltac:(lia) 0) as U2.
  pose proof (place_end_le 64 _ ltac:(lia) N1 0). pose proof (place_end_le 64 _ ltac:(lia) N2 0).
  unfold local_sizes, meta_sizes in U1, U2. cbn [foldr length app Z.eqb] in U1, U2. fold (local_sizes R s k E b 0) in U1. fold (meta_sizes R E) in U2.
  pose proof (align_to_spec 64 (place_end 64 0 (local_sizes R s k E b 0)) ltac:(lia)). pose proof (align_to_spec 64 (place_end 64 0 (meta_sizes R E)) ltac:(lia)).
  unfold lt, mt. rewrite E2, E4. unfold local_sizes, meta_sizes in *. cbn [app Z.eqb] in *. lia.
Qed.

Let cap := s * k.
Let ids := lt + mt.
Let groups := align_to 64 (ids + R * 4).
Let loffs := align_to 64 (groups + cap * 3 * 4).
Let counts := align_to 64 (loffs + cap * 4).
Let status := align_to 64 (counts + 8).

Definition compat_at : MoonEpCompatLayout :=
  {| cl_optimized := L; cl_localWorkspaceOffset := 0; cl_registeredMetaOffset := lt; cl_globalRankIdsOffset := ids; cl_dupGroupsOffset := groups;
     cl_dupLoffsOffset := loffs; cl_dupCountsOffset := counts; cl_statusOffset := status; cl_totalBytes := align_to 64 (status + 32) |}.

Lemma compat_steps : 0 <= ids /\ ids mod 64 = 0 /\ ids + R * 4 <= groups < ids + R * 4 + 64 /\ groups + cap * 12 <= loffs < groups + cap * 12 + 64 /\
  loffs + cap * 4 <= counts < loffs + cap * 4 + 64 /\ counts + 8 <= status < counts + 72 /\ status + 32 <= align_to 64 (status + 32) < status + 96 /\
  groups mod 64 = 0 /\ loffs mod 64 = 0 /\ counts mod 64 = 0 /\ status mod 64 = 0 /\ 0 < R <= 512 /\ 0 < cap <= 2147483647.
Proof using Had HL.
  destruct compat_totals as (H1 & H2 & H3 & H4). destruct Had as (Hr & Hs & Hk & _ & _ & _ & _ & _ & _ & _ & _ & _ & Hnv & _ & Hrn). cbn [MakeMoonEpCompatConfig nvS] in *.
  unfold INT32_MAX in *. assert (0 < cap <= 2147483647) as Hsk by (unfold cap; nia).
  pose proof (align_to_spec 64 (ids + R * 4) ltac:(lia)). pose proof (align_to_spec 64 (groups + cap * 3 * 4) ltac:(lia)). pose proof (align_to_spec 64 (loffs + cap * 4) ltac:(lia)).
  pose proof (align_to_spec 64 (counts + 8) ltac:(lia)). pose proof (align_to_spec 64 (status + 32) ltac:(lia)).
  fold groups in H. fold loffs in H0. fold counts in H5. fold status in H6. assert (ids mod 64 = 0) by (unfold ids; div_lia). unfold ids. split_and!; (lia || done).
Qed.

Lemma compat_layout_eq : BuildMoonEpCompatLayout R s k E = Some compat_at.
Proof using Had HL.
  destruct compat_totals as (H1 & H2 & H3 & H4). destruct compat_steps as (S1 & S2 & S3 & S4 & S5 & S6 & S7 & S8 & S9 & S10 & S11 & S12 & S13).
  pose proof Had as (Hr & Hs & Hk & He & Hm & _ & Hb & _ & _ & _ & _ & _ & Hnv & _ & Hrn). cbn [MakeMoonEpCompatConfig nvS] in *. unfold INT32_MAX in *.
  assert (UINT64_MAX = 18446744073709551615) as EU by done. assert (s <= INT64_MAX / k) as Hd by (apply Z.div_le_lower_bound; unfold INT64_MAX; fold cap; lia).
  assert (forall a b, 0 <= a <= 18446744073709551615 -> 0 <= b <= 18446744073709551615 -> a * b <= 18446744073709551615 -> CheckedMul a b = Some (a * b)) as Hmul.
  { intros a b Ha Hb' Hab. rewrite CheckedMul_spec by (unfold is_u64; lia). by rewrite (proj2 (Z.leb_le _ _)) by lia. }
  unfold BuildMoonEpCompatLayout. case_if; [exfalso; b2p; lia|]. clear E0. cbv zeta. rewrite HL. cbn [mbind option_bind].
  fold lt. fold mt. rewrite CompatAddRegion_ok by lia. rewrite (align_to_fix 64 lt) by lia. cbn [mbind option_bind].
  cbn [MakeMoonEpCompatConfig rankTokenCapacity]. fold cap. unfold sizeof_int32. change kPlanStatusWords with 8. rewrite (Hmul R 4) by lia. cbn [mbind option_bind].
  rewrite CompatAddRegion_ok by lia. fold ids. rewrite (align_to_fix 64 ids) by lia. cbn [mbind option_bind].
  rewrite (Hmul cap 3) by lia. cbn [mbind option_bind]. rewrite (Hmul (cap * 3) 4) by lia. cbn [mbind option_bind]. rewrite CompatAddRegion_ok by lia. fold groups. cbn [mbind option_bind].
  rewrite (Hmul cap 4) by lia. cbn [mbind option_bind]. rewrite CompatAddRegion_ok by lia. fold loffs. cbn [mbind option_bind].
  rewrite (Hmul 2 4) by lia. cbn [mbind option_bind]. change (2 * 4) with 8. rewrite CompatAddRegion_ok by lia. fold counts. cbn [mbind option_bind].
  rewrite (Hmul 8 4) by lia. cbn [mbind option_bind]. change (8 * 4) with 32. rewrite CompatAddRegion_ok by lia. fold status. cbn [mbind option_bind].
  rewrite CompatAlign_ok by lia. cbn [mbind option_bind]. by rewrite (proj2 (Z.ltb_ge _ _)) by lia.
Qed.
End layout.

(** A layout that is built is that one. *)
Lemma compat_layout_inv R s k E l : is_i64 R -> is_i64 s -> is_i64 k -> is_i64 E -> BuildMoonEpCompatLayout R s k E = Some l ->
  exists L, admissible R s k E (MakeMoonEpCompatConfig R s k E) /\ BuildPlanWorkspaceLayout R s k E (MakeMoonEpCompatConfig R s k E) = Some L /\ l = compat_at R s k L.
Proof.
  intros HR Hs Hk HE H. unfold is_i64 in *. pose proof H as Hb. unfold BuildMoonEpCompatLayout in H. case_if_in H; [done|]. b2p. cbv zeta in H.
  assert (s * k <= INT64_MAX) as Hsk. { pose proof (Z.mul_div_le INT64_MAX k ltac:(lia)). nia. } pose proof (Z.mul_pos_pos s k ltac:(lia) ltac:(lia)).
  pose proof (Z.div_pos E R ltac:(lia) ltac:(lia)). pose proof (Z.div_le_upper_bound E R E ltac:(lia) ltac:(nia)).
  destruct (BuildPlanWorkspaceLayout R s k E (MakeMoonEpCompatConfig R s k E)) as [L|] eqn:EL; [|done]. exists L.
  assert (admissible R s k E (MakeMoonEpCompatConfig R s k E)) as Ha. { eapply Build_admissible; try exact EL; unfold is_i64; cbn [MakeMoonEpCompatConfig prefetchSlots nvS]; lia. }
  rewrite (compat_layout_eq R s k E L Ha EL) in Hb. injection Hb as <-. done.
Qed.

(** ** The call *)

Lemma IsAligned_pow p n : 0 <= n -> 0 < p -> p mod 2 ^ n = 0 -> IsAligned p (2 ^ n) = true.
Proof.
  intros Hn Hp Hm. unfold IsAligned. rewrite (proj2 (Z.eqb_neq p 0)) by lia. replace (2 ^ n - 1) with (Z.ones n) by (rewrite Z.ones_equiv; lia).
  rewrite Z.land_ones by done. by rewrite Hm.
Qed.

Lemma aligned4 p : 0 < p -> p mod 4 = 0 -> ValidInt32Pointer p = true.
Proof. apply (IsAligned_pow p 2). lia. Qed.

(** The caller's pointers and numbers. *)
Record CompatPointers := {
  cp_topk : Z; cp_tokens : Z; cp_workspace : Z; cp_bytes : Z; cp_dst : Z; cp_cuSeqlens : Z; cp_expertsToCopy : Z; cp_remoteStats : Z; cp_status : Z; cp_wait : Z; cp_stream : Z
}.

(** A communicator that is set up, a runtime that answers with success, and pointers that can be used. *)
Record compat_call (c : TileXRComm) (rt : Runtime) (q : CompatPointers) : Prop := {
  cc_ranks : 0 < hc_rankSize (commArgs_ c) <= 128 /\ 0 <= hc_rank (commArgs_ c) < hc_rankSize (commArgs_ c);
  cc_chip : Z.land (hc_extraFlag (commArgs_ c)) ExtraFlag_TOPO_910A5 <> 0;
  cc_servers : 0 < hc_localRankSize (commArgs_ c) /\ hc_rankSize (commArgs_ c) mod hc_localRankSize (commArgs_ c) = 0;
  cc_device : commArgsPtr_ c <> 0;
  cc_peers : forall p, 0 <= p < hc_rankSize (commArgs_ c) -> hc_peerMems (commArgs_ c) p <> 0;
  cc_magic : 0 < magic_ c < INT64_MAX - 1;
  cc_runtime : rt_registered rt = 0 /\ rt_launched rt = 0 /\ rt_memcpy rt = 0 /\ forall dst, rt_memcpyAsync rt dst = 0;
  cc_tables : Forall (fun p => 0 < p /\ p mod 4 = 0) [cp_topk q; cp_tokens q; cp_dst q; cp_cuSeqlens q; cp_expertsToCopy q; cp_remoteStats q];
  cc_numbers : cp_status q <> 0 /\ cp_wait q <> 0 /\ cp_stream q <> 0;
  cc_workspace : 0 < cp_workspace q /\ cp_workspace q mod 64 = 0
}.

Lemma metadata_ok c rt q E : compat_call c rt q -> 0 < E <= 1048512 -> ValidateRuntimeMetadata (commArgs_ c) (commArgsPtr_ c) E = TILEXR_SUCCESS.
Proof.
  intros H HE. unfold ValidateRuntimeMetadata. rewrite (proj2 (Z.eqb_neq _ 0)) by apply (cc_device _ _ _ H).
  destruct (existsb _ _) eqn:Ex. { exfalso. apply existsb_exists in Ex as (p & Hp & E0). apply list_elem_of_In, elem_of_seqZ in Hp. apply Z.eqb_eq in E0. by apply (cc_peers _ _ _ H p); [lia|]. }
  by rewrite mailbox_accepted by (done || apply (cc_ranks _ _ _ H)).
Qed.

(** The rank ids of the call are all different exactly when a server has at most eight cards or there is
    one server. *)
Lemma compat_ids_distinct R n inp : 0 < n -> 0 < R -> R mod n = 0 -> in_rankSize inp = R -> (forall r, 0 <= r < R -> globalRankIds inp r = compat_rank_id n r) ->
  (duplicate_rank_ids inp = false <-> n <= 8 \/ n = R).
Proof.
  intros Hn HR Hm ER Hid. unfold duplicate_rank_ids. rewrite ER. split.
  - intros Hd. destruct (Z.le_gt_cases n 8) as [|H8]; [by left|]. destruct (Z.eq_dec n R) as [|Hne]; [by right|]. exfalso.
    assert (n < R) as Hlt. { apply Z_div_exact_full_2 in Hm; [|lia]. assert (R / n <> 0 /\ R / n <> 1) by (split; intros E; rewrite E in Hm; lia). pose proof (Z.div_pos R n ltac:(lia) ltac:(lia)). nia. }
    assert (existsb (fun lhs => (globalRankIds inp lhs <? 0) || existsb (fun rhs => globalRankIds inp lhs =? globalRankIds inp rhs) (seqZ 0 lhs)) (seqZ 0 R) = true) as Hx; [|congruence].
    apply existsb_exists. exists n. split; [apply list_elem_of_In, elem_of_seqZ; lia|]. apply orb_true_iff. right.
    apply existsb_exists. exists 8. split; [apply list_elem_of_In, elem_of_seqZ; lia|]. rewrite !Hid by lia. unfold compat_rank_id, kPlanCardsPerServer.
    rewrite Z.div_same, Z_mod_same_full, (Z.div_small 8 n), (Z.mod_small 8 n) by lia. done.
  - intros Hc. destruct (existsb _ _) eqn:Ex; [|done]. exfalso. apply existsb_exists in Ex as (l & Hl & Ex). apply list_elem_of_In, elem_of_seqZ in Hl.
    rewrite Hid in Ex by lia. unfold compat_rank_id, kPlanCardsPerServer in Ex. pose proof (Z.mod_pos_bound l n Hn). pose proof (Z.div_pos l n ltac:(lia) Hn).
    apply orb_true_iff in Ex as [Ex%Z.ltb_lt|Ex]; [lia|]. apply existsb_exists in Ex as (r & Hr & Ex%Z.eqb_eq). apply list_elem_of_In, elem_of_seqZ in Hr.
    rewrite Hid in Ex by lia. unfold compat_rank_id, kPlanCardsPerServer in Ex. pose proof (Z.mod_pos_bound r n Hn). pose proof (Z.div_pos r n ltac:(lia) Hn).
    pose proof (Z.div_mod l n ltac:(lia)). pose proof (Z.div_mod r n ltac:(lia)). destruct Hc as [H8| ->].
    + assert (l / n = r / n) by lia. nia.
    + rewrite (Z.div_small l R), (Z.mod_small l R), (Z.div_small r R), (Z.mod_small r R) in * by lia. lia.
Qed.

(** The arguments of the prepared call. *)
Definition compat_arguments (q : CompatPointers) (ca : HostCommArgs) (s k E epoch : Z) (l : MoonEpCompatLayout) : PlanHostArguments :=
  let base := cp_workspace q in let config := MakeMoonEpCompatConfig (hc_rankSize ca) s k E in
  {| ha_topkExperts := cp_topk q; ha_tokensPerExpert := cp_tokens q; ha_globalRankIds := (base + cl_globalRankIdsOffset l)%u64; ha_s := s; ha_topK := k; ha_expertNum := E;
     ha_config := Automatic config;
     ha_plan := Automatic (compat_plan base l config (hc_rankSize ca) s k E (cp_dst q) (cp_cuSeqlens q) (cp_expertsToCopy q) (cp_remoteStats q) epoch);
     ha_remoteExperts := 0; ha_expertTargets := 0; ha_localWorkspace := (base + cl_localWorkspaceOffset l)%u64;
     ha_localWorkspaceBytes := l_totalBytes (local (cl_optimized l)); ha_registeredMetaWorkspace := (base + cl_registeredMetaOffset l)%u64;
     ha_registeredMetaBytes := m_totalBytes (registeredMeta (cl_optimized l)); ha_waitIterations := cp_wait q; ha_stream := cp_stream q |}.

Lemma i64_small x : 0 <= x <= INT64_MAX -> i64 x = x.
Proof. intros H. unfold i64, INT64_MAX in *. cbv zeta. rewrite u64_small by lia. by rewrite (proj2 (Z.leb_le _ _)) by lia. Qed.

Section call.
Context (c : TileXRComm) (rt : Runtime) (q : CompatPointers) (s k E : Z) (L : PlanWorkspaceLayout).
Let R := hc_rankSize (commArgs_ c).
Context (H : compat_call c rt q) (HE : 0 < E <= 1048512).
Context (Had : admissible R s k E (MakeMoonEpCompatConfig R s k E)) (HL : BuildPlanWorkspaceLayout R s k E (MakeMoonEpCompatConfig R s k E) = Some L).
Let l := compat_at R s k L.
Context (Hfit : cp_workspace q + cl_totalBytes l <= UINT64_MAX).

Lemma compat_addresses : Forall (fun o => 0 <= o < cl_totalBytes l /\ o mod 64 = 0 /\ u64 (cp_workspace q + o) = cp_workspace q + o /\ IsAligned (u64 (cp_workspace q + o)) 64 = true /\
    ValidInt32Pointer (u64 (cp_workspace q + o)) = true)
  [0; cl_registeredMetaOffset l; cl_globalRankIdsOffset l; cl_dupGroupsOffset l; cl_dupLoffsOffset l; cl_dupCountsOffset l; cl_statusOffset l].
Proof using H Had HL Hfit.
  destruct (compat_totals R s k E L Had HL) as (H1 & H2 & H3 & H4). destruct (compat_steps R s k E L Had HL) as (S1 & S2 & S3 & S4 & S5 & S6 & S7 & S8 & S9 & S10 & S11 & S12 & S13). cbv zeta in *.
  destruct (cc_workspace _ _ _ H) as [Hw Hm].
  assert (forall o, 0 <= o < cl_totalBytes l -> o mod 64 = 0 -> 0 <= o < cl_totalBytes l /\ o mod 64 = 0 /\ u64 (cp_workspace q + o) = cp_workspace q + o /\
    IsAligned (u64 (cp_workspace q + o)) 64 = true /\ ValidInt32Pointer (u64 (cp_workspace q + o)) = true) as Hall.
  { intros o Ho Hom. rewrite u64_small by (unfold UINT64_MAX in *; lia). split; [done|]. split; [done|]. split; [done|].
    assert ((cp_workspace q + o) mod 64 = 0) as Hs by div_lia. split; [apply (IsAligned_pow _ 6); [lia|lia|done]|apply aligned4; [lia|div_lia]]. }
  unfold l, compat_at in *. cbn [cl_registeredMetaOffset cl_globalRankIdsOffset cl_dupGroupsOffset cl_dupLoffsOffset cl_dupCountsOffset cl_statusOffset cl_totalBytes] in *.
  repeat (apply Forall_cons; split; [apply Hall; [lia|first [done|lia]]|]). done.
Qed.

Lemma compat_prepared comm : commArgs_ comm = commArgs_ c -> commArgsPtr_ comm = commArgsPtr_ c ->
  PreparePlanLaunchContext (Some comm) (compat_arguments q (commArgs_ c) s k E (magic_ c) l) =
  inl {| hx_layout := L; hx_callHeader := FillHeader R s k E (MakeMoonEpCompatConfig R s k E) (magic_ c) 0; hx_rank := hc_rank (commArgs_ c); hx_deviceCommArgs := commArgsPtr_ c |}.
Proof using H HE Had HL Hfit.
  intros Ec Ep. unfold PreparePlanLaunchContext. cbn -[ValidatePlanHostArguments compat_arguments]. rewrite Ec, Ep.
  rewrite (proj2 (Z.eqb_neq _ 0)) by apply (cc_device _ _ _ H). pose proof compat_addresses as Hall.
  rewrite !Forall_cons in Hall. destruct Hall as ((_ & _ & U0 & A0 & _) & (_ & _ & U1 & A1 & _) & (_ & _ & U2 & _ & A2) & (_ & _ & U3 & _ & A3) & (_ & _ & U4 & _ & A4) & (_ & _ & U5 & _ & A5) & (_ & _ & U6 & _ & A6) & _).
  pose proof (cc_tables _ _ _ H) as Ht. rewrite !Forall_cons in Ht. destruct Ht as ((T1 & T1') & (T2 & T2') & (T3 & T3') & (T4 & T4') & (T5 & T5') & (T6 & T6') & _).
  destruct (cc_numbers _ _ _ H) as (N1 & N2 & N3). destruct (cc_ranks _ _ _ H) as [HR Hrk]. destruct (cc_workspace _ _ _ H) as [Hw _]. destruct (cc_magic _ _ _ H) as [M1 M2].
  unfold ValidatePlanHostArguments, compat_arguments.
  cbn [hostCommArgs deviceCommArgs ha_topkExperts ha_tokensPerExpert ha_globalRankIds ha_s ha_topK ha_expertNum ha_config ha_plan ha_remoteExperts ha_expertTargets
    ha_localWorkspace ha_localWorkspaceBytes ha_registeredMetaWorkspace ha_registeredMetaBytes ha_waitIterations ha_stream deref ref_aligned negb].
  fold R. change (cl_localWorkspaceOffset l) with 0. change kPlanWorkspaceAlignment with 64. rewrite A0, A1, A2, U0, U1, U2.
  assert (0 <= cl_registeredMetaOffset l /\ 0 <= cl_globalRankIdsOffset l) as [P1 P2].
  { destruct (compat_totals R s k E L Had HL) as (H1 & _ & H3 & _). unfold l, compat_at. cbn [cl_registeredMetaOffset cl_globalRankIdsOffset]. lia. }
  case_if; [exfalso; b2p; lia|]. cbn [orb]. change (negb (Bool.eqb (negb (0 =? 0)) (negb (0 =? 0)))) with false. change (negb (0 =? 0)) with false. cbn [andb orb].
  rewrite (aligned4 (cp_topk q)), (aligned4 (cp_tokens q)) by done. unfold ValidPlanPointers, compat_plan. cbn [d_dst d_cuSeqlens d_expertsToCopy d_remoteStats d_dupGroups d_dupLoffs d_dupCounts d_status].
  rewrite (aligned4 (cp_dst q)), (aligned4 (cp_cuSeqlens q)), (aligned4 (cp_expertsToCopy q)), (aligned4 (cp_remoteStats q)), A3, A4, A5, A6 by done. cbn [negb andb orb].
  fold R in HR, Hrk. unfold TILEXR_MAX_RANK_SIZE. case_if; [exfalso; b2p; lia|]. rewrite (proj2 (Z.eqb_neq _ 0)) by apply (cc_chip _ _ _ H).
  unfold PlanIdentityMatches. cbn [d_s d_k d_r d_e d_b d_cap d_nvS d_tokenPadding d_epoch ha_s ha_topK ha_expertNum]. rewrite !Z.eqb_refl, u64_small by (unfold INT64_MAX in *; lia).
  rewrite (proj2 (Z.eqb_neq (magic_ c) 0)) by lia. cbn [andb negb]. rewrite HL. unfold ValidatePlanWorkspaceBytes. change (cl_optimized l) with L. rewrite !Z.ltb_irrefl. cbn [orb negb].
  rewrite (metadata_ok _ _ _ _ H HE). cbn [Z.eqb TILEXR_SUCCESS negb]. unfold BuildPlanCallHeader. rewrite (proj2 (Z.eqb_neq (magic_ c) 0)), HL by lia.
  rewrite (i32_small R) by (unfold INT32_MAX; lia). done.
Qed.
End call.

Lemma compat_comm c rt q : compat_call c rt q -> GetCompatCommArgs (Some c) = inl (commArgs_ c).
Proof.
  intros H. unfold GetCompatCommArgs. cbn -[Z.leb Z.ltb]. destruct (cc_ranks _ _ _ H). case_if; [exfalso; b2p; lia|]. by rewrite (proj2 (Z.eqb_neq _ 0)) by apply (cc_chip _ _ _ H).
Qed.

(** The remote experts of the local workspace: one slot per expert. *)
Lemma compat_remote R s k E L : admissible R s k E (MakeMoonEpCompatConfig R s k E) -> BuildPlanWorkspaceLayout R s k E (MakeMoonEpCompatConfig R s k E) = Some L ->
  let r := l_remoteExpertSet (local L) in bytes r = E * 4 /\ 0 <= offset r /\ offset r + bytes r <= l_totalBytes (local L).
Proof.
  intros Had HL r. destruct (Build_eq _ _ _ _ _ Had) as (L' & HL' & E1 & E2 & _). rewrite HL in HL'. injection HL' as <-. cbn [MakeMoonEpCompatConfig tokenRouteLimitPerPair prefetchSlots] in E1, E2.
  destruct Had as (Hr & Hs & Hk & He & Hm & He4 & Hb & _ & _ & _ & _ & _ & Hnv & _ & Hrn). cbn [MakeMoonEpCompatConfig nvS prefetchSlots] in *. unfold INT32_MAX in *. assert (0 < s * k <= 2147483647) by nia.
  destruct (sizes_nonneg R s k E (E / R) ltac:(lia) ltac:(lia) ltac:(lia) ltac:(lia) 0) as [N1 _].
  pose proof (place_disjoint _ N1) as [Hin _]. specialize (Hin 4%nat (region_pair r)). rewrite <- E1, <- E2 in Hin. destruct (Hin eq_refl) as (_ & G1 & _ & G2). cbn [region_pair fst snd] in G1, G2.
  pose proof (f_equal (fun x => nth 4 x 0) (place_sizes 64 (local_sizes R s k E (E / R) 0) 0)) as Es. cbv beta in Es. rewrite <- E1 in Es.
  change (bytes r = R * (E / R) * 4) in Es. pose proof (Z_div_exact_full_2 E R ltac:(lia) Hm). split; [lia|]. done.
Qed.

(** The call up to the copies, with what the kernel is given. *)
Lemma compat_run c rt q s k E L : let R := hc_rankSize (commArgs_ c) in let l := compat_at R s k L in let base := cp_workspace q in
  compat_call c rt q -> 0 < E <= 1048512 -> admissible R s k E (MakeMoonEpCompatConfig R s k E) ->
  BuildPlanWorkspaceLayout R s k E (MakeMoonEpCompatConfig R s k E) = Some L -> cl_totalBytes l <= cp_bytes q -> base + cl_totalBytes l <= UINT64_MAX ->
  exists ka,
    TileXRMoonEpPlannerV2 rt (cp_topk q) (cp_tokens q) (Some c) s k E base (cp_bytes q) (cp_dst q) (cp_cuSeqlens q) (cp_expertsToCopy q)
      (cp_remoteStats q) (cp_status q) (cp_wait q) (cp_stream q) =
    Some (TILEXR_SUCCESS, Some {| commArgs_ := commArgs_ c; commArgsPtr_ := commArgsPtr_ c; magic_ := magic_ c + 2 |},
      [MemcpyToDevice (base + cl_globalRankIdsOffset l) (compat_rank_id (hc_localRankSize (commArgs_ c)) <$> seqZ 0 R); LaunchKernel ka;
       MemcpyAsync (cp_expertsToCopy q) (base + offset (l_remoteExpertSet (local L))) (E * 4); MemcpyAsync (cp_status q) (base + cl_statusOffset l) 4]) /\
    ka_globalRankIds ka = base + cl_globalRankIdsOffset l /\ ka_status ka = base + cl_statusOffset l /\ ka_localWorkspace ka = base /\
    ka_metaWorkspace ka = base + cl_registeredMetaOffset l /\ ka_epoch ka = magic_ c /\ ka_magic ka = magic_ c + 1 /\ ka_rank ka = hc_rank (commArgs_ c) /\ ka_rankSize ka = R.
Proof.
  intros R l base H HE Had HL Hsz Hw. pose proof (compat_prepared c rt q s k E L H HE Had HL Hw) as Hprep.
  pose proof (compat_addresses c rt q s k E L H Had HL Hw) as Hall. fold R l in Hprep, Hall. cbv zeta in Hprep, Hall. 
  rewrite !Forall_cons in Hall. destruct Hall as ((_ & _ & U0 & _) & (_ & _ & U1 & _) & (_ & _ & U2 & _) & (_ & _ & U3 & _) & (_ & _ & U4 & _) & (_ & _ & U5 & _) & (_ & _ & U6 & _) & _).
  pose proof (cc_tables _ _ _ H) as Ht. rewrite !Forall_cons in Ht. destruct Ht as ((T1 & _) & (T2 & _) & (T3 & _) & (T4 & _) & (T5 & _) & (T6 & _) & _).
  destruct (cc_numbers _ _ _ H) as (N1 & N2 & N3), (cc_workspace _ _ _ H) as [Hw0 Hw1], (cc_magic _ _ _ H) as [M1 M2], (cc_servers _ _ _ H) as [V1 V2], (cc_runtime _ _ _ H) as (Q1 & Q2 & Q3 & Q4).
  fold R in V2. destruct (compat_remote R s k E L Had HL) as (Rb & R0 & R1). cbv zeta in *. destruct (cc_ranks _ _ _ H) as [HR Hrk]. fold R in HR, Hrk. subst base.
  destruct (compat_totals R s k E L Had HL) as (B1 & _ & B2 & _). destruct (compat_steps R s k E L Had HL) as (S1 & S2 & S3 & S4 & S5 & S6 & S7 & _ & _ & _ & _ & S12 & S13). cbv zeta in *.
  assert (l_totalBytes (local L) <= cl_totalBytes l) as Hlt by (unfold l, compat_at; cbn [cl_totalBytes]; lia).
  unfold TileXRMoonEpPlannerV2. change kPlanWorkspaceAlignment with 64. case_if; [exfalso; b2p; lia|]. rewrite (compat_comm _ _ _ H). fold R. rewrite (compat_layout_eq R s k E L Had HL). fold l.
  rewrite (proj2 (Z.ltb_ge _ _)) by done. case_if; [exfalso; b2p; lia|]. cbn [TileXRCommNextMagic NextMagic]. cbv zeta. change (negb (TILEXR_SUCCESS =? TILEXR_SUCCESS)) with false. cbv iota.
  match goal with |- context [PreparePlanLaunchContext _ ?a] => change a with (compat_arguments q (commArgs_ c) s k E (magic_ c) l) end.
  rewrite (Hprep {| commArgs_ := commArgs_ c; commArgsPtr_ := commArgsPtr_ c; magic_ := i64 (magic_ c + 1) |} eq_refl eq_refl).
  unfold compat_launch. rewrite Q3. change (negb (0 =? 0)) with false. cbv iota zeta. unfold LaunchPlanKernel. cbn [TileXRCommNextMagic NextMagic magic_ commArgs_ commArgsPtr_].
  change (negb (TILEXR_SUCCESS =? TILEXR_SUCCESS)) with false. cbv iota. cbn [compat_arguments ha_plan ha_config ha_globalRankIds deref mbind option_bind].
  unfold LaunchRegisteredMoonEpKernel. rewrite Q1, Q2. change (negb (0 =? TILEXR_SUCCESS)) with false. change (negb (0 =? 0)) with false. cbv iota. cbn [mbind option_bind].
  change (negb (TILEXR_SUCCESS =? TILEXR_SUCCESS)) with false. cbv iota. rewrite !Q4. change (negb (0 =? 0)) with false. cbv iota. cbn [app compat_plan d_status].
  change (cl_optimized l) with L. rewrite Rb. unfold sizeof_int32. rewrite (u64_small (cp_workspace q + offset _)) by (unfold UINT64_MAX in *; lia).
  rewrite (i64_small (magic_ c + 1)), (i64_small (magic_ c + 1 + 1)), U2, U6 by lia. replace (magic_ c + 1 + 1) with (magic_ c + 2) by lia.
  eexists. split; [reflexivity|]. cbn [ka_globalRankIds ka_status ka_localWorkspace ka_metaWorkspace ka_epoch ka_magic ka_rank ka_rankSize hx_rank hx_callHeader h_rankSize FillHeader d_epoch ha_localWorkspace ha_registeredMetaWorkspace].
  cbn [compat_arguments ha_localWorkspace ha_registeredMetaWorkspace compat_plan d_epoch]. change (cl_localWorkspaceOffset l) with 0. rewrite U0, U1, Z.add_0_r.
  rewrite (u64_small (magic_ c)) by (unfold INT64_MAX in *; lia). done.
Qed.

(** C21: the planner call on one workspace. When the size query has answered [bytes], a call on an
    aligned workspace of at least that size, with a communicator that is set up and a runtime that does what
    it is asked, succeeds: the rank ids are copied to the device, one kernel is launched with
    the epoch and the magic taken one after the other from the communicator, the remote experts are copied
    out of the local workspace and the status word to the caller. The local
    workspace, the registered metadata, the rank ids and the status words lie in
    the workspace of the caller, aligned and apart. The rank ids that the call makes up pass the
    check of the planner exactly when a server has at most eight cards or there is only
    one server: with more cards two ranks get the same id and every plan is refused. *)
Theorem plan_compat_call c rt q s k E sizeAt capAt size cap : compat_call c rt q -> is_i64 s -> is_i64 k -> is_i64 E -> E <= 1048512 ->
  TileXRMoonEpPlannerGetWorkspaceSizeV2 (Some c) s k E sizeAt capAt = (TILEXR_SUCCESS, Some (size, cap)) ->
  size <= cp_bytes q -> cp_workspace q + size <= UINT64_MAX ->
  let R := hc_rankSize (commArgs_ c) in let n := hc_localRankSize (commArgs_ c) in
  cap = s * k /\
  (exists c' ka localBytes metaBytes remoteAt,
     TileXRMoonEpPlannerV2 rt (cp_topk q) (cp_tokens q) (Some c) s k E (cp_workspace q) (cp_bytes q) (cp_dst q) (cp_cuSeqlens q) (cp_expertsToCopy q)
       (cp_remoteStats q) (cp_status q) (cp_wait q) (cp_stream q) =
     Some (TILEXR_SUCCESS, Some c', [MemcpyToDevice (ka_globalRankIds ka) (compat_rank_id n <$> seqZ 0 R); LaunchKernel ka;
       MemcpyAsync (cp_expertsToCopy q) remoteAt (E * 4); MemcpyAsync (cp_status q) (ka_status ka) 4]) /\
     TileXRMoeEpPlanV2GetWorkspaceSize R s k E (MakeMoonEpCompatConfig R s k E) = Some (localBytes, metaBytes) /\
     commArgs_ c' = commArgs_ c /\ magic_ c' = magic_ c + 2 /\ ka_epoch ka = magic_ c /\ ka_magic ka = magic_ c + 1 /\ ka_rank ka = hc_rank (commArgs_ c) /\ ka_rankSize ka = R /\
     disjoint_regions 64 (cp_workspace q) [(ka_localWorkspace ka, localBytes); (ka_metaWorkspace ka, metaBytes); (ka_globalRankIds ka, R * 4);
       (ka_status ka, kPlanStatusWords * 4)] (cp_workspace q + size) /\
     ka_localWorkspace ka <= remoteAt /\ remoteAt + E * 4 <= ka_localWorkspace ka + localBytes) /\
  (forall inp, in_rankSize inp = R -> (forall r, 0 <= r < R -> globalRankIds inp r = compat_rank_id n r) -> (duplicate_rank_ids inp = false <-> n <= 8 \/ n = R)).
Proof.
  intros H Hs Hk Hi HE Hq Hsz Hw R n. unfold TileXRMoonEpPlannerGetWorkspaceSizeV2 in Hq. case_if_in Hq; [done|]. rewrite (compat_comm _ _ _ H) in Hq.
  destruct (cc_ranks _ _ _ H) as [HR Hrk]. fold R in Hq, HR, Hrk. destruct (BuildMoonEpCompatLayout R s k E) as [l|] eqn:El; [|done]. injection Hq as <- <-.
  apply compat_layout_inv in El as (L & Had & HL & ->); [|unfold is_i64, INT64_MAX; lia|done..].
  split; [done|]. split; [|intros inp Ein Hids; destruct (cc_servers _ _ _ H); by apply (compat_ids_distinct R n inp); [..|lia| | |]].
  assert (0 < E) as HE0 by apply Had. destruct (compat_run c rt q s k E L H ltac:(lia) Had HL Hsz Hw) as (ka & Hrun & K1 & K2 & K3 & K4 & K5 & K6 & K7 & K8).
  destruct (compat_remote R s k E L Had HL) as (Rb & R0 & R1). destruct (cc_workspace _ _ _ H) as [Hw0 Hw1].
  destruct (compat_totals R s k E L Had HL) as (B1 & B2 & B3 & B4). destruct (compat_steps R s k E L Had HL) as (S1 & S2 & S3 & S4 & S5 & S6 & S7 & _ & _ & _ & S11 & S12 & S13). cbv zeta in *.
  eexists _, ka, (l_totalBytes (local L)), (m_totalBytes (registeredMeta L)), _. rewrite K1, K2, K3, K4, K5, K6, K7, K8. split; [exact Hrun|].
  split; [unfold TileXRMoeEpPlanV2GetWorkspaceSize; by rewrite HL|]. do 6 (split; [done|]). split; [|lia].
  apply packed_disjoint. unfold compat_at. cbn -[Z.mul Z.add align_to Z.modulo]. change (kPlanStatusWords * 4) with 32. fold R.
  assert (forall o, o mod 64 = 0 -> (cp_workspace q + o) mod 64 = 0) as Hm by (intros o Ho; div_lia). split_and!; first [done|apply Hm; done|lia].
Qed.

(** ** A call *)

Module SampleCompat.
Definition pointers : CompatPointers :=
  {| cp_topk := 4096; cp_tokens := 8192; cp_workspace := 65536; cp_bytes := 65536; cp_dst := 12288; cp_cuSeqlens := 16384; cp_expertsToCopy := 20480; cp_remoteStats := 24576;
     cp_status := 28672; cp_wait := 16; cp_stream := 1 |}.
Definition query : Z * option (Z * Z) := TileXRMoonEpPlannerGetWorkspaceSizeV2 (Some (SampleHost.comm 1)) 4 2 4 64 128.
End SampleCompat.

Lemma plan_compat_call_witness : exists size c' effects, SampleCompat.query = (TILEXR_SUCCESS, Some (size, 8)) /\
  TileXRMoonEpPlannerV2 SampleHost.rt 4096 8192 (Some (SampleHost.comm 1)) 4 2 4 65536 65536 12288 16384 20480 24576 28672 16 1 = Some (TILEXR_SUCCESS, Some c', effects) /\ magic_ c' = 7.
Proof.
  assert (compat_call (SampleHost.comm 1) SampleHost.rt SampleCompat.pointers) as H.
  { constructor; unfold INT64_MAX; cbn -[Z.land]; first [lia|discriminate|by repeat constructor|intros; lia|done|idtac]. }
  assert (SampleCompat.query = (TILEXR_SUCCESS, Some (2304, 8))) as E by (vm_compute; reflexivity).
  destruct (plan_compat_call (SampleHost.comm 1) SampleHost.rt SampleCompat.pointers 4 2 4 64 128 2304 8 H
    ltac:(split; vm_compute; discriminate) ltac:(split; vm_compute; discriminate) ltac:(split; vm_compute; discriminate) ltac:(lia) E
    ltac:(vm_compute; discriminate) ltac:(vm_compute; discriminate)) as (_ & (c' & ka & lb & mb & at_ & Hrun & _ & _ & Hm & _) & _).
  eexists _, c', _. split; [exact E|]. split; [exact Hrun|exact Hm].
Defined.
